(* ===== verification/_CoqProject ===== *)
-Q . S2P
Prelude.v
Errors.v
Identifiers.v
RuntimeTime.v
FsPath.v
Json.v
ConfigDomain.v
SnapshotInventory.v
IncrementalParent.v
RetentionPlan.v
PendingRecovery.v
RunActions.v
BackupRunPlan.v
Ports.v
Effects.v
Mounts.v
Planning.v
Storage.v
Transfer.v
ActionHandlers.v
RunExecutor.v
RunGuarantees.v
RunContext.v
BackupService.v
ServiceGuarantees.v
RunStatus.v
StatusBuilder.v
StatusDocument.v
StatusProjection.v
Provisioning.v
Preparation.v
PreparationDocument.v
PreparationStore.v
PreparationDevices.v
Interaction.v
ManagerAuthorization.v
ProvisioningService.v
ProvisioningIsolation.v
ProvisioningSource.v
PreparationExecutor.v
PreparationSafety.v
PreparationRuns.v
ProfileDocument.v
Fingerprint.v
ProfileArtifacts.v
FileSystem.v
ConfigTransaction.v
ProfileInstall.v
RunStateStore.v
RunCancellation.v
BrowsePages.v
BrowseSessions.v
BrowseAccess.v
ProfileAdministration.v
RestoreCatalog.v
BrowseBackend.v
RestoreEngine.v
PosixRestore.v
RestoreGuarantees.v
