(* ===== verification/Prelude.v ===== *)
(** * btrfs-backup: a verification library

    btrfs-backup makes incremental Btrfs backups of the sources of a profile to an
    encrypted target.  The program (src/) is layered: [core] (errors, identifiers,
    time), [config] (profiles and their validation), [backup] (the engine: planning
    a run, executing it, the service a caller sees), [state] (published status,
    history, markers), [restore], [provisioning], and around them the Linux adapters
    ([platform]), the command line tools ([cli]), the manager daemon ([daemon]) and a
    desktop integration.  The engine talks to the rest only through interfaces
    (src/backup/ports).  The manager prepares devices as backup targets: its
    provisioning service inspects the storage, plans a change and asks for
    authorisation, a worker process makes the change, and both share a transaction
    document on disk.  It also mounts a target read-only for clients that browse it, and
    administers profiles and credentials.  This library models [core], [config], the whole
    engine, the status and the state of runs ([state]), [restore], [provisioning], of
    [platform] the installation of profiles and the restore operations, and of [daemon]
    the operational control, the preparation of devices, browsing and the administration
    of profiles and credentials.

    ** Files

    - Prelude: tactics, hint databases, lemmas on strings, lists and sorting.
    - Errors (src/core/ErrorCode, Errors): error codes, exceptions, the error monad.
    - Identifiers (src/core/Identifiers): validated identifiers.
    - RuntimeTime (src/core/RuntimeTime): calendar, UTC texts, local dates; time
      points are 64-bit counts of nanoseconds, with wrap-around written out.
    - FsPath: the lexical part of [std::filesystem::path].
    - ConfigDomain (src/config/domain): validation, validated paths, the profile.
    - SnapshotInventory, IncrementalParent, RetentionPlan, PendingRecovery,
      BackupRunPlan (src/backup/model): the pure decisions of a run.
    - RunActions: actions, events, checkpoints, plans and results as data.
    - Ports: the operations of the interfaces the engine calls, as the signatures
      [Port] (may throw) and [NPort] (declared noexcept).
    - Effects: the monad of effectful code and its program logic (below).
    - Mounts, Planning (src/backup/planning, IMountInspector): validation of mounts,
      preflight, discovery, plan building.
    - Storage (TargetStorageMeasurement, TargetStorageRecorder).
    - Transfer (src/backup/transfer): results, commands, commit, the coordinator.
    - ActionHandlers, RunExecutor (src/backup/execution): the handlers, the
      dispatcher, the action executor, the loops of the run executor.
    - RunGuarantees: what a run may delete and when; termination.
    - RunContext (RunExecutionContext, RunSessionFactory): the resources of a run.
    - BackupService (src/backup/BackupService): plan, start, cancel.
    - ServiceGuarantees: what the service promises its callers.
    - Json: JSON values, and the text functions of the JSON library as the interface
      [JsonText] with its laws.
    - RunStatus, StatusBuilder, StatusDocument, StatusProjection (src/state): the
      published status, how it is built from the events of a run, its public and
      private documents, and the event sink that writes them.
    - Provisioning (src/provisioning): storage topology, configured targets, plans of
      a preparation, the storage safety inspector.
    - Preparation, PreparationDocument, PreparationStore
      (DevicePreparationTransaction, its codec and store in src/daemon/control): the
      transaction, its document, and the store that daemon and worker share.
    - PreparationDevices (ProvisioningDeviceEnumerator,
      DestructiveDeviceSafetyInspector): identity and safety of the device to change.
    - Interaction: programs of the daemon and their logic (below).
    - ManagerAuthorization (OperationalControlService): start, cancel, validate, eject.
    - ProvisioningService, ProvisioningIsolation (DeviceProvisioningService): the
      requests of the provisioning service, alone and interleaved.
    - ProvisioningSource: the sources a preparation may name.
    - PreparationExecutor, PreparationSafety, PreparationRuns
      (DevicePreparationExecutor, DevicePreparationRecovery, ExistingTargetInspector):
      the worker, what it guarantees, and runs of it in every mode.
    - ProfileDocument (src/config/json): normalisation, decoding and encoding of profile
      documents.  Fingerprint (ProfileFingerprint): the fingerprint of a configuration,
      SHA-256 included.  ProfileArtifacts (ProfileRender, ProfileArtifactRenderer): the
      udev rule, units and documents installed for a profile.
    - FileSystem (FileIo, TrustedFile, FileLock in src/platform/linux/filesystem): a file
      system whose calls may fail, atomic writes, trusted reads, locks.
    - ConfigTransaction (ProfileConfigurationTransaction): staging, publishing, activating
      and rolling back a set of files.
    - ProfileInstall (ProfileInstaller, FileProfileRepository, ProfileRuntimePolicy,
      ApplicationConfig, ProfileArtifactIo in src/platform/linux/config): installing,
      deleting, retiring and loading profiles.
    - RunStateStore (src/state/persistence, src/state/cancellation, RunState): success
      state, pending markers, checkpoints, the active run and cancellation requests as
      programs over files.  RunCancellation: runs and requests interleaved, as a step
      relation.
    - BrowsePages (BrowseContinuationTokenCodec, BrowseDirectoryPageCollector): tokens,
      pages, relative paths.  BrowseSessions (BrowseSessionService): the sessions of
      clients.  BrowseAccess (BrowseFilesystemAccess, StoredPermissionEvaluator): opening
      entries below a root with the permissions stored in them.  BrowseBackend
      (SystemBrowseSessionBackend, BrowseSessionMountStore): leases of targets, mounts,
      stale sessions, the catalogue of a session.
    - ProfileAdministration (ProfileAdministrationService,
      CredentialAdministrationService).
    - RestoreCatalog (RepositoryCatalog, RepositoryDiscoveryService, SnapshotBrowser in
      src/restore): the catalogue of a repository, its discovery and browsing.
    - RestoreEngine (RestorePlan, RestoreEngine): plans, and the engine over the interface
      [IRestoreOperations], whose laws are the class [RestoreLaws].
    - PosixRestore (PosixRestoreOperations): the operations over a tree of entries with
      modes, owners, attributes and times.  RestoreGuarantees: they satisfy the laws
      ([posix_laws]), and what a restore promises.

    A definition that translates code is preceded by a comment that ends in the file
    and the lines it translates; it keeps the name of the source where that is
    possible.

    ** How effects are modelled

    A program of type [M A] takes the world behind the ports, the trace of the calls
    made so far and the run's context object, and returns a value, an exception, or
    [Diverged] when a loop has used up its fuel.  The answers of the ports are an
    arbitrary [Env]: every theorem about an effectful operation holds for all
    implementations of the ports and all failures, at any call.  Destructors that act
    (the lease, the run context, the event sink) are calls made where the scope is
    left ([finally]).  [wp] is the weakest precondition over traces: what is proved of
    an operation is a relation between its outcome and the calls it made.

    The daemon's code is a tree of type [prog] (Interaction): calls of collaborators
    with arbitrary answers, and sections under a mutex.  Between two sections the state
    may have been changed by any other thread or process; the worker's transaction is
    such a state, changed under the lock of its file.  [run] executes a tree in an
    [Env], [wp] is what holds in every environment.  PreparationStore goes below that:
    there the state is the contents of the directory with its history, every system call
    may fail before or after it took effect, and other processes act wherever no lock is held.

    The state of runs (RunStateStore) is a program over files, one call at a time:
    [exec] is its execution alone, [outcome] includes every way a call can fail, and the
    step relation of RunCancellation interleaves one call of a run, of its looks and of any
    number of requests at a time.  Browsing runs on the one thread of the bus: [solo] is
    what holds of the calls, the result and the state of such a program for all answers.
    What the system says about a mounted repository is a record of functions ([Mount],
    [OpenDirectory]).

    Exceptions keep their place in the hierarchy ([is_btrfs_backup_error],
    [is_operation_cancelled], [coded_error]), so every [catch] clause is modelled by
    what it catches.  Integers are [Z] with the machine width written out where it
    matters (byte counts, time points, percentages).

    Fuel appears where a loop waits: the number of times waiting for one transfer may time out
    ([wait_for_transfer_or_cancellation]).  If every transfer ends within a bounded
    number of waits, any larger fuel is never used up
    ([ServiceGuarantees.start_terminates]).  The loop over sequence numbers of
    snapshot names and the loop over percentages have the bounds of the code, 99 and
    100.  The worker waits for access to a device for thirty seconds, asking every
    twenty milliseconds: [polls] need not exceed 1501, and the theorems hold for every
    value.  The attempts of a conflicting update and of choosing an identifier are
    bounded by the code.  Copying and removing a tree recurse to the depth of the entries
    there are ([depth]; every path of the tree is shorter), and comparing two files reads at
    most as many blocks as they have bytes; both bounds are computed from the state and are
    shown not to be reached.

    ** What the theorems show

    - Planning is safe: names are fresh and parse back, paths stay inside their
      roots, the actions of a source have one order, retention spares the snapshot of
      the run when the clock is ahead, recovery deletes only what was never
      committed and never the parent of the transfer (BackupRunPlan,
      PendingRecovery, RetentionPlan, IncrementalParent, SnapshotInventory).
    - Execution refines the plan: recovery and retention perform exactly what was
      planned; the marker is on disk before the snapshot; a commit is verified, or undone
      when it reads back wrongly; the executor's result, its checkpoints and its terminal event agree,
      for every implementation of [ActionExecutor], of which the program's own is an
      instance (ActionHandlers, Transfer, RunExecutor).
    - Deletions: end to end, a run deletes only subvolumes of its profile's own
      sources, removes directories only in their incoming directories, and retention
      deletes only after the new snapshot was committed and verified (RunGuarantees,
      ServiceGuarantees).
    - The service: one terminal event at most and the right one, success recorded
      only for a completed run, every resource released exactly once in order, all
      changes made under the lease but for the report of a run that never began, validation without side effects, and termination
      (RunContext, ServiceGuarantees).
    - The published status: a run whose events the files take is recorded by its last
      event, with one history entry; the sink throws only what the file system threw;
      what is written reads back (StatusProjection, StatusDocument).
    - Preparing a device: a plan changes only what was selected; the inspectors find
      nothing exactly when the specification of a safe device holds; the service starts
      a preparation only for the caller's own unexpired plan after every check and the
      authorisation, keeps callers apart, and hands out fresh identifiers; the worker
      changes a device only after lock, revalidation, inspection, backup of the table
      and stored phase, and closes every container it opened; the transaction's history
      only moves forward, and a profile is reserved once (Provisioning,
      PreparationDevices, ProvisioningService, ProvisioningIsolation,
      PreparationSafety, PreparationStore, PreparationDocument).
    - The operational control acts only with authorisation and completes a prepared
      eject once (ManagerAuthorization).
    - Profiles: normalisation is idempotent and decides, decoding never refuses what it
      accepted, and a profile written reads back (ProfileDocument); the bytes hashed
      determine the configuration (Fingerprint); rendered rules stay within their quotes and
      two profiles share no file (ProfileArtifacts).
    - Installing: whatever calls fail, a configuration is replaced as a whole or is as it
      was, or the error says that the rollback is incomplete; no update is lost; an installed
      profile loads again; only programs of the trusted directory run as hooks
      (ConfigTransaction, ProfileInstall).
    - The state of runs: what is written reads back, no run is cancelled by a request for
      another one, and an accepted cancellation is seen if no other is under way
      (RunStateStore, RunCancellation).
    - Browsing: sessions keep to their limits and store no deadline beyond their life, clients reach only their own,
      an ejection closes those of its target; a session has a lease as long as it holds its
      target, closing one never unmounts the target of another, and the cleanup after a
      crash spares targets in use; pages are complete and tokens bound to what they continue;
      paths lead into verified snapshots only, and permissions are decided as the kernel
      decides them (BrowseSessions, BrowseBackend, BrowsePages, BrowseAccess).
    - Administration changes profiles and credentials only with authorisation, and profiles
      only in the version the caller saw, looked up again after the authorisation
      (ProfileAdministration).
    - Restore: a discovered catalogue names only checked snapshots; plans are confined; a
      restore is a transaction: a copy or the old state, with the exceptions stated
      (RestoreCatalog, RestoreEngine, RestoreGuarantees).
    - Where the code does not do what it means to, a theorem shows it:
      [trailing_separator_disables_recovery], [clock_moved_back_deletes_new_snapshot],
      [erase_with_free_space_refused], [unclosed_container_forgotten],
      [held_transaction_never_pruned], [nested_roots_accepted],
      [sync_failure_loses_configuration], [home_destination_accepted],
      [late_failure_loses_data], [unseen_tree_left_aside], [setuid_restore_fails],
      [capabilities_lost], [verification_skipped], [accepted_cancellation_lost],
      [hidden_name_gets_no_identifier], [missing_version_fails_listing],
      [failed_open_keeps_lease], [unreadable_commit_stays], [expired_session_served],
      [missing_profile_deleted].

    ** Assumptions and what is left out

    The order [std::sort] produces is modelled by a stable sort; the comparators are
    total on the data compared.  [weakly_canonical] (resolution of symbolic links),
    which the validation of mounts uses, is a function parameter.  A transfer thread
    is seen through the calls of its handle: the events it delivered are reported by
    the wait that follows, and an exception of the sink ends the thread, not the
    waiting code.  The text functions of the JSON library are the class [JsonText],
    whose law is that a printed value parses back; what a number that is no integer
    means is its [float_value].  The ratios the status computes in [long double] are
    rational numbers rounded to at least 64 bits of mantissa.  The scan of the storage
    and the probe for exclusive access are arguments ([scan], [exclusive_probe]); the
    program that reads the storage from the system is not modelled, but for the
    identifiers it gives to free regions.  In the file system of the restore operations
    symbolic links are leaves; [sound] is the assumption under which a restore is shown to be
    a transaction: entries form a tree, looking ([exists], opening a file to verify it,
    reading a time) does not fail, and a directory is reported to exist only when it does.
    Out-of-memory exceptions, diagnostics on the standard error stream
    and the speed estimator's floating-point arithmetic are left out.

    Not modelled: the backend that supervises the workers
    (SystemDeviceProvisioningBackend), the backends behind the administration services, the
    files of the mount store of browse sessions, the readers of status queries, and a
    reference model of the file system behind the engine's ports with a recovery
    invariant across interrupted runs.  The Linux adapters, the command line, D-Bus and
    the desktop integration are input, output and glue. *)

From Stdlib Require Export ZArith Lia Sorted Permutation Ascii.
From stdpp Require Export base list strings gmap sorting pretty.

#[global] Set Default Goal Selector "!".

Create HintDb backup.
Create Rewrite HintDb backup_rw.

#[global] Arguments String.append !_ _ : simpl nomatch.

(** ** Tactics *)

(** Case analysis on the scrutinee of a [match] or [if], in the goal or a
    hypothesis, keeping the equation. *)
Ltac dmatch :=
  match goal with
  | H : context [match ?x with _ => _ end] |- _ =>
      lazymatch x with context [match _ with _ => _ end] => fail | _ => idtac end;
      let E := fresh "E" in destruct x eqn:E; simplify_eq/=
  | |- context [match ?x with _ => _ end] =>
      lazymatch x with context [match _ with _ => _ end] => fail | _ => idtac end;
      let E := fresh "E" in destruct x eqn:E; simplify_eq/=
  end.

(** Boolean connectives and comparisons to propositions. *)
Ltac breflect :=
  repeat match goal with
  | H : (_ && _)%bool = true |- _ => apply andb_true_iff in H as [? ?]
  | H : (_ || _)%bool = false |- _ => apply orb_false_iff in H as [? ?]
  | H : negb _ = true |- _ => apply negb_true_iff in H
  | H : negb _ = false |- _ => apply negb_false_iff in H
  | H : bool_decide _ = true |- _ => apply bool_decide_eq_true in H
  | H : bool_decide _ = false |- _ => apply bool_decide_eq_false in H
  | H : (_ <? _)%Z = true |- _ => apply Z.ltb_lt in H
  | H : (_ <? _)%Z = false |- _ => apply Z.ltb_ge in H
  | H : (_ <=? _)%Z = true |- _ => apply Z.leb_le in H
  | H : (_ <=? _)%Z = false |- _ => apply Z.leb_gt in H
  | H : (_ =? _)%Z = true |- _ => apply Z.eqb_eq in H
  | H : (_ =? _)%Z = false |- _ => apply Z.eqb_neq in H
  | H : String.eqb _ _ = true |- _ => apply String.eqb_eq in H
  | H : String.eqb _ _ = false |- _ => apply String.eqb_neq in H
  | H : Ascii.eqb _ _ = true |- _ => apply Ascii.eqb_eq in H
  | H : Ascii.eqb _ _ = false |- _ => apply Ascii.eqb_neq in H
  end.

(** ** Records: assignment to one member

    [r <| f := v |>] is [r] with the member [f] replaced by [v].  A record type opts
    in with an instance of [Eta], which rebuilds a value from its members. *)

Class Eta (R : Type) := eta : R -> R.

Class Setter {R T} (f : R -> T) := set_field : T -> R -> R.
Arguments set_field {R T} f {_} / v r : assert.

Ltac derive_setter :=
  lazymatch goal with
  | |- @Setter ?R ?T ?f =>
      let v := fresh "v" in let r := fresh "r" in
      intros v r;
      let i := constr:(_ : Eta R) in let i := eval hnf in i in
      let e := eval cbv beta in (i r) in
      let p := eval pattern (f r) in e in
      lazymatch p with ?g _ => let b := eval cbv beta in (g v) in exact b end
  end.

#[export] Hint Extern 1 (Setter _) => derive_setter : typeclass_instances.

Notation "r <| f := v |>" := (set_field f v r)
  (at level 1, f at level 200, left associativity, format "r  <| f  :=  v |>").

(** ** Strings: [std::string] as a [string] of bytes *)

(** [std::isdigit] in the C locale. *)
Definition is_digit (c : ascii) : bool :=
  let n := Ascii.N_of_ascii c in ((48 <=? n) && (n <=? 57))%N.

(** [std::tolower] in the C locale. *)
Definition to_lower (c : ascii) : ascii :=
  let n := Ascii.N_of_ascii c in
  if ((65 <=? n) && (n <=? 90))%N then Ascii.ascii_of_N (n + 32) else c.

Definition is_alpha (c : ascii) : bool :=
  let n := Ascii.N_of_ascii c in
  (((65 <=? n) && (n <=? 90)) || ((97 <=? n) && (n <=? 122)))%N.

Definition is_alnum (c : ascii) : bool := is_alpha c || is_digit c.

Definition is_xdigit (c : ascii) : bool :=
  let n := Ascii.N_of_ascii c in
  (is_digit c || ((65 <=? n) && (n <=? 70)) || ((97 <=? n) && (n <=? 102)))%N.

Fixpoint str_forallb (p : ascii -> bool) (s : string) : bool :=
  match s with
  | EmptyString => true
  | String c s' => p c && str_forallb p s'
  end.

Definition str_existsb (p : ascii -> bool) (s : string) : bool :=
  negb (str_forallb (λ c, negb (p c)) s).

Fixpoint str_map (f : ascii -> ascii) (s : string) : string :=
  match s with
  | EmptyString => EmptyString
  | String c s' => String (f c) (str_map f s')
  end.

(** [value.contains(c)] *)
Definition str_contains (c : ascii) (s : string) : bool := str_existsb (Ascii.eqb c) s.

Definition str_empty (s : string) : bool :=
  match s with EmptyString => true | _ => false end.

(** [value[i]]; the code only indexes below [size()]. *)
Definition str_at (i : nat) (s : string) : ascii :=
  default Ascii.zero (String.get i s).

Definition str_repeat (c : ascii) (n : nat) : string :=
  Nat.iter n (String c) EmptyString.

(** [std::setw(w)] with [std::setfill('0')] on an integer. *)
Definition setw0 (w : nat) (z : Z) : string :=
  let digits := pretty z in
  str_repeat "0" (w - String.length digits) +:+ digits.

Abbreviation newline := (Ascii.ascii_of_N 10).
Abbreviation carriage_return := (Ascii.ascii_of_N 13).

Lemma string_app_assoc (a b c : string) : (a +:+ b) +:+ c = a +:+ (b +:+ c).
Proof. induction a as [|x a IH]; simpl; [done|]. by rewrite IH. Qed.

Lemma string_app_nil_r (a : string) : a +:+ "" = a.
Proof. induction a as [|x a IH]; simpl; [done|]. by rewrite IH. Qed.

Lemma string_length_app (a b : string) :
  String.length (a +:+ b) = String.length a + String.length b.
Proof. induction a as [|x a IH]; simpl; [done|]. by rewrite IH. Qed.

Lemma string_app_inj_l (a b c : string) : a +:+ b = a +:+ c -> b = c.
Proof. induction a as [|x a IH]; simpl; [done|]. intros [= H]. by apply IH. Qed.

Lemma string_app_inj (a b c d : string) :
  String.length a = String.length c -> a +:+ b = c +:+ d -> a = c /\ b = d.
Proof.
  revert c. induction a as [|x a IH]; intros [|y c]; simpl; try done.
  intros [= Hl] [= -> H]. by destruct (IH c Hl H) as [-> ->].
Qed.

Lemma prefix_app (a b : string) : String.prefix a (a +:+ b) = true.
Proof.
  induction a as [|x a IH]; simpl; [by destruct b|].
  by destruct (Ascii.ascii_dec x x).
Qed.

Lemma prefix_inv (a s : string) :
  String.prefix a s = true -> exists b, s = a +:+ b.
Proof.
  revert s. induction a as [|x a IH]; intros s; simpl.
  { intros _. by exists s. }
  destruct s as [|y s]; simpl; [done|].
  destruct (Ascii.ascii_dec x y) as [->|]; [|done].
  intros H. destruct (IH s H) as [b ->]. by exists b.
Qed.

Lemma substring_all (s : string) : String.substring 0 (String.length s) s = s.
Proof. induction s as [|c s IH]; simpl; [done|]. by rewrite IH. Qed.

Lemma substring_ge (s : string) n : String.length s <= n -> String.substring 0 n s = s.
Proof.
  revert n. induction s as [|c s IH]; intros [|n] H; simpl in *; try done; try lia.
  rewrite IH; [done|lia].
Qed.

Lemma string_app_inj_r (a b c d : string) :
  String.length b = String.length d -> a +:+ b = c +:+ d -> a = c /\ b = d.
Proof.
  intros Hl H. apply string_app_inj; [|done].
  pose proof (f_equal String.length H) as E. rewrite !string_length_app in E. lia.
Qed.

Lemma substring_app_l (a b : string) n :
  String.length a = n -> String.substring 0 n (a +:+ b) = a.
Proof.
  intros <-. induction a as [|c a IH]; cbn; [by destruct b|]. by rewrite IH.
Qed.

Lemma substring_app_r (a b : string) n m :
  String.length a = n ->
  String.substring n m (a +:+ b) = String.substring 0 m b.
Proof. intros <-. induction a as [|c a IH]; simpl; done. Qed.

Lemma substring_skip (a s : string) i n :
  String.substring (String.length a + i) n (a +:+ s) = String.substring i n s.
Proof. induction a as [|c a IH]; simpl; done. Qed.

Lemma str_forallb_app p (a b : string) :
  str_forallb p (a +:+ b) = (str_forallb p a && str_forallb p b)%bool.
Proof. induction a as [|c a IH]; simpl; [done|]. rewrite IH. by destruct (p c). Qed.

Lemma str_forallb_impl (p q : ascii -> bool) s :
  (forall c, p c = true -> q c = true) -> str_forallb p s = true -> str_forallb q s = true.
Proof. intros H. induction s as [|c s IH]; cbn; [done|]. rewrite !andb_true_iff. naive_solver. Qed.

Lemma str_map_length f s : String.length (str_map f s) = String.length s.
Proof. induction s as [|c s IH]; simpl; congruence. Qed.

Lemma to_lower_idem c : to_lower (to_lower c) = to_lower c.
Proof. destruct c as [[] [] [] [] [] [] [] []]; reflexivity. Qed.

Lemma str_map_lower_idem s :
  str_map to_lower (str_map to_lower s) = str_map to_lower s.
Proof. induction s as [|c s IH]; simpl; [done|]. by rewrite to_lower_idem, IH. Qed.

#[export] Hint Rewrite string_app_assoc string_app_nil_r string_length_app : backup_rw.

(** ** [std::sort] with a comparator

    [std::sort] leaves the range sorted for [less]; the merge sort of stdpp is
    one such algorithm, and [std_sort_unique] below says that on elements that
    the comparator separates every algorithm gives the same list. *)
Definition cmp_le {A} (less : A -> A -> bool) : relation A := λ x y, less y x = false.

Global Instance cmp_le_dec {A} (less : A -> A -> bool) x y : Decision (cmp_le less x y).
Proof. unfold cmp_le. apply _. Defined.

Definition std_sort {A} (less : A -> A -> bool) (l : list A) : list A :=
  merge_sort (cmp_le less) l.

(** The requirement on comparators ([Compare]) of the C++ standard: a strict
    weak ordering. *)
Class StrictWeakOrder {A} (less : A -> A -> bool) : Prop := {
  swo_asym x y : less x y = true -> less y x = false;
  swo_negtrans x y z : less y x = false -> less z y = false -> less z x = false;
}.

Section std_sort.
Context {A : Type} (less : A -> A -> bool) `{!StrictWeakOrder less}.

Global Instance cmp_le_total : Total (cmp_le less).
Proof.
  intros x y. unfold cmp_le. destruct (less y x) eqn:E; [|by left].
  right. by apply swo_asym.
Qed.

Global Instance cmp_le_trans : Transitive (cmp_le less).
Proof. intros x y z. unfold cmp_le. intros H1 H2. by eapply swo_negtrans. Qed.

Lemma std_sort_perm l : std_sort less l ≡ₚ l.
Proof. apply merge_sort_Permutation. Qed.

Lemma std_sort_sorted l : StronglySorted (cmp_le less) (std_sort less l).
Proof. apply StronglySorted_merge_sort; apply _. Qed.

Lemma std_sort_unique l l' :
  (forall x y, x ∈ l -> y ∈ l -> less x y = false -> less y x = false -> x = y) ->
  StronglySorted (cmp_le less) l' -> l' ≡ₚ l -> l' = std_sort less l.
Proof.
  intros Htot Hs Hp.
  eapply StronglySorted_unique_strong; [|done|apply std_sort_sorted|].
  - intros x y Hx Hy Hxy Hyx. apply Htot; try done.
    + by rewrite <- Hp.
    + rewrite std_sort_perm in Hy. done.
  - by rewrite std_sort_perm.
Qed.

Lemma std_sort_length l : length (std_sort less l) = length l.
Proof. apply Permutation_length, std_sort_perm. Qed.

Lemma elem_of_std_sort x l : x ∈ std_sort less l <-> x ∈ l.
Proof. by rewrite std_sort_perm. Qed.
End std_sort.

(** ** Lists *)

(** [std::find_if] *)
Definition find_if {A} (p : A -> bool) (l : list A) : option A := List.find p l.

Lemma find_if_Some {A} (p : A -> bool) l x :
  find_if p l = Some x -> x ∈ l /\ p x = true.
Proof.
  intros H. apply List.find_some in H as [H ?]. split; [|done].
  by apply list_elem_of_In.
Qed.

Lemma find_if_None {A} (p : A -> bool) l x :
  find_if p l = None -> x ∈ l -> p x = false.
Proof.
  intros H Hx. eapply List.find_none in H; [done|]. by apply list_elem_of_In.
Qed.

Lemma StronglySorted_app_inv {A} (R : relation A) l1 l2 :
  StronglySorted R (l1 ++ l2) ->
  StronglySorted R l1 /\ StronglySorted R l2 /\ (forall x y, x ∈ l1 -> y ∈ l2 -> R x y).
Proof.
  induction l1 as [|a l1 IH]; simpl.
  - intros H. split; [constructor|]. split; [done|]. intros x y Hx. by apply not_elem_of_nil in Hx.
  - intros H. apply StronglySorted_inv in H as [H Ha].
    destruct (IH H) as (H1 & H2 & H3). rewrite Forall_app in Ha. destruct Ha as [Ha1 Ha2].
    split; [by constructor|]. split; [done|].
    intros x y Hx Hy. apply elem_of_cons in Hx as [->|Hx]; [|by apply H3].
    rewrite Forall_forall in Ha2. by apply Ha2.
Qed.

(** ** Byte-wise order of [std::string] *)
Definition str_less (a b : string) : bool :=
  match String.compare a b with Lt => true | _ => false end.

Lemma ascii_compare_Eq x y : Ascii.compare x y = Eq <-> x = y.
Proof.
  split; [apply Ascii.compare_eq_iff|]. intros ->. unfold Ascii.compare. apply N.compare_refl.
Qed.

Lemma str_compare_refl a : String.compare a a = Eq.
Proof.
  induction a as [|x a IH]; simpl; [done|].
  by rewrite (proj2 (ascii_compare_Eq x x) eq_refl).
Qed.

Lemma str_less_irrefl a : str_less a a = false.
Proof. unfold str_less. by rewrite str_compare_refl. Qed.

Lemma str_less_asym a b : str_less a b = true -> str_less b a = false.
Proof.
  unfold str_less. rewrite (String.compare_antisym a b).
  by destruct (String.compare b a).
Qed.

Lemma str_less_total a b : str_less a b = false -> str_less b a = false -> a = b.
Proof.
  unfold str_less. rewrite (String.compare_antisym b a).
  destruct (String.compare a b) eqn:E; simpl; try done.
  intros _ _. by apply String.compare_eq_iff.
Qed.

Lemma str_less_trans a b c :
  str_less a b = true -> str_less b c = true -> str_less a c = true.
Proof.
  unfold str_less. revert b c.
  induction a as [|x a IH]; intros [|y b] [|z c]; simpl; try done.
  specialize (IH b c).
  destruct (Ascii.compare x y) eqn:E1; try done;
    destruct (Ascii.compare y z) eqn:E2; try done;
    rewrite ?ascii_compare_Eq in *; subst; rewrite ?E1, ?E2; try done.
  - by rewrite (proj2 (ascii_compare_Eq z z) eq_refl).
  - unfold Ascii.compare in *. rewrite N.compare_lt_iff in *.
    rewrite (proj2 (N.compare_lt_iff _ _)); [done|lia].
Qed.

Lemma str_less_negtrans a b c :
  str_less b a = false -> str_less c b = false -> str_less c a = false.
Proof.
  intros H1 H2. destruct (str_less c a) eqn:E; [|done]. exfalso.
  destruct (str_less a b) eqn:E1.
  - by rewrite (str_less_trans c a b) in H2.
  - rewrite (str_less_total a b) in E by done. congruence.
Qed.
