(* ===== verification/Errors.v ===== *)
(** * Error codes and exceptions (src/core/ErrorCode, src/core/Errors.hpp)

    The error codes with their stable names, the exception classes of the
    program with what a [catch] clause can observe of them, and the result
    monad in which the fallible pure code is written. *)

From S2P Require Import Prelude.

(** src/core/ErrorCode.hpp:11-34 *)
Inductive ErrorCode :=
| BackupFailed
| BackupCancelled
| RunnerActionFailed
| RunnerCancelled
| RunnerProfileBusy
| RunnerTargetBusy
| RunnerStaleRun
| RunnerRunMismatch
| TransferFailed
| TransferProducerFailed
| TransferConsumerFailed
| TransferProducerConsumerFailed
| HookBeforeSnapshotFailed
| HookBeforeSnapshotTimeout
| HookAfterSnapshotFailed
| HookAfterSnapshotTimeout
| TargetBtrfsUuidMismatch
| RepositoryRecoveryRequired
| ConfigurationSaveFailed
| ConfigurationRollbackIncomplete
| CredentialMutationRollbackIncomplete
| ConfigurationChanged.

Global Instance ErrorCode_eq_dec : EqDecision ErrorCode.
Proof. solve_decision. Defined.

(** src/core/ErrorCode.cpp:9-57 *)
Definition error_code_name (code : ErrorCode) : string :=
  match code with
  | BackupFailed => "backup.failed"
  | BackupCancelled => "backup.cancelled"
  | RunnerActionFailed => "runner.action_failed"
  | RunnerCancelled => "runner.cancelled"
  | RunnerProfileBusy => "runner.profile_busy"
  | RunnerTargetBusy => "runner.target_busy"
  | RunnerStaleRun => "runner.stale_run"
  | RunnerRunMismatch => "runner.run_mismatch"
  | TransferFailed => "transfer.failed"
  | TransferProducerFailed => "transfer.producer_failed"
  | TransferConsumerFailed => "transfer.consumer_failed"
  | TransferProducerConsumerFailed => "transfer.producer_consumer_failed"
  | HookBeforeSnapshotFailed => "hook.before_snapshot_failed"
  | HookBeforeSnapshotTimeout => "hook.before_snapshot_timeout"
  | HookAfterSnapshotFailed => "hook.after_snapshot_failed"
  | HookAfterSnapshotTimeout => "hook.after_snapshot_timeout"
  | TargetBtrfsUuidMismatch => "target.btrfs_uuid_mismatch"
  | RepositoryRecoveryRequired => "repository.recovery_required"
  | ConfigurationSaveFailed => "configuration.save_failed"
  | ConfigurationRollbackIncomplete => "configuration.rollback_incomplete"
  | CredentialMutationRollbackIncomplete => "credential.mutation_rollback_incomplete"
  | ConfigurationChanged => "configuration.changed"
  end.

(** src/core/ErrorCode.cpp:59-105 *)
Definition error_code_from_name (name : string) : option ErrorCode :=
  if String.eqb name "backup.failed" then Some BackupFailed
  else if String.eqb name "backup.cancelled" then Some BackupCancelled
  else if String.eqb name "runner.action_failed" then Some RunnerActionFailed
  else if String.eqb name "runner.cancelled" then Some RunnerCancelled
  else if String.eqb name "runner.profile_busy" then Some RunnerProfileBusy
  else if String.eqb name "runner.target_busy" then Some RunnerTargetBusy
  else if String.eqb name "runner.stale_run" then Some RunnerStaleRun
  else if String.eqb name "runner.run_mismatch" then Some RunnerRunMismatch
  else if String.eqb name "transfer.failed" then Some TransferFailed
  else if String.eqb name "transfer.producer_failed" then Some TransferProducerFailed
  else if String.eqb name "transfer.consumer_failed" then Some TransferConsumerFailed
  else if String.eqb name "transfer.producer_consumer_failed"
    then Some TransferProducerConsumerFailed
  else if String.eqb name "hook.before_snapshot_failed" then Some HookBeforeSnapshotFailed
  else if String.eqb name "hook.before_snapshot_timeout" then Some HookBeforeSnapshotTimeout
  else if String.eqb name "hook.after_snapshot_failed" then Some HookAfterSnapshotFailed
  else if String.eqb name "hook.after_snapshot_timeout" then Some HookAfterSnapshotTimeout
  else if String.eqb name "target.btrfs_uuid_mismatch" then Some TargetBtrfsUuidMismatch
  else if String.eqb name "repository.recovery_required" then Some RepositoryRecoveryRequired
  else if String.eqb name "configuration.save_failed" then Some ConfigurationSaveFailed
  else if String.eqb name "configuration.rollback_incomplete"
    then Some ConfigurationRollbackIncomplete
  else if String.eqb name "credential.mutation_rollback_incomplete"
    then Some CredentialMutationRollbackIncomplete
  else if String.eqb name "configuration.changed" then Some ConfigurationChanged
  else None.

(** ** Exceptions

    One constructor per class of src/core/Errors.hpp, [ManagerOperationError] for the
    daemon's class (src/daemon/dbus/ManagerErrors.hpp), [RestoreError] for the class of
    src/restore/RestoreError.hpp, [StdException] for any
    other class derived from [std::exception] ([std::logic_error],
    [std::filesystem::filesystem_error], ...) and [ForeignException] for a
    thrown value that [catch (const std::exception&)] does not match. *)

(** The codes of the errors the daemon reports to its callers.
    src/daemon/dbus/ManagerErrors.hpp:12-27 *)
Inductive ManagerErrorCode :=
| InvalidRequest
| SourceMissing
| SourceNotSubvolume
| SourceUnavailable
| SourceDiscoveryFailed
| NotFound
| NotAuthorized
| Busy
| RunMismatch
| TargetUnavailable
| Conflict
| SaveFailed
| RollbackIncomplete
| InternalError.

Global Instance ManagerErrorCode_eq_dec : EqDecision ManagerErrorCode.
Proof. solve_decision. Defined.

(** The failures of a restore. *)
Module RestoreErrorCode.

(** src/restore/RestoreError.hpp:12-31 *)
Inductive t :=
| RepositoryNotFound
| RepositoryMetadataInvalid
| RepositoryFormatUnsupported
| CatalogInvalid
| SnapshotNotFound
| SnapshotIdentityMismatch
| PathInvalid
| PathTraversal
| SymlinkRejected
| MountBoundaryRejected
| DestinationExists
| DestinationUnsafe
| InsufficientSpace
| Cancelled
| CopyFailed
| VerificationFailed
| CleanupIncomplete
| RollbackIncomplete.

End RestoreErrorCode.

#[export] Instance RestoreErrorCode_eq_dec : EqDecision RestoreErrorCode.t.
Proof. solve_decision. Defined.

(** src/restore/RestoreError.hpp:33-55 *)
Definition restore_error_code_name (code : RestoreErrorCode.t) : string :=
  match code with
  | RestoreErrorCode.RepositoryNotFound => "repository-not-found"
  | RestoreErrorCode.RepositoryMetadataInvalid => "repository-metadata-invalid"
  | RestoreErrorCode.RepositoryFormatUnsupported => "repository-format-unsupported"
  | RestoreErrorCode.CatalogInvalid => "catalog-invalid"
  | RestoreErrorCode.SnapshotNotFound => "snapshot-not-found"
  | RestoreErrorCode.SnapshotIdentityMismatch => "snapshot-identity-mismatch"
  | RestoreErrorCode.PathInvalid => "path-invalid"
  | RestoreErrorCode.PathTraversal => "path-traversal"
  | RestoreErrorCode.SymlinkRejected => "symlink-rejected"
  | RestoreErrorCode.MountBoundaryRejected => "mount-boundary-rejected"
  | RestoreErrorCode.DestinationExists => "destination-exists"
  | RestoreErrorCode.DestinationUnsafe => "destination-unsafe"
  | RestoreErrorCode.InsufficientSpace => "insufficient-space"
  | RestoreErrorCode.Cancelled => "cancelled"
  | RestoreErrorCode.CopyFailed => "copy-failed"
  | RestoreErrorCode.VerificationFailed => "verification-failed"
  | RestoreErrorCode.CleanupIncomplete => "cleanup-incomplete"
  | RestoreErrorCode.RollbackIncomplete => "rollback-incomplete"
  end.

(** [InvalidArgument] and [SystemError] are [std::invalid_argument] and [std::system_error], where
    a handler tells them from other exceptions of the standard library.
    src/core/Errors.hpp:14-59 *)
Inductive exn :=
| BtrfsBackupError (message : string)
| ConfigurationError (message : string)
| ValidationError (message : string)
| SystemOperationError (message : string)
| CodedValidationError (code : ErrorCode) (message : string)
| CodedOperationError (code : ErrorCode) (message : string)
| RecoveryRequiredError (code : ErrorCode) (message : string)
| OperationCancelledError (message : string)
| ManagerOperationError (code : ManagerErrorCode) (message : string)
| RestoreError (code : RestoreErrorCode.t) (message : string)
| StdException (message : string)
| ForeignException
| InvalidArgument (message : string)
| SystemError (error_number : Z) (message : string).

Global Instance exn_eq_dec : EqDecision exn.
Proof. solve_decision. Defined.

(** [error.what()], for the exceptions that are [std::exception]s. *)
Definition exn_what (e : exn) : string :=
  match e with
  | BtrfsBackupError m | ConfigurationError m | ValidationError m | SystemOperationError m
  | CodedValidationError _ m | CodedOperationError _ m | RecoveryRequiredError _ m
  | OperationCancelledError m | ManagerOperationError _ m | RestoreError _ m | StdException m
  | InvalidArgument m | SystemError _ m => m
  | ForeignException => ""
  end.

(** [dynamic_cast<const CodedError*>(&error)] *)
Definition coded_error (e : exn) : option ErrorCode :=
  match e with
  | CodedValidationError c _ | CodedOperationError c _ | RecoveryRequiredError c _ => Some c
  | _ => None
  end.

(** [catch (const std::exception&)] *)
Definition is_std_exception (e : exn) : bool :=
  match e with ForeignException => false | _ => true end.

(** [catch (const BtrfsBackupError&)] *)
Definition is_btrfs_backup_error (e : exn) : bool :=
  match e with
  | ManagerOperationError _ _ | RestoreError _ _ | StdException _ | ForeignException
  | InvalidArgument _ | SystemError _ _ => false
  | _ => true
  end.

(** [catch (const ValidationError&)] *)
Definition is_validation_error (e : exn) : bool :=
  match e with ValidationError _ | CodedValidationError _ _ => true | _ => false end.

(** [catch (const OperationCancelledError&)] *)
Definition is_operation_cancelled (e : exn) : bool :=
  match e with OperationCancelledError _ => true | _ => false end.

(** ** The result monad *)

Inductive res (A : Type) : Type :=
| Ok (a : A)
| Throw (e : exn).
Arguments Ok {A} a.
Arguments Throw {A} e.

Global Instance res_ret : MRet res := λ A a, Ok a.
Global Instance res_bind : MBind res := λ A B f m,
  match m with Ok a => f a | Throw e => Throw e end.

Global Instance res_eq_dec {A} `{!EqDecision A} : EqDecision (res A).
Proof. solve_decision. Defined.

(** [if (!ok) throw e;] *)
Definition require (ok : bool) (e : exn) : res unit := if ok then Ok tt else Throw e.

Definition is_ok {A} (r : res A) : bool := match r with Ok _ => true | Throw _ => false end.

Fixpoint res_mapM {A B} (f : A -> res B) (l : list A) : res (list B) :=
  match l with
  | [] => Ok []
  | x :: l => y ← f x; ys ← res_mapM f l; Ok (y :: ys)
  end.

Lemma res_bind_Ok {A B} (m : res A) (f : A -> res B) b :
  m ≫= f = Ok b <-> exists a, m = Ok a /\ f a = Ok b.
Proof. destruct m; simpl; naive_solver. Qed.

Lemma res_bind_Throw {A B} (m : res A) (f : A -> res B) e :
  m ≫= f = Throw e <-> m = Throw e \/ exists a, m = Ok a /\ f a = Throw e.
Proof. destruct m; simpl; naive_solver. Qed.

Lemma require_Ok ok e u : require ok e = Ok u <-> ok = true.
Proof. destruct ok, u; simpl; naive_solver. Qed.

Lemma require_Throw ok e e' : require ok e = Throw e' <-> ok = false /\ e' = e.
Proof. destruct ok; simpl; naive_solver. Qed.

Lemma res_mapM_Forall2 {A B} (f : A -> res B) l k :
  res_mapM f l = Ok k <-> Forall2 (λ x y, f x = Ok y) l k.
Proof.
  revert k. induction l as [|x l IH]; intros k; simpl.
  - split; [intros [= <-]; constructor|]. by inversion 1.
  - rewrite res_bind_Ok. split.
    + intros (y & Hy & H). rewrite res_bind_Ok in H. destruct H as (ys & Hys & [= <-]).
      constructor; [done|]. by apply IH.
    + inversion 1 as [|? y ? ys Hy Hys]; subst. exists y. split; [done|].
      rewrite res_bind_Ok. exists ys. split; [by apply IH|done].
Qed.

(** Decompose hypotheses [_ ≫= _ = Ok _] and [require _ _ = Ok _]. *)
Ltac res_inv :=
  repeat match goal with
  | H : _ ≫= _ = Ok _ |- _ => apply res_bind_Ok in H as (? & ? & ?)
  | H : require _ _ = Ok _ |- _ => apply require_Ok in H
  | H : Ok _ = Ok _ |- _ => injection H as H
  | H : Throw _ = Ok _ |- _ => discriminate H
  | H : mret _ = Ok _ |- _ => injection H as H
  end; simplify_eq/=.

(** ** Theorems *)

(** The names of the error codes are read back to the codes they name, and no
    other text is. *)
Theorem error_code_roundtrip (code : ErrorCode) (name : string) :
  error_code_from_name (error_code_name code) = Some code /\
  (error_code_from_name name = Some code <-> name = error_code_name code).
Proof.
  assert (R : forall c, error_code_from_name (error_code_name c) = Some c)
    by (intros []; reflexivity).
  split; [apply R|]. split; [|by intros ->].
  unfold error_code_from_name.
  repeat case_match; intros [= <-]; breflect; done.
Qed.
