(* ===== verification/Identifiers.v ===== *)
(** * Validated identifiers (src/core/Identifiers)

    The five identifier classes hold a string that their constructor has
    checked against a regular expression; the model keeps that class invariant
    as a field.  What the rest of the program relies on is [ident_component]:
    an identifier is always a plain path component. *)

From S2P Require Import Prelude Errors.

(** src/core/Identifiers.cpp:15-15, the pattern identifier_re. *)
Definition match_identifier (s : string) : bool :=
  match s with
  | EmptyString => false
  | String c rest =>
      is_alnum c
      && str_forallb (λ x, is_alnum x || Ascii.eqb x "." || Ascii.eqb x "_" || Ascii.eqb x "-") rest
      && (String.length rest <=? 63)
  end.

(** src/core/Identifiers.cpp:16-16, the pattern run_id_re. *)
Definition match_run_id (s : string) : bool :=
  match s with
  | EmptyString => false
  | String c rest =>
      is_alnum c
      && str_forallb (λ x, is_alnum x || Ascii.eqb x "." || Ascii.eqb x "_"
                           || Ascii.eqb x ":" || Ascii.eqb x "-") rest
  end.

Inductive IdKind := KProfile | KRun | KOperation | KBrowseSession | KSource.

Definition id_pattern (k : IdKind) : string -> bool :=
  match k with KRun => match_run_id | _ => match_identifier end.

(** src/core/Identifiers.cpp:62-66 *)
Definition validate_identifier (value field_name : string) : res unit :=
  require (match_identifier value)
    (ValidationError (field_name +:+ " contains unsupported characters")).

(** src/core/Identifiers.cpp:68-74 *)
Definition validate_profile_id (profile_id : string) : res unit :=
  match validate_identifier profile_id "profileId" with
  | Throw e =>
      if is_validation_error e
      then Throw (ValidationError ("invalid profile id: " +:+ profile_id))
      else Throw e
  | ok => ok
  end.

(** src/core/Identifiers.cpp:76-80 *)
Definition validate_run_id (run_id : string) : res unit :=
  require (match_run_id run_id) (ValidationError ("invalid run id: " +:+ run_id)).

(** src/core/Identifiers.cpp:82-84 *)
Definition validate_operation_id (operation_id : string) : res unit :=
  validate_identifier operation_id "operationId".

(** src/core/Identifiers.cpp:86-88 *)
Definition validate_browse_session_id (browse_session_id : string) : res unit :=
  validate_identifier browse_session_id "browseSessionId".

Definition validate_id (k : IdKind) (value : string) : res unit :=
  match k with
  | KProfile => validate_profile_id value
  | KRun => validate_run_id value
  | KOperation => validate_operation_id value
  | KBrowseSession => validate_browse_session_id value
  | KSource => validate_identifier value "sourceId"
  end.

(** The classes ProfileId, RunId, OperationId, BrowseSessionId and SourceId:
    one record per kind, its validity a field.
    src/core/Identifiers.hpp:13-69 *)
Record Ident (k : IdKind) := mkIdent {
  id_value : string;
  id_valid : Is_true (id_pattern k id_value);
}.
Arguments mkIdent {k} _ _.
Arguments id_value {k} _.
Arguments id_valid {k} _.

Definition ProfileId := Ident KProfile.
Definition RunId := Ident KRun.
Definition OperationId := Ident KOperation.
Definition BrowseSessionId := Ident KBrowseSession.
Definition SourceId := Ident KSource.

(** The constructors: the value is checked before the object exists.
    src/core/Identifiers.cpp:22-60 *)
Definition make_ident (k : IdKind) (value : string) : res (Ident k) :=
  match validate_id k value with
  | Throw e => Throw e
  | Ok _ =>
      match decide (Is_true (id_pattern k value)) with
      | left H => Ok (mkIdent value H)
      | right _ => Throw (ValidationError "unreachable")
      end
  end.

Lemma ident_eq {k} (a b : Ident k) : id_value a = id_value b -> a = b.
Proof.
  destruct a as [a Ha], b as [b Hb]; simpl. intros ->. f_equal. apply Is_true_pi.
Qed.

Global Instance Ident_eq_dec k : EqDecision (Ident k).
Proof.
  intros a b. destruct (decide (id_value a = id_value b)) as [E|E].
  - left. by apply ident_eq.
  - right. by intros ->.
Defined.

Global Instance Ident_countable k : Countable (Ident k).
Proof.
  refine (inj_countable id_value
    (λ s, match decide (Is_true (id_pattern k s)) with
          | left H => Some (mkIdent s H) | right _ => None end) _).
  intros [v Hv]; simpl. destruct (decide (Is_true (id_pattern k v))) as [H|H]; [|done].
  f_equal. by apply ident_eq.
Defined.

(** [operator==] of two identifiers. *)
Definition id_eqb {k} (a b : Ident k) : bool := bool_decide (a = b).

(** ** Lemmas *)

Lemma validate_id_Ok k v u : validate_id k v = Ok u <-> id_pattern k v = true.
Proof.
  destruct u, k; simpl;
    unfold validate_profile_id, validate_run_id, validate_operation_id,
      validate_browse_session_id, validate_identifier;
    try destruct (match_identifier v) eqn:E; try destruct (match_run_id v) eqn:E';
    simpl; naive_solver.
Qed.

Lemma make_ident_Ok k v i : make_ident k v = Ok i <-> id_value i = v.
Proof.
  unfold make_ident. destruct (validate_id k v) as [u|e] eqn:E.
  - apply validate_id_Ok in E.
    destruct (decide (Is_true (id_pattern k v))) as [H|H].
    + split; [by intros [= <-]|]. intros H'. f_equal. by apply ident_eq.
    + exfalso. apply H. rewrite E. done.
  - split; [done|]. intros <-. exfalso.
    assert (validate_id k (id_value i) = Ok tt) as H; [|congruence].
    apply validate_id_Ok, Is_true_true, id_valid.
Qed.

Lemma make_ident_value {k} (i : Ident k) : make_ident k (id_value i) = Ok i.
Proof. by apply make_ident_Ok. Qed.

(** What a plain path component is: not empty, no separator, no dot entry. *)
Definition plain_component (s : string) : Prop :=
  s <> "" /\ str_contains "/" s = false /\ s <> "." /\ s <> "..".

Lemma str_contains_cons c x s :
  str_contains c (String x s) = (Ascii.eqb c x || str_contains c s)%bool.
Proof. unfold str_contains, str_existsb. simpl. by destruct (Ascii.eqb c x). Qed.

Lemma str_contains_app c a b : str_contains c (a +:+ b) = (str_contains c a || str_contains c b)%bool.
Proof.
  unfold str_contains, str_existsb. rewrite str_forallb_app.
  by destruct (str_forallb _ a), (str_forallb _ b).
Qed.

Lemma id_pattern_head k c s : id_pattern k (String c s) = true -> is_alnum c = true.
Proof. destruct k; simpl; intros; breflect; done. Qed.

Lemma forallb_no_char (p : ascii -> bool) c s :
  p c = false -> str_forallb p s = true -> str_contains c s = false.
Proof.
  intros Hc. induction s as [|x s IH]; [done|]. simpl. intros H; breflect.
  rewrite str_contains_cons. destruct (Ascii.eqb c x) eqn:E; simpl; [|by apply IH].
  breflect. subst. congruence.
Qed.

Lemma alnum_not_slash c : is_alnum c = true -> Ascii.eqb "/" c = false.
Proof. by destruct c as [[] [] [] [] [] [] [] []]. Qed.

Lemma id_no_slash {k} (i : Ident k) : str_contains "/" (id_value i) = false.
Proof.
  destruct i as [[|c s] H]; [done|]; simpl. apply Is_true_true in H.
  assert (is_alnum c = true) as Hc by (by eapply id_pattern_head).
  rewrite str_contains_cons, alnum_not_slash by done. simpl.
  destruct k; simpl in H; breflect; (eapply forallb_no_char; [|eassumption]; done).
Qed.

Lemma id_nonempty {k} (i : Ident k) : id_value i <> "".
Proof. destruct i as [[|c s] H]; [by destruct k|done]. Qed.

Lemma id_starts_alnum {k} (i : Ident k) :
  exists c s, id_value i = String c s /\ is_alnum c = true.
Proof.
  destruct i as [[|c s] H]; [by destruct k|]. exists c, s. split; [done|].
  apply Is_true_true in H. by eapply id_pattern_head.
Qed.

Lemma ident_component {k} (i : Ident k) : plain_component (id_value i).
Proof.
  split; [apply id_nonempty|]. split; [apply id_no_slash|].
  destruct (id_starts_alnum i) as (c & s & -> & Hc).
  split; intros [= -> ->]; done.
Qed.

(** ** Theorems *)

(** An identifier that can be constructed has the value given, which is a
    plain path component (so it may be joined to a directory safely) and, except
    for run identifiers, at most 64 characters long; every other text is refused
    with a validation error. *)
Theorem make_ident_spec (k : IdKind) (v : string) :
  (forall i, make_ident k v = Ok i ->
     id_value i = v /\ plain_component v /\
     (k <> KRun -> (String.length v <= 64)%nat)) /\
  (forall e, make_ident k v = Throw e ->
     id_pattern k v = false /\ is_validation_error e = true).
Proof.
  split.
  - intros i Hi. apply make_ident_Ok in Hi as <-.
    split; [done|]. split; [apply ident_component|].
    intros Hk. destruct i as [[|c s] H]; simpl; [lia|]. apply Is_true_true in H.
    destruct k; simpl in H; breflect; try done;
      match goal with H : (_ <=? _) = true |- _ => apply Nat.leb_le in H; lia end.
  - intros e He. destruct (id_pattern k v) eqn:E.
    + exfalso. apply Is_true_true in E.
      pose proof (make_ident_value (mkIdent v E)) as Hv. simpl in Hv. congruence.
    + split; [done|]. unfold make_ident in He.
      destruct (validate_id k v) as [u|e'] eqn:Ev.
      { apply validate_id_Ok in Ev. congruence. }
      injection He as <-. revert Ev.
      destruct k; simpl; unfold validate_profile_id, validate_run_id, validate_operation_id,
        validate_browse_session_id, validate_identifier; simpl in E; rewrite E; simpl;
        by intros [= <-].
Qed.
