(* ===== verification/RuntimeTime.v ===== *)
(** * Time points, dates and their text (src/core/RuntimeTime)

    A [RuntimeTimePoint] is the [system_clock::time_point] of libstdc++: signed
    64-bit nanoseconds since the epoch.  The calendar functions are those of
    [std::chrono] (proleptic Gregorian calendar).  Conversions from days to
    nanoseconds are written with the 64-bit wrap-around; in range it is the
    identity, and [parse_utc_timestamp_out_of_range] shows what the parser does
    out of range. *)

From S2P Require Import Prelude Errors.

Open Scope Z_scope.

Abbreviation RuntimeTimePoint := Z (only parsing).

(** [std::chrono::year_month_day]; src/core/RuntimeTime.hpp:13-14 *)
Record LocalDate := mkDate { year : Z; month : Z; day : Z }.

Global Instance LocalDate_eq_dec : EqDecision LocalDate.
Proof. solve_decision. Defined.

Definition wrap64 (z : Z) : Z := (z + 2 ^ 63) mod 2 ^ 64 - 2 ^ 63.

Definition ns_per_s : Z := 1000000000.

(** ** The calendar of [std::chrono] *)

(** [std::chrono::sys_days{date}]: days since 1970-01-01. *)
Definition days_from_civil (date : LocalDate) : Z :=
  let y := if month date <=? 2 then year date - 1 else year date in
  let era := y / 400 in
  let yoe := y mod 400 in
  let mp := if 2 <? month date then month date - 3 else month date + 9 in
  let doy := (153 * mp + 2) / 5 + day date - 1 in
  let doe := yoe * 365 + yoe / 4 - yoe / 100 + doy in
  era * 146097 + doe - 719468.

(** [std::chrono::year_month_day{days}] *)
Definition civil_of_doe (era doe : Z) : LocalDate :=
  let yoe := (doe - doe / 1460 + doe / 36524 - doe / 146096) / 365 in
  let doy := doe - (365 * yoe + yoe / 4 - yoe / 100) in
  let mp := (5 * doy + 2) / 153 in
  let d := doy - (153 * mp + 2) / 5 + 1 in
  let m := if mp <? 10 then mp + 3 else mp - 9 in
  let y := yoe + era * 400 in
  mkDate (if m <=? 2 then y + 1 else y) m d.

Definition civil_from_days (days : Z) : LocalDate :=
  let z := days + 719468 in civil_of_doe (z / 146097) (z mod 146097).

Definition is_leap (y : Z) : bool :=
  ((y mod 4 =? 0) && (negb (y mod 100 =? 0) || (y mod 400 =? 0)))%bool.

Definition last_day_of_month (y m : Z) : Z :=
  if m =? 2 then (if is_leap y then 29 else 28)
  else if ((m =? 4) || (m =? 6) || (m =? 9) || (m =? 11))%bool then 30 else 31.

(** [date.ok()] *)
Definition date_ok (d : LocalDate) : bool :=
  ((-32767 <=? year d) && (year d <=? 32767) && (1 <=? month d) && (month d <=? 12)
   && (1 <=? day d) && (day d <=? last_day_of_month (year d) (month d)))%bool.

(** ** The functions of RuntimeTime.cpp *)

(** src/core/RuntimeTime.cpp:16-25 *)
Fixpoint decimal_from (result : Z) (value : string) : option Z :=
  match value with
  | EmptyString => Some result
  | String c rest =>
      if is_digit c
      then decimal_from (result * 10 + (Z.of_N (N_of_ascii c) - 48)) rest
      else None
  end.
Definition decimal (value : string) : option Z := decimal_from 0 value.

(** src/core/RuntimeTime.cpp:27-47 *)
Definition format_utc (time : RuntimeTimePoint) (compact_clock : bool) : string :=
  let seconds := time / ns_per_s in
  let days := seconds / 86400 in
  let date := civil_from_days days in
  let clock := seconds mod 86400 in
  let colon := if compact_clock then "" else ":" in
  setw0 4 (year date) +:+ "-" +:+ setw0 2 (month date) +:+ "-" +:+ setw0 2 (day date)
  +:+ "T" +:+ setw0 2 (clock / 3600) +:+ colon
  +:+ setw0 2 (clock mod 3600 / 60) +:+ colon
  +:+ setw0 2 (clock mod 60) +:+ "Z".

(** src/core/RuntimeTime.cpp:51-53 *)
Definition format_utc_snapshot_timestamp (time : RuntimeTimePoint) : string :=
  format_utc time true.

(** src/core/RuntimeTime.cpp:55-57 *)
Definition format_utc_iso_timestamp (time : RuntimeTimePoint) : string :=
  format_utc time false.

(** src/core/RuntimeTime.cpp:59-66 *)
Definition format_local_date (date : LocalDate) : string :=
  setw0 4 (year date) +:+ "-" +:+ setw0 2 (month date) +:+ "-" +:+ setw0 2 (day date).

(** [RuntimeTimePoint{sys_days{date}.time_since_epoch()} + hours + minutes + seconds] *)
Definition time_point_of (date : LocalDate) (hour minute second : Z) : RuntimeTimePoint :=
  let t0 := wrap64 (days_from_civil date * 86400 * ns_per_s) in
  let t1 := wrap64 (t0 + hour * 3600 * ns_per_s) in
  let t2 := wrap64 (t1 + minute * 60 * ns_per_s) in
  wrap64 (t2 + second * ns_per_s).

(** src/core/RuntimeTime.cpp:88-118 *)
Definition parse_utc_timestamp (value : string) : option RuntimeTimePoint :=
  let size := String.length value in
  let compact := (size =? 18)%nat in
  let iso := (size =? 20)%nat in
  if ((negb compact && negb iso)
      || negb (Ascii.eqb (str_at 4 value) "-") || negb (Ascii.eqb (str_at 7 value) "-")
      || negb (Ascii.eqb (str_at 10 value) "T")
      || negb (Ascii.eqb (str_at (size - 1)%nat value) "Z"))%bool
  then None
  else if (iso && (negb (Ascii.eqb (str_at 13 value) ":")
                   || negb (Ascii.eqb (str_at 16 value) ":")))%bool
  then None
  else
    let minute_offset := if iso then 14%nat else 13%nat in
    let second_offset := if iso then 17%nat else 15%nat in
    match decimal (String.substring 0 4 value), decimal (String.substring 5 2 value),
          decimal (String.substring 8 2 value), decimal (String.substring 11 2 value),
          decimal (String.substring minute_offset 2 value),
          decimal (String.substring second_offset 2 value) with
    | Some y, Some m, Some d, Some hour, Some minute, Some second =>
        let date := mkDate y m d in
        if (negb (date_ok date) || (23 <? hour) || (59 <? minute) || (59 <? second))%bool
        then None
        else Some (time_point_of date hour minute second)
    | _, _, _, _, _, _ => None
    end.

(** src/core/RuntimeTime.cpp:120-136 *)
Definition parse_local_date (value : string) : option LocalDate :=
  if (negb (String.length value =? 10)%nat
      || negb (Ascii.eqb (str_at 4 value) "-") || negb (Ascii.eqb (str_at 7 value) "-"))%bool
  then None
  else
    match decimal (String.substring 0 4 value), decimal (String.substring 5 2 value),
          decimal (String.substring 8 2 value) with
    | Some y, Some m, Some d =>
        let date := mkDate y m d in
        if date_ok date then Some date else None
    | _, _, _ => None
    end.

Example format_epoch : format_utc_snapshot_timestamp 0 = "1970-01-01T000000Z".
Proof. reflexivity. Qed.
Example format_2024 : format_utc_iso_timestamp 1709210096123456789 = "2024-02-29T12:34:56Z".
Proof. vm_compute. reflexivity. Qed.

(** ** Lemmas: decimal text *)

(** [lia] with division and remainder by constants. *)
Ltac zdlia := Z.to_euclidean_division_equations; lia.

Lemma pretty_N_char_digit x :
  (x < 10)%N ->
  is_digit (pretty_N_char x) = true /\ Z.of_N (N_of_ascii (pretty_N_char x)) - 48 = Z.of_N x.
Proof.
  intros H. assert (x = 0 \/ x = 1 \/ x = 2 \/ x = 3 \/ x = 4 \/ x = 5 \/ x = 6
    \/ x = 7 \/ x = 8 \/ x = 9)%N by lia.
  naive_solver.
Qed.

Lemma decimal_from_app acc a b :
  str_forallb is_digit a = true ->
  decimal_from acc (a +:+ b) =
    match decimal_from acc a with Some r => decimal_from r b | None => None end.
Proof.
  revert acc. induction a as [|c a IH]; intros acc; simpl; [done|].
  intros H; breflect. rewrite H. by apply IH.
Qed.

(** The digits [pretty] puts in front of [s], and what they stand for. *)
Lemma pretty_N_go_digits x s :
  exists ds, pretty_N_go x s = ds +:+ s /\ str_forallb is_digit ds = true
    /\ (forall acc, decimal_from acc ds = Some (acc * 10 ^ Z.of_nat (String.length ds) + Z.of_N x))
    /\ (forall w : nat, Z.of_N x < 10 ^ Z.of_nat w -> (String.length ds <= w)%nat)
    /\ ((0 < x)%N -> ds <> "").
Proof.
  revert s. induction (N.lt_wf_0 x) as [x _ IH]; intros s.
  assert (x = 0 \/ 0 < x)%N as [->|Hx] by lia.
  - exists "". rewrite pretty_N_go_0. split_and!; try done.
    + intros acc. simpl. f_equal. lia.
    + intros w _. simpl. lia.
  - rewrite pretty_N_go_step by done.
    destruct (pretty_N_char_digit (x `mod` 10)%N) as [Hd Hv]; [by apply N.mod_lt|].
    set (c := pretty_N_char (x `mod` 10)) in *.
    destruct (IH (x `div` 10)%N) with (s := String c s) as (ds & E & H1 & H2 & H3 & _);
      [by apply N.div_lt|].
    exists (ds +:+ String c "").
    assert (Hx10 : Z.of_N x = Z.of_N (x `div` 10) * 10 + Z.of_N (x `mod` 10)).
    { rewrite (N.div_mod x 10) at 1 by done. rewrite N2Z.inj_add, N2Z.inj_mul. lia. }
    split_and!.
    + by rewrite E, string_app_assoc.
    + rewrite str_forallb_app, H1. simpl. by rewrite Hd.
    + intros acc. rewrite decimal_from_app, H2 by done. simpl. rewrite Hd. f_equal.
      rewrite string_length_app. simpl. rewrite Nat2Z.inj_add, Z.pow_add_r by lia. lia.
    + intros w Hw. rewrite string_length_app. simpl.
      destruct w as [|w]; [lia|].
      assert (String.length ds <= w)%nat; [|lia]. apply H3.
      rewrite Nat2Z.inj_succ, Z.pow_succ_r in Hw by lia. rewrite Hx10 in Hw.
      pose proof (N2Z.is_nonneg (x `mod` 10)) as Hm. revert Hw Hm.
      generalize (Z.of_N (x `div` 10)), (Z.of_N (x `mod` 10)), (10 ^ Z.of_nat w). lia.
    + intros _. destruct ds; done.
Qed.

Lemma decimal_zeros n s :
  decimal_from 0 (str_repeat "0" n +:+ s) = decimal_from 0 s /\
  str_forallb is_digit (str_repeat "0" n) = true /\
  String.length (str_repeat "0" n) = n.
Proof.
  induction n as [|n IH]; [done|]. unfold str_repeat in *. simpl. naive_solver.
Qed.

Lemma pretty_Z_nonneg z :
  0 <= z -> pretty z = if decide (z = 0) then "0" else pretty_N_go (Z.to_N z) "".
Proof. intros Hz. destruct z; [done|done|lia]. Qed.

Lemma setw0_spec (w : nat) (z : Z) :
  (0 < w)%nat -> 0 <= z < 10 ^ Z.of_nat w ->
  String.length (setw0 w z) = w /\ decimal (setw0 w z) = Some z
  /\ str_forallb is_digit (setw0 w z) = true.
Proof.
  intros Hw Hz. unfold setw0, decimal. rewrite pretty_Z_nonneg by lia.
  case_decide as E.
  - subst. destruct (decimal_zeros (w - String.length "0") "0") as (H1 & H2 & H3).
    rewrite H1, string_length_app, H3, str_forallb_app, H2. simpl. split_and!; [lia|done..].
  - destruct (pretty_N_go_digits (Z.to_N z) "") as (ds & -> & H1 & H2 & H3 & H4).
    rewrite string_app_nil_r.
    destruct (decimal_zeros (w - String.length ds) ds) as (Z1 & Z2 & Z3).
    assert (String.length ds <= w)%nat by (apply H3; lia).
    rewrite Z1, H2, string_length_app, Z3, str_forallb_app, Z2, H1.
    split_and!; [lia| |done]. f_equal. lia.
Qed.

(** ** Lemmas: the calendar *)

Lemma yoe_bounds doe :
  0 <= doe < 146097 ->
  0 <= (doe - doe / 1460 + doe / 36524 - doe / 146096) / 365 < 400.
Proof. intros H. zdlia. Qed.

Lemma doy_bounds doe :
  0 <= doe < 146097 ->
  let yoe := (doe - doe / 1460 + doe / 36524 - doe / 146096) / 365 in
  0 <= doe - (365 * yoe + yoe / 4 - yoe / 100) <= 365.
Proof. intros H yoe. subst yoe. zdlia. Qed.

Lemma days_from_civil_of_doe era doe :
  0 <= doe < 146097 ->
  days_from_civil (civil_of_doe era doe) = era * 146097 + doe - 719468.
Proof.
  intros H. pose proof (yoe_bounds doe H) as Hy. pose proof (doy_bounds doe H) as Hd.
  unfold civil_of_doe. cbv zeta in Hd |- *.
  set (yoe := (doe - doe / 1460 + doe / 36524 - doe / 146096) / 365) in *. clearbody yoe.
  set (doy := doe - (365 * yoe + yoe / 4 - yoe / 100)) in *.
  assert (Hmp : 0 <= (5 * doy + 2) / 153 <= 11) by zdlia.
  set (mp := (5 * doy + 2) / 153) in *. clearbody mp.
  unfold days_from_civil. cbn [year month day].
  assert (Ey : (yoe + era * 400) / 400 = era) by (rewrite Z.div_add by lia; rewrite Z.div_small; lia).
  assert (Em : (yoe + era * 400) mod 400 = yoe) by (rewrite Z.mod_add by lia; by apply Z.mod_small).
  destruct (mp <? 10) eqn:E10; breflect.
  - rewrite (proj2 (Z.leb_gt (mp + 3) 2)), (proj2 (Z.ltb_lt 2 (mp + 3))) by lia.
    rewrite Ey, Em. replace (mp + 3 - 3) with mp by lia. unfold doy. lia.
  - rewrite (proj2 (Z.leb_le (mp - 9) 2)), (proj2 (Z.ltb_ge 2 (mp - 9))) by lia.
    replace (yoe + era * 400 + 1 - 1) with (yoe + era * 400) by lia.
    rewrite Ey, Em. replace (mp - 9 + 9) with mp by lia. unfold doy. lia.
Qed.

Lemma days_from_civil_from_days days : days_from_civil (civil_from_days days) = days.
Proof.
  unfold civil_from_days. rewrite days_from_civil_of_doe by (apply Z.mod_pos_bound; lia).
  pose proof (Z.div_mod (days + 719468) 146097). lia.
Qed.

Lemma civil_of_doe_fields era doe :
  0 <= doe < 146097 ->
  let d := civil_of_doe era doe in
  era * 400 <= year d <= era * 400 + 400 /\ 1 <= month d <= 12 /\
  1 <= day d <= last_day_of_month (year d) (month d).
Proof.
  intros H. pose proof (yoe_bounds doe H) as Hy. pose proof (doy_bounds doe H) as Hd.
  unfold civil_of_doe. cbv zeta in Hd |- *. cbn [year month day].
  set (yoe := (doe - doe / 1460 + doe / 36524 - doe / 146096) / 365) in *.
  set (doy := doe - (365 * yoe + yoe / 4 - yoe / 100)) in *.
  assert (Hleap : doy = 365 -> is_leap (yoe + era * 400 + 1) = true).
  { unfold doy, is_leap. intros Hdoy.
    replace ((yoe + era * 400 + 1) mod 4) with ((yoe + 1) mod 4)
      by (rewrite <- (Z.mod_add (yoe + 1) (era * 100) 4) by lia; f_equal; lia).
    replace ((yoe + era * 400 + 1) mod 100) with ((yoe + 1) mod 100)
      by (rewrite <- (Z.mod_add (yoe + 1) (era * 4) 100) by lia; f_equal; lia).
    replace ((yoe + era * 400 + 1) mod 400) with ((yoe + 1) mod 400)
      by (rewrite <- (Z.mod_add (yoe + 1) (era * 1) 400) by lia; f_equal; lia).
    unfold yoe in *. zdlia. }
  clearbody yoe doy.
  assert (Hmp : 0 <= (5 * doy + 2) / 153 <= 11) by zdlia.
  assert (Hday : 1 <= doy - (153 * ((5 * doy + 2) / 153) + 2) / 5 + 1 <= 31) by zdlia.
  set (mp := (5 * doy + 2) / 153) in *.
  assert (Hlen : (mp = 1 \/ mp = 3 \/ mp = 6 \/ mp = 8) ->
    doy - (153 * mp + 2) / 5 + 1 <= 30) by (unfold mp; zdlia).
  assert (Hfeb : mp = 11 -> doy - (153 * mp + 2) / 5 + 1 <= 29 /\
    (doy - (153 * mp + 2) / 5 + 1 = 29 -> doy = 365)) by (unfold mp; zdlia).
  clearbody mp.
  assert (Hcases : mp = 0 \/ mp = 1 \/ mp = 2 \/ mp = 3 \/ mp = 4 \/ mp = 5 \/ mp = 6
    \/ mp = 7 \/ mp = 8 \/ mp = 9 \/ mp = 10 \/ mp = 11) by lia.
  split; [repeat case_match; lia|].
  unfold last_day_of_month.
  destruct Hcases as [->|[->|[->|[->|[->|[->|[->|[->|[->|[->|[->| ->]]]]]]]]]]];
    simpl; split; try lia.
  destruct (is_leap (yoe + era * 400 + 1)) eqn:E; [lia|].
  destruct (decide (doy = 365)); [naive_solver|]. lia.
Qed.

Lemma civil_from_days_fields days :
  let d := civil_from_days days in
  let era := (days + 719468) / 146097 in
  era * 400 <= year d <= era * 400 + 400 /\ 1 <= month d <= 12 /\
  1 <= day d <= last_day_of_month (year d) (month d).
Proof. apply civil_of_doe_fields, Z.mod_pos_bound. lia. Qed.

Lemma last_day_bound y m : 28 <= last_day_of_month y m <= 31.
Proof. unfold last_day_of_month. repeat case_match; lia. Qed.

Lemma date_ok_spec d :
  date_ok d = true <->
  -32767 <= year d <= 32767 /\ 1 <= month d <= 12 /\
  1 <= day d <= last_day_of_month (year d) (month d).
Proof. unfold date_ok. rewrite !andb_true_iff, !Z.leb_le. lia. Qed.

(** Days whose year has four digits at most: 0000-03-01 to 9600-02-28 and
    more; the range of [RuntimeTimePoint] is far inside. *)
Lemma civil_from_days_ok days :
  -719468 <= days < 24 * 146097 - 719468 ->
  date_ok (civil_from_days days) = true /\ 0 <= year (civil_from_days days) < 10000.
Proof.
  intros H. pose proof (civil_from_days_fields days) as F. cbv zeta in F.
  assert (0 <= (days + 719468) / 146097 < 24) by zdlia.
  rewrite date_ok_spec. lia.
Qed.

Lemma wrap64_id z : - 2 ^ 63 <= z < 2 ^ 63 -> wrap64 z = z.
Proof. intros H. unfold wrap64. rewrite Z.mod_small; lia. Qed.

Lemma wrap64_add_l a b : wrap64 (wrap64 a + b) = wrap64 (a + b).
Proof.
  unfold wrap64. f_equal.
  replace ((a + 2 ^ 63) mod 2 ^ 64 - 2 ^ 63 + b + 2 ^ 63)
    with ((a + 2 ^ 63) mod 2 ^ 64 + b) by lia.
  rewrite Zplus_mod_idemp_l. f_equal. lia.
Qed.

Lemma time_point_of_eq date h m s :
  time_point_of date h m s =
  wrap64 ((days_from_civil date * 86400 + h * 3600 + m * 60 + s) * ns_per_s).
Proof.
  unfold time_point_of. cbv zeta. repeat (rewrite wrap64_add_l; rewrite <- ?Z.add_assoc).
  f_equal. unfold ns_per_s. lia.
Qed.

(** Strings of a known length, taken apart into their characters. *)
Lemma string_length_2 s : String.length s = 2%nat -> exists a b, s = String a (String b "").
Proof. destruct s as [|a [|b [|]]]; try done. by exists a, b. Qed.

Lemma string_length_4 s :
  String.length s = 4%nat -> exists a b c d, s = String a (String b (String c (String d ""))).
Proof. destruct s as [|a [|b [|c [|d [|]]]]]; try done. by exists a, b, c, d. Qed.

(** The parser on text of the right shape. *)
Lemma parse_utc_shape (compact : bool) Y M D h m s y mo d hh mm ss :
  String.length Y = 4%nat -> String.length M = 2%nat -> String.length D = 2%nat ->
  String.length h = 2%nat -> String.length m = 2%nat -> String.length s = 2%nat ->
  decimal Y = Some y -> decimal M = Some mo -> decimal D = Some d ->
  decimal h = Some hh -> decimal m = Some mm -> decimal s = Some ss ->
  let colon := if compact then "" else ":" in
  parse_utc_timestamp (Y +:+ "-" +:+ M +:+ "-" +:+ D +:+ "T" +:+ h +:+ colon +:+ m
                       +:+ colon +:+ s +:+ "Z") =
  if (negb (date_ok (mkDate y mo d)) || (23 <? hh) || (59 <? mm) || (59 <? ss))%bool
  then None else Some (time_point_of (mkDate y mo d) hh mm ss).
Proof.
  intros LY LM LD Lh Lm Ls EY EM ED Eh Em Es.
  apply string_length_4 in LY as (?&?&?&?&->).
  apply string_length_2 in LM as (?&?&->), LD as (?&?&->), Lh as (?&?&->),
    Lm as (?&?&->), Ls as (?&?&->).
  destruct compact; unfold parse_utc_timestamp; cbn -[decimal date_ok time_point_of Z.ltb];
    by rewrite EY, EM, ED, Eh, Em, Es.
Qed.

Lemma format_parse (compact : bool) t :
  - 719468 * 86400 <= t / ns_per_s < (24 * 146097 - 719468) * 86400 ->
  parse_utc_timestamp (format_utc t compact) = Some (wrap64 (t / ns_per_s * ns_per_s)).
Proof.
  intros Ht. unfold format_utc. cbv zeta.
  set (secs := t / ns_per_s) in *. clearbody secs.
  destruct (civil_from_days_ok (secs / 86400)) as [Hok Hyear]; [zdlia|].
  pose proof (last_day_bound (year (civil_from_days (secs / 86400)))
    (month (civil_from_days (secs / 86400)))) as Hlast.
  pose proof Hok as Hf. apply date_ok_spec in Hf as (_ & Hm & Hd).
  pose proof (days_from_civil_from_days (secs / 86400)) as Hdays.
  destruct (civil_from_days (secs / 86400)) as [y m d]; cbn [year month day] in *.
  destruct (setw0_spec 4 y) as (? & ? & _); [lia..|].
  destruct (setw0_spec 2 m) as (? & ? & _); [lia..|].
  destruct (setw0_spec 2 d) as (? & ? & _); [lia..|].
  destruct (setw0_spec 2 (secs mod 86400 / 3600)) as (? & ? & _); [lia|zdlia|].
  destruct (setw0_spec 2 (secs mod 86400 mod 3600 / 60)) as (? & ? & _); [lia|zdlia|].
  destruct (setw0_spec 2 (secs mod 86400 mod 60)) as (? & ? & _); [lia|zdlia|].
  rewrite (parse_utc_shape compact _ _ _ _ _ _ y m d (secs mod 86400 / 3600)
    (secs mod 86400 mod 3600 / 60) (secs mod 86400 mod 60)) by done.
  rewrite Hok. simpl.
  rewrite (proj2 (Z.ltb_ge 23 _)), !(proj2 (Z.ltb_ge 59 _)) by zdlia. simpl.
  f_equal. rewrite time_point_of_eq, Hdays. f_equal. f_equal. zdlia.
Qed.

(** The time points of which the start of the second is representable too. *)
Definition representable (t : RuntimeTimePoint) : Prop :=
  -9223372036000000000 <= t < 2 ^ 63.

Lemma representable_seconds t :
  representable t -> - 719468 * 86400 <= t / ns_per_s < (24 * 146097 - 719468) * 86400.
Proof. unfold representable, ns_per_s. intros. zdlia. Qed.

Lemma format_utc_snapshot_length t :
  representable t -> String.length (format_utc_snapshot_timestamp t) = 18%nat.
Proof.
  intros Ht%representable_seconds. unfold format_utc_snapshot_timestamp, format_utc. cbv zeta.
  set (secs := t / ns_per_s) in *. clearbody secs.
  destruct (civil_from_days_ok (secs / 86400)) as [Hok Hyear]; [zdlia|].
  pose proof (last_day_bound (year (civil_from_days (secs / 86400)))
    (month (civil_from_days (secs / 86400)))) as Hlast.
  apply date_ok_spec in Hok as (_ & Hm & Hd).
  destruct (civil_from_days (secs / 86400)) as [y m d]; cbn [year month day] in *.
  rewrite !string_length_app. cbn [String.length].
  destruct (setw0_spec 4 y) as (-> & _); [lia..|].
  destruct (setw0_spec 2 m) as (-> & _); [lia..|].
  destruct (setw0_spec 2 d) as (-> & _); [lia..|].
  destruct (setw0_spec 2 (secs mod 86400 / 3600)) as (-> & _); [lia|zdlia|].
  destruct (setw0_spec 2 (secs mod 86400 mod 3600 / 60)) as (-> & _); [lia|zdlia|].
  by destruct (setw0_spec 2 (secs mod 86400 mod 60)) as (-> & _); [lia|zdlia|].
Qed.

Lemma snapshot_timestamp_parses t :
  representable t ->
  parse_utc_timestamp (format_utc_snapshot_timestamp t) = Some (t / ns_per_s * ns_per_s).
Proof.
  intros Ht. unfold format_utc_snapshot_timestamp.
  rewrite format_parse by (by apply representable_seconds). f_equal.
  apply wrap64_id. unfold representable, ns_per_s in *. zdlia.
Qed.

(** ** Theorems *)

(** Both text forms of a time point, the one of snapshot names and the ISO
    one, parse back to the beginning of the second it lies in, for every time point
    a 64-bit count of nanoseconds can hold. *)
Theorem utc_timestamp_roundtrip (t : RuntimeTimePoint) :
  representable t ->
  parse_utc_timestamp (format_utc_snapshot_timestamp t) = Some (t / ns_per_s * ns_per_s) /\
  parse_utc_timestamp (format_utc_iso_timestamp t) = Some (t / ns_per_s * ns_per_s) /\
  t / ns_per_s * ns_per_s <= t < t / ns_per_s * ns_per_s + ns_per_s.
Proof.
  unfold representable. intros Ht.
  assert (Hs : - 719468 * 86400 <= t / ns_per_s < (24 * 146097 - 719468) * 86400)
    by (unfold ns_per_s; zdlia).
  assert (Hw : wrap64 (t / ns_per_s * ns_per_s) = t / ns_per_s * ns_per_s)
    by (apply wrap64_id; unfold ns_per_s; zdlia).
  unfold format_utc_snapshot_timestamp, format_utc_iso_timestamp.
  rewrite !format_parse, Hw by done. split_and!; [done..|unfold ns_per_s; zdlia|unfold ns_per_s; zdlia].
Qed.

Lemma utc_timestamp_roundtrip_witness :
  representable 1709210096123456789 /\
  parse_utc_timestamp "2024-02-29T123456Z" = Some 1709210096000000000.
Proof.
  assert (H : representable 1709210096123456789) by (unfold representable; lia).
  split; [exact H|].
  exact (proj1 (utc_timestamp_roundtrip 1709210096123456789 H)).
Defined.

(** A date of the years 0 to 9999 that exists parses back from its text. *)
Theorem parse_local_date_roundtrip (d : LocalDate) :
  date_ok d = true -> 0 <= year d < 10000 ->
  parse_local_date (format_local_date d) = Some d.
Proof.
  intros Hok Hy. pose proof Hok as Hf. apply date_ok_spec in Hf as (_ & Hm & Hd).
  pose proof (last_day_bound (year d) (month d)).
  destruct (setw0_spec 4 (year d)) as (LY & EY & _); [lia..|].
  destruct (setw0_spec 2 (month d)) as (LM & EM & _); [lia..|].
  destruct (setw0_spec 2 (day d)) as (LD & ED & _); [lia..|].
  unfold format_local_date.
  set (Y := setw0 4 (year d)) in *. set (M := setw0 2 (month d)) in *.
  set (D := setw0 2 (day d)) in *. clearbody Y M D.
  apply string_length_4 in LY as (?&?&?&?&->).
  apply string_length_2 in LM as (?&?&->), LD as (?&?&->).
  unfold parse_local_date. cbn -[decimal date_ok]. rewrite EY, EM, ED.
  replace (mkDate (year d) (month d) (day d)) with d by (by destruct d).
  by rewrite Hok.
Qed.

Lemma parse_local_date_roundtrip_witness :
  parse_local_date "2024-02-29" = Some (mkDate 2024 2 29).
Proof.
  apply (parse_local_date_roundtrip (mkDate 2024 2 29)); [reflexivity|simpl; lia].
Defined.

(** A timestamp beyond the last second a 64-bit count of nanoseconds holds is
    accepted, and its value wraps around to the past. *)
Theorem parse_utc_timestamp_out_of_range :
  parse_utc_timestamp "2262-04-11T234716Z" = Some 9223372036000000000 /\
  parse_utc_timestamp "2262-04-11T234717Z" = Some (-9223372036709551616) /\
  (-9223372036709551616 < 9223372036000000000).
Proof. split_and!; vm_compute; done. Qed.
