(* ===== verification/FsPath.v ===== *)
(** * Lexical paths: [std::filesystem::path] on POSIX

    The part of [std::filesystem::path] the sources use, all of it lexical: a
    path is its native string; iteration yields the root directory, the
    filenames and an empty element for a trailing separator;
    [lexically_normal], [operator/], [filename] and [operator==] follow the C++
    standard (and libstdc++, which treats a leading [//] as one root). *)

From S2P Require Import Prelude Errors Identifiers.

Abbreviation path := string (only parsing).

(** A path taken apart: root directory, filenames, trailing separator. *)
Record ppath := mkPP { pp_root : bool; pp_names : list string; pp_trail : bool }.

Global Instance ppath_eq_dec : EqDecision ppath.
Proof. solve_decision. Defined.

(** The text between separators. *)
Fixpoint split_slash (s : string) : list string :=
  match s with
  | EmptyString => [""]
  | String c r =>
      if Ascii.eqb c "/" then "" :: split_slash r
      else match split_slash r with
           | h :: t => String c h :: t
           | [] => [String c ""]
           end
  end.

Definition starts_with_slash (s : string) : bool :=
  match s with String c _ => Ascii.eqb c "/" | _ => false end.

Definition nonempty (s : string) : bool := negb (str_empty s).

Definition pp_parse (p : path) : ppath :=
  let segments := split_slash p in
  let names := List.filter nonempty segments in
  mkPP (starts_with_slash p) names
    (negb (bool_decide (names = [])) && str_empty (List.last segments "")).

Fixpoint join_slash (l : list string) : string :=
  match l with
  | [] => ""
  | [x] => x
  | x :: l => x +:+ "/" +:+ join_slash l
  end.

Definition pp_render (p : ppath) : path :=
  (if pp_root p then "/" else "") +:+ join_slash (pp_names p) +:+ (if pp_trail p then "/" else "").

(** The elements an iterator visits. *)
Definition pp_elements (p : ppath) : list string :=
  (if pp_root p then ["/"] else []) ++ pp_names p ++ (if pp_trail p then [""] else []).

Definition path_elements (p : path) : list string := pp_elements (pp_parse p).

(** [operator==]: element by element. *)
Definition path_eqb (a b : path) : bool := bool_decide (path_elements a = path_elements b).

(** [is_absolute()] *)
Definition is_absolute (p : path) : bool := pp_root (pp_parse p).

Definition pp_has_filename (p : ppath) : bool :=
  (negb (bool_decide (pp_names p = [])) && negb (pp_trail p))%bool.

(** [filename()] *)
Definition filename (p : path) : string :=
  let q := pp_parse p in
  if pp_has_filename q then List.last (pp_names q) "" else "".

(** [a / b] *)
Definition path_append (a b : path) : path :=
  if is_absolute b then b
  else if pp_has_filename (pp_parse a) then a +:+ "/" +:+ b
  else a +:+ b.

(** [lexically_normal()]: one element appended to the result so far, as in
    the loop of libstdc++. *)
Definition pp_append_empty (r : ppath) : ppath :=
  if pp_has_filename r then mkPP (pp_root r) (pp_names r) true else r.

Definition pp_drop_last (r : ppath) : ppath :=
  let names := List.removelast (pp_names r) in
  mkPP (pp_root r) names (negb (bool_decide (names = []))).

Definition norm_step (r : ppath) (e : string) : ppath :=
  if String.eqb e ".." then
    if pp_has_filename r then
      if String.eqb (List.last (pp_names r) "") ".."
      then mkPP (pp_root r) (pp_names r ++ [e]) false
      else pp_drop_last r
    else if bool_decide (pp_names r = []) then
      if pp_root r then r else mkPP (pp_root r) (pp_names r ++ [e]) false
    else if String.eqb (List.last (pp_names r) "") ".."
      then mkPP (pp_root r) (pp_names r ++ [e]) false
      else pp_drop_last r
  else if String.eqb e "." then pp_append_empty r
  else if String.eqb e "/" then mkPP true [] false
  else if String.eqb e "" then pp_append_empty r
  else mkPP (pp_root r) (pp_names r ++ [e]) false.

Definition norm_finish (r : ppath) : ppath :=
  if (pp_trail r && String.eqb (List.last (pp_names r) "") "..")%bool
  then mkPP (pp_root r) (pp_names r) false
  else if (negb (pp_root r) && bool_decide (pp_names r = []))%bool
  then mkPP false ["."] false
  else r.

Definition pp_normal (p : ppath) : ppath :=
  norm_finish (foldl norm_step (mkPP false [] false) (pp_elements p)).

Definition lexically_normal (p : path) : path :=
  if str_empty p then "" else pp_render (pp_normal (pp_parse p)).

Example normal_1 : lexically_normal "/mnt//a/./b/../c/" = "/mnt/a/c/".
Proof. reflexivity. Qed.
Example normal_2 : lexically_normal "a/.." = ".".
Proof. reflexivity. Qed.
Example normal_3 : lexically_normal "/../a/b/.." = "/a/".
Proof. reflexivity. Qed.
Example normal_4 : lexically_normal "../a/../.." = "../..".
Proof. reflexivity. Qed.
Example elements_1 : path_elements "/a//b/" = ["/"; "a"; "b"; ""].
Proof. reflexivity. Qed.
Example append_1 : path_append "/" "b" = "/b" /\ path_append "a/" "b" = "a/b"
  /\ path_append "" "b" = "b" /\ path_append "/a" "" = "/a/".
Proof. split_and!; reflexivity. Qed.

(** ** Taking apart and putting together *)

Definition no_slash (s : string) : Prop := str_contains "/" s = false.

(** A filename: not empty and without separator. *)
Definition is_name (s : string) : Prop := s <> "" /\ no_slash s.

(** The results of taking apart a path. *)
Definition pp_wf (p : ppath) : Prop :=
  Forall is_name (pp_names p) /\ (pp_trail p = true -> pp_names p <> []).

Lemma no_slash_cons c s : no_slash (String c s) <-> Ascii.eqb c "/" = false /\ no_slash s.
Proof.
  unfold no_slash. rewrite str_contains_cons, orb_false_iff, Ascii.eqb_sym. done.
Qed.

Lemma split_slash_nonempty s : split_slash s <> [].
Proof.
  destruct s as [|c s]; simpl; [done|]. case_match; [done|]. case_match; done.
Qed.

Lemma split_slash_name s : no_slash s -> split_slash s = [s].
Proof.
  induction s as [|c s IH]; simpl; [done|]. intros [E H]%no_slash_cons.
  by rewrite E, IH.
Qed.

Lemma split_slash_app s r :
  no_slash s -> split_slash (s +:+ String "/" r) = s :: split_slash r.
Proof.
  induction s as [|c s IH]; [done|]. intros [E H]%no_slash_cons.
  simpl. by rewrite E, IH.
Qed.

Lemma split_slash_segments s : Forall no_slash (split_slash s).
Proof.
  induction s as [|c s IH]; simpl; [by repeat constructor|].
  destruct (Ascii.eqb c "/") eqn:E; [by constructor|].
  destruct (split_slash s) as [|h t]; inversion IH; subst; constructor; auto;
    apply no_slash_cons; done.
Qed.

Lemma nonempty_true s : nonempty s = true <-> s <> "".
Proof. unfold nonempty. by destruct s. Qed.

Lemma pp_parse_wf p : pp_wf (pp_parse p).
Proof.
  split; simpl.
  - pose proof (split_slash_segments p) as H.
    rewrite Forall_forall in H |- *. intros x Hx.
    apply list_elem_of_In, List.filter_In in Hx as [Hx Hn].
    split; [by apply nonempty_true|]. by apply H, list_elem_of_In.
  - intros H. breflect. done.
Qed.

Lemma split_join l :
  Forall is_name l -> l <> [] -> split_slash (join_slash l) = l.
Proof.
  induction l as [|x l IH]; [done|]. intros H _. inversion H as [|? ? [Hx1 Hx2] Hl]; subst.
  destruct l as [|y l]; [by apply split_slash_name|].
  change (join_slash (x :: y :: l)) with (x +:+ String "/" (join_slash (y :: l))).
  rewrite split_slash_app by done. f_equal. by apply IH.
Qed.

Lemma split_join_trail l :
  Forall is_name l -> l <> [] -> split_slash (join_slash l +:+ "/") = l ++ [""].
Proof.
  induction l as [|x l IH]; [done|]. intros H _. inversion H as [|? ? [Hx1 Hx2] Hl]; subst.
  destruct l as [|y l]; [by apply (split_slash_app x "")|].
  change (join_slash (x :: y :: l)) with (x +:+ String "/" (join_slash (y :: l))).
  rewrite string_app_assoc. cbn [String.append]. rewrite split_slash_app by done.
  simpl. f_equal. by apply IH.
Qed.

Lemma filter_names l : Forall is_name l -> List.filter nonempty l = l.
Proof.
  induction l as [|x l IH]; [done|]. intros H. inversion H as [|? ? [Hx1 Hx2] Hl]; subst.
  simpl. rewrite (proj2 (nonempty_true x)) by done. f_equal. by apply IH.
Qed.

Lemma last_names l : Forall is_name l -> l <> [] -> str_empty (List.last l "") = false.
Proof.
  induction l as [|x l IH]; [done|]. intros H _. inversion H as [|? ? [Hx1 Hx2] Hl]; subst.
  destruct l as [|y l]; [by destruct x|]. by apply IH.
Qed.

Lemma join_starts l : Forall is_name l -> starts_with_slash (join_slash l) = false.
Proof.
  destruct l as [|x l]; [done|]. intros H. inversion H as [|? ? [Hx1 Hx2] Hl]; subst.
  destruct x as [|c x]; [done|]. apply no_slash_cons in Hx2 as [E _].
  by destruct l.
Qed.

Lemma pp_parse_render p : pp_wf p -> pp_parse (pp_render p) = p.
Proof.
  destruct p as [r l t]. intros [Hl Ht]; simpl in *. unfold pp_parse, pp_render; simpl.
  destruct (decide (l = [])) as [->|Hne].
  { destruct t; [by destruct (Ht eq_refl)|]. by destruct r. }
  assert (Hs : split_slash (join_slash l +:+ (if t then "/" else "")) =
               l ++ (if t then [""] else [])).
  { destruct t; [by apply split_join_trail|].
    rewrite string_app_nil_r, app_nil_r. by apply split_join. }
  assert (Hf : List.filter nonempty (l ++ (if t then [""] else [])) = l).
  { rewrite List.filter_app, filter_names by done. destruct t; simpl; by rewrite app_nil_r. }
  assert (He : str_empty (List.last (l ++ (if t then [""] else [])) "") = t).
  { destruct t; [by rewrite List.last_last|]. rewrite app_nil_r. by apply last_names. }
  assert (Hst : starts_with_slash (join_slash l +:+ (if t then "/" else "")) = false).
  { pose proof (join_starts l Hl) as Hj. destruct (join_slash l) eqn:Ej; [|done].
    exfalso. destruct l as [|x l]; [done|]. inversion Hl as [|? ? [Hx1 Hx2] _]; subst.
    destruct x; [done|]. by destruct l. }
  destruct r; simpl.
  - change ("/" +:+ ?s) with (String "/" s). simpl. rewrite Hs, Hf.
    rewrite bool_decide_eq_false_2 by done. simpl.
    destruct (l ++ (if t then [""] else [])) eqn:Ea; [by destruct l|]. by rewrite He.
  - change ("" +:+ ?s) with s. rewrite Hst, Hs, Hf, He, bool_decide_eq_false_2 by done. done.
Qed.

(** ** Normal forms *)

Lemma plain_is_name s : plain_component s -> is_name s.
Proof. intros (H1 & H2 & _). done. Qed.

Lemma plain_names l : Forall plain_component l -> Forall is_name l.
Proof. intros H. eapply Forall_impl; [done|]. apply plain_is_name. Qed.

Lemma plain_not_root s : plain_component s -> s <> "/".
Proof. intros (_ & H & _) ->. done. Qed.

Lemma norm_step_plain r e :
  plain_component e -> norm_step r e = mkPP (pp_root r) (pp_names r ++ [e]) false.
Proof.
  intros He. pose proof (plain_not_root e He). destruct He as (H1 & H2 & H3 & H4).
  unfold norm_step. by rewrite !(proj2 (String.eqb_neq e _)) by done.
Qed.

Lemma norm_fold_plain l r :
  Forall plain_component l -> l <> [] ->
  foldl norm_step r l = mkPP (pp_root r) (pp_names r ++ l) false.
Proof.
  revert r. induction l as [|x l IH]; intros r; [done|]. intros H _.
  inversion H as [|? ? Hx Hl]; subst. simpl. rewrite norm_step_plain by done.
  destruct l as [|y l]; [done|].
  rewrite IH by done. simpl. by rewrite <- app_assoc.
Qed.

(** Absolute paths in normal form: the results of [lexically_normal] on
    absolute paths ([lexically_normal_abs]). *)
Definition pp_abs_nf (p : ppath) : Prop :=
  pp_root p = true /\ Forall plain_component (pp_names p) /\
  (pp_trail p = true -> pp_names p <> []).

Lemma pp_abs_nf_wf p : pp_abs_nf p -> pp_wf p.
Proof. intros (_ & H & Ht). split; [by apply plain_names|done]. Qed.

Lemma plain_last l : Forall plain_component l -> l <> [] -> plain_component (List.last l "").
Proof.
  intros H Hne. destruct (exists_last Hne) as (l' & x & ->). rewrite List.last_last.
  rewrite Forall_app in H. destruct H as [_ H]. by inversion H.
Qed.

Lemma pp_normal_plain p :
  pp_wf p -> Forall plain_component (pp_names p) ->
  (pp_root p = true \/ pp_names p <> []) -> pp_normal p = p.
Proof.
  destruct p as [r l t]; simpl. intros [_ Ht] Hl Hne; simpl in *.
  unfold pp_normal, pp_elements; simpl.
  destruct (decide (l = [])) as [->|Hl0].
  { destruct t; [by destruct (Ht eq_refl)|]. destruct Hne as [->|]; done. }
  rewrite !foldl_app.
  assert (Hr : foldl norm_step (mkPP false [] false) (if r then ["/"] else []) = mkPP r [] false)
    by (by destruct r).
  rewrite Hr, (norm_fold_plain l) by done. simpl.
  pose proof (plain_last l Hl Hl0) as (_ & _ & _ & Hlast).
  destruct t; simpl; unfold norm_step, pp_append_empty, pp_has_filename, norm_finish; simpl;
    rewrite ?bool_decide_eq_false_2 by done; simpl;
    rewrite ?(proj2 (String.eqb_neq _ _) Hlast); simpl; by rewrite ?andb_false_r.
Qed.

Lemma removelast_Forall {A} (P : A -> Prop) l : Forall P l -> Forall P (List.removelast l).
Proof.
  induction l as [|x l IH]; [done|]. intros H. inversion H; subst.
  destruct l as [|y l]; [constructor|]. constructor; auto.
Qed.

Lemma pp_drop_last_nf r : pp_abs_nf r -> pp_abs_nf (pp_drop_last r).
Proof.
  intros (H1 & H2 & H3). split; [done|]. split; [by apply removelast_Forall|].
  simpl. intros H. by breflect.
Qed.

Lemma pp_append_empty_nf r : pp_abs_nf r -> pp_abs_nf (pp_append_empty r).
Proof.
  intros (H1 & H2 & H3). unfold pp_append_empty. case_match eqn:E; [|done].
  unfold pp_has_filename in E. breflect. done.
Qed.

Lemma norm_step_nf r e : pp_abs_nf r -> no_slash e -> pp_abs_nf (norm_step r e).
Proof.
  intros Hr He. pose proof Hr as (H1 & H2 & H3). unfold norm_step.
  destruct (String.eqb_spec e "..") as [->|N1].
  - destruct (decide (pp_names r = [])) as [E|E].
    + unfold pp_has_filename. rewrite E, bool_decide_eq_true_2 by done. simpl.
      by rewrite H1.
    + destruct (plain_last _ H2 E) as (_ & _ & _ & HL).
      rewrite (proj2 (String.eqb_neq _ _) HL), (bool_decide_eq_false_2 (_ = [])) by done.
      case_match; by apply pp_drop_last_nf.
  - destruct (String.eqb_spec e ".") as [->|N2]; [by apply pp_append_empty_nf|].
    destruct (String.eqb_spec e "/") as [->|N3]; [done|].
    destruct (String.eqb_spec e "") as [->|N4]; [by apply pp_append_empty_nf|].
    split; [done|]. simpl. split; [|by intros].
    apply Forall_app. split; [done|]. repeat constructor; done.
Qed.

Lemma norm_fold_nf l r :
  pp_abs_nf r -> Forall no_slash l -> pp_abs_nf (foldl norm_step r l).
Proof.
  revert r. induction l as [|x l IH]; intros r Hr Hl; [done|].
  inversion Hl; subst. simpl. apply IH; [|done]. by apply norm_step_nf.
Qed.

Lemma pp_normal_abs_nf p : pp_wf p -> pp_root p = true -> pp_abs_nf (pp_normal p).
Proof.
  intros [Hn Ht] Hr. unfold pp_normal, pp_elements. rewrite Hr.
  rewrite foldl_app.
  assert (Hnf : pp_abs_nf (foldl norm_step (mkPP true [] false)
                   (pp_names p ++ (if pp_trail p then [""] else [])))).
  { apply norm_fold_nf; [done|]. apply Forall_app. split.
    - eapply Forall_impl; [exact Hn|]. by intros x [_ H].
    - destruct (pp_trail p); repeat constructor. }
  change (foldl norm_step (mkPP false [] false) ["/"]) with (mkPP true [] false).
  set (q := foldl _ _ _) in *. clearbody q. unfold norm_finish.
  pose proof Hnf as (H1 & H2 & H3).
  destruct (pp_trail q) eqn:Eq; simpl.
  - destruct (plain_last _ H2 (H3 eq_refl)) as (_ & _ & _ & HL).
    rewrite (proj2 (String.eqb_neq _ _) HL), H1. done.
  - by rewrite H1.
Qed.

Lemma starts_with_slash_nonempty p : starts_with_slash p = true -> str_empty p = false.
Proof. by destruct p. Qed.

Lemma lexically_normal_abs p :
  is_absolute p = true ->
  pp_abs_nf (pp_normal (pp_parse p)) /\
  lexically_normal p = pp_render (pp_normal (pp_parse p)) /\
  pp_parse (lexically_normal p) = pp_normal (pp_parse p).
Proof.
  intros Ha. assert (Hnf : pp_abs_nf (pp_normal (pp_parse p)))
    by (apply pp_normal_abs_nf; [apply pp_parse_wf|done]).
  assert (E : lexically_normal p = pp_render (pp_normal (pp_parse p))).
  { unfold lexically_normal. by rewrite (starts_with_slash_nonempty p) by done. }
  split; [done|]. split; [done|]. rewrite E. by apply pp_parse_render, pp_abs_nf_wf.
Qed.

(** Paths given by a normal form are their own normal form. *)
Lemma lexically_normal_render p :
  pp_abs_nf p -> lexically_normal (pp_render p) = pp_render p.
Proof.
  intros Hp. pose proof Hp as (Hr & Hn & _). unfold lexically_normal.
  assert (str_empty (pp_render p) = false) as ->.
  { unfold pp_render. by rewrite Hr. }
  rewrite pp_parse_render by (by apply pp_abs_nf_wf).
  rewrite pp_normal_plain; [done|by apply pp_abs_nf_wf|done|by left].
Qed.

Lemma lexically_normal_idem p :
  is_absolute p = true ->
  lexically_normal (lexically_normal p) = lexically_normal p.
Proof.
  intros Ha. destruct (lexically_normal_abs p Ha) as (Hnf & -> & _).
  by apply lexically_normal_render.
Qed.

(** ** Appending a filename *)

Lemma split_slash_app_gen a b : split_slash (a +:+ String "/" b) = split_slash a ++ split_slash b.
Proof.
  induction a as [|c a IH]; simpl; [done|]. case_match; [by rewrite IH|].
  rewrite IH. destruct (split_slash a) eqn:E; [by apply split_slash_nonempty in E|done].
Qed.

Lemma split_slash_app_name a b :
  no_slash b ->
  split_slash (a +:+ b)
  = List.removelast (split_slash a) ++ [List.last (split_slash a) "" +:+ b].
Proof.
  intros Hb. induction a as [|c a IH]; simpl; [by apply split_slash_name|].
  pose proof (split_slash_nonempty a).
  destruct (split_slash a) as [|h t] eqn:E; [done|].
  case_match.
  - rewrite IH. by destruct t.
  - rewrite IH. by destruct t as [|h' t].
Qed.

Lemma last_segment_empty a :
  pp_has_filename (pp_parse a) = false -> List.last (split_slash a) "" = "".
Proof.
  unfold pp_has_filename, pp_parse; cbn [pp_names pp_trail].
  destruct (decide (List.filter nonempty (split_slash a) = [])) as [E|E].
  - intros _. pose proof (split_slash_nonempty a) as Hne.
    destruct (exists_last Hne) as (l & x & Ex). rewrite Ex in E |- *. rewrite List.last_last.
    rewrite List.filter_app in E. apply app_eq_nil in E as [_ E]. simpl in E.
    destruct x; [done|]. by unfold nonempty in E.
  - rewrite (bool_decide_eq_false_2 _ E). simpl.
    rewrite negb_false_iff. by destruct (List.last (split_slash a) "").
Qed.

Lemma path_append_segments a n :
  is_name n -> exists l, split_slash (path_append a n) = l ++ [n].
Proof.
  intros [Hn1 Hn2]. unfold path_append.
  assert (is_absolute n = false) as ->.
  { unfold is_absolute; simpl. destruct n as [|c n]; [done|].
    by apply no_slash_cons in Hn2 as [E _]. }
  case_match eqn:E.
  - change (a +:+ "/" +:+ n) with (a +:+ String "/" n). rewrite split_slash_app_gen.
    rewrite (split_slash_name n) by done. by eexists.
  - rewrite split_slash_app_name by done. rewrite last_segment_empty by done. by eexists.
Qed.

Lemma filename_append a n : is_name n -> filename (path_append a n) = n.
Proof.
  intros Hn. destruct (path_append_segments a n Hn) as (l & E).
  assert (List.filter nonempty (l ++ [n]) = List.filter nonempty l ++ [n]) as Hf.
  { rewrite List.filter_app. simpl. by rewrite (proj2 (nonempty_true n)) by apply Hn. }
  unfold filename, pp_has_filename, pp_parse; cbn [pp_names pp_trail].
  rewrite E, Hf, !List.last_last.
  rewrite bool_decide_eq_false_2 by (by destruct (List.filter nonempty l)). simpl.
  destruct Hn as [Hn _]. by destruct n.
Qed.

Lemma split_slash_app_open a b :
  List.last (split_slash a) "" = "" -> split_slash (a +:+ b) = List.removelast (split_slash a) ++ split_slash b.
Proof.
  induction a as [|c a IH]; simpl; [done|]. pose proof (split_slash_nonempty a).
  destruct (split_slash a) as [|h t] eqn:E; [done|]. case_match.
  - intros Hl. rewrite IH; by destruct t.
  - destruct t as [|h' t]; [done|]. intros Hl. by rewrite IH.
Qed.

Lemma last_app_nonempty {A} (l k : list A) d : k <> [] -> List.last (l ++ k) d = List.last k d.
Proof.
  intros (k' & x & ->)%exists_last. by rewrite app_assoc, !List.last_last.
Qed.

Lemma filter_removelast_open a :
  List.last (split_slash a) "" = "" ->
  List.filter nonempty (List.removelast (split_slash a)) = List.filter nonempty (split_slash a).
Proof.
  destruct (exists_last (split_slash_nonempty a)) as (l & x & ->).
  rewrite List.last_last, List.removelast_last, List.filter_app. intros ->. cbn. by rewrite app_nil_r.
Qed.

Lemma starts_with_slash_app a b : a <> "" -> starts_with_slash (a +:+ b) = starts_with_slash a.
Proof. by destruct a. Qed.

(** The elements of [a / b]. *)
Lemma pp_parse_append a b :
  is_absolute b = false -> pp_names (pp_parse b) <> [] ->
  pp_parse (path_append a b)
  = mkPP (pp_root (pp_parse a)) (pp_names (pp_parse a) ++ pp_names (pp_parse b)) (pp_trail (pp_parse b)).
Proof.
  intros Hb Hn. pose proof Hb as Hr. unfold path_append. rewrite Hb. unfold is_absolute in Hr.
  cbn in Hr, Hn. assert (forall l : list string, l ++ List.filter nonempty (split_slash b) <> []) as Hne
    by (intros l [_ E]%app_eq_nil; done).
  destruct (pp_has_filename (pp_parse a)) eqn:E.
  - unfold pp_parse. change (a +:+ "/" +:+ b) with (a +:+ String "/" b).
    rewrite split_slash_app_gen, List.filter_app, last_app_nonempty by apply split_slash_nonempty.
    rewrite starts_with_slash_app by (by intros ->).
    cbn [pp_names pp_root pp_trail]. by rewrite !bool_decide_eq_false_2.
  - apply last_segment_empty in E. unfold pp_parse.
    rewrite split_slash_app_open, List.filter_app, filter_removelast_open by done.
    rewrite last_app_nonempty by apply split_slash_nonempty.
    cbn [pp_names pp_root pp_trail]. rewrite !bool_decide_eq_false_2 by done.
    destruct a as [|c a]; [|done]. cbn. by rewrite Hr.
Qed.

(** ** Comparing filenames *)

Lemma filename_cases p : filename p = "" \/ is_name (filename p).
Proof.
  unfold filename. destruct (pp_has_filename (pp_parse p)) eqn:E; [|by left]. right.
  destruct (pp_parse_wf p) as [Hn _]. unfold pp_has_filename in E. breflect.
  destruct (pp_names (pp_parse p)) as [|x l]; [done|].
  rewrite Forall_forall in Hn. apply Hn, list_elem_of_In.
  destruct (exists_last (l := x :: l)) as (l' & y & ->); [done|].
  rewrite List.last_last. apply List.in_or_app. right. by left.
Qed.

Lemma path_elements_name n : is_name n -> path_elements n = [n].
Proof.
  intros [Hne Hns]. unfold path_elements, pp_parse. rewrite split_slash_name by done.
  destruct n as [|c n]; [done|]. apply no_slash_cons in Hns as [Hc _]. cbn. by rewrite Hc.
Qed.

Lemma filename_eqb a b : path_eqb (filename a) (filename b) = true -> filename a = filename b.
Proof.
  unfold path_eqb. rewrite bool_decide_eq_true.
  destruct (filename_cases a) as [->|Ha], (filename_cases b) as [->|Hb].
  - done.
  - by rewrite (path_elements_name _ Hb).
  - by rewrite (path_elements_name _ Ha).
  - rewrite (path_elements_name _ Ha), (path_elements_name _ Hb). by injection 1.
Qed.

(** ** Normalisation adds nothing

    A weight of characters, summed over a string: with weight one everywhere it is the
    length, with the indicator of a character it counts that character.  The normal form of
    an absolute path weighs no more than the path. *)

Section weight.
Context (weight : ascii -> nat).

Fixpoint str_weight (s : string) : nat :=
  match s with EmptyString => 0 | String c s => weight c + str_weight s end.

Fixpoint names_weight (l : list string) : nat :=
  match l with [] => 0 | n :: l => str_weight n + weight "/" + names_weight l end.

Lemma str_weight_app a b : str_weight (a +:+ b) = str_weight a + str_weight b.
Proof. induction a as [|c a IH]; cbn; [done|]. rewrite IH. lia. Qed.

Lemma names_weight_app l k : names_weight (l ++ k) = names_weight l + names_weight k.
Proof. induction l as [|x l IH]; cbn; [done|]. rewrite IH. lia. Qed.

Lemma join_weight l : l <> [] -> str_weight (join_slash l) + weight "/" = names_weight l.
Proof.
  induction l as [|x [|y l] IH]; intros H; [done|cbn; lia|].
  change (join_slash (x :: y :: l)) with (x +:+ "/" +:+ join_slash (y :: l)).
  rewrite !str_weight_app. cbn in IH |- *. specialize (IH ltac:(done)). lia.
Qed.

Lemma split_weight s : names_weight (split_slash s) = str_weight s + weight "/".
Proof.
  induction s as [|c s IH]; [done|]. cbn -[names_weight].
  destruct (Ascii.eqb_spec c "/") as [->|].
  - cbn. rewrite IH. lia.
  - pose proof (split_slash_nonempty s) as Hs. destruct (split_slash s) as [|h t]; [done|].
    cbn in IH |- *. lia.
Qed.

Lemma filter_weight l : names_weight (List.filter nonempty l) <= names_weight l.
Proof.
  induction l as [|x l IH]; [done|]. cbn. destruct (nonempty x); cbn in *; lia.
Qed.

(** The separators of the root and of the end are on top of the names. *)
Lemma parse_weight p :
  names_weight (pp_names (pp_parse p))
    + (if pp_root (pp_parse p) then weight "/" else 0)
    + (if pp_trail (pp_parse p) then weight "/" else 0) <= str_weight p + weight "/".
Proof.
  rewrite <-split_weight. cbn -[names_weight].
  assert (Hroot : forall q, starts_with_slash q = true -> exists t, split_slash q = "" :: t).
  { intros [|c q]; cbn; [done|]. intros ->. by eexists. }
  destruct (bool_decide (List.filter nonempty (split_slash p) = [])) eqn:Hn.
  - cbn -[names_weight]. destruct (starts_with_slash p) eqn:Hr.
    + destruct (Hroot p Hr) as [t Ht]. rewrite Ht. cbn -[names_weight].
      pose proof (filter_weight t). cbn in *. lia.
    + pose proof (filter_weight (split_slash p)). lia.
  - cbn -[names_weight]. apply bool_decide_eq_false in Hn.
    destruct (str_empty (List.last (split_slash p) "")) eqn:Ht.
    + assert (Hl : List.last (split_slash p) "" = "") by (by destruct (List.last _ _)).
      rewrite (app_removelast_last "" (split_slash_nonempty p)) in Hn |- *. rewrite Hl in Hn |- *.
      rewrite List.filter_app, names_weight_app, names_weight_app in *. cbn -[names_weight] in *.
      rewrite app_nil_r in *. destruct (starts_with_slash p) eqn:Hr.
      * destruct (Hroot p Hr) as [t Hsp]. rewrite Hsp in Hn |- *. destruct t as [|y t]; [done|].
        change (removelast ("" :: y :: t)) with ("" :: removelast (y :: t)).
        pose proof (filter_weight (removelast (y :: t))).
        cbn -[removelast] in *. cbn in *. lia.
      * pose proof (filter_weight (removelast (split_slash p))). cbn. lia.
    + destruct (starts_with_slash p) eqn:Hr.
      * destruct (Hroot p Hr) as [t Hsp]. rewrite Hsp. pose proof (filter_weight t). cbn in *. lia.
      * pose proof (filter_weight (split_slash p)). lia.
Qed.

Lemma removelast_weight l : names_weight (removelast l) <= names_weight l.
Proof.
  destruct l as [|x l] using rev_ind; [done|]. rewrite removelast_last, names_weight_app. lia.
Qed.

Definition pp_size (r : ppath) : nat :=
  names_weight (pp_names r) + (if pp_root r then weight "/" else 0).

Lemma norm_step_weight r e :
  e <> "/" -> pp_size (norm_step r e) <= pp_size r + (if str_empty e then 0 else str_weight e + weight "/").
Proof.
  intros He. unfold norm_step, pp_append_empty, pp_drop_last, pp_size.
  pose proof (removelast_weight (pp_names r)).
  assert (Hempty : str_empty e = true -> e = "") by (by destruct e).
  repeat case_match; breflect; subst; cbn -[names_weight removelast] in *;
    rewrite ?names_weight_app in *; cbn [names_weight] in *; try discriminate; try lia.
  all: try (by rewrite (Hempty eq_refl) in *); cbn [str_weight]; lia.
Qed.

Lemma norm_fold_weight l r :
  Forall is_name l -> pp_size (foldl norm_step r l) <= pp_size r + names_weight l.
Proof.
  intros Hl. revert r. induction Hl as [|e l [He Hs] Hl IH]; intros r; cbn -[names_weight]; [lia|].
  etrans; [apply IH|]. pose proof (norm_step_weight r e) as Hw.
  assert (e <> "/") by (by intros ->). specialize (Hw ltac:(done)).
  destruct e; [done|]. cbn in *. lia.
Qed.

(** A step that leaves a separator at the end has dropped its element. *)
Lemma norm_step_trail r e :
  e <> "/" -> pp_trail (norm_step r e) = true -> pp_size (norm_step r e) <= pp_size r.
Proof.
  intros He. unfold norm_step, pp_append_empty, pp_drop_last, pp_size.
  pose proof (removelast_weight (pp_names r)).
  repeat case_match; breflect; subst; cbn -[names_weight removelast] in *;
    try discriminate; intros; lia.
Qed.

Lemma render_weight r :
  pp_root r = true -> (pp_trail r = true -> pp_names r <> []) ->
  str_weight (pp_render r) + (if pp_trail r then 0 else weight "/")
    <= pp_size r + (if bool_decide (pp_names r = []) then weight "/" else 0).
Proof.
  intros Hr Ht. unfold pp_render, pp_size. rewrite Hr, !str_weight_app.
  destruct (decide (pp_names r = [])) as [Hn|Hn].
  - rewrite bool_decide_eq_true_2, Hn by done.
    destruct (pp_trail r); [by destruct Ht|]. cbn. lia.
  - rewrite bool_decide_eq_false_2 by done. pose proof (join_weight _ Hn).
    destruct (pp_trail r); cbn; lia.
Qed.

Lemma norm_finish_nf r : pp_abs_nf r -> norm_finish r = r.
Proof.
  intros (Hr & Hn & Ht). unfold norm_finish. rewrite Hr. destruct (pp_trail r); [|done].
  destruct (plain_last _ Hn (Ht eq_refl)) as (_ & _ & _ & Hl).
  by rewrite (proj2 (String.eqb_neq _ _) Hl).
Qed.

Lemma lexically_normal_weight p :
  is_absolute p = true -> str_weight (lexically_normal p) <= str_weight p.
Proof.
  intros Ha. destruct (lexically_normal_abs p Ha) as (_ & -> & _).
  pose proof (pp_parse_wf p) as [Hnames Htrail]. pose proof (parse_weight p) as Hw.
  assert (Hp : weight "/" <= str_weight p).
  { unfold is_absolute in Ha. cbn in Ha. destruct p; [done|]. cbn in *.
    apply Ascii.eqb_eq in Ha as ->. lia. }
  unfold is_absolute in Ha. unfold pp_normal, pp_elements. rewrite Ha in Hw |- *. rewrite foldl_app.
  change (foldl norm_step (mkPP false [] false) ["/"]) with (mkPP true [] false).
  assert (Hnf : forall l, Forall is_name l -> pp_abs_nf (foldl norm_step (mkPP true [] false) l)).
  { intros l Hl. apply norm_fold_nf; [done|]. eapply Forall_impl; [exact Hl|]. by intros x []. }
  destruct (pp_trail (pp_parse p)).
  - rewrite foldl_app. cbn [foldl]. pose proof (Hnf _ Hnames) as Hr.
    pose proof (norm_fold_weight _ (mkPP true [] false) Hnames) as Hf.
    set (r := foldl _ _ _) in *. clearbody r.
    assert (Hs : pp_abs_nf (norm_step r "")) by (by apply norm_step_nf).
    rewrite norm_finish_nf by done. pose proof (norm_step_weight r "" ltac:(done)) as Hr'.
    destruct Hs as (Hs1 & _ & Hs3). pose proof (render_weight _ Hs1 Hs3) as Hrw.
    unfold pp_size in *. cbn -[norm_step] in *. destruct (bool_decide _) eqn:Hb in Hrw.
    + apply bool_decide_eq_true in Hb. rewrite Hb, Hs1 in Hrw. cbn [names_weight] in Hrw.
      destruct (pp_trail _); [by destruct (Hs3 eq_refl)|]. lia.
    + destruct (pp_trail _); lia.
  - rewrite app_nil_r. destruct (pp_names (pp_parse p)) as [|e l _] using rev_ind.
    { cbn. lia. }
    apply Forall_app in Hnames as [Hl He]. rewrite foldl_app. cbn [foldl].
    inversion He as [|? ? [He1 He2] _]; subst.
    pose proof (norm_fold_weight _ (mkPP true [] false) Hl) as Hf. pose proof (Hnf _ Hl) as Hr.
    set (r := foldl _ _ _) in *. clearbody r.
    assert (Hs : pp_abs_nf (norm_step r e)) by (by apply norm_step_nf).
    assert (He' : e <> "/") by (by intros ->).
    rewrite norm_finish_nf by done. pose proof (norm_step_weight r e He') as Hr'.
    pose proof (norm_step_trail r e He') as Ht'.
    destruct Hs as (Hs1 & _ & Hs3). pose proof (render_weight _ Hs1 Hs3) as Hrw.
    rewrite names_weight_app in Hw. cbn [names_weight] in Hw.
    assert (Hee : str_empty e = false) by (by destruct e). rewrite Hee in Hr'.
    unfold pp_size in *. cbn -[norm_step] in Hf. destruct (bool_decide _) eqn:Hb in Hrw.
    + apply bool_decide_eq_true in Hb. rewrite Hb, Hs1 in Hrw. cbn [names_weight] in Hrw.
      destruct (pp_trail _); [by destruct (Hs3 eq_refl)|]. lia.
    + destruct (pp_trail _); [specialize (Ht' eq_refl)|]; lia.
Qed.
End weight.

Lemma str_weight_length s : str_weight (λ _, 1) s = String.length s.
Proof. induction s as [|c s IH]; cbn; congruence. Qed.

Lemma str_weight_contains c s :
  str_contains c s = false <-> str_weight (λ x, if Ascii.eqb c x then 1 else 0) s = 0.
Proof.
  induction s as [|x s IH]; [done|]. rewrite str_contains_cons. cbn.
  destruct (Ascii.eqb c x); cbn; [split; [done|lia]|apply IH].
Qed.

(** The normal form is no longer and has no new characters. *)
Lemma lexically_normal_length p :
  is_absolute p = true -> String.length (lexically_normal p) <= String.length p.
Proof. intros. rewrite <-!str_weight_length. by apply lexically_normal_weight. Qed.

Lemma lexically_normal_contains c p :
  is_absolute p = true -> str_contains c p = false -> str_contains c (lexically_normal p) = false.
Proof.
  intros Ha. rewrite !str_weight_contains. pose proof (lexically_normal_weight
    (λ x, if Ascii.eqb c x then 1 else 0) p Ha). lia.
Qed.

(** ** Relative paths *)

(** [std::mismatch] *)
Fixpoint mismatch (a b : list string) : list string * list string :=
  match a, b with
  | x :: a', y :: b' => if String.eqb x y then mismatch a' b' else (a, b)
  | _, _ => (a, b)
  end.

(** The number of levels that [base] goes down. *)
Definition levels (base : list string) : Z :=
  foldr (λ p n, if String.eqb p ".." then (n - 1)%Z
                else if str_empty p || String.eqb p "." then n else (n + 1)%Z) 0%Z base.

(** [lexically_relative], by its elements; [None] is the empty path. *)
Definition lexically_relative (p base : path) : option (list string) :=
  if negb (Bool.eqb (is_absolute p) (is_absolute base)) then None
  else
    let '(a, b) := mismatch (path_elements p) (path_elements base) in
    let n := levels b in
    if bool_decide (a = []) && bool_decide (b = []) then Some ["."]
    else if (n =? 0)%Z && match a with [] => true | x :: _ => str_empty x end then Some ["."]
    else if (0 <=? n)%Z then Some (repeat ".." (Z.to_nat n) ++ a)
    else None.

Example relative_1 : lexically_relative "/proc/self/fd/5/x" "/proc/self/fd" = Some ["5"; "x"]
  /\ lexically_relative "/mnt" "/proc/self/fd" = Some [".."; ".."; ".."; "mnt"]
  /\ lexically_relative "/proc/self/fd/" "/proc/self/fd" = Some ["."].
Proof. split_and!; reflexivity. Qed.

(** The path itself. *)
Definition relative_path_to (p base : path) : path :=
  match lexically_relative p base with Some l => foldl path_append "" l | None => "" end.

Example relative_2 : relative_path_to "a/b/c" "a" = "b/c" /\ relative_path_to "/a/d" "/a/b/c" = "../../d"
  /\ relative_path_to "a/b" "a/b" = ".".
Proof. split_and!; reflexivity. Qed.
