(* ===== verification/Json.v ===== *)
(** * JSON values (nlohmann::ordered_json, src/config/json/JsonIo)

    The data of a JSON value, member access, and the text functions of the library
    as an interface with its laws. *)

From S2P Require Import Prelude Errors.

Open Scope Z_scope.

Set Warnings "-register-all".

(** ** JSON values *)

(** The kinds of value; a number is a signed integer, an unsigned one or another
    number; an object keeps the order of its members. *)
Inductive Json :=
| JNull
| JBool (b : bool)
| JInt (z : Z)
| JUInt (z : Z)
| JFloat (text : string)
| JString (s : string)
| JArray (items : list Json)
| JObject (members : list (string * Json)).

(** [find], on the members of an object. *)
Fixpoint json_find (members : list (string * Json)) (field : string) : option Json :=
  match members with
  | [] => None
  | (name, value) :: members => if (name =? field)%string then Some value else json_find members field
  end.

(** [object[field] = value] *)
Fixpoint json_set (members : list (string * Json)) (field : string) (value : Json)
    : list (string * Json) :=
  match members with
  | [] => [(field, value)]
  | (name, v) :: members =>
      if (name =? field)%string then (name, value) :: members
      else (name, v) :: json_set members field value
  end.

(** What reading the text of a value gives: a number without a sign is read as an
    unsigned one. *)
Fixpoint json_canonical (j : Json) : Json :=
  match j with
  | JInt z => if 0 <=? z then JUInt z else JInt z
  | JArray items => JArray (map json_canonical items)
  | JObject members => JObject (map (λ m, (m.1, json_canonical m.2)) members)
  | j => j
  end.

(** The numbers of a value have their width, the members of its objects distinct
    names, and its texts satisfy [P]. *)
Fixpoint json_wf (P : string -> bool) (j : Json) : bool :=
  match j with
  | JInt z => (- 2 ^ 63 <=? z) && (z <? 2 ^ 63)
  | JUInt z => (0 <=? z) && (z <? 2 ^ 64)
  | JString s => P s
  | JArray items => forallb (json_wf P) items
  | JObject members =>
      bool_decide (NoDup (map fst members)) && forallb (λ m, P m.1 && json_wf P m.2) members
  | _ => true
  end.

Definition is_ascii (s : string) : bool := str_forallb (λ c, (nat_of_ascii c <? 128)%nat) s.

(** The text functions of the library.  [dump] throws on a string that is not valid
    UTF-8; otherwise reading what was written, white space after it ignored, gives
    the value back.  [float_value] is a number written with a fraction or an exponent, as
    it is converted to an integer. *)
Class JsonText := {
  json_dump : Json -> res string;
  json_parse : string -> res Json;
  valid_utf8 : string -> bool;
  float_value : string -> Z;
  valid_utf8_ascii : forall s, is_ascii s = true -> valid_utf8 s = true;
  json_parse_dump : forall j, json_wf valid_utf8 j = true ->
    exists text, json_dump j = Ok text /\
      json_parse (text +:+ String "010" "") = Ok (json_canonical j);
  json_dump_utf8 : forall j text, json_dump j = Ok text ->
    json_wf (λ _, true) j = true -> json_wf valid_utf8 j = true;
}.

(** src/config/json/JsonIo.cpp:29-31 *)
Definition dump_json `{JsonText} (data : Json) : res string :=
  text ← json_dump data; Ok (text +:+ String "010" "").

(** ** Conversions ([get], [value], [at]), which throw exceptions of the library *)

Definition type_error {A} : res A := Throw (StdException "[json.exception.type_error]").
Definition out_of_range {A} : res A := Throw (StdException "[json.exception.out_of_range]").

(** [get<std::string>], [get<bool>], [get<std::vector<std::string>>] *)
Definition get_string (j : Json) : res string :=
  match j with JString s => Ok s | _ => type_error end.
Definition get_bool (j : Json) : res bool :=
  match j with JBool b => Ok b | _ => type_error end.
Definition get_strings (j : Json) : res (list string) :=
  match j with JArray items => res_mapM get_string items | _ => type_error end.

(** [get<std::uint64_t>] and [get<std::int64_t>]: numbers of any kind are converted. *)
Definition get_u64 `{JsonText} (j : Json) : res Z :=
  match j with
  | JUInt z | JInt z => Ok (z mod 2 ^ 64)
  | JFloat t => Ok (float_value t mod 2 ^ 64)
  | _ => type_error
  end.
Definition get_i64 `{JsonText} (j : Json) : res Z :=
  match j with
  | JUInt z | JInt z => Ok ((z + 2 ^ 63) mod 2 ^ 64 - 2 ^ 63)
  | JFloat t => Ok ((float_value t + 2 ^ 63) mod 2 ^ 64 - 2 ^ 63)
  | _ => type_error
  end.

(** [get<std::uint32_t>] and [get<int>]: booleans are converted too. *)
Definition get_u32 `{JsonText} (j : Json) : res Z :=
  match j with
  | JUInt z | JInt z => Ok (z mod 2 ^ 32)
  | JFloat t => Ok (float_value t mod 2 ^ 32)
  | JBool b => Ok (Z.b2z b)
  | _ => type_error
  end.
Definition get_i32 `{JsonText} (j : Json) : res Z :=
  match j with
  | JUInt z | JInt z => Ok ((z + 2 ^ 31) mod 2 ^ 32 - 2 ^ 31)
  | JFloat t => Ok ((float_value t + 2 ^ 31) mod 2 ^ 32 - 2 ^ 31)
  | JBool b => Ok (Z.b2z b)
  | _ => type_error
  end.

(** [j.value(key, otherwise)] *)
Definition json_value {A} (get : Json -> res A) (j : Json) (key : string) (otherwise : A) : res A :=
  match j with
  | JObject members =>
      match json_find members key with Some v => get v | None => Ok otherwise end
  | _ => type_error
  end.

(** [j.at(key)] *)
Definition json_at (j : Json) (key : string) : res Json :=
  match j with
  | JObject members => match json_find members key with Some v => Ok v | None => out_of_range end
  | _ => type_error
  end.

(** [j.contains(key)] *)
Definition json_contains (j : Json) (key : string) : bool :=
  match j with
  | JObject members => match json_find members key with Some _ => true | None => false end
  | _ => false
  end.

Definition is_object (j : Json) : bool := match j with JObject _ => true | _ => false end.
Definition is_array (j : Json) : bool := match j with JArray _ => true | _ => false end.
Definition is_null (j : Json) : bool := match j with JNull => true | _ => false end.

(** ** Lemmas *)

(** The members as they are read back. *)
Definition reread (members : list (string * Json)) : list (string * Json) :=
  map (λ m, (m.1, json_canonical m.2)) members.

Lemma json_find_reread members field :
  json_find (reread members) field = json_canonical <$> json_find members field.
Proof.
  induction members as [|[name value] members IH]; [done|]. cbn. by case_match.
Qed.

(** [m] has the members [members], as they are read back. *)
Definition reads (m members : list (string * Json)) : Prop :=
  forall field v, json_find members field = Some v -> json_find m field = Some (json_canonical v).

Lemma reads_reread members : reads (reread members) members.
Proof. intros field v H. by rewrite json_find_reread, H. Qed.

Lemma json_set_fresh members name value :
  name ∉ map fst members -> json_set members name value = members ++ [(name, value)].
Proof.
  induction members as [|[n v] members IH]; [done|]. cbn. intros [Hn Hm]%not_elem_of_cons.
  destruct (String.eqb_spec n name); [by subst|]. by rewrite IH.
Qed.

Lemma json_dump_ok `{JsonText} j :
  json_wf valid_utf8 j = true -> exists text, dump_json j = Ok text.
Proof. intros (t & Ht & _)%json_parse_dump. unfold dump_json. rewrite Ht. by eexists. Qed.

Lemma json_canonical_wf_object (P : string -> bool) members :
  forallb (λ m, match m.2 with JArray _ | JObject _ => false | _ => true end) members = true ->
  json_wf P (JObject members) = true -> json_wf P (JObject (reread members)) = true.
Proof.
  cbn. intros Hs [Hn Hf]%andb_true_iff. apply andb_true_iff. split.
  - unfold reread. by rewrite map_map.
  - clear Hn. induction members as [|[k v] l IH]; [done|]. cbn in *. breflect.
    apply andb_true_iff. split; [|by apply IH].
    apply andb_true_iff. split; [done|]. destruct v; try done. cbn in *. case_match; cbn; breflect.
    + apply andb_true_iff. split; [apply Z.leb_le|apply Z.ltb_lt]; lia.
    + apply andb_true_iff. split; [apply Z.leb_le|apply Z.ltb_lt]; lia.
Qed.

Lemma json_canonical_idem_scalar v :
  match v with JArray _ | JObject _ => false | _ => true end = true ->
  json_canonical (json_canonical v) = json_canonical v.
Proof. destruct v; try done. cbn. destruct (0 <=? z) eqn:E; cbn; by rewrite ?E. Qed.

Lemma json_find_app l k field :
  json_find (l ++ k) field =
    match json_find l field with Some v => Some v | None => json_find k field end.
Proof. induction l as [|[name v] l IH]; [done|]. cbn. by destruct (name =? field)%string. Qed.

(** The numbers of a value have their width, whatever its texts. *)
Abbreviation wf_numbers := (json_wf (λ _, true)).

Lemma wf_numbers_object ms :
  bool_decide (NoDup (map fst ms)) = true -> Forall (λ m, wf_numbers m.2 = true) ms ->
  wf_numbers (JObject ms) = true.
Proof.
  intros Hn Hm. cbn. rewrite Hn. cbn. clear Hn. induction Hm as [|m l Hm _ IH]; [done|].
  cbn. by rewrite Hm.
Qed.

Lemma wf_numbers_array js : Forall (λ j, wf_numbers j = true) js -> wf_numbers (JArray js) = true.
Proof. cbn. induction 1 as [|j l Hj _ IH]; [done|]. cbn. by rewrite Hj. Qed.

Section encoding.
Context `{JsonText}.

Definition text_ok (s : string) : Prop := valid_utf8 s = true.

Lemma json_wf_object members :
  bool_decide (NoDup (map fst members)) = true ->
  Forall (λ m, text_ok m.1 /\ json_wf valid_utf8 m.2 = true) members ->
  json_wf valid_utf8 (JObject members) = true.
Proof.
  intros Hn Hm. cbn. rewrite Hn. cbn. induction Hm as [|m l [H1 H2] _ IH] in Hn |- *; [done|].
  cbn. rewrite H1, H2. cbn. apply IH. apply bool_decide_eq_true in Hn.
  apply bool_decide_eq_true. by inversion Hn.
Qed.

Lemma json_wf_object_inv members :
  json_wf valid_utf8 (JObject members) = true ->
  Forall (λ m, text_ok m.1 /\ json_wf valid_utf8 m.2 = true) members.
Proof.
  cbn. intros [_ Hf]%andb_true_iff. rewrite forallb_forall in Hf. apply Forall_forall.
  intros m Hm%list_elem_of_In. by apply andb_true_iff, Hf.
Qed.

Lemma wf_uint z : 0 <= z < 2 ^ 64 -> json_wf valid_utf8 (JUInt z) = true.
Proof. intros. cbn. apply andb_true_iff. split; [apply Z.leb_le|apply Z.ltb_lt]; lia. Qed.

Lemma wf_int z : - 2 ^ 63 <= z < 2 ^ 63 -> json_wf valid_utf8 (JInt z) = true.
Proof. intros. cbn. apply andb_true_iff. split; [apply Z.leb_le|apply Z.ltb_lt]; lia. Qed.

Lemma wf_canonical_int z : - 2 ^ 63 <= z < 2 ^ 63 ->
  json_wf valid_utf8 (json_canonical (JInt z)) = true.
Proof. intros. cbn -[json_wf]. case_match; breflect; [apply wf_uint|apply wf_int]; lia. Qed.

End encoding.

(** ** An implementation of the text functions

    Texts that encode values as bits: the laws of [JsonText] can hold. *)

Definition JsonLeaf : Type := option string + (bool + Z) + (Z + (string + string)).

Fixpoint json_tree (j : Json) : gen_tree JsonLeaf :=
  match j with
  | JNull => GenLeaf (inl (inl None))
  | JBool b => GenLeaf (inl (inr (inl b)))
  | JInt z => GenLeaf (inl (inr (inr z)))
  | JUInt z => GenLeaf (inr (inl z))
  | JFloat s => GenLeaf (inr (inr (inl s)))
  | JString s => GenLeaf (inr (inr (inr s)))
  | JArray items => GenNode 0 (map json_tree items)
  | JObject members =>
      GenNode 1 (map (λ m, GenNode 2 [GenLeaf (inl (inl (Some m.1))); json_tree m.2]) members)
  end.

(** A value, or the name of a member. *)
Fixpoint tree_json (t : gen_tree JsonLeaf) : string * Json :=
  match t with
  | GenLeaf (inl (inl None)) => ("", JNull)
  | GenLeaf (inl (inl (Some name))) => (name, JNull)
  | GenLeaf (inl (inr (inl b))) => ("", JBool b)
  | GenLeaf (inl (inr (inr z))) => ("", JInt z)
  | GenLeaf (inr (inl z)) => ("", JUInt z)
  | GenLeaf (inr (inr (inl s))) => ("", JFloat s)
  | GenLeaf (inr (inr (inr s))) => ("", JString s)
  | GenNode 0 items => ("", JArray (map (λ t, (tree_json t).2) items))
  | GenNode 1 members => ("", JObject (map tree_json members))
  | GenNode _ [name; value] => ((tree_json name).1, (tree_json value).2)
  | GenNode _ _ => ("", JNull)
  end.

Lemma tree_json_tree j : (tree_json (json_tree j)).2 = j.
Proof.
  revert j. fix IH 1. intros [| | | | | |items|members]; try reflexivity.
  - cbn. f_equal. induction items as [|j items IHl]; [reflexivity|]. cbn.
    rewrite IHl. f_equal. apply IH.
  - cbn. f_equal. induction members as [|[name j] members IHl]; [reflexivity|]. cbn.
    rewrite IHl. f_equal. f_equal. apply IH.
Qed.

Fixpoint pos_text (p : positive) : string :=
  match p with xH => "" | xO p => String "0" (pos_text p) | xI p => String "1" (pos_text p) end.

Fixpoint text_pos (s : string) : positive :=
  match s with
  | String c s =>
      if Ascii.eqb c "0" then xO (text_pos s) else if Ascii.eqb c "1" then xI (text_pos s) else xH
  | "" => xH
  end.

Lemma text_pos_text p : text_pos (pos_text p +:+ String "010" "") = p.
Proof. induction p as [p IH|p IH|]; cbn; by rewrite ?IH. Qed.

Definition bits_parse (text : string) : res Json :=
  match decode (text_pos text) with
  | Some t => Ok (json_canonical (tree_json t).2)
  | None => Throw (StdException "parse error")
  end.

Lemma bits_parse_dump j : bits_parse (pos_text (encode (json_tree j)) +:+ String "010" "")
  = Ok (json_canonical j).
Proof. unfold bits_parse. by rewrite text_pos_text, decode_encode, tree_json_tree. Qed.

Definition bits_text : JsonText := {|
  json_dump j := Ok (pos_text (encode (json_tree j)));
  json_parse := bits_parse;
  valid_utf8 _ := true;
  float_value _ := 0;
  valid_utf8_ascii _ _ := eq_refl;
  json_parse_dump j _ := ex_intro _ _ (conj eq_refl (bits_parse_dump j));
  json_dump_utf8 _ _ _ H := H;
|}.
