(* ===== verification/ConfigDomain.v ===== *)
(** * Configuration domain (src/config/domain)

    Validation of numbers and paths (Validation.cpp), the value classes that
    hold a validated path, UUID, name or count (OperationPath, RepositoryPath,
    TargetIdentity, StoragePolicy) and the profile (Profile.hpp).  A class whose
    constructor validates is a record whose field [*_valid] is the class
    invariant, with the constructor as a function into [res]. *)

From S2P Require Import Prelude Errors Identifiers RuntimeTime FsPath.

Open Scope Z_scope.

(** ** Validation.cpp *)

(** src/config/domain/Validation.cpp:18-33 *)
Definition parse_uint (value name : string) (maximum : Z) : res Z :=
  if (str_empty value || negb (str_forallb is_digit value))%bool
  then Throw (ValidationError (name +:+ " must be a non-negative base-10 integer"))
  else
    (* std::stoull: std::out_of_range above 2^64 - 1 *)
    match decimal value with
    | Some result =>
        if 2 ^ 64 <=? result
        then Throw (ValidationError (name +:+ " is outside the supported range"))
        else if maximum <? result
        then Throw (ValidationError (name +:+ " is outside the supported range"))
        else Ok result
    | None => Throw (ValidationError (name +:+ " is outside the supported range"))
    end.

(** src/config/domain/Validation.cpp:35-41 *)
Definition parse_positive_uint (value name : string) (maximum : Z) : res Z :=
  result ← parse_uint value name maximum;
  if result =? 0 then Throw (ValidationError (name +:+ " must be greater than zero"))
  else Ok result.

(** src/config/domain/Validation.cpp:43-45 *)
Definition normalized_path (p : path) : path := lexically_normal p.

(** src/config/domain/Validation.cpp:47-59 *)
Definition normalized_absolute_path (value name : string) : res path :=
  if (str_empty value || negb (starts_with_slash value))%bool
  then Throw (ValidationError (name +:+ " must be an absolute path"))
  else if (str_contains newline value || str_contains carriage_return value)%bool
  then Throw (ValidationError (name +:+ " contains a newline"))
  else
    let result := normalized_path value in
    if negb (is_absolute result) then Throw (ValidationError (name +:+ " is invalid"))
    else Ok result.

(** src/config/domain/Validation.cpp:61-79 *)
Definition normalized_relative_path (value name : string) : res path :=
  if str_empty value
  then Throw (ValidationError (name +:+ " must be a non-empty relative path"))
  else if (str_contains newline value || str_contains carriage_return value)%bool
  then Throw (ValidationError (name +:+ " contains a newline"))
  else if is_absolute value
  then Throw (ValidationError (name +:+ " must be a safe relative path"))
  else if existsb (λ item, String.eqb item "" || String.eqb item "." || String.eqb item "..")%bool
            (path_elements value)
  then Throw (ValidationError (name +:+ " must be a safe relative path"))
  else Ok (normalized_path value).

(** The comparison loop of [path_is_within]: [base_it] runs over the base. *)
Fixpoint elements_within (candidate base : list string) : bool :=
  match base, candidate with
  | [], _ => true
  | b :: base, c :: candidate => String.eqb c b && elements_within candidate base
  | _ :: _, [] => false
  end.

(** src/config/domain/Validation.cpp:81-92 *)
Definition path_is_within (candidate base : path) : bool :=
  elements_within (path_elements (normalized_path candidate))
                  (path_elements (normalized_path base)).

(** ** Validated paths *)

(** The classes that hold an absolute path: those of OperationPath.hpp and the
    two roots of RepositoryPath.hpp. *)
Inductive PathKind :=
| KTargetDevice | KTargetMountPoint | KSourceSubvolume | KLocalSnapshotRoot | KKeyFile
| KRemoteSnapshotRoot | KIncomingRoot.

Definition path_field (k : PathKind) : string :=
  match k with
  | KTargetDevice => "target.device"
  | KTargetMountPoint => "target.mountPoint"
  | KSourceSubvolume => "source.subvolume"
  | KLocalSnapshotRoot => "source.localSnapshotDir"
  | KKeyFile => "target.activation.keyFile"
  | KRemoteSnapshotRoot => "remote snapshot root"
  | KIncomingRoot => "incoming root"
  end.

(** The class invariant: absolute and in lexical normal form. *)
Definition abs_path_ok (p : path) : bool :=
  (is_absolute p && String.eqb (lexically_normal p) p)%bool.

(** src/config/domain/OperationPath.hpp:13-50 *)
Record AbsPath (k : PathKind) := mkAbs {
  abs_value : path;
  abs_valid : Is_true (abs_path_ok abs_value);
}.
Arguments mkAbs {k} _ _.
Arguments abs_value {k} _.
Arguments abs_valid {k} _.

Definition TargetDevicePath := AbsPath KTargetDevice.
Definition TargetMountPoint := AbsPath KTargetMountPoint.
Definition SourceSubvolumePath := AbsPath KSourceSubvolume.
Definition LocalSnapshotRoot := AbsPath KLocalSnapshotRoot.
Definition KeyFilePath := AbsPath KKeyFile.
Definition RemoteSnapshotRoot := AbsPath KRemoteSnapshotRoot.
Definition IncomingRoot := AbsPath KIncomingRoot.

(** The constructors. src/config/domain/OperationPath.cpp:15-52 *)
Definition make_abs (k : PathKind) (value : string) : res (AbsPath k) :=
  p ← normalized_absolute_path value (path_field k);
  _ ← match k with
      | KTargetDevice =>
          require (path_is_within p "/dev")
            (ValidationError "target.device must point inside /dev")
      | _ => Ok tt
      end;
  match decide (Is_true (abs_path_ok p)) with
  | left H => Ok (mkAbs p H)
  | right _ => Throw (ValidationError "unreachable")
  end.

(** HookProgramPath: empty by default, so kept as a path.
    src/config/domain/OperationPath.cpp:54-56 *)
Definition make_hook_program (value : string) : res path :=
  normalized_absolute_path value "hook.program".

(** src/config/domain/RepositoryPath.cpp:16-22 *)
Definition safe_relative_path (value : string) : res path :=
  normalized ← normalized_relative_path value "repository relative path";
  if negb (String.eqb normalized value)
  then Throw (ValidationError
         "repository relative path must be canonical and contain no empty segments")
  else Ok normalized.

(** The class invariant of SafeRelativePath: plain components, canonical text. *)
Definition safe_relative_ok (p : path) : bool :=
  let q := pp_parse p in
  (negb (pp_root q) && negb (pp_trail q) && negb (bool_decide (pp_names q = []))
   && forallb (λ s, negb (String.eqb s ".") && negb (String.eqb s ".."))%bool (pp_names q)
   && String.eqb (pp_render q) p)%bool.

(** src/config/domain/RepositoryPath.hpp:37-47 *)
Record SafeRelativePath := mkRel {
  rel_value : path;
  rel_valid : Is_true (safe_relative_ok rel_value);
}.

(** src/config/domain/RepositoryPath.cpp:42-43 *)
Definition make_rel (value : string) : res SafeRelativePath :=
  p ← safe_relative_path value;
  match decide (Is_true (safe_relative_ok p)) with
  | left H => Ok (mkRel p H)
  | right _ => Throw (ValidationError "unreachable")
  end.

(** ** StoragePolicy *)

Definition retention_maximum : Z := 100000.
Definition byte_threshold_maximum : Z := 1000000000000000.

(** src/config/domain/StoragePolicy.hpp:13-25 *)
Record RetentionCount := mkRetention {
  retention_value : Z;
  retention_valid : Is_true ((0 <=? retention_value) && (retention_value <=? retention_maximum))%bool;
}.

(** src/config/domain/StoragePolicy.cpp:13-23 *)
Definition make_retention (value : Z) : res RetentionCount :=
  match decide (Is_true ((0 <=? value) && (value <=? retention_maximum))%bool) with
  | left H => Ok (mkRetention value H)
  | right _ => Throw (ValidationError "retention count is outside the supported range")
  end.

(** src/config/domain/StoragePolicy.hpp:27-39 *)
Record ByteThreshold := mkThreshold {
  threshold_value : Z;
  threshold_valid : Is_true ((0 <=? threshold_value) && (threshold_value <=? byte_threshold_maximum))%bool;
}.

(** src/config/domain/StoragePolicy.cpp:29-33 *)
Definition make_threshold (value : Z) : res ByteThreshold :=
  match decide (Is_true ((0 <=? value) && (value <=? byte_threshold_maximum))%bool) with
  | left H => Ok (mkThreshold value H)
  | right _ => Throw (ValidationError "byte threshold is outside the supported range")
  end.

(** ** TargetIdentity *)

Fixpoint split_dash (s : string) : list string :=
  match s with
  | EmptyString => [""]
  | String c r =>
      if Ascii.eqb c "-" then "" :: split_dash r
      else match split_dash r with
           | h :: t => String c h :: t
           | [] => [String c ""]
           end
  end.

(** src/config/domain/TargetIdentity.cpp:19-21, the pattern uuid_pattern. *)
Definition match_uuid (s : string) : bool :=
  match split_dash s with
  | [a; b; c; d; e] =>
      (str_forallb is_xdigit a && (String.length a =? 8)%nat
       && str_forallb is_xdigit b && (String.length b =? 4)%nat
       && str_forallb is_xdigit c && (String.length c =? 4)%nat
       && str_forallb is_xdigit d && (String.length d =? 4)%nat
       && str_forallb is_xdigit e && (String.length e =? 12)%nat)%bool
  | _ => false
  end.

(** src/config/domain/TargetIdentity.cpp:23-34 *)
Definition canonical_uuid (value name : string) (allow_empty : bool) : res string :=
  if (allow_empty && str_empty value)%bool then Ok value
  else if negb (match_uuid value)
  then Throw (ValidationError (name +:+ " is not a canonical UUID"))
  else Ok (str_map to_lower value).

(** LuksUuid, BtrfsUuid, PartitionUuid and MapperName hold the value their
    constructor computed; src/config/domain/TargetIdentity.hpp:12-59 *)
Record TargetIdentity := mkTargetIdentity {
  luks_uuid : string;
  btrfs_uuid : string;
  partition_uuid : string;
  mapper_name : string;
}.

(** src/config/domain/TargetIdentity.cpp:38-66 *)
Definition make_target_identity (luks btrfs partition mapper : string) : res TargetIdentity :=
  l ← canonical_uuid luks "LUKS UUID" false;
  b ← canonical_uuid btrfs "Btrfs UUID" false;
  p ← canonical_uuid partition "partition UUID" true;
  _ ← validate_identifier mapper "mapper name";
  Ok (mkTargetIdentity l b p mapper).

(** ** Profile.hpp *)

(** src/config/domain/Profile.hpp:24-31 *)
Inductive TargetActivation :=
| AskPasswordActivation
| KeyFileActivation (key_file : KeyFilePath).

(** The four identity members are grouped in [target_identity].
    src/config/domain/Profile.hpp:33-56 *)
Record ProfileTarget := mkProfileTarget {
  device : TargetDevicePath;
  target_identity : TargetIdentity;
  serial : string;
  mount_point : TargetMountPoint;
  activation : TargetActivation;
}.

(** src/config/domain/Profile.hpp:58-65 *)
Record ProfilePaths := mkProfilePaths {
  remote_root : RemoteSnapshotRoot;
  incoming_root : IncomingRoot;
}.

(** src/config/domain/Profile.hpp:67-76 *)
Record ProfileSettings := mkProfileSettings {
  daily_limit : bool;
  incremental_required : bool;
  keep_failed_local_snapshot : bool;
  auto_eject : bool;
  settings_remote_retention : RetentionCount;
  settings_local_retention : RetentionCount;
  minimum_target_free_bytes : ByteThreshold;
  minimum_local_free_bytes : ByteThreshold;
}.

(** src/config/domain/Profile.hpp:78-82 *)
Record ProfileHookCommand := mkHook {
  hook_program : path;
  hook_arguments : list string;
  hook_timeout : Z;  (* seconds *)
}.

(** src/config/domain/Profile.hpp:84-87 *)
Record ProfileHooks := mkProfileHooks {
  before_snapshot : list ProfileHookCommand;
  after_snapshot : list ProfileHookCommand;
}.

(** src/config/domain/Profile.hpp:89-112 *)
Record ProfileSource := mkProfileSource {
  source_id : SourceId;
  source_name : string;
  source_enabled : bool;
  subvolume : SourceSubvolumePath;
  local_snapshot_dir : LocalSnapshotRoot;
  remote_subdir : SafeRelativePath;
  remote_retention : RetentionCount;
  local_retention : RetentionCount;
}.

(** src/config/domain/Profile.hpp:114-128 *)
Record Profile := mkProfile {
  configuration_generation : string;
  profile_id : ProfileId;
  profile_name : string;
  profile_enabled : bool;
  target : ProfileTarget;
  paths : ProfilePaths;
  settings : ProfileSettings;
  hooks : ProfileHooks;
  sources : list ProfileSource;
}.

(** ** ApplicationPaths.hpp and ConfigurationIdentity.hpp *)

(** src/config/ApplicationPaths.hpp:12-17 *)
Record ApplicationPaths := mkApplicationPaths {
  state_root : path;
  status_root : path;
  history_root : path;
  target_mount_root : path;
}.

(** src/config/ApplicationPaths.hpp:19-21 *)
Definition profile_state_dir (ps : ApplicationPaths) (id : string) : path :=
  path_append (path_append (state_root ps) "profiles") id.

(** src/config/ApplicationPaths.hpp:23-25 *)
Definition profile_mount_point (ps : ApplicationPaths) (id : string) : path :=
  path_append (target_mount_root ps) id.

(** src/config/ConfigurationIdentity.hpp:35-39 *)
Record LoadedProfile := mkLoadedProfile {
  loaded_profile : Profile;
  fingerprint : string;
  generation : string;
}.

(** ** Lemmas on validated paths *)

Lemma elements_within_prefix c b : elements_within c b = true <-> b `prefix_of` c.
Proof.
  revert c. induction b as [|x b IH]; intros [|y c]; simpl.
  - split; [|done]. intros _. apply prefix_nil.
  - split; [|done]. intros _. apply prefix_nil.
  - split; [done|]. intros H. by apply prefix_nil_not in H.
  - rewrite andb_true_iff, String.eqb_eq, IH. split.
    + intros [-> H]. by apply prefix_cons.
    + intros H. split; [symmetry; by eapply prefix_cons_inv_1|by eapply prefix_cons_inv_2].
Qed.

Lemma path_is_within_prefix c b :
  path_is_within c b = true <->
  path_elements (lexically_normal b) `prefix_of` path_elements (lexically_normal c).
Proof. apply elements_within_prefix. Qed.

Lemma path_is_within_refl p : path_is_within p p = true.
Proof. by apply path_is_within_prefix. Qed.

Lemma path_is_within_trans a b c :
  path_is_within a b = true -> path_is_within b c = true -> path_is_within a c = true.
Proof. rewrite !path_is_within_prefix. intros H1 H2. by trans (path_elements (lexically_normal b)). Qed.

Lemma abs_path_ok_nf p :
  abs_path_ok p = true <-> exists q, pp_abs_nf q /\ p = pp_render q.
Proof.
  unfold abs_path_ok. rewrite andb_true_iff, String.eqb_eq. split.
  - intros [Ha Hn]. destruct (lexically_normal_abs p Ha) as (Hnf & E & _).
    exists (pp_normal (pp_parse p)). split; [done|]. by rewrite <- E.
  - intros (q & Hq & ->). split; [|by apply lexically_normal_render].
    unfold is_absolute. rewrite pp_parse_render by (by apply pp_abs_nf_wf). apply Hq.
Qed.

Lemma abs_value_nf {k} (p : AbsPath k) :
  exists q, pp_abs_nf q /\ abs_value p = pp_render q /\ pp_parse (abs_value p) = q.
Proof.
  destruct p as [v H]; simpl. apply Is_true_true, abs_path_ok_nf in H as (q & Hq & ->).
  exists q. split; [done|]. split; [done|]. by apply pp_parse_render, pp_abs_nf_wf.
Qed.

Lemma abs_value_normal {k} (p : AbsPath k) : lexically_normal (abs_value p) = abs_value p.
Proof. destruct (abs_value_nf p) as (q & Hq & -> & _). by apply lexically_normal_render. Qed.

Lemma starts_with_slash_abs p : is_absolute p = starts_with_slash p.
Proof. done. Qed.

Lemma normalized_absolute_path_Ok v name p :
  normalized_absolute_path v name = Ok p -> p = lexically_normal v /\ abs_path_ok p = true.
Proof.
  unfold normalized_absolute_path, normalized_path.
  destruct (str_empty v || negb (starts_with_slash v))%bool eqn:E1; [done|].
  case_match; [done|]. case_match; [done|]. intros [= <-]. split; [done|].
  breflect. unfold abs_path_ok. rewrite lexically_normal_idem by done.
  rewrite String.eqb_refl, andb_true_r. done.
Qed.

(** The constructors of the path classes always reach their last line: the
    normalised path satisfies the class invariant. *)
Lemma make_abs_Ok k v a :
  make_abs k v = Ok a -> abs_value a = lexically_normal v.
Proof.
  unfold make_abs. intros H. res_inv. case_decide; res_inv.
  match goal with H : normalized_absolute_path _ _ = _ |- _ =>
    by apply normalized_absolute_path_Ok in H as [-> _] end.
Qed.

Lemma safe_relative_ok_spec p :
  safe_relative_ok p = true ->
  exists l, Forall plain_component l /\ l <> [] /\ p = join_slash l /\
            pp_parse p = mkPP false l false.
Proof.
  unfold safe_relative_ok. intros H. breflect.
  pose proof (pp_parse_wf p) as [Hn _].
  destruct (pp_parse p) as [r l t] eqn:E; simpl in *.
  destruct r; [done|]. destruct t; [done|]. exists l. split.
  - rewrite Forall_forall in Hn |- *. intros x Hx.
    match goal with H : forallb _ _ = true |- _ => rewrite forallb_forall in H;
      specialize (H x (proj1 (list_elem_of_In _ _) Hx)) end.
    breflect. destruct (Hn x Hx). done.
  - split; [done|]. split; [|done].
    match goal with H : pp_render _ = p |- _ => rewrite <- H end.
    unfold pp_render; simpl. by rewrite string_app_nil_r.
Qed.

(** ** Joining a validated path and a relative one *)

Lemma join_slash_app l k :
  l <> [] -> k <> [] -> join_slash (l ++ k) = join_slash l +:+ "/" +:+ join_slash k.
Proof.
  induction l as [|x l IH]; [done|]. intros _ Hk. destruct l as [|y l].
  - simpl. destruct k; [done|]. by destruct k.
  - change (join_slash ((x :: y :: l) ++ k)) with (x +:+ "/" +:+ join_slash ((y :: l) ++ k)).
    rewrite IH by done.
    change (join_slash (x :: y :: l)) with (x +:+ "/" +:+ join_slash (y :: l)).
    by rewrite !string_app_assoc.
Qed.

Lemma join_slash_not_absolute l : Forall plain_component l -> is_absolute (join_slash l) = false.
Proof. intros H. apply join_starts. by apply plain_names. Qed.

Lemma path_append_render q l :
  pp_abs_nf q -> Forall plain_component l -> l <> [] ->
  path_append (pp_render q) (join_slash l) = pp_render (mkPP true (pp_names q ++ l) false).
Proof.
  intros Hq Hl Hne. unfold path_append.
  rewrite join_slash_not_absolute by done.
  rewrite pp_parse_render by (by apply pp_abs_nf_wf).
  destruct q as [r n t]. destruct Hq as (Hr & Hn & Ht); simpl in *. subst r.
  unfold pp_has_filename, pp_render; simpl.
  destruct (decide (n = [])) as [->|Hn'].
  { destruct t; [by destruct (Ht eq_refl)|]. simpl. by rewrite !string_app_nil_r. }
  rewrite bool_decide_eq_false_2 by done. simpl.
  rewrite join_slash_app by done.
  by destruct t; simpl; rewrite ?string_app_nil_r, ?string_app_assoc.
Qed.

Lemma pp_abs_nf_app q l :
  pp_abs_nf q -> Forall plain_component l -> pp_abs_nf (mkPP true (pp_names q ++ l) false).
Proof.
  intros (Hr & Hn & Ht) Hl. split; [done|]. split; [|done]. simpl. by apply Forall_app.
Qed.

Lemma rel_value_names (r : SafeRelativePath) :
  exists l, Forall plain_component l /\ l <> [] /\ rel_value r = join_slash l.
Proof.
  destruct r as [v H]; simpl. apply Is_true_true, safe_relative_ok_spec in H.
  destruct H as (l & ? & ? & ? & _). by exists l.
Qed.

(** The path written [base / rel]: in normal form, its names those of both. *)
Lemma path_append_abs {k} (b : AbsPath k) l :
  Forall plain_component l -> l <> [] ->
  let p := path_append (abs_value b) (join_slash l) in
  abs_path_ok p = true /\
  pp_parse p = mkPP true (pp_names (pp_parse (abs_value b)) ++ l) false.
Proof.
  intros Hl Hne. destruct (abs_value_nf b) as (q & Hq & E1 & E2). rewrite E2, E1.
  rewrite path_append_render by done.
  pose proof (pp_abs_nf_app q l Hq Hl) as Hnf. split.
  - apply abs_path_ok_nf. by eexists.
  - by apply pp_parse_render, pp_abs_nf_wf.
Qed.

Lemma abs_path_ok_normal p : abs_path_ok p = true -> lexically_normal p = p.
Proof. unfold abs_path_ok. intros H. by breflect. Qed.

(** [base / rel] is within [base] exactly when [base] was written without a
    trailing separator. *)
Lemma path_is_within_append {k} (b : AbsPath k) l :
  Forall plain_component l -> l <> [] ->
  path_is_within (path_append (abs_value b) (join_slash l)) (abs_value b)
  = negb (pp_trail (pp_parse (abs_value b))).
Proof.
  intros Hl Hne. destruct (path_append_abs b l Hl Hne) as [Hok Hp].
  apply eq_true_iff_eq. rewrite path_is_within_prefix, abs_value_normal.
  rewrite abs_path_ok_normal by done. unfold path_elements. rewrite Hp. clear Hp Hok.
  destruct (abs_value_nf b) as (q & (Hr & Hn & Ht) & _ & ->).
  destruct q as [r n t]; simpl in *. subst r. unfold pp_elements; simpl.
  rewrite app_nil_r. destruct t; simpl.
  - split; [|done]. intros [k' E]. exfalso. injection E as E.
    rewrite <- app_assoc in E. apply app_inv_head in E. subst l.
    inversion Hl as [|? ? Hx]; subst. by destruct Hx.
  - split; [done|]. intros _. exists l. simpl. by rewrite app_nil_r.
Qed.

Lemma parse_join_slash l :
  Forall plain_component l -> l <> [] -> pp_parse (join_slash l) = mkPP false l false.
Proof.
  intros Hl Hne. pose proof (pp_parse_render (mkPP false l false)) as H.
  unfold pp_render in H; simpl in H. rewrite string_app_nil_r in H. apply H.
  split; [by apply plain_names|done].
Qed.

Lemma path_elements_join l :
  Forall plain_component l -> l <> [] -> path_elements (join_slash l) = l.
Proof.
  intros Hl Hne. unfold path_elements. rewrite parse_join_slash by done.
  apply app_nil_r.
Qed.

Lemma lexically_normal_join l :
  Forall plain_component l -> l <> [] -> lexically_normal (join_slash l) = join_slash l.
Proof.
  intros Hl Hne. unfold lexically_normal. case_match eqn:E.
  { destruct (join_slash l) eqn:E'; [|done]. done. }
  rewrite parse_join_slash by done.
  rewrite pp_normal_plain; [|split; [by apply plain_names|done]|done|by right].
  unfold pp_render; simpl. by rewrite string_app_nil_r.
Qed.

Lemma plain_not_special l :
  Forall plain_component l ->
  existsb (λ item, String.eqb item "" || String.eqb item "." || String.eqb item "..")%bool l = false.
Proof.
  induction l as [|x l IH]; [done|]. intros H. inversion H as [|? ? (H1 & H2 & H3 & H4)]; subst.
  simpl. rewrite !(proj2 (String.eqb_neq x _)) by done. by apply IH.
Qed.

Lemma safe_relative_join l :
  Forall plain_component l -> l <> [] -> safe_relative_ok (join_slash l) = true.
Proof.
  intros Hl Hne. unfold safe_relative_ok. rewrite parse_join_slash by done. cbn [pp_root pp_trail pp_names].
  rewrite bool_decide_eq_false_2 by done. unfold pp_render; cbn [pp_root pp_trail pp_names].
  rewrite string_app_nil_r. change ("" +:+ join_slash l) with (join_slash l).
  rewrite String.eqb_refl, andb_true_r. simpl. apply forallb_forall. intros x Hx.
  rewrite Forall_forall in Hl. destruct (Hl x) as (_ & _ & H3 & H4); [by apply list_elem_of_In|].
  by rewrite !(proj2 (String.eqb_neq x _)).
Qed.

Lemma rel_eq (a b : SafeRelativePath) : rel_value a = rel_value b -> a = b.
Proof.
  destruct a as [a Ha], b as [b Hb]; simpl. intros ->. f_equal. apply Is_true_pi.
Qed.

(** The names of a relative path that the validation loop lets through. *)
Lemma special_free_plain l :
  Forall is_name l ->
  existsb (λ item, String.eqb item "" || String.eqb item "." || String.eqb item "..")%bool l = false ->
  Forall plain_component l.
Proof.
  induction l as [|x l IH]; intros Hn H; [constructor|].
  inversion Hn as [|? ? [H1 H2]]; subst. simpl in H. breflect.
  constructor; [|by apply IH]. done.
Qed.

Lemma normalized_relative_path_Ok v name p :
  normalized_relative_path v name = Ok p ->
  p = lexically_normal v /\ str_contains newline v = false /\ str_contains carriage_return v = false
  /\ v <> "" /\ Forall plain_component (pp_names (pp_parse v)) /\ pp_root (pp_parse v) = false
  /\ pp_trail (pp_parse v) = false.
Proof.
  unfold normalized_relative_path. case_match eqn:E1; [done|]. case_match eqn:E2; [done|].
  case_match eqn:E3; [done|]. case_match eqn:E4; [done|]. intros [= <-].
  pose proof (pp_parse_wf v) as [Hn _]. unfold path_elements, is_absolute in *.
  destruct (pp_parse v) as [r n t]; cbn [pp_root pp_names pp_trail] in *. subst r.
  unfold pp_elements in E4; cbn [pp_root pp_names pp_trail app] in E4.
  rewrite existsb_app in E4. apply orb_false_iff in E4 as [E4 E5]. breflect.
  split_and!; try done.
  - intros ->. done.
  - by apply special_free_plain.
  - by destruct t.
Qed.

(** SafeRelativePath accepts exactly the texts that are plain components
    joined by single separators, with no line break: no absolute path, no dot
    entry, no empty segment gets in, and the value kept is the text given. *)
Theorem make_rel_spec (v : string) :
  (exists r, make_rel v = Ok r /\ rel_value r = v) <->
  (str_contains newline v = false /\ str_contains carriage_return v = false /\
   exists l, l <> [] /\ Forall plain_component l /\ v = join_slash l).
Proof.
  unfold make_rel, safe_relative_path. split.
  - intros (r & H & E). res_inv.
    match goal with H : normalized_relative_path _ _ = _ |- _ =>
      apply normalized_relative_path_Ok in H as (-> & Hn & Hc & _) end.
    split; [done|]. split; [done|].
    destruct (rel_value_names r) as (l & Hl & Hne & Hv).
    exists l. split; [done|]. split; [done|]. by rewrite <- Hv.
  - intros (Hn & Hc & l & Hne & Hl & ->).
    assert (normalized_relative_path (join_slash l) "repository relative path"
            = Ok (join_slash l)) as ->.
    { unfold normalized_relative_path, normalized_path.
      rewrite Hn, Hc, join_slash_not_absolute, lexically_normal_join by done.
      rewrite path_elements_join, plain_not_special by done.
      case_match eqn:E; [|done]. exfalso.
      pose proof (parse_join_slash l Hl Hne) as H. destruct (join_slash l); [|done].
      by injection H as <-. }
    simpl. rewrite String.eqb_refl. simpl.
    case_decide as H; [by eexists|]. exfalso. apply H, Is_true_true.
    by apply safe_relative_join.
Qed.

Lemma decimal_from_digits s acc :
  0 <= acc -> str_forallb is_digit s = true ->
  exists n, decimal_from acc s = Some n /\ 0 <= n.
Proof.
  revert acc. induction s as [|c s IH]; intros acc Ha; simpl; [by exists acc|].
  intros H; breflect. rewrite H. apply IH; [|done].
  unfold is_digit in H. breflect. rewrite N.leb_le in *. lia.
Qed.

(** [parse_uint] is the decimal value of a non-empty digit string bounded
    by the maximum; every other text is refused with a validation error. *)
Theorem parse_uint_spec (v name : string) (maximum : Z) :
  match parse_uint v name maximum with
  | Ok n => decimal v = Some n /\ str_forallb is_digit v = true /\ v <> "" /\
            0 <= n <= maximum /\ n < 2 ^ 64
  | Throw e =>
      is_validation_error e = true /\
      (v = "" \/ str_forallb is_digit v = false \/
       exists n, decimal v = Some n /\ (maximum < n \/ 2 ^ 64 <= n))
  end.
Proof.
  unfold parse_uint. destruct (str_empty v || negb (str_forallb is_digit v))%bool eqn:E.
  - split; [done|]. apply orb_true_iff in E as [E|E]; [left; by destruct v|].
    right; left. by breflect.
  - breflect. destruct (decimal_from_digits v 0) as (n & Hn & Hpos); [lia|done|].
    unfold decimal. rewrite Hn. destruct (2 ^ 64 <=? n) eqn:E1; breflect.
    + split; [done|]. right; right. exists n. split; [done|]. by right.
    + destruct (maximum <? n) eqn:E2; breflect.
      * split; [done|]. right; right. exists n. split; [done|]. by left.
      * split_and!; try done; try lia. by intros ->.
Qed.

(** A repository path joined to a validated root is again absolute and
    normal, adds only its own plain components, and [path_is_within] places it
    inside the root exactly when the root was written without a trailing
    separator. *)
Theorem repository_path_containment {k} (base : AbsPath k) (rel : SafeRelativePath) :
  let p := path_append (abs_value base) (rel_value rel) in
  abs_path_ok p = true /\
  (exists l, Forall plain_component l /\ rel_value rel = join_slash l /\
     pp_names (pp_parse p) = pp_names (pp_parse (abs_value base)) ++ l) /\
  path_is_within p (abs_value base) = negb (pp_trail (pp_parse (abs_value base))).
Proof.
  destruct (rel_value_names rel) as (l & Hl & Hne & ->). cbv zeta.
  destruct (path_append_abs base l Hl Hne) as [H1 H2]. split; [done|]. split.
  - exists l. split; [done|]. split; [done|]. by rewrite H2.
  - by apply path_is_within_append.
Qed.
