(* ===== verification/SnapshotInventory.v ===== *)
(** * Snapshot inventory (src/backup/model/SnapshotInventory)

    Snapshot UUIDs, the text form of snapshot names, and the inventory of a
    snapshot directory.  The directory is the listing the code sees through
    [std::filesystem]; the metadata reader is the callback the code is given. *)

From S2P Require Import Prelude Errors Identifiers RuntimeTime FsPath ConfigDomain.

Open Scope Z_scope.

(** src/backup/model/SnapshotInventory.hpp:18-21 *)
Inductive SnapshotSide := Local | Remote.

Global Instance SnapshotSide_eq_dec : EqDecision SnapshotSide.
Proof. solve_decision. Defined.

(** src/backup/model/SnapshotInventory.cpp:20-25 *)
Definition normalized_uuid (value : string) : string := str_map to_lower value.

(** src/backup/model/SnapshotInventory.hpp:23-35 *)
Record SnapshotUuid := mkUuid { uuid_value : string }.

(** src/backup/model/SnapshotInventory.hpp:37-49 *)
Record ReceivedSnapshotUuid := mkReceived { received_value : string }.

(** src/backup/model/SnapshotInventory.cpp:47-48 *)
Definition make_uuid (value : string) : SnapshotUuid := mkUuid (normalized_uuid value).

(** src/backup/model/SnapshotInventory.cpp:58-59 *)
Definition make_received (value : string) : ReceivedSnapshotUuid :=
  mkReceived (normalized_uuid value).

(** src/backup/model/SnapshotInventory.cpp:54-56 *)
Definition uuid_empty (u : SnapshotUuid) : bool := str_empty (uuid_value u).

(** src/backup/model/SnapshotInventory.cpp:65-67 *)
Definition received_empty (u : ReceivedSnapshotUuid) : bool := str_empty (received_value u).

Global Instance SnapshotUuid_eq_dec : EqDecision SnapshotUuid.
Proof. solve_decision. Defined.
Global Instance ReceivedSnapshotUuid_eq_dec : EqDecision ReceivedSnapshotUuid.
Proof. solve_decision. Defined.

(** src/backup/model/SnapshotInventory.cpp:69-71 *)
Definition uuid_matches (snapshot : SnapshotUuid) (received : ReceivedSnapshotUuid) : bool :=
  (negb (uuid_empty snapshot) && negb (received_empty received)
   && String.eqb (uuid_value snapshot) (received_value received))%bool.

(** src/backup/model/SnapshotInventory.hpp:53-58 *)
Record SnapshotName := mkSnapshotName {
  sn_source_id : SourceId;
  sn_timestamp : RuntimeTimePoint;
  sn_sequence : Z;
  sn_name : string;
}.

(** src/backup/model/SnapshotInventory.hpp:60-65 *)
Record SnapshotMetadata := mkMetadata {
  md_is_subvolume : bool;
  md_readonly : bool;
  md_uuid : SnapshotUuid;
  md_received_uuid : ReceivedSnapshotUuid;
}.

(** src/backup/model/SnapshotInventory.hpp:67-77 *)
Record SnapshotInfo := mkSnapshot {
  side : SnapshotSide;
  snap_source_id : SourceId;
  name : string;
  timestamp : RuntimeTimePoint;
  sequence : Z;
  snap_path : path;
  readonly : bool;
  uuid : SnapshotUuid;
  received_uuid : ReceivedSnapshotUuid;
}.

Global Instance SnapshotInfo_eq_dec : EqDecision SnapshotInfo.
Proof. solve_decision. Defined.

(** src/backup/model/SnapshotInventory.hpp:79-79; the reader throws on a path
    it cannot query. *)
Definition SnapshotMetadataReader := path -> res (option SnapshotMetadata).

(** src/backup/model/SnapshotInventory.cpp:27-31 *)
Definition all_digits (value : string) : bool := str_forallb is_digit value.

(** src/backup/model/SnapshotInventory.cpp:33-41 *)
Definition metadata_sort_key_less (l r : SnapshotInfo) : bool :=
  if negb (timestamp l =? timestamp r) then timestamp l <? timestamp r
  else if negb (sequence l =? sequence r) then sequence l <? sequence r
  else str_less (snap_path l) (snap_path r).

(** src/backup/model/SnapshotInventory.cpp:73-108 *)
Definition parse_snapshot_name (nm : string) (source_id : SourceId) : option SnapshotName :=
  let prefix := id_value source_id +:+ "-" in
  if negb (String.prefix prefix nm) then None
  else
    let rest := String.substring (String.length prefix) (String.length nm) nm in
    if (negb (String.length rest =? 18)%nat && negb (String.length rest =? 21)%nat)%bool then None
    else
      match parse_utc_timestamp (String.substring 0 18 rest) with
      | None => None
      | Some ts =>
          if (String.length rest =? 21)%nat then
            if (negb (Ascii.eqb (str_at 18 rest) "-")
                || negb (all_digits (String.substring 19 2 rest)))%bool then None
            else
              (* std::stoi on two digits *)
              let seq := default 0 (decimal (String.substring 19 2 rest)) in
              if seq <=? 0 then None
              else Some (mkSnapshotName source_id ts seq nm)
          else Some (mkSnapshotName source_id ts 0 nm)
      end.

(** ** Directory listings *)

Inductive EntryStatus := StatusError | SymlinkEntry | DirectoryEntry | OtherEntry.

Record DirEntry := mkEntry { entry_name : string; entry_status : EntryStatus }.

Inductive DirView := DirMissing | DirNotDirectory | DirEntries (entries : list DirEntry).

(** One round of the loop over the directory: the snapshot the entry stands
    for, if it is one. src/backup/model/SnapshotInventory.cpp:138-172 *)
Definition inventory_entry (scan_directory reported_directory : path) (source_id : SourceId)
    (sd : SnapshotSide) (reader : SnapshotMetadataReader) (entry : DirEntry)
    : res (option SnapshotInfo) :=
  let entry_path := path_append scan_directory (entry_name entry) in
  match entry_status entry with
  | StatusError => Throw (ValidationError ("could not inspect snapshot inventory entry: " +:+ entry_path))
  | SymlinkEntry =>
      Throw (ValidationError ("symbolic link is forbidden in snapshot inventory: "
                              +:+ path_append reported_directory (filename entry_path)))
  | OtherEntry => Ok None
  | DirectoryEntry =>
      let nm := filename entry_path in
      match parse_snapshot_name nm source_id with
      | None => Ok None
      | Some parsed =>
          metadata ← reader entry_path;
          match metadata with
          | Some m =>
              if negb (md_is_subvolume m) then Ok None
              else Ok (Some (mkSnapshot sd (sn_source_id parsed) (sn_name parsed)
                     (sn_timestamp parsed) (sn_sequence parsed)
                     (path_append reported_directory nm)
                     (md_readonly m) (md_uuid m) (md_received_uuid m)))
          | None => Ok None
          end
      end
  end.

Fixpoint inventory_entries (scan_directory reported_directory : path) (source_id : SourceId)
    (sd : SnapshotSide) (reader : SnapshotMetadataReader) (entries : list DirEntry)
    : res (list SnapshotInfo) :=
  match entries with
  | [] => Ok []
  | e :: rest =>
      found ← inventory_entry scan_directory reported_directory source_id sd reader e;
      others ← inventory_entries scan_directory reported_directory source_id sd reader rest;
      Ok (match found with Some s => s :: others | None => others end)
  end.

(** [view] is what the scan directory holds.
    src/backup/model/SnapshotInventory.cpp:119-177 *)
Definition list_snapshot_inventory_at (scan_directory reported_directory : path)
    (source_id : SourceId) (sd : SnapshotSide) (reader : option SnapshotMetadataReader)
    (view : DirView) : res (list SnapshotInfo) :=
  match reader with
  | None => Throw (ValidationError "snapshot metadata reader is required")
  | Some reader =>
      match view with
      | DirMissing => Ok []
      | DirNotDirectory =>
          Throw (ValidationError ("snapshot inventory path is not a directory: " +:+ reported_directory))
      | DirEntries entries =>
          snapshots ← inventory_entries scan_directory reported_directory source_id sd reader entries;
          Ok (std_sort metadata_sort_key_less snapshots)
      end
  end.

(** src/backup/model/SnapshotInventory.cpp:110-117 *)
Definition list_snapshot_inventory (directory : path) (source_id : SourceId) (sd : SnapshotSide)
    (reader : option SnapshotMetadataReader) (view : DirView) : res (list SnapshotInfo) :=
  list_snapshot_inventory_at directory directory source_id sd reader view.

(** ** The order on snapshots

    Timestamp, then sequence, then path text: the key of all three comparators
    of the model (inventory, retention, parent selection). *)

Lemma metadata_sort_key_less_spec l r :
  metadata_sort_key_less l r = true <->
  timestamp l < timestamp r \/
  (timestamp l = timestamp r /\
   (sequence l < sequence r \/
    (sequence l = sequence r /\ str_less (snap_path l) (snap_path r) = true))).
Proof.
  unfold metadata_sort_key_less.
  destruct (Z.eqb_spec (timestamp l) (timestamp r)); simpl.
  - destruct (Z.eqb_spec (sequence l) (sequence r)); simpl; rewrite ?Z.ltb_lt; naive_solver lia.
  - rewrite Z.ltb_lt. naive_solver lia.
Qed.

Lemma metadata_sort_key_less_false l r :
  metadata_sort_key_less l r = false <->
  timestamp r < timestamp l \/
  (timestamp l = timestamp r /\
   (sequence r < sequence l \/
    (sequence l = sequence r /\ str_less (snap_path l) (snap_path r) = false))).
Proof.
  unfold metadata_sort_key_less.
  destruct (Z.eqb_spec (timestamp l) (timestamp r)); simpl.
  - destruct (Z.eqb_spec (sequence l) (sequence r)); simpl; rewrite ?Z.ltb_ge; naive_solver lia.
  - rewrite Z.ltb_ge. naive_solver lia.
Qed.

Global Instance metadata_sort_key_less_swo : StrictWeakOrder metadata_sort_key_less.
Proof.
  split.
  - intros x y. rewrite metadata_sort_key_less_spec, metadata_sort_key_less_false.
    pose proof (str_less_asym (snap_path x) (snap_path y)). naive_solver lia.
  - intros x y z. rewrite !metadata_sort_key_less_false.
    pose proof (str_less_negtrans (snap_path x) (snap_path y) (snap_path z)).
    naive_solver lia.
Qed.

(** Two snapshots the order does not separate share their path. *)
Lemma metadata_sort_key_total x y :
  metadata_sort_key_less x y = false -> metadata_sort_key_less y x = false ->
  snap_path x = snap_path y.
Proof.
  rewrite !metadata_sort_key_less_false.
  pose proof (str_less_total (snap_path x) (snap_path y)). naive_solver lia.
Qed.

(** ** Snapshot names *)

Lemma parse_utc_chars v t :
  parse_utc_timestamp v = Some t ->
  str_at 4 v = "-"%char /\ is_digit (str_at 1 v) = true /\
  (String.length v = 18%nat \/ String.length v = 20%nat).
Proof.
  unfold parse_utc_timestamp. case_match eqn:E; [done|]. case_match; [done|].
  destruct (decimal (String.substring 0 4 v)) as [y|] eqn:Ey; [|by intros].
  intros _. breflect. split; [done|]. split.
  - destruct v as [|c0 [|c1 v]]; [done|by destruct c0|].
    cbn in Ey |- *. repeat case_match; try done.
  - destruct (String.length v =? 18)%nat eqn:E18; [left; by apply Nat.eqb_eq|].
    destruct (String.length v =? 20)%nat eqn:E20; [right; by apply Nat.eqb_eq|]. done.
Qed.

Lemma parse_snapshot_name_inv nm s sn :
  parse_snapshot_name nm s = Some sn ->
  exists rest, nm = id_value s +:+ "-" +:+ rest /\
    (String.length rest = 18%nat \/ String.length rest = 21%nat) /\
    parse_utc_timestamp (String.substring 0 18 rest) = Some (sn_timestamp sn) /\
    sn_source_id sn = s /\ sn_name sn = nm /\
    (String.length rest = 18%nat -> sn_sequence sn = 0) /\
    (String.length rest = 21%nat ->
       0 < sn_sequence sn /\ decimal (String.substring 19 2 rest) = Some (sn_sequence sn)).
Proof.
  unfold parse_snapshot_name. case_match eqn:E1; [done|]. breflect.
  apply prefix_inv in E1 as [rest ->].
  rewrite substring_app_r, substring_ge by (done || rewrite !string_length_app; lia).
  case_match eqn:E2; [done|]. case_match eqn:E3; [|done].
  intros H. exists rest. rewrite !string_app_assoc.
  split; [by rewrite ?string_app_assoc|].
  assert (HL : String.length rest = 18%nat \/ String.length rest = 21%nat).
  { destruct (Nat.eqb_spec (String.length rest) 18); [by left|].
    destruct (Nat.eqb_spec (String.length rest) 21); [by right|done]. }
  split; [done|]. clear E2.
  destruct (Nat.eqb_spec (String.length rest) 21) as [L|L].
  - case_match eqn:E4; [done|]. case_match eqn:E5; [done|]. injection H as <-. cbn. breflect.
    split_and!; try done; [by rewrite string_app_assoc|by rewrite L|]. intros _. split; [lia|].
    unfold all_digits in *. destruct (decimal_from_digits (String.substring 19 2 rest) 0)
      as (n & Hn & _); [lia|done|]. unfold decimal. by rewrite Hn.
  - injection H as <-. cbn. split_and!; try done. by rewrite string_app_assoc.
Qed.

Lemma str_at_cons n c s : str_at (S n) (String c s) = str_at n s.
Proof. done. Qed.

Lemma str_at_substring0 n m s : (n < m)%nat -> str_at n (String.substring 0 m s) = str_at n s.
Proof.
  revert n m. induction s as [|c s IH]; intros n m H; [by destruct m|].
  destruct m as [|m]; [lia|]. destruct n as [|n]; [done|]. cbn [String.substring].
  rewrite !str_at_cons. apply IH. lia.
Qed.

(** A name that parses for one source with a sequence suffix cannot parse for a
    longer source id that swallows part of the rest. *)
Lemma parse_snapshot_name_no_overlap r1 r2 x y t1 t2 :
  r1 = String x (String y (String "-" r2)) ->
  parse_utc_timestamp (String.substring 0 18 r1) = Some t1 ->
  parse_utc_timestamp (String.substring 0 18 r2) = Some t2 -> False.
Proof.
  intros -> H1 H2. apply parse_utc_chars in H1 as (H1 & _), H2 as (_ & H2 & _).
  rewrite str_at_substring0 in H1, H2 by lia. rewrite !str_at_cons in H1. by rewrite H1 in H2.
Qed.

Lemma snapshot_name_overlap s1 s2 r1 r2 :
  s1 +:+ "-" +:+ r1 = s2 +:+ "-" +:+ r2 ->
  String.length r1 = 21%nat -> String.length r2 = 18%nat ->
  exists x y, r1 = String x (String y (String "-" r2)).
Proof.
  intros H L1 L2. pose proof (f_equal String.length H) as E.
  rewrite !string_length_app in E; simpl in E.
  destruct r1 as [|a [|b [|c r1]]]; [done..|]. simpl in L1.
  replace (s1 +:+ "-" +:+ String a (String b (String c r1)))
    with ((s1 +:+ "-" +:+ String a (String b "")) +:+ String c r1) in H
    by (by rewrite !string_app_assoc).
  apply string_app_inj_r in H as [_ H]; [|simpl; lia].
  injection H as -> ->. by eexists _, _.
Qed.

Lemma parse_snapshot_name_source nm s1 s2 n1 n2 :
  parse_snapshot_name nm s1 = Some n1 -> parse_snapshot_name nm s2 = Some n2 -> s1 = s2.
Proof.
  intros H1 H2.
  apply parse_snapshot_name_inv in H1 as (r1 & E1 & L1 & T1 & _).
  apply parse_snapshot_name_inv in H2 as (r2 & E2 & L2 & T2 & _).
  rewrite E1 in E2. apply ident_eq.
  destruct L1 as [L1|L1], L2 as [L2|L2].
  1,4: apply string_app_inj_r in E2 as [E2 _]; [done|simpl; lia].
  - symmetry in E2. apply snapshot_name_overlap in E2 as (x & y & E); [|done..].
    destruct (parse_snapshot_name_no_overlap _ _ _ _ _ _ E T2 T1).
  - apply snapshot_name_overlap in E2 as (x & y & E); [|done..].
    destruct (parse_snapshot_name_no_overlap _ _ _ _ _ _ E T1 T2).
Qed.

(** The names a run gives: base form and numbered form parse back. *)
Lemma parse_snapshot_name_base s text ts :
  parse_utc_timestamp text = Some ts -> String.length text = 18%nat ->
  parse_snapshot_name (id_value s +:+ "-" +:+ text) s
  = Some (mkSnapshotName s ts 0 (id_value s +:+ "-" +:+ text)).
Proof.
  intros Ht Hl. unfold parse_snapshot_name. rewrite <- string_app_assoc, prefix_app.
  cbn [negb]. rewrite substring_app_r, substring_ge by (done || rewrite !string_length_app; lia).
  rewrite Hl. cbn [Nat.eqb negb andb]. rewrite substring_ge by lia. by rewrite Ht.
Qed.

Lemma str_at_app a c b : str_at (String.length a) (a +:+ String c b) = c.
Proof. induction a as [|x a IH]; [done|]. apply IH. Qed.

Lemma parse_snapshot_name_seq s text ts n :
  parse_utc_timestamp text = Some ts -> String.length text = 18%nat -> 1 <= n <= 99 ->
  parse_snapshot_name (id_value s +:+ "-" +:+ text +:+ "-" +:+ setw0 2 n) s
  = Some (mkSnapshotName s ts n (id_value s +:+ "-" +:+ text +:+ "-" +:+ setw0 2 n)).
Proof.
  intros Ht Hl Hn. destruct (setw0_spec 2 n) as (Ln & Dn & An); [lia..|].
  unfold parse_snapshot_name. rewrite <- string_app_assoc, prefix_app.
  cbn [negb]. rewrite substring_app_r, substring_ge by (done || rewrite !string_length_app; lia).
  rewrite !string_length_app, Hl, Ln. cbn -[setw0 parse_utc_timestamp String.substring decimal all_digits str_at].
  rewrite substring_app_l, Ht by done.
  replace (str_at 18 (text +:+ String "-" (setw0 2 n))) with "-"%char.
  2: { rewrite <- Hl. symmetry. apply str_at_app. }
  change 19%nat with (18 + 1)%nat. rewrite <- Hl, substring_skip.
  cbn -[setw0 parse_utc_timestamp String.substring decimal all_digits].
  change (String.substring 1 2 (String "-" (setw0 2 n))) with (String.substring 0 2 (setw0 2 n)).
  rewrite substring_ge by lia.
  unfold all_digits. rewrite An, Dn. cbn. rewrite (proj2 (Z.leb_gt n 0)) by lia. done.
Qed.

(** ** The inventory of a directory *)

Section inventory.
Context (scan reported : path) (source : SourceId) (sd : SnapshotSide)
  (reader : SnapshotMetadataReader).

(** What an inventory entry stands for: a directory whose name is a snapshot
    name of the source and which the metadata reader says is a subvolume. *)
Definition is_snapshot_entry (e : DirEntry) (s : SnapshotInfo) : Prop :=
  entry_status e = DirectoryEntry /\
  exists parsed m,
    parse_snapshot_name (entry_name e) source = Some parsed /\
    reader (path_append scan (entry_name e)) = Ok (Some m) /\ md_is_subvolume m = true /\
    s = mkSnapshot sd source (entry_name e) (sn_timestamp parsed) (sn_sequence parsed)
          (path_append reported (entry_name e)) (md_readonly m) (md_uuid m) (md_received_uuid m).

Lemma inventory_entry_Some e s :
  is_name (entry_name e) ->
  inventory_entry scan reported source sd reader e = Ok (Some s) <-> is_snapshot_entry e s.
Proof.
  intros Hn. unfold inventory_entry, is_snapshot_entry.
  rewrite filename_append by done. split.
  - destruct (entry_status e); try done.
    destruct (parse_snapshot_name (entry_name e) source) as [p|] eqn:Ep; [|done].
    intros H. res_inv. split; [done|].
    destruct x as [m|]; [|done]. destruct (md_is_subvolume m) eqn:Em; [|done]. res_inv.
    apply parse_snapshot_name_inv in Ep as Hi. destruct Hi as (r & _ & _ & _ & -> & -> & _).
    by exists p, m.
  - intros (-> & p & m & Hp & Hr & Hm & ->). rewrite Hp, Hr. simpl. rewrite Hm. simpl.
    apply parse_snapshot_name_inv in Hp as (r & _ & _ & _ & -> & -> & _). done.
Qed.

Lemma inventory_entries_spec entries l :
  Forall (λ e, is_name (entry_name e)) entries ->
  inventory_entries scan reported source sd reader entries = Ok l ->
  Forall (λ e, entry_status e <> SymlinkEntry /\ entry_status e <> StatusError) entries /\
  (forall s, s ∈ l <-> exists e, e ∈ entries /\ is_snapshot_entry e s).
Proof.
  revert l. induction entries as [|e entries IH]; intros l Hn H; simpl in H; res_inv.
  - split; [constructor|]. intros s. split; [by intros ?%not_elem_of_nil|].
    by intros (e & ?%not_elem_of_nil & _).
  - inversion Hn as [|? ? Hn1 Hn2]; subst.
    match goal with H : inventory_entries _ _ _ _ _ _ = Ok ?k |- _ =>
      destruct (IH k Hn2 H) as [IH1 IH2]; clear H end.
    match goal with H : inventory_entry _ _ _ _ _ _ = Ok ?o |- _ => rename o into found; rename H into Hf end.
    split.
    + constructor; [|done]. unfold inventory_entry in Hf. by destruct (entry_status e).
    + intros s. setoid_rewrite elem_of_cons. destruct found as [s'|].
      * apply inventory_entry_Some in Hf as Hs; [|done]. rewrite elem_of_cons, IH2. split.
        -- intros [->|(e' & ? & ?)]; [by exists e; auto|]. exists e'. auto.
        -- intros (e' & [->|?] & Hs'); [|right; by exists e']. left.
           apply inventory_entry_Some in Hs'; [|done]. congruence.
      * rewrite IH2. split.
        -- intros (e' & ? & ?). exists e'. auto.
        -- intros (e' & [->|?] & Hs'); [|by exists e'].
           apply inventory_entry_Some in Hs'; [|done]. congruence.
Qed.
End inventory.

(** An inventory that is returned lists exactly the snapshots of the
    directory (directories named for the source that are subvolumes), once read
    and sorted oldest first; it is never returned for a directory that holds a
    symbolic link, and a missing directory is an empty inventory. *)
Theorem list_snapshot_inventory_spec scan reported source sd reader entries l :
  Forall (λ e, is_name (entry_name e)) entries ->
  list_snapshot_inventory_at scan reported source sd (Some reader) (DirEntries entries) = Ok l ->
  StronglySorted (cmp_le metadata_sort_key_less) l /\
  (forall e, e ∈ entries -> entry_status e <> SymlinkEntry) /\
  (forall s, s ∈ l <-> exists e, e ∈ entries /\ is_snapshot_entry scan reported source sd reader e s).
Proof.
  intros Hn H. simpl in H. res_inv.
  match goal with H : inventory_entries _ _ _ _ _ _ = Ok _ |- _ =>
    apply inventory_entries_spec in H as [H1 H2]; [|done] end.
  split; [apply std_sort_sorted, _|]. split.
  - intros e He. rewrite Forall_forall in H1. by apply H1.
  - intros s. by rewrite elem_of_std_sort, H2.
Qed.

(** A snapshot name belongs to one source: no text parses as a snapshot
    name of two different source identifiers, although identifiers may contain
    dashes and digits. *)
Theorem snapshot_name_source_unique nm s1 s2 :
  is_Some (parse_snapshot_name nm s1) -> is_Some (parse_snapshot_name nm s2) -> s1 = s2.
Proof. intros [n1 H1] [n2 H2]. by eapply parse_snapshot_name_source. Qed.

Definition home_source : SourceId := @mkIdent KSource "home" I.

Definition sample_reader : SnapshotMetadataReader := λ _,
  Ok (Some (mkMetadata true true (make_uuid "AA-1") (make_received ""))).

Definition sample_entries : list DirEntry :=
  [ mkEntry "home-2024-02-29T123456Z-01" DirectoryEntry;
    mkEntry "home-2024-02-29T123456Z" DirectoryEntry;
    mkEntry "readme.txt" OtherEntry;
    mkEntry "root-2024-02-29T123456Z" DirectoryEntry ].

Definition sample_snapshot (nm : string) (seq : Z) : SnapshotInfo :=
  mkSnapshot Local home_source nm 1709210096000000000 seq (path_append "/.snapshots" nm) true
    (mkUuid "aa-1") (mkReceived "").

Lemma list_snapshot_inventory_spec_witness :
  let l := [ sample_snapshot "home-2024-02-29T123456Z" 0;
             sample_snapshot "home-2024-02-29T123456Z-01" 1 ] in
  list_snapshot_inventory_at "/proc/self/fd/7" "/.snapshots" home_source Local
    (Some sample_reader) (DirEntries sample_entries) = Ok l /\
  StronglySorted (cmp_le metadata_sort_key_less) l.
Proof.
  cbv zeta. match goal with |- ?P /\ _ => assert (H : P) by reflexivity end.
  split; [exact H|].
  apply (list_snapshot_inventory_spec "/proc/self/fd/7" "/.snapshots" home_source Local
    sample_reader sample_entries _); [|exact H].
  repeat constructor; done.
Defined.

Lemma snapshot_name_source_unique_witness :
  is_Some (parse_snapshot_name "home-2024-02-29T123456Z" home_source) /\ home_source = home_source.
Proof.
  assert (H : is_Some (parse_snapshot_name "home-2024-02-29T123456Z" home_source))
    by (eexists; reflexivity).
  split; [exact H|].
  exact (snapshot_name_source_unique "home-2024-02-29T123456Z" home_source home_source H H).
Defined.
