(* ===== verification/IncrementalParent.v ===== *)
(** * Choice of the incremental parent (src/backup/model/IncrementalParent)

    A transfer is incremental against the newest local snapshot whose UUID is
    the received UUID of a read-only remote snapshot. *)

From S2P Require Import Prelude Errors Identifiers RuntimeTime FsPath ConfigDomain.
From S2P Require Import SnapshotInventory.

Open Scope Z_scope.

(** src/backup/model/IncrementalParent.hpp:18-26 *)
Inductive IncrementalParentSelection :=
| FullTransfer
| IncrementalTransfer (local_parent remote_parent : SnapshotInfo).

(** src/backup/model/IncrementalParent.cpp:20-22 *)
Definition normalized_path_string (p : path) : string := lexically_normal p.

(** src/backup/model/IncrementalParent.cpp:24-26 *)
Definition same_path_text (l r : path) : bool :=
  String.eqb (normalized_path_string l) (normalized_path_string r).

(** src/backup/model/IncrementalParent.cpp:28-36 *)
Definition newest_first (l r : SnapshotInfo) : bool :=
  if negb (timestamp l =? timestamp r) then timestamp r <? timestamp l
  else if negb (sequence l =? sequence r) then sequence r <? sequence l
  else str_less (snap_path r) (snap_path l).

Abbreviation RemoteIndex := (list (ReceivedSnapshotUuid * SnapshotInfo)).

(** The loop over the remote snapshots.
    src/backup/model/IncrementalParent.cpp:50-71 *)
Fixpoint index_remotes (source_id : SourceId) (remotes : list SnapshotInfo)
    (remote_snapshots_exist : bool) (index : RemoteIndex) : res (bool * RemoteIndex) :=
  match remotes with
  | [] => Ok (remote_snapshots_exist, index)
  | remote :: rest =>
      if negb (id_eqb (snap_source_id remote) source_id)
      then index_remotes source_id rest remote_snapshots_exist index
      else if (negb (readonly remote) || received_empty (received_uuid remote))%bool
      then index_remotes source_id rest true index
      else
        match find_if (λ entry, bool_decide (entry.1 = received_uuid remote)) index with
        | Some duplicate =>
            if negb (path_eqb (snap_path duplicate.2) (snap_path remote))
            then Throw (ValidationError ("ambiguous remote parent received UUID for "
                   +:+ id_value source_id +:+ ": " +:+ received_value (received_uuid remote)))
            else index_remotes source_id rest true index
        | None => index_remotes source_id rest true (index ++ [(received_uuid remote, remote)])
        end
  end.

(** The candidates of the local inventory.
    src/backup/model/IncrementalParent.cpp:73-82 *)
Definition is_candidate (source_id : SourceId) (current_snapshot_path : option path)
    (local : SnapshotInfo) : bool :=
  (id_eqb (snap_source_id local) source_id && readonly local && negb (uuid_empty (uuid local))
   && negb (match current_snapshot_path with
            | Some p => same_path_text (snap_path local) p
            | None => false
            end))%bool.

(** src/backup/model/IncrementalParent.cpp:85-93 *)
Fixpoint first_matching (candidates : list SnapshotInfo) (index : RemoteIndex)
    : option (SnapshotInfo * SnapshotInfo) :=
  match candidates with
  | [] => None
  | local :: rest =>
      match find_if (λ entry, uuid_matches (uuid local) entry.1) index with
      | Some found => Some (local, found.2)
      | None => first_matching rest index
      end
  end.

(** src/backup/model/IncrementalParent.cpp:42-100 *)
Definition select_incremental_parent (source_id : SourceId)
    (local_snapshots remote_snapshots : list SnapshotInfo)
    (current_snapshot_path : option path) (incremental_required : bool)
    : res IncrementalParentSelection :=
  '(remote_snapshots_exist, index) ← index_remotes source_id remote_snapshots false [];
  let candidates := std_sort newest_first
    (List.filter (is_candidate source_id current_snapshot_path) local_snapshots) in
  match first_matching candidates index with
  | Some (local, remote) => Ok (IncrementalTransfer local remote)
  | None =>
      if (remote_snapshots_exist && incremental_required)%bool
      then Throw (ValidationError ("Remote snapshots exist for " +:+ id_value source_id
                  +:+ ", but no UUID-matching local parent was found."))
      else Ok FullTransfer
  end.

(** ** Lemmas *)

Lemma newest_first_flip l r : newest_first l r = metadata_sort_key_less r l.
Proof.
  unfold newest_first, metadata_sort_key_less.
  by rewrite (Z.eqb_sym (timestamp l)), (Z.eqb_sym (sequence l)).
Qed.

Global Instance newest_first_swo : StrictWeakOrder newest_first.
Proof.
  split.
  - intros x y. rewrite !newest_first_flip. apply swo_asym.
  - intros x y z. rewrite !newest_first_flip. intros H1 H2.
    by apply (swo_negtrans z y x).
Qed.

Lemma path_eqb_refl p : path_eqb p p = true.
Proof. unfold path_eqb. by rewrite bool_decide_eq_true. Qed.

(** The remote snapshots that can be parents. *)
Definition eligible_remote (source_id : SourceId) (remotes : list SnapshotInfo)
    (r : SnapshotInfo) : Prop :=
  r ∈ remotes /\ snap_source_id r = source_id /\ readonly r = true /\
  received_empty (received_uuid r) = false.

(** Two of them that claim to be the same snapshot at different places. *)
Definition ambiguous (source_id : SourceId) (remotes : list SnapshotInfo) : Prop :=
  exists r1 r2, eligible_remote source_id remotes r1 /\ eligible_remote source_id remotes r2 /\
    received_uuid r1 = received_uuid r2 /\ path_eqb (snap_path r1) (snap_path r2) = false.

Definition eligible_local (source_id : SourceId) (current : option path)
    (locals : list SnapshotInfo) (l : SnapshotInfo) : Prop :=
  l ∈ locals /\ is_candidate source_id current l = true.

(** What holds of the index while the remote snapshots [seen] are done. *)
Record index_inv (source_id : SourceId) (seen : list SnapshotInfo) (present : bool)
    (index : RemoteIndex) : Prop := {
  inv_present : present = true <-> exists r, r ∈ seen /\ snap_source_id r = source_id;
  inv_sound e : e ∈ index -> eligible_remote source_id seen e.2 /\ e.1 = received_uuid e.2;
  inv_complete r : eligible_remote source_id seen r ->
    exists e, e ∈ index /\ e.1 = received_uuid r;
}.

Lemma eligible_remote_mono source_id seen more r :
  eligible_remote source_id seen r -> eligible_remote source_id (seen ++ more) r.
Proof. intros (H1 & H2). split; [set_solver|done]. Qed.

Lemma index_step source_id seen remote present index present' index' :
  index_inv source_id seen present index ->
  (present' = true <-> present = true \/ snap_source_id remote = source_id) ->
  (forall e, e ∈ index -> e ∈ index') ->
  (forall e, e ∈ index' -> e ∈ index \/
     (e = (received_uuid remote, remote) /\ eligible_remote source_id [remote] remote)) ->
  (eligible_remote source_id [remote] remote -> exists e, e ∈ index' /\ e.1 = received_uuid remote) ->
  index_inv source_id (seen ++ [remote]) present' index'.
Proof.
  intros [Hp Hs Hc] Hp' Hmono Hnew Hrem. split.
  - rewrite Hp', Hp. split.
    + intros [(r & ? & ?)|?]; [exists r|exists remote]; set_solver.
    + intros (r & [?| ->%list_elem_of_singleton]%elem_of_app & ?); [left; by exists r|by right].
  - intros e [He|[-> He]]%Hnew.
    + destruct (Hs e He). split; [by apply eligible_remote_mono|done].
    + destruct He as (_ & ?). split; [split; [set_solver|done]|done].
  - intros r ([Hr| ->%list_elem_of_singleton]%elem_of_app & Hr').
    + destruct (Hc r) as (e & ? & ?); [done|]. exists e. auto.
    + apply Hrem. split; [set_solver|done].
Qed.

Lemma index_remotes_spec source_id remotes : forall seen present index,
  index_inv source_id seen present index ->
  match index_remotes source_id remotes present index with
  | Ok (present', index') => index_inv source_id (seen ++ remotes) present' index'
  | Throw e => is_validation_error e = true /\ ambiguous source_id (seen ++ remotes)
  end.
Proof.
  induction remotes as [|r rest IH]; intros seen present index Hinv; simpl.
  { by rewrite app_nil_r. }
  replace (seen ++ r :: rest) with ((seen ++ [r]) ++ rest) by (by rewrite <- app_assoc).
  destruct (id_eqb (snap_source_id r) source_id) eqn:Es; unfold id_eqb in Es; breflect; simpl.
  2: { apply IH. eapply index_step; try done; [naive_solver|naive_solver|].
       intros (_ & ? & _). done. }
  destruct (negb (readonly r) || received_empty (received_uuid r))%bool eqn:Er.
  { apply IH. eapply index_step; try done; [naive_solver|naive_solver|].
    intros (_ & _ & H1 & H2). rewrite H1, H2 in Er. done. }
  breflect.
  assert (Hel : forall l, r ∈ l -> eligible_remote source_id l r) by done.
  destruct (find_if _ index) as [d|] eqn:Ef.
  - apply find_if_Some in Ef as [Hd Hu]. breflect.
    destruct (path_eqb (snap_path d.2) (snap_path r)) eqn:Epath; simpl.
    + apply IH. eapply index_step; try done; [naive_solver|naive_solver|]. intros _. by exists d.
    + split; [done|]. destruct (inv_sound _ _ _ _ Hinv d Hd) as [H1 H2].
      exists d.2, r. rewrite <- app_assoc. split; [by apply eligible_remote_mono|].
      split; [apply Hel; set_solver|]. split; [congruence|done].
  - apply IH. eapply index_step; try done; [naive_solver|set_solver| |].
    + intros e [He| ->%list_elem_of_singleton]%elem_of_app; [by left|right].
      split; [done|]. apply Hel. set_solver.
    + intros _. exists (received_uuid r, r). set_solver.
Qed.

Lemma index_inv_nil source_id : index_inv source_id [] false [].
Proof.
  split.
  - split; [done|]. by intros (r & ?%not_elem_of_nil & _).
  - by intros e ?%not_elem_of_nil.
  - by intros r (?%not_elem_of_nil & _).
Qed.

Lemma first_matching_spec candidates index :
  match first_matching candidates index with
  | Some (l, r) => exists before after e,
      candidates = before ++ l :: after /\ e ∈ index /\ r = e.2 /\
      uuid_matches (uuid l) e.1 = true /\
      (forall l' e', l' ∈ before -> e' ∈ index -> uuid_matches (uuid l') e'.1 = false)
  | None => forall l e, l ∈ candidates -> e ∈ index -> uuid_matches (uuid l) e.1 = false
  end.
Proof.
  induction candidates as [|c rest IH]; simpl; [set_solver|].
  destruct (find_if _ index) as [e|] eqn:Ef.
  - apply find_if_Some in Ef as [He Hm]. exists [], rest, e. set_solver.
  - assert (Hc : forall e, e ∈ index -> uuid_matches (uuid c) e.1 = false).
    { intros e He. by apply (find_if_None _ _ e Ef). }
    destruct (first_matching rest index) as [[l r]|].
    + destruct IH as (before & after & e & -> & He & Hr & Hm & Hb).
      exists (c :: before), after, e. split_and!; try done.
      intros l' e' [->|?]%elem_of_cons ?; auto.
    + intros l e [->|?]%elem_of_cons ?; auto.
Qed.

Lemma eligible_local_sort source_id current locals l :
  l ∈ std_sort newest_first (List.filter (is_candidate source_id current) locals)
  <-> eligible_local source_id current locals l.
Proof.
  rewrite elem_of_std_sort. unfold eligible_local. rewrite !list_elem_of_In, filter_In. done.
Qed.

(** The pair chosen is an eligible pair. *)
Lemma select_parent_sound source_id locals remotes current required l r :
  select_incremental_parent source_id locals remotes current required = Ok (IncrementalTransfer l r) ->
  eligible_local source_id current locals l /\ eligible_remote source_id remotes r /\
  uuid_matches (uuid l) (received_uuid r) = true.
Proof.
  unfold select_incremental_parent.
  pose proof (index_remotes_spec source_id remotes [] false [] (index_inv_nil _)) as Hidx.
  simpl in Hidx.
  destruct (index_remotes source_id remotes false []) as [[present index]|e]; [simpl|done].
  set (cands := std_sort _ _). pose proof (first_matching_spec cands index) as Hf.
  destruct (first_matching cands index) as [[l' r']|]; [|by case_match].
  intros [= -> ->]. destruct Hf as (before & after & e & Ec & He & -> & Hm & _).
  destruct (inv_sound _ _ _ _ Hidx e He) as [Hr Hu]. split; [|split; [done|congruence]].
  apply eligible_local_sort. fold cands. rewrite Ec. set_solver.
Qed.

(** The parent chosen is a read-only local snapshot of the source other
    than the one being made, its UUID is the received UUID of a read-only remote
    snapshot of the source, and no newer such pair exists; a full transfer is
    chosen only if there is no such pair and, when the profile requires
    incremental transfers, no remote snapshot at all; the choice is refused only
    for an ambiguous received UUID or a required parent that is missing. *)
Theorem select_incremental_parent_spec source_id locals remotes current required :
  match select_incremental_parent source_id locals remotes current required with
  | Ok (IncrementalTransfer l r) =>
      eligible_local source_id current locals l /\ eligible_remote source_id remotes r /\
      uuid_matches (uuid l) (received_uuid r) = true /\
      (forall l' r', eligible_local source_id current locals l' ->
         eligible_remote source_id remotes r' ->
         uuid_matches (uuid l') (received_uuid r') = true -> newest_first l' l = false)
  | Ok FullTransfer =>
      (forall l r, eligible_local source_id current locals l ->
         eligible_remote source_id remotes r -> uuid_matches (uuid l) (received_uuid r) = false) /\
      (required = true -> forall r, r ∈ remotes -> snap_source_id r <> source_id)
  | Throw e =>
      is_validation_error e = true /\
      (ambiguous source_id remotes \/
       (required = true /\ (exists r, r ∈ remotes /\ snap_source_id r = source_id) /\
        forall l r, eligible_local source_id current locals l ->
          eligible_remote source_id remotes r -> uuid_matches (uuid l) (received_uuid r) = false))
  end.
Proof.
  unfold select_incremental_parent.
  pose proof (index_remotes_spec source_id remotes [] false [] (index_inv_nil _)) as Hidx.
  simpl in Hidx.
  destruct (index_remotes source_id remotes false []) as [[present index]|e]; simpl.
  2: { destruct Hidx as [H1 H2]. auto. }
  destruct Hidx as [Hp Hs Hc].
  set (cands := std_sort _ _).
  pose proof (first_matching_spec cands index) as Hf.
  pose proof (std_sort_sorted newest_first
    (List.filter (is_candidate source_id current) locals)) as Hsorted.
  fold cands in Hsorted.
  assert (Hnone : (forall l e, l ∈ cands -> e ∈ index -> uuid_matches (uuid l) e.1 = false) ->
    forall l r, eligible_local source_id current locals l -> eligible_remote source_id remotes r ->
      uuid_matches (uuid l) (received_uuid r) = false).
  { intros H l r Hl Hr. destruct (Hc r Hr) as (e & He & <-). apply H; [|done].
    by apply eligible_local_sort. }
  destruct (first_matching cands index) as [[l r]|].
  - destruct Hf as (before & after & e & Ec & He & -> & Hm & Hb).
    destruct (Hs e He) as [Hr Hu]. split.
    { apply eligible_local_sort. fold cands. rewrite Ec. set_solver. }
    split; [done|]. split; [congruence|]. intros l' r' Hl' Hr' Hm'.
    destruct (Hc r' Hr') as (e' & He' & Hu').
    apply eligible_local_sort in Hl'. fold cands in Hl'. rewrite Ec in Hl', Hsorted.
    apply elem_of_app in Hl' as [Hl'|Hl'].
    { rewrite <- Hu' in Hm'. by rewrite (Hb l' e' Hl' He') in Hm'. }
    apply StronglySorted_app_inv in Hsorted as (_ & Hsorted & _).
    apply StronglySorted_inv in Hsorted as [_ Hall]. rewrite Forall_forall in Hall.
    apply elem_of_cons in Hl' as [->|Hl']; [|by apply Hall].
    destruct (newest_first l l) eqn:E; [|done]. by rewrite (swo_asym _ _ E) in E.
  - destruct (present && required)%bool eqn:E; breflect.
    + split; [done|]. right. split; [done|]. split; [by apply Hp|by apply Hnone].
    + split; [by apply Hnone|]. intros -> r Hr Hsrc.
      rewrite andb_true_r in E. rewrite (proj2 Hp) in E; [done|]. by exists r.
Qed.
