(* ===== verification/RetentionPlan.v ===== *)
(** * Retention by count (src/backup/model/RetentionPlan) *)

From S2P Require Import Prelude Errors Identifiers RuntimeTime FsPath ConfigDomain.
From S2P Require Import SnapshotInventory.

Open Scope Z_scope.

(** src/backup/model/RetentionPlan.hpp:16-21 *)
Record RetentionPlan := mkRetentionPlan {
  rp_source_id : SourceId;
  keep_count : Z;
  keep : list SnapshotInfo;
  delete_snapshots : list SnapshotInfo;
}.

(** src/backup/model/RetentionPlan.cpp:16-24 *)
Definition oldest_first (l r : SnapshotInfo) : bool :=
  if negb (timestamp l =? timestamp r) then timestamp l <? timestamp r
  else if negb (sequence l =? sequence r) then sequence l <? sequence r
  else str_less (snap_path l) (snap_path r).

(** src/backup/model/RetentionPlan.cpp:30-59 *)
Definition plan_count_retention (source_id : SourceId) (snapshots : list SnapshotInfo)
    (count : Z) : RetentionPlan :=
  let matching := std_sort oldest_first
    (List.filter (λ s, id_eqb (snap_source_id s) source_id) snapshots) in
  let size := Z.of_nat (length matching) in
  if ((count =? 0) || (size <=? count))%bool
  then mkRetentionPlan source_id count matching []
  else
    let delete_count := Z.to_nat (size - count) in
    mkRetentionPlan source_id count (drop delete_count matching) (take delete_count matching).

(** ** Lemmas *)

Global Instance oldest_first_swo : StrictWeakOrder oldest_first.
Proof. exact metadata_sort_key_less_swo. Qed.

Lemma plan_count_retention_split source_id snapshots count :
  delete_snapshots (plan_count_retention source_id snapshots count)
  ++ keep (plan_count_retention source_id snapshots count)
  = std_sort oldest_first (List.filter (λ s, id_eqb (snap_source_id s) source_id) snapshots).
Proof.
  unfold plan_count_retention. case_match; simpl; [done|]. by rewrite take_drop.
Qed.

Lemma plan_count_retention_elem source_id snapshots count s :
  s ∈ delete_snapshots (plan_count_retention source_id snapshots count) \/
  s ∈ keep (plan_count_retention source_id snapshots count)
  <-> s ∈ snapshots /\ snap_source_id s = source_id.
Proof.
  rewrite <- elem_of_app, plan_count_retention_split, elem_of_std_sort.
  rewrite !list_elem_of_In, filter_In. unfold id_eqb. by rewrite bool_decide_eq_true.
Qed.

Lemma plan_count_retention_source source_id snapshots count :
  rp_source_id (plan_count_retention source_id snapshots count) = source_id.
Proof. unfold plan_count_retention. by case_match. Qed.

Lemma plan_count_retention_older source_id snapshots count d k :
  d ∈ delete_snapshots (plan_count_retention source_id snapshots count) ->
  k ∈ keep (plan_count_retention source_id snapshots count) -> oldest_first k d = false.
Proof.
  pose proof (std_sort_sorted oldest_first
    (List.filter (λ s, id_eqb (snap_source_id s) source_id) snapshots)) as H.
  rewrite <- (plan_count_retention_split source_id snapshots count) in H.
  apply StronglySorted_app_inv in H as (_ & _ & H). apply H.
Qed.

Lemma plan_count_retention_keep_nonempty source_id snapshots count :
  0 <= count -> delete_snapshots (plan_count_retention source_id snapshots count) <> [] ->
  keep (plan_count_retention source_id snapshots count) <> [].
Proof.
  intros Hc. unfold plan_count_retention. case_match eqn:E; simpl; [done|].
  apply orb_false_iff in E as [E1 E2]. breflect. intros _ H.
  apply (f_equal length) in H. rewrite length_drop in H. simpl in H. lia.
Qed.

(** A snapshot that is strictly newer than every other snapshot of the source
    is kept. *)
Lemma plan_count_retention_newest source_id snapshots count s :
  0 <= count ->
  (forall s', s' ∈ snapshots -> snap_source_id s' = source_id -> s' = s \/ oldest_first s' s = true) ->
  s ∉ delete_snapshots (plan_count_retention source_id snapshots count)
  \/ s ∈ keep (plan_count_retention source_id snapshots count).
Proof.
  intros Hc Hnew.
  destruct (decide (s ∈ delete_snapshots (plan_count_retention source_id snapshots count)))
    as [Hd|Hd]; [right|by left].
  destruct (keep (plan_count_retention source_id snapshots count)) as [|k ks] eqn:Ek.
  { exfalso. eapply plan_count_retention_keep_nonempty; [done| |done].
    intros E. rewrite E in Hd. by apply not_elem_of_nil in Hd. }
  assert (Hk : k ∈ keep (plan_count_retention source_id snapshots count)) by (rewrite Ek; left).
  pose proof (plan_count_retention_older _ _ _ _ _ Hd Hk) as Ho.
  destruct (proj1 (plan_count_retention_elem source_id snapshots count k)) as [H1 H2]; [by right|].
  destruct (Hnew k H1 H2) as [->|E]; [left|congruence].
Qed.

(** Retention splits the snapshots of the source, and only those, into
    the ones to delete and the ones to keep; every deleted one is at least as
    old as every kept one; a count of zero deletes nothing and otherwise
    exactly the requested number of snapshots survives, if there are as many. *)
Theorem plan_count_retention_spec source_id snapshots count :
  0 <= count ->
  let plan := plan_count_retention source_id snapshots count in
  let matching := List.filter (λ s, id_eqb (snap_source_id s) source_id) snapshots in
  delete_snapshots plan ++ keep plan ≡ₚ matching /\
  (forall d k, d ∈ delete_snapshots plan -> k ∈ keep plan -> oldest_first k d = false) /\
  (count = 0 -> delete_snapshots plan = []) /\
  (count <> 0 ->
     Z.of_nat (length (keep plan)) = Z.min count (Z.of_nat (length matching))).
Proof.
  intros Hc. cbv zeta. split; [|split; [|split]].
  - rewrite plan_count_retention_split. apply std_sort_perm.
  - intros d k. apply plan_count_retention_older.
  - intros ->. done.
  - intros Hn. unfold plan_count_retention. rewrite (proj2 (Z.eqb_neq count 0)) by done.
    rewrite std_sort_length. simpl. case_match; breflect; simpl.
    + rewrite std_sort_length. lia.
    + rewrite length_drop, std_sort_length. lia.
Qed.

Lemma plan_count_retention_spec_witness :
  let plan := plan_count_retention home_source
    [ sample_snapshot "home-2024-02-29T123456Z-01" 1; sample_snapshot "home-2024-02-29T123456Z" 0 ] 1 in
  delete_snapshots plan = [ sample_snapshot "home-2024-02-29T123456Z" 0 ] /\
  Z.of_nat (length (keep plan)) = 1.
Proof.
  cbv zeta. split; [reflexivity|].
  pose proof (plan_count_retention_spec home_source
    [ sample_snapshot "home-2024-02-29T123456Z-01" 1; sample_snapshot "home-2024-02-29T123456Z" 0 ] 1
    ltac:(lia)) as (_ & _ & _ & H).
  apply H. lia.
Defined.
