(* ===== verification/PendingRecovery.v ===== *)
(** * Recovery of an interrupted run (src/backup/model/PendingRecovery)

    A run writes a pending marker before it creates a local snapshot and removes
    it when the source is done; the next run plans from a marker that is still
    there what has to be deleted. *)

From S2P Require Import Prelude Errors Identifiers RuntimeTime FsPath ConfigDomain.
From S2P Require Import SnapshotInventory.

Open Scope Z_scope.

(** src/backup/model/PendingRecovery.hpp:19-34 *)
Inductive PendingRecoveryEffect :=
| DeletePendingRemoteSnapshot (snapshot_path : path)
| DeletePendingLocalSnapshot (snapshot_path : path)
| ClearPendingMarker (marker_path : path).

Global Instance PendingRecoveryEffect_eq_dec : EqDecision PendingRecoveryEffect.
Proof. solve_decision. Defined.

(** src/backup/model/PendingRecovery.hpp:36-42 *)
Record PendingMarker := mkMarker {
  pm_source_id : SourceId;
  pm_local_snapshot_path : path;
  pm_final_snapshot_path : path;
  pm_run_id : RunId;
  pm_timestamp : RuntimeTimePoint;
}.

Global Instance PendingMarker_eq_dec : EqDecision PendingMarker.
Proof. solve_decision. Defined.

(** src/backup/model/PendingRecovery.hpp:44-53 *)
Record PendingRecoveryPlan := mkRecovery {
  marker_path : path;
  pending_snapshot_path : path;
  effects : list PendingRecoveryEffect;
  message : string;
}.

(** src/backup/model/PendingRecovery.hpp:50-52 *)
Definition recovery_required (plan : PendingRecoveryPlan) : bool :=
  match effects plan with [] => false | _ => true end.

(** [pending_recovery_effect<DeletePendingLocalSnapshot>]: the first effect of
    that type. src/backup/model/PendingRecovery.hpp:55-63 *)
Definition pending_local_deletion (plan : PendingRecoveryPlan) : option path :=
  match find_if (λ e, match e with DeletePendingLocalSnapshot _ => true | _ => false end)
          (effects plan) with
  | Some (DeletePendingLocalSnapshot p) => Some p
  | _ => None
  end.

(** [pending_recovery_effect<DeletePendingRemoteSnapshot>].
    src/backup/model/PendingRecovery.hpp:55-63 *)
Definition pending_remote_deletion (plan : PendingRecoveryPlan) : option path :=
  match find_if (λ e, match e with DeletePendingRemoteSnapshot _ => true | _ => false end)
          (effects plan) with
  | Some (DeletePendingRemoteSnapshot p) => Some p
  | _ => None
  end.

(** src/backup/model/PendingRecovery.cpp:19-30 *)
Definition remote_contains_received_uuid (remote_snapshots : list SnapshotInfo)
    (source_id : SourceId) (u : SnapshotUuid) : bool :=
  existsb (λ remote, id_eqb (snap_source_id remote) source_id
                     && uuid_matches u (received_uuid remote))%bool remote_snapshots.

(** src/backup/model/PendingRecovery.cpp:32-59 *)
Definition marker_path_is_valid (marker : PendingMarker) (source_id : SourceId)
    (local_snapshot_dir remote_snapshot_dir : path) : bool :=
  if (negb (id_eqb (pm_source_id marker) source_id)
      || str_empty (pm_local_snapshot_path marker))%bool then false
  else
    let snapshot_path := lexically_normal (pm_local_snapshot_path marker) in
    if negb (path_is_within snapshot_path local_snapshot_dir) then false
    else
      let base := filename snapshot_path in
      if negb (String.prefix (id_value source_id +:+ "-") base) then false
      else if str_empty (pm_final_snapshot_path marker) then false
      else
        let final_path := lexically_normal (pm_final_snapshot_path marker) in
        (path_is_within final_path remote_snapshot_dir
         && path_eqb (filename final_path) (filename snapshot_path))%bool.

(** src/backup/model/PendingRecovery.cpp:61-72 *)
Definition remote_snapshot_at_path (remote_snapshots : list SnapshotInfo) (p : path)
    : option SnapshotInfo :=
  let wanted := lexically_normal p in
  find_if (λ remote, path_eqb (lexically_normal (snap_path remote)) wanted) remote_snapshots.

(** The check that the snapshot at the final path is not the copy of the pending
    one. src/backup/model/PendingRecovery.cpp:113-115 *)
Definition unverified_final (remote_snapshots : list SnapshotInfo) (final_path : path)
    (pending : SnapshotMetadata) : bool :=
  match remote_snapshot_at_path remote_snapshots final_path with
  | Some final_snapshot =>
      (negb (uuid_empty (md_uuid pending))
       && negb (uuid_matches (md_uuid pending) (received_uuid final_snapshot)))%bool
  | None => false
  end.

(** src/backup/model/PendingRecovery.cpp:78-137 *)
Definition plan_pending_recovery (source_id : SourceId)
    (profile_state_dir local_snapshot_dir remote_snapshot_dir : path)
    (marker : option PendingMarker) (pending_snapshot : option SnapshotMetadata)
    (remote_snapshots : list SnapshotInfo) (keep_failed_local_snapshot : bool)
    : PendingRecoveryPlan :=
  let marker_path := path_append profile_state_dir ("pending-" +:+ id_value source_id) in
  match marker with
  | None => mkRecovery marker_path "" [] ""
  | Some m =>
      let local := pm_local_snapshot_path m in
      let clear := ClearPendingMarker marker_path in
      if negb (marker_path_is_valid m source_id local_snapshot_dir remote_snapshot_dir)
      then mkRecovery marker_path local [clear]
             ("Ignoring invalid pending marker for " +:+ id_value source_id +:+ ": " +:+ marker_path)
      else
        let missing := mkRecovery marker_path local [clear]
             ("Clearing pending marker for missing local snapshot: " +:+ local) in
        match pending_snapshot with
        | None => missing
        | Some pending =>
            if negb (md_is_subvolume pending) then missing
            else
              let final_path := pm_final_snapshot_path m in
              if unverified_final remote_snapshots final_path pending
              then
                let keep_local :=
                  (keep_failed_local_snapshot
                   || remote_contains_received_uuid remote_snapshots source_id (md_uuid pending))%bool in
                mkRecovery marker_path local
                  (DeletePendingRemoteSnapshot final_path
                   :: (if keep_local then [] else [DeletePendingLocalSnapshot local]) ++ [clear])
                  ("Removing unverified committed snapshot left by an interrupted run: "
                   +:+ final_path)
              else if (negb (uuid_empty (md_uuid pending))
                  && remote_contains_received_uuid remote_snapshots source_id (md_uuid pending))%bool
              then mkRecovery marker_path local [clear]
                     ("Recovered committed snapshot from an interrupted run: " +:+ local)
              else if keep_failed_local_snapshot
              then mkRecovery marker_path local [clear]
                     ("Keeping pending local snapshot by configuration: " +:+ local)
              else mkRecovery marker_path local [DeletePendingLocalSnapshot local; clear]
                     ("Removing orphaned local snapshot from an interrupted run: " +:+ local)
        end
  end.

(** ** Lemmas *)

Section recovery.
Context (source_id : SourceId) (state_dir local_dir remote_dir : path)
  (marker : option PendingMarker) (pending : option SnapshotMetadata)
  (remotes : list SnapshotInfo) (keep_failed : bool).

Let plan := plan_pending_recovery source_id state_dir local_dir remote_dir marker pending
  remotes keep_failed.

(** A remote snapshot of the source holds the data of the pending one. *)
Definition committed (md : SnapshotMetadata) : Prop :=
  exists r, r ∈ remotes /\ snap_source_id r = source_id /\
    uuid_matches (md_uuid md) (received_uuid r) = true.

Lemma remote_contains_spec md :
  remote_contains_received_uuid remotes source_id (md_uuid md) = true <-> committed md.
Proof.
  unfold remote_contains_received_uuid, committed. rewrite existsb_exists.
  split; intros (r & H); exists r; rewrite list_elem_of_In in *;
    rewrite ?andb_true_iff in *; unfold id_eqb in *; rewrite ?bool_decide_eq_true in *; naive_solver.
Qed.

Lemma uuid_matches_nonempty u r : uuid_matches u r = true -> uuid_empty u = false.
Proof. unfold uuid_matches. intros; by breflect. Qed.

Lemma recovery_marker_path :
  marker_path plan = path_append state_dir ("pending-" +:+ id_value source_id).
Proof. unfold plan, plan_pending_recovery. repeat case_match; done. Qed.

Lemma recovery_effects_cases :
  effects plan = [] /\ marker = None \/
  exists m, marker = Some m /\
    let clear := ClearPendingMarker (marker_path plan) in
    (effects plan = [clear] \/
     marker_path_is_valid m source_id local_dir remote_dir = true /\
     exists md, pending = Some md /\ md_is_subvolume md = true /\
       (effects plan = [DeletePendingRemoteSnapshot (pm_final_snapshot_path m); clear] /\
          unverified_final remotes (pm_final_snapshot_path m) md = true \/
        keep_failed = false /\ ~ committed md /\
          (effects plan = [DeletePendingRemoteSnapshot (pm_final_snapshot_path m);
                           DeletePendingLocalSnapshot (pm_local_snapshot_path m); clear] /\
             unverified_final remotes (pm_final_snapshot_path m) md = true \/
           effects plan = [DeletePendingLocalSnapshot (pm_local_snapshot_path m); clear]))).
Proof.
  unfold plan, plan_pending_recovery.
  destruct marker as [m|]; [right; exists m; split; [done|]|by left].
  destruct (marker_path_is_valid m source_id local_dir remote_dir) eqn:Ev; simpl; [|by left].
  destruct pending as [md|]; [|by left].
  destruct (md_is_subvolume md) eqn:Em; simpl; [|by left].
  destruct (unverified_final remotes (pm_final_snapshot_path m) md) eqn:Eu; simpl.
  - right. split; [done|]. exists md. split; [done|]. split; [done|].
    destruct (keep_failed || remote_contains_received_uuid remotes source_id (md_uuid md))%bool eqn:Ek;
      simpl; [by left|right].
    breflect. split; [done|]. split; [|by left].
    rewrite <- remote_contains_spec. congruence.
  - destruct (negb (uuid_empty (md_uuid md)) && remote_contains_received_uuid remotes source_id (md_uuid md))%bool
      eqn:Er; simpl; [by left|].
    destruct keep_failed; simpl; [by left|]. right. split; [done|]. exists md.
    split; [done|]. split; [done|]. right. split; [done|]. split; [|by right].
    intros Hc. rewrite (proj2 (remote_contains_spec md) Hc), andb_true_r in Er.
    destruct Hc as (r & _ & _ & Hm). rewrite (uuid_matches_nonempty _ _ Hm) in Er. done.
Qed.

Lemma recovery_local_deletion p :
  DeletePendingLocalSnapshot p ∈ effects plan ->
  exists md, pending = Some md /\ ~ committed md.
Proof.
  destruct recovery_effects_cases as [[-> _]|(m & _ & [-> |(_ & md & -> & _ & H)])];
    [by intros ?%not_elem_of_nil|by intros ?%list_elem_of_singleton|].
  destruct H as [[-> _]|(_ & Hc & _)]; [|by eauto].
  rewrite !elem_of_cons, elem_of_nil. intros H. by destruct_or! H.
Qed.
End recovery.

(** Recovery does nothing without a marker; with one it ends by clearing
    the marker, once, after every deletion, and deletes the unverified remote
    snapshot before the local one. *)
Theorem recovery_effect_order source_id state_dir local_dir remote_dir marker pending remotes keep_failed :
  let plan := plan_pending_recovery source_id state_dir local_dir remote_dir marker pending
    remotes keep_failed in
  let clear := ClearPendingMarker
    (path_append state_dir ("pending-" +:+ id_value source_id)) in
  (marker = None /\ effects plan = []) \/
  (exists m deletions, marker = Some m /\ effects plan = deletions ++ [clear] /\
     deletions `sublist_of` [DeletePendingRemoteSnapshot (pm_final_snapshot_path m);
                             DeletePendingLocalSnapshot (pm_local_snapshot_path m)]).
Proof.
  cbv zeta. rewrite <- (recovery_marker_path source_id state_dir local_dir remote_dir marker
    pending remotes keep_failed).
  destruct (recovery_effects_cases source_id state_dir local_dir remote_dir marker pending
    remotes keep_failed) as [[-> ->]|(m & -> & [E|(_ & md & _ & _ & H)])]; [by left| |]; right; exists m.
  - exists []. split_and!; [done|done|apply sublist_nil_l].
  - destruct H as [[E _]|(_ & _ & [[E _]|E])]; rewrite E.
    + exists [DeletePendingRemoteSnapshot (pm_final_snapshot_path m)].
      split_and!; [done|done|repeat constructor].
    + exists [DeletePendingRemoteSnapshot (pm_final_snapshot_path m);
              DeletePendingLocalSnapshot (pm_local_snapshot_path m)].
      split_and!; [done|done|repeat constructor].
    + exists [DeletePendingLocalSnapshot (pm_local_snapshot_path m)].
      split_and!; [done|done|repeat constructor].
Qed.

(** C8.  Recovery deletes a local snapshot only if it is the marker's, lies in
    the source's snapshot directory, still exists, no remote snapshot of the
    source is a copy of it and the profile does not keep failed snapshots; it
    deletes a remote snapshot only if it is at the marker's final path inside the
    source's remote directory and is not a copy of the pending one. *)
Theorem recovery_deletes_only_uncommitted source_id state_dir local_dir remote_dir marker pending
    remotes keep_failed e :
  e ∈ effects (plan_pending_recovery source_id state_dir local_dir remote_dir marker pending
                 remotes keep_failed) ->
  match e with
  | DeletePendingLocalSnapshot p =>
      keep_failed = false /\
      (exists m, marker = Some m /\ p = pm_local_snapshot_path m /\
         path_is_within (lexically_normal p) local_dir = true) /\
      exists md, pending = Some md /\ md_is_subvolume md = true /\ ~ committed source_id remotes md
  | DeletePendingRemoteSnapshot p =>
      (exists m, marker = Some m /\ p = pm_final_snapshot_path m /\
         path_is_within (lexically_normal p) remote_dir = true) /\
      exists md r, pending = Some md /\ remote_snapshot_at_path remotes p = Some r /\
        uuid_matches (md_uuid md) (received_uuid r) = false
  | ClearPendingMarker p => p = path_append state_dir ("pending-" +:+ id_value source_id)
  end.
Proof.
  pose proof (recovery_marker_path source_id state_dir local_dir remote_dir marker
    pending remotes keep_failed) as Hp.
  destruct (recovery_effects_cases source_id state_dir local_dir remote_dir marker pending
    remotes keep_failed) as [[-> _]|(m & -> & [-> |(Hv & md & -> & Hs & H)])];
    [by intros ?%not_elem_of_nil|by intros ->%list_elem_of_singleton|].
  assert (Hlocal : path_is_within (lexically_normal (pm_local_snapshot_path m)) local_dir = true
    /\ path_is_within (lexically_normal (pm_final_snapshot_path m)) remote_dir = true).
  { unfold marker_path_is_valid in Hv. repeat case_match; try done; by breflect. }
  assert (Hremote : unverified_final remotes (pm_final_snapshot_path m) md = true ->
    exists r, remote_snapshot_at_path remotes (pm_final_snapshot_path m) = Some r /\
      uuid_matches (md_uuid md) (received_uuid r) = false).
  { unfold unverified_final. case_match; [|done]. intros; breflect. eauto. }
  destruct Hlocal. destruct H as [[-> Hu]|(Hk & Hc & [[-> Hu]| ->])].
  all: rewrite ?elem_of_cons, elem_of_nil; intros He;
    destruct_or! He; subst; try done; try (by naive_solver).
Qed.

Definition sample_marker : PendingMarker :=
  mkMarker home_source "/.snapshots/home-2024-02-29T123456Z"
    "/mnt/target/snapshots/home/home-2024-02-29T123456Z" (@mkIdent KRun "run-1" I) 1709210096000000000.

Definition sample_pending : SnapshotMetadata := mkMetadata true true (make_uuid "aa-1") (make_received "").

Lemma recovery_deletes_only_uncommitted_witness :
  effects (plan_pending_recovery home_source "/var/lib/btrfs-backup/profiles/main" "/.snapshots"
    "/mnt/target/snapshots/home" (Some sample_marker) (Some sample_pending) [] false)
  = [DeletePendingLocalSnapshot "/.snapshots/home-2024-02-29T123456Z";
     ClearPendingMarker "/var/lib/btrfs-backup/profiles/main/pending-home"] /\
  exists md, Some sample_pending = Some md /\ md_is_subvolume md = true /\ ~ committed home_source [] md.
Proof.
  split; [reflexivity|].
  apply (recovery_deletes_only_uncommitted home_source "/var/lib/btrfs-backup/profiles/main"
    "/.snapshots" "/mnt/target/snapshots/home" (Some sample_marker) (Some sample_pending) [] false
    (DeletePendingLocalSnapshot "/.snapshots/home-2024-02-29T123456Z")).
  apply list_elem_of_here.
Defined.

(** When the source's snapshot directory is configured with a trailing
    separator, recovery never recognises a marker of a snapshot made in it: the
    marker is cleared and whatever the interrupted run left stays. *)
Theorem trailing_separator_disables_recovery (dir : LocalSnapshotRoot) source_id state_dir
    remote_dir m pending remotes keep_failed nm :
  pp_trail (pp_parse (abs_value dir)) = true -> plain_component nm ->
  pm_local_snapshot_path m = path_append (abs_value dir) nm ->
  effects (plan_pending_recovery source_id state_dir (abs_value dir) remote_dir (Some m) pending
    remotes keep_failed)
  = [ClearPendingMarker (path_append state_dir ("pending-" +:+ id_value source_id))].
Proof.
  intros Ht Hn Hm. unfold plan_pending_recovery.
  assert (marker_path_is_valid m source_id (abs_value dir) remote_dir = false) as ->; [|done].
  unfold marker_path_is_valid. rewrite Hm. case_match; [done|].
  assert (path_is_within (lexically_normal (path_append (abs_value dir) nm)) (abs_value dir) = false)
    as ->; [|done].
  assert (Hl : Forall plain_component [nm]) by (by rewrite Forall_singleton).
  destruct (path_append_abs dir [nm]) as [Hok _]; [done|done|].
  cbn [join_slash] in Hok. rewrite abs_path_ok_normal by done.
  pose proof (path_is_within_append dir [nm] Hl) as Hw. cbn [join_slash] in Hw. rewrite Hw by done.
  by rewrite Ht.
Qed.

Lemma trailing_separator_disables_recovery_witness :
  let dir : LocalSnapshotRoot := @mkAbs KLocalSnapshotRoot "/.snapshots/" I in
  make_abs KLocalSnapshotRoot "/.snapshots/" = Ok dir /\
  effects (plan_pending_recovery home_source "/var/lib/btrfs-backup/profiles/main" (abs_value dir)
    "/mnt/target/snapshots/home" (Some sample_marker) (Some sample_pending) [] false)
  = [ClearPendingMarker "/var/lib/btrfs-backup/profiles/main/pending-home"].
Proof.
  cbv zeta. split; [reflexivity|].
  apply (trailing_separator_disables_recovery (@mkAbs KLocalSnapshotRoot "/.snapshots/" I)
    home_source "/var/lib/btrfs-backup/profiles/main" "/mnt/target/snapshots/home"
    sample_marker (Some sample_pending) [] false "home-2024-02-29T123456Z");
    [reflexivity|split_and!; done|reflexivity].
Defined.
