(* ===== verification/RunActions.v ===== *)
(** * Actions, events and results of a run (src/backup/model)

    The data that planning, execution and the service exchange:
    BackupRunAction(s), BackupRunCheckpoint, BackupRunEvent, BackupRunExecution
    and the requests and results of BackupExecution. *)

From S2P Require Import Prelude Errors Identifiers RuntimeTime FsPath ConfigDomain.
From S2P Require Import SnapshotInventory RetentionPlan PendingRecovery.

Open Scope Z_scope.

(** src/backup/model/BackupRunAction.hpp:9-21 *)
Inductive BackupRunActionKind :=
| RecoverPending
| CleanupIncoming
| BeforeSnapshotHook
| CreateSnapshot
| AfterSnapshotHook
| SendReceive
| VerifyReceived
| CommitReceived
| ApplyRemoteRetention
| ApplyLocalRetention
| CleanupSource.

Global Instance BackupRunActionKind_eq_dec : EqDecision BackupRunActionKind.
Proof. solve_decision. Defined.

(** src/backup/model/BackupRunActions.hpp:38-39 *)
Inductive HookPhase := BeforeSnapshot | AfterSnapshot.

(** One constructor per alternative of the variant, with the members of the
    alternative. src/backup/model/BackupRunActions.hpp:20-181 *)
Inductive BackupRunAction :=
| RecoverPendingAction (source_id : SourceId) (recovery : PendingRecoveryPlan)
| CleanupIncomingAction (source_id : SourceId) (incoming_directory : path)
| RunHookAction (source_id : SourceId) (phase : HookPhase) (hook : ProfileHookCommand)
| CreateSnapshotAction (source_id : SourceId) (source snapshot_directory snapshot
    final_remote_snapshot profile_state_directory : path) (run_id : RunId)
| SendReceiveAction (source_id : SourceId) (snapshot : path) (parent : option path)
    (remote_snapshot_directory incoming_run_directory : path)
| VerifyReceivedAction (source_id : SourceId) (local_snapshot received_snapshot : path)
| CommitReceivedAction (source_id : SourceId) (local_snapshot received_snapshot
    final_snapshot : path)
| ApplyRemoteRetentionAction (source_id : SourceId) (plan : RetentionPlan)
| ApplyLocalRetentionAction (source_id : SourceId) (plan : RetentionPlan)
| CleanupSourceAction (source_id : SourceId) (received_snapshot incoming_run_directory
    pending_marker profile_state_directory : path).

(** src/backup/model/BackupRunActions.cpp:11-39 *)
Definition backup_run_action_kind (action : BackupRunAction) : BackupRunActionKind :=
  match action with
  | RecoverPendingAction _ _ => RecoverPending
  | CleanupIncomingAction _ _ => CleanupIncoming
  | RunHookAction _ BeforeSnapshot _ => BeforeSnapshotHook
  | RunHookAction _ AfterSnapshot _ => AfterSnapshotHook
  | CreateSnapshotAction _ _ _ _ _ _ _ => CreateSnapshot
  | SendReceiveAction _ _ _ _ _ => SendReceive
  | VerifyReceivedAction _ _ _ => VerifyReceived
  | CommitReceivedAction _ _ _ _ => CommitReceived
  | ApplyRemoteRetentionAction _ _ => ApplyRemoteRetention
  | ApplyLocalRetentionAction _ _ => ApplyLocalRetention
  | CleanupSourceAction _ _ _ _ _ => CleanupSource
  end.

(** src/backup/model/BackupRunActions.cpp:41-46 *)
Definition backup_run_action_source_id (action : BackupRunAction) : SourceId :=
  match action with
  | RecoverPendingAction s _ | CleanupIncomingAction s _ | RunHookAction s _ _
  | CreateSnapshotAction s _ _ _ _ _ _ | SendReceiveAction s _ _ _ _
  | VerifyReceivedAction s _ _ | CommitReceivedAction s _ _ _
  | ApplyRemoteRetentionAction s _ | ApplyLocalRetentionAction s _
  | CleanupSourceAction s _ _ _ _ => s
  end.

(** src/backup/model/BackupRunCheckpoint.hpp:12-17 *)
Record BackupRunCheckpoint := mkCheckpoint {
  cp_profile_id : ProfileId;
  cp_run_id : RunId;
  cp_source_id : SourceId;
  cp_action_kind : BackupRunActionKind;
}.

(** src/backup/model/BackupRunEvent.hpp:34-38 *)
Inductive OperationKind := Backup | TargetValidation | PlanningOperation.

(** src/backup/model/BackupRunEvent.hpp:61-64 *)
Inductive BackupTransferStage := Sizing | Transferring.

(** The members of TransferProgress after the source index.
    src/backup/model/BackupRunEvent.hpp:66-80 *)
Record TransferProgressData := mkProgress {
  tp_stage : BackupTransferStage;
  tp_bytes_transferred : Z;
  tp_bytes_produced : Z;
  tp_bytes_total_estimated : Z;
  tp_run_bytes_transferred : Z;
  tp_delta_bytes : Z;
  tp_elapsed_ms : Z;
  tp_speed_bps : Z;
  tp_message : string;
}.

(** src/backup/model/BackupRunEvent.hpp:40-156 *)
Inductive BackupRunEvent :=
| RunStarted (p : ProfileId) (r : RunId) (operation_kind : OperationKind)
| SourceStarted (p : ProfileId) (r : RunId) (s : SourceId) (source_index : Z)
| ActionStarted (p : ProfileId) (r : RunId) (s : SourceId) (source_index : Z)
    (kind : BackupRunActionKind)
| TransferProgress (p : ProfileId) (r : RunId) (s : SourceId) (source_index : Z)
    (progress : TransferProgressData)
| ActionCompleted (p : ProfileId) (r : RunId) (s : SourceId) (source_index : Z)
    (kind : BackupRunActionKind)
| ActionFailed (p : ProfileId) (r : RunId) (s : SourceId) (source_index : Z)
    (kind : BackupRunActionKind) (code : option ErrorCode) (msg : string)
| CheckpointWritten (p : ProfileId) (r : RunId) (s : SourceId) (source_index : Z)
    (kind : BackupRunActionKind)
| SourceCompleted (p : ProfileId) (r : RunId) (s : SourceId) (source_index : Z)
| TargetValidationCompleted (p : ProfileId) (r : RunId)
| RunCompleted (p : ProfileId) (r : RunId)
| RunFailed (p : ProfileId) (r : RunId) (code : ErrorCode) (msg : string)
    (operation_kind : OperationKind)
| RunCancelled (p : ProfileId) (r : RunId) (s : option SourceId) (source_index : Z)
    (kind : option BackupRunActionKind) (code : option ErrorCode) (msg : string)
    (operation_kind : OperationKind).

(** src/backup/model/BackupRunEvent.hpp:19-32 *)
Inductive BackupRunEventKind :=
| KindRunStarted | KindSourceStarted | KindActionStarted | KindTransferProgress
| KindActionCompleted | KindActionFailed | KindCheckpointWritten | KindSourceCompleted
| KindTargetValidationCompleted | KindRunCompleted | KindRunFailed | KindRunCancelled.

(** src/backup/model/BackupRunEvent.hpp:158-186 *)
Definition backup_run_event_kind (event : BackupRunEvent) : BackupRunEventKind :=
  match event with
  | RunStarted _ _ _ => KindRunStarted
  | SourceStarted _ _ _ _ => KindSourceStarted
  | ActionStarted _ _ _ _ _ => KindActionStarted
  | TransferProgress _ _ _ _ _ => KindTransferProgress
  | ActionCompleted _ _ _ _ _ => KindActionCompleted
  | ActionFailed _ _ _ _ _ _ _ => KindActionFailed
  | CheckpointWritten _ _ _ _ _ => KindCheckpointWritten
  | SourceCompleted _ _ _ _ => KindSourceCompleted
  | TargetValidationCompleted _ _ => KindTargetValidationCompleted
  | RunCompleted _ _ => KindRunCompleted
  | RunFailed _ _ _ _ _ => KindRunFailed
  | RunCancelled _ _ _ _ _ _ _ _ => KindRunCancelled
  end.

(** src/backup/model/BackupRunEvent.hpp:188-193 *)
Definition backup_run_event_profile_id (event : BackupRunEvent) : ProfileId :=
  match event with
  | RunStarted p _ _ | SourceStarted p _ _ _ | ActionStarted p _ _ _ _
  | TransferProgress p _ _ _ _ | ActionCompleted p _ _ _ _ | ActionFailed p _ _ _ _ _ _
  | CheckpointWritten p _ _ _ _ | SourceCompleted p _ _ _ | TargetValidationCompleted p _
  | RunCompleted p _ | RunFailed p _ _ _ _ | RunCancelled p _ _ _ _ _ _ _ => p
  end.

(** src/backup/model/BackupRunEvent.hpp:195-200 *)
Definition backup_run_event_run_id (event : BackupRunEvent) : RunId :=
  match event with
  | RunStarted _ r _ | SourceStarted _ r _ _ | ActionStarted _ r _ _ _
  | TransferProgress _ r _ _ _ | ActionCompleted _ r _ _ _ | ActionFailed _ r _ _ _ _ _
  | CheckpointWritten _ r _ _ _ | SourceCompleted _ r _ _ | TargetValidationCompleted _ r
  | RunCompleted _ r | RunFailed _ r _ _ _ | RunCancelled _ r _ _ _ _ _ _ => r
  end.

(** src/backup/model/BackupRunEvent.hpp:202-214 *)
Definition backup_run_event_source_id (event : BackupRunEvent) : option SourceId :=
  match event with
  | RunStarted _ _ _ | TargetValidationCompleted _ _ | RunCompleted _ _ | RunFailed _ _ _ _ _ => None
  | RunCancelled _ _ s _ _ _ _ _ => s
  | SourceStarted _ _ s _ | ActionStarted _ _ s _ _ | TransferProgress _ _ s _ _
  | ActionCompleted _ _ s _ _ | ActionFailed _ _ s _ _ _ _ | CheckpointWritten _ _ s _ _
  | SourceCompleted _ _ s _ => Some s
  end.

(** src/backup/model/BackupRunEvent.hpp:216-226 *)
Definition backup_run_event_source_index (event : BackupRunEvent) : Z :=
  match event with
  | RunStarted _ _ _ | TargetValidationCompleted _ _ | RunCompleted _ _ | RunFailed _ _ _ _ _ => 0
  | SourceStarted _ _ _ i | ActionStarted _ _ _ i _ | TransferProgress _ _ _ i _
  | ActionCompleted _ _ _ i _ | ActionFailed _ _ _ i _ _ _ | CheckpointWritten _ _ _ i _
  | SourceCompleted _ _ _ i | RunCancelled _ _ _ i _ _ _ _ => i
  end.

(** src/backup/model/BackupRunEvent.hpp:228-244 *)
Definition backup_run_event_action_kind (event : BackupRunEvent) : option BackupRunActionKind :=
  match event with
  | ActionStarted _ _ _ _ k | ActionCompleted _ _ _ _ k | ActionFailed _ _ _ _ k _ _
  | CheckpointWritten _ _ _ _ k => Some k
  | TransferProgress _ _ _ _ _ => Some SendReceive
  | RunCancelled _ _ _ _ k _ _ _ => k
  | _ => None
  end.

(** src/backup/model/BackupRunEvent.hpp:246-258 *)
Definition backup_run_event_operation_kind (event : BackupRunEvent) : OperationKind :=
  match event with
  | RunStarted _ _ o | RunFailed _ _ _ _ o | RunCancelled _ _ _ _ _ _ _ o => o
  | TargetValidationCompleted _ _ => TargetValidation
  | _ => Backup
  end.

(** The events after which a run is over. *)
Definition is_terminal (event : BackupRunEvent) : bool :=
  match event with
  | TargetValidationCompleted _ _ | RunCompleted _ _ | RunFailed _ _ _ _ _
  | RunCancelled _ _ _ _ _ _ _ _ => true
  | _ => false
  end.

(** src/backup/model/BackupRunExecution.hpp:15-32 *)
Inductive BackupRunExecutionResult :=
| BackupRunExecutionCompleted (actions_completed : Z)
| BackupRunExecutionCancelled (actions_completed : Z)
| BackupRunExecutionFailed (code : ErrorCode) (msg : string) (actions_completed : Z).

(** src/backup/model/BackupRunPlan.hpp:20-30 *)
Record BackupSourceRunPlan := mkSourcePlan {
  plan_source_id : SourceId;
  actions : list BackupRunAction;
}.

(** src/backup/model/BackupRunPlan.hpp:32-37 *)
Record BackupRunPlan := mkRunPlan {
  plan_profile_id : ProfileId;
  plan_run_id : RunId;
  target_mount_point : path;
  plan_sources : list BackupSourceRunPlan;
}.

(** src/backup/model/BackupExecution.hpp:18-22 *)
Inductive BackupCompletionWarningComponent :=
| SuccessLedger | TerminalStatus | TargetStorageMeasurementWarning.

(** src/backup/model/BackupExecution.hpp:24-28 *)
Record BackupCompletionWarning := mkWarning {
  warn_component : BackupCompletionWarningComponent;
  warn_code : ErrorCode;
  warn_message : string;
}.

(** src/backup/model/BackupExecution.hpp:30-34 *)
Record BackupRequest := mkBackupRequest {
  req_profile_id : ProfileId;
  force : bool;
  validate_only : bool;
}.

(** src/backup/model/BackupExecution.hpp:36-39 *)
Record BackupPlanRequest := mkPlanRequest {
  preq_profile_id : ProfileId;
  mount_target : bool;
}.

(** src/backup/model/BackupExecution.hpp:41-44 *)
Record CancellationRequest := mkCancellationRequest {
  creq_profile_id : ProfileId;
  creq_run_id : RunId;
}.

(** src/backup/model/BackupExecution.hpp:46-50 *)
Inductive CancellationRequestOutcome := Accepted | StaleRun | RunMismatch.

(** src/backup/model/BackupExecution.hpp:52-67 *)
Inductive CancelBackupResult :=
| CancellationAccepted (p : ProfileId) (r : RunId)
| CancellationStaleRun (p : ProfileId) (r : RunId)
| CancellationRunMismatch (p : ProfileId) (r : RunId).

(** src/backup/model/BackupExecution.hpp:69-109 *)
Inductive BackupExecutionResult :=
| BackupExecutionCompleted (plan : BackupRunPlan) (actions_completed : Z)
    (warnings : list BackupCompletionWarning)
| BackupExecutionSkipped (plan : BackupRunPlan)
| BackupExecutionCancelled (plan : BackupRunPlan) (actions_completed : Z)
| BackupExecutionBusy (p : ProfileId) (r : RunId) (code : ErrorCode) (msg : string)
| BackupExecutionValidated (plan : BackupRunPlan)
| BackupExecutionFailed (p : ProfileId) (r : RunId) (code : ErrorCode) (msg : string)
    (actions_completed : Z).
