(* ===== verification/BackupRunPlan.v ===== *)
(** * Building the run plan (src/backup/model/BackupRunPlan)

    From the profile and what discovery found, the actions of every enabled
    source in the order in which they will run. *)

From S2P Require Import Prelude Errors Identifiers RuntimeTime FsPath ConfigDomain.
From S2P Require Import SnapshotInventory IncrementalParent RetentionPlan PendingRecovery RunActions.

Open Scope Z_scope.

(** ** BackupPlanningSnapshot *)

(** src/backup/model/BackupPlanningSnapshot.hpp:18-18 *)
Abbreviation SnapshotInventoryBySource := (gmap SourceId (list SnapshotInfo)).
(** src/backup/model/BackupPlanningSnapshot.hpp:19-19 *)
Abbreviation PendingMarkerBySource := (gmap SourceId (option PendingMarker)).
(** src/backup/model/BackupPlanningSnapshot.hpp:20-20 *)
Abbreviation PendingSnapshotBySource := (gmap SourceId (option SnapshotMetadata)).

(** src/backup/model/BackupPlanningSnapshot.hpp:22-44 *)
Record BackupPlanningSnapshot := mkPlanning {
  local_inventory : SnapshotInventoryBySource;
  remote_inventory : SnapshotInventoryBySource;
  pending_markers : PendingMarkerBySource;
  pending_snapshots : PendingSnapshotBySource;
  planning_state_dir : path;
}.

(** ** BackupRunPlan.cpp *)

(** src/backup/model/BackupRunPlan.cpp:24-31 *)
Definition snapshots_for (inventories : SnapshotInventoryBySource) (source_id : SourceId)
    : list SnapshotInfo :=
  default [] (inventories !! source_id).

(** src/backup/model/BackupRunPlan.cpp:33-39 *)
Definition pending_marker_for (markers : PendingMarkerBySource) (source_id : SourceId)
    : option PendingMarker :=
  match markers !! source_id with Some found => found | None => None end.

(** src/backup/model/BackupRunPlan.cpp:41-47 *)
Definition pending_snapshot_for (snapshots : PendingSnapshotBySource) (source_id : SourceId)
    : option SnapshotMetadata :=
  match snapshots !! source_id with Some found => found | None => None end.

(** src/backup/model/BackupRunPlan.cpp:49-56 *)
Definition name_exists (snapshots : list SnapshotInfo) (nm : string) : bool :=
  existsb (λ s, String.eqb (name s) nm) snapshots.

(** The loop over the sequence numbers: [fuel] is the number of rounds left of
    the 99. src/backup/model/BackupRunPlan.cpp:70-77 *)
Fixpoint allocate_sequence (fuel : nat) (seq : Z) (base : string)
    (local_snapshots : list SnapshotInfo) : option string :=
  match fuel with
  | O => None
  | S fuel =>
      let candidate := base +:+ "-" +:+ setw0 2 seq in
      if negb (name_exists local_snapshots candidate) then Some candidate
      else allocate_sequence fuel (seq + 1) base local_snapshots
  end.

(** src/backup/model/BackupRunPlan.cpp:58-80 *)
Definition planned_snapshot_name (source_id : SourceId) (ts : RuntimeTimePoint)
    (local_snapshots : list SnapshotInfo) : res string :=
  let timestamp_text := format_utc_snapshot_timestamp ts in
  let base := id_value source_id +:+ "-" +:+ timestamp_text in
  if negb (name_exists local_snapshots base) then Ok base
  else
    match allocate_sequence 99 1 base local_snapshots with
    | Some candidate => Ok candidate
    | None => Throw (ValidationError ("could not allocate snapshot name for "
                       +:+ id_value source_id +:+ " at " +:+ timestamp_text))
    end.

(** src/backup/model/BackupRunPlan.cpp:82-104 *)
Definition projected_snapshot (sd : SnapshotSide) (source_id : SourceId) (nm : string)
    (ts : RuntimeTimePoint) (p : path) : res SnapshotInfo :=
  match parse_snapshot_name nm source_id with
  | None => Throw (ValidationError ("planned snapshot name is invalid: " +:+ nm))
  | Some parsed =>
      Ok (mkSnapshot sd source_id nm ts (sn_sequence parsed) p true (mkUuid "") (mkReceived ""))
  end.

(** The checks of the constructor; [singleton_actions] is the set built so far.
    src/backup/model/BackupRunPlan.cpp:112-124 *)
Fixpoint validate_source_actions (source_id : SourceId) (acts : list BackupRunAction)
    (singleton_actions : list BackupRunActionKind) : res unit :=
  match acts with
  | [] => Ok tt
  | action :: rest =>
      if negb (id_eqb (backup_run_action_source_id action) source_id)
      then Throw (ValidationError "backup source plan contains an action for a different source")
      else
        let kind := backup_run_action_kind action in
        if (bool_decide (kind = BeforeSnapshotHook) || bool_decide (kind = AfterSnapshotHook))%bool
        then validate_source_actions source_id rest singleton_actions
        else if bool_decide (kind ∈ singleton_actions)
        then Throw (ValidationError "backup source plan contains a duplicate action kind")
        else validate_source_actions source_id rest (kind :: singleton_actions)
  end.

(** src/backup/model/BackupRunPlan.cpp:110-125 *)
Definition make_source_run_plan (source_id : SourceId) (acts : list BackupRunAction)
    : res BackupSourceRunPlan :=
  _ ← validate_source_actions source_id acts [];
  Ok (mkSourcePlan source_id acts).

(** src/backup/model/BackupRunPlan.cpp:133-142 *)
Record SourcePlanContext := mkSourcePlanContext {
  ctx_profile : Profile;
  ctx_local_inventory : SnapshotInventoryBySource;
  ctx_remote_inventory : SnapshotInventoryBySource;
  ctx_pending_markers : PendingMarkerBySource;
  ctx_pending_snapshots : PendingSnapshotBySource;
  ctx_profile_state_dir : path;
  ctx_run_id : RunId;
  ctx_snapshot_timestamp : RuntimeTimePoint;
}.

(** src/backup/model/BackupRunPlan.cpp:144-152 *)
Record PlannedSourcePaths := mkPlannedPaths {
  remote_snapshot_directory : path;
  incoming_source_root : path;
  incoming_run_directory : path;
  local_snapshot : path;
  received_snapshot : path;
  final_remote_snapshot : path;
  snapshot_name : string;
}.

(** src/backup/model/BackupRunPlan.cpp:154-186 *)
Definition plan_source_paths (source : ProfileSource) (context : SourcePlanContext)
    (local_snapshots : list SnapshotInfo) : res PlannedSourcePaths :=
  let profile := ctx_profile context in
  let remote_root := abs_value (remote_root (paths profile)) in
  let incoming := abs_value (incoming_root (paths profile)) in
  let remote_directory := path_append remote_root (rel_value (remote_subdir source)) in
  let incoming_root := path_append incoming (id_value (source_id source)) in
  let incoming_run := path_append incoming_root (id_value (ctx_run_id context)) in
  let local_dir := abs_value (local_snapshot_dir source) in
  if negb (path_is_within remote_directory remote_root)
  then Throw (ValidationError ("Remote source directory escapes REMOTE_ROOT: " +:+ remote_directory))
  else if negb (path_is_within incoming_root incoming)
  then Throw (ValidationError ("Incoming source directory escapes INCOMING_ROOT: " +:+ incoming_root))
  else if path_is_within local_dir (abs_value (mount_point (target profile)))
  then Throw (ValidationError
         ("LOCAL_SNAPSHOT_DIR must not be inside the backup target: " +:+ local_dir))
  else
    nm ← planned_snapshot_name (source_id source) (ctx_snapshot_timestamp context) local_snapshots;
    Ok (mkPlannedPaths remote_directory incoming_root incoming_run (path_append local_dir nm)
          (path_append incoming_run nm) (path_append remote_directory nm) nm).

(** What recovery leaves of an inventory.
    src/backup/model/BackupRunPlan.cpp:196-209 *)
Definition surviving (current : list SnapshotInfo) (recovery : PendingRecoveryPlan)
    (sd : SnapshotSide) : list SnapshotInfo :=
  let removed_path :=
    default "" (match sd with
                | Local => pending_local_deletion recovery
                | Remote => pending_remote_deletion recovery
                end) in
  if negb (str_empty removed_path)
  then List.filter (λ s, negb (path_eqb (snap_path s) removed_path)) current
  else current.

Definition projected_path (sd : SnapshotSide) (paths : PlannedSourcePaths) : path :=
  match sd with Local => local_snapshot paths | Remote => final_remote_snapshot paths end.

(** src/backup/model/BackupRunPlan.cpp:188-215 *)
Definition projected_snapshots (current : list SnapshotInfo) (recovery : PendingRecoveryPlan)
    (sd : SnapshotSide) (source_id : SourceId) (paths : PlannedSourcePaths)
    (ts : RuntimeTimePoint) : res (list SnapshotInfo) :=
  snapshot ← projected_snapshot sd source_id (snapshot_name paths) ts (projected_path sd paths);
  Ok (surviving current recovery sd ++ [snapshot]).

(** src/backup/model/BackupRunPlan.cpp:217-276 *)
Definition ordered_source_actions (source : ProfileSource) (context : SourcePlanContext)
    (paths : PlannedSourcePaths) (recovery : PendingRecoveryPlan)
    (parent : IncrementalParentSelection) (local_retention remote_retention : RetentionPlan)
    : list BackupRunAction :=
  let source_id := source_id source in
  let hooks := hooks (ctx_profile context) in
  let parent_path :=
    match parent with
    | IncrementalTransfer local_parent _ => Some (snap_path local_parent)
    | FullTransfer => None
    end in
  (if recovery_required recovery then [RecoverPendingAction source_id recovery] else [])
  ++ [CleanupIncomingAction source_id (incoming_source_root paths)]
  ++ map (RunHookAction source_id BeforeSnapshot) (before_snapshot hooks)
  ++ [CreateSnapshotAction source_id (abs_value (subvolume source))
        (abs_value (local_snapshot_dir source)) (local_snapshot paths)
        (final_remote_snapshot paths) (ctx_profile_state_dir context) (ctx_run_id context)]
  ++ map (RunHookAction source_id AfterSnapshot) (after_snapshot hooks)
  ++ [SendReceiveAction source_id (local_snapshot paths) parent_path
        (remote_snapshot_directory paths) (incoming_run_directory paths);
      VerifyReceivedAction source_id (local_snapshot paths) (received_snapshot paths);
      CommitReceivedAction source_id (local_snapshot paths) (received_snapshot paths)
        (final_remote_snapshot paths);
      ApplyRemoteRetentionAction source_id remote_retention;
      ApplyLocalRetentionAction source_id local_retention;
      CleanupSourceAction source_id (received_snapshot paths) (incoming_run_directory paths)
        (marker_path recovery) (ctx_profile_state_dir context)].

(** The recovery plan of the source.
    src/backup/model/BackupRunPlan.cpp:293-302 *)
Definition source_recovery (source : ProfileSource) (context : SourcePlanContext)
    (paths : PlannedSourcePaths) : PendingRecoveryPlan :=
  plan_pending_recovery (source_id source) (ctx_profile_state_dir context)
    (abs_value (local_snapshot_dir source)) (remote_snapshot_directory paths)
    (pending_marker_for (ctx_pending_markers context) (source_id source))
    (pending_snapshot_for (ctx_pending_snapshots context) (source_id source))
    (snapshots_for (ctx_remote_inventory context) (source_id source))
    (keep_failed_local_snapshot (settings (ctx_profile context))).

(** src/backup/model/BackupRunPlan.cpp:278-325 *)
Definition build_source_run_plan (source : ProfileSource) (context : SourcePlanContext)
    : res BackupSourceRunPlan :=
  let local := snapshots_for (ctx_local_inventory context) (source_id source) in
  let remote := snapshots_for (ctx_remote_inventory context) (source_id source) in
  let settings := settings (ctx_profile context) in
  paths ← plan_source_paths source context local;
  parent ← select_incremental_parent (source_id source) local remote
             (Some (local_snapshot paths)) (incremental_required settings);
  let recovery := source_recovery source context paths in
  projected_local ← projected_snapshots local recovery Local (source_id source) paths
                      (ctx_snapshot_timestamp context);
  let local_retention := plan_count_retention (source_id source) projected_local
    (retention_value (local_retention source)) in
  projected_remote ← projected_snapshots remote recovery Remote (source_id source) paths
                       (ctx_snapshot_timestamp context);
  let remote_retention := plan_count_retention (source_id source) projected_remote
    (retention_value (remote_retention source)) in
  make_source_run_plan (source_id source)
    (ordered_source_actions source context paths recovery parent local_retention remote_retention).

(** The loop over the sources; [seen_sources] is the set built so far.
    src/backup/model/BackupRunPlan.cpp:356-365 *)
Fixpoint build_sources (context : SourcePlanContext) (srcs : list ProfileSource)
    (seen_sources : gset SourceId) : res (list BackupSourceRunPlan) :=
  match srcs with
  | [] => Ok []
  | source :: rest =>
      if negb (source_enabled source) then build_sources context rest seen_sources
      else if bool_decide (source_id source ∈ seen_sources)
      then Throw (ValidationError ("duplicate source id in backup run plan: "
                    +:+ id_value (source_id source)))
      else
        plan ← build_source_run_plan source context;
        plans ← build_sources context rest ({[ source_id source ]} ∪ seen_sources);
        Ok (plan :: plans)
  end.

(** src/backup/model/BackupRunPlan.cpp:329-368 *)
Definition build_backup_run_plan (profile : Profile)
    (local_inv remote_inv : SnapshotInventoryBySource)
    (markers : PendingMarkerBySource) (pendings : PendingSnapshotBySource)
    (state_dir : path) (run_id : RunId) (snapshot_timestamp : RuntimeTimePoint)
    : res BackupRunPlan :=
  let context := mkSourcePlanContext profile local_inv remote_inv markers pendings state_dir
    run_id snapshot_timestamp in
  plans ← build_sources context (sources profile) ∅;
  Ok (mkRunPlan (profile_id profile) run_id (abs_value (mount_point (target profile))) plans).

(** ** Snapshot names *)

Lemma name_exists_spec l nm : name_exists l nm = true <-> exists s, s ∈ l /\ name s = nm.
Proof.
  unfold name_exists. rewrite existsb_exists. setoid_rewrite list_elem_of_In.
  setoid_rewrite String.eqb_eq. done.
Qed.

Lemma allocate_sequence_spec fuel seq base locals :
  match allocate_sequence fuel seq base locals with
  | Some nm => exists n, seq <= n < seq + Z.of_nat fuel /\ nm = base +:+ "-" +:+ setw0 2 n /\
                 name_exists locals nm = false
  | None => forall n, seq <= n < seq + Z.of_nat fuel ->
              name_exists locals (base +:+ "-" +:+ setw0 2 n) = true
  end.
Proof.
  revert seq. induction fuel as [|fuel IH]; intros seq; cbn [allocate_sequence]; [lia|].
  destruct (name_exists locals (base +:+ "-" +:+ setw0 2 seq)) eqn:E; cbn [negb].
  - specialize (IH (seq + 1)). destruct (allocate_sequence fuel (seq + 1) base locals).
    + destruct IH as (n & Hn & ?). exists n. split; [lia|done].
    + intros n Hn. destruct (decide (n = seq)) as [->|]; [done|]. apply IH. lia.
  - exists seq. split; [lia|done].
Qed.

Lemma planned_snapshot_name_Ok source ts locals nm :
  representable ts -> planned_snapshot_name source ts locals = Ok nm ->
  name_exists locals nm = false /\
  exists n, 0 <= n <= 99 /\
    parse_snapshot_name nm source = Some (mkSnapshotName source (ts / ns_per_s * ns_per_s) n nm).
Proof.
  intros Hts. unfold planned_snapshot_name. cbv zeta.
  pose proof (snapshot_timestamp_parses ts Hts) as Hp.
  pose proof (format_utc_snapshot_length ts Hts) as Hl.
  destruct (name_exists locals _) eqn:E; cbn [negb].
  - pose proof (allocate_sequence_spec 99 1
      (id_value source +:+ "-" +:+ format_utc_snapshot_timestamp ts) locals) as Ha.
    destruct (allocate_sequence 99 1 _ locals) as [nm'|]; [|done]. intros [= <-].
    destruct Ha as (n & Hn & -> & Hne). split; [done|]. exists n. split; [lia|].
    rewrite !string_app_assoc. apply parse_snapshot_name_seq; [done|done|lia].
  - intros [= <-]. split; [done|]. exists 0. split; [lia|]. by apply parse_snapshot_name_base.
Qed.

(** A snapshot name is a plain path component. *)
Lemma ident_prefixed_plain {k} (i : Ident k) rest :
  str_contains "/" rest = false -> plain_component (id_value i +:+ "-" +:+ rest).
Proof.
  intros Hr. destruct (id_starts_alnum i) as (c & s & E & Hc).
  split; [|split; [|split]].
  - rewrite E. done.
  - rewrite !str_contains_app, (id_no_slash i), Hr. done.
  - rewrite E. intros [= -> _]. done.
  - rewrite E. intros [= -> _]. done.
Qed.

Lemma digits_no_slash s : str_forallb is_digit s = true -> str_contains "/" s = false.
Proof. by apply forallb_no_char. Qed.

Lemma setw0_no_slash w z :
  (0 < w)%nat -> 0 <= z < 10 ^ Z.of_nat w -> str_contains "/" (setw0 w z) = false.
Proof. intros Hw Hz. apply digits_no_slash, setw0_spec; done. Qed.

Lemma format_utc_snapshot_no_slash t :
  representable t -> str_contains "/" (format_utc_snapshot_timestamp t) = false.
Proof.
  intros Ht%representable_seconds. unfold format_utc_snapshot_timestamp, format_utc. cbv zeta.
  set (secs := t / ns_per_s) in *. clearbody secs.
  destruct (civil_from_days_ok (secs / 86400)) as [Hok Hyear]; [zdlia|].
  pose proof (last_day_bound (year (civil_from_days (secs / 86400)))
    (month (civil_from_days (secs / 86400)))) as Hlast.
  apply date_ok_spec in Hok as (_ & Hm & Hd).
  destruct (civil_from_days (secs / 86400)) as [y m d]; cbn [year month day] in *.
  rewrite !str_contains_app, !setw0_no_slash by (lia || zdlia). done.
Qed.

Lemma planned_snapshot_name_plain source ts locals nm :
  representable ts -> planned_snapshot_name source ts locals = Ok nm -> plain_component nm.
Proof.
  intros Hts. unfold planned_snapshot_name. cbv zeta.
  pose proof (format_utc_snapshot_no_slash ts Hts) as Hs.
  destruct (name_exists locals _) eqn:E; cbn [negb].
  - pose proof (allocate_sequence_spec 99 1
      (id_value source +:+ "-" +:+ format_utc_snapshot_timestamp ts) locals) as Ha.
    destruct (allocate_sequence 99 1 _ locals) as [nm'|]; [|done]. intros [= <-].
    destruct Ha as (n & Hn & -> & _). rewrite !string_app_assoc.
    apply ident_prefixed_plain. rewrite !str_contains_app, Hs, setw0_no_slash by lia. done.
  - intros [= <-]. by apply ident_prefixed_plain.
Qed.

(** ** The plan of one source *)

Lemma validate_hooks source_id phase hs rest seen :
  validate_source_actions source_id (map (RunHookAction source_id phase) hs ++ rest) seen
  = validate_source_actions source_id rest seen.
Proof.
  induction hs as [|h hs IH]; [done|]. simpl. unfold id_eqb.
  rewrite bool_decide_eq_true_2 by done. simpl. by destruct phase.
Qed.

Lemma validate_step source_id action rest seen :
  backup_run_action_source_id action = source_id ->
  bool_decide (backup_run_action_kind action = BeforeSnapshotHook) = false ->
  bool_decide (backup_run_action_kind action = AfterSnapshotHook) = false ->
  bool_decide (backup_run_action_kind action ∈ seen) = false ->
  validate_source_actions source_id (action :: rest) seen
  = validate_source_actions source_id rest (backup_run_action_kind action :: seen).
Proof.
  intros Hs Hb Ha Hk. cbn [validate_source_actions]. unfold id_eqb.
  rewrite bool_decide_eq_true_2 by done. by rewrite Hb, Ha, Hk.
Qed.

(** The checks of the constructor never refuse the plan that is built. *)
Lemma validate_ordered_actions source context ps recovery parent lr rr :
  validate_source_actions (source_id source)
    (ordered_source_actions source context ps recovery parent lr rr) [] = Ok tt.
Proof.
  unfold ordered_source_actions.
  destruct (recovery_required recovery); cbn [app];
    repeat first [rewrite validate_hooks; cbn [app] | rewrite validate_step by reflexivity]; done.
Qed.

(** A plan that is built is made of these pieces. *)
Lemma build_source_run_plan_inv source context plan :
  build_source_run_plan source context = Ok plan <->
  exists ps parent new_local new_remote,
    let locals := snapshots_for (ctx_local_inventory context) (source_id source) in
    let remotes := snapshots_for (ctx_remote_inventory context) (source_id source) in
    let recovery := source_recovery source context ps in
    let ts := ctx_snapshot_timestamp context in
    plan_source_paths source context locals = Ok ps /\
    select_incremental_parent (source_id source) locals remotes (Some (local_snapshot ps))
      (incremental_required (settings (ctx_profile context))) = Ok parent /\
    projected_snapshot Local (source_id source) (snapshot_name ps) ts (local_snapshot ps)
      = Ok new_local /\
    projected_snapshot Remote (source_id source) (snapshot_name ps) ts (final_remote_snapshot ps)
      = Ok new_remote /\
    plan = mkSourcePlan (source_id source)
      (ordered_source_actions source context ps recovery parent
         (plan_count_retention (source_id source) (surviving locals recovery Local ++ [new_local])
            (retention_value (local_retention source)))
         (plan_count_retention (source_id source) (surviving remotes recovery Remote ++ [new_remote])
            (retention_value (remote_retention source)))).
Proof.
  unfold build_source_run_plan, projected_snapshots, make_source_run_plan. cbv zeta. split.
  - intros H. res_inv. eexists _, _, _, _. split_and!; try done. 
  - intros (ps & parent & nl & nr & H1 & H2 & H3 & H4 & ->).
    rewrite H1. cbn [mbind res_bind]. rewrite H2. cbn [mbind res_bind].
    unfold projected_path. rewrite H3. cbn [mbind res_bind]. rewrite H4. cbn [mbind res_bind].
    by rewrite validate_ordered_actions.
Qed.

Lemma plan_source_paths_Ok source context locals ps :
  plan_source_paths source context locals = Ok ps ->
  let profile := ctx_profile context in
  let remote_directory :=
    path_append (abs_value (remote_root (paths profile))) (rel_value (remote_subdir source)) in
  let incoming :=
    path_append (abs_value (incoming_root (paths profile))) (id_value (source_id source)) in
  path_is_within remote_directory (abs_value (remote_root (paths profile))) = true /\
  path_is_within incoming (abs_value (incoming_root (paths profile))) = true /\
  path_is_within (abs_value (local_snapshot_dir source))
    (abs_value (mount_point (target profile))) = false /\
  exists nm, planned_snapshot_name (source_id source) (ctx_snapshot_timestamp context) locals = Ok nm /\
    ps = mkPlannedPaths remote_directory incoming
           (path_append incoming (id_value (ctx_run_id context)))
           (path_append (abs_value (local_snapshot_dir source)) nm)
           (path_append (path_append incoming (id_value (ctx_run_id context))) nm)
           (path_append remote_directory nm) nm.
Proof.
  unfold plan_source_paths. cbv zeta. case_match eqn:E1; [done|]. case_match eqn:E2; [done|].
  case_match eqn:E3; [done|]. breflect. intros H. res_inv. split_and!; try done. by eexists.
Qed.

(** ** Where the planned paths lie *)

(** A path in normal form that ends in a filename (or is the root). *)
Definition plain_dir (p : path) : Prop :=
  abs_path_ok p = true /\ pp_trail (pp_parse p) = false.

Lemma plain_dir_append p nm :
  plain_dir p -> plain_component nm ->
  plain_dir (path_append p nm) /\ path_is_within (path_append p nm) p = true.
Proof.
  intros [Hok Ht] Hn. pose proof Hok as HI. apply Is_true_true in HI.
  assert (Hl : Forall plain_component [nm]) by (by rewrite Forall_singleton).
  destruct (path_append_abs (@mkAbs KRemoteSnapshotRoot p HI) [nm] Hl ltac:(done)) as [H1 H2].
  pose proof (path_is_within_append (@mkAbs KRemoteSnapshotRoot p HI) [nm] Hl ltac:(done)) as H3.
  cbn [join_slash abs_value] in *. rewrite Ht in H3. split; [|done]. split; [done|].
  by rewrite H2.
Qed.

Lemma within_plain_dir {k} (base : AbsPath k) l :
  Forall plain_component l -> l <> [] ->
  path_is_within (path_append (abs_value base) (join_slash l)) (abs_value base) = true ->
  plain_dir (path_append (abs_value base) (join_slash l)).
Proof.
  intros Hl Hne _. destruct (path_append_abs base l Hl Hne) as [H1 H2].
  split; [done|]. by rewrite H2.
Qed.

Lemma plan_source_paths_dirs source context locals ps :
  representable (ctx_snapshot_timestamp context) ->
  plan_source_paths source context locals = Ok ps ->
  plain_dir (remote_snapshot_directory ps) /\ plain_dir (incoming_source_root ps) /\
  plain_dir (incoming_run_directory ps) /\ plain_component (snapshot_name ps) /\
  path_is_within (incoming_run_directory ps) (incoming_source_root ps) = true /\
  path_is_within (received_snapshot ps) (incoming_run_directory ps) = true /\
  path_is_within (final_remote_snapshot ps) (remote_snapshot_directory ps) = true.
Proof.
  intros Hts H. apply plan_source_paths_Ok in H as (Hr & Hi & _ & nm & Hnm & ->).
  apply planned_snapshot_name_plain in Hnm; [|done].
  cbn [remote_snapshot_directory incoming_source_root incoming_run_directory snapshot_name
    received_snapshot final_remote_snapshot].
  destruct (rel_value_names (remote_subdir source)) as (l & Hl & Hne & El). rewrite El in *.
  assert (H1 := within_plain_dir _ l Hl Hne Hr).
  assert (H2 : plain_dir (path_append (abs_value (incoming_root (paths (ctx_profile context))))
                            (id_value (source_id source)))).
  { apply (within_plain_dir _ [id_value (source_id source)]); [|done|done].
    rewrite Forall_singleton. apply ident_component. }
  destruct (plain_dir_append _ (id_value (ctx_run_id context)) H2 (ident_component _)) as [H3 H4].
  destruct (plain_dir_append _ nm H3 Hnm). destruct (plain_dir_append _ nm H1 Hnm). done.
Qed.

(** The directories and snapshots a source plan writes to lie where they
    should: the final snapshot in the source's directory under the remote root,
    the received one in the run's directory under the incoming root, and the
    local snapshot directory outside the target. *)
Theorem planned_paths_contained source context locals ps :
  representable (ctx_snapshot_timestamp context) ->
  plan_source_paths source context locals = Ok ps ->
  let profile := ctx_profile context in
  path_is_within (final_remote_snapshot ps) (remote_snapshot_directory ps) = true /\
  path_is_within (final_remote_snapshot ps) (abs_value (remote_root (paths profile))) = true /\
  path_is_within (received_snapshot ps) (incoming_run_directory ps) = true /\
  path_is_within (received_snapshot ps) (abs_value (incoming_root (paths profile))) = true /\
  path_is_within (abs_value (local_snapshot_dir source))
    (abs_value (mount_point (target profile))) = false /\
  local_snapshot ps = path_append (abs_value (local_snapshot_dir source)) (snapshot_name ps) /\
  filename (final_remote_snapshot ps) = filename (local_snapshot ps).
Proof.
  intros Hts H. pose proof (plan_source_paths_dirs _ _ _ _ Hts H)
    as (Hd & _ & _ & Hn & Hrun & Hrec & Hfin).
  apply plan_source_paths_Ok in H as (Hr & Hi & Hm & nm & Hnm & ->). cbv zeta.
  cbn [remote_snapshot_directory incoming_source_root incoming_run_directory snapshot_name
    received_snapshot final_remote_snapshot local_snapshot] in *.
  split_and!; try done.
  - by eapply path_is_within_trans.
  - eapply path_is_within_trans; [done|]. by eapply path_is_within_trans.
  - rewrite !filename_append by (by apply plain_is_name). done.
Qed.

(** The name given to a new snapshot is not in the local inventory, is a
    plain path component, and parses back to the source and the second of its
    timestamp; allocation fails only when the base name and all 99 numbered
    names of that second are taken. *)
Theorem planned_snapshot_name_spec source ts locals :
  representable ts ->
  match planned_snapshot_name source ts locals with
  | Ok nm =>
      (forall s, s ∈ locals -> name s <> nm) /\ plain_component nm /\
      exists n, 0 <= n <= 99 /\
        parse_snapshot_name nm source
        = Some (mkSnapshotName source (ts / ns_per_s * ns_per_s) n nm)
  | Throw e =>
      is_validation_error e = true /\
      let base := id_value source +:+ "-" +:+ format_utc_snapshot_timestamp ts in
      (exists s, s ∈ locals /\ name s = base) /\
      forall n, 1 <= n <= 99 -> exists s, s ∈ locals /\ name s = base +:+ "-" +:+ setw0 2 n
  end.
Proof.
  intros Hts. destruct (planned_snapshot_name source ts locals) as [nm|e] eqn:E.
  - destruct (planned_snapshot_name_Ok _ _ _ _ Hts E) as [Hne Hp].
    split; [|split; [by eapply planned_snapshot_name_plain|done]].
    intros s Hs Hnm. rewrite (proj2 (name_exists_spec locals nm)) in Hne; [done|by exists s].
  - revert E. unfold planned_snapshot_name. cbv zeta.
    destruct (name_exists locals _) eqn:Eb; cbn [negb]; [|done].
    pose proof (allocate_sequence_spec 99 1
      (id_value source +:+ "-" +:+ format_utc_snapshot_timestamp ts) locals) as Ha.
    destruct (allocate_sequence 99 1 _ locals); [done|]. intros [= <-].
    split; [done|]. split; [by apply name_exists_spec|].
    intros n Hn. apply name_exists_spec, Ha. lia.
Qed.

(** ** The actions of a source *)

(** The kinds of the actions of a source, in order. *)
Definition source_action_kinds (recover : bool) (hs : ProfileHooks) : list BackupRunActionKind :=
  (if recover then [RecoverPending] else []) ++ [CleanupIncoming]
  ++ replicate (length (before_snapshot hs)) BeforeSnapshotHook
  ++ [CreateSnapshot]
  ++ replicate (length (after_snapshot hs)) AfterSnapshotHook
  ++ [SendReceive; VerifyReceived; CommitReceived; ApplyRemoteRetention; ApplyLocalRetention;
      CleanupSource].

Lemma map_hook_kinds s phase hs :
  map backup_run_action_kind (map (RunHookAction s phase) hs)
  = replicate (length hs) (match phase with BeforeSnapshot => BeforeSnapshotHook
                                          | AfterSnapshot => AfterSnapshotHook end).
Proof. induction hs as [|h hs IH]; [done|]. simpl. rewrite IH. by destruct phase. Qed.

Lemma ordered_actions_kinds source context ps recovery parent lr rr :
  map backup_run_action_kind (ordered_source_actions source context ps recovery parent lr rr)
  = source_action_kinds (recovery_required recovery) (hooks (ctx_profile context)).
Proof.
  unfold ordered_source_actions, source_action_kinds.
  rewrite !map_app, !map_hook_kinds. by destruct (recovery_required recovery).
Qed.

Lemma ordered_actions_source source context ps recovery parent lr rr a :
  a ∈ ordered_source_actions source context ps recovery parent lr rr ->
  backup_run_action_source_id a = source_id source.
Proof.
  unfold ordered_source_actions. cbv zeta. rewrite !elem_of_app.
  assert (Hh : forall ph hs, a ∈ map (RunHookAction (source_id source) ph) hs ->
    backup_run_action_source_id a = source_id source).
  { intros ph hs (h & -> & _)%list_elem_of_fmap. done. }
  intros H. destruct_or! H; try (by eapply Hh).
  - destruct (recovery_required recovery); [|by apply not_elem_of_nil in H].
    by apply list_elem_of_singleton in H as ->.
  - by apply list_elem_of_singleton in H as ->.
  - by apply list_elem_of_singleton in H as ->.
  - rewrite !elem_of_cons, elem_of_nil in H. destruct_or! H; subst; done.
Qed.

(** The actions of a source are, in this order: recovery when a marker was
    found, cleaning the incoming directory, the before-snapshot hooks, creating
    the snapshot, the after-snapshot hooks, send/receive, verification, commit,
    remote retention, local retention and cleanup, all for this source; so the
    transfer precedes the commit and both retentions follow it. *)
Theorem source_plan_order source context plan :
  build_source_run_plan source context = Ok plan ->
  plan_source_id plan = source_id source /\
  Forall (λ a, backup_run_action_source_id a = source_id source) (actions plan) /\
  map backup_run_action_kind (actions plan)
  = source_action_kinds
      (bool_decide (is_Some (pending_marker_for (ctx_pending_markers context) (source_id source))))
      (hooks (ctx_profile context)).
Proof.
  intros H. apply build_source_run_plan_inv in H as (ps & parent & nl & nr & _ & _ & _ & _ & ->).
  cbn [plan_source_id actions]. split; [done|]. split.
  - apply Forall_forall. intros a. apply ordered_actions_source.
  - rewrite ordered_actions_kinds. f_equal. unfold recovery_required, source_recovery.
    pose proof (recovery_effects_cases (source_id source) (ctx_profile_state_dir context)
      (abs_value (local_snapshot_dir source)) (remote_snapshot_directory ps)
      (pending_marker_for (ctx_pending_markers context) (source_id source))
      (pending_snapshot_for (ctx_pending_snapshots context) (source_id source))
      (snapshots_for (ctx_remote_inventory context) (source_id source))
      (keep_failed_local_snapshot (settings (ctx_profile context)))) as Hc.
    cbv zeta in Hc.
    destruct Hc as [[-> ->]|(m & -> & [->|(_ & md & _ & _ & [[-> _]|(_ & _ & [[-> _]| ->])])])]; done.
Qed.

(** ** Retention and the new snapshot *)

Lemma projected_snapshot_Ok sd source nm ts p s :
  projected_snapshot sd source nm ts p = Ok s ->
  snap_source_id s = source /\ timestamp s = ts /\ snap_path s = p /\ name s = nm /\ side s = sd.
Proof. unfold projected_snapshot. case_match; [|done]. by intros [= <-]. Qed.

Lemma projected_snapshot_parses sd source nm ts p s :
  projected_snapshot sd source nm ts p = Ok s -> is_Some (parse_snapshot_name nm source).
Proof. unfold projected_snapshot. by case_match. Qed.

Lemma oldest_first_older s s' : timestamp s < timestamp s' -> oldest_first s s' = true.
Proof. intros H. apply metadata_sort_key_less_spec. by left. Qed.

(** A snapshot whose timestamp is later than all others of the list is not
    deleted by retention. *)
Lemma newest_survives source old new count d :
  0 <= count -> snap_source_id new = source ->
  (forall s, s ∈ old -> timestamp s < timestamp new) ->
  d ∈ delete_snapshots (plan_count_retention source (old ++ [new]) count) ->
  d ∈ old /\ timestamp d < timestamp new.
Proof.
  intros Hc Hs Hold Hd. set (plan := plan_count_retention source (old ++ [new]) count) in *.
  destruct (proj1 (plan_count_retention_elem source (old ++ [new]) count d)) as [Hin _]; [by left|].
  apply elem_of_app in Hin as [Hin|Hin]; [auto|]. exfalso.
  apply list_elem_of_singleton in Hin as ->.
  assert (Hne : keep plan <> []).
  { apply plan_count_retention_keep_nonempty; [done|]. intros E. unfold plan in Hd.
    rewrite E in Hd. by apply not_elem_of_nil in Hd. }
  destruct (keep plan) as [|k ks] eqn:Ek; [done|].
  assert (Hk : k ∈ keep plan) by (rewrite Ek; left).
  assert (Hkold : k ∈ old).
  { apply list_elem_of_split in Hd as (d1 & d2 & Ed).
    pose proof (plan_count_retention_split source (old ++ [new]) count) as Hsplit.
    fold plan in Hsplit. pose proof (std_sort_perm oldest_first
      (List.filter (λ s, id_eqb (snap_source_id s) source) (old ++ [new]))) as Hp.
    rewrite <- Hsplit, Ed, Ek, List.filter_app in Hp. simpl in Hp. unfold id_eqb at 2 in Hp.
    rewrite bool_decide_eq_true_2 in Hp by done.
    rewrite <- app_assoc in Hp. simpl in Hp.
    rewrite (Permutation_app_comm _ [new]) in Hp. simpl in Hp.
    rewrite <- Permutation_middle in Hp. apply Permutation_cons_inv in Hp.
    assert (Hkf : k ∈ d1 ++ d2 ++ k :: ks) by set_solver.
    rewrite Hp, list_elem_of_In, filter_In, <- list_elem_of_In in Hkf. by destruct Hkf. }
  pose proof (plan_count_retention_older _ _ _ _ _ Hd Hk) as Ho.
  rewrite oldest_first_older in Ho; [done|]. by apply Hold.
Qed.

Lemma surviving_elem current recovery sd s : s ∈ surviving current recovery sd -> s ∈ current.
Proof.
  unfold surviving. case_match; [|done]. rewrite !list_elem_of_In, filter_In. by intros [? _].
Qed.

Lemma retention_value_nonneg (r : RetentionCount) : 0 <= retention_value r.
Proof. destruct r as [v H]; simpl. apply Is_true_true in H. breflect. lia. Qed.

(** What the actions of a plan carry. *)
Lemma ordered_actions_data source context ps recovery parent lr rr a :
  a ∈ ordered_source_actions source context ps recovery parent lr rr ->
  match a with
  | RecoverPendingAction _ r => r = recovery
  | SendReceiveAction _ snapshot p _ _ =>
      snapshot = local_snapshot ps /\
      p = match parent with IncrementalTransfer l _ => Some (snap_path l) | FullTransfer => None end
  | CommitReceivedAction _ _ _ final => final = final_remote_snapshot ps
  | ApplyLocalRetentionAction _ rp => rp = lr
  | ApplyRemoteRetentionAction _ rp => rp = rr
  | CleanupIncomingAction _ incoming => incoming = incoming_source_root ps
  | CleanupSourceAction _ received run_directory _ _ =>
      received = received_snapshot ps /\ run_directory = incoming_run_directory ps
  | _ => True
  end.
Proof.
  unfold ordered_source_actions. cbv zeta. rewrite !elem_of_app.
  intros H. destruct_or! H; try (apply list_elem_of_fmap in H as (h & -> & _); done).
  - destruct (recovery_required recovery); [|by apply not_elem_of_nil in H].
    by apply list_elem_of_singleton in H as ->.
  - by apply list_elem_of_singleton in H as ->.
  - by apply list_elem_of_singleton in H as ->.
  - rewrite !elem_of_cons, elem_of_nil in H. destruct_or! H; subst; done.
Qed.

(** C7.  When the clock of the run is ahead of every snapshot found, retention
    only deletes snapshots of the inventories: never the snapshot this run makes
    or its copy on the target, whatever the retention counts. *)
Theorem retention_spares_new_snapshot source context plan :
  build_source_run_plan source context = Ok plan ->
  let locals := snapshots_for (ctx_local_inventory context) (source_id source) in
  let remotes := snapshots_for (ctx_remote_inventory context) (source_id source) in
  let ts := ctx_snapshot_timestamp context in
  (forall s, s ∈ locals \/ s ∈ remotes -> timestamp s < ts) ->
  Forall (λ a, match a with
    | ApplyLocalRetentionAction _ rp =>
        forall d, d ∈ delete_snapshots rp -> d ∈ locals /\ timestamp d < ts
    | ApplyRemoteRetentionAction _ rp =>
        forall d, d ∈ delete_snapshots rp -> d ∈ remotes /\ timestamp d < ts
    | _ => True
    end) (actions plan).
Proof.
  intros H locals remotes ts Hclock.
  apply build_source_run_plan_inv in H as (ps & parent & nl & nr & _ & _ & Hl & Hr & ->).
  apply projected_snapshot_Ok in Hl as (Hl1 & Hl2 & _), Hr as (Hr1 & Hr2 & _).
  fold locals remotes ts in Hl2, Hr2 |- *.
  apply Forall_forall. cbn [actions]. intros a Ha. apply ordered_actions_data in Ha.
  destruct a; try done; subst.
  - intros d Hd. rewrite <- Hr2. apply newest_survives in Hd as [Hd1 Hd2];
      [split; [by eapply surviving_elem|done]|apply retention_value_nonneg|done|].
    intros s Hs%surviving_elem. rewrite Hr2. auto.
  - intros d Hd. rewrite <- Hl2. apply newest_survives in Hd as [Hd1 Hd2];
      [split; [by eapply surviving_elem|done]|apply retention_value_nonneg|done|].
    intros s Hs%surviving_elem. rewrite Hl2. auto.
Qed.

(** Retention orders by the timestamp of the run's clock: when one
    snapshot is to be kept and a snapshot with a later timestamp exists, the
    snapshot the run has just made is the one that is deleted. *)
Theorem clock_moved_back_deletes_new_snapshot source old new later :
  snap_source_id new = source -> later ∈ old -> snap_source_id later = source ->
  timestamp new < timestamp later ->
  new ∈ delete_snapshots (plan_count_retention source (old ++ [new]) 1).
Proof.
  intros Hs Hin Hls Hts. set (plan := plan_count_retention source (old ++ [new]) 1).
  assert (Hm : forall s, s ∈ old ++ [new] -> snap_source_id s = source ->
    s ∈ delete_snapshots plan \/ s ∈ keep plan)
    by (intros s ? ?; by apply plan_count_retention_elem).
  destruct (Hm new) as [Hd|Hk]; [set_solver|done|done|]. exfalso.
  destruct (Hm later) as [Hd|Hk']; [set_solver|done| |].
  - pose proof (plan_count_retention_older _ _ _ _ _ Hd Hk) as Ho.
    by rewrite oldest_first_older in Ho.
  - assert (Hlen : (length (keep plan) <= 1)%nat).
    { unfold plan, plan_count_retention. cbn [Z.eqb orb]. case_match; breflect; cbn [keep].
      - lia.
      - rewrite length_drop. lia. }
    destruct (keep plan) as [|k [|k' ks]]; [by apply not_elem_of_nil in Hk| |simpl in Hlen; lia].
    apply list_elem_of_singleton in Hk as <-, Hk' as ->. lia.
Qed.

(** The parent an incremental transfer is sent against is never the local
    snapshot that recovery deletes before the transfer, as long as the metadata
    read for the pending marker is that of the inventory. *)
Theorem recovery_spares_parent source context plan p parent :
  build_source_run_plan source context = Ok plan ->
  (forall s md, s ∈ snapshots_for (ctx_local_inventory context) (source_id source) ->
     pending_snapshot_for (ctx_pending_snapshots context) (source_id source) = Some md ->
     snap_path s = p -> uuid s = md_uuid md) ->
  (exists s recovery, RecoverPendingAction s recovery ∈ actions plan /\
     DeletePendingLocalSnapshot p ∈ effects recovery) ->
  (exists s snapshot remote_dir run_dir,
     SendReceiveAction s snapshot (Some parent) remote_dir run_dir ∈ actions plan) ->
  parent <> p.
Proof.
  intros H Hmeta (s1 & recovery & Hrec & He) (s2 & snapshot & rd & rn & Hsend) ->.
  apply build_source_run_plan_inv in H as (ps & sel & nl & nr & _ & Hsel & _ & _ & ->).
  cbn [actions] in *. apply ordered_actions_data in Hrec as ->, Hsend as [_ Hp].
  destruct sel as [|l r]; [done|]. injection Hp as ->.
  apply select_parent_sound in Hsel as ([Hl _] & (Hr & Hrs & _) & Hm).
  apply recovery_local_deletion in He as (md & Hmd & Hc). apply Hc.
  exists r. split; [done|]. split; [done|]. by rewrite <- (Hmeta l md).
Qed.

(** ** The plan of a run *)

Lemma build_sources_inv context srcs : forall seen plans,
  build_sources context srcs seen = Ok plans <->
  let enabled := List.filter source_enabled srcs in
  Forall2 (λ source plan, build_source_run_plan source context = Ok plan) enabled plans /\
  NoDup (map source_id enabled) /\ Forall (λ source, source_id source ∉ seen) enabled.
Proof.
  induction srcs as [|source rest IH]; intros seen plans; simpl.
  { split; [intros [= <-]; by repeat constructor|]. intros (H & _). by inversion H. }
  destruct (source_enabled source); simpl; [|by apply IH]. case_bool_decide as Hseen.
  { split; [done|]. intros (_ & _ & H). by inversion H. }
  split.
  - intros H. res_inv. match goal with H : build_sources _ _ _ = Ok _ |- _ =>
      apply IH in H as (H1 & H2 & H3) end.
    split; [by constructor|]. rewrite Forall_forall in H3. split; constructor; try done.
    + intros Hin. apply list_elem_of_fmap in Hin as (s' & E & Hs'). specialize (H3 s' Hs'). set_solver.
    + apply Forall_forall. intros s' Hs'. specialize (H3 s' Hs'). set_solver.
  - intros (H1 & H2 & H3). inversion H1 as [|? plan ? plans' Hp Hps]; subst.
    inversion H2 as [|? ? Hnin Hnd]; subst. inversion H3 as [|? ? _ Hf]; subst.
    rewrite Hp. simpl. rewrite (proj2 (IH _ plans')); [done|]. split; [done|]. split; [done|].
    rewrite Forall_forall in Hf |- *. intros s' Hs'. specialize (Hf s' Hs').
    assert (source_id s' <> source_id source); [|set_solver].
    intros E. apply Hnin. rewrite <- E. by apply list_elem_of_fmap_2.
Qed.

(** A run plan is built exactly when the enabled sources have pairwise
    different identifiers and a plan of each can be built; it has one plan per
    enabled source, in the order of the profile, and names the profile, the run
    and the target's mount point. *)
Theorem build_backup_run_plan_spec profile li ri markers pendings state_dir run_id ts plan :
  let context := mkSourcePlanContext profile li ri markers pendings state_dir run_id ts in
  let enabled := List.filter source_enabled (sources profile) in
  build_backup_run_plan profile li ri markers pendings state_dir run_id ts = Ok plan <->
  NoDup (map source_id enabled) /\
  Forall2 (λ source p, build_source_run_plan source context = Ok p) enabled (plan_sources plan) /\
  plan_profile_id plan = profile_id profile /\ plan_run_id plan = run_id /\
  target_mount_point plan = abs_value (mount_point (target profile)).
Proof.
  cbv zeta. unfold build_backup_run_plan. cbv zeta. rewrite res_bind_Ok. split.
  - intros (plans & H & [= <-]). apply build_sources_inv in H as (H1 & H2 & _). done.
  - intros (H1 & H2 & H3 & H4 & H5). exists (plan_sources plan). split.
    + apply build_sources_inv. split; [done|]. split; [done|]. apply Forall_forall. set_solver.
    + destruct plan; simpl in *. by subst.
Qed.

(** ** A concrete profile and its plan *)

Definition sample_count : RetentionCount := mkRetention 2 I.
Definition sample_threshold : ByteThreshold := mkThreshold 0 I.

Definition sample_source : ProfileSource :=
  mkProfileSource home_source "Home" true (@mkAbs KSourceSubvolume "/home" I)
    (@mkAbs KLocalSnapshotRoot "/.snapshots" I) (mkRel "home" I) sample_count sample_count.

Definition sample_profile : Profile :=
  mkProfile "1" (@mkIdent KProfile "main" I) "Main" true
    (mkProfileTarget (@mkAbs KTargetDevice "/dev/sdb1" I)
       (mkTargetIdentity "luks" "btrfs" "part" "backup") "" (@mkAbs KTargetMountPoint "/mnt/main" I)
       AskPasswordActivation)
    (mkProfilePaths (@mkAbs KRemoteSnapshotRoot "/mnt/main/snapshots" I)
       (@mkAbs KIncomingRoot "/mnt/main/.incoming" I))
    (mkProfileSettings true true false false sample_count sample_count
       sample_threshold sample_threshold)
    (mkProfileHooks [mkHook "/usr/bin/true" [] 10] []) [sample_source].

(** Two local snapshots: the first was sent, the second was left by an
    interrupted run. *)
Definition sample_sent : SnapshotInfo :=
  mkSnapshot Local home_source "home-2024-02-27T123456Z" 1709037296000000000 0
    "/.snapshots/home-2024-02-27T123456Z" true (mkUuid "aa-0") (mkReceived "").
Definition sample_copy : SnapshotInfo :=
  mkSnapshot Remote home_source "home-2024-02-27T123456Z" 1709037296000000000 0
    "/mnt/main/snapshots/home/home-2024-02-27T123456Z" true (mkUuid "bb-0") (mkReceived "aa-0").
Definition sample_orphan : SnapshotInfo :=
  mkSnapshot Local home_source "home-2024-02-28T123456Z" 1709123696000000000 0
    "/.snapshots/home-2024-02-28T123456Z" true (mkUuid "aa-1") (mkReceived "").
Definition orphan_marker : PendingMarker :=
  mkMarker home_source "/.snapshots/home-2024-02-28T123456Z"
    "/mnt/main/snapshots/home/home-2024-02-28T123456Z" (@mkIdent KRun "run-1" I) 1709123696000000000.

Definition sample_context : SourcePlanContext :=
  mkSourcePlanContext sample_profile
    {[ home_source := [sample_sent; sample_orphan] ]} {[ home_source := [sample_copy] ]}
    {[ home_source := Some orphan_marker ]} {[ home_source := Some sample_pending ]}
    "/var/lib/btrfs-backup/profiles/main" (@mkIdent KRun "run-2" I) 1709210096123456789.

Definition sample_plan : BackupSourceRunPlan :=
  match build_source_run_plan sample_source sample_context with
  | Ok p => p
  | Throw _ => mkSourcePlan home_source []
  end.

Lemma sample_plan_built : build_source_run_plan sample_source sample_context = Ok sample_plan.
Proof.
  unfold sample_plan. assert (is_ok (build_source_run_plan sample_source sample_context) = true) as H
    by (vm_compute; reflexivity).
  by destruct (build_source_run_plan sample_source sample_context).
Qed.

Lemma sample_ts_representable : representable 1709210096123456789.
Proof. unfold representable. lia. Qed.

Lemma planned_snapshot_name_spec_witness :
  planned_snapshot_name home_source 1709210096123456789
    [sample_snapshot "home-2024-02-29T123456Z" 0] = Ok "home-2024-02-29T123456Z-01" /\
  plain_component "home-2024-02-29T123456Z-01".
Proof.
  assert (E : planned_snapshot_name home_source 1709210096123456789
    [sample_snapshot "home-2024-02-29T123456Z" 0] = Ok "home-2024-02-29T123456Z-01")
    by (vm_compute; reflexivity).
  split; [exact E|].
  pose proof (planned_snapshot_name_spec home_source 1709210096123456789
    [sample_snapshot "home-2024-02-29T123456Z" 0] sample_ts_representable) as H.
  rewrite E in H. apply H.
Defined.

Lemma source_plan_order_witness :
  build_source_run_plan sample_source sample_context = Ok sample_plan /\
  map backup_run_action_kind (actions sample_plan)
  = [RecoverPending; CleanupIncoming; BeforeSnapshotHook; CreateSnapshot; SendReceive;
     VerifyReceived; CommitReceived; ApplyRemoteRetention; ApplyLocalRetention; CleanupSource].
Proof.
  split; [exact sample_plan_built|].
  exact (proj2 (proj2 (source_plan_order _ _ _ sample_plan_built))).
Defined.

Lemma planned_paths_contained_witness :
  let ps := mkPlannedPaths "/mnt/main/snapshots/home" "/mnt/main/.incoming/home"
    "/mnt/main/.incoming/home/run-2" "/.snapshots/home-2024-02-29T123456Z"
    "/mnt/main/.incoming/home/run-2/home-2024-02-29T123456Z"
    "/mnt/main/snapshots/home/home-2024-02-29T123456Z" "home-2024-02-29T123456Z" in
  plan_source_paths sample_source sample_context [sample_sent; sample_orphan] = Ok ps /\
  path_is_within (final_remote_snapshot ps) "/mnt/main/snapshots" = true.
Proof.
  cbv zeta. match goal with |- ?P /\ _ => assert (E : P) by (vm_compute; reflexivity) end.
  split; [exact E|].
  exact (proj1 (proj2 (planned_paths_contained sample_source sample_context _ _ sample_ts_representable E))).
Defined.

Lemma retention_spares_new_snapshot_witness :
  build_source_run_plan sample_source sample_context = Ok sample_plan /\
  Forall (λ a, match a with
    | ApplyLocalRetentionAction _ rp =>
        forall d, d ∈ delete_snapshots rp -> d ∈ [sample_sent; sample_orphan] /\
          timestamp d < 1709210096123456789
    | ApplyRemoteRetentionAction _ rp =>
        forall d, d ∈ delete_snapshots rp -> d ∈ [sample_copy] /\ timestamp d < 1709210096123456789
    | _ => True
    end) (actions sample_plan).
Proof.
  split; [exact sample_plan_built|].
  apply (retention_spares_new_snapshot _ _ _ sample_plan_built).
  change (forall s, s ∈ [sample_sent; sample_orphan] \/ s ∈ [sample_copy] ->
    timestamp s < 1709210096123456789).
  intros s. rewrite !elem_of_cons, !elem_of_nil. intros H. destruct_or! H; subst; cbn; lia || done.
Defined.

Lemma clock_moved_back_deletes_new_snapshot_witness :
  sample_sent ∈ delete_snapshots (plan_count_retention home_source ([sample_orphan] ++ [sample_sent]) 1).
Proof.
  apply (clock_moved_back_deletes_new_snapshot home_source [sample_orphan] sample_sent sample_orphan);
    [reflexivity|left|reflexivity|cbn; lia].
Defined.

Lemma recovery_spares_parent_witness :
  let p := "/.snapshots/home-2024-02-28T123456Z" in
  let parent := "/.snapshots/home-2024-02-27T123456Z" in
  build_source_run_plan sample_source sample_context = Ok sample_plan /\ parent <> p.
Proof.
  cbv zeta. split; [exact sample_plan_built|].
  apply (recovery_spares_parent _ _ _ _ _ sample_plan_built).
  - change (forall s md, s ∈ [sample_sent; sample_orphan] -> Some sample_pending = Some md ->
      snap_path s = "/.snapshots/home-2024-02-28T123456Z" -> uuid s = md_uuid md).
    intros s md. rewrite !elem_of_cons, elem_of_nil. intros H [= <-] Hp.
    destruct_or! H; subst; done.
  - eexists home_source, _. split.
    + change (actions sample_plan) with (RecoverPendingAction home_source
        (match actions sample_plan with RecoverPendingAction _ r :: _ => r | _ => mkRecovery "" "" [] "" end)
        :: List.tl (actions sample_plan)). left.
    + change (effects _) with
        [DeletePendingLocalSnapshot "/.snapshots/home-2024-02-28T123456Z";
         ClearPendingMarker "/var/lib/btrfs-backup/profiles/main/pending-home"]. left.
  - eexists home_source, _, _, _.
    apply (list_elem_of_lookup_2 _ 4). vm_compute. reflexivity.
Defined.
