(* ===== verification/Ports.v ===== *)
(** * The ports of the backup engine (src/backup/ports, src/backup/transfer)

    The interfaces the backup engine calls and does not implement, with the data
    they exchange.  Each operation of an interface is a constructor of the
    signature [Port], indexed by what it returns; an operation that may throw is
    answered with a [res], one declared [noexcept] is a constructor of [NPort].
    What the implementations do is a parameter: see [Env] in Effects.v. *)

From S2P Require Import Prelude Errors Identifiers RuntimeTime FsPath ConfigDomain.
From S2P Require Import SnapshotInventory RetentionPlan PendingRecovery RunActions.

Open Scope Z_scope.

(** ** Data *)

(** src/backup/ports/IMountInspector.hpp:14-23 *)
Record MountEntry := mkMount {
  mnt_source : string;
  mnt_target : string;
  fstype : string;
  mnt_root : string;
  options : string;
  mount_id : Z;
  device_id : string;
  filesystem_uuid : string;
}.

(** src/backup/ports/Process.hpp:22-27 *)
Record CommandResult := mkCommandResult {
  exit_code : Z;
  output : string;
  cmd_cancelled : bool;
  timed_out : bool;
}.

(** The members of ControlledCommandOptions the hooks set.
    src/backup/ports/Process.hpp:35-45 *)
Record ControlledCommandOptions := mkCommandOptions {
  cmd_timeout : Z;  (* seconds *)
  inherited_fds : list Z;
  environment : list (string * string);
}.

(** src/backup/ports/TrustedExecutable.hpp:19-25 *)
Record TrustedExecutable := mkTrusted {
  execution_path : string;
  executable_fds : list Z;
}.

(** src/backup/ports/TargetManager.hpp:15-18 *)
Inductive TargetMountMode := RequireMounted | MountIfNeeded.

(** src/backup/ports/TargetManager.hpp:20-23 *)
Inductive TargetCleanupStage := MountUnit | CryptsetupUnit.

(** src/backup/ports/TargetManager.hpp:25-30 *)
Record TargetCleanupError := mkCleanupError {
  tce_stage : TargetCleanupStage;
  tce_unit : string;
  tce_exit_code : Z;
  tce_message : string;
}.

(** src/backup/ports/CleanupDiagnostic.hpp:11-13 *)
Record CleanupDiagnostic := mkDiagnostic { diag_message : string }.

(** src/backup/ports/RunLease.hpp:21-30 *)
Inductive BackupRunLeaseResult :=
| BackupRunLeaseAcquired
| BackupRunLeaseBusy (code : ErrorCode) (msg : string).

(** src/backup/ports/IRunEventSinkFactory.hpp:17-23 *)
Record BackupRunStatusDescription := mkStatusDescription {
  desc_profile_name : string;
  desc_source_count : Z;
  desc_started_at : RuntimeTimePoint;
  desc_source_names : gmap SourceId string;
  desc_target_name : string;
}.

(** src/backup/model/TargetStorageMeasurement.hpp:13-21 *)
Record FilesystemSpace := mkSpace {
  capacity_bytes : Z;
  free_bytes : Z;
  available_bytes : Z;
}.

(** src/backup/model/TargetStorageMeasurement.hpp:23-26 *)
Record TargetStorageMeasurement := mkMeasurement {
  space : FilesystemSpace;
  measured_at : RuntimeTimePoint;
}.

(** src/backup/transfer/TransferPlan.hpp:19-24 *)
Record TransferPipelinePlan := mkTransferPlan {
  producer_argv : list string;
  consumer_argv : list string;
  bytes_total_estimated : Z;
  retained_resources : list path;
}.

(** src/backup/transfer/TransferResult.hpp:16-46 *)
Inductive TransferSideResult :=
| TransferNotStarted (diagnostics : string)
| TransferRunning (diagnostics : string)
| TransferExited (code : Z) (diagnostics : string).

(** src/backup/transfer/TransferResult.hpp:48-57 *)
Record TransferResult := mkTransferResult {
  producer : TransferSideResult;
  consumer : TransferSideResult;
  bytes_transferred : Z;
  bytes_produced : Z;
  result_bytes_total_estimated : Z;
  duration_ms : Z;
  average_speed_bps : Z;
  cancelled : bool;
}.

(** src/backup/transfer/TransferEvent.hpp:12-19 *)
Inductive TransferEventKind :=
| TransferStarted | Progress | ProducerFinished | ConsumerFinished | TransferCancelled
| TransferCompleted.

(** src/backup/transfer/TransferEvent.hpp:21-24 *)
Inductive TransferActivity := ActivityTransferring | ActivitySizing.

Global Instance TransferEventKind_eq_dec : EqDecision TransferEventKind.
Proof. solve_decision. Defined.

(** src/backup/transfer/TransferEvent.hpp:26-36 *)
Record TransferEvent := mkTransferEvent {
  te_kind : TransferEventKind;
  te_activity : TransferActivity;
  te_bytes_transferred : Z;
  te_bytes_produced : Z;
  te_bytes_total_estimated : Z;
  te_delta_bytes : Z;
  te_elapsed_ms : Z;
  te_speed_bps : Z;
  te_message : string;
}.

(** ** Operations that may throw

    A safe directory root is named by the path it was opened at; a pinned
    directory is its stable path; a started transfer is a number. *)
Inductive Port : Set -> Type :=
(* ISafeDirectoryRootFactory, ISafeDirectoryRoot *)
| OpenRoot (root : path) : Port unit
| PinDirectory (root p : path) : Port path
| EnsureDirectory (root p : path) : Port unit
| RootExists (root p : path) : Port bool
| RemoveContents (root p : path) : Port unit
| RemoveTree (root p : path) : Port unit
(* IBtrfsOperations *)
| ReadMetadata (p : path) : Port (option SnapshotMetadata)
| CreateReadonlySnapshot (source target : path) : Port unit
| DeleteSubvolume (p : path) : Port unit
| ReadMetadataBeneath (root p : path) : Port (option SnapshotMetadata)
| CreateReadonlySnapshotBeneath (source_root source target_root target : path) : Port unit
| DeleteSubvolumeBeneath (root p : path) : Port unit
(* IFileSystem *)
| FsExists (p : path) : Port bool
| FsCreateDirectories (p : path) : Port unit
| ScanDirectory (p : path) : Port DirView
(* IPendingMarkerStore *)
| MarkerRead (profile_state_dir : path) (s : SourceId) : Port (option PendingMarker)
| MarkerWrite (profile_state_dir : path) (m : PendingMarker) : Port unit
| MarkerClear (marker_path : path) : Port unit
(* IClock, IRunIdGenerator *)
| ClockNow : Port RuntimeTimePoint
| ClockLocalDate : Port LocalDate
| GenerateRunId (time : RuntimeTimePoint) : Port RunId
(* ITrustedExecutableResolver, ICommandRunner *)
| ResolveExecutable (program : path) : Port TrustedExecutable
| RunControlled (argv : list string) (opts : ControlledCommandOptions) : Port CommandResult
(* IBackupRunEventSink, IBackupRunCheckpointStore and their factories *)
| EmitEvent (event : BackupRunEvent) : Port unit
| WriteCheckpoint (checkpoint : BackupRunCheckpoint) : Port unit
| OpenEvents (description : BackupRunStatusDescription) : Port unit
| OpenCheckpoints (p : ProfileId) : Port unit
(* IAsyncTransferPipeline, IAsyncTransferHandle; a wait reports the events the
   transfer thread delivered meanwhile *)
| TransferStart (plan : TransferPipelinePlan) : Port nat
| TransferWaitFor (transfer : nat) : Port (bool * list TransferEvent)
| TransferRequestCancel (transfer : nat) : Port unit
| TransferWait (transfer : nat) : Port TransferResult
(* IMountInspector, ITargetManager *)
| MountInspect : Port (list MountEntry)
| TargetPrepare (profile : Profile) (mode : TargetMountMode) : Port unit
(* IProfileRepository *)
| ProfilesGet (p : ProfileId) : Port LoadedProfile
(* IBackupRunLeaseProvider *)
| TryAcquireLease (profile : Profile) : Port BackupRunLeaseResult
(* ICancellationRequestStore, ICancellationMonitor *)
| RegisterActiveRun (request : CancellationRequest) : Port unit
| WatchCancellation (request : CancellationRequest) : Port unit
| RequestCancel (request : CancellationRequest) : Port CancellationRequestOutcome
| ClearCancelRequest (request : CancellationRequest) : Port unit
(* IRunLedger *)
| LastSuccessMatches (profile : Profile) (date : LocalDate) (fp : string) : Port bool
| WriteSkipped (profile : Profile) (r : RunId) (started finished : RuntimeTimePoint)
    (source_count : Z) : Port unit
| WriteSuccess (profile : Profile) (r : RunId) (date : LocalDate) (time : RuntimeTimePoint)
    (fp : string) (source_count : Z) : Port unit
(* IFilesystemSpaceProbe, ITargetStorageMeasurementStore *)
| MeasureSpace (mount : path) (entry : MountEntry) : Port FilesystemSpace
| WriteMeasurement (profile : Profile) (m : TargetStorageMeasurement) : Port unit.

(** ** Operations that do not throw *)
Inductive NPort : Set -> Type :=
(* CancellationToken *)
| CancellationRequested : NPort bool
(* IMountedTargetSession *)
| TargetClose : NPort (option TargetCleanupError)
(* ICancellationWatch, IActiveRunRegistration *)
| CloseWatch : NPort (option CleanupDiagnostic)
| CloseActiveRun : NPort (option CleanupDiagnostic)
(* destructors: the registration of a run that was never started, the lease *)
| DropActiveRun : NPort unit
| ReleaseLease : NPort unit
| ReleaseEvents : NPort unit.
