(* ===== verification/Effects.v ===== *)
(** * Effects: calls to the ports, exceptions and the trace

    Stateful code runs in the monad [M]: a function of the world behind the
    ports, the trace of the calls made so far and the run context object, to a
    result (a value, an exception, or [Diverged] when a loop has used up its
    fuel) and the new state.  The world and the answers of the ports are a
    parameter ([Env]), so what is proved of a program holds for every
    implementation of the ports, failures at any call included. *)

From S2P Require Import Prelude Errors Identifiers RuntimeTime FsPath ConfigDomain.
From S2P Require Import SnapshotInventory RetentionPlan PendingRecovery RunActions Ports.

(** ** The run context object (its operations are in RunContext.v) *)

(** src/backup/execution/RunExecutionContext.hpp:23-28 *)
Inductive CloseStage := CancellationWatchStage | ActiveRunStage | CancellationRequestStage
  | TargetSessionStage.

(** src/backup/execution/RunExecutionContext.hpp:30-33 *)
Record CloseFailure := mkCloseFailure { cf_stage : CloseStage; cf_message : string }.

(** The data members; a [std::unique_ptr] member is whether it is set.
    src/backup/execution/RunExecutionContext.hpp:85-99 *)
Record RunExecutionContext := mkContext {
  cx_profile_id : ProfileId;
  cx_run_id : RunId;
  cx_active_run : bool;
  cx_cancellation_watch : bool;
  cx_checkpoints : bool;
  cx_lease : bool;
  cx_target_session : bool;
  cx_verified_target_mount : option MountEntry;
  cx_events : bool;
  cx_target_close_attempted : bool;
  cx_target_close_error : option TargetCleanupError;
  cx_closed : bool;
  cx_close_failures : list CloseFailure;
}.

(** ** The monad *)

(** One call and its answer. *)
Inductive Entry :=
| Did {A : Set} (p : Port A) (r : res A)
| DidN {A : Set} (p : NPort A) (a : A).

(** The implementations of the ports, over their own state [W]. *)
Record Env (W : Type) := mkEnv {
  env_port : forall A : Set, Port A -> W -> res A * W;
  env_nport : forall A : Set, NPort A -> W -> A * W;
}.
Arguments env_port {W} _ {A} _ _.
Arguments env_nport {W} _ {A} _ _.

Record St (W : Type) := mkSt {
  st_world : W;
  st_trace : list Entry;
  st_context : option RunExecutionContext;
}.
Arguments mkSt {W} _ _ _.
Arguments st_world {W} _.
Arguments st_trace {W} _.
Arguments st_context {W} _.

Inductive outcome (A : Type) :=
| Ret (a : A)
| Exn (e : exn)
| Diverged.
Arguments Ret {A} _.
Arguments Exn {A} _.
Arguments Diverged {A}.

Definition of_res {A} (r : res A) : outcome A :=
  match r with Ok a => Ret a | Throw e => Exn e end.

Section monad.
Context {W : Type} (E : Env W).

Definition M (A : Type) : Type := St W -> outcome A * St W.

Definition ret {A} (a : A) : M A := λ s, (Ret a, s).
Definition throw {A} (e : exn) : M A := λ s, (Exn e, s).
Definition diverge {A} : M A := λ s, (Diverged, s).

Definition bind {A B} (m : M A) (f : A -> M B) : M B := λ s,
  match m s with
  | (Ret a, s') => f a s'
  | (Exn e, s') => (Exn e, s')
  | (Diverged, s') => (Diverged, s')
  end.

(** [try { m } catch (...) { h e }]; a handler that does not match rethrows. *)
Definition try_catch {A} (m : M A) (h : exn -> M A) : M A := λ s,
  match m s with
  | (Exn e, s') => h e s'
  | other => other
  end.

(** What a destructor does when the scope of [m] is left. *)
Definition finally {A} (m : M A) (cleanup : M unit) : M A := λ s,
  match m s with
  | (Diverged, s') => (Diverged, s')
  | (o, s') =>
      match cleanup s' with
      | (Ret _, s'') => (o, s'')
      | (Exn e, s'') => (Exn e, s'')
      | (Diverged, s'') => (Diverged, s'')
      end
  end.

Definition call {A : Set} (p : Port A) : M A := λ s,
  let '(r, w) := env_port E p (st_world s) in
  (of_res r, mkSt w (st_trace s ++ [Did p r]) (st_context s)).

Definition ncall {A : Set} (p : NPort A) : M A := λ s,
  let '(a, w) := env_nport E p (st_world s) in
  (Ret a, mkSt w (st_trace s ++ [DidN p a]) (st_context s)).

Definition lift {A} (r : res A) : M A := λ s, (of_res r, s).

Definition get_context : M (option RunExecutionContext) := λ s, (Ret (st_context s), s).
Definition put_context (c : option RunExecutionContext) : M unit := λ s,
  (Ret tt, mkSt (st_world s) (st_trace s) c).
End monad.

Declare Scope eff_scope.
Delimit Scope eff_scope with eff.
Notation "'let!' x := m 'in' f" := (bind m (λ x, f))
  (at level 10, x pattern, f at level 200) : eff_scope.
Notation "m1 ;; m2" := (bind m1 (λ _, m2))
  (at level 100, m2 at level 200, right associativity) : eff_scope.
Bind Scope eff_scope with M.

(** [for (x : l) f x] *)
Fixpoint for_each {W A} (f : A -> M (W:=W) unit) (l : list A) : M unit :=
  match l with
  | [] => ret tt
  | x :: l => bind (f x) (λ _, for_each f l)
  end.

(** ** Reasoning about traces

    [wp m Φ c]: started with the run context [c], [m] extends the trace by some
    [t] and ends with an outcome and a context such that [Φ] holds.  The rules
    quantify over the answers of the ports. *)
Definition wp {W A} (m : M (W:=W) A)
    (Φ : outcome A -> list Entry -> option RunExecutionContext -> Prop)
    (c : option RunExecutionContext) : Prop :=
  forall s, st_context s = c ->
    exists t, st_trace (m s).2 = st_trace s ++ t /\ Φ (m s).1 t (st_context (m s).2).

Section rules.
Context {W : Type} (E : Env W).
Implicit Types (c : option RunExecutionContext) (t : list Entry).

Lemma wp_mono {A} (m : M (W:=W) A) Φ Ψ c :
  wp m Φ c -> (forall o t c', Φ o t c' -> Ψ o t c') -> wp m Ψ c.
Proof. intros H Hi s Hs. destruct (H s Hs) as (t & ? & ?). exists t. auto. Qed.

Lemma wp_and {A} (m : M (W:=W) A) Φ Ψ c :
  wp m Φ c -> wp m Ψ c -> wp m (λ o t c', Φ o t c' /\ Ψ o t c') c.
Proof.
  intros H1 H2 s Hs. destruct (H1 s Hs) as (t & Ht & HΦ), (H2 s Hs) as (t' & Ht' & HΨ).
  exists t. split; [done|]. rewrite Ht in Ht'. apply app_inv_head in Ht' as <-. done.
Qed.

Lemma wp_ret {A} (a : A) Φ c : Φ (Ret a) [] c -> wp (W:=W) (ret a) Φ c.
Proof. intros H s <-. exists []. simpl. by rewrite app_nil_r. Qed.

Lemma wp_throw {A} e (Φ : outcome A -> _) c : Φ (Exn e) [] c -> wp (W:=W) (throw e) Φ c.
Proof. intros H s <-. exists []. simpl. by rewrite app_nil_r. Qed.

Lemma wp_diverge {A} (Φ : outcome A -> _) c : Φ Diverged [] c -> wp (W:=W) diverge Φ c.
Proof. intros H s <-. exists []. simpl. by rewrite app_nil_r. Qed.

Lemma wp_lift {A} (r : res A) Φ c : Φ (of_res r) [] c -> wp (W:=W) (lift r) Φ c.
Proof. intros H s <-. exists []. simpl. by rewrite app_nil_r. Qed.

Lemma wp_get_context Φ c : Φ (Ret c) [] c -> wp (W:=W) get_context Φ c.
Proof. intros H s <-. exists []. simpl. by rewrite app_nil_r. Qed.

Lemma wp_put_context c' Φ c : Φ (Ret tt) [] c' -> wp (W:=W) (put_context c') Φ c.
Proof. intros H s <-. exists []. simpl. by rewrite app_nil_r. Qed.

Lemma wp_call {A : Set} (p : Port A) Φ c :
  (forall r, Φ (of_res r) [Did p r] c) -> wp (call E p) Φ c.
Proof.
  intros H s <-. unfold call. destruct (env_port E p (st_world s)) as [r w] eqn:Ep.
  exists [Did p r]. simpl. auto.
Qed.

Lemma wp_ncall {A : Set} (p : NPort A) Φ c :
  (forall a, Φ (Ret a) [DidN p a] c) -> wp (ncall E p) Φ c.
Proof.
  intros H s <-. unfold ncall. destruct (env_nport E p (st_world s)) as [a w] eqn:Ep.
  exists [DidN p a]. simpl. auto.
Qed.

Lemma wp_bind {A B} (m : M (W:=W) A) (f : A -> M B) Φ c :
  wp m (λ o t c',
    match o with
    | Ret a => wp (f a) (λ o' t' c'', Φ o' (t ++ t') c'') c'
    | Exn e => Φ (Exn e) t c'
    | Diverged => Φ Diverged t c'
    end) c -> wp (bind m f) Φ c.
Proof.
  intros H s Hs. destruct (H s Hs) as (t & Ht & Hm). unfold bind.
  destruct (m s) as [[a|e|] s1]; simpl in *; [|by exists t|by exists t].
  destruct (Hm s1 eq_refl) as (t' & Ht' & HΦ). exists (t ++ t'). split; [|done].
  by rewrite Ht', Ht, app_assoc.
Qed.

Lemma wp_try_catch {A} (m : M (W:=W) A) (h : exn -> M A) Φ c :
  wp m (λ o t c',
    match o with
    | Exn e => wp (h e) (λ o' t' c'', Φ o' (t ++ t') c'') c'
    | _ => Φ o t c'
    end) c -> wp (try_catch m h) Φ c.
Proof.
  intros H s Hs. destruct (H s Hs) as (t & Ht & Hm). unfold try_catch.
  destruct (m s) as [[a|e|] s1]; simpl in *; [by exists t| |by exists t].
  destruct (Hm s1 eq_refl) as (t' & Ht' & HΦ). exists (t ++ t'). split; [|done].
  by rewrite Ht', Ht, app_assoc.
Qed.

Lemma wp_finally {A} (m : M (W:=W) A) cleanup Φ c :
  wp m (λ o t c',
    match o with
    | Diverged => Φ Diverged t c'
    | _ => wp cleanup (λ o' t' c'',
             match o' with
             | Ret _ => Φ o (t ++ t') c''
             | Exn e => Φ (Exn e) (t ++ t') c''
             | Diverged => Φ Diverged (t ++ t') c''
             end) c'
    end) c -> wp (finally m cleanup) Φ c.
Proof.
  intros H s Hs. destruct (H s Hs) as (t & Ht & Hm). unfold finally.
  destruct (m s) as [[a|e|] s1]; simpl in *; [| |by exists t].
  all: destruct (Hm s1 eq_refl) as (t' & Ht' & HΦ); exists (t ++ t');
    destruct (cleanup s1) as [[[]|e'|] s2]; simpl in *; (split; [|done]);
    by rewrite Ht', Ht, app_assoc.
Qed.
End rules.

(** One step of symbolic execution. *)
Ltac wp_step :=
  lazymatch goal with
  | |- wp (bind _ _) _ _ => apply wp_bind
  | |- wp (try_catch _ _) _ _ => apply wp_try_catch
  | |- wp (finally _ _) _ _ => apply wp_finally
  | |- wp (ret _) _ _ => apply wp_ret
  | |- wp (throw _) _ _ => apply wp_throw
  | |- wp diverge _ _ => apply wp_diverge
  | |- wp (lift _) _ _ => apply wp_lift
  | |- wp get_context _ _ => apply wp_get_context
  | |- wp (put_context _) _ _ => apply wp_put_context
  | |- wp (call _ _) _ _ => apply wp_call; let r := fresh "r" in intros r
  | |- wp (ncall _ _) _ _ => apply wp_ncall; let a := fresh "a" in intros a
  end; cbn beta iota.

(** The outcome of a run on a concrete environment, for evaluation. *)
Definition run_program {W A} (m : M (W:=W) A) (w : W) : outcome A * list Entry :=
  let '(o, s) := m (mkSt w [] None) in (o, st_trace s).

Lemma wp_run {W A} (m : M (W:=W) A) Φ w :
  wp m Φ None -> exists c, Φ (run_program m w).1 (run_program m w).2 c.
Proof.
  intros H. destruct (H (mkSt w [] None) eq_refl) as (t & Ht & HΦ). unfold run_program.
  destruct (m (mkSt w [] None)) as [o s]; simpl in *. subst. by exists (st_context s).
Qed.

(** ** What an entry of the trace is *)

(** The event an entry delivered to the event sink. *)
Definition entry_event (e : Entry) : option BackupRunEvent :=
  match e with
  | Did p r =>
      match p in Port A return res A -> option BackupRunEvent with
      | EmitEvent event => λ r, match r with Ok _ => Some event | Throw _ => None end
      | _ => λ _, None
      end r
  | DidN _ _ => None
  end.

(** The checkpoint an entry wrote. *)
Definition entry_checkpoint (e : Entry) : option BackupRunCheckpoint :=
  match e with
  | Did p r =>
      match p in Port A return res A -> option BackupRunCheckpoint with
      | WriteCheckpoint cp => λ r, match r with Ok _ => Some cp | Throw _ => None end
      | _ => λ _, None
      end r
  | DidN _ _ => None
  end.

(** The subvolume an entry deletes, or tries to. *)
Definition entry_deletes (e : Entry) : option path :=
  match e with
  | Did p _ =>
      match p with
      | DeleteSubvolume p | DeleteSubvolumeBeneath _ p => Some p
      | _ => None
      end
  | DidN _ _ => None
  end.

(** What removal of directories destroys, subvolumes below included: everything in a directory,
    or a tree with the directory itself. *)
Inductive Removal := ContentsOf (p : path) | TreeOf (p : path).

Definition entry_removes (e : Entry) : option Removal :=
  match e with
  | Did p _ =>
      match p with
      | RemoveContents _ p => Some (ContentsOf p)
      | RemoveTree _ p => Some (TreeOf p)
      | _ => None
      end
  | DidN _ _ => None
  end.

(** ** Programs whose entries all satisfy a predicate *)

Definition only {W A} (P : Entry -> Prop) (m : M (W:=W) A) : Prop :=
  forall c, wp m (λ _ t c', c' = c /\ Forall P t) c.

Section only.
Context {W : Type} (E : Env W) (P : Entry -> Prop).

Lemma only_ret {A} (a : A) : only (W:=W) P (ret a).
Proof. intros c. by apply wp_ret. Qed.

Lemma only_throw {A} e : only (W:=W) (A:=A) P (throw e).
Proof. intros c. by apply wp_throw. Qed.

Lemma only_diverge {A} : only (W:=W) (A:=A) P diverge.
Proof. intros c. by apply wp_diverge. Qed.

Lemma only_lift {A} (r : res A) : only (W:=W) P (lift r).
Proof. intros c. by apply wp_lift. Qed.

Lemma only_get_context : only (W:=W) P get_context.
Proof. intros c. by apply wp_get_context. Qed.

Lemma only_call {A : Set} (p : Port A) : (forall r, P (Did p r)) -> only P (call E p).
Proof. intros H c. apply wp_call. intros r. split; [done|]. by repeat constructor. Qed.

Lemma only_ncall {A : Set} (p : NPort A) : (forall a, P (DidN p a)) -> only P (ncall E p).
Proof. intros H c. apply wp_ncall. intros r. split; [done|]. by repeat constructor. Qed.

Lemma only_bind {A B} (m : M (W:=W) A) (f : A -> M B) :
  only P m -> (forall a, only P (f a)) -> only P (bind m f).
Proof.
  intros Hm Hf c. apply wp_bind. eapply wp_mono; [apply Hm|]. cbn beta.
  intros [a|e|] t c' [-> Ht]; [|done|done]. eapply wp_mono; [apply Hf|]. cbn beta.
  intros o t' c'' [-> Ht']. split; [done|]. by apply Forall_app.
Qed.

Lemma only_try {A} (m : M (W:=W) A) (h : exn -> M A) :
  only P m -> (forall e, only P (h e)) -> only P (try_catch m h).
Proof.
  intros Hm Hh c. apply wp_try_catch. eapply wp_mono; [apply Hm|]. cbn beta.
  intros [a|e|] t c' [-> Ht]; [done| |done]. eapply wp_mono; [apply Hh|]. cbn beta.
  intros o t' c'' [-> Ht']. split; [done|]. by apply Forall_app.
Qed.

Lemma only_for_each {A} (f : A -> M (W:=W) unit) l :
  (forall x, only P (f x)) -> only P (for_each f l).
Proof.
  intros Hf. induction l as [|x l IH]; simpl; [apply only_ret|].
  apply only_bind; [apply Hf|]. intros _. exact IH.
Qed.
End only.

#[export] Hint Resolve only_ret only_throw only_diverge only_lift only_call only_ncall
  only_bind only_try only_for_each : backup.

(** Decompose [only] along the program, branching on its scrutinees. *)
Ltac only_step :=
  lazymatch goal with
  | |- only _ (bind _ _) => apply only_bind; [|intros ?]
  | |- only _ (try_catch _ _) => apply only_try; [|intros ?]
  | |- only _ (ret _) => apply only_ret
  | |- only _ (throw _) => apply only_throw
  | |- only _ (lift _) => apply only_lift
  | |- only _ get_context => apply only_get_context
  | |- only _ diverge => apply only_diverge
  | |- only _ (for_each _ _) => apply only_for_each; intros ?
  | |- only _ (call _ _) => apply only_call; intros ?
  | |- only _ (ncall _ _) => apply only_ncall; intros ?
  | |- only _ (match ?x with _ => _ end) => destruct x
  end.

(** ** Sequences of calls

    A loop over calls stops at the first that throws: its trace is the calls up
    to there, each answered with success but the last. *)
Definition calls_outcome {A} (p : A -> Port unit) (l : list A) (o : outcome unit)
    (t : list Entry) : Prop :=
  match o with
  | Ret _ => t = map (λ x, Did (p x) (Ok tt)) l
  | Exn e => exists before x after, l = before ++ x :: after /\
      t = map (λ x, Did (p x) (Ok tt)) before ++ [Did (p x) (Throw e)]
  | Diverged => False
  end.

Lemma wp_for_each_call {W A} (E : Env W) (p : A -> Port unit) l c :
  wp (for_each (λ x, call E (p x)) l) (λ o t c', c' = c /\ calls_outcome p l o t) c.
Proof.
  induction l as [|x l IH]; simpl; [by wp_step|].
  do 2 wp_step. destruct r as [[]|e]; cbn [of_res].
  - eapply wp_mono; [apply IH|]. cbn beta. intros [[]|e|] t c' [-> H]; simpl in *; [by subst| |done].
    destruct H as (before & y & after & -> & ->). split; [done|]. exists (x :: before), y, after. done.
  - split; [done|]. exists [], x, l. done.
Qed.
