(* ===== verification/Mounts.v ===== *)
(** * Mounts and the validation of a backup's mounts

    The mount table lookups of src/backup/ports/IMountInspector.cpp and the
    checks of src/backup/planning/BackupPreflightValidation.cpp that a run makes
    before it touches the target.  [std::filesystem::weakly_canonical] is a
    parameter: the path it resolves to, or [None] when it reports an error. *)

From S2P Require Import Prelude Errors Identifiers RuntimeTime FsPath ConfigDomain.
From S2P Require Import SnapshotInventory RetentionPlan PendingRecovery RunActions BackupRunPlan Ports.

(** ** IMountInspector.cpp *)

(** src/backup/ports/IMountInspector.cpp:13-16 *)
Fixpoint strip_subvolume_suffix (source : string) : string :=
  match source with
  | EmptyString => EmptyString
  | String c rest => if Ascii.eqb c "[" then EmptyString else String c (strip_subvolume_suffix rest)
  end.

(** src/backup/ports/IMountInspector.cpp:20-28 *)
Definition mount_at (entries : list MountEntry) (tgt : path) : option MountEntry :=
  let normalized_target := normalized_path tgt in
  find_if (λ entry, path_eqb (normalized_path (mnt_target entry)) normalized_target) (rev entries).

(** The loop of [mount_for_path]: the best entry so far with the length of its
    target. src/backup/ports/IMountInspector.cpp:32-46 *)
Definition mount_step (normalized : path) (best : option (MountEntry * nat)) (entry : MountEntry)
    : option (MountEntry * nat) :=
  if str_empty (mnt_target entry) then best
  else
    let target := normalized_path (mnt_target entry) in
    if path_is_within normalized target then
      let size := String.length target in
      match best with
      | None => Some (entry, size)
      | Some (_, best_size) => if (best_size <=? size)%nat then Some (entry, size) else best
      end
    else best.

(** src/backup/ports/IMountInspector.cpp:30-48 *)
Definition mount_for_path (entries : list MountEntry) (p : path) : option MountEntry :=
  fst <$> foldl (mount_step (normalized_path p)) None entries.

(** src/backup/ports/IMountInspector.cpp:50-64 *)
Definition paths_are_same_filesystem (entries : list MountEntry) (path_a path_b : path) : bool :=
  match mount_for_path entries path_a, mount_for_path entries path_b with
  | Some a, Some b =>
      if (negb (str_empty (filesystem_uuid a)) && negb (str_empty (filesystem_uuid b)))%bool
      then String.eqb (filesystem_uuid a) (filesystem_uuid b)
      else (negb (str_empty (device_id a)) && String.eqb (device_id a) (device_id b))%bool
  | _, _ => false
  end.

(** src/backup/ports/IMountInspector.cpp:66-73 *)
Definition mount_uses_mapper (entries : list MountEntry) (mountpoint mapper_path : path) : bool :=
  match mount_at entries mountpoint with
  | Some mount =>
      path_eqb (normalized_path (strip_subvolume_suffix (mnt_source mount)))
               (normalized_path mapper_path)
  | None => false
  end.

(** ** BackupPreflightValidation.cpp *)

(** src/backup/planning/BackupPreflightValidation.cpp:22-27 *)
Definition lower (value : string) : string := str_map to_lower value.

(** [text.contains(part)] *)
Fixpoint str_has (part text : string) : bool :=
  (String.prefix part text
   || match text with EmptyString => false | String _ rest => str_has part rest end)%bool.

(** src/backup/planning/BackupPreflightValidation.cpp:29-31 *)
Definition has_mount_option (opts option : string) : bool :=
  str_has ("," +:+ option +:+ ",") ("," +:+ opts +:+ ",").

(** src/backup/planning/BackupPreflightValidation.hpp:14-14 *)
Inductive TargetMountAccess := ReadAccess | ReadWrite.

Section validation.
Context (weakly_canonical : path -> option path).

(** src/backup/planning/BackupPreflightValidation.cpp:33-40 *)
Definition resolved_path (p : path) : path :=
  match weakly_canonical p with
  | None => normalized_path p
  | Some resolved => normalized_path resolved
  end.

(** src/backup/planning/BackupPreflightValidation.cpp:42-44 *)
Definition resolved_path_is_within (candidate base : path) : bool :=
  path_is_within (resolved_path candidate) (resolved_path base).

(** The loop over the required options.
    src/backup/planning/BackupPreflightValidation.cpp:71-77 *)
Fixpoint require_mount_options (opts mount_point : string) (required : list string) : res unit :=
  match required with
  | [] => Ok tt
  | option :: rest =>
      _ ← require (has_mount_option opts option)
            (ValidationError ("Backup target is missing required mount option " +:+ option
               +:+ ": " +:+ mount_point));
      require_mount_options opts mount_point rest
  end.

(** src/backup/planning/BackupPreflightValidation.cpp:48-91 *)
Definition validate_backup_target_mount (profile : Profile) (mounts : list MountEntry)
    (access : TargetMountAccess) : res MountEntry :=
  let mp := abs_value (mount_point (target profile)) in
  match mount_at mounts mp with
  | None => Throw (ValidationError ("Backup target is not mounted at " +:+ mp))
  | Some target_mount =>
      _ ← require (String.eqb (fstype target_mount) "btrfs")
            (ValidationError ("Backup target is not a Btrfs filesystem: " +:+ mp));
      let mapper_path := path_append "/dev/mapper" (mapper_name (target_identity (target profile))) in
      _ ← require (mount_uses_mapper mounts mp mapper_path)
            (ValidationError ("The filesystem mounted at " +:+ mp +:+ " is not " +:+ mapper_path));
      _ ← require (match access with
                   | ReadWrite => has_mount_option (options target_mount) "rw"
                   | ReadAccess => true
                   end)
            (ValidationError ("Backup target is not mounted read-write: " +:+ mp));
      _ ← require_mount_options (options target_mount) mp ["nodev"; "nosuid"; "noexec"; "nosymfollow"];
      _ ← require (negb (str_empty (filesystem_uuid target_mount)
                         || negb (String.eqb (lower (filesystem_uuid target_mount))
                                    (btrfs_uuid (target_identity (target profile))))))
            (ValidationError ("Btrfs UUID mismatch at " +:+ mp));
      let remote := abs_value (remote_root (paths profile)) in
      let incoming := abs_value (incoming_root (paths profile)) in
      _ ← require (resolved_path_is_within remote mp)
            (ValidationError ("REMOTE_ROOT escapes the backup mountpoint: " +:+ remote));
      _ ← require (resolved_path_is_within incoming mp)
            (ValidationError ("INCOMING_ROOT escapes the backup mountpoint: " +:+ incoming));
      Ok target_mount
  end.

(** One round of the loop over the sources.
    src/backup/planning/BackupPreflightValidation.cpp:95-108 *)
Definition validate_source_mounts (profile : Profile) (mounts : list MountEntry)
    (source : ProfileSource) : res unit :=
  let mp := abs_value (mount_point (target profile)) in
  let sub := abs_value (subvolume source) in
  let local_dir := abs_value (local_snapshot_dir source) in
  if negb (source_enabled source) then Ok tt
  else
    _ ← require (paths_are_same_filesystem mounts sub local_dir)
          (ValidationError ("LOCAL_SNAPSHOT_DIR must be on the same Btrfs filesystem as " +:+ sub));
    _ ← require (negb (paths_are_same_filesystem mounts sub mp))
          (ValidationError ("SOURCE_SUBVOLUME must not be on the backup target filesystem: " +:+ sub));
    require (negb (path_is_within local_dir mp))
      (ValidationError ("LOCAL_SNAPSHOT_DIR must not be inside the backup target: " +:+ local_dir)).

(** src/backup/planning/BackupPreflightValidation.cpp:93-110 *)
Definition validate_backup_mounts (profile : Profile) (mounts : list MountEntry)
    : res MountEntry :=
  target_mount ← validate_backup_target_mount profile mounts ReadWrite;
  _ ← res_mapM (validate_source_mounts profile mounts) (sources profile);
  Ok target_mount.
End validation.

(** ** Mount options

    The substring test of the code is membership in the comma-separated list. *)

Fixpoint split_comma (s : string) : list string :=
  match s with
  | EmptyString => [""]
  | String c r =>
      if Ascii.eqb c "," then "" :: split_comma r
      else match split_comma r with
           | h :: t => String c h :: t
           | [] => [String c ""]
           end
  end.

(** The fields, each behind a comma. *)
Fixpoint comma_fields (l : list string) : string :=
  match l with [] => "" | x :: l => "," +:+ x +:+ comma_fields l end.

Lemma split_comma_nonempty s : split_comma s <> [].
Proof. destruct s as [|c s]; simpl; [done|]. case_match; [done|]. by case_match. Qed.

Lemma split_comma_app a b : split_comma (a +:+ String "," b) = split_comma a ++ split_comma b.
Proof.
  induction a as [|c a IH]; simpl; [done|]. case_match; [by rewrite IH|].
  rewrite IH. destruct (split_comma a) eqn:E; [by apply split_comma_nonempty in E|done].
Qed.

Lemma split_comma_field s : str_contains "," s = false -> split_comma s = [s].
Proof.
  induction s as [|c s IH]; [done|]. rewrite str_contains_cons. intros H; breflect.
  simpl. destruct (Ascii.eqb c ",") eqn:E; breflect; [done|]. by rewrite IH.
Qed.

Lemma comma_fields_split s : comma_fields (split_comma s) = "," +:+ s.
Proof.
  induction s as [|c s IH]; [done|]. simpl. destruct (Ascii.eqb c ",") eqn:E.
  - breflect. subst. simpl. by rewrite IH.
  - destruct (split_comma s) as [|h t]; [done|]. simpl in *. by injection IH as ->.
Qed.

Lemma comma_fields_app l k : comma_fields (l ++ k) = comma_fields l +:+ comma_fields k.
Proof. induction l as [|x l IH]; [done|]. simpl. by rewrite IH, !string_app_assoc. Qed.

Lemma str_has_spec part text :
  str_has part text = true <-> exists a b, text = a +:+ part +:+ b.
Proof.
  induction text as [|c text IH]; simpl.
  - rewrite orb_false_r. split.
    + destruct part; [|done]. intros _. by exists "", "".
    + intros (a & b & H). destruct a; [|done]. by destruct part.
  - change (match part with "" => true | String _ _ => _ end)
      with (String.prefix part (String c text)).
    rewrite orb_true_iff, IH. split.
    + intros [H|(a & b & ->)].
      * apply prefix_inv in H as [b Hb]. exists "", b. done.
      * exists (String c a), b. done.
    + intros (a & b & H). destruct a as [|x a].
      * left. simpl in H. rewrite H. apply prefix_app.
      * right. injection H as -> ->. by exists a, b.
Qed.

Lemma has_mount_option_spec opts option :
  str_contains "," option = false ->
  has_mount_option opts option = true <-> option ∈ split_comma opts.
Proof.
  intros Ho. unfold has_mount_option. rewrite str_has_spec. split.
  - intros (a & b & H). apply (f_equal split_comma) in H.
    change ("," +:+ opts +:+ ",") with (String "," (opts +:+ String "," "")) in H.
    change (a +:+ ("," +:+ option +:+ ",") +:+ b)
      with (a +:+ String "," ((option +:+ ",") +:+ b)) in H.
    rewrite string_app_assoc in H.
    change (option +:+ "," +:+ b) with (option +:+ String "," b) in H.
    rewrite !split_comma_app, (split_comma_field option) in H by done.
    change (split_comma (String "," (opts +:+ String "," "")))
      with ("" :: split_comma (opts +:+ String "," "")) in H.
    rewrite split_comma_app in H. simpl in H.
    pose proof (split_comma_nonempty a) as Ha. pose proof (split_comma_nonempty b) as Hb.
    destruct (split_comma a) as [|a1 la]; [done|]. injection H as <- H.
    destruct (exists_last Hb) as (lb & b1 & E). rewrite E in H.
    rewrite app_comm_cons, app_assoc in H. apply app_inj_tail in H as [H _].
    rewrite H. set_solver.
  - intros H. apply list_elem_of_split in H as (l1 & l2 & E).
    assert (exists b, comma_fields l2 +:+ "," = "," +:+ b) as [b Hb].
    { destruct l2 as [|x l2]; [by exists ""|]. simpl. by eexists. }
    exists (comma_fields l1), b. rewrite <- string_app_assoc, <- comma_fields_split, E.
    rewrite comma_fields_app. simpl. rewrite !string_app_assoc. simpl.
    by rewrite string_app_assoc, Hb.
Qed.

(** ** Lookups in the mount table *)

Lemma mount_at_spec entries p m :
  mount_at entries p = Some m ->
  m ∈ entries /\ path_eqb (normalized_path (mnt_target m)) (normalized_path p) = true.
Proof.
  unfold mount_at. intros [H1 H2]%find_if_Some. split; [|done].
  apply list_elem_of_In. apply in_rev. by apply list_elem_of_In.
Qed.

(** A mount that contains the path. *)
Definition mount_contains (p : path) (m : MountEntry) : Prop :=
  mnt_target m <> "" /\ path_is_within (normalized_path p) (normalized_path (mnt_target m)) = true.

Definition mount_size (m : MountEntry) : nat := String.length (normalized_path (mnt_target m)).

(** The fold keeps the last of the longest containing mounts. *)
Definition best_mount (p : path) (seen : list MountEntry) (best : option (MountEntry * nat)) : Prop :=
  match best with
  | None => forall m, m ∈ seen -> ~ mount_contains p m
  | Some (b, n) =>
      b ∈ seen /\ mount_contains p b /\ n = mount_size b /\
      forall m, m ∈ seen -> mount_contains p m -> (mount_size m <= n)%nat
  end.

Lemma mount_step_best p seen best m :
  best_mount p seen best -> best_mount p (seen ++ [m]) (mount_step (normalized_path p) best m).
Proof.
  intros H. unfold mount_step.
  assert (Hskip : ~ mount_contains p m -> best_mount p (seen ++ [m]) best).
  { intros Hn. destruct best as [[b n]|]; simpl in *.
    - destruct H as (H1 & H2 & H3 & H4). split_and!; [set_solver|done|done|].
      intros m' [?| ->%list_elem_of_singleton]%elem_of_app ?; [auto|done].
    - intros m' [?| ->%list_elem_of_singleton]%elem_of_app; auto. }
  destruct (str_empty (mnt_target m)) eqn:E1.
  { apply Hskip. intros [H1 _]. by destruct (mnt_target m). }
  destruct (path_is_within (normalized_path p) (normalized_path (mnt_target m))) eqn:E2.
  2: { apply Hskip. intros [_ H2]. congruence. }
  assert (Hm : mount_contains p m) by (split; [by intros H0; rewrite H0 in E1|done]).
  destruct best as [[b n]|]; simpl in *.
  - destruct H as (H1 & H2 & H3 & H4). case_match eqn:E3; simpl.
    + apply Nat.leb_le in E3. split_and!; [set_solver|done|done|].
      intros m' [?| ->%list_elem_of_singleton]%elem_of_app ?; [|done].
      fold (mount_size m) in E3 |- *. specialize (H4 m'). lia || (etrans; [by apply H4|done]).
    + apply Nat.leb_gt in E3. split_and!; [set_solver|done|done|].
      intros m' [?| ->%list_elem_of_singleton]%elem_of_app ?; [auto|]. unfold mount_size. lia.
  - split_and!; [set_solver|done|done|].
    intros m' [?| ->%list_elem_of_singleton]%elem_of_app ?; [by destruct (H m')|done].
Qed.

(** A mount is found for a path exactly when one contains it, and the one
    found is the innermost: no mount that contains the path has a longer mount
    point. *)
Theorem mount_for_path_innermost entries p :
  match mount_for_path entries p with
  | Some b => b ∈ entries /\ mount_contains p b /\
      forall m, m ∈ entries -> mount_contains p m -> (mount_size m <= mount_size b)%nat
  | None => forall m, m ∈ entries -> ~ mount_contains p m
  end.
Proof.
  assert (H : forall seen best, best_mount p seen best ->
    best_mount p (seen ++ entries) (foldl (mount_step (normalized_path p)) best entries)).
  { induction entries as [|m entries IH]; intros seen best H; simpl; [by rewrite app_nil_r|].
    replace (seen ++ m :: entries) with ((seen ++ [m]) ++ entries) by (by rewrite <- app_assoc).
    apply IH. by apply mount_step_best. }
  specialize (H [] None ltac:(simpl; set_solver)). unfold mount_for_path.
  destruct (foldl _ None entries) as [[b n]|]; simpl in *; [|done].
  destruct H as (H1 & H2 & -> & H4). done.
Qed.

Lemma require_mount_options_Ok opts mp required u :
  require_mount_options opts mp required = Ok u ->
  Forall (λ o, has_mount_option opts o = true) required.
Proof.
  induction required as [|o rest IH]; simpl; [by constructor|]. intros H. res_inv.
  constructor; [done|]. by apply IH.
Qed.

#[local] Arguments require_mount_options : simpl never.

(** Mounts that pass the validation: the target's mount point is a Btrfs
    mount of the configured mapper device and filesystem UUID, mounted rw, nodev,
    nosuid, noexec and nosymfollow; the remote and incoming roots resolve to
    places inside it; and every enabled source has its snapshot directory on its
    own filesystem and off the target, and is not itself on the target. *)
Theorem validate_backup_mounts_sound canonical profile mounts m :
  validate_backup_mounts canonical profile mounts = Ok m ->
  let mp := abs_value (mount_point (target profile)) in
  mount_at mounts mp = Some m /\ m ∈ mounts /\ fstype m = "btrfs" /\
  path_eqb (normalized_path (strip_subvolume_suffix (mnt_source m)))
    (normalized_path (path_append "/dev/mapper" (mapper_name (target_identity (target profile))))) = true /\
  Forall (λ o, o ∈ split_comma (options m)) ["rw"; "nodev"; "nosuid"; "noexec"; "nosymfollow"] /\
  lower (filesystem_uuid m) = btrfs_uuid (target_identity (target profile)) /\
  resolved_path_is_within canonical (abs_value (remote_root (paths profile))) mp = true /\
  resolved_path_is_within canonical (abs_value (incoming_root (paths profile))) mp = true /\
  Forall (λ source, source_enabled source = true ->
    paths_are_same_filesystem mounts (abs_value (subvolume source))
      (abs_value (local_snapshot_dir source)) = true /\
    paths_are_same_filesystem mounts (abs_value (subvolume source)) mp = false /\
    path_is_within (abs_value (local_snapshot_dir source)) mp = false) (sources profile).
Proof.
  cbv zeta. unfold validate_backup_mounts, validate_backup_target_mount. intros H. res_inv.
  destruct (mount_at mounts _) as [m'|] eqn:Em; [|done]. res_inv.
  apply mount_at_spec in Em as Hm. destruct Hm as [Hin _].
  match goal with H : require_mount_options _ _ _ = Ok _ |- _ =>
    apply require_mount_options_Ok in H; rename H into Hopts end.
  breflect.
  split_and!; try done.
  - match goal with H : mount_uses_mapper _ _ _ = true |- _ =>
      unfold mount_uses_mapper in H; by rewrite Em in H end.
  - constructor; [by apply has_mount_option_spec|].
    rewrite !Forall_cons in Hopts. destruct Hopts as (? & ? & ? & ? & _).
    repeat (constructor; [by apply has_mount_option_spec|]). constructor.
  - match goal with H : res_mapM _ _ = Ok _ |- _ => apply res_mapM_Forall2 in H end.
    match goal with H : Forall2 _ _ _ |- _ => revert H end.
    generalize (sources profile). intros l Hf. induction Hf as [|src u l us Hs _ IH]; constructor; [|done].
    intros Hen. unfold validate_source_mounts in Hs. rewrite Hen in Hs. simpl in Hs. res_inv.
    by breflect.
Qed.

Definition sample_target_mount : MountEntry :=
  mkMount "/dev/mapper/backup[/data]" "/mnt/main" "btrfs" "/data"
    "rw,nodev,nosuid,noexec,nosymfollow,relatime" 40 "0:50" "BTRFS".

Definition sample_mounts : list MountEntry :=
  [ mkMount "/dev/sda2" "/" "btrfs" "/" "rw" 1 "0:30" "host"; sample_target_mount ].

Lemma validate_backup_mounts_sound_witness :
  validate_backup_mounts (λ _, None) sample_profile sample_mounts = Ok sample_target_mount /\
  lower (filesystem_uuid sample_target_mount) = "btrfs".
Proof.
  assert (H : validate_backup_mounts (λ _, None) sample_profile sample_mounts
              = Ok sample_target_mount) by (vm_compute; reflexivity).
  split; [exact H|].
  apply (validate_backup_mounts_sound _ _ _ _ H).
Defined.
