(* ===== verification/Planning.v ===== *)
(** * Preflight, discovery and planning (src/backup/planning)

    Before a run: the target is prepared and the mounts are checked, the snapshot
    directories and the pending markers of every enabled source are read, and the
    plan is built from what was found. *)

From S2P Require Import Prelude Errors Identifiers RuntimeTime FsPath ConfigDomain.
From S2P Require Import SnapshotInventory IncrementalParent RetentionPlan PendingRecovery RunActions BackupRunPlan.
From S2P Require Import Ports Effects Mounts.

Open Scope Z_scope.
Open Scope eff_scope.

Section planning.
Context {W : Type} (E : Env W).

(** src/backup/planning/BackupDiscovery.cpp:35-39 *)
Definition throw_if_cancelled (message : string) : M (W:=W) unit :=
  let! requested := ncall E CancellationRequested in
  if requested then throw (OperationCancelledError message) else ret tt.

(** ** BackupPreflight *)

(** The [catch (...)] of the preflight: the session is closed, and a failure to
    close it replaces the error. src/backup/planning/BackupPreflight.cpp:39-45 *)
Definition abandon_preflight {A} (e : exn) : M (W:=W) A :=
  let! cleanup_error := ncall E TargetClose in
  match cleanup_error with
  | Some cleanup => throw (ValidationError (tce_message cleanup))
  | None => throw e
  end.

(** The mount of the target, verified; the session is open when it returns.
    [weakly_canonical] is the resolution of symbolic links the validation uses.
    src/backup/planning/BackupPreflight.cpp:18-46 *)
Definition preflight_run (weakly_canonical : path -> option path) (profile : Profile)
    (mode : TargetMountMode) : M MountEntry :=
  throw_if_cancelled "backup cancelled during preflight" ;;
  call E (TargetPrepare profile mode) ;;
  try_catch
    (throw_if_cancelled "backup cancelled during preflight" ;;
     let! mounts := call E MountInspect in
     let! verified := lift (validate_backup_mounts weakly_canonical profile mounts) in
     throw_if_cancelled "backup cancelled during preflight" ;;
     ret verified)
    abandon_preflight.

(** ** The inventory of a directory, with a metadata reader that has effects *)

(** src/backup/model/SnapshotInventory.cpp:138-172 *)
Definition inventory_entry_m (scan_directory reported_directory : path) (source_id : SourceId)
    (sd : SnapshotSide) (reader : path -> M (W:=W) (option SnapshotMetadata)) (entry : DirEntry)
    : M (W:=W) (option SnapshotInfo) :=
  let entry_path := path_append scan_directory (entry_name entry) in
  match entry_status entry with
  | StatusError =>
      throw (ValidationError ("could not inspect snapshot inventory entry: " +:+ entry_path))
  | SymlinkEntry =>
      throw (ValidationError ("symbolic link is forbidden in snapshot inventory: "
               +:+ path_append reported_directory (filename entry_path)))
  | OtherEntry => ret None
  | DirectoryEntry =>
      let nm := filename entry_path in
      match parse_snapshot_name nm source_id with
      | None => ret None
      | Some parsed =>
          let! metadata := reader entry_path in
          match metadata with
          | Some m =>
              if negb (md_is_subvolume m) then ret None
              else ret (Some (mkSnapshot sd (sn_source_id parsed) (sn_name parsed)
                     (sn_timestamp parsed) (sn_sequence parsed)
                     (path_append reported_directory nm)
                     (md_readonly m) (md_uuid m) (md_received_uuid m)))
          | None => ret None
          end
      end
  end.

Fixpoint inventory_entries_m (scan_directory reported_directory : path) (source_id : SourceId)
    (sd : SnapshotSide) (reader : path -> M (W:=W) (option SnapshotMetadata)) (entries : list DirEntry)
    : M (W:=W) (list SnapshotInfo) :=
  match entries with
  | [] => ret []
  | e :: rest =>
      let! found := inventory_entry_m scan_directory reported_directory source_id sd reader e in
      let! others := inventory_entries_m scan_directory reported_directory source_id sd reader rest in
      ret (match found with Some s => s :: others | None => others end)
  end.

(** src/backup/model/SnapshotInventory.cpp:119-177 *)
Definition list_snapshot_inventory_m (scan_directory reported_directory : path)
    (source_id : SourceId) (sd : SnapshotSide) (reader : path -> M (W:=W) (option SnapshotMetadata))
    : M (W:=W) (list SnapshotInfo) :=
  let! view := call E (ScanDirectory scan_directory) in
  match view with
  | DirMissing => ret []
  | DirNotDirectory =>
      throw (ValidationError ("snapshot inventory path is not a directory: " +:+ reported_directory))
  | DirEntries entries =>
      let! snapshots := inventory_entries_m scan_directory reported_directory source_id sd reader entries in
      ret (std_sort metadata_sort_key_less snapshots)
  end.

(** ** BackupDiscovery *)

(** The metadata reader given to the inventory of the directory [dir] below the
    safe root [root]. src/backup/planning/BackupDiscovery.cpp:64-70 *)
Definition pinned_reader (root dir : path) (p : path) : M (option SnapshotMetadata) :=
  throw_if_cancelled "backup cancelled during discovery" ;;
  let! stable := call E (PinDirectory root (path_append dir (filename p))) in
  call E (ReadMetadata stable).

(** One side of a source; [None] when the directory does not exist.
    src/backup/planning/BackupDiscovery.cpp:57-72 *)
Definition discover_side (root dir : path) (source_id : SourceId) (sd : SnapshotSide)
    : M (option (list SnapshotInfo)) :=
  let! present := call E (RootExists root dir) in
  if present then
    let! stable := call E (PinDirectory root dir) in
    let! snapshots := list_snapshot_inventory_m stable dir source_id sd (pinned_reader root dir) in
    ret (Some snapshots)
  else ret None.

(** The snapshot a marker names. src/backup/planning/BackupDiscovery.cpp:92-101 *)
Definition discover_pending (marker : PendingMarker) : M (option SnapshotMetadata) :=
  let! present := call E (RootExists "/" (pm_local_snapshot_path marker)) in
  if present then
    let! stable := call E (PinDirectory "/" (pm_local_snapshot_path marker)) in
    call E (ReadMetadata stable)
  else ret None.

Definition set_inventory (sid : SourceId) (found : option (list SnapshotInfo))
    (inventory : SnapshotInventoryBySource) : SnapshotInventoryBySource :=
  match found with Some l => <[sid := l]> inventory | None => inventory end.

(** One round of the loop over the sources.
    src/backup/planning/BackupDiscovery.cpp:49-102 *)
Definition discover_source (profile : Profile) (state_dir : path)
    (found : BackupPlanningSnapshot) (source : ProfileSource) : M BackupPlanningSnapshot :=
  throw_if_cancelled "backup cancelled during discovery" ;;
  if negb (source_enabled source) then ret found
  else
    let sid := source_id source in
    let local_dir := abs_value (local_snapshot_dir source) in
    let remote_dir := path_append (abs_value (remote_root (paths profile)))
                        (rel_value (remote_subdir source)) in
    let! local := discover_side "/" local_dir sid Local in
    let! remote := discover_side (abs_value (mount_point (target profile))) remote_dir sid Remote in
    let! marker := call E (MarkerRead state_dir sid) in
    let! pendings :=
      match marker with
      | Some m =>
          let! pending := discover_pending m in
          ret (<[sid := pending]> (pending_snapshots found))
      | None => ret (pending_snapshots found)
      end in
    ret (mkPlanning (set_inventory sid local (local_inventory found))
           (set_inventory sid remote (remote_inventory found))
           (<[sid := marker]> (pending_markers found)) pendings (planning_state_dir found)).

Fixpoint discover_sources (profile : Profile) (state_dir : path)
    (found : BackupPlanningSnapshot) (srcs : list ProfileSource) : M BackupPlanningSnapshot :=
  match srcs with
  | [] => ret found
  | source :: rest =>
      let! found := discover_source profile state_dir found source in
      discover_sources profile state_dir found rest
  end.

(** src/backup/planning/BackupDiscovery.cpp:30-113 *)
Definition discover (profile : Profile) (ps : ApplicationPaths) : M BackupPlanningSnapshot :=
  throw_if_cancelled "backup cancelled during discovery" ;;
  let state_dir := profile_state_dir ps (id_value (profile_id profile)) in
  call E (OpenRoot "/") ;;
  call E (OpenRoot (abs_value (mount_point (target profile)))) ;;
  let! found := discover_sources profile state_dir (mkPlanning ∅ ∅ ∅ ∅ state_dir) (sources profile) in
  throw_if_cancelled "backup cancelled during discovery" ;;
  ret found.

(** ** BackupPlanBuilder *)

(** src/backup/planning/BackupPlanBuilder.cpp:11-35 *)
Definition plan_builder_build (profile : Profile) (snapshot : BackupPlanningSnapshot)
    (run_id : RunId) (snapshot_timestamp : RuntimeTimePoint) : M BackupRunPlan :=
  throw_if_cancelled "backup cancelled during planning" ;;
  let! plan := lift (build_backup_run_plan profile (local_inventory snapshot)
    (remote_inventory snapshot) (pending_markers snapshot) (pending_snapshots snapshot)
    (planning_state_dir snapshot) run_id snapshot_timestamp) in
  throw_if_cancelled "backup cancelled during planning" ;;
  ret plan.
End planning.

(** ** The inventory with effects is the inventory *)

Section inventory_m.
Context {W : Type} (E : Env W) (scan reported : path) (sid : SourceId) (sd : SnapshotSide).

Lemma inventory_entry_m_lift reader entry s :
  inventory_entry_m (W:=W) scan reported sid sd (λ p, lift (reader p)) entry s
  = lift (inventory_entry scan reported sid sd reader entry) s.
Proof.
  unfold inventory_entry_m, inventory_entry. destruct (entry_status entry); try done.
  destruct (parse_snapshot_name _ sid); [|done].
  unfold bind, lift. destruct (reader _) as [[m|]|e]; try done. simpl.
  by destruct (md_is_subvolume m).
Qed.

(** The inventory that calls its metadata reader as it goes computes the
    inventory of the directory that was listed. *)
Theorem inventory_refines reader s :
  list_snapshot_inventory_m E scan reported sid sd (λ p, lift (reader p)) s
  = bind (call E (ScanDirectory scan))
      (λ view, lift (list_snapshot_inventory_at scan reported sid sd (Some reader) view)) s.
Proof.
  unfold list_snapshot_inventory_m, bind.
  destruct (call E (ScanDirectory scan) s) as [[view|e|] s']; [|done|done].
  destruct view as [| |entries]; [done|done|]. simpl.
  assert (H : forall s, inventory_entries_m (W:=W) scan reported sid sd (λ p, lift (reader p)) entries s
    = lift (inventory_entries scan reported sid sd reader entries) s).
  { induction entries as [|e entries IH]; intros s0; [done|]. simpl. unfold bind.
    rewrite inventory_entry_m_lift.
    destruct (inventory_entry scan reported sid sd reader e) as [found|x]; [|done]. simpl.
    rewrite IH. by destruct (inventory_entries scan reported sid sd reader entries). }
  rewrite H. by destruct (inventory_entries scan reported sid sd reader entries).
Qed.
End inventory_m.

(** ** What discovery finds *)

(** Calls that only read. *)
Definition is_reading (e : Entry) : Prop :=
  match e with
  | Did p _ =>
      match p with
      | OpenRoot _ | PinDirectory _ _ | RootExists _ _ | ReadMetadata _ | ScanDirectory _
      | MarkerRead _ _ | MountInspect => True
      | _ => False
      end
  | DidN p _ => match p with CancellationRequested => True | _ => False end
  end.

(** A snapshot of the source in the directory. *)
Definition snapshot_in (dir : path) (sid : SourceId) (s : SnapshotInfo) : Prop :=
  snap_source_id s = sid /\ snap_path s = path_append dir (name s) /\
  is_Some (parse_snapshot_name (name s) sid).

Definition remote_dir_of (profile : Profile) (source : ProfileSource) : path :=
  path_append (abs_value (remote_root (paths profile))) (rel_value (remote_subdir source)).

(** The inventories hold snapshots of the enabled sources, in their directories. *)
Definition discovered (profile : Profile) (found : BackupPlanningSnapshot) : Prop :=
  forall sid s,
    (s ∈ snapshots_for (local_inventory found) sid ->
     exists source, source ∈ sources profile /\ source_enabled source = true /\
       source_id source = sid /\
       snapshot_in (abs_value (local_snapshot_dir source)) sid s) /\
    (s ∈ snapshots_for (remote_inventory found) sid ->
     exists source, source ∈ sources profile /\ source_enabled source = true /\
       source_id source = sid /\
       snapshot_in (remote_dir_of profile source) sid s).

Section discovery_facts.
Context {W : Type} (E : Env W).

Lemma throw_if_cancelled_only msg : only is_reading (throw_if_cancelled E msg).
Proof. unfold throw_if_cancelled. by repeat only_step. Qed.

Lemma pinned_reader_only root dir p : only is_reading (pinned_reader E root dir p).
Proof. unfold pinned_reader. only_step; [apply throw_if_cancelled_only|]. by repeat only_step. Qed.

(** What a program returns satisfies [Q], and it only reads. *)
Definition reads {A} (m : M (W:=W) A) (Q : A -> Prop) : Prop :=
  forall c, wp m (λ o t c', c' = c /\ Forall is_reading t /\
                  match o with Ret a => Q a | _ => True end) c.

Lemma reads_mono {A} (m : M (W:=W) A) (Q Q' : A -> Prop) :
  reads m Q -> (forall a, Q a -> Q' a) -> reads m Q'.
Proof.
  intros H HQ c. eapply wp_mono; [apply H|]. cbn beta. intros o t c' (-> & Ht & Ho).
  split; [done|]. split; [done|]. destruct o; auto.
Qed.

Lemma reads_ret {A} (a : A) (Q : A -> Prop) : Q a -> reads (ret a) Q.
Proof. intros H c. by wp_step. Qed.

Lemma reads_throw {A} e (Q : A -> Prop) : reads (throw e) Q.
Proof. intros c. by wp_step. Qed.

Lemma reads_only {A} (m : M (W:=W) A) : only is_reading m -> reads m (λ _, True).
Proof.
  intros H c. eapply wp_mono; [apply H|]. cbn beta. intros o t c' [-> Ht].
  split; [done|]. split; [done|]. by destruct o.
Qed.

Lemma reads_bind {A B} (m : M (W:=W) A) (f : A -> M B) Q R :
  reads m R -> (forall a, R a -> reads (f a) Q) -> reads (bind m f) Q.
Proof.
  intros Hm Hf c. wp_step. eapply wp_mono; [apply Hm|]. cbn beta.
  intros [a|e|] t c' (-> & Ht & H); [|done|done].
  eapply wp_mono; [by apply Hf|]. cbn beta. intros o t' c' (-> & Ht' & H').
  split; [done|]. split; [by apply Forall_app|done].
Qed.

Lemma inventory_entry_reads scan reported sid sd reader e :
  (forall p, only is_reading (reader p)) ->
  reads (inventory_entry_m (W:=W) scan reported sid sd reader e)
    (λ found, match found with Some s => snapshot_in reported sid s | None => True end).
Proof.
  intros Hr. unfold inventory_entry_m. destruct (entry_status e); try apply reads_throw; [|by apply reads_ret].
  set (nm := filename (path_append scan (entry_name e))).
  destruct (parse_snapshot_name nm sid) as [parsed|] eqn:Ep; [|by apply reads_ret].
  eapply reads_bind; [apply reads_only, Hr|]. intros [m|] _; [|by apply reads_ret].
  destruct (md_is_subvolume m); simpl; apply reads_ret; [|done].
  pose proof (parse_snapshot_name_inv _ _ _ Ep) as (r & _ & _ & _ & Hsrc & Hnm & _).
  split; [done|]. simpl. rewrite Hnm. split; [done|]. by rewrite Ep.
Qed.

Lemma inventory_entries_reads scan reported sid sd reader entries :
  (forall p, only is_reading (reader p)) ->
  reads (inventory_entries_m (W:=W) scan reported sid sd reader entries)
    (Forall (snapshot_in reported sid)).
Proof.
  intros Hr. induction entries as [|e entries IH]; simpl; [by apply reads_ret|].
  eapply reads_bind; [by apply inventory_entry_reads|]. intros found Hf.
  eapply reads_bind; [apply IH|]. intros others Ho. apply reads_ret.
  destruct found; [by constructor|done].
Qed.

Lemma discover_side_reads root dir sid sd :
  reads (discover_side E root dir sid sd)
    (λ found, match found with Some l => Forall (snapshot_in dir sid) l | None => True end).
Proof.
  unfold discover_side. eapply reads_bind; [apply reads_only; by only_step|].
  intros [] _; [|by apply reads_ret].
  eapply reads_bind; [apply reads_only; by only_step|]. intros stable _.
  eapply (reads_bind _ _ _ (Forall (snapshot_in dir sid))); [|intros l Hl; by apply reads_ret].
  unfold list_snapshot_inventory_m. eapply reads_bind; [apply reads_only; by only_step|].
  intros [| |entries] _; [by apply reads_ret|apply reads_throw|].
  eapply reads_bind; [apply inventory_entries_reads; intros; apply pinned_reader_only|].
  intros l Hl. apply reads_ret. rewrite Forall_forall in *. intros s. rewrite elem_of_std_sort. auto.
Qed.

Lemma set_inventory_snapshots sid found inv sid' :
  snapshots_for (set_inventory sid found inv) sid'
  = match found with
    | Some l => if decide (sid' = sid) then l else snapshots_for inv sid'
    | None => snapshots_for inv sid'
    end.
Proof.
  destruct found as [l|]; [|done]. unfold set_inventory, snapshots_for.
  destruct (decide (sid' = sid)) as [->|].
  - by rewrite lookup_insert_eq.
  - by rewrite lookup_insert_ne.
Qed.

Lemma discover_source_reads profile state_dir found source :
  source ∈ sources profile -> discovered profile found ->
  reads (discover_source E profile state_dir found source) (discovered profile).
Proof.
  intros Hin Hd. unfold discover_source.
  eapply reads_bind; [apply reads_only, throw_if_cancelled_only|]. intros _ _.
  destruct (source_enabled source) eqn:Een; simpl; [|by apply reads_ret].
  eapply reads_bind; [apply discover_side_reads|]. intros local Hl.
  eapply reads_bind; [apply discover_side_reads|]. intros remote Hr.
  eapply reads_bind; [apply reads_only; by only_step|]. intros marker _.
  eapply (reads_bind _ _ _ (λ _, True)).
  { apply reads_only. unfold discover_pending. repeat only_step; done. }
  intros pendings _. apply reads_ret. intros sid s. simpl. rewrite !set_inventory_snapshots.
  destruct (Hd sid s) as [Hd1 Hd2]. split.
  - destruct local as [l|]; [|done]. destruct (decide (sid = source_id source)) as [->|]; [|done].
    intros Hs. exists source. rewrite Forall_forall in Hl. auto.
  - destruct remote as [l|]; [|done]. destruct (decide (sid = source_id source)) as [->|]; [|done].
    intros Hs. exists source. rewrite Forall_forall in Hr. auto.
Qed.

Lemma discover_reads profile ps : reads (discover E profile ps) (discovered profile).
Proof.
  unfold discover. eapply reads_bind; [apply reads_only, throw_if_cancelled_only|]. intros _ _.
  do 2 (eapply reads_bind; [apply reads_only; by only_step|]; intros _ _).
  eapply (reads_bind _ _ _ (discovered profile)).
  2: { intros found Hf. eapply reads_bind; [apply reads_only, throw_if_cancelled_only|].
       intros _ _. by apply reads_ret. }
  set (state_dir := profile_state_dir _ _).
  assert (H : forall srcs found, srcs ⊆ sources profile -> discovered profile found ->
    reads (discover_sources E profile state_dir found srcs) (discovered profile)).
  { induction srcs as [|source rest IH]; intros found Hs Hf; simpl; [by apply reads_ret|].
    eapply reads_bind; [apply discover_source_reads; [set_solver|done]|].
    intros found' Hf'. apply IH; [set_solver|done]. }
  apply H; [done|]. intros sid s. unfold snapshots_for. simpl. rewrite !lookup_empty.
  split; by intros ?%not_elem_of_nil.
Qed.
End discovery_facts.

(** Discovery changes nothing: whatever the file system answers, it only
    lists, pins and reads; and the inventories it returns hold only snapshots of
    the profile's sources, each in the directory of its source and with a name of
    its source. *)
Theorem discovery_sound {W} (E : Env W) profile ps w :
  let '(o, t) := run_program (discover E profile ps) w in
  Forall is_reading t /\ match o with Ret found => discovered profile found | _ => True end.
Proof.
  destruct (wp_run _ _ w (discover_reads E profile ps None)) as (c & _ & H).
  by destruct (run_program _ _).
Qed.

(** ** Preflight *)

Section preflight_facts.
Context {W : Type} (E : Env W) (canonical : path -> option path) (profile : Profile)
  (mode : TargetMountMode).

Definition not_cancelled : Entry := DidN CancellationRequested false.

Definition prepared : list Entry := [not_cancelled; Did (TargetPrepare profile mode) (Ok tt)].

(** How a preflight goes: with the session open and the mounts verified, before
    the target was prepared, or with the session closed again. *)
Definition preflight_post (o : outcome MountEntry) (t : list Entry) : Prop :=
  (exists mounts m, o = Ret m /\ validate_backup_mounts canonical profile mounts = Ok m /\
     t = prepared ++ [not_cancelled; Did MountInspect (Ok mounts); not_cancelled]) \/
  (exists e, o = Exn e /\
     (t = [DidN CancellationRequested true] /\ is_operation_cancelled e = true \/
      t = [not_cancelled; Did (TargetPrepare profile mode) (Throw e)] \/
      exists mid closed, t = prepared ++ mid ++ [DidN TargetClose closed] /\
        Forall is_reading mid /\
        match closed with
        | Some failure => e = ValidationError (tce_message failure)
        | None => True
        end)).

Lemma abandon_wp e c pre :
  Forall is_reading pre ->
  wp (abandon_preflight (A:=MountEntry) E e)
    (λ o t c', c' = c /\ preflight_post o (prepared ++ pre ++ t)) c.
Proof.
  intros Hpre. unfold abandon_preflight. wp_step. wp_step. destruct a as [failure|]; wp_step.
  all: split; [done|]; right; eexists; split; [done|]; right; right; eexists pre, _; done.
Qed.

Lemma preflight_wp c :
  wp (preflight_run E canonical profile mode) (λ o t c', c' = c /\ preflight_post o t) c.
Proof.
  unfold preflight_run, throw_if_cancelled. do 3 wp_step. destruct a; wp_step.
  { split; [done|]. right. eexists. split; [done|]. by left. }
  do 2 wp_step. destruct r as [[]|e]; cbn [of_res].
  2: { split; [done|]. right. exists e. split; [done|]. right. by left. }
  do 4 wp_step. destruct a; wp_step.
  { eapply wp_mono; [apply (abandon_wp _ _ [DidN CancellationRequested true]); by repeat constructor|].
    done. }
  do 2 wp_step. destruct r as [mounts|e]; cbn [of_res].
  2: { eapply wp_mono; [apply (abandon_wp _ _ [not_cancelled; Did MountInspect (Throw e)]);
         by repeat constructor|]. done. }
  do 2 wp_step. destruct (validate_backup_mounts canonical profile mounts) as [m|e] eqn:Ev; cbn [of_res].
  2: { eapply wp_mono; [apply (abandon_wp _ _ [not_cancelled; Did MountInspect (Ok mounts)]);
         by repeat constructor|]. done. }
  do 3 wp_step. destruct a; wp_step.
  { eapply wp_mono; [apply (abandon_wp _ _ [not_cancelled; Did MountInspect (Ok mounts);
       DidN CancellationRequested true]); by repeat constructor|]. done. }
  wp_step. split; [done|]. left. by exists mounts, m.
Qed.

(** A preflight that returns has prepared the target and then verified the
    mounts as they were after that; one that fails after the target was prepared
    has closed the session as its last step, and reports a failure to close it. *)
Theorem preflight_outcomes w :
  let '(o, t) := run_program (preflight_run E canonical profile mode) w in preflight_post o t.
Proof.
  destruct (wp_run _ _ w (preflight_wp None)) as (c & _ & H). by destruct (run_program _ _).
Qed.
End preflight_facts.

(** ** What a plan built from an inventory may delete *)

(** The paths that belong to a source: named for it in one of its directories, or
    within one of them with a name that begins with the source's identifier (what
    a pending marker may name). *)
Definition belongs_in (dir : path) (sid : SourceId) (p : path) : Prop :=
  (exists nm, p = path_append dir nm /\ is_Some (parse_snapshot_name nm sid)) \/
  (path_is_within (lexically_normal p) dir = true /\
   String.prefix (id_value sid +:+ "-") (filename (lexically_normal p)) = true).

Definition belongs_to (profile : Profile) (source : ProfileSource) (p : path) : Prop :=
  belongs_in (abs_value (local_snapshot_dir source)) (source_id source) p \/
  belongs_in (remote_dir_of profile source) (source_id source) p.

Lemma marker_valid_belongs m sid local_dir remote_dir :
  marker_path_is_valid m sid local_dir remote_dir = true ->
  belongs_in local_dir sid (pm_local_snapshot_path m) /\
  belongs_in remote_dir sid (pm_final_snapshot_path m).
Proof.
  unfold marker_path_is_valid. intros H. repeat case_match; try done. breflect.
  split; right; split; try done.
  match goal with H : path_eqb _ _ = true |- _ => apply filename_eqb in H as -> end. done.
Qed.

Lemma recovery_belongs source context ps p :
  let recovery := source_recovery source context ps in
  remote_snapshot_directory ps = remote_dir_of (ctx_profile context) source ->
  pending_local_deletion recovery = Some p \/ pending_remote_deletion recovery = Some p ->
  belongs_to (ctx_profile context) source p.
Proof.
  cbv zeta. intros Hdir Hp. unfold source_recovery in Hp.
  match type of Hp with context [plan_pending_recovery ?a ?b ?c ?d ?e ?f ?g ?h] =>
    destruct (recovery_effects_cases a b c d e f g h) as [[Ee _]|(m & Em & Hc)] end.
  { unfold pending_local_deletion, pending_remote_deletion in Hp. rewrite Ee in Hp. by destruct Hp. }
  destruct Hc as [Ee|(Hv & md & _ & _ & Hc)].
  { unfold pending_local_deletion, pending_remote_deletion in Hp. rewrite Ee in Hp. by destruct Hp. }
  apply marker_valid_belongs in Hv as [Hl Hr]. rewrite Hdir in Hr.
  unfold belongs_to. unfold pending_local_deletion, pending_remote_deletion in Hp.
  destruct Hc as [[Ee _]|(_ & _ & [[Ee _]|Ee])]; rewrite Ee in Hp; simpl in Hp;
    destruct Hp as [Hp|Hp]; simplify_eq; auto.
Qed.

Lemma snapshot_in_belongs dir sid s : snapshot_in dir sid s -> belongs_in dir sid (snap_path s).
Proof. intros (_ & Hp & Hn). left. by exists (name s). Qed.

(** The snapshots retention deletes are those of the inventory or the new one. *)
Lemma retention_paths (P : path -> Prop) sid old new count p :
  (forall s, s ∈ old -> P (snap_path s)) -> P (snap_path new) ->
  p ∈ map snap_path (delete_snapshots (plan_count_retention sid (old ++ [new]) count)) -> P p.
Proof.
  intros Hold Hnew (s & -> & Hs)%list_elem_of_fmap.
  destruct (proj1 (plan_count_retention_elem sid (old ++ [new]) count s)) as [Hin _]; [by left|].
  apply elem_of_app in Hin as [Hin|Hin]; [by apply Hold|].
  by apply list_elem_of_singleton in Hin as ->.
Qed.
