(* ===== verification/Storage.v ===== *)
(** * Target storage (src/backup/model/TargetStorageMeasurement, src/backup/TargetStorageRecorder)

    How full the target is, in unsigned 64-bit arithmetic, and recording it. *)

From S2P Require Import Prelude Errors Identifiers RuntimeTime FsPath ConfigDomain.
From S2P Require Import SnapshotInventory RetentionPlan PendingRecovery RunActions Ports Effects.

Open Scope Z_scope.
Open Scope eff_scope.

(** ** FilesystemSpace *)

Definition u64 (z : Z) : Z := z mod 2 ^ 64.

(** src/backup/model/TargetStorageMeasurement.cpp:11-13 *)
Definition space_valid (s : FilesystemSpace) : bool :=
  ((free_bytes s <=? capacity_bytes s) && (available_bytes s <=? free_bytes s))%bool.

(** src/backup/model/TargetStorageMeasurement.cpp:15-17 *)
Definition used_bytes (s : FilesystemSpace) : Z :=
  if space_valid s then u64 (capacity_bytes s - free_bytes s) else 0.

(** The loop over the percentages; [rounds] are left of the 100.
    src/backup/model/TargetStorageMeasurement.cpp:31-38 *)
Fixpoint usage_loop (rounds : nat) (percent used whole_percent remainder : Z) : Z :=
  match rounds with
  | O => 100
  | S rounds =>
      let threshold := u64 (u64 (whole_percent * percent) + u64 (remainder * percent) / 100) in
      if used <=? threshold then percent
      else usage_loop rounds (percent + 1) used whole_percent remainder
  end.

(** src/backup/model/TargetStorageMeasurement.cpp:19-39 *)
Definition usage_percent (s : FilesystemSpace) : Z :=
  if negb (space_valid s) then 0
  else
    let used := used_bytes s in
    let usable_total := u64 (used + available_bytes s) in
    if ((usable_total =? 0) || (used =? 0))%bool then 0
    else usage_loop 100 1 used (usable_total / 100) (usable_total mod 100).

(** ** TargetStorageRecorder *)

(** src/backup/TargetStorageRecorder.cpp:13-18 *)
Definition warning_code (e : exn) : ErrorCode := default BackupFailed (coded_error e).

(** src/backup/TargetStorageRecorder.cpp:28-51 *)
Definition recorder_record {W} (E : Env W) (profile : Profile) (verified_target_mount : MountEntry)
    : M (W:=W) (option BackupCompletionWarning) :=
  try_catch
    (let! measured := call E (MeasureSpace (abs_value (mount_point (target profile)))
                                verified_target_mount) in
     let! now := call E ClockNow in
     call E (WriteMeasurement profile (mkMeasurement measured now)) ;;
     ret None)
    (λ e,
      if is_std_exception e
      then ret (Some (mkWarning TargetStorageMeasurementWarning (warning_code e) (exn_what e)))
      else ret (Some (mkWarning TargetStorageMeasurementWarning BackupFailed
                        "unknown target storage measurement error"))).

(** ** The percentage *)

(** Sizes as the machine has them. *)
Definition space_in_range (s : FilesystemSpace) : Prop :=
  0 <= capacity_bytes s < 2 ^ 64 /\ 0 <= free_bytes s < 2 ^ 64 /\ 0 <= available_bytes s < 2 ^ 64.

(** The threshold of a percentage is that part of the total, rounded down, and its
    computation does not overflow. *)
Lemma threshold_spec total p :
  0 <= total < 2 ^ 64 -> 0 <= p <= 100 ->
  u64 (u64 (total / 100 * p) + u64 (total mod 100 * p) / 100) = total * p / 100.
Proof.
  intros Ht Hp. pose proof (Z.div_mod total 100 ltac:(lia)) as Hdm.
  pose proof (Z.mod_pos_bound total 100 ltac:(lia)) as Hm.
  set (q := total / 100) in *. set (r := total mod 100) in *.
  assert (Hq : 0 <= q <= total / 100) by (subst q; split; [apply Z.div_pos; lia|lia]).
  assert (Hqp : 0 <= q * p <= 100 * q) by nia.
  assert (Hrp : 0 <= r * p <= r * 100) by nia.
  assert (Hd : 0 <= r * p / 100 <= r).
  { split; [apply Z.div_pos; lia|]. apply Z.div_le_upper_bound; lia. }
  unfold u64. rewrite (Z.mod_small (q * p)) by lia. rewrite (Z.mod_small (r * p)) by lia.
  rewrite Z.mod_small by lia.
  replace (total * p) with (q * p * 100 + r * p) by (rewrite Hdm; ring).
  by rewrite Z.div_add_l by lia.
Qed.

Lemma threshold_le total used p :
  used <= total * p / 100 <-> 100 * used <= total * p.
Proof.
  split; intros H.
  - pose proof (Z.mul_div_le (total * p) 100 ltac:(lia)). lia.
  - apply Z.div_le_lower_bound; lia.
Qed.

(** The loop finds the least percentage that covers what is used. *)
Lemma usage_loop_least total used : 0 <= total < 2 ^ 64 -> forall rounds p,
  1 <= p -> p + Z.of_nat rounds = 101 ->
  (exists q, p <= q <= 100 /\ 100 * used <= total * q) ->
  let r := usage_loop rounds p used (total / 100) (total mod 100) in
  p <= r <= 100 /\ 100 * used <= total * r /\
  (forall q, p <= q < r -> total * q < 100 * used).
Proof.
  intros Ht. induction rounds as [|rounds IH]; intros p Hp Hr (q & Hq & Hcov); [lia|].
  cbn [usage_loop]. rewrite threshold_spec by lia.
  destruct (Z.leb_spec used (total * p / 100)) as [Hle|Hgt].
  - apply threshold_le in Hle. split; [lia|]. split; [done|]. lia.
  - assert (Hn : total * p < 100 * used).
    { destruct (Z_lt_le_dec (total * p) (100 * used)) as [|H]; [done|].
      apply threshold_le in H. lia. }
    assert (p <> q) by (intros ->; lia).
    destruct (IH (p + 1)) as (H1 & H2 & H3); [lia|lia|exists q; split; [lia|done]|].
    split; [lia|]. split; [done|]. intros x Hx.
    destruct (Z.eq_dec x p) as [->|]; [done|]. apply H3. lia.
Qed.

(** C36.  For every 64-bit size report the percentage is between 0 and 100; for a
    consistent one (no more available than free, no more free than there is) it is the
    share of the usable space that is used, rounded up, without intermediate overflow,
    and 0 only if nothing is used. *)
Theorem usage_percent_spec s :
  space_in_range s ->
  0 <= usage_percent s <= 100 /\
  (available_bytes s <= free_bytes s <= capacity_bytes s ->
     let used := capacity_bytes s - free_bytes s in
     let total := used + available_bytes s in
     used_bytes s = used /\ total < 2 ^ 64 /\
     (usage_percent s = 0 <-> used = 0) /\
     (0 < used ->
        100 * used <= total * usage_percent s /\ total * (usage_percent s - 1) < 100 * used)).
Proof.
  intros (Hc & Hf & Ha). unfold usage_percent.
  destruct (space_valid s) eqn:Ev; cbn [negb].
  2:{ split; [lia|]. intros Hv. unfold space_valid in Ev. breflect; lia. }
  assert (Hu : used_bytes s = capacity_bytes s - free_bytes s).
  { unfold used_bytes. rewrite Ev. unfold space_valid in Ev. breflect.
    unfold u64. apply Z.mod_small. lia. }
  unfold space_valid in Ev. breflect. rewrite !Hu.
  set (used := capacity_bytes s - free_bytes s) in *.
  assert (Htot : u64 (used + available_bytes s) = used + available_bytes s)
    by (unfold u64; apply Z.mod_small; lia).
  rewrite Htot. set (total := used + available_bytes s) in *.
  destruct (Z.eqb_spec total 0); cbn [orb].
  { split; [lia|]. intros _. repeat (split; [lia|]). lia. }
  destruct (Z.eqb_spec used 0) as [He|He].
  { split; [lia|]. intros _. repeat (split; [lia|]). lia. }
  destruct (usage_loop_least total used ltac:(lia) 100 1 ltac:(lia) ltac:(lia)) as (H1 & H2 & H3).
  { exists 100. lia. }
  set (r := usage_loop _ _ _ _ _) in *. split; [lia|]. intros _.
  split; [done|]. split; [lia|]. split; [lia|]. intros _. split; [done|].
  destruct (Z.eq_dec r 1) as [->|]; [lia|]. apply H3. lia.
Qed.

Lemma usage_percent_spec_witness :
  let s := mkSpace 18446744073709551615 9223372036854775807 4611686018427387903 in
  usage_percent s = 67 /\ 0 <= usage_percent s <= 100.
Proof.
  cbv zeta. split; [vm_compute; reflexivity|].
  apply (usage_percent_spec (mkSpace 18446744073709551615 9223372036854775807 4611686018427387903)).
  unfold space_in_range. simpl. lia.
Defined.
