(* ===== verification/Transfer.v ===== *)
(** * Transfers (src/backup/transfer)

    The result of a send/receive pipeline, the commands of the pipeline,
    verification and commit of a received snapshot, and the coordinator that
    sizes and then runs a transfer while it watches for cancellation. *)

From S2P Require Import Prelude Errors Identifiers RuntimeTime FsPath ConfigDomain.
From S2P Require Import SnapshotInventory RetentionPlan PendingRecovery RunActions Ports Effects.

Open Scope Z_scope.
Open Scope eff_scope.

(** ** TransferResult.cpp *)

(** src/backup/transfer/TransferResult.cpp:29-31 *)
Definition side_started (side : TransferSideResult) : bool :=
  match side with TransferNotStarted _ => false | _ => true end.

(** src/backup/transfer/TransferResult.cpp:33-38 *)
Definition side_exit_code (side : TransferSideResult) : option Z :=
  match side with TransferExited code _ => Some code | _ => None end.

(** src/backup/transfer/TransferResult.cpp:40-42 *)
Definition side_diagnostics (side : TransferSideResult) : string :=
  match side with
  | TransferNotStarted d | TransferRunning d | TransferExited _ d => d
  end.

(** src/backup/transfer/TransferResult.cpp:48-50 *)
Definition mark_exited (side : TransferSideResult) (code : Z) : TransferSideResult :=
  TransferExited code (side_diagnostics side).

(** src/backup/transfer/TransferResult.cpp:54-65 *)
Definition side_failure (side : string) (result : TransferSideResult) : string :=
  let message := side +:+ " failed" in
  let message :=
    if negb (side_started result) then message +:+ " before start"
    else message +:+ " with exit code " +:+ pretty (default (-1) (side_exit_code result)) in
  if negb (str_empty (side_diagnostics result)) then message +:+ ": " +:+ side_diagnostics result
  else message.

Definition exited_zero (side : TransferSideResult) : bool :=
  bool_decide (side_exit_code side = Some 0).

(** src/backup/transfer/TransferResult.cpp:69-71 *)
Definition transfer_succeeded (result : TransferResult) : bool :=
  (negb (cancelled result) && exited_zero (producer result) && exited_zero (consumer result))%bool.

(** src/backup/transfer/TransferResult.cpp:73-93 *)
Definition transfer_failure_error_code (result : TransferResult) : option ErrorCode :=
  if transfer_succeeded result then None
  else if cancelled result then Some RunnerCancelled
  else
    let producer_failed := negb (exited_zero (producer result)) in
    let consumer_failed := negb (exited_zero (consumer result)) in
    if (producer_failed && consumer_failed)%bool then Some TransferProducerConsumerFailed
    else if producer_failed then Some TransferProducerFailed
    else if consumer_failed then Some TransferConsumerFailed
    else Some TransferFailed.

(** src/backup/transfer/TransferResult.cpp:95-117 *)
Definition require_transfer_success (result : TransferResult) : res unit :=
  if transfer_succeeded result then Ok tt
  else if cancelled result then Throw (ValidationError "Transfer was cancelled")
  else
    let producer_failed := negb (exited_zero (producer result)) in
    let consumer_failed := negb (exited_zero (consumer result)) in
    if (producer_failed && consumer_failed)%bool
    then Throw (ValidationError ("Transfer failed: " +:+ side_failure "producer" (producer result)
                  +:+ "; " +:+ side_failure "consumer" (consumer result)))
    else if producer_failed
    then Throw (ValidationError (side_failure "producer" (producer result)))
    else if consumer_failed
    then Throw (ValidationError (side_failure "consumer" (consumer result)))
    else Throw (ValidationError "Transfer failed").

(** ** SnapshotTransfer.cpp, TransferSizing.cpp *)

(** src/backup/transfer/SnapshotTransfer.hpp:17-20 *)
Record SendReceiveCommandPlan := mkCommands {
  send_argv : list string;
  receive_argv : list string;
}.

(** src/backup/transfer/SnapshotTransfer.cpp:17-31 *)
Definition build_send_receive_command_plan (snapshot_path parent_path receive_directory : path)
    : SendReceiveCommandPlan :=
  mkCommands
    (["btrfs"; "send"; "--proto"; "2"; "--compressed-data"]
     ++ (if negb (str_empty parent_path) then ["-p"; parent_path] else [])
     ++ [snapshot_path])
    ["btrfs"; "receive"; receive_directory].

(** src/backup/transfer/SnapshotTransfer.cpp:33-47 *)
Definition verify_received_snapshot (source_id : SourceId)
    (local_snapshot received_snapshot : SnapshotMetadata) : res unit :=
  if negb (md_is_subvolume received_snapshot)
  then Throw (ValidationError "btrfs receive did not create the expected subvolume")
  else if negb (md_readonly received_snapshot)
  then Throw (ValidationError "Received subvolume is not readonly")
  else if negb (uuid_matches (md_uuid local_snapshot) (md_received_uuid received_snapshot))
  then Throw (ValidationError ("Received UUID does not match the local snapshot UUID for "
                +:+ id_value source_id))
  else Ok tt.

(** src/backup/transfer/TransferSizing.cpp:9-13 *)
Definition make_stream_sizing_plan (transfer_plan : TransferPipelinePlan) : TransferPipelinePlan :=
  mkTransferPlan (producer_argv transfer_plan) ["btrfs"; "receive"; "--dump"]
    (bytes_total_estimated transfer_plan) (retained_resources transfer_plan).

Definition verification_error : string :=
  "Committed snapshot Received UUID does not match the local snapshot UUID".

(** [!committed.has_value() || !uuid_matches(expected, committed->received_uuid)] *)
Definition committed_matches (expected : SnapshotUuid) (md : option SnapshotMetadata) : bool :=
  match md with
  | Some m => uuid_matches expected (md_received_uuid m)
  | None => false
  end.

Section transfers.
Context {W : Type} (E : Env W).

(** The [catch] of a failed cleanup: only a [std::exception] is translated.
    src/backup/transfer/SnapshotTransfer.cpp:95-100 *)
Definition cleanup_failed (final_path : path) (e : exn) : M (W:=W) unit :=
  if is_std_exception e
  then throw (RecoveryRequiredError RepositoryRecoveryRequired
         (verification_error +:+ "; cleanup failed for " +:+ final_path +:+ ": " +:+ exn_what e
          +:+ "; repository requires recovery"))
  else throw e.

(** src/backup/transfer/SnapshotTransfer.cpp:49-75 *)
Definition commit_received_snapshot (received_path final_path : path)
    (expected_received_uuid : SnapshotUuid) : M unit :=
  let! present := call E (FsExists final_path) in
  if present then throw (ValidationError ("Destination snapshot already exists: " +:+ final_path))
  else
    call E (CreateReadonlySnapshot received_path final_path) ;;
    let! committed := call E (ReadMetadata final_path) in
    if committed_matches expected_received_uuid committed then ret tt
    else
      try_catch (call E (DeleteSubvolume final_path)) (cleanup_failed final_path) ;;
      throw (ValidationError verification_error).

(** src/backup/transfer/SnapshotTransfer.cpp:77-103 *)
Definition commit_received_snapshot_beneath (root received_path final_path : path)
    (expected_received_uuid : SnapshotUuid) : M unit :=
  let! present := call E (RootExists root final_path) in
  if present then throw (ValidationError ("Destination snapshot already exists: " +:+ final_path))
  else
    call E (CreateReadonlySnapshotBeneath root received_path root final_path) ;;
    let! committed := call E (ReadMetadataBeneath root final_path) in
    if committed_matches expected_received_uuid committed then ret tt
    else
      try_catch (call E (DeleteSubvolumeBeneath root final_path)) (cleanup_failed final_path) ;;
      throw (ValidationError verification_error).

(** ** TransferCoordinator.cpp *)

(** A sink for transfer events. *)
Definition TransferSink := TransferEvent -> M (W:=W) unit.

(** src/backup/transfer/TransferCoordinator.cpp:25-45 *)
Definition stream_sizing_sink (events : TransferSink) : TransferSink := λ event,
  if negb (bool_decide (te_kind event = Progress)) then ret tt
  else events (mkTransferEvent Progress ActivitySizing 0 0 0 0 (te_elapsed_ms event)
         (te_speed_bps event) "Measuring Btrfs send stream.").

(** src/backup/transfer/TransferCoordinator.cpp:47-80 *)
Definition transfer_plan_for_action (snapshot : path) (parent : option path)
    (remote_snapshot_directory incoming_run_directory target_mount_point : path)
    : M TransferPipelinePlan :=
  call E (OpenRoot "/") ;;
  call E (OpenRoot target_mount_point) ;;
  call E (EnsureDirectory target_mount_point remote_snapshot_directory) ;;
  call E (EnsureDirectory target_mount_point incoming_run_directory) ;;
  let! snapshot := call E (PinDirectory "/" snapshot) in
  let! receive := call E (PinDirectory target_mount_point incoming_run_directory) in
  let! parent :=
    match parent with
    | Some p => let! pinned := call E (PinDirectory "/" p) in ret (Some pinned)
    | None => ret None
    end in
  let command_plan := build_send_receive_command_plan snapshot (default "" parent) receive in
  ret (mkTransferPlan (send_argv command_plan) (receive_argv command_plan) 0
         ([snapshot; receive] ++ match parent with Some p => [p] | None => [] end)).

(** The events the transfer thread delivered; an exception of the sink is the
    thread's, not the waiting code's. *)
Definition deliver (events : TransferSink) (delivered : list TransferEvent) : M unit :=
  for_each (λ event, try_catch (events event) (λ _, ret tt)) delivered.

(** [fuel] bounds the number of rounds.
    src/backup/transfer/TransferCoordinator.cpp:82-88 *)
Fixpoint wait_for_transfer_or_cancellation (fuel : nat) (transfer : nat) (events : TransferSink)
    : M unit :=
  match fuel with
  | O => diverge
  | S fuel =>
      let! (finished, delivered) := call E (TransferWaitFor transfer) in
      deliver events delivered ;;
      if finished then ret tt
      else
        let! requested := ncall E CancellationRequested in
        (if requested then call E (TransferRequestCancel transfer) else ret tt) ;;
        wait_for_transfer_or_cancellation fuel transfer events
  end.

(** src/backup/transfer/TransferCoordinator.cpp:90-97 *)
Definition require_success_with_error_code (result : TransferResult) : res unit :=
  match require_transfer_success result with
  | Throw e =>
      if is_validation_error e
      then Throw (CodedValidationError
             (default TransferFailed (transfer_failure_error_code result)) (exn_what e))
      else Throw e
  | ok => ok
  end.

(** src/backup/transfer/TransferCoordinator.cpp:99-108 *)
Definition run_pipeline (fuel : nat) (plan : TransferPipelinePlan) (events : TransferSink)
    : M TransferResult :=
  let! transfer := call E (TransferStart plan) in
  wait_for_transfer_or_cancellation fuel transfer events ;;
  call E (TransferWait transfer).

Definition with_estimate (plan : TransferPipelinePlan) (bytes : Z) : TransferPipelinePlan :=
  mkTransferPlan (producer_argv plan) (consumer_argv plan) bytes (retained_resources plan).

(** src/backup/transfer/TransferCoordinator.cpp:119-141 *)
Definition coordinator_execute (fuel : nat) (snapshot : path) (parent : option path)
    (remote_snapshot_directory incoming_run_directory target_mount_point : path)
    (events : TransferSink) : M TransferResult :=
  let! plan := transfer_plan_for_action snapshot parent remote_snapshot_directory
    incoming_run_directory target_mount_point in
  let! sizing_result := run_pipeline fuel (make_stream_sizing_plan plan)
    (stream_sizing_sink events) in
  if cancelled sizing_result then ret sizing_result
  else
    lift (require_success_with_error_code sizing_result) ;;
    let! result := run_pipeline fuel (with_estimate plan (bytes_transferred sizing_result)) events in
    (if negb (cancelled result) then lift (require_success_with_error_code result) else ret tt) ;;
    ret result.
End transfers.

(** ** Results *)

(** A transfer result is accepted exactly when it was not cancelled and
    both sides exited with 0; a refused one has an error code that names the side
    that failed, and the coded error carries it. *)
Theorem transfer_result_codes (r : TransferResult) :
  (transfer_succeeded r = true <->
     cancelled r = false /\ side_exit_code (producer r) = Some 0 /\
     side_exit_code (consumer r) = Some 0) /\
  (transfer_failure_error_code r = None <-> transfer_succeeded r = true) /\
  match require_success_with_error_code r with
  | Ok _ => transfer_succeeded r = true
  | Throw e =>
      is_validation_error e = true /\
      exists code, coded_error e = Some code /\ transfer_failure_error_code r = Some code /\
        (code = TransferProducerFailed <->
           cancelled r = false /\ side_exit_code (producer r) <> Some 0 /\
           side_exit_code (consumer r) = Some 0) /\
        (code = TransferConsumerFailed <->
           cancelled r = false /\ side_exit_code (producer r) = Some 0 /\
           side_exit_code (consumer r) <> Some 0) /\
        (code = TransferProducerConsumerFailed <->
           cancelled r = false /\ side_exit_code (producer r) <> Some 0 /\
           side_exit_code (consumer r) <> Some 0)
  end.
Proof.
  unfold require_success_with_error_code, require_transfer_success, transfer_failure_error_code,
    transfer_succeeded, exited_zero.
  destruct (cancelled r); simpl;
    repeat case_bool_decide; simpl; split_and!; try naive_solver;
    eexists; split_and!; naive_solver.
Qed.

(** ** Commit *)

Section commit.
Context {W : Type} (E : Env W) (root received final : path) (expected : SnapshotUuid).

Definition commit_created : list Entry :=
  [Did (RootExists root final) (Ok false);
   Did (CreateReadonlySnapshotBeneath root received root final) (Ok tt)].

(** The ways a commit can go. *)
Definition commit_post (o : outcome unit) (t : list Entry) : Prop :=
  (exists md, o = Ret tt /\ uuid_matches expected (md_received_uuid md) = true /\
     t = commit_created ++ [Did (ReadMetadataBeneath root final) (Ok (Some md))]) \/
  (exists e, o = Exn e /\
     (t = [Did (RootExists root final) (Ok true)] /\ is_validation_error e = true \/
      t = [Did (RootExists root final) (Throw e)] \/
      t = [Did (RootExists root final) (Ok false);
           Did (CreateReadonlySnapshotBeneath root received root final) (Throw e)] \/
      t = commit_created ++ [Did (ReadMetadataBeneath root final) (Throw e)] \/
      exists md, committed_matches expected md = false /\
        (t = commit_created ++ [Did (ReadMetadataBeneath root final) (Ok md);
                                Did (DeleteSubvolumeBeneath root final) (Ok tt)]
           /\ is_validation_error e = true /\ coded_error e = None \/
         exists e', t = commit_created ++ [Did (ReadMetadataBeneath root final) (Ok md);
                                           Did (DeleteSubvolumeBeneath root final) (Throw e')] /\
           if is_std_exception e' then coded_error e = Some RepositoryRecoveryRequired else e = e'))).

Lemma commit_beneath_wp c :
  wp (commit_received_snapshot_beneath E root received final expected)
    (λ o t c', c' = c /\ commit_post o t) c.
Proof.
  unfold commit_received_snapshot_beneath, commit_post, commit_created.
  do 2 wp_step. destruct r as [present|e]; cbn [of_res].
  2: { split; [done|]. right. exists e. auto. }
  destruct present; wp_step.
  { split; [done|]. right. eexists. split; [done|]. auto. }
  wp_step. destruct r as [[]|e]; cbn [of_res].
  2: { split; [done|]. right. exists e. split; [done|]. right; right; left. done. }
  do 2 wp_step. destruct r as [md|e]; cbn [of_res].
  2: { split; [done|]. right. exists e. split; [done|]. do 3 right; left. done. }
  destruct (committed_matches expected md) eqn:Em; wp_step.
  { split; [done|]. left. destruct md as [m|]; [|done]. exists m. done. }
  do 2 wp_step. destruct r as [[]|e']; cbn [of_res].
  { wp_step. split; [done|]. right. eexists. split; [done|]. do 4 right. exists md.
    split; [done|]. left. done. }
  unfold cleanup_failed. destruct (is_std_exception e') eqn:Es; wp_step.
  all: split; [done|]; right; eexists; split; [done|]; do 4 right; exists md; split; [done|];
    right; exists e'; rewrite Es; done.
Qed.
End commit.

(** C9.  Committing a received snapshot: the exact calls of every outcome.  It succeeds only if
    the destination did not exist, the snapshot was created and the metadata read back carries
    the expected received UUID.  It fails without having created or deleted anything when the
    destination exists, when that cannot be told, and when the creation fails.  It fails with
    the created snapshot left at the destination when the read-back itself throws.  When the
    read-back answers, but with no metadata or another UUID, the created snapshot is deleted and
    a validation error reported; a standard exception of that deletion is reported as
    [repository.recovery_required], and any other exception of it passes unchanged. *)
Theorem commit_beneath_spec {W} (E : Env W) root received final expected w :
  let '(o, t) := run_program (commit_received_snapshot_beneath E root received final expected) w in
  commit_post root received final expected o t.
Proof.
  destruct (wp_run _ _ w (commit_beneath_wp E root received final expected None)) as (c & _ & H).
  by destruct (run_program _ _).
Qed.

(** A read-back that throws leaves the snapshot just created at the destination: the exception
    passes, and the commit deletes nothing. *)
Theorem unreadable_commit_stays {W} (E : Env W) root received final expected w o t e :
  run_program (commit_received_snapshot_beneath E root received final expected) w = (o, t) ->
  Did (ReadMetadataBeneath root final) (Throw e) ∈ t ->
  o = Exn e /\ t = commit_created root received final ++ [Did (ReadMetadataBeneath root final) (Throw e)].
Proof.
  intros Hrun He.
  destruct (wp_run _ _ w (commit_beneath_wp E root received final expected None)) as (c & _ & H).
  rewrite Hrun in H. cbn [fst snd] in H. unfold commit_post, commit_created in *.
  destruct H as [(md & -> & _ & ->)|(e0 & -> & [[-> _]|[->|[->|[->|(md & _ & [[-> _]|(e' & -> & _)])]]]])];
    cbn [app] in He; rewrite !elem_of_cons, elem_of_nil in He; destruct_or! He; try done.
  by injection He as ->.
Qed.

(** ** The coordinator *)

(** The entries of the transfer ports themselves. *)
Definition is_transfer_entry (e : Entry) : Prop :=
  match e with
  | Did p _ =>
      match p with
      | OpenRoot _ | EnsureDirectory _ _ | PinDirectory _ _ | TransferStart _ | TransferWaitFor _
      | TransferRequestCancel _ | TransferWait _ => True
      | _ => False
      end
  | DidN p _ => match p with CancellationRequested => True | _ => False end
  end.

Section coordinator.
Context {W : Type} (E : Env W) (P : Entry -> Prop).
Hypothesis Hown : forall e, is_transfer_entry e -> P e.

Lemma deliver_only (sink : TransferSink (W:=W)) evs : (forall ev, only P (sink ev)) -> only P (deliver sink evs).
Proof. intros Hs. unfold deliver. repeat only_step. apply Hs. Qed.

Lemma wait_only fuel h (sink : TransferSink (W:=W)) :
  (forall ev, only P (sink ev)) -> only P (wait_for_transfer_or_cancellation E fuel h sink).
Proof.
  intros Hs. induction fuel as [|fuel IH]; cbn [wait_for_transfer_or_cancellation]; [only_step|].
  only_step; [only_step; by apply Hown|]. destruct a as [finished evs].
  only_step; [by apply deliver_only|]. only_step; [only_step|].
  only_step; [only_step; by apply Hown|]. only_step; [|exact IH].
  only_step; [only_step; by apply Hown|only_step].
Qed.

(** A pipeline run that returns has started the plan and waited for that
    transfer. *)
Lemma run_pipeline_wp fuel plan (sink : TransferSink (W:=W)) c :
  (forall ev, only P (sink ev)) ->
  wp (run_pipeline E fuel plan sink) (λ o t c', c' = c /\ Forall P t /\
    match o with
    | Ret r => exists h mid, t = Did (TransferStart plan) (Ok h) :: mid ++ [Did (TransferWait h) (Ok r)]
    | _ => True
    end) c.
Proof.
  intros Hs. unfold run_pipeline. do 2 wp_step. destruct r as [h|e]; cbn [of_res].
  2: { split; [done|]. split; [|done]. repeat constructor. by apply Hown. }
  wp_step. eapply wp_mono; [by apply wait_only|]. cbn beta.
  intros [[]|e|] t c' [-> Ht].
  2,3: split; [done|]; split; [|done]; constructor; [by apply Hown|done].
  wp_step. split; [done|]. split.
  - constructor; [by apply Hown|]. apply Forall_app. split; [done|].
    constructor; [by apply Hown|done].
  - destruct r as [r|e]; cbn [of_res]; [|done]. by exists h, t.
Qed.

(** The commands of a transfer name the pinned directories: the snapshot, its
    parent if it has one, and the directory of the run. *)
Definition planned_commands (snapshot : path) (parent : option path) (run_dir mp : path)
    (plan : TransferPipelinePlan) (t : list Entry) : Prop :=
  exists s receive pp,
    Did (PinDirectory "/" snapshot) (Ok s) ∈ t /\ Did (PinDirectory mp run_dir) (Ok receive) ∈ t /\
    match parent with
    | Some p => exists q, Did (PinDirectory "/" p) (Ok q) ∈ t /\
        pp = (if str_empty q then [] else ["-p"; q])
    | None => pp = []
    end /\
    producer_argv plan = ["btrfs"; "send"; "--proto"; "2"; "--compressed-data"] ++ pp ++ [s] /\
    consumer_argv plan = ["btrfs"; "receive"; receive].

Lemma planned_commands_more snapshot parent run_dir mp plan t t' :
  planned_commands snapshot parent run_dir mp plan t ->
  planned_commands snapshot parent run_dir mp plan (t ++ t').
Proof.
  intros (s & r & pp & H1 & H2 & H3 & H4 & H5). exists s, r, pp. rewrite !elem_of_app.
  split_and!; auto. destruct parent; [|done]. destruct H3 as (q & H3 & H3'). exists q.
  rewrite elem_of_app. auto.
Qed.

Lemma plan_only snapshot parent remote_dir run_dir mp :
  only P (transfer_plan_for_action E snapshot parent remote_dir run_dir mp).
Proof. unfold transfer_plan_for_action. repeat only_step; by apply Hown. Qed.

Lemma plan_wp snapshot parent remote_dir run_dir mp c :
  wp (transfer_plan_for_action E snapshot parent remote_dir run_dir mp) (λ o t _,
    match o with
    | Ret plan => planned_commands snapshot parent run_dir mp plan t
    | _ => True
    end) c.
Proof.
  unfold transfer_plan_for_action.
  do 4 (do 2 wp_step; match goal with r : res _ |- _ => destruct r; cbn [of_res]; [|done] end).
  do 2 wp_step. destruct r as [s|e]; cbn [of_res]; [|done].
  do 2 wp_step. destruct r as [receive|e]; cbn [of_res]; [|done].
  destruct parent as [p|].
  - do 3 wp_step. match goal with r : res _ |- _ => destruct r as [q|]; cbn [of_res]; [|done] end.
    do 2 wp_step. exists s, receive, (if str_empty q then [] else ["-p"; q]). split; [set_solver|]. split; [set_solver|].
    split; [exists q; split; [set_solver|done]|]. simpl. by destruct (str_empty q).
  - do 3 wp_step. exists s, receive, []. split; [set_solver|]. split; [set_solver|]. done.
Qed.

Lemma sizing_sink_only (sink : TransferSink (W:=W)) ev :
  (forall ev, only P (sink ev)) -> only P (stream_sizing_sink sink ev).
Proof. intros Hs. unfold stream_sizing_sink. only_step; [only_step|apply Hs]. Qed.

Lemma require_success_Ok r u :
  require_success_with_error_code r = Ok u -> transfer_succeeded r = true.
Proof.
  unfold require_success_with_error_code, require_transfer_success.
  destruct (transfer_succeeded r); [done|]. repeat case_match; naive_solver.
Qed.

(** A run of the coordinator that ends with a result that was not cancelled has
    first sized the stream, successfully, and then run the transfer. *)
Definition sized_then_sent (plan : TransferPipelinePlan) (r : TransferResult) (t : list Entry) : Prop :=
  exists h1 h2 sizing t0 t1 t2,
    t = t0 ++ Did (TransferStart (make_stream_sizing_plan plan)) (Ok h1) :: t1
        ++ [Did (TransferWait h1) (Ok sizing)]
        ++ Did (TransferStart (with_estimate plan (bytes_transferred sizing))) (Ok h2) :: t2
        ++ [Did (TransferWait h2) (Ok r)] /\
    transfer_succeeded sizing = true /\ transfer_succeeded r = true.

Lemma coordinator_wp fuel snapshot parent remote_dir run_dir mp (sink : TransferSink (W:=W)) c :
  (forall ev, only P (sink ev)) ->
  wp (coordinator_execute E fuel snapshot parent remote_dir run_dir mp sink)
    (λ o t c', c' = c /\ Forall P t /\
       match o with
       | Ret r => cancelled r = true \/
           exists plan, planned_commands snapshot parent run_dir mp plan t /\ sized_then_sent plan r t
       | _ => True
       end) c.
Proof.
  intros Hs. unfold coordinator_execute.
  wp_step. eapply wp_mono; [apply wp_and; [apply plan_only|apply plan_wp]|]. cbn beta.
  intros [plan|e|] t0 c' [[-> Ht0] Hplan]; [|done|done].
  wp_step. eapply wp_mono; [apply run_pipeline_wp; intros; by apply sizing_sink_only|]. cbn beta.
  intros [sizing|e|] t1 c' (-> & Ht1 & Hsz).
  2,3: split; [done|]; split; [by apply Forall_app|done].
  destruct (cancelled sizing) eqn:Ec.
  { wp_step. rewrite app_nil_r. split; [done|]. split; [by apply Forall_app|]. by left. }
  do 2 wp_step. destruct (require_success_with_error_code sizing) as [[]|e] eqn:Er; cbn [of_res].
  2: { rewrite app_nil_r. split; [done|]. split; [by apply Forall_app|done]. }
  apply require_success_Ok in Er.
  wp_step. eapply wp_mono; [by apply run_pipeline_wp|]. cbn beta.
  intros [r|e|] t2 c' (-> & Ht2 & Hr).
  2,3: split; [done|]; split; [by repeat (apply Forall_app; split)|done].
  assert (Hall : Forall P (t0 ++ t1 ++ [] ++ t2)) by (by repeat (apply Forall_app; split)).
  destruct Hsz as (h1 & m1 & ->), Hr as (h2 & m2 & ->).
  wp_step. destruct (cancelled r) eqn:Ecr; cbn [negb].
  - do 2 wp_step. rewrite !app_nil_r. split; [done|]. split; [done|]. by left.
  - wp_step. destruct (require_success_with_error_code r) as [[]|e] eqn:Err; cbn [of_res].
    2: { rewrite app_nil_r. done. }
    apply require_success_Ok in Err. wp_step. rewrite !app_nil_r. split; [done|]. split; [done|].
    right. exists plan. split; [by apply planned_commands_more|].
    exists h1, h2, sizing, t0, m1, m2. split; [|done]. cbn [app].
    by rewrite <- !app_assoc.
Qed.
End coordinator.
