(* ===== verification/ActionHandlers.v ===== *)
(** * Action handlers (src/backup/execution/actions)

    One handler per group of actions, the dispatcher over them and the handler a
    run owns, whose roots are opened when it is constructed.  A handler's
    optional root is the [std::unique_ptr] member that may be null. *)

From S2P Require Import Prelude Errors Identifiers RuntimeTime FsPath ConfigDomain.
From S2P Require Import SnapshotInventory RetentionPlan PendingRecovery RunActions Ports Effects.
From S2P Require Import Transfer.

Open Scope Z_scope.
Open Scope eff_scope.

(** [pending_recovery_effect<ClearPendingMarker>].
    src/backup/model/PendingRecovery.hpp:55-63 *)
Definition pending_marker_clear (plan : PendingRecoveryPlan) : option path :=
  match find_if (λ e, match e with ClearPendingMarker _ => true | _ => false end)
          (effects plan) with
  | Some (ClearPendingMarker p) => Some p
  | _ => None
  end.

(** src/backup/execution/actions/HookActionHandler.cpp:19-24 *)
Definition hook_error_code (phase : HookPhase) (is_timeout : bool) : ErrorCode :=
  match phase with
  | BeforeSnapshot => if is_timeout then HookBeforeSnapshotTimeout else HookBeforeSnapshotFailed
  | AfterSnapshot => if is_timeout then HookAfterSnapshotTimeout else HookAfterSnapshotFailed
  end.

Section handlers.
Context {W : Type} (E : Env W).

(** Deletion beneath a root, or by path when there is none. *)
Definition delete_under (root : option path) (p : path) : M (W:=W) unit :=
  match root with
  | None => call E (DeleteSubvolume p)
  | Some root => call E (DeleteSubvolumeBeneath root p)
  end.

(** ** RecoveryActionHandler *)

(** src/backup/execution/actions/RecoveryActionHandler.cpp:33-51 *)
Definition handle_recover_pending (local_root target_root : option path)
    (recovery : PendingRecoveryPlan) : M unit :=
  (match pending_remote_deletion recovery with
   | Some p => delete_under target_root p
   | None => ret tt
   end) ;;
  (match pending_local_deletion recovery with
   | Some p => delete_under local_root p
   | None => ret tt
   end) ;;
  match pending_marker_clear recovery with
  | Some p => call E (MarkerClear p)
  | None => ret tt
  end.

(** ** RetentionActionHandler *)

(** src/backup/execution/actions/RetentionActionHandler.cpp:37-45 *)
Definition apply_retention (plan : RetentionPlan) (root : option path) : M unit :=
  for_each (λ snapshot, delete_under root (snap_path snapshot)) (delete_snapshots plan).

(** ** SnapshotActionHandler *)

(** src/backup/execution/actions/SnapshotActionHandler.cpp:23-35 *)
Definition require_new_snapshot_metadata (p : path) (safe_root : option path)
    : M SnapshotMetadata :=
  let! metadata := match safe_root with
                   | None => call E (ReadMetadata p)
                   | Some root => call E (ReadMetadataBeneath root p)
                   end in
  match metadata with
  | None => throw (ValidationError ("New local snapshot metadata is missing: " +:+ p))
  | Some m => ret m
  end.

(** src/backup/execution/actions/SnapshotActionHandler.cpp:64-95 *)
Definition handle_create_snapshot (local_root : option path) (source_id : SourceId)
    (source snapshot_directory snapshot final_remote_snapshot profile_state_directory : path)
    (run_id : RunId) : M unit :=
  (match local_root with
   | None => call E (FsCreateDirectories snapshot_directory)
   | Some root => call E (EnsureDirectory root snapshot_directory)
   end) ;;
  let! now := call E ClockNow in
  call E (MarkerWrite profile_state_directory
            (mkMarker source_id snapshot final_remote_snapshot run_id now)) ;;
  (match local_root with
   | None => call E (CreateReadonlySnapshot source snapshot)
   | Some root => call E (CreateReadonlySnapshotBeneath root source root snapshot)
   end) ;;
  let! metadata := require_new_snapshot_metadata snapshot local_root in
  if (negb (md_is_subvolume metadata) || negb (md_readonly metadata))%bool
  then throw (ValidationError ("New local snapshot is not readonly: " +:+ snapshot))
  else ret tt.

(** ** HookActionHandler *)

(** src/backup/execution/actions/HookActionHandler.cpp:36-87 *)
Definition handle_run_hook (source_id : SourceId) (phase : HookPhase) (hook : ProfileHookCommand)
    (profile_id : ProfileId) : M unit :=
  if str_empty (hook_program hook) then throw (ValidationError "hook program is required")
  else if ((hook_timeout hook <? 1) || (24 * 3600 <? hook_timeout hook))%bool
  then throw (CodedValidationError (hook_error_code phase false)
         ("hook timeout is outside the supported range: " +:+ hook_program hook))
  else
    let! result :=
      try_catch
        (let! executable := call E (ResolveExecutable (hook_program hook)) in
         call E (RunControlled (execution_path executable :: hook_arguments hook)
           (mkCommandOptions (hook_timeout hook) (executable_fds executable)
              [("BTRFS_BACKUP_PROFILE_ID", id_value profile_id);
               ("BTRFS_BACKUP_SOURCE_ID", id_value source_id)])))
        (λ e, if is_std_exception e
              then throw (CodedOperationError (hook_error_code phase false)
                     ("hook execution failed: " +:+ hook_program hook +:+ ": " +:+ exn_what e))
              else throw e) in
    if cmd_cancelled result
    then throw (OperationCancelledError ("hook cancelled: " +:+ hook_program hook))
    else if timed_out result
    then throw (CodedOperationError (hook_error_code phase true)
           ("hook timed out after " +:+ pretty (hook_timeout hook) +:+ " seconds: "
            +:+ hook_program hook))
    else if negb (exit_code result =? 0)
    then throw (CodedOperationError (hook_error_code phase false)
           ("hook failed with exit code " +:+ pretty (exit_code result) +:+ ": "
            +:+ hook_program hook))
    else ret tt.

(** ** RepositoryActionHandler *)

(** src/backup/execution/actions/RepositoryActionHandler.cpp:20-31 *)
Definition require_snapshot_metadata (safe_root p : path) (message : string)
    : M SnapshotMetadata :=
  let! metadata := call E (ReadMetadataBeneath safe_root p) in
  match metadata with
  | None => throw (ValidationError (message +:+ ": " +:+ p))
  | Some m => ret m
  end.

(** src/backup/execution/actions/RepositoryActionHandler.cpp:47-49 *)
Definition handle_cleanup_incoming (target_root incoming_directory : path) : M unit :=
  call E (RemoveContents target_root incoming_directory).

(** src/backup/execution/actions/RepositoryActionHandler.cpp:51-65 *)
Definition handle_verify_received (local_root target_root : path) (source_id : SourceId)
    (local_snapshot received_snapshot : path) : M unit :=
  let! local := require_snapshot_metadata local_root local_snapshot
    "Local snapshot metadata is missing" in
  let! received := require_snapshot_metadata target_root received_snapshot
    "Received snapshot metadata is missing" in
  lift (verify_received_snapshot source_id local received).

(** src/backup/execution/actions/RepositoryActionHandler.cpp:67-81 *)
Definition handle_commit_received (local_root target_root : path)
    (local_snapshot received_snapshot final_snapshot : path) : M unit :=
  let! local := require_snapshot_metadata local_root local_snapshot
    "Local snapshot metadata is missing" in
  commit_received_snapshot_beneath E target_root received_snapshot final_snapshot (md_uuid local).

(** src/backup/execution/actions/RepositoryActionHandler.cpp:83-87 *)
Definition handle_cleanup_source (target_root received_snapshot incoming_run_directory
    pending_marker : path) : M unit :=
  call E (RemoveTree target_root received_snapshot) ;;
  call E (RemoveTree target_root incoming_run_directory) ;;
  call E (MarkerClear pending_marker).

(** ** The dispatcher *)

(** The roots of the handlers the dispatcher refers to. *)
Record HandlerRoots := mkRoots {
  snapshot_local_root : option path;
  recovery_local_root : option path;
  recovery_target_root : option path;
  retention_local_root : option path;
  retention_target_root : option path;
  repository_local_root : path;
  repository_target_root : path;
}.

(** The member [handle] of RetentionActionHandler for the two retention actions
    is part of the cases below.
    src/backup/execution/actions/BackupRunActionHandler.cpp:40-78 *)
Definition dispatcher_handle (roots : HandlerRoots) (action : BackupRunAction)
    (run_plan : BackupRunPlan) : M unit :=
  match action with
  | RecoverPendingAction _ recovery =>
      handle_recover_pending (recovery_local_root roots) (recovery_target_root roots) recovery
  | CleanupIncomingAction _ incoming_directory =>
      handle_cleanup_incoming (repository_target_root roots) incoming_directory
  | RunHookAction source_id phase hook =>
      handle_run_hook source_id phase hook (plan_profile_id run_plan)
  | CreateSnapshotAction source_id source directory snapshot final state_dir run_id =>
      handle_create_snapshot (snapshot_local_root roots) source_id source directory snapshot
        final state_dir run_id
  | SendReceiveAction _ _ _ _ _ =>
      throw (StdException "send-receive actions are handled by TransferCoordinator")
  | VerifyReceivedAction source_id local received =>
      handle_verify_received (repository_local_root roots) (repository_target_root roots)
        source_id local received
  | CommitReceivedAction _ local received final =>
      handle_commit_received (repository_local_root roots) (repository_target_root roots)
        local received final
  | ApplyRemoteRetentionAction _ plan => apply_retention plan (retention_target_root roots)
  | ApplyLocalRetentionAction _ plan => apply_retention plan (retention_local_root roots)
  | CleanupSourceAction _ received incoming_run marker _ =>
      handle_cleanup_source (repository_target_root roots) received incoming_run marker
  end.

(** ** OwnedBackupRunActionHandler *)

(** The constructor opens the roots of the members in their order.
    src/backup/execution/actions/OwnedBackupRunActionHandler.cpp:11-43 *)
Definition owned_handler (plan : BackupRunPlan) : M HandlerRoots :=
  let mp := target_mount_point plan in
  call E (OpenRoot "/") ;;
  call E (OpenRoot "/") ;;
  call E (OpenRoot mp) ;;
  call E (OpenRoot "/") ;;
  call E (OpenRoot mp) ;;
  call E (OpenRoot "/") ;;
  call E (OpenRoot mp) ;;
  ret (mkRoots (Some "/") (Some "/") (Some mp) (Some "/") (Some mp) "/" mp).
End handlers.

(** ** Recovery and retention *)

(** The call an effect of a recovery plan stands for. *)
Definition effect_call (local_root target_root : path) (e : PendingRecoveryEffect) : Port unit :=
  match e with
  | DeletePendingRemoteSnapshot p => DeleteSubvolumeBeneath target_root p
  | DeletePendingLocalSnapshot p => DeleteSubvolumeBeneath local_root p
  | ClearPendingMarker p => MarkerClear p
  end.

Section handler_facts.
Context {W : Type} (E : Env W).

Lemma bind_ret_l {A B} (a : A) (f : A -> M (W:=W) B) s : bind (ret a) f s = f a s.
Proof. done. Qed.

(** For a planned recovery the handler runs the effects in their order. *)
Lemma handle_recover_pending_effects l r source_id state_dir local_dir remote_dir marker pending
    remotes keep_failed s :
  let plan := plan_pending_recovery source_id state_dir local_dir remote_dir marker pending
    remotes keep_failed in
  handle_recover_pending E (Some l) (Some r) plan s
  = for_each (λ e, call E (effect_call l r e)) (effects plan) s.
Proof.
  cbv zeta. unfold handle_recover_pending, pending_remote_deletion, pending_local_deletion,
    pending_marker_clear.
  pose proof (recovery_effects_cases source_id state_dir local_dir remote_dir marker pending
    remotes keep_failed) as Hc. cbv zeta in Hc.
  destruct Hc as [[-> _]|(m & _ & [->|(_ & md & _ & _ & [[-> _]|(_ & _ & [[-> _]| ->])])])]; cbn;
    unfold bind, ret; repeat (case_match; simplify_eq; try done);
    repeat match goal with u : unit |- _ => destruct u end; congruence.
Qed.

(** Executing a planned recovery performs exactly the planned effects, in
    order, and stops at the first that fails; so the marker is cleared only when
    every deletion before it succeeded. *)
Theorem recovery_executes_plan l r source_id state_dir local_dir remote_dir marker pending
    remotes keep_failed w :
  let plan := plan_pending_recovery source_id state_dir local_dir remote_dir marker pending
    remotes keep_failed in
  let '(o, t) := run_program (handle_recover_pending E (Some l) (Some r) plan) w in
  calls_outcome (effect_call l r) (effects plan) o t.
Proof.
  cbv zeta. unfold run_program. rewrite handle_recover_pending_effects.
  destruct (wp_run _ _ w (wp_for_each_call E (effect_call l r)
    (effects (plan_pending_recovery source_id state_dir local_dir remote_dir marker pending
                remotes keep_failed)) None)) as (c & _ & H).
  unfold run_program in H. by destruct (for_each _ _ _).
Qed.

(** Retention deletes exactly the snapshots of the plan, oldest first, and
    stops at the first deletion that fails. *)
Theorem retention_executes_plan source_id snapshots count root w :
  let plan := plan_count_retention source_id snapshots count in
  let '(o, t) := run_program (apply_retention E plan (Some root)) w in
  calls_outcome (λ s, DeleteSubvolumeBeneath root (snap_path s)) (delete_snapshots plan) o t /\
  StronglySorted (cmp_le oldest_first) (delete_snapshots plan).
Proof.
  cbv zeta. unfold apply_retention, delete_under.
  pose proof (wp_run _ _ w (wp_for_each_call E
    (λ s, DeleteSubvolumeBeneath root (snap_path s))
    (delete_snapshots (plan_count_retention source_id snapshots count)) None)) as (c & _ & H).
  destruct (run_program _ _). split; [done|].
  pose proof (std_sort_sorted oldest_first
    (List.filter (λ s, id_eqb (snap_source_id s) source_id) snapshots)) as Hs.
  rewrite <- (plan_count_retention_split source_id snapshots count) in Hs.
  by apply StronglySorted_app_inv in Hs as (Hs & _).
Qed.

(** ** Creating the snapshot *)

Section create.
Context (root : path) (source_id : SourceId) (source directory snapshot final state_dir : path)
  (run_id : RunId).

(** The marker is on disk. *)
Definition marker_written (now : RuntimeTimePoint) : list Entry :=
  [Did (EnsureDirectory root directory) (Ok tt); Did ClockNow (Ok now);
   Did (MarkerWrite state_dir (mkMarker source_id snapshot final run_id now)) (Ok tt)].

Definition creates_snapshot (e : Entry) : Prop :=
  match e with
  | Did p _ => match p with
               | CreateReadonlySnapshot _ _ | CreateReadonlySnapshotBeneath _ _ _ _ => True
               | _ => False
               end
  | DidN _ _ => False
  end.

Definition create_post (o : outcome unit) (t : list Entry) : Prop :=
  match o with
  | Ret _ => exists now md, md_is_subvolume md = true /\ md_readonly md = true /\
      t = marker_written now
          ++ [Did (CreateReadonlySnapshotBeneath root source root snapshot) (Ok tt);
              Did (ReadMetadataBeneath root snapshot) (Ok (Some md))]
  | Exn _ => (exists now r rest, t = marker_written now
               ++ Did (CreateReadonlySnapshotBeneath root source root snapshot) r :: rest) \/
             Forall (λ e, ~ creates_snapshot e) t
  | Diverged => False
  end.

Lemma create_wp c :
  wp (handle_create_snapshot E (Some root) source_id source directory snapshot final state_dir run_id)
    (λ o t c', c' = c /\ create_post o t) c.
Proof.
  unfold handle_create_snapshot, create_post, marker_written.
  do 2 wp_step. destruct r as [[]|e]; cbn [of_res].
  2: { split; [done|]. right. repeat constructor. by intros []. }
  do 2 wp_step. destruct r as [now|e]; cbn [of_res].
  2: { split; [done|]. right. repeat constructor; by intros []. }
  do 2 wp_step. destruct r as [[]|e]; cbn [of_res].
  2: { split; [done|]. right. repeat constructor; by intros []. }
  do 2 wp_step. destruct r as [[]|e]; cbn [of_res].
  2: { split; [done|]. left. exists now, (Throw e), []. done. }
  wp_step. unfold require_new_snapshot_metadata. do 2 wp_step. destruct r as [[md|]|e]; cbn [of_res].
  - wp_step. destruct (negb (md_is_subvolume md) || negb (md_readonly md))%bool eqn:Em; wp_step.
    + split; [done|]. left. eexists now, (Ok tt), _. done.
    + split; [done|]. breflect. by exists now, md.
  - wp_step. split; [done|]. left. eexists now, (Ok tt), _. done.
  - split; [done|]. left. eexists now, (Ok tt), _. done.
Qed.
End create.

(** C10.  The pending marker naming the snapshot and its final place is written
    before the snapshot is created, and creation succeeds only for a read-only
    subvolume: an interruption after the snapshot exists always leaves the
    marker. *)
Theorem marker_precedes_snapshot root source_id source directory snapshot final state_dir run_id w :
  let '(o, t) := run_program (handle_create_snapshot E (Some root) source_id source directory
    snapshot final state_dir run_id) w in
  create_post root source_id source directory snapshot final state_dir run_id o t.
Proof.
  destruct (wp_run _ _ w (create_wp root source_id source directory snapshot final state_dir
    run_id None)) as (c & _ & H).
  by destruct (run_program _ _).
Qed.

(** ** Verifying and committing *)

Lemma require_metadata_wp root p msg c :
  wp (require_snapshot_metadata E root p msg) (λ o t c', c' = c /\
    match o with
    | Ret md => t = [Did (ReadMetadataBeneath root p) (Ok (Some md))]
    | Exn _ => exists r, t = [Did (ReadMetadataBeneath root p) r]
    | Diverged => False
    end) c.
Proof.
  unfold require_snapshot_metadata. do 2 wp_step. destruct r as [[md|]|e]; cbn [of_res].
  - by wp_step.
  - wp_step. split; [done|]. by eexists.
  - split; [done|]. by eexists.
Qed.

Definition verify_post (local_root target_root local received : path) (o : outcome unit)
    (t : list Entry) : Prop :=
  match o with
  | Ret _ => exists lmd rmd,
      t = [Did (ReadMetadataBeneath local_root local) (Ok (Some lmd));
           Did (ReadMetadataBeneath target_root received) (Ok (Some rmd))] /\
      md_is_subvolume rmd = true /\ md_readonly rmd = true /\
      uuid_matches (md_uuid lmd) (md_received_uuid rmd) = true
  | Exn _ => True
  | Diverged => False
  end.

Lemma verify_wp l r source_id local received c :
  wp (handle_verify_received E l r source_id local received)
    (λ o t c', c' = c /\ verify_post l r local received o t) c.
Proof.
  unfold handle_verify_received, verify_post.
  wp_step. eapply wp_mono; [apply require_metadata_wp|]. cbn beta.
  intros [lmd|e|] t c' [-> H]; [subst t|done|done].
  wp_step. eapply wp_mono; [apply require_metadata_wp|]. cbn beta.
  intros [rmd|e|] t c' [-> H]; [subst t|done|done].
  wp_step. split; [done|]. unfold verify_received_snapshot.
  destruct (md_is_subvolume rmd) eqn:E1; [|done]. destruct (md_readonly rmd) eqn:E2; [|done].
  destruct (uuid_matches (md_uuid lmd) (md_received_uuid rmd)) eqn:E3; [|done].
  exists lmd, rmd. done.
Qed.

Definition commit_handler_post (local_root target_root local received final : path)
    (o : outcome unit) (t : list Entry) : Prop :=
  (exists e r, o = Exn e /\ t = [Did (ReadMetadataBeneath local_root local) r]) \/
  (exists lmd t', t = Did (ReadMetadataBeneath local_root local) (Ok (Some lmd)) :: t' /\
     commit_post target_root received final (md_uuid lmd) o t').

Lemma commit_wp l r local received final c :
  wp (handle_commit_received E l r local received final)
    (λ o t c', c' = c /\ commit_handler_post l r local received final o t) c.
Proof.
  unfold handle_commit_received, commit_handler_post.
  wp_step. eapply wp_mono; [apply require_metadata_wp|]. cbn beta.
  intros [lmd|e|] t c' [-> H]; [subst t| |done].
  - eapply wp_mono; [apply commit_beneath_wp|]. cbn beta. intros o t c' [-> H].
    split; [done|]. right. by exists lmd, t.
  - destruct H as [r' ->]. split; [done|]. left. by exists e, r'.
Qed.

(** Verification succeeds only if the received subvolume is read-only and
    its received UUID is the UUID of the local snapshot, as read at that moment. *)
Theorem verify_received_spec l r source_id local received w :
  let '(o, t) := run_program (handle_verify_received E l r source_id local received) w in
  verify_post l r local received o t.
Proof.
  destruct (wp_run _ _ w (verify_wp l r source_id local received None)) as (c & _ & H).
  by destruct (run_program _ _).
Qed.

(** ** Hooks *)

Definition hook_post (phase : HookPhase) (hook : ProfileHookCommand) (o : outcome unit)
    (t : list Entry) : Prop :=
  match o with
  | Ret _ => exists exe opts result,
      t = [Did (ResolveExecutable (hook_program hook)) (Ok exe);
           Did (RunControlled (execution_path exe :: hook_arguments hook) opts) (Ok result)] /\
      cmd_timeout opts = hook_timeout hook /\ 1 <= hook_timeout hook <= 24 * 3600 /\
      cmd_cancelled result = false /\ timed_out result = false /\ exit_code result = 0
  | Exn e =>
      (t = [] /\ is_validation_error e = true) \/
      (exists exe argv opts result, is_operation_cancelled e = true /\ cmd_cancelled result = true /\
         t = [Did (ResolveExecutable (hook_program hook)) (Ok exe);
              Did (RunControlled argv opts) (Ok result)]) \/
      (exists to, coded_error e = Some (hook_error_code phase to)) \/
      is_std_exception e = false
  | Diverged => False
  end.

Lemma hook_wp source_id phase hook profile_id c :
  wp (handle_run_hook E source_id phase hook profile_id)
    (λ o t c', c' = c /\ hook_post phase hook o t) c.
Proof.
  unfold handle_run_hook, hook_post. case_match; [wp_step; auto|].
  destruct ((hook_timeout hook <? 1) || (24 * 3600 <? hook_timeout hook))%bool eqn:Et.
  { wp_step. auto. }
  breflect. wp_step. wp_step. do 2 wp_step. destruct r as [exe|e]; cbn [of_res].
  2: { destruct (is_std_exception e) eqn:Es; wp_step; [|auto]. split; [done|].
       right; right; left. by eexists. }
  wp_step. destruct r as [result|e]; cbn [of_res].
  2: { destruct (is_std_exception e) eqn:Es; wp_step; [|auto]. split; [done|].
       right; right; left. by eexists. }
  destruct (cmd_cancelled result) eqn:E1; [wp_step|].
  { split; [done|]. right; left. eexists exe, _, _, result. done. }
  destruct (timed_out result) eqn:E2; [wp_step|].
  { split; [done|]. right; right; left. by exists true. }
  destruct (exit_code result =? 0) eqn:E3; cbn [negb]; wp_step; (split; [done|]).
  - breflect. eexists exe, _, result. split; [done|]. split; [done|]. split; [lia|done].
  - right; right; left. by exists false.
Qed.

(** A hook succeeds only when its program was run within the supported
    timeout, was not cancelled, did not time out and exited with 0; cancellation
    is reported as such, and every other failure of the program carries the error
    code of the hook's phase. *)
Theorem hook_outcomes source_id phase hook profile_id w :
  let '(o, t) := run_program (handle_run_hook E source_id phase hook profile_id) w in
  hook_post phase hook o t.
Proof.
  destruct (wp_run _ _ w (hook_wp source_id phase hook profile_id None)) as (c & _ & H).
  by destruct (run_program _ _).
Qed.
End handler_facts.

(** ** What the handlers may delete, and that they are quiet *)

(** The subvolumes an action may delete. *)
Definition action_deletes (action : BackupRunAction) : list path :=
  match action with
  | RecoverPendingAction _ recovery =>
      match pending_remote_deletion recovery with Some p => [p] | None => [] end
      ++ match pending_local_deletion recovery with Some p => [p] | None => [] end
  | CommitReceivedAction _ _ _ final => [final]
  | ApplyRemoteRetentionAction _ plan | ApplyLocalRetentionAction _ plan =>
      map snap_path (delete_snapshots plan)
  | _ => []
  end.

(** What an action may remove with the directories it clears. *)
Definition action_removes (action : BackupRunAction) : list Removal :=
  match action with
  | CleanupIncomingAction _ incoming => [ContentsOf incoming]
  | CleanupSourceAction _ received run_directory _ _ => [TreeOf received; TreeOf run_directory]
  | _ => []
  end.

(** The entry destroys only what the action may. *)
Definition destroys_planned (action : BackupRunAction) (e : Entry) : Prop :=
  match entry_deletes e with Some p => p ∈ action_deletes action | None => True end /\
  match entry_removes e with Some r => r ∈ action_removes action | None => True end.

(** An entry of a handler of the action: no event, no checkpoint, and nothing destroyed
    but what the action names. *)
Definition handler_entry (action : BackupRunAction) (e : Entry) : Prop :=
  entry_event e = None /\ entry_checkpoint e = None /\ destroys_planned action e.

Section quiet.
Context {W : Type} (E : Env W).

Lemma delete_under_only P root p :
  (forall r, P (Did (DeleteSubvolume p) r)) ->
  (forall root r, P (Did (DeleteSubvolumeBeneath root p) r)) ->
  only P (delete_under E root p).
Proof. intros H1 H2. unfold delete_under. destruct root; only_step; auto. Qed.

Lemma commit_only P root received final expected :
  (forall e, entry_event e = None -> entry_checkpoint e = None ->
     match entry_deletes e with Some p => p = final | None => True end ->
     entry_removes e = None -> P e) ->
  only P (commit_received_snapshot_beneath E root received final expected).
Proof.
  intros H. unfold commit_received_snapshot_beneath, cleanup_failed.
  repeat only_step; by apply H.
Qed.

Lemma apply_retention_only P plan root :
  (forall s r, s ∈ delete_snapshots plan -> P (Did (DeleteSubvolume (snap_path s)) r)) ->
  (forall s root r, s ∈ delete_snapshots plan -> P (Did (DeleteSubvolumeBeneath root (snap_path s)) r)) ->
  only P (apply_retention E plan root).
Proof.
  unfold apply_retention. induction (delete_snapshots plan) as [|s l IH]; intros H1 H2; simpl; [only_step|].
  only_step.
  - apply delete_under_only; intros; [apply H1|apply H2]; set_solver.
  - apply IH; intros; [apply H1|apply H2]; set_solver.
Qed.

Lemma dispatcher_only roots action plan :
  only (handler_entry action) (dispatcher_handle E roots action plan).
Proof.
  destruct action; cbn [dispatcher_handle].
  - unfold handle_recover_pending. only_step; [|only_step].
    + destruct (pending_remote_deletion recovery) eqn:Er; [|only_step].
      apply delete_under_only; intros; (split; [done|]); (split; [done|]); (split; [|done]); simpl; rewrite Er; set_solver.
    + destruct (pending_local_deletion recovery) eqn:El; [|only_step].
      apply delete_under_only; intros; (split; [done|]); (split; [done|]); (split; [|done]); simpl; rewrite El; set_solver.
    + destruct (pending_marker_clear recovery); only_step. done.
  - unfold handle_cleanup_incoming. only_step. do 3 (split; [done|]). set_solver.
  - unfold handle_run_hook. repeat only_step; done.
  - unfold handle_create_snapshot, require_new_snapshot_metadata. repeat only_step; done.
  - only_step.
  - unfold handle_verify_received, require_snapshot_metadata. repeat only_step; done.
  - unfold handle_commit_received, require_snapshot_metadata. only_step; [repeat only_step; done|].
    apply commit_only. intros e H1 H2 H3 H4. do 2 (split; [done|]). split; [|by rewrite H4].
    destruct (entry_deletes e); [subst; set_solver|done].
  - apply apply_retention_only; intros; (split; [done|]); (split; [done|]); (split; [|done]); simpl;
      by apply list_elem_of_fmap_2.
  - apply apply_retention_only; intros; (split; [done|]); (split; [done|]); (split; [|done]); simpl;
      by apply list_elem_of_fmap_2.
  - unfold handle_cleanup_source. repeat only_step; do 3 (split; [done|]); set_solver.
Qed.
End quiet.
