(* ===== verification/RunExecutor.v ===== *)
(** * Executing a plan (src/backup/execution: BackupRunExecutor,
    BackupRunCheckpointPolicy, BackupActionExecutor, BackupRun,
    DefaultBackupRunFactory)

    The executor runs the actions of every source in order, reporting each to the
    event sink and writing a checkpoint after each.  It is proved correct against
    the interface [ActionExecutor]; the action executor of the program is an
    instance of it. *)

From S2P Require Import Prelude Errors Identifiers RuntimeTime FsPath ConfigDomain.
From S2P Require Import SnapshotInventory RetentionPlan PendingRecovery RunActions Ports Effects.
From S2P Require Import Transfer ActionHandlers.

Open Scope Z_scope.
Open Scope eff_scope.

(** ** Shared pieces *)

(** src/backup/execution/BackupRunCheckpointPolicy.cpp:13-20 *)
Fixpoint source_index_from (index : Z) (srcs : list BackupSourceRunPlan) (source_id : SourceId) : Z :=
  match srcs with
  | [] => 0
  | s :: rest =>
      if id_eqb (plan_source_id s) source_id then index + 1
      else source_index_from (index + 1) rest source_id
  end.
Definition source_index (plan : BackupRunPlan) (source_id : SourceId) : Z :=
  source_index_from 0 (plan_sources plan) source_id.

(** src/backup/execution/BackupRunExecutor.cpp:145-152 *)
Definition source_index_for_event (plan : BackupRunPlan) (source : BackupSourceRunPlan) : Z :=
  source_index_from 0 (plan_sources plan) (plan_source_id source).

(** src/backup/execution/BackupRunExecutor.cpp:119-124 *)
Definition run_error_code (e : exn) : ErrorCode := default BackupFailed (coded_error e).

(** src/backup/execution/BackupActionExecutor.hpp:16-23 *)
Record BackupActionExecutionContext := mkActionContext {
  ax_plan : BackupRunPlan;
  ax_source : BackupSourceRunPlan;
  ax_source_index : Z;
  ax_completed_run_bytes : Z;
}.

(** src/backup/execution/BackupActionExecutor.hpp:25-28 *)
Record BackupActionExecutionResult := mkActionResult {
  ar_cancelled : bool;
  ar_bytes_transferred : Z;
}.

(** Unsigned 64-bit addition. *)
Definition add64 (a b : Z) : Z := (a + b) mod 2 ^ 64.

(** ** The interface of the action executor *)

(** Entries that leave the run's bookkeeping to the executor: no checkpoint and no
    event but transfer progress. *)
Definition quiet_entry (e : Entry) : Prop :=
  entry_checkpoint e = None /\
  match entry_event e with
  | Some (TransferProgress _ _ _ _ _) | None => True
  | Some _ => False
  end.

(** src/backup/execution/BackupActionExecutor.hpp:30-38; the promise is that an
    action only does what [ae_post] says and is quiet. *)
Class ActionExecutor {W : Type} (E : Env W) := {
  ae_execute : BackupRunAction -> BackupActionExecutionContext -> M (W:=W) BackupActionExecutionResult;
  ae_post : BackupRunAction -> outcome BackupActionExecutionResult -> list Entry -> Prop;
  ae_spec a x c : wp (ae_execute a x) (λ o t c', c' = c /\ ae_post a o t) c;
  ae_quiet a o t : ae_post a o t -> Forall quiet_entry t;
}.

Section executor.
Context {W : Type} (E : Env W) `{!ActionExecutor E}.

(** src/backup/execution/BackupRunCheckpointPolicy.cpp:28-48 *)
Definition after_success (action : BackupRunAction) (plan : BackupRunPlan)
    (source : BackupSourceRunPlan) : M unit :=
  let kind := backup_run_action_kind action in
  call E (WriteCheckpoint (mkCheckpoint (plan_profile_id plan) (plan_run_id plan)
            (plan_source_id source) kind)) ;;
  call E (EmitEvent (CheckpointWritten (plan_profile_id plan) (plan_run_id plan)
            (plan_source_id source) (source_index plan (plan_source_id source)) kind)).

(** src/backup/execution/BackupRunExecutor.cpp:126-143 *)
Definition emit_action_failure (plan : BackupRunPlan) (source : BackupSourceRunPlan) (idx : Z)
    (kind : BackupRunActionKind) (e : exn) : M unit :=
  call E (EmitEvent (ActionFailed (plan_profile_id plan) (plan_run_id plan)
    (plan_source_id source) idx kind (Some (run_error_code e)) (exn_what e))).

(** src/backup/execution/BackupRunExecutor.cpp:154-171 *)
Definition emit_cancelled (plan : BackupRunPlan) (source : option BackupSourceRunPlan)
    (kind : option BackupRunActionKind) (code : option ErrorCode) (msg : string) : M unit :=
  call E (EmitEvent (RunCancelled (plan_profile_id plan) (plan_run_id plan)
    (plan_source_id <$> source)
    (match source with Some s => source_index_for_event plan s | None => 0 end)
    kind code msg Backup)).

(** Leaving the loops with a result, or going on with the counters. *)
Inductive loop_step :=
| Stop (result : BackupRunExecutionResult)
| Continue (actions_completed completed_run_bytes : Z).

(** The [catch] clauses around an action.
    src/backup/execution/BackupRunExecutor.cpp:67-94 *)
Definition catch_action (plan : BackupRunPlan) (source : BackupSourceRunPlan) (idx : Z)
    (kind : BackupRunActionKind) (actions_completed : Z) (e : exn) : M loop_step :=
  if is_operation_cancelled e then
    emit_cancelled plan (Some source) (Some kind) (Some RunnerCancelled) (exn_what e) ;;
    ret (Stop (BackupRunExecutionCancelled actions_completed))
  else if is_btrfs_backup_error e then
    emit_action_failure plan source idx kind e ;;
    call E (EmitEvent (RunFailed (plan_profile_id plan) (plan_run_id plan) (run_error_code e)
              (exn_what e) Backup)) ;;
    ret (Stop (BackupRunExecutionFailed (run_error_code e) (exn_what e) actions_completed))
  else if is_std_exception e then
    emit_action_failure plan source idx kind e ;;
    throw e
  else throw e.

(** One action. src/backup/execution/BackupRunExecutor.cpp:38-106 *)
Definition run_action (plan : BackupRunPlan) (source : BackupSourceRunPlan) (idx : Z)
    (action : BackupRunAction) (actions_completed completed_run_bytes : Z) : M loop_step :=
  let kind := backup_run_action_kind action in
  let! requested := ncall E CancellationRequested in
  if requested then
    emit_cancelled plan (Some source) None None "" ;;
    ret (Stop (BackupRunExecutionCancelled actions_completed))
  else
    call E (EmitEvent (ActionStarted (plan_profile_id plan) (plan_run_id plan)
              (plan_source_id source) idx kind)) ;;
    let! step :=
      try_catch
        (let! result := ae_execute action (mkActionContext plan source idx completed_run_bytes) in
         if ar_cancelled result then
           emit_cancelled plan (Some source) (Some kind) None "" ;;
           ret (Stop (BackupRunExecutionCancelled actions_completed))
         else ret (Continue actions_completed
                     (add64 completed_run_bytes (ar_bytes_transferred result))))
        (catch_action plan source idx kind actions_completed) in
    match step with
    | Stop result => ret (Stop result)
    | Continue n bytes =>
        call E (EmitEvent (ActionCompleted (plan_profile_id plan) (plan_run_id plan)
                  (plan_source_id source) idx kind)) ;;
        after_success action plan source ;;
        ret (Continue (n + 1) bytes)
    end.

(** src/backup/execution/BackupRunExecutor.cpp:38-106 *)
Fixpoint run_actions (plan : BackupRunPlan) (source : BackupSourceRunPlan) (idx : Z)
    (acts : list BackupRunAction) (n bytes : Z) : M loop_step :=
  match acts with
  | [] => ret (Continue n bytes)
  | action :: rest =>
      let! step := run_action plan source idx action n bytes in
      match step with
      | Stop result => ret (Stop result)
      | Continue n bytes => run_actions plan source idx rest n bytes
      end
  end.

(** One source. src/backup/execution/BackupRunExecutor.cpp:29-114 *)
Definition run_source (plan : BackupRunPlan) (source : BackupSourceRunPlan) (n bytes : Z)
    : M loop_step :=
  let! requested := ncall E CancellationRequested in
  if requested then
    emit_cancelled plan (Some source) None None "" ;;
    ret (Stop (BackupRunExecutionCancelled n))
  else
    let idx := source_index_for_event plan source in
    call E (EmitEvent (SourceStarted (plan_profile_id plan) (plan_run_id plan)
              (plan_source_id source) idx)) ;;
    let! step := run_actions plan source idx (actions source) n bytes in
    match step with
    | Stop result => ret (Stop result)
    | Continue n bytes =>
        call E (EmitEvent (SourceCompleted (plan_profile_id plan) (plan_run_id plan)
                  (plan_source_id source) idx)) ;;
        ret (Continue n bytes)
    end.

Fixpoint run_sources (plan : BackupRunPlan) (srcs : list BackupSourceRunPlan) (n bytes : Z)
    : M loop_step :=
  match srcs with
  | [] => ret (Continue n bytes)
  | source :: rest =>
      let! step := run_source plan source n bytes in
      match step with
      | Stop result => ret (Stop result)
      | Continue n bytes => run_sources plan rest n bytes
      end
  end.

(** src/backup/execution/BackupRunExecutor.cpp:22-117 *)
Definition executor_execute (plan : BackupRunPlan) : M BackupRunExecutionResult :=
  let! step := run_sources plan (plan_sources plan) 0 0 in
  match step with
  | Stop result => ret result
  | Continue n _ => ret (BackupRunExecutionCompleted n)
  end.

(** The members of BackupRun besides the executor.
    src/backup/execution/BackupRun.cpp:12-26 *)
Record BackupRun := mkRun { run_plan : BackupRunPlan; run_started : bool }.

(** The run object afterwards, and what the call does.
    src/backup/execution/BackupRun.cpp:28-37 *)
Definition run_execute (run : BackupRun) : BackupRun * M BackupRunExecutionResult :=
  if run_started run
  then (run, throw (StdException "backup run cannot be executed more than once"))
  else (mkRun (run_plan run) true, executor_execute (run_plan run)).
End executor.

(** ** BackupActionExecutor *)

Section action_executor.
Context {W : Type} (E : Env W) (fuel : nat) (roots : HandlerRoots).

(** src/backup/execution/BackupActionExecutor.cpp:13-42 *)
Definition transfer_event_adapter (x : BackupActionExecutionContext) : TransferSink (W:=W) := λ event,
  if negb (bool_decide (te_kind event = Progress)) then ret tt
  else
    call E (EmitEvent (TransferProgress (plan_profile_id (ax_plan x)) (plan_run_id (ax_plan x))
      (plan_source_id (ax_source x)) (ax_source_index x)
      (mkProgress
         (match te_activity event with ActivitySizing => Sizing | ActivityTransferring => Transferring end)
         (te_bytes_transferred event) (te_bytes_produced event) (te_bytes_total_estimated event)
         (add64 (ax_completed_run_bytes x) (te_bytes_transferred event))
         (te_delta_bytes event) (te_elapsed_ms event) (te_speed_bps event) (te_message event)))).

(** src/backup/execution/BackupActionExecutor.cpp:69-84 *)
Definition execute_transfer (snapshot : path) (parent : option path) (remote_dir run_dir : path)
    (x : BackupActionExecutionContext) : M BackupActionExecutionResult :=
  let! result := coordinator_execute E fuel snapshot parent remote_dir run_dir
    (target_mount_point (ax_plan x)) (transfer_event_adapter x) in
  ret (mkActionResult (cancelled result) (bytes_transferred result)).

(** src/backup/execution/BackupActionExecutor.cpp:86-92 *)
Definition execute_short_action (action : BackupRunAction) (x : BackupActionExecutionContext)
    : M BackupActionExecutionResult :=
  dispatcher_handle E roots action (ax_plan x) ;;
  ret (mkActionResult false 0).

(** src/backup/execution/BackupActionExecutor.cpp:54-67 *)
Definition action_execute (action : BackupRunAction) (x : BackupActionExecutionContext)
    : M BackupActionExecutionResult :=
  match action with
  | SendReceiveAction _ snapshot parent remote_dir run_dir =>
      execute_transfer snapshot parent remote_dir run_dir x
  | _ => execute_short_action action x
  end.
End action_executor.

(** ** Projections of a trace *)

Definition checkpoints_of (t : list Entry) : list BackupRunCheckpoint := omap entry_checkpoint t.

(** The terminal events delivered. *)
Definition terminals_of (t : list Entry) : list BackupRunEvent :=
  List.filter is_terminal (omap entry_event t).

Lemma checkpoints_of_app t1 t2 : checkpoints_of (t1 ++ t2) = checkpoints_of t1 ++ checkpoints_of t2.
Proof. apply omap_app. Qed.

Lemma terminals_of_app t1 t2 : terminals_of (t1 ++ t2) = terminals_of t1 ++ terminals_of t2.
Proof. unfold terminals_of. by rewrite omap_app, List.filter_app. Qed.

Lemma quiet_checkpoints t : Forall quiet_entry t -> checkpoints_of t = [].
Proof.
  unfold checkpoints_of. induction 1 as [|e t [He _] _ IH]; [done|]. simpl. by rewrite He.
Qed.

Lemma quiet_terminals t : Forall quiet_entry t -> terminals_of t = [].
Proof.
  unfold terminals_of. induction 1 as [|e t [_ He] _ IH]; [done|]. simpl.
  destruct (entry_event e) as [[]|]; try done.
Qed.

#[export] Hint Rewrite checkpoints_of_app terminals_of_app : backup_rw.

(** The bookkeeping of the executor: events, checkpoints and looking at the
    cancellation token. *)
Definition is_bookkeeping (e : Entry) : Prop :=
  match e with
  | Did p _ => match p with EmitEvent _ | WriteCheckpoint _ => True | _ => False end
  | DidN p _ => match p with CancellationRequested => True | _ => False end
  end.

Section executor_facts.
Context {W : Type} (E : Env W) `{!ActionExecutor E}.
Context (plan : BackupRunPlan).

Abbreviation emitted ev := (Did (EmitEvent ev) (Ok tt)) (only parsing).

Definition action_checkpoint (source : BackupSourceRunPlan) (a : BackupRunAction)
    : BackupRunCheckpoint :=
  mkCheckpoint (plan_profile_id plan) (plan_run_id plan) (plan_source_id source)
    (backup_run_action_kind a).

Definition action_started (source : BackupSourceRunPlan) (idx : Z) (a : BackupRunAction)
    : list Entry :=
  [DidN CancellationRequested false;
   emitted (ActionStarted (plan_profile_id plan) (plan_run_id plan) (plan_source_id source) idx
              (backup_run_action_kind a))].

(** The trace of an action that completed. *)
Definition action_ok (source : BackupSourceRunPlan) (idx : Z) (a : BackupRunAction)
    (t : list Entry) : Prop :=
  exists r seg, ae_post a (Ret r) seg /\ ar_cancelled r = false /\
    t = action_started source idx a ++ seg ++
      [emitted (ActionCompleted (plan_profile_id plan) (plan_run_id plan) (plan_source_id source)
                  idx (backup_run_action_kind a));
       Did (WriteCheckpoint (action_checkpoint source a)) (Ok tt);
       emitted (CheckpointWritten (plan_profile_id plan) (plan_run_id plan) (plan_source_id source)
                  (source_index plan (plan_source_id source)) (backup_run_action_kind a))].

(** The trace of an action that was not begun, or was begun and did not complete. *)
Definition attempted (source : BackupSourceRunPlan) (idx : Z) (a : BackupRunAction)
    (t : list Entry) : Prop :=
  Forall is_bookkeeping t \/
  exists o seg tail, ae_post a o seg /\ Forall is_bookkeeping tail /\
    t = action_started source idx a ++ seg ++ tail.

Definition is_run_cancelled (ev : BackupRunEvent) : Prop :=
  match ev with RunCancelled _ _ _ _ _ _ _ _ => True | _ => False end.

(** How the run ends at an action it does not complete, after [n] that it did. *)
Definition stopped (n : Z) (cp : list BackupRunCheckpoint) (o : outcome loop_step)
    (t : list Entry) : Prop :=
  match o with
  | Ret (Stop (BackupRunExecutionCancelled m)) =>
      m = n /\ checkpoints_of t = [] /\ exists ev, terminals_of t = [ev] /\ is_run_cancelled ev
  | Ret (Stop (BackupRunExecutionFailed code msg m)) =>
      m = n /\ checkpoints_of t = [] /\
      terminals_of t = [RunFailed (plan_profile_id plan) (plan_run_id plan) code msg Backup]
  | Ret _ => False
  | Exn _ => terminals_of t = [] /\ checkpoints_of t `prefix_of` cp
  | Diverged => terminals_of t = [] /\ checkpoints_of t = []
  end.

Lemma attempted_tail source idx a o seg tail :
  ae_post a o seg -> Forall is_bookkeeping tail ->
  attempted source idx a (action_started source idx a ++ seg ++ tail).
Proof. intros H1 H2. right. by exists o, seg, tail. Qed.

Lemma emit_cancelled_wp source kind code msg c :
  wp (emit_cancelled E plan (Some source) kind code msg) (λ o t c', c' = c /\
    Forall is_bookkeeping t /\ checkpoints_of t = [] /\
    match o with
    | Ret _ => exists ev, terminals_of t = [ev] /\ is_run_cancelled ev
    | Exn _ => terminals_of t = []
    | Diverged => False
    end) c.
Proof.
  unfold emit_cancelled. wp_step. split; [done|]. split; [by repeat constructor|].
  destruct r as [[]|e]; cbn; (split; [done|]); [by eexists|done].
Qed.

Lemma catch_action_wp source idx kind n e c :
  wp (catch_action E plan source idx kind n e) (λ o t c', c' = c /\
    Forall is_bookkeeping t /\ stopped n [] o t) c.
Proof.
  unfold catch_action, emit_action_failure.
  destruct (is_operation_cancelled e).
  { wp_step. eapply wp_mono; [apply emit_cancelled_wp|]. cbn beta.
    intros [[]|e'|] t c' (-> & Hb & Hc & H); [| |done].
    - wp_step. rewrite app_nil_r. done.
    - split; [done|]. split; [done|]. simpl. by rewrite Hc. }
  destruct (is_btrfs_backup_error e).
  { do 2 wp_step. destruct r as [[]|e']; cbn [of_res].
    2: { split; [done|]. split; [by repeat constructor|done]. }
    do 2 wp_step. destruct r as [[]|e']; cbn [of_res].
    2: { split; [done|]. split; [by repeat constructor|done]. }
    wp_step. split; [done|]. split; [by repeat constructor|]. done. }
  destruct (is_std_exception e).
  { do 2 wp_step. destruct r as [[]|e']; cbn [of_res].
    2: { split; [done|]. split; [by repeat constructor|done]. }
    wp_step. split; [done|]. split; [by repeat constructor|done]. }
  wp_step. done.
Qed.

Lemma started_facts source idx a :
  terminals_of (action_started source idx a) = [] /\
  checkpoints_of (action_started source idx a) = [].
Proof. done. Qed.

(** Prepending entries without checkpoints or terminal events. *)
Lemma stopped_prepend n cp o pre t :
  terminals_of pre = [] -> checkpoints_of pre = [] -> stopped n cp o t -> stopped n cp o (pre ++ t).
Proof.
  intros Ht Hc. unfold stopped. rewrite terminals_of_app, checkpoints_of_app, Ht, Hc. done.
Qed.

Lemma stopped_mono n cp o t : stopped n [] o t -> stopped n cp o t.
Proof.
  destruct o as [[[]|]|e|]; try done. simpl. intros [? Hp]. split; [done|].
  apply prefix_nil_inv in Hp as ->. apply prefix_nil.
Qed.

Definition action_result_post (source : BackupSourceRunPlan) (idx : Z) (a : BackupRunAction)
    (n : Z) (o : outcome loop_step) (t : list Entry) : Prop :=
  match o with
  | Ret (Continue n' _) => n' = n + 1 /\ action_ok source idx a t
  | _ => attempted source idx a t /\ stopped n [action_checkpoint source a] o t
  end.

(** The body of the [try]: the entries of the action, then, if it was
    cancelled, the report. *)
Lemma try_body_wp source idx a n bytes c :
  wp (bind (ae_execute a (mkActionContext plan source idx bytes)) (λ result,
        if ar_cancelled result then
          emit_cancelled E plan (Some source) (Some (backup_run_action_kind a)) None "" ;;
          ret (Stop (BackupRunExecutionCancelled n))
        else ret (Continue n (add64 bytes (ar_bytes_transferred result)))))
    (λ o t c', c' = c /\ exists oe seg tail, ae_post a oe seg /\ Forall is_bookkeeping tail /\
       t = seg ++ tail /\
       match o with
       | Ret (Continue n' _) => n' = n /\ tail = [] /\ exists r, oe = Ret r /\ ar_cancelled r = false
       | Ret (Stop _) => stopped n [] o tail
       | Exn _ => terminals_of tail = [] /\ checkpoints_of tail = []
       | Diverged => tail = []
       end) c.
Proof.
  wp_step. eapply wp_mono; [apply ae_spec|]. cbn beta. intros oe seg c' [-> Hseg].
  destruct oe as [r|e|].
  2,3: split; [done|]; eexists _, seg, []; rewrite app_nil_r; done.
  destruct (ar_cancelled r) eqn:Er.
  - wp_step. eapply wp_mono; [apply emit_cancelled_wp|]. cbn beta.
    intros [[]|e|] t c' (-> & Hb & Hc & H); [wp_step| |done].
    + rewrite app_nil_r. split; [done|]. exists (Ret r), seg, t. done.
    + split; [done|]. exists (Ret r), seg, t. done.
  - wp_step. split; [done|]. exists (Ret r), seg, []. split; [done|]. split; [done|].
    split; [done|]. split; [done|]. split; [done|]. by exists r.
Qed.

Lemma not_begun source idx a n o r t :
  Forall is_bookkeeping t -> stopped n [] o t ->
  attempted source idx a (DidN CancellationRequested r :: t) /\
  stopped n [action_checkpoint source a] o (DidN CancellationRequested r :: t).
Proof.
  intros Hb Hs. split; [left; by constructor|].
  apply (stopped_prepend _ _ _ [_]); [done|done|]. by apply stopped_mono.
Qed.

Lemma begun source idx a n oe seg o tail :
  ae_post a oe seg -> Forall is_bookkeeping tail -> stopped n [action_checkpoint source a] o tail ->
  attempted source idx a (action_started source idx a ++ seg ++ tail) /\
  stopped n [action_checkpoint source a] o (action_started source idx a ++ seg ++ tail).
Proof.
  intros Hseg Hb Hs. split; [by eapply attempted_tail|]. apply ae_quiet in Hseg.
  apply stopped_prepend; [done|done|]. apply stopped_prepend; [|by apply quiet_checkpoints|done].
  by apply quiet_terminals.
Qed.

Lemma run_action_wp source idx a n bytes c :
  wp (run_action E plan source idx a n bytes)
    (λ o t c', c' = c /\ action_result_post source idx a n o t) c.
Proof.
  unfold run_action. cbv zeta. wp_step. apply wp_ncall. intros requested. cbn beta iota.
  destruct requested.
  { wp_step. eapply wp_mono; [apply emit_cancelled_wp|]. cbn beta.
    intros [[]|e|] t c' (-> & Hb & Hc & H); [wp_step| |done]; (split; [done|]).
    - rewrite app_nil_r. by apply not_begun.
    - apply not_begun; [done|]. simpl. by rewrite Hc. }
  do 2 wp_step. destruct r as [[]|e]; cbn [of_res].
  2: { split; [done|]. apply (not_begun source idx a n (Exn e) false [_]); [|done].
       by repeat constructor. }
  do 2 wp_step. eapply wp_mono; [apply try_body_wp|]. cbn beta.
  intros o t c' (-> & oe & seg & tail & Hseg & Hb & -> & Ho).
  destruct o as [[result|n' b]|e|].
  - wp_step. split; [done|]. rewrite app_nil_r.
    destruct (begun source idx a n oe seg (Ret (Stop result)) tail) as [H1 H2];
      [done|done|by apply stopped_mono|]. by destruct result.
  - destruct Ho as (-> & -> & r & -> & Hr). rewrite app_nil_r.
    do 2 wp_step. destruct r0 as [[]|e]; cbn [of_res].
    2: { split; [done|]. cbn [app].
         apply (begun source idx a n (Ret r) seg (Exn e)); [done|by repeat constructor|].
         split; [done|apply prefix_nil]. }
    wp_step. unfold after_success. do 2 wp_step. destruct r0 as [[]|e]; cbn [of_res].
    2: { split; [done|]. cbn [app].
         apply (begun source idx a n (Ret r) seg (Exn e)); [done|by repeat constructor|].
         split; [done|apply prefix_nil]. }
    wp_step. destruct r0 as [[]|e]; cbn [of_res].
    2: { split; [done|]. cbn [app].
         apply (begun source idx a n (Ret r) seg (Exn e)); [done|by repeat constructor|done]. }
    wp_step. split; [done|]. split; [done|]. exists r, seg. done.
  - destruct Ho as [Ht1 Ht2]. eapply wp_mono; [apply catch_action_wp|]. cbn beta.
    intros [[result|n' b]|e'|] t c' (-> & Hb' & Hs); [wp_step|destruct Hs| |]; (split; [done|]).
    all: rewrite ?app_nil_r, <- ?app_assoc; cbn [app].
    all: apply (begun source idx a n oe seg _ (tail ++ t)); [done|by apply Forall_app|].
    all: apply stopped_prepend; [done|done|by apply stopped_mono].
  - subst tail. split; [done|]. by apply (begun source idx a n oe seg Diverged []).
Qed.

(** ** All actions of a source *)

(** The trace of actions that all completed. *)
Inductive acts_trace (source : BackupSourceRunPlan) (idx : Z)
    : list BackupRunAction -> list Entry -> Prop :=
| acts_nil : acts_trace source idx [] []
| acts_cons a rest t t' :
    action_ok source idx a t -> acts_trace source idx rest t' ->
    acts_trace source idx (a :: rest) (t ++ t').

Lemma action_ok_facts source idx a t :
  action_ok source idx a t ->
  terminals_of t = [] /\ checkpoints_of t = [action_checkpoint source a].
Proof.
  intros (r & seg & Hseg & _ & ->). apply ae_quiet in Hseg.
  autorewrite with backup_rw. rewrite (quiet_terminals seg), (quiet_checkpoints seg) by done. done.
Qed.

Lemma acts_trace_facts source idx acts t :
  acts_trace source idx acts t ->
  terminals_of t = [] /\ checkpoints_of t = map (action_checkpoint source) acts.
Proof.
  induction 1 as [|a rest t t' Ha _ [IH1 IH2]]; [done|].
  apply action_ok_facts in Ha as [H1 H2]. autorewrite with backup_rw. by rewrite H1, H2, IH1, IH2.
Qed.

(** Some actions completed, the next one attempted. *)
Definition acts_partial (source : BackupSourceRunPlan) (idx : Z) (acts : list BackupRunAction)
    (n : Z) (o : outcome loop_step) (t : list Entry) : Prop :=
  exists before a after t1 t2, acts = before ++ a :: after /\ t = t1 ++ t2 /\
    acts_trace source idx before t1 /\ attempted source idx a t2 /\
    stopped (n + Z.of_nat (length before)) [action_checkpoint source a] o t2.

Lemma run_actions_wp source idx acts : forall n bytes c,
  wp (run_actions E plan source idx acts n bytes) (λ o t c', c' = c /\
    match o with
    | Ret (Continue n' _) => n' = n + Z.of_nat (length acts) /\ acts_trace source idx acts t
    | _ => acts_partial source idx acts n o t
    end) c.
Proof.
  induction acts as [|a rest IH]; intros n bytes c; cbn [run_actions].
  { wp_step. split; [done|]. split; [simpl; lia|constructor]. }
  wp_step. eapply wp_mono; [apply run_action_wp|]. cbn beta.
  assert (Hfirst : forall o t, attempted source idx a t ->
    stopped n [action_checkpoint source a] o t -> acts_partial source idx (a :: rest) n o t).
  { intros o t H1 H2. exists [], a, rest, [], t. split_and!; try done; [constructor|].
    simpl. by rewrite Z.add_0_r. }
  intros [[result|n' b]|e|] t c' [-> H]; simpl in H.
  - wp_step. rewrite app_nil_r. split; [done|]. destruct H. by apply Hfirst.
  - destruct H as [-> Ha]. eapply wp_mono; [apply IH|]. cbn beta.
    intros o t' c' [-> H]. split; [done|].
    destruct o as [[result|n' b']|e|].
    2: { destruct H as [-> H]. split; [simpl; lia|]. by constructor. }
    all: destruct H as (before & a' & after & t1 & t2 & -> & -> & H1 & H2 & H3);
      exists (a :: before), a', after, (t ++ t1), t2;
      replace (n + Z.of_nat (length (a :: before)))
        with (n + 1 + Z.of_nat (length before)) by (simpl; lia);
      (split; [done|]; split; [by rewrite app_assoc|]; split; [by constructor|done]).
  - split; [done|]. destruct H. by apply Hfirst.
  - split; [done|]. destruct H. by apply Hfirst.
Qed.

(** ** All sources *)

Definition source_begin (source : BackupSourceRunPlan) : list Entry :=
  [DidN CancellationRequested false;
   emitted (SourceStarted (plan_profile_id plan) (plan_run_id plan) (plan_source_id source)
              (source_index_for_event plan source))].

(** The trace of a source that completed. *)
Definition source_ok (source : BackupSourceRunPlan) (t : list Entry) : Prop :=
  exists t', acts_trace source (source_index_for_event plan source) (actions source) t' /\
    t = source_begin source ++ t' ++
      [emitted (SourceCompleted (plan_profile_id plan) (plan_run_id plan) (plan_source_id source)
                  (source_index_for_event plan source))].

(** A source that was not completed: [before] are the actions that were. *)
Definition source_partial (source : BackupSourceRunPlan) (n : Z) (o : outcome loop_step)
    (t : list Entry) : Prop :=
  exists before after pre t1 t2, actions source = before ++ after /\ t = pre ++ t1 ++ t2 /\
    Forall is_bookkeeping pre /\ terminals_of pre = [] /\ checkpoints_of pre = [] /\
    acts_trace source (source_index_for_event plan source) before t1 /\
    match after with
    | [] => Forall is_bookkeeping t2
    | a :: _ => attempted source (source_index_for_event plan source) a t2
    end /\
    stopped (n + Z.of_nat (length before)) (map (action_checkpoint source) (take 1 after)) o t2.

Lemma source_not_begun source n o t :
  Forall is_bookkeeping t -> stopped n [] o t -> source_partial source n o t.
Proof.
  intros Hb Hs. exists [], (actions source), [], [], t. split_and!; try done.
  - constructor.
  - destruct (actions source); [done|]. by left.
  - simpl. rewrite Z.add_0_r. by apply stopped_mono.
Qed.

Lemma run_source_wp source n bytes c :
  wp (run_source E plan source n bytes) (λ o t c', c' = c /\
    match o with
    | Ret (Continue n' _) => n' = n + Z.of_nat (length (actions source)) /\ source_ok source t
    | _ => source_partial source n o t
    end) c.
Proof.
  unfold run_source. cbv zeta. wp_step. apply wp_ncall. intros requested. cbn beta iota.
  destruct requested.
  { wp_step. eapply wp_mono; [apply emit_cancelled_wp|]. cbn beta.
    intros [[]|e|] t c' (-> & Hb & Hc & H); [wp_step| |done]; (split; [done|]);
      rewrite ?app_nil_r; (apply source_not_begun; [by constructor|]);
      apply (stopped_prepend _ _ _ [_]); try done. simpl. by rewrite Hc. }
  do 2 wp_step. destruct r as [[]|e]; cbn [of_res].
  2: { split; [done|]. by apply source_not_begun; [repeat constructor|]. }
  wp_step. eapply wp_mono; [apply run_actions_wp|]. cbn beta.
  assert (Hpart : forall o t, acts_partial source (source_index_for_event plan source)
      (actions source) n o t -> source_partial source n o (source_begin source ++ t)).
  { intros o t (before & a & after & t1 & t2 & Ha & -> & H1 & H2 & H3).
    exists before, (a :: after), (source_begin source), t1, t2. split_and!; try done.
    by repeat constructor. }
  intros [[result|n' b]|e|] t c' [-> H].
  - wp_step. rewrite app_nil_r. split; [done|]. by apply Hpart.
  - destruct H as [-> H]. do 2 wp_step. destruct r as [[]|e]; cbn [of_res].
    + wp_step. split; [done|]. split; [done|]. by exists t.
    + split; [done|]. exists (actions source), [], (source_begin source), t, [Did (EmitEvent
        (SourceCompleted (plan_profile_id plan) (plan_run_id plan) (plan_source_id source)
           (source_index_for_event plan source))) (Throw e)].
      split_and!; try done; by rewrite ?app_nil_r; repeat constructor.
  - split; [done|]. by apply Hpart.
  - split; [done|]. by apply Hpart.
Qed.

Inductive srcs_trace : list BackupSourceRunPlan -> list Entry -> Prop :=
| srcs_nil : srcs_trace [] []
| srcs_cons source rest t t' :
    source_ok source t -> srcs_trace rest t' -> srcs_trace (source :: rest) (t ++ t').

Definition all_actions (srcs : list BackupSourceRunPlan) : list BackupRunAction :=
  concat (map actions srcs).

Definition all_checkpoints (srcs : list BackupSourceRunPlan) : list BackupRunCheckpoint :=
  concat (map (λ source, map (action_checkpoint source) (actions source)) srcs).

Definition srcs_partial (srcs : list BackupSourceRunPlan) (n : Z) (o : outcome loop_step)
    (t : list Entry) : Prop :=
  exists before source after t1 t2, srcs = before ++ source :: after /\ t = t1 ++ t2 /\
    srcs_trace before t1 /\
    source_partial source (n + Z.of_nat (length (all_actions before))) o t2.

Lemma run_sources_wp srcs : forall n bytes c,
  wp (run_sources E plan srcs n bytes) (λ o t c', c' = c /\
    match o with
    | Ret (Continue n' _) => n' = n + Z.of_nat (length (all_actions srcs)) /\ srcs_trace srcs t
    | _ => srcs_partial srcs n o t
    end) c.
Proof.
  induction srcs as [|source rest IH]; intros n bytes c; cbn [run_sources].
  { wp_step. split; [done|]. split; [simpl; lia|constructor]. }
  wp_step. eapply wp_mono; [apply run_source_wp|]. cbn beta.
  assert (Hfirst : forall o t, source_partial source n o t -> srcs_partial (source :: rest) n o t).
  { intros o t H. exists [], source, rest, [], t. simpl. rewrite Z.add_0_r.
    split_and!; try done. constructor. }
  intros [[result|n' b]|e|] t c' [-> H].
  - wp_step. rewrite app_nil_r. split; [done|]. by apply Hfirst.
  - destruct H as [-> Hs]. eapply wp_mono; [apply IH|]. cbn beta.
    intros o t' c' [-> H]. split; [done|].
    assert (Hlen : forall l, Z.of_nat (length (all_actions (source :: l)))
      = Z.of_nat (length (actions source)) + Z.of_nat (length (all_actions l)))
      by (intros l; unfold all_actions; simpl; rewrite length_app; lia).
    destruct o as [[result|n' b']|e|].
    2: { destruct H as [-> H]. split; [rewrite Hlen; lia|]. by constructor. }
    all: destruct H as (before & src & after & t1 & t2 & -> & -> & H1 & H2);
      exists (source :: before), src, after, (t ++ t1), t2; rewrite Hlen, Z.add_assoc;
      (split; [done|]; split; [by rewrite app_assoc|]; split; [by constructor|done]).
  - split; [done|]. by apply Hfirst.
  - split; [done|]. by apply Hfirst.
Qed.

(** The outcome of the whole run. *)
Definition execution_post (o : outcome BackupRunExecutionResult) (t : list Entry) : Prop :=
  match o with
  | Ret (BackupRunExecutionCompleted n) =>
      n = Z.of_nat (length (all_actions (plan_sources plan))) /\ srcs_trace (plan_sources plan) t
  | Ret result => srcs_partial (plan_sources plan) 0 (Ret (Stop result)) t
  | Exn e => srcs_partial (plan_sources plan) 0 (Exn e) t
  | Diverged => srcs_partial (plan_sources plan) 0 Diverged t
  end.

Lemma executor_wp c :
  wp (executor_execute E plan) (λ o t c', c' = c /\ execution_post o t) c.
Proof.
  unfold executor_execute. wp_step. eapply wp_mono; [apply run_sources_wp|]. cbn beta.
  intros [[result|n b]|e|] t c' [-> H].
  - wp_step. rewrite app_nil_r. split; [done|].
    destruct result as [m| |]; [|done|done]. exfalso.
    destruct H as (? & ? & ? & ? & ? & _ & _ & _ & ? & ? & ? & ? & ? & _ & _ & _ & _ & _ & _ & _ & []).
  - wp_step. rewrite app_nil_r. destruct H as [-> H]. done.
  - done.
  - done.
Qed.

(** ** What follows for the trace of a run *)

Lemma source_ok_facts source t :
  source_ok source t ->
  terminals_of t = [] /\ checkpoints_of t = map (action_checkpoint source) (actions source).
Proof.
  intros (t' & H & ->). apply acts_trace_facts in H as [H1 H2].
  autorewrite with backup_rw. rewrite H1, H2. cbn. by rewrite app_nil_r.
Qed.

Lemma srcs_trace_facts srcs t :
  srcs_trace srcs t -> terminals_of t = [] /\ checkpoints_of t = all_checkpoints srcs.
Proof.
  induction 1 as [|source rest t t' Hs _ [IH1 IH2]]; [done|].
  apply source_ok_facts in Hs as [H1 H2]. autorewrite with backup_rw. by rewrite H1, H2, IH1, IH2.
Qed.

Lemma length_all_checkpoints srcs :
  length (all_checkpoints srcs) = length (all_actions srcs).
Proof.
  unfold all_checkpoints, all_actions. induction srcs as [|s l IH]; [done|]. simpl.
  by rewrite !length_app, IH, length_map.
Qed.

(** The checkpoints before the point where the run stopped are a prefix of those
    of the plan. *)
Lemma srcs_partial_facts srcs n o t :
  srcs_partial srcs n o t ->
  exists k tail, stopped (n + Z.of_nat k) (take 1 (drop k (all_checkpoints srcs))) o tail /\
    terminals_of t = terminals_of tail /\
    checkpoints_of t = take k (all_checkpoints srcs) ++ checkpoints_of tail /\
    (k <= length (all_actions srcs))%nat.
Proof.
  intros (before & source & after & t1 & t2 & -> & -> & H1
    & bacts & aacts & pre & u1 & u2 & Ha & -> & Hb & Hpt & Hpc & Hu1 & _ & Hs).
  apply srcs_trace_facts in H1 as [H1 H1']. apply acts_trace_facts in Hu1 as [Hu1 Hu1'].
  assert (Hcps : all_checkpoints (before ++ source :: after)
    = (all_checkpoints before ++ map (action_checkpoint source) bacts)
      ++ (map (action_checkpoint source) aacts ++ all_checkpoints after)).
  { unfold all_checkpoints. rewrite map_app, concat_app. simpl. rewrite Ha, map_app.
    by rewrite <- !app_assoc. }
  exists (length (all_checkpoints before) + length bacts)%nat, u2.
  assert (Hk : (length (all_checkpoints before) + length bacts)%nat
    = length (all_checkpoints before ++ map (action_checkpoint source) bacts))
    by (by rewrite length_app, length_map).
  split; [|split; [|split]].
  - replace (n + Z.of_nat (length (all_checkpoints before) + length bacts))
      with (n + Z.of_nat (length (all_actions before)) + Z.of_nat (length bacts))
      by (rewrite length_all_checkpoints; lia).
    rewrite Hk, Hcps, drop_app_length.
    destruct aacts as [|a aacts]; [by apply stopped_mono|]. exact Hs.
  - autorewrite with backup_rw. by rewrite H1, Hpt, Hu1.
  - autorewrite with backup_rw. rewrite H1', Hpc, Hu1', Hk, Hcps, take_app_length.
    by rewrite <- app_assoc.
  - rewrite <- length_all_checkpoints, Hcps, length_app, <- Hk. lia.
Qed.

(** What the outcome of a run says of its checkpoints and terminal events. *)
Definition outcome_post (o : outcome BackupRunExecutionResult) (t : list Entry) : Prop :=
  let all := all_checkpoints (plan_sources plan) in
  match o with
  | Ret (BackupRunExecutionCompleted n) =>
      n = Z.of_nat (length (all_actions (plan_sources plan))) /\
      checkpoints_of t = all /\ terminals_of t = []
  | Ret (BackupRunExecutionCancelled n) =>
      0 <= n <= Z.of_nat (length (all_actions (plan_sources plan))) /\
      checkpoints_of t = take (Z.to_nat n) all /\
      exists ev, terminals_of t = [ev] /\ is_run_cancelled ev
  | Ret (BackupRunExecutionFailed code msg n) =>
      0 <= n <= Z.of_nat (length (all_actions (plan_sources plan))) /\
      checkpoints_of t = take (Z.to_nat n) all /\
      terminals_of t = [RunFailed (plan_profile_id plan) (plan_run_id plan) code msg Backup]
  | Exn _ | Diverged => checkpoints_of t `prefix_of` all /\ terminals_of t = []
  end.

Lemma execution_outcome o t : execution_post o t -> outcome_post o t.
Proof.
  destruct o as [[n|n|code msg n]|e|]; simpl; intros H.
  - destruct H as [-> H]. apply srcs_trace_facts in H as [H1 H2]. done.
  - apply srcs_partial_facts in H as (k & tail & (-> & Hc & ev & Hev & Hcan) & Ht & Hcp & Hk).
    rewrite Hc, app_nil_r in Hcp. split; [lia|]. split; [|exists ev; by rewrite Ht].
    rewrite Hcp. f_equal. lia.
  - apply srcs_partial_facts in H as (k & tail & (-> & Hc & Hev) & Ht & Hcp & Hk).
    rewrite Hc, app_nil_r in Hcp. split; [lia|]. split; [|by rewrite Ht].
    rewrite Hcp. f_equal. lia.
  - apply srcs_partial_facts in H as (k & tail & (Hev & [c' Hc]) & Ht & Hcp & Hk).
    split; [|by rewrite Ht]. rewrite Hcp.
    rewrite <- (take_drop k (all_checkpoints (plan_sources plan))) at 2.
    apply list.prefix_app. trans (take 1 (drop k (all_checkpoints (plan_sources plan)))).
    + by exists c'.
    + apply prefix_take.
  - apply srcs_partial_facts in H as (k & tail & (Hev & Hc) & Ht & Hcp & Hk).
    split; [|by rewrite Ht]. rewrite Hcp, Hc, app_nil_r. apply prefix_take.
Qed.

(** C4.  Whatever the actions, the event sink and the checkpoint store do: a run
    that is reported as completed has executed and checkpointed every action of the
    plan and has left the terminal event to its caller; one reported as cancelled
    or failed after [n] actions has written exactly the checkpoints of the first
    [n] actions and has delivered exactly one terminal event, the matching one; and
    one that ends with an exception has delivered none. *)
Theorem executor_outcome w :
  let '(o, t) := run_program (executor_execute E plan) w in outcome_post o t.
Proof.
  destruct (wp_run _ _ w (executor_wp None)) as (c & _ & H). destruct (run_program _ _) as [o t].
  by apply execution_outcome.
Qed.

(** C6.  The trace of a run is that of completed sources, each the traces of its
    actions in the order of the plan between the events of the source, followed,
    unless the run completed, by one source in which some first actions completed
    and at most the next one was attempted: no action runs before all earlier ones
    of the plan succeeded and were checkpointed. *)
Theorem executor_trace w :
  let '(o, t) := run_program (executor_execute E plan) w in execution_post o t.
Proof.
  destruct (wp_run _ _ w (executor_wp None)) as (c & _ & H). by destruct (run_program _ _).
Qed.
End executor_facts.

(** ** The program's action executor implements the interface *)

(** What the handler of an action establishes. *)
Definition handler_post (roots : HandlerRoots) (a : BackupRunAction) (o : outcome unit)
    (t : list Entry) : Prop :=
  match a with
  | CreateSnapshotAction s source directory snapshot final state_dir run_id =>
      match snapshot_local_root roots with
      | Some root => create_post root s source directory snapshot final state_dir run_id o t
      | None => True
      end
  | VerifyReceivedAction _ local received =>
      verify_post (repository_local_root roots) (repository_target_root roots) local received o t
  | CommitReceivedAction _ local received final =>
      commit_handler_post (repository_local_root roots) (repository_target_root roots)
        local received final o t
  | RunHookAction _ phase hook => hook_post phase hook o t
  | _ => True
  end.

(** The result of a short action. *)
Definition short_outcome (o : outcome unit) : outcome BackupActionExecutionResult :=
  match o with
  | Ret _ => Ret (mkActionResult false 0)
  | Exn e => Exn e
  | Diverged => Diverged
  end.

(** An entry of an action: quiet, and it destroys only what the action may. *)
Definition action_entry (a : BackupRunAction) (e : Entry) : Prop :=
  quiet_entry e /\ destroys_planned a e.

Definition action_post (roots : HandlerRoots) (a : BackupRunAction)
    (o : outcome BackupActionExecutionResult) (t : list Entry) : Prop :=
  Forall (action_entry a) t /\
  match a with
  | SendReceiveAction _ _ _ _ _ =>
      match o with
      | Ret r => ar_cancelled r = true \/ exists plan result, sized_then_sent plan result t
      | _ => True
      end
  | _ => exists o', o = short_outcome o' /\ handler_post roots a o' t
  end.

Section instance.
Context {W : Type} (E : Env W) (fuel : nat) (roots : HandlerRoots).

Lemma handler_wp a plan c :
  wp (dispatcher_handle E roots a plan) (λ o t c', c' = c /\ handler_post roots a o t) c.
Proof.
  assert (Htriv : wp (dispatcher_handle E roots a plan) (λ _ _ c', c' = c /\ True) c).
  { eapply wp_mono; [apply dispatcher_only|]. cbn beta. intros o t c' [-> _]. done. }
  destruct a; cbn [dispatcher_handle handler_post]; try exact Htriv.
  - apply hook_wp.
  - destruct (snapshot_local_root roots) eqn:Er; [|exact Htriv || (cbn in Htriv; rewrite Er in Htriv; exact Htriv)].
    apply create_wp.
  - apply verify_wp.
  - apply commit_wp.
Qed.

Lemma adapter_only a x ev : only (action_entry a) (transfer_event_adapter E x ev).
Proof.
  unfold transfer_event_adapter. only_step; only_step. split; [|done]. split; [done|].
  simpl. by destruct r.
Qed.

Lemma transfer_entries a e : is_transfer_entry e -> action_entry a e.
Proof.
  intros H. destruct e as [A p r|A p r]; destruct p; try done; by destruct r || done.
Qed.

Lemma action_execute_wp a x c :
  wp (action_execute E fuel roots a x) (λ o t c', c' = c /\ action_post roots a o t) c.
Proof.
  assert (Hshort : wp (execute_short_action E roots a x) (λ o t c', c' = c /\
    Forall (action_entry a) t /\ exists o', o = short_outcome o' /\ handler_post roots a o' t) c).
  { unfold execute_short_action. wp_step.
    eapply wp_mono; [apply wp_and; [apply dispatcher_only|apply handler_wp]|]. cbn beta.
    intros o t c' [[-> Ht] [_ Hp]].
    assert (Ha : Forall (action_entry a) t).
    { eapply Forall_impl; [done|]. intros e (H1 & H2 & H3). split; [|done]. split; [done|].
      by rewrite H1. }
    destruct o as [u|e|]; [wp_step; rewrite app_nil_r| |]; (split; [done|]); (split; [done|]).
    - by exists (Ret u).
    - by exists (Exn e).
    - by exists Diverged. }
  destruct a; try exact Hshort. clear Hshort.
  cbn [action_execute]. unfold execute_transfer. wp_step.
  eapply wp_mono; [apply coordinator_wp with (P := action_entry (SendReceiveAction source_id
    snapshot parent remote_snapshot_directory incoming_run_directory))|].
  - intros e. apply transfer_entries.
  - intros ev. apply adapter_only.
  - cbn beta. intros [r|e|] t c' (-> & Ht & H); [wp_step; rewrite app_nil_r| |]; (split; [done|]).
    + split; [done|]. simpl. destruct H as [H|(plan & _ & H)]; [by left|]. right.
      by exists plan, r.
    + done.
    + done.
Qed.

(** A transfer that ends and was not cancelled first measured the stream with
    the send command of the transfer and then ran that same command, with the size
    measured; both ended with success; the command names the pinned snapshot and,
    exactly when the plan has one, the pinned parent; and the bytes reported are
    those of the transfer. *)
Theorem transfer_sized_then_sent snapshot parent remote_dir run_dir x w :
  let '(o, t) := run_program (execute_transfer E fuel snapshot parent remote_dir run_dir x) w in
  match o with
  | Ret r => ar_cancelled r = true \/
      exists plan result, planned_commands snapshot parent run_dir (target_mount_point (ax_plan x)) plan t /\
        sized_then_sent plan result t /\ ar_bytes_transferred r = bytes_transferred result
  | _ => True
  end.
Proof.
  assert (H : wp (execute_transfer E fuel snapshot parent remote_dir run_dir x) (λ o t _,
    match o with
    | Ret r => ar_cancelled r = true \/
        exists plan result, planned_commands snapshot parent run_dir (target_mount_point (ax_plan x)) plan t /\
          sized_then_sent plan result t /\ ar_bytes_transferred r = bytes_transferred result
    | _ => True
    end) None).
  { unfold execute_transfer. wp_step. eapply wp_mono; [apply coordinator_wp with (P := λ _, True)|].
    - done.
    - intros ev. unfold transfer_event_adapter. only_step; by only_step.
    - cbn beta. intros [r|e|] t c (_ & _ & H); [wp_step; rewrite app_nil_r|done|done].
      destruct H as [H|(plan & H1 & H2)]; [by left|]. right. by exists plan, r. }
  destruct (wp_run _ _ w H) as (c & Hw). by destruct (run_program _ _).
Qed.

Lemma action_post_quiet a o t : action_post roots a o t -> Forall quiet_entry t.
Proof. intros [H _]. eapply Forall_impl; [done|]. by intros e [? _]. Qed.

#[global] Instance program_executor : ActionExecutor E := {|
  ae_execute := action_execute E fuel roots;
  ae_post := action_post roots;
  ae_spec := action_execute_wp;
  ae_quiet := action_post_quiet;
|}.
End instance.

(** src/backup/execution/DefaultBackupRunFactory.cpp:23-34, with the factory of
    the action handler, src/backup/execution/actions/DefaultBackupRunActionHandlerFactory.cpp:31-44 *)
Definition factory_execute {W} (E : Env W) (fuel : nat) (plan : BackupRunPlan)
    : M (W:=W) BackupRunExecutionResult :=
  let! roots := owned_handler E plan in
  snd (@run_execute W E (program_executor E fuel roots) (mkRun plan false)).
