(* ===== verification/RunGuarantees.v ===== *)
(** * What a run may delete, and that it ends

    Consequences of the structure of a run: every entry of the trace that is not
    bookkeeping belongs to an action all of whose predecessors in the source have
    completed.  With the order of the plan this bounds what a run deletes, and
    when.  A run also ends when every transfer does. *)

From S2P Require Import Prelude Errors Identifiers RuntimeTime FsPath ConfigDomain.
From S2P Require Import SnapshotInventory IncrementalParent RetentionPlan PendingRecovery RunActions BackupRunPlan.
From S2P Require Import Ports Effects Mounts Planning Transfer ActionHandlers.
From S2P Require Import RunExecutor.

Open Scope Z_scope.
Open Scope eff_scope.

(** ** Where an entry of the trace comes from *)

Lemma app_cons_split {A} (pre post t t' : list A) e :
  t ++ t' = pre ++ e :: post ->
  (exists q, t = pre ++ e :: q) \/ (exists p, pre = t ++ p /\ t' = p ++ e :: post).
Proof.
  intros H. apply app_eq_inv in H as [(k & -> & H)|(k & -> & H)].
  - destruct k as [|x k]; simpl in H.
    + right. exists []. by rewrite !app_nil_r.
    + injection H as -> ->. left. by exists k.
  - right. by exists k.
Qed.

Section locate.
Context {W : Type} (E : Env W) `{!ActionExecutor E} (plan : BackupRunPlan).

(** [e], preceded by [pre], was done by the action [a] of the actions [acts],
    after the actions before it completed. *)
Definition done_by (source : BackupSourceRunPlan) (acts : list BackupRunAction)
    (pre : list Entry) (e : Entry) : Prop :=
  exists bacts a aacts o seg t1 p2, acts = bacts ++ a :: aacts /\ ae_post a o seg /\ e ∈ seg /\
    pre = t1 ++ p2 /\ acts_trace E plan source (source_index_for_event plan source) bacts t1.

Lemma done_by_cons source a acts t pre e :
  action_ok E plan source (source_index_for_event plan source) a t ->
  done_by source acts pre e -> done_by source (a :: acts) (t ++ pre) e.
Proof.
  intros Ht (bacts & a' & aacts & o & seg & t1 & p2 & -> & H1 & H2 & -> & H3).
  exists (a :: bacts), a', aacts, o, seg, (t ++ t1), p2. rewrite <- app_assoc. split_and!; try done.
  by constructor.
Qed.

Lemma done_by_first source a acts pre e o seg :
  ae_post a o seg -> e ∈ seg -> done_by source (a :: acts) pre e.
Proof.
  intros H1 H2. exists [], a, acts, o, seg, [], pre. split_and!; try done. constructor.
Qed.

(** The entries of an action are bookkeeping or in its segment. *)
Lemma begun_locate (e : Entry) pre post started seg tail :
  pre ++ e :: post = started ++ seg ++ tail ->
  Forall is_bookkeeping started -> Forall is_bookkeeping tail -> is_bookkeeping e \/ e ∈ seg.
Proof.
  rewrite !Forall_forall. intros Heq H1 H2.
  assert (H : e ∈ started ++ seg ++ tail) by (rewrite <- Heq; set_solver).
  rewrite !elem_of_app in H. destruct_or! H; auto.
Qed.

Lemma acts_locate source acts t :
  acts_trace E plan source (source_index_for_event plan source) acts t ->
  forall pre e post, t = pre ++ e :: post -> is_bookkeeping e \/ done_by source acts pre e.
Proof.
  induction 1 as [|a rest t t' Ha _ IH]; intros pre e post Ht; [by destruct pre|].
  apply app_cons_split in Ht as [[q ->]|(p & -> & ->)].
  - destruct Ha as (r & seg & Hseg & _ & Heq).
    apply begun_locate in Heq as [|He]; [by left| |by repeat constructor|by repeat constructor].
    right. by eapply done_by_first.
  - destruct (IH _ _ _ eq_refl) as [|H]; [by left|]. right. by apply done_by_cons.
Qed.

Lemma attempted_locate source a acts t pre e post :
  attempted E plan source (source_index_for_event plan source) a t -> t = pre ++ e :: post ->
  is_bookkeeping e \/ done_by source (a :: acts) pre e.
Proof.
  intros [Hb|(o & seg & tail & Hseg & Hb & Heq)] ->.
  - left. rewrite Forall_forall in Hb. apply Hb. set_solver.
  - apply begun_locate in Heq as [|He]; [by left| |by repeat constructor|done].
    right. by eapply done_by_first.
Qed.

Lemma done_by_app source bacts acts t1 pre e :
  acts_trace E plan source (source_index_for_event plan source) bacts t1 ->
  done_by source acts pre e -> done_by source (bacts ++ acts) (t1 ++ pre) e.
Proof.
  induction 1 as [|a rest t t' Ha _ IH]; [done|]. intros H. rewrite <- app_assoc.
  apply (done_by_cons source a (rest ++ acts)); [done|]. by apply IH.
Qed.

Lemma done_by_more source acts rest pre e :
  done_by source acts pre e -> done_by source (acts ++ rest) pre e.
Proof.
  intros (bacts & a' & aacts & o & seg & t1 & p2 & -> & H). exists bacts, a', (aacts ++ rest).
  exists o, seg, t1, p2. by rewrite <- app_assoc.
Qed.

(** The entries of a run. *)
Definition run_entry (srcs : list BackupSourceRunPlan) (pre : list Entry) (e : Entry) : Prop :=
  is_bookkeeping e \/
  exists source p0 p1, source ∈ srcs /\ pre = p0 ++ p1 /\ done_by source (actions source) p1 e.

Lemma run_entry_prepend srcs srcs' p pre e :
  run_entry srcs pre e -> srcs ⊆ srcs' -> run_entry srcs' (p ++ pre) e.
Proof.
  intros [H|(source & p0 & p1 & H1 & -> & H2)] Hs; [by left|]. right.
  exists source, (p ++ p0), p1. rewrite <- app_assoc. set_solver.
Qed.

Lemma source_ok_locate source t pre e post :
  source_ok E plan source t -> t = pre ++ e :: post -> run_entry [source] pre e.
Proof.
  intros (t' & Ht & ->) Heq.
  apply app_cons_split in Heq as [[q Heq]|(p & -> & Heq)].
  { left. assert (e ∈ source_begin plan source) by (rewrite Heq; set_solver).
    assert (Hb : Forall is_bookkeeping (source_begin plan source)) by (by repeat constructor).
    rewrite Forall_forall in Hb. auto. }
  apply app_cons_split in Heq as [[q ->]|(p' & -> & Heq)].
  - destruct (acts_locate _ _ _ Ht _ _ _ eq_refl) as [|H]; [by left|]. right.
    exists source, (source_begin plan source), p. set_solver.
  - left. destruct p' as [|? []]; by simplify_eq/=.
Qed.

Lemma source_partial_locate source n o t pre e post :
  source_partial E plan source n o t -> t = pre ++ e :: post -> run_entry [source] pre e.
Proof.
  intros (before & after & pre0 & t1 & t2 & Ha & -> & Hb & _ & _ & H1 & H2 & _) Heq.
  apply app_cons_split in Heq as [[q ->]|(p & -> & Heq)].
  { left. rewrite Forall_forall in Hb. apply Hb. set_solver. }
  apply (run_entry_prepend [source] [source]); [|done].
  apply app_cons_split in Heq as [[q ->]|(p' & -> & ->)].
  - destruct (acts_locate _ _ _ H1 _ _ _ eq_refl) as [|H]; [by left|]. right.
    exists source, [], p. rewrite Ha. split; [set_solver|]. split; [done|]. by apply done_by_more.
  - destruct after as [|a after].
    { left. rewrite Forall_forall in H2. apply H2. set_solver. }
    destruct (attempted_locate source a after _ _ _ _ H2 eq_refl) as [|H]; [by left|]. right.
    exists source, [], (t1 ++ p'). rewrite Ha. split; [set_solver|]. split; [done|].
    by apply done_by_app.
Qed.

Lemma srcs_locate srcs t : srcs_trace E plan srcs t ->
  forall pre e post, t = pre ++ e :: post -> run_entry srcs pre e.
Proof.
  induction 1 as [|source rest t t' Hs _ IH]; intros pre e post Ht; [by destruct pre|].
  apply app_cons_split in Ht as [[q ->]|(p & -> & ->)].
  - apply (run_entry_prepend [source] _ []); [|set_solver]. by eapply source_ok_locate.
  - apply (run_entry_prepend rest); [|set_solver]. by eapply IH.
Qed.

Lemma srcs_partial_locate srcs n o t pre e post :
  srcs_partial E plan srcs n o t -> t = pre ++ e :: post -> run_entry srcs pre e.
Proof.
  intros (before & source & after & t1 & t2 & -> & -> & H1 & H2) Heq.
  apply app_cons_split in Heq as [[q ->]|(p & -> & ->)].
  - apply (run_entry_prepend before _ []); [|set_solver]. by eapply srcs_locate.
  - apply (run_entry_prepend [source]); [|set_solver]. by eapply source_partial_locate.
Qed.

Lemma execution_locate o t pre e post :
  execution_post E plan o t -> t = pre ++ e :: post -> run_entry (plan_sources plan) pre e.
Proof.
  destruct o as [[]|e'|]; simpl; intros H Ht;
    [destruct H as [_ H]; by eapply srcs_locate|by eapply srcs_partial_locate..].
Qed.

(** What an action that completed did is in the trace. *)
Lemma acts_trace_elem source acts t a :
  acts_trace E plan source (source_index_for_event plan source) acts t -> a ∈ acts ->
  exists r seg l1 l2, ae_post a (Ret r) seg /\ t = l1 ++ seg ++ l2.
Proof.
  induction 1 as [|a' rest t t' Ha _ IH]; [by intros ?%not_elem_of_nil|].
  rewrite elem_of_cons. intros [->|Hin].
  - destruct Ha as (r & seg & Hseg & _ & ->). exists r, seg. eexists (action_started _ _ _ _), _.
    split; [done|]. rewrite <- !app_assoc. done.
  - destruct (IH Hin) as (r & seg & l1 & l2 & Hseg & ->). exists r, seg, (t ++ l1), l2.
    by rewrite <- !app_assoc.
Qed.
End locate.

(** ** Deletions *)

Definition is_retention (a : BackupRunAction) : Prop :=
  match a with
  | ApplyRemoteRetentionAction _ _ | ApplyLocalRetentionAction _ _ => True
  | _ => False
  end.

(** The roots of the handlers of a plan. *)
Definition plan_roots (plan : BackupRunPlan) : HandlerRoots :=
  let mp := target_mount_point plan in
  mkRoots (Some "/") (Some "/") (Some mp) (Some "/") (Some mp) "/" mp.

Definition opens_root (e : Entry) : Prop :=
  match e with
  | Did p _ => match p with OpenRoot _ => True | _ => False end
  | DidN _ _ => False
  end.

Section deletions.
Context {W : Type} (E : Env W) (fuel : nat).

Lemma owned_handler_wp plan c :
  wp (owned_handler E plan) (λ o t c', c' = c /\ Forall opens_root t /\
    match o with Ret r => r = plan_roots plan | Exn _ => True | Diverged => False end) c.
Proof.
  unfold owned_handler. cbv zeta.
  do 7 (do 2 wp_step; match goal with r : res unit |- _ => destruct r as [[]|]; cbn [of_res] end;
    [|split; [done|]; split; [by repeat constructor|done]]).
  wp_step. split; [done|]. split; [by repeat constructor|done].
Qed.

(** A run opens the roots and then executes the plan. *)
Lemma factory_wp plan c :
  wp (factory_execute E fuel plan) (λ o t c', c' = c /\ exists t0 t1, t = t0 ++ t1 /\
    Forall opens_root t0 /\
    (execution_post E (ActionExecutor0 := program_executor E fuel (plan_roots plan)) plan o t1 \/
     t1 = [] /\ exists e, o = Exn e)) c.
Proof.
  unfold factory_execute. wp_step. eapply wp_mono; [apply owned_handler_wp|]. cbn beta.
  intros [r|e|] t0 c' (-> & Ht0 & H); [subst r| |done].
  - cbn [run_execute run_started run_plan snd].
    eapply wp_mono; [apply executor_wp|]. cbn beta. intros o t1 c' [-> H].
    split; [done|]. exists t0, t1. auto.
  - split; [done|]. exists t0, []. rewrite app_nil_r. split; [done|]. split; [done|]. right. eauto.
Qed.

(** A deletion in the trace belongs to an action of the plan. *)
Definition deletion_by (plan : BackupRunPlan) (pre : list Entry) (p : path) : Prop :=
  exists source bacts a aacts p0 t1 p2, source ∈ plan_sources plan /\
    actions source = bacts ++ a :: aacts /\ p ∈ action_deletes a /\
    pre = p0 ++ t1 ++ p2 /\
    acts_trace E (ActionExecutor0 := program_executor E fuel (plan_roots plan)) plan source
      (source_index_for_event plan source) bacts t1.

Lemma factory_deletions plan c :
  wp (factory_execute E fuel plan) (λ _ t _, forall pre e post p,
    t = pre ++ e :: post -> entry_deletes e = Some p -> deletion_by plan pre p) c.
Proof.
  eapply wp_mono; [apply factory_wp|]. cbn beta.
  intros o t _ (_ & t0 & t1 & -> & Ht0 & H) pre e post p Ht Hd.
  apply app_cons_split in Ht as [[q ->]|(p' & -> & Ht)].
  { rewrite Forall_forall in Ht0. specialize (Ht0 e ltac:(set_solver)).
    destruct e as [A [] r|]; done. }
  destruct H as [H|[-> _]]; [|by destruct p'].
  destruct (execution_locate E plan o t1 p' e post H Ht) as [Hb|(source & q0 & q1 & Hs & -> & Hby)].
  { by destruct e as [A [] r|]. }
  destruct Hby as (bacts & a & aacts & oa & seg & s1 & p2 & Ha & Hpost & He & -> & Htr).
  exists source, bacts, a, aacts, (t0 ++ q0), s1, p2. rewrite <- app_assoc. split_and!; try done.
  destruct Hpost as [Hall _]. rewrite Forall_forall in Hall. destruct (Hall e He) as [_ [Hdel _]].
  by rewrite Hd in Hdel.
Qed.

Lemma deletion_located plan w o t pre e post p :
  run_program (factory_execute E fuel plan) w = (o, t) -> t = pre ++ e :: post ->
  entry_deletes e = Some p -> deletion_by plan pre p.
Proof.
  intros Hrun Ht Hd. destruct (wp_run _ _ w (factory_deletions plan None)) as (c & H).
  rewrite Hrun in H. by eapply H.
Qed.

(** A removal in the trace is one an action of the plan names. *)
Lemma factory_removals plan c :
  wp (factory_execute E fuel plan) (λ _ t _, forall e r, e ∈ t -> entry_removes e = Some r ->
    exists source a, source ∈ plan_sources plan /\ a ∈ actions source /\ r ∈ action_removes a) c.
Proof.
  eapply wp_mono; [apply factory_wp|]. cbn beta.
  intros o t _ (_ & t0 & t1 & -> & Ht0 & H) e r [He|He]%elem_of_app Hr.
  { rewrite Forall_forall in Ht0. specialize (Ht0 e He). by destruct e as [A [] r'|]. }
  destruct H as [H|[-> _]]; [|by apply not_elem_of_nil in He].
  apply list_elem_of_split in He as (p' & post & Ht).
  destruct (execution_locate E plan o t1 p' e post H Ht) as [Hb|(source & q0 & q1 & Hs & -> & Hby)].
  { by destruct e as [A [] r'|]. }
  destruct Hby as (bacts & a & aacts & oa & seg & s1 & p2 & Ha & [Hall _] & He & _).
  exists source, a. split; [done|]. split; [rewrite Ha; set_solver|].
  rewrite Forall_forall in Hall. destruct (Hall e He) as [_ [_ Hrem]]. by rewrite Hr in Hrem.
Qed.

(** Retention comes after the commit in the actions of a source. *)
Lemma retention_follows_commit source context ps recovery parent lr rr bacts a aacts :
  ordered_source_actions source context ps recovery parent lr rr = bacts ++ a :: aacts ->
  is_retention a ->
  CommitReceivedAction (source_id source) (local_snapshot ps) (received_snapshot ps)
    (final_remote_snapshot ps) ∈ bacts.
Proof.
  unfold ordered_source_actions. cbv zeta. rewrite !app_assoc. intros H Ha.
  apply app_cons_split in H as [[q H]|(p & -> & H)].
  - exfalso. match type of H with ?l = _ => assert (Hin : a ∈ l) by (rewrite H; set_solver) end.
    rewrite !elem_of_app, !list_elem_of_singleton in Hin.
    assert (Hhook : forall ph hs, a ∈ map (RunHookAction (source_id source) ph) hs -> False).
    { intros ph hs (h & -> & _)%list_elem_of_fmap. done. }
    destruct_or! Hin; try (by subst); try (by eapply Hhook).
    destruct (recovery_required recovery); [apply list_elem_of_singleton in Hin; by subst|].
    by apply not_elem_of_nil in Hin.
  - do 3 (destruct p as [|? p]; simpl in H; [injection H as <- _; done|];
      injection H as <- H). set_solver.
Qed.

(** The paths a plan built from discovered inventories names for deletion belong
    to an enabled source of the profile. *)
Definition owned (profile : Profile) (p : path) : Prop :=
  exists source, source ∈ sources profile /\ source_enabled source = true /\
    belongs_to profile source p.

Lemma source_plan_deletes_owned profile found run_id ts source splan a p :
  let context := mkSourcePlanContext profile (local_inventory found) (remote_inventory found)
    (pending_markers found) (pending_snapshots found) (planning_state_dir found) run_id ts in
  discovered profile found -> source ∈ sources profile -> source_enabled source = true ->
  build_source_run_plan source context = Ok splan -> a ∈ actions splan ->
  p ∈ action_deletes a -> owned profile p.
Proof.
  cbv zeta. intros Hd Hin Hen Hb Ha Hp.
  apply build_source_run_plan_inv in Hb as (ps & parent & nl & nr & Hps & _ & Hnl & Hnr & ->).
  apply plan_source_paths_Ok in Hps as (_ & _ & _ & nm & _ & ->). cbn in Hnl, Hnr.
  pose proof (projected_snapshot_parses _ _ _ _ _ _ Hnl) as Hparse.
  apply projected_snapshot_Ok in Hnl as (_ & _ & Hnl & _), Hnr as (_ & _ & Hnr & _).
  assert (Hnew : owned profile (snap_path nl) /\ owned profile (snap_path nr)).
  { rewrite Hnl, Hnr. split; exists source; (split; [done|]); (split; [done|]);
      [left|right]; left; by exists nm. }
  cbn [actions] in Ha. apply ordered_actions_data in Ha. destruct Hnew as [Hnew1 Hnew2].
  destruct a; cbn [action_deletes] in Hp; try (by apply not_elem_of_nil in Hp).
  - subst recovery. exists source. split; [done|]. split; [done|].
    eapply (recovery_belongs source (mkSourcePlanContext profile _ _ _ _ _ _ _)); [|].
    2: { apply elem_of_app in Hp as [Hp|Hp]; repeat case_match;
           try (by apply not_elem_of_nil in Hp); apply list_elem_of_singleton in Hp as ->; eauto. }
    done.
  - apply list_elem_of_singleton in Hp as ->. subst. cbn in *. by rewrite <- Hnr.
  - subst. eapply retention_paths; [|exact Hnew2|exact Hp]. intros s Hs.
    apply surviving_elem in Hs. destruct (proj2 (Hd _ s) Hs) as (src & H1 & H2 & <- & H3).
    exists src. split; [done|]. split; [done|]. right. by apply snapshot_in_belongs.
  - subst. eapply retention_paths; [|exact Hnew1|exact Hp]. intros s Hs.
    apply surviving_elem in Hs. destruct (proj1 (Hd _ s) Hs) as (src & H1 & H2 & <- & H3).
    exists src. split; [done|]. split; [done|]. left. by apply snapshot_in_belongs.
Qed.

Lemma plan_deletes_owned profile found run_id ts plan splan a p :
  discovered profile found ->
  build_backup_run_plan profile (local_inventory found) (remote_inventory found)
    (pending_markers found) (pending_snapshots found) (planning_state_dir found) run_id ts = Ok plan ->
  splan ∈ plan_sources plan -> a ∈ actions splan -> p ∈ action_deletes a -> owned profile p.
Proof.
  intros Hd Hbuild Hs Ha Hp.
  unfold build_backup_run_plan in Hbuild. cbv zeta in Hbuild. rewrite res_bind_Ok in Hbuild.
  destruct Hbuild as (plans & Hplans & [= <-]). apply build_sources_inv in Hplans as (Hf & _).
  simpl in Hs. apply list_elem_of_lookup in Hs as [i Hi].
  destruct (Forall2_lookup_r _ _ _ _ _ Hf Hi) as (source & Hsrc & Hb).
  apply list_elem_of_lookup_2 in Hsrc. rewrite list_elem_of_In, filter_In in Hsrc.
  destruct Hsrc as [Hsrc Hen]. apply list_elem_of_In in Hsrc.
  by eapply source_plan_deletes_owned.
Qed.

(** What a run removes lies in the incoming directory of an enabled source, which is within the
    incoming root of the profile: what earlier runs left there, and of the run itself the
    directory it received in and the received snapshot. *)
Definition incoming_of (profile : Profile) (source : ProfileSource) : path :=
  path_append (abs_value (incoming_root (paths profile))) (id_value (source_id source)).

Definition removed_incoming (profile : Profile) (run_id : RunId) (r : Removal) : Prop :=
  exists source, source ∈ sources profile /\ source_enabled source = true /\
    path_is_within (incoming_of profile source) (abs_value (incoming_root (paths profile))) = true /\
    match r with
    | ContentsOf p => p = incoming_of profile source
    | TreeOf p =>
        p = path_append (incoming_of profile source) (id_value run_id) \/
        exists nm, is_Some (parse_snapshot_name nm (source_id source)) /\
          p = path_append (path_append (incoming_of profile source) (id_value run_id)) nm
    end.

Lemma source_plan_removes_incoming source context splan a r :
  source ∈ sources (ctx_profile context) -> source_enabled source = true ->
  build_source_run_plan source context = Ok splan -> a ∈ actions splan ->
  r ∈ action_removes a -> removed_incoming (ctx_profile context) (ctx_run_id context) r.
Proof.
  intros Hin Hen Hb Ha Hr.
  apply build_source_run_plan_inv in Hb as (ps & parent & nl & nr & Hps & _ & Hnl & _ & ->).
  apply plan_source_paths_Ok in Hps as (_ & Hw & _ & nm & _ & ->). cbn in Hnl.
  pose proof (projected_snapshot_parses _ _ _ _ _ _ Hnl) as Hparse.
  cbn [actions] in Ha. apply ordered_actions_data in Ha.
  exists source. split; [done|]. split; [done|]. split; [done|].
  destruct a; cbn [action_removes] in Hr; try (by apply not_elem_of_nil in Hr).
  - apply list_elem_of_singleton in Hr as ->. subst. done.
  - destruct Ha as [-> ->]. rewrite !elem_of_cons, elem_of_nil in Hr. destruct Hr as [->|[->|[]]].
    + right. by exists nm.
    + by left.
Qed.

Lemma plan_removes_incoming profile li ri markers pendings state_dir run_id ts plan splan a r :
  build_backup_run_plan profile li ri markers pendings state_dir run_id ts = Ok plan ->
  splan ∈ plan_sources plan -> a ∈ actions splan -> r ∈ action_removes a ->
  removed_incoming profile run_id r.
Proof.
  intros Hbuild Hs Ha Hr.
  unfold build_backup_run_plan in Hbuild. cbv zeta in Hbuild. rewrite res_bind_Ok in Hbuild.
  destruct Hbuild as (plans & Hplans & [= <-]). apply build_sources_inv in Hplans as (Hf & _).
  simpl in Hs. apply list_elem_of_lookup in Hs as [i Hi].
  destruct (Forall2_lookup_r _ _ _ _ _ Hf Hi) as (source & Hsrc & Hb).
  apply list_elem_of_lookup_2 in Hsrc. rewrite list_elem_of_In, filter_In in Hsrc.
  destruct Hsrc as [Hsrc Hen]. apply list_elem_of_In in Hsrc.
  by eapply (source_plan_removes_incoming source
    (mkSourcePlanContext profile li ri markers pendings state_dir run_id ts)).
Qed.

(** In whatever state the ports are, every subvolume a run deletes is one
    an action of its plan names: the snapshots its recovery action found
    uncommitted, those its retention plans select, or the destination of a commit. *)
Theorem run_deletes_only_planned plan w pre e post p :
  (run_program (factory_execute E fuel plan) w).2 = pre ++ e :: post ->
  entry_deletes e = Some p ->
  exists source a, source ∈ plan_sources plan /\ a ∈ actions source /\ p ∈ action_deletes a.
Proof.
  destruct (run_program _ w) as [o t] eqn:Hrun. simpl. intros Ht Hd.
  destruct (deletion_located _ _ _ _ _ _ _ _ Hrun Ht Hd)
    as (source & bacts & a & aacts & _ & _ & _ & Hs & Ha & Hp & _).
  exists source, a. split; [done|]. split; [rewrite Ha; set_solver|done].
Qed.

(** C3.  A run of a plan built for a profile deletes a snapshot that is neither
    its recovery's nor the destination of its commit only after, in the same run,
    the new snapshot of that source was committed: the metadata of the final
    snapshot was read back from the target and its received UUID is the UUID of
    the local snapshot. *)
Theorem retention_only_after_commit profile li ri markers pendings state_dir run_id ts plan w
    pre e post p :
  build_backup_run_plan profile li ri markers pendings state_dir run_id ts = Ok plan ->
  (run_program (factory_execute E fuel plan) w).2 = pre ++ e :: post ->
  entry_deletes e = Some p ->
  exists source a, source ∈ plan_sources plan /\ a ∈ actions source /\ p ∈ action_deletes a /\
    (is_retention a ->
     exists sid local received final lmd rmd,
       CommitReceivedAction sid local received final ∈ actions source /\
       Did (ReadMetadataBeneath "/" local) (Ok (Some lmd)) ∈ pre /\
       Did (CreateReadonlySnapshotBeneath (target_mount_point plan) received
              (target_mount_point plan) final) (Ok tt) ∈ pre /\
       Did (ReadMetadataBeneath (target_mount_point plan) final) (Ok (Some rmd)) ∈ pre /\
       uuid_matches (md_uuid lmd) (md_received_uuid rmd) = true).
Proof.
  intros Hbuild. destruct (run_program _ w) as [o t] eqn:Hrun. simpl. intros Ht Hd.
  destruct (deletion_located _ _ _ _ _ _ _ _ Hrun Ht Hd)
    as (splan & bacts & a & aacts & p0 & t1 & p2 & Hs & Ha & Hp & -> & Htr).
  exists splan, a. split; [done|]. split; [rewrite Ha; set_solver|]. split; [done|]. intros Hret.
  unfold build_backup_run_plan in Hbuild. cbv zeta in Hbuild. rewrite res_bind_Ok in Hbuild.
  destruct Hbuild as (plans & Hplans & [= <-]). apply build_sources_inv in Hplans as (Hf & _).
  simpl in Hs. apply list_elem_of_lookup in Hs as [i Hi].
  destruct (Forall2_lookup_r _ _ _ _ _ Hf Hi) as (source & _ & Hsrc).
  apply build_source_run_plan_inv in Hsrc as (ps & parent & nl & nr & _ & _ & _ & _ & ->).
  cbn [actions] in *. pose proof (retention_follows_commit _ _ _ _ _ _ _ _ _ _ Ha Hret) as Hc.
  destruct (acts_trace_elem _ _ _ _ _ _ Htr Hc) as (r & seg & l1 & l2 & Hpost & ->).
  destruct Hpost as (_ & o' & Ho & [(? & ? & -> & _)|(lmd & t' & -> & Hcommit)]); [done|].
  destruct Hcommit as [(rmd & -> & Hu & ->)|(? & -> & _)]; [|done].
  exists (source_id source), (local_snapshot ps), (received_snapshot ps), (final_remote_snapshot ps),
    lmd, rmd. split; [rewrite Ha; set_solver|].
  unfold commit_created. simpl. split_and!; [set_solver..|done].
Qed.
End deletions.

(** ** Termination

    The only loop whose length the code does not bound itself is the wait for a
    transfer: it ends when every transfer does.  [polls w h] is how many more times
    waiting for the transfer [h] can time out in the state [w]. *)

Section termination.
Context {W : Type} (E : Env W) (polls : W -> nat -> nat) (bound : nat).

Definition is_start {A : Set} (p : Port A) : bool :=
  match p with TransferStart _ => true | _ => false end.

(** Every started transfer ends within [bound] timed-out waits, and nothing but
    starting one sets it back. *)
Record transfers_end : Prop := mkTransfersEnd {
  te_start plan w : forall h w', env_port E (TransferStart plan) w = (Ok h, w') ->
    (polls w' h <= bound)%nat;
  te_wait h w : forall evs w', env_port E (TransferWaitFor h) w = (Ok (false, evs), w') ->
    (polls w' h < polls w h)%nat;
  te_port (A : Set) (p : Port A) w h : is_start p = false ->
    (polls (env_port E p w).2 h <= polls w h)%nat;
  te_nport (A : Set) (p : NPort A) w h : (polls (env_nport E p w).2 h <= polls w h)%nat;
}.

(** [m] returns or throws. *)
Definition ends {A} (m : M (W:=W) A) : Prop := forall s, (m s).1 <> Diverged.

(** [m] returns or throws and sets no transfer back. *)
Definition calm {A} (m : M (W:=W) A) : Prop := forall s,
  (m s).1 <> Diverged /\ forall h, (polls (st_world (m s).2) h <= polls (st_world s) h)%nat.

Lemma calm_ends {A} (m : M (W:=W) A) : calm m -> ends m.
Proof. intros H s. apply H. Qed.

Lemma ends_ret {A} (a : A) : ends (ret a).
Proof. done. Qed.
Lemma ends_throw {A} e : ends (throw (A:=A) e).
Proof. done. Qed.
Lemma ends_get_context : ends get_context.
Proof. done. Qed.
Lemma ends_put_context c : ends (put_context c).
Proof. done. Qed.
Lemma ends_finally {A} (m : M (W:=W) A) cleanup : ends m -> ends cleanup -> ends (finally m cleanup).
Proof.
  intros Hm Hc s. unfold finally. specialize (Hm s).
  destruct (m s) as [[a|e|] s']; simpl in *; [..|done]; specialize (Hc s');
    by destruct (cleanup s') as [[]].
Qed.
Lemma ends_lift {A} (r : res A) : ends (lift r).
Proof. intros s. by destruct r. Qed.
Lemma ends_call {A : Set} (p : Port A) : ends (call E p).
Proof. intros s. unfold call. by destruct (env_port E p _) as [[] w]. Qed.
Lemma ends_ncall {A : Set} (p : NPort A) : ends (ncall E p).
Proof. intros s. unfold ncall. by destruct (env_nport E p _). Qed.
Lemma ends_bind {A B} (m : M (W:=W) A) (f : A -> M B) :
  ends m -> (forall a, ends (f a)) -> ends (bind m f).
Proof.
  intros Hm Hf s. unfold bind. specialize (Hm s). destruct (m s) as [[a|e|] s']; simpl in *; [|done|done].
  apply Hf.
Qed.
Lemma ends_try {A} (m : M (W:=W) A) h : ends m -> (forall e, ends (h e)) -> ends (try_catch m h).
Proof.
  intros Hm Hh s. unfold try_catch. specialize (Hm s).
  destruct (m s) as [[a|e|] s']; simpl in *; [done| |done]. apply Hh.
Qed.
Lemma ends_for_each {A} (f : A -> M (W:=W) unit) l : (forall x, ends (f x)) -> ends (for_each f l).
Proof. intros Hf. induction l as [|x l IH]; simpl; [apply ends_ret|]. by apply ends_bind. Qed.

Context (Hend : transfers_end).

Lemma calm_ret {A} (a : A) : calm (ret a).
Proof. done. Qed.
Lemma calm_call {A : Set} (p : Port A) : is_start p = false -> calm (call E p).
Proof.
  intros Hp s. unfold call. pose proof (te_port Hend A p (st_world s)) as H.
  destruct (env_port E p _) as [r w]. simpl in *. split; [by destruct r|]. auto.
Qed.
Lemma calm_ncall {A : Set} (p : NPort A) : calm (ncall E p).
Proof.
  intros s. unfold ncall. pose proof (te_nport Hend A p (st_world s)) as H.
  destruct (env_nport E p _) as [r w]. simpl in *. auto.
Qed.
Lemma calm_bind {A B} (m : M (W:=W) A) (f : A -> M B) :
  calm m -> (forall a, calm (f a)) -> calm (bind m f).
Proof.
  intros Hm Hf s. unfold bind. specialize (Hm s).
  destruct (m s) as [[a|e|] s']; simpl in *; [|by split; [|apply Hm]|by destruct Hm].
  specialize (Hf a s') as [H1 H2]. split; [done|]. intros h. etrans; [apply H2|apply Hm].
Qed.
Lemma calm_try {A} (m : M (W:=W) A) h : calm m -> (forall e, calm (h e)) -> calm (try_catch m h).
Proof.
  intros Hm Hh s. unfold try_catch. specialize (Hm s).
  destruct (m s) as [[a|e|] s']; simpl in *; [done| |done].
  specialize (Hh e s') as [H1 H2]. split; [done|]. intros x. etrans; [apply H2|apply Hm].
Qed.
Lemma calm_for_each {A} (f : A -> M (W:=W) unit) l : (forall x, calm (f x)) -> calm (for_each f l).
Proof. intros Hf. induction l as [|x l IH]; simpl; [apply calm_ret|]. by apply calm_bind. Qed.

(** The wait: each round that does not finish uses up one of the polls left. *)
Lemma wait_ends sink : (forall ev, calm (sink ev)) ->
  forall fuel h s, (polls (st_world s) h < fuel)%nat ->
  (wait_for_transfer_or_cancellation E fuel h sink s).1 <> Diverged.
Proof.
  intros Hs. induction fuel as [|fuel IH]; intros h s Hf; [lia|].
  cbn [wait_for_transfer_or_cancellation]. unfold bind at 1, call at 1.
  destruct (env_port E (TransferWaitFor h) (st_world s)) as [[[finished evs]|e] w] eqn:Ep;
    cbn [of_res]; [|done].
  assert (Hd : calm (deliver sink evs)).
  { apply calm_for_each. intros ev. apply calm_try; [apply Hs|]. intros _. apply calm_ret. }
  unfold bind at 1.
  match goal with |- context [deliver sink evs ?s0] => specialize (Hd s0) as [Hd1 Hd2];
    destruct (deliver sink evs s0) as [[[]|e|] s1] end; simpl in *; [|done|done].
  destruct finished; [done|]. pose proof (te_wait Hend h (st_world s) evs w Ep) as Hlt.
  assert (Hc : calm (bind (ncall E CancellationRequested) (λ requested : bool,
    if requested then call E (TransferRequestCancel h) else ret tt))).
  { apply calm_bind; [apply calm_ncall|]. intros []; [by apply calm_call|apply calm_ret]. }
  specialize (Hc s1) as [Hc1 Hc2]. unfold bind in *.
  destruct (ncall E CancellationRequested s1) as [[requested|e|] s2]; simpl in *; [|done|done].
  destruct ((if requested then call E (TransferRequestCancel h) else ret tt) s2)
    as [[[]|e|] s3]; simpl in *; [|done|done].
  apply IH. specialize (Hd2 h). specialize (Hc2 h). lia.
Qed.

Lemma pipeline_ends sink fuel plan : (forall ev, calm (sink ev)) -> (bound < fuel)%nat ->
  ends (run_pipeline E fuel plan sink).
Proof.
  intros Hs Hf s. unfold run_pipeline. unfold bind at 1, call at 1.
  destruct (env_port E (TransferStart plan) (st_world s)) as [[h|e] w] eqn:Ep; cbn [of_res]; [|done].
  pose proof (te_start Hend plan _ _ _ Ep) as Hp. unfold bind.
  pose proof (wait_ends sink Hs fuel h (mkSt w (st_trace s ++ [Did (TransferStart plan) (Ok h)])
    (st_context s)) ltac:(simpl; lia)) as Hw.
  destruct (wait_for_transfer_or_cancellation E fuel h sink _) as [[[]|e|] s1]; simpl in *; [|done|done].
  apply ends_call.
Qed.
End termination.

(** Decompose [ends] along the program. *)
Ltac ends_step :=
  lazymatch goal with
  | |- ends (bind _ _) => apply ends_bind; [|intros ?]
  | |- ends (try_catch _ _) => apply ends_try; [|intros ?]
  | |- ends (finally _ _) => apply ends_finally
  | |- ends get_context => apply ends_get_context
  | |- ends (put_context _) => apply ends_put_context
  | |- ends (ret _) => apply ends_ret
  | |- ends (throw _) => apply ends_throw
  | |- ends (lift _) => apply ends_lift
  | |- ends (for_each _ _) => apply ends_for_each; intros ?
  | |- ends (call _ _) => apply ends_call
  | |- ends (ncall _ _) => apply ends_ncall
  | |- ends (match ?x with _ => _ end) => destruct x
  end.

Section run_termination.
Context {W : Type} (E : Env W) (polls : W -> nat -> nat) (bound fuel : nat).
Context (Hend : transfers_end E polls bound) (Hfuel : (bound < fuel)%nat).

Lemma adapter_calm x ev : calm polls (transfer_event_adapter E x ev).
Proof.
  unfold transfer_event_adapter. destruct (negb _); [apply calm_ret|]. by eapply calm_call.
Qed.

Lemma sizing_calm x ev : calm polls (stream_sizing_sink (transfer_event_adapter E x) ev).
Proof. unfold stream_sizing_sink. destruct (negb _); [apply calm_ret|]. apply adapter_calm. Qed.

Lemma transfer_ends snapshot parent remote_dir run_dir x :
  ends (execute_transfer E fuel snapshot parent remote_dir run_dir x).
Proof.
  unfold execute_transfer, coordinator_execute, transfer_plan_for_action.
  repeat first [ends_step
    | apply (pipeline_ends E polls bound Hend); [intros; apply adapter_calm || apply sizing_calm|done]].
Qed.

Lemma dispatcher_ends roots a plan : ends (dispatcher_handle E roots a plan).
Proof.
  destruct a; cbn [dispatcher_handle];
    unfold handle_recover_pending, handle_cleanup_incoming, handle_run_hook, handle_create_snapshot,
      require_new_snapshot_metadata, handle_verify_received, handle_commit_received,
      require_snapshot_metadata, commit_received_snapshot_beneath, cleanup_failed,
      apply_retention, delete_under, handle_cleanup_source; repeat ends_step.
Qed.

Lemma action_ends roots a x : ends (action_execute E fuel roots a x).
Proof.
  destruct a; cbn [action_execute]; try (unfold execute_short_action; ends_step;
    [apply dispatcher_ends|ends_step]). apply transfer_ends.
Qed.

Lemma run_sources_ends roots plan srcs : forall n bytes,
  ends (run_sources E (ActionExecutor0 := program_executor E fuel roots) plan srcs n bytes).
Proof.
  induction srcs as [|source rest IH]; intros n bytes; cbn [run_sources]; [ends_step|].
  ends_step; [|destruct a; [ends_step|apply IH]].
  unfold run_source, emit_cancelled. cbv zeta. ends_step; [ends_step|].
  destruct a; [repeat ends_step|]. ends_step; [ends_step|]. ends_step; [|repeat ends_step].
  generalize n bytes. induction (actions source) as [|action acts IHa]; intros n0 b0;
    cbn [run_actions]; [ends_step|].
  ends_step; [|destruct a0; [ends_step|apply IHa]].
  unfold run_action, catch_action, emit_cancelled, emit_action_failure, after_success. cbv zeta.
  cbn [ae_execute program_executor].
  repeat first [apply action_ends | ends_step].
Qed.

Lemma factory_ends plan : ends (factory_execute E fuel plan).
Proof.
  unfold factory_execute, owned_handler. ends_step; [repeat ends_step|].
  cbn [run_execute run_started run_plan snd]. unfold executor_execute.
  ends_step; [apply run_sources_ends|]. repeat ends_step.
Qed.
End run_termination.

(** ** A concrete run *)

Definition sample_metadata : SnapshotMetadata := mkMetadata true true (mkUuid "aa-2") (mkReceived "aa-2").

Definition sample_transfer : TransferResult :=
  mkTransferResult (TransferExited 0 "") (TransferExited 0 "") 4096 4096 4096 10 409600 false.

(** The world is how often waiting for the transfer will still time out. *)
Definition sample_port (A : Set) (p : Port A) (w : nat) : res A * nat :=
  match p in Port A return res A * nat with
  | PinDirectory _ q => (Ok q, w)
  | RootExists _ _ | FsExists _ => (Ok false, w)
  | ReadMetadata _ | ReadMetadataBeneath _ _ => (Ok (Some sample_metadata), w)
  | MarkerRead _ _ => (Ok None, w)
  | ClockNow => (Ok 1709210096123456789, w)
  | ClockLocalDate => (Ok (mkDate 2024 2 29), w)
  | GenerateRunId _ => (Ok (@mkIdent KRun "run-2" I), w)
  | ProfilesGet _ => (Ok (mkLoadedProfile sample_profile "fp" "1"), w)
  | TryAcquireLease _ => (Ok BackupRunLeaseAcquired, w)
  | MountInspect => (Ok sample_mounts, w)
  | ScanDirectory _ => (Ok DirMissing, w)
  | RequestCancel _ => (Ok Accepted, w)
  | LastSuccessMatches _ _ _ => (Ok false, w)
  | MeasureSpace _ _ => (Ok (mkSpace 1000 400 300), w)
  | ResolveExecutable q => (Ok (mkTrusted q []), w)
  | RunControlled _ _ => (Ok (mkCommandResult 0 "" false false), w)
  | TransferStart _ => (Ok 0%nat, 1%nat)
  | TransferWaitFor _ => match w with O => (Ok (true, []), O) | S w => (Ok (false, []), w) end
  | TransferWait _ => (Ok sample_transfer, w)
  | OpenRoot _ | EnsureDirectory _ _ | RemoveContents _ _ | RemoveTree _ _
  | CreateReadonlySnapshot _ _ | DeleteSubvolume _ | CreateReadonlySnapshotBeneath _ _ _ _
  | DeleteSubvolumeBeneath _ _ | FsCreateDirectories _ | MarkerWrite _ _ | MarkerClear _
  | EmitEvent _ | WriteCheckpoint _ | OpenEvents _ | OpenCheckpoints _ | TransferRequestCancel _
  | TargetPrepare _ _ | RegisterActiveRun _ | WatchCancellation _ | ClearCancelRequest _
  | WriteSkipped _ _ _ _ _ | WriteSuccess _ _ _ _ _ _ | WriteMeasurement _ _ => (Ok tt, w)
  end.

Definition sample_nport (A : Set) (p : NPort A) (w : nat) : A * nat :=
  match p in NPort A return A * nat with
  | CancellationRequested => (false, w)
  | TargetClose => (None, w)
  | CloseWatch | CloseActiveRun => (None, w)
  | DropActiveRun | ReleaseLease | ReleaseEvents => (tt, w)
  end.

Definition sample_env : Env nat := mkEnv nat sample_port sample_nport.

Lemma sample_transfers_end : transfers_end sample_env (λ w _, w) 1.
Proof.
  split.
  - intros plan w h w' [= _ <-]. done.
  - intros h [|w] evs w' [= _ <-]. lia.
  - intros A p w h Hp. destruct p; try done; destruct w; simpl; lia.
  - intros A p w h. by destruct p.
Qed.

Definition sample_older : SnapshotInfo :=
  mkSnapshot Local home_source "home-2024-02-26T123456Z" 1708950896000000000 0
    "/.snapshots/home-2024-02-26T123456Z" true (mkUuid "aa-9") (mkReceived "").

Definition built_plan : res BackupRunPlan :=
  build_backup_run_plan sample_profile {[ home_source := [sample_older; sample_sent] ]}
    {[ home_source := [sample_copy] ]} ∅ ∅ "/var/lib/btrfs-backup/profiles/main"
    (@mkIdent KRun "run-2" I) 1709210096123456789.

Definition sample_run_plan : BackupRunPlan :=
  match built_plan with
  | Ok p => p
  | Throw _ => mkRunPlan (@mkIdent KProfile "main" I) (@mkIdent KRun "run-2" I) "" []
  end.

Definition sample_trace : list Entry :=
  (run_program (factory_execute sample_env 2 sample_run_plan) 0%nat).2.

Definition sample_deletion : Entry :=
  Did (DeleteSubvolumeBeneath "/" "/.snapshots/home-2024-02-26T123456Z") (Ok tt).

Lemma sample_trace_deletes :
  sample_trace = take 77 sample_trace ++ sample_deletion :: drop 78 sample_trace.
Proof. vm_compute. reflexivity. Qed.

Lemma sample_run_plan_built : built_plan = Ok sample_run_plan.
Proof.
  unfold sample_run_plan. assert (is_ok built_plan = true) as H by (vm_compute; reflexivity).
  by destruct built_plan.
Qed.

Lemma run_deletes_only_planned_witness :
  exists source a, source ∈ plan_sources sample_run_plan /\ a ∈ actions source /\
    "/.snapshots/home-2024-02-26T123456Z" ∈ action_deletes a.
Proof.
  apply (run_deletes_only_planned sample_env 2 sample_run_plan 0%nat (take 77 sample_trace)
    sample_deletion (drop 78 sample_trace)); [apply sample_trace_deletes|reflexivity].
Defined.

Lemma retention_only_after_commit_witness :
  exists source a, source ∈ plan_sources sample_run_plan /\ a ∈ actions source /\
    "/.snapshots/home-2024-02-26T123456Z" ∈ action_deletes a /\
    (is_retention a ->
     exists sid local received final lmd rmd,
       CommitReceivedAction sid local received final ∈ actions source /\
       Did (ReadMetadataBeneath "/" local) (Ok (Some lmd)) ∈ take 77 sample_trace /\
       Did (CreateReadonlySnapshotBeneath (target_mount_point sample_run_plan) received
              (target_mount_point sample_run_plan) final) (Ok tt) ∈ take 77 sample_trace /\
       Did (ReadMetadataBeneath (target_mount_point sample_run_plan) final) (Ok (Some rmd))
         ∈ take 77 sample_trace /\
       uuid_matches (md_uuid lmd) (md_received_uuid rmd) = true).
Proof.
  apply (retention_only_after_commit sample_env 2 sample_profile
    {[ home_source := [sample_older; sample_sent] ]} {[ home_source := [sample_copy] ]} ∅ ∅
    "/var/lib/btrfs-backup/profiles/main" (@mkIdent KRun "run-2" I) 1709210096123456789
    sample_run_plan 0%nat (take 77 sample_trace) sample_deletion (drop 78 sample_trace));
    [exact sample_run_plan_built|apply sample_trace_deletes|reflexivity].
Defined.
