(* ===== verification/RunContext.v ===== *)
(** * The resources of a run (src/backup/execution: RunExecutionContext,
    RunSessionFactory, SystemRunContext)

    A run owns the lease of its profile, its registration as the active run, the
    watch for cancellation, its checkpoint store, its event sink and the session of
    the mounted target; closing the context releases them in a fixed order, the
    lease last, and reports what failed. *)

From S2P Require Import Prelude Errors Identifiers RuntimeTime FsPath ConfigDomain.
From S2P Require Import SnapshotInventory RetentionPlan PendingRecovery RunActions Ports Effects.
From S2P Require Import Mounts RunGuarantees.

Open Scope Z_scope.
Open Scope eff_scope.

(** ** SystemRunContext *)

(** The characters of a text that satisfy a predicate. *)
Fixpoint str_filter (f : ascii -> bool) (s : string) : string :=
  match s with
  | EmptyString => ""
  | String c r => if f c then String c (str_filter f r) else str_filter f r
  end.

(** src/backup/execution/SystemRunContext.cpp:22-31 *)
Definition generate_run_id (time : RuntimeTimePoint) : res RunId :=
  let snapshot_timestamp := format_utc_snapshot_timestamp time in
  let compact := str_filter
    (λ c, negb (Ascii.eqb c "-") && negb (Ascii.eqb c ":"))%bool snapshot_timestamp in
  make_ident KRun (compact +:+ "-shadow").

(** ** RunExecutionContext *)

(** A context whose constructor has just returned. *)
Definition fresh_context (pid : ProfileId) (rid : RunId) : RunExecutionContext :=
  mkContext pid rid true true true true false None false false None false [].

(** src/backup/execution/RunExecutionContext.cpp:94-104 *)
Definition record_close_failure (cx : RunExecutionContext) (stage : CloseStage) (message : string)
    : RunExecutionContext :=
  mkContext (cx_profile_id cx) (cx_run_id cx) (cx_active_run cx) (cx_cancellation_watch cx)
    (cx_checkpoints cx) (cx_lease cx) (cx_target_session cx) (cx_verified_target_mount cx)
    (cx_events cx) (cx_target_close_attempted cx) (cx_target_close_error cx) (cx_closed cx)
    (cx_close_failures cx ++ [mkCloseFailure stage message]).

Definition record_diagnostic (cx : RunExecutionContext) (stage : CloseStage)
    (diagnostic : option CleanupDiagnostic) : RunExecutionContext :=
  match diagnostic with
  | Some d => record_close_failure cx stage (diag_message d)
  | None => cx
  end.

Definition set_watch (cx : RunExecutionContext) (b : bool) : RunExecutionContext :=
  mkContext (cx_profile_id cx) (cx_run_id cx) (cx_active_run cx) b
    (cx_checkpoints cx) (cx_lease cx) (cx_target_session cx) (cx_verified_target_mount cx)
    (cx_events cx) (cx_target_close_attempted cx) (cx_target_close_error cx) (cx_closed cx)
    (cx_close_failures cx).

Definition set_active_run (cx : RunExecutionContext) (b : bool) : RunExecutionContext :=
  mkContext (cx_profile_id cx) (cx_run_id cx) b (cx_cancellation_watch cx)
    (cx_checkpoints cx) (cx_lease cx) (cx_target_session cx) (cx_verified_target_mount cx)
    (cx_events cx) (cx_target_close_attempted cx) (cx_target_close_error cx) (cx_closed cx)
    (cx_close_failures cx).

Definition set_checkpoints (cx : RunExecutionContext) (b : bool) : RunExecutionContext :=
  mkContext (cx_profile_id cx) (cx_run_id cx) (cx_active_run cx) (cx_cancellation_watch cx)
    b (cx_lease cx) (cx_target_session cx) (cx_verified_target_mount cx)
    (cx_events cx) (cx_target_close_attempted cx) (cx_target_close_error cx) (cx_closed cx)
    (cx_close_failures cx).

Definition set_lease (cx : RunExecutionContext) (b : bool) : RunExecutionContext :=
  mkContext (cx_profile_id cx) (cx_run_id cx) (cx_active_run cx) (cx_cancellation_watch cx)
    (cx_checkpoints cx) b (cx_target_session cx) (cx_verified_target_mount cx)
    (cx_events cx) (cx_target_close_attempted cx) (cx_target_close_error cx) (cx_closed cx)
    (cx_close_failures cx).

Definition set_events (cx : RunExecutionContext) (b : bool) : RunExecutionContext :=
  mkContext (cx_profile_id cx) (cx_run_id cx) (cx_active_run cx) (cx_cancellation_watch cx)
    (cx_checkpoints cx) (cx_lease cx) (cx_target_session cx) (cx_verified_target_mount cx)
    b (cx_target_close_attempted cx) (cx_target_close_error cx) (cx_closed cx)
    (cx_close_failures cx).

Definition set_target (cx : RunExecutionContext) (session : bool) (mount : option MountEntry)
    (attempted : bool) (error : option TargetCleanupError) : RunExecutionContext :=
  mkContext (cx_profile_id cx) (cx_run_id cx) (cx_active_run cx) (cx_cancellation_watch cx)
    (cx_checkpoints cx) (cx_lease cx) session mount
    (cx_events cx) attempted error (cx_closed cx) (cx_close_failures cx).

Definition set_closed (cx : RunExecutionContext) : RunExecutionContext :=
  mkContext (cx_profile_id cx) (cx_run_id cx) (cx_active_run cx) (cx_cancellation_watch cx)
    (cx_checkpoints cx) (cx_lease cx) (cx_target_session cx) (cx_verified_target_mount cx)
    (cx_events cx) (cx_target_close_attempted cx) (cx_target_close_error cx) true
    (cx_close_failures cx).

(** src/backup/execution/RunExecutionContext.cpp:53-55 *)
Definition attach_event_sink (cx : RunExecutionContext) : RunExecutionContext := set_events cx true.

(** src/backup/execution/RunExecutionContext.cpp:57-60 *)
Definition attach_verified_target (cx : RunExecutionContext) (mount : MountEntry)
    : RunExecutionContext :=
  set_target cx true (Some mount) (cx_target_close_attempted cx) (cx_target_close_error cx).

Section context.
Context {W : Type} (E : Env W).

(** The constructor.  When a step throws, the members built so far are destroyed
    in reverse order: the lease before the registration of the active run.
    src/backup/execution/RunExecutionContext.cpp:15-30 *)
Definition create_context (pid : ProfileId) (rid : RunId) : M (W:=W) RunExecutionContext :=
  let request := mkCancellationRequest pid rid in
  try_catch (call E (OpenCheckpoints pid)) (λ e, ncall E ReleaseLease ;; throw e) ;;
  try_catch (call E (RegisterActiveRun request)) (λ e, ncall E ReleaseLease ;; throw e) ;;
  try_catch (call E (WatchCancellation request))
    (λ e, ncall E ReleaseLease ;; ncall E DropActiveRun ;; throw e) ;;
  ret (fresh_context pid rid).

(** src/backup/execution/RunExecutionContext.cpp:106-120 *)
Definition close_cancellation_watch (cx : RunExecutionContext) : M RunExecutionContext :=
  if negb (cx_cancellation_watch cx) then ret cx
  else
    let! diagnostic := ncall E CloseWatch in
    ret (set_watch (record_diagnostic cx CancellationWatchStage diagnostic) false).

(** src/backup/execution/RunExecutionContext.cpp:122-124 *)
Definition release_event_sink (cx : RunExecutionContext) : M RunExecutionContext :=
  if cx_events cx then ncall E ReleaseEvents ;; ret (set_events cx false) else ret cx.

(** src/backup/execution/RunExecutionContext.cpp:126-128 *)
Definition release_checkpoint_store (cx : RunExecutionContext) : RunExecutionContext :=
  set_checkpoints cx false.

(** src/backup/execution/RunExecutionContext.cpp:130-144 *)
Definition close_active_run (cx : RunExecutionContext) : M RunExecutionContext :=
  if negb (cx_active_run cx) then ret cx
  else
    let! diagnostic := ncall E CloseActiveRun in
    ret (set_active_run (record_diagnostic cx ActiveRunStage diagnostic) false).

(** src/backup/execution/RunExecutionContext.cpp:146-154 *)
Definition clear_cancellation_request (cx : RunExecutionContext) : M RunExecutionContext :=
  try_catch
    (call E (ClearCancelRequest (mkCancellationRequest (cx_profile_id cx) (cx_run_id cx))) ;;
     ret cx)
    (λ e,
      if is_std_exception e then ret (record_close_failure cx CancellationRequestStage (exn_what e))
      else ret (record_close_failure cx CancellationRequestStage "unknown cleanup failure")).

(** src/backup/execution/RunExecutionContext.cpp:66-77 *)
Definition close_target_session (cx : RunExecutionContext)
    : M (option TargetCleanupError * RunExecutionContext) :=
  if cx_target_close_attempted cx then ret (cx_target_close_error cx, cx)
  else if cx_target_session cx then
    let! error := ncall E TargetClose in
    ret (error, set_target cx false None true error)
  else ret (cx_target_close_error cx,
            set_target cx false None true (cx_target_close_error cx)).

(** src/backup/execution/RunExecutionContext.cpp:156-160 *)
Definition collect_target_session_failure (cx : RunExecutionContext) : M RunExecutionContext :=
  let! (error, cx) := close_target_session cx in
  match error with
  | Some e => ret (record_close_failure cx TargetSessionStage (tce_message e))
  | None => ret cx
  end.

(** src/backup/execution/RunExecutionContext.cpp:162-164 *)
Definition release_lease (cx : RunExecutionContext) : M RunExecutionContext :=
  if cx_lease cx then ncall E ReleaseLease ;; ret (set_lease cx false) else ret cx.

(** Reporting the failures on the standard error stream is left out.
    src/backup/execution/RunExecutionContext.cpp:36-51 *)
Definition context_close (cx : RunExecutionContext) : M RunExecutionContext :=
  if cx_closed cx then ret cx
  else
    let! cx := close_cancellation_watch (set_closed cx) in
    let! cx := release_event_sink cx in
    let! cx := close_active_run (release_checkpoint_store cx) in
    let! cx := clear_cancellation_request cx in
    let! cx := collect_target_session_failure cx in
    release_lease cx.
End context.

(** ** RunSessionFactory *)

(** [static_cast<int>] *)
Definition to_int32 (z : Z) : Z := (z + 2 ^ 31) mod 2 ^ 32 - 2 ^ 31.

(** [emplace]: the first name of an identifier stays. *)
Definition source_names (srcs : list ProfileSource) : gmap SourceId string :=
  fold_left (λ names s, match names !! source_id s with
                        | Some _ => names
                        | None => <[source_id s := source_name s]> names
                        end) srcs ∅.

(** src/backup/execution/RunSessionFactory.cpp:15-34 *)
Definition status_description (profile : Profile) (started_at : RuntimeTimePoint)
    : BackupRunStatusDescription :=
  mkStatusDescription (profile_name profile)
    (to_int32 (Z.of_nat (length (List.filter source_enabled (sources profile)))))
    started_at (source_names (sources profile)) (mapper_name (target_identity (target profile))).

Section sessions.
Context {W : Type} (E : Env W).

(** The lease acquired to find out that no run is active is released on return.
    src/backup/execution/RunSessionFactory.cpp:56-64 *)
Definition session_request_cancel (profile : Profile) (request : CancellationRequest)
    : M (W:=W) CancellationRequestOutcome :=
  let! lease := call E (TryAcquireLease profile) in
  match lease with
  | BackupRunLeaseAcquired => ncall E ReleaseLease ;; ret StaleRun
  | BackupRunLeaseBusy _ _ => call E (RequestCancel request)
  end.

(** src/backup/execution/RunSessionFactory.cpp:66-71 *)
Definition session_events (loaded : LoadedProfile) (started_at : RuntimeTimePoint) : M unit :=
  call E (OpenEvents (status_description (loaded_profile loaded) started_at)).

(** src/backup/execution/RunSessionFactory.cpp:73-84 *)
Definition fallback_events (pid : ProfileId) (started_at : RuntimeTimePoint) : M unit :=
  call E (OpenEvents (mkStatusDescription (id_value pid) 0 started_at ∅ "")).
End sessions.

(** ** Closing a context *)

(** Nothing is held any more. *)
Definition released (cx : RunExecutionContext) : Prop :=
  cx_closed cx = true /\ cx_cancellation_watch cx = false /\ cx_events cx = false /\
  cx_checkpoints cx = false /\ cx_active_run cx = false /\ cx_target_session cx = false /\
  cx_verified_target_mount cx = None /\ cx_lease cx = false.

(** The answers of the resources when they are closed. *)
Record CloseAnswers := mkAnswers {
  watch_answer : option CleanupDiagnostic;
  active_run_answer : option CleanupDiagnostic;
  request_answer : res unit;
  target_answer : option TargetCleanupError;
}.

(** What closing does to an open context, in order. *)
Definition close_entries (cx : RunExecutionContext) (a : CloseAnswers) : list Entry :=
  (if cx_cancellation_watch cx then [DidN CloseWatch (watch_answer a)] else [])
  ++ (if cx_events cx then [DidN ReleaseEvents tt] else [])
  ++ (if cx_active_run cx then [DidN CloseActiveRun (active_run_answer a)] else [])
  ++ [Did (ClearCancelRequest (mkCancellationRequest (cx_profile_id cx) (cx_run_id cx)))
        (request_answer a)]
  ++ (if (negb (cx_target_close_attempted cx) && cx_target_session cx)%bool
      then [DidN TargetClose (target_answer a)] else [])
  ++ (if cx_lease cx then [DidN ReleaseLease tt] else []).

Definition diagnostic_failure (held : bool) (stage : CloseStage) (d : option CleanupDiagnostic)
    : list CloseFailure :=
  match d with
  | Some d => if held then [mkCloseFailure stage (diag_message d)] else []
  | None => []
  end.

(** The error of the target session: of the first attempt to close it. *)
Definition target_error (cx : RunExecutionContext) (a : CloseAnswers) : option TargetCleanupError :=
  if (negb (cx_target_close_attempted cx) && cx_target_session cx)%bool then target_answer a
  else cx_target_close_error cx.

(** The failures recorded, in order. *)
Definition close_failures (cx : RunExecutionContext) (a : CloseAnswers) : list CloseFailure :=
  diagnostic_failure (cx_cancellation_watch cx) CancellationWatchStage (watch_answer a)
  ++ diagnostic_failure (cx_active_run cx) ActiveRunStage (active_run_answer a)
  ++ match request_answer a with
     | Throw e => [mkCloseFailure CancellationRequestStage
                     (if is_std_exception e then exn_what e else "unknown cleanup failure")]
     | Ok _ => []
     end
  ++ match target_error cx a with
     | Some e => [mkCloseFailure TargetSessionStage (tce_message e)]
     | None => []
     end.

(** The target session is closed with its context: an attempt leaves none. *)
Definition target_consistent (cx : RunExecutionContext) : Prop :=
  cx_target_close_attempted cx = true ->
  cx_target_session cx = false /\ cx_verified_target_mount cx = None.

Definition close_post (cx : RunExecutionContext) (o : outcome RunExecutionContext)
    (t : list Entry) : Prop :=
  exists a cx', o = Ret cx' /\ t = close_entries cx a /\ released cx' /\
    cx_close_failures cx' = cx_close_failures cx ++ close_failures cx a.

Definition add_failures (cx : RunExecutionContext) (l : list CloseFailure) : RunExecutionContext :=
  mkContext (cx_profile_id cx) (cx_run_id cx) (cx_active_run cx) (cx_cancellation_watch cx)
    (cx_checkpoints cx) (cx_lease cx) (cx_target_session cx) (cx_verified_target_mount cx)
    (cx_events cx) (cx_target_close_attempted cx) (cx_target_close_error cx) (cx_closed cx)
    (cx_close_failures cx ++ l).

Lemma add_failures_nil cx : add_failures cx [] = cx.
Proof. unfold add_failures. rewrite app_nil_r. by destruct cx. Qed.

Lemma record_diagnostic_failures cx stage d :
  record_diagnostic cx stage d = add_failures cx (diagnostic_failure true stage d).
Proof. destruct d; [done|]. simpl. by rewrite add_failures_nil. Qed.

(** A member that is not set is not changed by releasing it. *)
Ltac unset_member :=
  match goal with cx : RunExecutionContext |- _ => destruct cx; simpl in *; subst end.

Section close_facts.
Context {W : Type} (E : Env W).

Lemma watch_wp cx c :
  wp (close_cancellation_watch E cx) (λ o t c', c' = c /\ exists d,
    t = (if cx_cancellation_watch cx then [DidN CloseWatch d] else []) /\
    o = Ret (set_watch (add_failures cx (diagnostic_failure (cx_cancellation_watch cx)
                          CancellationWatchStage d)) false)) c.
Proof.
  unfold close_cancellation_watch. destruct (cx_cancellation_watch cx) eqn:Ew; cbn [negb].
  - wp_step. wp_step. wp_step. split; [done|]. exists a. by rewrite record_diagnostic_failures.
  - wp_step. split; [done|]. exists None. simpl. rewrite add_failures_nil. by unset_member.
Qed.

Lemma active_run_wp cx c :
  wp (close_active_run E cx) (λ o t c', c' = c /\ exists d,
    t = (if cx_active_run cx then [DidN CloseActiveRun d] else []) /\
    o = Ret (set_active_run (add_failures cx (diagnostic_failure (cx_active_run cx)
                               ActiveRunStage d)) false)) c.
Proof.
  unfold close_active_run. destruct (cx_active_run cx) eqn:Ew; cbn [negb].
  - wp_step. wp_step. wp_step. split; [done|]. exists a. by rewrite record_diagnostic_failures.
  - wp_step. split; [done|]. exists None. simpl. rewrite add_failures_nil. by unset_member.
Qed.

Lemma events_wp cx c :
  wp (release_event_sink E cx) (λ o t c', c' = c /\
    t = (if cx_events cx then [DidN ReleaseEvents tt] else []) /\ o = Ret (set_events cx false)) c.
Proof.
  unfold release_event_sink. destruct (cx_events cx) eqn:Ee.
  - wp_step. wp_step. destruct a. by wp_step.
  - wp_step. split; [done|]. split; [done|]. by unset_member.
Qed.

Lemma lease_wp cx c :
  wp (release_lease E cx) (λ o t c', c' = c /\
    t = (if cx_lease cx then [DidN ReleaseLease tt] else []) /\ o = Ret (set_lease cx false)) c.
Proof.
  unfold release_lease. destruct (cx_lease cx) eqn:Ee.
  - wp_step. wp_step. destruct a. by wp_step.
  - wp_step. split; [done|]. split; [done|]. by unset_member.
Qed.

Definition request_failures (r : res unit) : list CloseFailure :=
  match r with
  | Throw e => [mkCloseFailure CancellationRequestStage
                  (if is_std_exception e then exn_what e else "unknown cleanup failure")]
  | Ok _ => []
  end.

Lemma request_wp cx c :
  wp (clear_cancellation_request E cx) (λ o t c', c' = c /\ exists r,
    t = [Did (ClearCancelRequest (mkCancellationRequest (cx_profile_id cx) (cx_run_id cx))) r] /\
    o = Ret (add_failures cx (request_failures r))) c.
Proof.
  unfold clear_cancellation_request. do 3 wp_step. destruct r as [[]|e]; cbn [of_res].
  - wp_step. split; [done|]. exists (Ok tt). split; [done|]. simpl. by rewrite add_failures_nil.
  - destruct (is_std_exception e) eqn:Es; wp_step; (split; [done|]); exists (Throw e);
      (split; [done|]); simpl; by rewrite Es.
Qed.

Lemma target_wp cx c :
  target_consistent cx ->
  wp (close_target_session E cx) (λ o t c', c' = c /\ exists e,
    t = (if (negb (cx_target_close_attempted cx) && cx_target_session cx)%bool
         then [DidN TargetClose e] else []) /\
    let error := if (negb (cx_target_close_attempted cx) && cx_target_session cx)%bool then e
                 else cx_target_close_error cx in
    o = Ret (error, set_target cx false None true error)) c.
Proof.
  intros Hc. unfold close_target_session, target_consistent in *.
  destruct (cx_target_close_attempted cx) eqn:Ea; cbn [negb andb].
  - wp_step. split; [done|]. exists None. split; [done|]. destruct (Hc eq_refl) as [H1 H2].
    do 2 f_equal. by unset_member.
  - destruct (cx_target_session cx) eqn:Es.
    + wp_step. wp_step. wp_step. split; [done|]. by exists a.
    + wp_step. split; [done|]. by exists None.
Qed.

Lemma close_wp cx c :
  cx_closed cx = false -> target_consistent cx ->
  wp (context_close E cx) (λ o t c', c' = c /\ close_post cx o t) c.
Proof.
  intros Hc Ht. unfold context_close. rewrite Hc.
  wp_step. eapply wp_mono; [apply watch_wp|]. cbn beta. intros ? ? ? (-> & d1 & -> & ->).
  wp_step. eapply wp_mono; [apply events_wp|]. cbn beta. intros ? ? ? (-> & -> & ->).
  wp_step. eapply wp_mono; [apply active_run_wp|]. cbn beta. intros ? ? ? (-> & d2 & -> & ->).
  wp_step. eapply wp_mono; [apply request_wp|]. cbn beta. intros ? ? ? (-> & r & -> & ->).
  wp_step. unfold collect_target_session_failure. wp_step.
  eapply wp_mono; [apply target_wp|]; [exact Ht|]. cbn beta. intros ? ? ? (-> & e & -> & ->).
  cbv zeta. cbn [cx_target_close_attempted cx_target_session cx_target_close_error set_active_run
    set_watch set_events add_failures set_closed release_checkpoint_store set_checkpoints].
  match goal with |- context [match ?x with Some _ => _ | None => _ end] => destruct x as [err|] eqn:Ee end.
  all: wp_step; eapply wp_mono; [apply lease_wp|]; cbn beta; intros ? ? ? (-> & -> & ->);
    (split; [done|]); eexists (mkAnswers d1 d2 r e), _; (split; [done|]).
  all: unfold close_entries, close_failures, target_error; cbn -[diagnostic_failure request_failures];
    rewrite Ee, <- ?app_assoc; (split; [done|]); (split; [done|]); by rewrite ?app_nil_r.
Qed.

(** C11.  Closing a run's context never throws: it closes the watch, releases the
    event sink, closes the registration, clears the cancellation request, closes
    the target unless that was attempted before, and releases the lease last, each
    exactly if it is held and whatever fails on the way; the failures of all stages
    are recorded in that order, nothing is held afterwards, and closing again does
    nothing. *)
Theorem context_close_spec cx w :
  cx_closed cx = false -> target_consistent cx ->
  let '(o, t) := run_program (context_close E cx) w in
  close_post cx o t /\
  forall cx' w', o = Ret cx' -> run_program (context_close E cx') w' = (Ret cx', []).
Proof.
  intros Hc Ht. destruct (wp_run _ _ w (close_wp cx None Hc Ht)) as (c & _ & H).
  destruct (run_program _ _) as [o t]. split; [done|]. intros cx' w' ->.
  destruct H as (a & x & [= <-] & _ & (Hx & _) & _). unfold context_close. by rewrite Hx.
Qed.
End close_facts.

Lemma context_close_spec_witness :
  let cx := attach_verified_target (attach_event_sink (fresh_context (@mkIdent KProfile "main" I)
              (@mkIdent KRun "run-2" I))) sample_target_mount in
  let '(o, t) := run_program (context_close sample_env cx) 0%nat in
  close_post cx o t /\
  forall cx' w', o = Ret cx' -> run_program (context_close sample_env cx') w' = (Ret cx', []).
Proof.
  apply (context_close_spec sample_env); [reflexivity|]. by intros [=].
Defined.
