(* ===== verification/BackupService.v ===== *)
(** * The backup service (src/backup/BackupService)

    The operations a caller has: plan a backup, start one, cancel one.  Starting a
    run acquires the lease of the profile, builds the run's context, prepares the
    target, discovers and plans, and then validates, skips or executes; every way
    out reports one result and releases what the run holds.

    The context object of the run is the third part of the state of the monad; the
    event sink of a run that has no context yet belongs to the function itself. *)

From S2P Require Import Prelude Errors Identifiers RuntimeTime FsPath ConfigDomain.
From S2P Require Import SnapshotInventory IncrementalParent RetentionPlan PendingRecovery RunActions BackupRunPlan.
From S2P Require Import Ports Effects Mounts Planning Storage Transfer.
From S2P Require Import ActionHandlers RunExecutor RunGuarantees RunContext.

Open Scope Z_scope.
Open Scope eff_scope.

(** src/backup/execution/RunSessionFactory.hpp:21-24 *)
Record RunIdentity := mkRunIdentity { ri_run_id : RunId; ri_started_at : RuntimeTimePoint }.

(** src/backup/BackupService.cpp:18-23 *)
Definition failure_code (e : exn) : ErrorCode := default BackupFailed (coded_error e).

Section service.
Context {W : Type} (E : Env W) (fuel : nat) (weakly_canonical : path -> option path)
  (application_paths : ApplicationPaths) (has_target_storage : bool).

(** src/backup/BackupService.cpp:25-48 *)
Definition emit_run_failed (pid : ProfileId) (rid : RunId) (code : ErrorCode) (message : string)
    (actions_completed : Z) (op : OperationKind) : M (W:=W) BackupExecutionResult :=
  call E (EmitEvent (RunFailed pid rid code message op)) ;;
  ret (BackupExecutionFailed pid rid code message actions_completed).

(** [context->close()], for the context of the run. *)
Definition close_run : M unit :=
  let! c := get_context in
  match c with
  | Some cx => let! cx := context_close E cx in put_context (Some cx)
  | None => ret tt
  end.

(** src/backup/BackupService.cpp:50-71 *)
Definition close_target_or_fail (pid : ProfileId) (rid : RunId) (actions_completed : Z)
    (op : OperationKind) : M (option BackupExecutionResult) :=
  let! c := get_context in
  match c with
  | None => ret None
  | Some cx =>
      let! (cleanup_error, cx) := close_target_session E cx in
      put_context (Some cx) ;;
      match cleanup_error with
      | None => ret None
      | Some error =>
          let! failed := emit_run_failed pid rid BackupFailed (tce_message error) actions_completed op in
          ret (Some failed)
      end
  end.

(** src/backup/BackupService.cpp:73-77 *)
Definition close_standalone_target_or_throw : M unit :=
  let! cleanup_error := ncall E TargetClose in
  match cleanup_error with
  | Some error => throw (CodedOperationError BackupFailed (tce_message error))
  | None => ret tt
  end.

(** src/backup/BackupService.cpp:79-103 *)
Definition rethrow_planning_failure_after_target_cleanup {A} (original : exn) : M A :=
  let! cleanup_error := ncall E TargetClose in
  match cleanup_error with
  | Some error =>
      if is_std_exception original
      then throw (CodedOperationError (failure_code original)
             (exn_what original +:+ "; target cleanup also failed: " +:+ tce_message error))
      else throw (CodedOperationError BackupFailed
             ("unknown planning failure; target cleanup also failed: " +:+ tce_message error))
  | None => throw original
  end.

(** The lease is released when the function is left.  The cancellation token the code
    passes on is its own and never cancelled; the model lets every look at it answer
    anything.
    src/backup/BackupService.cpp:131-156 *)
Definition service_plan (request : BackupPlanRequest) : M BackupRunPlan :=
  let! time := call E ClockNow in
  let! run_id := call E (GenerateRunId time) in
  let! loaded := call E (ProfilesGet (preq_profile_id request)) in
  let profile := loaded_profile loaded in
  let! lease_result := call E (TryAcquireLease profile) in
  match lease_result with
  | BackupRunLeaseBusy code msg => throw (CodedOperationError code msg)
  | BackupRunLeaseAcquired =>
      finally
        (let! _ := preflight_run E weakly_canonical profile
           (if mount_target request then MountIfNeeded else RequireMounted) in
         let! plan :=
           try_catch
             (let! snapshot := discover E profile application_paths in
              plan_builder_build E profile snapshot run_id time)
             rethrow_planning_failure_after_target_cleanup in
         close_standalone_target_or_throw ;;
         ret plan)
        (ncall E ReleaseLease)
  end.

(** src/backup/BackupService.cpp:186-212 *)
Definition acquire_run_lease (profile : Profile) (identity : RunIdentity) (op : OperationKind)
    : M (option BackupExecutionResult) :=
  let! lease_result := call E (TryAcquireLease profile) in
  match lease_result with
  | BackupRunLeaseBusy code msg =>
      emit_run_failed (profile_id profile) (ri_run_id identity) code msg 0 op ;;
      ret (Some (BackupExecutionBusy (profile_id profile) (ri_run_id identity) code msg))
  | BackupRunLeaseAcquired => ret None
  end.

(** The warning, if the target storage was to be measured and could not.
    src/backup/BackupService.cpp:390-403 *)
Definition record_target_storage (profile : Profile) : M (list BackupCompletionWarning) :=
  let! c := get_context in
  match (if has_target_storage then cx ← c; cx_verified_target_mount cx else None) with
  | None => ret []
  | Some mount =>
      let! warning := recorder_record E profile mount in
      ret (match warning with Some w => [w] | None => [] end)
  end.

(** [if (cancellation_requested()) throw] *)
Definition check_cleanup_cancelled : M unit :=
  throw_if_cancelled E "backup cancelled during target cleanup".

(** src/backup/BackupService.cpp:214-243 *)
Definition finish_validation_if_requested (request : BackupRequest) (profile : Profile)
    (identity : RunIdentity) (op : OperationKind) (plan : BackupRunPlan)
    : M (option BackupExecutionResult) :=
  if negb (validate_only request) then ret None
  else
    record_target_storage profile ;;
    let! failed := close_target_or_fail (profile_id profile) (ri_run_id identity) 0 op in
    match failed with
    | Some result => close_run ;; ret (Some result)
    | None =>
        check_cleanup_cancelled ;;
        call E (EmitEvent (TargetValidationCompleted (profile_id profile) (ri_run_id identity))) ;;
        ret (Some (BackupExecutionValidated plan))
    end.

(** The number of sources of a plan. *)
Definition source_count (plan : BackupRunPlan) : Z := Z.of_nat (length (plan_sources plan)).

(** Whether the day's backup was made already; the ledger is asked only when the
    answer matters. src/backup/BackupService.cpp:255-259 *)
Definition daily_limit_reached (request : BackupRequest) (loaded : LoadedProfile) (today : LocalDate)
    : M bool :=
  if (force request || negb (daily_limit (settings (loaded_profile loaded))))%bool then ret false
  else call E (LastSuccessMatches (loaded_profile loaded) today (fingerprint loaded)).

(** src/backup/BackupService.cpp:245-277 *)
Definition skip_if_daily_limit_reached (request : BackupRequest) (loaded : LoadedProfile)
    (identity : RunIdentity) (today : LocalDate) (op : OperationKind) (plan : BackupRunPlan)
    : M (option BackupExecutionResult) :=
  let profile := loaded_profile loaded in
  let! reached := daily_limit_reached request loaded today in
  if negb reached then ret None
  else
    record_target_storage profile ;;
    let! failed := close_target_or_fail (profile_id profile) (ri_run_id identity) 0 op in
    match failed with
    | Some result => close_run ;; ret (Some result)
    | None =>
        check_cleanup_cancelled ;;
        let! now := call E ClockNow in
        call E (WriteSkipped profile (ri_run_id identity) (ri_started_at identity) now
                  (source_count plan)) ;;
        ret (Some (BackupExecutionSkipped plan))
    end.

(** The warning of a completion step that failed. *)
Definition completion_warning (component : BackupCompletionWarningComponent) (e : exn)
    : list BackupCompletionWarning :=
  if is_std_exception e then [mkWarning component (failure_code e) (exn_what e)]
  else [mkWarning component BackupFailed "unknown completion metadata error"].

(** src/backup/BackupService.cpp:344-369 *)
Definition record_success_ledger_warning (loaded : LoadedProfile) (identity : RunIdentity)
    (today : LocalDate) (count : Z) : M (list BackupCompletionWarning) :=
  try_catch
    (let! now := call E ClockNow in
     call E (WriteSuccess (loaded_profile loaded) (ri_run_id identity) today now
               (fingerprint loaded) count) ;;
     ret [])
    (λ e, ret (completion_warning SuccessLedger e)).

(** src/backup/BackupService.cpp:371-388 *)
Definition record_terminal_status_warning (profile : Profile) (identity : RunIdentity)
    : M (list BackupCompletionWarning) :=
  try_catch
    (call E (EmitEvent (RunCompleted (profile_id profile) (ri_run_id identity))) ;; ret [])
    (λ e, ret (completion_warning TerminalStatus e)).

(** src/backup/BackupService.cpp:279-342 *)
Definition execute_plan (loaded : LoadedProfile) (identity : RunIdentity) (today : LocalDate)
    (op : OperationKind) (plan : BackupRunPlan) : M BackupExecutionResult :=
  let profile := loaded_profile loaded in
  let! execution := factory_execute E fuel plan in
  match execution with
  | BackupRunExecutionCompleted actions_completed =>
      let! warnings := record_target_storage profile in
      let! failed := close_target_or_fail (profile_id profile) (ri_run_id identity)
        actions_completed op in
      match failed with
      | Some result => close_run ;; ret result
      | None =>
          check_cleanup_cancelled ;;
          let! ledger := record_success_ledger_warning loaded identity today (source_count plan) in
          let! status := record_terminal_status_warning profile identity in
          close_run ;;
          ret (BackupExecutionCompleted plan actions_completed (warnings ++ ledger ++ status))
      end
  | BackupRunExecutionFailed code msg actions_completed =>
      record_target_storage profile ;;
      close_run ;;
      ret (BackupExecutionFailed (profile_id profile) (ri_run_id identity) code msg actions_completed)
  | BackupRunExecutionCancelled actions_completed =>
      record_target_storage profile ;;
      close_run ;;
      ret (BackupExecutionCancelled plan actions_completed)
  end.

(** [context.attach_verified_target(preflight)], on the context of the run. *)
Definition attach_target (mount : MountEntry) : M (W:=W) unit :=
  let! c := get_context in
  put_context ((λ cx, attach_verified_target cx mount) <$> c).

(** src/backup/BackupService.cpp:527-558 *)
Definition prepare_target_and_plan (profile : Profile) (identity : RunIdentity) : M BackupRunPlan :=
  let! mount := preflight_run E weakly_canonical profile MountIfNeeded in
  attach_target mount ;;
  throw_if_cancelled E "backup cancelled during preflight" ;;
  let! snapshot := discover E profile application_paths in
  let! plan := plan_builder_build E profile snapshot (ri_run_id identity) (ri_started_at identity) in
  throw_if_cancelled E "backup cancelled during planning" ;;
  ret plan.

(** What the [catch] clauses do with the context, if there is one. *)
Definition abandon_run (profile : Profile) : M unit :=
  let! c := get_context in
  match c with
  | Some _ => record_target_storage profile ;; close_run
  | None => ret tt
  end.

(** The [catch] clauses. src/backup/BackupService.cpp:469-524 *)
Definition catch_run (profile : Profile) (identity : RunIdentity) (op : OperationKind) (e : exn)
    : M BackupExecutionResult :=
  if is_operation_cancelled e then
    call E (EmitEvent (RunCancelled (profile_id profile) (ri_run_id identity) None 0 None
              (Some RunnerCancelled) (exn_what e) op)) ;;
    abandon_run profile ;;
    ret (BackupExecutionCancelled
           (mkRunPlan (profile_id profile) (ri_run_id identity)
              (abs_value (mount_point (target profile))) []) 0)
  else if is_btrfs_backup_error e then
    let! result := emit_run_failed (profile_id profile) (ri_run_id identity) (failure_code e)
      (exn_what e) 0 op in
    abandon_run profile ;;
    ret result
  else if is_std_exception e then
    emit_run_failed (profile_id profile) (ri_run_id identity) BackupFailed (exn_what e) 0 op ;;
    abandon_run profile ;;
    throw e
  else throw e.

(** The body of the [try]. src/backup/BackupService.cpp:416-468 *)
Definition run_loaded_profile (request : BackupRequest) (identity : RunIdentity)
    (op : OperationKind) (loaded : LoadedProfile) : M BackupExecutionResult :=
  let profile := loaded_profile loaded in
  let! busy := acquire_run_lease profile identity op in
  match busy with
  | Some result => ret result
  | None =>
      let! cx := create_context E (profile_id profile) (ri_run_id identity) in
      put_context (Some (attach_event_sink cx)) ;;
      call E (EmitEvent (RunStarted (profile_id profile) (ri_run_id identity) op)) ;;
      let! plan := prepare_target_and_plan profile identity in
      let! validation := finish_validation_if_requested request profile identity op plan in
      match validation with
      | Some result => ret result
      | None =>
          let! today := call E ClockLocalDate in
          let! skipped := skip_if_daily_limit_reached request loaded identity today op plan in
          match skipped with
          | Some result => ret result
          | None => execute_plan loaded identity today op plan
          end
      end
  end.

(** Leaving the function destroys the context, which closes it; an event sink that
    no context took over is destroyed with the parameter. *)
Definition leave_run : M unit :=
  let! c := get_context in
  match c with
  | Some _ => close_run ;; put_context None
  | None => ncall E ReleaseEvents
  end.

(** src/backup/BackupService.cpp:405-525 *)
Definition start_loaded_profile (request : BackupRequest) (identity : RunIdentity)
    (op : OperationKind) (loaded : LoadedProfile) : M BackupExecutionResult :=
  finally
    (try_catch (run_loaded_profile request identity op loaded)
       (catch_run (loaded_profile loaded) identity op))
    leave_run.

Definition operation_kind (request : BackupRequest) : OperationKind :=
  if validate_only request then TargetValidation else Backup.

(** src/backup/BackupService.cpp:158-184 *)
Definition start (request : BackupRequest) : M BackupExecutionResult :=
  let! started_at := call E ClockNow in
  let! run_id := call E (GenerateRunId started_at) in
  let identity := mkRunIdentity run_id started_at in
  let op := operation_kind request in
  let! loaded :=
    try_catch
      (let! loaded := call E (ProfilesGet (req_profile_id request)) in ret (inl loaded))
      (λ e,
        if is_btrfs_backup_error e then
          fallback_events E (req_profile_id request) started_at ;;
          let! failed := finally
            (emit_run_failed (req_profile_id request) run_id (failure_code e) (exn_what e) 0 op)
            (ncall E ReleaseEvents) in
          ret (inr failed)
        else throw e) in
  match loaded with
  | inr failed => ret failed
  | inl loaded =>
      session_events E loaded started_at ;;
      start_loaded_profile request identity op loaded
  end.

(** src/backup/BackupService.cpp:560-573 *)
Definition cancel (request : CancellationRequest) : M CancelBackupResult :=
  let! loaded := call E (ProfilesGet (creq_profile_id request)) in
  let pid := profile_id (loaded_profile loaded) in
  let validated_request := mkCancellationRequest pid (creq_run_id request) in
  let! result := session_request_cancel E (loaded_profile loaded) validated_request in
  ret match result with
      | Accepted => CancellationAccepted pid (creq_run_id request)
      | StaleRun => CancellationStaleRun pid (creq_run_id request)
      | RunMismatch => CancellationRunMismatch pid (creq_run_id request)
      end.
End service.
