(* ===== verification/ServiceGuarantees.v ===== *)
(** * What starting a run guarantees

    Every way out of [BackupService::start] is accounted for: which terminal event
    was delivered, when the lease and the event sink were released, when a success
    was recorded, and what is changed without the lease: nothing but the report of a run
    that never began. *)

From S2P Require Import Prelude Errors Identifiers RuntimeTime FsPath ConfigDomain.
From S2P Require Import SnapshotInventory IncrementalParent RetentionPlan PendingRecovery RunActions BackupRunPlan.
From S2P Require Import Ports Effects Mounts Planning Storage Transfer.
From S2P Require Import ActionHandlers RunExecutor RunGuarantees RunContext BackupService.

Open Scope Z_scope.
Open Scope eff_scope.

(** ** The marks of a trace: what matters to the caller of a run *)

Inductive Mark :=
| MAcquired
| MTerminal (event : BackupRunEvent)
| MSuccess
| MSkipped
| MReleaseEvents
| MReleaseLease.

Definition entry_mark (e : Entry) : option Mark :=
  match e with
  | Did p r =>
      match p in Port A return res A -> option Mark with
      | TryAcquireLease _ => λ r,
          match r with Ok BackupRunLeaseAcquired => Some MAcquired | _ => None end
      | EmitEvent event => λ r,
          match r with
          | Ok _ => if is_terminal event then Some (MTerminal event) else None
          | Throw _ => None
          end
      | WriteSuccess _ _ _ _ _ _ => λ _, Some MSuccess
      | WriteSkipped _ _ _ _ _ => λ r, match r with Ok _ => Some MSkipped | Throw _ => None end
      | _ => λ _, None
      end r
  | DidN p _ =>
      match p with
      | ReleaseEvents => Some MReleaseEvents
      | ReleaseLease => Some MReleaseLease
      | _ => None
      end
  end.

Definition marks (t : list Entry) : list Mark := omap entry_mark t.

Lemma marks_app t1 t2 : marks (t1 ++ t2) = marks t1 ++ marks t2.
Proof. apply omap_app. Qed.

Lemma marks_cons e t :
  marks (e :: t) = match entry_mark e with Some m => [m] | None => [] end ++ marks t.
Proof. unfold marks. simpl. by destruct (entry_mark e). Qed.

#[export] Hint Rewrite marks_app : backup_rw.

Definition unmarked (e : Entry) : Prop := entry_mark e = None.

Lemma unmarked_marks t : Forall unmarked t -> marks t = [].
Proof. induction 1 as [|e t He _ IH]; [done|]. unfold marks in *. simpl. by rewrite He. Qed.

(** Calls that change the repository, the target, the markers, the registration of the
    active run, cancellation requests, or the status, history and records of a profile. *)
Definition mutates (e : Entry) : Prop :=
  match e with
  | Did p _ =>
      match p with
      | EnsureDirectory _ _ | RemoveContents _ _ | RemoveTree _ _
      | CreateReadonlySnapshot _ _ | DeleteSubvolume _
      | CreateReadonlySnapshotBeneath _ _ _ _ | DeleteSubvolumeBeneath _ _
      | FsCreateDirectories _ | MarkerWrite _ _ | MarkerClear _ | RunControlled _ _
      | WriteCheckpoint _ | TransferStart _ | TargetPrepare _ _
      | WriteSkipped _ _ _ _ _ | WriteSuccess _ _ _ _ _ _ | WriteMeasurement _ _
      | EmitEvent _ | RegisterActiveRun _ | ClearCancelRequest _ => True
      | _ => False
      end
  | DidN p _ => match p with TargetClose | CloseActiveRun | DropActiveRun => True | _ => False end
  end.

Definition harmless (e : Entry) : Prop := ~ mutates e.

(** The report that a run is over. *)
Definition reports_end (e : Entry) : Prop :=
  match e with
  | Did p _ => match p with EmitEvent event => is_terminal event = true | _ => False end
  | DidN _ _ => False
  end.

(** What may happen without the lease: nothing is changed, but for the report. *)
Definition unleased (e : Entry) : Prop := harmless e \/ reports_end e.

Lemma harmless_unleased t : Forall harmless t -> Forall unleased t.
Proof. intros H. eapply Forall_impl; [done|]. by left. Qed.

(** The run never had the lease; or it had to give it back before it began, with no mark of
    its own in between.  The registration of the run, if there was one, is dropped after the
    lease, as the members of its context are destroyed. *)
Definition never_began (ms : list Mark) (t : list Entry) : Prop :=
  (Forall unleased t /\ marks t = ms) \/
  (exists t0 t1 dropped t2, t = t0 ++ t1 ++ [DidN ReleaseLease tt] ++ dropped ++ t2 /\
     Forall harmless t0 /\ marks t0 = [MAcquired] /\ marks t1 = [] /\
     (dropped = [] \/ dropped = [DidN DropActiveRun tt]) /\ Forall unleased t2 /\ marks t2 = ms).

Lemma never_began_app ms t t' :
  never_began [] t -> Forall unleased t' -> marks t' = ms -> never_began ms (t ++ t').
Proof.
  intros [[Ht Hm]|(t0 & t1 & d & t2 & -> & H0 & Hm0 & Hm1 & Hd & H2 & Hm2)] Ht' <-; [left|right].
  - split; [by apply Forall_app|]. by rewrite marks_app, Hm.
  - exists t0, t1, d, (t2 ++ t'). rewrite <- !app_assoc. split_and!; try done; [by apply Forall_app|].
    by rewrite marks_app, Hm2.
Qed.

(** ** The context of a run, open and closed *)

Definition ctx_open (c : option RunExecutionContext) : Prop :=
  exists cx, c = Some cx /\ cx_closed cx = false /\ cx_events cx = true /\ cx_lease cx = true /\
    target_consistent cx.

Definition ctx_closed (c : option RunExecutionContext) : Prop :=
  exists cx, c = Some cx /\ cx_closed cx = true.

Section service_facts.
Context {W : Type} (E : Env W) (fuel : nat) (canonical : path -> option path)
  (ps : ApplicationPaths) (has_storage : bool).

(** [m], started in an open context, ends with the context open or has closed it
    as its last step; [Q] is told the outcome, the marks and which. *)
Definition stage {A} (m : M (W:=W) A) (Q : outcome A -> list Mark -> bool -> Prop) : Prop :=
  forall c, ctx_open c -> wp m (λ o t c',
    (ctx_open c' /\ Q o (marks t) false) \/
    (ctx_closed c' /\ exists t1 ms, t = t1 ++ [DidN ReleaseLease tt] /\
       marks t1 = ms ++ [MReleaseEvents] /\ Q o ms true)) c.

Lemma stage_mono {A} (m : M (W:=W) A) (Q Q' : outcome A -> list Mark -> bool -> Prop) :
  stage m Q -> (forall o ms cl, Q o ms cl -> Q' o ms cl) -> stage m Q'.
Proof.
  intros H HQ c Hc. eapply wp_mono; [by apply H|]. cbn beta.
  intros o t c' [[? ?]|(? & t1 & ms & ? & ? & ?)]; [left; auto|].
  right. split; [done|]. exists t1, ms. auto.
Qed.

Lemma stage_unmarked {A} (m : M (W:=W) A) (R : A -> Prop) :
  (forall c, wp m (λ o t c', c' = c /\ Forall unmarked t /\
     match o with Ret a => R a | _ => True end) c) ->
  stage m (λ o ms cl, ms = [] /\ cl = false /\ match o with Ret a => R a | _ => True end).
Proof.
  intros H c Hc. eapply wp_mono; [apply H|]. cbn beta. intros o t c' (-> & Ht & Ho).
  left. split; [done|]. by rewrite unmarked_marks.
Qed.

Lemma stage_only {A} (m : M (W:=W) A) :
  only unmarked m -> stage m (λ o ms cl, ms = [] /\ cl = false).
Proof.
  intros H c Hc. eapply wp_mono; [apply H|]. cbn beta. intros o t c' (-> & Ht).
  left. split; [done|]. by rewrite unmarked_marks.
Qed.

Lemma stage_ret {A} (a : A) (Q : outcome A -> list Mark -> bool -> Prop) :
  Q (Ret a) [] false -> stage (ret a) Q.
Proof. intros H c Hc. wp_step. by left. Qed.

(** Sequencing: after a closed context only a result is returned. *)
Lemma stage_bind {A B} (m : M (W:=W) A) (f : A -> M B)
    (Q1 : outcome A -> list Mark -> bool -> Prop) (Q2 : outcome B -> list Mark -> bool -> Prop) :
  stage m Q1 ->
  (forall a ms, Q1 (Ret a) ms false -> stage (f a) (λ o ms' cl, Q2 o (ms ++ ms') cl)) ->
  (forall a ms, Q1 (Ret a) ms true -> exists b, f a = ret b /\ Q2 (Ret b) ms true) ->
  (forall e ms cl, Q1 (Exn e) ms cl -> Q2 (Exn e) ms cl) ->
  (forall ms cl, Q1 Diverged ms cl -> Q2 Diverged ms cl) ->
  stage (bind m f) Q2.
Proof.
  intros Hm Hf Hcl He Hd c Hc. wp_step. eapply wp_mono; [by apply Hm|]. cbn beta.
  intros [a|e|] t c' [[Ho HQ]|(Ho & t1 & ms & -> & Hms & HQ)].
  - eapply wp_mono; [by apply (Hf a (marks t))|]. cbn beta.
    intros o t' c'' [[Ho' HQ']|(Ho' & t1 & ms & -> & Hms & HQ')]; [left|right]; (split; [done|]).
    + by rewrite marks_app.
    + exists (t ++ t1), (marks t ++ ms). rewrite marks_app, Hms, !app_assoc. done.
  - destruct (Hcl a ms HQ) as (b & -> & HQ2). wp_step. right. rewrite app_nil_r.
    split; [done|]. by exists t1, ms.
  - left. auto.
  - right. split; [done|]. exists t1, ms. auto.
  - left. auto.
  - right. split; [done|]. exists t1, ms. auto.
Qed.

(** ** Closing *)

Lemma close_run_stage : stage (close_run E) (λ o ms cl, o = Ret tt /\ ms = [] /\ cl = true).
Proof.
  intros c (cx & -> & Hcl & Hev & Hle & Ht). unfold close_run. do 2 wp_step.
  wp_step. eapply wp_mono; [by apply close_wp|]. cbn beta.
  intros o t c' (-> & a & cx' & -> & -> & (Hc' & _) & _). wp_step. right.
  split; [by exists cx'|]. rewrite app_nil_r. unfold close_entries. rewrite Hev, Hle.
  eexists _, []. split; [by rewrite !app_assoc|]. split; [|done].
  autorewrite with backup_rw. destruct (cx_cancellation_watch cx), (cx_active_run cx),
    (negb (cx_target_close_attempted cx) && cx_target_session cx)%bool; done.
Qed.

Lemma close_run_closed c :
  ctx_closed c -> wp (close_run E) (λ o t c', o = Ret tt /\ t = [] /\ c' = c) c.
Proof.
  intros (cx & -> & Hc). unfold close_run. do 2 wp_step. wp_step.
  unfold context_close. rewrite Hc. do 2 wp_step. done.
Qed.

Lemma close_then_ret {A} (r : A) :
  stage (close_run E ;; ret r) (λ o ms cl, o = Ret r /\ ms = [] /\ cl = true).
Proof.
  eapply stage_bind; [apply close_run_stage|..].
  - by intros ? ? (_ & _ & ?).
  - intros a ms (_ & -> & _). by exists r.
  - by intros ? ? ? (? & _).
  - by intros ? ? (? & _).
Qed.

(** ** The parts of a run *)

Lemma record_target_storage_only profile :
  only unmarked (record_target_storage E has_storage profile).
Proof. unfold record_target_storage, recorder_record. repeat only_step; done. Qed.

(** Measuring the target's storage does not fail the run. *)
Lemma storage_stage {B} profile (f : list BackupCompletionWarning -> M (W:=W) B)
    (Q : outcome B -> list Mark -> bool -> Prop) :
  (forall ws, stage (f ws) Q) -> stage (bind (record_target_storage E has_storage profile) f) Q.
Proof.
  intros Hf. eapply (stage_bind _ _ (λ o ms cl, ms = [] /\ cl = false /\ exists ws, o = Ret ws)).
  - intros c Hc. eapply wp_mono; [apply wp_and; [apply record_target_storage_only|]|].
    { instantiate (1 := λ o _ _, exists ws, o = Ret ws). unfold record_target_storage. do 2 wp_step.
      destruct (if has_storage then _ else _); [|wp_step; by eexists].
      unfold recorder_record. do 4 wp_step.
      destruct r as [sp|e]; cbn [of_res]; [|case_match; do 2 wp_step; by eexists].
      do 2 wp_step. destruct r as [now|e]; cbn [of_res]; [|case_match; do 2 wp_step; by eexists].
      do 2 wp_step. destruct r as [[]|e]; cbn [of_res]; [do 2 wp_step; by eexists|].
      case_match; do 2 wp_step; by eexists. }
    cbn beta. intros o t c' [[-> Ht] Ho]. left. split; [done|]. by rewrite unmarked_marks.
  - intros a ms (-> & _). apply Hf.
  - by intros ? ? (_ & ? & _).
  - by intros ? ? ? (_ & _ & ? & ?).
  - by intros ? ? (_ & _ & ? & ?).
Qed.

(** The result of closing the target: none, or the failure reported. *)
Definition target_failure (pid : ProfileId) (rid : RunId) (n : Z) (op : OperationKind)
    (failed : option BackupExecutionResult) (ms : list Mark) : Prop :=
  match failed with
  | None => ms = []
  | Some r => exists msg, r = BackupExecutionFailed pid rid BackupFailed msg n /\
      ms = [MTerminal (RunFailed pid rid BackupFailed msg op)]
  end.

Lemma close_target_stage pid rid n op :
  stage (close_target_or_fail E pid rid n op) (λ o ms cl, cl = false /\
    match o with Ret failed => target_failure pid rid n op failed ms | _ => ms = [] end).
Proof.
  intros c (cx & -> & Hcl & Hev & Hle & Ht). unfold close_target_or_fail. do 2 wp_step.
  wp_step. eapply wp_mono; [by apply target_wp|]. cbn beta. intros o t c' (-> & e & -> & ->).
  cbv zeta. wp_step. wp_step.
  set (error := if (negb (cx_target_close_attempted cx) && cx_target_session cx)%bool then e
                else cx_target_close_error cx). set (cx' := set_target cx false None true error).
  assert (Hopen : ctx_open (Some cx')).
  { exists cx'. split; [done|]. split; [done|]. split; [done|]. split; [done|]. by intros _. }
  assert (Hm : marks (if (negb (cx_target_close_attempted cx) && cx_target_session cx)%bool
                      then [DidN TargetClose e] else []) = []) by (by case_match).
  destruct error as [err|].
  - wp_step. unfold emit_run_failed. do 2 wp_step. destruct r as [[]|e']; cbn [of_res].
    + do 2 wp_step. left. split; [done|]. split; [done|]. rewrite !marks_app, Hm. simpl. by eexists.
    + left. split; [done|]. split; [done|]. by rewrite !marks_app, Hm.
  - wp_step. left. split; [done|]. split; [done|]. by rewrite !marks_app, Hm.
Qed.

Lemma check_cleanup_only : only unmarked (check_cleanup_cancelled E).
Proof. unfold check_cleanup_cancelled, throw_if_cancelled. repeat only_step; done. Qed.

(** The result of a run and the marks it leaves, up to the release. *)
Definition result_marks (pid : ProfileId) (rid : RunId) (op : OperationKind)
    (r : BackupExecutionResult) (ms : list Mark) : Prop :=
  match r with
  | BackupExecutionCompleted _ _ ws =>
      exists ss ts, ms = ss ++ ts /\
        (ss = [MSuccess] \/ ss = [] /\ exists w, w ∈ ws /\ warn_component w = SuccessLedger) /\
        (ts = [MTerminal (RunCompleted pid rid)] \/
         ts = [] /\ exists w, w ∈ ws /\ warn_component w = TerminalStatus)
  | BackupExecutionSkipped _ => ms = [MSkipped]
  | BackupExecutionCancelled _ _ => exists ev, ms = [MTerminal ev] /\ is_run_cancelled ev
  | BackupExecutionBusy p r code msg => p = pid /\ r = rid /\
      ms = [MTerminal (RunFailed pid rid code msg op)]
  | BackupExecutionValidated _ => ms = [MTerminal (TargetValidationCompleted pid rid)]
  | BackupExecutionFailed p r code msg _ => p = pid /\ r = rid /\
      ms = [MTerminal (RunFailed pid rid code msg op)]
  end.

(** A part that may finish the run. *)
Definition part_post (pid : ProfileId) (rid : RunId) (op : OperationKind)
    (o : outcome (option BackupExecutionResult)) (ms : list Mark) (cl : bool) : Prop :=
  match o with
  | Ret None => ms = [] /\ cl = false
  | Ret (Some r) => result_marks pid rid op r ms
  | _ => ms = [] /\ cl = false
  end.

Definition body_post (pid : ProfileId) (rid : RunId) (op : OperationKind)
    (o : outcome BackupExecutionResult) (ms : list Mark) (cl : bool) : Prop :=
  match o with
  | Ret r => result_marks pid rid op r ms
  | _ => ms = [] /\ cl = false
  end.

(** Sequencing after an unmarked program. *)
Lemma stage_seq {A B} (m : M (W:=W) A) (f : A -> M B) (Q : outcome B -> list Mark -> bool -> Prop) :
  only unmarked m -> (forall a, stage (f a) Q) ->
  (forall e, Q (Exn e) [] false) -> Q Diverged [] false -> stage (bind m f) Q.
Proof.
  intros Hm Hf He Hd. eapply stage_bind; [by apply stage_only|..].
  - intros a ms [-> _]. apply Hf.
  - by intros a ms [_ ?].
  - intros e ms cl [-> ->]. apply He.
  - by intros ms cl [-> ->].
Qed.

(** Closing the target and going on if that worked. *)
Lemma stage_after_target {B} pid rid n op
    (finish : BackupExecutionResult -> M (W:=W) B) (rest : M B) (Q : outcome B -> list Mark -> bool -> Prop) :
  (forall r ms, target_failure pid rid n op (Some r) ms ->
     stage (finish r) (λ o ms' cl, Q o (ms ++ ms') cl)) ->
  stage rest Q -> (forall e, Q (Exn e) [] false) -> Q Diverged [] false ->
  stage (bind (close_target_or_fail E pid rid n op) (λ failed,
           match failed with Some r => finish r | None => rest end)) Q.
Proof.
  intros Hfin Hrest He Hd. eapply stage_bind; [apply close_target_stage|..].
  - intros [r|] ms [_ H]; [by apply Hfin|]. simpl in H. by subst ms.
  - by intros ? ? [? _].
  - intros e ms cl [-> ->]. apply He.
  - by intros ms cl [-> ->].
Qed.

Lemma finish_validation_stage request profile identity op plan :
  stage (finish_validation_if_requested E has_storage request profile identity op plan)
    (λ o ms cl, part_post (profile_id profile) (ri_run_id identity) op o ms cl /\
       match o with Ret None => validate_only request = false | _ => True end).
Proof.
  unfold finish_validation_if_requested. destruct (validate_only request); cbn [negb].
  2: { by apply stage_ret. }
  apply storage_stage. intros _.
  apply stage_after_target; [| |done|done].
  - intros r ms (msg & -> & ->). eapply stage_mono; [apply close_then_ret|].
    cbn beta. intros o ms cl (-> & -> & ->). done.
  - apply stage_seq; [apply check_cleanup_only| |done|done]. intros _.
    intros c Hc. do 2 wp_step. destruct r as [[]|e]; cbn [of_res]; [wp_step|]; by left.
Qed.

Lemma skip_stage request loaded identity today op plan :
  stage (skip_if_daily_limit_reached E has_storage request loaded identity today op plan)
    (part_post (profile_id (loaded_profile loaded)) (ri_run_id identity) op).
Proof.
  unfold skip_if_daily_limit_reached. cbv zeta.
  apply stage_seq; [unfold daily_limit_reached; repeat only_step; done| |done|done].
  intros [|]; cbn [negb]; [|by apply stage_ret].
  apply storage_stage. intros _.
  apply stage_after_target; [| |done|done].
  - intros r ms (msg & -> & ->). eapply stage_mono; [apply close_then_ret|].
    cbn beta. intros o ms cl (-> & -> & ->). done.
  - apply stage_seq; [apply check_cleanup_only| |done|done]. intros _.
    apply stage_seq; [by only_step| |done|done]. intros now.
    intros c Hc. do 2 wp_step. destruct r as [[]|e]; cbn [of_res]; [wp_step|]; by left.
Qed.

(** ** Executing the plan *)

(** Marks that are only terminal events. *)
Definition only_terminal (e : Entry) : Prop :=
  match entry_mark e with Some (MTerminal _) | None => True | Some _ => False end.

Lemma terminal_marks t : Forall only_terminal t -> marks t = map MTerminal (terminals_of t).
Proof.
  unfold marks, terminals_of. induction 1 as [|e t He _ IH]; [done|].
  unfold only_terminal in He. destruct e as [A p r|A p a]; destruct p; simpl in *; try done;
    destruct r as [x|x]; simpl in *; try done; [|by destruct x].
  destruct (is_terminal event); simpl; [by f_equal|done].
Qed.

Lemma only_weaken {A} (P Q : Entry -> Prop) (m : M (W:=W) A) :
  (forall e, P e -> Q e) -> only P m -> only Q m.
Proof.
  intros H Hm c. eapply wp_mono; [apply Hm|]. cbn beta. intros o t c' [-> Ht]. split; [done|].
  by eapply Forall_impl.
Qed.

Lemma dispatcher_marks roots a plan : only only_terminal (dispatcher_handle E roots a plan).
Proof.
  destruct a; cbn [dispatcher_handle];
    unfold handle_recover_pending, handle_cleanup_incoming, handle_run_hook, handle_create_snapshot,
      require_new_snapshot_metadata, handle_verify_received, handle_commit_received,
      require_snapshot_metadata, commit_received_snapshot_beneath, cleanup_failed,
      apply_retention, delete_under, handle_cleanup_source; repeat only_step; done.
Qed.

Lemma emit_marks ev : only only_terminal (call E (EmitEvent ev)).
Proof. only_step. unfold only_terminal. simpl. by destruct r, (is_terminal ev). Qed.

Lemma action_marks roots a x : only only_terminal (action_execute E fuel roots a x).
Proof.
  assert (Hs : only only_terminal (execute_short_action E roots a x)).
  { unfold execute_short_action. only_step; [apply dispatcher_marks|only_step]. }
  destruct a; try exact Hs. cbn [action_execute]. unfold execute_transfer. only_step; [|only_step].
  intros c. eapply wp_mono; [apply coordinator_wp with (P := only_terminal)|].
  - intros e He. destruct e as [A p r|A p r]; destruct p; by try done.
  - intros ev. unfold transfer_event_adapter. only_step; [only_step|apply emit_marks].
  - cbn beta. intros o t c' (-> & Ht & _). done.
Qed.

Lemma factory_marks plan : only only_terminal (factory_execute E fuel plan).
Proof.
  unfold factory_execute. only_step; [unfold owned_handler; repeat only_step; done|].
  rename a into roots. cbn [run_execute run_started run_plan snd]. unfold executor_execute.
  only_step; [|repeat only_step].
  assert (H : forall srcs n b, only only_terminal (run_sources E
    (ActionExecutor0 := program_executor E fuel roots) plan srcs n b)); [|apply H].
  induction srcs as [|source rest IH]; intros n b; cbn [run_sources]; [only_step|].
  only_step; [|destruct a; [only_step|apply IH]].
  unfold run_source, emit_cancelled. cbv zeta. only_step; [by only_step|].
  destruct a; [only_step; [apply emit_marks|only_step]|]. only_step; [apply emit_marks|].
  only_step; [|destruct a0; [only_step|only_step; [apply emit_marks|only_step]]].
  generalize n b. induction (actions source) as [|action acts IHa]; intros n0 b0;
    cbn [run_actions]; [only_step|].
  only_step; [|destruct a0; [only_step|apply IHa]].
  unfold run_action, catch_action, emit_cancelled, emit_action_failure, after_success. cbv zeta.
  cbn [ae_execute program_executor].
  repeat first [apply action_marks | apply emit_marks | only_step]; done.
Qed.

(** The marks of an execution. *)
Definition execution_marks (plan : BackupRunPlan) (o : outcome BackupRunExecutionResult)
    (ms : list Mark) : Prop :=
  match o with
  | Ret (BackupRunExecutionCancelled _) => exists ev, ms = [MTerminal ev] /\ is_run_cancelled ev
  | Ret (BackupRunExecutionFailed code msg _) =>
      ms = [MTerminal (RunFailed (plan_profile_id plan) (plan_run_id plan) code msg Backup)]
  | _ => ms = []
  end.

Lemma opens_root_marks t : Forall opens_root t -> terminals_of t = [].
Proof.
  unfold terminals_of. induction 1 as [|e t He _ IH]; [done|]. simpl.
  destruct e as [A p r|]; [|done]. by destruct p.
Qed.

Lemma factory_stage plan :
  stage (factory_execute E fuel plan) (λ o ms cl, cl = false /\ execution_marks plan o ms).
Proof.
  intros c Hc. eapply wp_mono; [apply wp_and; [apply factory_wp|apply factory_marks]|]. cbn beta.
  intros o t c' [(-> & t0 & t1 & -> & Ht0 & H) [_ Hm]]. left. split; [done|]. split; [done|].
  rewrite terminal_marks by done. rewrite terminals_of_app, (opens_root_marks t0) by done.
  destruct H as [H|[-> [e ->]]]; [|done]. apply execution_outcome in H.
  destruct o as [[n|n|code msg n]|e|]; simpl in *.
  - by destruct H as (_ & _ & ->).
  - destruct H as (_ & _ & ev & -> & Hev). by exists ev.
  - by destruct H as (_ & _ & ->).
  - by destruct H as (_ & ->).
  - by destruct H as (_ & ->).
Qed.

Lemma completion_warning_component component e :
  exists w, completion_warning component e = [w] /\ warn_component w = component.
Proof. unfold completion_warning. case_match; eexists; done. Qed.

(** Recording the success and reporting it. *)
Lemma ledger_stage loaded identity today count :
  stage (record_success_ledger_warning E loaded identity today count) (λ o ms cl, cl = false /\
    match o with
    | Ret ws => ms = [MSuccess] \/ ms = [] /\ exists w, w ∈ ws /\ warn_component w = SuccessLedger
    | _ => False
    end).
Proof.
  intros c Hc. unfold record_success_ledger_warning. do 3 wp_step.
  destruct r as [now|e]; cbn [of_res].
  2: { wp_step. left. split; [done|]. split; [done|]. right. split; [done|].
       destruct (completion_warning_component SuccessLedger e) as (w & -> & Hw). exists w. set_solver. }
  do 2 wp_step. destruct r as [[]|e]; cbn [of_res]; wp_step; left; (split; [done|]);
    (split; [done|]); by left.
Qed.

Lemma status_stage profile identity :
  stage (record_terminal_status_warning E profile identity) (λ o ms cl, cl = false /\
    match o with
    | Ret ws => ms = [MTerminal (RunCompleted (profile_id profile) (ri_run_id identity))] \/
        ms = [] /\ exists w, w ∈ ws /\ warn_component w = TerminalStatus
    | _ => False
    end).
Proof.
  intros c Hc. unfold record_terminal_status_warning. do 3 wp_step.
  destruct r as [[]|e]; cbn [of_res]; wp_step; left; (split; [done|]); (split; [done|]);
    [by left|right].
  split; [done|]. destruct (completion_warning_component TerminalStatus e) as (w & -> & Hw).
  exists w. set_solver.
Qed.

Lemma execute_plan_stage loaded identity today plan :
  plan_profile_id plan = profile_id (loaded_profile loaded) ->
  plan_run_id plan = ri_run_id identity ->
  stage (execute_plan E fuel has_storage loaded identity today Backup plan)
    (body_post (profile_id (loaded_profile loaded)) (ri_run_id identity) Backup).
Proof.
  intros Hp Hr. unfold execute_plan. cbv zeta.
  eapply stage_bind; [apply factory_stage|..].
  2: by intros ? ? [? _].
  2: by intros ? ? ? [-> ?].
  2: by intros ? ? [-> ?].
  intros [n|n|code msg n] ms [_ H]; simpl in H.
  - subst ms. apply storage_stage. intros warnings.
    apply stage_after_target; [| |done|done].
    { intros r ms (msg & -> & ->). eapply stage_mono; [apply close_then_ret|].
      cbn beta. intros o ms cl (-> & -> & ->). done. }
    apply stage_seq; [apply check_cleanup_only| |done|done]. intros _.
    eapply stage_bind; [apply ledger_stage|..]; [|by intros ? ? [? _]|by intros ? ? ? [_ ?]|by intros ? ? [_ ?]].
    intros ledger ss [_ Hss].
    eapply stage_bind; [apply status_stage|..]; [|by intros ? ? [? _]|by intros ? ? ? [_ ?]|by intros ? ? [_ ?]].
    intros status ts [_ Hts]. eapply stage_mono; [apply close_then_ret|].
    cbn beta. intros o ms cl (-> & -> & ->). rewrite app_nil_r. exists ss, ts. split; [done|].
    split; [destruct Hss as [?|(? & w & ? & ?)]|destruct Hts as [?|(? & w & ? & ?)]]; try (by left);
      right; (split; [done|]); exists w; set_solver.
  - destruct H as (ev & -> & Hev). apply storage_stage. intros _.
    eapply stage_mono; [apply close_then_ret|]. cbn beta. intros o ms cl (-> & -> & ->).
    by exists ev.
  - subst ms. rewrite Hp, Hr. apply storage_stage. intros _.
    eapply stage_mono; [apply close_then_ret|]. cbn beta. by intros o ms cl (-> & -> & ->).
Qed.

(** ** Preparing *)

(** The plan was built from what discovery found. *)
Definition planned (profile : Profile) (identity : RunIdentity) (plan : BackupRunPlan) : Prop :=
  exists found, discovered profile found /\
    build_backup_run_plan profile (local_inventory found) (remote_inventory found)
      (pending_markers found) (pending_snapshots found) (planning_state_dir found)
      (ri_run_id identity) (ri_started_at identity) = Ok plan.

Lemma planned_ids profile identity plan :
  planned profile identity plan ->
  plan_profile_id plan = profile_id profile /\ plan_run_id plan = ri_run_id identity.
Proof.
  intros (found & _ & H). unfold build_backup_run_plan in H. cbv zeta in H.
  rewrite res_bind_Ok in H. by destruct H as (plans & _ & [= <-]).
Qed.

Lemma reading_unmarked e : is_reading e -> unmarked e.
Proof. destruct e as [A p r|A p r]; by destruct p. Qed.

Lemma cancelled_only msg : only unmarked (throw_if_cancelled E msg).
Proof. unfold throw_if_cancelled. repeat only_step; done. Qed.

Lemma preflight_only profile mode : only unmarked (preflight_run E canonical profile mode).
Proof.
  unfold preflight_run, abandon_preflight.
  repeat first [apply cancelled_only | only_step]; done.
Qed.

Lemma planning_stage profile identity :
  stage (throw_if_cancelled E "backup cancelled during preflight" ;;
     let! snapshot := discover E profile ps in
     let! plan := plan_builder_build E profile snapshot (ri_run_id identity) (ri_started_at identity) in
     throw_if_cancelled E "backup cancelled during planning" ;;
     ret plan)
    (λ o ms cl, ms = [] /\ cl = false /\
       match o with Ret plan => planned profile identity plan | _ => True end).
Proof.
  apply stage_unmarked. intros c. wp_step. eapply wp_mono; [apply cancelled_only|]. cbn beta.
  intros [[]|e|] t c' [-> Ht]; [|done|done].
  wp_step. eapply wp_mono; [apply discover_reads|]. cbn beta.
  intros o t' c' (-> & Ht' & Hd).
  assert (Hu : Forall unmarked t') by (eapply Forall_impl; [done|]; apply reading_unmarked).
  destruct o as [found|e|]; [|by rewrite Forall_app..].
  wp_step. unfold plan_builder_build. wp_step. eapply wp_mono; [apply cancelled_only|]. cbn beta.
  intros [[]|e|] t2 c' [-> Ht2]; [|by rewrite !Forall_app..].
  do 2 wp_step. destruct (build_backup_run_plan _ _ _ _ _ _ _ _) as [plan|e] eqn:Eb; cbn [of_res].
  2: { by rewrite !Forall_app, Forall_nil. }
  wp_step. eapply wp_mono; [apply cancelled_only|]. cbn beta.
  intros [[]|e|] t3 c' [-> Ht3]; [|by rewrite !Forall_app, ?Forall_nil..].
  do 2 wp_step. eapply wp_mono; [apply cancelled_only|]. cbn beta.
  intros [[]|e|] t4 c' [-> Ht4]; [wp_step|by rewrite !Forall_app, ?Forall_nil..].
  rewrite !Forall_app, ?Forall_nil. split; [done|]. split; [done|]. by exists found.
Qed.

(** A context whose target was not closed yet. *)
Definition ctx_fresh (c : option RunExecutionContext) : Prop :=
  exists cx, c = Some cx /\ cx_closed cx = false /\ cx_events cx = true /\ cx_lease cx = true /\
    cx_target_close_attempted cx = false.

Lemma fresh_open c : ctx_fresh c -> ctx_open c.
Proof.
  intros (cx & -> & H1 & H2 & H3 & H4). exists cx. split_and!; try done.
  unfold target_consistent. by rewrite H4.
Qed.

Lemma prepare_wp profile identity c :
  ctx_fresh c ->
  wp (prepare_target_and_plan E canonical ps profile identity) (λ o t c',
    ctx_open c' /\ marks t = [] /\
    match o with Ret plan => planned profile identity plan | _ => True end) c.
Proof.
  intros Hc. unfold prepare_target_and_plan. wp_step. eapply wp_mono; [apply preflight_only|].
  cbn beta. intros [mount|e|] t c' [-> Ht]; apply unmarked_marks in Ht.
  2,3: split; [by apply fresh_open|done].
  destruct Hc as (cx & -> & H1 & H2 & H3 & H4). wp_step. unfold attach_target. do 3 wp_step.
  eapply wp_mono; [apply planning_stage|].
  - exists (attach_verified_target cx mount). split_and!; try done.
    unfold target_consistent. simpl. by rewrite H4.
  - cbn beta. intros o t' c' [[Ho (Hm & _ & Hp)]|(_ & ? & ? & _ & _ & _ & ? & _)]; [|done].
    split; [done|]. by rewrite !marks_app, Ht, Hm.
Qed.

(** ** The whole run *)

(** Where a run is: without a context (the lease was not acquired, or released
    again), with an open one, or with a closed one. *)
Definition phases {A} (Q : outcome A -> list Mark -> bool -> Prop) (o : outcome A)
    (t : list Entry) (c : option RunExecutionContext) : Prop :=
  (c = None /\ o <> Diverged /\ exists ms, Q o ms false /\ never_began ms t) \/
  (ctx_open c /\ exists t0 t1, t = t0 ++ t1 /\ Forall harmless t0 /\ marks t0 = [MAcquired] /\
     Q o (marks t1) false) \/
  (ctx_closed c /\ exists t0 t1 ms, t = t0 ++ t1 ++ [DidN ReleaseLease tt] /\ Forall harmless t0 /\
     marks t0 = [MAcquired] /\ marks t1 = ms ++ [MReleaseEvents] /\ Q o ms true).

(** The parts of the body once the run has its context. *)
Lemma body_stage request loaded identity plan :
  let profile := loaded_profile loaded in
  let op := operation_kind request in
  planned profile identity plan ->
  stage
    (let! validation := finish_validation_if_requested E has_storage request profile identity op plan in
     match validation with
     | Some result => ret result
     | None =>
         let! today := call E ClockLocalDate in
         let! skipped := skip_if_daily_limit_reached E has_storage request loaded identity today op plan in
         match skipped with
         | Some result => ret result
         | None => execute_plan E fuel has_storage loaded identity today op plan
         end
     end)
    (body_post (profile_id profile) (ri_run_id identity) op).
Proof.
  cbv zeta. intros Hp. apply planned_ids in Hp as [Hp1 Hp2].
  eapply stage_bind; [apply finish_validation_stage|..].
  - intros [r|] ms [H Hv]; simpl in H.
    + apply stage_ret. by rewrite app_nil_r.
    + destruct H as [-> _]. unfold operation_kind. rewrite Hv.
      apply stage_seq; [by only_step| |done|done]. intros today.
      eapply stage_bind; [apply skip_stage|..].
      * intros [r|] ms H; simpl in H; [apply stage_ret; by rewrite app_nil_r|].
        destruct H as [-> _]. by apply execute_plan_stage.
      * intros [r|] ms H; simpl in H; [by exists r|by destruct H].
      * by intros e ms cl H.
      * by intros ms cl H.
  - intros [r|] ms [H _]; simpl in H; [by exists r|by destruct H].
  - by intros e ms cl [H _].
  - by intros ms cl [H _].
Qed.

(** Creating the context: on failure the lease is released. *)
Lemma create_context_wp pid rid c :
  wp (create_context E pid rid) (λ o t c', c' = c /\
    match o with
    | Ret cx => cx = fresh_context pid rid /\ marks t = []
    | Exn _ => exists t1 dropped, t = t1 ++ [DidN ReleaseLease tt] ++ dropped /\ marks t1 = [] /\
        (dropped = [] \/ dropped = [DidN DropActiveRun tt])
    | Diverged => False
    end) c.
Proof.
  unfold create_context. cbv zeta.
  do 3 wp_step. destruct r as [[]|e]; cbn [of_res].
  2: { do 3 wp_step. destruct a. split; [done|]. eexists [_], []. split; [done|]. by split; [|left]. }
  do 3 wp_step. destruct r as [[]|e]; cbn [of_res].
  2: { do 3 wp_step. destruct a. split; [done|]. eexists [_; _], []. split; [done|]. by split; [|left]. }
  do 3 wp_step. destruct r as [[]|e]; cbn [of_res].
  2: { do 5 wp_step. destruct a, a0. split; [done|]. eexists [_; _; _], [_]. split; [done|]. by split; [|right]. }
  by wp_step.
Qed.

Lemma run_loaded_wp request identity loaded :
  let op := operation_kind request in
  wp (run_loaded_profile E fuel canonical ps has_storage request identity op loaded)
    (phases (body_post (profile_id (loaded_profile loaded)) (ri_run_id identity) op)) None.
Proof.
  cbv zeta. unfold run_loaded_profile. cbv zeta. wp_step. unfold acquire_run_lease, emit_run_failed.
  do 2 wp_step. destruct r as [[|code msg]|e]; cbn [of_res].
  3: { left. split; [done|]. split; [done|]. exists []. split; [done|]. left.
       split; [|done]. by repeat constructor; intros []. }
  2: { do 3 wp_step. destruct r as [[]|e]; cbn [of_res]; [do 3 wp_step|]; left; (split; [done|]);
         (split; [done|]); eexists; (split; [|left; split; [|done]]); try done;
         (constructor; [left; by intros []|constructor; [by right|constructor]]). }
  set (acquired := [Did (TryAcquireLease (loaded_profile loaded)) (Ok BackupRunLeaseAcquired) : Entry]).
  assert (Hacq1 : Forall harmless acquired) by (by repeat constructor; intros []).
  assert (Hacq2 : marks acquired = [MAcquired]) by done.
  do 2 wp_step. cbn [app]. eapply wp_mono; [apply create_context_wp|]. cbn beta.
  intros [cx|e|] t0 c (-> & H); [destruct H as [-> Ht0]| |done].
  2: { destruct H as (t1 & d & -> & Hm1 & Hd). left. split; [done|]. split; [done|]. exists [].
       split; [done|]. right. exists acquired, t1, d, []. rewrite !app_nil_r. by split_and!. }
  set (cx := attach_event_sink (fresh_context _ _)).
  assert (Hfresh : ctx_fresh (Some cx)) by (by exists cx).
  do 4 wp_step. cbn [app]. destruct r as [[]|e]; cbn [of_res].
  2: { right; left. split; [by apply fresh_open|]. eexists acquired, (t0 ++ [_]). split; [done|].
       by rewrite marks_app, Ht0. }
  wp_step. eapply wp_mono; [by apply prepare_wp|]. cbn beta.
  intros [plan|e|] t1 c (Hc & Ht1 & Hplan).
  2,3: right; left; split; [done|]; eexists acquired, (t0 ++ _ :: t1); split; [simpl; by rewrite <- ?app_assoc|];
    by rewrite marks_app, marks_cons, Ht0.
  eapply wp_mono; [by apply body_stage|]. cbn beta.
  intros o t2 c' [[Ho HQ]|(Ho & t3 & ms & -> & Hms & HQ)].
  - right; left. split; [done|]. eexists acquired, (t0 ++ _ :: t1 ++ t2).
    split; [simpl; by rewrite <- ?app_assoc|].
    split; [done|]. split; [done|]. by rewrite marks_app, marks_cons, marks_app, Ht0, Ht1.
  - right; right. split; [done|]. eexists acquired, (t0 ++ _ :: t1 ++ t3), ms. split.
    { simpl. rewrite <- ?app_assoc. simpl. by rewrite <- ?app_assoc. }
    split; [done|]. split; [done|]. split; [|done].
    by rewrite marks_app, marks_cons, marks_app, Ht0, Ht1.
Qed.

(** What the caller gets and the marks of the run. *)
Definition final_post (pid : ProfileId) (rid : RunId) (op : OperationKind)
    (o : outcome BackupExecutionResult) (ms : list Mark) (cl : bool) : Prop :=
  match o with
  | Ret r => result_marks pid rid op r ms
  | Exn e => ms = [] \/ ms = [MTerminal (RunFailed pid rid BackupFailed (exn_what e) op)]
  | Diverged => ms = [] /\ cl = false
  end.

Lemma abandon_stage profile :
  stage (abandon_run E has_storage profile) (λ o ms cl, o = Ret tt /\ ms = [] /\ cl = true).
Proof.
  intros c Hc. unfold abandon_run. do 2 wp_step. destruct Hc as (cx & -> & Hc).
  eapply wp_mono; [apply storage_stage; [intros _; apply close_run_stage|]|]; [by exists cx|done].
Qed.

(** An event is delivered, or it throws; then the run is abandoned. *)
Lemma emit_abandon_stage {B} profile ev (r : M (W:=W) B)
    (Q : outcome B -> list Mark -> bool -> Prop) :
  is_terminal ev = true -> (forall s, exists o, r s = (o, s) /\ Q o [MTerminal ev] true) ->
  (forall e, Q (Exn e) [] false) ->
  stage (call E (EmitEvent ev) ;; abandon_run E has_storage profile ;; r) Q.
Proof.
  intros Hev Hr He c Hc. do 2 wp_step. destruct r0 as [[]|e]; cbn [of_res]; [|by left].
  wp_step. eapply wp_mono; [by apply abandon_stage|]. cbn beta.
  intros o t c' [(_ & _ & _ & ?)|(Ho & t1 & ms & -> & Hms & -> & -> & _)]; [done|].
  intros s Hs. destruct (Hr s) as (o & -> & HQ). exists []. simpl. split; [by rewrite app_nil_r|].
  right. rewrite Hs. split; [done|]. eexists (_ :: t1), [MTerminal ev].
  split; [by rewrite app_nil_r|]. split; [|done]. rewrite marks_cons, Hms. simpl. by rewrite Hev.
Qed.

Lemma stage_ext {A} (m m' : M (W:=W) A) Q : (forall s, m s = m' s) -> stage m' Q -> stage m Q.
Proof. intros He H c Hc s Hs. rewrite He. by apply (H c Hc s Hs). Qed.

Lemma wp_ext {A} (m m' : M (W:=W) A) Φ c : (forall s, m s = m' s) -> wp m' Φ c -> wp m Φ c.
Proof. intros He H s Hs. rewrite He. by apply H. Qed.

(** The failure event, then what follows. *)
Lemma emit_failed_bind {B} pid rid code msg n op (f : BackupExecutionResult -> M (W:=W) B) s :
  bind (emit_run_failed E pid rid code msg n op) f s
  = bind (call E (EmitEvent (RunFailed pid rid code msg op)))
      (λ _, f (BackupExecutionFailed pid rid code msg n)) s.
Proof. unfold emit_run_failed, bind. by destruct (call E _ s) as [[[]|e|] s']. Qed.

Lemma catch_open profile identity op e :
  stage (catch_run E has_storage profile identity op e)
    (final_post (profile_id profile) (ri_run_id identity) op).
Proof.
  unfold catch_run. destruct (is_operation_cancelled e).
  { apply emit_abandon_stage; [done| |by left]. intros s. eexists. split; [done|]. by eexists. }
  destruct (is_btrfs_backup_error e).
  { eapply stage_ext; [intros s; apply emit_failed_bind|].
    apply emit_abandon_stage; [done| |by left]. intros s. by eexists. }
  destruct (is_std_exception e).
  { eapply stage_ext; [intros s; apply emit_failed_bind|].
    apply emit_abandon_stage; [done| |by left]. intros s. eexists. split; [done|]. by right. }
  intros c Hc. wp_step. left. split; [done|]. by left.
Qed.

(** The same without a context. *)
Lemma emit_abandon_none {B} profile ev (r : M (W:=W) B) (Q : outcome B -> list Mark -> Prop) :
  is_terminal ev = true -> (forall s, exists o, r s = (o, s) /\ Q o [MTerminal ev]) ->
  (forall e, Q (Exn e) []) ->
  wp (call E (EmitEvent ev) ;; abandon_run E has_storage profile ;; r)
    (λ o t c', c' = None /\ Forall unleased t /\ Q o (marks t)) None.
Proof.
  intros Hev Hr He. do 2 wp_step. destruct r0 as [[]|e]; cbn [of_res].
  2: { split; [done|]. split; [by repeat (constructor; [by right|])|apply He]. }
  wp_step. unfold abandon_run. do 3 wp_step. intros s Hs. destruct (Hr s) as (o & -> & HQ).
  exists []. simpl. split; [by rewrite app_nil_r|]. split; [done|].
  split; [by repeat (constructor; [by right|])|]. unfold marks. simpl. by rewrite Hev.
Qed.

Lemma catch_none profile identity op e :
  wp (catch_run E has_storage profile identity op e) (λ o t c', c' = None /\ Forall unleased t /\
    o <> Diverged /\ final_post (profile_id profile) (ri_run_id identity) op o (marks t) false) None.
Proof.
  unfold catch_run. destruct (is_operation_cancelled e).
  { apply (emit_abandon_none _ _ _ (λ o ms, o <> Diverged /\ final_post _ _ op o ms false)); [done| |by split; [|left]].
    intros s. eexists. split; [done|]. split; [done|]. by eexists. }
  destruct (is_btrfs_backup_error e).
  { eapply wp_ext; [intros s; apply emit_failed_bind|].
    apply (emit_abandon_none _ _ _ (λ o ms, o <> Diverged /\ final_post _ _ op o ms false)); [done| |by split; [|left]].
    intros s. by eexists. }
  destruct (is_std_exception e).
  { eapply wp_ext; [intros s; apply emit_failed_bind|].
    apply (emit_abandon_none _ _ _ (λ o ms, o <> Diverged /\ final_post _ _ op o ms false)); [done| |by split; [|left]].
    intros s. eexists. split; [done|]. split; [done|]. by right. }
  wp_step. split; [done|]. split; [done|]. split; [done|]. by left.
Qed.

Lemma body_final pid rid op o ms cl :
  body_post pid rid op o ms cl -> match o with Exn _ => True | _ => final_post pid rid op o ms cl end.
Proof. by destruct o. Qed.

Lemma try_run_wp request identity loaded :
  let op := operation_kind request in
  wp (try_catch (run_loaded_profile E fuel canonical ps has_storage request identity op loaded)
        (catch_run E has_storage (loaded_profile loaded) identity op))
    (phases (final_post (profile_id (loaded_profile loaded)) (ri_run_id identity) op)) None.
Proof.
  cbv zeta. wp_step. eapply wp_mono; [apply run_loaded_wp|]. cbn beta.
  intros o t c [(-> & Hnd & ms & HQ & Hms)|[(Ho & t0 & t1 & -> & Hh & Ht0 & HQ)
    |(Ho & t0 & t1 & ms & -> & Hh & Ht0 & Hms & HQ)]].
  - destruct o as [r|e|]; [left; by eauto 8| |done].
    destruct HQ as [-> _]. eapply wp_mono; [apply catch_none|]. cbn beta.
    intros o t' c' (-> & Hh' & Hnd' & HQ). left. split; [done|].
    split; [done|]. exists (marks t'). split; [done|]. by apply never_began_app.
  - destruct o as [r|e|]; [right; left; by eauto 8| |right; left; by eauto 8].
    destruct HQ as [Ht1 _]. eapply wp_mono; [by apply catch_open|]. cbn beta.
    intros o t' c' [[Ho' HQ]|(Ho' & t2 & ms & -> & Hms & HQ)]; right; [left|right]; (split; [done|]).
    + exists t0, (t1 ++ t'). rewrite <- app_assoc, marks_app, Ht1. done.
    + exists t0, (t1 ++ t2), ms. rewrite <- !app_assoc, marks_app, Ht1. done.
  - destruct o as [r|e|]; [right; right; by eauto 10|by destruct HQ|by destruct HQ].
Qed.

(** How the lease and the event sink bracket the marks of a run: either the run never
    began, and what is left to do is to report it and to release the event sink; or
    everything that changes anything happened between the acquisition of the lease and
    its release, which is the last step. *)
Definition bracketed (ms : list Mark) (t : list Entry) : Prop :=
  never_began (ms ++ [MReleaseEvents]) t \/
  (exists t0 t1, t = t0 ++ t1 ++ [DidN ReleaseLease tt] /\ Forall harmless t0 /\
     marks t0 = [MAcquired] /\ marks t1 = ms ++ [MReleaseEvents]).

Definition run_post (pid : ProfileId) (rid : RunId) (op : OperationKind)
    (o : outcome BackupExecutionResult) (t : list Entry) : Prop :=
  match o with
  | Diverged => exists t0 t1, t = t0 ++ t1 /\ Forall harmless t0 /\ marks t0 = [MAcquired] /\
      marks t1 = []
  | _ => exists ms, final_post pid rid op o ms false /\ bracketed ms t
  end.

Lemma never_began_release ms t : never_began ms t -> never_began (ms ++ [MReleaseEvents]) (t ++ [DidN ReleaseEvents tt]).
Proof.
  assert (Hr : Forall unleased [DidN ReleaseEvents tt]) by (repeat constructor; by intros []).
  intros [[Ht <-]|(t0 & t1 & d & t2 & -> & H0 & Hm0 & Hm1 & Hd & H2 & <-)]; [left|right].
  - split; [by apply Forall_app|]. by rewrite marks_app.
  - exists t0, t1, d, (t2 ++ [DidN ReleaseEvents tt]). rewrite <- !app_assoc. split_and!; try done; [by apply Forall_app|].
    by rewrite marks_app.
Qed.

Lemma leave_run_wp {A} (Q : outcome A -> list Mark -> bool -> Prop) o t c :
  phases Q o t c ->
  wp (leave_run E) (λ o' t' c', o' = Ret tt /\ c' = None /\
    exists ms cl, Q o ms cl /\ bracketed ms (t ++ t')) c.
Proof.
  unfold leave_run, bracketed.
  intros [(-> & Hnd & ms & HQ & Hms)|[(Ho & t0 & t1 & -> & Hh & Ht0 & HQ)
    |(Ho & t0 & t1 & ms & -> & Hh & Ht0 & Hms & HQ)]]; do 2 wp_step.
  - wp_step. destruct a. split; [done|]. split; [done|]. exists ms, false. split; [done|]. left.
    by apply never_began_release.
  - destruct Ho as (cx & -> & Hcx). wp_step. eapply wp_mono; [apply close_run_stage; by exists cx|].
    cbn beta. intros o' t' c' [(_ & _ & _ & ?)|(_ & t2 & ms & -> & Hms & -> & -> & _)]; [done|].
    wp_step. split; [done|]. split; [done|]. exists (marks t1), false. split; [done|]. right.
    exists t0, (t1 ++ t2). rewrite app_nil_r, <- !app_assoc, marks_app, Hms. done.
  - destruct Ho as (cx & -> & Hcx). wp_step. eapply wp_mono; [apply close_run_closed; by exists cx|].
    cbn beta. intros o' t' c' (-> & -> & ->). wp_step. split; [done|]. split; [done|].
    exists ms, true. split; [done|]. right. exists t0, t1. by rewrite !app_nil_r.
Qed.

Lemma start_loaded_wp request identity loaded :
  let op := operation_kind request in
  wp (start_loaded_profile E fuel canonical ps has_storage request identity op loaded)
    (λ o t _, run_post (profile_id (loaded_profile loaded)) (ri_run_id identity) op o t) None.
Proof.
  cbv zeta. unfold start_loaded_profile. wp_step. eapply wp_mono; [apply try_run_wp|]. cbn beta.
  intros o t c H. destruct o as [r|e|].
  - eapply wp_mono; [by eapply leave_run_wp|]. cbn beta.
    intros o' t' c' (-> & -> & ms & cl & HQ & Hb). by exists ms.
  - eapply wp_mono; [by eapply leave_run_wp|]. cbn beta.
    intros o' t' c' (-> & -> & ms & cl & HQ & Hb). by exists ms.
  - destruct H as [(_ & ? & _)|[(_ & t0 & t1 & -> & Hh & Ht0 & Ht1 & _)
      |(_ & t0 & t1 & ms & _ & _ & _ & _ & _ & ?)]]; [done| |done].
    by exists t0, t1.
Qed.

(** ** Starting *)

Definition starts_run (e : Entry) : Prop :=
  match e with
  | Did p _ => match p with ClockNow | GenerateRunId _ | ProfilesGet _ | OpenEvents _ => True | _ => False end
  | DidN _ _ => False
  end.

Lemma starts_run_facts t :
  Forall starts_run t -> marks t = [] /\ Forall harmless t.
Proof.
  intros H. split.
  - apply unmarked_marks. eapply Forall_impl; [done|]. intros e He.
    destruct e as [A p r|]; [|done]. by destruct p.
  - eapply Forall_impl; [done|]. intros e He Hm. destruct e as [A p r|]; [|done]. by destruct p.
Qed.

Lemma bracketed_prepend ms t0 t :
  Forall starts_run t0 -> bracketed ms t -> bracketed ms (t0 ++ t).
Proof.
  intros H. apply starts_run_facts in H as [Hm Hh]. unfold bracketed.
  intros [[[Ht Hms]|(u0 & u1 & d & u2 & -> & Hu0 & Hu & Hrest)]|(t1 & t2 & -> & Hh1 & Hm1 & Hm2)]; [left; left|left; right|right].
  - split; [by apply Forall_app; split; [apply harmless_unleased|]|]. by rewrite marks_app, Hm.
  - exists (t0 ++ u0), u1, d, u2. rewrite <- app_assoc. split; [done|]. split; [by apply Forall_app|].
    split; [by rewrite marks_app, Hm|done].
  - exists (t0 ++ t1), t2. rewrite <- app_assoc, marks_app, Hm. split; [done|].
    split; [by apply Forall_app|]. done.
Qed.

(** What starting a run gives: it could not begin (nothing but an attempt to find
    the profile or to open the event sink), or it went as [run_post] says. *)
Definition start_post (op : OperationKind) (o : outcome BackupExecutionResult) (t : list Entry)
    : Prop :=
  (exists e, o = Exn e /\ Forall unleased t /\ (marks t = [] \/ marks t = [MReleaseEvents])) \/
  (exists pid rid, run_post pid rid op o t).

Lemma start_wp request :
  wp (start E fuel canonical ps has_storage request)
    (λ o t _, start_post (operation_kind request) o t) None.
Proof.
  assert (Hfail : forall e t, Forall starts_run t -> start_post (operation_kind request) (Exn e) t).
  { intros e t H. apply starts_run_facts in H as [Hm Hh]. left. exists e. auto using harmless_unleased. }
  unfold start. do 2 wp_step. destruct r as [started|e]; cbn [of_res];
    [|apply Hfail; by repeat constructor].
  do 2 wp_step. destruct r as [rid|e]; cbn [of_res]; [|apply Hfail; by repeat constructor].
  wp_step. wp_step. do 2 wp_step. destruct r as [loaded|e]; cbn [of_res].
  - wp_step. wp_step. unfold session_events. wp_step.
    destruct r as [[]|e]; cbn [of_res]; [|apply Hfail; by repeat constructor].
    eapply wp_mono; [apply start_loaded_wp|]. cbn beta. intros o t _ H. right.
    exists (profile_id (loaded_profile loaded)), rid. cbn [app ri_run_id] in *.
    match goal with |- context [?a :: ?b :: ?c :: ?d :: t] =>
      change (a :: b :: c :: d :: t) with ([a; b; c; d] ++ t);
      assert (Hs : Forall starts_run [a; b; c; d]) by (by repeat constructor) end.
    destruct o as [r|e|]; [destruct H as (ms & HQ & Hb); exists ms; split; [done|];
      by apply bracketed_prepend..|].
    destruct H as (t0 & t1 & -> & Hh & Ht0 & Ht1). apply starts_run_facts in Hs as [Hm Hh'].
    eexists (_ ++ t0), t1. rewrite app_assoc. split; [done|]. rewrite marks_app, Hm, Ht0.
    split; [by apply Forall_app|]. done.
  - destruct (is_btrfs_backup_error e) eqn:Eb; [|wp_step; apply Hfail; by repeat constructor].
    wp_step. unfold fallback_events. wp_step. destruct r as [[]|e']; cbn [of_res];
      [|apply Hfail; by repeat constructor].
    wp_step. wp_step. unfold emit_run_failed. do 2 wp_step. destruct r as [[]|e']; cbn [of_res].
    + wp_step. wp_step. wp_step. wp_step. destruct a. right.
      exists (req_profile_id request), rid. eexists [MTerminal _]. split; [done|].
      left. left. split; [|done]. repeat constructor; by intros [].
    + wp_step. left. exists e'. split; [done|]. split; [repeat constructor; by intros []|]. by right.
Qed.

(** C1.  Whatever the ports do, a started run that returns or throws delivered at
    most one terminal event, the one that belongs to its result (a completed run
    that delivered none says so in its warnings); it recorded a success only if it
    completed and a skip only if it was skipped; it released the event sink once
    and last but for the lease, and the lease, if it had acquired it, exactly once.
    Everything it changed (the repository, the target, markers, checkpoints, records,
    the registration of the active run, cancellation requests, and what events make of
    status and history) it changed between the acquisition of the lease and its
    release.  The exceptions are the terminal event of a run that did not get the
    lease, or gave it back before it began, and the registration that is dropped right
    after the lease was given back in that case. *)
Theorem start_outcomes request w :
  let '(o, t) := run_program (start E fuel canonical ps has_storage request) w in
  start_post (operation_kind request) o t.
Proof.
  destruct (wp_run _ _ w (start_wp request)) as (c & H). by destruct (run_program _ _).
Qed.
End service_facts.

(** ** Termination *)

Section service_termination.
Context {W : Type} (E : Env W) (polls : W -> nat -> nat) (bound fuel : nat)
  (canonical : path -> option path) (ps : ApplicationPaths) (has_storage : bool).
Context (Hend : transfers_end E polls bound) (Hfuel : (bound < fuel)%nat).

Lemma close_run_ends : ends (close_run E).
Proof.
  unfold close_run, context_close, close_cancellation_watch, release_event_sink, close_active_run,
    clear_cancellation_request, collect_target_session_failure, close_target_session, release_lease.
  repeat ends_step.
Qed.

Lemma storage_ends profile : ends (record_target_storage E has_storage profile).
Proof. unfold record_target_storage, recorder_record. repeat ends_step. Qed.

Lemma close_target_ends pid rid n op : ends (close_target_or_fail E pid rid n op).
Proof. unfold close_target_or_fail, close_target_session, emit_run_failed. repeat ends_step. Qed.

Lemma cancelled_ends msg : ends (throw_if_cancelled E msg).
Proof. unfold throw_if_cancelled. repeat ends_step. Qed.

Lemma discover_ends profile : ends (discover E profile ps).
Proof.
  unfold discover. ends_step; [apply cancelled_ends|]. do 2 (ends_step; [ends_step|]).
  ends_step; [|ends_step; [apply cancelled_ends|ends_step]].
  set (state_dir := profile_state_dir _ _). generalize (mkPlanning ∅ ∅ ∅ ∅ state_dir).
  induction (sources profile) as [|source rest IH]; intros found; cbn [discover_sources]; [ends_step|].
  ends_step; [|apply IH].
  assert (Hside : forall root dir sid sd, ends (discover_side E root dir sid sd)).
  { intros root dir sid sd. unfold discover_side. ends_step; [ends_step|]. ends_step; [|ends_step].
    ends_step; [ends_step|]. ends_step; [|ends_step]. unfold list_snapshot_inventory_m.
    ends_step; [ends_step|]. ends_step; [ends_step|ends_step|]. ends_step; [|ends_step].
    induction entries as [|e entries IHe]; cbn [inventory_entries_m]; [ends_step|].
    ends_step; [|ends_step; [apply IHe|ends_step]]. unfold inventory_entry_m, pinned_reader.
    repeat first [apply cancelled_ends | ends_step]. }
  unfold discover_source, discover_pending.
  repeat first [apply cancelled_ends | apply Hside | ends_step].
Qed.

Lemma prepare_ends profile identity : ends (prepare_target_and_plan E canonical ps profile identity).
Proof.
  unfold prepare_target_and_plan, preflight_run, abandon_preflight, attach_target, plan_builder_build.
  repeat first [apply cancelled_ends | apply discover_ends | ends_step].
Qed.

Lemma execute_plan_ends loaded identity today op plan :
  ends (execute_plan E fuel has_storage loaded identity today op plan).
Proof.
  unfold execute_plan, record_success_ledger_warning, record_terminal_status_warning,
    check_cleanup_cancelled.
  repeat first [apply close_run_ends | apply storage_ends | apply close_target_ends
    | apply cancelled_ends | apply (factory_ends E polls bound fuel Hend Hfuel) | ends_step].
Qed.

Lemma start_ends request : ends (start E fuel canonical ps has_storage request).
Proof.
  unfold start, session_events, fallback_events, emit_run_failed. cbv zeta.
  repeat first [ends_step]. unfold start_loaded_profile, run_loaded_profile, catch_run, leave_run,
    abandon_run, acquire_run_lease, emit_run_failed, create_context,
    finish_validation_if_requested, skip_if_daily_limit_reached, daily_limit_reached,
    check_cleanup_cancelled. cbv zeta.
  repeat first [apply close_run_ends | apply storage_ends | apply close_target_ends
    | apply cancelled_ends | apply prepare_ends | apply execute_plan_ends | ends_step].
Qed.

(** C5.  If every transfer ends within [bound] timed-out waits, starting a run
    returns a result or throws, whatever else the ports answer: [fuel], the number
    of waits the model allows a transfer, is not used up when it exceeds [bound]. *)
Theorem start_terminates request w :
  (run_program (start E fuel canonical ps has_storage request) w).1 <> Diverged.
Proof.
  unfold run_program. pose proof (start_ends request (mkSt w [] None)) as H.
  by destruct (start _ _ _ _ _ _ _).
Qed.
End service_termination.

(** ** What a run touches *)

Section touches.
Context {W : Type} (E : Env W) (fuel : nat) (canonical : path -> option path)
  (ps : ApplicationPaths) (has_storage : bool) (P : Entry -> Prop).

(** All entries of [m] satisfy [P], and what it returns satisfies [Q]. *)
Definition gives {A} (m : M (W:=W) A) (Q : A -> Prop) : Prop :=
  forall c, wp m (λ o t _, Forall P t /\ match o with Ret a => Q a | _ => True end) c.

Lemma gives_only {A} (m : M (W:=W) A) : only P m -> gives m (λ _, True).
Proof.
  intros H c. eapply wp_mono; [apply H|]. cbn beta. intros o t c' [_ Ht]. split; [done|].
  by destruct o.
Qed.

Lemma gives_ret {A} (a : A) (Q : A -> Prop) : Q a -> gives (ret a) Q.
Proof. intros H c. by wp_step. Qed.

Lemma gives_throw {A} e (Q : A -> Prop) : gives (throw e) Q.
Proof. intros c. by wp_step. Qed.

Lemma gives_lift {A} (r : res A) (Q : A -> Prop) : (forall a, r = Ok a -> Q a) -> gives (lift r) Q.
Proof. intros H c. wp_step. split; [done|]. destruct r; simpl; auto. Qed.

Lemma gives_context {A} (Q : A -> Prop) (f : option RunExecutionContext -> M (W:=W) A) :
  (forall c, gives (f c) Q) -> gives (bind get_context f) Q.
Proof. intros H c. do 2 wp_step. eapply wp_mono; [apply H|]. done. Qed.

Lemma gives_put c (Q : unit -> Prop) : Q tt -> gives (put_context c) Q.
Proof. intros H c'. by wp_step. Qed.

Lemma gives_bind {A B} (m : M (W:=W) A) (f : A -> M B) Q R :
  gives m R -> (forall a, R a -> gives (f a) Q) -> gives (bind m f) Q.
Proof.
  intros Hm Hf c. wp_step. eapply wp_mono; [apply Hm|]. cbn beta.
  intros [a|e|] t c' [Ht H]; [|done|done]. eapply wp_mono; [by apply Hf|]. cbn beta.
  intros o t' c'' [Ht' H']. split; [by apply Forall_app|done].
Qed.

Lemma gives_seq {A B} (m : M (W:=W) A) (f : A -> M B) Q :
  gives m (λ _, True) -> (forall a, gives (f a) Q) -> gives (bind m f) Q.
Proof. intros Hm Hf. eapply gives_bind; [done|]. auto. Qed.

Lemma gives_try {A} (m : M (W:=W) A) (h : exn -> M A) Q :
  gives m Q -> (forall e, gives (h e) Q) -> gives (try_catch m h) Q.
Proof.
  intros Hm Hh c. wp_step. eapply wp_mono; [apply Hm|]. cbn beta.
  intros [a|e|] t c' [Ht H]; [done| |done]. eapply wp_mono; [apply Hh|]. cbn beta.
  intros o t' c'' [Ht' H']. split; [by apply Forall_app|done].
Qed.

Lemma gives_finally {A} (m : M (W:=W) A) cleanup (Q : A -> Prop) :
  gives m Q -> gives cleanup (λ _, True) -> gives (finally m cleanup) Q.
Proof.
  intros Hm Hc c. wp_step. eapply wp_mono; [apply Hm|]. cbn beta.
  intros [a|e|] t c' [Ht H]; [..|done]; (eapply wp_mono; [apply Hc|]); cbn beta;
    intros [u|e'|] t' c'' [Ht' _]; (split; [by apply Forall_app|done]).
Qed.

Lemma gives_weaken {A} (m : M (W:=W) A) (Q R : A -> Prop) :
  gives m R -> (forall a, R a -> Q a) -> gives m Q.
Proof.
  intros H HQ c. eapply wp_mono; [apply H|]. cbn beta. intros o t c' [Ht Ho].
  split; [done|]. destruct o; auto.
Qed.

(** Entries of the run's own bookkeeping: everything a run does besides executing
    its plan. *)
Definition is_service_entry (e : Entry) : Prop :=
  match e with
  | Did p _ =>
      match p with
      | OpenRoot _ | PinDirectory _ _ | RootExists _ _ | ReadMetadata _ | ScanDirectory _
      | MarkerRead _ _ | MountInspect | TargetPrepare _ _ | ClockNow | ClockLocalDate
      | GenerateRunId _ | ProfilesGet _ | TryAcquireLease _ | OpenEvents _ | OpenCheckpoints _
      | RegisterActiveRun _ | WatchCancellation _ | ClearCancelRequest _ | EmitEvent _
      | LastSuccessMatches _ _ _ | WriteSkipped _ _ _ _ _ | WriteSuccess _ _ _ _ _ _
      | MeasureSpace _ _ | WriteMeasurement _ _ => True
      | _ => False
      end
  | DidN _ _ => True
  end.

Hypothesis Hservice : forall e, is_service_entry e -> P e.

Lemma gives_call {A : Set} (p : Port A) : (forall r, is_service_entry (Did p r)) ->
  gives (call E p) (λ _, True).
Proof. intros H. apply gives_only, only_call. auto. Qed.

Lemma gives_ncall {A : Set} (p : NPort A) : gives (ncall E p) (λ _, True).
Proof. apply gives_only, only_ncall. intros a. by apply Hservice. Qed.
End touches.

(** Decompose along the program. *)
Ltac gives_step H :=
  lazymatch goal with
  | |- gives _ (bind get_context _) _ => apply gives_context; intros ?
  | |- gives _ (bind _ _) _ => apply gives_seq; [|intros ?]
  | |- gives _ (try_catch _ _) _ => apply gives_try; [|intros ?]
  | |- gives _ (finally _ _) _ => apply gives_finally
  | |- gives _ (ret _) _ => apply gives_ret; exact I
  | |- gives _ (throw _) _ => apply gives_throw
  | |- gives _ (put_context _) _ => apply gives_put; exact I
  | |- gives _ (lift _) _ => apply gives_lift; done
  | |- gives _ (call _ _) _ => apply (gives_call _ _ H); done
  | |- gives _ (ncall _ _) _ => apply (gives_ncall _ _ H)
  | |- gives _ (match ?x with _ => _ end) _ => destruct x
  end.

Section service_touches.
Context {W : Type} (E : Env W) (fuel : nat) (canonical : path -> option path)
  (ps : ApplicationPaths) (has_storage : bool) (P : Entry -> Prop).
Hypothesis Hservice : forall e, is_service_entry e -> P e.

Lemma close_run_gives : gives P (close_run E) (λ _, True).
Proof.
  unfold close_run, context_close, close_cancellation_watch, release_event_sink, close_active_run,
    clear_cancellation_request, collect_target_session_failure, close_target_session, release_lease.
  repeat gives_step Hservice.
Qed.

Lemma storage_gives profile : gives P (record_target_storage E has_storage profile) (λ _, True).
Proof. unfold record_target_storage, recorder_record. repeat gives_step Hservice. Qed.

Lemma close_target_gives pid rid n op : gives P (close_target_or_fail E pid rid n op) (λ _, True).
Proof. unfold close_target_or_fail, close_target_session, emit_run_failed. repeat gives_step Hservice. Qed.

Lemma cancelled_gives msg : gives P (throw_if_cancelled E msg) (λ _, True).
Proof. unfold throw_if_cancelled. repeat gives_step Hservice. Qed.

Lemma reading_service e : is_reading e -> is_service_entry e.
Proof. destruct e as [A p r|A p r]; by destruct p. Qed.

Lemma discover_gives profile : gives P (discover E profile ps) (discovered profile).
Proof.
  intros c. eapply wp_mono; [apply discover_reads|]. cbn beta. intros o t c' (_ & Ht & Ho).
  split; [|done]. eapply Forall_impl; [done|]. intros e He. by apply Hservice, reading_service.
Qed.

Lemma preflight_gives profile mode : gives P (preflight_run E canonical profile mode) (λ _, True).
Proof.
  unfold preflight_run, abandon_preflight. repeat first [apply cancelled_gives | gives_step Hservice].
Qed.

Lemma builder_gives profile found identity :
  discovered profile found ->
  gives P (plan_builder_build E profile found (ri_run_id identity) (ri_started_at identity))
    (planned profile identity).
Proof.
  intros Hd. unfold plan_builder_build. apply gives_seq; [apply cancelled_gives|]. intros _.
  eapply gives_bind; [apply (gives_lift _ _ (planned profile identity)); intros; by exists found|].
  intros plan Hplan. apply gives_seq; [apply cancelled_gives|]. intros _. by apply gives_ret.
Qed.

Lemma prepare_gives profile identity :
  gives P (prepare_target_and_plan E canonical ps profile identity) (planned profile identity).
Proof.
  unfold prepare_target_and_plan, attach_target.
  apply gives_seq; [apply preflight_gives|]. intros mount.
  apply gives_seq; [repeat gives_step Hservice|]. intros _.
  apply gives_seq; [apply cancelled_gives|]. intros _.
  eapply gives_bind; [apply discover_gives|]. intros found Hd.
  eapply gives_bind; [by apply builder_gives|]. intros plan Hplan.
  apply gives_seq; [apply cancelled_gives|]. intros _. by apply gives_ret.
Qed.

Lemma validation_gives request profile identity op plan :
  gives P (finish_validation_if_requested E has_storage request profile identity op plan)
    (λ r, match r with None => validate_only request = false | Some _ => True end).
Proof.
  unfold finish_validation_if_requested. destruct (validate_only request); cbn [negb];
    [|by apply gives_ret].
  unfold check_cleanup_cancelled.
  apply gives_seq; [apply storage_gives|]. intros _. apply gives_seq; [apply close_target_gives|].
  intros [r|]; [apply gives_seq; [apply close_run_gives|intros _; by apply gives_ret]|].
  apply gives_seq; [apply cancelled_gives|]. intros _.
  apply gives_seq; [by apply gives_call|]. intros _. by apply gives_ret.
Qed.

Lemma skip_gives request loaded identity today op plan :
  gives P (skip_if_daily_limit_reached E has_storage request loaded identity today op plan) (λ _, True).
Proof.
  unfold skip_if_daily_limit_reached, daily_limit_reached, check_cleanup_cancelled. cbv zeta.
  repeat first [apply storage_gives | apply close_target_gives | apply close_run_gives
    | apply cancelled_gives | gives_step Hservice].
Qed.

(** Everything but executing the plan is the run's own bookkeeping. *)
Lemma start_loaded_gives request identity op loaded :
  (validate_only request = false -> forall plan, planned (loaded_profile loaded) identity plan ->
     gives P (factory_execute E fuel plan) (λ _, True)) ->
  gives P (start_loaded_profile E fuel canonical ps has_storage request identity op loaded) (λ _, True).
Proof.
  intros Hexec. unfold start_loaded_profile. apply gives_finally.
  2: { unfold leave_run. repeat first [apply close_run_gives | gives_step Hservice]. }
  apply gives_try.
  2: { intros e. unfold catch_run, emit_run_failed, abandon_run.
       repeat first [apply storage_gives | apply close_run_gives | gives_step Hservice]. }
  unfold run_loaded_profile. cbv zeta.
  apply gives_seq; [unfold acquire_run_lease, emit_run_failed; repeat gives_step Hservice|].
  intros [r|]; [by apply gives_ret|].
  apply gives_seq; [unfold create_context; repeat gives_step Hservice|]. intros cx.
  do 2 (apply gives_seq; [gives_step Hservice|]; intros _).
  eapply gives_bind; [apply prepare_gives|]. intros plan Hplan.
  eapply gives_bind; [apply validation_gives|]. intros [r|] Hv; [by apply gives_ret|].
  apply gives_seq; [gives_step Hservice|]. intros today.
  apply gives_seq; [apply skip_gives|]. intros [r|]; [by apply gives_ret|].
  unfold execute_plan, record_success_ledger_warning, record_terminal_status_warning,
    check_cleanup_cancelled. cbv zeta.
  apply gives_seq; [by apply Hexec|]. intros execution.
  repeat first [apply storage_gives | apply close_target_gives | apply close_run_gives
    | apply cancelled_gives | gives_step Hservice].
Qed.
End service_touches.

(** ** Deletions, validation, planning and cancellation *)

(** The entry destroys nothing but what belongs to an enabled source of the profile: by name a
    snapshot of the source, by place what lies in its incoming directory. *)
Definition destroys_owned (profile : Profile) (run_id : RunId) (e : Entry) : Prop :=
  match entry_deletes e with Some p => owned profile p | None => True end /\
  match entry_removes e with Some r => removed_incoming profile run_id r | None => True end.

Section service_properties.
Context {W : Type} (E : Env W) (fuel : nat) (canonical : path -> option path)
  (ps : ApplicationPaths) (has_storage : bool).

Lemma service_destroys_nothing profile run_id e :
  is_service_entry e -> destroys_owned profile run_id e.
Proof. destruct e as [A p r|A p r]; by destruct p. Qed.

Lemma factory_destroys_owned profile identity plan :
  planned profile identity plan ->
  gives (destroys_owned profile (ri_run_id identity)) (factory_execute E fuel plan) (λ _, True).
Proof.
  intros (found & Hd & Hb) c.
  eapply wp_mono; [apply wp_and; [apply factory_deletions|apply factory_removals]|]. cbn beta.
  intros o t _ [H Hrem]. split; [|by destruct o]. apply Forall_forall. intros e He. split.
  - destruct (entry_deletes e) as [p|] eqn:Ep; [|done].
    apply list_elem_of_split in He as (pre & post & ->).
    destruct (H pre e post p eq_refl Ep) as (source & bacts & a & aacts & _ & _ & _ & Hs & Ha & Hp & _).
    eapply plan_deletes_owned; [done|done|done| |done]. rewrite Ha. set_solver.
  - destruct (entry_removes e) as [r|] eqn:Er; [|done].
    destruct (Hrem e r He Er) as (source & a & Hs & Ha & Hr). by eapply plan_removes_incoming.
Qed.

(** C2.  Whatever the ports answer, a run destroys only what belongs to an enabled source of
    its profile.  A subvolume it deletes by path is named as a snapshot of the source in its
    local or remote snapshot directory, or lies within one of them under a name that begins
    with the source's identifier.  A directory it clears, together with the subvolumes in it,
    is the incoming directory of the source; and a tree it removes is the directory of this
    very run in that incoming directory, or in it the received snapshot, named as a snapshot of
    the source.  The incoming directory lies within the incoming root of the profile. *)
Theorem run_deletes_only_own_snapshots request identity op loaded w :
  Forall (destroys_owned (loaded_profile loaded) (ri_run_id identity))
    (run_program (start_loaded_profile E fuel canonical ps has_storage request identity op loaded) w).2.
Proof.
  assert (H : gives (destroys_owned (loaded_profile loaded) (ri_run_id identity))
    (start_loaded_profile E fuel canonical ps has_storage request identity op loaded) (λ _, True)).
  { apply start_loaded_gives; [apply service_destroys_nothing|].
    intros _ plan Hplan. by eapply factory_destroys_owned. }
  by destruct (wp_run _ _ w (H None)) as (c & Ht & _).
Qed.

(** Starting a run that only validates touches nothing of the repository: it
    makes and deletes no snapshot or directory, transfers nothing, runs no hook and
    writes no marker and no checkpoint. *)
Theorem validation_changes_nothing request w :
  validate_only request = true ->
  Forall is_service_entry (run_program (start E fuel canonical ps has_storage request) w).2.
Proof.
  intros Hv.
  assert (H : gives is_service_entry (start E fuel canonical ps has_storage request) (λ _, True)).
  { unfold start, fallback_events, session_events, emit_run_failed. cbv zeta.
    repeat (gives_step (λ (e : Entry) (H : is_service_entry e), H)).
    apply start_loaded_gives; [done|]. by rewrite Hv. }
  by destruct (wp_run _ _ w (H None)) as (c & Ht & _).
Qed.

(** What planning gives: the lease, once acquired, is released last and exactly
    once; a plan that is returned was built from the inventories found, and the
    target was closed without an error before that. *)
Definition plan_post (o : outcome BackupRunPlan) (t : list Entry) : Prop :=
  match o with
  | Ret plan => exists profile identity t1, planned profile identity plan /\
      t = t1 ++ [DidN TargetClose None; DidN ReleaseLease tt] /\ marks t1 = [MAcquired]
  | Exn _ => marks t = [] \/ exists t1, t = t1 ++ [DidN ReleaseLease tt] /\ marks t1 = [MAcquired]
  | Diverged => False
  end.

(** Planning with the lease held. *)
Lemma plan_body_wp profile identity mode c :
  wp (let! _ := preflight_run E canonical profile mode in
      let! plan :=
        try_catch
          (let! snapshot := discover E profile ps in
           plan_builder_build E profile snapshot (ri_run_id identity) (ri_started_at identity))
          (rethrow_planning_failure_after_target_cleanup E) in
      close_standalone_target_or_throw E ;;
      ret plan)
    (λ o t _, Forall unmarked t /\
       match o with
       | Ret plan => planned profile identity plan /\ exists t1, t = t1 ++ [DidN TargetClose None]
       | _ => True
       end) c.
Proof.
  wp_step. eapply wp_mono; [apply preflight_only|]. cbn beta.
  intros [m|e|] t0 c0 [_ Ht0]; [|done|done]. wp_step.
  assert (H : gives unmarked (try_catch
      (let! snapshot := discover E profile ps in
       plan_builder_build E profile snapshot (ri_run_id identity) (ri_started_at identity))
      (rethrow_planning_failure_after_target_cleanup E)) (planned profile identity)).
  { apply gives_try.
    - eapply gives_bind.
      { intros c1. eapply wp_mono; [apply discover_reads|]. cbn beta. intros o t c' (_ & Ht & Ho).
        split; [|exact Ho]. eapply Forall_impl; [done|]. apply reading_unmarked. }
      intros found Hd. unfold plan_builder_build.
      apply gives_seq; [apply gives_only, cancelled_only|]. intros _.
      eapply gives_bind; [apply (gives_lift _ _ (planned profile identity)); intros; by exists found|].
      intros plan Hplan. apply gives_seq; [apply gives_only, cancelled_only|]. intros _.
      by apply gives_ret.
    - intros e c1. unfold rethrow_planning_failure_after_target_cleanup. wp_step. wp_step.
      destruct a; [case_match|]; wp_step; (split; [by repeat constructor|done]). }
  eapply wp_mono; [apply H|]. cbn beta. intros [plan|e|] t1 c1 [Ht1 Hplan].
  2,3: split; [by apply Forall_app|done].
  unfold close_standalone_target_or_throw. do 3 wp_step. destruct a as [err|].
  - wp_step. split; [|done]. rewrite !Forall_app. split; [done|]. split; [done|]. by repeat constructor.
  - do 2 wp_step. split.
    + rewrite !Forall_app. split; [done|]. split; [done|]. by repeat constructor.
    + split; [done|]. exists (t0 ++ t1). by rewrite !app_nil_r, <- app_assoc.
Qed.

Lemma service_plan_ends request : ends (service_plan E canonical ps request).
Proof.
  unfold service_plan, preflight_run, abandon_preflight, plan_builder_build,
    rethrow_planning_failure_after_target_cleanup, close_standalone_target_or_throw.
  repeat first [apply cancelled_ends | apply discover_ends | ends_step].
Qed.

Lemma service_plan_wp request c :
  wp (service_plan E canonical ps request) (λ o t _, o <> Diverged -> plan_post o t) c.
Proof.
  unfold service_plan. do 2 wp_step. destruct r as [time|e]; cbn [of_res]; [|by left].
  do 2 wp_step. destruct r as [rid|e]; cbn [of_res]; [|by left].
  do 2 wp_step. destruct r as [loaded|e]; cbn [of_res]; [|by left].
  do 2 wp_step. destruct r as [[|code msg]|e]; cbn [of_res]; [|wp_step; by left|by left].
  wp_step. eapply wp_mono.
  { apply (plan_body_wp (loaded_profile loaded) (mkRunIdentity rid time)). }
  cbn beta. intros [plan|e|] t c' [Ht H]; [| |done].
  - wp_step. destruct a. destruct H as [Hplan [t1 ->]]. cbn [app].
    exists (loaded_profile loaded), (mkRunIdentity rid time).
    match goal with |- context [?a :: ?b :: ?c :: ?d :: (t1 ++ _) ++ _] =>
      exists ([a; b; c; d] ++ t1) end.
    split; [done|]. split; [by rewrite <- !app_assoc|].
    apply Forall_app in Ht as [Ht _]. rewrite marks_app, (unmarked_marks t1) by done. done.
  - wp_step. destruct a. right. cbn [app].
    match goal with |- context [?a :: ?b :: ?c :: ?d :: t ++ _] => exists ([a; b; c; d] ++ t) end.
    split; [done|]. rewrite marks_app, (unmarked_marks t) by done. done.
Qed.

(** Planning returns a plan built from what discovery found, with the target
    closed again, or throws; in both cases a lease it acquired is released as the
    last step. *)
Theorem service_plan_outcomes request w :
  let '(o, t) := run_program (service_plan E canonical ps request) w in plan_post o t.
Proof.
  destruct (wp_run _ _ w (service_plan_wp request None)) as (c & H).
  pose proof (service_plan_ends request (mkSt w [] None)) as He.
  unfold run_program in *. destruct (service_plan _ _ _ _ _) as [o s]. by apply H.
Qed.

(** How cancelling goes: a request is recorded only while another holder has the
    lease of the profile; a lease that was free is given back, and the answer is
    that there is no such run. *)
Definition cancel_post (request : CancellationRequest) (o : outcome CancelBackupResult)
    (t : list Entry) : Prop :=
  (exists r, t = [Did (ProfilesGet (creq_profile_id request)) r] /\ exists e, o = Exn e) \/
  (exists loaded,
     let profile := loaded_profile loaded in
     let pid := profile_id profile in
     let found := Did (ProfilesGet (creq_profile_id request)) (Ok loaded) in
     (exists e, o = Exn e /\ t = [found; Did (TryAcquireLease profile) (Throw e)]) \/
     (o = Ret (CancellationStaleRun pid (creq_run_id request)) /\
      t = [found; Did (TryAcquireLease profile) (Ok BackupRunLeaseAcquired); DidN ReleaseLease tt]) \/
     (exists code msg answer,
        t = [found; Did (TryAcquireLease profile) (Ok (BackupRunLeaseBusy code msg));
             Did (RequestCancel (mkCancellationRequest pid (creq_run_id request))) answer] /\
        match answer with
        | Throw e => o = Exn e
        | Ok Accepted => o = Ret (CancellationAccepted pid (creq_run_id request))
        | Ok StaleRun => o = Ret (CancellationStaleRun pid (creq_run_id request))
        | Ok RunMismatch => o = Ret (CancellationRunMismatch pid (creq_run_id request))
        end)).

(** Cancelling records a request only for a profile whose lease is held by
    a run, for the run named, and answers what the store answers; without an
    active run it takes and gives back the lease and reports a stale run. *)
Theorem cancel_outcomes request w :
  let '(o, t) := run_program (cancel E request) w in cancel_post request o t.
Proof.
  assert (H : wp (cancel E request) (λ o t _, cancel_post request o t) None).
  { unfold cancel, session_request_cancel. do 2 wp_step. destruct r as [loaded|e]; cbn [of_res].
    2: { left. eexists. split; [done|]. by exists e. }
    do 3 wp_step. destruct r as [[|code msg]|e]; cbn [of_res].
    - do 3 wp_step. destruct a. wp_step. right. exists loaded. right. by left.
    - wp_step. destruct r as [[]|e]; cbn [of_res]; [wp_step..|]; right; exists loaded; right; right;
        eexists code, msg, _; (split; [done|]); done.
    - right. exists loaded. left. by exists e. }
  destruct (wp_run _ _ w H) as (c & Hw). by destruct (run_program _ _).
Qed.
End service_properties.

(** ** A concrete run *)

Definition sample_request (validate : bool) : BackupRequest :=
  mkBackupRequest (@mkIdent KProfile "main" I) false validate.

Definition sample_paths : ApplicationPaths :=
  mkApplicationPaths "/var/lib/btrfs-backup" "/run/btrfs-backup" "/var/lib/btrfs-backup" "/mnt".

(** The run of the sample profile completes: all of its actions are executed, the
    success is recorded and the completion reported before anything is released. *)
Example sample_run_completes :
  let '(o, t) := run_program (start sample_env 2 (λ _, None) sample_paths true (sample_request false)) 0%nat in
  match o with
  | Ret (BackupExecutionCompleted plan n ws) =>
      ws = [] /\ n = Z.of_nat (length (all_actions (plan_sources plan))) /\ 0 < n
  | _ => False
  end /\
  marks t = [MAcquired; MSuccess;
             MTerminal (RunCompleted (@mkIdent KProfile "main" I) (@mkIdent KRun "run-2" I));
             MReleaseEvents; MReleaseLease].
Proof. vm_compute. repeat split. Qed.

Lemma validation_changes_nothing_witness :
  Forall is_service_entry
    (run_program (start sample_env 2 (λ _, None) sample_paths true (sample_request true)) 0%nat).2.
Proof.
  apply (validation_changes_nothing sample_env 2 (λ _, None) sample_paths true (sample_request true)).
  reflexivity.
Defined.

Lemma start_terminates_witness :
  (run_program (start sample_env 2 (λ _, None) sample_paths true (sample_request false)) 5%nat).1
  <> Diverged.
Proof. apply (start_terminates _ (λ w _, w) 1 2 _ _ _ sample_transfers_end). lia. Defined.
