(* ===== verification/RunStatus.v ===== *)
(** * The status of a run (src/state/model/RunStatus)

    The record the program publishes and keeps in its history, the names of its
    enumerations, and the validation every status passes before it is written. *)

From S2P Require Import Prelude Errors Identifiers RuntimeTime RunActions.

Open Scope Z_scope.

(** src/state/model/RunStatus.hpp:19-27 *)
Inductive RunState :=
| StateRunning | StateValidating | StateValidated | StateSucceeded | StateFailed
| StateCancelled | StateSkipped.

Global Instance RunState_eq_dec : EqDecision RunState.
Proof. solve_decision. Defined.

(** src/state/model/RunStatus.hpp:29-52 *)
Inductive RunPhase :=
| PhaseRunStarted | PhaseSourceStarted | PhaseRecoverPending | PhaseCleanupIncoming
| PhaseBeforeSnapshotHook | PhaseCreateSnapshot | PhaseAfterSnapshotHook | PhaseSendReceive
| PhaseSizing | PhaseTransferring | PhaseVerifyReceived | PhaseCommitReceived
| PhaseApplyRemoteRetention | PhaseApplyLocalRetention | PhaseCleanupSource
| PhaseSourceCompleted | PhaseSucceeded | PhaseFailed | PhaseCancelled | PhaseSkipped
| PhaseValidatingTarget | PhaseValidated.

Global Instance RunPhase_eq_dec : EqDecision RunPhase.
Proof. solve_decision. Defined.

(** src/state/model/RunStatus.hpp:54-58 *)
Inductive ProgressAccuracy := Indeterminate | Estimated | Exact.

Global Instance ProgressAccuracy_eq_dec : EqDecision ProgressAccuracy.
Proof. solve_decision. Defined.

(** src/state/model/RunStatus.hpp:60-63 *)
Inductive StatusOperationKind := StatusBackup | StatusTargetValidation.

Global Instance StatusOperationKind_eq_dec : EqDecision StatusOperationKind.
Proof. solve_decision. Defined.

(** [std::variant<bool, std::int64_t, std::uint64_t, std::string>].
    src/state/model/RunStatus.hpp:69-69 *)
Inductive RunDetailValue :=
| DetailBool (b : bool) | DetailInt (z : Z) | DetailUInt (z : Z) | DetailString (s : string).

Global Instance RunDetailValue_eq_dec : EqDecision RunDetailValue.
Proof. solve_decision. Defined.

(** A [std::map], in the order of its keys. src/state/model/RunStatus.hpp:70-70 *)
Definition RunDetails := list (string * RunDetailValue).

(** src/state/model/RunStatus.hpp:72-81 *)
Record RunProgress := mkRunProgress {
  processed_bytes : Z;
  estimated_bytes : option Z;
  run_processed_bytes : Z;
  speed_bps : Z;
  eta_seconds : option Z;
  source_percent : option Z;
  overall_percent : option Z;
  accuracy : ProgressAccuracy;
}.

(** src/state/model/RunStatus.hpp:83-88 *)
Record RunError := mkRunError {
  re_code : ErrorCode;
  re_message : string;
  re_recoverable : bool;
  re_suggested_action : string;
}.

(** src/state/model/RunStatus.hpp:90-110 *)
Record RunStatus := mkRunStatus {
  rs_profile_id : ProfileId;
  rs_profile_name : string;
  rs_run_id : RunId;
  rs_operation_kind : StatusOperationKind;
  rs_state : RunState;
  rs_phase : RunPhase;
  rs_message : string;
  rs_current_source_name : string;
  rs_target_name : string;
  rs_source_index : Z;
  rs_source_count : Z;
  rs_started_at : RuntimeTimePoint;
  rs_updated_at : RuntimeTimePoint;
  rs_finished_at : option RuntimeTimePoint;
  rs_error : option RunError;
  rs_details : RunDetails;
  rs_can_cancel : bool;
  rs_progress : RunProgress;
  rs_exit_code : Z;
}.

(** src/state/model/RunStatus.cpp:13-15 *)
Definition terminal (state : RunState) : bool :=
  negb (bool_decide (state = StateRunning)) && negb (bool_decide (state = StateValidating)).

(** src/state/model/RunStatus.cpp:17-35 *)
Definition terminal_phase_matches (state : RunState) (phase : RunPhase) : bool :=
  match state with
  | StateValidated => bool_decide (phase = PhaseValidated)
  | StateSucceeded => bool_decide (phase = PhaseSucceeded)
  | StateFailed =>
      negb (bool_decide (phase = PhaseValidated)) && negb (bool_decide (phase = PhaseSucceeded)) &&
      negb (bool_decide (phase = PhaseCancelled)) && negb (bool_decide (phase = PhaseSkipped))
  | StateCancelled => bool_decide (phase = PhaseCancelled)
  | StateSkipped => bool_decide (phase = PhaseSkipped)
  | StateRunning | StateValidating => true
  end.

(** src/state/model/RunStatus.cpp:37-40 *)
Definition is_terminal_phase (phase : RunPhase) : bool :=
  match phase with
  | PhaseValidated | PhaseSucceeded | PhaseFailed | PhaseCancelled | PhaseSkipped => true
  | _ => false
  end.

(** [optional.has_value()] *)
Definition has_value {A} (o : option A) : bool := match o with Some _ => true | None => false end.

(** [status.state == RunState::Failed || status.state == RunState::Cancelled] *)
Definition has_terminal_error (state : RunState) : bool :=
  match state with StateFailed | StateCancelled => true | _ => false end.

(** src/state/model/RunStatus.cpp:44-69 *)
Definition validate_run_status (status : RunStatus) : res unit :=
  let state := rs_state status in
  let phase := rs_phase status in
  let is_terminal := terminal state in
  let terminal_error := has_terminal_error state in
  require (Bool.eqb is_terminal (has_value (rs_finished_at status)))
    (ValidationError (if is_terminal then "terminal run status requires finishedAt"
                      else "active run status must not contain finishedAt")) ;;
  require (negb (is_terminal && negb (terminal_phase_matches state phase)))
    (ValidationError "terminal run state and phase do not match") ;;
  require (negb (bool_decide (state = StateValidating) &&
                 negb (bool_decide (phase = PhaseValidatingTarget))))
    (ValidationError "validating run status requires validatingTarget phase") ;;
  require (negb (bool_decide (state = StateRunning) && is_terminal_phase phase))
    (ValidationError "running run status must not use a terminal phase") ;;
  require (negb (terminal_error && negb (has_value (rs_error status))))
    (ValidationError "failed or cancelled run status requires an error") ;;
  require (negb (is_terminal && negb terminal_error && has_value (rs_error status)))
    (ValidationError "successful terminal run status must not contain an error") ;;
  require (negb (is_terminal && rs_can_cancel status))
    (ValidationError "terminal run status cannot be cancelled").

(** src/state/model/RunStatus.cpp:71-89 *)
Definition run_state_name (state : RunState) : string :=
  match state with
  | StateRunning => "running"
  | StateValidating => "validating"
  | StateValidated => "validated"
  | StateSucceeded => "succeeded"
  | StateFailed => "failed"
  | StateCancelled => "cancelled"
  | StateSkipped => "skipped"
  end.

(** src/state/model/RunStatus.cpp:91-138 *)
Definition run_phase_name (phase : RunPhase) : string :=
  match phase with
  | PhaseRunStarted => "run-started"
  | PhaseSourceStarted => "source-started"
  | PhaseRecoverPending => "recover-pending"
  | PhaseCleanupIncoming => "cleanup-incoming"
  | PhaseBeforeSnapshotHook => "before-snapshot-hook"
  | PhaseCreateSnapshot => "create-snapshot"
  | PhaseAfterSnapshotHook => "after-snapshot-hook"
  | PhaseSendReceive => "send-receive"
  | PhaseSizing => "sizing"
  | PhaseTransferring => "transferring"
  | PhaseVerifyReceived => "verify-received"
  | PhaseCommitReceived => "commit-received"
  | PhaseApplyRemoteRetention => "apply-remote-retention"
  | PhaseApplyLocalRetention => "apply-local-retention"
  | PhaseCleanupSource => "cleanup-source"
  | PhaseSourceCompleted => "source-completed"
  | PhaseSucceeded => "succeeded"
  | PhaseFailed => "failed"
  | PhaseCancelled => "cancelled"
  | PhaseSkipped => "skipped"
  | PhaseValidatingTarget => "validating-target"
  | PhaseValidated => "validated"
  end.

(** src/state/model/RunStatus.cpp:140-150 *)
Definition progress_accuracy_name (a : ProgressAccuracy) : string :=
  match a with
  | Indeterminate => "indeterminate"
  | Estimated => "estimated"
  | Exact => "exact"
  end.

(** ** Lemmas *)

(** What a valid status says, in one formula: an active status has neither an end
    nor a phase of the end; a terminal one has an end, the phase of its state, an
    error exactly when it failed or was cancelled, and cannot be cancelled. *)
Definition status_consistent (status : RunStatus) : Prop :=
  match rs_state status with
  | StateRunning => rs_finished_at status = None /\ is_terminal_phase (rs_phase status) = false
  | StateValidating => rs_finished_at status = None /\ rs_phase status = PhaseValidatingTarget
  | state =>
      is_Some (rs_finished_at status) /\
      terminal_phase_matches state (rs_phase status) = true /\
      (is_Some (rs_error status) <-> has_terminal_error state = true) /\
      rs_can_cancel status = false
  end.

Lemma validate_run_status_Ok status :
  validate_run_status status = Ok tt <-> status_consistent status.
Proof.
  unfold validate_run_status, status_consistent. generalize (rs_phase status). intros phase.
  destruct (rs_state status); cbn [terminal has_terminal_error bool_decide];
    [destruct (is_terminal_phase phase)
    |destruct (decide (phase = PhaseValidatingTarget)) as [->|Hp];
       [|rewrite (bool_decide_eq_false_2 (phase = PhaseValidatingTarget)) by done]
    |destruct (terminal_phase_matches _ phase)..];
    destruct (rs_finished_at status), (rs_error status), (rs_can_cancel status);
    cbn; rewrite ?is_Some_alt; (split; [done || intros _ | intros H; destruct_and?; done || naive_solver]);
    naive_solver.
Qed.

Lemma run_state_name_inj : Inj (=) (=) run_state_name.
Proof. by intros [] []. Qed.

Lemma run_phase_name_inj : Inj (=) (=) run_phase_name.
Proof. by intros [] []. Qed.
