(* ===== verification/StatusBuilder.v ===== *)
(** * Building the status of an event (src/state/projection/RunStatusBuilder)

    Every event of a run is turned into a complete status.  The percentage of a
    transfer is computed in [long double]; it is modelled by rounding to nearest,
    ties to even, with [p] bits of mantissa, so that what is proved holds for every
    format of at least 64 bits (the extended format of x86, quadruple precision). *)

From S2P Require Import Prelude Errors Identifiers RuntimeTime FsPath RunActions RunStatus.

Open Scope Z_scope.

(** ** [long double] *)

(** The integer nearest to [n / d], ties to even. *)
Definition round_half_even (n d : Z) : Z :=
  let q := n / d in
  let r := n mod d in
  if 2 * r <? d then q
  else if d <? 2 * r then q + 1
  else if Z.even q then q else q + 1.

(** A natural number, rounded to [p] bits. *)
Definition round_int (p x : Z) : Z :=
  if x <? 2 ^ p then x
  else let s := Z.log2 x + 1 - p in round_half_even x (2 ^ s) * 2 ^ s.

(** The integer [e] with [2 ^ e <= n / d < 2 ^ (e + 1)]. *)
Definition quotient_exponent (n d : Z) : Z :=
  let e := Z.log2 n - Z.log2 d in
  if n * 2 ^ Z.max 0 (- e) <? d * 2 ^ Z.max 0 e then e - 1 else e.

(** The integral part of [n / d] rounded to [p] bits. *)
Definition truncated_quotient (p n d : Z) : Z :=
  if n =? 0 then 0
  else
    let s := p - 1 - quotient_exponent n d in
    if 0 <=? s then round_half_even (n * 2 ^ s) d / 2 ^ s
    else round_half_even n (d * 2 ^ (- s)) * 2 ^ (- s).

(** ** Data *)

(** src/state/projection/RunStatusBuilder.hpp:18-26 *)
Record BackupRunStatusContext := mkStatusContext {
  status_root : path;
  history_root : path;
  ctx_profile_name : string;
  ctx_source_count : Z;
  ctx_started_at : RuntimeTimePoint;
  ctx_source_names : gmap SourceId string;
  ctx_target_name : string;
}.

(** src/state/projection/RunStatusBuilder.hpp:28-46 *)
Record RunEventData := mkEventData {
  ed_kind : BackupRunEventKind;
  ed_operation_kind : OperationKind;
  ed_profile_id : ProfileId;
  ed_run_id : RunId;
  ed_source_id : option SourceId;
  ed_source_index : Z;
  ed_action_kind : option BackupRunActionKind;
  ed_transfer_stage : BackupTransferStage;
  ed_bytes_transferred : Z;
  ed_bytes_produced : Z;
  ed_bytes_total_estimated : Z;
  ed_run_bytes_transferred : Z;
  ed_delta_bytes : Z;
  ed_elapsed_ms : Z;
  ed_speed_bps : Z;
  ed_error_code : option ErrorCode;
  ed_message : string;
}.

Global Instance BackupRunEventKind_eq_dec : EqDecision BackupRunEventKind.
Proof. solve_decision. Defined.

Global Instance OperationKind_eq_dec : EqDecision OperationKind.
Proof. solve_decision. Defined.

(** src/state/projection/RunStatusBuilder.cpp:17-58 *)
Definition event_projection_data (event : BackupRunEvent) : RunEventData :=
  let data :=
    mkEventData (backup_run_event_kind event) (backup_run_event_operation_kind event)
      (backup_run_event_profile_id event) (backup_run_event_run_id event)
      (backup_run_event_source_id event) (backup_run_event_source_index event)
      (backup_run_event_action_kind event) in
  match event with
  | TransferProgress _ _ _ _ progress =>
      data (tp_stage progress) (tp_bytes_transferred progress) (tp_bytes_produced progress)
        (tp_bytes_total_estimated progress) (tp_run_bytes_transferred progress)
        (tp_delta_bytes progress) (tp_elapsed_ms progress) (tp_speed_bps progress)
        None (tp_message progress)
  | ActionFailed _ _ _ _ _ code message => data Transferring 0 0 0 0 0 0 0 code message
  | RunFailed _ _ code message _ => data Transferring 0 0 0 0 0 0 0 (Some code) message
  | RunCancelled _ _ _ _ _ code message _ => data Transferring 0 0 0 0 0 0 0 code message
  | _ => data Transferring 0 0 0 0 0 0 0 None ""
  end.

(** src/state/projection/RunStatusBuilder.cpp:60-86 *)
Definition phase_for_action (kind : BackupRunActionKind) : RunPhase :=
  match kind with
  | RecoverPending => PhaseRecoverPending
  | CleanupIncoming => PhaseCleanupIncoming
  | BeforeSnapshotHook => PhaseBeforeSnapshotHook
  | CreateSnapshot => PhaseCreateSnapshot
  | AfterSnapshotHook => PhaseAfterSnapshotHook
  | SendReceive => PhaseSendReceive
  | VerifyReceived => PhaseVerifyReceived
  | CommitReceived => PhaseCommitReceived
  | ApplyRemoteRetention => PhaseApplyRemoteRetention
  | ApplyLocalRetention => PhaseApplyLocalRetention
  | CleanupSource => PhaseCleanupSource
  end.

(** src/state/projection/RunStatusBuilder.cpp:88-113 *)
Definition phase_for_event (kind : BackupRunEventKind) : RunPhase :=
  match kind with
  | KindRunStarted => PhaseRunStarted
  | KindSourceStarted => PhaseSourceStarted
  | KindTransferProgress => PhaseTransferring
  | KindSourceCompleted => PhaseSourceCompleted
  | KindTargetValidationCompleted => PhaseValidated
  | KindRunCompleted => PhaseSucceeded
  | KindRunFailed => PhaseFailed
  | KindRunCancelled => PhaseCancelled
  | KindActionStarted | KindActionCompleted | KindActionFailed | KindCheckpointWritten =>
      PhaseRunStarted
  end.

(** src/state/projection/RunStatusBuilder.cpp:115-117 *)
Definition failed_action_is_recoverable (kind : BackupRunActionKind) : bool :=
  match kind with BeforeSnapshotHook | AfterSnapshotHook => true | _ => false end.

(** src/state/projection/RunStatusBuilder.cpp:119-124 *)
Definition suggested_action_for_failed_action (kind : BackupRunActionKind) : string :=
  match kind with
  | BeforeSnapshotHook | AfterSnapshotHook => "inspect-hook-program"
  | _ => "inspect-run-history"
  end.

(** [std::clamp] *)
Definition clamp (x lo hi : Z) : Z := if x <? lo then lo else if hi <? x then hi else x.

(** src/state/projection/RunStatusBuilder.cpp:126-153 *)
Definition estimated_overall_progress (context : BackupRunStatusContext) (event : RunEventData)
    (source_progress : Z) : Z :=
  let count := ctx_source_count context in
  if count <=? 0 then -1
  else
    match ed_kind event with
    | KindRunCompleted | KindTargetValidationCompleted => 100
    | kind =>
        if bool_decide (kind = KindSourceCompleted) && (0 <? ed_source_index event) then
          clamp (ed_source_index event) 0 count * 100 / count
        else if bool_decide (kind = KindTransferProgress) && (source_progress <? 0) then -1
        else if has_value (ed_source_id event) && (0 <? ed_source_index event) then
          (clamp (ed_source_index event - 1) 0 count * 100 +
             (if 0 <=? source_progress then clamp source_progress 0 100 else 0)) / count
        else 0
    end.

(** src/state/projection/RunStatusBuilder.cpp:155-165 *)
Definition estimated_source_progress (p : Z) (event : RunEventData) : Z :=
  let transferred := ed_bytes_transferred event in
  let total := ed_bytes_total_estimated event in
  if total =? 0 then -1
  else if total <=? transferred then 100
  else truncated_quotient p (round_int p (transferred * 100)) total.

(** [std::numeric_limits<int>::max()] *)
Definition int_max : Z := 2 ^ 31 - 1.

(** src/state/projection/RunStatusBuilder.cpp:167-176 *)
Definition estimated_eta_seconds (event : RunEventData) : Z :=
  let transferred := ed_bytes_transferred event in
  let total := ed_bytes_total_estimated event in
  let speed := ed_speed_bps event in
  if (total =? 0) || (speed =? 0) || (total <=? transferred) then -1
  else
    let remaining := total - transferred in
    let seconds := remaining / speed + (if remaining mod speed =? 0 then 0 else 1) in
    if int_max <? seconds then int_max else seconds.

(** src/state/projection/RunStatusBuilder.cpp:178-186 *)
Definition progress_accuracy_from_name (name : string) : ProgressAccuracy :=
  if (name =? "exact")%string then Exact
  else if (name =? "estimated")%string then Estimated
  else Indeterminate.

(** src/state/persistence/BackupRunSerialization.cpp:80-106 *)
Definition backup_run_action_kind_name (kind : BackupRunActionKind) : string :=
  match kind with
  | RecoverPending => "recover-pending"
  | CleanupIncoming => "cleanup-incoming"
  | BeforeSnapshotHook => "before-snapshot-hook"
  | CreateSnapshot => "create-snapshot"
  | AfterSnapshotHook => "after-snapshot-hook"
  | SendReceive => "send-receive"
  | VerifyReceived => "verify-received"
  | CommitReceived => "commit-received"
  | ApplyRemoteRetention => "apply-remote-retention"
  | ApplyLocalRetention => "apply-local-retention"
  | CleanupSource => "cleanup-source"
  end.

(** src/state/projection/RunStatusBuilder.cpp:188-192 *)
Definition action_name_for_event (event : RunEventData) : string :=
  match ed_action_kind event with
  | Some kind => backup_run_action_kind_name kind
  | None => "unknown"
  end.

(** src/state/projection/RunStatusBuilder.cpp:194-231 *)
Definition message_for_event (event : RunEventData) : string :=
  let validation := bool_decide (ed_operation_kind event = TargetValidation) in
  if negb (ed_message event =? "")%string then ed_message event
  else
    match ed_kind event with
    | KindRunStarted => if validation then "Target validation started." else "Backup run started."
    | KindSourceStarted => "Backup source started."
    | KindActionStarted => "Backup action started: " +:+ action_name_for_event event +:+ "."
    | KindTransferProgress => "Backup transfer is running."
    | KindActionCompleted => "Backup action completed: " +:+ action_name_for_event event +:+ "."
    | KindActionFailed => "Backup action failed: " +:+ action_name_for_event event +:+ "."
    | KindCheckpointWritten => "Backup checkpoint written."
    | KindSourceCompleted => "Backup source completed."
    | KindTargetValidationCompleted => "Target validation completed."
    | KindRunCompleted => "Backup completed."
    | KindRunFailed => if validation then "Target validation failed." else "Backup failed."
    | KindRunCancelled => if validation then "Target validation cancelled." else "Backup cancelled."
    end.

(** ** The status *)

(** The phase before the state is known.
    src/state/projection/RunStatusBuilder.cpp:238-253 *)
Definition initial_phase (event : RunEventData) : RunPhase :=
  match ed_kind event, ed_action_kind event with
  | (KindActionStarted | KindActionCompleted | KindActionFailed | KindRunFailed
     | KindCheckpointWritten), Some kind => phase_for_action kind
  | KindTransferProgress, _ =>
      match ed_transfer_stage event with
      | Sizing => PhaseSizing
      | Transferring => PhaseTransferring
      end
  | kind, _ => phase_for_event kind
  end.

(** State, phase, exit code, and whether the run has finished.
    src/state/projection/RunStatusBuilder.cpp:255-276 *)
Definition state_for_event (event : RunEventData) : RunState * RunPhase * Z * bool :=
  let phase := initial_phase event in
  match ed_kind event with
  | KindRunStarted =>
      if bool_decide (ed_operation_kind event = TargetValidation)
      then (StateValidating, PhaseValidatingTarget, 0, false)
      else (StateRunning, phase, 0, false)
  | KindRunFailed => (StateFailed, phase, 1, true)
  | KindRunCompleted => (StateSucceeded, PhaseSucceeded, 0, true)
  | KindTargetValidationCompleted => (StateValidated, PhaseValidated, 0, true)
  | KindRunCancelled => (StateCancelled, PhaseCancelled, 130, true)
  | _ => (StateRunning, phase, 0, false)
  end.

(** [source_id.has_value() ? std::string(source_id->value()) : std::string{}] *)
Definition source_id_text (event : RunEventData) : string :=
  match ed_source_id event with Some s => id_value s | None => "" end.

(** [event.action_kind.has_value() ? backup_run_action_kind_name(...) : ""] *)
Definition action_text (event : RunEventData) : string :=
  match ed_action_kind event with Some kind => backup_run_action_kind_name kind | None => "" end.

(** src/state/projection/RunStatusBuilder.cpp:278-353 *)
Definition details_for_event (event : RunEventData) : RunDetails :=
  match ed_kind event with
  | KindTransferProgress =>
      [("bytesProduced", DetailUInt (ed_bytes_produced event));
       ("bytesTotalEstimated", DetailUInt (ed_bytes_total_estimated event));
       ("bytesTransferred", DetailUInt (ed_bytes_transferred event));
       ("deltaBytes", DetailUInt (ed_delta_bytes event));
       ("elapsedMs", DetailUInt (ed_elapsed_ms event));
       ("speedBps", DetailUInt (ed_speed_bps event))]
  | KindActionFailed | KindRunFailed | KindRunCancelled =>
      [("action", DetailString (action_text event));
       ("sourceId", DetailString (source_id_text event))]
  | _ => []
  end.

(** src/state/projection/RunStatusBuilder.cpp:316-363 *)
Definition error_for_event (event : RunEventData) : option RunError :=
  match ed_kind event with
  | KindRunFailed =>
      let code := default BackupFailed (ed_error_code event) in
      let '(recoverable, suggested) :=
        if bool_decide (code = RepositoryRecoveryRequired) then (true, "run-backup-recovery")
        else match ed_action_kind event with
             | Some kind =>
                 (failed_action_is_recoverable kind, suggested_action_for_failed_action kind)
             | None =>
                 (true,
                  if bool_decide (code = ConfigurationChanged) ||
                     bool_decide (code = RunnerProfileBusy) || bool_decide (code = RunnerTargetBusy)
                  then "run-backup-again" else "inspect-run-history")
             end in
      Some (mkRunError code (ed_message event) recoverable suggested)
  | KindRunCancelled =>
      Some (mkRunError RunnerCancelled (message_for_event event) true "run-backup-again")
  | _ => None
  end.

(** A number that stands for nothing when it is negative. *)
Definition optional_int (z : Z) : option Z := if z <? 0 then None else Some z.

(** src/state/projection/RunStatusBuilder.cpp:283-315 *)
Definition progress_for_event (p : Z) (context : BackupRunStatusContext) (event : RunEventData)
    (minimum_overall_progress : Z) : RunProgress :=
  let transfer := bool_decide (ed_kind event = KindTransferProgress) in
  let source_progress := if transfer then estimated_source_progress p event else -1 in
  let overall := estimated_overall_progress context event source_progress in
  let overall :=
    if (0 <=? overall) && (0 <=? minimum_overall_progress) &&
       negb (bool_decide (ed_kind event = KindRunStarted))
    then Z.max overall minimum_overall_progress else overall in
  let accuracy_name :=
    if transfer then if 0 <=? source_progress then "exact" else "indeterminate"
    else if 0 <=? overall then "estimated" else "indeterminate" in
  let bytes_processed := if transfer then ed_bytes_transferred event else 0 in
  let bytes_total := if transfer then ed_bytes_total_estimated event else 0 in
  let run_bytes := if transfer then ed_run_bytes_transferred event else 0 in
  let run_bytes := if run_bytes =? 0 then bytes_processed else run_bytes in
  let speed := if transfer then ed_speed_bps event else 0 in
  let eta := if transfer then estimated_eta_seconds event else -1 in
  mkRunProgress bytes_processed (if bytes_total =? 0 then None else Some bytes_total) run_bytes
    speed (optional_int eta) (optional_int source_progress) (optional_int overall)
    (progress_accuracy_from_name accuracy_name).

(** [now] is what [std::chrono::system_clock::now()] returned.
    src/state/projection/RunStatusBuilder.cpp:233-399 *)
Definition status_for_event (p : Z) (now : RuntimeTimePoint) (context : BackupRunStatusContext)
    (event : RunEventData) (minimum_overall_progress : Z) : RunStatus :=
  let '(state, phase, exit_code, finished) := state_for_event event in
  mkRunStatus (ed_profile_id event) (ctx_profile_name context) (ed_run_id event)
    (if bool_decide (ed_operation_kind event = TargetValidation) then StatusTargetValidation
     else StatusBackup)
    state phase (message_for_event event)
    (default (source_id_text event) (s ← ed_source_id event; ctx_source_names context !! s))
    (ctx_target_name context) (ed_source_index event) (ctx_source_count context)
    (ctx_started_at context) now (if finished then Some now else None)
    (error_for_event event) (details_for_event event)
    (bool_decide (state = StateRunning) || bool_decide (state = StateValidating))
    (progress_for_event p context event minimum_overall_progress) exit_code.

(** ** Rounding *)

Lemma round_half_even_error n d : 0 < d ->
  - d <= 2 * (round_half_even n d * d - n) <= d.
Proof.
  intros Hd. unfold round_half_even.
  pose proof (Z.div_mod n d ltac:(lia)) as Hn. pose proof (Z.mod_pos_bound n d Hd) as Hr.
  set (q := n / d) in *. set (r := n mod d) in *. clearbody q r. subst n.
  destruct (Z.ltb_spec (2 * r) d); [nia|]. destruct (Z.ltb_spec d (2 * r)); [nia|].
  destruct (Z.even q); nia.
Qed.

(** Rounding does not pass an integer. *)
Lemma round_half_even_le n d k : 0 < d -> n <= k * d -> round_half_even n d <= k.
Proof. intros Hd Hk. pose proof (round_half_even_error n d Hd). nia. Qed.

Lemma round_half_even_ge n d k : 0 < d -> k * d <= n -> k <= round_half_even n d.
Proof. intros Hd Hk. pose proof (round_half_even_error n d Hd). nia. Qed.

(** The relative error of rounding to [p] bits is at most [2 ^ - p]. *)
Lemma round_int_upper p x : 0 <= p -> 0 <= x -> round_int p x * 2 ^ p <= x * (2 ^ p + 1).
Proof.
  intros Hp Hx. unfold round_int. destruct (Z.ltb_spec x (2 ^ p)) as [H|H]; [nia|].
  pose proof (Z.pow_pos_nonneg 2 p ltac:(lia) Hp).
  destruct (Z.log2_spec x ltac:(lia)) as [Hl _].
  assert (Hpl : p <= Z.log2 x) by (rewrite <- (Z.log2_pow2 p Hp); by apply Z.log2_le_mono).
  set (s := Z.log2 x + 1 - p).
  pose proof (round_half_even_error x (2 ^ s) ltac:(apply Z.pow_pos_nonneg; lia)) as [_ He].
  assert (Hs : 2 ^ s * 2 ^ p = 2 * 2 ^ Z.log2 x)
    by (rewrite <- Z.pow_add_r, <- Z.pow_succ_r by lia; f_equal; lia).
  set (r := round_half_even x (2 ^ s)) in *. clearbody r.
  assert (2 * (r * 2 ^ s * 2 ^ p - x * 2 ^ p) <= 2 * 2 ^ Z.log2 x) by nia. lia.
Qed.

Lemma round_half_even_nonneg n d : 0 < d -> 0 <= n -> 0 <= round_half_even n d.
Proof. intros. apply round_half_even_ge; lia. Qed.

Lemma round_int_nonneg p x : 0 <= x -> 0 <= round_int p x.
Proof.
  intros Hx. unfold round_int. case_match; [done|]. cbv zeta.
  set (s := Z.log2 x + 1 - p). destruct (Z.le_gt_cases 0 s) as [Hs|Hs].
  - pose proof (Z.pow_pos_nonneg 2 s ltac:(lia) Hs).
    pose proof (round_half_even_nonneg x (2 ^ s) ltac:(lia) Hx). nia.
  - rewrite (Z.pow_neg_r 2 s) by lia. lia.
Qed.

(** A quotient below 128 has an exponent below 8. *)
Lemma quotient_exponent_le n d : 0 < n -> 0 < d -> n < 128 * d -> quotient_exponent n d <= 7.
Proof.
  intros Hn Hd H. unfold quotient_exponent.
  assert (Z.log2 n <= Z.log2 d + 7).
  { rewrite Z.add_comm, <- (Z.log2_mul_pow2 d 7) by lia. apply Z.log2_le_mono. lia. }
  case_match; lia.
Qed.

Section quotient.
Context (p n d : Z) (Hp : 64 <= p) (Hn : 0 <= n) (Hd : 0 < d).

Lemma truncated_quotient_floor : n < 128 * d -> n / d <= truncated_quotient p n d.
Proof using Hp Hn Hd.
  intros H. unfold truncated_quotient. destruct (Z.eqb_spec n 0) as [->|Hn0]; [by rewrite Z.div_0_l by lia|].
  pose proof (quotient_exponent_le n d ltac:(lia) Hd H).
  set (s := p - 1 - quotient_exponent n d). destruct (Z.leb_spec 0 s); [|lia].
  pose proof (Z.pow_pos_nonneg 2 s ltac:(lia) ltac:(lia)).
  apply Z.div_le_lower_bound; [lia|]. apply round_half_even_ge; [lia|].
  pose proof (Z.mul_div_le n d Hd). nia.
Qed.

Lemma truncated_quotient_le k : n <= k * d -> k <= 127 -> truncated_quotient p n d <= k.
Proof using Hp Hn Hd.
  intros H Hk. unfold truncated_quotient. destruct (Z.eqb_spec n 0) as [->|Hn0]; [nia|].
  pose proof (quotient_exponent_le n d ltac:(lia) Hd ltac:(nia)).
  set (s := p - 1 - quotient_exponent n d). destruct (Z.leb_spec 0 s); [|lia].
  pose proof (Z.pow_pos_nonneg 2 s ltac:(lia) ltac:(lia)).
  apply Z.div_le_upper_bound; [lia|]. apply round_half_even_le; nia.
Qed.

(** With a denominator below [2 ^ 57] the truncation is exact. *)
Lemma truncated_quotient_exact : n < 127 * d -> d < 2 ^ 57 -> truncated_quotient p n d = n / d.
Proof using Hp Hn Hd.
  intros H Hd57. apply Z.le_antisymm; [|apply truncated_quotient_floor; lia].
  unfold truncated_quotient. destruct (Z.eqb_spec n 0) as [->|Hn0]; [by rewrite Z.div_0_l by lia|].
  pose proof (quotient_exponent_le n d ltac:(lia) Hd ltac:(lia)).
  set (s := p - 1 - quotient_exponent n d). destruct (Z.leb_spec 0 s); [|lia].
  assert (2 ^ 56 <= 2 ^ s) by (apply Z.pow_le_mono_r; lia).
  apply Z.lt_succ_r, Z.div_lt_upper_bound; [lia|].
  pose proof (round_half_even_error (n * 2 ^ s) d Hd) as [_ He].
  pose proof (Z.mul_succ_div_gt n d Hd). set (r := round_half_even _ _) in *. clearbody r.
  set (P := 2 ^ s) in *. clearbody P. set (k := n / d) in *. clearbody k.
  assert (r * d < P * Z.succ k * d); [|nia].
  assert (n * P <= (d * Z.succ k - 1) * P) by nia. nia.
Qed.
End quotient.

(** ** What a status says *)

(** The byte counts of an event are 64-bit numbers, its speed too. *)
Definition event_in_range (event : RunEventData) : Prop :=
  0 <= ed_bytes_transferred event < 2 ^ 64 /\ 0 <= ed_bytes_total_estimated event < 2 ^ 64 /\
  0 <= ed_run_bytes_transferred event < 2 ^ 64 /\ 0 <= ed_speed_bps event < 2 ^ 64.

Definition percent (o : option Z) : Prop := forall z, o = Some z -> 0 <= z <= 100.

Lemma source_progress_range p event : 64 <= p -> event_in_range event ->
  -1 <= estimated_source_progress p event <= 100.
Proof.
  intros Hp (Hb & Ht & _ & _). unfold estimated_source_progress.
  destruct (Z.eqb_spec (ed_bytes_total_estimated event) 0); [lia|].
  destruct (Z.leb_spec (ed_bytes_total_estimated event) (ed_bytes_transferred event)); [lia|].
  set (b := ed_bytes_transferred event) in *. set (t := ed_bytes_total_estimated event) in *.
  clearbody b t. pose proof (round_int_nonneg p (b * 100) ltac:(lia)) as Hr.
  assert (Hr2 : round_int p (b * 100) < 100 * t).
  { pose proof (round_int_upper p (b * 100) ltac:(lia) ltac:(lia)) as Hu.
    assert (2 ^ 64 <= 2 ^ p) by (apply Z.pow_le_mono_r; lia).
    set (P := 2 ^ p) in *. clearbody P. set (r := round_int p (b * 100)) in *. clearbody r. nia. }
  pose proof (truncated_quotient_floor p _ t Hp Hr ltac:(lia) ltac:(lia)).
  pose proof (Z.div_pos _ t Hr ltac:(lia)).
  pose proof (truncated_quotient_le p _ t Hp Hr ltac:(lia) 100 ltac:(lia) ltac:(lia)). lia.
Qed.

Lemma source_progress_exact p event : 64 <= p ->
  0 <= ed_bytes_transferred event < ed_bytes_total_estimated event ->
  ed_bytes_total_estimated event < 2 ^ 57 ->
  estimated_source_progress p event =
    ed_bytes_transferred event * 100 / ed_bytes_total_estimated event.
Proof.
  intros Hp Hb Ht. unfold estimated_source_progress.
  destruct (Z.eqb_spec (ed_bytes_total_estimated event) 0); [lia|].
  destruct (Z.leb_spec (ed_bytes_total_estimated event) (ed_bytes_transferred event)); [lia|].
  assert (2 ^ 64 <= 2 ^ p) by (apply Z.pow_le_mono_r; lia).
  unfold round_int. destruct (Z.ltb_spec (ed_bytes_transferred event * 100) (2 ^ p)); [|lia].
  apply truncated_quotient_exact; lia.
Qed.

Lemma clamp_range x lo hi : lo <= hi -> lo <= clamp x lo hi <= hi.
Proof. intros. unfold clamp. repeat case_match; breflect; lia. Qed.

Lemma clamp_le x y lo hi : lo <= y -> x <= y -> clamp x lo hi <= y.
Proof. intros. unfold clamp. repeat case_match; breflect; lia. Qed.

Lemma overall_progress_range context event sp :
  ed_source_index event <= ctx_source_count context -> sp <= 100 ->
  -1 <= estimated_overall_progress context event sp <= 100.
Proof.
  intros Hi Hsp. unfold estimated_overall_progress. set (count := ctx_source_count context) in *.
  clearbody count. destruct (Z.leb_spec count 0); [lia|].
  assert (Hgen : -1 <=
    (if has_value (ed_source_id event) && (0 <? ed_source_index event) then
      (clamp (ed_source_index event - 1) 0 count * 100 +
         (if 0 <=? sp then clamp sp 0 100 else 0)) / count else 0) <= 100).
  { case_match; [|lia]. breflect.
    pose proof (clamp_range (ed_source_index event - 1) 0 count ltac:(lia)).
    pose proof (clamp_le (ed_source_index event - 1) (count - 1) 0 count ltac:(lia) ltac:(lia)).
    pose proof (clamp_range sp 0 100 ltac:(lia)).
    set (c := clamp (_ - 1) _ _) in *. clearbody c.
    set (a := if 0 <=? sp then _ else _).
    assert (0 <= a <= 100) by (subst a; case_match; lia). clearbody a. split.
    - apply Z.le_trans with 0; [lia|]. apply Z.div_pos; lia.
    - apply Z.div_le_upper_bound; lia. }
  destruct (ed_kind event); try exact Hgen; try lia.
  - change (bool_decide (KindTransferProgress = KindSourceCompleted)) with false.
    rewrite (bool_decide_eq_true_2 (KindTransferProgress = _)) by done. cbn [andb].
    destruct (sp <? 0); [lia|exact Hgen].
  - rewrite (bool_decide_eq_true_2 (KindSourceCompleted = _)) by done. cbn [andb].
    destruct (Z.ltb_spec 0 (ed_source_index event)); [|exact Hgen].
    pose proof (clamp_range (ed_source_index event) 0 count ltac:(lia)). split.
    + apply Z.le_trans with 0; [lia|]. apply Z.div_pos; lia.
    + apply Z.div_le_upper_bound; lia.
Qed.

Lemma eta_range event : event_in_range event -> -1 <= estimated_eta_seconds event <= int_max.
Proof.
  intros (Hb & Ht & _ & Hs). unfold estimated_eta_seconds, int_max. case_match; [lia|]. breflect.
  pose proof (Z.div_pos (ed_bytes_total_estimated event - ed_bytes_transferred event)
    (ed_speed_bps event) ltac:(lia) ltac:(lia)).
  repeat case_match; breflect; lia.
Qed.

Lemma optional_int_Some z y : optional_int z = Some y <-> z = y /\ 0 <= y.
Proof. unfold optional_int. case_match; breflect; naive_solver lia. Qed.

(** Percentages are percentages and the remaining time is a non-negative [int],
    provided the index of the source is not above the number of sources. *)
Lemma progress_bounds p context event m :
  64 <= p -> event_in_range event -> ed_source_index event <= ctx_source_count context ->
  m <= 100 ->
  let progress := progress_for_event p context event m in
  percent (source_percent progress) /\ percent (overall_percent progress) /\
  (forall eta, eta_seconds progress = Some eta -> 0 <= eta <= int_max).
Proof.
  intros Hp He Hi Hm progress. unfold progress, progress_for_event. cbn.
  set (sp := if bool_decide (ed_kind event = KindTransferProgress) then _ else -1).
  assert (Hsp : -1 <= sp <= 100).
  { subst sp. case_match; [by apply source_progress_range|lia]. }
  clearbody sp. pose proof (overall_progress_range context event sp Hi ltac:(lia)).
  split_and!; intros z [<- Hz]%optional_int_Some.
  - lia.
  - case_match; breflect; lia.
  - case_match; [|lia]. pose proof (eta_range event He). lia.
Qed.

(** The overall percentage is not below the minimum, except when a run starts. *)
Lemma overall_at_least p context event m o :
  ed_kind event <> KindRunStarted ->
  overall_percent (progress_for_event p context event m) = Some o -> m <= o.
Proof.
  intros Hk. unfold progress_for_event. cbn. rewrite optional_int_Some.
  rewrite (bool_decide_eq_false_2 _ Hk). cbn [negb]. rewrite andb_true_r.
  intros [<- Ho]. case_match; [lia|]. apply andb_false_iff in H as [H|H]; breflect; lia.
Qed.

Lemma phase_for_action_active kind : is_terminal_phase (phase_for_action kind) = false.
Proof. by destruct kind. Qed.

(** Every status that is built passes [validate_run_status]. *)
Lemma status_for_event_consistent p now context event m :
  status_consistent (status_for_event p now context event m).
Proof.
  unfold status_for_event, state_for_event, initial_phase, error_for_event, status_consistent.
  destruct (ed_kind event), (ed_action_kind event) as [k|]; cbn;
    try (destruct (bool_decide (ed_operation_kind event = TargetValidation)); done);
    try (destruct (ed_transfer_stage event); done);
    try done; try (split; [done|apply phase_for_action_active]);
    repeat match goal with |- context [let '(_, _) := ?x in _] => destruct x end; cbn;
    (split_and!; [by eexists|try done|split; [done|by eexists]|done]).
  by destruct k.
Qed.
