(* ===== verification/StatusDocument.v ===== *)
(** * The documents of a status (src/state/document/RunStatusDocumentCodec,
      src/state/persistence/StatusWriter)

    The public status and the private history as JSON documents: building them from
    a status, writing them and reading them back.  A JSON value is modelled as the
    data of nlohmann::ordered_json; the text of a value ([dump], [Json::parse]) is
    that library's and a parameter with its documented laws, [JsonText]. *)

From S2P Require Import Prelude Errors Identifiers RuntimeTime FsPath Json RunActions RunContext RunStatus.

Open Scope Z_scope.

(** ** Reading members *)

(** src/state/document/RunStatusDocumentCodec.cpp:31-46 *)
Definition parse_document `{JsonText} (content : string) (schema_version : Z) (kind : string)
    : res (list (string * Json)) :=
  match json_parse content with
  | Throw error =>
      Throw (if is_std_exception error
             then ValidationError ("invalid " +:+ kind +:+ " JSON: " +:+ exn_what error) else error)
  | Ok (JObject input) =>
      match json_find input "schemaVersion" with
      | Some (JInt z) | Some (JUInt z) =>
          if to_int32 z =? schema_version then Ok input
          else Throw (ValidationError (kind +:+ " JSON has unsupported schemaVersion"))
      | _ => Throw (ValidationError (kind +:+ " JSON has unsupported schemaVersion"))
      end
  | Ok _ => Throw (ValidationError (kind +:+ " JSON must be an object"))
  end.

(** src/state/document/RunStatusDocumentCodec.cpp:48-54 *)
Definition required (input : list (string * Json)) (field : string) : res Json :=
  match json_find input field with
  | Some value => Ok value
  | None => Throw (ValidationError ("status JSON is missing required field: " +:+ field))
  end.

(** [ValidationError("status JSON field " + field + problem)] *)
Definition field_error {A} (field problem : string) : res A :=
  Throw (ValidationError ("status JSON field " +:+ field +:+ problem)).

(** src/state/document/RunStatusDocumentCodec.cpp:56-62 *)
Definition required_string (input : list (string * Json)) (field : string) : res string :=
  value ← required input field;
  match value with JString s => Ok s | _ => field_error field " must be a string" end.

(** src/state/document/RunStatusDocumentCodec.cpp:64-70 *)
Definition required_bool (input : list (string * Json)) (field : string) : res bool :=
  value ← required input field;
  match value with JBool b => Ok b | _ => field_error field " must be a boolean" end.

(** [get<std::int64_t>] converts an unsigned number without a check.
    src/state/document/RunStatusDocumentCodec.cpp:72-82 *)
Definition required_integer (input : list (string * Json)) (field : string) : res Z :=
  value ← required input field;
  match value with
  | JInt z => Ok z
  | JUInt z => Ok (wrap64 z)
  | _ => field_error field " must be an integer"
  end.

(** src/state/document/RunStatusDocumentCodec.cpp:84-97 *)
Definition required_non_negative (input : list (string * Json)) (field : string) : res Z :=
  raw ← required input field;
  match raw with
  | JUInt z => Ok z
  | JInt z => if z <? 0 then field_error field " must be non-negative" else Ok z
  | _ => field_error field " must be an integer"
  end.

(** src/state/document/RunStatusDocumentCodec.cpp:99-115 *)
Definition required_optional_non_negative (input : list (string * Json)) (field : string)
    : res (option Z) :=
  raw ← required input field;
  match raw with
  | JUInt z => Ok (Some z)
  | JInt z =>
      if z =? -1 then Ok None
      else if z <? 0 then field_error field " must be -1 or non-negative" else Ok (Some z)
  | _ => field_error field " must be an integer"
  end.

(** src/state/document/RunStatusDocumentCodec.cpp:117-126 *)
Definition required_percentage (input : list (string * Json)) (field : string) : res (option Z) :=
  value ← required_integer input field;
  if value =? -1 then Ok None
  else if (value <? 0) || (100 <? value) then field_error field " must be -1 or between 0 and 100"
  else Ok (Some value).

(** src/state/document/RunStatusDocumentCodec.cpp:128-134 *)
Definition required_int (input : list (string * Json)) (field : string) : res Z :=
  value ← required_integer input field;
  if (value <? - 2 ^ 31) || (2 ^ 31 - 1 <? value) then field_error field " is out of range"
  else Ok value.

(** src/state/document/RunStatusDocumentCodec.cpp:136-144 *)
Definition parse_accuracy (value : string) : res ProgressAccuracy :=
  if (value =? "indeterminate")%string then Ok Indeterminate
  else if (value =? "estimated")%string then Ok Estimated
  else if (value =? "exact")%string then Ok Exact
  else Throw (ValidationError "status JSON field progressAccuracy has an unsupported value").

(** ** The public document *)

(** src/state/document/RunStatusDocumentCodec.hpp:18-31 *)
Inductive PublicRunState :=
| PublicIdle | PublicStarting | PublicRunning | PublicValidating | PublicValidated
| PublicSkipped | PublicSucceeded | PublicFailed | PublicCancelled | PublicExited
| PublicUnavailable | PublicUnknown.

Global Instance PublicRunState_eq_dec : EqDecision PublicRunState.
Proof. solve_decision. Defined.

(** src/state/document/RunStatusDocumentCodec.hpp:33-40 *)
Inductive PublicActivity :=
| ActivityPreparing | ActivitySizing | ActivityTransferring | ActivityFinalizing
| ActivityIdle | ActivityUnknown.

Global Instance PublicActivity_eq_dec : EqDecision PublicActivity.
Proof. solve_decision. Defined.

(** src/state/document/RunStatusDocumentCodec.hpp:42-46 *)
Inductive PublicOperationKind := OperationBackup | OperationTargetValidation | OperationUnknown.

Global Instance PublicOperationKind_eq_dec : EqDecision PublicOperationKind.
Proof. solve_decision. Defined.

(** src/state/document/RunStatusDocumentCodec.hpp:48-52 *)
Inductive PublicErrorCode := ErrorNone | ErrorFailed | ErrorCancelled.

Global Instance PublicErrorCode_eq_dec : EqDecision PublicErrorCode.
Proof. solve_decision. Defined.

(** src/state/document/RunStatusDocumentCodec.hpp:54-57 *)
Record ExtensibleValue := extensible { ev_value : string; ev_known : bool }.

(** src/state/document/RunStatusDocumentCodec.hpp:59-67 *)
Record DocumentProgress := mkDocumentProgress {
  dp_bytes_processed : Z;
  dp_bytes_total_estimated : option Z;
  dp_speed_bps : Z;
  dp_eta_seconds : option Z;
  dp_source_percent : option Z;
  dp_overall_percent : option Z;
  dp_accuracy : ProgressAccuracy;
}.

(** src/state/document/RunStatusDocumentCodec.hpp:69-83 *)
Record PublicRunStatusV1 := mkPublicStatus {
  pub_run_id : option RunId;
  pub_operation_kind : PublicOperationKind;
  pub_state : PublicRunState;
  pub_phase : ExtensibleValue;
  pub_activity : PublicActivity;
  pub_can_cancel : bool;
  pub_error_code : PublicErrorCode;
  pub_source_name : string;
  pub_target_name : string;
  pub_progress : DocumentProgress;
  pub_unknown_state : string;
  pub_unknown_activity : string;
  pub_unknown_operation_kind : string;
}.

(** src/state/document/RunStatusDocumentCodec.cpp:146-170 *)
Definition parse_state (value : string) : PublicRunState :=
  if (value =? "idle")%string then PublicIdle
  else if (value =? "starting")%string then PublicStarting
  else if (value =? "running")%string then PublicRunning
  else if (value =? "validating")%string then PublicValidating
  else if (value =? "validated")%string then PublicValidated
  else if (value =? "skipped")%string then PublicSkipped
  else if (value =? "succeeded")%string then PublicSucceeded
  else if (value =? "failed")%string then PublicFailed
  else if (value =? "cancelled")%string then PublicCancelled
  else if (value =? "exited")%string then PublicExited
  else if (value =? "unavailable")%string then PublicUnavailable
  else PublicUnknown.

(** src/state/document/RunStatusDocumentCodec.cpp:172-184 *)
Definition parse_activity (value : string) : PublicActivity :=
  if (value =? "preparing")%string then ActivityPreparing
  else if (value =? "sizing")%string then ActivitySizing
  else if (value =? "transferring")%string then ActivityTransferring
  else if (value =? "finalizing")%string then ActivityFinalizing
  else if (value =? "idle")%string then ActivityIdle
  else ActivityUnknown.

(** src/state/document/RunStatusDocumentCodec.cpp:186-192 *)
Definition parse_operation_kind (value : string) : PublicOperationKind :=
  if (value =? "backup")%string then OperationBackup
  else if (value =? "target-validation")%string then OperationTargetValidation
  else OperationUnknown.

(** src/state/document/RunStatusDocumentCodec.cpp:194-202 *)
Definition parse_public_error (value : string) : res PublicErrorCode :=
  if (value =? "")%string then Ok ErrorNone
  else if (value =? "backup.failed")%string then Ok ErrorFailed
  else if (value =? "backup.cancelled")%string then Ok ErrorCancelled
  else Throw (ValidationError "status JSON field errorCode has an unsupported value").

(** src/state/document/RunStatusDocumentCodec.cpp:204-206 *)
Definition active (state : PublicRunState) : bool :=
  match state with PublicStarting | PublicRunning | PublicValidating => true | _ => false end.

(** src/state/document/RunStatusDocumentCodec.cpp:212-243 *)
Definition known_phase (value : string) : bool :=
  existsb (String.eqb value)
    ["idle"; "run-started"; "source-started"; "recover-pending"; "cleanup-incoming";
     "before-snapshot-hook"; "create-snapshot"; "after-snapshot-hook"; "send-receive"; "sizing";
     "transferring"; "verify-received"; "commit-received"; "apply-remote-retention";
     "apply-local-retention"; "cleanup-source"; "source-completed"; "succeeded"; "failed";
     "cancelled"; "skipped"; "validating-target"; "validated"; "completed"].

(** A member that is 0 when it is missing. *)
Definition non_negative_or_zero (input : list (string * Json)) (field : string) : res Z :=
  if has_value (json_find input field) then required_non_negative input field else Ok 0.

(** src/state/document/RunStatusDocumentCodec.cpp:245-262 *)
Definition parse_progress (input : list (string * Json)) : res DocumentProgress :=
  bytes_total_estimated ← non_negative_or_zero input "bytesTotalEstimated";
  bytes_processed ← non_negative_or_zero input "bytesProcessed";
  speed ← required_non_negative input "speedBps";
  eta ← required_optional_non_negative input "etaSeconds";
  source ← required_percentage input "sourceProgress";
  overall ← required_percentage input "overallProgress";
  name ← required_string input "progressAccuracy";
  accuracy ← parse_accuracy name;
  Ok (mkDocumentProgress bytes_processed
        (if bytes_total_estimated =? 0 then None else Some bytes_total_estimated)
        speed eta source overall accuracy).

(** [!value.has_value() || (0 <= *value && *value <= 100)] *)
Definition valid_percent (value : option Z) : bool :=
  match value with Some z => negb ((z <? 0) || (100 <? z)) | None => true end.

(** The public error of a state. src/state/document/RunStatusDocumentCodec.cpp:323-325 *)
Definition expected_error (state : PublicRunState) : PublicErrorCode :=
  match state with
  | PublicFailed => ErrorFailed
  | PublicCancelled => ErrorCancelled
  | _ => ErrorNone
  end.

(** src/state/document/RunStatusDocumentCodec.cpp:293-330 *)
Definition validate_public_semantics (status : PublicRunStatusV1) : res unit :=
  let state := pub_state status in
  let progress := pub_progress status in
  require (negb (ev_value (pub_phase status) =? "")%string)
    (ValidationError "status JSON phase must not be empty") ;;
  require (negb (bool_decide (state = PublicUnknown) && (pub_unknown_state status =? "")%string))
    (ValidationError "status JSON unknown state must retain its value") ;;
  require (negb (bool_decide (pub_activity status = ActivityUnknown) &&
                 (pub_unknown_activity status =? "")%string))
    (ValidationError "status JSON unknown activity must retain its value") ;;
  require (negb (bool_decide (pub_operation_kind status = OperationUnknown) &&
                 (pub_unknown_operation_kind status =? "")%string))
    (ValidationError "status JSON unknown operationKind must retain its value") ;;
  require (valid_percent (dp_source_percent progress))
    (ValidationError "status JSON field sourceProgress must be between 0 and 100") ;;
  require (valid_percent (dp_overall_percent progress))
    (ValidationError "status JSON field overallProgress must be between 0 and 100") ;;
  require (negb (pub_can_cancel status && negb (active state)))
    (ValidationError "status JSON canCancel is true for a non-active state") ;;
  require (negb (pub_can_cancel status && negb (has_value (pub_run_id status))))
    (ValidationError "status JSON canCancel requires runId") ;;
  require (negb (active state && negb (has_value (pub_run_id status))))
    (ValidationError "active status JSON requires runId") ;;
  require (bool_decide (state = PublicUnknown) ||
           bool_decide (pub_error_code status = expected_error state))
    (ValidationError "status JSON errorCode does not match state").

(** src/state/document/RunStatusDocumentCodec.cpp:336-364 *)
Definition public_run_state_name (status : PublicRunStatusV1) : string :=
  match pub_state status with
  | PublicIdle => "idle"
  | PublicStarting => "starting"
  | PublicRunning => "running"
  | PublicValidating => "validating"
  | PublicValidated => "validated"
  | PublicSkipped => "skipped"
  | PublicSucceeded => "succeeded"
  | PublicFailed => "failed"
  | PublicCancelled => "cancelled"
  | PublicExited => "exited"
  | PublicUnavailable => "unavailable"
  | PublicUnknown => pub_unknown_state status
  end.

(** src/state/document/RunStatusDocumentCodec.cpp:366-382 *)
Definition public_activity_name (status : PublicRunStatusV1) : string :=
  match pub_activity status with
  | ActivityPreparing => "preparing"
  | ActivitySizing => "sizing"
  | ActivityTransferring => "transferring"
  | ActivityFinalizing => "finalizing"
  | ActivityIdle => "idle"
  | ActivityUnknown => pub_unknown_activity status
  end.

(** src/state/document/RunStatusDocumentCodec.cpp:384-394 *)
Definition public_operation_kind_name (status : PublicRunStatusV1) : string :=
  match pub_operation_kind status with
  | OperationBackup => "backup"
  | OperationTargetValidation => "target-validation"
  | OperationUnknown => pub_unknown_operation_kind status
  end.

(** src/state/document/RunStatusDocumentCodec.cpp:396-406 *)
Definition public_error_code_name (code : PublicErrorCode) : string :=
  match code with
  | ErrorNone => ""
  | ErrorFailed => "backup.failed"
  | ErrorCancelled => "backup.cancelled"
  end.

(** The member [run_id]. src/state/document/RunStatusDocumentCodec.cpp:416-416 *)
Definition optional_run_id (value : string) : res (option RunId) :=
  if (value =? "")%string then Ok None else id ← make_ident KRun value; Ok (Some id).

(** The object read by [parse_public].
    src/state/document/RunStatusDocumentCodec.cpp:408-434 *)
Definition parse_public_object (input : list (string * Json)) : res PublicRunStatusV1 :=
  state_value ← required_string input "state";
  phase_value ← required_string input "phase";
  activity_value ← required_string input "activity";
  operation_kind_value ← required_string input "operationKind";
  run_id_value ← required_string input "runId";
  run_id ← optional_run_id run_id_value;
  can_cancel ← required_bool input "canCancel";
  error_value ← required_string input "errorCode";
  error_code ← parse_public_error error_value;
  source_name ← required_string input "sourceName";
  target_name ← required_string input "targetName";
  progress ← parse_progress input;
  let result :=
    mkPublicStatus run_id (parse_operation_kind operation_kind_value) (parse_state state_value)
      (extensible phase_value (known_phase phase_value)) (parse_activity activity_value)
      can_cancel error_code source_name target_name progress
      (if bool_decide (parse_state state_value = PublicUnknown) then state_value else "")
      (if bool_decide (parse_activity activity_value = ActivityUnknown) then activity_value else "")
      (if bool_decide (parse_operation_kind operation_kind_value = OperationUnknown)
       then operation_kind_value else "") in
  validate_public_semantics result ;;
  Ok result.

(** src/state/document/RunStatusDocumentCodec.cpp:408-434 *)
Definition parse_public `{JsonText} (content : string) : res PublicRunStatusV1 :=
  input ← parse_document content 1 "public status";
  parse_public_object input.

(** src/state/document/RunStatusDocumentCodec.cpp:436-442 *)
Definition try_parse_public `{JsonText} (content : string) : option PublicRunStatusV1 :=
  match parse_public content with Ok status => Some status | Throw _ => None end.

(** An unsigned number, or -1 if there is none. *)
Definition json_eta (eta : option Z) : Json :=
  match eta with Some z => JUInt z | None => JInt (-1) end.

(** The object written by [serialize_public].
    src/state/document/RunStatusDocumentCodec.cpp:482-500 *)
Definition public_object (status : PublicRunStatusV1) : list (string * Json) :=
  let progress := pub_progress status in
  [("schemaVersion", JInt 1);
   ("runId", JString (match pub_run_id status with Some r => id_value r | None => "" end));
   ("operationKind", JString (public_operation_kind_name status));
   ("state", JString (public_run_state_name status));
   ("phase", JString (ev_value (pub_phase status)));
   ("activity", JString (public_activity_name status));
   ("canCancel", JBool (pub_can_cancel status));
   ("errorCode", JString (public_error_code_name (pub_error_code status)));
   ("sourceName", JString (pub_source_name status));
   ("targetName", JString (pub_target_name status));
   ("bytesProcessed", JUInt (dp_bytes_processed progress));
   ("bytesTotalEstimated", JUInt (default 0 (dp_bytes_total_estimated progress)));
   ("speedBps", JUInt (dp_speed_bps progress));
   ("etaSeconds", json_eta (dp_eta_seconds progress));
   ("sourceProgress", JInt (default (-1) (dp_source_percent progress)));
   ("overallProgress", JInt (default (-1) (dp_overall_percent progress)));
   ("progressAccuracy", JString (progress_accuracy_name (dp_accuracy progress)))].

(** src/state/document/RunStatusDocumentCodec.cpp:480-502 *)
Definition serialize_public `{JsonText} (status : PublicRunStatusV1) : res string :=
  validate_public_semantics status ;;
  dump_json (JObject (public_object status)).

(** ** The private document *)

(** src/state/document/RunStatusDocumentCodec.hpp:85-110 *)
Record PrivateRunHistoryV1 := mkPrivateHistory {
  prv_profile_id : ProfileId;
  prv_profile_name : string;
  prv_run_id : RunId;
  prv_state : ExtensibleValue;
  prv_phase : ExtensibleValue;
  prv_message : string;
  prv_current_source_name : string;
  prv_target_name : string;
  prv_source_index : Z;
  prv_source_count : Z;
  prv_started_at : string;
  prv_updated_at : string;
  prv_finished_at : string;
  prv_error_code : string;
  prv_error_message : string;
  prv_details : RunDetails;
  prv_recoverable : bool;
  prv_suggested_action : string;
  prv_can_cancel : bool;
  prv_bytes_processed : Z;
  prv_bytes_total_estimated : Z;
  prv_run_bytes_processed : Z;
  prv_progress : DocumentProgress;
  prv_exit_code : Z;
}.

(** A detail as a JSON value. *)
Definition detail_json (value : RunDetailValue) : Json :=
  match value with
  | DetailBool b => JBool b
  | DetailInt z => JInt z
  | DetailUInt z => JUInt z
  | DetailString s => JString s
  end.

(** src/state/document/RunStatusDocumentCodec.cpp:264-270 *)
Definition details_json (details : RunDetails) : Json :=
  JObject (fold_left (λ result d, json_set result d.1 (detail_json d.2)) details []).

(** [map[name] = value], on a [std::map] in the order of its keys. *)
Fixpoint map_set {A} (m : list (string * A)) (name : string) (value : A) : list (string * A) :=
  match m with
  | [] => [(name, value)]
  | (k, v) :: m =>
      if str_less name k then (name, value) :: (k, v) :: m
      else if (name =? k)%string then (k, value) :: m
      else (k, v) :: map_set m name value
  end.

(** The branches of the loop body.
    src/state/document/RunStatusDocumentCodec.cpp:279-288 *)
Definition parse_detail (value : Json) : res RunDetailValue :=
  match value with
  | JBool b => Ok (DetailBool b)
  | JUInt z => Ok (DetailUInt z)
  | JInt z => Ok (DetailInt z)
  | JString s => Ok (DetailString s)
  | _ => Throw (ValidationError "status JSON detail values must be booleans, integers, or strings")
  end.

(** The loop over the members. src/state/document/RunStatusDocumentCodec.cpp:277-290 *)
Fixpoint parse_detail_members (members : list (string * Json)) (result : RunDetails)
    : res RunDetails :=
  match members with
  | [] => Ok result
  | (name, value) :: members =>
      detail ← parse_detail value;
      parse_detail_members members (map_set result name detail)
  end.

(** src/state/document/RunStatusDocumentCodec.cpp:272-291 *)
Definition parse_details (input : list (string * Json)) : res RunDetails :=
  details ← required input "details";
  match details with
  | JObject members => parse_detail_members members []
  | _ => Throw (ValidationError "status JSON field details must be an object")
  end.

(** [source_index < 0 || source_count < 0 || source_index > source_count], negated. *)
Definition indexes_consistent (index count : Z) : bool :=
  negb ((index <? 0) || (count <? 0) || (count <? index)).

(** The object read by [parse_private].
    src/state/document/RunStatusDocumentCodec.cpp:444-478 *)
Definition parse_private_object (input : list (string * Json)) : res PrivateRunHistoryV1 :=
  state ← required_string input "state";
  phase ← required_string input "phase";
  profile_id_value ← required_string input "profileId";
  profile_id ← make_ident KProfile profile_id_value;
  profile_name ← required_string input "profileName";
  run_id_value ← required_string input "runId";
  run_id ← make_ident KRun run_id_value;
  message ← required_string input "message";
  current_source_name ← required_string input "currentSourceName";
  target_name ← required_string input "targetName";
  source_index ← required_int input "sourceIndex";
  source_count ← required_int input "sourceCount";
  started_at ← required_string input "startedAt";
  updated_at ← required_string input "updatedAt";
  finished_at ← required_string input "finishedAt";
  error_code ← required_string input "errorCode";
  error_message ← required_string input "errorMessage";
  details ← parse_details input;
  recoverable ← required_bool input "recoverable";
  suggested_action ← required_string input "suggestedAction";
  can_cancel ← required_bool input "canCancel";
  bytes_processed ← required_non_negative input "bytesProcessed";
  bytes_total_estimated ← required_non_negative input "bytesTotalEstimated";
  run_bytes_processed ← required_non_negative input "runBytesProcessed";
  progress ← parse_progress input;
  exit_code ← required_int input "exitCode";
  require (indexes_consistent source_index source_count)
    (ValidationError "private history source indexes are inconsistent") ;;
  Ok (mkPrivateHistory profile_id profile_name run_id
        (extensible state (negb (bool_decide (parse_state state = PublicUnknown))))
        (extensible phase (known_phase phase)) message current_source_name target_name
        source_index source_count started_at updated_at finished_at error_code error_message
        details recoverable suggested_action can_cancel bytes_processed bytes_total_estimated
        run_bytes_processed progress exit_code).

(** src/state/document/RunStatusDocumentCodec.cpp:444-478 *)
Definition parse_private `{JsonText} (content : string) : res PrivateRunHistoryV1 :=
  input ← parse_document content 1 "private history";
  parse_private_object input.

(** The object written by [serialize_private].
    src/state/document/RunStatusDocumentCodec.cpp:508-538 *)
Definition private_object (history : PrivateRunHistoryV1) : list (string * Json) :=
  let progress := prv_progress history in
  [("schemaVersion", JInt 1);
   ("profileId", JString (id_value (prv_profile_id history)));
   ("profileName", JString (prv_profile_name history));
   ("runId", JString (id_value (prv_run_id history)));
   ("state", JString (ev_value (prv_state history)));
   ("phase", JString (ev_value (prv_phase history)));
   ("message", JString (prv_message history));
   ("currentSourceName", JString (prv_current_source_name history));
   ("targetName", JString (prv_target_name history));
   ("sourceIndex", JInt (prv_source_index history));
   ("sourceCount", JInt (prv_source_count history));
   ("startedAt", JString (prv_started_at history));
   ("updatedAt", JString (prv_updated_at history));
   ("finishedAt", JString (prv_finished_at history));
   ("errorCode", JString (prv_error_code history));
   ("errorMessage", JString (prv_error_message history));
   ("details", details_json (prv_details history));
   ("recoverable", JBool (prv_recoverable history));
   ("suggestedAction", JString (prv_suggested_action history));
   ("canCancel", JBool (prv_can_cancel history));
   ("bytesProcessed", JUInt (prv_bytes_processed history));
   ("bytesTotalEstimated", JUInt (prv_bytes_total_estimated history));
   ("runBytesProcessed", JUInt (prv_run_bytes_processed history));
   ("speedBps", JUInt (dp_speed_bps progress));
   ("etaSeconds", json_eta (dp_eta_seconds progress));
   ("sourceProgress", JInt (default (-1) (dp_source_percent progress)));
   ("overallProgress", JInt (default (-1) (dp_overall_percent progress)));
   ("progressAccuracy", JString (progress_accuracy_name (dp_accuracy progress)));
   ("exitCode", JInt (prv_exit_code history))].

(** src/state/document/RunStatusDocumentCodec.cpp:504-540 *)
Definition serialize_private `{JsonText} (history : PrivateRunHistoryV1) : res string :=
  require (indexes_consistent (prv_source_index history) (prv_source_count history))
    (ValidationError "private history source indexes are inconsistent") ;;
  dump_json (JObject (private_object history)).

(** ** From a status to its documents *)

(** src/state/document/RunStatusDocumentCodec.cpp:545-553 *)
Definition activity_for_status (status : RunStatus) : PublicActivity :=
  if negb (bool_decide (rs_state status = StateRunning)) &&
     negb (bool_decide (rs_state status = StateValidating)) then ActivityIdle
  else
    match rs_phase status with
    | PhaseSizing => ActivitySizing
    | PhaseTransferring => ActivityTransferring
    | PhaseVerifyReceived | PhaseCommitReceived | PhaseApplyRemoteRetention
    | PhaseApplyLocalRetention | PhaseCleanupSource | PhaseSourceCompleted => ActivityFinalizing
    | _ => ActivityPreparing
    end.

(** src/state/document/RunStatusDocumentCodec.cpp:559-563 *)
Definition document_eta (status : RunStatus) : res (option Z) :=
  match eta_seconds (rs_progress status) with
  | None => Ok None
  | Some eta =>
      if eta <? 0 then Throw (ValidationError "run status etaSeconds must be non-negative")
      else Ok (Some eta)
  end.

(** src/state/document/RunStatusDocumentCodec.cpp:577-585 *)
Definition document_progress (progress : RunProgress) (eta : option Z) : DocumentProgress :=
  mkDocumentProgress (processed_bytes progress) (estimated_bytes progress) (speed_bps progress)
    eta (source_percent progress) (overall_percent progress) (accuracy progress).

(** src/state/document/RunStatusDocumentCodec.cpp:542-589 *)
Definition make_public_status (status : RunStatus) : res PublicRunStatusV1 :=
  let error :=
    match rs_error status with
    | None => ErrorNone
    | Some _ => if bool_decide (rs_state status = StateCancelled) then ErrorCancelled else ErrorFailed
    end in
  eta ← document_eta status;
  Ok (mkPublicStatus (Some (rs_run_id status))
        (match rs_operation_kind status with
         | StatusTargetValidation => OperationTargetValidation
         | StatusBackup => OperationBackup
         end)
        (parse_state (run_state_name (rs_state status)))
        (extensible (run_phase_name (rs_phase status)) true) (activity_for_status status)
        (rs_can_cancel status) error (rs_current_source_name status) (rs_target_name status)
        (document_progress (rs_progress status) eta) "" "" "").

(** src/state/document/RunStatusDocumentCodec.cpp:591-633 *)
Definition make_private_history (status : RunStatus) : res PrivateRunHistoryV1 :=
  eta ← document_eta status;
  Ok (mkPrivateHistory (rs_profile_id status) (rs_profile_name status) (rs_run_id status)
        (extensible (run_state_name (rs_state status)) true)
        (extensible (run_phase_name (rs_phase status)) true)
        (rs_message status) (rs_current_source_name status) (rs_target_name status)
        (rs_source_index status) (rs_source_count status)
        (format_utc_iso_timestamp (rs_started_at status))
        (format_utc_iso_timestamp (rs_updated_at status))
        (match rs_finished_at status with Some t => format_utc_iso_timestamp t | None => "" end)
        (match rs_error status with Some e => error_code_name (re_code e) | None => "" end)
        (match rs_error status with Some e => re_message e | None => "" end)
        (rs_details status)
        (match rs_error status with Some e => re_recoverable e | None => false end)
        (match rs_error status with Some e => re_suggested_action e | None => "" end)
        (rs_can_cancel status) (processed_bytes (rs_progress status))
        (default 0 (estimated_bytes (rs_progress status)))
        (run_processed_bytes (rs_progress status))
        (document_progress (rs_progress status) eta) (rs_exit_code status)).

(** ** Writing (src/state/persistence/StatusWriter, src/state/query/RunHistory) *)

(** src/state/persistence/StatusWriter.cpp:32-35 *)
Definition validate_status (status : RunStatus) : res unit :=
  require (negb (rs_profile_name status =? "")%string) (ValidationError "profileName is required") ;;
  validate_run_status status.

(** src/state/persistence/StatusWriter.cpp:51-54 *)
Definition dump_status_json `{JsonText} (status : RunStatus) : res string :=
  validate_status status ;;
  history ← make_private_history status;
  serialize_private history.

(** src/state/persistence/StatusWriter.cpp:56-67 *)
Definition build_public_status_json `{JsonText} (status : RunStatus) : res Json :=
  validate_status status ;;
  public ← make_public_status status;
  text ← serialize_public public;
  result ← json_parse text;
  match result with
  | JObject members =>
      let members := json_set members "sourceIndex" (JInt (rs_source_index status)) in
      let members := json_set members "sourceCount" (JInt (rs_source_count status)) in
      let members := json_set members "startedAt"
        (JString (format_utc_iso_timestamp (rs_started_at status))) in
      let members := json_set members "updatedAt"
        (JString (format_utc_iso_timestamp (rs_updated_at status))) in
      Ok (JObject members)
  | _ => Throw (StdException "cannot use operator[] with a string argument")
  end.

(** src/state/persistence/StatusWriter.cpp:69-71 *)
Definition dump_public_status_json `{JsonText} (status : RunStatus) : res string :=
  result ← build_public_status_json status;
  dump_json result.

(** The operations of IAtomicDocumentWriter, with the permission bits.
    src/state/persistence/PersistentDocumentOperations.hpp:12-25 *)
Inductive FileOp :=
| EnsureDirectory (p : path) (permissions : Z)
| WriteAtomically (p : path) (data : string) (permissions : Z).

(** The parent directory of current.json is the directory of the profile.
    src/state/persistence/StatusWriter.cpp:73-82 *)
Definition current_status_ops `{JsonText} (status_root : path) (status : RunStatus)
    : res (list FileOp) :=
  content ← dump_public_status_json status;
  let directory := path_append status_root (id_value (rs_profile_id status)) in
  Ok [EnsureDirectory directory 493; WriteAtomically (path_append directory "current.json") content 420].

(** src/state/query/RunHistory.cpp:27-40 *)
Definition history_entry_ops `{JsonText} (history_root : path) (status : RunStatus)
    : res (list FileOp) :=
  content ← dump_status_json status;
  let directory := path_append history_root (id_value (rs_profile_id status)) in
  Ok [EnsureDirectory history_root 448; EnsureDirectory directory 448;
      WriteAtomically (path_append directory (id_value (rs_run_id status) +:+ ".json")) content 384;
      WriteAtomically (path_append directory "last.json") content 384].

(** ** Reading what was written *)

Section reads.
Context (m members : list (string * Json)) (Hm : reads m members) (field : string).
Abbreviation found v := (json_find members field = Some v).

Lemma required_reads v : found v -> required m field = Ok (json_canonical v).
Proof using Hm. intros H. unfold required. by rewrite (Hm _ _ H). Qed.

Lemma required_string_reads s : found (JString s) -> required_string m field = Ok s.
Proof using Hm. intros H%required_reads. unfold required_string. by rewrite H. Qed.

Lemma required_bool_reads b : found (JBool b) -> required_bool m field = Ok b.
Proof using Hm. intros H%required_reads. unfold required_bool. by rewrite H. Qed.

Lemma required_non_negative_reads z :
  found (JUInt z) -> required_non_negative m field = Ok z.
Proof using Hm. intros H%required_reads. unfold required_non_negative. by rewrite H. Qed.

Lemma non_negative_or_zero_reads z :
  found (JUInt z) -> non_negative_or_zero m field = Ok z.
Proof using Hm.
  intros H. unfold non_negative_or_zero. rewrite (Hm _ _ H). cbn.
  by apply required_non_negative_reads.
Qed.

Lemma required_eta_reads eta :
  found (json_eta eta) -> required_optional_non_negative m field = Ok eta.
Proof using Hm. intros H%required_reads. unfold required_optional_non_negative. rewrite H. by destruct eta. Qed.

Lemma required_integer_reads z :
  found (JInt z) -> - 2 ^ 63 <= z < 2 ^ 63 -> required_integer m field = Ok z.
Proof using Hm.
  intros H%required_reads Hz. unfold required_integer. rewrite H. cbn [mbind res_bind json_canonical].
  destruct (Z.leb_spec 0 z); [|done]. f_equal. unfold wrap64. rewrite Z.mod_small; lia.
Qed.

Lemma required_percentage_reads o :
  found (JInt (default (-1) o)) -> valid_percent o = true ->
  required_percentage m field = Ok o.
Proof using Hm.
  intros H Ho. unfold required_percentage.
  assert (-1 <= default (-1) o <= 100) by (destruct o; cbn in *; [breflect; lia|lia]).
  rewrite (required_integer_reads _ H) by lia. cbn [mbind res_bind].
  destruct o as [z|]; [|done]. cbn in *. breflect.
  destruct (Z.eqb_spec z (-1)); [lia|]. by destruct (Z.ltb_spec z 0), (Z.ltb_spec 100 z); try lia.
Qed.

Lemma required_int_reads z :
  found (JInt z) -> - 2 ^ 31 <= z < 2 ^ 31 -> required_int m field = Ok z.
Proof using Hm.
  intros H Hz. unfold required_int. rewrite (required_integer_reads _ H) by lia.
  cbn [mbind res_bind].
  by destruct (Z.ltb_spec z (- 2 ^ 31)), (Z.ltb_spec (2 ^ 31 - 1) z); try lia.
Qed.
End reads.

(** Reads the members of an object that is known. *)
Ltac reread Hm :=
  repeat (first
    [ erewrite (required_string_reads _ _ Hm) by reflexivity
    | erewrite (required_bool_reads _ _ Hm) by reflexivity
    | erewrite (required_non_negative_reads _ _ Hm) by reflexivity
    | erewrite (required_int_reads _ _ Hm); [|reflexivity|lia] ]; cbn [mbind res_bind]).

Lemma parse_accuracy_name a : parse_accuracy (progress_accuracy_name a) = Ok a.
Proof. by destruct a. Qed.

Lemma parse_public_error_name c : parse_public_error (public_error_code_name c) = Ok c.
Proof. by destruct c. Qed.

Lemma known_phase_name phase : known_phase (run_phase_name phase) = true.
Proof. by destruct phase. Qed.

Lemma parse_document_dump `{JsonText} members text kind :
  json_wf valid_utf8 (JObject members) = true ->
  json_canonical <$> json_find members "schemaVersion" = Some (JUInt 1) ->
  dump_json (JObject members) = Ok text ->
  parse_document text 1 kind = Ok (reread members).
Proof.
  intros Hwf Hs Hd. destruct (json_parse_dump _ Hwf) as (t & Ht & Hp).
  unfold dump_json in Hd. rewrite Ht in Hd. injection Hd as <-.
  unfold parse_document. rewrite Hp. cbn [json_canonical]. fold (reread members).
  by rewrite json_find_reread, Hs.
Qed.

(** The progress of a document that can be written: no total of 0, percentages in
    range. *)
Definition progress_representable (progress : DocumentProgress) : Prop :=
  dp_bytes_total_estimated progress <> Some 0 /\
  valid_percent (dp_source_percent progress) = true /\
  valid_percent (dp_overall_percent progress) = true.

Lemma parse_progress_reads m members progress :
  reads m members ->
  json_find members "bytesTotalEstimated" =
    Some (JUInt (default 0 (dp_bytes_total_estimated progress))) ->
  json_find members "bytesProcessed" = Some (JUInt (dp_bytes_processed progress)) ->
  json_find members "speedBps" = Some (JUInt (dp_speed_bps progress)) ->
  json_find members "etaSeconds" = Some (json_eta (dp_eta_seconds progress)) ->
  json_find members "sourceProgress" = Some (JInt (default (-1) (dp_source_percent progress))) ->
  json_find members "overallProgress" = Some (JInt (default (-1) (dp_overall_percent progress))) ->
  json_find members "progressAccuracy" =
    Some (JString (progress_accuracy_name (dp_accuracy progress))) ->
  progress_representable progress ->
  parse_progress m = Ok progress.
Proof.
  intros Hm H1 H2 H3 H4 H5 H6 H7 (Ht & Hs & Ho). unfold parse_progress.
  rewrite (non_negative_or_zero_reads _ _ Hm _ _ H1), (non_negative_or_zero_reads _ _ Hm _ _ H2). cbn [mbind res_bind].
  rewrite (required_non_negative_reads _ _ Hm _ _ H3). cbn [mbind res_bind].
  rewrite (required_eta_reads _ _ Hm _ _ H4). cbn [mbind res_bind].
  rewrite (required_percentage_reads _ _ Hm _ _ H5 Hs). cbn [mbind res_bind].
  rewrite (required_percentage_reads _ _ Hm _ _ H6 Ho). cbn [mbind res_bind].
  rewrite (required_string_reads _ _ Hm _ _ H7). cbn [mbind res_bind].
  rewrite parse_accuracy_name. cbn [mbind res_bind]. f_equal.
  destruct progress as [b t s e sp op a]; cbn in *. f_equal.
  destruct t as [t|]; [|done]. cbn. destruct (Z.eqb_spec t 0); [by subst|done].
Qed.

(** A public status in the form that is read back: a known value has no text for
    the unknown one, an unknown value has one that is unknown; the phase is marked
    known if it is. *)
Definition public_representable (status : PublicRunStatusV1) : Prop :=
  validate_public_semantics status = Ok tt /\
  progress_representable (pub_progress status) /\
  ev_known (pub_phase status) = known_phase (ev_value (pub_phase status)) /\
  parse_state (public_run_state_name status) = pub_state status /\
  parse_activity (public_activity_name status) = pub_activity status /\
  parse_operation_kind (public_operation_kind_name status) = pub_operation_kind status /\
  (pub_state status <> PublicUnknown -> pub_unknown_state status = "") /\
  (pub_activity status <> ActivityUnknown -> pub_unknown_activity status = "") /\
  (pub_operation_kind status <> OperationUnknown -> pub_unknown_operation_kind status = "").

Lemma unknown_text_reread {A} `{!EqDecision A} (x u : A) (name text : string) :
  (x = u -> name = text) -> (x <> u -> text = "") ->
  (if bool_decide (x = u) then name else "") = text.
Proof. intros H1 H2. case_bool_decide; [by apply H1|by symmetry; apply H2]. Qed.

Lemma run_id_reread (o : option RunId) :
  optional_run_id (match o with Some r => id_value r | None => "" end) = Ok o.
Proof.
  unfold optional_run_id.
  destruct o as [r|]; [|done]. destruct (String.eqb_spec (id_value r) "") as [E|E].
  - pose proof (id_valid r) as Hv. rewrite E in Hv. done.
  - by rewrite (proj2 (make_ident_Ok KRun (id_value r) r) eq_refl).
Qed.

Lemma parse_public_object_reads m status :
  reads m (public_object status) -> public_representable status ->
  parse_public_object m = Ok status.
Proof.
  intros Hm (Hv & Hp & Hph & Hst & Hac & Hop & Hus & Hua & Huo). unfold parse_public_object.
  reread Hm. rewrite run_id_reread. cbn [mbind res_bind].
  rewrite parse_public_error_name. cbn [mbind res_bind].
  rewrite (parse_progress_reads m _ (pub_progress status) Hm) by done. cbn [mbind res_bind].
  rewrite Hst, Hac, Hop, <- Hph.
  rewrite (unknown_text_reread (pub_state status) _ _ (pub_unknown_state status)); [|
    intros E; unfold public_run_state_name; by rewrite E|done].
  rewrite (unknown_text_reread (pub_activity status) _ _ (pub_unknown_activity status)); [|
    intros E; unfold public_activity_name; by rewrite E|done].
  rewrite (unknown_text_reread (pub_operation_kind status) _ _ (pub_unknown_operation_kind status)); [|
    intros E; unfold public_operation_kind_name; by rewrite E|done].
  destruct status as [? ? ? [? ?] ? ? ? ? ? ? ? ? ?]; cbn [pub_run_id pub_operation_kind pub_state
    pub_phase pub_activity pub_can_cancel pub_error_code pub_source_name pub_target_name
    pub_progress pub_unknown_state pub_unknown_activity pub_unknown_operation_kind ev_value
    ev_known] in *. by rewrite Hv.
Qed.

(** Details as a [std::map] holds them: in the order of their names, without
    duplicates, and with signed numbers only where they are negative. *)
Definition details_canonical (details : RunDetails) : Prop :=
  StronglySorted (λ a b, str_less a.1 b.1 = true) details /\
  Forall (λ d, json_canonical (detail_json d.2) = detail_json d.2) details.

Lemma map_set_last {A} (m : list (string * A)) name value :
  Forall (λ d, str_less d.1 name = true) m -> map_set m name value = m ++ [(name, value)].
Proof.
  induction m as [|[k v] m IH]; [done|]. intros [Hk Hm]%Forall_cons. cbn in *.
  rewrite (str_less_asym _ _ Hk). destruct (String.eqb_spec name k) as [->|].
  - by rewrite str_less_irrefl in Hk.
  - by rewrite IH.
Qed.

Lemma sorted_before (acc l : RunDetails) d :
  StronglySorted (λ a b, str_less a.1 b.1 = true) (acc ++ d :: l) ->
  Forall (λ a, str_less a.1 d.1 = true) acc.
Proof.
  induction acc as [|a acc IH]; [constructor|]. cbn. inversion 1 as [|? ? Hs Ha]; subst.
  constructor; [|by apply IH]. by apply Forall_app in Ha as [_ [? _]%Forall_cons].
Qed.

Lemma details_json_map details :
  StronglySorted (λ a b, str_less a.1 b.1 = true) details ->
  details_json details = JObject (map (λ d, (d.1, detail_json d.2)) details).
Proof.
  intros Hs. unfold details_json. f_equal.
  enough (G : forall l acc, StronglySorted (λ a b, str_less a.1 b.1 = true) (acc ++ l) ->
    fold_left (λ result d, json_set result d.1 (detail_json d.2)) l
      (map (λ d, (d.1, detail_json d.2)) acc) = map (λ d, (d.1, detail_json d.2)) (acc ++ l))
    by exact (G details [] Hs).
  induction l as [|d l IH]; intros acc H; [by rewrite app_nil_r|]. cbn.
  rewrite json_set_fresh.
  - specialize (IH (acc ++ [d])). rewrite <- app_assoc in IH. rewrite map_app in IH. by apply IH.
  - apply sorted_before in H. rewrite map_map. cbn. intros (a & E & Ha)%list_elem_of_fmap.
    rewrite Forall_forall in H. specialize (H a Ha). rewrite <- E in H.
    by rewrite str_less_irrefl in H.
Qed.

Lemma parse_details_reads m members details :
  reads m members -> details_canonical details -> json_find members "details" = Some (details_json details) ->
  parse_details m = Ok details.
Proof.
  intros Hm [Hs Hc] Hf. unfold parse_details.
  rewrite (required_reads _ _ Hm _ _ Hf), details_json_map by done. cbn [mbind res_bind json_canonical].
  rewrite map_map. cbn.
  enough (G : forall l acc, StronglySorted (λ a b, str_less a.1 b.1 = true) (acc ++ l) ->
    Forall (λ d, json_canonical (detail_json d.2) = detail_json d.2) l ->
    parse_detail_members (map (λ d, (d.1, json_canonical (detail_json d.2))) l) acc = Ok (acc ++ l))
    by exact (G details [] Hs Hc).
  clear. induction l as [|[name d] l IH]; intros acc H Hl; [by rewrite app_nil_r|].
  apply Forall_cons in Hl as [Hd Hl]. cbn in *. rewrite Hd.
  replace (parse_detail (detail_json d)) with (Ok d) by (by destruct d). cbn [mbind res_bind].
  rewrite map_set_last by exact (sorted_before _ _ _ H).
  specialize (IH (acc ++ [(name, d)])). rewrite <- app_assoc in IH. by apply IH.
Qed.

(** A history in the form that is read back. *)
Definition private_representable (history : PrivateRunHistoryV1) : Prop :=
  let progress := prv_progress history in
  indexes_consistent (prv_source_index history) (prv_source_count history) = true /\
  prv_source_count history < 2 ^ 31 /\ - 2 ^ 31 <= prv_exit_code history < 2 ^ 31 /\
  progress_representable progress /\ details_canonical (prv_details history) /\
  dp_bytes_processed progress = prv_bytes_processed history /\
  default 0 (dp_bytes_total_estimated progress) = prv_bytes_total_estimated history /\
  ev_known (prv_state history) =
    negb (bool_decide (parse_state (ev_value (prv_state history)) = PublicUnknown)) /\
  ev_known (prv_phase history) = known_phase (ev_value (prv_phase history)).

Lemma parse_private_object_reads m history :
  reads m (private_object history) -> private_representable history ->
  parse_private_object m = Ok history.
Proof.
  intros Hm (Hi & Hc & He & Hp & Hd & Hb & Ht & Hs & Hph).
  assert (0 <= prv_source_index history <= prv_source_count history)
    by (unfold indexes_consistent in Hi; breflect; lia).
  unfold parse_private_object. reread Hm.
  rewrite (proj2 (make_ident_Ok KProfile _ (prv_profile_id history)) eq_refl). cbn [mbind res_bind].
  rewrite (proj2 (make_ident_Ok KRun _ (prv_run_id history)) eq_refl). cbn [mbind res_bind].
  rewrite (parse_details_reads m _ (prv_details history) Hm) by done. cbn [mbind res_bind].
  rewrite (parse_progress_reads m _ (prv_progress history) Hm); try done;
    [|by rewrite Ht|by rewrite Hb]. cbn [mbind res_bind].
  rewrite Hi, <- Hs, <- Hph. cbn.
  by destruct history as [? ? ? [? ?] [? ?] ? ? ? ? ? ? ? ? ? ? ? ? ? ? ? ? ? ? ?].
Qed.

(** ** The documents of a status *)

(** What the writers rely on, beyond [validate_run_status]: an active status has no
    error, percentages are percentages, and no number stands for an absent one. *)
Definition status_publishable (status : RunStatus) : Prop :=
  let progress := rs_progress status in
  status_consistent status /\
  (terminal (rs_state status) = false -> rs_error status = None) /\
  valid_percent (source_percent progress) = true /\
  valid_percent (overall_percent progress) = true /\
  estimated_bytes progress <> Some 0 /\
  (forall eta, eta_seconds progress = Some eta -> 0 <= eta).

Lemma document_eta_Ok status :
  (forall eta, eta_seconds (rs_progress status) = Some eta -> 0 <= eta) ->
  document_eta status = Ok (eta_seconds (rs_progress status)).
Proof.
  intros H. unfold document_eta. destruct (eta_seconds _) as [eta|]; [|done].
  specialize (H eta eq_refl). by destruct (Z.ltb_spec eta 0); [lia|].
Qed.

Lemma activity_known status : activity_for_status status <> ActivityUnknown.
Proof. unfold activity_for_status. case_match; [done|]. by destruct (rs_phase status). Qed.

Lemma public_semantics_ok status pub :
  status_publishable status -> make_public_status status = Ok pub ->
  validate_public_semantics pub = Ok tt.
Proof.
  intros (Hc & Ha & Hs & Ho & _ & He). unfold make_public_status.
  rewrite (document_eta_Ok _ He). intros [= <-]. unfold validate_public_semantics. cbn -[valid_percent].
  rewrite Hs, Ho. unfold status_consistent in Hc.
  replace (negb (run_phase_name (rs_phase status) =? "")%string) with true by (by destruct (rs_phase status)).
  cbn [require mbind res_bind].
  rewrite (bool_decide_eq_false_2 _ (activity_known status)). cbn [andb negb require mbind res_bind].
  destruct (rs_operation_kind status), (rs_state status); cbn in *;
    destruct_and?; repeat match goal with H : ?x = false |- _ => rewrite ?H; clear H end;
    cbn; try rewrite Ha by done; cbn; try (destruct (rs_can_cancel status); done);
    rewrite ?is_Some_alt in *; destruct (rs_error status); cbn in *; tauto || naive_solver.
Qed.

Lemma make_public_representable status :
  status_publishable status ->
  exists pub, make_public_status status = Ok pub /\ public_representable pub.
Proof.
  intros H. destruct (make_public_status status) as [pub|e] eqn:E.
  - exists pub. split; [done|]. pose proof (public_semantics_ok _ _ H E) as Hv.
    destruct H as (_ & _ & Hs & Ho & Ht & He). unfold make_public_status in E.
    rewrite (document_eta_Ok _ He) in E. injection E as <-. unfold public_representable.
    split_and!; try done; first
      [ apply (eq_sym (known_phase_name _)) | by destruct (rs_state status)
      | by destruct (rs_operation_kind status)
      | pose proof (activity_known status); cbn; by destruct (activity_for_status status) ].
  - exfalso. destruct H as (_ & _ & _ & _ & _ & He). unfold make_public_status in E.
    by rewrite (document_eta_Ok _ He) in E.
Qed.

(** What the history relies on: the index of the source does not exceed their
    number, and numbers that are written as [int] have its width. *)
Definition status_recordable (status : RunStatus) : Prop :=
  status_publishable status /\
  0 <= rs_source_index status <= rs_source_count status /\ rs_source_count status < 2 ^ 31 /\
  - 2 ^ 31 <= rs_exit_code status < 2 ^ 31 /\ details_canonical (rs_details status).

Lemma make_private_representable status :
  status_recordable status ->
  exists history, make_private_history status = Ok history /\ private_representable history.
Proof.
  intros ((_ & _ & Hs & Ho & Ht & He) & Hi & Hc & Hx & Hd). unfold make_private_history.
  rewrite (document_eta_Ok _ He). eexists. split; [done|].
  unfold private_representable, indexes_consistent. split_and!; cbn; try done; try lia; first
    [ by destruct (rs_state status) | apply (eq_sym (known_phase_name _)) ].
Qed.

(** *** Width and encoding *)

(** The numbers of a status have the width of their C++ types. *)
Definition status_in_range (status : RunStatus) : Prop :=
  let progress := rs_progress status in
  let u64 z := 0 <= z < 2 ^ 64 in
  u64 (processed_bytes progress) /\ u64 (default 0 (estimated_bytes progress)) /\
  u64 (run_processed_bytes progress) /\ u64 (speed_bps progress) /\
  u64 (default 0 (eta_seconds progress)) /\
  - 2 ^ 31 <= rs_source_index status < 2 ^ 31 /\ - 2 ^ 31 <= rs_source_count status < 2 ^ 31 /\
  - 2 ^ 31 <= rs_exit_code status < 2 ^ 31.

Section encoding.
Context `{JsonText}.

Definition detail_ok (d : string * RunDetailValue) : Prop :=
  text_ok d.1 /\ json_wf valid_utf8 (detail_json d.2) = true.

(** The texts a status carries are valid UTF-8. *)
Definition status_texts_ok (status : RunStatus) : Prop :=
  Forall text_ok
    [id_value (rs_profile_id status); rs_profile_name status; id_value (rs_run_id status);
     rs_message status; rs_current_source_name status; rs_target_name status;
     format_utc_iso_timestamp (rs_started_at status);
     format_utc_iso_timestamp (rs_updated_at status);
     match rs_finished_at status with Some t => format_utc_iso_timestamp t | None => "" end;
     match rs_error status with Some e => re_message e | None => "" end;
     match rs_error status with Some e => re_suggested_action e | None => "" end] /\
  Forall detail_ok (rs_details status).

Lemma wf_percent o : valid_percent o = true -> json_wf valid_utf8 (JInt (default (-1) o)) = true.
Proof. intros Ho. apply wf_int. destruct o; cbn in *; [breflect|]; lia. Qed.

Lemma wf_eta o : 0 <= default 0 o < 2 ^ 64 -> json_wf valid_utf8 (json_eta o) = true.
Proof. intros. destruct o; [by apply wf_uint|done]. Qed.
End encoding.

Lemma run_phase_name_ascii phase : is_ascii (run_phase_name phase) = true.
Proof. by destruct phase. Qed.

Lemma run_state_name_ascii state : is_ascii (run_state_name state) = true.
Proof. by destruct state. Qed.

Lemma error_code_name_ascii code : is_ascii (error_code_name code) = true.
Proof. by destruct code. Qed.

Lemma accuracy_name_ascii a : is_ascii (progress_accuracy_name a) = true.
Proof. by destruct a. Qed.

(** Solves the well-formedness of the members of an object. *)
Ltac wf_members :=
  repeat apply List.Forall_cons; [..|apply List.Forall_nil];
  (split; [apply valid_utf8_ascii; reflexivity|]); cbn [snd];
  try (apply valid_utf8_ascii;
       first [reflexivity | apply run_phase_name_ascii | apply run_state_name_ascii
             | apply accuracy_name_ascii]);
  try first
    [ assumption | reflexivity | apply wf_percent; assumption | apply wf_eta; assumption
    | apply wf_uint; assumption | apply wf_int; lia ].

Section documents.
Context `{JsonText} (status : RunStatus).
Context (Hpub : status_publishable status) (Hrange : status_in_range status)
  (Htexts : status_texts_ok status).

(** The members that are added to the public document.
    src/state/persistence/StatusWriter.cpp:62-65 *)
Definition public_extra : list (string * Json) :=
  [("sourceIndex", JInt (rs_source_index status)); ("sourceCount", JInt (rs_source_count status));
   ("startedAt", JString (format_utc_iso_timestamp (rs_started_at status)));
   ("updatedAt", JString (format_utc_iso_timestamp (rs_updated_at status)))].

Lemma public_object_wf pub :
  make_public_status status = Ok pub -> json_wf valid_utf8 (JObject (public_object pub)) = true.
Proof using Hpub Hrange Htexts.
  destruct Hpub as (_ & _ & Hs & Ho & _ & He), Hrange as (? & ? & ? & ? & ? & ? & ? & ?).
  destruct Htexts as [Ht _]. unfold make_public_status. rewrite (document_eta_Ok _ He).
  intros [= <-]. repeat (apply Forall_cons in Ht as [? Ht]).
  apply json_wf_object; [reflexivity|]. unfold public_object. cbn -[json_wf]. wf_members.
  - apply valid_utf8_ascii. by destruct (rs_operation_kind status).
  - apply valid_utf8_ascii. by destruct (rs_state status).
  - apply valid_utf8_ascii. pose proof (activity_known status). unfold public_activity_name. cbn.
    by destruct (activity_for_status status).
  - apply valid_utf8_ascii. by destruct (rs_error status), (bool_decide (rs_state status = StateCancelled)).
Qed.

Lemma private_object_wf history :
  status_recordable status -> make_private_history status = Ok history ->
  json_wf valid_utf8 (JObject (private_object history)) = true.
Proof using Hrange Htexts.
  intros ((_ & _ & Hs & Ho & _ & He) & _ & _ & _ & Hd).
  destruct Hrange as (? & ? & ? & ? & ? & ? & ? & ?), Htexts as [Ht Hdt].
  unfold make_private_history. rewrite (document_eta_Ok _ He).
  intros [= <-]. repeat (apply Forall_cons in Ht as [? Ht]).
  apply json_wf_object; [reflexivity|]. unfold private_object. cbn -[json_wf details_json]. wf_members.
  - destruct (rs_error status); [apply valid_utf8_ascii, error_code_name_ascii|by apply valid_utf8_ascii].
  - destruct Hd as [Hd _]. rewrite details_json_map by done. apply json_wf_object.
    + apply bool_decide_eq_true. rewrite map_map. cbn. clear -Hd.
      induction Hd as [|d l Hl IH Hf]; cbn; constructor; [|done].
      intros (d' & E & Hin)%list_elem_of_fmap. rewrite Forall_forall in Hf. specialize (Hf d' Hin).
      cbn in Hf. rewrite <- E in Hf. by rewrite str_less_irrefl in Hf.
    + clear -Hdt. induction Hdt as [|d l [? ?] _ IH]; cbn; constructor; done.
Qed.

(** The public document of a status can be built, and is the public object with the
    members that are added. *)
Lemma build_public_status_json_ok pub :
  rs_profile_name status <> "" -> make_public_status status = Ok pub ->
  build_public_status_json status = Ok (JObject (reread (public_object pub) ++ public_extra)).
Proof using Hpub Hrange Htexts.
  intros Hn Hmk. unfold build_public_status_json, validate_status.
  destruct (String.eqb_spec (rs_profile_name status) ""); [done|].
  destruct (Hpub) as [Hc _]. rewrite (proj2 (validate_run_status_Ok status) Hc). cbn [negb require mbind res_bind].
  rewrite Hmk. cbn [mbind res_bind]. unfold serialize_public.
  rewrite (public_semantics_ok _ _ Hpub Hmk). cbn [mbind res_bind].
  destruct (json_parse_dump _ (public_object_wf _ Hmk)) as (t & Ht & Hp).
  unfold dump_json. rewrite Ht. cbn [mbind res_bind]. rewrite Hp. reflexivity.
Qed.

Lemma public_document_wf pub :
  make_public_status status = Ok pub ->
  json_wf valid_utf8 (JObject (reread (public_object pub) ++ public_extra)) = true.
Proof using Hpub Hrange Htexts.
  intros Hmk. pose proof (public_object_wf _ Hmk) as Hwf.
  apply json_canonical_wf_object in Hwf; [|by cbn; destruct (dp_eta_seconds _)].
  destruct Hrange as (_ & _ & _ & _ & _ & ? & ? & _), Htexts as [Ht _].
  repeat (apply Forall_cons in Ht as [? Ht]). apply json_wf_object; [reflexivity|].
  apply Forall_app. split.
  - by apply json_wf_object_inv in Hwf.
  - unfold public_extra. wf_members.
Qed.
End documents.

Lemma public_object_scalar pub field v :
  json_find (public_object pub) field = Some v ->
  match v with JArray _ | JObject _ => false | _ => true end = true.
Proof.
  unfold public_object. cbn. intros H.
  repeat (case_match; [injection H as <-; (done || by destruct (dp_eta_seconds (pub_progress pub)))|]). done.
Qed.

(** The document written has the members of the public object. *)
Lemma public_document_reads pub extra :
  reads (reread (reread (public_object pub) ++ extra)) (public_object pub).
Proof.
  intros field v Hv. rewrite json_find_reread, json_find_app, json_find_reread, Hv. cbn.
  f_equal. apply json_canonical_idem_scalar. by eapply public_object_scalar.
Qed.

(** The texts of both documents can be made. *)
Lemma dump_public_status_json_ok `{JsonText} status pub :
  status_publishable status -> status_in_range status -> status_texts_ok status ->
  rs_profile_name status <> "" -> make_public_status status = Ok pub ->
  exists content, dump_public_status_json status = Ok content /\
    parse_document content 1 "public status" =
      Ok (reread (reread (public_object pub) ++ public_extra status)).
Proof.
  intros Hp Hr Ht Hn Hmk. pose proof (public_document_wf status Hp Hr Ht _ Hmk) as Hwf.
  destruct (json_dump_ok _ Hwf) as (content & Hc). exists content. unfold dump_public_status_json.
  rewrite (build_public_status_json_ok status Hp Hr Ht _ Hn Hmk). cbn [mbind res_bind].
  split; [done|]. by apply parse_document_dump.
Qed.

Lemma dump_status_json_ok `{JsonText} status history :
  status_recordable status -> status_in_range status -> status_texts_ok status ->
  rs_profile_name status <> "" -> make_private_history status = Ok history ->
  exists content, dump_status_json status = Ok content /\
    parse_document content 1 "private history" = Ok (reread (private_object history)).
Proof.
  intros Hrec Hr Ht Hn Hmk. pose proof (private_object_wf status Hr Ht _ Hrec Hmk) as Hwf.
  destruct (make_private_representable _ Hrec) as (history' & Hmk' & Hi & _).
  rewrite Hmk in Hmk'. injection Hmk' as <-.
  destruct (json_dump_ok _ Hwf) as (content & Hc). exists content.
  unfold dump_status_json, validate_status.
  destruct (String.eqb_spec (rs_profile_name status) ""); [done|].
  destruct Hrec as [[Hcons _] _]. rewrite (proj2 (validate_run_status_Ok status) Hcons).
  cbn [negb require mbind res_bind]. rewrite Hmk. cbn [mbind res_bind]. unfold serialize_private.
  rewrite Hi. cbn [require mbind res_bind]. split; [done|]. by apply parse_document_dump.
Qed.

(** ** Theorems *)

(** Writing the current status of a publishable status succeeds, and the file
    that is written reads back as the public view of that status: [parse_public]
    inverts the writer, whose document has members the reader does not know. *)
Theorem current_status_round_trip `{JsonText} root status :
  status_publishable status -> status_in_range status -> status_texts_ok status ->
  rs_profile_name status <> "" ->
  exists pub content,
    make_public_status status = Ok pub /\
    current_status_ops root status =
      Ok [EnsureDirectory (path_append root (id_value (rs_profile_id status))) 493;
          WriteAtomically (path_append (path_append root (id_value (rs_profile_id status)))
            "current.json") content 420] /\
    parse_public content = Ok pub.
Proof.
  intros Hp Hr Ht Hn. destruct (make_public_representable _ Hp) as (pub & Hmk & Hrep).
  destruct (dump_public_status_json_ok _ _ Hp Hr Ht Hn Hmk) as (content & Hc & Hparse).
  exists pub, content. split; [done|]. unfold current_status_ops, parse_public.
  rewrite Hc, Hparse. split; [done|]. cbn [mbind res_bind].
  apply parse_public_object_reads; [apply public_document_reads|done].
Qed.

(** Writing the history entry of a recordable status succeeds: the directory is
    private, the run's own document is written before the cached copy, and both read
    back as the history of that status. *)
Theorem history_entry_round_trip `{JsonText} root status :
  status_recordable status -> status_in_range status -> status_texts_ok status ->
  rs_profile_name status <> "" ->
  exists history content,
    make_private_history status = Ok history /\
    history_entry_ops root status =
      (let directory := path_append root (id_value (rs_profile_id status)) in
       Ok [EnsureDirectory root 448; EnsureDirectory directory 448;
           WriteAtomically (path_append directory (id_value (rs_run_id status) +:+ ".json"))
             content 384;
           WriteAtomically (path_append directory "last.json") content 384]) /\
    parse_private content = Ok history.
Proof.
  intros Hrec Hr Ht Hn. destruct (make_private_representable _ Hrec) as (history & Hmk & Hrep).
  destruct (dump_status_json_ok _ _ Hrec Hr Ht Hn Hmk) as (content & Hc & Hparse).
  exists history, content. split; [done|]. unfold history_entry_ops, parse_private.
  rewrite Hc, Hparse. split; [done|]. cbn [mbind res_bind].
  apply parse_private_object_reads; [apply reads_reread|done].
Qed.

(** A failed run of one source. *)
Definition sample_status : RunStatus :=
  mkRunStatus (@mkIdent KProfile "main" I) "Main" (@mkIdent KRun "run-2" I) StatusBackup
    StateFailed PhaseAfterSnapshotHook "hook failed" "Home" "backup" 1 1 1709210096123456789
    1709210098000000000 (Some 1709210098000000000)
    (Some (mkRunError BackupFailed "hook failed" true "inspect-hook-program"))
    [("action", DetailString "after-snapshot-hook"); ("sourceId", DetailString "home")] false
    (mkRunProgress 0 None 6000 0 None None (Some 75) Estimated) 1.

Lemma sample_status_recordable : status_recordable sample_status.
Proof.
  split; [|cbn; split_and!; try lia; split; repeat constructor].
  split_and!; try done; by eexists.
Qed.

Lemma sample_status_in_range : status_in_range sample_status.
Proof. unfold status_in_range. cbn -[Z.pow]. lia. Qed.

Lemma sample_status_texts : status_texts_ok (H:=bits_text) sample_status.
Proof. split; repeat constructor. Qed.

Lemma current_status_round_trip_witness :
  exists pub content,
    make_public_status sample_status = Ok pub /\ pub_error_code pub = ErrorFailed /\
    parse_public (H:=bits_text) content = Ok pub.
Proof.
  destruct (current_status_round_trip (H:=bits_text) "/run/btrfs-backup/status" sample_status
    (proj1 sample_status_recordable) sample_status_in_range sample_status_texts ltac:(done))
    as (pub & content & Hmk & _ & Hparse).
  exists pub, content. split; [exact Hmk|]. split; [|exact Hparse].
  injection Hmk as <-. reflexivity.
Defined.

Lemma history_entry_round_trip_witness :
  exists history content,
    make_private_history sample_status = Ok history /\
    prv_run_bytes_processed history = 6000 /\ parse_private (H:=bits_text) content = Ok history.
Proof.
  destruct (history_entry_round_trip (H:=bits_text) "/var/lib/btrfs-backup/history" sample_status
    sample_status_recordable sample_status_in_range sample_status_texts ltac:(done))
    as (history & content & Hmk & _ & Hparse).
  exists history, content. split; [exact Hmk|]. split; [|exact Hparse].
  injection Hmk as <-. reflexivity.
Defined.
