(* ===== verification/StatusProjection.v ===== *)
(** * Publishing the status of a run (src/state/projection)

    StatusPublicationPolicy limits how often progress is published;
    RunStatusProjection is the event sink that turns the events of a run into the
    current status and the history.  The file operations are a parameter: any of
    them may fail at any time. *)

From S2P Require Import Prelude Errors Identifiers RuntimeTime FsPath RunActions RunContext.
From S2P Require Import Json RunStatus StatusBuilder StatusDocument.

Open Scope Z_scope.

(** ** StatusPublicationPolicy *)

(** src/state/projection/StatusPublicationPolicy.hpp:31-37 *)
Record PublishedStatus := mkPublished {
  ps_phase : RunPhase;
  ps_source_name : string;
  ps_source_index : Z;
  ps_source_percent : option Z;
  ps_overall_percent : option Z;
}.

(** src/state/projection/StatusPublicationPolicy.hpp:39-40 *)
Record StatusPublicationPolicy := mkPolicy {
  published_status : option PublishedStatus;
  progress_elapsed_ms : option Z;
}.

(** src/state/projection/StatusPublicationPolicy.cpp:13-14 *)
Definition progress_publication_interval_ms : Z := 1000.
Definition progress_publication_threshold : Z := 5.

(** src/state/projection/StatusPublicationPolicy.cpp:16-21 *)
Definition percentage_changed_by_threshold (current published : option Z) : bool :=
  match current, published with
  | Some c, Some q => progress_publication_threshold <=? Z.abs (c - q)
  | None, None => false
  | _, _ => true
  end.

(** src/state/projection/StatusPublicationPolicy.cpp:25-47 *)
Definition should_publish (policy : StatusPublicationPolicy) (kind : BackupRunEventKind)
    (status : RunStatus) (elapsed_ms : Z) : bool :=
  if negb (bool_decide (kind = KindTransferProgress)) then true
  else
    match published_status policy with
    | None => true
    | Some published =>
        if negb (bool_decide (rs_phase status = ps_phase published)) ||
           negb (rs_current_source_name status =? ps_source_name published)%string ||
           negb (rs_source_index status =? ps_source_index published) then true
        else if percentage_changed_by_threshold (source_percent (rs_progress status))
                  (ps_source_percent published) ||
                percentage_changed_by_threshold (overall_percent (rs_progress status))
                  (ps_overall_percent published) then true
        else
          match progress_elapsed_ms policy with
          | None => true
          | Some previous =>
              if elapsed_ms <? previous then true
              else progress_publication_interval_ms <=? elapsed_ms - previous
          end
    end.

(** src/state/projection/StatusPublicationPolicy.cpp:49-63 *)
Definition record_publication (policy : StatusPublicationPolicy) (kind : BackupRunEventKind)
    (status : RunStatus) (elapsed_ms : Z) : StatusPublicationPolicy :=
  mkPolicy
    (Some (mkPublished (rs_phase status) (rs_current_source_name status) (rs_source_index status)
       (source_percent (rs_progress status)) (overall_percent (rs_progress status))))
    (if bool_decide (kind = KindTransferProgress) then Some elapsed_ms
     else progress_elapsed_ms policy).

(** src/state/projection/StatusPublicationPolicy.cpp:65-68 *)
Definition policy_reset : StatusPublicationPolicy := mkPolicy None None.

(** ** RunStatusProjection *)

(** src/state/projection/RunStatusProjection.cpp:17-19 *)
Definition should_write_status (kind : BackupRunEventKind) : bool :=
  match kind with KindCheckpointWritten => false | _ => true end.

(** src/state/projection/RunStatusProjection.cpp:21-29 *)
Definition should_write_history (kind : BackupRunEventKind) (op : OperationKind) : bool :=
  match op, kind with
  | Backup, (KindRunFailed | KindRunCompleted | KindRunCancelled) => true
  | _, _ => false
  end.

(** src/state/projection/RunStatusProjection.cpp:31-36 *)
Definition is_terminal_event (kind : BackupRunEventKind) : bool :=
  match kind with
  | KindTargetValidationCompleted | KindRunCompleted | KindRunFailed | KindRunCancelled => true
  | _ => false
  end.

(** src/state/projection/RunStatusProjection.hpp:25-30 *)
Record PendingActionFailure := mkPendingFailure {
  pf_run_id : RunId;
  pf_source_id : SourceId;
  pf_source_index : Z;
  pf_action_kind : BackupRunActionKind;
}.

(** The members that change. src/state/projection/RunStatusProjection.hpp:35-41 *)
Record Projection := mkProjection {
  publication_policy : StatusPublicationPolicy;
  pj_run_id : option RunId;
  pj_operation_kind : OperationKind;
  pending_action_failure : option PendingActionFailure;
  run_started : bool;
  last_overall_progress : Z;
  run_bytes_processed : Z;
}.

(** src/state/projection/RunStatusProjection.hpp:35-41 *)
Definition initial_projection : Projection := mkProjection policy_reset None Backup None false (-1) 0.

(** [data.operation_kind = operation_kind] *)
Definition set_operation_kind (data : RunEventData) (op : OperationKind) : RunEventData :=
  mkEventData (ed_kind data) op (ed_profile_id data) (ed_run_id data) (ed_source_id data)
    (ed_source_index data) (ed_action_kind data) (ed_transfer_stage data)
    (ed_bytes_transferred data) (ed_bytes_produced data) (ed_bytes_total_estimated data)
    (ed_run_bytes_transferred data) (ed_delta_bytes data) (ed_elapsed_ms data)
    (ed_speed_bps data) (ed_error_code data) (ed_message data).

(** The source and the action of a failure, in the data of the event.
    src/state/projection/RunStatusProjection.cpp:79-81 *)
Definition attribute_failure (data : RunEventData) (failure : PendingActionFailure) : RunEventData :=
  mkEventData (ed_kind data) (ed_operation_kind data) (ed_profile_id data) (ed_run_id data)
    (Some (pf_source_id failure)) (pf_source_index failure) (Some (pf_action_kind failure))
    (ed_transfer_stage data) (ed_bytes_transferred data) (ed_bytes_produced data)
    (ed_bytes_total_estimated data) (ed_run_bytes_transferred data) (ed_delta_bytes data)
    (ed_elapsed_ms data) (ed_speed_bps data) (ed_error_code data) (ed_message data).

(** src/state/projection/RunStatusProjection.cpp:50-68 *)
Definition enter_event (s : Projection) (data : RunEventData) : Projection :=
  let started := bool_decide (ed_kind data = KindRunStarted) in
  let s :=
    if negb (bool_decide (pj_run_id s = Some (ed_run_id data))) then
      mkProjection policy_reset (Some (ed_run_id data)) (ed_operation_kind data) None started (-1) 0
    else if started then
      mkProjection policy_reset (pj_run_id s) (ed_operation_kind data) None true (-1) 0
    else s in
  if bool_decide (ed_kind data = KindTargetValidationCompleted)
  then mkProjection (publication_policy s) (pj_run_id s) TargetValidation
         (pending_action_failure s) (run_started s) (last_overall_progress s) (run_bytes_processed s)
  else s.

(** [pending_action_failure_ = failure] *)
Definition set_pending (s : Projection) (failure : option PendingActionFailure) : Projection :=
  mkProjection (publication_policy s) (pj_run_id s) (pj_operation_kind s) failure (run_started s)
    (last_overall_progress s) (run_bytes_processed s).

(** src/state/projection/RunStatusProjection.cpp:70-82 *)
Definition note_failure (s : Projection) (data : RunEventData) : Projection * RunEventData :=
  match ed_kind data, ed_source_id data, ed_action_kind data with
  | KindActionFailed, Some source, Some kind =>
      (set_pending s (Some (mkPendingFailure (ed_run_id data) source (ed_source_index data) kind)),
       data)
  | KindRunFailed, _, _ =>
      (s, match pending_action_failure s with
          | Some failure =>
              if bool_decide (pf_run_id failure = ed_run_id data)
              then attribute_failure data failure else data
          | None => data
          end)
  | _, _, _ => (s, data)
  end.

(** [status.progress.run_processed_bytes = bytes] *)
Definition set_run_bytes (status : RunStatus) (bytes : Z) : RunStatus :=
  let g := rs_progress status in
  mkRunStatus (rs_profile_id status) (rs_profile_name status) (rs_run_id status)
    (rs_operation_kind status) (rs_state status) (rs_phase status) (rs_message status)
    (rs_current_source_name status) (rs_target_name status) (rs_source_index status)
    (rs_source_count status) (rs_started_at status) (rs_updated_at status)
    (rs_finished_at status) (rs_error status) (rs_details status) (rs_can_cancel status)
    (mkRunProgress (processed_bytes g) (estimated_bytes g) bytes (speed_bps g) (eta_seconds g)
       (source_percent g) (overall_percent g) (accuracy g)) (rs_exit_code status).

(** What the projection asks to be written. *)
Inductive StatusWrite := CurrentStatus (status : RunStatus) | HistoryEntry (status : RunStatus).

(** The status of an event, and the state after it was built: [p] is the mantissa of
    [long double], [now] the time.
    src/state/projection/RunStatusProjection.cpp:45-90 *)
Definition project_event (p : Z) (now : RuntimeTimePoint) (context : BackupRunStatusContext)
    (s : Projection) (event : BackupRunEvent) : Projection * RunEventData * RunStatus :=
  let data := event_projection_data event in
  let s := enter_event s data in
  let data := set_operation_kind data (pj_operation_kind s) in
  let '(s, data) := note_failure s data in
  let status := status_for_event p now context data (last_overall_progress s) in
  let bytes := Z.max (run_bytes_processed s) (run_processed_bytes (rs_progress status)) in
  let status := if is_terminal_event (ed_kind data) then set_run_bytes status bytes else status in
  let overall := default (last_overall_progress s) (overall_percent (rs_progress status)) in
  (mkProjection (publication_policy s) (pj_run_id s) (pj_operation_kind s)
     (pending_action_failure s) (run_started s) overall bytes, data, status).

(** [publication_policy_.record_publication(...)] *)
Definition set_published (s : Projection) (data : RunEventData) (status : RunStatus) : Projection :=
  mkProjection
    (record_publication (publication_policy s) (ed_kind data) status (ed_elapsed_ms data))
    (pj_run_id s) (pj_operation_kind s) (pending_action_failure s) (run_started s)
    (last_overall_progress s) (run_bytes_processed s).

(** src/state/projection/RunStatusProjection.cpp:99-102 *)
Definition leave_event (s : Projection) (data : RunEventData) : Projection :=
  if is_terminal_event (ed_kind data)
  then mkProjection (publication_policy s) (pj_run_id s) (pj_operation_kind s) None false
         (last_overall_progress s) (run_bytes_processed s)
  else s.

(** [(kind != RunFailed || run_started_) && should_publish(...)] *)
Definition publishes (s : Projection) (data : RunEventData) (status : RunStatus) : bool :=
  (negb (bool_decide (ed_kind data = KindRunFailed)) || run_started s) &&
  should_publish (publication_policy s) (ed_kind data) status (ed_elapsed_ms data).

Section projection.
Context `{JsonText} {W : Type} (files : FileOp -> W -> res unit * W)
  (p : Z) (context : BackupRunStatusContext).

(** File operations, one after the other until one throws. *)
Fixpoint perform (ops : list FileOp) (w : W) : res unit * W :=
  match ops with
  | [] => (Ok tt, w)
  | op :: ops =>
      match files op w with
      | (Ok _, w) => perform ops w
      | (Throw e, w) => (Throw e, w)
      end
  end.

(** The calls of [write_current_status] and [write_history_entry]. *)
Definition write (x : StatusWrite) (w : W) : res unit * W :=
  match (match x with
         | CurrentStatus status => current_status_ops (status_root context) status
         | HistoryEntry status => history_entry_ops (history_root context) status
         end) with
  | Ok ops => perform ops w
  | Throw e => (Throw e, w)
  end.

(** A result, the state of the projection, the writes that were tried, the world.
    src/state/projection/RunStatusProjection.cpp:44-103 *)
Definition on_backup_run_event (now : RuntimeTimePoint) (event : BackupRunEvent)
    (s : Projection) (w : W) : res unit * Projection * list StatusWrite * W :=
  if negb (should_write_status (backup_run_event_kind event)) then (Ok tt, s, [], w)
  else
    let '(s, data, status) := project_event p now context s event in
    let '(r, s, writes, w) :=
      if publishes s data status then
        match write (CurrentStatus status) w with
        | (Ok _, w) => (Ok tt, set_published s data status, [CurrentStatus status], w)
        | (Throw e, w) => (Throw e, s, [CurrentStatus status], w)
        end
      else (Ok tt, s, [], w) in
    match r with
    | Throw e => (Throw e, s, writes, w)
    | Ok _ =>
        let '(r, writes, w) :=
          if should_write_history (ed_kind data) (ed_operation_kind data) then
            match write (HistoryEntry status) w with
            | (r, w) => (r, writes ++ [HistoryEntry status], w)
            end
          else (Ok tt, writes, w) in
        match r with
        | Throw e => (Throw e, s, writes, w)
        | Ok _ => (Ok tt, leave_event s data, writes, w)
        end
    end.

(** The events of a run, as they reach the sink, with the result of each; an
    exception is the caller's, the sink goes on with the next event. *)
Fixpoint on_events (events : list (RuntimeTimePoint * BackupRunEvent)) (s : Projection) (w : W)
    : list (res unit) * Projection * list StatusWrite * W :=
  match events with
  | [] => ([], s, [], w)
  | (now, event) :: events =>
      let '(r, s, writes, w) := on_backup_run_event now event s w in
      let '(rs, s, more, w) := on_events events s w in
      (r :: rs, s, writes ++ more, w)
  end.
End projection.

(** ** Bounds *)

(** The numbers of an event have their width, and its source is one of those the
    context counts. *)
Definition event_bounded (context : BackupRunStatusContext) (event : BackupRunEvent) : Prop :=
  let data := event_projection_data event in
  event_in_range data /\
  0 <= ed_bytes_produced data < 2 ^ 64 /\ 0 <= ed_delta_bytes data < 2 ^ 64 /\
  0 <= ed_elapsed_ms data < 2 ^ 64 /\
  0 <= ed_source_index data <= ctx_source_count context.

(** What the members of the projection satisfy at any time. *)
Definition projection_ok (context : BackupRunStatusContext) (s : Projection) : Prop :=
  -1 <= last_overall_progress s <= 100 /\ 0 <= run_bytes_processed s < 2 ^ 64 /\
  (forall f, pending_action_failure s = Some f ->
     0 <= pf_source_index f <= ctx_source_count context).

Lemma details_for_event_canonical data : details_canonical (details_for_event data).
Proof.
  unfold details_for_event. split.
  - destruct (ed_kind data); repeat constructor.
  - destruct (ed_kind data); repeat constructor.
Qed.

Lemma valid_percent_of o : percent o -> valid_percent o = true.
Proof.
  destruct o as [z|]; [|done]. intros H. specialize (H z eq_refl). cbn.
  by destruct (Z.ltb_spec z 0), (Z.ltb_spec 100 z); try lia.
Qed.

Lemma status_for_event_error p now context data m :
  terminal (rs_state (status_for_event p now context data m)) = false ->
  rs_error (status_for_event p now context data m) = None.
Proof.
  unfold status_for_event, state_for_event, error_for_event.
  destruct (ed_kind data); cbn; try done; repeat case_match; done.
Qed.

Section bounds.
Context (p : Z) (now : RuntimeTimePoint) (context : BackupRunStatusContext).
Context (Hp : 64 <= p) (Hcount : ctx_source_count context < 2 ^ 31).

Lemma progress_in_range data m :
  event_in_range data ->
  let g := progress_for_event p context data m in
  0 <= processed_bytes g < 2 ^ 64 /\ 0 <= run_processed_bytes g < 2 ^ 64 /\
  0 <= speed_bps g < 2 ^ 64 /\ (forall z, estimated_bytes g = Some z -> 0 < z < 2 ^ 64).
Proof.
  intros (? & ? & ? & ?). unfold progress_for_event. cbn -[Z.pow].
  case_bool_decide; cbn -[Z.pow]; [|split_and!; try done; lia].
  split_and!; try lia; [case_match; lia|case_match; lia|].
  destruct (Z.eqb_spec (ed_bytes_total_estimated data) 0); [done|]. intros z [= <-]. lia.
Qed.

(** A status built from an event in range, of one of the sources, can be published
    and recorded. *)
Lemma status_for_event_recordable data m :
  event_in_range data -> 0 <= ed_source_index data <= ctx_source_count context -> m <= 100 ->
  status_recordable (status_for_event p now context data m) /\
  status_in_range (status_for_event p now context data m).
Proof using Hp Hcount.
  intros Hr Hi Hm. pose proof (status_for_event_consistent p now context data m) as Hc.
  pose proof (status_for_event_error p now context data m) as He.
  pose proof (progress_bounds p context data m Hp Hr ltac:(lia) Hm) as (Hs & Ho & Ht).
  pose proof (progress_in_range data m Hr) as (Hb & Hrb & Hsp & Hest).
  assert (Hx : - 2 ^ 31 <= rs_exit_code (status_for_event p now context data m) < 2 ^ 31).
  { unfold status_for_event, state_for_event.
    destruct (ed_kind data), (bool_decide (ed_operation_kind data = TargetValidation)); cbn; lia. }
  unfold status_for_event in *. destruct (state_for_event data) as [[[state phase] code] fin].
  set (g := progress_for_event p context data m) in *. clearbody g.
  assert (Hd := details_for_event_canonical data).
  unfold status_recordable, status_publishable, status_in_range.
  cbn [rs_state rs_error rs_progress rs_source_index rs_source_count rs_exit_code rs_details] in *.
  apply valid_percent_of in Hs, Ho. unfold int_max in Ht.
  destruct (estimated_bytes g) as [z|]; [specialize (Hest z eq_refl)|];
    (destruct (eta_seconds g) as [eta|]; [specialize (Ht eta eq_refl)|]); cbn [from_option id];
    split_and!; try done; try lia; try (intros [=]; lia); intros ? [= <-]; lia.
Qed.
End bounds.

(** The status a write carries. *)
Definition write_status (x : StatusWrite) : RunStatus :=
  match x with CurrentStatus status | HistoryEntry status => status end.

Lemma note_failure_data context s data s' data' :
  projection_ok context s -> event_in_range data ->
  0 <= ed_source_index data <= ctx_source_count context ->
  note_failure s data = (s', data') ->
  projection_ok context s' /\ event_in_range data' /\
  0 <= ed_source_index data' <= ctx_source_count context /\ ed_kind data' = ed_kind data /\
  last_overall_progress s' = last_overall_progress s /\
  run_bytes_processed s' = run_bytes_processed s.
Proof.
  intros (Ho & Hb & Hf) Hr Hi. unfold note_failure, projection_ok.
  destruct (ed_kind data) eqn:Hk, (ed_source_id data), (ed_action_kind data);
    try (intros [= <- <-]; split_and!; done || lia);
    try (intros [= <- <-]; cbn; split_and!; try done; try lia; intros f [= <-]; cbn; lia).
  all: destruct (pending_action_failure s) as [f|] eqn:E; [case_bool_decide|];
    intros [= <- <-]; rewrite ?E; split_and!; try done; try lia; cbn; specialize (Hf f eq_refl); lia.
Qed.

Lemma enter_event_ok context s data :
  projection_ok context s -> projection_ok context (enter_event s data).
Proof.
  intros (Ho & Hb & Hf). unfold enter_event, projection_ok.
  repeat case_match; cbn; split_and!; done || lia || (intros f; congruence) || auto.
Qed.

Section projection_facts.
Context (p : Z) (context : BackupRunStatusContext).

(** Building the status of an event keeps the invariant. *)
Lemma project_event_ok now s event s' data status :
  64 <= p -> ctx_source_count context < 2 ^ 31 ->
  projection_ok context s -> event_bounded context event ->
  project_event p now context s event = (s', data, status) ->
  projection_ok context s' /\ status_recordable status /\ status_in_range status /\
  ed_kind data = backup_run_event_kind event.
Proof.
  intros Hp Hc Hs (Hr & _ & _ & _ & Hi). unfold project_event.
  set (d0 := event_projection_data event) in *. set (s0 := enter_event s d0).
  assert (Hs0 : projection_ok context s0) by by apply enter_event_ok.
  destruct (note_failure s0 _) as [s1 d1] eqn:En. intros [= <- <- <-].
  destruct (note_failure_data context s0 (set_operation_kind d0 (pj_operation_kind s0)) s1 d1
    Hs0 Hr Hi En) as (Hs1 & Hr1 & Hi1 & Hk & _ & _).
  destruct Hs1 as (Ho & Hb & Hf).
  destruct (status_for_event_recordable p now context Hp Hc d1 (last_overall_progress s1) Hr1 Hi1
    ltac:(lia)) as [Hrec Hrange].
  set (status := status_for_event p now context d1 (last_overall_progress s1)) in *. clearbody status.
  assert (Hov : -1 <= default (last_overall_progress s1) (overall_percent (rs_progress status)) <= 100).
  { destruct Hrec as [(_ & _ & _ & Hv & _) _]. destruct (overall_percent (rs_progress status)); cbn in *;
      [breflect|]; lia. }
  assert (Hrb : 0 <= run_processed_bytes (rs_progress status) < 2 ^ 64)
    by apply Hrange.
  split_and!.
  - unfold projection_ok. cbn -[Z.pow]. split_and!; try done; try lia; by case_match; apply Hov.
  - by case_match.
  - case_match; [|done]. destruct Hrange as (? & ? & ? & ? & ? & ? & ? & ?).
    unfold status_in_range. cbn -[Z.pow]. split_and!; try done; lia.
  - rewrite Hk. by destruct event.
Qed.
End projection_facts.

(** ** The events of one run *)

(** An event of run [r] after the first. *)
Definition follows (r : RunId) (event : BackupRunEvent) : Prop :=
  backup_run_event_run_id event = r /\ backup_run_event_kind event <> KindRunStarted.

(** The bytes an event reports for the run. *)
Definition event_run_bytes (event : BackupRunEvent) : Z :=
  match event with
  | TransferProgress _ _ _ _ g =>
      if tp_run_bytes_transferred g =? 0 then tp_bytes_transferred g else tp_run_bytes_transferred g
  | _ => 0
  end.

Lemma data_kind event : ed_kind (event_projection_data event) = backup_run_event_kind event.
Proof. by destruct event. Qed.

Lemma data_run_id event : ed_run_id (event_projection_data event) = backup_run_event_run_id event.
Proof. by destruct event. Qed.

Lemma progress_run_bytes p context event op m :
  run_processed_bytes (progress_for_event p context
    (set_operation_kind (event_projection_data event) op) m) = event_run_bytes event.
Proof. by destruct event. Qed.

(** An event that follows keeps what the projection knows of the run. *)
Lemma enter_event_follows s event r :
  pj_run_id s = Some r -> follows r event ->
  enter_event s (event_projection_data event) =
    mkProjection (publication_policy s) (pj_run_id s)
      (match event with TargetValidationCompleted _ _ => TargetValidation | _ => pj_operation_kind s end)
      (pending_action_failure s) (run_started s) (last_overall_progress s) (run_bytes_processed s).
Proof.
  intros Hs [Hr Hk]. unfold enter_event. rewrite data_kind, data_run_id, Hr, Hs.
  rewrite (bool_decide_eq_true_2 (Some r = Some r)) by done. cbn [negb].
  rewrite (bool_decide_eq_false_2 _ Hk). destruct s, event; cbn in *; by simplify_eq.
Qed.

Lemma note_failure_run s data s' data' :
  note_failure s data = (s', data') ->
  publication_policy s' = publication_policy s /\ pj_run_id s' = pj_run_id s /\
  pj_operation_kind s' = pj_operation_kind s /\ run_started s' = run_started s /\
  last_overall_progress s' = last_overall_progress s /\
  run_bytes_processed s' = run_bytes_processed s /\
  ed_kind data' = ed_kind data /\ ed_operation_kind data' = ed_operation_kind data /\
  ed_run_id data' = ed_run_id data /\
  (forall p context m, run_processed_bytes (progress_for_event p context data' m) =
     run_processed_bytes (progress_for_event p context data m)).
Proof.
  unfold note_failure.
  destruct (ed_kind data) eqn:Hk, (ed_source_id data), (ed_action_kind data);
    try (by intros [= <- <-]; cbn; split_and!).
  all: destruct (pending_action_failure s); [case_bool_decide|]; intros [= <- <-]; by split_and!.
Qed.

Lemma status_for_event_progress p now context data m :
  rs_progress (status_for_event p now context data m) = progress_for_event p context data m.
Proof. unfold status_for_event. by destruct (state_for_event data) as [[[? ?] ?] ?]. Qed.

(** What building a status does with the members of the projection, for an event that
    follows: the overall percentage does not decrease and the bytes of the run are the
    largest number seen. *)
Lemma project_event_follows p now context s event r s' data status :
  pj_run_id s = Some r -> follows r event ->
  project_event p now context s event = (s', data, status) ->
  pj_run_id s' = Some r /\ run_started s' = run_started s /\
  publication_policy s' = publication_policy s /\
  pj_operation_kind s' = ed_operation_kind data /\
  ed_operation_kind data =
    (match event with TargetValidationCompleted _ _ => TargetValidation | _ => pj_operation_kind s end) /\
  ed_kind data = backup_run_event_kind event /\
  last_overall_progress s <= last_overall_progress s' /\
  (forall o, overall_percent (rs_progress status) = Some o -> o = last_overall_progress s') /\
  run_bytes_processed s' = Z.max (run_bytes_processed s) (event_run_bytes event) /\
  run_processed_bytes (rs_progress status) =
    (if is_terminal event then run_bytes_processed s' else event_run_bytes event).
Proof.
  intros Hs Hf. unfold project_event. rewrite (enter_event_follows _ _ _ Hs Hf).
  cbn [pj_operation_kind]. set (op := match event with TargetValidationCompleted _ _ => _ | _ => _ end).
  destruct (note_failure _ _) as [s1 d1] eqn:En. intros [= <- <- <-].
  apply note_failure_run in En as (Hpol & Hid & Hop & Hst & Hov & Hb & Hk & Hdo & _ & Hg).
  cbn -[progress_for_event] in Hpol, Hid, Hop, Hst, Hov, Hb, Hk, Hdo, Hg |- *.
  rewrite data_kind in Hk.
  assert (Hkind : is_terminal_event (ed_kind d1) = is_terminal event) by (rewrite Hk; by destruct event).
  rewrite Hkind, !status_for_event_progress, Hg, progress_run_bytes.
  assert (Hpct : overall_percent (rs_progress (if is_terminal event
      then set_run_bytes (status_for_event p now context d1 (last_overall_progress s1))
             (Z.max (run_bytes_processed s1) (event_run_bytes event))
      else status_for_event p now context d1 (last_overall_progress s1))) =
    overall_percent (progress_for_event p context d1 (last_overall_progress s1)))
    by (rewrite <- (status_for_event_progress p now); by destruct (is_terminal event)).
  rewrite Hpct. clear Hpct. split_and!; try congruence.
  - destruct (overall_percent (progress_for_event p context d1 (last_overall_progress s1)))
      as [o|] eqn:E; cbn [from_option id]; [|lia].
    apply overall_at_least in E; [lia|]. rewrite Hk. apply Hf.
  - intros o ->. done.
  - destruct (is_terminal event); [done|].
    by rewrite status_for_event_progress, Hg, progress_run_bytes.
Qed.

Section sink.
Context `{JsonText} {W : Type} (files : FileOp -> W -> res unit * W)
  (p : Z) (context : BackupRunStatusContext).

(** A state the sink can be in, whatever the files did. *)
Inductive reachable : Projection -> Prop :=
| reachable_initial : reachable initial_projection
| reachable_event now event s w r s' writes w' :
    reachable s -> event_bounded context event ->
    on_backup_run_event files p context now event s w = (r, s', writes, w') -> reachable s'.

(** What one event does: nothing for a checkpoint; otherwise the status is built, and
    at most published, recorded, and the run left, in this order. *)
Lemma on_event_inv now event s w r s' writes w' :
  on_backup_run_event files p context now event s w = (r, s', writes, w') ->
  (backup_run_event_kind event = KindCheckpointWritten /\ r = Ok tt /\ s' = s /\ writes = []) \/
  exists s1 data status,
    project_event p now context s event = (s1, data, status) /\
    (s' = s1 \/ s' = set_published s1 data status \/ s' = leave_event s1 data \/
     s' = leave_event (set_published s1 data status) data) /\
    Forall (λ x, write_status x = status) writes /\
    (forall e, r = Throw e -> exists x w1 w2, x ∈ writes /\ write files context x w1 = (Throw e, w2)) /\
    (r = Ok tt ->
     writes = (if publishes s1 data status then [CurrentStatus status] else []) ++
       (if should_write_history (ed_kind data) (ed_operation_kind data)
        then [HistoryEntry status] else []) /\
     s' = leave_event (if publishes s1 data status then set_published s1 data status else s1) data).
Proof.
  unfold on_backup_run_event. destruct (should_write_status _) eqn:Hk; cbn [negb].
  2: { intros [= <- <- <- <-]. left. by destruct (backup_run_event_kind event). }
  destruct (project_event p now context s event) as [[s1 data] status] eqn:Hp. intros Heq. right.
  exists s1, data, status. split; [done|].
  destruct (publishes s1 data status); [destruct (write _ _ (CurrentStatus status) w) as [[[]|e1] w1] eqn:H1|];
    [| simplify_eq; split_and!; [by left|by repeat constructor|intros e [= <-]|done]; 
       exists (CurrentStatus status), w, w'; split; [left|done] |];
    (destruct (should_write_history _ _);
      [match type of Heq with context [write files context (HistoryEntry status) ?v] =>
         destruct (write files context (HistoryEntry status) v) as [[[]|e2] w2] eqn:H2 end|]);
    simplify_eq; split_and!; try done; auto 10; try (by repeat constructor);
    intros e [= <-]; eexists (HistoryEntry status), _, _; (split; [|exact H2]); set_solver.
Qed.

Lemma leave_event_ok s data : projection_ok context s -> projection_ok context (leave_event s data).
Proof. intros (? & ? & ?). unfold leave_event, projection_ok. case_match; cbn; split_and!; done || lia. Qed.

Lemma on_event_ok now event s w r s' writes w' :
  64 <= p -> ctx_source_count context < 2 ^ 31 ->
  projection_ok context s -> event_bounded context event ->
  on_backup_run_event files p context now event s w = (r, s', writes, w') ->
  projection_ok context s' /\
  Forall (λ x, status_recordable (write_status x) /\ status_in_range (write_status x)) writes.
Proof.
  intros Hp Hc Hs He [(_ & _ & -> & ->)|(s1 & data & status & Hev & Hs' & Hw & _)]%on_event_inv;
    [by split|].
  destruct (project_event_ok p context _ _ _ _ _ _ Hp Hc Hs He Hev) as (Hs1 & Hrec & Hr & _).
  split.
  - pose proof Hs1 as (? & ? & ?). destruct_or! Hs'; subst; try done; apply leave_event_ok; done.
  - eapply Forall_impl; [exact Hw|]. by intros x ->.
Qed.

Lemma reachable_ok s :
  64 <= p -> ctx_source_count context < 2 ^ 31 -> reachable s -> projection_ok context s.
Proof.
  intros Hp Hc. induction 1 as [|now event s w r s' writes w' _ IH He Hev].
  - unfold projection_ok. cbn. split_and!; done || lia.
  - by apply (on_event_ok _ _ _ _ _ _ _ _ Hp Hc IH He) in Hev as [? _].
Qed.

Lemma perform_throw ops w e w' :
  perform files ops w = (Throw e, w') -> exists op w1 w2, files op w1 = (Throw e, w2).
Proof.
  induction ops as [|op ops IH] in w |- *; [done|]. cbn.
  destruct (files op w) as [[u|e0] w1] eqn:E; [apply IH|]. intros [= -> ->]. by eexists _, _, _.
Qed.

(** Writing a status that is in order fails only if the files do. *)
Lemma write_throw x w e w' :
  status_recordable (write_status x) -> status_in_range (write_status x) ->
  status_texts_ok (write_status x) -> rs_profile_name (write_status x) <> "" ->
  write files context x w = (Throw e, w') -> exists op w1 w2, files op w1 = (Throw e, w2).
Proof.
  intros Hrec Hr Ht Hn. unfold write. destruct x as [status|status]; cbn [write_status] in *.
  - destruct (make_public_representable status) as (pub & Hmk & _); [apply Hrec|].
    destruct (dump_public_status_json_ok _ _ (proj1 Hrec) Hr Ht Hn Hmk) as (content & Hc & _).
    unfold current_status_ops. rewrite Hc. cbn [mbind res_bind]. apply perform_throw.
  - destruct (make_private_representable status Hrec) as (history & Hmk & _).
    destruct (dump_status_json_ok _ _ Hrec Hr Ht Hn Hmk) as (content & Hc & _).
    unfold history_entry_ops. rewrite Hc. cbn [mbind res_bind]. apply perform_throw.
Qed.

Lemma project_event_profile_name now s event s' data status :
  project_event p now context s event = (s', data, status) ->
  rs_profile_name status = ctx_profile_name context.
Proof.
  unfold project_event. destruct (note_failure _ _). intros [= _ <- <-].
  unfold status_for_event. destruct (state_for_event _) as [[[] ] ]. by case_match.
Qed.

(** The sink never rejects the status of an event: if handling an event throws,
    the file system threw that exception.  Every status built is consistent, its
    percentages are in range and its source index does not exceed the number of
    sources, so no validation on the way to the files fails; this holds in every
    state the sink can reach, also after earlier failures of the files. *)
Theorem sink_fails_only_with_files now event s w e s' writes w' :
  64 <= p -> ctx_source_count context < 2 ^ 31 -> ctx_profile_name context <> "" ->
  reachable s -> event_bounded context event ->
  on_backup_run_event files p context now event s w = (Throw e, s', writes, w') ->
  Forall (λ x, status_texts_ok (write_status x)) writes ->
  exists op w1 w2, files op w1 = (Throw e, w2).
Proof.
  intros Hp Hc Hn Hs He Hev Ht. apply reachable_ok in Hs; [|done..].
  pose proof (on_event_ok _ _ _ _ _ _ _ _ Hp Hc Hs He Hev) as [_ Hw].
  apply on_event_inv in Hev as [(_ & [=] & _)|(s1 & data & status & Hpe & _ & Hst & Hthrow & _)].
  destruct (Hthrow e eq_refl) as (x & w1 & w2 & Hx & Hwr).
  rewrite !Forall_forall in *. destruct (Hw x Hx) as [Hrec Hr].
  eapply write_throw; [exact Hrec|exact Hr|by apply Ht| |exact Hwr].
  rewrite (Hst x Hx), (project_event_profile_name _ _ _ _ _ _ Hpe). done.
Qed.

(** ** One run *)

Definition percents (writes : list StatusWrite) : list Z :=
  omap (λ x, overall_percent (rs_progress (write_status x))) writes.

Definition history_writes (writes : list StatusWrite) : list RunStatus :=
  omap (λ x, match x with HistoryEntry status => Some status | _ => None end) writes.

Lemma percents_app l k : percents (l ++ k) = percents l ++ percents k.
Proof. apply omap_app. Qed.

Lemma percents_all writes status o :
  Forall (λ x, write_status x = status) writes ->
  (forall o', overall_percent (rs_progress status) = Some o' -> o' = o) ->
  Forall (λ o', o' = o) (percents writes).
Proof.
  intros Hw Ho. induction Hw as [|x l Hx _ IH]; [constructor|]. unfold percents. cbn. rewrite Hx.
  destruct (overall_percent (rs_progress status)) eqn:E; [|done].
  constructor; [by apply Ho|done].
Qed.

(** Publishing, recording and leaving do not change what follows. *)
Lemma settled_fields s1 data status s' :
  (s' = s1 \/ s' = set_published s1 data status \/ s' = leave_event s1 data \/
   s' = leave_event (set_published s1 data status) data) ->
  pj_run_id s' = pj_run_id s1 /\ last_overall_progress s' = last_overall_progress s1 /\
  run_bytes_processed s' = run_bytes_processed s1 /\ pj_operation_kind s' = pj_operation_kind s1 /\
  (is_terminal_event (ed_kind data) = false -> run_started s' = run_started s1).
Proof.
  unfold leave_event. intros Hs.
  destruct (is_terminal_event (ed_kind data)); destruct_or! Hs; subst; cbn; by split_and!.
Qed.

Lemma on_event_follows now event s w r rid s' writes w' :
  pj_run_id s = Some rid -> follows rid event -> 0 <= run_bytes_processed s ->
  on_backup_run_event files p context now event s w = (r, s', writes, w') ->
  pj_run_id s' = Some rid /\ last_overall_progress s <= last_overall_progress s' /\
  Forall (λ o, o = last_overall_progress s') (percents writes) /\
  run_bytes_processed s' = Z.max (run_bytes_processed s) (event_run_bytes event).
Proof.
  intros Hid Hf Hb [(Hk & _ & -> & ->)|(s1 & data & status & Hp & Hs' & Hw & _)]%on_event_inv.
  - split_and!; try done. destruct event; try done. cbn. lia.
  - apply (project_event_follows _ _ _ _ _ rid) in Hp as
      (Hid1 & _ & _ & _ & _ & _ & Hov & Ho & Hrb & _); [|done..].
    apply settled_fields in Hs' as (-> & -> & -> & _). split_and!; try done.
    by eapply percents_all.
Qed.

Lemma on_event_started now pid rid op s w r s' writes w' :
  on_backup_run_event files p context now (RunStarted pid rid op) s w = (r, s', writes, w') ->
  pj_run_id s' = Some rid /\ Forall (λ o, o = last_overall_progress s') (percents writes) /\
  run_bytes_processed s' = 0 /\ pj_operation_kind s' = op /\ run_started s' = true /\
  history_writes writes = [].
Proof.
  intros Hev. pose proof Hev as [(Hk & _)|(s1 & data & status & Hp & Hs' & Hw & _)]%on_event_inv; [done|].
  assert (Hkind : ed_kind data = KindRunStarted /\ pj_run_id s1 = Some rid /\
    run_bytes_processed s1 = 0 /\ pj_operation_kind s1 = op /\ run_started s1 = true /\
    (forall o, overall_percent (rs_progress status) = Some o -> o = last_overall_progress s1)).
  { unfold project_event, enter_event in Hp. cbn [event_projection_data ed_kind ed_run_id] in Hp.
    rewrite (bool_decide_eq_true_2 (KindRunStarted = KindRunStarted)) in Hp by done.
    rewrite (bool_decide_eq_false_2 (KindRunStarted = KindTargetValidationCompleted)) in Hp by done.
    case_bool_decide as E; cbn -[status_for_event Z.max] in Hp; injection Hp as <- <- <-;
      cbn -[status_for_event Z.max progress_for_event]; rewrite ?status_for_event_progress;
      split_and!; try done; by intros o ->. }
  destruct Hkind as (Hkd & Hid & Hb & Hop & Hst & Ho).
  apply settled_fields in Hs' as (-> & -> & -> & -> & Hst'). rewrite Hst' by (by rewrite Hkd).
  split_and!; try done; [by eapply percents_all|].
  unfold on_backup_run_event in Hev. cbn [backup_run_event_kind should_write_status negb] in Hev.
  rewrite Hp, Hkd in Hev. cbn [should_write_history] in Hev.
  assert (Hsh : should_write_history KindRunStarted (ed_operation_kind data) = false)
    by (by destruct (ed_operation_kind data)).
  rewrite Hsh in Hev. destruct (publishes s1 data status); [destruct (write _ _ _ _) as [[]]|];
    by simplify_eq.
Qed.

Lemma on_events_cons now event events s w rs s' writes w' :
  on_events files p context ((now, event) :: events) s w = (rs, s', writes, w') ->
  exists r s1 writes1 w1 rs2 writes2,
    on_backup_run_event files p context now event s w = (r, s1, writes1, w1) /\
    on_events files p context events s1 w1 = (rs2, s', writes2, w') /\
    rs = r :: rs2 /\ writes = writes1 ++ writes2.
Proof.
  cbn. destruct (on_backup_run_event _ _ _ _ _ _ _) as [[[r s1] writes1] w1].
  destruct (on_events _ _ _ _ _ _) as [[[rs2 s2] writes2] w2] eqn:E. intros [= <- <- <- <-].
  by eexists r, s1, writes1, w1, rs2, writes2.
Qed.

Lemma sorted_repeat o l k :
  Forall (λ x, x = o) l -> Forall (λ x, o <= x) k -> StronglySorted Z.le k ->
  StronglySorted Z.le (l ++ k).
Proof.
  intros Hl Hk Hs. induction Hl as [|x l -> Hl IH]; [done|]. cbn. constructor; [done|].
  apply Forall_app. split; [|done]. eapply Forall_impl; [exact Hl|]. cbn. lia.
Qed.

Lemma on_events_progress events s w rid rs s' writes w' :
  pj_run_id s = Some rid -> 0 <= run_bytes_processed s ->
  Forall (λ e, follows rid e.2) events ->
  on_events files p context events s w = (rs, s', writes, w') ->
  Forall (λ o, last_overall_progress s <= o) (percents writes) /\
  StronglySorted Z.le (percents writes).
Proof.
  intros Hid Hb Hf. revert s w rs writes Hid Hb.
  induction Hf as [|[now event] events Hev _ IH]; intros s w rs writes Hid Hb.
  - intros [= <- <- <- <-]. split; constructor.
  - intros (r & s1 & writes1 & w1 & rs2 & writes2 & H1 & H2 & -> & ->)%on_events_cons.
    apply (on_event_follows _ _ _ _ _ rid) in H1 as (Hid1 & Hov & Hp1 & Hb1); [|done..].
    destruct (IH s1 w1 rs2 writes2 Hid1 ltac:(lia) H2) as [Hle Hsort].
    rewrite percents_app. split.
    + apply Forall_app. split; (eapply Forall_impl; [eassumption|]); cbn; lia.
    + by eapply sorted_repeat.
Qed.

(** The overall progress of a run never goes back: in the order in which they
    are written, the overall percentages of the statuses of a run are increasing,
    whatever the events report and whichever writes fail. *)
Theorem overall_progress_monotone now pid rid op events s w rs s' writes w' :
  Forall (λ e, follows rid e.2) events ->
  on_events files p context ((now, RunStarted pid rid op) :: events) s w = (rs, s', writes, w') ->
  StronglySorted Z.le (percents writes).
Proof.
  intros Hf (r & s1 & writes1 & w1 & rs2 & writes2 & H1 & H2 & -> & ->)%on_events_cons.
  apply on_event_started in H1 as (Hid & Hp1 & Hb & _).
  destruct (on_events_progress _ _ _ _ _ _ _ _ Hid ltac:(lia) Hf H2) as [Hle Hs].
  rewrite percents_app. by eapply sorted_repeat.
Qed.

Definition max_run_bytes (events : list (RuntimeTimePoint * BackupRunEvent)) (bytes : Z) : Z :=
  fold_left (λ b e, Z.max b (event_run_bytes e.2)) events bytes.

Lemma history_writes_app l k : history_writes (l ++ k) = history_writes l ++ history_writes k.
Proof. apply omap_app. Qed.

(** An event in the middle of a run, when its writes succeed. *)
Lemma on_event_middle now event s w rid s' writes w' :
  pj_run_id s = Some rid -> follows rid event -> is_terminal event = false ->
  on_backup_run_event files p context now event s w = (Ok tt, s', writes, w') ->
  run_started s' = run_started s /\ pj_operation_kind s' = pj_operation_kind s /\
  history_writes writes = [].
Proof.
  intros Hid Hf Ht [(_ & _ & -> & ->)|(s1 & data & status & Hp & Hs' & _ & _ & Hok)]%on_event_inv;
    [done|].
  apply (project_event_follows _ _ _ _ _ rid) in Hp as
    (_ & Hst & _ & Hop & Hdo & Hk & _); [|done..].
  assert (Hk' : is_terminal_event (ed_kind data) = false) by (rewrite Hk; by destruct event).
  apply settled_fields in Hs' as (_ & _ & _ & -> & ->); [|done].
  split_and!; [done|by rewrite Hop, Hdo; destruct event|].
  destruct (Hok eq_refl) as [-> _].
  replace (should_write_history (ed_kind data) (ed_operation_kind data)) with false
    by (rewrite Hk; by destruct (ed_operation_kind data), event).
  by destruct (publishes s1 data status).
Qed.

Lemma on_events_middle events s w rid rs s' writes w' :
  pj_run_id s = Some rid -> 0 <= run_bytes_processed s ->
  Forall (λ e, follows rid e.2 /\ is_terminal e.2 = false) events ->
  on_events files p context events s w = (rs, s', writes, w') ->
  Forall (λ r, r = Ok tt) rs ->
  pj_run_id s' = Some rid /\ run_started s' = run_started s /\
  pj_operation_kind s' = pj_operation_kind s /\ history_writes writes = [] /\
  run_bytes_processed s' = max_run_bytes events (run_bytes_processed s).
Proof.
  intros Hid Hb Hf. revert s w rs writes Hid Hb.
  induction Hf as [|[now event] events [Hev Ht] _ IH]; intros s w rs writes Hid Hb.
  - by intros [= <- <- <- <-].
  - intros (r & s1 & writes1 & w1 & rs2 & writes2 & H1 & H2 & -> & ->)%on_events_cons
      [-> Hok]%Forall_cons.
    pose proof (on_event_middle _ _ _ _ _ _ _ _ Hid Hev Ht H1) as (Hst & Hop & Hh).
    apply (on_event_follows _ _ _ _ _ rid) in H1 as (Hid1 & _ & _ & Hb1); [|done..].
    destruct (IH s1 w1 rs2 writes2 Hid1 ltac:(lia) H2 Hok) as (Hid' & Hst' & Hop' & Hh' & Hb').
    rewrite history_writes_app, Hh, Hh', Hb', Hb1, Hst', Hop', Hst, Hop. by split_and!.
Qed.

(** The state a terminal event ends a run in. *)
Definition final_state (event : BackupRunEvent) : RunState :=
  match event with
  | TargetValidationCompleted _ _ => StateValidated
  | RunCompleted _ _ => StateSucceeded
  | RunCancelled _ _ _ _ _ _ _ _ => StateCancelled
  | _ => StateFailed
  end.

Lemma project_event_final now s event s' data status rid :
  pj_run_id s = Some rid -> follows rid event -> is_terminal event = true ->
  project_event p now context s event = (s', data, status) -> rs_state status = final_state event.
Proof.
  intros Hid Hf Ht. unfold project_event. rewrite (enter_event_follows _ _ _ Hid Hf).
  destruct (note_failure _ _) as [s1 d1] eqn:En. intros [= _ <- <-].
  apply note_failure_run in En as (_ & _ & _ & _ & _ & _ & Hk & _). cbn in Hk. rewrite data_kind in Hk.
  unfold status_for_event, state_for_event. rewrite Hk. destruct event; try done; by cbn.
Qed.

Lemma on_events_app l k s w rs s' writes w' :
  on_events files p context (l ++ k) s w = (rs, s', writes, w') ->
  exists rs1 s1 writes1 w1 rs2 writes2,
    on_events files p context l s w = (rs1, s1, writes1, w1) /\
    on_events files p context k s1 w1 = (rs2, s', writes2, w') /\
    rs = rs1 ++ rs2 /\ writes = writes1 ++ writes2.
Proof.
  revert s w rs writes. induction l as [|[now event] l IH]; intros s w rs writes.
  - intros H1. eexists [], s, [], w, rs, writes. done.
  - intros (r & s1 & writes1 & w1 & rs2 & writes2 & H1 & H2 & -> & ->)%on_events_cons.
    apply IH in H2 as (rs3 & s3 & writes3 & w3 & rs4 & writes4 & H3 & H4 & -> & ->).
    exists (r :: rs3), s3, (writes1 ++ writes3), w3, rs4, writes4. cbn. rewrite H1, H3.
    by rewrite app_assoc.
Qed.

(** C21.  A run whose events the files take is published and recorded: its last event
    writes a current status in the state of that event, which names the largest byte
    count the run reported; of a backup that completed, failed or was cancelled the history
    gets that status exactly once, as the last write, and nothing before; of any other
    operation, and of a backup that ends with the validation of its target, it gets nothing. *)
Theorem run_is_recorded t0 pid rid op middle t1 last s w rs s' writes w' :
  Forall (λ e, follows rid e.2 /\ is_terminal e.2 = false) middle ->
  follows rid last -> is_terminal last = true ->
  on_events files p context ((t0, RunStarted pid rid op) :: middle ++ [(t1, last)]) s w =
    (rs, s', writes, w') ->
  Forall (λ r, r = Ok tt) rs ->
  exists final before,
    writes = before ++ CurrentStatus final :: map HistoryEntry (history_writes writes) /\
    history_writes writes =
      match op, last with
      | Backup, (RunCompleted _ _ | RunFailed _ _ _ _ _ | RunCancelled _ _ _ _ _ _ _ _) => [final]
      | _, _ => []
      end /\
    rs_state final = final_state last /\
    run_processed_bytes (rs_progress final) = max_run_bytes middle 0 /\ run_started s' = false.
Proof.
  intros Hm Hl Ht (r & s1 & writes1 & w1 & rs2 & writes2 & H1 & H2 & -> & ->)%on_events_cons
    [-> Hok]%Forall_cons.
  apply on_event_started in H1 as (Hid & _ & Hb & Hop & Hst & Hh1).
  apply on_events_app in H2 as (rs3 & s3 & writes3 & w3 & rs4 & writes4 & H3 & H4 & -> & ->).
  apply Forall_app in Hok as [Hok3 Hok4].
  destruct (on_events_middle _ _ _ _ _ _ _ _ Hid ltac:(lia) Hm H3 Hok3) as
    (Hid3 & Hst3 & Hop3 & Hh3 & Hb3).
  apply on_events_cons in H4 as (r & s4 & writes5 & w5 & rs5 & writes6 & H5 & H6 & -> & ->).
  cbn in H6. injection H6 as <- <- <- <-. apply Forall_cons in Hok4 as [-> _].
  apply on_event_inv in H5 as [(Hk & _)|(s5 & data & status & Hp & _ & _ & _ & Hdone)];
    [by destruct last|]. destruct (Hdone eq_refl) as [-> ->].
  pose proof (project_event_final _ _ _ _ _ _ _ Hid3 Hl Ht Hp) as Hstate.
  apply (project_event_follows _ _ _ _ _ rid) in Hp as
    (_ & Hst5 & _ & _ & Hdo & Hk & _ & _ & Hb5 & Hg); [|done..].
  rewrite Ht in Hg.
  assert (Hpub : publishes s5 data status = true).
  { unfold publishes, should_publish. rewrite Hk, Hst5, Hst3, Hst. by destruct last. }
  rewrite Hpub, Hk, Hdo, Hop3, Hop. exists status, (writes1 ++ writes3).
  rewrite app_nil_r, !history_writes_app, Hh1, Hh3. cbn [app].
  split_and!.
  - rewrite <- app_assoc. f_equal. destruct last, op; try done.
  - by destruct last, op.
  - done.
  - rewrite Hg, Hb5, Hb3, Hb. assert (0 <= max_run_bytes middle 0); [|destruct last; cbn; try done; lia].
    unfold max_run_bytes. generalize (Z.le_refl 0). generalize 0 at 2 4. clear.
    induction middle as [|e l IH]; intros b Hb; [done|]. cbn. apply IH. lia.
  - unfold leave_event. rewrite Hk. by destruct last.
Qed.

(** A run that fails before it started, because the profile or the target is
    busy, does not touch the current status, which belongs to the run that is active;
    it is only recorded in the history. *)
Theorem rejected_run_keeps_status now pid rid code msg op s w r s' writes w' :
  pj_run_id s <> Some rid \/ run_started s = false ->
  on_backup_run_event files p context now (RunFailed pid rid code msg op) s w = (r, s', writes, w') ->
  forall status, CurrentStatus status ∉ writes.
Proof.
  intros Hs. unfold on_backup_run_event. cbn [backup_run_event_kind should_write_status negb].
  destruct (project_event _ _ _ _ _) as [[s1 data] st] eqn:Hp.
  assert (Hpub : publishes s1 data st = false).
  { unfold project_event in Hp. set (d := event_projection_data _) in Hp.
    assert (Hst : run_started (enter_event s d) = false).
    { unfold enter_event. destruct (decide (pj_run_id s = Some rid)) as [E|E].
      - destruct Hs as [Hs|Hs]; [done|]. rewrite (bool_decide_eq_true_2 _ E). by cbn.
      - by rewrite (bool_decide_eq_false_2 _ E). }
    destruct (note_failure _ _) as [s2 d2] eqn:En. injection Hp as <- <- <-.
    apply note_failure_run in En as (_ & _ & _ & Hst2 & _ & _ & Hk & _).
    unfold publishes. cbn -[should_publish]. rewrite Hst2, Hk. by rewrite Hst. }
  rewrite Hpub. destruct (should_write_history _ _); [destruct (write _ _ _ _) as [[] ?]|];
    intros [= <- <- <- <-] status; set_solver.
Qed.

Lemma action_failed_pending t pid rid src i k code msg s w s' writes w' :
  pj_run_id s = Some rid ->
  on_backup_run_event files p context t (ActionFailed pid rid src i k code msg) s w =
    (Ok tt, s', writes, w') ->
  pj_run_id s' = Some rid /\ run_started s' = run_started s /\
  pending_action_failure s' = Some (mkPendingFailure rid src i k) /\
  exists status, writes = [CurrentStatus status] /\ rs_state status = StateRunning.
Proof.
  intros Hid [([=] & _)|(s1 & data & status & Hp & _ & _ & _ & Hd)]%on_event_inv.
  destruct (Hd eq_refl) as [-> ->]. unfold project_event in Hp.
  rewrite (enter_event_follows _ _ rid Hid) in Hp by done. cbn -[status_for_event Z.max] in Hp.
  injection Hp as <- <- <-. cbn. destruct (pj_operation_kind s); cbn; split_and!; try done; by eexists.
Qed.

Lemma run_failed_attributed t pid rid src i k code msg op s w s' writes w' :
  pj_run_id s = Some rid -> run_started s = true ->
  pending_action_failure s = Some (mkPendingFailure rid src i k) ->
  on_backup_run_event files p context t (RunFailed pid rid code msg op) s w =
    (Ok tt, s', writes, w') ->
  exists final rest m,
    writes = CurrentStatus final :: rest /\
    final = set_run_bytes (status_for_event p t context
      (attribute_failure (set_operation_kind
         (event_projection_data (RunFailed pid rid code msg op)) (pj_operation_kind s))
         (mkPendingFailure rid src i k)) (last_overall_progress s)) m.
Proof.
  intros Hid Hst Hpend [([=] & _)|(s1 & data & final & Hp & _ & _ & _ & Hd)]%on_event_inv.
  destruct (Hd eq_refl) as [-> _]. unfold project_event in Hp.
  rewrite (enter_event_follows _ _ rid Hid) in Hp by done. unfold note_failure in Hp.
  cbn -[status_for_event Z.max bool_decide] in Hp. rewrite Hpend in Hp.
  rewrite (bool_decide_eq_true_2 (pf_run_id _ = rid)) in Hp by done.
  cbn -[status_for_event Z.max] in Hp. injection Hp as <- <- <-. rewrite Hst.
  unfold publishes. cbn -[status_for_event Z.max should_write_history]. by eexists _, _, _.
Qed.

(** The failure of a run is attributed to the action that failed: after the
    events of a failed action and of the failed run, the status that is published
    names the phase, the source and the action of that failure and the error of the
    run, and offers a hook's failure as recoverable. *)
Theorem failure_is_attributed t1 t2 pid rid src i k code msg code' msg' op s w rs s' writes w' :
  pj_run_id s = Some rid -> run_started s = true ->
  on_events files p context
    [(t1, ActionFailed pid rid src i k code msg); (t2, RunFailed pid rid code' msg' op)] s w =
    (rs, s', writes, w') ->
  Forall (λ r, r = Ok tt) rs ->
  exists first final rest,
    writes = CurrentStatus first :: CurrentStatus final :: rest /\
    rs_state first = StateRunning /\ rs_state final = StateFailed /\
    rs_phase final = phase_for_action k /\ rs_source_index final = i /\
    rs_details final = [("action", DetailString (backup_run_action_kind_name k));
                        ("sourceId", DetailString (id_value src))] /\
    exists error, rs_error final = Some error /\ re_code error = code' /\ re_message error = msg' /\
      (code' <> RepositoryRecoveryRequired -> re_recoverable error = failed_action_is_recoverable k).
Proof.
  intros Hid Hst (r & s1 & writes1 & w1 & rs2 & writes2 & H1 & H2 & -> & ->)%on_events_cons
    [-> Hok]%Forall_cons.
  apply on_events_cons in H2 as (r & s2 & writes3 & w2 & rs3 & writes4 & H2 & H3 & -> & ->).
  cbn in H3. injection H3 as <- <- <- <-. apply Forall_cons in Hok as [-> _].
  apply action_failed_pending in H1 as (Hid1 & Hst1 & Hp & first & -> & Hfirst); [|done].
  rewrite Hst in Hst1.
  apply (run_failed_attributed _ _ _ src i k) in H2 as (final & rest & m & -> & ->); [|done..].
  eexists first, _, _. split_and!; try done. cbn.
  case_bool_decide; eexists; split_and!; done.
Qed.
End sink.

(** ** A run *)

Definition sample_profile_id : ProfileId := @mkIdent KProfile "main" I.
Definition sample_source_id : SourceId := @mkIdent KSource "home" I.
Definition sample_run_id : RunId := @mkIdent KRun "run-2" I.

Definition sample_status_context : BackupRunStatusContext :=
  mkStatusContext "/run/btrfs-backup/status" "/var/lib/btrfs-backup/history" "Main" 1
    1709210096123456789 {[ sample_source_id := "Home" ]} "backup".

Definition sample_progress (transferred total : Z) : BackupRunEvent :=
  TransferProgress sample_profile_id sample_run_id sample_source_id 1
    (mkProgress Transferring transferred transferred total transferred transferred 500 1000 "").

Definition sample_middle : list (RuntimeTimePoint * BackupRunEvent) :=
  [(1709210097000000000, SourceStarted sample_profile_id sample_run_id sample_source_id 1);
   (1709210098000000000, sample_progress 2000 8000);
   (1709210099000000000, sample_progress 6000 8000);
   (1709210100000000000, SourceCompleted sample_profile_id sample_run_id sample_source_id 1)].

Definition sample_start : RuntimeTimePoint * BackupRunEvent :=
  (1709210096123456789, RunStarted sample_profile_id sample_run_id Backup).

Definition sample_end : RuntimeTimePoint * BackupRunEvent :=
  (1709210101000000000, RunCompleted sample_profile_id sample_run_id).

(** Files that take everything, and files that take nothing. *)
Definition good_files (op : FileOp) (w : unit) : res unit * unit := (Ok tt, w).
Definition full_files (op : FileOp) (w : unit) : res unit * unit :=
  (Throw (SystemOperationError "no space left on device"), w).

Definition sample_out : list (res unit) * Projection * list StatusWrite * unit :=
  on_events (H:=bits_text) good_files 64 sample_status_context
    (sample_start :: sample_middle ++ [sample_end]) initial_projection tt.

Lemma sample_follows : Forall (λ e, follows sample_run_id e.2 /\ is_terminal e.2 = false) sample_middle.
Proof. by repeat constructor. Qed.

Lemma run_is_recorded_witness :
  sample_out.1.1.1 = repeat (Ok tt) 6 /\
  exists final before,
    sample_out.1.2 = before ++ [CurrentStatus final; HistoryEntry final] /\
    rs_state final = StateSucceeded /\ run_processed_bytes (rs_progress final) = 6000.
Proof.
  split; [vm_compute; reflexivity|].
  destruct (run_is_recorded (H:=bits_text) good_files 64 sample_status_context
    sample_start.1 sample_profile_id sample_run_id Backup sample_middle sample_end.1 sample_end.2
    initial_projection tt sample_out.1.1.1 sample_out.1.1.2 sample_out.1.2 sample_out.2
    sample_follows ltac:(by split) eq_refl ltac:(vm_compute; reflexivity)
    ltac:(vm_compute; repeat constructor)) as (final & before & Hw & Hh & Hs & Hb & _).
  exists final, before. rewrite Hh in Hw.
  split; [exact Hw|split; [exact Hs|exact Hb]].
Defined.

Lemma overall_progress_monotone_witness :
  percents sample_out.1.2 = [0; 0; 25; 75; 100; 100; 100] /\
  StronglySorted Z.le (percents sample_out.1.2).
Proof.
  split; [vm_compute; reflexivity|].
  apply (overall_progress_monotone (H:=bits_text) good_files 64 sample_status_context
    sample_start.1 sample_profile_id sample_run_id Backup (sample_middle ++ [sample_end])
    initial_projection tt sample_out.1.1.1 sample_out.1.1.2 sample_out.1.2 sample_out.2).
  - by repeat constructor.
  - vm_compute. reflexivity.
Defined.

Definition full_out : res unit * Projection * list StatusWrite * unit :=
  on_backup_run_event (H:=bits_text) full_files 64 sample_status_context sample_start.1
    sample_start.2 initial_projection tt.

Lemma sink_fails_only_with_files_witness :
  full_out.1.1.1 = Throw (SystemOperationError "no space left on device") /\
  exists op w1 w2, full_files op w1 = (Throw (SystemOperationError "no space left on device"), w2).
Proof.
  split; [vm_compute; reflexivity|].
  apply (sink_fails_only_with_files (H:=bits_text) full_files 64 sample_status_context
    sample_start.1 sample_start.2 initial_projection tt
    (SystemOperationError "no space left on device") full_out.1.1.2 full_out.1.2 full_out.2);
    [lia|cbn; lia|done|constructor| |vm_compute; reflexivity|].
  - unfold event_bounded, event_in_range. cbn. lia.
  - assert (E : full_out.1.2 = [CurrentStatus (project_event 64 sample_start.1 sample_status_context
      initial_projection sample_start.2).2]) by (vm_compute; reflexivity).
    rewrite E. apply Forall_singleton. split; repeat constructor.
Defined.

Lemma rejected_run_keeps_status_witness :
  let out := on_backup_run_event (H:=bits_text) good_files 64 sample_status_context 1709210096123456789
    (RunFailed sample_profile_id sample_run_id RunnerProfileBusy "profile is busy" Backup)
    initial_projection tt in
  length out.1.2 = 1%nat /\ forall status, CurrentStatus status ∉ out.1.2.
Proof.
  intros out. split; [vm_compute; reflexivity|].
  apply (rejected_run_keeps_status (H:=bits_text) good_files 64 sample_status_context
    1709210096123456789 sample_profile_id sample_run_id RunnerProfileBusy "profile is busy" Backup
    initial_projection tt out.1.1.1 out.1.1.2 out.1.2 out.2).
  - by right.
  - unfold out. by destruct (on_backup_run_event _ _ _ _ _ _ _) as [[[? ?] ?] ?].
Defined.

Definition failing_out : list (res unit) * Projection * list StatusWrite * unit :=
  on_events (H:=bits_text) good_files 64 sample_status_context
    [(1709210098000000000, ActionFailed sample_profile_id sample_run_id sample_source_id 1
        AfterSnapshotHook (Some BackupFailed) "hook failed");
     (1709210098000000000, RunFailed sample_profile_id sample_run_id BackupFailed "hook failed" Backup)]
    (mkProjection policy_reset (Some sample_run_id) Backup None true 0 0) tt.

Lemma failure_is_attributed_witness :
  exists first final rest,
    failing_out.1.2 = CurrentStatus first :: CurrentStatus final :: rest /\
    rs_phase final = PhaseAfterSnapshotHook /\ rs_source_index final = 1.
Proof.
  destruct (failure_is_attributed (H:=bits_text) good_files 64 sample_status_context
    1709210098000000000 1709210098000000000 sample_profile_id sample_run_id sample_source_id 1
    AfterSnapshotHook (Some BackupFailed) "hook failed" BackupFailed "hook failed" Backup
    (mkProjection policy_reset (Some sample_run_id) Backup None true 0 0) tt
    failing_out.1.1.1 failing_out.1.1.2 failing_out.1.2 failing_out.2 eq_refl eq_refl
    ltac:(vm_compute; reflexivity) ltac:(vm_compute; repeat constructor))
    as (first & final & rest & Hw & _ & _ & Hp & Hi & _).
  exists first, final, rest. split; [exact Hw|split; [exact Hp|exact Hi]].
Defined.
