(* ===== verification/Provisioning.v ===== *)
(** * Device preparation: topology, plans and storage safety (src/provisioning)

    What is known of the storage devices, the plan of a device preparation with the
    builder that makes it, the inspector that compares the device found with the
    device planned for, and the marker of the partitions that are backup targets. *)

From S2P Require Import Prelude Errors.

Open Scope Z_scope.

(** ** Topology *)

(** src/provisioning/StorageTopology.hpp:19-24 *)
Inductive PartitionTableType := TableNone | Gpt | Mbr | Unsupported.

(** src/provisioning/StorageTopology.hpp:26-31 *)
Record SafetyBlocker := mkBlocker { blk_code : string; blk_detail : string }.

(** src/provisioning/StorageTopology.hpp:33-43 *)
Record StableBlockDeviceIdentity := mkIdentity {
  bd_display_path : string;
  bd_major_minor : string;
  bd_sysfs_path : string;
  bd_wwn : string;
  bd_serial : string;
  bd_serial_short : string;
  bd_size_bytes : Z;
}.

(** src/provisioning/StorageTopology.hpp:45-50 *)
Record PartitionTableDescription := mkTable { pt_type : PartitionTableType; pt_identifier : string }.

(** src/provisioning/StorageTopology.hpp:52-59 *)
Record FilesystemDescription := mkFilesystem {
  fs_type : string;
  fs_version : string;
  fs_label : string;
  fs_uuid : string;
}.

(** src/provisioning/StorageTopology.hpp:61-79 *)
Record ExistingPartition := mkPartition {
  ep_candidate_id : string;
  ep_identity : StableBlockDeviceIdentity;
  ep_partition_uuid : option string;
  ep_partition_label : option string;
  ep_partition_number : Z;
  ep_start_sector : Z;
  ep_sector_count : Z;
  ep_filesystem : FilesystemDescription;
  ep_mount_points : list string;
  ep_holders : list string;
  ep_active_swap : bool;
  ep_blockers : list SafetyBlocker;
  ep_configured_backup_target : bool;
  ep_suitable_for_reformat : bool;
  ep_suitable_for_adoption : bool;
}.

(** src/provisioning/StorageTopology.hpp:81-89 *)
Record UnallocatedRegion := mkFree {
  ur_id : string;
  ur_start_sector : Z;
  ur_sector_count : Z;
  ur_blockers : list SafetyBlocker;
  ur_suitable_for_backup_partition : bool;
}.

(** src/provisioning/StorageTopology.hpp:91-91 *)
Inductive StorageRegion := RPartition (p : ExistingPartition) | RFree (r : UnallocatedRegion).

(** src/provisioning/StorageTopology.hpp:93-114 *)
Record StorageDevice := mkDevice {
  sd_candidate_id : string;
  sd_identity : StableBlockDeviceIdentity;
  sd_display_name : string;
  sd_transport : string;
  sd_size_bytes : Z;
  sd_logical_sector_size : Z;
  sd_physical_sector_size : Z;
  sd_removable : bool;
  sd_read_only : bool;
  sd_hotplug : bool;
  sd_system_device : bool;
  sd_partition_table : PartitionTableDescription;
  sd_filesystem : FilesystemDescription;
  sd_regions : list StorageRegion;
  sd_mount_points : list string;
  sd_holders : list string;
  sd_active_swap : bool;
  sd_blockers : list SafetyBlocker;
}.

(** src/provisioning/StorageTopology.hpp:116-121 *)
Record StorageTopology := mkTopology { topo_generation : string; topo_devices : list StorageDevice }.

Global Instance PartitionTableType_eq_dec : EqDecision PartitionTableType.
Proof. solve_decision. Defined.
Global Instance SafetyBlocker_eq_dec : EqDecision SafetyBlocker.
Proof. solve_decision. Defined.
Global Instance StableBlockDeviceIdentity_eq_dec : EqDecision StableBlockDeviceIdentity.
Proof. solve_decision. Defined.
Global Instance PartitionTableDescription_eq_dec : EqDecision PartitionTableDescription.
Proof. solve_decision. Defined.
Global Instance FilesystemDescription_eq_dec : EqDecision FilesystemDescription.
Proof. solve_decision. Defined.

Global Instance eta_ExistingPartition : Eta ExistingPartition := λ p,
  mkPartition (ep_candidate_id p) (ep_identity p) (ep_partition_uuid p) (ep_partition_label p)
    (ep_partition_number p) (ep_start_sector p) (ep_sector_count p) (ep_filesystem p)
    (ep_mount_points p) (ep_holders p) (ep_active_swap p) (ep_blockers p)
    (ep_configured_backup_target p) (ep_suitable_for_reformat p) (ep_suitable_for_adoption p).

Global Instance eta_StorageDevice : Eta StorageDevice := λ d,
  mkDevice (sd_candidate_id d) (sd_identity d) (sd_display_name d) (sd_transport d)
    (sd_size_bytes d) (sd_logical_sector_size d) (sd_physical_sector_size d) (sd_removable d)
    (sd_read_only d) (sd_hotplug d) (sd_system_device d) (sd_partition_table d)
    (sd_filesystem d) (sd_regions d) (sd_mount_points d) (sd_holders d) (sd_active_swap d)
    (sd_blockers d).

(** src/provisioning/StorageTopology.cpp:8-20 *)
Definition partition_table_type_name (type : PartitionTableType) : string :=
  match type with
  | TableNone => "none"
  | Gpt => "gpt"
  | Mbr => "mbr"
  | Unsupported => "unsupported"
  end.

(** src/provisioning/StorageTopology.cpp:22-24 *)
Definition region_start_sector (region : StorageRegion) : Z :=
  match region with RPartition p => ep_start_sector p | RFree r => ur_start_sector r end.

(** [std::get_if<ExistingPartition>] and [std::get_if<UnallocatedRegion>] *)
Definition as_partition (region : StorageRegion) : option ExistingPartition :=
  match region with RPartition p => Some p | RFree _ => None end.
Definition as_free (region : StorageRegion) : option UnallocatedRegion :=
  match region with RFree r => Some r | RPartition _ => None end.

(** The candidate identifier of a region. *)
Definition region_id (region : StorageRegion) : string :=
  match region with RPartition p => ep_candidate_id p | RFree r => ur_id r end.

(** ** Plans *)

(** src/provisioning/DevicePreparationPlan.hpp:19-24 *)
Inductive ProvisioningMode :=
| EraseWholeDevice
| ReformatExistingPartition
| CreatePartitionInUnallocatedSpace
| AdoptExistingTarget.

(** src/provisioning/DevicePreparationPlan.hpp:26-30 *)
Inductive PredictedRegionKind := PredictedPartition | PredictedUnallocated | PredictedBackup.

(** src/provisioning/DevicePreparationPlan.hpp:32-47 *)
Record PredictedStorageRegion := mkPredicted {
  pr_id : string;
  pr_kind : PredictedRegionKind;
  pr_start_sector : Z;
  pr_sector_count : Z;
  pr_partition_number : option Z;
  pr_display_path : string;
  pr_partition_label : string;
  pr_filesystem_type : string;
  pr_geometry_exact : bool;
  pr_encrypted : bool;
  pr_changed : bool;
  pr_data_will_be_erased : bool;
}.

Global Instance eta_PredictedStorageRegion : Eta PredictedStorageRegion := λ r,
  mkPredicted (pr_id r) (pr_kind r) (pr_start_sector r) (pr_sector_count r)
    (pr_partition_number r) (pr_display_path r) (pr_partition_label r) (pr_filesystem_type r)
    (pr_geometry_exact r) (pr_encrypted r) (pr_changed r) (pr_data_will_be_erased r).

(** A region with the initial values of the members. *)
Definition new_predicted : PredictedStorageRegion :=
  mkPredicted "" PredictedUnallocated 0 0 None "" "" "" true false false false.

(** src/provisioning/DevicePreparationPlan.hpp:49-57 *)
Record StorageLayout := mkLayout {
  sl_device_id : string;
  sl_size_bytes : Z;
  sl_logical_sector_size : Z;
  sl_partition_table_type : PartitionTableType;
  sl_regions : list PredictedStorageRegion;
}.

Global Instance eta_StorageLayout : Eta StorageLayout := λ l,
  mkLayout (sl_device_id l) (sl_size_bytes l) (sl_logical_sector_size l)
    (sl_partition_table_type l) (sl_regions l).

(** src/provisioning/DevicePreparationPlan.hpp:79-84 *)
Record PlannedPartitionGeometry := mkGeometry {
  pg_start_sector : Z;
  pg_sector_count : Z;
  pg_partition_number : Z;
}.

(** src/provisioning/DevicePreparationPlan.hpp:59-124 *)
Inductive PlannedStorageOperation :=
| BackupPartitionTable (device_id : string)
| EraseDeviceSignatures (device_id : string)
| ErasePartitionSignatures (partition_id : string)
| CreateGptPartitionTable (device_id : string)
| CreateBackupPartition (device_id : string) (free_region_id : option string)
    (geometry : option PlannedPartitionGeometry)
| FormatLuks2 (partition_id : option string)
| OpenLuksMapping
| FormatBtrfs
| VerifyPreparedTarget
| PublishProfile.

(** src/provisioning/DevicePreparationPlan.hpp:126-130 *)
Record SafetyWarning := mkWarning { warn_code : string; warn_detail : string }.

(** src/provisioning/DevicePreparationPlan.hpp:132-137 *)
Inductive DestructiveScopeKind := ScopeNone | WholeDevice | ScopePartition | ScopeUnallocated.

(** src/provisioning/DevicePreparationPlan.hpp:139-172 *)
Record DestructiveScope := mkScope {
  scope_kind : DestructiveScopeKind;
  scope_device_id : string;
  scope_partition_id : option string;
  scope_free_region_id : option string;
}.

(** src/provisioning/DevicePreparationPlan.hpp:174-191 *)
Record DevicePreparationPlan := mkPlan {
  plan_id : string;
  plan_topology_generation : string;
  plan_mode : ProvisioningMode;
  plan_device_id : string;
  plan_partition_id : option string;
  plan_free_region_id : option string;
  plan_inspection_id : option string;
  plan_before : StorageLayout;
  plan_after : StorageLayout;
  plan_operations : list PlannedStorageOperation;
  plan_warnings : list SafetyWarning;
  plan_destructive_scope : DestructiveScope;
}.

Global Instance ProvisioningMode_eq_dec : EqDecision ProvisioningMode.
Proof. solve_decision. Defined.
Global Instance PredictedRegionKind_eq_dec : EqDecision PredictedRegionKind.
Proof. solve_decision. Defined.
Global Instance DestructiveScopeKind_eq_dec : EqDecision DestructiveScopeKind.
Proof. solve_decision. Defined.
Global Instance PlannedPartitionGeometry_eq_dec : EqDecision PlannedPartitionGeometry.
Proof. solve_decision. Defined.

(** src/provisioning/DevicePreparationPlan.cpp:14-17 *)
Definition require_identifier (value message : string) : res unit :=
  require (negb (str_empty value)) (ValidationError message).

(** src/provisioning/DevicePreparationPlan.cpp:21-29 *)
Definition make_scope (kind : DestructiveScopeKind) (device_id : string)
    (partition_id free_region_id : option string) : res DestructiveScope :=
  _ ← require_identifier device_id "destructive scope device identifier is empty";
  Ok (mkScope kind device_id partition_id free_region_id).

(** src/provisioning/DevicePreparationPlan.cpp:31-33 *)
Definition scope_whole_device (device_id : string) : res DestructiveScope :=
  make_scope WholeDevice device_id None None.

(** src/provisioning/DevicePreparationPlan.cpp:35-46 *)
Definition scope_existing_partition (device_id partition_id : string) : res DestructiveScope :=
  _ ← require_identifier partition_id "destructive scope partition identifier is empty";
  make_scope ScopePartition device_id (Some partition_id) None.

(** src/provisioning/DevicePreparationPlan.cpp:48-59 *)
Definition scope_unallocated_region (device_id free_region_id : string) : res DestructiveScope :=
  _ ← require_identifier free_region_id "destructive scope free-region identifier is empty";
  make_scope ScopeUnallocated device_id None (Some free_region_id).

(** src/provisioning/DevicePreparationPlan.cpp:61-72 *)
Definition scope_adoption (device_id partition_id : string) : res DestructiveScope :=
  _ ← require_identifier partition_id "adoption scope partition identifier is empty";
  make_scope ScopeNone device_id (Some partition_id) None.

(** The mode check of the code covers every mode.
    src/provisioning/DevicePreparationPlan.cpp:90-123 *)
Definition validate (p : DevicePreparationPlan) : res unit :=
  let scope := plan_destructive_scope p in
  let kind_is k := bool_decide (scope_kind scope = k) in
  let has {A} (o : option A) := bool_decide (is_Some o) in
  _ ← require_identifier (plan_id p) "device preparation plan identifier is empty";
  _ ← require_identifier (plan_topology_generation p)
        "device preparation topology generation is empty";
  _ ← require_identifier (plan_device_id p) "device preparation device identifier is empty";
  _ ← require (scope_device_id scope =? plan_device_id p)%string
        (ValidationError "device preparation scope selects a different device");
  match plan_mode p with
  | EraseWholeDevice =>
      require (negb (has (plan_partition_id p) || has (plan_free_region_id p)
                     || has (plan_inspection_id p) || negb (kind_is WholeDevice)))
        (ValidationError "whole-device preparation plan has a contradictory target")
  | ReformatExistingPartition =>
      require (negb (negb (has (plan_partition_id p)) || has (plan_free_region_id p)
                     || has (plan_inspection_id p) || negb (kind_is ScopePartition)
                     || negb (bool_decide (scope_partition_id scope = plan_partition_id p))))
        (ValidationError "partition preparation plan has a contradictory target")
  | CreatePartitionInUnallocatedSpace =>
      require (negb (has (plan_partition_id p) || negb (has (plan_free_region_id p))
                     || has (plan_inspection_id p) || negb (kind_is ScopeUnallocated)
                     || negb (bool_decide (scope_free_region_id scope = plan_free_region_id p))))
        (ValidationError "free-space preparation plan has a contradictory target")
  | AdoptExistingTarget =>
      require (negb (negb (has (plan_partition_id p)) || has (plan_free_region_id p)
                     || match plan_inspection_id p with None => true | Some i => str_empty i end
                     || negb (kind_is ScopeNone)
                     || negb (bool_decide (scope_partition_id scope = plan_partition_id p))))
        (ValidationError "adoption preparation plan has a contradictory target")
  end.

(** src/provisioning/DevicePreparationPlan.cpp:125-137 *)
Definition provisioning_mode_name (mode : ProvisioningMode) : string :=
  match mode with
  | EraseWholeDevice => "erase-whole-device"
  | ReformatExistingPartition => "reformat-existing-partition"
  | CreatePartitionInUnallocatedSpace => "create-partition-in-unallocated-space"
  | AdoptExistingTarget => "adopt-existing-target"
  end.

(** src/provisioning/DevicePreparationPlan.cpp:139-149 *)
Definition provisioning_mode_from_name (name : string) : option ProvisioningMode :=
  if (name =? "erase-whole-device")%string then Some EraseWholeDevice
  else if (name =? "reformat-existing-partition")%string then Some ReformatExistingPartition
  else if (name =? "create-partition-in-unallocated-space")%string
    then Some CreatePartitionInUnallocatedSpace
  else if (name =? "adopt-existing-target")%string then Some AdoptExistingTarget
  else None.

(** src/provisioning/DevicePreparationPlan.cpp:151-161 *)
Definition predicted_region_kind_name (kind : PredictedRegionKind) : string :=
  match kind with
  | PredictedPartition => "existing-partition"
  | PredictedUnallocated => "unallocated"
  | PredictedBackup => "backup-partition"
  end.

(** ** The plan builder *)

(** src/provisioning/DevicePreparationPlanBuilder.cpp:18-39 *)
Definition predicted_region (region : StorageRegion) : PredictedStorageRegion :=
  match region with
  | RPartition p =>
      new_predicted <| pr_start_sector := ep_start_sector p |>
        <| pr_sector_count := ep_sector_count p |> <| pr_id := ep_candidate_id p |>
        <| pr_kind := PredictedPartition |> <| pr_partition_number := Some (ep_partition_number p) |>
        <| pr_display_path := bd_display_path (ep_identity p) |>
        <| pr_partition_label := default "" (ep_partition_label p) |>
        <| pr_filesystem_type := fs_type (ep_filesystem p) |>
  | RFree r =>
      new_predicted <| pr_start_sector := ur_start_sector r |>
        <| pr_sector_count := ur_sector_count r |> <| pr_id := ur_id r |>
        <| pr_kind := PredictedUnallocated |>
  end.

(** src/provisioning/DevicePreparationPlanBuilder.cpp:41-50 *)
Definition current_layout (device : StorageDevice) : StorageLayout :=
  mkLayout (sd_candidate_id device) (sd_size_bytes device) (sd_logical_sector_size device)
    (pt_type (sd_partition_table device)) (map predicted_region (sd_regions device)).

Definition blocker_warning (b : SafetyBlocker) : SafetyWarning :=
  mkWarning (blk_code b) (blk_detail b).

(** The region of the new partition. *)
Definition planned_region (geometry : PlannedPartitionGeometry) : PredictedStorageRegion :=
  new_predicted <| pr_id := "planned-backup-partition" |> <| pr_kind := PredictedBackup |>
    <| pr_start_sector := pg_start_sector geometry |>
    <| pr_sector_count := pg_sector_count geometry |>
    <| pr_partition_number := Some (pg_partition_number geometry) |>
    <| pr_partition_label := "btrfs-backup" |> <| pr_filesystem_type := "btrfs" |>
    <| pr_geometry_exact := true |> <| pr_encrypted := true |> <| pr_changed := true |>.

(** [result.validate(); return result;] *)
Definition validated (p : DevicePreparationPlan) : res DevicePreparationPlan :=
  _ ← validate p; Ok p.

(** src/provisioning/DevicePreparationPlanBuilder.cpp:52-113 *)
Definition erase_whole_device_plan (topology : StorageTopology) (device : StorageDevice)
    (id : string) (geometry : PlannedPartitionGeometry) : res DevicePreparationPlan :=
  let sectors :=
    if sd_logical_sector_size device =? 0 then 0
    else sd_size_bytes device / sd_logical_sector_size device in
  _ ← require (negb ((pg_partition_number geometry =? 0) || (pg_sector_count geometry =? 0)
                     || (sectors <=? pg_start_sector geometry)
                     || (sectors - pg_start_sector geometry <? pg_sector_count geometry)))
        (ValidationError "planned whole-device partition geometry is invalid");
  let before := current_layout device in
  let before := before <| sl_regions := map (λ r, r <| pr_data_will_be_erased :=
                  bool_decide (pr_kind r = PredictedPartition) |>) (sl_regions before) |> in
  let after := mkLayout (sd_candidate_id device) (sd_size_bytes device)
                 (sd_logical_sector_size device) Gpt [planned_region geometry] in
  let warnings := mkWarning "erase-whole-device" (bd_display_path (sd_identity device))
                  :: map blocker_warning (sd_blockers device) in
  scope ← scope_whole_device (sd_candidate_id device);
  validated (mkPlan id (topo_generation topology) EraseWholeDevice (sd_candidate_id device)
    None None None before after
    [BackupPartitionTable (sd_candidate_id device);
     EraseDeviceSignatures (sd_candidate_id device);
     CreateGptPartitionTable (sd_candidate_id device);
     CreateBackupPartition (sd_candidate_id device) None (Some geometry);
     FormatLuks2 None; OpenLuksMapping; FormatBtrfs; VerifyPreparedTarget; PublishProfile]
    warnings scope).

(** [std::ranges::find(regions, id, &PredictedStorageRegion::id)] followed by a change
    of the region found. *)
Fixpoint change_first (id : string) (f : PredictedStorageRegion -> list PredictedStorageRegion)
    (regions : list PredictedStorageRegion) : list PredictedStorageRegion :=
  match regions with
  | [] => []
  | r :: regions =>
      if (pr_id r =? id)%string then f r ++ regions else r :: change_first id f regions
  end.

(** src/provisioning/DevicePreparationPlanBuilder.cpp:115-157 *)
Definition reformat_partition_plan (topology : StorageTopology) (device : StorageDevice)
    (partition : ExistingPartition) (id : string) : res DevicePreparationPlan :=
  let target := ep_candidate_id partition in
  let before := current_layout device in
  let before := before <| sl_regions :=
    change_first target (λ r, [r <| pr_data_will_be_erased := true |>]) (sl_regions before) |> in
  let after := current_layout device in
  let after := after <| sl_regions :=
    change_first target (λ r, [r <| pr_kind := PredictedBackup |>
      <| pr_filesystem_type := "btrfs" |> <| pr_partition_label := "btrfs-backup" |>
      <| pr_encrypted := true |> <| pr_changed := true |>]) (sl_regions after) |> in
  let warnings := mkWarning "erase-existing-partition" (bd_display_path (ep_identity partition))
                  :: map blocker_warning (ep_blockers partition) in
  scope ← scope_existing_partition (sd_candidate_id device) target;
  validated (mkPlan id (topo_generation topology) ReformatExistingPartition
    (sd_candidate_id device) (Some target) None None before after
    [ErasePartitionSignatures target; FormatLuks2 (Some target); OpenLuksMapping; FormatBtrfs;
     VerifyPreparedTarget; PublishProfile]
    warnings scope).

(** [std::numeric_limits<std::uint64_t>::max()] and addition of that type. *)
Definition u64_max : Z := 2 ^ 64 - 1.
Definition u64_add (a b : Z) : Z := (a + b) mod 2 ^ 64.

(** The regions that take the place of the free region.
    src/provisioning/DevicePreparationPlanBuilder.cpp:183-211 *)
Definition replacements (free_region : UnallocatedRegion) (geometry : PlannedPartitionGeometry)
    (free_end partition_end : Z) : list PredictedStorageRegion :=
  (if ur_start_sector free_region <? pg_start_sector geometry then
     [new_predicted <| pr_id := ur_id free_region +:+ ":before" |>
        <| pr_kind := PredictedUnallocated |> <| pr_start_sector := ur_start_sector free_region |>
        <| pr_sector_count := pg_start_sector geometry - ur_start_sector free_region |>]
   else [])
  ++ [planned_region geometry]
  ++ (if partition_end <? free_end then
        [new_predicted <| pr_id := ur_id free_region +:+ ":after" |>
           <| pr_kind := PredictedUnallocated |> <| pr_start_sector := partition_end |>
           <| pr_sector_count := free_end - partition_end |>]
      else []).

(** src/provisioning/DevicePreparationPlanBuilder.cpp:159-242 *)
Definition create_partition_in_free_space_plan (topology : StorageTopology)
    (device : StorageDevice) (free_region : UnallocatedRegion) (id : string)
    (geometry : PlannedPartitionGeometry) : res DevicePreparationPlan :=
  _ ← require (bool_decide (pt_type (sd_partition_table device) = Gpt))
        (ValidationError "creating a backup partition requires GPT");
  _ ← require (negb (negb (ur_suitable_for_backup_partition free_region)
                     || negb (bool_decide (ur_blockers free_region = []))
                     || (ur_sector_count free_region =? 0)))
        (ValidationError "unallocated region is not suitable for a backup partition");
  _ ← require (negb ((pg_sector_count geometry =? 0) || (pg_partition_number geometry =? 0)
                     || (u64_max - ur_sector_count free_region <? ur_start_sector free_region)
                     || (u64_max - pg_sector_count geometry <? pg_start_sector geometry)))
        (ValidationError "planned partition geometry is invalid");
  let free_end := u64_add (ur_start_sector free_region) (ur_sector_count free_region) in
  let partition_end := u64_add (pg_start_sector geometry) (pg_sector_count geometry) in
  _ ← require (negb ((pg_start_sector geometry <? ur_start_sector free_region)
                     || (free_end <? partition_end)))
        (ValidationError "planned partition geometry exceeds the selected free region");
  let before := current_layout device in
  let after := before <| sl_regions :=
    change_first (ur_id free_region)
      (λ _, replacements free_region geometry free_end partition_end) (sl_regions before) |> in
  scope ← scope_unallocated_region (sd_candidate_id device) (ur_id free_region);
  validated (mkPlan id (topo_generation topology) CreatePartitionInUnallocatedSpace
    (sd_candidate_id device) None (Some (ur_id free_region)) None before after
    [BackupPartitionTable (sd_candidate_id device);
     CreateBackupPartition (sd_candidate_id device) (Some (ur_id free_region)) (Some geometry);
     FormatLuks2 None; OpenLuksMapping; FormatBtrfs; VerifyPreparedTarget; PublishProfile]
    [mkWarning "create-partition-in-unallocated-space" (bd_display_path (sd_identity device))]
    scope).

(** src/provisioning/DevicePreparationPlanBuilder.cpp:244-270 *)
Definition adopt_existing_target_plan (topology : StorageTopology) (device : StorageDevice)
    (partition : ExistingPartition) (id inspection_id : string) : res DevicePreparationPlan :=
  _ ← require (negb (negb (ep_suitable_for_adoption partition) || str_empty inspection_id))
        (ValidationError "storage partition requires a valid existing target inspection");
  let layout := current_layout device in
  scope ← scope_adoption (sd_candidate_id device) (ep_candidate_id partition);
  validated (mkPlan id (topo_generation topology) AdoptExistingTarget (sd_candidate_id device)
    (Some (ep_candidate_id partition)) None (Some inspection_id) layout layout
    [VerifyPreparedTarget; PublishProfile] [] scope).

(** The first device that has a region accepted by [get], with that region: the loops
    over the devices. *)
Fixpoint find_region {A} (get : StorageRegion -> option A) (devices : list StorageDevice)
    : option (StorageDevice * A) :=
  match devices with
  | [] => None
  | d :: devices =>
      match head (omap get (sd_regions d)) with
      | Some a => Some (d, a)
      | None => find_region get devices
      end
  end.

Definition partition_with_id (id : string) (region : StorageRegion) : option ExistingPartition :=
  match region with
  | RPartition p => if (ep_candidate_id p =? id)%string then Some p else None
  | RFree _ => None
  end.

Definition free_with_id (id : string) (region : StorageRegion) : option UnallocatedRegion :=
  match region with
  | RFree r => if (ur_id r =? id)%string then Some r else None
  | RPartition _ => None
  end.

(** src/provisioning/DevicePreparationPlanBuilder.cpp:274-341 *)
Definition build (topology : StorageTopology) (expected_generation selected_candidate_id : string)
    (mode : ProvisioningMode) (id : string) (inspection_id : option string)
    (partition_geometry : option PlannedPartitionGeometry) : res DevicePreparationPlan :=
  _ ← require (negb (str_empty (topo_generation topology)
                     || negb (topo_generation topology =? expected_generation)%string))
        (ValidationError "storage topology generation changed");
  _ ← require (negb (str_empty id))
        (ValidationError "device preparation plan identifier is empty");
  _ ← require (negb (bool_decide (mode = AdoptExistingTarget)
                     && negb (bool_decide (is_Some inspection_id))))
        (ValidationError "existing target inspection identifier is required");
  match mode with
  | EraseWholeDevice =>
      match partition_geometry with
      | None => Throw (ValidationError "planned whole-device partition geometry is required")
      | Some geometry =>
          match find_if (λ d, (sd_candidate_id d =? selected_candidate_id)%string)
                  (topo_devices topology) with
          | None => Throw (ValidationError "storage device candidate is unavailable")
          | Some device => erase_whole_device_plan topology device id geometry
          end
      end
  | ReformatExistingPartition =>
      match find_region (partition_with_id selected_candidate_id) (topo_devices topology) with
      | Some (device, partition) => reformat_partition_plan topology device partition id
      | None => Throw (ValidationError "storage partition candidate is unavailable")
      end
  | AdoptExistingTarget =>
      match find_region (partition_with_id selected_candidate_id) (topo_devices topology),
            inspection_id with
      | Some (device, partition), Some inspection =>
          adopt_existing_target_plan topology device partition id inspection
      | _, _ => Throw (ValidationError "storage partition candidate is unavailable")
      end
  | CreatePartitionInUnallocatedSpace =>
      match partition_geometry with
      | None => Throw (ValidationError "planned partition geometry is required")
      | Some geometry =>
          match find_region (free_with_id selected_candidate_id) (topo_devices topology) with
          | Some (device, free_region) =>
              create_partition_in_free_space_plan topology device free_region id geometry
          | None => Throw (ValidationError "unallocated storage region candidate is unavailable")
          end
      end
  end.

(** ** The safety inspector *)

(** src/provisioning/StorageSafetyInspector.cpp:13-16 *)
Definition add_blocker (code detail : string) (result : list SafetyBlocker) : list SafetyBlocker :=
  if bool_decide (mkBlocker code detail ∈ result) then result
  else result ++ [mkBlocker code detail].

(** src/provisioning/StorageSafetyInspector.cpp:18-21 *)
Definition add_blockers (blockers result : list SafetyBlocker) : list SafetyBlocker :=
  fold_left (λ acc b, add_blocker (blk_code b) (blk_detail b) acc) blockers result.

(** [if (condition) add_blocker(result, code, detail);] *)
Definition block_if (condition : bool) (code detail : string) (result : list SafetyBlocker)
    : list SafetyBlocker :=
  if condition then add_blocker code detail result else result.

(** src/provisioning/StorageSafetyInspector.cpp:23-28 *)
Definition same_identity (expected current : StableBlockDeviceIdentity) : bool :=
  (bd_display_path expected =? bd_display_path current)%string
  && (bd_major_minor expected =? bd_major_minor current)%string
  && (bd_sysfs_path expected =? bd_sysfs_path current)%string
  && (bd_wwn expected =? bd_wwn current)%string
  && (bd_serial expected =? bd_serial current)%string
  && (bd_serial_short expected =? bd_serial_short current)%string
  && (bd_size_bytes expected =? bd_size_bytes current).

(** src/provisioning/StorageSafetyInspector.cpp:30-33 *)
Definition expected_device (topology : StorageTopology) (id : string) : option StorageDevice :=
  find_if (λ d, (sd_candidate_id d =? id)%string) (topo_devices topology).

(** src/provisioning/StorageSafetyInspector.cpp:35-40 *)
Definition current_device (topology : StorageTopology) (expected : StorageDevice)
    : option StorageDevice :=
  find_if (λ d, (bd_major_minor (sd_identity d) =? bd_major_minor (sd_identity expected))%string)
    (topo_devices topology).

(** src/provisioning/StorageSafetyInspector.cpp:42-49 *)
Definition expected_partition (device : StorageDevice) (id : string) : option ExistingPartition :=
  find_if (λ p, (ep_candidate_id p =? id)%string) (omap as_partition (sd_regions device)).

(** src/provisioning/StorageSafetyInspector.cpp:51-58 *)
Definition current_partition (device : StorageDevice) (expected : ExistingPartition)
    : option ExistingPartition :=
  find_if (λ p, ep_partition_number p =? ep_partition_number expected)
    (omap as_partition (sd_regions device)).

(** src/provisioning/StorageSafetyInspector.cpp:60-67 *)
Definition expected_free_region (device : StorageDevice) (id : string)
    : option UnallocatedRegion :=
  find_if (λ r, (ur_id r =? id)%string) (omap as_free (sd_regions device)).

(** src/provisioning/StorageSafetyInspector.cpp:69-77 *)
Definition current_free_region (device : StorageDevice) (expected : UnallocatedRegion)
    : option UnallocatedRegion :=
  find_if (λ r, (ur_start_sector r =? ur_start_sector expected)
                && (ur_sector_count r =? ur_sector_count expected))
    (omap as_free (sd_regions device)).

(** src/provisioning/StorageSafetyInspector.cpp:79-95 *)
Definition inspect_device_identity (expected current : StorageDevice) (require_writable : bool)
    (result : list SafetyBlocker) : list SafetyBlocker :=
  let path := bd_display_path (sd_identity expected) in
  let result := block_if (negb (same_identity (sd_identity expected) (sd_identity current)))
                  "block-device-identity-changed" path result in
  let result := block_if
    (negb (sd_logical_sector_size expected =? sd_logical_sector_size current)
     || negb (sd_physical_sector_size expected =? sd_physical_sector_size current))
    "sector-size-changed" path result in
  let result := block_if
    (negb (bool_decide (sd_partition_table expected = sd_partition_table current)))
    "partition-table-changed" path result in
  let result := block_if (require_writable && sd_read_only current)
    "read-only-device" (bd_display_path (sd_identity current)) result in
  add_blockers (sd_blockers current) result.

(** src/provisioning/StorageSafetyInspector.cpp:97-118 *)
Definition inspect_partition_state (expected current : ExistingPartition)
    (result : list SafetyBlocker) : list SafetyBlocker :=
  let path := bd_display_path (ep_identity expected) in
  let result := block_if
    (negb (same_identity (ep_identity expected) (ep_identity current))
     || negb (bool_decide (ep_partition_uuid expected = ep_partition_uuid current))
     || negb (ep_partition_number expected =? ep_partition_number current)
     || negb (ep_start_sector expected =? ep_start_sector current)
     || negb (ep_sector_count expected =? ep_sector_count current))
    "partition-identity-changed" path result in
  let result := block_if (negb (bool_decide (ep_filesystem expected = ep_filesystem current)))
    "partition-signature-changed" path result in
  let result := add_blockers (ep_blockers current) result in
  let result := fold_left (λ acc m, add_blocker "mounted-filesystem" m acc)
    (ep_mount_points current) result in
  let result := block_if (ep_active_swap current)
    "active-swap" (bd_display_path (ep_identity current)) result in
  let result := fold_left (λ acc h, add_blocker "block-holder" h acc) (ep_holders current) result in
  block_if (ep_configured_backup_target current)
    "configured-backup-target" (bd_display_path (ep_identity current)) result.

(** The loop over the partitions the device has now.
    src/provisioning/StorageSafetyInspector.cpp:148-152 *)
Definition inspect_current_partitions (current_parent : StorageDevice)
    (result : list SafetyBlocker) : list SafetyBlocker :=
  fold_left (λ acc p, inspect_partition_state p p acc)
    (omap as_partition (sd_regions current_parent)) result.

(** The loop over the partitions of the plan's snapshot.
    src/provisioning/StorageSafetyInspector.cpp:153-162 *)
Definition inspect_expected_partitions (expected_parent current_parent : StorageDevice)
    (result : list SafetyBlocker) : list SafetyBlocker :=
  fold_left (λ acc p,
      match current_partition current_parent p with
      | None => add_blocker "block-partition-missing" (bd_display_path (ep_identity p)) acc
      | Some c => inspect_partition_state p c acc
      end)
    (omap as_partition (sd_regions expected_parent)) result.

(** src/provisioning/StorageSafetyInspector.cpp:122-224 *)
Definition inspect (expected current : StorageTopology) (plan : DevicePreparationPlan)
    : list SafetyBlocker :=
  match expected_device expected (plan_device_id plan) with
  | None => add_blocker "planned-device-missing" "" []
  | Some expected_parent =>
  match current_device current expected_parent with
  | None => add_blocker "block-device-missing" (bd_display_path (sd_identity expected_parent)) []
  | Some current_parent =>
  let result := inspect_device_identity expected_parent current_parent
    (negb (bool_decide (plan_mode plan = AdoptExistingTarget))) [] in
  let generation_changed :=
    block_if (negb (topo_generation expected =? topo_generation current)%string)
      "topology-generation-changed" "" in
  match scope_kind (plan_destructive_scope plan) with
  | WholeDevice =>
      let result := generation_changed result in
      let result := inspect_current_partitions current_parent result in
      inspect_expected_partitions expected_parent current_parent result
  | ScopeUnallocated =>
      let result := generation_changed result in
      match plan_free_region_id plan with
      | None => add_blocker "planned-free-region-missing" "" result
      | Some free_region_id =>
      match expected_free_region expected_parent free_region_id with
      | None => add_blocker "planned-free-region-missing" "" result
      | Some expected_region =>
          let result :=
            match current_free_region current_parent expected_region with
            | None => add_blocker "unallocated-region-changed" "" result
            | Some current_region =>
                block_if (negb (ur_suitable_for_backup_partition current_region))
                  "unallocated-region-unsuitable" ""
                  (add_blockers (ur_blockers current_region) result)
            end in
          let result := inspect_current_partitions current_parent result in
          inspect_expected_partitions expected_parent current_parent result
      end
      end
  | kind =>
      let existing_partition_scope :=
        bool_decide (kind = ScopePartition)
        || (bool_decide (plan_mode plan = AdoptExistingTarget) && bool_decide (kind = ScopeNone)) in
      match (if existing_partition_scope then plan_partition_id plan else None) with
      | None => add_blocker "unsupported-destructive-scope" "" result
      | Some partition_id =>
      match expected_partition expected_parent partition_id with
      | None => add_blocker "planned-partition-missing" "" result
      | Some expected_target =>
      match current_partition current_parent expected_target with
      | None => add_blocker "block-partition-missing"
                  (bd_display_path (ep_identity expected_target)) result
      | Some current_target => inspect_partition_state expected_target current_target result
      end
      end
      end
  end
  end
  end.

(** ** The marker of configured backup targets *)

(** src/provisioning/ConfiguredBackupTargetMarker.hpp:13-16 *)
Record ConfiguredBackupTargetIdentity := mkConfiguredTarget {
  ct_partition_uuid : string;
  ct_luks_uuid : string;
}.

(** src/provisioning/ConfiguredBackupTargetMarker.cpp:12-18 *)
Definition matches (partition : ExistingPartition) (target : ConfiguredBackupTargetIdentity)
    : bool :=
  let partition_uuid_matches :=
    negb (str_empty (ct_partition_uuid target))
    && match ep_partition_uuid partition with
       | Some uuid => (uuid =? ct_partition_uuid target)%string
       | None => false
       end in
  let luks_uuid_matches :=
    negb (str_empty (ct_luks_uuid target))
    && (fs_type (ep_filesystem partition) =? "crypto_LUKS")%string
    && (fs_uuid (ep_filesystem partition) =? ct_luks_uuid target)%string in
  partition_uuid_matches || luks_uuid_matches.

(** src/provisioning/ConfiguredBackupTargetMarker.cpp:20-27 *)
Definition add_configured_target_blocker (partition : ExistingPartition) : ExistingPartition :=
  let blocker := mkBlocker "configured-backup-target" (bd_display_path (ep_identity partition)) in
  partition
    <| ep_blockers := if bool_decide (blocker ∈ ep_blockers partition) then ep_blockers partition
                      else ep_blockers partition ++ [blocker] |>
    <| ep_configured_backup_target := true |>
    <| ep_suitable_for_reformat := false |>
    <| ep_suitable_for_adoption := false |>.

(** src/provisioning/ConfiguredBackupTargetMarker.cpp:36-46 *)
Definition mark_region (targets : list ConfiguredBackupTargetIdentity) (region : StorageRegion)
    : StorageRegion :=
  match region with
  | RPartition p =>
      if existsb (matches p) targets then RPartition (add_configured_target_blocker p) else region
  | RFree _ => region
  end.

(** src/provisioning/ConfiguredBackupTargetMarker.cpp:36-46 *)
Definition marker_apply (targets : list ConfiguredBackupTargetIdentity) (topology : StorageTopology)
    : StorageTopology :=
  mkTopology (topo_generation topology)
    (map (λ d, d <| sd_regions := map (mark_region targets) (sd_regions d) |>)
       (topo_devices topology)).

(** ** Lemmas: plans *)

Lemma require_identifier_Ok v m u : require_identifier v m = Ok u <-> str_empty v = false.
Proof. unfold require_identifier. rewrite require_Ok. apply negb_true_iff. Qed.

Lemma make_scope_Ok k d p f s :
  make_scope k d p f = Ok s <-> str_empty d = false /\ s = mkScope k d p f.
Proof.
  unfold make_scope, require_identifier. destruct (str_empty d); cbn; naive_solver.
Qed.

Lemma validated_Ok p q : validated p = Ok q -> q = p /\ validate p = Ok tt.
Proof. unfold validated. intros ([] & Hv & [= <-])%res_bind_Ok. done. Qed.

Lemma find_region_Some {A} (get : StorageRegion -> option A) devices d a :
  find_region get devices = Some (d, a) ->
  d ∈ devices /\ exists before r after, sd_regions d = before ++ r :: after /\ get r = Some a.
Proof.
  induction devices as [|d' devices IH]; [done|]. cbn.
  destruct (head (omap get (sd_regions d'))) as [a'|] eqn:E.
  - intros [= -> ->]. split; [constructor|]. clear IH.
    assert (Ha : a ∈ omap get (sd_regions d)).
    { destruct (omap get (sd_regions d)); [done|]. injection E as ->. constructor. }
    apply list_elem_of_omap in Ha as (r & Hr & Hg). apply list_elem_of_split in Hr as (l1 & l2 & ->).
    by exists l1, r, l2.
  - intros [Hd Hr]%IH. split; [by constructor|done].
Qed.

Lemma partition_with_id_Some id r p :
  partition_with_id id r = Some p -> r = RPartition p /\ ep_candidate_id p = id.
Proof. destruct r as [q|]; [|done]. cbn. case_match; [|done]. breflect. naive_solver. Qed.

Lemma free_with_id_Some id r f :
  free_with_id id r = Some f -> r = RFree f /\ ur_id f = id.
Proof. destruct r as [|q]; [done|]. cbn. case_match; [|done]. breflect. naive_solver. Qed.

Lemma predicted_region_id r : pr_id (predicted_region r) = region_id r.
Proof. by destruct r. Qed.

(** With distinct identifiers, exactly the region with the identifier is changed. *)
Lemma change_first_at before r after id f :
  NoDup (map region_id (before ++ r :: after)) -> region_id r = id ->
  change_first id f (map predicted_region (before ++ r :: after)) =
    map predicted_region before ++ f (predicted_region r) ++ map predicted_region after.
Proof.
  intros Hn <-. induction before as [|x before IH]; cbn; rewrite predicted_region_id.
  - by rewrite String.eqb_refl.
  - cbn in Hn. apply NoDup_cons in Hn as [Hx Hn]. rewrite IH by done.
    destruct (String.eqb_spec (region_id x) (region_id r)) as [E|]; [|done].
    destruct Hx. rewrite E, map_app. cbn. set_solver.
Qed.

(** ** Sectors *)

(** The region contains the sector. *)
Definition has_sector (s : Z) (r : PredictedStorageRegion) : Prop :=
  pr_start_sector r <= s < pr_start_sector r + pr_sector_count r.

Global Instance has_sector_dec s r : Decision (has_sector s r).
Proof. unfold has_sector. apply _. Defined.

(** The number of regions of a layout that contain a sector. *)
Definition coverage (s : Z) (l : StorageLayout) : nat := length (filter (has_sector s) (sl_regions l)).

(** The layouts divide the device into the same sectors: where the one has [n] regions,
    the other has [n]. *)
Definition same_coverage (a b : StorageLayout) : Prop := forall s, coverage s a = coverage s b.

(** Sector numbers and counts are 64-bit numbers. *)
Definition geometry_wf (g : PlannedPartitionGeometry) : Prop :=
  0 <= pg_start_sector g <= u64_max /\ 0 <= pg_sector_count g <= u64_max.
Definition free_wf (r : UnallocatedRegion) : Prop :=
  0 <= ur_start_sector r <= u64_max /\ 0 <= ur_sector_count r <= u64_max.

Lemma filter_one s (r : PredictedStorageRegion) :
  length (filter (has_sector s) [r]) = if decide (has_sector s r) then 1%nat else 0%nat.
Proof. cbn. by destruct (decide (has_sector s r)). Qed.

Lemma replacements_coverage s r g :
  free_wf r -> geometry_wf g ->
  ur_start_sector r <= pg_start_sector g ->
  pg_start_sector g + pg_sector_count g <= ur_start_sector r + ur_sector_count r ->
  length (filter (has_sector s)
    (replacements r g (ur_start_sector r + ur_sector_count r)
       (pg_start_sector g + pg_sector_count g)))
  = if decide (has_sector s (predicted_region (RFree r))) then 1%nat else 0%nat.
Proof.
  intros [? ?] [? ?] ? ?. unfold replacements.
  rewrite !filter_app, !length_app, filter_one.
  destruct (Z.ltb_spec (ur_start_sector r) (pg_start_sector g));
  destruct (Z.ltb_spec (pg_start_sector g + pg_sector_count g) (ur_start_sector r + ur_sector_count r));
  rewrite ?filter_one;
  repeat destruct (decide _); unfold has_sector in *; cbn in *; lia.
Qed.

Lemma u64_add_small a b : 0 <= a -> 0 <= b -> a <= u64_max - b -> u64_add a b = a + b.
Proof. unfold u64_add, u64_max. intros. apply Z.mod_small. lia. Qed.

(** ** What a built plan is

    The selected region is the only one a plan changes; a plan for the whole device
    marks everything on it as lost. *)

Inductive plan_effect (device : StorageDevice) (selected : string)
    : ProvisioningMode -> list PredictedStorageRegion -> list PredictedStorageRegion -> Prop :=
| effect_erase regions target :
    regions = map predicted_region (sd_regions device) ->
    0 < sd_logical_sector_size device ->
    pr_kind target = PredictedBackup -> 0 < pr_sector_count target ->
    (pr_start_sector target + pr_sector_count target) * sd_logical_sector_size device
      <= sd_size_bytes device ->
    plan_effect device selected EraseWholeDevice
      (map (λ r, r <| pr_data_will_be_erased := bool_decide (pr_kind r = PredictedPartition) |>)
         regions) [target]
| effect_reformat before p after target :
    sd_regions device = before ++ RPartition p :: after -> ep_candidate_id p = selected ->
    pr_kind target = PredictedBackup -> pr_id target = selected ->
    pr_start_sector target = ep_start_sector p -> pr_sector_count target = ep_sector_count p ->
    pr_partition_number target = Some (ep_partition_number p) ->
    plan_effect device selected ReformatExistingPartition
      (map predicted_region before
         ++ (predicted_region (RPartition p)) <| pr_data_will_be_erased := true |>
         :: map predicted_region after)
      (map predicted_region before ++ target :: map predicted_region after)
| effect_create before r after new target :
    sd_regions device = before ++ RFree r :: after -> ur_id r = selected ->
    pt_type (sd_partition_table device) = Gpt -> ur_blockers r = [] ->
    target ∈ new -> pr_kind target = PredictedBackup -> 0 < pr_sector_count target ->
    (forall x, x ∈ new -> pr_kind x = PredictedBackup -> x = target) ->
    (forall s, length (filter (has_sector s) new)
       = if decide (has_sector s (predicted_region (RFree r))) then 1%nat else 0%nat) ->
    plan_effect device selected CreatePartitionInUnallocatedSpace
      (map predicted_region (sd_regions device))
      (map predicted_region before ++ new ++ map predicted_region after)
| effect_adopt before p after :
    sd_regions device = before ++ RPartition p :: after -> ep_candidate_id p = selected ->
    ep_suitable_for_adoption p = true ->
    plan_effect device selected AdoptExistingTarget
      (map predicted_region (sd_regions device)) (map predicted_region (sd_regions device)).

(** The regions of every device have distinct identifiers and 64-bit sector numbers. *)
Definition topology_wf (t : StorageTopology) : Prop :=
  Forall (λ d, NoDup (map region_id (sd_regions d)) /\
               0 <= sd_logical_sector_size d /\
               forall r, RFree r ∈ sd_regions d -> free_wf r) (topo_devices t).

Lemma erase_plan_effect t d id g plan :
  geometry_wf g -> 0 <= sd_logical_sector_size d ->
  erase_whole_device_plan t d id g = Ok plan ->
  plan_effect d (sd_candidate_id d) EraseWholeDevice
    (sl_regions (plan_before plan)) (sl_regions (plan_after plan)).
Proof.
  intros Hg Hs H. unfold erase_whole_device_plan in H. res_inv.
  match goal with H : validated _ = Ok _ |- _ => apply validated_Ok in H as [-> _] end. cbn.
  breflect. destruct (Z.eqb_spec (sd_logical_sector_size d) 0) as [E|E]; breflect;
    destruct Hg; [lia|].
  eapply (effect_erase _ _ _ (planned_region g)); [done|lia|done|cbn; lia|]. cbn.
  pose proof (Z.mul_div_le (sd_size_bytes d) (sd_logical_sector_size d)). nia.
Qed.

Lemma reformat_plan_effect t d p id plan before after :
  NoDup (map region_id (sd_regions d)) -> sd_regions d = before ++ RPartition p :: after ->
  reformat_partition_plan t d p id = Ok plan ->
  plan_effect d (ep_candidate_id p) ReformatExistingPartition
    (sl_regions (plan_before plan)) (sl_regions (plan_after plan)).
Proof.
  intros Hn Hr H. unfold reformat_partition_plan in H. res_inv.
  match goal with H : validated _ = Ok _ |- _ => apply validated_Ok in H as [-> _] end.
  cbn -[change_first predicted_region]. rewrite Hr in Hn |- *.
  rewrite !change_first_at by done. cbn [app]. by eapply effect_reformat.
Qed.

Lemma create_plan_effect t d r id g plan before after :
  NoDup (map region_id (sd_regions d)) -> sd_regions d = before ++ RFree r :: after ->
  free_wf r -> geometry_wf g ->
  create_partition_in_free_space_plan t d r id g = Ok plan ->
  plan_effect d (ur_id r) CreatePartitionInUnallocatedSpace
    (sl_regions (plan_before plan)) (sl_regions (plan_after plan)).
Proof.
  intros Hn Hr Hf Hg H. unfold create_partition_in_free_space_plan in H. res_inv.
  match goal with H : validated _ = Ok _ |- _ => apply validated_Ok in H as [-> _] end.
  breflect. destruct (Hf), (Hg).
  rewrite !u64_add_small in * by lia. cbn -[change_first predicted_region replacements].
  rewrite Hr at 2. rewrite Hr in Hn. rewrite change_first_at by done.
  eapply effect_create with (r := r) (target := planned_region g); try done.
  - unfold replacements. set_solver.
  - cbn. lia.
  - unfold replacements. intros y Hy Hk.
    repeat case_match; set_unfold; naive_solver.
  - intros s. apply replacements_coverage; [done|done|lia|lia].
Qed.

Lemma adopt_plan_effect t d p id inspection plan before after :
  sd_regions d = before ++ RPartition p :: after ->
  adopt_existing_target_plan t d p id inspection = Ok plan ->
  plan_effect d (ep_candidate_id p) AdoptExistingTarget
    (sl_regions (plan_before plan)) (sl_regions (plan_after plan)).
Proof.
  intros Hr H. unfold adopt_existing_target_plan in H. res_inv.
  match goal with H : validated _ = Ok _ |- _ => apply validated_Ok in H as [-> _] end.
  breflect. cbn. by eapply effect_adopt.
Qed.

(** The members of the plans that do not depend on the layouts. *)
Definition plan_shape (t : StorageTopology) (d : StorageDevice) (mode : ProvisioningMode)
    (id : string) (plan : DevicePreparationPlan) : Prop :=
  validate plan = Ok tt /\ plan_id plan = id /\ plan_mode plan = mode /\
  plan_topology_generation plan = topo_generation t /\ plan_device_id plan = sd_candidate_id d.

Ltac plan_shape_tac f := intros H; unfold f in H; res_inv;
  match goal with H : validated _ = Ok _ |- _ => apply validated_Ok in H as [-> ?] end;
  repeat split; done.

Lemma erase_plan_shape t d id g plan :
  erase_whole_device_plan t d id g = Ok plan -> plan_shape t d EraseWholeDevice id plan.
Proof. plan_shape_tac @erase_whole_device_plan. Qed.
Lemma reformat_plan_shape t d p id plan :
  reformat_partition_plan t d p id = Ok plan -> plan_shape t d ReformatExistingPartition id plan.
Proof. plan_shape_tac @reformat_partition_plan. Qed.
Lemma create_plan_shape t d r id g plan :
  create_partition_in_free_space_plan t d r id g = Ok plan ->
  plan_shape t d CreatePartitionInUnallocatedSpace id plan.
Proof. plan_shape_tac @create_partition_in_free_space_plan. Qed.
Lemma adopt_plan_shape t d p id i plan :
  adopt_existing_target_plan t d p id i = Ok plan -> plan_shape t d AdoptExistingTarget id plan.
Proof. plan_shape_tac @adopt_existing_target_plan. Qed.

Lemma build_shape t generation selected mode id inspection geometry plan :
  build t generation selected mode id inspection geometry = Ok plan ->
  exists d, plan_shape t d mode id plan.
Proof.
  intros H. unfold build in H. res_inv.
  destruct mode; cbn in *; repeat case_match; simplify_eq; try done; eexists;
    eauto using erase_plan_shape, reformat_plan_shape, create_plan_shape, adopt_plan_shape.
Qed.

(** A plan that is built is valid, is for the generation and the mode asked for and
    for a device of the topology, and its layouts differ in the selected region alone: a
    reformatted partition keeps its place, the regions that take the place of free space
    fill exactly its sectors, an adopted device is not changed at all, and the single
    partition of an erased device lies inside it while everything on it is marked as
    lost. *)
Theorem build_changes_only_selection t generation selected mode id inspection geometry plan :
  topology_wf t -> (forall g, geometry = Some g -> geometry_wf g) ->
  build t generation selected mode id inspection geometry = Ok plan ->
  generation = topo_generation t /\
  exists d, d ∈ topo_devices t /\ plan_shape t d mode id plan /\
    plan_effect d selected mode (sl_regions (plan_before plan)) (sl_regions (plan_after plan)).
Proof.
  intros Hwf Hg H. unfold build in H. res_inv. breflect.
  split; [done|]. unfold topology_wf in Hwf. rewrite Forall_forall in Hwf.
  destruct mode; cbn in *; repeat case_match; simplify_eq; try done.
  - match goal with H : find_if _ _ = Some ?s |- _ => apply find_if_Some in H as [Hd ?]; breflect; exists s end.
    subst. destruct (Hwf _ Hd) as (? & ? & _). repeat split; [done|by eapply erase_plan_shape..|].
    eapply erase_plan_effect; eauto.
  - match goal with H : find_region _ _ = Some _ |- _ => apply find_region_Some in H as (Hd & b & r & a & Hr & Hp) end.
    apply partition_with_id_Some in Hp as [-> <-]. destruct (Hwf _ Hd) as (? & _ & _).
    eexists. repeat split; [exact Hd|by eapply reformat_plan_shape..|]. by eapply reformat_plan_effect.
  - match goal with H : find_region _ _ = Some _ |- _ => apply find_region_Some in H as (Hd & b & r & a & Hr & Hp) end.
    apply free_with_id_Some in Hp as [-> <-]. destruct (Hwf _ Hd) as (? & _ & Hf).
    eexists. repeat split; [exact Hd|by eapply create_plan_shape..|].
    eapply create_plan_effect; eauto. apply Hf. rewrite Hr. set_solver.
  - match goal with H : find_region _ _ = Some _ |- _ => apply find_region_Some in H as (Hd & b & r & a & Hr & Hp) end.
    apply partition_with_id_Some in Hp as [-> <-].
    eexists. repeat split; [exact Hd|by eapply adopt_plan_shape..|]. by eapply adopt_plan_effect.
Qed.

(** ** Lemmas: the inspector *)

Lemma add_blocker_nil code detail l : add_blocker code detail l = [] <-> False.
Proof. unfold add_blocker. case_bool_decide; destruct l; cbn; set_solver. Qed.

Lemma block_if_nil b code detail l : block_if b code detail l = [] <-> l = [] /\ b = false.
Proof. unfold block_if. destruct b; rewrite ?add_blocker_nil; naive_solver. Qed.

Lemma fold_nil {A} (f : list SafetyBlocker -> A -> list SafetyBlocker) (P : A -> Prop) xs l :
  (forall acc x, f acc x = [] <-> acc = [] /\ P x) ->
  fold_left f xs l = [] <-> l = [] /\ Forall P xs.
Proof.
  intros Hf. revert l. induction xs as [|x xs IH]; intros l; cbn.
  - split; [done|by intros []].
  - rewrite IH, Hf, Forall_cons. tauto.
Qed.

Lemma Forall_False {A} (l : list A) : Forall (λ _, False) l <-> l = [].
Proof. split; [by destruct 1|by intros ->]. Qed.

Lemma add_blockers_nil bs l : add_blockers bs l = [] <-> l = [] /\ bs = [].
Proof.
  unfold add_blockers. rewrite (fold_nil _ (λ _, False)), Forall_False; [done|].
  intros. rewrite add_blocker_nil. tauto.
Qed.

Lemma same_identity_eq a b : same_identity a b = true <-> a = b.
Proof.
  unfold same_identity. rewrite !andb_true_iff, !String.eqb_eq, Z.eqb_eq.
  split; [|by intros ->]. destruct a, b; cbn. intros. destruct_and!. by subst.
Qed.

Create Rewrite HintDb safety.
#[export] Hint Rewrite block_if_nil add_blocker_nil add_blockers_nil negb_false_iff
  orb_false_iff bool_decide_eq_true same_identity_eq Z.eqb_eq String.eqb_eq : safety.

(** ** What it means that a device is safe to prepare *)

(** The device found is the device planned for, unchanged and free of blockers. *)
Definition device_safe (expected current : StorageDevice) (require_writable : bool) : Prop :=
  sd_identity expected = sd_identity current /\
  sd_logical_sector_size expected = sd_logical_sector_size current /\
  sd_physical_sector_size expected = sd_physical_sector_size current /\
  sd_partition_table expected = sd_partition_table current /\
  (require_writable = true -> sd_read_only current = false) /\
  sd_blockers current = [].

(** Nothing uses the partition and no profile backs up to it. *)
Definition partition_idle (p : ExistingPartition) : Prop :=
  ep_blockers p = [] /\ ep_mount_points p = [] /\ ep_active_swap p = false /\
  ep_holders p = [] /\ ep_configured_backup_target p = false.

(** The partition found is the partition expected, with the same contents. *)
Definition partition_same (expected current : ExistingPartition) : Prop :=
  ep_identity expected = ep_identity current /\
  ep_partition_uuid expected = ep_partition_uuid current /\
  ep_partition_number expected = ep_partition_number current /\
  ep_start_sector expected = ep_start_sector current /\
  ep_sector_count expected = ep_sector_count current /\
  ep_filesystem expected = ep_filesystem current.

Definition partitions (d : StorageDevice) : list ExistingPartition :=
  omap as_partition (sd_regions d).

(** Every partition of the device is idle and all expected ones are there, unchanged. *)
Definition partitions_safe (expected current : StorageDevice) : Prop :=
  Forall partition_idle (partitions current) /\
  Forall (λ p, exists c, current_partition current p = Some c /\ partition_same p c)
    (partitions expected).

(** What the scope of the plan asks of the partitions and regions of the device. *)
Definition scope_safe (expected current : StorageTopology) (ed cd : StorageDevice)
    (plan : DevicePreparationPlan) : Prop :=
  match scope_kind (plan_destructive_scope plan) with
  | WholeDevice =>
      topo_generation expected = topo_generation current /\ partitions_safe ed cd
  | ScopeUnallocated =>
      topo_generation expected = topo_generation current /\ partitions_safe ed cd /\
      exists id er cr, plan_free_region_id plan = Some id /\
        expected_free_region ed id = Some er /\ current_free_region cd er = Some cr /\
        ur_blockers cr = [] /\ ur_suitable_for_backup_partition cr = true
  | kind =>
      (kind = ScopePartition \/ plan_mode plan = AdoptExistingTarget) /\
      exists id ep cp, plan_partition_id plan = Some id /\
        expected_partition ed id = Some ep /\ current_partition cd ep = Some cp /\
        partition_same ep cp /\ partition_idle cp
  end.

Definition storage_safe (expected current : StorageTopology) (plan : DevicePreparationPlan)
    : Prop :=
  exists ed cd,
    expected_device expected (plan_device_id plan) = Some ed /\
    current_device current ed = Some cd /\
    device_safe ed cd (negb (bool_decide (plan_mode plan = AdoptExistingTarget))) /\
    scope_safe expected current ed cd plan.

Lemma inspect_device_identity_nil e c w l :
  inspect_device_identity e c w l = [] <-> l = [] /\ device_safe e c w.
Proof.
  unfold inspect_device_identity, device_safe. cbv zeta. autorewrite with safety.
  destruct w, (sd_read_only c); cbn; intuition congruence.
Qed.

Lemma inspect_partition_state_nil e c l :
  inspect_partition_state e c l = [] <-> l = [] /\ partition_same e c /\ partition_idle c.
Proof.
  unfold inspect_partition_state, partition_same, partition_idle. cbv zeta.
  rewrite block_if_nil, (fold_nil _ (λ _, False)), Forall_False
    by (intros; rewrite add_blocker_nil; tauto).
  rewrite block_if_nil, (fold_nil _ (λ _, False)), Forall_False
    by (intros; rewrite add_blocker_nil; tauto).
  autorewrite with safety. tauto.
Qed.

Lemma partition_same_refl p : partition_same p p.
Proof. by repeat split. Qed.

Lemma inspect_partitions_nil e c l :
  inspect_expected_partitions e c (inspect_current_partitions c l) = [] <->
  l = [] /\ partitions_safe e c.
Proof.
  unfold inspect_expected_partitions, inspect_current_partitions, partitions_safe.
  rewrite (fold_nil _ (λ p, exists q, current_partition c p = Some q /\
                                      partition_same p q /\ partition_idle q)).
  2:{ intros acc p. destruct (current_partition c p); rewrite ?add_blocker_nil;
      rewrite ?inspect_partition_state_nil; naive_solver. }
  rewrite (fold_nil _ partition_idle).
  2:{ intros acc p. rewrite inspect_partition_state_nil. pose proof (partition_same_refl p). tauto. }
  unfold partitions. rewrite !Forall_forall. split; [naive_solver|].
  intros (-> & Hi & He). split; [by split|]. intros p Hp. destruct (He p Hp) as (q & Hq & Hs).
  exists q. split; [done|]. split; [done|]. apply Hi. unfold current_partition in Hq.
  by apply find_if_Some in Hq as [? _].
Qed.

Lemma inspect_refines_storage_safe_iff expected current plan :
  inspect expected current plan = [] <-> storage_safe expected current plan.
Proof.
  unfold inspect, storage_safe.
  destruct (expected_device expected _) as [ed|]; [|rewrite add_blocker_nil; naive_solver].
  destruct (current_device current ed) as [cd|] eqn:Ec; [|rewrite add_blocker_nil; naive_solver].
  transitivity (device_safe ed cd (negb (bool_decide (plan_mode plan = AdoptExistingTarget))) /\
    scope_safe expected current ed cd plan); [|naive_solver]. unfold scope_safe.
  destruct (scope_kind _) eqn:Ek.
  - change (bool_decide (ScopeNone = ScopePartition)) with false.
    change (bool_decide (ScopeNone = ScopeNone)) with true.
    rewrite andb_true_r. cbn [orb].
    destruct (bool_decide_reflect (plan_mode plan = AdoptExistingTarget)) as [Hm|Hm].
    + destruct (plan_partition_id plan) as [id|]; [|rewrite add_blocker_nil; naive_solver].
      destruct (expected_partition ed id) as [ep|] eqn:Ee; [|rewrite add_blocker_nil; naive_solver].
      destruct (current_partition cd ep) as [cp|] eqn:Ecp; [|rewrite add_blocker_nil; naive_solver].
      rewrite inspect_partition_state_nil, inspect_device_identity_nil. naive_solver.
    + rewrite add_blocker_nil. naive_solver.
  - rewrite inspect_partitions_nil, block_if_nil, inspect_device_identity_nil, negb_false_iff, String.eqb_eq.
    naive_solver.
  - change (bool_decide (ScopePartition = ScopePartition)) with true. cbn [orb].
    destruct (plan_partition_id plan) as [id|]; [|rewrite add_blocker_nil; naive_solver].
    destruct (expected_partition ed id) as [ep|] eqn:Ee; [|rewrite add_blocker_nil; naive_solver].
    destruct (current_partition cd ep) as [cp|] eqn:Ecp; [|rewrite add_blocker_nil; naive_solver].
    rewrite inspect_partition_state_nil, inspect_device_identity_nil. naive_solver.
  - destruct (plan_free_region_id plan) as [id|]; [|rewrite add_blocker_nil; naive_solver].
    destruct (expected_free_region ed id) as [er|] eqn:Ee; [|rewrite add_blocker_nil; naive_solver].
    rewrite inspect_partitions_nil.
    destruct (current_free_region cd er) as [cr|] eqn:Ecr; [|rewrite add_blocker_nil; naive_solver].
    rewrite !block_if_nil, add_blockers_nil, block_if_nil, inspect_device_identity_nil, !negb_false_iff, String.eqb_eq.
    naive_solver.
Qed.

(** C22.  The inspector refines [storage_safe]: it finds no blocker exactly when the device
    and the partitions the plan touches are the ones planned for, unchanged, writable, not
    mounted, not swap, not held and not backup targets, and when a free region, if one is
    to be used, is still there. *)
Theorem inspect_refines_storage_safe expected current plan :
  inspect expected current plan = [] <-> storage_safe expected current plan.
Proof. apply inspect_refines_storage_safe_iff. Qed.

(** ** Configured targets *)

Definition mark_partition (targets : list ConfiguredBackupTargetIdentity) (p : ExistingPartition)
    : ExistingPartition :=
  if existsb (matches p) targets then add_configured_target_blocker p else p.

Definition mark_device (targets : list ConfiguredBackupTargetIdentity) (d : StorageDevice)
    : StorageDevice := d <| sd_regions := map (mark_region targets) (sd_regions d) |>.

Lemma find_if_map {A B} (f : A -> B) (p : B -> bool) l :
  find_if p (map f l) = f <$> find_if (λ x, p (f x)) l.
Proof. unfold find_if. induction l as [|x l IH]; [done|]. cbn. by case_match. Qed.

Lemma find_if_ext {A} (p q : A -> bool) l : (forall x, p x = q x) -> find_if p l = find_if q l.
Proof. intros H. unfold find_if. induction l as [|x l IH]; [done|]. cbn. by rewrite H, IH. Qed.

Lemma partitions_mark targets d :
  partitions (mark_device targets d) = map (mark_partition targets) (partitions d).
Proof.
  unfold partitions, mark_device. cbn. induction (sd_regions d) as [|[p|r] l IH]; cbn; [done| |done].
  unfold mark_partition. destruct (existsb (matches p) targets); cbn; by rewrite IH.
Qed.

Lemma current_device_mark targets t e :
  current_device (marker_apply targets t) e = mark_device targets <$> current_device t e.
Proof. unfold current_device, marker_apply. cbn. by rewrite find_if_map. Qed.

Lemma current_partition_mark targets d e :
  current_partition (mark_device targets d) e = mark_partition targets <$> current_partition d e.
Proof.
  unfold current_partition. change (omap as_partition (sd_regions (mark_device targets d))) with
    (partitions (mark_device targets d)). rewrite partitions_mark, find_if_map. f_equal.
  apply find_if_ext. intros p. unfold mark_partition. by case_match.
Qed.

Lemma marked_not_idle targets p :
  existsb (matches p) targets = true -> ~ partition_idle (mark_partition targets p).
Proof. unfold mark_partition. intros -> (_ & _ & _ & _ & H). done. Qed.

Lemma mark_partition_matches targets p t :
  matches (mark_partition targets p) t = matches p t.
Proof. unfold mark_partition. by case_match. Qed.

Lemma add_configured_target_blocker_idem p :
  add_configured_target_blocker (add_configured_target_blocker p) = add_configured_target_blocker p.
Proof.
  unfold add_configured_target_blocker. cbn. f_equal.
  rewrite bool_decide_eq_true_2; [done|]. case_bool_decide; set_solver.
Qed.

Lemma mark_region_idem targets r : mark_region targets (mark_region targets r) = mark_region targets r.
Proof.
  destruct r as [p|]; [|done]. cbn. destruct (existsb (matches p) targets) eqn:E; cbn; [|by rewrite E].
  change (existsb (matches (add_configured_target_blocker p)) targets) with
    (existsb (matches p) targets). by rewrite E, add_configured_target_blocker_idem.
Qed.

(** Marking twice is marking once. *)
Lemma marker_apply_idem targets t :
  marker_apply targets (marker_apply targets t) = marker_apply targets t.
Proof.
  unfold marker_apply. cbn. f_equal. rewrite map_map. apply map_ext. intros d. cbn. f_equal.
  rewrite map_map. apply map_ext. intros r. apply mark_region_idem.
Qed.

(** The partitions of the device a plan touches: all of them, or the selected one. *)
Definition touched (ed cd : StorageDevice) (plan : DevicePreparationPlan)
    (p : ExistingPartition) : Prop :=
  match scope_kind (plan_destructive_scope plan) with
  | WholeDevice | ScopeUnallocated => p ∈ partitions cd
  | _ => exists id ep, plan_partition_id plan = Some id /\ expected_partition ed id = Some ep /\
           current_partition cd ep = Some p
  end.

(** A backup target of a configured profile cannot be prepared again: as soon as a
    partition a plan touches carries the partition UUID or the LUKS UUID of a configured
    target, the inspection of the marked topology finds a blocker, and an adoption of a
    marked partition is not even planned. *)
Theorem configured_target_protected targets expected current plan ed cd p :
  expected_device expected (plan_device_id plan) = Some ed ->
  current_device current ed = Some cd ->
  touched ed cd plan p -> existsb (matches p) targets = true ->
  inspect expected (marker_apply targets current) plan <> [] /\
  forall d id inspection,
    is_ok (adopt_existing_target_plan current d (mark_partition targets p) id inspection) = false.
Proof.
  intros He Hc Ht Hm. split.
  - rewrite inspect_refines_storage_safe_iff. intros (ed' & cd' & He' & Hc' & _ & Hs).
    rewrite He in He'. injection He' as <-. rewrite current_device_mark, Hc in Hc'.
    injection Hc' as <-. pose proof (marked_not_idle targets p Hm) as Hn.
    unfold touched in Ht. unfold scope_safe in Hs.
    assert (Hall : p ∈ partitions cd -> ~ partitions_safe ed (mark_device targets cd)).
    { intros Hp [Hi _]. rewrite partitions_mark, Forall_forall in Hi. apply Hn, Hi.
      apply list_elem_of_fmap. by exists p. }
    destruct (scope_kind _); [| | |]; try (destruct Hs; naive_solver).
    all: destruct Hs as (_ & id & ep & cp & Hid & Hep & Hcp & _ & Hi);
      destruct Ht as (id' & ep' & Hid' & Hep' & Hp); simplify_eq;
      rewrite current_partition_mark, Hp in Hcp; injection Hcp as <-; by apply Hn.
  - intros d id inspection. unfold adopt_existing_target_plan, mark_partition. rewrite Hm. done.
Qed.

(** ** Names *)

Lemma provisioning_mode_round_trip mode name :
  provisioning_mode_from_name name = Some mode <-> name = provisioning_mode_name mode.
Proof.
  split; [|by intros ->; destruct mode]. unfold provisioning_mode_from_name.
  repeat case_match; intros [= <-]; breflect; done.
Qed.

(** ** Witnesses: a disk with one LUKS partition and free space behind it *)

Definition ex_identity (path number : string) (size : Z) : StableBlockDeviceIdentity :=
  mkIdentity path number ("/sys" +:+ path) "" "S1" "" size.

Definition ex_partition : ExistingPartition :=
  mkPartition "candidate-2" (ex_identity "/dev/sdb1" "8:17" 524288) (Some "puuid-1") None 1 2048 1024
    (mkFilesystem "crypto_LUKS" "2" "" "luks-1") [] [] false [] false true true.

Definition ex_free : UnallocatedRegion := mkFree "candidate-3" 3072 4096 [] true.

Definition ex_device : StorageDevice :=
  mkDevice "candidate-1" (ex_identity "/dev/sdb" "8:16" 4194304) "disk" "usb" 4194304 512 512
    true false true false (mkTable Gpt "table-1") (mkFilesystem "" "" "" "")
    [RPartition ex_partition; RFree ex_free] [] [] false [].

Definition ex_topology : StorageTopology := mkTopology "generation-1" [ex_device].

Definition ex_geometry : PlannedPartitionGeometry := mkGeometry 4096 2048 2.

Definition ex_build (mode : ProvisioningMode) (selected : string) : res DevicePreparationPlan :=
  build ex_topology "generation-1" selected mode "plan-1" (Some "inspection-1") (Some ex_geometry).

Lemma ex_topology_wf : topology_wf ex_topology.
Proof.
  repeat constructor; cbn; try set_solver; try lia.
  all: try (intros r Hr; set_unfold in Hr; destruct_or! Hr; simplify_eq; unfold u64_max; lia).
  all: unfold u64_max; set_unfold in H; destruct_or! H; simplify_eq; cbn; lia.
Qed.

(** The free space is divided into the sectors before the partition, the partition and
    the sectors behind it; every mode has a plan, and each is safe on the same topology. *)
Example ex_plans :
  (pl ← ex_build CreatePartitionInUnallocatedSpace "candidate-3";
   Ok (map (λ r, (pr_id r, pr_start_sector r, pr_sector_count r)) (sl_regions (plan_after pl))))
  = Ok [("candidate-2", 2048, 1024); ("candidate-3:before", 3072, 1024);
        ("planned-backup-partition", 4096, 2048); ("candidate-3:after", 6144, 1024)] /\
  Forall (λ s, (pl ← ex_build s.1 s.2; Ok (inspect ex_topology ex_topology pl)) = Ok [])
    [(EraseWholeDevice, "candidate-1"); (ReformatExistingPartition, "candidate-2");
     (CreatePartitionInUnallocatedSpace, "candidate-3"); (AdoptExistingTarget, "candidate-2")].
Proof. split; [reflexivity|]. by repeat constructor. Qed.

Lemma build_changes_only_selection_witness :
  exists plan, ex_build CreatePartitionInUnallocatedSpace "candidate-3" = Ok plan /\
    plan_effect ex_device "candidate-3" CreatePartitionInUnallocatedSpace
      (sl_regions (plan_before plan)) (sl_regions (plan_after plan)).
Proof.
  destruct (ex_build CreatePartitionInUnallocatedSpace "candidate-3") as [plan|e] eqn:E; [|done].
  exists plan. split; [reflexivity|].
  assert (Hg : forall g, Some ex_geometry = Some g -> geometry_wf g).
  { intros g [= <-]. unfold geometry_wf, u64_max. cbn. lia. }
  destruct (build_changes_only_selection ex_topology "generation-1" "candidate-3"
    CreatePartitionInUnallocatedSpace "plan-1"
    (Some "inspection-1") _ plan ex_topology_wf Hg E)
    as (_ & d & Hd & _ & He).
  apply list_elem_of_singleton in Hd as ->. exact He.
Defined.

(** The whole disk may not be erased when its partition is a configured target. *)
Lemma configured_target_protected_witness :
  exists plan, ex_build EraseWholeDevice "candidate-1" = Ok plan /\
    inspect ex_topology (marker_apply [mkConfiguredTarget "" "luks-1"] ex_topology) plan <> [].
Proof.
  destruct (ex_build EraseWholeDevice "candidate-1") as [plan|e] eqn:E; [|done].
  exists plan. split; [reflexivity|].
  assert (Hp : plan_device_id plan = "candidate-1" /\
    scope_kind (plan_destructive_scope plan) = WholeDevice).
  { vm_compute in E. injection E as <-. split; reflexivity. }
  destruct Hp as [Hd Hk].
  apply (configured_target_protected [mkConfiguredTarget "" "luks-1"] ex_topology ex_topology plan
    ex_device ex_device ex_partition).
  - rewrite Hd. reflexivity.
  - reflexivity.
  - unfold touched. rewrite Hk. constructor.
  - reflexivity.
Defined.
