(* ===== verification/Preparation.v ===== *)
(** * The transaction of a device preparation (src/provisioning/DevicePreparation,
      DevicePreparationTransaction, ExistingTargetInspection)

    What the daemon and the worker process share of a device preparation: the record that
    is kept on disk while a device is prepared. *)

From S2P Require Import Prelude Errors Provisioning.

Open Scope Z_scope.

(** ** Inspection of an existing target *)

(** src/provisioning/ExistingTargetInspection.hpp:14-21 *)
Inductive ExistingTargetClassification :=
| CompatibleRepository
| EmptyFilesystem
| LegacyRepository
| UnsupportedRepository
| ForeignOrInvalidRepository
| NotBtrfsFilesystem.

Global Instance ExistingTargetClassification_eq_dec : EqDecision ExistingTargetClassification.
Proof. solve_decision. Defined.

(** src/provisioning/ExistingTargetInspection.cpp:8-24 *)
Definition existing_target_classification_name (c : ExistingTargetClassification) : string :=
  match c with
  | CompatibleRepository => "compatible-repository"
  | EmptyFilesystem => "empty-filesystem"
  | LegacyRepository => "legacy-repository"
  | UnsupportedRepository => "unsupported-repository"
  | ForeignOrInvalidRepository => "foreign-or-invalid-repository"
  | NotBtrfsFilesystem => "not-btrfs-filesystem"
  end.

(** src/provisioning/ExistingTargetInspection.hpp:25-40 *)
Record ExistingTargetInspectionSummary := mkSummary {
  in_classification : ExistingTargetClassification;
  in_diagnostic_code : string;
  in_luks_uuid : string;
  in_btrfs_uuid : string;
  in_partition_uuid : string;
  in_repository_id : string;
  in_catalog_generation : Z;
  in_snapshot_count : Z;
}.

Global Instance ExistingTargetInspectionSummary_eq_dec : EqDecision ExistingTargetInspectionSummary.
Proof. solve_decision. Defined.

(** src/provisioning/ExistingTargetInspection.hpp:35-37 *)
Definition adoptable (s : ExistingTargetInspectionSummary) : bool :=
  bool_decide (in_classification s = CompatibleRepository).

(** src/provisioning/ExistingTargetInspection.hpp:42-50 *)
Record ExistingTargetInspection := mkInspection {
  ins_inspection_id : string;
  ins_topology_generation : string;
  ins_device_id : string;
  ins_partition_id : string;
  ins_target : ExistingTargetInspectionSummary;
}.

(** ** The request and the status *)

(** src/provisioning/DevicePreparation.hpp:18-29 *)
Record DevicePreparationSource := mkSource {
  src_candidate_id : string;
  src_name : string;
  src_subvolume : string;
  src_filesystem_uuid : string;
  src_mount_root : string;
  src_local_snapshot_dir : string;
  src_local_retention : Z;
  src_remote_retention : Z;
}.

Global Instance eta_DevicePreparationSource : Eta DevicePreparationSource := λ s,
  mkSource (src_candidate_id s) (src_name s) (src_subvolume s) (src_filesystem_uuid s)
    (src_mount_root s) (src_local_snapshot_dir s) (src_local_retention s) (src_remote_retention s).

(** src/provisioning/DevicePreparation.hpp:31-46 *)
Record ProvisioningDevice := mkProvisioningDevice {
  dev_path : string;
  dev_model : string;
  dev_serial : string;
  dev_transport : string;
  dev_size_bytes : Z;
  dev_removable : bool;
  dev_mounted : bool;
  dev_contains_data : bool;
  dev_major_minor : string;
  dev_sysfs_devpath : string;
  dev_wwn : string;
  dev_serial_id : string;
  dev_serial_short : string;
  dev_device_graph : string;
}.

Global Instance eta_ProvisioningDevice : Eta ProvisioningDevice := λ d,
  mkProvisioningDevice (dev_path d) (dev_model d) (dev_serial d) (dev_transport d)
    (dev_size_bytes d) (dev_removable d) (dev_mounted d) (dev_contains_data d)
    (dev_major_minor d) (dev_sysfs_devpath d) (dev_wwn d) (dev_serial_id d)
    (dev_serial_short d) (dev_device_graph d).

(** src/provisioning/DevicePreparation.hpp:48-56 *)
Record DevicePreparationRequest := mkRequest {
  rq_profile_id : string;
  rq_profile_name : string;
  rq_plan_id : string;
  rq_source_candidate_id : string;
  rq_sources : list DevicePreparationSource;
  rq_passphrase_label : string;
  rq_create_automatic_key : bool;
}.

(** src/provisioning/DevicePreparation.hpp:58-68 *)
Record DevicePreparationStatus := mkStatus {
  st_operation_id : string;
  st_profile_id : string;
  st_state : string;
  st_phase : string;
  st_error_code : string;
  st_recovery_action : string;
  st_last_completed_phase : string;
  st_cleanup_result : string;
  st_can_cancel : bool;
}.

Global Instance eta_DevicePreparationStatus : Eta DevicePreparationStatus := λ s,
  mkStatus (st_operation_id s) (st_profile_id s) (st_state s) (st_phase s) (st_error_code s)
    (st_recovery_action s) (st_last_completed_phase s) (st_cleanup_result s) (st_can_cancel s).

(** src/provisioning/DevicePreparation.hpp:70-73 *)
Record DevicePreparationOwner := mkOwner { own_bus_name : string; own_uid : Z }.

(** src/provisioning/DevicePreparation.hpp:75-82 *)
Record DevicePreparationTarget := mkTarget {
  tg_mode : ProvisioningMode;
  tg_device : StorageDevice;
  tg_partition : option ExistingPartition;
  tg_free_region : option UnallocatedRegion;
  tg_planned_partition_geometry : option PlannedPartitionGeometry;
  tg_expected_inspection : option ExistingTargetInspectionSummary;
}.

Global Instance eta_DevicePreparationTarget : Eta DevicePreparationTarget := λ t,
  mkTarget (tg_mode t) (tg_device t) (tg_partition t) (tg_free_region t)
    (tg_planned_partition_geometry t) (tg_expected_inspection t).

(** ** The transaction *)

(** src/provisioning/DevicePreparationTransaction.hpp:15-52 *)
Record DevicePreparationTransaction := mkTransaction {
  tx_revision : Z;
  tx_status : DevicePreparationStatus;
  tx_owner : DevicePreparationOwner;
  tx_device : ProvisioningDevice;
  tx_target : DevicePreparationTarget;
  tx_profile_name : string;
  tx_sources : list DevicePreparationSource;
  tx_passphrase_label : string;
  tx_create_automatic_key : bool;
  tx_created_at : Z;
  tx_updated_at : Z;
  tx_last_completed_phase : string;
  tx_partition_table_backup : string;
  tx_partition : string;
  tx_partition_device_number : string;
  tx_partition_uuid : string;
  tx_luks_uuid : string;
  tx_btrfs_uuid : string;
  tx_mapper : string;
  tx_mapper_device_number : string;
  tx_inspection_mount_point : string;
  tx_configuration_state : string;
  tx_credentials_state : string;
  tx_profile_reservation_state : string;
  tx_cleanup_result : string;
  tx_cancel_requested : bool;
  tx_requested_device_access : list string;
  tx_requested_mapper_control : bool;
  tx_access_generation : Z;
  tx_authorized_access_generation : Z;
}.

Global Instance eta_DevicePreparationTransaction : Eta DevicePreparationTransaction := λ t,
  mkTransaction (tx_revision t) (tx_status t) (tx_owner t) (tx_device t) (tx_target t)
    (tx_profile_name t) (tx_sources t) (tx_passphrase_label t) (tx_create_automatic_key t)
    (tx_created_at t) (tx_updated_at t) (tx_last_completed_phase t) (tx_partition_table_backup t)
    (tx_partition t) (tx_partition_device_number t) (tx_partition_uuid t) (tx_luks_uuid t)
    (tx_btrfs_uuid t) (tx_mapper t) (tx_mapper_device_number t) (tx_inspection_mount_point t)
    (tx_configuration_state t) (tx_credentials_state t) (tx_profile_reservation_state t)
    (tx_cleanup_result t) (tx_cancel_requested t) (tx_requested_device_access t)
    (tx_requested_mapper_control t) (tx_access_generation t) (tx_authorized_access_generation t).

(** The members of the status that are read most. *)
Definition tx_state (t : DevicePreparationTransaction) : string := st_state (tx_status t).
Definition tx_operation_id (t : DevicePreparationTransaction) : string := st_operation_id (tx_status t).
Definition tx_profile_id (t : DevicePreparationTransaction) : string := st_profile_id (tx_status t).
