(* ===== verification/PreparationDocument.v ===== *)
(** * The document of a device preparation (src/daemon/control/DevicePreparationTransactionCodec)

    The transaction as a JSON document: what is written, what is read back and what a
    reader refuses.  The text of a value is the JSON library's ([JsonText]). *)

From S2P Require Import Prelude Errors Json Provisioning Preparation.

Open Scope Z_scope.

(** ** Writing *)

(** src/daemon/control/DevicePreparationTransactionCodec.cpp:19-29 *)
Definition source_json (source : DevicePreparationSource) : Json := JObject [
  ("name", JString (src_name source));
  ("subvolume", JString (src_subvolume source));
  ("filesystemUuid", JString (src_filesystem_uuid source));
  ("mountRoot", JString (src_mount_root source));
  ("localSnapshotDir", JString (src_local_snapshot_dir source));
  ("localRetention", JUInt (src_local_retention source));
  ("remoteRetention", JUInt (src_remote_retention source))].

(** src/daemon/control/DevicePreparationTransactionCodec.cpp:44-61 *)
Definition device_json (device : ProvisioningDevice) : Json := JObject [
  ("path", JString (dev_path device));
  ("model", JString (dev_model device));
  ("serial", JString (dev_serial device));
  ("transport", JString (dev_transport device));
  ("sizeBytes", JUInt (dev_size_bytes device));
  ("removable", JBool (dev_removable device));
  ("mounted", JBool (dev_mounted device));
  ("containsData", JBool (dev_contains_data device));
  ("majorMinor", JString (dev_major_minor device));
  ("sysfsDevpath", JString (dev_sysfs_devpath device));
  ("wwn", JString (dev_wwn device));
  ("serialId", JString (dev_serial_id device));
  ("serialShort", JString (dev_serial_short device));
  ("deviceGraph", JString (dev_device_graph device))].

(** src/daemon/control/DevicePreparationTransactionCodec.cpp:82-92 *)
Definition identity_json (identity : StableBlockDeviceIdentity) : Json := JObject [
  ("path", JString (bd_display_path identity));
  ("majorMinor", JString (bd_major_minor identity));
  ("sysfsPath", JString (bd_sysfs_path identity));
  ("wwn", JString (bd_wwn identity));
  ("serial", JString (bd_serial identity));
  ("serialShort", JString (bd_serial_short identity));
  ("sizeBytes", JUInt (bd_size_bytes identity))].

(** src/daemon/control/DevicePreparationTransactionCodec.cpp:106-108 *)
Definition filesystem_json (filesystem : FilesystemDescription) : Json := JObject [
  ("type", JString (fs_type filesystem)); ("version", JString (fs_version filesystem));
  ("label", JString (fs_label filesystem)); ("uuid", JString (fs_uuid filesystem))].

(** A [std::optional] as a value: [null] when it is empty. *)
Definition optional_json {A} (f : A -> Json) (o : option A) : Json :=
  match o with Some a => f a | None => JNull end.

(** src/daemon/control/DevicePreparationTransactionCodec.cpp:126-139 *)
Definition partition_json (p : ExistingPartition) : Json := JObject [
  ("identity", identity_json (ep_identity p));
  ("partitionUuid", optional_json JString (ep_partition_uuid p));
  ("partitionLabel", optional_json JString (ep_partition_label p));
  ("partitionNumber", JUInt (ep_partition_number p));
  ("startSector", JUInt (ep_start_sector p));
  ("sectorCount", JUInt (ep_sector_count p));
  ("filesystem", filesystem_json (ep_filesystem p));
  ("suitableForReformat", JBool (ep_suitable_for_reformat p));
  ("suitableForAdoption", JBool (ep_suitable_for_adoption p))].

(** src/daemon/control/DevicePreparationTransactionCodec.cpp:140-150 *)
Definition inspection_json (s : ExistingTargetInspectionSummary) : Json := JObject [
  ("luksUuid", JString (in_luks_uuid s));
  ("btrfsUuid", JString (in_btrfs_uuid s));
  ("partitionUuid", JString (in_partition_uuid s));
  ("repositoryId", JString (in_repository_id s));
  ("catalogGeneration", JUInt (in_catalog_generation s));
  ("snapshotCount", JUInt (in_snapshot_count s))].

(** src/daemon/control/DevicePreparationTransactionCodec.cpp:151-157 *)
Definition free_region_json (r : UnallocatedRegion) : Json := JObject [
  ("startSector", JUInt (ur_start_sector r)); ("sectorCount", JUInt (ur_sector_count r))].

(** src/daemon/control/DevicePreparationTransactionCodec.cpp:158-165 *)
Definition geometry_json (g : PlannedPartitionGeometry) : Json := JObject [
  ("startSector", JUInt (pg_start_sector g)); ("sectorCount", JUInt (pg_sector_count g));
  ("partitionNumber", JUInt (pg_partition_number g))].

(** src/daemon/control/DevicePreparationTransactionCodec.cpp:125-179 *)
Definition target_json (target : DevicePreparationTarget) : Json :=
  let device := tg_device target in
  JObject [
  ("mode", JString (provisioning_mode_name (tg_mode target)));
  ("deviceIdentity", identity_json (sd_identity device));
  ("transport", JString (sd_transport device));
  ("logicalSectorSize", JUInt (sd_logical_sector_size device));
  ("physicalSectorSize", JUInt (sd_physical_sector_size device));
  ("partitionTableType", JString (partition_table_type_name (pt_type (sd_partition_table device))));
  ("partitionTableId", JString (pt_identifier (sd_partition_table device)));
  ("partition", optional_json partition_json (tg_partition target));
  ("freeRegion", optional_json free_region_json (tg_free_region target));
  ("plannedPartitionGeometry", optional_json geometry_json (tg_planned_partition_geometry target));
  ("expectedInspection", optional_json inspection_json (tg_expected_inspection target))].

(** src/daemon/control/DevicePreparationTransactionCodec.cpp:275-321 *)
Definition transaction_json (t : DevicePreparationTransaction) : Json :=
  let status := tx_status t in
  JObject [
  ("schemaVersion", JInt 1);
  ("revision", JUInt (tx_revision t));
  ("operationId", JString (st_operation_id status));
  ("profileId", JString (st_profile_id status));
  ("state", JString (st_state status));
  ("phase", JString (st_phase status));
  ("errorCode", JString (st_error_code status));
  ("recoveryAction", JString (st_recovery_action status));
  ("canCancel", JBool (st_can_cancel status));
  ("ownerBusName", JString (own_bus_name (tx_owner t)));
  ("ownerUid", JUInt (own_uid (tx_owner t)));
  ("device", device_json (tx_device t));
  ("target", target_json (tx_target t));
  ("profileName", JString (tx_profile_name t));
  ("sources", JArray (map source_json (tx_sources t)));
  ("passphraseLabel", JString (tx_passphrase_label t));
  ("createAutomaticKey", JBool (tx_create_automatic_key t));
  ("createdAt", JInt (tx_created_at t));
  ("updatedAt", JInt (tx_updated_at t));
  ("lastCompletedPhase", JString (tx_last_completed_phase t));
  ("partitionTableBackup", JString (tx_partition_table_backup t));
  ("partition", JString (tx_partition t));
  ("partitionDeviceNumber", JString (tx_partition_device_number t));
  ("partitionUuid", JString (tx_partition_uuid t));
  ("luksUuid", JString (tx_luks_uuid t));
  ("btrfsUuid", JString (tx_btrfs_uuid t));
  ("mapper", JString (tx_mapper t));
  ("mapperDeviceNumber", JString (tx_mapper_device_number t));
  ("inspectionMountPoint", JString (tx_inspection_mount_point t));
  ("configurationState", JString (tx_configuration_state t));
  ("credentialsState", JString (tx_credentials_state t));
  ("profileReservationState", JString (tx_profile_reservation_state t));
  ("cleanupResult", JString (tx_cleanup_result t));
  ("cancelRequested", JBool (tx_cancel_requested t));
  ("requestedDeviceAccess", JArray (map JString (tx_requested_device_access t)));
  ("requestedMapperControl", JBool (tx_requested_mapper_control t));
  ("accessGeneration", JUInt (tx_access_generation t));
  ("authorizedAccessGeneration", JUInt (tx_authorized_access_generation t))].

(** ** Reading *)

Section reading.
Context `{JsonText}.

Definition value_string := json_value get_string.
Definition value_bool := json_value get_bool.
Definition value_u64 := json_value get_u64.
Definition value_u32 := json_value get_u32.
Definition value_i64 := json_value get_i64.

(** src/daemon/control/DevicePreparationTransactionCodec.cpp:31-42 *)
Definition parse_source (source : Json) : res DevicePreparationSource :=
  name ← value_string source "name" "";
  subvolume ← value_string source "subvolume" "";
  filesystem_uuid ← value_string source "filesystemUuid" "";
  mount_root ← value_string source "mountRoot" "";
  local_snapshot_dir ← value_string source "localSnapshotDir" "";
  local_retention ← value_u64 source "localRetention" 30;
  remote_retention ← value_u64 source "remoteRetention" 30;
  Ok (mkSource "" name subvolume filesystem_uuid mount_root local_snapshot_dir
        local_retention remote_retention).

(** src/daemon/control/DevicePreparationTransactionCodec.cpp:63-80 *)
Definition parse_device (value : Json) : res ProvisioningDevice :=
  path ← value_string value "path" "";
  model ← value_string value "model" "";
  serial ← value_string value "serial" "";
  transport ← value_string value "transport" "";
  size_bytes ← value_u64 value "sizeBytes" 0;
  removable ← value_bool value "removable" false;
  mounted ← value_bool value "mounted" false;
  contains_data ← value_bool value "containsData" false;
  major_minor ← value_string value "majorMinor" "";
  sysfs_devpath ← value_string value "sysfsDevpath" "";
  wwn ← value_string value "wwn" "";
  serial_id ← value_string value "serialId" "";
  serial_short ← value_string value "serialShort" "";
  device_graph ← value_string value "deviceGraph" "";
  Ok (mkProvisioningDevice path model serial transport size_bytes removable mounted contains_data
        major_minor sysfs_devpath wwn serial_id serial_short device_graph).

(** src/daemon/control/DevicePreparationTransactionCodec.cpp:94-104 *)
Definition parse_identity (value : Json) : res StableBlockDeviceIdentity :=
  path ← value_string value "path" "";
  major_minor ← value_string value "majorMinor" "";
  sysfs_path ← value_string value "sysfsPath" "";
  wwn ← value_string value "wwn" "";
  serial ← value_string value "serial" "";
  serial_short ← value_string value "serialShort" "";
  size_bytes ← value_u64 value "sizeBytes" 0;
  Ok (mkIdentity path major_minor sysfs_path wwn serial serial_short size_bytes).

(** src/daemon/control/DevicePreparationTransactionCodec.cpp:110-117 *)
Definition parse_filesystem (value : Json) : res FilesystemDescription :=
  type ← value_string value "type" "";
  version ← value_string value "version" "";
  label ← value_string value "label" "";
  uuid ← value_string value "uuid" "";
  Ok (mkFilesystem type version label uuid).

(** src/daemon/control/DevicePreparationTransactionCodec.cpp:119-123 *)
Definition optional_string (value : Json) (key : string) : res (option string) :=
  if negb (json_contains value key) then Ok None
  else v ← json_at value key; if is_null v then Ok None else s ← get_string v; Ok (Some s).

(** src/daemon/control/DevicePreparationTransactionCodec.cpp:181-189 *)
Definition parse_partition_table_type (value : string) : PartitionTableType :=
  if (value =? "gpt")%string then Gpt
  else if (value =? "mbr")%string then Mbr
  else if (value =? "none")%string then TableNone
  else Unsupported.

(** [if (value.contains(key) && value.at(key).is_object())] *)
Definition optional_object {A} (parse : Json -> res A) (value : Json) (key : string)
    : res (option A) :=
  match value with
  | JObject members =>
      match json_find members key with
      | Some (JObject m) => a ← parse (JObject m); Ok (Some a)
      | _ => Ok None
      end
  | _ => Ok None
  end.

(** src/daemon/control/DevicePreparationTransactionCodec.cpp:208-223 *)
Definition parse_partition (partition : Json) : res ExistingPartition :=
  identity ← json_at partition "identity"; identity ← parse_identity identity;
  partition_uuid ← optional_string partition "partitionUuid";
  partition_label ← optional_string partition "partitionLabel";
  partition_number ← value_u32 partition "partitionNumber" 0;
  start_sector ← value_u64 partition "startSector" 0;
  sector_count ← value_u64 partition "sectorCount" 0;
  filesystem ← json_at partition "filesystem"; filesystem ← parse_filesystem filesystem;
  suitable_for_reformat ← value_bool partition "suitableForReformat" false;
  suitable_for_adoption ← value_bool partition "suitableForAdoption" false;
  Ok (mkPartition "" identity partition_uuid partition_label partition_number start_sector
        sector_count filesystem [] [] false [] false suitable_for_reformat suitable_for_adoption).

(** src/daemon/control/DevicePreparationTransactionCodec.cpp:226-236 *)
Definition parse_inspection (inspection : Json) : res ExistingTargetInspectionSummary :=
  luks_uuid ← value_string inspection "luksUuid" "";
  btrfs_uuid ← value_string inspection "btrfsUuid" "";
  partition_uuid ← value_string inspection "partitionUuid" "";
  repository_id ← value_string inspection "repositoryId" "";
  catalog_generation ← value_u64 inspection "catalogGeneration" 0;
  snapshot_count ← value_u64 inspection "snapshotCount" 0;
  Ok (mkSummary CompatibleRepository "" luks_uuid btrfs_uuid partition_uuid repository_id
        catalog_generation snapshot_count).

(** src/daemon/control/DevicePreparationTransactionCodec.cpp:239-243 *)
Definition parse_free_region (free_region : Json) : res UnallocatedRegion :=
  start_sector ← value_u64 free_region "startSector" 0;
  sector_count ← value_u64 free_region "sectorCount" 0;
  Ok (mkFree "" start_sector sector_count [] false).

(** src/daemon/control/DevicePreparationTransactionCodec.cpp:246-251 *)
Definition parse_geometry (geometry : Json) : res PlannedPartitionGeometry :=
  start_sector ← value_u64 geometry "startSector" 0;
  sector_count ← value_u64 geometry "sectorCount" 0;
  partition_number ← value_u32 geometry "partitionNumber" 0;
  Ok (mkGeometry start_sector sector_count partition_number).

Definition geometry_missing (g : option PlannedPartitionGeometry) : bool :=
  match g with
  | None => true
  | Some g => (pg_sector_count g =? 0) || (pg_partition_number g =? 0)
  end.

(** The members a target must have.
    src/daemon/control/DevicePreparationTransactionCodec.cpp:253-271 *)
Definition target_incomplete (result : DevicePreparationTarget) : bool :=
  let identity := sd_identity (tg_device result) in
  let mode_is m := bool_decide (tg_mode result = m) in
  str_empty (bd_major_minor identity) || str_empty (bd_sysfs_path identity)
  || (bd_size_bytes identity =? 0) || (sd_logical_sector_size (tg_device result) =? 0)
  || str_empty (sd_transport (tg_device result))
  || ((mode_is ReformatExistingPartition || mode_is AdoptExistingTarget)
      && negb (bool_decide (is_Some (tg_partition result))))
  || (mode_is AdoptExistingTarget
      && match tg_expected_inspection result with
         | None => true
         | Some i => str_empty (in_luks_uuid i) || str_empty (in_btrfs_uuid i)
                     || str_empty (in_partition_uuid i) || str_empty (in_repository_id i)
         end)
  || (mode_is CreatePartitionInUnallocatedSpace
      && (match tg_free_region result with None => true | Some r => ur_sector_count r =? 0 end
          || geometry_missing (tg_planned_partition_geometry result)))
  || (mode_is EraseWholeDevice && geometry_missing (tg_planned_partition_geometry result)).

(** src/daemon/control/DevicePreparationTransactionCodec.cpp:191-273 *)
Definition parse_target (value : Json) : res DevicePreparationTarget :=
  mode ← value_string value "mode" "";
  match provisioning_mode_from_name mode with
  | None => Throw (ValidationError "unsupported device preparation transaction mode")
  | Some mode =>
      identity ← json_at value "deviceIdentity"; identity ← parse_identity identity;
      transport ← value_string value "transport" "";
      logical_sector_size ← value_u32 value "logicalSectorSize" 0;
      physical_sector_size ← value_u32 value "physicalSectorSize" 0;
      table_type ← value_string value "partitionTableType" "unsupported";
      table_id ← value_string value "partitionTableId" "";
      partition ← optional_object parse_partition value "partition";
      expected_inspection ← optional_object parse_inspection value "expectedInspection";
      free_region ← optional_object parse_free_region value "freeRegion";
      geometry ← optional_object parse_geometry value "plannedPartitionGeometry";
      let device := mkDevice "" identity "" transport (bd_size_bytes identity)
        logical_sector_size physical_sector_size false false false false
        (mkTable (parse_partition_table_type table_type) table_id) (mkFilesystem "" "" "" "")
        [] [] [] false [] in
      let result := mkTarget mode device partition free_region geometry expected_inspection in
      _ ← require (negb (target_incomplete result))
            (ValidationError "incomplete device preparation target snapshot");
      Ok result
  end.

(** src/daemon/control/DevicePreparationTransactionCodec.cpp:391-396 *)
Definition source_incomplete (source : DevicePreparationSource) : bool :=
  str_empty (src_name source) || str_empty (src_subvolume source)
  || str_empty (src_filesystem_uuid source) || str_empty (src_mount_root source)
  || str_empty (src_local_snapshot_dir source) || (src_local_retention source =? 0)
  || (100000 <? src_local_retention source) || (100000 <? src_remote_retention source).

(** src/daemon/control/DevicePreparationTransactionCodec.cpp:388-398 *)
Definition transaction_incomplete (result : DevicePreparationTransaction) : bool :=
  (tx_revision result =? 0) || str_empty (tx_operation_id result)
  || str_empty (tx_profile_id result) || str_empty (own_bus_name (tx_owner result))
  || (tx_created_at result <=? 0) || str_empty (tx_profile_name result)
  || str_empty (tx_passphrase_label result) || bool_decide (tx_sources result = [])
  || existsb source_incomplete (tx_sources result)
  || bool_decide (tx_requested_device_access result = [])
  || (tx_access_generation result =? 0)
  || (tx_access_generation result <? tx_authorized_access_generation result).

(** The sources, or the one source of an older document.
    src/daemon/control/DevicePreparationTransactionCodec.cpp:349-364 *)
Definition parse_sources (value : Json) : res (list DevicePreparationSource) :=
  sources ← match value with
            | JObject members =>
                match json_find members "sources" with
                | Some (JArray items) => res_mapM parse_source items
                | _ => Ok []
                end
            | _ => Ok []
            end;
  if bool_decide (sources = []) then
    subvolume ← value_string value "sourceSubvolume" "";
    filesystem_uuid ← value_string value "sourceFilesystemUuid" "";
    mount_root ← value_string value "sourceMountRoot" "";
    local_snapshot_dir ← value_string value "localSnapshotDir" "";
    Ok [mkSource "" "Source" subvolume filesystem_uuid mount_root local_snapshot_dir 30 30]
  else Ok sources.

(** src/daemon/control/DevicePreparationTransactionCodec.cpp:323-401 *)
Definition parse_transaction (value : Json) : res DevicePreparationTransaction :=
  schema_version ← json_value get_i32 value "schemaVersion" 0;
  _ ← require (is_object value && (schema_version =? 1) && json_contains value "device")
        (ValidationError "invalid device preparation transaction");
  revision ← value_u64 value "revision" 0;
  operation_id ← value_string value "operationId" "";
  profile_id ← value_string value "profileId" "";
  state ← value_string value "state" "";
  phase ← value_string value "phase" "";
  error_code ← value_string value "errorCode" "";
  recovery_action ← value_string value "recoveryAction" "";
  can_cancel ← value_bool value "canCancel" false;
  bus_name ← value_string value "ownerBusName" "";
  uid ← value_u32 value "ownerUid" 0;
  device ← json_at value "device"; device ← parse_device device;
  _ ← require (match json_at value "target" with Ok v => is_object v | Throw _ => false end)
        (ValidationError "missing device preparation target snapshot");
  target ← json_at value "target"; target ← parse_target target;
  profile_name ← value_string value "profileName" "";
  sources ← parse_sources value;
  passphrase_label ← value_string value "passphraseLabel" "";
  create_automatic_key ← value_bool value "createAutomaticKey" true;
  created_at ← value_i64 value "createdAt" 0;
  updated_at ← value_i64 value "updatedAt" 0;
  last_completed_phase ← value_string value "lastCompletedPhase" "";
  partition_table_backup ← value_string value "partitionTableBackup" "";
  partition ← value_string value "partition" "";
  partition_device_number ← value_string value "partitionDeviceNumber" "";
  partition_uuid ← value_string value "partitionUuid" "";
  luks_uuid ← value_string value "luksUuid" "";
  btrfs_uuid ← value_string value "btrfsUuid" "";
  mapper ← value_string value "mapper" "";
  mapper_device_number ← value_string value "mapperDeviceNumber" "";
  inspection_mount_point ← value_string value "inspectionMountPoint" "";
  configuration_state ← value_string value "configurationState" "not-started";
  credentials_state ← value_string value "credentialsState" "not-started";
  profile_reservation_state ← value_string value "profileReservationState" "not-held";
  cleanup_result ← value_string value "cleanupResult" "not-required";
  cancel_requested ← value_bool value "cancelRequested" false;
  requested_device_access ← json_value get_strings value "requestedDeviceAccess" [];
  requested_mapper_control ← value_bool value "requestedMapperControl" false;
  access_generation ← value_u64 value "accessGeneration" 0;
  authorized_access_generation ← value_u64 value "authorizedAccessGeneration" 0;
  let status := mkStatus operation_id profile_id state phase error_code recovery_action ""
                  "not-required" can_cancel in
  let result := mkTransaction revision status (mkOwner bus_name uid) device target profile_name
    sources passphrase_label create_automatic_key created_at updated_at last_completed_phase
    partition_table_backup partition partition_device_number partition_uuid luks_uuid btrfs_uuid
    mapper mapper_device_number inspection_mount_point configuration_state credentials_state
    profile_reservation_state cleanup_result cancel_requested requested_device_access
    requested_mapper_control access_generation authorized_access_generation in
  _ ← require (negb (transaction_incomplete result))
        (ValidationError "incomplete device preparation transaction");
  Ok result.

(** src/daemon/control/DevicePreparationTransactionCodec.cpp:405-409 *)
Definition serialize (t : DevicePreparationTransaction) : res string := dump_json (transaction_json t).

(** src/daemon/control/DevicePreparationTransactionCodec.cpp:411-415 *)
Definition deserialize (document : string) : res DevicePreparationTransaction :=
  value ← json_parse document; parse_transaction value.
End reading.

(** ** What a document keeps

    The identifiers of candidates, the state of the device beyond its identity and the
    classification of an inspection are not written; they are read as their initial
    values. *)

Definition kept_source (s : DevicePreparationSource) : DevicePreparationSource :=
  s <| src_candidate_id := "" |>.

Definition kept_device (d : StorageDevice) : StorageDevice :=
  mkDevice "" (sd_identity d) "" (sd_transport d) (bd_size_bytes (sd_identity d))
    (sd_logical_sector_size d) (sd_physical_sector_size d) false false false false
    (sd_partition_table d) (mkFilesystem "" "" "" "") [] [] [] false [].

Definition kept_partition (p : ExistingPartition) : ExistingPartition :=
  mkPartition "" (ep_identity p) (ep_partition_uuid p) (ep_partition_label p)
    (ep_partition_number p) (ep_start_sector p) (ep_sector_count p) (ep_filesystem p) [] []
    false [] false (ep_suitable_for_reformat p) (ep_suitable_for_adoption p).

Definition kept_free (r : UnallocatedRegion) : UnallocatedRegion :=
  mkFree "" (ur_start_sector r) (ur_sector_count r) [] false.

Definition kept_inspection (s : ExistingTargetInspectionSummary) : ExistingTargetInspectionSummary :=
  mkSummary CompatibleRepository "" (in_luks_uuid s) (in_btrfs_uuid s) (in_partition_uuid s)
    (in_repository_id s) (in_catalog_generation s) (in_snapshot_count s).

Definition kept_target (t : DevicePreparationTarget) : DevicePreparationTarget :=
  mkTarget (tg_mode t) (kept_device (tg_device t)) (kept_partition <$> tg_partition t)
    (kept_free <$> tg_free_region t) (tg_planned_partition_geometry t)
    (kept_inspection <$> tg_expected_inspection t).

Definition kept_status (s : DevicePreparationStatus) : DevicePreparationStatus :=
  s <| st_last_completed_phase := "" |> <| st_cleanup_result := "not-required" |>.

(** The transaction as it is read back. *)
Definition kept (t : DevicePreparationTransaction) : DevicePreparationTransaction :=
  t <| tx_status := kept_status (tx_status t) |> <| tx_target := kept_target (tx_target t) |>
    <| tx_sources := map kept_source (tx_sources t) |>.

(** Both readers accept the transaction. *)
Definition complete (t : DevicePreparationTransaction) : bool :=
  negb (target_incomplete (tx_target t)) && negb (transaction_incomplete t).

(** *** The numbers of a transaction have the width of their C++ types. *)

Definition u64 (z : Z) : Prop := 0 <= z < 2 ^ 64.
Definition u32 (z : Z) : Prop := 0 <= z < 2 ^ 32.
Definition i64 (z : Z) : Prop := - 2 ^ 63 <= z < 2 ^ 63.

Definition target_in_range (t : DevicePreparationTarget) : Prop :=
  u64 (bd_size_bytes (sd_identity (tg_device t))) /\
  u32 (sd_logical_sector_size (tg_device t)) /\ u32 (sd_physical_sector_size (tg_device t)) /\
  (forall p, tg_partition t = Some p ->
     u64 (bd_size_bytes (ep_identity p)) /\ u32 (ep_partition_number p) /\
     u64 (ep_start_sector p) /\ u64 (ep_sector_count p)) /\
  (forall r, tg_free_region t = Some r -> u64 (ur_start_sector r) /\ u64 (ur_sector_count r)) /\
  (forall g, tg_planned_partition_geometry t = Some g ->
     u64 (pg_start_sector g) /\ u64 (pg_sector_count g) /\ u32 (pg_partition_number g)) /\
  (forall i, tg_expected_inspection t = Some i ->
     u64 (in_catalog_generation i) /\ u64 (in_snapshot_count i)).

Definition in_range (t : DevicePreparationTransaction) : Prop :=
  u64 (tx_revision t) /\ u32 (own_uid (tx_owner t)) /\ u64 (dev_size_bytes (tx_device t)) /\
  i64 (tx_created_at t) /\ i64 (tx_updated_at t) /\ u64 (tx_access_generation t) /\
  u64 (tx_authorized_access_generation t) /\ target_in_range (tx_target t) /\
  Forall (λ s, u64 (src_local_retention s) /\ u64 (src_remote_retention s)) (tx_sources t).

Section round_trip.
Context `{JsonText}.

(** *** Reading a member of a document that was written *)

Lemma read_value {A} (get : Json -> res A) ms k v a d :
  json_find ms k = Some v -> get (json_canonical v) = Ok a ->
  json_value get (JObject (reread ms)) k d = Ok a.
Proof. intros Hf Hg. cbn. by rewrite json_find_reread, Hf. Qed.

Lemma read_string ms k s d :
  json_find ms k = Some (JString s) -> value_string (JObject (reread ms)) k d = Ok s.
Proof. intros. by eapply read_value. Qed.

Lemma read_bool ms k b d :
  json_find ms k = Some (JBool b) -> value_bool (JObject (reread ms)) k d = Ok b.
Proof. intros. by eapply read_value. Qed.

Lemma read_u64 ms k z d :
  json_find ms k = Some (JUInt z) -> u64 z -> value_u64 (JObject (reread ms)) k d = Ok z.
Proof. intros Hf Hz. eapply read_value; [done|]. cbn. by rewrite Z.mod_small. Qed.

Lemma read_u32 ms k z d :
  json_find ms k = Some (JUInt z) -> u32 z -> value_u32 (JObject (reread ms)) k d = Ok z.
Proof. intros Hf Hz. eapply read_value; [done|]. cbn. by rewrite Z.mod_small. Qed.

Lemma read_i64 ms k z d :
  json_find ms k = Some (JInt z) -> i64 z -> value_i64 (JObject (reread ms)) k d = Ok z.
Proof.
  intros Hf Hz. eapply read_value; [done|]. cbn. unfold i64 in Hz.
  destruct (0 <=? z); cbn; f_equal; rewrite Z.mod_small; lia.
Qed.

Lemma read_at ms k v :
  json_find ms k = Some v -> json_at (JObject (reread ms)) k = Ok (json_canonical v).
Proof. intros Hf. cbn. by rewrite json_find_reread, Hf. Qed.

Lemma read_optional_string ms k o :
  json_find ms k = Some (optional_json JString o) ->
  optional_string (JObject (reread ms)) k = Ok o.
Proof.
  intros Hf. unfold optional_string. cbn. rewrite json_find_reread, Hf. by destruct o.
Qed.

Lemma read_optional_object {A} (parse : Json -> res A) (write : A -> list (string * Json))
    (keep : A -> A) ms k o :
  json_find ms k = Some (optional_json (λ a, JObject (write a)) o) ->
  (forall a, o = Some a -> parse (JObject (reread (write a))) = Ok (keep a)) ->
  optional_object parse (JObject (reread ms)) k = Ok (keep <$> o).
Proof.
  intros Hf Hp. unfold optional_object. rewrite json_find_reread, Hf. destruct o as [a|]; [|done].
  cbn -[reread]. change (JObject (map _ (write a))) with (JObject (reread (write a))).
  by rewrite (Hp a eq_refl).
Qed.
End round_trip.

(** Reads the members one after another. *)
Ltac read_members :=
  repeat (first
    [ erewrite read_string by reflexivity | erewrite read_bool by reflexivity
    | erewrite read_u64 by (reflexivity || assumption)
    | erewrite read_u32 by (reflexivity || assumption)
    | erewrite read_i64 by (reflexivity || assumption)
    | erewrite read_optional_string by reflexivity
    | erewrite read_at by reflexivity ]; cbn [mbind res_bind]).

Section round_trip.
Context `{JsonText}.

Lemma parse_source_json s :
  u64 (src_local_retention s) -> u64 (src_remote_retention s) ->
  parse_source (json_canonical (source_json s)) = Ok (kept_source s).
Proof.
  intros. unfold parse_source, source_json.
  change (json_canonical (JObject ?l)) with (JObject (reread l)). read_members. reflexivity.
Qed.

Lemma canonical_object ms : json_canonical (JObject ms) = JObject (reread ms).
Proof. reflexivity. Qed.

Lemma parse_device_json d :
  u64 (dev_size_bytes d) -> parse_device (json_canonical (device_json d)) = Ok d.
Proof.
  intros. unfold parse_device, device_json. rewrite canonical_object. read_members.
  by destruct d.
Qed.

Lemma parse_identity_json i :
  u64 (bd_size_bytes i) -> parse_identity (json_canonical (identity_json i)) = Ok i.
Proof.
  intros. unfold parse_identity, identity_json. rewrite canonical_object. read_members.
  by destruct i.
Qed.

Lemma parse_filesystem_json f : parse_filesystem (json_canonical (filesystem_json f)) = Ok f.
Proof.
  unfold parse_filesystem, filesystem_json. rewrite canonical_object. read_members. by destruct f.
Qed.

Lemma parse_partition_json p :
  u64 (bd_size_bytes (ep_identity p)) -> u32 (ep_partition_number p) ->
  u64 (ep_start_sector p) -> u64 (ep_sector_count p) ->
  parse_partition (json_canonical (partition_json p)) = Ok (kept_partition p).
Proof.
  intros. unfold parse_partition, partition_json. rewrite canonical_object. read_members.
  rewrite parse_identity_json by done. cbn [mbind res_bind]. read_members.
  rewrite parse_filesystem_json. cbn [mbind res_bind]. read_members. reflexivity.
Qed.

Lemma parse_inspection_json i :
  u64 (in_catalog_generation i) -> u64 (in_snapshot_count i) ->
  parse_inspection (json_canonical (inspection_json i)) = Ok (kept_inspection i).
Proof.
  intros. unfold parse_inspection, inspection_json. rewrite canonical_object. read_members.
  reflexivity.
Qed.

Lemma parse_free_region_json r :
  u64 (ur_start_sector r) -> u64 (ur_sector_count r) ->
  parse_free_region (json_canonical (free_region_json r)) = Ok (kept_free r).
Proof.
  intros. unfold parse_free_region, free_region_json. rewrite canonical_object. read_members.
  reflexivity.
Qed.

Lemma parse_geometry_json g :
  u64 (pg_start_sector g) -> u64 (pg_sector_count g) -> u32 (pg_partition_number g) ->
  parse_geometry (json_canonical (geometry_json g)) = Ok g.
Proof.
  intros. unfold parse_geometry, geometry_json. rewrite canonical_object. read_members.
  by destruct g.
Qed.

Lemma parse_table_type_name type :
  parse_partition_table_type (partition_table_type_name type) = type.
Proof. by destruct type. Qed.

Lemma target_incomplete_kept t : target_incomplete (kept_target t) = target_incomplete t.
Proof.
  unfold target_incomplete. destruct t as [m d [p|] [r|] [g|] [i|]]; reflexivity.
Qed.

Lemma parse_target_json t :
  target_in_range t ->
  parse_target (json_canonical (target_json t)) =
    if target_incomplete t
    then Throw (ValidationError "incomplete device preparation target snapshot")
    else Ok (kept_target t).
Proof.
  intros (? & ? & ? & Hp & Hr & Hg & Hi). unfold parse_target, target_json. cbv zeta.
  rewrite canonical_object. read_members.
  rewrite (proj2 (provisioning_mode_round_trip (tg_mode t) _) eq_refl). read_members.
  rewrite parse_identity_json by done. cbn [mbind res_bind]. read_members.
  erewrite (read_optional_object parse_partition _ kept_partition _ "partition" (tg_partition t));
    [cbn [mbind res_bind]|reflexivity|intros p E; destruct (Hp p E) as (? & ? & ? & ?);
     by apply parse_partition_json].
  erewrite (read_optional_object parse_inspection _ kept_inspection _ "expectedInspection"
    (tg_expected_inspection t));
    [cbn [mbind res_bind]|reflexivity|intros i E; destruct (Hi i E); by apply parse_inspection_json].
  erewrite (read_optional_object parse_free_region _ kept_free _ "freeRegion" (tg_free_region t));
    [cbn [mbind res_bind]|reflexivity|intros r E; destruct (Hr r E); by apply parse_free_region_json].
  erewrite (read_optional_object parse_geometry _ id _ "plannedPartitionGeometry"
    (tg_planned_partition_geometry t));
    [cbn [mbind res_bind]|reflexivity|intros g E; destruct (Hg g E) as (? & ? & ?);
     by apply parse_geometry_json].
  rewrite parse_table_type_name, option_fmap_id.
  match goal with |- context [target_incomplete ?x] => replace x with (kept_target t) end.
  - rewrite target_incomplete_kept. by destruct (target_incomplete t).
  - destruct t as [m d p r g i]. unfold kept_target, kept_device. cbn. by destruct (sd_partition_table d).
Qed.

Lemma get_strings_json l : get_strings (json_canonical (JArray (map JString l))) = Ok l.
Proof.
  cbn. rewrite map_map. induction l as [|s l IH]; [done|]. cbn in *. by rewrite IH.
Qed.

Lemma mapM_source_json sources :
  Forall (λ s, u64 (src_local_retention s) /\ u64 (src_remote_retention s)) sources ->
  res_mapM parse_source (map (λ s, json_canonical (source_json s)) sources)
  = Ok (map kept_source sources).
Proof.
  induction 1 as [|s l [? ?] _ IH]; [done|]. cbn [map res_mapM].
  rewrite parse_source_json by done. cbn [mbind res_bind]. by rewrite IH.
Qed.

Lemma parse_sources_json ms sources :
  json_find ms "sources" = Some (JArray (map source_json sources)) ->
  json_find ms "sourceSubvolume" = None -> json_find ms "sourceFilesystemUuid" = None ->
  json_find ms "sourceMountRoot" = None -> json_find ms "localSnapshotDir" = None ->
  Forall (λ s, u64 (src_local_retention s) /\ u64 (src_remote_retention s)) sources ->
  parse_sources (JObject (reread ms)) =
    Ok (if bool_decide (sources = []) then [mkSource "" "Source" "" "" "" "" 30 30]
        else map kept_source sources).
Proof.
  intros Hs H1 H2 H3 H4 Hr. unfold parse_sources, value_string.
  cbn -[res_mapM reread]. rewrite !json_find_reread, Hs, H1, H2, H3, H4. cbn -[res_mapM].
  rewrite map_map, mapM_source_json by done. cbn. destruct sources; by cbn.
Qed.

Lemma source_incomplete_kept s : source_incomplete (kept_source s) = source_incomplete s.
Proof. reflexivity. Qed.

Lemma transaction_incomplete_kept t :
  transaction_incomplete (kept t) = transaction_incomplete t.
Proof.
  unfold transaction_incomplete, kept. cbn. replace (bool_decide (map kept_source (tx_sources t) = []))
    with (bool_decide (tx_sources t = [])) by (apply bool_decide_ext; by destruct (tx_sources t)).
  by replace (existsb source_incomplete (map kept_source (tx_sources t)))
    with (existsb source_incomplete (tx_sources t))
    by (induction (tx_sources t) as [|s l IH]; [done|cbn; by rewrite IH]).
Qed.

(** A transaction without a source is read as an older document with an unnamed one. *)
Definition read_as (t : DevicePreparationTransaction) : DevicePreparationTransaction :=
  if bool_decide (tx_sources t = [])
  then (kept t) <| tx_sources := [mkSource "" "Source" "" "" "" "" 30 30] |> else kept t.

Lemma read_as_incomplete t : transaction_incomplete (read_as t) = transaction_incomplete t.
Proof.
  unfold read_as. case_bool_decide as E; [|apply transaction_incomplete_kept].
  unfold transaction_incomplete. rewrite E. cbn. by rewrite !orb_true_r.
Qed.

Lemma parse_transaction_json t :
  in_range t ->
  parse_transaction (json_canonical (transaction_json t)) =
    if target_incomplete (tx_target t)
    then Throw (ValidationError "incomplete device preparation target snapshot")
    else if transaction_incomplete t
    then Throw (ValidationError "incomplete device preparation transaction")
    else Ok (kept t).
Proof.
  intros (? & ? & ? & ? & ? & ? & ? & Ht & Hs). unfold parse_transaction, transaction_json. cbv zeta.
  rewrite canonical_object.
  erewrite (read_value get_i32); [|reflexivity|reflexivity]. cbn [mbind res_bind].
  unfold is_object, json_contains. rewrite json_find_reread. cbn [json_find String.eqb Ascii.eqb Bool.eqb].
  match goal with |- context [require ?b _] => change b with true end. cbn [require mbind res_bind].
  read_members. rewrite parse_device_json by done. cbn [mbind res_bind].
  read_members. cbn [is_object json_canonical target_json require mbind res_bind].
  match goal with |- context [parse_target ?j] => change j with (json_canonical (target_json (tx_target t))) end.
  rewrite parse_target_json by done. destruct (target_incomplete (tx_target t)); [done|].
  cbn [mbind res_bind]. read_members.
  erewrite parse_sources_json; [|try reflexivity; done..]. cbn [mbind res_bind]. read_members.
  erewrite (read_value get_strings); [|reflexivity|apply get_strings_json]. cbn [mbind res_bind].
  read_members.
  match goal with |- context [transaction_incomplete ?x] => replace x with (read_as t) end.
  - rewrite read_as_incomplete. destruct (transaction_incomplete t) eqn:E; [done|]. cbn. f_equal.
    unfold read_as. case_bool_decide as Es; [|done]. exfalso. unfold transaction_incomplete in E.
    rewrite Es in E. cbn in E. by rewrite !orb_true_r in E.
  - unfold read_as, kept, kept_status. destruct t as [? [] [] ? ? ? ss]. cbn.
    by destruct (bool_decide (ss = [])).
Qed.

(** *** What is read has the width of its types and is read back unchanged *)

Lemma value_u64_range j k d z : u64 d -> value_u64 j k d = Ok z -> u64 z.
Proof.
  intros Hd. unfold value_u64, json_value. destruct j; try done. case_match; [|by intros [= <-]].
  unfold get_u64. case_match; try done; intros [= <-]; apply Z.mod_pos_bound; lia.
Qed.

Lemma value_u32_range j k d z : u32 d -> value_u32 j k d = Ok z -> u32 z.
Proof.
  intros Hd. unfold value_u32, json_value. destruct j; try done. case_match; [|by intros [= <-]].
  unfold get_u32. case_match; try done; intros [= <-];
    [unfold u32; destruct b; cbn; lia|apply Z.mod_pos_bound; lia..].
Qed.

Lemma value_i64_range j k d z : i64 d -> value_i64 j k d = Ok z -> i64 z.
Proof.
  intros Hd. unfold value_i64, json_value. destruct j; try done. case_match; [|by intros [= <-]].
  assert (G : forall y, i64 ((y + 2 ^ 63) mod 2 ^ 64 - 2 ^ 63)).
  { intros y. unfold i64. pose proof (Z.mod_pos_bound (y + 2 ^ 63) (2 ^ 64)). lia. }
  unfold get_i64. case_match; try done; intros [= <-]; apply G.
Qed.

Lemma u64_small z : 0 <= z < 2 ^ 32 -> u64 z.
Proof. unfold u64. lia. Qed.
Lemma u32_0 : u32 0.
Proof. unfold u32. lia. Qed.
Lemma i64_0 : i64 0.
Proof. unfold i64. lia. Qed.
End round_trip.

(** The widths of the numbers that were read. *)
Ltac ranges := intros; res_inv;
  repeat match goal with |- _ /\ _ => split end; try done;
  first [ eapply value_u64_range; [|eassumption]; apply u64_small; lia
        | eapply value_u32_range; [|eassumption]; apply u32_0
        | eapply value_i64_range; [|eassumption]; apply i64_0
        | idtac ].

Section round_trip.
Context `{JsonText}.

Lemma parse_identity_range j i : parse_identity j = Ok i -> u64 (bd_size_bytes i).
Proof. unfold parse_identity. ranges. Qed.

Lemma parse_source_range j s :
  parse_source j = Ok s ->
  kept_source s = s /\ u64 (src_local_retention s) /\ u64 (src_remote_retention s).
Proof. unfold parse_source. ranges. Qed.

Lemma parse_device_range j d : parse_device j = Ok d -> u64 (dev_size_bytes d).
Proof. unfold parse_device. ranges. Qed.

Lemma parse_partition_range j p :
  parse_partition j = Ok p ->
  kept_partition p = p /\ u64 (bd_size_bytes (ep_identity p)) /\ u32 (ep_partition_number p) /\
  u64 (ep_start_sector p) /\ u64 (ep_sector_count p).
Proof. unfold parse_partition. ranges. by eapply parse_identity_range. Qed.

Lemma parse_inspection_range j i :
  parse_inspection j = Ok i ->
  kept_inspection i = i /\ u64 (in_catalog_generation i) /\ u64 (in_snapshot_count i).
Proof. unfold parse_inspection. ranges. Qed.

Lemma parse_free_region_range j r :
  parse_free_region j = Ok r -> kept_free r = r /\ u64 (ur_start_sector r) /\ u64 (ur_sector_count r).
Proof. unfold parse_free_region. ranges. Qed.

Lemma parse_geometry_range j g :
  parse_geometry j = Ok g ->
  u64 (pg_start_sector g) /\ u64 (pg_sector_count g) /\ u32 (pg_partition_number g).
Proof. unfold parse_geometry. ranges. Qed.

Lemma optional_object_Ok {A} (parse : Json -> res A) (P : A -> Prop) j k o :
  (forall v a, parse v = Ok a -> P a) ->
  optional_object parse j k = Ok o -> forall a, o = Some a -> P a.
Proof.
  unfold optional_object. intros HP Ho a ->. repeat case_match; try done. res_inv. by eapply HP.
Qed.

Lemma optional_kept {A} (parse : Json -> res A) (keep : A -> A) (P : A -> Prop) j k o :
  (forall v a, parse v = Ok a -> keep a = a /\ P a) ->
  optional_object parse j k = Ok o -> keep <$> o = o /\ forall a, o = Some a -> P a.
Proof.
  intros HP Ho. pose proof (optional_object_Ok _ _ _ _ _ HP Ho) as G.
  split; [|apply G]. destruct o as [a|]; [|done]. cbn. f_equal. by apply G.
Qed.

Lemma parse_target_range j t :
  parse_target j = Ok t -> kept_target t = t /\ target_in_range t /\ target_incomplete t = false.
Proof.
  unfold parse_target. intros Ht. apply res_bind_Ok in Ht as (m & _ & Ht). case_match; [|done].
  res_inv.
  repeat match goal with
  | Ho : optional_object parse_partition _ _ = _ |- _ =>
      apply (optional_kept _ _ _ _ _ _ parse_partition_range) in Ho as [? ?]
  | Ho : optional_object parse_inspection _ _ = _ |- _ =>
      apply (optional_kept _ _ _ _ _ _ parse_inspection_range) in Ho as [? ?]
  | Ho : optional_object parse_free_region _ _ = _ |- _ =>
      apply (optional_kept _ _ _ _ _ _ parse_free_region_range) in Ho as [? ?]
  | Ho : optional_object parse_geometry _ _ = _ |- _ =>
      pose proof (optional_object_Ok _ _ _ _ _ parse_geometry_range Ho); clear Ho
  | Hi : negb _ = true |- _ => apply negb_true_iff in Hi
  | Hi : parse_identity _ = Ok _ |- _ => apply parse_identity_range in Hi
  end.
  split; [|split; [|done]].
  - unfold kept_target. cbn [tg_mode tg_device tg_partition tg_free_region
      tg_planned_partition_geometry tg_expected_inspection]. by f_equal.
  - unfold target_in_range. cbn. ranges.
Qed.

Lemma parse_sources_range j l :
  parse_sources j = Ok l ->
  Forall (λ s, kept_source s = s /\ u64 (src_local_retention s) /\ u64 (src_remote_retention s)) l.
Proof.
  unfold parse_sources. intros Hl. apply res_bind_Ok in Hl as (l' & Hl' & Hl).
  case_bool_decide; res_inv.
  - repeat constructor; cbn; lia.
  - repeat case_match; simplify_eq. apply res_mapM_Forall2 in Hl'.
    match goal with Hl' : Forall2 _ _ _ |- _ => clear -Hl'; induction Hl' as [|v s vs l Hv _ IH] end;
      [done|]. constructor; [by eapply parse_source_range|done].
Qed.

Lemma map_kept_source (P : DevicePreparationSource -> Prop) l :
  Forall (λ s, kept_source s = s /\ P s) l -> map kept_source l = l.
Proof. induction 1 as [|s l [Hs _] _ IH]; [done|]. cbn. by rewrite IH, Hs. Qed.

Lemma kept_eq t :
  kept_status (tx_status t) = tx_status t -> kept_target (tx_target t) = tx_target t ->
  map kept_source (tx_sources t) = tx_sources t -> kept t = t.
Proof. intros H1 H2 H3. unfold kept. cbn. rewrite H1, H2, H3. by destruct t. Qed.

(** Reading gives a complete transaction, which is read back unchanged. *)
Lemma parse_transaction_range j t :
  parse_transaction j = Ok t -> kept t = t /\ in_range t /\ complete t = true.
Proof.
  unfold parse_transaction. intros. res_inv.
  repeat match goal with
  | Hi : negb _ = true |- _ => apply negb_true_iff in Hi
  | Hi : parse_target _ = Ok _ |- _ => apply parse_target_range in Hi as (? & ? & ?)
  | Hi : parse_device _ = Ok _ |- _ => apply parse_device_range in Hi
  | Hi : parse_sources _ = Ok _ |- _ => apply parse_sources_range in Hi
  end.
  split; [|split].
  - apply kept_eq; cbn [tx_status tx_target tx_sources]; [reflexivity|assumption|].
    match goal with Hf : Forall _ _ |- _ => exact (map_kept_source _ _ Hf) end.
  - unfold in_range. cbn. ranges. eapply Forall_impl; [eassumption|]. by intros s [_ ?].
  - unfold complete. cbn [tx_target].
    repeat match goal with Hi : _ = false |- _ => rewrite Hi; clear Hi end. done.
Qed.
End round_trip.

(** *** The numbers of the document *)

Lemma wf_numbers_u64 z : u64 z -> wf_numbers (JUInt z) = true.
Proof. unfold u64. intros. cbn. apply andb_true_iff. split; [apply Z.leb_le|apply Z.ltb_lt]; lia. Qed.
Lemma wf_numbers_u32 z : u32 z -> wf_numbers (JUInt z) = true.
Proof. unfold u32. intros. apply wf_numbers_u64. unfold u64. lia. Qed.
Lemma wf_numbers_i64 z : i64 z -> wf_numbers (JInt z) = true.
Proof. unfold i64. intros. cbn. apply andb_true_iff. split; [apply Z.leb_le|apply Z.ltb_lt]; lia. Qed.

Lemma wf_numbers_optional {A} (f : A -> Json) o :
  (forall a, o = Some a -> wf_numbers (f a) = true) -> wf_numbers (optional_json f o) = true.
Proof. destruct o; cbn; auto. Qed.

(** The members of an object, one after another. *)
Ltac wf_object :=
  apply wf_numbers_object; [reflexivity|];
  repeat apply List.Forall_cons; [..|apply List.Forall_nil]; cbn [snd];
  try first [ reflexivity | apply wf_numbers_u64; assumption | apply wf_numbers_u32; assumption
            | apply wf_numbers_i64; assumption ].

Lemma wf_identity i : u64 (bd_size_bytes i) -> wf_numbers (identity_json i) = true.
Proof. intros. wf_object. Qed.

Lemma wf_source s :
  u64 (src_local_retention s) -> u64 (src_remote_retention s) -> wf_numbers (source_json s) = true.
Proof. intros. wf_object. Qed.

Lemma wf_partition p :
  u64 (bd_size_bytes (ep_identity p)) -> u32 (ep_partition_number p) ->
  u64 (ep_start_sector p) -> u64 (ep_sector_count p) -> wf_numbers (partition_json p) = true.
Proof. intros. wf_object; [by apply wf_identity|by destruct (ep_partition_uuid p)|by destruct (ep_partition_label p)]. Qed.

Lemma wf_target t : target_in_range t -> wf_numbers (target_json t) = true.
Proof.
  intros (? & ? & ? & Hp & Hr & Hg & Hi). wf_object; [by apply wf_identity|..];
    apply wf_numbers_optional; intros a Ha.
  - destruct (Hp a Ha) as (? & ? & ? & ?). by apply wf_partition.
  - destruct (Hr a Ha). wf_object.
  - destruct (Hg a Ha) as (? & ? & ?). wf_object.
  - destruct (Hi a Ha). wf_object.
Qed.

Lemma wf_transaction t : in_range t -> wf_numbers (transaction_json t) = true.
Proof.
  intros (? & ? & ? & ? & ? & ? & ? & Ht & Hs). wf_object.
  - wf_object.
  - by apply wf_target.
  - apply wf_numbers_array, Forall_map. eapply Forall_impl; [exact Hs|]. intros s [? ?]. by apply wf_source.
  - apply wf_numbers_array, Forall_map, Forall_true. done.
Qed.

Section documents.
Context `{JsonText}.

Lemma deserialize_serialize t text :
  in_range t -> serialize t = Ok text ->
  deserialize text =
    if target_incomplete (tx_target t)
    then Throw (ValidationError "incomplete device preparation target snapshot")
    else if transaction_incomplete t
    then Throw (ValidationError "incomplete device preparation transaction")
    else Ok (kept t).
Proof.
  intros Hr Hs. unfold serialize, dump_json in Hs. apply res_bind_Ok in Hs as (d & Hd & [= <-]).
  pose proof (json_dump_utf8 _ _ Hd (wf_transaction t Hr)) as Hw.
  destruct (json_parse_dump _ Hw) as (d' & Hd' & Hp). rewrite Hd in Hd'. injection Hd' as <-.
  unfold deserialize. rewrite Hp. cbn [mbind res_bind]. by apply parse_transaction_json.
Qed.

Lemma deserialize_kept text t :
  deserialize text = Ok t -> kept t = t /\ in_range t /\ complete t = true.
Proof.
  unfold deserialize. intros (j & _ & Hj)%res_bind_Ok. by apply parse_transaction_range in Hj.
Qed.

(** The document of a transaction is its faithful record.  Whatever is read from a file
    is complete and in range; writing it again and reading it gives it back unchanged.  A
    transaction made in memory is read back with the members that are not written at their
    initial values, and if a member it must have is missing it is refused, not read as
    something else. *)
Theorem transaction_document_round_trip t text :
  in_range t -> serialize t = Ok text ->
  (complete t = true -> deserialize text = Ok (kept t)) /\
  (complete t = false -> exists message, deserialize text = Throw (ValidationError message)) /\
  (forall loaded, deserialize loaded = Ok t -> deserialize text = Ok t).
Proof.
  intros Hr Hs. pose proof (deserialize_serialize t text Hr Hs) as Hd. unfold complete.
  split; [|split].
  - intros [? ?]%andb_true_iff. breflect. by rewrite Hd, H0, H1.
  - intros Hc. rewrite Hd. destruct (target_incomplete (tx_target t)); [by eexists|].
    destruct (transaction_incomplete t); [by eexists|done].
  - intros loaded (Hk & _ & [? ?]%andb_true_iff)%deserialize_kept. breflect.
    by rewrite Hd, H0, H1, Hk.
Qed.
End documents.

(** ** Witness: the transaction of a disk that is to be erased *)

Definition ex_transaction : DevicePreparationTransaction :=
  mkTransaction 1
    (mkStatus "operation-1" "home" "queued" "queued" "" "" "" "not-required" true)
    (mkOwner ":1.42" 1000)
    (mkProvisioningDevice "/dev/sdb" "disk" "S1" "usb" 4194304 true false true "8:16" "/sys/dev/sdb"
       "" "S1" "" "")
    (mkTarget EraseWholeDevice ex_device None None (Some ex_geometry) None)
    "Home" [mkSource "candidate-9" "Source" "/home" "fs-1" "/" "/.snapshots/home" 30 30] "passphrase"
    true 1709210096 1709210096 "" "" "" "" "" "" "" "" "" "" "not-started" "not-started" "held"
    "not-required" false ["8:16"] false 1 0.

Lemma ex_transaction_in_range : in_range ex_transaction.
Proof.
  unfold in_range, target_in_range, u64, u32, i64. cbn.
  split_and!; try lia; try done; try (intros ? [= <-]; cbn; lia). repeat constructor; cbn; lia.
Qed.

Lemma transaction_document_round_trip_witness :
  exists text, serialize (H:=bits_text) ex_transaction = Ok text /\
    deserialize (H:=bits_text) text = Ok (kept ex_transaction) /\
    tx_requested_device_access (kept ex_transaction) = ["8:16"].
Proof.
  destruct (@json_dump_ok bits_text (transaction_json ex_transaction)
    (wf_transaction _ ex_transaction_in_range)) as (text & Ht).
  exists text. split; [exact Ht|]. split; [|reflexivity].
  apply (@transaction_document_round_trip bits_text ex_transaction text ex_transaction_in_range Ht).
  reflexivity.
Defined.
