(* ===== verification/PreparationStore.v ===== *)
(** * The store of device preparation transactions
      (src/daemon/control/DevicePreparationTransactionStore)

    A transaction is a file that the daemon and the worker both change.  The model is the
    contents of the directory, changed by operations that run under the lock of their
    transaction; every system call may fail, before or after it took effect, and whatever
    other processes do between two locked sections happens at [interfere].  The disk remembers
    what it held before each change and whose change it was, so that theorems can speak of the
    whole history. *)

From S2P Require Import Prelude Errors Identifiers Json Provisioning Preparation.
From S2P Require Import PreparationDocument.

Open Scope Z_scope.

(** ** The decisions of the store *)

(** src/daemon/control/DevicePreparationTransactionStore.cpp:67-72 *)
Definition terminal (t : DevicePreparationTransaction) : bool :=
  negb (tx_profile_reservation_state t =? "held")%string
  && negb (tx_profile_reservation_state t =? "releasing")%string
  && ((tx_state t =? "succeeded")%string || (tx_state t =? "failed")%string
      || (tx_state t =? "cancelled")%string || (tx_state t =? "interrupted")%string).

(** src/daemon/control/DevicePreparationTransactionStore.cpp:74-82 *)
Definition state_transition_allowed (from to : string) : bool :=
  if (from =? to)%string then true
  else if (from =? "queued")%string then
    (to =? "running")%string || (to =? "cancelled")%string || (to =? "interrupted")%string
    || (to =? "failed")%string
  else if (from =? "running")%string then
    (to =? "succeeded")%string || (to =? "cancelled")%string || (to =? "interrupted")%string
    || (to =? "failed")%string
  else false.

(** The text of the exception the retrying update looks for. *)
Definition revision_conflict : string := "device preparation transaction revision conflict".

(** What [save] writes, given what the file holds.
    src/daemon/control/DevicePreparationTransactionStore.cpp:235-255 *)
Definition save_checked (current : option DevicePreparationTransaction)
    (t : DevicePreparationTransaction) : res DevicePreparationTransaction :=
  match current with
  | Some current =>
      _ ← require (tx_operation_id current =? tx_operation_id t)%string
            (ValidationError "transaction file name does not match its operation identifier");
      _ ← require (tx_revision current =? tx_revision t) (ValidationError revision_conflict);
      _ ← require (negb (terminal current))
            (ValidationError "terminal device preparation transaction is immutable");
      _ ← require (state_transition_allowed (tx_state current) (tx_state t))
            (ValidationError "invalid device preparation transaction state transition");
      _ ← require (negb (tx_cancel_requested current && negb (tx_cancel_requested t)))
            (ValidationError "device preparation cancellation request cannot be cleared");
      _ ← require (negb (tx_revision t =? 2 ^ 64 - 1))
            (ValidationError "device preparation transaction revision is exhausted");
      Ok (t <| tx_revision := tx_revision t + 1 |>)
  | None =>
      _ ← require (tx_revision t =? 0)
            (ValidationError "device preparation transaction is missing");
      Ok (t <| tx_revision := 1 |>)
  end.

(** What [update] writes, given what the file holds.
    src/daemon/control/DevicePreparationTransactionStore.cpp:277-293 *)
Definition update_checked (operation_id : string) (expected_revision : Z)
    (transition : DevicePreparationTransaction -> res DevicePreparationTransaction)
    (current : DevicePreparationTransaction) : res DevicePreparationTransaction :=
  _ ← require (tx_operation_id current =? operation_id)%string
        (ValidationError "transaction file name does not match its operation identifier");
  _ ← require (tx_revision current =? expected_revision) (ValidationError revision_conflict);
  _ ← require (negb (terminal current))
        (ValidationError "terminal device preparation transaction is immutable");
  changed ← transition current;
  _ ← require (negb (negb (tx_revision changed =? tx_revision current)
                     || negb (tx_operation_id changed =? tx_operation_id current)%string))
        (ValidationError "device preparation transition changed immutable identity");
  _ ← require (state_transition_allowed (tx_state current) (tx_state changed))
        (ValidationError "invalid device preparation transaction state transition");
  _ ← require (negb (tx_cancel_requested current && negb (tx_cancel_requested changed)))
        (ValidationError "device preparation cancellation request cannot be cleared");
  _ ← require (negb (tx_revision changed =? 2 ^ 64 - 1))
        (ValidationError "device preparation transaction revision is exhausted");
  Ok (changed <| tx_revision := tx_revision changed + 1 |>).

(** ** The directory *)

(** What happens to a system call. *)
Inductive Fault := Works | FailsBefore (e : exn) | FailsAfter (e : exn).

(** Who changes a file: an operation of the store, or another process meanwhile. *)
Inductive Actor := ByStore | ByOthers.

(** The files [<stem>.json] and the files [profile-reservations/<profile>.reservation], with
    the faults to come, the changes other processes will make to the former, and what the
    former were before each change, the last change first. *)
Record Disk := mkDisk {
  d_files : gmap string string;
  d_reservations : gmap string string;
  d_faults : list Fault;
  d_others : list (gmap string string -> gmap string string);
  d_past : list (Actor * gmap string string);
}.

Global Instance eta_Disk : Eta Disk := λ d,
  mkDisk (d_files d) (d_reservations d) (d_faults d) (d_others d) (d_past d).

(** The files become [m]. *)
Definition set_files (actor : Actor) (m : gmap string string) (d : Disk) : Disk :=
  d <| d_files := m |> <| d_past := (actor, d_files d) :: d_past d |>.

Definition D (A : Type) : Type := Disk -> res A * Disk.

Global Instance D_ret : MRet D := λ A a d, (Ok a, d).
Global Instance D_bind : MBind D := λ A B f m d,
  match m d with
  | (Ok a, d') => f a d'
  | (Throw e, d') => (Throw e, d')
  end.

Definition d_throw {A} (e : exn) : D A := λ d, (Throw e, d).
Definition d_lift {A} (r : res A) : D A := λ d, (r, d).
Definition d_catch {A} (m : D A) (h : exn -> D A) : D A := λ d,
  match m d with
  | (Throw e, d') => h e d'
  | ok => ok
  end.
Definition d_get : D Disk := λ d, (Ok d, d).

(** A system call with its effect; the next fault decides what becomes of it. *)
Definition io {A} (call : Disk -> A * Disk) : D A := λ d,
  let d' := d <| d_faults := tail (d_faults d) |> in
  match d_faults d with
  | [] | Works :: _ => let '(a, d'') := call d' in (Ok a, d'')
  | FailsBefore e :: _ => (Throw e, d')
  | FailsAfter e :: _ => (Throw e, (call d').2)
  end.

(** Other processes run. *)
Definition interfere : D unit := λ d,
  match d_others d with
  | [] => (Ok tt, d)
  | f :: others => (Ok tt, (set_files ByOthers (f (d_files d)) d) <| d_others := others |>)
  end.

(** A call that changes nothing the model sees: creating or checking a directory, taking a
    lock, synchronising. *)
Definition io_unit : D unit := io (λ d, (tt, d)).

(** src/daemon/control/DevicePreparationTransactionStore.cpp:91-109 *)
Definition prepare_root : D unit := io_unit.

(** src/daemon/control/DevicePreparationTransactionStore.cpp:36-65 *)
Definition take_transaction_lock : D unit := io_unit.

(** src/daemon/control/DevicePreparationTransactionStore.cpp:111-118 *)
Definition path_entry_exists (operation_id : string) : D bool :=
  io (λ d, (bool_decide (is_Some (d_files d !! operation_id)), d)).

Section store.
Context `{JsonText}.

Definition maximum_transaction_size : Z := 1024 * 1024.

(** src/daemon/control/DevicePreparationTransactionStore.cpp:209-214 *)
Definition read_transaction (operation_id : string) : D DevicePreparationTransaction :=
  content ← io (λ d, (d_files d !! operation_id, d));
  match content with
  | None => d_throw (ValidationError "cannot read document")
  | Some text =>
      if maximum_transaction_size <? Z.of_nat (String.length text)
      then d_throw (ValidationError "document exceeds the size limit")
      else d_lift (deserialize text)
  end.

(** [atomic_write(path, DevicePreparationTransactionCodec{}.serialize(changed), ...)] *)
Definition write_transaction (operation_id : string) (t : DevicePreparationTransaction) : D unit :=
  text ← d_lift (serialize t);
  io (λ d, (tt, set_files ByStore (<[operation_id := text]> (d_files d)) d)).

(** The transaction that is passed by reference is returned as it is left.
    src/daemon/control/DevicePreparationTransactionStore.cpp:227-262 *)
Definition save (t : DevicePreparationTransaction) : D DevicePreparationTransaction :=
  let operation_id := tx_operation_id t in
  _ ← d_lift (require (negb (str_empty operation_id))
        (ValidationError "device preparation transaction has no operation identifier"));
  _ ← d_lift (validate_operation_id operation_id);
  _ ← prepare_root;
  _ ← prepare_root;
  _ ← take_transaction_lock;
  exists_ ← path_entry_exists operation_id;
  current ← (if exists_ : bool
             then current ← read_transaction operation_id; mret (Some current)
             else mret None);
  changed ← d_lift (save_checked current t);
  _ ← write_transaction operation_id changed;
  mret changed.

(** An empty [std::function] is not modelled: every caller passes a lambda.
    src/daemon/control/DevicePreparationTransactionStore.cpp:264-300 *)
Definition update_at (operation_id : string) (expected_revision : Z)
    (transition : DevicePreparationTransaction -> res DevicePreparationTransaction)
    : D DevicePreparationTransaction :=
  _ ← d_lift (validate_operation_id operation_id);
  _ ← prepare_root;
  _ ← prepare_root;
  _ ← take_transaction_lock;
  current ← read_transaction operation_id;
  changed ← d_lift (update_checked operation_id expected_revision transition current);
  _ ← write_transaction operation_id changed;
  mret changed.

(** src/daemon/control/DevicePreparationTransactionStore.cpp:318-328 *)
Definition load (operation_id : string) : D DevicePreparationTransaction :=
  _ ← d_lift (validate_operation_id operation_id);
  _ ← prepare_root;
  t ← read_transaction operation_id;
  _ ← d_lift (require (tx_operation_id t =? operation_id)%string
        (ValidationError "transaction file name does not match its operation identifier"));
  mret t.

(** [error] is the exception of a revision conflict. *)
Definition is_revision_conflict (error : exn) : bool :=
  is_validation_error error && (exn_what error =? revision_conflict)%string.

(** The loop of the retrying update, with the attempts left.
    src/daemon/control/DevicePreparationTransactionStore.cpp:306-315 *)
Fixpoint update_attempts (attempts : nat) (operation_id : string)
    (transition : DevicePreparationTransaction -> res DevicePreparationTransaction)
    : D DevicePreparationTransaction :=
  match attempts with
  | O => d_throw (ValidationError "device preparation transaction remained busy")
  | S attempts =>
      current ← load operation_id;
      _ ← interfere;
      d_catch (update_at operation_id (tx_revision current) transition) (λ error,
        if is_revision_conflict error then update_attempts attempts operation_id transition
        else d_throw error)
  end.

(** src/daemon/control/DevicePreparationTransactionStore.cpp:302-316 *)
Definition update (operation_id : string)
    (transition : DevicePreparationTransaction -> res DevicePreparationTransaction)
    : D DevicePreparationTransaction :=
  update_attempts 16 operation_id transition.

(** *** Pruning *)

(** src/daemon/control/DevicePreparationTransactionStore.hpp:22-25 *)
Record DevicePreparationTransactionScan := mkScan {
  scan_transactions : list DevicePreparationTransaction;
  scan_corrupted_operation_ids : list string;
}.

(** One entry of the directory.
    src/daemon/control/DevicePreparationTransactionStore.cpp:335-349 *)
Definition scan_entry (stem : string) (scan : DevicePreparationTransactionScan)
    : D DevicePreparationTransactionScan :=
  d_catch
    (t ← read_transaction stem;
     _ ← d_lift (require (stem =? tx_operation_id t)%string
           (ValidationError "transaction file name does not match its operation identifier"));
     mret (mkScan (scan_transactions scan ++ [t]) (scan_corrupted_operation_ids scan)))
    (λ error,
     if is_std_exception error then
       match validate_operation_id stem with
       | Ok _ => mret (mkScan (scan_transactions scan) (scan_corrupted_operation_ids scan ++ [stem]))
       | Throw _ => mret scan
       end
     else d_throw error).

Fixpoint scan_entries (stems : list string) (scan : DevicePreparationTransactionScan)
    : D DevicePreparationTransactionScan :=
  match stems with
  | [] => mret scan
  | stem :: stems => scan ← scan_entry stem scan; scan_entries stems scan
  end.

(** [std::ranges::sort(completed, std::greater{}, &DevicePreparationTransaction::updated_at)] *)
Definition newest_first : list DevicePreparationTransaction -> list DevicePreparationTransaction :=
  std_sort (λ a b, tx_updated_at b <? tx_updated_at a).

(** The identifiers of the transactions that are removed: those past their time and those
    beyond the limit.  src/daemon/control/DevicePreparationTransactionStore.cpp:352-361 *)
Definition expired (now ttl : Z) (limit : nat) (transactions : list DevicePreparationTransaction)
    : list string :=
  let cutoff := now - ttl in
  let completed := newest_first (filter (λ t, terminal t = true) transactions) in
  map (λ c, tx_operation_id c.2)
    (filter (λ c, (tx_updated_at c.2 <? cutoff) || (limit <=? c.1)%nat = true)
       (zip (seq 0 (length completed)) completed)).

Fixpoint remove_all (operation_ids : list string) : D unit :=
  match operation_ids with
  | [] => mret tt
  | id :: ids =>
      _ ← d_catch (io (λ d, (tt, set_files ByStore (delete id (d_files d)) d)))
            (λ _, d_throw (ValidationError "cannot prune device preparation transaction"));
      remove_all ids
  end.

(** The entries are visited in the order the directory gives, here that of the map; the
    time is an argument.  No lock is taken: others may run between reading and removing.
    src/daemon/control/DevicePreparationTransactionStore.cpp:330-373 *)
Definition load_and_prune (now ttl : Z) (limit : nat) : D DevicePreparationTransactionScan :=
  _ ← prepare_root;
  d ← d_get;
  scan ← scan_entries (map fst (map_to_list (d_files d))) (mkScan [] []);
  _ ← interfere;
  let removed := expired now ttl limit (scan_transactions scan) in
  _ ← remove_all removed;
  _ ← (if bool_decide (removed = []) then mret tt else io_unit);
  mret (mkScan (filter (λ t, tx_operation_id t ∉ removed) (scan_transactions scan))
          (scan_corrupted_operation_ids scan)).
End store.

(** *** Reservations *)

(** src/daemon/control/DevicePreparationTransactionStore.cpp:174-207 *)
Definition read_reservation (profile_id : string) : D (option string) :=
  content ← io (λ d, (d_reservations d !! profile_id, d));
  match content with
  | None => mret None
  | Some owner =>
      _ ← d_lift (require (negb (str_empty owner) && (String.length owner <=? 64)%nat)
            (ValidationError "invalid profile reservation"));
      _ ← d_lift (validate_operation_id owner);
      mret (Some owner)
  end.

(** The file is created, written and synchronised; a failure on the way removes it.
    src/daemon/control/DevicePreparationTransactionStore.cpp:375-414 *)
Definition reserve_profile (profile_id operation_id : string) : D unit :=
  let set content := io (λ d, (tt, d <| d_reservations := <[profile_id := content]> (d_reservations d) |>)) in
  _ ← d_lift (validate_profile_id profile_id);
  _ ← d_lift (validate_operation_id operation_id);
  _ ← prepare_root;
  _ ← prepare_root;
  d ← d_get;
  match d_reservations d !! profile_id with
  | Some _ =>
      _ ← io_unit;
      owner ← read_reservation profile_id;
      if bool_decide (owner = Some operation_id) then mret tt
      else d_throw (ValidationError ("profile is already reserved: " +:+ profile_id))
  | None =>
      _ ← set "";
      d_catch (_ ← set operation_id; _ ← io_unit; io_unit) (λ error,
        _ ← d_catch
              (io (λ d, (tt, d <| d_reservations := delete profile_id (d_reservations d) |>)))
              (λ _, mret tt);
        d_throw error)
  end.

(** src/daemon/control/DevicePreparationTransactionStore.cpp:416-437 *)
Definition release_profile (profile_id operation_id : string) : D unit :=
  _ ← d_lift (validate_profile_id profile_id);
  _ ← d_lift (validate_operation_id operation_id);
  _ ← prepare_root;
  _ ← prepare_root;
  owner ← read_reservation profile_id;
  match owner with
  | None => mret tt
  | Some owner =>
      _ ← d_lift (require (owner =? operation_id)%string
            (ValidationError ("profile reservation is owned by another operation: " +:+ profile_id)));
      _ ← io (λ d, (tt, d <| d_reservations := delete profile_id (d_reservations d) |>));
      io_unit
  end.

(** src/daemon/control/DevicePreparationTransactionStore.cpp:439-447 *)
Definition profile_reservation_owner (profile_id : string) : D (option string) :=
  _ ← d_lift (validate_profile_id profile_id);
  _ ← prepare_root;
  _ ← prepare_root;
  read_reservation profile_id.

(** ** What an operation may do to a file

    [file_change]: a text is replaced by that of the next revision of the transaction.
    [file_step]: what a change of the store does to a file.
    [file_move]: what one process may do to a file between two looks at it; a file that is
    removed held a transaction that had ended, and is not made again. *)

(** The transaction has ended: its state is a last one, and its profile is no longer reserved. *)
Definition ended (t : DevicePreparationTransaction) : Prop :=
  tx_state t ∈ ["succeeded"; "failed"; "cancelled"; "interrupted"] /\
  tx_profile_reservation_state t ∉ ["held"; "releasing"].

(** The graph of states: an edge leads from a state to itself, from the queue to the run, and
    from both to the ends; only a run succeeds. *)
Definition state_edge (x y : string) : Prop :=
  x = y \/
  x = "queued" /\ y ∈ ["running"; "cancelled"; "interrupted"; "failed"] \/
  x = "running" /\ y ∈ ["succeeded"; "cancelled"; "interrupted"; "failed"].

Lemma terminal_ended t : terminal t = true <-> ended t.
Proof.
  unfold terminal, ended. rewrite !andb_true_iff, !orb_true_iff, !negb_true_iff, !String.eqb_eq,
    !String.eqb_neq, !elem_of_cons, !elem_of_nil. tauto.
Qed.

Lemma not_terminal_ended t : terminal t = false <-> ~ ended t.
Proof. rewrite <- terminal_ended. by destruct (terminal t). Qed.

Lemma transition_edge x y : state_transition_allowed x y = true <-> state_edge x y.
Proof.
  unfold state_transition_allowed, state_edge. rewrite !elem_of_cons, !elem_of_nil.
  destruct (String.eqb_spec x y) as [->|Hn]; [tauto|].
  destruct (String.eqb_spec x "queued") as [->|Hq]; [|destruct (String.eqb_spec x "running") as [->|Hr]].
  - rewrite !orb_true_iff, !String.eqb_eq. intuition congruence.
  - rewrite !orb_true_iff, !String.eqb_eq. intuition congruence.
  - intuition congruence.
Qed.

Section moves.
Context `{JsonText}.

Definition next_revision (t t' : DevicePreparationTransaction) : Prop :=
  ~ ended t /\ tx_operation_id t' = tx_operation_id t /\
  tx_revision t' = tx_revision t + 1 /\
  state_edge (tx_state t) (tx_state t') /\
  (tx_cancel_requested t = true -> tx_cancel_requested t' = true).

Definition file_change (a b : string) : Prop :=
  exists t t', deserialize a = Ok t /\ in_range t' /\ serialize t' = Ok b /\ next_revision t t'.

Definition file_created (a : string) : Prop :=
  exists t, in_range t /\ tx_revision t = 1 /\ serialize t = Ok a.

(** What others may do to a file between two looks at it. *)
Inductive file_move : option string -> option string -> Prop :=
| move_stay c : file_move c c
| move_change a b : rtc file_change a b -> file_move (Some a) (Some b)
| move_create a b : file_created a -> rtc file_change a b -> file_move None (Some b)
| move_prune a b t : rtc file_change a b -> deserialize b = Ok t -> ended t ->
    file_move (Some a) None.

(** What one change of the store does to a file: nothing; the next revision of what it holds;
    the first revision where there is none; or the removal of a transaction that has ended. *)
Inductive file_step : option string -> option string -> Prop :=
| step_stay c : file_step c c
| step_change a b : file_change a b -> file_step (Some a) (Some b)
| step_create b : file_created b -> file_step None (Some b)
| step_prune a t : deserialize a = Ok t -> ended t -> file_step (Some a) None.

Definition actor_step (actor : Actor) : option string -> option string -> Prop :=
  match actor with ByStore => file_step | ByOthers => file_move end.

(** Every change of the history is one its actor may make, to every file. *)
Fixpoint lawful (now : gmap string string) (past : list (Actor * gmap string string)) : Prop :=
  match past with
  | [] => True
  | (actor, before) :: past =>
      (forall id, actor_step actor (before !! id) (now !! id)) /\ lawful before past
  end.

(** What the disk held at first. *)
Definition origin (d : Disk) : gmap string string :=
  match last (d_past d) with Some (_, m) => m | None => d_files d end.

(** The other processes keep to the protocol, whatever the directory holds. *)
Definition others_ok (others : list (gmap string string -> gmap string string)) : Prop :=
  Forall (λ f, forall m id, file_move (m !! id) (f m !! id)) others.

(** The history of the disk from [m0] on is lawful, and the others keep to the protocol. *)
Definition kept_law (m0 : gmap string string) (d : Disk) : Prop :=
  others_ok (d_others d) /\ lawful (d_files d) (d_past d) /\ origin d = m0.

(** [m] keeps the history lawful. *)
Definition respects {A} (m : D A) : Prop :=
  forall m0 d, kept_law m0 d -> kept_law m0 (m d).2.

(** [m] changes no transaction. *)
Definition keeps {A} (m : D A) : Prop :=
  forall d, d_files (m d).2 = d_files d /\ d_others (m d).2 = d_others d /\ d_past (m d).2 = d_past d.

Lemma law_same m0 d d' :
  d_files d' = d_files d -> d_others d' = d_others d -> d_past d' = d_past d ->
  kept_law m0 d -> kept_law m0 d'.
Proof. intros E1 E2 E3 (H1 & H2 & H3). unfold kept_law, origin in *. by rewrite E1, E2, E3. Qed.

Lemma keeps_respects {A} (m : D A) : keeps m -> respects m.
Proof. intros Hk m0 d. destruct (Hk d) as (E1 & E2 & E3). by apply law_same. Qed.

(** One more change. *)
Lemma law_step m0 actor d d' :
  d_others d' = d_others d \/ others_ok (d_others d') -> d_past d' = (actor, d_files d) :: d_past d ->
  (forall id, actor_step actor (d_files d !! id) (d_files d' !! id)) ->
  kept_law m0 d -> kept_law m0 d'.
Proof.
  intros Ho Hp Hs (H1 & H2 & H3). unfold kept_law, origin in *. rewrite Hp. split_and!.
  - destruct Ho as [->|]; done.
  - by split.
  - destruct (d_past d) as [|x past]; [done|]. rewrite last_cons_cons.
    destruct (last_is_Some (x :: past)) as [_ [y Hy]]; [done|]. by rewrite Hy in *.
Qed.

Lemma keeps_ret {A} (a : A) : keeps (mret a : D A).
Proof. by intros d. Qed.
Lemma keeps_throw {A} e : keeps (d_throw e : D A).
Proof. by intros d. Qed.
Lemma keeps_lift {A} (r : res A) : keeps (d_lift r).
Proof. by intros d. Qed.
Lemma keeps_get : keeps d_get.
Proof. by intros d. Qed.

Lemma keeps_io {A} (f : Disk -> A * Disk) : keeps (λ d, (Ok (f d).1, (f d).2)) -> keeps (io f).
Proof.
  intros Hf d. unfold io. set (d' := d <| d_faults := tail (d_faults d) |>).
  destruct (Hf d') as (H1 & H2 & H3). cbn in H1, H2, H3.
  destruct (d_faults d) as [|[| |] ?]; try done; by destruct (f d') as [a d''].
Qed.

Lemma keeps_bind {A B} (m : D A) (f : A -> D B) :
  keeps m -> (forall a, keeps (f a)) -> keeps (m ≫= f).
Proof.
  intros Hm Hf d. unfold mbind, D_bind. destruct (Hm d) as (H1 & H2 & H3).
  destruct (m d) as [[a|e] d']; cbn in *; [|done]. destruct (Hf a d') as (-> & -> & ->). done.
Qed.

Lemma keeps_catch {A} (m : D A) h : keeps m -> (forall e, keeps (h e)) -> keeps (d_catch m h).
Proof.
  intros Hm Hh d. unfold d_catch. destruct (Hm d) as (H1 & H2 & H3).
  destruct (m d) as [[a|e] d']; cbn in *; [done|]. destruct (Hh e d') as (-> & -> & ->). done.
Qed.

Lemma keeps_io_unit : keeps io_unit.
Proof. apply keeps_io. by intros d. Qed.

Lemma respects_bind {A B} (m : D A) (f : A -> D B) :
  respects m -> (forall a, respects (f a)) -> respects (m ≫= f).
Proof.
  intros Hm Hf m0 d Hd. unfold mbind, D_bind. specialize (Hm m0 d Hd).
  destruct (m d) as [[a|e] d']; cbn in *; [|done]. by apply Hf.
Qed.

Lemma respects_catch {A} (m : D A) h :
  respects m -> (forall e, respects (h e)) -> respects (d_catch m h).
Proof.
  intros Hm Hh m0 d Hd. unfold d_catch. specialize (Hm m0 d Hd).
  destruct (m d) as [[a|e] d']; cbn in *; [done|]. by apply Hh.
Qed.

Lemma respects_interfere : respects interfere.
Proof.
  intros m0 d Hd. unfold interfere. destruct (d_others d) as [|f others] eqn:E; cbn; [done|].
  pose proof Hd as (Ho & _). rewrite E in Ho. apply Forall_cons in Ho as [Hf Ho].
  eapply law_step; [by right|done|intros id; apply Hf|done].
Qed.
End moves.

Create HintDb prep.
#[export] Hint Resolve keeps_ret keeps_throw keeps_lift keeps_get keeps_io_unit keeps_bind
  keeps_catch : prep.

(** Discharges [keeps] of a program that only reads. *)
Ltac keeps_step :=
  lazymatch goal with
  | |- keeps (_ ≫= _) => apply keeps_bind; [|intros ?]
  | |- keeps (d_catch _ _) => apply keeps_catch; [|intros ?]
  | |- keeps (io _) => apply keeps_io; intros []; split_and!; reflexivity
  | |- keeps (match ?x with _ => _ end) => destruct x
  | |- keeps (mret _) => apply keeps_ret
  | |- keeps (d_throw _) => apply keeps_throw
  | |- keeps (d_lift _) => apply keeps_lift
  | |- keeps d_get => apply keeps_get
  | |- keeps prepare_root => apply keeps_io_unit
  | |- keeps take_transaction_lock => apply keeps_io_unit
  | |- keeps io_unit => apply keeps_io_unit
  end.

Section effects.
Context `{JsonText}.

Lemma keeps_read_transaction id : keeps (read_transaction id).
Proof. unfold read_transaction. repeat keeps_step. Qed.

Lemma keeps_load id : keeps (load id).
Proof. unfold load. repeat (keeps_step || apply keeps_read_transaction). Qed.

Lemma keeps_exists id : keeps (path_entry_exists id).
Proof. unfold path_entry_exists. repeat keeps_step. Qed.

Lemma keeps_scan_entries stems scan : keeps (scan_entries stems scan).
Proof.
  revert scan. induction stems as [|stem stems IH]; intros scan; cbn; [apply keeps_ret|].
  apply keeps_bind; [|done]. unfold scan_entry. repeat (keeps_step || apply keeps_read_transaction).
Qed.

Lemma io_Ok {A} (f : Disk -> A * Disk) d a d' :
  io f d = (Ok a, d') -> f (d <| d_faults := tail (d_faults d) |>) = (a, d').
Proof.
  unfold io. intros Hi. destruct (d_faults d) as [|[| |] ?]; try done;
    destruct (f _) as [x y]; by injection Hi as -> ->.
Qed.

Lemma bind_Ok {A B} (m : D A) (f : A -> D B) d b d' :
  (m ≫= f) d = (Ok b, d') -> exists a d1, m d = (Ok a, d1) /\ f a d1 = (Ok b, d').
Proof. unfold mbind, D_bind. destruct (m d) as [[a|e] d1]; [|done]. intros. by exists a, d1. Qed.

Lemma lift_Ok {A} (r : res A) d a d' : d_lift r d = (Ok a, d') -> r = Ok a /\ d' = d.
Proof. unfold d_lift. by intros [= -> ->]. Qed.

Lemma read_transaction_Ok id d t d' :
  read_transaction id d = (Ok t, d') ->
  exists text, d_files d !! id = Some text /\ deserialize text = Ok t.
Proof.
  unfold read_transaction. intros (c & d1 & Hc & Hr)%bind_Ok.
  apply io_Ok in Hc. injection Hc as <- <-. cbn in Hr.
  destruct (d_files d !! id) as [text|]; [|done]. case_match; [done|].
  apply lift_Ok in Hr as [Hr _]. by exists text.
Qed.

(** The effect of a section that runs under the lock of the transaction. *)
Definition locked_effect (id : string) (d d' : Disk) : Prop :=
  d_others d' = d_others d /\
  (d_files d' = d_files d /\ d_past d' = d_past d \/
   exists b, d_files d' = <[id := b]> (d_files d) /\ d_past d' = (ByStore, d_files d) :: d_past d /\
     match d_files d !! id with Some a => file_change a b | None => file_created b end).

(** A program that keeps the files and then acts as [f]. *)
Lemma locked_bind {A B} (id : string) (m : D A) (f : A -> D B) d :
  keeps m -> (forall a d1, m d = (Ok a, d1) -> locked_effect id d1 (f a d1).2) ->
  locked_effect id d ((m ≫= f) d).2.
Proof.
  intros Hm Hf. unfold mbind, D_bind. destruct (Hm d) as (H1 & H2 & H3).
  destruct (m d) as [[a|e] d1] eqn:E; cbn in *.
  - destruct (Hf a d1 eq_refl) as [Ho He]. unfold locked_effect. by rewrite <- H1, <- H2, <- H3.
  - split; [done|]. by left.
Qed.

Lemma locked_keeps {A} id (m : D A) d : keeps m -> locked_effect id d (m d).2.
Proof. intros Hm. destruct (Hm d) as (H1 & H2 & H3). split; [done|]. by left. Qed.

Lemma write_effect {A} id t (a : A) d :
  (forall b, serialize t = Ok b ->
     match d_files d !! id with Some x => file_change x b | None => file_created b end) ->
  locked_effect id d ((_ ← write_transaction id t; mret a) d).2.
Proof.
  intros Hs. unfold write_transaction. destruct (serialize t) as [b|e] eqn:E; cbn; [|split; [done|by left]].
  specialize (Hs b eq_refl).
  unfold mbind, D_bind. cbn. unfold io. cbn.
  destruct (d_faults d) as [|[| |] ?]; cbn; (split; [done|]); try (by left); right; by exists b.
Qed.

Lemma in_range_next t : in_range t -> tx_revision t <> 2 ^ 64 - 1 ->
  in_range (t <| tx_revision := tx_revision t + 1 |>).
Proof.
  intros (Hr & Hrest) Hn. unfold in_range in *. cbn in *. split; [|done]. unfold u64 in *. lia.
Qed.

Lemma update_checked_next id rev f t t' :
  (forall x y, in_range x -> f x = Ok y -> in_range y) -> in_range t ->
  update_checked id rev f t = Ok t' -> in_range t' /\ next_revision t t'.
Proof.
  intros Hf Hr Hu. unfold update_checked in Hu. res_inv. breflect.
  match goal with Hx : f t = Ok _ |- _ => apply Hf in Hx; [|done] end.
  split; [by apply in_range_next|]. unfold next_revision, tx_state, tx_operation_id in *. cbn.
  split_and!; first [by apply not_terminal_ended|by apply transition_edge|congruence|idtac].
  intros Hc. rewrite Hc in *. cbn in *. by breflect.
Qed.

Lemma save_checked_next t c t' :
  in_range t -> save_checked (Some c) t = Ok t' -> in_range t' /\ next_revision c t'.
Proof.
  intros Hr Hu. unfold save_checked in Hu. res_inv. breflect.
  split; [by apply in_range_next|]. unfold next_revision, tx_state, tx_operation_id in *. cbn.
  split_and!; first [by apply not_terminal_ended|by apply transition_edge|congruence|idtac].
  intros Hc. rewrite Hc in *. cbn in *. by breflect.
Qed.

Lemma save_checked_new t t' :
  in_range t -> save_checked None t = Ok t' -> in_range t' /\ tx_revision t' = 1.
Proof.
  intros (Hr & Hrest) Hu. unfold save_checked in Hu. res_inv. split; [|done].
  split; [|done]. unfold u64. cbn. lia.
Qed.

(** Transitions of typed members stay in their range. *)
Definition typed (f : DevicePreparationTransaction -> res DevicePreparationTransaction) : Prop :=
  forall t t', in_range t -> f t = Ok t' -> in_range t'.

Lemma update_at_effect id rev f d :
  typed f -> locked_effect id d (update_at id rev f d).2.
Proof.
  intros Hf. unfold update_at.
  do 4 (apply locked_bind; [repeat keeps_step|intros ? dd _; clear d; rename dd into d]).
  apply locked_bind; [apply keeps_read_transaction|]. intros t d1 Hd1.
  destruct (keeps_read_transaction id d) as [Hk _]. rewrite Hd1 in Hk. cbn in Hk.
  apply read_transaction_Ok in Hd1 as (text & Htext & Ht).
  apply locked_bind; [repeat keeps_step|]. intros t' d2 [Hu ->]%lift_Ok.
  apply write_effect. intros b Hb. rewrite Hk, Htext.
  destruct (deserialize_kept _ _ Ht) as (_ & Hr & _).
  apply update_checked_next in Hu as [Hr' Hn]; [|done|done]. by exists t, t'.
Qed.

Lemma save_effect t d : in_range t -> locked_effect (tx_operation_id t) d (save t d).2.
Proof.
  intros Hr. unfold save. set (id := tx_operation_id t).
  do 5 (apply locked_bind; [repeat keeps_step|intros ? dd _; clear d; rename dd into d]).
  apply locked_bind; [apply keeps_exists|]. intros b d1 Hb.
  destruct (keeps_exists id d) as [Hk _]. rewrite Hb in Hk. cbn in Hk.
  unfold path_entry_exists in Hb. apply io_Ok in Hb. injection Hb as Hb _. cbn in Hb. rewrite <- Hk in Hb.
  destruct b; [apply bool_decide_eq_true in Hb|apply bool_decide_eq_false in Hb].
  - apply locked_bind; [repeat (keeps_step || apply keeps_read_transaction)|]. intros c d2 Hc.
    apply bind_Ok in Hc as (current & d3 & Hc & Hd2). injection Hd2 as <- <-.
    destruct (keeps_read_transaction id d1) as [Hk1 _]. rewrite Hc in Hk1. cbn in Hk1.
    apply read_transaction_Ok in Hc as (text & Htext & Hcur).
    apply locked_bind; [repeat keeps_step|]. intros t' d4 [Hs ->]%lift_Ok.
    apply write_effect. intros b Hser. rewrite Hk1, Htext.
    apply save_checked_next in Hs as [? ?]; [|done]. by exists current, t'.
  - apply locked_bind; [repeat keeps_step|]. intros c d2 [= <- <-].
    apply locked_bind; [repeat keeps_step|]. intros t' d4 [Hs ->]%lift_Ok.
    apply write_effect. intros b Hser. apply eq_None_not_Some in Hb. rewrite Hb.
    apply save_checked_new in Hs as [? ?]; [|done]. by exists t'.
Qed.

Lemma locked_respects {A} id (m : D A) : (forall d, locked_effect id d (m d).2) -> respects m.
Proof.
  intros Hm m0 d Hd. destruct (Hm d) as [E [[E1 E2]|(b & Hb & Hp & Hs)]]; [by eapply law_same|].
  eapply law_step; [by left|exact Hp| |done]. intros id'. rewrite Hb.
  destruct (decide (id' = id)) as [->|Hn]; [|rewrite lookup_insert_ne by done; constructor].
  rewrite lookup_insert_eq. destruct (d_files d !! id) as [a|]; by constructor.
Qed.

Lemma respects_update_at id rev f : typed f -> respects (update_at id rev f).
Proof. intros Hf. eapply locked_respects. intros d. by apply update_at_effect. Qed.

Lemma respects_save t : in_range t -> respects (save t).
Proof. intros Hr. eapply locked_respects. intros d. by apply save_effect. Qed.

Lemma respects_update id f : typed f -> respects (update id f).
Proof.
  intros Hf. unfold update. generalize 16%nat as n. induction n as [|n IH]; cbn.
  - apply keeps_respects, keeps_throw.
  - apply respects_bind; [apply keeps_respects, keeps_load|]. intros t.
    apply respects_bind; [apply respects_interfere|]. intros _.
    apply respects_catch; [by apply respects_update_at|]. intros e.
    case_match; [done|apply keeps_respects, keeps_throw].
Qed.

(** *** Pruning *)

(** A terminal transaction does not change. *)
Lemma terminal_rtc a b t :
  deserialize a = Ok t -> ended t -> rtc file_change a b -> b = a.
Proof.
  intros Ha Ht Hr. destruct Hr as [|a b c (u & u' & Hu & _ & _ & Hn) _]; [done|].
  rewrite Ha in Hu. injection Hu as <-. by destruct Hn as (Hf & _).
Qed.

Lemma terminal_move a t c :
  deserialize a = Ok t -> ended t -> file_move (Some a) c -> c = Some a \/ c = None.
Proof.
  intros Ha Ht Hm. inversion Hm as [|? b Hr| |]; subst; [by left| |by right].
  left. f_equal. by eapply terminal_rtc.
Qed.

(** Every transaction of a scan is in the directory under its identifier. *)
Lemma scan_entries_found stems scan d scan' d' (files : gmap string string) :
  d_files d = files ->
  Forall (λ t, exists text, files !! tx_operation_id t = Some text /\ deserialize text = Ok t)
    (scan_transactions scan) ->
  scan_entries stems scan d = (Ok scan', d') ->
  Forall (λ t, exists text, files !! tx_operation_id t = Some text /\ deserialize text = Ok t)
    (scan_transactions scan').
Proof.
  revert scan d. induction stems as [|stem stems IH]; intros scan d Hd Hs; cbn; [by intros [= <- _]|].
  intros (s1 & d1 & H1 & H2)%bind_Ok. apply (IH s1 d1); [| |exact H2]; clear IH H2.
  - rewrite <- Hd. assert (K : keeps (scan_entry stem scan)).
    { unfold scan_entry. repeat (keeps_step || apply keeps_read_transaction). }
    destruct (K d) as [Hk _]. by rewrite H1 in Hk.
  - unfold scan_entry, d_catch in H1. case_match eqn:E. destruct r as [x|e]; simplify_eq.
    + apply bind_Ok in E as (t & d2 & Hr & E). apply bind_Ok in E as (? & d3 & Hreq & E).
      apply lift_Ok in Hreq as [Hq _]. apply require_Ok in Hq. apply String.eqb_eq in Hq. subst stem.
      injection E as <- _. cbn. apply Forall_app. split; [done|]. constructor; [|constructor].
      by apply read_transaction_Ok in Hr.
    + case_match; [|done]. case_match; injection H1 as <- _; done.
Qed.

Lemma remove_all_effect ids d :
  d_others (remove_all ids d).2 = d_others d /\
  forall id, d_files (remove_all ids d).2 !! id = d_files d !! id \/
    (id ∈ ids /\ d_files (remove_all ids d).2 !! id = None).
Proof.
  revert d. induction ids as [|x ids IH]; intros d; cbn; [split; [done|]; intros; by left|].
  unfold mbind, D_bind, d_catch, io. cbn.
  assert (G : forall e, d_others (mkDisk (delete x (d_files d)) (d_reservations d) e (d_others d)
      ((ByStore, d_files d) :: d_past d)) = d_others d /\ forall id, delete x (d_files d) !! id = d_files d !! id \/
      (id ∈ x :: ids /\ delete x (d_files d) !! id = None)).
  { intros e. split; [done|]. intros id. destruct (decide (id = x)) as [->|Hn].
    - right. split; [constructor|apply lookup_delete_eq].
    - left. by apply lookup_delete_ne. }
  destruct (d_faults d) as [|[|e|e] l]; cbn.
  1-2: match goal with |- context [remove_all _ ?d1] => destruct (IH d1) as [Ho Hd] end;
    split; [done|]; intros id; destruct (G []) as [_ Hx]; specialize (Hx id);
    destruct (Hd id) as [->|[? ->]]; [done|right; split; [by constructor|done]].
  - split; [done|]. intros; by left.
  - apply (G l).
Qed.

Lemma expired_terminal now ttl limit ts id :
  id ∈ expired now ttl limit ts -> exists t, t ∈ ts /\ tx_operation_id t = id /\ ended t.
Proof.
  unfold expired. intros ([i t] & -> & Hin)%list_elem_of_fmap. cbn.
  apply list_elem_of_filter in Hin as [_ Hin]. apply elem_of_zip_r in Hin.
  unfold newest_first in Hin. rewrite elem_of_std_sort in Hin.
  apply list_elem_of_filter in Hin as [Ht Hin]. exists t. by rewrite <- terminal_ended.
Qed.

Lemma bind_state {A B} (P : Disk -> Prop) (m : D A) (f : A -> D B) d :
  (forall a d1, m d = (Ok a, d1) -> P (f a d1).2) -> P (m d).2 -> P ((m ≫= f) d).2.
Proof. intros Hf Hm. unfold mbind, D_bind. destruct (m d) as [[a|e] d1]; [by apply Hf|done]. Qed.

(** The file may be removed: it is gone, or holds a transaction that has ended. *)
Definition removable (d : Disk) (id : string) : Prop :=
  match d_files d !! id with
  | Some text => exists t, deserialize text = Ok t /\ ended t
  | None => True
  end.

Lemma remove_step m0 d d' x :
  d_files d' = delete x (d_files d) -> d_others d' = d_others d ->
  d_past d' = (ByStore, d_files d) :: d_past d -> removable d x ->
  kept_law m0 d -> kept_law m0 d'.
Proof.
  intros Hf Ho Hp Hx. apply (law_step _ ByStore); [by left|done|]. intros id. rewrite Hf.
  destruct (decide (id = x)) as [->|Hn]; [|rewrite lookup_delete_ne by done; constructor].
  rewrite lookup_delete_eq. unfold removable in Hx. destruct (d_files d !! x) as [a|]; [|constructor].
  destruct Hx as (t & Ht & Htt). by eapply step_prune.
Qed.

Lemma remove_all_law m0 ids d :
  kept_law m0 d -> Forall (removable d) ids -> kept_law m0 (remove_all ids d).2.
Proof.
  revert d. induction ids as [|x ids IH]; intros d Hd Hids; cbn; [done|].
  apply Forall_cons in Hids as [Hx Hids]. unfold mbind, D_bind, d_catch, io.
  assert (Hnext : forall d', d_files d' = delete x (d_files d) -> Forall (removable d') ids).
  { intros d' Hd'. eapply Forall_impl; [exact Hids|]. intros y Hy. unfold removable in *. rewrite Hd'.
    destruct (decide (y = x)) as [->|]; [by rewrite lookup_delete_eq|by rewrite lookup_delete_ne]. }
  destruct (d_faults d) as [|[|e|e] l]; cbn.
  1-2: apply IH; [by eapply remove_step|by apply Hnext].
  - by eapply law_same.
  - by eapply remove_step.
Qed.

(** What a scan has found terminal can be removed later without the lock. *)
Lemma removable_later d id text t :
  others_ok (d_others d) -> d_files d !! id = Some text -> deserialize text = Ok t ->
  ended t -> removable (interfere d).2 id.
Proof.
  intros Ho Hf Ht Htt. unfold removable, interfere, others_ok in *.
  destruct (d_others d) as [|f os]; cbn; [rewrite Hf; by exists t|].
  apply Forall_cons in Ho as [Hm _]. specialize (Hm (d_files d) id). rewrite Hf in Hm.
  destruct (terminal_move _ _ _ Ht Htt Hm) as [->| ->]; [by exists t|done].
Qed.

Lemma respects_load_and_prune now ttl limit : respects (load_and_prune now ttl limit).
Proof.
  unfold load_and_prune.
  apply respects_bind; [apply keeps_respects, keeps_io_unit|]. intros [] m0 d1 Hd1.
  apply bind_state; [|done]. intros ? ? [= <- <-].
  pose proof (keeps_scan_entries (map fst (map_to_list (d_files d1))) (mkScan [] [])) as K.
  apply bind_state; [|by apply keeps_respects]. intros scan d2 Es.
  assert (Hd2 : kept_law m0 d2).
  { apply (keeps_respects _ K) in Hd1. by rewrite Es in Hd1. }
  destruct (K d1) as (K1 & _). rewrite Es in K1. cbn in K1.
  apply (scan_entries_found _ (mkScan [] []) _ _ _ _ eq_refl (Forall_nil_2 _)) in Es.
  rewrite <- K1 in Es. clear d1 K K1 Hd1.
  apply bind_state; [|by apply respects_interfere]. intros [] d3 E3.
  assert (Hd3 : kept_law m0 d3 /\ Forall (removable d3) (expired now ttl limit (scan_transactions scan))).
  { replace d3 with (interfere d2).2 by (by rewrite E3). split; [by apply respects_interfere|].
    apply Forall_forall. intros id (t & Ht & <- & Htt)%expired_terminal.
    rewrite Forall_forall in Es. destruct (Es t Ht) as (text & ? & ?).
    eapply removable_later; [apply Hd2|done..]. }
  destruct Hd3 as [Hd3 Hids]. apply bind_state; [|by apply remove_all_law].
  intros [] d4 E4. apply (remove_all_law m0 _ _ Hd3) in Hids. rewrite E4 in Hids. cbn in Hids.
  apply (respects_bind (if bool_decide _ then mret tt else io_unit) (λ _, mret _)); [| |done].
  - case_bool_decide; apply keeps_respects; [apply keeps_ret|apply keeps_io_unit].
  - intros. apply keeps_respects, keeps_ret.
Qed.
End effects.

(** ** Sequences of operations *)

Section histories.
Context `{JsonText}.

Inductive StoreOp :=
| OpSave (t : DevicePreparationTransaction)
| OpUpdateAt (id : string) (revision : Z)
    (transition : DevicePreparationTransaction -> res DevicePreparationTransaction)
| OpUpdate (id : string)
    (transition : DevicePreparationTransaction -> res DevicePreparationTransaction)
| OpLoad (id : string)
| OpPrune (now ttl : Z) (limit : nat)
| OpReserve (profile_id operation_id : string)
| OpRelease (profile_id operation_id : string)
| OpOwner (profile_id : string).

Definition exec (op : StoreOp) : D unit :=
  match op with
  | OpSave t => _ ← save t; mret tt
  | OpUpdateAt id revision f => _ ← update_at id revision f; mret tt
  | OpUpdate id f => _ ← update id f; mret tt
  | OpLoad id => _ ← load id; mret tt
  | OpPrune now ttl limit => _ ← load_and_prune now ttl limit; mret tt
  | OpReserve profile_id operation_id => reserve_profile profile_id operation_id
  | OpRelease profile_id operation_id => release_profile profile_id operation_id
  | OpOwner profile_id => _ ← profile_reservation_owner profile_id; mret tt
  end.

(** What the types of the code guarantee of the arguments. *)
Definition op_typed (op : StoreOp) : Prop :=
  match op with
  | OpSave t => in_range t
  | OpUpdateAt _ _ f | OpUpdate _ f => typed f
  | _ => True
  end.

(** The operations one after another, whatever each of them answers. *)
Definition run_ops (ops : list StoreOp) (d : Disk) : Disk :=
  fold_left (λ d op, (exec op d).2) ops d.

Lemma keeps_read_reservation p : keeps (read_reservation p).
Proof. unfold read_reservation. repeat keeps_step. Qed.

Lemma respects_exec op : op_typed op -> respects (exec op).
Proof.
  intros Ht.
  assert (R : forall A (m : D A), respects m -> respects (_ ← m; mret tt)).
  { intros A m Hm. apply respects_bind; [done|]. intros. apply keeps_respects, keeps_ret. }
  destruct op; cbn in *; try apply R.
  - by apply respects_save.
  - by apply respects_update_at.
  - by apply respects_update.
  - apply keeps_respects, keeps_load.
  - apply respects_load_and_prune.
  - apply keeps_respects. unfold reserve_profile. cbv zeta.
    repeat (keeps_step || apply keeps_read_reservation).
  - apply keeps_respects. unfold release_profile.
    repeat (keeps_step || apply keeps_read_reservation).
  - apply keeps_respects. unfold profile_reservation_owner.
    repeat (keeps_step || apply keeps_read_reservation).
Qed.

Lemma run_ops_law m0 ops d :
  kept_law m0 d -> Forall op_typed ops -> kept_law m0 (run_ops ops d).
Proof.
  revert d. unfold run_ops. induction ops as [|op ops IH]; intros d Hd Ht; cbn; [done|].
  apply Forall_cons in Ht as [Hop Ht]. apply IH; [by apply respects_exec|done].
Qed.

Lemma read_back t b u :
  in_range t -> serialize t = Ok b -> deserialize b = Ok u -> u = kept t.
Proof.
  intros Hr Hs Hd. rewrite (deserialize_serialize t b Hr Hs) in Hd. repeat case_match; congruence.
Qed.

(** A later state of a transaction. *)
Definition later (t t' : DevicePreparationTransaction) : Prop :=
  ~ ended t /\ tx_operation_id t' = tx_operation_id t /\
  tx_revision t < tx_revision t' /\
  rtc state_edge (tx_state t) (tx_state t') /\
  (tx_cancel_requested t = true -> tx_cancel_requested t' = true).

Lemma changes_later a b t t' :
  deserialize a = Ok t -> rtc file_change a b -> deserialize b = Ok t' -> b = a \/ later t t'.
Proof.
  intros Ha Hr Hb. revert t Ha. induction Hr as [|a c b (u & u' & Hu & Hru & Hs & Hn) Hr IH]; intros t Ha;
    [by left|]. right. rewrite Ha in Hu. injection Hu as <-.
  assert (Hc : exists w, deserialize c = Ok w).
  { destruct Hr as [|? ? ? (w & ? & Hw & _)]; by eexists. }
  destruct Hc as (w & Hw). pose proof (read_back _ _ _ Hru Hs Hw) as ->.
  destruct Hn as (Ht & Hop & Hrev & Hst & Hca).
  destruct (IH Hb _ Hw) as [->|(Ht' & Hop' & Hrev' & Hst' & Hca')].
  - rewrite Hw in Hb. injection Hb as <-. split_and!; try done; [cbn; lia|by apply rtc_once].
  - split_and!; try done; [by rewrite Hop'|cbn in *; lia|by eapply rtc_l|auto].
Qed.

(** What every actor does to a file that is there and stays there. *)
Lemma actor_changes actor a b : actor_step actor (Some a) (Some b) -> rtc file_change a b.
Proof.
  destruct actor; inversion 1; subst; first [apply rtc_refl|by apply rtc_once|done].
Qed.

(** A file that is there throughout a lawful history holds a successor of what it held. *)
Lemma lawful_present now past id b :
  lawful now past -> now !! id = Some b -> Forall (λ e, is_Some (e.2 !! id)) past ->
  exists a, match last past with Some (_, m) => m | None => now end !! id = Some a /\
    rtc file_change a b.
Proof.
  revert now b. induction past as [|[actor before] past IH]; intros now b Hl Hb Hp.
  - exists b. split; [done|apply rtc_refl].
  - destruct Hl as [Hs Hl]. apply Forall_cons in Hp as [[c Hc] Hp]. cbn in Hc.
    destruct (IH before c Hl Hc Hp) as (a & Ha & Hac). exists a. split.
    + destruct past as [|x past]; [done|]. rewrite last_cons_cons.
      destruct (last_is_Some (x :: past)) as [_ [y Hy]]; [done|]. by rewrite Hy in *.
    + etransitivity; [exact Hac|]. apply (actor_changes actor). rewrite <- Hc, <- Hb. apply Hs.
Qed.

(** C15.  The history of the directory, whatever operations of the store run in whatever order,
    whichever system calls fail, and whatever processes that keep to the same protocol do
    between the locked sections.  Every single change the store makes, to every file, is one of
    three: from a record that has not ended to its next revision (the revision one higher, the
    state one edge further in the graph of states, a request to cancel not withdrawn); from no
    record to one with revision 1; or from a record that has ended to none.  And if the file of a
    transaction has been there at every moment of that history, it is as at first, or the
    transaction had not ended and has since only moved forward: a higher revision, a state
    reached along the graph of states, no request to cancel withdrawn. *)
Theorem transaction_history ops d id a t :
  d_past d = [] -> others_ok (d_others d) -> Forall op_typed ops ->
  d_files d !! id = Some a -> deserialize a = Ok t ->
  let d' := run_ops ops d in
  lawful (d_files d') (d_past d') /\ origin d' = d_files d /\
  (Forall (λ e, is_Some (e.2 !! id)) (d_past d') ->
   forall b, d_files d' !! id = Some b ->
     b = a \/ ~ ended t /\ forall t', deserialize b = Ok t' -> later t t').
Proof.
  intros Hp Ho Ht Ha Hd d'.
  assert (Hlaw : kept_law (d_files d) d').
  { apply run_ops_law; [|done]. unfold kept_law, origin. rewrite Hp. done. }
  destruct Hlaw as (_ & Hl & Horig). split; [done|]. split; [done|]. intros Hpast b Hb.
  destruct (lawful_present _ _ id b Hl Hb Hpast) as (a0 & Ha0 & Hab).
  unfold origin in Horig. rewrite Horig, Ha in Ha0. injection Ha0 as <-.
  destruct (decide (b = a)) as [|Hn]; [by left|]. right. split.
  - intros E. by destruct Hn; eapply terminal_rtc.
  - intros t' Ht'. by destruct (changes_later _ _ _ _ Hd Hab Ht').
Qed.

(** Removal needs a terminal transaction: see [held_transaction_never_pruned]. *)
Lemma prune_keeps_nonterminal now ttl limit d id a t :
  d_others d = [] -> d_files d !! id = Some a -> deserialize a = Ok t -> ~ ended t ->
  d_files (load_and_prune now ttl limit d).2 !! id = Some a.
Proof.
  intros Ho Ha Ht Hn.
  assert (Hk : forall A (m : D A) d1, keeps m -> d_others d1 = [] /\ d_files d1 !! id = Some a ->
    d_others (m d1).2 = [] /\ d_files (m d1).2 !! id = Some a).
  { intros A m d1 Hm [? ?]. destruct (Hm d1) as (E1 & E2 & _). by rewrite E1, E2. }
  set (P := λ d1 : Disk, d_others d1 = [] /\ d_files d1 !! id = Some a).
  cut (P (load_and_prune now ttl limit d).2); [by intros [_ ?]|].
  assert (HP : P d) by done. unfold load_and_prune.
  apply (bind_state P); [|by apply Hk; [apply keeps_io_unit|]].
  intros [] d1 E. apply (Hk _ prepare_root) in HP; [|apply keeps_io_unit]. rewrite E in HP.
  change (P d1) in HP. clear E. apply (bind_state P); [|done]. intros ? ? [= <- <-].
  apply (bind_state P); [|by apply Hk; [apply keeps_scan_entries|]].
  intros scan d2 Es. pose proof HP as HP2.
  apply (Hk _ (scan_entries (map fst (map_to_list (d_files d1))) (mkScan [] []))) in HP2;
    [|apply keeps_scan_entries]. rewrite Es in HP2. change (P d2) in HP2.
  apply (scan_entries_found _ (mkScan [] []) _ _ _ _ eq_refl (Forall_nil_2 _)) in Es.
  assert (Hi : interfere d2 = (Ok tt, d2)).
  { unfold interfere. destruct HP2 as [-> _]. done. }
  apply (bind_state P); [|by rewrite Hi]. intros [] d3 E3. rewrite Hi in E3. injection E3 as <-.
  set (ids := expired now ttl limit (scan_transactions scan)).
  assert (HP4 : P (remove_all ids d2).2).
  { destruct (remove_all_effect ids d2) as [Hr Hd]. destruct HP2 as [Ho2 Hf2]. split; [by rewrite Hr|].
    destruct (Hd id) as [->|[Hin _]]; [done|]. exfalso.
    apply expired_terminal in Hin as (u & Hu & Hid & Htu). rewrite Forall_forall in Es.
    destruct (Es u Hu) as (text & Htext & Hdu). rewrite Hid in Htext. destruct HP as [_ Hf1].
    rewrite Hf1 in Htext. injection Htext as <-. rewrite Ht in Hdu. injection Hdu as <-. congruence. }
  apply (bind_state P); [|done]. intros [] d4 E4. rewrite E4 in HP4. change (P d4) in HP4.
  apply (bind_state P).
  - intros [] d5 E5. cbn. case_bool_decide; [by injection E5 as <-|].
    apply (Hk _ io_unit) in HP4; [|apply keeps_io_unit]. by rewrite E5 in HP4.
  - apply Hk; [case_bool_decide; [apply keeps_ret|apply keeps_io_unit]|done].
Qed.

(** A transaction whose profile reservation is held is never pruned, however old it is
    and however many records there are: an interrupted preparation keeps its record. *)
Theorem held_transaction_never_pruned now ttl limit d id a t :
  d_others d = [] -> d_files d !! id = Some a -> deserialize a = Ok t ->
  tx_state t = "interrupted" -> tx_profile_reservation_state t = "held" ->
  d_files (load_and_prune now ttl limit d).2 !! id = Some a.
Proof.
  intros Ho Ha Ht Hs Hh. eapply prune_keeps_nonterminal; [done..|]. intros [_ Hr]. rewrite Hh in Hr. set_solver.
Qed.
End histories.

(** ** Reservations *)

Section reservations.
Context `{JsonText} (p o : string).

Definition reserved (d : Disk) : Prop := d_reservations d !! p = Some o.

(** [m] leaves the reservation of [p] by [o] alone. *)
Definition spares {A} (m : D A) : Prop := forall d, reserved d -> reserved (m d).2.

Lemma spares_bind {A B} (m : D A) (f : A -> D B) :
  spares m -> (forall a, spares (f a)) -> spares (m ≫= f).
Proof.
  intros Hm Hf d Hd. apply (bind_state reserved); [|by apply Hm].
  intros a d1 E. apply Hf. specialize (Hm d Hd). by rewrite E in Hm.
Qed.

Lemma spares_catch {A} (m : D A) h : spares m -> (forall e, spares (h e)) -> spares (d_catch m h).
Proof.
  intros Hm Hh d Hd. unfold d_catch. specialize (Hm d Hd).
  destruct (m d) as [[a|e] d1]; [done|]. by apply Hh.
Qed.

Lemma spares_io {A} (f : Disk -> A * Disk) :
  (forall d, reserved d -> reserved (f d).2) -> spares (io f).
Proof.
  intros Hf d Hd. unfold io. set (d' := d <| d_faults := tail (d_faults d) |>).
  assert (Hd' : reserved d') by exact Hd. apply Hf in Hd' as Hfd. clearbody d'.
  destruct (d_faults d) as [|[| |] ?]; try done; by destruct (f d').
Qed.

Lemma spares_pure {A} (r : res A) : spares (λ d, (r, d)).
Proof. by intros d. Qed.

Lemma spares_interfere : spares interfere.
Proof. intros d Hd. unfold interfere. by destruct (d_others d). Qed.

Ltac spares_step :=
  lazymatch goal with
  | |- spares (_ ≫= _) => apply spares_bind; [|intros ?]
  | |- spares (d_catch _ _) => apply spares_catch; [|intros ?]
  | |- spares (io _) => apply spares_io; intros [] ?; assumption
  | |- spares (match ?x with _ => _ end) => destruct x
  | |- spares (mret _) => apply spares_pure
  | |- spares (d_throw _) => apply spares_pure
  | |- spares (d_lift _) => apply spares_pure
  | |- spares interfere => apply spares_interfere
  | |- spares d_get => intros ? ?; assumption
  end.

Lemma spares_update_attempts n id f : spares (update_attempts n id f).
Proof.
  induction n as [|n IH]; cbn; [apply spares_pure|]. unfold load, read_transaction, update_at,
    read_transaction, write_transaction, prepare_root, take_transaction_lock, io_unit.
  repeat (exact IH || spares_step).
Qed.

Lemma spares_scan_entries stems scan : spares (scan_entries stems scan).
Proof.
  revert scan. induction stems as [|stem stems IH]; intros scan; cbn; [apply spares_pure|].
  unfold scan_entry, read_transaction. repeat (apply IH || spares_step).
Qed.

Lemma spares_remove_all ids : spares (remove_all ids).
Proof. induction ids as [|id ids IH]; cbn; [apply spares_pure|]. repeat (exact IH || spares_step). Qed.

Lemma spares_read_reservation q : spares (read_reservation q).
Proof. unfold read_reservation. repeat spares_step. Qed.

Lemma read_reservation_Ok q d c d' :
  read_reservation q d = (Ok c, d') -> c = d_reservations d !! q.
Proof.
  unfold read_reservation. intros (x & d1 & Hx & Hr)%bind_Ok. apply io_Ok in Hx.
  injection Hx as <- <-. cbn in Hr. destruct (d_reservations d !! q) as [w|]; [|by injection Hr].
  apply bind_Ok in Hr as (? & ? & _ & Hr). apply bind_Ok in Hr as (? & ? & _ & Hr). by injection Hr.
Qed.

Lemma reserved_insert q v d : q <> p -> reserved d ->
  reserved (d <| d_reservations := <[q := v]> (d_reservations d) |>).
Proof. intros Hq Hd. unfold reserved. cbn. by rewrite lookup_insert_ne. Qed.

Lemma reserved_delete q d : q <> p -> reserved d ->
  reserved (d <| d_reservations := delete q (d_reservations d) |>).
Proof. intros Hq Hd. unfold reserved. cbn. by rewrite lookup_delete_ne. Qed.

Lemma spares_io_unit : spares io_unit.
Proof. by apply spares_io. Qed.

Lemma spares_reserve q x : spares (reserve_profile q x).
Proof.
  unfold reserve_profile. cbv zeta.
  do 2 (apply spares_bind; [apply spares_pure|intros ?]).
  do 2 (apply spares_bind; [apply spares_io_unit|intros ?]).
  intros d Hd. unfold mbind at 1, D_bind at 1, d_get.
  destruct (decide (q = p)) as [->|Hq].
  - rewrite Hd. revert d Hd. change (spares (_ ← io_unit; owner ← read_reservation p;
      if bool_decide (owner = Some x) then mret tt
      else d_throw (ValidationError ("profile is already reserved: " +:+ p)))).
    repeat (apply spares_io_unit || apply spares_read_reservation || spares_step).
  - destruct (d_reservations d !! q); revert d Hd.
    + match goal with |- forall d, _ -> reserved (?m d).2 => change (spares m) end.
      repeat (apply spares_io_unit || apply spares_read_reservation || spares_step).
    + match goal with |- forall d, _ -> reserved (?m d).2 => change (spares m) end.
      repeat first [apply spares_io_unit
        | apply spares_io; intros d Hd; cbn; first [by apply reserved_insert|by apply reserved_delete]
        | spares_step].
Qed.

Lemma spares_release q x : (q, x) <> (p, o) -> spares (release_profile q x).
Proof.
  intros Hn. unfold release_profile.
  do 2 (apply spares_bind; [apply spares_pure|intros ?]).
  do 2 (apply spares_bind; [apply spares_io_unit|intros ?]).
  intros d Hd. apply (bind_state reserved); [|by apply spares_read_reservation].
  intros c d1 E. pose proof (spares_read_reservation q d Hd) as Hd1. rewrite E in Hd1.
  apply read_reservation_Ok in E. destruct c as [w|]; [|done].
  destruct (String.eqb_spec w x) as [->|Hw]; [|done]. revert d1 Hd1. cbn [require].
  match goal with |- forall d, _ -> reserved (?m d).2 => change (spares m) end.
  assert (Hq : q <> p). { intros ->. unfold reserved in Hd. rewrite Hd in E. congruence. }
  repeat first [apply spares_io_unit | apply spares_io; intros d1 Hd1; cbn; by apply reserved_delete
               | spares_step].
Qed.

Lemma spares_exec op : op <> OpRelease p o -> spares (exec op).
Proof.
  intros Hop. destruct op as [t|id r f|id f|id|now ttl limit|q x|q x|q]; cbn [exec].
  - apply spares_bind; [|intros; apply spares_pure].
    unfold save, read_transaction, write_transaction, path_entry_exists. cbv zeta.
    repeat (apply spares_io_unit || spares_step).
  - apply spares_bind; [|intros; apply spares_pure].
    unfold update_at, read_transaction, write_transaction. repeat (apply spares_io_unit || spares_step).
  - apply spares_bind; [|intros; apply spares_pure].
    exact (spares_update_attempts 16 id f).
  - apply spares_bind; [|intros; apply spares_pure].
    unfold load, read_transaction. repeat (apply spares_io_unit || spares_step).
  - apply spares_bind; [|intros; apply spares_pure]. unfold load_and_prune.
    repeat (apply spares_io_unit || apply spares_scan_entries || apply spares_remove_all || spares_step).
  - apply spares_reserve.
  - apply spares_release. congruence.
  - apply spares_bind; [|intros; apply spares_pure]. unfold profile_reservation_owner.
    repeat (apply spares_io_unit || apply spares_read_reservation || spares_step).
Qed.
End reservations.

Section exclusive.
Context `{JsonText}.

Lemma reserve_other_fails p o o' d :
  reserved p o d -> o' <> o -> is_ok (reserve_profile p o' d).1 = false.
Proof.
  intros Hd Hn. destruct (reserve_profile p o' d) as [[[]|e] d'] eqn:E; [|done]. exfalso.
  unfold reserve_profile in E. cbv zeta in E.
  apply bind_Ok in E as (? & d1 & E1 & E). apply lift_Ok in E1 as [_ ->].
  apply bind_Ok in E as (? & d2 & E2 & E). apply lift_Ok in E2 as [_ ->].
  apply bind_Ok in E as (? & d3 & E3 & E). apply bind_Ok in E as (? & d4 & E4 & E).
  pose proof (spares_io_unit p o d Hd) as Hd3. change (prepare_root d) with (io_unit d) in E3.
  rewrite E3 in Hd3. pose proof (spares_io_unit p o d3 Hd3) as Hd4.
  change (prepare_root d3) with (io_unit d3) in E4. rewrite E4 in Hd4. cbn in Hd4.
  apply bind_Ok in E as (? & ? & [= <- <-] & E). unfold reserved in Hd4. rewrite Hd4 in E.
  apply bind_Ok in E as (? & d5 & E5 & E). pose proof (spares_io_unit p o d4 Hd4) as Hd5.
  rewrite E5 in Hd5. apply bind_Ok in E as (c & d6 & E6 & E). apply read_reservation_Ok in E6.
  cbn in Hd5. rewrite Hd5 in E6. subst c. case_bool_decide; [congruence|done].
Qed.

(** A profile that one operation has reserved stays reserved by it whatever anyone does
    and whatever fails, until that operation releases it; meanwhile no other operation can
    reserve it. *)
Theorem reservation_exclusive ops d p o o' :
  d_reservations d !! p = Some o ->
  Forall (λ op, op <> OpRelease p o) ops -> o' <> o ->
  d_reservations (run_ops ops d) !! p = Some o /\
  is_ok (reserve_profile p o' (run_ops ops d)).1 = false.
Proof.
  intros Hd Hops Hn. change (reserved p o d) in Hd.
  cut (reserved p o (run_ops ops d)); [intros Hr; split; [done|by eapply reserve_other_fails]|].
  unfold run_ops. revert d Hd. induction Hops as [|op ops Hop _ IH]; intros d Hd; cbn; [done|].
  apply IH. by apply spares_exec.
Qed.

(** ** An update takes effect *)

(** What the file holds while an update can succeed. *)
Definition updatable (id : string) (m : gmap string string) : Prop :=
  exists a t, m !! id = Some a /\ Z.of_nat (String.length a) <= maximum_transaction_size /\
    deserialize a = Ok t /\ tx_operation_id t = id /\ terminal t = false /\
    tx_revision t < 2 ^ 64 - 1.

(** A transition that every transaction read from a file allows, with a result that can be
    written. *)
Definition accepted (f : DevicePreparationTransaction -> res DevicePreparationTransaction) : Prop :=
  forall a t, deserialize a = Ok t -> exists t' text, f t = Ok t' /\ tx_revision t' = tx_revision t /\
    tx_operation_id t' = tx_operation_id t /\
    state_transition_allowed (tx_state t) (tx_state t') = true /\
    (tx_cancel_requested t = true -> tx_cancel_requested t' = true) /\
    serialize (t' <| tx_revision := tx_revision t + 1 |>) = Ok text.

(** The disk works. *)
Definition working (m r : gmap string string) os past : Disk := mkDisk m r [] os past.

Lemma read_working id m r os past a t :
  m !! id = Some a -> Z.of_nat (String.length a) <= maximum_transaction_size ->
  deserialize a = Ok t -> read_transaction id (working m r os past) = (Ok t, working m r os past).
Proof.
  intros Ha Hl Ht. unfold read_transaction, mbind, D_bind, io, working. cbn -[Z.ltb]. rewrite Ha.
  destruct (Z.ltb_spec maximum_transaction_size (Z.of_nat (String.length a))); [lia|].
  unfold d_lift. by rewrite Ht.
Qed.

Lemma load_working id m r os past a t :
  match_identifier id = true -> m !! id = Some a ->
  Z.of_nat (String.length a) <= maximum_transaction_size ->
  deserialize a = Ok t -> tx_operation_id t = id ->
  load id (working m r os past) = (Ok t, working m r os past).
Proof.
  intros Hid Ha Hl Ht Hop. unfold load, validate_operation_id, validate_identifier. rewrite Hid.
  unfold mbind, D_bind, d_lift. cbn -[read_transaction]. fold (working m r os past).
  rewrite (read_working id m r os past a t Ha Hl Ht). by rewrite Hop, String.eqb_refl.
Qed.

Lemma update_at_working id rev f m r os past a t :
  match_identifier id = true -> m !! id = Some a ->
  Z.of_nat (String.length a) <= maximum_transaction_size ->
  deserialize a = Ok t ->
  update_at id rev f (working m r os past) =
    match update_checked id rev f t with
    | Ok t' => match serialize t' with
               | Ok text => (Ok t', working (<[id := text]> m) r os ((ByStore, m) :: past))
               | Throw e => (Throw e, working m r os past)
               end
    | Throw e => (Throw e, working m r os past)
    end.
Proof.
  intros Hid Ha Hl Ht. unfold update_at, validate_operation_id, validate_identifier. rewrite Hid.
  unfold mbind, D_bind, d_lift. cbn -[read_transaction update_checked]. fold (working m r os past).
  rewrite (read_working id m r os past a t Ha Hl Ht).
  destruct (update_checked id rev f t) as [t'|e]; [|done].
  unfold write_transaction, mbind, D_bind, d_lift. by destruct (serialize t').
Qed.

Lemma update_checked_accepted id f a t :
  accepted f -> deserialize a = Ok t -> tx_operation_id t = id -> terminal t = false -> tx_revision t < 2 ^ 64 - 1 ->
  exists t' text, update_checked id (tx_revision t) f t = Ok t' /\ serialize t' = Ok text /\
    next_revision t t' /\ exists u, f t = Ok u /\ t' = u <| tx_revision := tx_revision t + 1 |>.
Proof.
  intros Hf Ha Hop Ht Hr. destruct (Hf a t Ha) as (u & text & Hu & Hur & Huo & Hst & Hca & Hs).
  exists (u <| tx_revision := tx_revision t + 1 |>), text. unfold update_checked.
  rewrite Hop, String.eqb_refl, Z.eqb_refl, Ht. cbn. rewrite Hu. cbn. rewrite Hur, Huo, Hop.
  rewrite Z.eqb_refl, String.eqb_refl. cbn. rewrite Hst. cbn.
  replace (negb (tx_cancel_requested t && negb (tx_cancel_requested u))) with true.
  2:{ destruct (tx_cancel_requested t); [by rewrite Hca|done]. }
  cbn. destruct (Z.eqb_spec (tx_revision t) (2 ^ 64 - 1)); [lia|]. cbn.
  split; [done|]. split; [done|]. split; [|by exists u].
  split; [by apply not_terminal_ended|]. split; [done|]. split; [done|]. by split; [apply transition_edge|].
Qed.

Lemma update_checked_conflict id rev f t :
  tx_operation_id t = id -> tx_revision t <> rev ->
  update_checked id rev f t = Throw (ValidationError revision_conflict).
Proof.
  intros Hop Hr. unfold update_checked. rewrite Hop, String.eqb_refl. cbn.
  by destruct (Z.eqb_spec (tx_revision t) rev).
Qed.

Lemma update_attempts_effective n id f m r os past k :
  match_identifier id = true -> accepted f -> updatable id m ->
  Forall (λ g, forall m, updatable id m -> updatable id (g m)) os ->
  (k < n)%nat -> (forall g, os !! k = Some g -> forall m, g m !! id = m !! id) ->
  exists t t' m' text os' past', m' !! id = Some text /\ serialize t' = Ok text /\ next_revision t t' /\
    (exists u, f t = Ok u /\ t' = u <| tx_revision := tx_revision t + 1 |>) /\
    update_attempts n id f (working m r os past) = (Ok t', working m' r os' past').
Proof.
  intros Hid Hf. revert m os past k. induction n as [|n IH]; intros m os past k Hm Hos Hk Hq; [lia|].
  destruct Hm as (a & t & Ha & Hl & Ht & Hop & Hterm & Hrev).
  cbn [update_attempts]. unfold mbind, D_bind.
  rewrite (load_working id m r os past a t) by done.
  set (m1 := match os with [] => m | g :: _ => g m end).
  set (past1 := match os with [] => past | _ => (ByOthers, m) :: past end).
  replace (interfere (working m r os past)) with (Ok tt, working m1 r (tail os) past1) by (by destruct os).
  assert (Hm1 : updatable id m1).
  { destruct os as [|g os]; [by exists a, t|]. apply Forall_cons in Hos as [Hg _]. apply Hg. by exists a, t. }
  assert (Hos1 : Forall (λ g, forall m, updatable id m -> updatable id (g m)) (tail os)).
  { destruct os; [done|]. by apply Forall_cons in Hos as [_ ?]. }
  destruct (Hm1) as (a1 & t1 & Ha1 & Hl1 & Ht1 & Hop1 & Hterm1 & Hrev1).
  unfold d_catch. rewrite (update_at_working id _ f m1 r (tail os) past1 a1 t1) by done.
  destruct (decide (tx_revision t1 = tx_revision t)) as [E|E].
  - rewrite <- E. destruct (update_checked_accepted id f a1 t1) as (t' & text & -> & Hs & Hn & Hu); [done..|].
    rewrite Hs. exists t1, t', (<[id := text]> m1), text, (tail os), ((ByStore, m1) :: past1).
    split_and!; try done. apply lookup_insert_eq.
  - rewrite update_checked_conflict by done.
    change (is_revision_conflict (ValidationError revision_conflict)) with true. cbn [andb].
    destruct k as [|k].
    + exfalso. apply E. unfold m1 in Ha1. destruct os as [|g os]; [congruence|].
      rewrite (Hq g eq_refl) in Ha1. congruence.
    + apply (IH m1 (tail os) past1 k Hm1 Hos1); [lia|]. intros g Hg. apply (Hq g). by destruct os.
Qed.

(** An update takes effect although other processes keep changing the transaction: if
    they leave it updatable and leave it alone during one of the sixteen attempts, the
    update succeeds, and the file then holds the next revision, made by the transition
    from what the file held. *)
Theorem update_takes_effect id f m r os past k :
  match_identifier id = true -> accepted f -> updatable id m ->
  Forall (λ g, forall m, updatable id m -> updatable id (g m)) os ->
  (k < 16)%nat -> (forall g, os !! k = Some g -> forall m, g m !! id = m !! id) ->
  exists t t' m' text os' past', m' !! id = Some text /\ serialize t' = Ok text /\ next_revision t t' /\
    (exists u, f t = Ok u /\ t' = u <| tx_revision := tx_revision t + 1 |>) /\
    update id f (mkDisk m r [] os past) = (Ok t', mkDisk m' r [] os' past').
Proof. apply update_attempts_effective. Qed.
End exclusive.

(** ** Witnesses: one transaction on a disk *)

(** The transaction in a state. *)
Definition ex_in_state (state : string) : DevicePreparationTransaction :=
  ex_transaction <| tx_status := (tx_status ex_transaction) <| st_state := state |> |>.

Definition ex_text (state : string) : string :=
  match serialize (H:=bits_text) (ex_in_state state) with Ok text => text | Throw _ => "" end.

Definition ex_disk (state : string) : Disk :=
  mkDisk {[ "operation-1" := ex_text state ]} {[ "home" := "operation-1" ]} [] [] [].

Lemma ex_serialize state :
  serialize (H:=bits_text) (ex_in_state state) = Ok (ex_text state).
Proof.
  unfold ex_text. destruct (@json_dump_ok bits_text (transaction_json (ex_in_state state)))
    as (text & Ht); [apply wf_transaction, ex_transaction_in_range|].
  unfold serialize. by rewrite Ht.
Qed.

Lemma ex_deserialize state :
  deserialize (H:=bits_text) (ex_text state) = Ok (kept (ex_in_state state)).
Proof.
  rewrite (@deserialize_serialize bits_text (ex_in_state state) _ ex_transaction_in_range
    (ex_serialize state)). reflexivity.
Qed.

(** A request to cancel. *)
Definition ex_cancel (t : DevicePreparationTransaction) : res DevicePreparationTransaction :=
  Ok (t <| tx_cancel_requested := true |>).

Lemma ex_cancel_typed : typed ex_cancel.
Proof. intros t t' Hr [= <-]. exact Hr. Qed.

(** A preparation is cancelled, then records are pruned: the file was there all along, and what
    it holds now is a later revision. *)
Lemma transaction_history_witness :
  let d := ex_disk "queued" in
  let d' := run_ops (H:=bits_text) [OpUpdate "operation-1" ex_cancel; OpPrune 1709210096 1 1] d in
  lawful (H:=bits_text) (d_files d') (d_past d') /\ origin d' = d_files d /\
  exists b, d_files d' !! "operation-1" = Some b /\
    (b = ex_text "queued" \/ ~ ended (kept (ex_in_state "queued")) /\
     forall t', deserialize (H:=bits_text) b = Ok t' -> later (kept (ex_in_state "queued")) t').
Proof.
  cbv zeta.
  destruct (@transaction_history bits_text [OpUpdate "operation-1" ex_cancel; OpPrune 1709210096 1 1]
    (ex_disk "queued") "operation-1" (ex_text "queued") (kept (ex_in_state "queued")))
    as (H1 & H2 & H3).
  - reflexivity.
  - constructor.
  - constructor; [apply ex_cancel_typed|]. by repeat constructor.
  - apply lookup_singleton_eq.
  - apply ex_deserialize.
  - split; [exact H1|]. split; [exact H2|].
    assert (Hb : is_Some (d_files (run_ops (H:=bits_text) [OpUpdate "operation-1" ex_cancel;
      OpPrune 1709210096 1 1] (ex_disk "queued")) !! "operation-1")).
    { apply (bool_decide_unpack _). vm_compute. exact I. }
    destruct Hb as [b Hb]. exists b. split; [exact Hb|]. apply H3; [|exact Hb].
    apply (bool_decide_unpack _). vm_compute. exact I.
Defined.

(** A year later the record of an interrupted preparation is still there. *)
Lemma held_transaction_never_pruned_witness :
  d_files (load_and_prune (H:=bits_text) (1709210096 + 365 * 86400) (30 * 86400) 128
    (ex_disk "interrupted")).2 !! "operation-1" = Some (ex_text "interrupted").
Proof.
  apply (@held_transaction_never_pruned bits_text _ _ _ (ex_disk "interrupted") "operation-1"
    (ex_text "interrupted") (kept (ex_in_state "interrupted"))).
  - reflexivity.
  - apply lookup_singleton_eq.
  - apply ex_deserialize.
  - reflexivity.
  - reflexivity.
Defined.

(** The profile stays reserved although another operation tries to release it. *)
Lemma reservation_exclusive_witness :
  is_ok (reserve_profile "home" "operation-2"
    (run_ops (H:=bits_text) [OpRelease "home" "operation-2"] (ex_disk "queued"))).1 = false.
Proof.
  apply (@reservation_exclusive bits_text [OpRelease "home" "operation-2"] (ex_disk "queued")
    "home" "operation-1" "operation-2").
  - apply lookup_singleton_eq.
  - by repeat constructor.
  - done.
Defined.

Lemma ex_cancel_accepted : accepted (H:=bits_text) ex_cancel.
Proof.
  intros a t Ha. destruct (@deserialize_kept bits_text a t Ha) as (_ & Hr & _).
  exists (t <| tx_cancel_requested := true |>).
  destruct (serialize (H:=bits_text) ((t <| tx_cancel_requested := true |>)
    <| tx_revision := tx_revision t + 1 |>)) as [text|e] eqn:E.
  - exists text. split_and!; try done. unfold state_transition_allowed, tx_state. cbn.
    by rewrite String.eqb_refl.
  - done.
Qed.

Lemma ex_updatable : updatable (H:=bits_text) "operation-1" (d_files (ex_disk "running")).
Proof.
  exists (ex_text "running"), (kept (ex_in_state "running")). split; [apply lookup_singleton_eq|].
  split; [apply Z.leb_le; vm_compute; reflexivity|]. split; [apply ex_deserialize|].
  split; [reflexivity|]. split; [reflexivity|]. done.
Qed.

(** The request to cancel is recorded. *)
Lemma update_takes_effect_witness :
  exists t' d', update (H:=bits_text) "operation-1" ex_cancel (ex_disk "running") = (Ok t', d') /\
    tx_cancel_requested t' = true.
Proof.
  destruct (@update_takes_effect bits_text "operation-1" ex_cancel (d_files (ex_disk "running"))
    (d_reservations (ex_disk "running")) [] [] 0) as (t & t' & m' & text & os' & past' & _ & _ & _ & Hu & He).
  - reflexivity.
  - exact ex_cancel_accepted.
  - exact ex_updatable.
  - constructor.
  - lia.
  - intros g Hg. discriminate Hg.
  - exists t', (mkDisk m' (d_reservations (ex_disk "running")) [] os' past'). split; [exact He|].
    destruct Hu as (u & Hu & ->). injection Hu as <-. reflexivity.
Defined.
