(* ===== verification/PreparationDevices.v ===== *)
(** * The devices a preparation works on (src/daemon/control/ProvisioningDeviceEnumerator,
      DestructiveDeviceSafetyInspector)

    The snapshot of a device that a transaction keeps, its comparison with the device that
    is there when the work starts, and the last inspection before a device is changed.  A
    scan of the devices and the exclusive open of a device node are arguments. *)

From S2P Require Import Prelude Errors Provisioning Preparation.

Open Scope Z_scope.

(** ** Snapshots of devices *)

(** src/daemon/control/ProvisioningDeviceEnumerator.cpp:22-28 *)
Definition has_data (device : StorageDevice) : bool :=
  negb (bool_decide (pt_type (sd_partition_table device) = TableNone))
  || negb (str_empty (fs_type (sd_filesystem device)))
  || existsb (λ r, match r with RPartition _ => true | RFree _ => false end) (sd_regions device).

(** src/daemon/control/ProvisioningDeviceEnumerator.cpp:30-37 *)
Definition mounted (device : StorageDevice) : bool :=
  negb (bool_decide (sd_mount_points device = []))
  || existsb (λ r, match r with
                   | RPartition p => negb (bool_decide (ep_mount_points p = []))
                   | RFree _ => false
                   end) (sd_regions device).

(** ['\0'], and a [bool] as a stream prints it. *)
Definition nul : string := String "000" "".
Definition bool_text (b : bool) : string := if b then "1" else "0".

Definition concat_map {A} (f : A -> string) (l : list A) : string :=
  fold_right (λ a s, f a +:+ s) "" l.

(** The part of the fingerprint that describes a region.
    src/daemon/control/ProvisioningDeviceEnumerator.cpp:50-66 *)
Definition region_fingerprint (region : StorageRegion) : string :=
  match region with
  | RPartition p =>
      pretty (ep_start_sector p) +:+ ":" +:+ pretty (ep_sector_count p) +:+ ":"
      +:+ bd_display_path (ep_identity p) +:+ ":" +:+ bd_major_minor (ep_identity p) +:+ ":"
      +:+ pretty (ep_partition_number p) +:+ ":" +:+ default "" (ep_partition_uuid p) +:+ ":"
      +:+ fs_type (ep_filesystem p) +:+ ":" +:+ fs_uuid (ep_filesystem p) +:+ ":"
      +:+ bool_text (ep_active_swap p)
      +:+ concat_map (λ m, ":mount=" +:+ m) (ep_mount_points p)
      +:+ concat_map (λ h, ":holder=" +:+ h) (ep_holders p) +:+ nul
  | RFree r =>
      pretty (ur_start_sector r) +:+ ":" +:+ pretty (ur_sector_count r) +:+ ":"
      +:+ ur_id r +:+ nul
  end.

(** src/daemon/control/ProvisioningDeviceEnumerator.cpp:39-70 *)
Definition graph_fingerprint (device : StorageDevice) : string :=
  bd_major_minor (sd_identity device) +:+ nul +:+ bd_sysfs_path (sd_identity device) +:+ nul
  +:+ pretty (sd_size_bytes device) +:+ nul
  +:+ partition_table_type_name (pt_type (sd_partition_table device)) +:+ nul
  +:+ pt_identifier (sd_partition_table device) +:+ nul +:+ fs_type (sd_filesystem device) +:+ nul
  +:+ fs_uuid (sd_filesystem device) +:+ nul
  +:+ concat_map (λ h, "holder:" +:+ h +:+ nul) (sd_holders device)
  +:+ concat_map (λ m, "mount:" +:+ m +:+ nul) (sd_mount_points device)
  +:+ concat_map region_fingerprint (sd_regions device).

(** src/daemon/control/ProvisioningDeviceEnumerator.cpp:72-92 *)
Definition make_provisioning_device (device : StorageDevice) : ProvisioningDevice :=
  let identity := sd_identity device in
  let serial := if negb (str_empty (bd_serial_short identity)) then bd_serial_short identity
                else bd_serial identity in
  mkProvisioningDevice (bd_display_path identity) (sd_display_name device) serial
    (sd_transport device) (sd_size_bytes device) (sd_removable device) (mounted device)
    (has_data device) (bd_major_minor identity) (bd_sysfs_path identity) (bd_wwn identity)
    (bd_serial identity) (bd_serial_short identity) (graph_fingerprint device).

(** src/daemon/control/ProvisioningDeviceEnumerator.cpp:132-134 *)
Definition provisioning_device_snapshot (device : StorageDevice) : ProvisioningDevice :=
  make_provisioning_device device.

(** src/daemon/control/ProvisioningDeviceEnumerator.cpp:94-102 *)
Definition same_device_identity (expected current : ProvisioningDevice) : bool :=
  (dev_path expected =? dev_path current)%string
  && (dev_model expected =? dev_model current)%string
  && (dev_serial expected =? dev_serial current)%string
  && (dev_transport expected =? dev_transport current)%string
  && (dev_size_bytes expected =? dev_size_bytes current)
  && Bool.eqb (dev_removable expected) (dev_removable current)
  && Bool.eqb (dev_mounted expected) (dev_mounted current)
  && Bool.eqb (dev_contains_data expected) (dev_contains_data current)
  && (dev_major_minor expected =? dev_major_minor current)%string
  && (dev_sysfs_devpath expected =? dev_sysfs_devpath current)%string
  && (dev_wwn expected =? dev_wwn current)%string
  && (dev_serial_id expected =? dev_serial_id current)%string
  && (dev_serial_short expected =? dev_serial_short current)%string
  && (dev_device_graph expected =? dev_device_graph current)%string.

(** The names of the members that differ, separated by commas.
    src/daemon/control/ProvisioningDeviceEnumerator.cpp:104-128 *)
Definition changed_identity_fields (expected current : ProvisioningDevice) : string :=
  let changed (name : string) (same : bool) (result : string) :=
    if same then result
    else (if str_empty result then result else result +:+ ", ") +:+ name in
  fold_left (λ result f, changed f.1 f.2 result)
    [("path", (dev_path expected =? dev_path current)%string);
     ("model", (dev_model expected =? dev_model current)%string);
     ("serial", (dev_serial expected =? dev_serial current)%string);
     ("transport", (dev_transport expected =? dev_transport current)%string);
     ("size", dev_size_bytes expected =? dev_size_bytes current);
     ("removable", Bool.eqb (dev_removable expected) (dev_removable current));
     ("mounted", Bool.eqb (dev_mounted expected) (dev_mounted current));
     ("contains-data", Bool.eqb (dev_contains_data expected) (dev_contains_data current));
     ("major-minor", (dev_major_minor expected =? dev_major_minor current)%string);
     ("sysfs-path", (dev_sysfs_devpath expected =? dev_sysfs_devpath current)%string);
     ("wwn", (dev_wwn expected =? dev_wwn current)%string);
     ("serial-id", (dev_serial_id expected =? dev_serial_id current)%string);
     ("serial-short", (dev_serial_short expected =? dev_serial_short current)%string);
     ("device-graph", (dev_device_graph expected =? dev_device_graph current)%string)] "".

(** src/daemon/control/ProvisioningDeviceEnumerator.cpp:140-147 *)
Definition list_devices (scan : res StorageTopology) : res (list ProvisioningDevice) :=
  topology ← scan; Ok (map make_provisioning_device (topo_devices topology)).

(** src/daemon/control/ProvisioningDeviceEnumerator.cpp:149-160 *)
Definition revalidate (scan : res StorageTopology) (expected : ProvisioningDevice)
    : res ProvisioningDevice :=
  current ← list_devices scan;
  match find_if (λ d, (dev_major_minor d =? dev_major_minor expected)%string) current with
  | None => Throw (ManagerOperationError Conflict "selected device disappeared")
  | Some selected =>
      if same_device_identity expected selected then Ok selected
      else Throw (ManagerOperationError Conflict
             ("selected device identity changed: " +:+ changed_identity_fields expected selected))
  end.

(** ** The inspection before a device is changed *)

(** src/daemon/control/DestructiveDeviceSafetyInspector.cpp:26-29 *)
Definition add_reason (reason : string) (reasons : list string) : list string :=
  if bool_decide (reason ∈ reasons) then reasons else reasons ++ [reason].

(** src/daemon/control/DestructiveDeviceSafetyInspector.cpp:31-34 *)
Definition system_mount (mountpoint : string) : bool :=
  bool_decide (mountpoint ∈ ["/"; "/boot"; "/boot/efi"; "/home"; "/usr"; "/var"]).

(** src/daemon/control/DestructiveDeviceSafetyInspector.cpp:53-59 *)
Definition add_mount_reasons (mount_points : list string) (reasons : list string) : list string :=
  fold_left (λ reasons m,
    let reasons := add_reason ("mounted-filesystem:" +:+ m) reasons in
    if system_mount m then add_reason ("system-disk:" +:+ m) reasons else reasons)
  mount_points reasons.

(** src/daemon/control/DestructiveDeviceSafetyInspector.cpp:61-64 *)
Definition add_blocker_reasons (blockers : list SafetyBlocker) (reasons : list string)
    : list string :=
  fold_left (λ reasons b,
    add_reason (if str_empty (blk_detail b) then blk_code b
                else blk_code b +:+ ":" +:+ blk_detail b) reasons)
  blockers reasons.

(** [if (condition) add_reason(reasons, reason);] and the loop over holders. *)
Definition reason_if (condition : bool) (reason : string) (reasons : list string) : list string :=
  if condition then add_reason reason reasons else reasons.
Definition add_holder_reasons (holders reasons : list string) : list string :=
  fold_left (λ reasons h, add_reason ("block-holder:" +:+ h) reasons) holders reasons.

(** src/daemon/control/DestructiveDeviceSafetyInspector.cpp:76-93 *)
Definition partition_probe_candidate (partition : ExistingPartition) : ProvisioningDevice :=
  let identity := ep_identity partition in
  mkProvisioningDevice (bd_display_path identity) "" "" "" (bd_size_bytes identity) false false
    true (bd_major_minor identity) (bd_sysfs_path identity) (bd_wwn identity) (bd_serial identity)
    (bd_serial_short identity) "".

(** src/daemon/control/DestructiveDeviceSafetyInspector.cpp:95-105 *)
Definition find_partition (device : StorageDevice) (partition_number : Z)
    : option ExistingPartition :=
  find_if (λ p, ep_partition_number p =? partition_number) (omap as_partition (sd_regions device)).

(** src/daemon/control/DestructiveDeviceSafetyInspector.cpp:107-127 *)
Definition inspect_partition (expected current : ExistingPartition) (reasons : list string)
    : list string :=
  let reasons := reason_if
    (negb (same_identity (ep_identity expected) (ep_identity current))
     || negb (bool_decide (ep_partition_uuid expected = ep_partition_uuid current))
     || negb (ep_partition_number expected =? ep_partition_number current)
     || negb (ep_start_sector expected =? ep_start_sector current)
     || negb (ep_sector_count expected =? ep_sector_count current))
    "partition-identity-mismatch" reasons in
  let reasons := reason_if (negb (bool_decide (ep_filesystem expected = ep_filesystem current)))
    "partition-signature-changed" reasons in
  let reasons := add_blocker_reasons (ep_blockers current) reasons in
  let reasons := add_mount_reasons (ep_mount_points current) reasons in
  let reasons := reason_if (ep_active_swap current)
    ("active-swap:" +:+ bd_display_path (ep_identity current)) reasons in
  let reasons := add_holder_reasons (ep_holders current) reasons in
  reason_if (ep_configured_backup_target current)
    ("configured-backup-target:" +:+ bd_display_path (ep_identity current)) reasons.

(** The users of a device or a partition.
    src/daemon/control/DestructiveDeviceSafetyInspector.cpp:188-205 *)
Definition add_user_reasons (blockers : list SafetyBlocker) (mount_points holders : list string)
    (active_swap : bool) (path : string) (reasons : list string) : list string :=
  let reasons := add_blocker_reasons blockers reasons in
  let reasons := add_mount_reasons mount_points reasons in
  let reasons := reason_if active_swap ("active-swap:" +:+ path) reasons in
  add_holder_reasons holders reasons.

(** The planned partition does not lie inside the free region.
    src/daemon/control/DestructiveDeviceSafetyInspector.cpp:179-186 *)
Definition geometry_invalid (free_region : UnallocatedRegion) (geometry : PlannedPartitionGeometry)
    : bool :=
  let free_start := ur_start_sector free_region in
  let free_count := ur_sector_count free_region in
  (free_count =? 0) || (pg_sector_count geometry =? 0)
  || (pg_start_sector geometry <? free_start)
  || (free_count <=? pg_start_sector geometry - free_start)
  || (free_count - (pg_start_sector geometry - free_start) <? pg_sector_count geometry).

(** src/daemon/control/DestructiveDeviceSafetyInspector.cpp:167-187 *)
Definition inspect_free_space (target : DevicePreparationTarget) (selected : StorageDevice)
    (reasons : list string) : list string :=
  match tg_free_region target, tg_planned_partition_geometry target with
  | Some free_region, Some geometry =>
      let reasons := reason_if
        (negb (bool_decide (is_Some (current_free_region selected free_region))))
        "unallocated-region-changed" reasons in
      reason_if (geometry_invalid free_region geometry) "planned-partition-geometry-invalid" reasons
  | _, _ => add_reason "planned-free-region-missing" reasons
  end.

(** The devices were scanned: the reasons and the device to open exclusively.
    src/daemon/control/DestructiveDeviceSafetyInspector.cpp:145-206 *)
Definition inspect_topology (topology : StorageTopology) (expected_device : ProvisioningDevice)
    (target : DevicePreparationTarget) : list string * ProvisioningDevice :=
  match find_if (λ d, (bd_major_minor (sd_identity d) =? dev_major_minor expected_device)%string)
          (topo_devices topology) with
  | None => (add_reason "block-device-missing" [], expected_device)
  | Some selected =>
  if negb (same_identity (sd_identity (tg_device target)) (sd_identity selected))
     || negb (sd_logical_sector_size selected =? sd_logical_sector_size (tg_device target))
     || negb (sd_physical_sector_size selected =? sd_physical_sector_size (tg_device target))
     || negb (bool_decide (sd_partition_table selected = sd_partition_table (tg_device target)))
  then (add_reason "block-device-identity-mismatch" [], expected_device)
  else if sd_read_only selected && negb (bool_decide (tg_mode target = AdoptExistingTarget))
  then (add_reason ("read-only-device:" +:+ bd_display_path (sd_identity selected)) [],
        expected_device)
  else if bool_decide (tg_mode target = ReformatExistingPartition)
          || bool_decide (tg_mode target = AdoptExistingTarget)
  then match tg_partition target with
       | None => (add_reason "planned-partition-missing" [], expected_device)
       | Some planned =>
           (match find_partition selected (ep_partition_number planned) with
            | None => add_reason "block-partition-missing" []
            | Some partition => inspect_partition planned partition []
            end,
            if bool_decide (tg_mode target = ReformatExistingPartition)
            then partition_probe_candidate planned else expected_device)
       end
  else
    let reasons :=
      if bool_decide (tg_mode target = CreatePartitionInUnallocatedSpace)
      then inspect_free_space target selected [] else [] in
    let reasons := add_user_reasons (sd_blockers selected) (sd_mount_points selected)
      (sd_holders selected) (sd_active_swap selected) (bd_display_path (sd_identity selected))
      reasons in
    (fold_left (λ reasons p, add_user_reasons (ep_blockers p) (ep_mount_points p) (ep_holders p)
        (ep_active_swap p) (bd_display_path (ep_identity p)) reasons)
      (omap as_partition (sd_regions selected)) reasons,
     expected_device)
  end.

(** src/daemon/control/DestructiveDeviceSafetyInspector.cpp:138-214 *)
Definition inspect_destructive (scan : res StorageTopology)
    (exclusive_probe : ProvisioningDevice -> option string) (expected_device : ProvisioningDevice)
    (target : DevicePreparationTarget) : list string :=
  let '(reasons, exclusive_candidate) :=
    match scan with
    | Ok topology => inspect_topology topology expected_device target
    | Throw _ => (add_reason "block-graph-unavailable" [], expected_device)
    end in
  if negb (bool_decide (tg_mode target = AdoptExistingTarget))
  then match exclusive_probe exclusive_candidate with
       | Some reason => add_reason reason reasons
       | None => reasons
       end
  else reasons.

(** ** What it means that nothing speaks against changing the device *)

Lemma add_reason_nil r l : add_reason r l = [] <-> False.
Proof. unfold add_reason. case_bool_decide; destruct l; cbn; set_solver. Qed.

Lemma reason_if_nil b r l : reason_if b r l = [] <-> l = [] /\ b = false.
Proof. unfold reason_if. destruct b; rewrite ?add_reason_nil; naive_solver. Qed.

Lemma fold_reasons_nil {A} (f : list string -> A -> list string) (P : A -> Prop) xs l :
  (forall acc x, f acc x = [] <-> acc = [] /\ P x) ->
  fold_left f xs l = [] <-> l = [] /\ Forall P xs.
Proof.
  intros Hf. revert l. induction xs as [|x xs IH]; intros l; cbn.
  - split; [done|by intros []].
  - rewrite IH, Hf, Forall_cons. tauto.
Qed.

Lemma add_mount_reasons_nil ms l : add_mount_reasons ms l = [] <-> l = [] /\ ms = [].
Proof.
  unfold add_mount_reasons. rewrite (fold_reasons_nil _ (λ _, False)), Forall_False; [done|].
  intros acc m. cbv zeta. case_match; rewrite add_reason_nil; tauto.
Qed.

Lemma add_blocker_reasons_nil bs l : add_blocker_reasons bs l = [] <-> l = [] /\ bs = [].
Proof.
  unfold add_blocker_reasons. rewrite (fold_reasons_nil _ (λ _, False)), Forall_False; [done|].
  intros. rewrite add_reason_nil. tauto.
Qed.

Lemma add_holder_reasons_nil hs l : add_holder_reasons hs l = [] <-> l = [] /\ hs = [].
Proof.
  unfold add_holder_reasons. rewrite (fold_reasons_nil _ (λ _, False)), Forall_False; [done|].
  intros. rewrite add_reason_nil. tauto.
Qed.

#[export] Hint Rewrite add_reason_nil reason_if_nil add_mount_reasons_nil add_blocker_reasons_nil
  add_holder_reasons_nil : safety.

Lemma inspect_partition_nil e c l :
  inspect_partition e c l = [] <-> l = [] /\ partition_same e c /\ partition_idle c.
Proof.
  unfold inspect_partition, partition_same, partition_idle. cbv zeta. autorewrite with safety. tauto.
Qed.

(** Nothing uses a device or a partition. *)
Definition unused (blockers : list SafetyBlocker) (mount_points holders : list string)
    (active_swap : bool) : Prop :=
  blockers = [] /\ mount_points = [] /\ holders = [] /\ active_swap = false.

Lemma add_user_reasons_nil bs ms hs sw p l :
  add_user_reasons bs ms hs sw p l = [] <-> l = [] /\ unused bs ms hs sw.
Proof. unfold add_user_reasons, unused. cbv zeta. autorewrite with safety. tauto. Qed.

Definition device_unused (d : StorageDevice) : Prop :=
  unused (sd_blockers d) (sd_mount_points d) (sd_holders d) (sd_active_swap d) /\
  Forall (λ p, unused (ep_blockers p) (ep_mount_points p) (ep_holders p) (ep_active_swap p))
    (partitions d).

(** The planned partition lies inside the free region, which is still there. *)
Definition free_space_safe (target : DevicePreparationTarget) (d : StorageDevice) : Prop :=
  exists r g, tg_free_region target = Some r /\ tg_planned_partition_geometry target = Some g /\
    is_Some (current_free_region d r) /\ pg_sector_count g <> 0 /\
    ur_start_sector r <= pg_start_sector g /\
    pg_start_sector g + pg_sector_count g <= ur_start_sector r + ur_sector_count r /\
    pg_start_sector g < ur_start_sector r + ur_sector_count r /\ ur_sector_count r <> 0.

(** What the mode asks of the device found. *)
Definition mode_safe (d : StorageDevice) (probe : ProvisioningDevice -> option string)
    (expected : ProvisioningDevice) (target : DevicePreparationTarget) : Prop :=
  (tg_mode target <> AdoptExistingTarget -> sd_read_only d = false) /\
  match tg_mode target with
  | ReformatExistingPartition | AdoptExistingTarget =>
      exists p c, tg_partition target = Some p /\
        find_partition d (ep_partition_number p) = Some c /\
        partition_same p c /\ partition_idle c /\
        (tg_mode target = ReformatExistingPartition -> probe (partition_probe_candidate p) = None)
  | CreatePartitionInUnallocatedSpace =>
      free_space_safe target d /\ device_unused d /\ probe expected = None
  | EraseWholeDevice => device_unused d /\ probe expected = None
  end.

Definition target_safe (t : StorageTopology) (probe : ProvisioningDevice -> option string)
    (expected : ProvisioningDevice) (target : DevicePreparationTarget) : Prop :=
  exists d,
    find_if (λ d, (bd_major_minor (sd_identity d) =? dev_major_minor expected)%string)
      (topo_devices t) = Some d /\
    sd_identity (tg_device target) = sd_identity d /\
    sd_logical_sector_size d = sd_logical_sector_size (tg_device target) /\
    sd_physical_sector_size d = sd_physical_sector_size (tg_device target) /\
    sd_partition_table d = sd_partition_table (tg_device target) /\
    mode_safe d probe expected target.

(** Evaluates comparisons of modes. *)
Ltac decide_modes :=
  repeat match goal with
  | |- context [@bool_decide (@eq ProvisioningMode ?x ?y) ?d] =>
      let b := eval vm_compute in (@bool_decide (x = y) d) in
      change (@bool_decide (x = y) d) with b
  end; cbn [negb andb orb].

(** A branch that finds a reason is one that is not safe. *)
Ltac unsafe :=
  split; [tauto|]; intros [Hr Hm];
  first [ by specialize (Hr ltac:(discriminate)) | destruct Hm as (? & ? & ? & ? & _); congruence ].

Lemma inspect_free_space_nil target d :
  inspect_free_space target d [] = [] <-> free_space_safe target d.
Proof.
  unfold inspect_free_space, free_space_safe, geometry_invalid. cbv zeta.
  destruct (tg_free_region target) as [r|], (tg_planned_partition_geometry target) as [g|].
  2-4: rewrite add_reason_nil; split; [tauto|]; intros (? & ? & ? & ? & _); congruence.
  rewrite !reason_if_nil, negb_false_iff, bool_decide_eq_true, !orb_false_iff, !Z.eqb_neq,
    !Z.ltb_ge, Z.leb_gt. split.
  - intros ((_ & Hr) & ((((? & ?) & ?) & ?) & ?)). exists r, g. split_and!; try done; lia.
  - intros (r' & g' & [= <-] & [= <-] & ? & ? & ? & ? & ? & ?). split_and!; try done; lia.
Qed.

Lemma probe_nil (o : option string) l :
  match o with Some r => add_reason r l | None => l end = [] <-> l = [] /\ o = None.
Proof. destruct o; rewrite ?add_reason_nil; naive_solver. Qed.

(** The inspection before a device is changed refines [target_safe]: it gives no reason
    against exactly when the devices could be scanned and the device and what the mode
    touches are the ones recorded, unchanged, writable and unused, the planned partition
    lies inside its free region, and the node can be opened exclusively. *)
Theorem inspect_destructive_refines scan probe expected target :
  inspect_destructive scan probe expected target = [] <->
  exists t, scan = Ok t /\ target_safe t probe expected target.
Proof.
  unfold inspect_destructive, target_safe. destruct scan as [t|e].
  2:{ destruct (negb _); rewrite ?probe_nil, ?add_reason_nil;
      (split; [tauto|intros (t & Ht & _); discriminate Ht]). }
  transitivity (target_safe t probe expected target).
  2:{ split; [intros Hs; exists t; by split|intros (t' & [= <-] & Hs); exact Hs]. }
  unfold target_safe, inspect_topology.
  destruct (find_if _ _) as [d|];
    [|destruct (negb _); rewrite ?probe_nil, ?add_reason_nil;
      (split; [tauto|intros (d & Hd & _); discriminate Hd])].
  destruct (_ || _ || _ || _) eqn:Ed.
  { destruct (negb (bool_decide (tg_mode target = AdoptExistingTarget)));
      rewrite ?probe_nil, ?add_reason_nil; (split; [tauto|]); intros (d' & [= <-] & H1 & H2 & H3 & H4 & _);
      rewrite (proj2 (same_identity_eq _ _) H1), H2, H3, H4 in Ed;
      rewrite !Z.eqb_refl, bool_decide_eq_true_2 in Ed by done; done. }
  rewrite !orb_false_iff, !negb_false_iff, same_identity_eq, !Z.eqb_eq, bool_decide_eq_true in Ed.
  destruct Ed as (((? & ?) & ?) & ?).
  transitivity (mode_safe d probe expected target).
  2:{ split; [intros [Hr Hm]; exists d; by split_and!|].
      intros (d' & [= <-] & _ & _ & _ & _ & Hs). exact Hs. }
  unfold mode_safe.
  destruct (tg_mode target) eqn:Em; decide_modes.
  - rewrite andb_true_r. destruct (sd_read_only d); [rewrite probe_nil, add_reason_nil; unsafe|].
    rewrite probe_nil, (fold_reasons_nil _ (λ p, unused (ep_blockers p) (ep_mount_points p)
      (ep_holders p) (ep_active_swap p))), add_user_reasons_nil
      by (intros; apply add_user_reasons_nil). unfold device_unused, partitions. tauto.
  - rewrite andb_true_r. destruct (sd_read_only d); [rewrite probe_nil, add_reason_nil; unsafe|].
    destruct (tg_partition target) as [p|]; [|rewrite probe_nil, add_reason_nil; unsafe].
    rewrite probe_nil. destruct (find_partition d (ep_partition_number p)) as [c|] eqn:Ef;
      [|rewrite add_reason_nil; unsafe].
    rewrite inspect_partition_nil. split.
    + intros. destruct_and?. split; [done|]. exists p, c. by split_and!.
    + intros (_ & p' & c' & [= <-] & Hc & Hs & Hi & Hp). rewrite Ef in Hc. injection Hc as <-. auto.
  - rewrite andb_true_r. destruct (sd_read_only d); [rewrite probe_nil, add_reason_nil; unsafe|].
    rewrite probe_nil, (fold_reasons_nil _ (λ p, unused (ep_blockers p) (ep_mount_points p)
      (ep_holders p) (ep_active_swap p))), add_user_reasons_nil, inspect_free_space_nil
      by (intros; apply add_user_reasons_nil). unfold device_unused, partitions. tauto.
  - rewrite andb_false_r.
    destruct (tg_partition target) as [p|]; [|rewrite add_reason_nil; unsafe].
    destruct (find_partition d (ep_partition_number p)) as [c|] eqn:Ef;
      [|rewrite add_reason_nil; unsafe].
    rewrite inspect_partition_nil. split.
    + intros. destruct_and?. split; [done|]. exists p, c. by split_and!.
    + intros (_ & p' & c' & [= <-] & Hc & Hs & Hi & Hp). rewrite Ef in Hc. injection Hc as <-. auto.
Qed.
