(* ===== verification/Interaction.v ===== *)
(** * Programs that call collaborators and share state under a mutex

    The daemon's services call the interfaces they are given and keep their own state
    behind a mutex.  A program is a tree: a call continues with whatever it answers, and at
    [Lock] it sees what other threads have made of the state since; until the next [Lock]
    the state is its own.  [run] evaluates a program in an environment that answers the
    calls and changes the state between locked sections; [wp] is what holds of the trace,
    the result and the state in every environment. *)

From S2P Require Import Prelude Errors.

Inductive prog (S : Type) (Op : Type -> Type) (A : Type) : Type :=
| Done (r : res A)
| Call {X : Type} (o : Op X) (k : res X -> prog S Op A)
| Lock (k : S -> prog S Op A)
| Store (s : S) (k : prog S Op A).
Arguments Done {S Op A} r.
Arguments Call {S Op A X} o k.
Arguments Lock {S Op A} k.
Arguments Store {S Op A} s k.

(** What is recorded of an execution: calls with their answers, the state found when the
    mutex was taken, and changes of the state. *)
Inductive entry (S : Type) (Op : Type -> Type) : Type :=
| Did {X : Type} (o : Op X) (r : res X)
| Locked (s : S)
| Stored (s s' : S).
Arguments Did {S Op X} o r.
Arguments Locked {S Op} s.
Arguments Stored {S Op} s s'.

Section prog.
Context {S : Type} {Op : Type -> Type}.
Abbreviation P := (prog S Op).
Abbreviation E := (entry S Op).

Fixpoint prog_bind_def {A B} (f : A -> P B) (m : P A) : P B :=
  match m with
  | Done (Ok a) => f a
  | Done (Throw e) => Done (Throw e)
  | Call o k => Call o (λ r, prog_bind_def f (k r))
  | Lock k => Lock (λ s, prog_bind_def f (k s))
  | Store s k => Store s (prog_bind_def f k)
  end.

Global Instance prog_ret : MRet P := λ A a, Done (Ok a).
Global Instance prog_bind : MBind P := λ A B f m, prog_bind_def f m.

(** [try { m } catch (...) { h e }]; a handler that does not match rethrows. *)
Fixpoint catch {A} (m : P A) (h : exn -> P A) : P A :=
  match m with
  | Done (Ok a) => Done (Ok a)
  | Done (Throw e) => h e
  | Call o k => Call o (λ r, catch (k r) h)
  | Lock k => Lock (λ s, catch (k s) h)
  | Store s k => Store s (catch k h)
  end.

Definition call {X} (o : Op X) : P X := Call o Done.
Definition lift {A} (r : res A) : P A := Done r.
Definition raise {A} (e : exn) : P A := Done (Throw e).
Definition put (s : S) : P unit := Store s (mret tt).

(** ** Evaluation *)

(** Answers to the calls, and what other threads do while the mutex is free, as functions
    of a world [W]. *)
Record Env (W : Type) := mkEnv {
  env_call : forall X, Op X -> W -> res X * W;
  env_others : W -> S -> S * W;
}.
Arguments env_call {W} _ {X} _ _.
Arguments env_others {W} _ _ _.

Fixpoint run {W A} (env : Env W) (m : P A) (w : W) (s : S) : res A * S * list E :=
  match m with
  | Done r => (r, s, [])
  | Call o k =>
      let '(r, w) := env_call env o w in
      let '(a, s', t) := run env (k r) w s in (a, s', Did o r :: t)
  | Lock k =>
      let '(s1, w) := env_others env w s in
      let '(a, s', t) := run env (k s1) w s1 in (a, s', Locked s1 :: t)
  | Store s1 k =>
      let '(a, s', t) := run env k w s1 in (a, s', Stored s s1 :: t)
  end.

(** ** Reasoning *)

Section wp.
(** What a call may answer and what the other threads may do. *)
Context (answers : forall X, Op X -> res X -> Prop) (rely : S -> S -> Prop).

Fixpoint wp {A} (m : P A) (Φ : list E -> res A -> S -> Prop) (t : list E) (s : S) : Prop :=
  match m with
  | Done r => Φ t r s
  | Call o k => forall r, answers _ o r -> wp (k r) Φ (t ++ [Did o r]) s
  | Lock k => forall s1, rely s s1 -> wp (k s1) Φ (t ++ [Locked s1]) s1
  | Store s1 k => wp k Φ (t ++ [Stored s s1]) s1
  end.

Lemma prog_wp_mono {A} (m : P A) (Φ Ψ : list E -> res A -> S -> Prop) t s :
  (forall t' r s', Φ t' r s' -> Ψ t' r s') -> wp m Φ t s -> wp m Ψ t s.
Proof. intros H. revert t s. induction m; cbn; intuition eauto. Qed.

Lemma prog_wp_bind {A B} (m : P A) (f : A -> P B) Φ t s :
  wp (m ≫= f) Φ t s <->
  wp m (λ t' r s', match r with Ok a => wp (f a) Φ t' s' | Throw e => Φ t' (Throw e) s' end) t s.
Proof.
  revert t s. induction m as [[a|e]|X o k IH|k IH|s1 k IH]; intros t s; cbn; try done.
  - split; intros H r Hr; apply IH, H, Hr.
  - split; intros H s1 Hs; apply IH, H, Hs.
Qed.

Lemma wp_assoc {A B C} (m : P A) (g : A -> P B) (f : B -> P C) Φ t s :
  wp ((m ≫= g) ≫= f) Φ t s <-> wp (m ≫= λ a, g a ≫= f) Φ t s.
Proof.
  rewrite !prog_wp_bind. split; apply prog_wp_mono; intros t' [a|e] s'; try done; by rewrite prog_wp_bind.
Qed.

Lemma wp_catch {A} (m : P A) h Φ t s :
  wp (catch m h) Φ t s <->
  wp m (λ t' r s', match r with Ok a => Φ t' (Ok a) s' | Throw e => wp (h e) Φ t' s' end) t s.
Proof.
  revert t s. induction m as [[a|e]|X o k IH|k IH|s1 k IH]; intros t s; cbn; try done.
  - split; intros H r Hr; apply IH, H, Hr.
  - split; intros H s1 Hs; apply IH, H, Hs.
Qed.

(** An environment that does what is assumed of it. *)
Definition env_ok {W} (env : Env W) : Prop :=
  (forall X (o : Op X) w, answers _ o (env_call env o w).1) /\
  (forall w s, rely s (env_others env w s).1).

Lemma prog_wp_run {W A} (env : Env W) (m : P A) Φ w s :
  env_ok env -> wp m Φ [] s -> Φ (run env m w s).2 (run env m w s).1.1 (run env m w s).1.2.
Proof.
  intros [Hc Ho].
  enough (H : forall t, wp m Φ t s ->
    Φ (t ++ (run env m w s).2) (run env m w s).1.1 (run env m w s).1.2) by apply H.
  revert w s. induction m as [r|X o k IH|k IH|s1 k IH]; intros w s t; cbn.
  - by rewrite app_nil_r.
  - intros H. specialize (Hc _ o w). destruct (env_call env o w) as [r w'] eqn:Ec.
    specialize (IH r w' s _ (H r Hc)). destruct (run env (k r) w' s) as [[? ?] ?]. cbn in *.
    by rewrite <-app_assoc in IH.
  - intros H. specialize (Ho w s). destruct (env_others env w s) as [s1 w'] eqn:Eo.
    specialize (IH s1 w' s1 _ (H s1 Ho)). destruct (run env (k s1) w' s1) as [[? ?] ?]. cbn in *.
    by rewrite <-app_assoc in IH.
  - intros H. specialize (IH w s1 _ H). destruct (run env k w s1) as [[? ?] ?]. cbn in *.
    by rewrite <-app_assoc in IH.
Qed.

(** Every new entry of the trace satisfies [Q], and every result [R]. *)
Definition entries {A} (Q : E -> Prop) (R : A -> Prop) (m : P A) : Prop :=
  forall t s, wp m (λ t' r _, (exists u, t' = t ++ u /\ Forall Q u) /\
                              forall a, r = Ok a -> R a) t s.

Lemma entries_ret {A} Q (R : A -> Prop) a : R a -> entries Q R (mret a).
Proof.
  intros H t s. cbn. split; [|by intros ? [= <-]]. exists []. by rewrite app_nil_r.
Qed.

Lemma entries_lift {A} Q (R : A -> Prop) r : (forall a, r = Ok a -> R a) -> entries Q R (lift r).
Proof. intros H t s. cbn. split; [|done]. exists []. by rewrite app_nil_r. Qed.

Lemma entries_raise {A} Q (R : A -> Prop) e : entries Q R (raise e).
Proof. by apply entries_lift. Qed.

Lemma entries_call {X} Q (R : X -> Prop) (o : Op X) :
  (forall r, answers _ o r -> Q (Did o r)) -> (forall a, answers _ o (Ok a) -> R a) ->
  entries Q R (call o).
Proof.
  intros HQ HR t s. cbn. intros r Hr. split; [exists [Did o r]; auto|]. intros a ->. auto.
Qed.

Lemma entries_bind {A B} Q (R : A -> Prop) (R' : B -> Prop) (m : P A) (f : A -> P B) :
  entries Q R m -> (forall a, R a -> entries Q R' (f a)) -> entries Q R' (m ≫= f).
Proof.
  intros Hm Hf t s. rewrite prog_wp_bind. eapply prog_wp_mono; [|apply Hm]. cbn.
  intros t' [a|e] s' [(u & -> & Hu) Ha]; [|split; [eauto|done]].
  eapply prog_wp_mono; [|apply Hf, Ha; done]. cbn. intros t'' r s'' [(v & -> & Hv) ?].
  split; [|done]. exists (u ++ v). rewrite app_assoc. split; [done|]. by apply Forall_app.
Qed.

Lemma entries_lock {A} Q (R : A -> Prop) k :
  (forall s, Q (Locked s)) -> (forall s, entries Q R (k s)) -> entries Q R (Lock k).
Proof.
  intros HQ Hk t s. cbn. intros s1 _. eapply prog_wp_mono; [|apply Hk]. cbn.
  intros t' r s' [(u & -> & Hu) ?]. split; [|done]. exists (Locked s1 :: u).
  rewrite <-app_assoc. by split; [|constructor].
Qed.

Lemma entries_store {A} Q (R : A -> Prop) s1 k :
  (forall s, Q (Stored s s1)) -> entries Q R k -> entries Q R (Store s1 k).
Proof.
  intros HQ Hk t s. cbn. eapply prog_wp_mono; [|apply Hk]. cbn.
  intros t' r s' [(u & -> & Hu) ?]. split; [|done]. exists (Stored s s1 :: u).
  rewrite <-app_assoc. by split; [|constructor].
Qed.

Lemma entries_put Q s1 : (forall s, Q (Stored s s1)) -> entries Q (λ _, True) (put s1).
Proof. intros HQ. by apply entries_store, entries_ret. Qed.

Lemma entries_catch {A} Q (R : A -> Prop) (m : P A) h :
  entries Q R m -> (forall e, entries Q R (h e)) -> entries Q R (catch m h).
Proof.
  intros Hm Hh t s. rewrite wp_catch. eapply prog_wp_mono; [|apply Hm]. cbn.
  intros t' [a|e] s' [(u & -> & Hu) Ha]; [split; [eauto|done]|].
  eapply prog_wp_mono; [|apply Hh]. cbn. intros t'' r s'' [(v & -> & Hv) ?].
  split; [|done]. exists (u ++ v). rewrite app_assoc. split; [done|]. by apply Forall_app.
Qed.

Lemma wp_entries {A B} Q R (m : P A) (f : A -> P B) Φ t s :
  entries Q R m -> (forall e u s', Forall Q u -> Φ (t ++ u) (Throw e) s') ->
  (forall a u s', R a -> Forall Q u -> wp (f a) Φ (t ++ u) s') -> wp (m ≫= f) Φ t s.
Proof.
  intros Hm He Hf. rewrite prog_wp_bind. eapply prog_wp_mono; [|apply Hm]. cbn.
  intros t' [a|e] s' [(u & -> & Hu) Ha]; [apply Hf|apply He]; auto.
Qed.

(** The trace only grows. *)
Lemma wp_extends {A} (m : P A) Φ t s :
  wp m Φ t s -> wp m (λ t' r s', Φ t' r s' /\ exists u, t' = t ++ u) t s.
Proof.
  revert t s. induction m as [r|X o k IH|k IH|s1 k IH]; intros t s; cbn.
  - intros H. split; [done|]. exists []. by rewrite app_nil_r.
  - intros H r Hr. eapply prog_wp_mono; [|by apply IH, H]. cbn. intros t' a s' [HΦ [u ->]].
    split; [done|]. exists (Did o r :: u). by rewrite <-app_assoc.
  - intros H s1 Hs. eapply prog_wp_mono; [|by apply IH, H]. cbn. intros t' a s' [HΦ [u ->]].
    split; [done|]. exists (Locked s1 :: u). by rewrite <-app_assoc.
  - intros H. eapply prog_wp_mono; [|by apply IH, H]. cbn. intros t' a s' [HΦ [u ->]].
    split; [done|]. exists (Stored s s1 :: u). by rewrite <-app_assoc.
Qed.

(** Only calls, no change of the state. *)
Definition only_call (e : E) : Prop := match e with Did _ _ => True | _ => False end.

Lemma wp_state {A} (m : P A) Φ t s :
  wp m (λ t' r _, Φ t' r /\ exists u, t' = t ++ u /\ Forall only_call u) t s ->
  wp m (λ t' r s', Φ t' r /\ (exists u, t' = t ++ u /\ Forall only_call u) /\ s' = s) t s.
Proof.
  revert t s. induction m as [r|X o k IH|k IH|s1 k IH]; intros t s; cbn.
  - intros [? ?]. by split_and!.
  - intros H r Hr. specialize (H r Hr). apply wp_extends in H.
    assert (H' : wp (k r) (λ t' a _, Φ t' a /\
      exists u, t' = (t ++ [Did o r]) ++ u /\ Forall only_call u) (t ++ [Did o r]) s).
    { eapply prog_wp_mono; [|exact H]. cbn. intros t' a _ [[? (u & Hu & Hf)] [v ->]]. split; [done|].
      exists v. split; [done|]. rewrite <-app_assoc in Hu. apply app_inv_head in Hu. subst u.
      by inversion Hf. }
    eapply prog_wp_mono; [|apply IH, H']. cbn. intros t' a s' (? & (u & -> & Hu) & ->).
    split_and!; try done. exists (Did o r :: u). rewrite <-app_assoc. split; [done|]. by constructor.
  - intros H s1 Hs. eapply prog_wp_mono; [|apply wp_extends, (H s1 Hs)]. cbn.
    intros t' a s' [[_ (u & Hu & Hf)] [v ->]]. rewrite <-app_assoc in Hu. apply app_inv_head in Hu.
    subst u. by inversion Hf.
  - intros H. eapply prog_wp_mono; [|apply wp_extends, H]. cbn.
    intros t' a s' [[_ (u & Hu & Hf)] [v ->]]. rewrite <-app_assoc in Hu. apply app_inv_head in Hu.
    subst u. by inversion Hf.
Qed.

Lemma entries_state {A} (R : A -> Prop) (m : P A) t s :
  entries only_call R m ->
  wp m (λ t' r s', (forall a, r = Ok a -> R a) /\ (exists u, t' = t ++ u /\ Forall only_call u) /\
                   s' = s) t s.
Proof.
  intros H. apply (wp_state m (λ _ r, forall a, r = Ok a -> R a)).
  eapply prog_wp_mono; [|apply H]. cbn. tauto.
Qed.

Lemma entries_mono {A} (Q Q' : E -> Prop) (R R' : A -> Prop) (m : P A) :
  (forall e, Q e -> Q' e) -> (forall a, R a -> R' a) -> entries Q R m -> entries Q' R' m.
Proof.
  intros HQ HR Hm t s. eapply prog_wp_mono; [|apply Hm]. cbn. intros t' r s' [(u & -> & Hu) Ha].
  split; [|auto]. exists u. split; [done|]. eapply Forall_impl; eauto.
Qed.
End wp.
End prog.

(** Decomposes a claim on the entries of a program, branching where it branches. *)
Ltac entries_step :=
  lazymatch goal with
  | |- entries _ _ _ _ (mbind _ _) => eapply (entries_bind _ _ _ (λ _, True)); [|intros ? _]
  | |- entries _ _ _ _ (mret _) => apply entries_ret
  | |- entries _ _ _ _ (Done _) => apply entries_lift
  | |- entries _ _ _ _ (lift _) => apply entries_lift
  | |- entries _ _ _ _ (raise _) => apply entries_raise
  | |- entries _ _ _ _ (call _) => apply entries_call
  | |- entries _ _ _ _ (put _) => apply entries_put
  | |- entries _ _ _ _ (catch _ _) => apply entries_catch; [|intros ?]
  | |- entries _ _ _ _ (Lock _) => apply entries_lock; [|intros ?]
  | |- entries _ _ _ _ (Store _ _) => apply entries_store
  | |- entries _ _ _ _ (let x := _ in _) => cbv zeta
  | |- entries _ _ _ _ (match ?x with _ => _ end) => destruct x
  end.

Arguments env_call {S Op W} _ {X} _ _.
Arguments env_others {S Op W} _ _ _.
Arguments mkEnv {S Op W} _ _.

(** Nothing is assumed of the environment. *)
Definition any_answer {Op : Type -> Type} X (o : Op X) (r : res X) : Prop := True.
Definition any_change {S} (s s' : S) : Prop := True.

Lemma any_env_ok {S Op W} (env : @Env S Op W) : env_ok any_answer any_change env.
Proof. done. Qed.

(** ** Orders of events *)

(** Every entry stands in [Q] to what comes before it. *)
Definition ordered {S Op} (Q : list (entry S Op) -> entry S Op -> Prop)
    (t : list (entry S Op)) : Prop :=
  forall pre e post, t = pre ++ e :: post -> Q pre e.

Lemma ordered_nil {S Op} (Q : list (entry S Op) -> entry S Op -> Prop) : ordered Q [].
Proof. intros [] ? ? [=]. Qed.

Lemma ordered_snoc {S Op} (Q : list (entry S Op) -> entry S Op -> Prop) t e :
  ordered Q (t ++ [e]) <-> ordered Q t /\ Q t e.
Proof.
  split.
  - intros H. split; [|by apply (H t e [])]. intros pre x post ->.
    apply (H pre x (post ++ [e])). by rewrite <-app_assoc.
  - intros [H He] pre x post. destruct post as [|y post _] using rev_ind.
    + intros [-> [= ->]]%app_inj_tail. exact He.
    + rewrite app_comm_cons, app_assoc. intros [-> _]%app_inj_tail. by apply (H pre x post).
Qed.

Create Rewrite HintDb trace.
Lemma ordered_app {S Op} (Q : list (entry S Op) -> entry S Op -> Prop) t u :
  ordered Q t -> Forall (λ e, forall pre, Q pre e) u -> ordered Q (t ++ u).
Proof.
  intros Ht Hu. induction u as [|e u IH] using rev_ind; [by rewrite app_nil_r|].
  apply Forall_app in Hu as [Hu He]. rewrite app_assoc, ordered_snoc. split; [by apply IH|].
  inversion He. auto.
Qed.

#[export] Hint Rewrite @ordered_snoc : trace.
#[export] Hint Resolve ordered_nil : core.

(** ** Programs of one thread *)

(** The calls an execution made, with their answers. *)
Definition is_call {S Op} (e : entry S Op) : bool := match e with Did _ _ => true | _ => false end.
Definition calls {S Op} (t : list (entry S Op)) : list (entry S Op) := filter is_call t.

Section sequential.
Context {S : Type} {Op : Type -> Type} {answers : forall X, Op X -> res X -> Prop}.

(** What holds of the calls, the result and the state, when no other thread changes the state. *)
Fixpoint solo {A} (m : prog S Op A) (Φ : list (entry S Op) -> res A -> S -> Prop) (s : S) : Prop :=
  match m with
  | Done r => Φ [] r s
  | Call o k => forall r, answers _ o r -> solo (k r) (λ c, Φ (Did o r :: c)) s
  | Lock k => solo (k s) Φ s
  | Store s1 k => solo k Φ s1
  end.

Lemma solo_mono {A} (m : prog S Op A) (Φ Ψ : list (entry S Op) -> res A -> S -> Prop) s :
  (forall c r s', Φ c r s' -> Ψ c r s') -> solo m Φ s -> solo m Ψ s.
Proof.
  revert Φ Ψ s. induction m as [r|X o k IH|k IH|s1 k IH]; cbn; intros Φ Ψ s H; eauto.
  intros Hm r Hr. eapply IH; [|by apply Hm]. cbn. eauto.
Qed.

Lemma solo_bind {A B} (m : prog S Op A) (f : A -> prog S Op B) Φ s :
  solo m (λ c r s', match r with
                   | Ok a => solo (f a) (λ c', Φ (c ++ c')) s'
                   | Throw e => Φ c (Throw e) s'
                   end) s -> solo (m ≫= f) Φ s.
Proof. revert Φ s. induction m as [[a|e]|X o k IH|k IH|s1 k IH]; cbn; intros Φ s H; eauto. Qed.

Lemma solo_catch {A} (m : prog S Op A) h Φ s :
  solo m (λ c r s', match r with
                   | Ok a => Φ c (Ok a) s'
                   | Throw e => solo (h e) (λ c', Φ (c ++ c')) s'
                   end) s -> solo (catch m h) Φ s.
Proof. revert Φ s. induction m as [[a|e]|X o k IH|k IH|s1 k IH]; cbn; intros Φ s H; eauto. Qed.

(** What [solo] shows holds of every execution. *)
Lemma solo_run {W A} (env : Env W) (m : prog S Op A) Φ w s :
  env_ok answers eq env -> solo m Φ s ->
  Φ (calls (run env m w s).2) (run env m w s).1.1 (run env m w s).1.2.
Proof.
  intros [Hc Ho]. revert Φ w s. induction m as [r|X o k IH|k IH|s1 k IH]; cbn; intros Φ w s H.
  - done.
  - specialize (Hc _ o w). destruct (env_call env o w) as [r w'].
    specialize (IH r (λ c, Φ (Did o r :: c)) w' s (H r Hc)).
    destruct (run env (k r) w' s) as [[a s'] t]. done.
  - specialize (Ho w s). destruct (env_others env w s) as [s1 w']. cbn in Ho. subst s1.
    specialize (IH s Φ w' s H). by destruct (run env (k s) w' s) as [[a s'] t].
  - specialize (IH Φ w s1 H). by destruct (run env k w s1) as [[a s'] t].
Qed.
End sequential.
Arguments solo {S Op} answers {A} m Φ s.

(** Runs a program symbolically: every branch ends with a concrete trace. *)
Ltac symbolic :=
  repeat (first
    [ progress cbn -[ordered app]
    | match goal with
      | |- forall _, _ => intros ?
      | |- context [match ?x with _ => _ end] => is_var x; destruct x
      | |- context [if negb ?b then _ else _] => destruct b
      | |- context [match ?x with Ok _ => _ | Throw _ => _ end] => destruct x eqn:?
      | |- context [if ?b then _ else _] => destruct b eqn:?
      end ]).
