(* ===== verification/ManagerAuthorization.v ===== *)
(** * Authorisation of the manager's methods and the operational control service
      (src/daemon/control/OperationalControlService)

    Which authorisation a method of the D-Bus manager asks for, and the service that
    starts, cancels, validates and ejects after it has obtained the authorisation. *)

From S2P Require Import Prelude Errors Identifiers Interaction.

(** src/daemon/control/OperationalControlService.hpp:19-30 *)
Inductive ManagerAuthorizationAction :=
| StartBackup | CancelBackup | ValidateTarget | EjectTarget
| ManageProfileConfiguration | DeleteProfileConfiguration | SetProfileEnabled
| OpenBrowseSession | ManageTargetCredentials | PrepareBackupDevice.

Global Instance ManagerAuthorizationAction_eq_dec : EqDecision ManagerAuthorizationAction.
Proof. solve_decision. Defined.

(** src/daemon/control/OperationalControlService.cpp:32-56 *)
Definition manager_authorization_action_id (action : ManagerAuthorizationAction) : string :=
  match action with
  | StartBackup => "io.github.btrfsbackup.start-backup"
  | CancelBackup => "io.github.btrfsbackup.cancel-backup"
  | ValidateTarget => "io.github.btrfsbackup.validate-target"
  | EjectTarget => "io.github.btrfsbackup.eject-target"
  | ManageProfileConfiguration => "io.github.btrfsbackup.manage-profile-configuration"
  | DeleteProfileConfiguration => "io.github.btrfsbackup.delete-profile-configuration"
  | SetProfileEnabled => "io.github.btrfsbackup.set-profile-enabled"
  | OpenBrowseSession => "io.github.btrfsbackup.open-browse-session"
  | ManageTargetCredentials => "io.github.btrfsbackup.manage-target-credentials"
  | PrepareBackupDevice => "io.github.btrfsbackup.prepare-backup-device"
  end.

(** The methods with the names of the protocol.
    src/daemon/control/OperationalControlService.cpp:61-84 *)
Definition method_actions : list (string * ManagerAuthorizationAction) :=
  [("StartBackup", StartBackup); ("CancelBackup", CancelBackup);
   ("ValidateTarget", ValidateTarget); ("EjectTarget", EjectTarget);
   ("UpdateProfileSettings", ManageProfileConfiguration);
   ("AddProfileSource", ManageProfileConfiguration);
   ("UpdateProfileSource", ManageProfileConfiguration);
   ("RemoveProfileSource", ManageProfileConfiguration);
   ("DeleteProfile", DeleteProfileConfiguration);
   ("RetireUnsupportedProfile", DeleteProfileConfiguration);
   ("SetProfileEnabled", SetProfileEnabled); ("OpenBrowseSession", OpenBrowseSession);
   ("AddTargetPassphrase", ManageTargetCredentials); ("AddTargetKey", ManageTargetCredentials);
   ("GenerateTargetKey", ManageTargetCredentials);
   ("RemoveTargetCredential", ManageTargetCredentials);
   ("StartDevicePreparation", PrepareBackupDevice);
   ("GetDevicePreparation", PrepareBackupDevice);
   ("CancelDevicePreparation", PrepareBackupDevice)].

(** src/daemon/control/OperationalControlService.cpp:58-89 *)
Definition manager_method_authorization_action (method : string)
    : option ManagerAuthorizationAction :=
  snd <$> find_if (λ ma, (method =? ma.1)%string) method_actions.

(** ** The operational control service *)

(** src/daemon/control/OperationalControlService.hpp:32-36 *)
Inductive ManagerCancellationOutcome := Accepted | StaleRun | OutcomeRunMismatch.

(** src/daemon/control/OperationalControlService.hpp:38-43 *)
Record OperationalResourceVersion := mkVersion { rv_generation : string; rv_fingerprint : string }.

(** src/daemon/control/OperationalControlService.hpp:45-50 *)
Record AuthorizedOperationContext := mkAuthorized {
  ac_profile_id : ProfileId;
  ac_generation : string;
  ac_fingerprint : string;
  ac_operation_id : OperationId;
}.

(** src/daemon/ManagerResponseModels.hpp:79-85 *)
Record OperationResult := mkResult {
  or_operation : string;
  or_operation_id : string;
  or_profile_id : string;
  or_run_id : string;
  or_accepted : bool;
}.

(** The authorizer, the backend and the functions the service is given. *)
Inductive ControlOp : Type -> Type :=
| Authorize (caller : string) (action : ManagerAuthorizationAction) : ControlOp bool
| CallerIsActive (caller : string) : ControlOp bool
| InspectProfile (profile_id : ProfileId) : ControlOp OperationalResourceVersion
| OperationIds : ControlOp OperationId
| BackendStartBackup (context : AuthorizedOperationContext) : ControlOp unit
| BackendCancelBackup (run_id : RunId) (context : AuthorizedOperationContext)
    : ControlOp ManagerCancellationOutcome
| BackendValidateTarget (context : AuthorizedOperationContext) : ControlOp unit
| BackendEjectTarget (context : AuthorizedOperationContext) : ControlOp unit
| PrepareTargetEject (profile_id : ProfileId) : ControlOp unit
| CompleteTargetEject (profile_id : ProfileId) : ControlOp unit.

(** The service has no state of its own. *)
Abbreviation Control := (prog unit ControlOp).

(** src/daemon/control/OperationalControlService.cpp:104-114 *)
Definition require_authorized (caller_bus_name : string) (action : ManagerAuthorizationAction)
    : Control unit :=
  let denied : Control unit :=
    raise (ManagerOperationError NotAuthorized "manager operation was not authorized") in
  if str_empty caller_bus_name then denied
  else
    authorized ← call (Authorize caller_bus_name action);
    if negb authorized then denied
    else
      active ← call (CallerIsActive caller_bus_name);
      if negb active then denied else mret tt.

(** src/daemon/control/OperationalControlService.cpp:116-126 *)
Definition authorized_context (profile_id : ProfileId) (version : OperationalResourceVersion)
    : Control AuthorizedOperationContext :=
  operation_id ← call OperationIds;
  mret (mkAuthorized profile_id (rv_generation version) (rv_fingerprint version) operation_id).

(** What the operations do before they act. *)
Definition prepared (caller profile_id : string) (action : ManagerAuthorizationAction)
    : Control AuthorizedOperationContext :=
  validated_profile ← lift (make_ident KProfile profile_id);
  version ← call (InspectProfile validated_profile);
  _ ← require_authorized caller action;
  authorized_context validated_profile version.

Definition operation_result (operation : string) (context : AuthorizedOperationContext)
    (profile_id run_id : string) : OperationResult :=
  mkResult operation (id_value (ac_operation_id context)) profile_id run_id true.

(** src/daemon/control/OperationalControlService.cpp:128-144 *)
Definition start_backup (caller_bus_name profile_id : string) : Control OperationResult :=
  context ← prepared caller_bus_name profile_id StartBackup;
  _ ← call (BackendStartBackup context);
  mret (operation_result "start-backup" context profile_id "").

(** src/daemon/control/OperationalControlService.cpp:146-170 *)
Definition cancel_backup (caller_bus_name profile_id run_id : string) : Control OperationResult :=
  validated_profile ← lift (make_ident KProfile profile_id);
  validated_run ← lift (make_ident KRun run_id);
  version ← call (InspectProfile validated_profile);
  _ ← require_authorized caller_bus_name CancelBackup;
  context ← authorized_context validated_profile version;
  outcome ← call (BackendCancelBackup validated_run context);
  match outcome with
  | Accepted => mret (operation_result "cancel-backup" context profile_id run_id)
  | StaleRun => raise (ManagerOperationError NotFound "backup run is no longer active")
  | OutcomeRunMismatch =>
      raise (ManagerOperationError RunMismatch "a different backup run is active")
  end.

(** src/daemon/control/OperationalControlService.cpp:172-188 *)
Definition validate_target (caller_bus_name profile_id : string) : Control OperationResult :=
  context ← prepared caller_bus_name profile_id ValidateTarget;
  _ ← call (BackendValidateTarget context);
  mret (operation_result "validate-target" context profile_id "").

(** [prepare] and [complete] are whether the callbacks are set.
    src/daemon/control/OperationalControlService.cpp:190-221 *)
Definition eject_target (prepare complete : bool) (caller_bus_name profile_id : string)
    : Control OperationResult :=
  context ← prepared caller_bus_name profile_id EjectTarget;
  _ ← (if prepare then call (PrepareTargetEject (ac_profile_id context)) else mret tt);
  let complete_eject : Control unit :=
    if complete
    then catch (call (CompleteTargetEject (ac_profile_id context))) (λ _, mret tt)
    else mret tt in
  _ ← catch (call (BackendEjectTarget context)) (λ e, _ ← complete_eject; raise e);
  _ ← complete_eject;
  mret (operation_result "eject-target" context profile_id "").

(** ** What the service guarantees *)

(** A request to the service. *)
Inductive ControlRequest :=
| RequestStart (profile_id : string)
| RequestCancel (profile_id run_id : string)
| RequestValidate (profile_id : string)
| RequestEject (prepare complete : bool) (profile_id : string).

Definition control_request (caller : string) (request : ControlRequest) : Control OperationResult :=
  match request with
  | RequestStart profile_id => start_backup caller profile_id
  | RequestCancel profile_id run_id => cancel_backup caller profile_id run_id
  | RequestValidate profile_id => validate_target caller profile_id
  | RequestEject prepare complete profile_id => eject_target prepare complete caller profile_id
  end.

(** The action that acting on the backend requires, and the context it was given. *)
Definition acts {X} (o : ControlOp X) : option (ManagerAuthorizationAction * AuthorizedOperationContext) :=
  match o with
  | BackendStartBackup context => Some (StartBackup, context)
  | BackendCancelBackup _ context => Some (CancelBackup, context)
  | BackendValidateTarget context => Some (ValidateTarget, context)
  | BackendEjectTarget context => Some (EjectTarget, context)
  | _ => None
  end.

(** An act on the backend comes after the polkit action of the request was granted to the
    caller, who was then still connected, and concerns the profile at the version that was
    inspected. *)
Definition authorised_act (caller : string) (pre : list (entry unit ControlOp))
    (e : entry unit ControlOp) : Prop :=
  match e with
  | Did o _ =>
      forall action context, acts o = Some (action, context) ->
      exists before between version,
        pre = before ++ [Did (InspectProfile (ac_profile_id context)) (Ok version);
                         Did (Authorize caller action) (Ok true);
                         Did (CallerIsActive caller) (Ok true)] ++ between /\
        ac_generation context = rv_generation version /\
        ac_fingerprint context = rv_fingerprint version
  | _ => True
  end.

Ltac authorised :=
  autorewrite with trace; repeat split; auto; cbn; intros; simplify_eq;
  eexists [], _, _; (split; [reflexivity|done]).

Lemma control_request_wp caller request s :
  wp any_answer any_change (control_request caller request)
    (λ t _ _, ordered (authorised_act caller) t) [] s.
Proof.
  destruct request; unfold control_request, start_backup, cancel_backup, validate_target,
    eject_target, prepared, require_authorized, authorized_context; symbolic; authorised.
Qed.

(** C35.  Whatever the authorizer, the backend and the callbacks answer, a request starts,
    cancels, validates or ejects only after the authorisation of that very action was
    granted to the caller and the caller was found connected afterwards, and it names the
    configuration generation and fingerprint found when the profile was inspected. *)
Theorem control_acts_authorised {W} (env : Env W) caller request w s :
  ordered (authorised_act caller) (run env (control_request caller request) w s).2.
Proof. exact (prog_wp_run _ _ env _ _ w s (any_env_ok env) (control_request_wp caller request s)). Qed.

(** The answers of the backend to [eject_target], and the calls that end the preparation of
    an eject. *)
Definition ejections (t : list (entry unit ControlOp)) : list (res unit) :=
  omap (λ e, match e with
             | Did o r => match o in ControlOp X return res X -> option (res unit) with
                          | BackendEjectTarget _ => Some
                          | _ => λ _, None
                          end r
             | _ => None
             end) t.
Definition completions (t : list (entry unit ControlOp)) : list ProfileId :=
  omap (λ e, match e with
             | Did (CompleteTargetEject profile_id) _ => Some profile_id
             | _ => None
             end) t.

(** What becomes of an eject: either it ends before the backend is asked, and then nothing
    is to be completed, or the backend is asked once, the preparation is ended once after
    it, and the answer of the backend is the outcome. *)
Definition eject_outcome (profile_id : string) (t : list (entry unit ControlOp))
    (r : res OperationResult) : Prop :=
  (ejections t = [] /\ completions t = [] /\ is_ok r = false) \/
  exists answer p before a,
    ejections t = [answer] /\ completions t = [p] /\ id_value p = profile_id /\
    t = before ++ [Did (CompleteTargetEject p) a] /\
    match answer with
    | Ok _ => exists result, r = Ok result /\ or_accepted result = true /\
                             or_profile_id result = profile_id
    | Throw e => r = Throw e
    end.

Lemma eject_target_wp caller profile_id s :
  wp any_answer any_change (eject_target true true caller profile_id)
    (λ t r _, eject_outcome profile_id t r) [] s.
Proof.
  unfold eject_target, prepared, require_authorized, authorized_context. symbolic.
  all: first [left; by split_and! | right].
  all: match goal with H : make_ident _ _ = Ok ?p |- _ => apply make_ident_Ok in H end.
  all: eexists _, _, _, _; split_and!; try reflexivity; try done; by eexists.
Qed.

(** An eject that has been prepared is completed exactly once, after the backend was
    asked, whether the eject succeeds, fails or throws and whatever the completion itself
    does; one that was not authorised or not prepared neither ejects nor completes; and
    the outcome is that of the backend. *)
Theorem eject_completed_once {W} (env : Env W) caller profile_id w s :
  eject_outcome profile_id (run env (eject_target true true caller profile_id) w s).2
    (run env (eject_target true true caller profile_id) w s).1.1.
Proof. exact (prog_wp_run _ _ env _ _ w s (any_env_ok env) (eject_target_wp caller profile_id s)). Qed.

(** Every method of the table asks for one action, and the actions have distinct names. *)
Lemma method_actions_functional : NoDup (map fst method_actions).
Proof. apply (bool_decide_unpack _). vm_compute. exact I. Qed.

Lemma manager_authorization_action_id_inj a b :
  manager_authorization_action_id a = manager_authorization_action_id b -> a = b.
Proof. destruct a, b; cbn; intros; congruence. Qed.
