(* ===== verification/ProvisioningService.v ===== *)
(** * The device provisioning service (src/daemon/control/DeviceProvisioningService)

    The service hands out short-lived candidates (devices, partitions, regions, sources,
    inspections, plans) to callers and starts a preparation from a plan.  Its maps are
    shared under a mutex; the authorizer, the backend, the topology reader, the clock and
    the generator of identifiers are calls. *)

From S2P Require Import Prelude Errors Identifiers RuntimeTime FsPath Interaction.
From S2P Require Import ManagerAuthorization.
From S2P Require Import Provisioning Preparation PreparationDevices.

Open Scope Z_scope.

(** ** Candidate identifiers *)

(** An answer of [getrandom]. *)
Inductive RandomAnswer := Got (bytes : list Byte.byte) | Interrupted | RandomFails.

Definition hex_digit (n : N) : string :=
  String (ascii_of_N (if N.ltb n 10 then 48 + n else 87 + n)) "".
Definition hex_byte (b : Byte.byte) : string :=
  let n := Byte.to_N b in hex_digit (N.div n 16) +:+ hex_digit (N.modulo n 16).

(** The bytes as text.
    src/daemon/control/DeviceProvisioningService.cpp:39-43 *)
Definition candidate_id_text (bytes : list Byte.byte) : string :=
  "candidate-" +:+ concat_map hex_byte bytes.

(** Sixteen bytes, however many calls they take; [None] when the answers run out.
    src/daemon/control/DeviceProvisioningService.cpp:26-44 *)
Fixpoint random_candidate_id (answers : list RandomAnswer) (bytes : list Byte.byte)
    : option (res string) :=
  if (16 <=? length bytes)%nat then Some (Ok (candidate_id_text bytes))
  else
    match answers with
    | [] => None
    | Got [] :: _ | RandomFails :: _ =>
        Some (Throw (ValidationError "cannot generate a device candidate identifier"))
    | Got new :: answers =>
        random_candidate_id answers (bytes ++ take (16 - length bytes) new)
    | Interrupted :: answers => random_candidate_id answers bytes
    end.

(** ** State and collaborators *)

(** src/daemon/control/SourceCandidate.hpp:10-16 *)
Record SourceCandidate := mkCandidate {
  sc_id : string;
  sc_path : string;
  sc_filesystem_uuid : string;
  sc_mount_root : string;
  sc_local_snapshot_root : string;
}.

Global Instance eta_SourceCandidate : Eta SourceCandidate := λ c,
  mkCandidate (sc_id c) (sc_path c) (sc_filesystem_uuid c) (sc_mount_root c)
    (sc_local_snapshot_root c).

(** The structures TopologySnapshot, StoredPlan, StoredInspection and StoredSourceCandidate.
    src/daemon/control/DeviceProvisioningService.hpp:113-132 *)
Record StoredCandidate (A : Type) := mkStored {
  sto_value : A;
  sto_caller : string;
  sto_expires_at : Z;
}.
Arguments mkStored {A} _ _ _.
Arguments sto_value {A} _.
Arguments sto_caller {A} _.
Arguments sto_expires_at {A} _.

(** src/daemon/control/DeviceProvisioningService.hpp:170-173 *)
Record ServiceState := mkService {
  svc_topologies : gmap string (StoredCandidate StorageTopology);
  svc_plans : gmap string (StoredCandidate DevicePreparationPlan);
  svc_inspections : gmap string (StoredCandidate ExistingTargetInspection);
  svc_source_candidates : gmap string (StoredCandidate SourceCandidate);
}.

Global Instance eta_ServiceState : Eta ServiceState := λ s,
  mkService (svc_topologies s) (svc_plans s) (svc_inspections s) (svc_source_candidates s).

(** IManagerAuthorizer, StorageTopologyReader, the clock, the generator of identifiers and
    IDeviceProvisioningBackend.
    src/daemon/control/DeviceProvisioningService.hpp:32-64 *)
Inductive ServiceOp : Type -> Type :=
| IsActive (caller : string) : ServiceOp bool
| AuthorizeAction (caller : string) (action : ManagerAuthorizationAction) : ServiceOp bool
| Scan : ServiceOp StorageTopology
| Clock : ServiceOp Z
| CandidateIds : ServiceOp string
| BackendSourceCandidates : ServiceOp (list SourceCandidate)
| BackendInspectSafety (target : DevicePreparationTarget) : ServiceOp (list string)
| BackendPartitionGeometry (device : StorageDevice) (free_region : UnallocatedRegion)
    : ServiceOp PlannedPartitionGeometry
| BackendWholeDeviceGeometry (device : StorageDevice) : ServiceOp PlannedPartitionGeometry
| BackendInspectTarget (target : DevicePreparationTarget) (credential_fd : Z)
    : ServiceOp ExistingTargetInspectionSummary
| BackendStart (request : DevicePreparationRequest) (target : DevicePreparationTarget)
    (owner : DevicePreparationOwner) (passphrase_fd : Z) : ServiceOp DevicePreparationStatus
| BackendStatus (operation_id : string) : ServiceOp DevicePreparationStatus
| BackendOwnedBy (operation_id : string) (owner : DevicePreparationOwner) : ServiceOp bool
| BackendCancel (operation_id : string) : ServiceOp unit.

Abbreviation Service := (prog ServiceState ServiceOp).

Definition manager_error {A} (code : ManagerErrorCode) (message : string) : Service A :=
  raise (ManagerOperationError code message).

(** [if (!ok) throw e;] *)
Definition ensure (ok : bool) (e : exn) : Service unit := lift (require ok e).

(** ** The planned target *)

Definition create_geometry (operation : PlannedStorageOperation)
    : option (option PlannedPartitionGeometry) :=
  match operation with CreateBackupPartition _ _ geometry => Some geometry | _ => None end.

(** src/daemon/control/DeviceProvisioningService.cpp:46-101 *)
Definition planned_target (topology : StorageTopology) (plan : DevicePreparationPlan)
    : res DevicePreparationTarget :=
  match find_if (λ d, (sd_candidate_id d =? plan_device_id plan)%string) (topo_devices topology) with
  | None => Throw (ManagerOperationError Conflict "planned device snapshot is missing")
  | Some device =>
      let geometry := mjoin (head (omap create_geometry (plan_operations plan))) in
      partition ←
        match plan_partition_id plan with
        | None => Ok None
        | Some id =>
            match head (omap (partition_with_id id) (sd_regions device)) with
            | Some partition => Ok (Some partition)
            | None => Throw (ManagerOperationError Conflict "planned partition snapshot is missing")
            end
        end;
      free_region ←
        match plan_free_region_id plan with
        | None => Ok None
        | Some id =>
            match head (omap (free_with_id id) (sd_regions device)), geometry with
            | Some free_region, Some _ => Ok (Some free_region)
            | _, _ => Throw (ManagerOperationError Conflict
                               "planned free-space target snapshot is incomplete")
            end
        end;
      _ ← require (negb (bool_decide (plan_mode plan = EraseWholeDevice)
                         && negb (bool_decide (is_Some geometry))))
            (ManagerOperationError Conflict "planned whole-device partition geometry is missing");
      Ok (mkTarget (plan_mode plan) device partition free_region geometry None)
  end.

(** ** The maps *)

(** [std::erase_if] on a map. *)
Definition erase_if {A} (drop : StoredCandidate A -> bool) (m : gmap string (StoredCandidate A))
    : gmap string (StoredCandidate A) := filter (λ kv, drop kv.2 = false) m.

(** src/daemon/control/DeviceProvisioningService.cpp:407-412 *)
Definition expire_candidates (now : Z) (s : ServiceState) : ServiceState :=
  mkService (erase_if (λ x, sto_expires_at x <=? now) (svc_topologies s))
    (erase_if (λ x, sto_expires_at x <=? now) (svc_plans s))
    (erase_if (λ x, sto_expires_at x <=? now) (svc_inspections s))
    (erase_if (λ x, sto_expires_at x <=? now) (svc_source_candidates s)).

Definition has {A} (id : string) (m : gmap string A) : bool := bool_decide (is_Some (m !! id)).

(** Takes the mutex and drops what has expired. *)
Definition with_candidates {A} (body : Z -> ServiceState -> Service A) : Service A :=
  now ← call Clock;
  Lock (λ s, let s := expire_candidates now s in Store s (body now s)).

(** The entry of the map, if it is the caller's. *)
Definition owned_entry {A} (caller id : string) (m : gmap string (StoredCandidate A)) (what : string)
    : Service A :=
  match m !! id with
  | Some x => if (sto_caller x =? caller)%string then mret (sto_value x)
              else manager_error NotFound what
  | None => manager_error NotFound what
  end.

(** src/daemon/control/DeviceProvisioningService.cpp:414-428 *)
Definition find_source_candidate (caller candidate_id : string) : Service SourceCandidate :=
  with_candidates (λ _ s, owned_entry caller candidate_id (svc_source_candidates s)
    "source candidate is unavailable or expired").

(** src/daemon/control/DeviceProvisioningService.cpp:430-444 *)
Definition find_plan (caller plan_id : string) : Service DevicePreparationPlan :=
  with_candidates (λ _ s, owned_entry caller plan_id (svc_plans s)
    "device preparation plan is unavailable or expired").

(** src/daemon/control/DeviceProvisioningService.cpp:446-462 *)
Definition take_plan (caller plan_id : string) : Service DevicePreparationPlan :=
  with_candidates (λ _ s,
    result ← owned_entry caller plan_id (svc_plans s)
      "device preparation plan is unavailable or expired";
    _ ← put (s <| svc_plans := delete plan_id (svc_plans s) |>);
    mret result).

(** The caller's topology, if it is of the generation. *)
Definition topology_of (caller generation : string) (s : ServiceState) : Service StorageTopology :=
  match svc_topologies s !! caller with
  | Some x => if (topo_generation (sto_value x) =? generation)%string then mret (sto_value x)
              else manager_error NotFound "storage topology is unavailable or expired"
  | None => manager_error NotFound "storage topology is unavailable or expired"
  end.

(** src/daemon/control/DeviceProvisioningService.cpp:464-478 *)
Definition find_topology (caller generation : string) : Service StorageTopology :=
  with_candidates (λ _ s, topology_of caller generation s).

(** src/daemon/control/DeviceProvisioningService.cpp:480-494 *)
Definition find_inspection (caller inspection_id : string) : Service ExistingTargetInspection :=
  with_candidates (λ _ s, owned_entry caller inspection_id (svc_inspections s)
    "existing target inspection is unavailable or expired").

(** src/daemon/control/DeviceProvisioningService.cpp:496-510 *)
Definition consume_inspection (caller inspection_id : string) : Service unit :=
  with_candidates (λ _ s,
    _ ← owned_entry caller inspection_id (svc_inspections s)
      "existing target inspection is unavailable or expired";
    put (s <| svc_inspections := delete inspection_id (svc_inspections s) |>)).

(** ** Authorisation *)

(** src/daemon/control/DeviceProvisioningService.cpp:380-383 *)
Definition require_active_caller (caller : string) : Service unit :=
  if str_empty caller then manager_error NotAuthorized "operation is not authorized"
  else
    active ← call (IsActive caller);
    if active : bool then mret tt else manager_error NotAuthorized "operation is not authorized".

(** src/daemon/control/DeviceProvisioningService.cpp:385-390 *)
Definition authorize (caller method : string) : Service unit :=
  let denied : Service unit := manager_error NotAuthorized "operation is not authorized" in
  if str_empty caller then denied
  else
    match manager_method_authorization_action method with
    | None => denied
    | Some action =>
        granted ← call (AuthorizeAction caller action);
        if negb granted then denied
        else
          active ← call (IsActive caller);
          if negb active then denied else mret tt
    end.

(** src/daemon/control/DeviceProvisioningService.cpp:392-405 *)
Definition authorize_owner_or_admin (caller : string) (caller_uid : Z)
    (operation_id method : string) : Service unit :=
  owns ← call (BackendOwnedBy operation_id (mkOwner caller caller_uid));
  if owns && negb (str_empty caller) then
    active ← call (IsActive caller);
    if active : bool then mret tt else authorize caller method
  else authorize caller method.

(** ** Identifiers of candidates *)

(** [for (attempt = 0; attempt < 16; ++attempt)] until an identifier is accepted.
    src/daemon/control/DeviceProvisioningService.cpp:130-137 *)
Fixpoint allocate (attempts : nat) (accepted : string -> bool) (error : string) : Service string :=
  match attempts with
  | O => manager_error Conflict error
  | S attempts =>
      id ← call CandidateIds;
      if negb (str_empty id) && accepted id then mret id else allocate attempts accepted error
  end.

(** Identifiers that no plan or inspection has and that are new in this topology. *)
Definition allocate_id (s : ServiceState) (allocated : gset string) : Service string :=
  allocate 16 (λ id, negb (has id (svc_plans s)) && negb (has id (svc_inspections s))
                     && negb (bool_decide (id ∈ allocated)))
    "cannot allocate a storage candidate identifier".

Definition relabel (id : string) (region : StorageRegion) : StorageRegion :=
  match region with
  | RPartition p => RPartition (p <| ep_candidate_id := id |>)
  | RFree r => RFree (mkFree id (ur_start_sector r) (ur_sector_count r) (ur_blockers r)
                        (ur_suitable_for_backup_partition r))
  end.

(** src/daemon/control/DeviceProvisioningService.cpp:140-151 *)
Fixpoint label_regions (s : ServiceState) (allocated : gset string) (regions : list StorageRegion)
    : Service (list StorageRegion * gset string) :=
  match regions with
  | [] => mret ([], allocated)
  | region :: regions =>
      id ← allocate_id s allocated;
      '(labelled, allocated) ← label_regions s ({[id]} ∪ allocated) regions;
      mret (relabel id region :: labelled, allocated)
  end.

(** src/daemon/control/DeviceProvisioningService.cpp:138-152 *)
Fixpoint label_devices (s : ServiceState) (allocated : gset string) (devices : list StorageDevice)
    : Service (list StorageDevice) :=
  match devices with
  | [] => mret []
  | device :: devices =>
      id ← allocate_id s allocated;
      '(regions, allocated) ← label_regions s ({[id]} ∪ allocated) (sd_regions device);
      labelled ← label_devices s allocated devices;
      mret (device <| sd_candidate_id := id |> <| sd_regions := regions |> :: labelled)
  end.

Section service.
(** Whether the service has a topology reader, and the lifetime of a candidate in ticks of
    the clock. *)
Context (topology_reader : bool) (candidate_lifetime : Z).

Definition of_caller {A} (caller : string) (x : StoredCandidate A) : bool := (sto_caller x =? caller)%string.

(** What a new topology of the caller makes obsolete.
    src/daemon/control/DeviceProvisioningService.cpp:126-128 *)
Definition forget_caller (caller : string) (s : ServiceState) : ServiceState :=
  mkService (erase_if (of_caller caller) (svc_topologies s))
    (erase_if (of_caller caller) (svc_plans s))
    (erase_if (of_caller caller) (svc_inspections s)) (svc_source_candidates s).

(** src/daemon/control/DeviceProvisioningService.cpp:118-158 *)
Definition inspect_storage_topology (caller : string) : Service StorageTopology :=
  _ ← require_active_caller caller;
  _ ← ensure topology_reader (ManagerOperationError InternalError "storage topology is unavailable");
  scanned ← call Scan;
  with_candidates (λ now s,
    let s := forget_caller caller s in
    _ ← put s;
    devices ← label_devices s ∅ (topo_devices scanned);
    let topology := mkTopology (topo_generation scanned) devices in
    _ ← put (s <| svc_topologies :=
               <[caller := mkStored topology caller (now + candidate_lifetime)]> (svc_topologies s) |>);
    mret topology).

(** The first blocker of the storage safety inspector is thrown.
    src/daemon/control/DeviceProvisioningService.cpp:579-584 *)
Definition require_storage_safe (expected current : StorageTopology)
    (plan : DevicePreparationPlan) (message : string) : Service unit :=
  match inspect expected current plan with
  | [] => mret tt
  | b :: _ => manager_error Conflict (message +:+ blk_code b)
  end.

Definition new_layout : StorageLayout := mkLayout "" 0 0 TableNone [].

(** A plan made up to name the partition to inspect.
    src/daemon/control/DeviceProvisioningService.cpp:186-202 *)
Definition validation_plan (generation device_id partition_id : string)
    : res DevicePreparationPlan :=
  scope ← scope_adoption device_id partition_id;
  Ok (mkPlan "existing-target-inspection" generation AdoptExistingTarget device_id
    (Some partition_id) None (Some "pending-inspection") new_layout new_layout [] [] scope).

(** src/daemon/control/DeviceProvisioningService.cpp:212-217 *)
Definition summary_incomplete (summary : ExistingTargetInspectionSummary) : bool :=
  str_empty (in_luks_uuid summary) || str_empty (in_partition_uuid summary)
  || (adoptable summary
      && (str_empty (in_btrfs_uuid summary) || str_empty (in_repository_id summary))).

(** src/daemon/control/DeviceProvisioningService.cpp:160-249 *)
Definition inspect_existing_target (caller expected_generation partition_id : string)
    (credential_fd : Z) : Service ExistingTargetInspection :=
  _ ← ensure (negb (str_empty expected_generation || str_empty partition_id || (credential_fd <? 0)))
        (ValidationError "existing target inspection request is incomplete");
  _ ← require_active_caller caller;
  _ ← ensure topology_reader (ManagerOperationError NotFound "storage topology is unavailable");
  expected ← find_topology caller expected_generation;
  match find_region (partition_with_id partition_id) (topo_devices expected) with
  | None => manager_error NotFound "storage partition candidate is unavailable"
  | Some (selected_device, _) =>
      plan ← lift (validation_plan expected_generation (sd_candidate_id selected_device) partition_id);
      target ← lift (planned_target expected plan);
      _ ← ensure (match tg_partition target with
                  | Some p => ep_suitable_for_adoption p
                  | None => false
                  end) (ManagerOperationError Conflict "storage partition cannot be adopted");
      let inspect_safety (current : StorageTopology) :=
        require_storage_safe expected current plan "existing target safety check failed: " in
      current ← call Scan;
      _ ← inspect_safety current;
      summary ← call (BackendInspectTarget target credential_fd);
      _ ← ensure (negb (summary_incomplete summary))
            (ManagerOperationError InternalError
               "existing target inspection returned an incomplete fingerprint");
      current ← call Scan;
      _ ← inspect_safety current;
      with_candidates (λ now s,
        _ ← topology_of caller expected_generation s;
        inspection_id ←
          (if adoptable summary
           then allocate 16 (λ id, negb (has id (svc_inspections s)) && negb (has id (svc_plans s)))
                  "cannot allocate a target inspection identifier"
           else mret "");
        let inspection := mkInspection inspection_id expected_generation (plan_device_id plan)
                            partition_id summary in
        _ ← (if adoptable summary
             then put (s <| svc_inspections :=
                    <[inspection_id := mkStored inspection caller (now + candidate_lifetime)]>
                      (svc_inspections s) |>)
             else mret tt);
        mret inspection)
  end.

(** A [ValidationError] of the backend's planner becomes a conflict.
    src/daemon/control/DeviceProvisioningService.cpp:293-303 *)
Definition planned_geometry (message : string) (o : ServiceOp PlannedPartitionGeometry)
    : Service PlannedPartitionGeometry :=
  catch (call o) (λ e,
    if is_validation_error e then manager_error Conflict (message +:+ exn_what e) else raise e).

(** src/daemon/control/DeviceProvisioningService.cpp:284-328 *)
Definition partition_geometry (topology : StorageTopology) (selected_candidate_id : string)
    (mode : ProvisioningMode) : Service (option PlannedPartitionGeometry) :=
  match mode with
  | CreatePartitionInUnallocatedSpace =>
      match find_region (free_with_id selected_candidate_id) (topo_devices topology) with
      | Some (device, free_region) =>
          geometry ← planned_geometry "cannot plan partition in selected free space: "
                       (BackendPartitionGeometry device free_region);
          mret (Some geometry)
      | None => manager_error NotFound "unallocated storage region candidate is unavailable"
      end
  | EraseWholeDevice =>
      match find_if (λ d, (sd_candidate_id d =? selected_candidate_id)%string)
              (topo_devices topology) with
      | Some device =>
          geometry ← planned_geometry "cannot plan whole-device partition: "
                       (BackendWholeDeviceGeometry device);
          mret (Some geometry)
      | None => manager_error NotFound "storage device candidate is unavailable"
      end
  | _ => mret None
  end.

(** The inspection an adoption is planned with.
    src/daemon/control/DeviceProvisioningService.cpp:272-283 *)
Definition validated_inspection (caller generation selected_candidate_id inspection_id : string)
    (mode : ProvisioningMode) (s : ServiceState) : Service (option string) :=
  let unavailable : Service (option string) :=
    manager_error NotFound "existing target inspection is unavailable or expired" in
  match mode with
  | AdoptExistingTarget =>
      match svc_inspections s !! inspection_id with
      | None => unavailable
      | Some x =>
          if negb (sto_caller x =? caller)%string
             || negb (ins_topology_generation (sto_value x) =? generation)%string
             || negb (ins_partition_id (sto_value x) =? selected_candidate_id)%string
          then unavailable else mret (Some inspection_id)
      end
  | _ => mret None
  end.

(** src/daemon/control/DeviceProvisioningService.cpp:251-348 *)
Definition build_device_preparation_plan (caller expected_generation selected_candidate_id : string)
    (mode : ProvisioningMode) (inspection_id : string) : Service DevicePreparationPlan :=
  _ ← require_active_caller caller;
  _ ← ensure (negb (negb topology_reader || str_empty expected_generation
                    || str_empty selected_candidate_id))
        (ManagerOperationError NotFound "storage topology is unavailable or expired");
  current ← call Scan;
  with_candidates (λ now s,
    topology ← topology_of caller expected_generation s;
    _ ← ensure (topo_generation current =? expected_generation)%string
          (ManagerOperationError Conflict "storage topology changed");
    validated_inspection_id ←
      validated_inspection caller expected_generation selected_candidate_id inspection_id mode s;
    geometry ← partition_geometry topology selected_candidate_id mode;
    plan_id ← allocate 16 (λ id, negb (has id (svc_plans s)) && negb (has id (svc_inspections s)))
                "cannot allocate a preparation plan identifier";
    plan ← lift (build topology expected_generation selected_candidate_id mode plan_id
                   validated_inspection_id geometry);
    _ ← put (s <| svc_plans :=
               <[plan_id := mkStored plan caller (now + candidate_lifetime)]> (svc_plans s) |>);
    mret plan).

(** Every candidate gets an identifier and is stored; those stored before an identifier
    could not be allocated stay.
    src/daemon/control/DeviceProvisioningService.cpp:356-376 *)
Fixpoint store_source_candidates (caller : string) (now : Z) (allocated : gset string)
    (candidates : list SourceCandidate) (s : ServiceState) : Service (list SourceCandidate) :=
  match candidates with
  | [] => mret []
  | candidate :: candidates =>
      id ← allocate 16 (λ id, negb (has id (svc_plans s)) && negb (has id (svc_inspections s))
                              && negb (has id (svc_source_candidates s))
                              && negb (bool_decide (id ∈ allocated)))
             "cannot allocate a source candidate identifier";
      let candidate := candidate <| sc_id := id |> in
      let s := s <| svc_source_candidates :=
        <[id := mkStored candidate caller (now + candidate_lifetime)]> (svc_source_candidates s) |> in
      _ ← put s;
      rest ← store_source_candidates caller now ({[id]} ∪ allocated) candidates s;
      mret (candidate :: rest)
  end.

(** src/daemon/control/DeviceProvisioningService.cpp:350-378 *)
Definition list_source_candidates (caller : string) : Service (list SourceCandidate) :=
  _ ← require_active_caller caller;
  candidates ← call BackendSourceCandidates;
  with_candidates (λ now s,
    let s := s <| svc_source_candidates := erase_if (of_caller caller) (svc_source_candidates s) |> in
    _ ← put s;
    store_source_candidates caller now ∅ candidates s).

(** What [start] checks of the request before it looks anything up.
    src/daemon/control/DeviceProvisioningService.cpp:518-529 *)
Definition check_request (request : DevicePreparationRequest) (passphrase_fd : Z) : res unit :=
  _ ← require (negb (str_empty (rq_profile_id request) || str_empty (rq_profile_name request)
                     || str_empty (rq_plan_id request)
                     || (bool_decide (rq_sources request = [])
                         && str_empty (rq_source_candidate_id request))
                     || str_empty (rq_passphrase_label request)))
        (ValidationError "device preparation request is incomplete");
  _ ← make_ident KProfile (rq_profile_id request);
  _ ← require (negb (passphrase_fd <? 0))
        (ValidationError "device preparation passphrase descriptor is invalid");
  _ ← require (negb ((120 <? String.length (rq_profile_name request))%nat
                     || (80 <? String.length (rq_passphrase_label request))%nat))
        (ValidationError "device preparation text is too long");
  _ ← require (negb (64 <? length (rq_sources request))%nat)
        (ValidationError "too many device preparation sources");
  require topology_reader (ManagerOperationError NotFound "storage topology is unavailable").

(** src/daemon/control/DeviceProvisioningService.cpp:531-542 *)
Definition requested_sources (request : DevicePreparationRequest) : list DevicePreparationSource :=
  match rq_sources request with
  | [] => [mkSource (rq_source_candidate_id request) "Source" "" "" "" "" 30 30]
  | sources => sources
  end.

(** src/daemon/control/DeviceProvisioningService.cpp:545-549 *)
Definition source_invalid (selected_candidates : gset string) (source : DevicePreparationSource)
    : bool :=
  str_empty (src_candidate_id source) || str_empty (src_name source)
  || (160 <? String.length (src_name source))%nat
  || (src_local_retention source =? 0) || (100000 <? src_local_retention source)
  || (100000 <? src_remote_retention source)
  || bool_decide (src_candidate_id source ∈ selected_candidates).

(** src/daemon/control/DeviceProvisioningService.cpp:543-556 *)
Fixpoint resolve_sources (caller profile_id : string) (selected_candidates : gset string)
    (sources : list DevicePreparationSource) : Service (list DevicePreparationSource) :=
  match sources with
  | [] => mret []
  | requested_source :: sources =>
      _ ← ensure (negb (source_invalid selected_candidates requested_source))
            (ValidationError "invalid device preparation source");
      source ← find_source_candidate caller (src_candidate_id requested_source);
      let resolved := requested_source <| src_subvolume := sc_path source |>
        <| src_filesystem_uuid := sc_filesystem_uuid source |>
        <| src_mount_root := sc_mount_root source |>
        <| src_local_snapshot_dir := path_append (sc_local_snapshot_root source) profile_id |> in
      rest ← resolve_sources caller profile_id
               ({[src_candidate_id requested_source]} ∪ selected_candidates) sources;
      mret (resolved :: rest)
  end.

(** src/daemon/control/DeviceProvisioningService.cpp:558-565 *)
Definition executable_mode (mode : ProvisioningMode) : bool :=
  match mode with
  | EraseWholeDevice | ReformatExistingPartition | AdoptExistingTarget
  | CreatePartitionInUnallocatedSpace => true
  end.

(** The summary an adoption is checked against.
    src/daemon/control/DeviceProvisioningService.cpp:568-577 *)
Definition expected_inspection (caller : string) (plan : DevicePreparationPlan)
    : Service (option ExistingTargetInspectionSummary) :=
  match plan_mode plan with
  | AdoptExistingTarget =>
      match plan_inspection_id plan with
      | None => manager_error Conflict "adoption plan has no inspection"
      | Some inspection_id =>
          inspection ← find_inspection caller inspection_id;
          _ ← ensure (negb (negb (ins_topology_generation inspection
                                  =? plan_topology_generation plan)%string
                            || negb (ins_device_id inspection =? plan_device_id plan)%string
                            || negb (bool_decide (Some (ins_partition_id inspection)
                                                  = plan_partition_id plan))))
                (ManagerOperationError Conflict "adoption inspection does not match plan");
          mret (Some (ins_target inspection))
      end
  | _ => mret None
  end.

(** src/daemon/control/DeviceProvisioningService.cpp:585-590 *)
Definition require_backend_safe (target : DevicePreparationTarget) : Service unit :=
  safety_reasons ← call (BackendInspectSafety target);
  match safety_reasons with
  | [] => mret tt
  | reason :: _ =>
      manager_error Conflict
        ("selected device is not safe for destructive preparation: " +:+ reason)
  end.

(** src/daemon/control/DeviceProvisioningService.cpp:512-603 *)
Definition start (caller : string) (caller_uid : Z) (request : DevicePreparationRequest)
    (passphrase_fd : Z) : Service DevicePreparationStatus :=
  _ ← lift (check_request request passphrase_fd);
  sources ← resolve_sources caller (rq_profile_id request) ∅ (requested_sources request);
  let resolved_request := mkRequest (rq_profile_id request) (rq_profile_name request)
    (rq_plan_id request) (rq_source_candidate_id request) sources (rq_passphrase_label request)
    (rq_create_automatic_key request) in
  plan ← find_plan caller (rq_plan_id request);
  _ ← ensure (executable_mode (plan_mode plan))
        (ManagerOperationError Conflict "device preparation plan mode is not executable yet");
  expected ← find_topology caller (plan_topology_generation plan);
  planned ← lift (planned_target expected plan);
  inspection ← expected_inspection caller plan;
  let target := planned <| tg_expected_inspection := inspection |> in
  current ← call Scan;
  _ ← require_storage_safe expected current plan "storage safety check failed: ";
  _ ← require_backend_safe target;
  _ ← authorize caller "StartDevicePreparation";
  consumed_plan ← take_plan caller (rq_plan_id request);
  _ ← ensure (negb (negb (plan_id consumed_plan =? plan_id plan)%string
                    || negb (plan_device_id consumed_plan =? plan_device_id plan)%string))
        (ManagerOperationError Conflict "device preparation plan changed");
  _ ← match plan_inspection_id consumed_plan with
      | Some inspection_id => consume_inspection caller inspection_id
      | None => mret tt
      end;
  call (BackendStart resolved_request target (mkOwner caller caller_uid) passphrase_fd).

(** src/daemon/control/DeviceProvisioningService.cpp:605-614 *)
Definition status (caller : string) (caller_uid : Z) (operation_id : string)
    : Service DevicePreparationStatus :=
  _ ← ensure (negb (str_empty operation_id)) (ValidationError "operation identifier is empty");
  _ ← authorize_owner_or_admin caller caller_uid operation_id "GetDevicePreparation";
  call (BackendStatus operation_id).

(** src/daemon/control/DeviceProvisioningService.cpp:616-625 *)
Definition cancel (caller : string) (caller_uid : Z) (operation_id : string) : Service unit :=
  _ ← ensure (negb (str_empty operation_id)) (ValidationError "operation identifier is empty");
  _ ← authorize_owner_or_admin caller caller_uid operation_id "CancelDevicePreparation";
  call (BackendCancel operation_id).

End service.

(** ** Candidates that are usable *)

(** The caller's entry of the map that has not expired. *)
Definition usable {A} (caller id : string) (now : Z) (m : gmap string (StoredCandidate A)) (a : A) : Prop :=
  exists x, m !! id = Some x /\ sto_caller x = caller /\ now < sto_expires_at x /\ sto_value x = a.

Lemma lookup_erase_if {A} (drop : StoredCandidate A -> bool) m k x :
  erase_if drop m !! k = Some x <-> m !! k = Some x /\ drop x = false.
Proof. unfold erase_if. by rewrite map_lookup_filter_Some. Qed.

Lemma usable_expired {A} caller id now (m : gmap string (StoredCandidate A)) x :
  erase_if (λ x, sto_expires_at x <=? now) m !! id = Some x -> sto_caller x = caller ->
  usable caller id now m (sto_value x).
Proof.
  rewrite lookup_erase_if, Z.leb_gt. intros [? ?] ?. exists x. split_and!; done.
Qed.

(** ** A preparation is started only when everything has been checked *)

Definition is_start {X} (o : ServiceOp X) : bool :=
  match o with BackendStart _ _ _ _ => true | _ => false end.
Definition quiet (e : entry ServiceState ServiceOp) : Prop :=
  match e with Did o _ => is_start o = false | _ => True end.

(** What has happened when the backend is asked to start. *)
Definition start_justified (caller : string) (caller_uid : Z) (request : DevicePreparationRequest)
    (pre : list (entry ServiceState ServiceOp)) (e : entry ServiceState ServiceOp) : Prop :=
  match e with
  | Did (BackendStart _ target owner _) _ =>
      Forall quiet pre /\ owner = mkOwner caller caller_uid /\
      exists plan expected current s1 now1 s2 now2 s3 now3 consumed,
        sublist
          [Did Clock (Ok now1); Locked s1;
           Did Clock (Ok now2); Locked s2;
           Did Scan (Ok current);
           Did (BackendInspectSafety target) (Ok []);
           Did (AuthorizeAction caller PrepareBackupDevice) (Ok true);
           Did (IsActive caller) (Ok true);
           Did Clock (Ok now3); Locked s3;
           Stored (expire_candidates now3 s3)
             ((expire_candidates now3 s3) <| svc_plans :=
                delete (rq_plan_id request) (svc_plans (expire_candidates now3 s3)) |>)] pre /\
        usable caller (rq_plan_id request) now1 (svc_plans s1) plan /\
        (exists x, svc_topologies s2 !! caller = Some x /\ now2 < sto_expires_at x /\
                   sto_value x = expected) /\
        topo_generation expected = plan_topology_generation plan /\
        planned_target expected plan = Ok (target <| tg_expected_inspection := None |>) /\
        storage_safe expected current plan /\
        usable caller (rq_plan_id request) now3 (svc_plans s3) consumed /\
        plan_id consumed = plan_id plan /\ plan_device_id consumed = plan_device_id plan
  | _ => True
  end.

Abbreviation quietly m := (entries any_answer any_change quiet (λ _, True) m).

Lemma quiet_justified caller uid request e pre : quiet e -> start_justified caller uid request pre e.
Proof. destruct e as [X []| |]; done. Qed.

(** Nothing has been started so far. *)
Definition calm (t : list (entry ServiceState ServiceOp)) : Prop := Forall quiet t.

Lemma calm_ordered caller uid request t : calm t -> ordered (start_justified caller uid request) t.
Proof.
  intros H. apply (ordered_app _ [] t); [done|]. eapply Forall_impl; [exact H|].
  intros. by apply quiet_justified.
Qed.

Lemma calm_app t u : calm t -> Forall quiet u -> calm (t ++ u).
Proof. intros. by apply Forall_app. Qed.

Section rules.
Context (caller : string) (uid : Z) (request : DevicePreparationRequest).
Abbreviation Φ := (λ t (_ : res DevicePreparationStatus) (_ : ServiceState),
  ordered (start_justified caller uid request) t).
Abbreviation WP m t s := (wp any_answer any_change m Φ t s).

Lemma wp_quietly {A} (m : Service A) f t s :
  calm t -> quietly m -> (forall a u s, calm (t ++ u) -> WP (f a) (t ++ u) s) -> WP (m ≫= f) t s.
Proof.
  intros Ht Hm Hf. rewrite prog_wp_bind. eapply prog_wp_mono; [|apply Hm]. cbn.
  intros t' r s' [(u & -> & Hu) _]. pose proof (calm_app _ _ Ht Hu).
  destruct r; [by apply Hf|by apply calm_ordered].
Qed.

Lemma wp_pure {A} (r : res A) f t s :
  calm t -> (forall a, r = Ok a -> WP (f a) t s) -> WP (lift r ≫= f) t s.
Proof. intros Ht H. destruct r; cbn; [by apply H|by apply calm_ordered]. Qed.

Lemma wp_ask {X} (o : ServiceOp X) f t s :
  is_start o = false -> calm t ->
  (forall x, calm (t ++ [Did o (Ok x)]) -> WP (f x) (t ++ [Did o (Ok x)]) s) ->
  WP (call o ≫= f) t s.
Proof.
  intros Ho Ht H. cbn. intros [x|e] _.
  - apply H, calm_app; [done|]. by repeat constructor.
  - cbn. apply calm_ordered, calm_app; [done|]. by repeat constructor.
Qed.

(** A locked section whose body fails or continues. *)
Definition locked_entries (now : Z) (s : ServiceState) : list (entry ServiceState ServiceOp) :=
  [Did Clock (Ok now); Locked s; Stored s (expire_candidates now s)].

Lemma wp_locked {A} (body : Z -> ServiceState -> Service A) f t s :
  calm t ->
  (forall now s1, calm (t ++ locked_entries now s1) ->
     WP (body now (expire_candidates now s1) ≫= f) (t ++ locked_entries now s1)
        (expire_candidates now s1)) ->
  WP (with_candidates body ≫= f) t s.
Proof.
  intros Ht H. unfold with_candidates. cbn -[expire_candidates app]. intros [now|e] _.
  - cbn -[expire_candidates app]. intros s1 _. rewrite <-!app_assoc.
    apply H, calm_app; [done|]. by repeat constructor.
  - apply calm_ordered, calm_app; [done|]. by repeat constructor.
Qed.

Lemma wp_owned {A} id now (m : gmap string (StoredCandidate A)) what f t s :
  calm t -> (forall a, usable caller id now m a -> WP (f a) t s) ->
  WP (owned_entry caller id (erase_if (λ x, sto_expires_at x <=? now) m) what ≫= f) t s.
Proof.
  intros Ht H. unfold owned_entry.
  destruct (erase_if _ m !! id) as [x|] eqn:Ex; [|by apply calm_ordered].
  destruct (String.eqb_spec (sto_caller x) caller) as [Hc|_]; [|by apply calm_ordered].
  apply H. by apply usable_expired.
Qed.

Lemma wp_topology generation now s0 f t s :
  calm t ->
  (forall x, svc_topologies s0 !! caller = Some x -> now < sto_expires_at x ->
     topo_generation (sto_value x) = generation -> WP (f (sto_value x)) t s) ->
  WP (topology_of caller generation (expire_candidates now s0) ≫= f) t s.
Proof.
  intros Ht H. unfold topology_of. cbn [expire_candidates svc_topologies].
  destruct (erase_if _ _ !! caller) as [x|] eqn:Ex; [|by apply calm_ordered].
  apply lookup_erase_if in Ex as [? ?%Z.leb_gt].
  destruct (String.eqb_spec (topo_generation (sto_value x)) generation); [|by apply calm_ordered].
  by apply H.
Qed.

Lemma wp_safe expected current plan message f t s :
  calm t -> (storage_safe expected current plan -> WP (f tt) t s) ->
  WP (require_storage_safe expected current plan message ≫= f) t s.
Proof.
  intros Ht H. unfold require_storage_safe.
  destruct (inspect expected current plan) eqn:Ei; [|by apply calm_ordered].
  by apply H, inspect_refines_storage_safe_iff.
Qed.

Lemma wp_backend_safe target f t s :
  calm t ->
  (calm (t ++ [Did (BackendInspectSafety target) (Ok [])]) ->
   WP (f tt) (t ++ [Did (BackendInspectSafety target) (Ok [])]) s) ->
  WP (require_backend_safe target ≫= f) t s.
Proof.
  intros Ht H. unfold require_backend_safe. rewrite wp_assoc. apply wp_ask; [done|done|].
  intros [|r l] Hc; [by apply H|by apply calm_ordered].
Qed.

Lemma wp_authorize f t s :
  let granted := [Did (AuthorizeAction caller PrepareBackupDevice) (Ok true);
                  Did (IsActive caller) (Ok true)] in
  calm t -> (calm (t ++ granted) -> WP (f tt) (t ++ granted) s) ->
  WP (authorize caller "StartDevicePreparation" ≫= f) t s.
Proof.
  intros granted Ht H. unfold authorize. destruct (str_empty caller); [by apply calm_ordered|].
  change (manager_method_authorization_action "StartDevicePreparation")
    with (Some PrepareBackupDevice). cbn [mbind].
  rewrite wp_assoc. apply wp_ask; [done|done|]. intros [|] Hc; [|by apply calm_ordered].
  cbn [negb]. rewrite wp_assoc. apply wp_ask; [done|done|].
  intros [|] Hc'; [|by apply calm_ordered]. rewrite <-app_assoc in Hc' |- *. by apply H.
Qed.
End rules.

Ltac quietly :=
  repeat first [entries_step | progress unfold with_candidates, owned_entry, topology_of,
    manager_error, ensure | done | intros ?].

Lemma quietly_find_source caller id : quietly (find_source_candidate caller id).
Proof. unfold find_source_candidate. quietly. Qed.

Lemma quietly_resolve_sources caller profile_id selected sources :
  quietly (resolve_sources caller profile_id selected sources).
Proof.
  revert selected. induction sources as [|x l IH]; intros selected; cbn [resolve_sources]; [quietly|].
  entries_step; [quietly|]. entries_step; [apply quietly_find_source|].
  cbv zeta. entries_step; [apply IH|]. quietly.
Qed.

Lemma quietly_expected_inspection caller plan : quietly (expected_inspection caller plan).
Proof. unfold expected_inspection, find_inspection. quietly. Qed.



Lemma planned_target_inspection topology plan target :
  planned_target topology plan = Ok target -> tg_expected_inspection target = None.
Proof.
  unfold planned_target. destruct (find_if _ _); [|done]. cbv zeta. intros Ht. by res_inv.
Qed.

Lemma planned_target_reset topology plan target inspection :
  planned_target topology plan = Ok target ->
  planned_target topology plan =
    Ok (target <| tg_expected_inspection := inspection |> <| tg_expected_inspection := None |>).
Proof.
  intros H. rewrite H. apply planned_target_inspection in H. destruct target; cbn in *. by subst.
Qed.

Lemma quietly_consume caller o :
  quietly (match o with Some id => consume_inspection caller id | None => mret tt end).
Proof. unfold consume_inspection. quietly. Qed.

Lemma start_preparation_wp reader caller uid request fd s :
  wp any_answer any_change (start reader caller uid request fd)
    (λ t _ _, ordered (start_justified caller uid request) t) [] s.
Proof.
  unfold start.
  apply wp_pure; [by constructor|]. intros _ _.
  apply wp_quietly; [by constructor|apply quietly_resolve_sources|].
  clear s. intros sources t s Ht. cbv zeta. cbn [app] in *.
  apply wp_locked; [done|]. clear s. intros now1 s1 Ht1.
  apply wp_owned; [done|]. intros plan Hplan.
  apply wp_pure; [done|]. intros _ _.
  apply wp_locked; [done|]. intros now2 s2 Ht2.
  apply wp_topology; [done|]. intros x Hx Hexp Hgen.
  apply wp_pure; [done|]. intros planned Hplanned.
  apply wp_quietly; [done|apply quietly_expected_inspection|]. intros inspection u s Hu.
  apply wp_ask; [done..|]. intros current Hc.
  apply wp_safe; [done|]. intros Hsafe.
  apply wp_backend_safe; [done|]. intros Hb.
  apply wp_authorize; [done|]. intros Ha.
  apply wp_locked; [done|]. clear s. intros now3 s3 Ht3.
  rewrite wp_assoc. apply wp_owned; [done|]. intros consumed Hconsumed.
  rewrite wp_assoc. cbn [wp put mbind prog_bind prog_bind_def mret prog_ret].
  match goal with |- context [Stored ?a ?b] => set (taken := Stored a b) end.
  apply calm_app with (u := [taken]) in Ht3; [|by repeat constructor].
  apply wp_pure; [done|]. intros _ Hsame%require_Ok. breflect.
  apply wp_quietly; [done|apply quietly_consume|]. intros _ v s Hv.
  cbn [wp call]. intros r _. rewrite ordered_snoc. split; [by apply calm_ordered|].
  split; [exact Hv|]. split; [done|].
  exists plan, (sto_value x), current, s1, now1, s2, now2, s3, now3, consumed. split.
  { rewrite <-!app_assoc. apply sublist_inserts_l. cbn [locked_entries app].
    do 2 apply sublist_skip. apply sublist_cons. do 2 apply sublist_skip. apply sublist_cons.
    apply sublist_inserts_l. do 6 apply sublist_skip. apply sublist_cons. apply sublist_skip.
    apply sublist_nil_l. }
  split_and!; try done; [by exists x|by apply planned_target_reset].
Qed.

(** C13.  The backend is asked to start a preparation at most once per request, for the
    caller, and only when: the plan named in the request was the caller's and had not
    expired; its target is what the plan names in the topology the caller was shown, of
    the plan's generation; a scan made after that finds the storage safe; the backend then
    has no reason against it; the authorisation to prepare devices was then granted and the
    caller still connected; and last the plan was still there and was removed, under the
    mutex, so that no other request can use it.  This holds whatever the collaborators
    answer and whatever other requests do in between. *)
Theorem start_only_when_justified {W} (env : Env W) reader caller uid request fd w s :
  ordered (start_justified caller uid request)
    (run env (start reader caller uid request fd) w s).2.
Proof. exact (prog_wp_run _ _ env _ _ w s (any_env_ok env) (start_preparation_wp reader caller uid request fd s)). Qed.

(** ** The topology that is handed out *)

(** A device with new identifiers for itself and its regions. *)
Definition relabel_device (labels : string * list string) (d : StorageDevice) : StorageDevice :=
  d <| sd_candidate_id := labels.1 |> <| sd_regions := zip_with relabel labels.2 (sd_regions d) |>.

(** One identifier for every device and every region. *)
Definition labels_fit (labels : list (string * list string)) (devices : list StorageDevice) : Prop :=
  Forall2 (λ l d, length l.2 = length (sd_regions d)) labels devices.

Definition all_labels (labels : list (string * list string)) : list string :=
  concat (map (λ l, l.1 :: l.2) labels).

Section labels.
Context (answers : forall X, ServiceOp X -> res X -> Prop) (rely : ServiceState -> ServiceState -> Prop).

(** An identifier that was generated and that no plan or inspection has. *)
Definition fresh_label (s : ServiceState) (allocated : gset string) (id : string) : Prop :=
  id <> "" /\ answers _ CandidateIds (Ok id) /\ (id ∉ allocated) /\
  svc_plans s !! id = None /\ svc_inspections s !! id = None.

Abbreviation silent := (only_call (S:=ServiceState) (Op:=ServiceOp)).

Lemma has_None {A} id (m : gmap string A) : negb (has id m) = true <-> m !! id = None.
Proof. unfold has. rewrite negb_true_iff, bool_decide_eq_false, <-eq_None_not_Some. done. Qed.

Lemma allocate_post n accepted error :
  entries answers rely silent
    (λ id, id <> "" /\ accepted id = true /\ answers _ CandidateIds (Ok id))
    (allocate n accepted error).
Proof.
  induction n as [|n IH]; cbn [allocate]; [apply entries_raise|].
  eapply (entries_bind _ _ _ (λ id, answers _ CandidateIds (Ok id))).
  { by apply entries_call. }
  intros id Hid. destruct (str_empty id) eqn:Ee; cbn [negb andb]; [exact IH|].
  destruct (accepted id) eqn:Ea; [|exact IH]. apply entries_ret. by destruct id.
Qed.

Lemma allocate_id_post s allocated :
  entries answers rely silent (fresh_label s allocated) (allocate_id s allocated).
Proof.
  unfold allocate_id. eapply (entries_mono _ _ silent); [done| |apply allocate_post]. cbn.
  intros id (Hne & Hacc & Hans). rewrite !andb_true_iff, !has_None in Hacc.
  destruct Hacc as [[? ?] Hn]. rewrite negb_true_iff, bool_decide_eq_false in Hn.
  by split_and!.
Qed.

Lemma fresh_label_weaken s a b id : fresh_label s b id -> a ⊆ b -> fresh_label s a id.
Proof. intros (? & ? & ? & ? & ?) Hab. split_and!; try done. set_solver. Qed.

Lemma label_regions_post s allocated regions :
  entries answers rely silent
    (λ ra, exists ids, ra.1 = zip_with relabel ids regions /\ length ids = length regions /\
       NoDup ids /\ Forall (fresh_label s allocated) ids /\ ra.2 = list_to_set ids ∪ allocated)
    (label_regions s allocated regions).
Proof.
  revert allocated. induction regions as [|r regions IH]; intros allocated; cbn [label_regions].
  - apply entries_ret. exists []. cbn. split_and!; try done; [by constructor|set_solver].
  - eapply entries_bind; [apply allocate_id_post|]. intros id Hid.
    eapply entries_bind; [apply IH|]. intros [l a] (ids & Hl & Hlen & Hnd & Hf & Ha). cbn in Hl, Ha. subst l a.
    apply entries_ret. exists (id :: ids). cbn. split_and!; try done; [by f_equal| | |set_solver].
    + constructor; [|done]. intros Hin. rewrite Forall_forall in Hf.
      destruct (Hf id Hin) as (_ & _ & Hn & _). set_solver.
    + constructor; [done|]. eapply Forall_impl; [exact Hf|]. intros x Hx.
      eapply fresh_label_weaken; [exact Hx|set_solver].
Qed.

Lemma label_devices_post s allocated devices :
  entries answers rely silent
    (λ devices', exists labels, devices' = zip_with relabel_device labels devices /\
       labels_fit labels devices /\ NoDup (all_labels labels) /\
       Forall (fresh_label s allocated) (all_labels labels))
    (label_devices s allocated devices).
Proof.
  revert allocated. induction devices as [|d devices IH]; intros allocated; cbn [label_devices].
  - apply entries_ret. exists []. by repeat constructor.
  - eapply entries_bind; [apply allocate_id_post|]. intros id Hid.
    eapply entries_bind; [apply label_regions_post|].
    intros [l a] (ids & Hl & Hlen & Hnd & Hf & Ha). cbn in Hl, Ha. subst l a.
    eapply entries_bind; [apply IH|]. intros rest (labels & -> & Hfit & Hnd' & Hf').
    apply entries_ret. exists ((id, ids) :: labels). rewrite !Forall_forall in *.
    split; [done|]. split; [by constructor|]. cbn. split.
    + constructor.
      * rewrite elem_of_app. intros [Hi|Hi]; [destruct (Hf _ Hi) as (_ & _ & Hn & _)|
          destruct (Hf' _ Hi) as (_ & _ & Hn & _)]; set_solver.
      * apply NoDup_app. split_and!; [done| |done]. intros x Hx Hx'.
        destruct (Hf' _ Hx') as (_ & _ & Hn & _). set_solver.
    + intros x Hx. apply elem_of_cons in Hx as [->|Hx]; [done|]. apply elem_of_app in Hx as [Hx|Hx].
      * eapply fresh_label_weaken; [by apply Hf|set_solver].
      * eapply fresh_label_weaken; [by apply Hf'|set_solver].
Qed.

(** What a caller that asks for the topology gets, and what is left in the service. *)
Definition topology_handed_out (lifetime : Z) (caller : string)
    (t : list (entry ServiceState ServiceOp)) (r : res StorageTopology) (s : ServiceState) : Prop :=
  match r with
  | Throw _ => True
  | Ok topology =>
      exists scanned labels now,
        Did Scan (Ok scanned) ∈ t /\ answers _ Scan (Ok scanned) /\ Did Clock (Ok now) ∈ t /\
        topology = mkTopology (topo_generation scanned)
                     (zip_with relabel_device labels (topo_devices scanned)) /\
        labels_fit labels (topo_devices scanned) /\ NoDup (all_labels labels) /\
        Forall (fresh_label s ∅) (all_labels labels) /\
        svc_topologies s !! caller = Some (mkStored topology caller (now + lifetime)) /\
        (forall id x, svc_plans s !! id = Some x -> sto_caller x <> caller) /\
        (forall id x, svc_inspections s !! id = Some x -> sto_caller x <> caller)
  end.

Lemma erase_of_caller {A} caller (m : gmap string (StoredCandidate A)) id x :
  erase_if (of_caller caller) m !! id = Some x -> sto_caller x <> caller.
Proof. rewrite lookup_erase_if. unfold of_caller. rewrite String.eqb_neq. tauto. Qed.

Lemma inspect_storage_topology_wp reader lifetime caller s :
  wp answers rely (inspect_storage_topology reader lifetime caller)
    (topology_handed_out lifetime caller) [] s.
Proof.
  unfold inspect_storage_topology.
  apply (wp_entries _ _ (λ _, True) (λ _, True)); [|done|].
  { unfold require_active_caller. quietly. }
  intros _ u s1 _ _. apply (wp_entries _ _ (λ _, True) (λ _, True)); [quietly|done|].
  intros _ v s2 _ _. cbn -[expire_candidates forget_caller app label_devices].
  intros [scanned|e] Hscan; [|done]. cbn -[expire_candidates forget_caller app label_devices].
  intros [now|e] _; [|done]. cbn -[expire_candidates forget_caller app label_devices].
  intros s3 _. eapply wp_entries; [apply label_devices_post|done|].
  intros devices w s4 (labels & -> & Hfit & Hnd & Hf) _. cbn -[expire_candidates app forget_caller].
  exists scanned, labels, now. split; [set_solver|]. split; [done|]. split; [set_solver|].
  split_and!; try done.
  - cbn. apply lookup_insert_eq.
  - cbn. intros id x. apply erase_of_caller.
  - cbn. intros id x. apply erase_of_caller.
Qed.
End labels.

(** A caller that asks for the storage topology gets the scanned devices with a new
    identifier for every device, partition and free region: all distinct, none empty, none
    that of a stored plan or inspection.  The topology is kept for the caller until the
    lifetime ends, and the caller's older plans and inspections are gone. *)
Theorem topology_candidates_fresh {W} (env : Env W) reader lifetime caller w s :
  let result := run env (inspect_storage_topology reader lifetime caller) w s in
  topology_handed_out any_answer lifetime caller result.2 result.1.1 result.1.2.
Proof.
  exact (prog_wp_run _ _ env _ _ w s (any_env_ok env)
    (inspect_storage_topology_wp any_answer any_change reader lifetime caller s)).
Qed.

(** The plan builder relies on distinct identifiers: what is handed out has them. *)
Lemma relabel_region_id ids regions :
  length ids = length regions -> map region_id (zip_with relabel ids regions) = ids.
Proof.
  revert regions. induction ids as [|id ids IH]; intros [|[p|r] regions] [=]; cbn; try done;
    by rewrite IH.
Qed.

Lemma relabelled_wf generation labels devices :
  labels_fit labels devices -> NoDup (all_labels labels) ->
  Forall (λ d, 0 <= sd_logical_sector_size d /\
               forall r, RFree r ∈ sd_regions d -> free_wf r) devices ->
  topology_wf (mkTopology generation (zip_with relabel_device labels devices)).
Proof.
  unfold topology_wf. cbn [topo_devices]. intros Hfit. revert Hfit.
  induction 1 as [|[id ids] d labels devices Hlen Hfit IH]; cbn; intros Hnd Hwf; constructor.
  - apply NoDup_cons in Hnd as [_ (Hnd & _ & _)%NoDup_app]. apply Forall_cons in Hwf as [[? Hfree] _].
    cbn in *. rewrite relabel_region_id by done. split_and!; try done.
    intros r (k & id' & [p|r'] & ? & Hr & Hin)%elem_of_lookup_zip_with; [done|]. simplify_eq/=.
    apply (Hfree r'). by eapply list_elem_of_lookup_2.
  - apply IH; [|by inversion Hwf]. apply NoDup_cons in Hnd as [_ Hnd]. by apply NoDup_app in Hnd as (_ & _ & ?).
Qed.

(** ** Free space on a device that is to be erased *)

Definition not_nul (c : ascii) : bool := negb (Ascii.eqb c "000").
Definition nul_free (s : string) : bool := str_forallb not_nul s.

Lemma nul_terminated a b x y :
  nul_free a = true -> nul_free b = true -> a +:+ nul +:+ x = b +:+ nul +:+ y -> a = b /\ x = y.
Proof.
  revert b. induction a as [|c a IH]; intros [|c' b]; cbn;
    rewrite ?andb_true_iff.
  - by intros _ _ [= ->].
  - intros _ [Hc _] [= <- _]. done.
  - intros [Hc _] _ [= -> _]. done.
  - intros [_ Ha] [_ Hb] [= -> H]. destruct (IH b Ha Hb H) as [-> ->]. done.
Qed.

(** The identifiers the reader gives to free regions.
    src/platform/linux/storage/provisioning/SystemStorageTopologyReader.cpp:552-553 *)
Definition reader_free_region_id (major_minor : string) (r : UnallocatedRegion) : string :=
  "free-" +:+ major_minor +:+ "-" +:+ pretty (ur_start_sector r) +:+ "-"
  +:+ pretty (ur_sector_count r).

(** The regions of a device as the reader finds them, and identifiers of the service. *)
Definition read_regions (d : StorageDevice) : Prop :=
  nul_free (bd_major_minor (sd_identity d)) = true /\
  forall r, RFree r ∈ sd_regions d ->
    ur_id r = reader_free_region_id (bd_major_minor (sd_identity d)) r.
Definition generated (id : string) : Prop := exists bytes, id = candidate_id_text bytes.

Lemma nul_free_app a b : nul_free (a +:+ b) = nul_free a && nul_free b.
Proof. apply str_forallb_app. Qed.

Lemma nul_free_digits s : str_forallb is_digit s = true -> nul_free s = true.
Proof. apply str_forallb_impl. intros c. unfold not_nul. by destruct (Ascii.eqb_spec c "000") as [->|]. Qed.

Lemma nul_free_pretty (z : Z) : nul_free (pretty z) = true.
Proof.
  assert (Hn : forall p, nul_free (pretty_N_go (N.pos p) "") = true).
  { intros p. destruct (pretty_N_go_digits (N.pos p) "") as (ds & -> & H & _).
    rewrite string_app_nil_r. by apply nul_free_digits. }
  destruct z as [|p|p]; [done|apply Hn|].
  change (pretty (Z.neg p)) with ("-" +:+ pretty_N_go (N.pos p) ""). by rewrite nul_free_app, Hn.
Qed.

Lemma nul_free_hex n : (n < 16)%N -> nul_free (hex_digit n) = true.
Proof.
  intros Hn. assert (Hin : n ∈ map N.of_nat (seq 0 16)).
  { apply list_elem_of_fmap. exists (N.to_nat n). split; [lia|]. apply elem_of_seq. lia. }
  clear Hn. revert n Hin. apply Forall_forall. by repeat constructor.
Qed.

Lemma nul_free_generated id : generated id -> nul_free id = true.
Proof.
  intros [bytes ->]. unfold candidate_id_text. rewrite nul_free_app. apply andb_true_iff. split; [done|].
  induction bytes as [|b bytes IH]; [done|]. cbn [concat_map fold_right].
  rewrite nul_free_app. apply andb_true_iff. split; [|exact IH].
  unfold hex_byte. cbv zeta. rewrite nul_free_app, !nul_free_hex; [done| |].
  - apply N.mod_lt. lia.
  - pose proof (Byte.to_N_bounded b). apply N.Div0.div_lt_upper_bound. lia.
Qed.

Lemma nul_free_reader major_minor r :
  nul_free major_minor = true -> nul_free (reader_free_region_id major_minor r) = true.
Proof. intros H. unfold reader_free_region_id. by rewrite !nul_free_app, H, !nul_free_pretty. Qed.

(** The texts of two lists of regions that differ in the identifiers alone. *)
Lemma relabelled_fingerprint major_minor regions ids :
  nul_free major_minor = true ->
  (forall r, RFree r ∈ regions -> ur_id r = reader_free_region_id major_minor r) ->
  Forall generated ids -> length ids = length regions ->
  (exists r, RFree r ∈ regions) ->
  concat_map region_fingerprint (zip_with relabel ids regions)
  <> concat_map region_fingerprint regions.
Proof.
  intros Hmm. revert ids.
  induction regions as [|[p|r] regions IH]; intros [|id ids]; cbn [zip_with length];
    intros Hr Hg [=] Hfree; try (destruct Hfree as [r' Hr']; set_solver).
  - cbn [concat_map fold_right]. intros He.
    change (region_fingerprint (relabel id (RPartition p))) with (region_fingerprint (RPartition p)) in He.
    apply string_app_inj_l in He. revert He. apply IH; [set_solver|by inversion Hg|done|].
    destruct Hfree as [r' Hr']. exists r'. set_solver.
  - cbn [concat_map fold_right region_fingerprint relabel ur_start_sector ur_sector_count ur_id].
    intros He. rewrite !string_app_assoc in He. do 4 apply string_app_inj_l in He.
    apply nul_terminated in He as [He _].
    + apply Forall_cons in Hg as [[bytes ->] _]. rewrite (Hr r) in He by set_solver. discriminate He.
    + inversion Hg. by apply nul_free_generated.
    + rewrite (Hr r) by set_solver. by apply nul_free_reader.
Qed.

Lemma existsb_relabel (f : StorageRegion -> bool) ids regions :
  (forall id r, f (relabel id r) = f r) -> length ids = length regions ->
  existsb f (zip_with relabel ids regions) = existsb f regions.
Proof.
  intros Hf. revert regions. induction ids as [|id ids IH]; intros [|r regions] [=]; cbn; [done|].
  by rewrite Hf, IH.
Qed.

(** Snapshots that differ in the graph alone. *)
Lemma only_graph_changed e c :
  e = c <| dev_device_graph := dev_device_graph e |> ->
  (dev_device_graph e =? dev_device_graph c)%string = false ->
  same_device_identity e c = false /\ changed_identity_fields e c = "device-graph".
Proof.
  intros He Hg. unfold same_device_identity, changed_identity_fields.
  rewrite Hg, andb_false_r. split; [done|].
  rewrite (f_equal dev_path He), (f_equal dev_model He), (f_equal dev_serial He),
    (f_equal dev_transport He), (f_equal dev_size_bytes He), (f_equal dev_removable He),
    (f_equal dev_mounted He), (f_equal dev_contains_data He), (f_equal dev_major_minor He),
    (f_equal dev_sysfs_devpath He), (f_equal dev_wwn He), (f_equal dev_serial_id He),
    (f_equal dev_serial_short He).
  repeat match goal with
  | |- context [String.eqb ?a ?b] => replace (String.eqb a b) with true by (symmetry; apply String.eqb_refl)
  | |- context [Z.eqb ?a ?b] => replace (Z.eqb a b) with true by (symmetry; apply Z.eqb_refl)
  | |- context [Bool.eqb ?a ?b] => replace (Bool.eqb a b) with true by (symmetry; apply eqb_reflx)
  end. reflexivity.
Qed.

(** With new identifiers, the snapshot of a device with free space differs from that of
    the device itself, and in the graph alone. *)
Lemma relabelled_snapshot labels d :
  read_regions d -> Forall generated labels.2 -> length labels.2 = length (sd_regions d) ->
  (exists r, RFree r ∈ sd_regions d) ->
  let expected := make_provisioning_device (relabel_device labels d) in
  let current := make_provisioning_device d in
  same_device_identity expected current = false /\
  changed_identity_fields expected current = "device-graph".
Proof.
  intros [Hmm Hr] Hg Hlen Hfree expected current. apply only_graph_changed.
  - assert (Hm : mounted (relabel_device labels d) = mounted d).
    { unfold mounted. cbn. by rewrite existsb_relabel by (done || by intros ? []). }
    assert (Hd : has_data (relabel_device labels d) = has_data d).
    { unfold has_data. cbn. by rewrite existsb_relabel by (done || by intros ? []). }
    subst expected current. unfold make_provisioning_device. by rewrite Hm, Hd.
  - apply String.eqb_neq. cbn [expected current make_provisioning_device dev_device_graph].
    unfold graph_fingerprint. intros He. do 16 apply string_app_inj_l in He. revert He.
    by apply (relabelled_fingerprint _ _ _ Hmm Hr).
Qed.

(** The devices do not change, and identifiers come from [random_candidate_id]. *)
Definition steady (scanned : StorageTopology) X (o : ServiceOp X) : res X -> Prop :=
  match o in ServiceOp X return res X -> Prop with
  | Scan => λ r, r = Ok scanned
  | CandidateIds => λ r, forall id, r = Ok id -> generated id
  | _ => λ _, True
  end.

Lemma find_if_NoDup {A} (f : A -> string) l k x :
  NoDup (map f l) -> l !! k = Some x -> find_if (λ y, (f y =? f x)%string) l = Some x.
Proof.
  revert k. induction l as [|y l IH]; intros k Hn Hk; [done|]. cbn. destruct k as [|k]; cbn in Hk.
  - simplify_eq. by rewrite String.eqb_refl.
  - cbn in Hn. apply NoDup_cons in Hn as [Hy Hn]. destruct (String.eqb_spec (f y) (f x)) as [E|_].
    + destruct Hy. rewrite E. apply list_elem_of_fmap. exists x. split; [done|].
      by eapply list_elem_of_lookup_2.
    + by apply (IH k).
Qed.

Lemma revalidate_relabelled scanned k d labels :
  NoDup (map (λ d, bd_major_minor (sd_identity d)) (topo_devices scanned)) ->
  topo_devices scanned !! k = Some d ->
  read_regions d -> Forall generated labels.2 -> length labels.2 = length (sd_regions d) ->
  (exists r, RFree r ∈ sd_regions d) ->
  revalidate (Ok scanned) (provisioning_device_snapshot (relabel_device labels d)) =
    Throw (ManagerOperationError Conflict "selected device identity changed: device-graph").
Proof.
  intros Hn Hk Hr Hg Hlen Hfree. unfold revalidate. cbn [list_devices mbind res_bind].
  rewrite find_if_map. unfold provisioning_device_snapshot.
  rewrite (find_if_ext _ (λ y, (bd_major_minor (sd_identity y)
                                =? bd_major_minor (sd_identity d))%string)) by done.
  rewrite (find_if_NoDup _ _ _ _ Hn Hk). cbn [fmap option_fmap option_map].
  destruct (relabelled_snapshot labels d Hr Hg Hlen Hfree) as [-> ->]. done.
Qed.

(** A device with free space cannot be erased: the topology that the service hands out
    carries new identifiers for the free regions, the snapshot of the device that the
    transaction keeps includes them, and when the worker compares it with the very same,
    unchanged device it concludes that the device has changed and refuses. *)
Theorem erase_with_free_space_refused {W} (env : Env W) scanned reader lifetime caller w s
    topology k d :
  env_ok (steady scanned) any_change env ->
  (run env (inspect_storage_topology reader lifetime caller) w s).1.1 = Ok topology ->
  NoDup (map (λ d, bd_major_minor (sd_identity d)) (topo_devices scanned)) ->
  topo_devices scanned !! k = Some d -> read_regions d -> (exists r, RFree r ∈ sd_regions d) ->
  exists d', topo_devices topology !! k = Some d' /\
    revalidate (Ok scanned) (provisioning_device_snapshot d') =
      Throw (ManagerOperationError Conflict "selected device identity changed: device-graph").
Proof.
  intros Henv Hrun Hn Hk Hr Hfree.
  pose proof (prog_wp_run _ _ env _ _ w s Henv
    (inspect_storage_topology_wp (steady scanned) any_change reader lifetime caller s)) as H.
  rewrite Hrun in H.
  destruct H as (scanned' & labels & now & _ & [= ->] & _ & -> & Hfit & _ & Hfresh & _).
  destruct (Forall2_lookup_r _ _ _ _ _ Hfit Hk) as (l & Hl & Hlen).
  exists (relabel_device l d). split.
  - cbn. rewrite lookup_zip_with, Hl. cbn. by rewrite Hk.
  - eapply revalidate_relabelled; try done. rewrite Forall_forall in Hfresh |- *. intros id Hid.
    destruct (Hfresh id) as (_ & Hgen & _); [|by apply Hgen].
    unfold all_labels. apply list_elem_of_In, in_concat. exists (l.1 :: l.2). split.
    + apply in_map_iff. exists l. split; [done|]. apply list_elem_of_In.
      by eapply list_elem_of_lookup_2.
    + right. by apply list_elem_of_In.
Qed.
