(* ===== verification/ProvisioningIsolation.v ===== *)
(** * Callers of the provisioning service do not disturb each other

    The invariant of the maps of DeviceProvisioningService, and what a request of one caller
    can do to the candidates of the others, under any interleaving of requests. *)

From S2P Require Import Prelude Errors Identifiers FsPath Interaction ManagerAuthorization.
From S2P Require Import Provisioning Preparation PreparationDevices ProvisioningService.

Open Scope Z_scope.

Abbreviation SEntry := (entry ServiceState ServiceOp).

(** ** The invariant *)

Record service_ok (s : ServiceState) : Prop := {
  ok_topologies : forall k x, svc_topologies s !! k = Some x -> sto_caller x = k;
  ok_plans : forall k x, svc_plans s !! k = Some x ->
    k <> "" /\ plan_id (sto_value x) = k /\ validate (sto_value x) = Ok tt;
  ok_inspections : forall k x, svc_inspections s !! k = Some x ->
    k <> "" /\ ins_inspection_id (sto_value x) = k /\
    adoptable (ins_target (sto_value x)) = true /\ summary_incomplete (ins_target (sto_value x)) = false;
  ok_disjoint : forall k x y, svc_plans s !! k = Some x -> svc_inspections s !! k = Some y -> False;
  ok_sources : forall k x, svc_source_candidates s !! k = Some x ->
    k <> "" /\ sc_id (sto_value x) = k;
}.

(** The entries of the other callers are kept until they expire, and none is added. *)
Definition kept {A} (caller : string) (now : Z) (m m' : gmap string (StoredCandidate A)) : Prop :=
  forall k x, sto_caller x <> caller ->
    (m' !! k = Some x -> m !! k = Some x) /\
    (m !! k = Some x -> now < sto_expires_at x -> m' !! k = Some x).

Definition others_kept (caller : string) (now : Z) (s s' : ServiceState) : Prop :=
  kept caller now (svc_topologies s) (svc_topologies s') /\
  kept caller now (svc_plans s) (svc_plans s') /\
  kept caller now (svc_inspections s) (svc_inspections s') /\
  kept caller now (svc_source_candidates s) (svc_source_candidates s').

Lemma kept_refl {A} caller now (m : gmap string (StoredCandidate A)) : kept caller now m m.
Proof. by intros k x _. Qed.

Lemma kept_expire {A} caller now (m : gmap string (StoredCandidate A)) :
  kept caller now m (erase_if (λ x, sto_expires_at x <=? now) m).
Proof. intros k x _. rewrite lookup_erase_if, Z.leb_gt. tauto. Qed.

Lemma kept_forget {A} caller now (m : gmap string (StoredCandidate A)) :
  kept caller now m (erase_if (of_caller caller) m).
Proof. intros k x Hx. rewrite lookup_erase_if. unfold of_caller. rewrite String.eqb_neq. tauto. Qed.

Lemma kept_delete {A} caller now (m : gmap string (StoredCandidate A)) id :
  (forall x, m !! id = Some x -> sto_caller x = caller) -> kept caller now m (delete id m).
Proof.
  intros Hid k x Hx. rewrite lookup_delete_Some. split; [tauto|]. intros Hk _. split; [|done].
  intros <-. destruct Hx. by apply Hid.
Qed.

Lemma kept_insert {A} caller now (m : gmap string (StoredCandidate A)) id y :
  sto_caller y = caller -> (forall x, m !! id = Some x -> sto_caller x = caller) ->
  kept caller now m (<[id := y]> m).
Proof.
  intros Hy Hid k x Hx. rewrite lookup_insert_Some. split.
  - intros [[<- <-]|[_ ?]]; done.
  - intros Hk _. right. split; [|done]. intros <-. destruct Hx. by apply Hid.
Qed.

#[export] Hint Resolve kept_refl kept_expire kept_forget : core.

(** ** Steps of a request *)

Lemma lookup_weaken_erase {A} (drop : StoredCandidate A -> bool) m k x :
  erase_if drop m !! k = Some x -> m !! k = Some x.
Proof. rewrite lookup_erase_if. tauto. Qed.

(** A state whose maps are smaller. *)
Definition smaller (s s' : ServiceState) : Prop :=
  svc_topologies s' ⊆ svc_topologies s /\ svc_plans s' ⊆ svc_plans s /\
  svc_inspections s' ⊆ svc_inspections s /\ svc_source_candidates s' ⊆ svc_source_candidates s.

Lemma service_ok_smaller s s' : service_ok s -> smaller s s' -> service_ok s'.
Proof.
  intros [H1 H2 H3 H4 H5] (S1 & S2 & S3 & S4).
  split; intros; eauto using lookup_weaken.
Qed.

Lemma erase_if_subseteq {A} (drop : StoredCandidate A -> bool) m : erase_if drop m ⊆ m.
Proof. apply map_filter_subseteq. Qed.

Lemma expire_smaller now s : smaller s (expire_candidates now s).
Proof. repeat split; cbn; apply erase_if_subseteq. Qed.

Lemma forget_smaller caller s : smaller s (forget_caller caller s).
Proof. repeat split; cbn; try apply erase_if_subseteq; reflexivity. Qed.

Ltac four_maps := refine (conj _ (conj _ (conj _ _))); cbn.

Lemma expire_others caller now s : others_kept caller now s (expire_candidates now s).
Proof. four_maps; auto. Qed.

Lemma forget_others caller now s : others_kept caller now s (forget_caller caller s).
Proof. four_maps; auto. Qed.

(** A change of the state keeps the invariant and the candidates of the other callers. *)
Definition isolated (caller : string) (pre : list SEntry) (e : SEntry) : Prop :=
  match e with
  | Did _ _ => True
  | Locked s => service_ok s
  | Stored s s' =>
      service_ok s' /\ exists now, Did Clock (Ok now) ∈ pre /\ others_kept caller now s s'
  end.

Section requests.
Context (caller : string).

(** What the other threads do keeps the invariant. *)
Definition keeps_ok (s s' : ServiceState) : Prop := service_ok s -> service_ok s'.

Abbreviation WP m Φ t s := (wp any_answer keeps_ok m Φ t s).
Abbreviation good t := (ordered (isolated caller) t).
Abbreviation silently R m := (entries any_answer keeps_ok only_call R m).

(** A request, and a program inside a locked section in the state [s]. *)
Definition handles {A} (R : A -> Prop) (m : Service A) : Prop :=
  forall t s, good t -> service_ok s ->
    WP m (λ t' r s', good t' /\ service_ok s' /\ forall a, r = Ok a -> R a) t s.

Definition changes {A} (now : Z) (s : ServiceState) (m : Service A) : Prop :=
  forall t, good t -> Did Clock (Ok now) ∈ t -> WP m (λ t' _ s', good t' /\ service_ok s') t s.

Lemma good_calls t u : good t -> Forall only_call u -> good (t ++ u).
Proof.
  intros Ht Hu. apply ordered_app; [done|]. eapply Forall_impl; [exact Hu|]. by intros [].
Qed.

Lemma handles_bind {A B} (R : A -> Prop) (R' : B -> Prop) m f :
  handles R m -> (forall a, R a -> handles R' (f a)) -> handles R' (m ≫= f).
Proof.
  intros Hm Hf t s Ht Hs. rewrite prog_wp_bind. eapply prog_wp_mono; [|apply (Hm t s Ht Hs)]. cbn.
  intros t' [a|e] s' (? & ? & Ha); [apply Hf; auto|by split_and!].
Qed.

Lemma handles_silent {A} (R : A -> Prop) m : silently R m -> handles R m.
Proof.
  intros Hm t s Ht Hs. eapply prog_wp_mono; [|apply (entries_state _ _ R m t s Hm)]. cbn.
  intros t' r s' (? & (u & -> & Hu) & ->). split_and!; try done. by apply good_calls.
Qed.

Lemma handles_locked {A} (body : Z -> ServiceState -> Service A) :
  (forall now s, service_ok s -> changes now s (body now s)) ->
  handles (λ _, True) (with_candidates body).
Proof.
  intros Hb t s Ht Hs. unfold with_candidates. cbn -[expire_candidates]. intros [now|e] _.
  2:{ split_and!; try done. rewrite ordered_snoc. by split. }
  cbn -[expire_candidates]. intros s1 Hs1. specialize (Hs1 Hs).
  pose proof (service_ok_smaller _ _ Hs1 (expire_smaller now s1)) as Hs2.
  eapply prog_wp_mono; [|apply Hb]; cbn; [intros t' r s' []; by split_and!|done| |set_solver].
  rewrite !ordered_snoc. refine (conj (conj (conj Ht I) Hs1) (conj Hs2 _)). exists now. split; [set_solver|]. apply expire_others.
Qed.

Lemma changes_silent {A B} (R : A -> Prop) now s (m : Service A) (f : A -> Service B) :
  service_ok s -> silently R m -> (forall a, R a -> changes now s (f a)) ->
  changes now s (m ≫= f).
Proof.
  intros Hs Hm Hf t Ht Hnow. rewrite prog_wp_bind. eapply prog_wp_mono; [|apply (entries_state _ _ R m t s Hm)]. cbn.
  intros t' r s' (Ha & (u & -> & Hu) & ->). pose proof (good_calls _ _ Ht Hu).
  destruct r as [a|e]; [|by split]. apply Hf; [auto|done|set_solver].
Qed.

Lemma changes_end {A} (R : A -> Prop) now s (m : Service A) :
  service_ok s -> silently R m -> changes now s m.
Proof.
  intros Hs Hm t Ht Hnow. eapply prog_wp_mono; [|apply (entries_state _ _ R m t s Hm)]. cbn.
  intros t' r s' (Ha & (u & -> & Hu) & ->). split; [by apply good_calls|done].
Qed.

Lemma changes_put {A} now s s' (f : unit -> Service A) :
  service_ok s' -> others_kept caller now s s' -> changes now s' (f tt) ->
  changes now s (put s' ≫= f).
Proof.
  intros Hs' Ho Hf t Ht Hnow. cbn. apply Hf; [|set_solver]. rewrite ordered_snoc.
  split; [done|]. split; [done|]. by exists now.
Qed.

(** ** The operations *)

Ltac silently :=
  repeat first [entries_step | progress unfold owned_entry, topology_of, manager_error, ensure,
    require_active_caller, require_storage_safe, require_backend_safe, authorize,
    authorize_owner_or_admin, validated_inspection, partition_geometry, planned_geometry
    | done | intros ?].

(** Steps that change nothing, in a request and in a locked section. *)
Ltac quiet_end := solve [apply (handles_silent (λ _, True)); silently].
Tactic Notation "skip" simple_intropattern(x) :=
  eapply handles_bind; [quiet_end|]; intros x _.
Tactic Notation "skip_locked" simple_intropattern(x) :=
  apply (changes_silent (λ _, True)); [done|silently|]; intros x _.

Lemma handles_find {A} (m : ServiceState -> gmap string (StoredCandidate A)) id what :
  handles (λ _, True) (with_candidates (λ _ s, owned_entry caller id (m s) what)).
Proof.
  apply handles_locked. intros now s Hs. apply (changes_end (λ _, True)); [done|]. silently.
Qed.

Lemma handles_find_topology generation : handles (λ _, True) (find_topology caller generation).
Proof.
  apply handles_locked. intros now s Hs. apply (changes_end (λ _, True)); [done|]. silently.
Qed.

Lemma owned_entry_silent {A} id (m : gmap string (StoredCandidate A)) what :
  silently (λ a, exists x, m !! id = Some x /\ sto_caller x = caller /\ sto_value x = a)
    (owned_entry caller id m what).
Proof.
  unfold owned_entry. destruct (m !! id) as [x|]; [|apply entries_raise].
  destruct (String.eqb_spec (sto_caller x) caller); [|apply entries_raise].
  apply entries_ret. by exists x.
Qed.

Lemma delete_plan_smaller id s : smaller s (s <| svc_plans := delete id (svc_plans s) |>).
Proof. four_maps; try reflexivity. apply delete_subseteq. Qed.
Lemma delete_inspection_smaller id s :
  smaller s (s <| svc_inspections := delete id (svc_inspections s) |>).
Proof. four_maps; try reflexivity. apply delete_subseteq. Qed.

Lemma handles_take_plan id : handles (λ _, True) (take_plan caller id).
Proof.
  apply handles_locked. intros now s Hs. eapply changes_silent; [done|apply owned_entry_silent|].
  intros a (x & Hx & Hc & _). pose proof (service_ok_smaller _ _ Hs (delete_plan_smaller id s)).
  apply changes_put; [done| |by apply (changes_end (λ _, True)); [|silently]].
  four_maps; auto. apply kept_delete. intros. by simplify_eq.
Qed.

Lemma handles_consume id : handles (λ _, True) (consume_inspection caller id).
Proof.
  apply handles_locked. intros now s Hs. eapply changes_silent; [done|apply owned_entry_silent|].
  intros a (x & Hx & Hc & _).
  pose proof (service_ok_smaller _ _ Hs (delete_inspection_smaller id s)).
  intros t Ht Hnow. cbn. rewrite ordered_snoc. split; [|done]. split; [done|]. split; [done|].
  exists now. split; [done|]. four_maps; auto. apply kept_delete. intros. by simplify_eq.
Qed.

(** New entries. *)
Lemma insert_topology_ok s t expires :
  service_ok s ->
  service_ok (s <| svc_topologies := <[caller := mkStored t caller expires]> (svc_topologies s) |>).
Proof.
  intros [H1 H2 H3 H4 H5]. split; cbn; eauto. intros k x [[<- <-]|[_ ?]]%lookup_insert_Some; eauto.
Qed.

Lemma insert_plan_ok s id plan expires :
  service_ok s -> id <> "" -> svc_inspections s !! id = None -> plan_id plan = id ->
  validate plan = Ok tt ->
  service_ok (s <| svc_plans := <[id := mkStored plan caller expires]> (svc_plans s) |>).
Proof.
  intros [H1 H2 H3 H4 H5] ? Hi ? ?. split; cbn; eauto.
  - intros k x [[<- <-]|[_ ?]]%lookup_insert_Some; eauto.
  - intros k x y [[<- <-]|[_ ?]]%lookup_insert_Some; [congruence|eauto].
Qed.

Lemma insert_inspection_ok s id i expires :
  service_ok s -> id <> "" -> svc_plans s !! id = None -> ins_inspection_id i = id ->
  adoptable (ins_target i) = true -> summary_incomplete (ins_target i) = false ->
  service_ok (s <| svc_inspections := <[id := mkStored i caller expires]> (svc_inspections s) |>).
Proof.
  intros [H1 H2 H3 H4 H5] ? Hp ? ? ?. split; cbn; eauto.
  - intros k x [[<- <-]|[_ ?]]%lookup_insert_Some; eauto.
  - intros k x y Hk [[<- <-]|[_ ?]]%lookup_insert_Some; [congruence|eauto].
Qed.

Lemma insert_source_ok s id c expires :
  service_ok s -> id <> "" -> sc_id c = id ->
  service_ok (s <| svc_source_candidates :=
                <[id := mkStored c caller expires]> (svc_source_candidates s) |>).
Proof.
  intros [H1 H2 H3 H4 H5] ? ?. split; cbn; eauto.
  intros k x [[<- <-]|[_ ?]]%lookup_insert_Some; eauto.
Qed.

Lemma kept_insert_new {A} now (m : gmap string (StoredCandidate A)) id a expires :
  m !! id = None -> kept caller now m (<[id := mkStored a caller expires]> m).
Proof. intros Hid. apply kept_insert; [done|]. intros. simplify_eq. Qed.

Lemma handles_inspect_storage_topology reader lifetime :
  handles (λ _, True) (inspect_storage_topology reader lifetime caller).
Proof.
  unfold inspect_storage_topology.
  skip _.
  skip _.
  skip scanned.
  apply handles_locked. intros now s Hs. cbv zeta.
  pose proof (service_ok_smaller _ _ Hs (forget_smaller caller s)) as Hs'.
  apply changes_put; [done|apply forget_others|].
  eapply changes_silent; [done|apply label_devices_post|]. intros devices _.
  apply changes_put; [by apply insert_topology_ok| |by apply (changes_end (λ _, True));
    [apply insert_topology_ok|silently]].
  four_maps; auto. apply kept_insert; [done|]. intros x Hx. by apply (ok_topologies _ Hs').
Qed.

Lemma handles_build reader lifetime generation selected mode inspection_id :
  handles (λ _, True)
    (build_device_preparation_plan reader lifetime caller generation selected mode inspection_id).
Proof.
  unfold build_device_preparation_plan.
  skip _.
  skip _.
  skip current.
  apply handles_locked. intros now s Hs.
  skip_locked topology.
  skip_locked _.
  skip_locked validated.
  skip_locked geometry.
  eapply changes_silent; [done|apply allocate_post|]. intros id (Hne & Hacc & _).
  apply andb_true_iff in Hacc as [Hp%has_None Hi%has_None].
  eapply (changes_silent (λ plan, plan_id plan = id /\ validate plan = Ok tt)); [done| |].
  { apply entries_lift. intros plan (d & ? & ? & _)%build_shape. done. }
  intros plan [Hid Hv].
  assert (Hok := insert_plan_ok s id plan (now + lifetime) Hs Hne Hi Hid Hv).
  apply changes_put; [done| |by apply (changes_end (λ _, True)); [|silently]].
  four_maps; auto. by apply kept_insert_new.
Qed.

Lemma handles_inspect_existing_target reader lifetime generation partition_id fd :
  handles (λ _, True) (inspect_existing_target reader lifetime caller generation partition_id fd).
Proof.
  unfold inspect_existing_target.
  skip _.
  skip _.
  skip _.
  eapply handles_bind; [apply handles_find_topology|]. intros expected _.
  destruct (find_region _ _) as [[device _]|];
    [|quiet_end].
  skip plan.
  skip target.
  skip _. cbv zeta.
  skip current.
  skip _.
  skip summary.
  eapply handles_bind; [apply (handles_silent (λ _, summary_incomplete summary = false))|].
  { apply entries_lift. intros a Ha%require_Ok. by apply negb_true_iff. }
  intros ? Hsummary. cbn beta in Hsummary.
  skip current'.
  skip _.
  apply handles_locked. intros now s Hs.
  skip_locked topology.
  destruct (adoptable summary) eqn:Ead; [|apply (changes_end (λ _, True)); [done|silently]].
  eapply changes_silent; [done|apply allocate_post|]. intros id (Hne & Hacc & _).
  apply andb_true_iff in Hacc as [Hi%has_None Hp%has_None].
  set (i := mkInspection _ _ _ _ _).
  assert (Hok := insert_inspection_ok s id i (now + lifetime) Hs Hne Hp eq_refl Ead Hsummary).
  apply changes_put; [done| |by apply (changes_end (λ _, True)); [|silently]].
  four_maps; auto. by apply kept_insert_new.
Qed.

Lemma changes_store_sources lifetime now allocated candidates s :
  service_ok s ->
  changes now s (store_source_candidates lifetime caller now allocated candidates s).
Proof.
  revert allocated s. induction candidates as [|c candidates IH]; intros allocated s Hs;
    cbn [store_source_candidates]; [apply (changes_end (λ _, True)); [done|silently]|].
  eapply changes_silent; [done|apply allocate_post|]. intros id (Hne & Hacc & _). cbv zeta.
  rewrite !andb_true_iff in Hacc. destruct Hacc as [[_ Hn%has_None] _].
  set (c' := c <| sc_id := id |>).
  assert (Hok := insert_source_ok s id c' (now + lifetime) Hs Hne eq_refl).
  apply changes_put; [done|four_maps; auto; by apply kept_insert_new|].
  intros t Ht Hnow. rewrite prog_wp_bind. eapply prog_wp_mono; [|by apply IH]. cbn.
  intros t' [l|e] s' [? ?]; by split.
Qed.

Lemma handles_list_source_candidates lifetime :
  handles (λ _, True) (list_source_candidates lifetime caller).
Proof.
  unfold list_source_candidates.
  skip _.
  skip candidates.
  apply handles_locked. intros now s Hs. cbv zeta.
  set (s' := s <| svc_source_candidates := _ |>).
  assert (Hok : service_ok s').
  { apply (service_ok_smaller _ _ Hs). four_maps; try reflexivity. apply erase_if_subseteq. }
  apply changes_put; [done|four_maps; auto|]. by apply changes_store_sources.
Qed.

Lemma handles_resolve_sources profile_id selected sources :
  handles (λ _, True) (resolve_sources caller profile_id selected sources).
Proof.
  revert selected. induction sources as [|x l IH]; intros selected; cbn [resolve_sources];
    [quiet_end|].
  skip _.
  eapply handles_bind; [apply handles_find|]. intros source _. cbv zeta.
  eapply handles_bind; [apply IH|]. intros rest _. quiet_end.
Qed.

Lemma handles_start reader uid request fd :
  handles (λ _, True) (start reader caller uid request fd).
Proof.
  unfold start.
  skip _.
  eapply handles_bind; [apply handles_resolve_sources|]. intros sources _. cbv zeta.
  eapply handles_bind; [apply handles_find|]. intros plan _.
  skip _.
  eapply handles_bind; [apply handles_find_topology|]. intros expected _.
  skip planned.
  eapply (handles_bind (λ _, True)).
  { unfold expected_inspection.
    destruct (plan_mode plan); try quiet_end.
    destruct (plan_inspection_id plan); [|quiet_end].
    eapply handles_bind; [apply handles_find|]. intros i _.
    quiet_end. }
  intros inspection _.
  skip current.
  skip _.
  skip _.
  skip _.
  eapply handles_bind; [apply handles_take_plan|]. intros consumed _.
  skip _.
  eapply (handles_bind (λ _, True)).
  { destruct (plan_inspection_id consumed); [apply handles_consume|].
    quiet_end. }
  intros _ _. quiet_end.
Qed.

Lemma handles_status uid operation_id : handles (λ _, True) (status caller uid operation_id).
Proof. unfold status. quiet_end. Qed.

Lemma handles_cancel uid operation_id : handles (λ _, True) (cancel caller uid operation_id).
Proof. unfold cancel. quiet_end. Qed.
End requests.

(** A request to the service, with the result dropped. *)
Inductive ServiceRequest :=
| ReqInspectTopology
| ReqInspectTarget (generation partition_id : string) (credential_fd : Z)
| ReqBuildPlan (generation selected : string) (mode : ProvisioningMode) (inspection_id : string)
| ReqListSources
| ReqStart (uid : Z) (request : DevicePreparationRequest) (passphrase_fd : Z)
| ReqStatus (uid : Z) (operation_id : string)
| ReqCancel (uid : Z) (operation_id : string).

Definition service_request (reader : bool) (lifetime : Z) (caller : string)
    (request : ServiceRequest) : Service unit :=
  match request with
  | ReqInspectTopology => _ ← inspect_storage_topology reader lifetime caller; mret tt
  | ReqInspectTarget generation partition_id fd =>
      _ ← inspect_existing_target reader lifetime caller generation partition_id fd; mret tt
  | ReqBuildPlan generation selected mode inspection_id =>
      _ ← build_device_preparation_plan reader lifetime caller generation selected mode
            inspection_id; mret tt
  | ReqListSources => _ ← list_source_candidates lifetime caller; mret tt
  | ReqStart uid request fd => _ ← start reader caller uid request fd; mret tt
  | ReqStatus uid operation_id => _ ← status caller uid operation_id; mret tt
  | ReqCancel uid operation_id => cancel caller uid operation_id
  end.

Lemma handles_request reader lifetime caller request :
  handles caller (λ _, True) (service_request reader lifetime caller request).
Proof.
  destruct request; cbn [service_request].
  7: apply handles_cancel.
  all: eapply handles_bind; [|intros ? _; apply handles_silent; by apply entries_ret].
  - apply handles_inspect_storage_topology.
  - apply handles_inspect_existing_target.
  - apply handles_build.
  - apply handles_list_source_candidates.
  - apply handles_start.
  - apply handles_status.
Qed.

(** C14.  Every request keeps the invariant of the service, at every change of its maps: a
    topology is filed under its caller; a plan is valid and filed under its own identifier,
    an inspection is adoptable, complete and filed under its own; identifiers are never
    empty and never both a plan's and an inspection's.  No request adds, changes or removes
    a candidate of another caller, except that candidates whose time has passed are
    removed.  Other requests may run in between, as long as they keep the invariant, which
    by this theorem they do. *)
Theorem requests_isolated {W} (env : Env W) reader lifetime caller request w s :
  env_ok any_answer keeps_ok env -> service_ok s ->
  let result := run env (service_request reader lifetime caller request) w s in
  ordered (isolated caller) result.2 /\ service_ok result.1.2.
Proof.
  intros Henv Hs.
  pose proof (prog_wp_run _ _ env _ _ w s Henv
    (handles_request reader lifetime caller request [] s (ordered_nil _) Hs)) as H.
  destruct H as (H1 & H2 & _). by split.
Qed.

(** ** A session *)

(** A device with a partition and free space, as the reader finds it. *)
Definition ex_read_free : UnallocatedRegion := mkFree "free-8:16-3072-4096" 3072 4096 [] true.
Definition ex_read_device : StorageDevice :=
  ex_device <| sd_candidate_id := "device-8:16" |>
    <| sd_regions := [RPartition ex_partition; RFree ex_read_free] |>.
Definition ex_scanned : StorageTopology := mkTopology "generation-1" [ex_read_device].

Definition ex_status : DevicePreparationStatus :=
  mkStatus "op-1" "daily" "queued" "inspect" "" "" "" "not-required" true.

Definition ex_byte (n : nat) : Byte.byte := default Byte.x00 (Byte.of_nat n).

(** Collaborators that grant everything; the world counts the identifiers given. *)
Definition ex_call X (o : ServiceOp X) (w : nat) : res X * nat :=
  match o in ServiceOp X return res X * nat with
  | IsActive _ | AuthorizeAction _ _ | BackendOwnedBy _ _ => (Ok true, w)
  | Scan => (Ok ex_scanned, w)
  | Clock => (Ok 1000, w)
  | CandidateIds => (Ok (candidate_id_text [ex_byte w]), S w)
  | BackendSourceCandidates =>
      (Ok [mkCandidate "" "/home" "uuid-1" "/" "/.snapshots"], w)
  | BackendInspectSafety _ => (Ok [], w)
  | BackendPartitionGeometry _ _ | BackendWholeDeviceGeometry _ => (Ok ex_geometry, w)
  | BackendInspectTarget _ _ => (Throw (ValidationError "not asked"), w)
  | BackendStart _ _ _ _ | BackendStatus _ => (Ok ex_status, w)
  | BackendCancel _ => (Ok tt, w)
  end.

Definition ex_env : @Env ServiceState ServiceOp nat := mkEnv ex_call (λ w s, (s, w)).
Definition ex_empty : ServiceState := mkService ∅ ∅ ∅ ∅.

(** The topology is read, a source chosen, free space selected, a plan built and started;
    then the same plan is used again. *)
Definition ex_session : Service (DevicePreparationStatus * res DevicePreparationStatus) :=
  topology ← inspect_storage_topology true 300 ":1.5";
  sources ← list_source_candidates 300 ":1.5";
  let selected := default "" (head (omap (λ r, ur_id <$> as_free r)
                    (concat (map sd_regions (topo_devices topology))))) in
  plan ← build_device_preparation_plan true 300 ":1.5" "generation-1" selected
           CreatePartitionInUnallocatedSpace "";
  let request := mkRequest "daily" "Daily" (plan_id plan)
                   (default "" (sc_id <$> head sources)) [] "main" false in
  first_status ← start true ":1.5" 1000 request 5;
  again ← catch (status ← start true ":1.5" 1000 request 5; mret (Ok status))
            (λ e, mret (Throw e));
  mret (first_status, again).

(** The whole session works, and a plan is used once. *)
Example ex_session_runs :
  (run ex_env ex_session 0%nat ex_empty).1.1 =
  Ok (ex_status, Throw (ManagerOperationError NotFound
                          "device preparation plan is unavailable or expired")).
Proof. vm_compute. reflexivity. Qed.

Lemma ex_env_steady : env_ok (steady ex_scanned) any_change ex_env.
Proof.
  split; [|done]. intros X [] w; try done. intros id Hid. exists [ex_byte w]. by injection Hid as <-.
Qed.

Definition ex_handed_out : StorageTopology :=
  match (run ex_env (inspect_storage_topology true 300 ":1.5") 0%nat ex_empty).1.1 with
  | Ok topology => topology
  | Throw _ => ex_scanned
  end.

Lemma ex_read_regions : read_regions ex_read_device.
Proof.
  split; [reflexivity|]. intros r Hr. set_unfold in Hr. destruct Hr as [Hr|[Hr|[]]]; [discriminate Hr|].
  injection Hr as ->. reflexivity.
Qed.

Lemma erase_with_free_space_refused_witness :
  exists d', topo_devices ex_handed_out !! 0%nat = Some d' /\
    revalidate (Ok ex_scanned) (provisioning_device_snapshot d') =
      Throw (ManagerOperationError Conflict "selected device identity changed: device-graph").
Proof.
  apply (erase_with_free_space_refused ex_env ex_scanned true 300 ":1.5" 0%nat ex_empty
    ex_handed_out 0 ex_read_device).
  - exact ex_env_steady.
  - vm_compute. reflexivity.
  - repeat constructor. set_solver.
  - reflexivity.
  - exact ex_read_regions.
  - exists ex_read_free. set_solver.
Defined.

Lemma ex_empty_ok : service_ok ex_empty.
Proof. by split. Qed.

Lemma requests_isolated_witness :
  service_ok (run ex_env (service_request true 300 ":1.5" ReqInspectTopology) 0%nat ex_empty).1.2 /\
  ordered (isolated ":1.5")
    (run ex_env (service_request true 300 ":1.5" ReqInspectTopology) 0%nat ex_empty).2.
Proof.
  destruct (requests_isolated ex_env true 300 ":1.5" ReqInspectTopology 0%nat ex_empty) as [H1 H2].
  - split; [done|]. intros w s Hs. exact Hs.
  - exact ex_empty_ok.
  - split; [exact H2|exact H1].
Defined.
