(* ===== verification/ProvisioningSource.v ===== *)
(** * Sources of a device preparation (src/daemon/control/ProvisioningSource)

    Which mounted filesystems can be backed up, and the check that a chosen source is still
    what it was. *)

From S2P Require Import Prelude Errors Identifiers FsPath ConfigDomain Ports.
From S2P Require Import Mounts Provisioning ProvisioningService.

(** The text before the first comma, and the text behind it if there is one. *)
Fixpoint cut_comma (s : string) : string * option string :=
  match s with
  | EmptyString => ("", None)
  | String c rest =>
      if Ascii.eqb c "," then ("", Some rest)
      else let '(a, b) := cut_comma rest in (String c a, b)
  end.

(** The loop over the options; the text gets shorter with every round. *)
Fixpoint has_option (fuel : nat) (options expected : string) : bool :=
  match fuel with
  | O => false
  | S fuel =>
      if str_empty options then false
      else
        let '(option, rest) := cut_comma options in
        if (option =? expected)%string then true
        else match rest with None => false | Some rest => has_option fuel rest expected end
  end.

(** src/daemon/control/ProvisioningSource.cpp:17-28 *)
Definition source_has_mount_option (options expected : string) : bool :=
  has_option (S (String.length options)) options expected.

(** src/daemon/control/ProvisioningSource.cpp:30-39 *)
Definition candidate_from_mount (mount : MountEntry) : SourceCandidate :=
  let root := normalized_path (mnt_target mount) in
  mkCandidate "" root (filesystem_uuid mount) root
    (lexically_normal (path_append (path_append root ".snapshots") "btrfs-backup")).

(** src/daemon/control/ProvisioningSource.cpp:41-46 *)
Definition require_btrfs_identity (mount : MountEntry) : res unit :=
  _ ← require (negb (negb (fstype mount =? "btrfs")%string || str_empty (filesystem_uuid mount)))
        (ValidationError "device preparation source must be on an identified Btrfs filesystem");
  require (source_has_mount_option (options mount) "rw")
    (ValidationError "device preparation source filesystem is not writable").

(** [std::map::insert_or_assign], with the entries in the order of their keys. *)
Fixpoint insert_or_assign (key : string) (value : SourceCandidate)
    (m : list (string * SourceCandidate)) : list (string * SourceCandidate) :=
  match m with
  | [] => [(key, value)]
  | (k, v) :: m =>
      match String.compare key k with
      | Lt => (key, value) :: (k, v) :: m
      | Eq => (key, value) :: m
      | Gt => (k, v) :: insert_or_assign key value m
      end
  end.

(** src/daemon/control/ProvisioningSource.cpp:50-68 *)
Definition provisioning_source_candidates (mounts : list MountEntry) : list SourceCandidate :=
  let usable_mount (mount : MountEntry) :=
    negb (str_empty (mnt_target mount) || negb (fstype mount =? "btrfs")%string
          || str_empty (filesystem_uuid mount)
          || negb (source_has_mount_option (options mount) "rw")) in
  map snd (fold_left (λ unique mount,
    if usable_mount mount
    then insert_or_assign (sc_path (candidate_from_mount mount)) (candidate_from_mount mount) unique
    else unique) mounts []).

(** src/daemon/control/ProvisioningSource.cpp:70-90 *)
Definition resolve_provisioning_source (mounts : list MountEntry) (source : path)
    (profile_id : ProfileId) : res SourceCandidate :=
  let normalized := normalized_path source in
  match mount_at mounts normalized with
  | None => Throw (ValidationError "device preparation source is not a mounted filesystem root")
  | Some source_mount =>
      _ ← require_btrfs_identity source_mount;
      let result := candidate_from_mount source_mount in
      let local := path_append (sc_local_snapshot_root result) (id_value profile_id) in
      match mount_for_path mounts local with
      | None => Throw (ValidationError "local snapshot directory has no mounted filesystem")
      | Some local_mount =>
          _ ← require_btrfs_identity local_mount;
          _ ← require (filesystem_uuid local_mount =? filesystem_uuid source_mount)%string
                (ValidationError
                   "local snapshot directory is not on the source Btrfs filesystem");
          Ok (result <| sc_local_snapshot_root := lexically_normal local |>)
      end
  end.
