(* ===== verification/PreparationExecutor.v ===== *)
(** * The worker that prepares a device (src/daemon/control/DevicePreparationExecutor,
      DevicePreparationRecovery, ExistingTargetInspector)

    The state that the worker shares with the daemon is the transaction on disk: every
    update reads and writes it under its lock ([update_checked], [save_checked]), and the
    daemon may change it in between.  Everything else (block devices, LUKS, Btrfs, the
    profile that is installed, the secret) is a call.  A call to the store before and after
    the locked section stands for the failures of its system calls. *)

From S2P Require Import Prelude Errors Identifiers FsPath ConfigDomain Ports.
From S2P Require Import Mounts Interaction Provisioning Preparation PreparationStore.
From S2P Require Import PreparationDevices ProvisioningService ProvisioningSource.

Open Scope Z_scope.

(** ** The collaborators *)

(** src/platform/linux/storage/BlockDeviceMetadata.hpp:11-15 *)
Record BlockDeviceMetadata := mkMetadata {
  md_filesystem_type : string;
  md_filesystem_uuid : string;
  md_partition_uuid : string;
}.

(** [std::filesystem::exists] with an error code. *)
Inductive ExistsAnswer := ExistsError | Exists (b : bool).

(** What the repository discovery reports: the repository, or a [RestoreError] with whether
    its code is RepositoryFormatUnsupported and the name of the code. *)
Inductive DiscoveryAnswer :=
| Discovered (target_filesystem_uuid repository_id : string) (generation snapshot_count : Z)
| DiscoveryFailed (format_unsupported : bool) (code_name : string).

(** What is found of a partition that was to be created. *)
Inductive PartitionCreationState := NotCreated | Created (partition : string) | CreationConflict.

Inductive ExecOp : Type -> Type :=
(* the transaction store and the clocks *)
| StoreAccess : ExecOp unit
| ReleaseProfile (profile_id operation_id : string) : ExecOp unit
| SystemTime : ExecOp Z
| SteadyNow : ExecOp Z
| Sleep : ExecOp unit
(* the secret and the lock on all preparations *)
| CopySecret (passphrase_fd : Z) : ExecOp unit
| RewindSecret : ExecOp unit
| TryDeviceLock : ExecOp bool
(* devices, sources and safety *)
| Revalidate (device : ProvisioningDevice) : ExecOp ProvisioningDevice
| InspectSafety (device : ProvisioningDevice) (target : DevicePreparationTarget)
    : ExecOp (list string)
| InspectMounts : ExecOp (list MountEntry)
| IsSubvolume (p : path) : ExecOp bool
| BlockDeviceNumber (p : path) : ExecOp string
| ReadMetadata (p : path) : ExecOp BlockDeviceMetadata
(* what changes devices *)
| SnapshotPartitionTable (device number : string) (type : PartitionTableType)
    (identifier : string) (sector_size : Z) : ExecOp string
| WipeAll (device number : string) (expected : option FilesystemDescription) : ExecOp unit
| ReplaceWithSinglePartition (device number : string) (geometry : PlannedPartitionGeometry)
    : ExecOp string
| CreatePartition (device number identifier : string) (sector_size free_start free_count : Z)
    (geometry : PlannedPartitionGeometry) : ExecOp string
| InspectReplacedPartition (device number : string) (sector_size : Z)
    (geometry : PlannedPartitionGeometry) : ExecOp PartitionCreationState
| InspectCreatedPartition (device number identifier : string) (sector_size free_start free_count : Z)
    (geometry : PlannedPartitionGeometry) : ExecOp PartitionCreationState
| FormatLuks (partition : string) : ExecOp string
| OpenLuks (partition mapper : string) : ExecOp unit
| CloseMapper (mapper : string) : ExecOp unit
| FormatBtrfsOn (device label : string) : ExecOp unit
(* the existing target *)
| InspectLuks (device : path) : ExecOp string
| OpenLuksReadOnly (device : path) (mapper : string) : ExecOp unit
| MountReadOnly (device mount_point : path) : ExecOp unit
| Unmount (mount_point : path) : ExecOp unit
| EnsureDirectory (p : path) : ExecOp unit
| RemoveDirectory (p : path) : ExecOp (option bool)
| PathExists (p : path) : ExecOp ExistsAnswer
| IsPlainDirectory (p : path) : ExecOp bool
| ListDirectory (p : path) : ExecOp (option (list path))
| DiscoverRepository (root : path) : ExecOp DiscoveryAnswer
(* the profile and its credentials *)
| BuildProfile (initial : DevicePreparationTransaction) (luks btrfs partition : string)
    : ExecOp Profile
| InstallProfile (profile : Profile) : ExecOp unit
| RegisterPassphrase (profile_id : string) (label : string) : ExecOp unit
| GenerateKey (profile_id : string) : ExecOp unit.

Abbreviation Exec := (prog DevicePreparationTransaction ExecOp).

(** [try { m }], with the exception as a value. *)
Definition attempt {A} (m : Exec A) : Exec (res A) :=
  catch (a ← m; mret (Ok a)) (λ e, mret (Throw e)).

Definition invalid {A} (message : string) : Exec A := raise (ValidationError message).
Definition check (ok : bool) (message : string) : Exec unit :=
  lift (require ok (ValidationError message)).

(** ** The store, as the worker uses it *)

(** src/daemon/control/DevicePreparationTransactionStore.cpp:318-328 *)
Definition tx_load (operation_id : string) : Exec DevicePreparationTransaction :=
  _ ← call StoreAccess;
  Lock (λ current,
    _ ← check (tx_operation_id current =? operation_id)%string
          "transaction file name does not match its operation identifier";
    mret current).

(** src/daemon/control/DevicePreparationTransactionStore.cpp:227-262 *)
Definition tx_save (t : DevicePreparationTransaction) : Exec DevicePreparationTransaction :=
  _ ← call StoreAccess;
  Lock (λ current,
    new ← lift (save_checked (Some current) t);
    _ ← put new;
    _ ← call StoreAccess;
    mret new).

(** What is written, in one piece: the attempts that end in a revision conflict change
    nothing, and giving up on them is a failure of the store.
    src/daemon/control/DevicePreparationTransactionStore.cpp:264-316 *)
Definition tx_update (operation_id : string)
    (mutator : DevicePreparationTransaction -> res DevicePreparationTransaction)
    : Exec DevicePreparationTransaction :=
  now ← call SystemTime;
  _ ← call StoreAccess;
  Lock (λ current,
    new ← lift (update_checked operation_id (tx_revision current)
                  (λ t, t ← mutator t; Ok (t <| tx_updated_at := now |>)) current);
    _ ← put new;
    _ ← call StoreAccess;
    mret new).

(** src/daemon/control/DevicePreparationExecutor.cpp:125-133 *)
Definition update (operation_id : string)
    (mutator : DevicePreparationTransaction -> res DevicePreparationTransaction) : Exec unit :=
  _ ← tx_update operation_id mutator; mret tt.

(** A mutator that does not throw. *)
Definition update' (operation_id : string)
    (mutator : DevicePreparationTransaction -> DevicePreparationTransaction) : Exec unit :=
  update operation_id (λ t, Ok (mutator t)).

(** src/daemon/control/DevicePreparationExecutor.cpp:135-147 *)
Definition phase (operation_id value : string) (can_cancel : bool) : Exec unit :=
  update operation_id (λ t,
    _ ← require (negb (tx_cancel_requested t))
          (ValidationError "device preparation cancellation was requested");
    Ok (t <| tx_status := (tx_status t) <| st_state := "running" |> <| st_phase := value |>
                            <| st_can_cancel := can_cancel |> |>)).

(** src/daemon/control/DevicePreparationExecutor.cpp:149-151 *)
Definition completed (operation_id value : string) : Exec unit :=
  update' operation_id (λ t, t <| tx_last_completed_phase := value |>).

(** Neighbours that are equal. *)
Fixpoint unique (l : list string) : list string :=
  match l with
  | x :: ((y :: _) as l') => if (x =? y)%string then unique l' else x :: unique l'
  | l => l
  end.

(** The loop of [request_access]; the deadline is thirty seconds away and every round
    sleeps for twenty milliseconds, so [polls] need not be more than 1501.
    src/daemon/control/DevicePreparationExecutor.cpp:168-177 *)
Fixpoint await_access (polls : nat) (operation_id : string) (generation deadline : Z) : Exec unit :=
  match polls with
  | O => invalid "device preparation access authorization timed out"
  | S polls =>
      now ← call SteadyNow;
      if negb (now <? deadline)
      then invalid "device preparation access authorization timed out"
      else
        transaction ← tx_load operation_id;
        if generation <=? tx_authorized_access_generation transaction then mret tt
        else if tx_cancel_requested transaction
        then invalid "device preparation cancellation was requested"
        else _ ← call Sleep; await_access polls operation_id generation deadline
  end.

(** src/daemon/control/DevicePreparationExecutor.cpp:153-178 *)
Definition request_access (polls : nat) (operation_id : string) (devices : list string)
    (mapper_control : bool) : Exec unit :=
  let devices := unique (std_sort String.ltb devices) in
  new ← tx_update operation_id (λ t,
    _ ← require (negb (tx_access_generation t =? 2 ^ 64 - 1))
          (ValidationError "device preparation access generation is exhausted");
    Ok (t <| tx_requested_device_access := devices |> <| tx_requested_mapper_control := mapper_control |>
          <| tx_access_generation := tx_access_generation t + 1 |>));
  start ← call SteadyNow;
  await_access polls operation_id (tx_access_generation new) (start + 30 * 1000000000).

(** src/daemon/control/DevicePreparationExecutor.cpp:180-191 *)
Definition release_profile_reservation (operation_id : string) : Exec unit :=
  transaction ← tx_load operation_id;
  if negb (tx_profile_reservation_state transaction =? "held")%string then mret tt
  else
    now ← call SystemTime;
    transaction ← tx_save (transaction <| tx_profile_reservation_state := "releasing" |>
                             <| tx_updated_at := now |>);
    _ ← call (ReleaseProfile (tx_profile_id transaction) operation_id);
    now ← call SystemTime;
    _ ← tx_save (transaction <| tx_profile_reservation_state := "released" |>
                   <| tx_updated_at := now |>);
    mret tt.

(** What the handler takes for a target that was not touched.
    src/daemon/control/DevicePreparationExecutor.cpp:198-201 *)
Definition target_unchanged (t : DevicePreparationTransaction) : bool :=
  bool_decide (tg_mode (tx_target t) = AdoptExistingTarget)
  || str_empty (tx_last_completed_phase t) || (tx_last_completed_phase t =? "inspect")%string
  || (tx_last_completed_phase t =? "backup-partition-table")%string.

(** src/daemon/control/DevicePreparationExecutor.cpp:193-207 *)
Definition release_profile_reservation_after_safe_failure (operation_id : string) : Exec unit :=
  catch
    (transaction ← tx_load operation_id;
     let profile_committed := (tx_configuration_state transaction =? "installed")%string in
     if profile_committed || target_unchanged transaction
     then release_profile_reservation operation_id
     else mret tt)
    (λ _, mret tt).

(** ** The existing target *)

(** src/daemon/control/ExistingTargetInspector.cpp:26-54 *)
Definition classify_repositoryless_root (root : path)
    : Exec (ExistingTargetClassification * string) :=
  entries ← call (ListDirectory root);
  match entries with
  | None => mret (ForeignOrInvalidRepository, "repository-root-unreadable")
  | Some entries =>
      legacy ← call (IsPlainDirectory (path_append root "snapshots"));
      legacy ← fold_left (λ legacy entry,
          legacy ← legacy;
          plain ← call (IsPlainDirectory entry);
          if plain : bool then
            nested ← call (IsPlainDirectory (path_append entry "snapshots"));
            mret (legacy || nested)
          else mret legacy) entries (mret legacy);
      if bool_decide (entries = []) then mret (EmptyFilesystem, "repository-not-found")
      else if legacy : bool then mret (LegacyRepository, "legacy-repository-layout")
      else mret (ForeignOrInvalidRepository, "repository-not-found")
  end.

(** src/daemon/control/ExistingTargetInspector.cpp:56-62 *)
Definition validate_partition (partition : ExistingPartition) : res unit :=
  require (negb (negb (ep_suitable_for_adoption partition)
                 || negb (fs_type (ep_filesystem partition) =? "crypto_LUKS")%string
                 || str_empty (default "" (ep_partition_uuid partition))
                 || negb (bool_decide (ep_mount_points partition = []))
                 || negb (bool_decide (ep_holders partition = []))
                 || ep_active_swap partition
                 || negb (bool_decide (ep_blockers partition = []))))
    (ValidationError "partition is not suitable for existing target inspection").

(** The first of two exceptions. *)
Definition first_pending (pending : option exn) (r : res unit) : option exn :=
  match pending, r with
  | Some e, _ => Some e
  | None, Throw e => Some e
  | None, Ok _ => None
  end.

(** src/daemon/control/ExistingTargetInspector.cpp:64-88 *)
Definition finish_session (mapper_name : string) (mount_point : path) (mounted opened : bool)
    (pending : option exn) : Exec unit :=
  r ← attempt (if mounted then call (Unmount mount_point) else mret tt);
  let pending := first_pending pending r in
  r ← attempt (if opened then call (CloseMapper mapper_name) else mret tt);
  match first_pending pending r with
  | Some e => raise e
  | None => mret tt
  end.

(** What is found on the mounted filesystem.
    src/daemon/control/ExistingTargetInspector.cpp:138-207 *)
Definition examine_repository (partition : ExistingPartition) (luks_uuid btrfs_uuid : string)
    (mount_point : path) : Exec ExistingTargetInspectionSummary :=
  let partition_uuid := default "" (ep_partition_uuid partition) in
  let without_repository (c : ExistingTargetClassification) (diagnostic_code : string) :=
    mkSummary c diagnostic_code luks_uuid btrfs_uuid partition_uuid "" 0 0 in
  found ← call (PathExists (path_append mount_point "repository.json"));
  match found with
  | ExistsError =>
      mret (without_repository ForeignOrInvalidRepository "repository-metadata-inaccessible")
  | Exists false =>
      '(classification, diagnostic_code) ← classify_repositoryless_root mount_point;
      mret (without_repository classification diagnostic_code)
  | Exists true =>
      repository ← call (DiscoverRepository mount_point);
      match repository with
      | Discovered target_filesystem_uuid repository_id generation snapshot_count =>
          if negb (target_filesystem_uuid =? btrfs_uuid)%string
          then mret (without_repository ForeignOrInvalidRepository
                       "repository-filesystem-identity-mismatch")
          else mret (mkSummary CompatibleRepository "" luks_uuid btrfs_uuid partition_uuid
                       repository_id generation snapshot_count)
      | DiscoveryFailed format_unsupported code_name =>
          mret (without_repository
                  (if format_unsupported then UnsupportedRepository else ForeignOrInvalidRepository)
                  code_name)
      end
  end.

(** The inspection once the container is open.
    src/daemon/control/ExistingTargetInspector.cpp:117-211 *)
Definition inspect_opened (partition : ExistingPartition) (luks_uuid mapper_name : string)
    (mount_point : path) (mapper_ready : path -> Exec unit)
    : Exec ExistingTargetInspectionSummary :=
  let mapper_path := path_append "/dev/mapper" mapper_name in
  let end_with {A} (mounted : bool) (r : res A) : Exec A :=
    match r with
    | Ok a => _ ← finish_session mapper_name mount_point mounted true None; mret a
    | Throw e => _ ← finish_session mapper_name mount_point mounted true (Some e); raise e
    end in
  mapped ← attempt (_ ← mapper_ready mapper_path; call (ReadMetadata mapper_path));
  match mapped with
  | Throw e => end_with false (Throw e)
  | Ok mapped =>
      if negb (md_filesystem_type mapped =? "btrfs")%string || str_empty (md_filesystem_uuid mapped)
      then end_with false (Ok (mkSummary NotBtrfsFilesystem "not-btrfs-filesystem" luks_uuid ""
             (default "" (ep_partition_uuid partition)) "" 0 0))
      else
        mounted ← attempt (call (MountReadOnly mapper_path mount_point));
        match mounted with
        | Throw e => end_with false (Throw e)
        | Ok _ =>
            summary ← attempt (examine_repository partition luks_uuid (md_filesystem_uuid mapped)
                                 mount_point);
            end_with true summary
        end
  end.

(** src/daemon/control/ExistingTargetInspector.cpp:101-213 *)
Definition inspect_existing (partition : ExistingPartition) (mapper_name : string)
    (mount_point : path) (mapper_ready : path -> Exec unit)
    : Exec ExistingTargetInspectionSummary :=
  _ ← lift (validate_partition partition);
  let device := bd_display_path (ep_identity partition) in
  luks_uuid ← call (InspectLuks device);
  _ ← check (negb (str_empty (fs_uuid (ep_filesystem partition))
                   || negb (fs_uuid (ep_filesystem partition) =? luks_uuid)%string))
        "LUKS2 identity changed before existing target inspection";
  opened ← attempt (call (OpenLuksReadOnly device mapper_name));
  match opened with
  | Throw e => _ ← finish_session mapper_name mount_point false false (Some e); raise e
  | Ok _ => inspect_opened partition luks_uuid mapper_name mount_point mapper_ready
  end.

(** src/daemon/control/ExistingTargetInspector.cpp:215-236 *)
Definition cleanup_session (mapper_name : string) (mount_point : path) : Exec unit :=
  r ← attempt (call (Unmount mount_point));
  let pending := first_pending None r in
  r ← attempt (call (CloseMapper mapper_name));
  match first_pending pending r with
  | Some e => raise e
  | None => mret tt
  end.

(** ** The phases *)

(** What the transaction asks for, once it is found complete. *)
Inductive Work :=
| EraseWork (geometry : PlannedPartitionGeometry)
| CreateWork (free_region : UnallocatedRegion) (geometry : PlannedPartitionGeometry)
| ReformatWork (partition : ExistingPartition)
| AdoptWork (partition : ExistingPartition).

(** src/daemon/control/DevicePreparationExecutor.cpp:217-228 *)
Definition work (t : DevicePreparationTarget) : res Work :=
  match tg_mode t with
  | EraseWholeDevice =>
      match tg_planned_partition_geometry t with
      | Some geometry => Ok (EraseWork geometry)
      | None => Throw (ValidationError "whole-device preparation transaction is incomplete")
      end
  | CreatePartitionInUnallocatedSpace =>
      match tg_free_region t, tg_planned_partition_geometry t with
      | Some free_region, Some geometry => Ok (CreateWork free_region geometry)
      | _, _ => Throw (ValidationError "free-space preparation transaction is incomplete")
      end
  | mode =>
      match tg_partition t with
      | Some partition =>
          Ok (if bool_decide (mode = AdoptExistingTarget) then AdoptWork partition
              else ReformatWork partition)
      | None => Throw (ValidationError "device preparation transaction mode is not executable")
      end
  end.

Definition is_erase (w : Work) : bool := match w with EraseWork _ => true | _ => false end.

(** src/daemon/control/DevicePreparationExecutor.cpp:220-222 *)
Definition require_unmounted (initial : DevicePreparationTransaction) (w : Work) (message : string)
    : Exec unit :=
  if is_erase w then
    selected ← call (Revalidate (tx_device initial));
    check (negb (dev_mounted selected)) message
  else mret tt.

(** src/daemon/control/DevicePreparationExecutor.cpp:229-242 *)
Fixpoint check_sources (profile_id : string) (mounts : list MountEntry)
    (sources : list DevicePreparationSource) : Exec unit :=
  match sources with
  | [] => mret tt
  | selected_source :: sources =>
      is_subvolume ← call (IsSubvolume (src_subvolume selected_source));
      _ ← check is_subvolume "selected source is not a Btrfs subvolume";
      validated ← lift (make_ident KProfile profile_id);
      source ← lift (resolve_provisioning_source mounts (src_subvolume selected_source) validated);
      _ ← check (negb (negb (sc_filesystem_uuid source =? src_filesystem_uuid selected_source)%string
                       || negb (sc_mount_root source =? src_mount_root selected_source)%string
                       || negb (sc_local_snapshot_root source
                                =? src_local_snapshot_dir selected_source)%string))
            "selected source filesystem changed before device preparation";
      check_sources profile_id mounts sources
  end.

(** Everything before the target is touched.
    src/daemon/control/DevicePreparationExecutor.cpp:216-258 *)
Definition inspect_phase (operation_id : string) (initial : DevicePreparationTransaction)
    : Exec Work :=
  _ ← phase operation_id "inspect" true;
  w ← lift (work (tx_target initial));
  _ ← require_unmounted initial w "selected device or one of its partitions is mounted";
  source_mounts ← call InspectMounts;
  _ ← check_sources (tx_profile_id initial) source_mounts (tx_sources initial);
  _ ← completed operation_id "inspect";
  locked ← call TryDeviceLock;
  _ ← lift (require locked (ManagerOperationError Busy "another device is being prepared"));
  _ ← require_unmounted initial w "selected device or one of its partitions became mounted";
  safety_reasons ← call (InspectSafety (tx_device initial) (tx_target initial));
  match safety_reasons with
  | [] => mret w
  | reason :: _ =>
      raise (ManagerOperationError Conflict
        ("selected device is not safe for destructive preparation: " +:+ reason))
  end.

(** src/daemon/control/DevicePreparationExecutor.cpp:67-82 *)
Definition partition_table_format (type : PartitionTableType) : res PartitionTableType :=
  match type with
  | Unsupported => Throw (ValidationError "unsupported partition table cannot be backed up safely")
  | type => Ok type
  end.

(** src/daemon/control/DevicePreparationExecutor.cpp:417-430 *)
Definition backup_partition_table (operation_id : string) (initial : DevicePreparationTransaction)
    : Exec unit :=
  let device := tg_device (tx_target initial) in
  _ ← phase operation_id "backup-partition-table" false;
  format ← lift (partition_table_format (pt_type (sd_partition_table device)));
  backup ← call (SnapshotPartitionTable (dev_path (tx_device initial))
                   (dev_major_minor (tx_device initial)) format
                   (pt_identifier (sd_partition_table device)) (sd_logical_sector_size device));
  _ ← check (negb (str_empty backup)) "partition table backup is empty";
  update' operation_id (λ t, t <| tx_partition_table_backup := backup |>
                               <| tx_last_completed_phase := "backup-partition-table" |>).

(** The partition that is to be formatted.
    src/daemon/control/DevicePreparationExecutor.cpp:378-469 *)
Definition make_partition (operation_id : string) (initial : DevicePreparationTransaction)
    (w : Work) : Exec string :=
  let path := dev_path (tx_device initial) in
  let number := dev_major_minor (tx_device initial) in
  let device := tg_device (tx_target initial) in
  match w with
  | EraseWork geometry =>
      _ ← backup_partition_table operation_id initial;
      _ ← phase operation_id "wipe-signatures" false;
      _ ← call (WipeAll path number None);
      _ ← completed operation_id "wipe-signatures";
      _ ← phase operation_id "partition" false;
      partition ← call (ReplaceWithSinglePartition path number geometry);
      _ ← update' operation_id (λ t, t <| tx_partition := partition |>
                                       <| tx_last_completed_phase := "partition" |>);
      mret partition
  | CreateWork free_region geometry =>
      _ ← backup_partition_table operation_id initial;
      _ ← phase operation_id "partition" false;
      partition ← call (CreatePartition path number (pt_identifier (sd_partition_table device))
                          (sd_logical_sector_size device) (ur_start_sector free_region)
                          (ur_sector_count free_region) geometry);
      _ ← update' operation_id (λ t, t <| tx_partition := partition |>
                                       <| tx_last_completed_phase := "partition" |>);
      mret partition
  | ReformatWork selected | AdoptWork selected =>
      _ ← phase operation_id "wipe-signatures" false;
      let partition := bd_display_path (ep_identity selected) in
      _ ← call (WipeAll partition (bd_major_minor (ep_identity selected))
                  (Some (ep_filesystem selected)));
      _ ← completed operation_id "wipe-signatures";
      mret partition
  end.

Section executor.
(** Rounds of [await_access], whether there is an inspector of existing targets, and the
    directory of its mounts. *)
Context (polls : nat) (has_inspector : bool) (inspection_mount_root : path).

(** src/daemon/control/DevicePreparationExecutor.cpp:471-490 *)
Definition format_partition (operation_id : string) (initial : DevicePreparationTransaction)
    (partition : string) : Exec (string * string) :=
  partition_device_number ←
    match tg_partition (tx_target initial) with
    | Some p => mret (bd_major_minor (ep_identity p))
    | None =>
        number ← call (BlockDeviceNumber partition);
        _ ← update' operation_id (λ t, t <| tx_partition_device_number := number |>);
        _ ← request_access polls operation_id [dev_major_minor (tx_device initial); number] false;
        mret number
    end;
  _ ← phase operation_id "luks-format" false;
  luks_uuid ← call (FormatLuks partition);
  _ ← update' operation_id (λ t, t <| tx_luks_uuid := luks_uuid |>
                                   <| tx_last_completed_phase := "luks-format" |>);
  mret (partition_device_number, luks_uuid).

(** src/daemon/control/DevicePreparationExecutor.cpp:492-498 *)
Definition prepare_open (operation_id : string) (initial : DevicePreparationTransaction)
    (partition_device_number : string) : Exec unit :=
  _ ← phase operation_id "open" false;
  _ ← request_access polls operation_id
        [dev_major_minor (tx_device initial); partition_device_number] true;
  call RewindSecret.

(** What is done while [mapper] is set: from the opening to the closing of the container.
    src/daemon/control/DevicePreparationExecutor.cpp:500-534 *)
Definition format_filesystem (operation_id : string) (initial : DevicePreparationTransaction)
    (partition partition_device_number mapper : string) : Exec (string * string) :=
  _ ← call (OpenLuks partition mapper);
  _ ← update' operation_id (λ t, t <| tx_mapper := mapper |> <| tx_last_completed_phase := "open" |>
                                   <| tx_cleanup_result := "pending" |>);
  let mapper_path := "/dev/mapper/" +:+ mapper in
  mapper_device_number ← call (BlockDeviceNumber mapper_path);
  _ ← update' operation_id (λ t, t <| tx_mapper_device_number := mapper_device_number |>);
  _ ← request_access polls operation_id
        [dev_major_minor (tx_device initial); partition_device_number; mapper_device_number] true;
  _ ← phase operation_id "mkfs-btrfs" false;
  _ ← call (FormatBtrfsOn mapper_path (tx_profile_name initial));
  mapper_metadata ← call (ReadMetadata mapper_path);
  partition_metadata ← call (ReadMetadata partition);
  _ ← check (negb (str_empty (md_filesystem_uuid mapper_metadata)))
        "Btrfs UUID is unavailable after formatting";
  _ ← check (negb (str_empty (md_partition_uuid partition_metadata)))
        "partition UUID is unavailable after formatting";
  let btrfs_uuid := md_filesystem_uuid mapper_metadata in
  let partition_uuid := md_partition_uuid partition_metadata in
  _ ← update' operation_id (λ t, t <| tx_btrfs_uuid := btrfs_uuid |>
                                   <| tx_partition_uuid := partition_uuid |>
                                   <| tx_last_completed_phase := "mkfs-btrfs" |>);
  _ ← phase operation_id "close" false;
  _ ← call (CloseMapper mapper);
  mret (btrfs_uuid, partition_uuid).

(** src/daemon/control/DevicePreparationExecutor.cpp:582-587 *)
Definition succeed (operation_id : string) : Exec unit :=
  update' operation_id (λ t,
    t <| tx_status := (tx_status t) <| st_state := "succeeded" |> <| st_phase := "complete" |>
                        <| st_can_cancel := false |> <| st_recovery_action := "" |> |>).

(** src/daemon/control/DevicePreparationExecutor.cpp:536-587 *)
Definition publish_profile (operation_id : string) (initial : DevicePreparationTransaction)
    (partition_device_number luks_uuid btrfs_uuid partition_uuid : string) : Exec unit :=
  _ ← update' operation_id (λ t, t <| tx_mapper := "" |> <| tx_mapper_device_number := "" |>
                                   <| tx_cleanup_result := "mapper-closed" |>
                                   <| tx_last_completed_phase := "close" |>);
  _ ← request_access polls operation_id
        [dev_major_minor (tx_device initial); partition_device_number] false;
  _ ← phase operation_id "write-profile" false;
  _ ← update' operation_id (λ t, t <| tx_configuration_state := "in-progress" |>);
  profile ← call (BuildProfile initial luks_uuid btrfs_uuid partition_uuid);
  _ ← call (InstallProfile profile);
  _ ← update' operation_id (λ t, t <| tx_configuration_state := "installed" |>
                                   <| tx_last_completed_phase := "write-profile" |>
                                   <| tx_credentials_state := "in-progress" |>);
  _ ← lift (make_ident KProfile (tx_profile_id initial));
  _ ← call (RegisterPassphrase (tx_profile_id initial) (tx_passphrase_label initial));
  _ ← (if tx_create_automatic_key initial
       then _ ← call RewindSecret; call (GenerateKey (tx_profile_id initial))
       else mret tt);
  _ ← update' operation_id (λ t, t <| tx_credentials_state := "installed" |>
                                   <| tx_last_completed_phase := "credentials" |>);
  _ ← release_profile_reservation operation_id;
  succeed operation_id.

(** Reset of what an inspection had recorded.
    src/daemon/control/DevicePreparationExecutor.cpp:309-314 *)
Definition inspection_over (result : string) (t : DevicePreparationTransaction)
    : DevicePreparationTransaction :=
  t <| tx_mapper := "" |> <| tx_mapper_device_number := "" |>
    <| tx_inspection_mount_point := "" |> <| tx_cleanup_result := result |>.

(** The inspection of the target to adopt.
    src/daemon/control/DevicePreparationExecutor.cpp:284-325 *)
Definition inspect_for_adoption (operation_id : string) (initial : DevicePreparationTransaction)
    (partition : ExistingPartition) (mount_point : path) : Exec ExistingTargetInspectionSummary :=
  let number := dev_major_minor (tx_device initial) in
  let partition_device_number := bd_major_minor (ep_identity partition) in
  catch
    (_ ← request_access polls operation_id [number; partition_device_number] true;
     _ ← call RewindSecret;
     inspected ← inspect_existing partition operation_id mount_point (λ mapper_path,
       mapper_device_number ← call (BlockDeviceNumber mapper_path);
       _ ← update' operation_id (λ t, t <| tx_mapper_device_number := mapper_device_number |>);
       request_access polls operation_id
         [number; partition_device_number; mapper_device_number] true);
     removed ← call (RemoveDirectory mount_point);
     _ ← check (bool_decide (removed = Some true))
           "cannot remove existing target inspection mount point";
     _ ← update' operation_id (inspection_over "inspection-cleaned");
     mret inspected)
    (λ e,
     removed ← call (RemoveDirectory mount_point);
     _ ← update' operation_id (inspection_over
           (if bool_decide (removed = None) then "inspection-directory-remove-failed"
            else "inspection-cleaned"));
     raise e).

(** [profile.enabled = false;] *)
Definition disabled (p : Profile) : Profile :=
  mkProfile (configuration_generation p) (profile_id p) (profile_name p) false (target p) (paths p)
    (settings p) (hooks p) (sources p).

(** src/daemon/control/DevicePreparationExecutor.cpp:259-377 *)
Definition adopt_target (operation_id : string) (initial : DevicePreparationTransaction)
    (partition : ExistingPartition) : Exec unit :=
  match tg_expected_inspection (tx_target initial) with
  | None => invalid "existing target adoption transaction is incomplete"
  | Some expected =>
      _ ← check (has_inspector && negb (str_empty inspection_mount_root))
            "existing target adoption transaction is incomplete";
      _ ← phase operation_id "verify-existing-target" false;
      _ ← call (EnsureDirectory inspection_mount_root);
      let mount_point := path_append inspection_mount_root operation_id in
      _ ← call (EnsureDirectory mount_point);
      _ ← update' operation_id (λ t, t <| tx_mapper := operation_id |>
                                       <| tx_inspection_mount_point := mount_point |>
                                       <| tx_cleanup_result := "pending" |>);
      inspected ← inspect_for_adoption operation_id initial partition mount_point;
      _ ← request_access polls operation_id
            [dev_major_minor (tx_device initial); bd_major_minor (ep_identity partition)] false;
      _ ← lift (require (bool_decide (inspected = expected))
                  (ManagerOperationError Conflict
                     "existing target changed since the accepted inspection"));
      _ ← update' operation_id (λ t,
            t <| tx_partition := match tg_partition (tx_target t) with
                                 | Some p => bd_display_path (ep_identity p)
                                 | None => ""
                                 end |>
              <| tx_partition_uuid := in_partition_uuid inspected |>
              <| tx_luks_uuid := in_luks_uuid inspected |>
              <| tx_btrfs_uuid := in_btrfs_uuid inspected |>
              <| tx_last_completed_phase := "verify-existing-target" |>);
      _ ← phase operation_id "write-profile" false;
      _ ← update' operation_id (λ t, t <| tx_configuration_state := "in-progress" |>);
      profile ← call (BuildProfile initial (in_luks_uuid inspected) (in_btrfs_uuid inspected)
                        (in_partition_uuid inspected));
      _ ← call (InstallProfile (disabled profile));
      _ ← update' operation_id (λ t, t <| tx_configuration_state := "installed" |>
                                       <| tx_credentials_state := "not-applicable" |>
                                       <| tx_last_completed_phase := "write-profile" |>);
      _ ← release_profile_reservation operation_id;
      succeed operation_id
  end.

(** What the transaction records of a failure, in the phase it was in.
    src/daemon/control/DevicePreparationExecutor.cpp:599-617 *)
Definition record_failure (initial : DevicePreparationTransaction)
    (known cleanup_required cleanup_ok : bool) (t : DevicePreparationTransaction)
    : DevicePreparationTransaction :=
  let cancelled := tx_cancel_requested t in
  let status := (tx_status t)
    <| st_state := if cancelled then "cancelled" else "failed" |>
    <| st_error_code :=
         if cancelled then ""
         else if known then "device-preparation." +:+ st_phase (tx_status t) +:+ "-failed"
         else "device-preparation.unknown-failed" |>
    <| st_recovery_action :=
         if cancelled then ""
         else if bool_decide (tg_mode (tx_target initial) = AdoptExistingTarget)
         then "Rescan and inspect the existing target before creating a new adoption plan."
         else if known
         then "Inspect the recorded device artifacts and complete or remove partial structures manually."
         else "Inspect and repair the recorded device artifacts manually." |>
    <| st_can_cancel := false |> in
  t <| tx_status := status |>
    <| tx_cleanup_result := if negb cleanup_required then "not-required"
                            else if cleanup_ok then "mapper-closed" else "mapper-close-failed" |>
    <| tx_mapper := if cleanup_ok then "" else tx_mapper t |>.

(** The handlers: for a [std::exception], and for everything else.
    src/daemon/control/DevicePreparationExecutor.cpp:588-653 *)
Definition on_failure (operation_id : string) (initial : DevicePreparationTransaction)
    (mapper : string) (e : exn) : Exec unit :=
  let known := is_std_exception e in
  let cleanup_required := negb (str_empty mapper) in
  closed ← attempt (if cleanup_required then call (CloseMapper mapper) else mret tt);
  let cleanup_ok := is_ok closed in
  _ ← catch (update' operation_id (record_failure initial known cleanup_required cleanup_ok))
        (λ e, if known && negb (is_std_exception e) then raise e else mret tt);
  release_profile_reservation_after_safe_failure operation_id.

(** A part of the [try] block, in which the variable [mapper] has the given value.
    src/daemon/control/DevicePreparationExecutor.cpp:214-215 *)
Definition guarded {A} (operation_id : string) (initial : DevicePreparationTransaction)
    (mapper : string) (m : Exec A) (rest : A -> Exec unit) : Exec unit :=
  r ← attempt m;
  match r with
  | Ok a => rest a
  | Throw e => on_failure operation_id initial mapper e
  end.

(** src/daemon/control/DevicePreparationExecutor.cpp:209-654 *)
Definition execute (operation_id : string) (passphrase_fd : Z) : Exec unit :=
  initial ← tx_load operation_id;
  _ ← check ((tx_state initial =? "queued")%string || (tx_state initial =? "running")%string)
        "device preparation transaction is not executable";
  _ ← call (CopySecret passphrase_fd);
  guarded operation_id initial ""
    (w ← inspect_phase operation_id initial;
     match w with
     | AdoptWork partition => _ ← adopt_target operation_id initial partition; mret None
     | _ =>
         partition ← make_partition operation_id initial w;
         '(partition_device_number, luks_uuid) ← format_partition operation_id initial partition;
         _ ← prepare_open operation_id initial partition_device_number;
         mret (Some (partition, partition_device_number, luks_uuid))
     end)
    (λ opened,
     match opened with
     | None => mret tt
     | Some (partition, partition_device_number, luks_uuid) =>
         let mapper := "btrfs-backup-" +:+ tx_profile_id initial in
         guarded operation_id initial mapper
           (format_filesystem operation_id initial partition partition_device_number mapper)
           (λ uuids,
            guarded operation_id initial ""
              (publish_profile operation_id initial partition_device_number luks_uuid
                 uuids.1 uuids.2)
              (λ _, mret tt))
     end).
End executor.

(** ** Recovery of an interrupted preparation

    The plan is dereferenced without a look; DevicePreparationTransactionCodec refuses to
    read a transaction that lacks it. *)

(** src/daemon/control/DevicePreparationRecovery.cpp:55-58 *)
Definition persist (t : DevicePreparationTransaction) : Exec unit :=
  now ← call SystemTime;
  _ ← tx_save (t <| tx_updated_at := now |>);
  mret tt.

(** What is recorded of the partition that is found. *)
Definition recovered (t : DevicePreparationTransaction) (result action : string)
    : DevicePreparationTransaction :=
  t <| tx_cleanup_result := result |>
    <| tx_status := (tx_status t) <| st_recovery_action := action |> |>.
Definition partition_found (t : DevicePreparationTransaction) (partition action : string)
    : DevicePreparationTransaction :=
  recovered (t <| tx_partition := partition |> <| tx_last_completed_phase := "partition" |>)
    "partition-detected" action.

(** src/daemon/control/DevicePreparationRecovery.cpp:60-97 *)
Definition inspect_replaced_partition (t : DevicePreparationTransaction) : Exec bool :=
  if negb (bool_decide (tg_mode (tx_target t) = EraseWholeDevice)) || negb (str_empty (tx_partition t))
     || negb (tx_last_completed_phase t =? "wipe-signatures")%string
     || str_empty (tx_partition_table_backup t)
  then mret false
  else
    match tg_planned_partition_geometry (tx_target t) with
    | None => invalid "planned partition geometry is missing"
    | Some planned =>
        inspection ← attempt (call (InspectReplacedPartition (dev_path (tx_device t))
                       (dev_major_minor (tx_device t))
                       (sd_logical_sector_size (tg_device (tx_target t))) planned));
        _ ← persist match inspection with
            | Ok (Created partition) =>
                partition_found t partition
                  "The planned replacement GPT and partition exist. Inspect them before continuing manually."
            | Ok _ => recovered t "partition-state-conflict"
                "The replacement GPT does not exactly match the saved plan. Inspect the saved partition table backup manually."
            | Throw _ => recovered t "partition-inspection-failed"
                "The replacement GPT could not be verified. Inspect the saved partition table backup manually."
            end;
        mret true
    end.

(** src/daemon/control/DevicePreparationRecovery.cpp:99-143 *)
Definition inspect_created_partition (t : DevicePreparationTransaction) : Exec bool :=
  if negb (bool_decide (tg_mode (tx_target t) = CreatePartitionInUnallocatedSpace))
     || negb (str_empty (tx_partition t))
     || negb (tx_last_completed_phase t =? "backup-partition-table")%string
     || str_empty (tx_partition_table_backup t)
  then mret false
  else
    match tg_free_region (tx_target t), tg_planned_partition_geometry (tx_target t) with
    | Some free_region, Some planned =>
        let device := tg_device (tx_target t) in
        inspection ← attempt (call (InspectCreatedPartition (dev_path (tx_device t))
                       (dev_major_minor (tx_device t)) (pt_identifier (sd_partition_table device))
                       (sd_logical_sector_size device) (ur_start_sector free_region)
                       (ur_sector_count free_region) planned));
        _ ← persist match inspection with
            | Ok (Created partition) =>
                partition_found t partition
                  "The planned partition exists. Inspect it before completing or removing it manually."
            | Ok NotCreated => recovered t "partition-not-created"
                "No new partition was detected. Rescan storage and build a new preparation plan."
            | Ok CreationConflict => recovered t "partition-state-conflict"
                "The partition table no longer matches the saved plan. Inspect it manually."
            | Throw _ => recovered t "partition-inspection-failed"
                "The partition state could not be verified. Inspect the saved partition table backup manually."
            end;
        mret true
    | _, _ => invalid "planned partition geometry is missing"
    end.

(** src/daemon/control/DevicePreparationRecovery.cpp:145-168 *)
Definition cleanup_existing_target (has_inspector : bool) (t : DevicePreparationTransaction)
    : Exec unit :=
  _ ← check (negb (negb has_inspector || str_empty (tx_mapper t)
                   || str_empty (tx_inspection_mount_point t)))
        "existing target cleanup state is incomplete";
  cleaned ← attempt
    (_ ← cleanup_session (tx_mapper t) (tx_inspection_mount_point t);
     call (RemoveDirectory (tx_inspection_mount_point t)));
  persist match cleaned with
    | Ok (Some _) => t <| tx_cleanup_result := "inspection-cleaned" |> <| tx_mapper := "" |>
                       <| tx_inspection_mount_point := "" |>
    | _ => t <| tx_cleanup_result := "inspection-cleanup-failed" |>
    end.

(** src/daemon/control/DevicePreparationRecovery.cpp:170-179 *)
Definition close_mapper (t : DevicePreparationTransaction) : Exec unit :=
  closed ← attempt (call (CloseMapper (tx_mapper t)));
  persist match closed with
    | Ok _ => t <| tx_cleanup_result := "mapper-closed" |> <| tx_mapper := "" |>
    | Throw _ => t <| tx_cleanup_result := "mapper-close-failed" |>
    end.

(** src/daemon/control/DevicePreparationRecovery.cpp:40-53 *)
Definition recover (has_inspector : bool) (operation_id : string) : Exec unit :=
  transaction ← tx_load operation_id;
  _ ← check (tx_state transaction =? "interrupted")%string
        "device preparation transaction does not require cleanup";
  replaced ← inspect_replaced_partition transaction;
  if replaced : bool then mret tt
  else
    created ← inspect_created_partition transaction;
    if created : bool then mret tt
    else if str_empty (tx_mapper transaction) && str_empty (tx_inspection_mount_point transaction)
    then mret tt
    else if bool_decide (tg_mode (tx_target transaction) = AdoptExistingTarget)
    then cleanup_existing_target has_inspector transaction
    else close_mapper transaction.
