(* ===== verification/PreparationSafety.v ===== *)
(** * What the worker may do to a device

    Every call of the worker that changes a device comes after the checks, the backup of
    the partition table and the record of the phase it belongs to. *)

From S2P Require Import Prelude Errors Identifiers FsPath ConfigDomain Ports.
From S2P Require Import Mounts Interaction Provisioning Preparation PreparationStore.
From S2P Require Import PreparationDevices ProvisioningService ProvisioningSource.
From S2P Require Import PreparationExecutor.

Open Scope Z_scope.

Abbreviation EEntry := (entry DevicePreparationTransaction ExecOp).

(** ** What counts as justified *)

(** The calls that change what is on a device. *)
Definition destructive {X} (o : ExecOp X) : bool :=
  match o with
  | WipeAll _ _ _ | ReplaceWithSinglePartition _ _ _ | CreatePartition _ _ _ _ _ _ _
  | FormatLuks _ | FormatBtrfsOn _ _ => true
  | _ => false
  end.

(** The preparation as it was found when the worker began, and the checks: no other
    preparation is running, and the inspection that was made after this was established
    has nothing against it; a device that is to be erased was then the one recorded, not
    mounted. *)
Definition cleared (operation_id : string) (initial : DevicePreparationTransaction) (w : Work)
    (pre : list EEntry) : Prop :=
  Locked initial ∈ pre /\ tx_operation_id initial = operation_id /\
  work (tx_target initial) = Ok w /\
  exists checks,
    sublist ([Did TryDeviceLock (Ok true)] ++ checks ++
             [Did (InspectSafety (tx_device initial) (tx_target initial)) (Ok [])]) pre /\
    (is_erase w = true ->
     exists d, dev_mounted d = false /\ checks = [Did (Revalidate (tx_device initial)) (Ok d)]).

(** The phase was recorded, at a moment when no cancellation was requested. *)
Definition in_phase (value : string) (pre : list EEntry) : Prop :=
  exists t t', Stored t t' ∈ pre /\ st_phase (tx_status t') = value /\
    st_state (tx_status t') = "running" /\ tx_cancel_requested t = false.

(** The partition table was read and what was read is on disk. *)
Definition backed_up (initial : DevicePreparationTransaction) (pre : list EEntry) : Prop :=
  exists backup t t' type,
    Did (SnapshotPartitionTable (dev_path (tx_device initial)) (dev_major_minor (tx_device initial))
           type (pt_identifier (sd_partition_table (tg_device (tx_target initial))))
           (sd_logical_sector_size (tg_device (tx_target initial)))) (Ok backup) ∈ pre /\
    backup <> "" /\ Stored t t' ∈ pre /\ tx_partition_table_backup t' = backup.

(** The partition to format: the selected one, or the one that was just made. *)
Definition own_partition (initial : DevicePreparationTransaction) (w : Work) (partition : string)
    (pre : list EEntry) : Prop :=
  match w with
  | EraseWork geometry =>
      Did (ReplaceWithSinglePartition (dev_path (tx_device initial))
             (dev_major_minor (tx_device initial)) geometry) (Ok partition) ∈ pre
  | CreateWork free_region geometry =>
      Did (CreatePartition (dev_path (tx_device initial)) (dev_major_minor (tx_device initial))
             (pt_identifier (sd_partition_table (tg_device (tx_target initial))))
             (sd_logical_sector_size (tg_device (tx_target initial)))
             (ur_start_sector free_region) (ur_sector_count free_region) geometry)
        (Ok partition) ∈ pre
  | ReformatWork p => partition = bd_display_path (ep_identity p)
  | AdoptWork _ => False
  end.

(** What the call does is what the transaction asks for. *)
Definition asked_for {X} (o : ExecOp X) (initial : DevicePreparationTransaction) (w : Work)
    (pre : list EEntry) : Prop :=
  match o with
  | WipeAll device number None =>
      device = dev_path (tx_device initial) /\ number = dev_major_minor (tx_device initial) /\
      is_erase w = true /\ backed_up initial pre /\ in_phase "wipe-signatures" pre
  | WipeAll device number (Some filesystem) =>
      exists p, w = ReformatWork p /\ device = bd_display_path (ep_identity p) /\
        number = bd_major_minor (ep_identity p) /\ filesystem = ep_filesystem p /\
        in_phase "wipe-signatures" pre
  | ReplaceWithSinglePartition device number geometry =>
      device = dev_path (tx_device initial) /\ number = dev_major_minor (tx_device initial) /\
      w = EraseWork geometry /\ backed_up initial pre /\ in_phase "partition" pre
  | CreatePartition device number identifier sector_size free_start free_count geometry =>
      exists r, w = CreateWork r geometry /\
        device = dev_path (tx_device initial) /\ number = dev_major_minor (tx_device initial) /\
        identifier = pt_identifier (sd_partition_table (tg_device (tx_target initial))) /\
        sector_size = sd_logical_sector_size (tg_device (tx_target initial)) /\
        free_start = ur_start_sector r /\ free_count = ur_sector_count r /\
        backed_up initial pre /\ in_phase "partition" pre
  | FormatLuks partition => own_partition initial w partition pre /\ in_phase "luks-format" pre
  | FormatBtrfsOn device label =>
      exists partition mapper, own_partition initial w partition pre /\
        Did (OpenLuks partition mapper) (Ok tt) ∈ pre /\ device = "/dev/mapper/" +:+ mapper /\
        mapper = "btrfs-backup-" +:+ tx_profile_id initial /\ label = tx_profile_name initial /\
        in_phase "mkfs-btrfs" pre
  | _ => True
  end.

Definition change_justified (operation_id : string) (pre : list EEntry) (e : EEntry) : Prop :=
  match e with
  | Did o _ =>
      destructive o = true ->
      exists initial w, cleared operation_id initial w pre /\ asked_for o initial w pre
  | _ => True
  end.

(** ** Facts that stay true *)

Definition stable (F : list EEntry -> Prop) : Prop := forall t u, F t -> F (t ++ u).

Lemma stable_and F G : stable F -> stable G -> stable (λ t, F t /\ G t).
Proof. intros HF HG t u []. split; auto. Qed.
Lemma stable_in e : stable (λ t, e ∈ t).
Proof. intros t u. set_solver. Qed.
Lemma stable_const (P : Prop) : stable (λ _, P).
Proof. by intros t u. Qed.
Lemma stable_true : stable (λ _, True).
Proof. by intros t u. Qed.

Lemma stable_cleared operation_id initial w : stable (cleared operation_id initial w).
Proof.
  intros t u (? & ? & ? & checks & Hs & ?). split; [set_solver|]. split_and!; try done.
  exists checks. split; [|done]. by apply sublist_inserts_r.
Qed.
Lemma stable_phase v : stable (in_phase v).
Proof. intros t u (a & b & ? & ?). exists a, b. split; [set_solver|done]. Qed.
Lemma stable_backed_up initial : stable (backed_up initial).
Proof.
  intros t u (b & x & y & z & ? & ? & ? & ?). exists b, x, y, z. split_and!; try done; set_solver.
Qed.
Lemma stable_own initial w p : stable (own_partition initial w p).
Proof. intros t u. destruct w; cbn; set_solver. Qed.

Create HintDb stable.
#[export] Hint Resolve stable_and stable_in stable_const stable_true stable_cleared stable_phase
  stable_backed_up stable_own : stable.

(** ** Rules *)

Definition harmless (e : EEntry) : Prop :=
  match e with Did o _ => destructive o = false | _ => True end.

Abbreviation harmlessly R m := (entries any_answer any_change harmless R m).

(** Most of what the worker does neither changes a device nor opens a container. *)
Definition opening {X} (o : ExecOp X) : bool :=
  match o with OpenLuks _ _ | OpenLuksReadOnly _ _ => true | _ => false end.
Definition tame (e : EEntry) : Prop :=
  match e with Did o _ => destructive o || opening o = false | _ => True end.

Abbreviation tamely R m := (entries any_answer any_change tame R m).

Lemma tame_harmless {A} R (m : Exec A) : tamely R m -> harmlessly R m.
Proof. apply entries_mono; [|done]. intros [X o r| |]; cbn; [|done..]. by intros [? _]%orb_false_iff. Qed.

Section rules.
Context (operation_id : string).
Abbreviation good t := (ordered (change_justified operation_id) t).

Lemma good_app t u : good t -> Forall harmless u -> good (t ++ u).
Proof.
  intros Ht Hu. apply ordered_app; [done|]. eapply Forall_impl; [exact Hu|].
  intros [X o r| |] He pre; cbn in *; congruence || done.
Qed.

(** From a trace with the facts [F], [m] makes justified changes only, and when it returns
    [a] the facts [G a] hold. *)
Definition safe {A} (F : list EEntry -> Prop) (m : Exec A) (G : A -> list EEntry -> Prop) : Prop :=
  forall t s, good t -> F t ->
    wp any_answer any_change m (λ t' r _, good t' /\ (exists u, t' = t ++ u) /\
                                          forall a, r = Ok a -> G a t') t s.

Lemma safe_bind {A B} F (m : Exec A) G (f : A -> Exec B) H :
  safe F m G -> (forall a, safe (G a) (f a) H) -> safe F (m ≫= f) H.
Proof.
  intros Hm Hf t s Ht HF. rewrite prog_wp_bind. eapply prog_wp_mono; [|by apply Hm]. cbn.
  intros t' [a|e] s' (? & [u ->] & Ha); [|by split_and!; eauto].
  eapply prog_wp_mono; [|apply Hf; auto]. cbn. intros t'' r s'' (? & [v ->] & ?).
  split_and!; try done. exists (u ++ v). by rewrite app_assoc.
Qed.

Lemma safe_mono {A} (F F' : list EEntry -> Prop) (m : Exec A) (G G' : A -> list EEntry -> Prop) :
  safe F m G -> (forall t, F' t -> F t) -> (forall a t, G a t -> G' a t) -> safe F' m G'.
Proof.
  intros Hm HF HG t s Ht HF'. eapply prog_wp_mono; [|apply Hm; auto]. cbn.
  intros t' r s' (? & ? & ?). split_and!; auto.
Qed.

Lemma safe_post {A} F (m : Exec A) (G G' : A -> list EEntry -> Prop) :
  safe F m G -> (forall a t, G a t -> G' a t) -> safe F m G'.
Proof. intros Hm HG. by eapply safe_mono. Qed.

(** Facts that are stable survive whatever the program does. *)
Lemma safe_keep {A} P F (m : Exec A) G :
  stable P -> safe F m G -> safe (λ t, F t /\ P t) m (λ a t, G a t /\ P t).
Proof.
  intros HP Hm t s Ht [HF HPt]. eapply prog_wp_mono; [|by apply Hm]. cbn.
  intros t' r s' (? & [u ->] & ?). split_and!; [done|eauto|]. auto.
Qed.

Lemma safe_ret {A} F (a : A) : safe F (mret a) (λ b t, F t /\ b = a).
Proof.
  intros t s Ht HF. cbn. split_and!; [done|exists []; by rewrite app_nil_r|]. by intros ? [= <-].
Qed.

Lemma safe_lift {A} F (r : res A) : safe F (lift r) (λ a t, F t /\ r = Ok a).
Proof.
  intros t s Ht HF. cbn. split_and!; [done|exists []; by rewrite app_nil_r|]. by intros ? ->.
Qed.

Lemma safe_raise {A} F e (G : A -> list EEntry -> Prop) : safe F (raise e) G.
Proof. intros t s Ht HF. cbn. split_and!; [done|exists []; by rewrite app_nil_r|done]. Qed.

Lemma safe_harmless {A} F R (m : Exec A) :
  stable F -> harmlessly R m -> safe F m (λ a t, F t /\ R a).
Proof.
  intros HF Hm t s Ht HFt. eapply prog_wp_mono; [|apply Hm]. cbn. intros t' r s' [(u & -> & Hu) HR].
  split_and!; [by apply good_app|eauto|]. intros a Ha. split; [by apply HF|auto].
Qed.

(** A call, with its answer on record. *)
Lemma safe_call {X} F (o : ExecOp X) :
  stable F ->
  (destructive o = true -> forall t, F t ->
     exists initial w, cleared operation_id initial w t /\ asked_for o initial w t) ->
  safe F (call o) (λ x t, F t /\ Did o (Ok x) ∈ t).
Proof.
  intros HF Ho t s Ht HFt. cbn. intros r _. split_and!.
  - rewrite ordered_snoc. split; [done|]. intros Hd. by apply Ho.
  - by exists [Did o r].
  - intros x ->. split; [by apply HF|set_solver].
Qed.

Lemma safe_attempt {A} F (m : Exec A) G :
  safe F m G ->
  safe F (attempt m) (λ r t, match r with Ok a => G a t | Throw _ => True end).
Proof.
  intros Hm t s Ht HF. unfold attempt. rewrite wp_catch, prog_wp_bind.
  eapply prog_wp_mono; [|by apply Hm]. cbn. intros t' [a|e] s' (? & ? & Ha); cbn.
  - split_and!; [done|done|]. intros r [= <-]. auto.
  - split_and!; [done|done|]. by intros r [= <-].
Qed.

Lemma safe_end {A} F (m : Exec A) :
  harmlessly (λ _, True) m -> safe F m (λ _ _, True).
Proof.
  intros Hm. eapply safe_mono; [apply (safe_harmless (λ _, True)); [apply stable_true|exact Hm]|done|done].
Qed.

(** The locked section of an update leaves what it wrote on record. *)
Lemma safe_write F (g : DevicePreparationTransaction -> res DevicePreparationTransaction) :
  stable F ->
  safe F (Lock (λ current, new ← lift (g current); _ ← put new; _ ← call StoreAccess; mret new))
    (λ new t, F t /\ exists current, Stored current new ∈ t /\ g current = Ok new).
Proof.
  intros HF t s Ht HFt. cbn. intros s1 _. destruct (g s1) as [new|e] eqn:Eg; cbn.
  2:{ split_and!; [apply good_app; [done|by repeat constructor]|by exists [Locked s1]|done]. }
  intros r _. rewrite <-!app_assoc. destruct r as [[]|e]; cbn.
  all: split_and!; [apply good_app; [done|by repeat constructor]|eauto|]; try done.
  intros a [= <-]. split; [by apply HF|]. exists s1. split; [set_solver|done].
Qed.

Lemma safe_skip {A B} F (m : Exec A) (f : A -> Exec B) H :
  stable F -> harmlessly (λ _, True) m -> (forall a, safe F (f a) H) -> safe F (m ≫= f) H.
Proof.
  intros HF Hm Hf. eapply safe_bind; [by apply (safe_harmless F (λ _, True))|]. intros a.
  eapply safe_mono; [apply Hf|by intros t [? _]|done].
Qed.

Lemma update_checked_Ok op f now cur new :
  update_checked op (tx_revision cur) (λ t, t ← f t; Ok (t <| tx_updated_at := now |>)) cur = Ok new ->
  exists changed, f cur = Ok changed /\
    new = changed <| tx_updated_at := now |> <| tx_revision := tx_revision changed + 1 |>.
Proof. intros H. unfold update_checked in H. res_inv. eauto. Qed.

Lemma safe_tx_update F op f :
  stable F ->
  safe F (tx_update op f) (λ new t, F t /\ exists cur now changed,
    Stored cur new ∈ t /\ f cur = Ok changed /\
    new = changed <| tx_updated_at := now |> <| tx_revision := tx_revision changed + 1 |>).
Proof.
  intros HF. unfold tx_update.
  apply safe_skip; [done|by apply entries_call|]. intros now.
  apply safe_skip; [done|by apply entries_call|]. intros _.
  eapply safe_mono; [apply (safe_write F _ HF)|done|]. cbn beta.
  intros new t [? (cur & Hin & Hc)]. apply update_checked_Ok in Hc as (changed & ? & ?).
  split; [done|]. exists cur, now, changed. by split_and!.
Qed.

(** A phase that is entered is on record. *)
Lemma safe_phase {B} F op value can_cancel (f : unit -> Exec B) H :
  stable F -> safe (λ t, F t /\ in_phase value t) (f tt) H ->
  safe F (phase op value can_cancel ≫= f) H.
Proof.
  intros HF Hf. unfold phase, update.
  apply (safe_bind F _ (λ _ t, F t /\ in_phase value t)); [|intros []; exact Hf].
  eapply safe_bind; [by apply safe_tx_update|]. intros new. cbn beta.
  eapply safe_post; [apply safe_ret|]. cbn beta.
  intros [] t [(? & cur & now & changed & Hin & Hc & ->) _]. split; [done|].
  res_inv. breflect. eexists cur, _. split; [exact Hin|]. cbn. by split_and!.
Qed.

(** So is what a mutator that does not throw writes. *)
Lemma safe_update F op g :
  stable F ->
  safe F (update' op g) (λ _ t, F t /\ exists cur new now, Stored cur new ∈ t /\
    new = (g cur) <| tx_updated_at := now |> <| tx_revision := tx_revision (g cur) + 1 |>).
Proof.
  intros HF. unfold update', update. eapply safe_bind; [by apply safe_tx_update|]. intros new.
  eapply safe_post; [apply safe_ret|]. cbn beta.
  intros [] t [(? & cur & now & changed & Hin & [= <-] & ->) _]. split; [done|].
  exists cur. eexists _, now. split; [exact Hin|done].
Qed.
End rules.

(** ** The harmless parts *)

Ltac harmless :=
  repeat first [entries_step | progress unfold tx_update, tx_load, tx_save, update, update', phase,
    completed, check, invalid, attempt, require_unmounted, persist | done | intros ?].

Lemma tame_await n op g d : tamely (λ _, True) (await_access n op g d).
Proof.
  induction n as [|n IH]; cbn [await_access]; [harmless|].
  entries_step; [harmless|]. entries_step; [harmless|]. entries_step; [harmless|].
  entries_step; [harmless|]. entries_step; [harmless|]. entries_step; [harmless|]. apply IH.
Qed.

Lemma tame_request_access n op l b : tamely (λ _, True) (request_access n op l b).
Proof.
  unfold request_access. cbv zeta. entries_step; [harmless|]. entries_step; [harmless|].
  apply tame_await.
Qed.

Lemma tame_release op : tamely (λ _, True) (release_profile_reservation op).
Proof. unfold release_profile_reservation. harmless. Qed.

Lemma tame_release_after op :
  tamely (λ _, True) (release_profile_reservation_after_safe_failure op).
Proof.
  unfold release_profile_reservation_after_safe_failure. entries_step; [|harmless].
  entries_step; [harmless|]. cbv zeta. entries_step; [apply tame_release|harmless].
Qed.

Lemma tame_check_sources p mounts l : tamely (λ _, True) (check_sources p mounts l).
Proof.
  induction l as [|x l IH]; cbn [check_sources]; [harmless|].
  do 5 (entries_step; [harmless|]). apply IH.
Qed.

Lemma tame_on_failure op initial mapper e :
  tamely (λ _, True) (on_failure op initial mapper e).
Proof.
  unfold on_failure. cbv zeta. entries_step; [harmless|]. entries_step; [harmless|].
  apply tame_release_after.
Qed.

Lemma tame_classify root : tamely (λ _, True) (classify_repositoryless_root root).
Proof.
  unfold classify_repositoryless_root. entries_step; [harmless|]. entries_step; [|harmless].
  entries_step; [harmless|]. entries_step; [|harmless].
  match goal with |- entries _ _ _ _ (fold_left _ ?l ?m) =>
    assert (Hm : tamely (λ _, True) m) by harmless; revert Hm; generalize m
  end.
  induction l as [|x l IH]; intros m Hm; cbn [fold_left]; [exact Hm|]. apply IH.
  entries_step; [exact Hm|]. harmless.
Qed.

Lemma tame_finish mapper mount mounted opened pending :
  tamely (λ _, True) (finish_session mapper mount mounted opened pending).
Proof. unfold finish_session. harmless. Qed.

Lemma tame_examine p luks btrfs mount :
  tamely (λ _, True) (examine_repository p luks btrfs mount).
Proof.
  unfold examine_repository. cbv zeta. entries_step; [harmless|].
  destruct a as [|[|]]; [harmless|harmless|].
  entries_step; [apply tame_classify|]. destruct a. harmless.
Qed.

Lemma harmless_attempt {A} (m : Exec A) :
  harmlessly (λ _, True) m -> harmlessly (λ _, True) (attempt m).
Proof. intros Hm. unfold attempt. entries_step; [|harmless]. entries_step; [exact Hm|]. harmless. Qed.

Lemma harmless_inspect_existing p mapper mount ready :
  (forall m, harmlessly (λ _, True) (ready m)) ->
  harmlessly (λ _, True) (inspect_existing p mapper mount ready).
Proof.
  intros Hready. unfold inspect_existing, inspect_opened. cbv zeta.
  do 3 (entries_step; [harmless|]). entries_step; [apply harmless_attempt; harmless|].
  entries_step; [|entries_step; [apply tame_harmless, tame_finish|harmless]].
  entries_step; [apply harmless_attempt; entries_step; [apply Hready|harmless]|].
  entries_step; [|entries_step; [apply tame_harmless, tame_finish|harmless]].
  entries_step; [entries_step; [apply tame_harmless, tame_finish|harmless]|].
  entries_step; [apply harmless_attempt; harmless|].
  entries_step; [|entries_step; [apply tame_harmless, tame_finish|harmless]].
  entries_step; [apply harmless_attempt, tame_harmless, tame_examine|].
  entries_step; (entries_step; [apply tame_harmless, tame_finish|harmless]).
Qed.

Lemma harmless_inspect_for_adoption n op initial p mount :
  harmlessly (λ _, True) (inspect_for_adoption n op initial p mount).
Proof.
  unfold inspect_for_adoption. cbv zeta. entries_step; [|harmless].
  entries_step; [apply tame_harmless, tame_request_access|]. entries_step; [harmless|].
  entries_step; [apply harmless_inspect_existing|harmless].
  intros m. do 2 (entries_step; [harmless|]). apply tame_harmless, tame_request_access.
Qed.

Lemma harmless_adopt n b root op initial p :
  harmlessly (λ _, True) (adopt_target n b root op initial p).
Proof.
  unfold adopt_target. entries_step; [|harmless]. do 3 (entries_step; [harmless|]). cbv zeta.
  do 2 (entries_step; [harmless|]). entries_step; [apply harmless_inspect_for_adoption|].
  entries_step; [apply tame_harmless, tame_request_access|]. do 7 (entries_step; [harmless|]).
  entries_step; [apply tame_harmless, tame_release|]. unfold succeed. harmless.
Qed.

(** ** The phases that change the device *)

Section phases.
Context (op : string) (initial : DevicePreparationTransaction).

(** The preparation was found with this content. *)
Definition loaded (t : list EEntry) : Prop := Locked initial ∈ t /\ tx_operation_id initial = op.

Lemma stable_loaded : stable loaded.
Proof. intros t u []. split; [set_solver|done]. Qed.

(** The checks that come last. *)
Lemma safe_last_checks w :
  work (tx_target initial) = Ok w ->
  safe op loaded
    (locked ← call TryDeviceLock;
     _ ← lift (require locked (ManagerOperationError Busy "another device is being prepared"));
     _ ← require_unmounted initial w "selected device or one of its partitions became mounted";
     safety_reasons ← call (InspectSafety (tx_device initial) (tx_target initial));
     match safety_reasons with
     | [] => mret w
     | reason :: _ =>
         raise (ManagerOperationError Conflict
           ("selected device is not safe for destructive preparation: " +:+ reason))
     end)
    (λ w' t, w' = w /\ cleared op initial w t).
Proof.
  intros Hw t s Ht [Hl Hop]. unfold require_unmounted, check.
  destruct (is_erase w) eqn:Ee; symbolic.
  all: rewrite <-?app_assoc; split_and!; [by apply good_app; [|repeat constructor]|eauto|]; try done.
  all: intros ? [= <-]; split; [done|].
  all: split; [set_solver|]; split_and!; try done.
  all: repeat match goal with H : require _ _ = Ok _ |- _ => apply require_Ok in H end; subst.
  - exists [Did (Revalidate (tx_device initial)) (Ok a1)]. split.
    + cbn [app]. apply sublist_inserts_l. by repeat apply sublist_skip.
    + intros _. exists a1. split; [by apply negb_true_iff|done].
  - exists []. split; [|congruence].
    cbn [app]. apply sublist_inserts_l. by repeat apply sublist_skip.
Qed.

Lemma safe_inspect_phase : safe op loaded (inspect_phase op initial) (λ w t, cleared op initial w t).
Proof.
  pose proof stable_loaded as Hs. unfold inspect_phase.
  apply safe_skip; [done|harmless|]. intros _.
  eapply safe_bind; [apply safe_lift|]. intros w. cbn beta.
  apply safe_skip; [auto with stable|harmless|]. intros _.
  apply safe_skip; [auto with stable|harmless|]. intros mounts.
  apply safe_skip; [auto with stable|apply tame_harmless, tame_check_sources|]. intros _.
  apply safe_skip; [auto with stable|harmless|]. intros _.
  intros t s Ht [Hl Hw]. eapply prog_wp_mono; [|by apply (safe_last_checks w Hw)]. cbn.
  intros t' r s' (? & ? & Ha). split_and!; try done. by intros a [-> ?]%Ha.
Qed.

Lemma safe_backup {B} F (f : unit -> Exec B) H :
  stable F -> safe op (λ t, F t /\ backed_up initial t) (f tt) H ->
  safe op F (backup_partition_table op initial ≫= f) H.
Proof.
  intros HF Hf. unfold backup_partition_table. cbv zeta.
  apply (safe_bind op F _ (λ _ t, F t /\ backed_up initial t)); [|intros []; exact Hf].
  apply safe_skip; [done|harmless|]. intros _.
  eapply safe_bind; [apply safe_lift|]. intros format. cbn beta.
  eapply safe_bind; [apply safe_call; [auto with stable|done]|]. intros backup. cbn beta.
  eapply safe_bind; [apply safe_lift|]. intros []. cbn beta.
  eapply safe_post; [apply safe_update; auto with stable|]. cbn beta.
  intros _ t ([[[HFt _] Hin] Hne%require_Ok] & cur & new & now & Hst & ->). split; [done|].
  exists backup, cur. eexists _, format. split_and!; [exact Hin|by destruct backup|exact Hst|done].
Qed.

(** The partition that is made is the transaction's. *)
Lemma safe_make_partition w :
  (forall p, w <> AdoptWork p) ->
  safe op (cleared op initial w) (make_partition op initial w)
    (λ partition t, cleared op initial w t /\ own_partition initial w partition t).
Proof.
  intros Ha. unfold make_partition. cbv zeta. destruct w as [geometry|r geometry|p|p]; [..|by destruct (Ha p)].
  - apply safe_backup; [auto with stable|].
    apply safe_phase; [auto with stable|].
    eapply safe_bind; [apply safe_call; [auto with stable|]|intros []; cbn beta].
    { intros _ t [[Hc Hb] Hp]. exists initial, (EraseWork geometry). split; [done|]. by split_and!. }
    apply safe_skip; [auto 10 with stable|harmless|]. intros _.
    apply safe_phase; [auto 10 with stable|].
    eapply safe_bind; [apply safe_call; [auto 10 with stable|]|intros partition; cbn beta].
    { intros _ t [[[[Hc Hb] _] _] Hp]. exists initial, (EraseWork geometry). split; [done|]. by split_and!. }
    apply safe_skip; [auto 10 with stable|harmless|]. intros _.
    eapply safe_post; [apply safe_ret|]. cbn. intros x t [H ->]. tauto.
  - apply safe_backup; [auto with stable|].
    apply safe_phase; [auto with stable|].
    eapply safe_bind; [apply safe_call; [auto 10 with stable|]|intros partition; cbn beta].
    { intros _ t [[Hc Hb] Hp]. exists initial, (CreateWork r geometry). split; [done|].
      exists r. by split_and!. }
    apply safe_skip; [auto 10 with stable|harmless|]. intros _.
    eapply safe_post; [apply safe_ret|]. cbn. intros x t [H ->]. tauto.
  - apply safe_phase; [auto with stable|].
    eapply safe_bind; [apply safe_call; [auto 10 with stable|]|intros []; cbn beta].
    { intros _ t [Hc Hp]. exists initial, (ReformatWork p). split; [done|]. exists p. by split_and!. }
    apply safe_skip; [auto 10 with stable|harmless|]. intros _.
    eapply safe_post; [apply safe_ret|]. cbn. intros x t [H ->]. tauto.
Qed.

(** The partition to work on, with the checks that allow it. *)
Definition ready (w : Work) (partition : string) (t : list EEntry) : Prop :=
  cleared op initial w t /\ own_partition initial w partition t.

Lemma stable_ready w p : stable (ready w p).
Proof. apply stable_and; auto with stable. Qed.

Lemma tame_partition_number n partition :
  tamely (λ _, True)
    match tg_partition (tx_target initial) with
    | Some p => mret (bd_major_minor (ep_identity p))
    | None =>
        number ← call (BlockDeviceNumber partition);
        _ ← update' op (λ t, t <| tx_partition_device_number := number |>);
        _ ← request_access n op [dev_major_minor (tx_device initial); number] false;
        mret number
    end.
Proof.
  entries_step; [harmless|]. do 2 (entries_step; [harmless|]).
  entries_step; [apply tame_request_access|harmless].
Qed.

Lemma safe_format_partition n w partition :
  safe op (ready w partition) (format_partition n op initial partition)
    (λ _ t, ready w partition t).
Proof.
  pose proof (stable_ready w partition) as Hs. unfold format_partition.
  apply safe_skip; [done|apply tame_harmless, tame_partition_number|]. intros number.
  apply safe_phase; [done|].
  eapply safe_bind; [apply safe_call; [auto with stable|]|intros luks; cbn beta].
  { intros _ t [[Hc Ho] Hp]. exists initial, w. split; [done|]. by split. }
  apply safe_skip; [auto with stable|harmless|]. intros _.
  eapply safe_post; [apply safe_ret|]. cbn. tauto.
Qed.

Lemma safe_format_filesystem n w partition number mapper :
  mapper = "btrfs-backup-" +:+ tx_profile_id initial ->
  safe op (ready w partition)
    (format_filesystem n op initial partition number mapper) (λ _ _, True).
Proof.
  intros Hm. pose proof (stable_ready w partition) as Hs. unfold format_filesystem.
  eapply safe_bind; [apply safe_call; [auto with stable|done]|intros []; cbn beta].
  apply safe_skip; [auto with stable|harmless|]. intros _. cbv zeta.
  apply safe_skip; [auto with stable|harmless|]. intros mapper_number.
  apply safe_skip; [auto with stable|harmless|]. intros _.
  apply safe_skip; [auto with stable|apply tame_harmless, tame_request_access|]. intros _.
  apply safe_phase; [auto with stable|].
  eapply safe_bind; [apply safe_call; [auto with stable|]|intros []; cbn beta].
  { intros _ t [[[Hc Ho] Hopen] Hp]. exists initial, w. split; [done|].
    exists partition, mapper. by split_and!. }
  apply safe_end. harmless.
Qed.

Lemma tame_publish n number luks btrfs partition :
  tamely (λ _, True) (publish_profile n op initial number luks btrfs partition).
Proof.
  unfold publish_profile. entries_step; [harmless|]. entries_step; [apply tame_request_access|].
  do 9 (entries_step; [harmless|]). entries_step; [apply tame_release|].
  unfold succeed. harmless.
Qed.

Lemma safe_guarded {A} F mapper (m : Exec A) G rest :
  safe op F m G -> (forall a, safe op (G a) (rest a) (λ _ _, True)) ->
  safe op F (guarded op initial mapper m rest) (λ _ _, True).
Proof.
  intros Hm Hr. unfold guarded. eapply safe_bind; [by apply safe_attempt|].
  intros [a|e]; [apply Hr|]. apply safe_end, tame_harmless, tame_on_failure.
Qed.
End phases.

Section execute.
Context (polls : nat) (has_inspector : bool) (inspection_mount_root : path).

Lemma execute_safe op fd :
  safe op (λ _, True) (execute polls has_inspector inspection_mount_root op fd) (λ _ _, True).
Proof.
  unfold execute.
  eapply (safe_bind op _ _ (λ initial t, loaded op initial t)).
  { intros t s Ht _. unfold tx_load, check. cbn. intros [[]|e] _; cbn.
    2:{ split_and!; [apply good_app; [done|by repeat constructor]|eauto|done]. }
    intros s1 _. rewrite <-app_assoc. destruct (String.eqb_spec (tx_operation_id s1) op); cbn.
    all: split_and!; [apply good_app; [done|by repeat constructor]|eauto|]; try done.
    intros a [= <-]. split; [set_solver|done]. }
  intros initial. pose proof (stable_loaded op initial) as Hl.
  apply safe_skip; [done|harmless|]. intros _.
  apply safe_skip; [done|harmless|]. intros _.
  apply (safe_guarded op initial _ _ _ (λ opened t, match opened with
    | None => True
    | Some (partition, _, _) => exists w, ready op initial w partition t
    end)).
  - eapply safe_bind; [apply safe_inspect_phase|]. intros w. cbn beta.
    assert (Hw : (forall p, w <> AdoptWork p) ->
      safe op (cleared op initial w)
        (partition ← make_partition op initial w;
         '(number, luks) ← format_partition polls op initial partition;
         _ ← prepare_open polls op initial number;
         mret (Some (partition, number, luks)))
        (λ opened t, match opened with
         | None => True
         | Some (partition, _, _) => exists w, ready op initial w partition t
         end)).
    { intros Ha. eapply safe_bind; [by apply safe_make_partition|]. intros partition.
      eapply safe_bind; [apply safe_format_partition|]. intros [number luks]. cbn beta iota.
      apply safe_skip; [apply stable_ready| |].
      { unfold prepare_open. entries_step; [harmless|].
        entries_step; [apply tame_harmless, tame_request_access|harmless]. }
      intros _. eapply safe_post; [apply safe_ret|]. cbn. intros o t [Hr ->]. by exists w. }
    destruct w; try (apply Hw; discriminate).
    apply safe_skip; [apply stable_cleared|apply harmless_adopt|]. intros _.
    eapply safe_post; [apply safe_ret|]. cbn. by intros o t [_ ->].
  - intros [[[partition number] luks]|]; [|apply safe_end; harmless]. cbv zeta.
    intros t s Ht [w Hr]. revert t s Ht Hr.
    apply (safe_guarded op initial (ready op initial w partition) _ _ (λ _ _, True)).
    + by apply safe_format_filesystem.
    + intros uuids. apply (safe_guarded op initial _ _ _ (λ _ _, True)).
      * apply safe_end, tame_harmless, tame_publish.
      * intros _. apply safe_end. harmless.
Qed.

(** C12.  The worker changes a device only as the transaction asks, and only after the checks:
    it has the lock that excludes other preparations, the inspection made under it has no
    reason against the change, and a device that is to be erased is the one recorded and is
    not mounted.  Before signatures of a whole device are wiped or its partition table is
    changed, the table has been read and what was read is stored in the transaction.  Each
    change comes after its phase was stored at a moment when no cancellation was requested;
    LUKS is put only on the selected partition or on the one just made, and Btrfs only on
    the container opened on it.  An existing target that is adopted is never changed.  All
    this whatever the collaborators answer and however the daemon changes the transaction
    meanwhile. *)
Theorem device_changes_justified {W} (env : Env W) op fd w s :
  ordered (change_justified op)
    (run env (execute polls has_inspector inspection_mount_root op fd) w s).2.
Proof.
  pose proof (prog_wp_run _ _ env _ _ w s (any_env_ok env) (execute_safe op fd [] s (ordered_nil _) I)) as H.
  cbn beta in H. tauto.
Qed.
End execute.

(** ** Containers that are opened are closed *)

(** The container an entry opens. *)
Definition opens (e : EEntry) : option string :=
  match e with
  | Did (OpenLuks _ mapper) (Ok _) | Did (OpenLuksReadOnly _ mapper) (Ok _) => Some mapper
  | _ => None
  end.

Definition no_open (e : EEntry) : Prop :=
  match e with Did o _ => opening o = false | _ => True end.

(** Every container that is opened is closed later, or at least that is tried, except for
    those in [left]. *)
Definition leaves (left : list string) (t : list EEntry) : Prop :=
  forall pre e post mapper, t = pre ++ e :: post -> opens e = Some mapper ->
    mapper ∈ left \/ exists r, Did (CloseMapper mapper) r ∈ post.

Lemma leaves_app left u v : leaves left u -> leaves left v -> leaves left (u ++ v).
Proof.
  intros Hu Hv pre e post m Heq Ho.
  apply app_eq_app in Heq as (k & [[-> Hk]|[-> Hk]]).
  - destruct k as [|x k]; cbn in Hk.
    + apply (Hv [] e post m); [by symmetry|done].
    + injection Hk as -> ->. destruct (Hu pre x k m eq_refl Ho) as [?|[r ?]]; [by left|].
      right. exists r. set_solver.
  - by apply (Hv k e post m).
Qed.

Lemma leaves_quiet left u : Forall no_open u -> leaves left u.
Proof.
  intros Hu pre e post m -> Ho. apply Forall_app in Hu as [_ Hu]. inversion Hu as [|? ? He]; subst.
  destruct e as [X []| |]; cbn in *; done.
Qed.

Lemma leaves_closed m u v r :
  leaves [m] u -> Did (CloseMapper m) r ∈ v -> leaves [] v -> leaves [] (u ++ v).
Proof.
  intros Hu Hm Hv pre e post m' Heq Ho. right.
  apply app_eq_app in Heq as (k & [[-> Hk]|[-> Hk]]).
  - destruct k as [|x k]; cbn in Hk.
    + destruct (Hv [] e post m') as [Hn|?]; [by symmetry|done|set_solver|done].
    + injection Hk as -> ->. destruct (Hu pre x k m' eq_refl Ho) as [Hin|[r' ?]].
      * apply list_elem_of_singleton in Hin as ->. exists r. set_solver.
      * exists r'. set_solver.
  - destruct (Hv k e post m' Hk Ho) as [Hn|?]; [set_solver|done].
Qed.

Abbreviation openless m := (entries any_answer any_change no_open (λ _, True) m).

Lemma tame_openless {A} (m : Exec A) : tamely (λ _, True) m -> openless m.
Proof. apply entries_mono; [|done]. intros [X o r| |]; cbn; [|done..]. by intros [_ ?]%orb_false_iff. Qed.

(** The trace of [m] leaves open what [left] says, given the outcome. *)
Definition tidy {A} (left : res A -> list string) (m : Exec A) : Prop :=
  forall t s, wp any_answer any_change m
    (λ t' r _, exists u, t' = t ++ u /\ leaves (left r) u) t s.

Lemma tidy_openless {A} left (m : Exec A) : openless m -> tidy left m.
Proof.
  intros Hm t s. eapply prog_wp_mono; [|apply Hm]. cbn. intros t' r s' [(u & -> & Hu) _].
  exists u. split; [done|]. by apply leaves_quiet.
Qed.

Lemma tidy_bind {A B} (m : Exec A) (f : A -> Exec B) :
  tidy (λ _, []) m -> (forall a, tidy (λ _, []) (f a)) -> tidy (λ _, []) (m ≫= f).
Proof.
  intros Hm Hf t s. rewrite prog_wp_bind. eapply prog_wp_mono; [|apply Hm]. cbn.
  intros t' [a|e] s' (u & -> & Hu); [|by exists u].
  eapply prog_wp_mono; [|apply Hf]. cbn. intros t'' r s'' (v & -> & Hv). exists (u ++ v).
  rewrite app_assoc. split; [done|]. by apply leaves_app.
Qed.

Lemma tidy_attempt {A} (m : Exec A) : tidy (λ _, []) m -> tidy (λ _, []) (attempt m).
Proof.
  intros Hm t s. unfold attempt. rewrite wp_catch, prog_wp_bind. eapply prog_wp_mono; [|apply Hm]. cbn.
  intros t' [a|e] s'; cbn; eauto.
Qed.

Lemma tidy_catch {A} (m : Exec A) h :
  tidy (λ _, []) m -> (forall e, tidy (λ _, []) (h e)) -> tidy (λ _, []) (catch m h).
Proof.
  intros Hm Hh t s. rewrite wp_catch. eapply prog_wp_mono; [|apply Hm]. cbn.
  intros t' [a|e] s' (u & -> & Hu); [by exists u|].
  eapply prog_wp_mono; [|apply Hh]. cbn. intros t'' r s'' (v & -> & Hv). exists (u ++ v).
  rewrite app_assoc. split; [done|]. by apply leaves_app.
Qed.

(** [m] opens nothing and tries to close the container, however it ends. *)
Definition closes {A} (mapper : string) (m : Exec A) : Prop :=
  forall t s, wp any_answer any_change m
    (λ t' _ _, exists u r, t' = t ++ u /\ Forall no_open u /\ Did (CloseMapper mapper) r ∈ u) t s.

Lemma closes_attempt {A B} mapper (m : Exec A) (f : res A -> Exec B) :
  openless m -> (forall r, closes mapper (f r)) -> closes mapper (attempt m ≫= f).
Proof.
  intros Hm Hf t s. unfold attempt. rewrite prog_wp_bind, wp_catch, prog_wp_bind.
  eapply prog_wp_mono; [|apply Hm]. cbn. intros t' r s' [(u & -> & Hu) _].
  destruct r as [a|e]; cbn; (eapply prog_wp_mono; [|apply Hf]); cbn;
    intros t'' r' s'' (v & r & -> & Hv & Hc); exists (u ++ v), r; rewrite app_assoc;
    (split_and!; [done|by apply Forall_app|set_solver]).
Qed.

(** Opening, then closing however it goes. *)
Lemma tidy_open {X} mapper device (f : res unit -> Exec X) :
  (forall e, openless (f (Throw e))) -> closes mapper (f (Ok tt)) ->
  tidy (λ _, []) (attempt (call (OpenLuksReadOnly device mapper)) ≫= f).
Proof.
  intros He Hok t s. cbn. intros [[]|e] _; cbn.
  - eapply prog_wp_mono; [|apply Hok]. cbn. intros t' r s' (u & r' & -> & Hu & Hc).
    exists ([Did (OpenLuksReadOnly device mapper) (Ok tt)] ++ u). rewrite app_assoc. split; [done|].
    eapply leaves_closed; [|exact Hc|by apply leaves_quiet].
    intros pre e post m Heq Ho. left. destruct pre as [|? [|]]; [|done|done].
    injection Heq as <- <-. cbn in Ho. set_solver.
  - eapply prog_wp_mono; [|apply He]. cbn. intros t' r s' [(u & -> & Hu) _].
    exists ([Did (OpenLuksReadOnly device mapper) (Throw e)] ++ u). rewrite app_assoc.
    split; [done|]. apply leaves_app; [|by apply leaves_quiet].
    intros pre e' post m Heq Ho. destruct pre as [|? [|]]; [|done|done].
    injection Heq as <- <-. done.
Qed.

Lemma closes_bind {A B} mapper (m : Exec A) (f : A -> Exec B) :
  closes mapper m -> (forall a, openless (f a)) -> closes mapper (m ≫= f).
Proof.
  intros Hm Hf t s. rewrite prog_wp_bind. eapply prog_wp_mono; [|apply Hm]. cbn.
  intros t' [a|e] s' (u & r & -> & Hu & Hc); [|by exists u, r].
  eapply prog_wp_mono; [|apply Hf]. cbn. intros t'' r' s'' [(v & -> & Hv) _]. exists (u ++ v), r.
  rewrite app_assoc. split_and!; [done|by apply Forall_app|set_solver].
Qed.

(** A close that is attempted, and what follows. *)
Lemma closes_call {B} mapper (f : res unit -> Exec B) :
  (forall r, openless (f r)) -> closes mapper (attempt (call (CloseMapper mapper)) ≫= f).
Proof.
  intros Hf t s. cbn. intros r _. destruct r as [[]|e]; cbn;
    (eapply prog_wp_mono; [|apply Hf]); cbn; intros t' r' s' [(v & -> & Hv) _];
    [exists ([Did (CloseMapper mapper) (Ok tt)] ++ v), (Ok tt)
    |exists ([Did (CloseMapper mapper) (Throw e)] ++ v), (Throw e)];
    rewrite app_assoc; (split_and!; [done|by apply Forall_app; split; [repeat constructor|]|set_solver]).
Qed.

Lemma closes_finish mapper mount mounted pending :
  closes mapper (finish_session mapper mount mounted true pending).
Proof.
  unfold finish_session. apply closes_attempt; [harmless|]. intros r. cbv zeta.
  apply closes_call. intros r'. harmless.
Qed.

Lemma closes_inspect_opened p luks mapper mount ready :
  (forall m, openless (ready m)) ->
  closes mapper (inspect_opened p luks mapper mount ready).
Proof.
  intros Hready. unfold inspect_opened. cbv zeta.
  apply closes_attempt; [entries_step; [apply Hready|harmless]|].
  intros [mapped|e]; [|apply closes_bind; [apply closes_finish|harmless]].
  destruct (_ || _); [apply closes_bind; [apply closes_finish|harmless]|].
  apply closes_attempt; [harmless|].
  intros [[]|e]; [|apply closes_bind; [apply closes_finish|harmless]].
  apply closes_attempt; [apply tame_openless, tame_examine|].
  intros [summary|e]; (apply closes_bind; [apply closes_finish|harmless]).
Qed.

Lemma tidy_inspect_existing p mapper mount ready :
  (forall m, openless (ready m)) ->
  tidy (λ _, []) (inspect_existing p mapper mount ready).
Proof.
  intros Hready. unfold inspect_existing. cbv zeta.
  do 3 (apply tidy_bind; [apply tidy_openless; harmless|intros ?]).
  apply tidy_open.
  - intros e. entries_step; [apply tame_openless, tame_finish|harmless].
  - by apply closes_inspect_opened.
Qed.

Lemma tidy_inspect_for_adoption n op initial p mount :
  tidy (λ _, []) (inspect_for_adoption n op initial p mount).
Proof.
  unfold inspect_for_adoption. cbv zeta. apply tidy_catch.
  2:{ intros e. apply tidy_openless. harmless. }
  apply tidy_bind; [apply tidy_openless, tame_openless, tame_request_access|intros ?].
  apply tidy_bind; [apply tidy_openless; harmless|intros ?].
  apply tidy_bind; [apply tidy_inspect_existing|intros ?; apply tidy_openless; harmless].
  intros m. do 2 (entries_step; [harmless|]). apply tame_openless, tame_request_access.
Qed.

Lemma tidy_adopt n b root op initial p : tidy (λ _, []) (adopt_target n b root op initial p).
Proof.
  unfold adopt_target. destruct (tg_expected_inspection _); [|apply tidy_openless; harmless].
  do 3 (apply tidy_bind; [apply tidy_openless; harmless|intros ?]). cbv zeta.
  do 2 (apply tidy_bind; [apply tidy_openless; harmless|intros ?]).
  apply tidy_bind; [apply tidy_inspect_for_adoption|intros ?].
  apply tidy_openless. entries_step; [apply tame_openless, tame_request_access|].
  do 7 (entries_step; [harmless|]). entries_step; [apply tame_openless, tame_release|].
  unfold succeed. harmless.
Qed.

(** [m] opens nothing, and has closed the container when it returns. *)
Definition closes_ok {A} (mapper : string) (m : Exec A) : Prop :=
  forall t s, wp any_answer any_change m
    (λ t' r _, exists u, t' = t ++ u /\ Forall no_open u /\
       forall a, r = Ok a -> exists r', Did (CloseMapper mapper) r' ∈ u) t s.

Lemma closes_ok_skip {A B} mapper (m : Exec A) (f : A -> Exec B) :
  openless m -> (forall a, closes_ok mapper (f a)) -> closes_ok mapper (m ≫= f).
Proof.
  intros Hm Hf t s. rewrite prog_wp_bind. eapply prog_wp_mono; [|apply Hm]. cbn.
  intros t' [a|e] s' [(u & -> & Hu) _]; [|by exists u].
  eapply prog_wp_mono; [|apply Hf]. cbn. intros t'' r s'' (v & -> & Hv & Hc). exists (u ++ v).
  rewrite app_assoc. split_and!; [done|by apply Forall_app|]. intros b Hb.
  destruct (Hc b Hb) as [r' ?]. exists r'. set_solver.
Qed.

Lemma closes_ok_call {A} mapper (a : A) :
  closes_ok mapper (call (CloseMapper mapper) ≫= λ _, mret a).
Proof.
  intros t s. cbn. intros [[]|e] _; cbn; eexists [_]; (split; [done|]; split; [by repeat constructor|]).
  - intros b _. eexists. by apply list_elem_of_singleton.
  - done.
Qed.

Lemma leaves_open device mapper left r :
  mapper ∈ left -> leaves left [Did (OpenLuks device mapper) r].
Proof.
  intros Hin pre e post m Heq Ho. left. destruct pre as [|? [|]]; [|done|done].
  injection Heq as <- <-. destruct r; cbn in Ho; [by simplify_eq|done].
Qed.

(** While [mapper] is set: closed when all went well, still open otherwise. *)
Lemma tidy_format_filesystem n op initial partition number mapper :
  tidy (λ r, match r with Ok _ => [] | Throw _ => [mapper] end)
    (format_filesystem n op initial partition number mapper).
Proof.
  unfold format_filesystem. cbv zeta. intros t s. rewrite prog_wp_bind. cbn [wp call].
  intros [[]|e] _; cbn [wp].
  2:{ eexists [_]. split; [done|]. apply leaves_open. by apply list_elem_of_singleton. }
  match goal with |- wp _ _ ?m _ _ _ => assert (Hm : closes_ok mapper m) end.
  { do 3 (apply closes_ok_skip; [harmless|intros ?]).
    apply closes_ok_skip; [apply tame_openless, tame_request_access|intros ?].
    do 8 (apply closes_ok_skip; [harmless|intros ?]). apply closes_ok_call. }
  eapply prog_wp_mono; [|apply Hm]. cbn beta. intros t' r s' (u & -> & Hu & Hc).
  exists ([Did (OpenLuks partition mapper) (Ok tt)] ++ u). rewrite app_assoc. split; [done|].
  destruct r as [a|e].
  - destruct (Hc a eq_refl) as [r' Hr'].
    eapply leaves_closed; [|exact Hr'|by apply leaves_quiet].
    apply leaves_open. by apply list_elem_of_singleton.
  - apply leaves_app; [|by apply leaves_quiet]. apply leaves_open. by apply list_elem_of_singleton.
Qed.

Lemma closes_on_failure op initial mapper e :
  mapper <> "" -> closes mapper (on_failure op initial mapper e).
Proof.
  intros Hm. unfold on_failure. cbv zeta. replace (str_empty mapper) with false by (by destruct mapper).
  cbn [negb]. apply closes_call. intros r. entries_step; [harmless|].
  apply tame_openless, tame_release_after.
Qed.

Lemma tidy_guarded_open {A} op initial mapper (m : Exec A) rest :
  mapper <> "" -> tidy (λ r, match r with Ok _ => [] | Throw _ => [mapper] end) m ->
  (forall a, tidy (λ _, []) (rest a)) ->
  tidy (λ _, []) (guarded op initial mapper m rest).
Proof.
  intros Hne Hm Hr t s. unfold guarded, attempt. rewrite prog_wp_bind, wp_catch, prog_wp_bind.
  eapply prog_wp_mono; [|apply Hm]. cbn. intros t' [a|e] s' (u & -> & Hu); cbn.
  - eapply prog_wp_mono; [|apply Hr]. cbn. intros t'' r s'' (v & -> & Hv). exists (u ++ v).
    rewrite app_assoc. split; [done|]. by apply leaves_app.
  - eapply prog_wp_mono; [|by apply closes_on_failure]. cbn. intros t'' r s'' (v & r' & -> & Hv & Hc).
    exists (u ++ v). rewrite app_assoc. split; [done|].
    eapply leaves_closed; [exact Hu|exact Hc|by apply leaves_quiet].
Qed.

Lemma tidy_guarded {A} op initial mapper (m : Exec A) rest :
  tidy (λ _, []) m -> (forall a, tidy (λ _, []) (rest a)) ->
  tidy (λ _, []) (guarded op initial mapper m rest).
Proof.
  intros Hm Hr. unfold guarded. apply tidy_bind; [by apply tidy_attempt|].
  intros [a|e]; [apply Hr|]. apply tidy_openless, tame_openless, tame_on_failure.
Qed.

Lemma tidy_execute n b root op fd : tidy (λ _, []) (execute n b root op fd).
Proof.
  unfold execute. apply tidy_bind; [apply tidy_openless; harmless|intros initial].
  do 2 (apply tidy_bind; [apply tidy_openless; harmless|intros ?]).
  apply tidy_guarded.
  - apply tidy_bind.
    { apply tidy_openless, tame_openless. unfold inspect_phase.
      do 4 (entries_step; [harmless|]). entries_step; [apply tame_check_sources|harmless]. }
    intros w.
    assert (Hw : openless
        (partition ← make_partition op initial w;
         '(number, luks) ← format_partition n op initial partition;
         _ ← prepare_open n op initial number;
         mret (Some (partition, number, luks)))).
    { entries_step; [unfold make_partition, backup_partition_table; harmless|].
      entries_step.
      { unfold format_partition. entries_step; [apply tame_openless, tame_partition_number|harmless]. }
      entries_step. entries_step; [|harmless]. unfold prepare_open.
      entries_step; [harmless|]. entries_step; [apply tame_openless, tame_request_access|harmless]. }
    destruct w; try (apply tidy_openless, Hw).
    apply tidy_bind; [apply tidy_adopt|intros ?; apply tidy_openless; harmless].
  - intros [[[partition number] luks]|]; [|apply tidy_openless; harmless]. cbv zeta.
    apply tidy_guarded_open; [done|apply tidy_format_filesystem|].
    intros uuids. apply tidy_guarded; [apply tidy_openless, tame_openless, tame_publish|].
    intros ?. apply tidy_openless. harmless.
Qed.

(** C16.  However a preparation ends, every LUKS container that it opened, on the new
    filesystem or on an existing target, is afterwards closed, or closing it is at least
    tried. *)
Theorem opened_containers_closed {W} (env : Env W) n b root op fd w s pre e post mapper :
  (run env (execute n b root op fd) w s).2 = pre ++ e :: post -> opens e = Some mapper ->
  exists r, Did (CloseMapper mapper) r ∈ post.
Proof.
  intros Ht Ho.
  destruct (prog_wp_run _ _ env _ _ w s (any_env_ok env) (tidy_execute n b root op fd [] s))
    as (u & Hu & Hl).
  rewrite Hu in Ht. cbn in Ht. destruct (Hl pre e post mapper Ht Ho) as [Hn|?]; [set_solver|done].
Qed.
