(* ===== verification/PreparationRuns.v ===== *)
(** * Preparations that run

    Collaborators that do what they are asked, so that the worker can be evaluated: every
    mode succeeds, and what is recorded when a container cannot be closed. *)

From S2P Require Import Prelude Errors Identifiers FsPath ConfigDomain Ports.
From S2P Require Import BackupRunPlan Mounts Interaction Provisioning Preparation PreparationStore.
From S2P Require Import PreparationDevices ProvisioningService ProvisioningSource.
From S2P Require Import PreparationExecutor PreparationSafety.

Open Scope Z_scope.

(** The summary of the repository on the partition of [ex_device]. *)
Definition ex_summary : ExistingTargetInspectionSummary :=
  mkSummary CompatibleRepository "" "luks-1" "btrfs-1" "puuid-1" "repository-1" 3 2.

(** Everything works, except that closing a container fails if [close_fails]. *)
Definition ex_answer (close_fails : bool) X (o : ExecOp X) : res X :=
  match o in ExecOp X return res X with
  | StoreAccess | ReleaseProfile _ _ | Sleep | CopySecret _ | RewindSecret | WipeAll _ _ _
  | OpenLuks _ _ | FormatBtrfsOn _ _ | OpenLuksReadOnly _ _ | MountReadOnly _ _ | Unmount _
  | EnsureDirectory _ | InstallProfile _ | RegisterPassphrase _ _ | GenerateKey _ => Ok tt
  | CloseMapper _ => if close_fails then Throw (SystemOperationError "device is busy") else Ok tt
  | SystemTime => Ok 1709210100
  | SteadyNow => Ok 0
  | TryDeviceLock | IsSubvolume _ | IsPlainDirectory _ => Ok true
  | Revalidate device => Ok device
  | InspectSafety _ _ => Ok []
  | InspectMounts => Ok [mkMount "/dev/sda2" "/home" "btrfs" "/" "rw,relatime" 1 "0:30" "fs-1"]
  | BlockDeviceNumber _ => Ok "253:0"
  | ReadMetadata _ => Ok (mkMetadata "btrfs" "btrfs-1" "puuid-1")
  | SnapshotPartitionTable _ _ _ _ _ => Ok "label: gpt"
  | ReplaceWithSinglePartition _ _ _ | CreatePartition _ _ _ _ _ _ _ => Ok "/dev/sdb1"
  | InspectReplacedPartition _ _ _ _ | InspectCreatedPartition _ _ _ _ _ _ _ => Ok NotCreated
  | FormatLuks _ | InspectLuks _ => Ok "luks-1"
  | RemoveDirectory _ => Ok (Some true)
  | PathExists _ => Ok (Exists true)
  | ListDirectory _ => Ok (Some [])
  | DiscoverRepository _ => Ok (Discovered "btrfs-1" "repository-1" 3 2)
  | BuildProfile _ _ _ _ => Ok sample_profile
  end.

(** The daemon grants the access that is asked for. *)
Definition ex_daemon (t : DevicePreparationTransaction) : DevicePreparationTransaction :=
  t <| tx_authorized_access_generation := tx_access_generation t |>.

Definition ex_worker (close_fails : bool) : @Env DevicePreparationTransaction ExecOp unit :=
  mkEnv (λ X o w, (ex_answer close_fails X o, w)) (λ w t, (ex_daemon t, w)).

(** A transaction for the selected target. *)
Definition ex_prepare (target : DevicePreparationTarget) : DevicePreparationTransaction :=
  mkTransaction 1
    (mkStatus "operation-1" "home" "queued" "inspect" "" "" "" "not-required" true)
    (mkOwner ":1.42" 1000) (provisioning_device_snapshot ex_device) target "Home"
    [mkSource "candidate-9" "Source" "/home" "fs-1" "/home" "/home/.snapshots/btrfs-backup/home" 30 30]
    "passphrase" true 1709210096 1709210096 "" "" "" "" "" "" "" "" "" "" "not-started"
    "not-started" "held" "not-required" false ["8:16"] false 1 1.

Definition ex_targets : list DevicePreparationTarget :=
  [mkTarget EraseWholeDevice ex_device None None (Some ex_geometry) None;
   mkTarget CreatePartitionInUnallocatedSpace ex_device None (Some ex_free) (Some ex_geometry) None;
   mkTarget ReformatExistingPartition ex_device (Some ex_partition) None None None;
   mkTarget AdoptExistingTarget ex_device (Some ex_partition) None None (Some ex_summary)].

Definition ex_execute (close_fails : bool) (target : DevicePreparationTarget)
    : res unit * DevicePreparationTransaction * list EEntry :=
  run (ex_worker close_fails) (execute 3 true "/run/inspect" "operation-1" 5) tt (ex_prepare target).

(** What the transaction says at the end. *)
Definition ex_outcome (t : DevicePreparationTransaction) : list string :=
  [tx_state t; st_phase (tx_status t); st_error_code (tx_status t); tx_profile_reservation_state t;
   tx_configuration_state t; tx_mapper t; tx_cleanup_result t].

(** Every mode runs to its end. *)
Example ex_every_mode_succeeds :
  map (λ target, ((ex_execute false target).1.1, ex_outcome (ex_execute false target).1.2)) ex_targets =
  [(Ok tt, ["succeeded"; "complete"; ""; "released"; "installed"; ""; "mapper-closed"]);
   (Ok tt, ["succeeded"; "complete"; ""; "released"; "installed"; ""; "mapper-closed"]);
   (Ok tt, ["succeeded"; "complete"; ""; "released"; "installed"; ""; "mapper-closed"]);
   (Ok tt, ["succeeded"; "complete"; ""; "released"; "installed"; ""; "inspection-cleaned"])].
Proof. vm_compute. reflexivity. Qed.

Definition ex_adopt : DevicePreparationTarget :=
  mkTarget AdoptExistingTarget ex_device (Some ex_partition) None None (Some ex_summary).

(** A container that was closed. *)
Definition closed_in (t : list EEntry) : bool :=
  existsb (λ e, match e with Did (CloseMapper _) (Ok _) => true | _ => false end) t.
Definition opened_in (t : list EEntry) : list string := omap opens t.

(** When the container of a target that is to be adopted cannot be closed again, the
    transaction forgets it: the container was opened and no close succeeded, yet the record
    ends with no mapper, with nothing to clean up and with its reservation released, so that
    it is final and no recovery will try again. *)
Theorem unclosed_container_forgotten :
  let '(result, final, trace) := ex_execute true ex_adopt in
  opened_in trace = ["operation-1"] /\ closed_in trace = false /\ result = Ok tt /\
  tx_mapper final = "" /\ tx_inspection_mount_point final = "" /\
  tx_cleanup_result final = "not-required" /\ terminal final = true.
Proof. vm_compute. repeat split. Qed.

(** A new filesystem is treated better: the record keeps the mapper. *)
Example ex_unclosed_container_kept :
  ex_outcome (ex_execute true (mkTarget ReformatExistingPartition ex_device (Some ex_partition)
                                 None None None)).1.2 =
  ["failed"; "close"; "device-preparation.close-failed"; "held"; "not-started";
   "btrfs-backup-home"; "mapper-close-failed"].
Proof. vm_compute. reflexivity. Qed.

(** The entries before and behind the opening of the container. *)
Fixpoint split_at_open (t : list EEntry) : option (list EEntry * EEntry * list EEntry) :=
  match t with
  | [] => None
  | e :: t =>
      match opens e with
      | Some _ => Some ([], e, t)
      | None => '(pre, x, post) ← split_at_open t; Some (e :: pre, x, post)
      end
  end.

Lemma split_at_open_Some t pre e post :
  split_at_open t = Some (pre, e, post) -> t = pre ++ e :: post.
Proof.
  revert pre. induction t as [|x t IH]; intros pre; cbn; [done|].
  destruct (opens x); [by intros [= <- <- <-]|].
  destruct (split_at_open t) as [[[p y] q]|]; cbn; [|done]. intros [= <- -> ->]. cbn. f_equal. auto.
Qed.

(** The adoption of [ex_every_mode_succeeds], at the opening of the container. *)
Definition ex_trace : list EEntry :=
  (run (ex_worker false) (execute 3 true "/run/inspect" "operation-1" 5) tt (ex_prepare ex_adopt)).2.
Definition ex_split : list EEntry * EEntry * list EEntry :=
  default ([], Locked (ex_prepare ex_adopt), []) (split_at_open ex_trace).

Lemma ex_split_ok :
  (run (ex_worker false) (execute 3 true "/run/inspect" "operation-1" 5) tt (ex_prepare ex_adopt)).2
  = ex_split.1.1 ++ ex_split.1.2 :: ex_split.2.
Proof.
  assert (H : is_Some (split_at_open ex_trace)).
  { apply not_eq_None_Some. vm_compute. discriminate. }
  revert H. unfold ex_split, ex_trace. generalize ((run (ex_worker false) (execute 3 true "/run/inspect" "operation-1" 5) tt (ex_prepare ex_adopt)).2).
  intros t [[[pre e] post] Hs].
  rewrite Hs. cbn. by apply split_at_open_Some.
Qed.

Lemma ex_split_opens : opens ex_split.1.2 = Some "operation-1".
Proof. vm_compute. reflexivity. Qed.

Lemma opened_containers_closed_witness :
  opens ex_split.1.2 = Some "operation-1" /\
  exists r, Did (CloseMapper "operation-1") r ∈ ex_split.2.
Proof.
  split; [exact ex_split_opens|].
  exact (opened_containers_closed (ex_worker false) 3 true "/run/inspect" "operation-1" 5 tt
           (ex_prepare ex_adopt) ex_split.1.1 ex_split.1.2 ex_split.2 "operation-1"
           ex_split_ok ex_split_opens).
Defined.
