(* ===== verification/ProfileDocument.v ===== *)
(** * Profile documents (src/config/json)

    A profile is kept as a JSON document.  Reading one normalises it: every member is
    checked, defaults are filled in, paths, UUIDs and numbers take their canonical form, and
    the normalised document is decoded into the profile of the domain (ConfigDomain).
    Writing is the encoding of a profile.  The text of a document is the JSON library's
    ([JsonText]). *)

From S2P Require Import Prelude Errors Identifiers FsPath ConfigDomain Json.

Open Scope Z_scope.

(** ** The patterns *)

(** src/config/json/ProfileDocumentNormalization.cpp:29-29 *)
Definition match_serial (s : string) : bool :=
  match s with
  | EmptyString => true
  | String c rest =>
      is_alnum c
      && str_forallb (λ x, is_alnum x || Ascii.eqb x "." || Ascii.eqb x "_" || Ascii.eqb x ":"
                           || Ascii.eqb x "+" || Ascii.eqb x "-") rest
      && (Z.of_nat (String.length rest) <=? 255)
  end.

(** src/config/json/ProfileDocumentNormalization.cpp:30-30 *)
Definition match_generation (s : string) : bool :=
  str_forallb (λ c, is_digit c || ((97 <=? N_of_ascii c) && (N_of_ascii c <=? 102))%N) s
  && (String.length s =? 32)%nat.

(** src/config/json/ProfileDocumentNormalization.cpp:31-33 *)
Definition starts_with (value prefix : string) : bool := String.prefix prefix value.

(** src/config/json/ProfileDocumentNormalization.cpp:35-38 *)
Definition lower (value : string) : string := str_map to_lower value.

(** ** Members *)

Section document.
Context `{JsonText}.

Definition invalid {A} (message : string) : res A := Throw (ValidationError message).

(** src/config/json/ProfileDocumentNormalization.cpp:40-55 *)
Definition text (value : Json) (name : string) (allow_empty : bool) (maximum : Z) : res string :=
  match value with
  | JString result =>
      if str_contains Ascii.zero result || str_contains newline result
         || str_contains carriage_return result
      then invalid (name +:+ " contains a forbidden control character")
      else if maximum <? Z.of_nat (String.length result)
      then invalid (name +:+ " is too long")
      else if negb allow_empty && str_empty result
      then invalid (name +:+ " must not be empty")
      else Ok result
  | _ => invalid (name +:+ " must be text")
  end.

(** src/config/json/ProfileDocumentNormalization.cpp:57-60 *)
Definition absolute_path (value : Json) (name : string) : res string :=
  result ← text value name false 4096;
  normalized_absolute_path result name.

(** src/config/json/ProfileDocumentNormalization.cpp:62-65 *)
Definition relative_path (value : Json) (name : string) : res string :=
  result ← text value name false 4096;
  normalized_relative_path result name.

(** src/config/json/ProfileDocumentNormalization.cpp:67-76 *)
Definition uuid_value (value : Json) (name : string) (allow_empty : bool) : res string :=
  result ← text value name allow_empty 64;
  if str_empty result && allow_empty then Ok ""
  else if negb (match_uuid result) then invalid (name +:+ " is not a canonical UUID")
  else Ok (lower result).

(** The member [key] of an object, if it is there and not [null]. *)
Definition present (object : Json) (key : string) : option Json :=
  match object with
  | JObject members =>
      match json_find members key with Some JNull | None => None | Some v => Some v end
  | _ => None
  end.

(** src/config/json/ProfileDocumentNormalization.cpp:78-86 *)
Definition boolean_value (object : Json) (key name : string) (default_value : bool) : res bool :=
  match present object key with
  | None => Ok default_value
  | Some (JBool b) => Ok b
  | Some _ => invalid (name +:+ " must be true or false")
  end.

(** src/config/json/ProfileDocumentNormalization.cpp:88-113 *)
Definition integer_value (object : Json) (key name : string) (default_value maximum : Z) : res Z :=
  match present object key with
  | None => Ok default_value
  | Some (JUInt _ as v) =>
      result ← get_u64 v;
      if maximum <? result then invalid (name +:+ " is outside the supported range") else Ok result
  | Some (JInt _ as v) =>
      result ← get_i64 v;
      if (result <? 0) || (maximum <? result)
      then invalid (name +:+ " is outside the supported range") else Ok result
  | Some _ => invalid (name +:+ " must be an integer")
  end.

(** src/config/json/ProfileDocumentNormalization.cpp:115-123 *)
Definition object_or_empty (root : Json) (key name : string) : res Json :=
  match present root key with
  | None => Ok (JObject [])
  | Some (JObject members) => Ok (JObject members)
  | Some _ => invalid (name +:+ " must be an object")
  end.

(** src/config/json/ProfileDocumentNormalization.cpp:125-133 *)
Definition array_or_empty (root : Json) (key name : string) : res (list Json) :=
  match present root key with
  | None => Ok []
  | Some (JArray items) => Ok items
  | Some _ => invalid (name +:+ " must be an array")
  end.

(** src/config/json/ProfileDocumentNormalization.cpp:135-140 *)
Definition required_object (root : Json) (key name : string) : res Json :=
  match present root key with
  | Some (JObject members) => Ok (JObject members)
  | _ => invalid (name +:+ " must be an object")
  end.

(** src/config/json/ProfileDocumentNormalization.cpp:142-151 *)
Definition reject_unknown_properties (object : Json) (allowed : list string) (name : string)
    : res unit :=
  match object with
  | JObject members =>
      match find_if (λ m, negb (existsb (String.eqb m.1) allowed)) members with
      | Some (key, _) => invalid (name +:+ "." +:+ key +:+ " is not supported")
      | None => Ok tt
      end
  | _ => invalid (name +:+ " must be an object")
  end.

(** src/config/json/ProfileDocumentNormalization.cpp:153-158 *)
Definition required_value (root : Json) (key name : string) : res Json :=
  match present root key with
  | Some v => Ok v
  | None => invalid (name +:+ " is required")
  end.

(** src/config/json/ProfileDocumentNormalization.cpp:210-214 *)
Definition identifier (value : Json) (name : string) : res string :=
  result ← text value name false 64;
  _ ← validate_identifier result name;
  Ok result.

(** ** Normalisation *)

Definition indexed (name : string) (index : nat) : string :=
  name +:+ "[" +:+ pretty (Z.of_nat index) +:+ "]".

(** The loop over the arguments of a hook.
    src/config/json/ProfileDocumentNormalization.cpp:183-191 *)
Fixpoint normalize_arguments (arguments : list Json) (name : string) (index : nat)
    : res (list string) :=
  match arguments with
  | [] => Ok []
  | a :: arguments =>
      a ← text a (indexed name index) true 4096;
      rest ← normalize_arguments arguments name (S index);
      Ok (a :: rest)
  end.

Definition hook_json (program : string) (arguments : list string) (timeout : Json) : Json := JObject [
  ("type", JString "program");
  ("program", JString program);
  ("arguments", JArray (map JString arguments));
  ("timeoutSeconds", timeout)].

(** One command.
    src/config/json/ProfileDocumentNormalization.cpp:168-203 *)
Definition normalize_hook_command (item : Json) (item_name : string) : res Json :=
  _ ← require (is_object item) (ValidationError (item_name +:+ " must be an object"));
  _ ← reject_unknown_properties item ["type"; "program"; "arguments"; "timeoutSeconds"] item_name;
  type ← required_value item "type" (item_name +:+ ".type");
  type ← text type (item_name +:+ ".type") false 32;
  _ ← require (type =? "program")%string (ValidationError (item_name +:+ ".type must be program"));
  arguments ← array_or_empty item "arguments" (item_name +:+ ".arguments");
  _ ← require (Z.of_nat (length arguments) <=? 128)
        (ValidationError (item_name +:+ ".arguments supports at most 128 arguments"));
  arguments ← normalize_arguments arguments (item_name +:+ ".arguments") 0;
  _ ← required_value item "timeoutSeconds" (item_name +:+ ".timeoutSeconds");
  timeout ← integer_value item "timeoutSeconds" (item_name +:+ ".timeoutSeconds") 0 86400;
  _ ← require (negb (timeout =? 0))
        (ValidationError (item_name +:+ ".timeoutSeconds is outside the supported range"));
  program ← required_value item "program" (item_name +:+ ".program");
  program ← absolute_path program (item_name +:+ ".program");
  Ok (hook_json (lexically_normal program) arguments (JUInt timeout)).

(** src/config/json/ProfileDocumentNormalization.cpp:166-205 *)
Fixpoint normalize_commands (commands : list Json) (name : string) (index : nat) : res (list Json) :=
  match commands with
  | [] => Ok []
  | item :: commands =>
      c ← normalize_hook_command item (indexed name index);
      rest ← normalize_commands commands name (S index);
      Ok (c :: rest)
  end.

(** src/config/json/ProfileDocumentNormalization.cpp:160-206 *)
Definition normalize_hook_commands (hooks : Json) (key name : string) : res (list Json) :=
  commands ← array_or_empty hooks key name;
  _ ← require (Z.of_nat (length commands) <=? 64)
        (ValidationError (name +:+ " supports at most 64 hooks"));
  normalize_commands commands name 0.

Definition current_profile_schema_version : Z := 1.

(** src/config/json/ProfileDocumentNormalization.cpp:218-249 *)
Definition validate_root (raw : Json) : res unit :=
  _ ← require (is_object raw) (ValidationError "profile must be an object");
  _ ← reject_unknown_properties raw
        ["schemaVersion"; "configurationGeneration"; "profileId"; "name"; "enabled"; "target"; "paths";
         "settings"; "hooks"; "sources"] "profile";
  match present raw "schemaVersion" with
  | Some ((JInt _ | JUInt _) as v) =>
      version ← get_i32 v;
      require (version =? current_profile_schema_version)
        (ValidationError
          ("configuration.unsupported-schema: profile was created by an unsupported development version; "
           +:+ "btrfs-backup 1.0 does not migrate earlier configurations; create a new profile and adopt the "
           +:+ "existing backup device only if repository validation succeeds; detectedSchemaVersion="
           +:+ pretty version +:+ "; supportedSchemaVersion=" +:+ pretty current_profile_schema_version))
  | _ => invalid "schemaVersion must be an integer"
  end.

(** src/config/json/ProfileDocumentNormalization.cpp:251-271 *)
Definition normalize_profile_header (raw : Json) : res (string * list (string * Json)) :=
  id ← json_at raw "profileId";
  profile_id ← identifier id "profileId";
  generation ← json_value get_string raw "configurationGeneration" "";
  generation ← text (JString generation) "configurationGeneration" true 32;
  _ ← require (str_empty generation || match_generation generation)
        (ValidationError "configurationGeneration must contain 32 lowercase hexadecimal characters");
  name ← json_value get_string raw "name" profile_id;
  name ← text (JString name) "name" false 160;
  enabled ← boolean_value raw "enabled" "enabled" true;
  Ok (profile_id,
      [("schemaVersion", JInt current_profile_schema_version); ("profileId", JString profile_id);
       ("name", JString name); ("enabled", JBool enabled)]
      ++ (if str_empty generation then [] else [("configurationGeneration", JString generation)])).

Definition activation_json (key_file : option string) : Json := JObject
  match key_file with
  | None => [("mode", JString "askPassword")]
  | Some k => [("mode", JString "keyFile"); ("keyFile", JString k)]
  end.

Definition target_json (device luks btrfs partition serial mapper : string) (key_file : option string)
    : Json := JObject [
  ("device", JString device);
  ("luksUuid", JString luks);
  ("btrfsUuid", JString btrfs);
  ("partitionUuid", JString partition);
  ("serial", JString serial);
  ("mapperName", JString mapper);
  ("activation", activation_json key_file)].

(** The activation of the target.
    src/config/json/ProfileDocumentNormalization.cpp:292-311 *)
Definition normalize_activation (target : Json) : res (option string) :=
  activation ← required_object target "activation" "target.activation";
  _ ← reject_unknown_properties activation ["mode"; "keyFile"] "target.activation";
  mode ← required_value activation "mode" "target.activation.mode";
  mode ← text mode "target.activation.mode" false 32;
  _ ← require ((mode =? "askPassword") || (mode =? "keyFile"))%string
        (ValidationError "target.activation.mode must be askPassword or keyFile");
  if (mode =? "keyFile")%string then
    key ← required_value activation "keyFile" "target.activation.keyFile";
    key ← absolute_path key "target.activation.keyFile";
    Ok (Some key)
  else
    _ ← require (negb (json_contains activation "keyFile"))
          (ValidationError "target.activation.keyFile is only valid in keyFile mode");
    Ok None.

(** src/config/json/ProfileDocumentNormalization.cpp:273-321 *)
Definition normalize_target (raw : Json) : res Json :=
  target ← required_object raw "target" "target";
  _ ← reject_unknown_properties target
        ["device"; "luksUuid"; "btrfsUuid"; "partitionUuid"; "serial"; "mapperName"; "activation"] "target";
  device ← json_at target "device";
  device ← absolute_path device "target.device";
  _ ← require ((device =? "/dev")%string || starts_with device "/dev/")
        (ValidationError "target.device must point inside /dev");
  luks ← json_at target "luksUuid";
  luks ← uuid_value luks "target.luksUuid" false;
  btrfs ← required_value target "btrfsUuid" "target.btrfsUuid";
  btrfs ← uuid_value btrfs "target.btrfsUuid" false;
  partition ← json_value get_string target "partitionUuid" "";
  partition ← uuid_value (JString partition) "target.partitionUuid" true;
  serial ← json_value get_string target "serial" "";
  serial ← text (JString serial) "target.serial" true 256;
  _ ← require (match_serial serial)
        (ValidationError "target.serial contains unsupported characters");
  mapper ← json_at target "mapperName";
  mapper ← identifier mapper "target.mapperName";
  key_file ← normalize_activation target;
  Ok (target_json device luks btrfs partition serial mapper key_file).

(** The two roots are the same directory or one is inside the other.
    src/config/json/ProfileDocumentNormalization.cpp:328-328 *)
Definition nested_roots (remote_root incoming_root : string) : bool :=
  (remote_root =? incoming_root)%string || starts_with remote_root (incoming_root +:+ "/")
  || starts_with incoming_root (remote_root +:+ "/").

(** src/config/json/ProfileDocumentNormalization.cpp:323-332 *)
Definition normalize_paths (raw : Json) (mount_point : string) : res Json :=
  paths ← object_or_empty raw "paths" "paths";
  _ ← reject_unknown_properties paths ["remoteRoot"; "incomingRoot"] "paths";
  remote_root ← json_value get_string paths "remoteRoot" (mount_point +:+ "/snapshots");
  remote_root ← absolute_path (JString remote_root) "paths.remoteRoot";
  incoming_root ← json_value get_string paths "incomingRoot" (mount_point +:+ "/.incoming");
  incoming_root ← absolute_path (JString incoming_root) "paths.incomingRoot";
  _ ← require (negb (nested_roots remote_root incoming_root))
        (ValidationError "paths.remoteRoot and paths.incomingRoot must be separate non-nested paths");
  Ok (JObject [("remoteRoot", JString remote_root); ("incomingRoot", JString incoming_root)]).

Definition settings_json (daily incremental keep eject : bool) (remote local target_free local_free : Json)
    : Json := JObject [
  ("dailyLimit", JBool daily);
  ("incrementalRequired", JBool incremental);
  ("keepFailedLocalSnapshot", JBool keep);
  ("autoEject", JBool eject);
  ("remoteRetention", remote);
  ("localRetention", local);
  ("minimumTargetFreeBytes", target_free);
  ("minimumLocalFreeBytes", local_free)].

(** The retention counts of the settings are returned beside the object, for the sources.
    src/config/json/ProfileDocumentNormalization.cpp:334-360 *)
Definition normalize_settings (raw : Json) : res (Z * Z * Json) :=
  settings ← object_or_empty raw "settings" "settings";
  _ ← reject_unknown_properties settings
        ["dailyLimit"; "incrementalRequired"; "keepFailedLocalSnapshot"; "autoEject"; "remoteRetention";
         "localRetention"; "minimumTargetFreeBytes"; "minimumLocalFreeBytes"] "settings";
  remote ← integer_value settings "remoteRetention" "settings.remoteRetention" 30 retention_maximum;
  local ← integer_value settings "localRetention" "settings.localRetention" 30 retention_maximum;
  daily ← boolean_value settings "dailyLimit" "settings.dailyLimit" true;
  incremental ← boolean_value settings "incrementalRequired" "settings.incrementalRequired" true;
  keep ← boolean_value settings "keepFailedLocalSnapshot" "settings.keepFailedLocalSnapshot" false;
  eject ← boolean_value settings "autoEject" "settings.autoEject" true;
  target_free ← integer_value settings "minimumTargetFreeBytes" "settings.minimumTargetFreeBytes"
                  (5 * 1024 * 1024 * 1024) byte_threshold_maximum;
  local_free ← integer_value settings "minimumLocalFreeBytes" "settings.minimumLocalFreeBytes"
                 (1024 * 1024 * 1024) byte_threshold_maximum;
  Ok (remote, local, settings_json daily incremental keep eject (JUInt remote) (JUInt local)
                       (JUInt target_free) (JUInt local_free)).

(** src/config/json/ProfileDocumentNormalization.cpp:362-369 *)
Definition normalize_hooks (raw : Json) : res Json :=
  hooks ← object_or_empty raw "hooks" "hooks";
  _ ← reject_unknown_properties hooks ["beforeSnapshot"; "afterSnapshot"] "hooks";
  before ← normalize_hook_commands hooks "beforeSnapshot" "hooks.beforeSnapshot";
  after ← normalize_hook_commands hooks "afterSnapshot" "hooks.afterSnapshot";
  Ok (JObject [("beforeSnapshot", JArray before); ("afterSnapshot", JArray after)]).

(** The identifiers and directories of the sources before. *)
Record Seen := mkSeen { seen_ids : list string; seen_local : list string; seen_remote : list string }.

Definition source_json (id name : string) (enabled : bool) (subvolume local remote : string)
    (remote_retention local_retention : Json) : Json := JObject [
  ("id", JString id);
  ("name", JString name);
  ("enabled", JBool enabled);
  ("subvolume", JString subvolume);
  ("localSnapshotDir", JString local);
  ("remoteSubdir", JString remote);
  ("remoteRetention", remote_retention);
  ("localRetention", local_retention)].

(** One source: what it adds to what was seen, whether it is enabled, and its document.
    src/config/json/ProfileDocumentNormalization.cpp:388-411 *)
Definition normalize_source (remote_default local_default : Z) (item : Json) (name : string)
    (seen : Seen) : res (Seen * bool * Json) :=
  _ ← require (is_object item) (ValidationError (name +:+ " must be an object"));
  _ ← reject_unknown_properties item
        ["id"; "name"; "enabled"; "subvolume"; "localSnapshotDir"; "remoteSubdir"; "remoteRetention";
         "localRetention"] name;
  id ← json_at item "id";
  source_id ← identifier id (name +:+ ".id");
  _ ← require (negb (bool_decide (source_id ∈ seen_ids seen)))
        (ValidationError ("duplicate source id: " +:+ source_id));
  local ← json_at item "localSnapshotDir";
  local ← absolute_path local (name +:+ ".localSnapshotDir");
  remote ← json_value get_string item "remoteSubdir" source_id;
  remote ← relative_path (JString remote) (name +:+ ".remoteSubdir");
  _ ← require (negb (bool_decide (local ∈ seen_local seen)))
        (ValidationError ("duplicate localSnapshotDir: " +:+ local));
  _ ← require (negb (bool_decide (remote ∈ seen_remote seen)))
        (ValidationError ("duplicate remoteSubdir: " +:+ remote));
  enabled ← boolean_value item "enabled" (name +:+ ".enabled") true;
  source_name ← json_value get_string item "name" source_id;
  source_name ← text (JString source_name) (name +:+ ".name") false 160;
  subvolume ← json_at item "subvolume";
  subvolume ← absolute_path subvolume (name +:+ ".subvolume");
  remote_retention ← integer_value item "remoteRetention" (name +:+ ".remoteRetention") remote_default
                       retention_maximum;
  local_retention ← integer_value item "localRetention" (name +:+ ".localRetention") local_default
                      retention_maximum;
  Ok (mkSeen (source_id :: seen_ids seen) (local :: seen_local seen) (remote :: seen_remote seen), enabled,
      source_json source_id source_name enabled subvolume local remote (JUInt remote_retention)
        (JUInt local_retention)).

(** src/config/json/ProfileDocumentNormalization.cpp:386-412 *)
Fixpoint normalize_source_list (remote_default local_default : Z) (items : list Json) (index : nat)
    (seen : Seen) : res (bool * list Json) :=
  match items with
  | [] => Ok (false, [])
  | item :: items =>
      s ← normalize_source remote_default local_default item (indexed "sources" index) seen;
      let '(seen, enabled, document) := s in
      rest ← normalize_source_list remote_default local_default items (S index) seen;
      Ok (enabled || rest.1, document :: rest.2)
  end.

(** src/config/json/ProfileDocumentNormalization.cpp:371-418 *)
Definition normalize_sources (raw : Json) (remote_default local_default : Z) : res (list Json) :=
  items ← match present raw "sources" with
          | Some (JArray items) => Ok items
          | _ => invalid "sources must be an array"
          end;
  _ ← require (negb (bool_decide (items = [])))
        (ValidationError "sources must contain at least one source");
  _ ← require (Z.of_nat (length items) <=? 128)
        (ValidationError "at most 128 sources are supported");
  sources ← normalize_source_list remote_default local_default items 0 (mkSeen [] [] []);
  _ ← require sources.1 (ValidationError "at least one source must be enabled");
  Ok sources.2.

(** src/config/json/ProfileDocumentNormalization.cpp:422-432 *)
Definition normalize_profile (raw : Json) (target_mount_root : path) : res Json :=
  _ ← validate_root raw;
  header ← normalize_profile_header raw;
  let '(profile_id, members) := header in
  target ← normalize_target raw;
  mount_root ← normalized_absolute_path target_mount_root "TARGET_MOUNT_ROOT";
  paths ← normalize_paths raw (path_append mount_root profile_id);
  settings ← normalize_settings raw;
  let '(remote, local, settings) := settings in
  hooks ← normalize_hooks raw;
  sources ← normalize_sources raw remote local;
  Ok (JObject (members ++ [("target", target); ("paths", paths); ("settings", settings); ("hooks", hooks);
                           ("sources", JArray sources)])).

(** ** Decoding *)

(** src/config/json/ProfileDocumentDecode.cpp:64-68 *)
Definition decode_hook (item : Json) : res ProfileHookCommand :=
  program ← json_at item "program" ≫= get_string;
  program ← make_hook_program program;
  arguments ← json_at item "arguments" ≫= get_strings;
  timeout ← json_at item "timeoutSeconds" ≫= get_i64;
  Ok (mkHook program arguments timeout).

(** [for (const Json& item : j)] *)
Definition elements (j : Json) : list Json :=
  match j with
  | JArray items => items
  | JObject members => map snd members
  | JNull => []
  | j => [j]
  end.

(** src/config/json/ProfileDocumentDecode.cpp:79-89 *)
Definition decode_source (item : Json) : res ProfileSource :=
  id ← json_at item "id" ≫= get_string;
  id ← make_ident KSource id;
  subdir ← json_at item "remoteSubdir" ≫= get_string;
  subdir ← make_rel subdir;
  name ← json_at item "name" ≫= get_string;
  enabled ← json_at item "enabled" ≫= get_bool;
  subvolume ← json_at item "subvolume" ≫= get_string;
  subvolume ← make_abs KSourceSubvolume subvolume;
  local ← json_at item "localSnapshotDir" ≫= get_string;
  local ← make_abs KLocalSnapshotRoot local;
  remote_retention ← json_at item "remoteRetention" ≫= get_u64;
  remote_retention ← make_retention remote_retention;
  local_retention ← json_at item "localRetention" ≫= get_u64;
  local_retention ← make_retention local_retention;
  Ok (mkProfileSource id name enabled subvolume local subdir remote_retention local_retention).

(** src/config/json/ProfileDocumentDecode.cpp:45-50 *)
Definition decode_activation (target : Json) : res TargetActivation :=
  activation ← json_at target "activation";
  mode ← json_at activation "mode";
  match mode with
  | JString "keyFile" =>
      key ← json_at activation "keyFile" ≫= get_string;
      key ← make_abs KKeyFile key;
      Ok (KeyFileActivation key)
  | _ => Ok AskPasswordActivation
  end.

(** src/config/json/ProfileDocumentDecode.cpp:52-60 *)
Definition decode_settings (settings : Json) : res ProfileSettings :=
  daily ← json_at settings "dailyLimit" ≫= get_bool;
  incremental ← json_at settings "incrementalRequired" ≫= get_bool;
  keep ← json_at settings "keepFailedLocalSnapshot" ≫= get_bool;
  eject ← json_at settings "autoEject" ≫= get_bool;
  remote ← json_at settings "remoteRetention" ≫= get_u64;
  remote ← make_retention remote;
  local ← json_at settings "localRetention" ≫= get_u64;
  local ← make_retention local;
  target_free ← json_at settings "minimumTargetFreeBytes" ≫= get_u64;
  target_free ← make_threshold target_free;
  local_free ← json_at settings "minimumLocalFreeBytes" ≫= get_u64;
  local_free ← make_threshold local_free;
  Ok (mkProfileSettings daily incremental keep eject remote local target_free local_free).

(** What is decoded from the normalised document.
    src/config/json/ProfileDocumentDecode.cpp:22-91 *)
Definition decode_normalized (normalized : Json) (target_mount_root : path) : res Profile :=
  target ← json_at normalized "target";
  id ← json_at normalized "profileId" ≫= get_string;
  id ← make_ident KProfile id;
  luks ← json_at target "luksUuid" ≫= get_string;
  btrfs ← json_at target "btrfsUuid" ≫= get_string;
  partition ← json_at target "partitionUuid" ≫= get_string;
  mapper ← json_at target "mapperName" ≫= get_string;
  identity ← make_target_identity luks btrfs partition mapper;
  paths ← json_at normalized "paths";
  remote_root ← json_at paths "remoteRoot" ≫= get_string;
  remote_root ← make_abs KRemoteSnapshotRoot remote_root;
  incoming_root ← json_at paths "incomingRoot" ≫= get_string;
  incoming_root ← make_abs KIncomingRoot incoming_root;
  generation ← json_value get_string normalized "configurationGeneration" "";
  name ← json_at normalized "name" ≫= get_string;
  enabled ← json_at normalized "enabled" ≫= get_bool;
  device ← json_at target "device" ≫= get_string;
  device ← make_abs KTargetDevice device;
  serial ← json_at target "serial" ≫= get_string;
  mount_root ← normalized_absolute_path target_mount_root "TARGET_MOUNT_ROOT";
  mount_point ← make_abs KTargetMountPoint (path_append mount_root (id_value id));
  activation ← decode_activation target;
  settings ← json_at normalized "settings" ≫= decode_settings;
  hooks ← json_at normalized "hooks";
  before ← json_at hooks "beforeSnapshot";
  before ← res_mapM decode_hook (elements before);
  after ← json_at hooks "afterSnapshot";
  after ← res_mapM decode_hook (elements after);
  sources ← json_at normalized "sources";
  sources ← res_mapM decode_source (elements sources);
  Ok (mkProfile generation id name enabled
        (mkProfileTarget device identity serial mount_point activation)
        (mkProfilePaths remote_root incoming_root) settings (mkProfileHooks before after) sources).

(** src/config/json/ProfileDocumentDecode.cpp:20-92 *)
Definition profile_from_document (document : Json) (target_mount_root : path) : res Profile :=
  normalized ← normalize_profile document target_mount_root;
  decode_normalized normalized target_mount_root.

(** src/config/json/ProfileDocumentDecode.cpp:94-96 *)
Definition profile_from_json (raw : Json) (target_mount_root : path) : res Profile :=
  document ← normalize_profile raw target_mount_root;
  profile_from_document document target_mount_root.

(** ** Encoding *)

(** src/config/json/ProfileDocumentEncode.cpp:14-16 *)
Definition encode_source (source : ProfileSource) : Json :=
  source_json (id_value (source_id source)) (source_name source) (source_enabled source)
    (abs_value (subvolume source)) (abs_value (local_snapshot_dir source))
    (rel_value (remote_subdir source)) (JUInt (retention_value (remote_retention source)))
    (JUInt (retention_value (local_retention source))).

(** src/config/json/ProfileDocumentEncode.cpp:34-40 *)
Definition hooks_to_json (hooks : list ProfileHookCommand) : Json :=
  JArray (map (λ hook, hook_json (hook_program hook) (hook_arguments hook) (JInt (hook_timeout hook))) hooks).

(** src/config/json/ProfileDocumentEncode.cpp:18-32 *)
Definition encode_target (t : ProfileTarget) : Json :=
  target_json (abs_value (device t)) (luks_uuid (target_identity t)) (btrfs_uuid (target_identity t))
    (partition_uuid (target_identity t)) (serial t) (mapper_name (target_identity t))
    (match activation t with
     | AskPasswordActivation => None
     | KeyFileActivation key => Some (abs_value key)
     end).

Definition encode_settings (s : ProfileSettings) : Json :=
  settings_json (daily_limit s) (incremental_required s) (keep_failed_local_snapshot s) (auto_eject s)
    (JUInt (retention_value (settings_remote_retention s)))
    (JUInt (retention_value (settings_local_retention s)))
    (JUInt (threshold_value (minimum_target_free_bytes s)))
    (JUInt (threshold_value (minimum_local_free_bytes s))).

(** src/config/json/ProfileDocumentEncode.cpp:12-57 *)
Definition profile_to_json (profile : Profile) : Json := JObject (
  [("schemaVersion", JInt current_profile_schema_version);
   ("profileId", JString (id_value (profile_id profile)));
   ("name", JString (profile_name profile));
   ("enabled", JBool (profile_enabled profile));
   ("target", encode_target (target profile));
   ("paths", JObject [("remoteRoot", JString (abs_value (remote_root (paths profile))));
                      ("incomingRoot", JString (abs_value (incoming_root (paths profile))))]);
   ("settings", encode_settings (settings profile));
   ("hooks", JObject [("beforeSnapshot", hooks_to_json (before_snapshot (hooks profile)));
                      ("afterSnapshot", hooks_to_json (after_snapshot (hooks profile)))]);
   ("sources", JArray (map encode_source (sources profile)))]
  ++ (if str_empty (configuration_generation profile) then []
      else [("configurationGeneration", JString (configuration_generation profile))])).

(** ** Normal members

    A text is normal for a check when the check accepts it and returns it unchanged. *)

Definition fixed (check : Json -> string -> res string) (s : string) : Prop :=
  forall name, check (JString s) name = Ok s.

Definition bounded_text (allow_empty : bool) (maximum : Z) (value : Json) (name : string) : res string :=
  text value name allow_empty maximum.

Definition optional_uuid (value : Json) (name : string) : res string := uuid_value value name true.
Definition required_uuid (value : Json) (name : string) : res string := uuid_value value name false.

Lemma text_Ok j name allow_empty maximum s :
  text j name allow_empty maximum = Ok s ->
  j = JString s /\ fixed (bounded_text allow_empty maximum) s.
Proof.
  intros Ht. destruct j as [| | | | |v| |]; try discriminate Ht.
  unfold fixed, bounded_text, text, invalid in *.
  destruct (_ || _) eqn:E1 in Ht; [done|]. destruct (_ <? _) eqn:E2 in Ht; [done|].
  destruct (_ && _) eqn:E3 in Ht; [done|]. injection Ht as <-. split; [done|].
  intros n. by rewrite E1, E2, E3.
Qed.

Lemma text_fixed allow_empty maximum s name :
  fixed (bounded_text allow_empty maximum) s -> text (JString s) name allow_empty maximum = Ok s.
Proof. intros Hf. apply Hf. Qed.

Lemma fixed_text allow_empty maximum s :
  fixed (bounded_text allow_empty maximum) s <->
  (str_contains Ascii.zero s = false /\ str_contains newline s = false
   /\ str_contains carriage_return s = false /\ Z.of_nat (String.length s) <= maximum
   /\ (allow_empty = false -> s <> "")).
Proof.
  unfold fixed, bounded_text, text. split.
  - intros Hf. specialize (Hf ""). repeat case_match; try done. breflect. split_and!; try done.
    intros -> ->. done.
  - intros (-> & -> & -> & Hl & He) name. cbn. rewrite (proj2 (Z.ltb_ge _ _) Hl).
    destruct allow_empty; [done|]. destruct s; [by destruct He|done].
Qed.

Lemma normalized_absolute_path_inv v name p :
  normalized_absolute_path v name = Ok p ->
  is_absolute v = true /\ p = lexically_normal v /\ is_absolute p = true
  /\ str_contains newline v = false /\ str_contains carriage_return v = false.
Proof.
  intros Hp. pose proof (normalized_absolute_path_Ok v name p Hp) as [-> Hok].
  unfold normalized_absolute_path in Hp. repeat case_match; try done. breflect.
  unfold abs_path_ok in Hok. breflect. by split_and!.
Qed.

Lemma normalized_absolute_path_again v name p name' :
  normalized_absolute_path v name = Ok p -> normalized_absolute_path p name' = Ok p.
Proof.
  intros (Ha & -> & Hp & Hn & Hc)%normalized_absolute_path_inv.
  unfold normalized_absolute_path, normalized_path.
  rewrite (lexically_normal_contains _ _ Ha Hn), (lexically_normal_contains _ _ Ha Hc).
  rewrite lexically_normal_idem, Hp by done.
  rewrite <-starts_with_slash_abs, Hp, starts_with_slash_nonempty by done. done.
Qed.

Lemma absolute_path_Ok j name p : absolute_path j name = Ok p -> fixed absolute_path p.
Proof.
  unfold absolute_path. intros (v & [-> Ht]%text_Ok & Hp)%res_bind_Ok name'.
  apply fixed_text in Ht as (H1 & H2 & H3 & H4 & _).
  pose proof (normalized_absolute_path_inv _ _ _ Hp) as (Ha & E & Hp' & _).
  assert (Hf : fixed (bounded_text false 4096) p).
  { apply fixed_text. subst p. split_and!; try by apply lexically_normal_contains.
    - pose proof (lexically_normal_length v Ha). lia.
    - intros _ E. by rewrite E in Hp'. }
  rewrite (text_fixed _ _ _ _ Hf). cbn. by eapply normalized_absolute_path_again.
Qed.

Lemma fixed_absolute_path p :
  fixed absolute_path p -> forall name, normalized_absolute_path p name = Ok p.
Proof.
  intros Hf name. specialize (Hf name). unfold absolute_path in Hf.
  apply res_bind_Ok in Hf as (v & [[= ->] _]%text_Ok & Hp). done.
Qed.

Lemma fixed_make_abs k p :
  fixed absolute_path p -> (k = KTargetDevice -> path_is_within p "/dev" = true) ->
  exists a, make_abs k p = Ok a /\ abs_value a = p.
Proof.
  intros Hf Hd. pose proof (fixed_absolute_path p Hf (path_field k)) as Hp.
  pose proof (normalized_absolute_path_Ok _ _ _ Hp) as [_ Hok].
  assert (Hv : Is_true (abs_path_ok p)) by (by apply Is_true_true).
  unfold make_abs. rewrite Hp. exists (mkAbs p Hv). split; [|done].
  destruct k; cbn -[path_is_within]; rewrite ?Hd by done; cbn -[path_is_within];
    case_decide as Hv'; try done; repeat f_equal; apply Is_true_pi.
Qed.

Lemma joined_weight (w : ascii -> nat) v :
  pp_root (pp_parse v) = false -> pp_trail (pp_parse v) = false -> pp_names (pp_parse v) <> [] ->
  (str_weight w (join_slash (pp_names (pp_parse v))) <= str_weight w v)%nat.
Proof.
  intros Hr Ht Hn. pose proof (parse_weight w v) as Hw. pose proof (join_weight w _ Hn).
  rewrite Hr, Ht in Hw. lia.
Qed.

Lemma relative_path_Ok j name p :
  relative_path j name = Ok p -> fixed relative_path p /\ exists r, make_rel p = Ok r /\ rel_value r = p.
Proof.
  unfold relative_path. intros (v & [-> Ht]%text_Ok & Hp)%res_bind_Ok.
  apply fixed_text in Ht as (H1 & H2 & H3 & H4 & _).
  apply normalized_relative_path_Ok in Hp as (-> & Hn & Hc & Hv & Hl & Hr & Htr).
  assert (Hne : pp_names (pp_parse v) <> []).
  { destruct v as [|c v]; [done|]. cbn in Hr |- *. rewrite Hr.
    pose proof (split_slash_nonempty v). by destruct (split_slash v). }
  assert (E : lexically_normal v = join_slash (pp_names (pp_parse v))).
  { unfold lexically_normal. destruct (str_empty v) eqn:Hs; [by destruct v|].
    rewrite pp_normal_plain by (auto using pp_parse_wf).
    unfold pp_render. rewrite Hr, Htr. cbn. by rewrite string_app_nil_r. }
  rewrite E. set (l := pp_names (pp_parse v)) in *.
  assert (Hchar : forall c, str_contains c v = false -> str_contains c (join_slash l) = false).
  { intros c. rewrite !str_weight_contains. pose proof (joined_weight
      (λ x, if Ascii.eqb c x then 1%nat else 0%nat) v Hr Htr Hne). fold l in H0. lia. }
  assert (Hlen : (String.length (join_slash l) <= String.length v)%nat).
  { rewrite <-!str_weight_length. by apply joined_weight. }
  assert (Hrel : exists r, make_rel (join_slash l) = Ok r /\ rel_value r = join_slash l).
  { apply make_rel_spec. split_and!; auto. by exists l. }
  split; [|done]. clearbody l. intros name'.
  assert (Hf : fixed (bounded_text false 4096) (join_slash l)).
  { apply fixed_text. split_and!; auto; [lia|]. intros _ E'.
    pose proof (parse_join_slash l Hl Hne) as Hpj. rewrite E' in Hpj. by injection Hpj as <-. }
  rewrite (text_fixed _ _ _ _ Hf). cbn. destruct Hrel as (r & Hr' & _). unfold make_rel, safe_relative_path in Hr'.
  apply res_bind_Ok in Hr' as (q & (q' & Hq & Hq')%res_bind_Ok & _).
  case_match eqn:E'; [done|]. injection Hq' as <-. breflect. subst q'.
  revert Hq. unfold normalized_relative_path. by repeat case_match.
Qed.

Lemma contains_lower c s :
  to_lower c = c -> is_alpha c = false -> str_contains c s = false -> str_contains c (lower s) = false.
Proof.
  intros Hc Ha. induction s as [|x s IH]; [done|]. cbn [lower str_map].
  rewrite !str_contains_cons, !orb_false_iff. intros [Hx Hs]. split; [|by apply IH].
  apply Ascii.eqb_neq in Hx. apply Ascii.eqb_neq. intros E. apply Hx.
  unfold to_lower in E. case_match eqn:Hr; [|done]. exfalso.
  rewrite E in Ha. destruct x as [[] [] [] [] [] [] [] []]; try discriminate Hr; discriminate Ha.
Qed.

Lemma xdigit_lower c : is_xdigit c = true -> is_xdigit (to_lower c) = true.
Proof. destruct c as [[] [] [] [] [] [] [] []]; done. Qed.

Lemma split_dash_lower s : split_dash (lower s) = map lower (split_dash s).
Proof.
  induction s as [|c s IH]; [done|]. cbn [lower str_map split_dash].
  fold (lower s). rewrite IH.
  assert (Hd : Ascii.eqb (to_lower c) "-" = Ascii.eqb c "-")
    by (by destruct c as [[] [] [] [] [] [] [] []]).
  rewrite Hd. destruct (Ascii.eqb c "-"); [done|]. by destruct (split_dash s).
Qed.

Lemma match_uuid_lower s : match_uuid s = true -> match_uuid (lower s) = true.
Proof.
  assert (Hx : forall a, str_forallb is_xdigit a = true -> str_forallb is_xdigit (lower a) = true).
  { induction a as [|c a IH]; [done|]. cbn. intros []%andb_true_iff. rewrite xdigit_lower by done.
    by apply IH. }
  unfold match_uuid. rewrite split_dash_lower.
  destruct (split_dash s) as [|a [|b [|c [|d [|e [|]]]]]]; try done. cbn [map].
  unfold lower in *. rewrite !str_map_length. intros Hm. breflect.
  repeat (rewrite Hx by done). repeat (apply andb_true_iff; split); done.
Qed.

Lemma uuid_value_Ok j name allow_empty s :
  uuid_value j name allow_empty = Ok s ->
  fixed (λ v n, uuid_value v n allow_empty) s /\
  ((allow_empty = true /\ s = "") \/ (match_uuid s = true /\ lower s = s)).
Proof.
  unfold uuid_value. intros (v & [-> Ht]%text_Ok & Hv)%res_bind_Ok.
  pose proof Ht as Ht'. apply fixed_text in Ht' as (H1 & H2 & H3 & H4 & H5).
  destruct (str_empty v && allow_empty) eqn:E0.
  - injection Hv as <-. breflect. subst allow_empty. split; [|by left]. done.
  - destruct (match_uuid v) eqn:Em; [|done]. cbn in Hv. injection Hv as <-.
    assert (Hll : lower (lower v) = lower v) by apply str_map_lower_idem.
    split; [|right; by split; [apply match_uuid_lower|]]. intros n.
    assert (Hf : fixed (bounded_text allow_empty 64) (lower v)).
    { apply fixed_text. split_and!; try by apply contains_lower.
      - unfold lower. by rewrite str_map_length.
      - intros Hae E. apply H5; [done|]. by destruct v. }
    rewrite (text_fixed _ _ _ _ Hf). cbn -[lower]. rewrite match_uuid_lower, Hll by done.
    assert (He : str_empty (lower v) = str_empty v) by (by destruct v). by rewrite He, E0.
Qed.

Lemma identifier_Ok j name s : identifier j name = Ok s -> fixed identifier s /\ match_identifier s = true.
Proof.
  unfold identifier. intros (v & [-> Ht]%text_Ok & (u & Hi & [= <-])%res_bind_Ok)%res_bind_Ok.
  unfold validate_identifier in Hi. apply require_Ok in Hi. split; [|done].
  intros n. rewrite (text_fixed _ _ _ _ Ht). cbn. unfold validate_identifier. by rewrite Hi.
Qed.

Lemma boolean_value_fixed object key name d b :
  present object key = Some (JBool b) -> boolean_value object key name d = Ok b.
Proof. unfold boolean_value. by intros ->. Qed.

Lemma integer_value_Ok object key name d maximum z :
  integer_value object key name d maximum = Ok z -> 0 <= d <= maximum -> 0 <= z <= maximum.
Proof.
  unfold integer_value, invalid. intros Hz Hd.
  repeat (case_match; try discriminate Hz; cbn in *); injection Hz as <-; breflect; try lia.
  split; [by apply Z.mod_pos_bound|lia].
Qed.

Lemma integer_value_fixed object key name d maximum z :
  0 <= z <= maximum -> (maximum <? 2 ^ 63) = true -> present object key = Some (JUInt z) ->
  integer_value object key name d maximum = Ok z.
Proof.
  unfold integer_value. intros Hz Hm%Z.ltb_lt ->. cbn. rewrite Z.mod_small by lia.
  by rewrite (proj2 (Z.ltb_ge _ _)) by lia.
Qed.

(** ** Normal documents *)

Record NormalTarget := mkNormalTarget {
  nt_device : string; nt_luks : string; nt_btrfs : string; nt_partition : string; nt_serial : string;
  nt_mapper : string; nt_key : option string }.

Record NormalSettings := mkNormalSettings {
  nst_daily : bool; nst_incremental : bool; nst_keep : bool; nst_eject : bool;
  nst_remote : Z; nst_local : Z; nst_target_free : Z; nst_local_free : Z }.

Record NormalSource := mkNormalSource {
  ns_id : string; ns_name : string; ns_enabled : bool; ns_subvolume : string; ns_local : string;
  ns_remote : string; ns_remote_retention : Z; ns_local_retention : Z }.

Record NormalProfile := mkNormalProfile {
  np_id : string; np_generation : string; np_name : string; np_enabled : bool;
  np_target : NormalTarget; np_remote : string; np_incoming : string; np_settings : NormalSettings;
  np_before : list ProfileHookCommand; np_after : list ProfileHookCommand;
  np_sources : list NormalSource }.

Definition nt_json (t : NormalTarget) : Json :=
  target_json (nt_device t) (nt_luks t) (nt_btrfs t) (nt_partition t) (nt_serial t) (nt_mapper t) (nt_key t).

Definition paths_json (remote incoming : string) : Json :=
  JObject [("remoteRoot", JString remote); ("incomingRoot", JString incoming)].

Definition nst_json (s : NormalSettings) : Json :=
  settings_json (nst_daily s) (nst_incremental s) (nst_keep s) (nst_eject s) (JUInt (nst_remote s))
    (JUInt (nst_local s)) (JUInt (nst_target_free s)) (JUInt (nst_local_free s)).

Definition normal_hook_json (h : ProfileHookCommand) : Json :=
  hook_json (hook_program h) (hook_arguments h) (JUInt (hook_timeout h)).

Definition normal_hooks_json (before after : list ProfileHookCommand) : Json :=
  JObject [("beforeSnapshot", JArray (map normal_hook_json before));
           ("afterSnapshot", JArray (map normal_hook_json after))].

Definition ns_json (s : NormalSource) : Json :=
  source_json (ns_id s) (ns_name s) (ns_enabled s) (ns_subvolume s) (ns_local s) (ns_remote s)
    (JUInt (ns_remote_retention s)) (JUInt (ns_local_retention s)).

Definition np_json (d : NormalProfile) : Json := JObject (
  [("schemaVersion", JInt current_profile_schema_version); ("profileId", JString (np_id d));
   ("name", JString (np_name d)); ("enabled", JBool (np_enabled d))]
  ++ (if str_empty (np_generation d) then [] else [("configurationGeneration", JString (np_generation d))])
  ++ [("target", nt_json (np_target d)); ("paths", paths_json (np_remote d) (np_incoming d));
      ("settings", nst_json (np_settings d)); ("hooks", normal_hooks_json (np_before d) (np_after d));
      ("sources", JArray (map ns_json (np_sources d)))]).

Definition normal_uuid (s : string) : Prop := match_uuid s = true /\ lower s = s.
Definition normal_identifier (s : string) : Prop := fixed identifier s /\ match_identifier s = true.
Definition normal_count (maximum z : Z) : Prop := 0 <= z <= maximum.
Definition normal_relative (p : string) : Prop :=
  fixed relative_path p /\ exists r, make_rel p = Ok r /\ rel_value r = p.

Definition nt_ok (t : NormalTarget) : Prop :=
  fixed absolute_path (nt_device t)
  /\ (nt_device t =? "/dev")%string || starts_with (nt_device t) "/dev/" = true
  /\ (fixed required_uuid (nt_luks t) /\ normal_uuid (nt_luks t))
  /\ (fixed required_uuid (nt_btrfs t) /\ normal_uuid (nt_btrfs t))
  /\ (fixed optional_uuid (nt_partition t) /\ (nt_partition t = "" \/ normal_uuid (nt_partition t)))
  /\ (fixed (bounded_text true 256) (nt_serial t) /\ match_serial (nt_serial t) = true)
  /\ normal_identifier (nt_mapper t)
  /\ (forall k, nt_key t = Some k -> fixed absolute_path k).

Definition paths_ok (remote incoming : string) : Prop :=
  fixed absolute_path remote /\ fixed absolute_path incoming /\ nested_roots remote incoming = false.

Definition nst_ok (s : NormalSettings) : Prop :=
  normal_count retention_maximum (nst_remote s) /\ normal_count retention_maximum (nst_local s)
  /\ normal_count byte_threshold_maximum (nst_target_free s)
  /\ normal_count byte_threshold_maximum (nst_local_free s).

Definition hook_ok (h : ProfileHookCommand) : Prop :=
  fixed absolute_path (hook_program h) /\ Forall (fixed (bounded_text true 4096)) (hook_arguments h)
  /\ Z.of_nat (length (hook_arguments h)) <= 128 /\ normal_count 86400 (hook_timeout h)
  /\ hook_timeout h <> 0.

Definition hooks_ok (l : list ProfileHookCommand) : Prop :=
  Forall hook_ok l /\ Z.of_nat (length l) <= 64.

Definition ns_ok (s : NormalSource) : Prop :=
  normal_identifier (ns_id s) /\ fixed (bounded_text false 160) (ns_name s)
  /\ fixed absolute_path (ns_subvolume s) /\ fixed absolute_path (ns_local s)
  /\ normal_relative (ns_remote s)
  /\ normal_count retention_maximum (ns_remote_retention s)
  /\ normal_count retention_maximum (ns_local_retention s).

(** No identifier or directory twice, and none that was seen before. *)
Definition fresh (seen : Seen) (l : list NormalSource) : Prop :=
  (NoDup (map ns_id l) /\ forall x, x ∈ l -> ns_id x ∉ seen_ids seen)
  /\ (NoDup (map ns_local l) /\ forall x, x ∈ l -> ns_local x ∉ seen_local seen)
  /\ (NoDup (map ns_remote l) /\ forall x, x ∈ l -> ns_remote x ∉ seen_remote seen).

Definition sources_ok (l : list NormalSource) : Prop :=
  Forall ns_ok l /\ fresh (mkSeen [] [] []) l /\ l <> [] /\ Z.of_nat (length l) <= 128
  /\ existsb ns_enabled l = true.

Definition np_ok (d : NormalProfile) : Prop :=
  normal_identifier (np_id d)
  /\ (fixed (bounded_text true 32) (np_generation d)
      /\ str_empty (np_generation d) || match_generation (np_generation d) = true)
  /\ fixed (bounded_text false 160) (np_name d)
  /\ nt_ok (np_target d) /\ paths_ok (np_remote d) (np_incoming d) /\ nst_ok (np_settings d)
  /\ hooks_ok (np_before d) /\ hooks_ok (np_after d) /\ sources_ok (np_sources d).

Lemma device_inside_dev p :
  fixed absolute_path p -> (p =? "/dev")%string || starts_with p "/dev/" = true ->
  path_is_within p "/dev" = true.
Proof.
  intros Hf Hd. unfold path_is_within, normalized_path.
  destruct (normalized_absolute_path_Ok _ _ _ (fixed_absolute_path p Hf "")) as [<- _].
  apply orb_true_iff in Hd as [->%String.eqb_eq|[x ->]%prefix_inv]; [done|].
  apply elements_within_prefix. eexists. reflexivity.
Qed.

Lemma canonical_uuid_normal s name allow_empty :
  (allow_empty = true /\ s = "") \/ normal_uuid s -> canonical_uuid s name allow_empty = Ok s.
Proof.
  intros [[-> ->]|[Hm Hl]]; [done|]. unfold canonical_uuid. rewrite Hm. cbn.
  fold (lower s). rewrite Hl. by destruct (allow_empty && str_empty s).
Qed.

Lemma identifier_contains s c :
  match_identifier s = true -> is_alnum c = false -> Ascii.eqb c "." = false ->
  Ascii.eqb c "_" = false -> Ascii.eqb c "-" = false -> str_contains c s = false.
Proof.
  intros Hm Ha H1 H2 H3. destruct s as [|x s]; [done|]. cbn in Hm.
  apply andb_true_iff in Hm as [[Hx Hs]%andb_true_iff _].
  rewrite str_contains_cons. apply orb_false_iff. split.
  - apply Ascii.eqb_neq. intros ->. congruence.
  - eapply forallb_no_char; [|exact Hs]. cbn. by rewrite Ha, H1, H2, H3.
Qed.

Lemma mount_point_normal root r id :
  normalized_absolute_path root "TARGET_MOUNT_ROOT" = Ok r -> match_identifier id = true ->
  exists a, make_abs KTargetMountPoint (path_append r id) = Ok a.
Proof.
  intros (Ha & -> & Hr & Hn & Hc)%normalized_absolute_path_inv Hid.
  set (r := lexically_normal root) in *.
  assert (Hnr : str_contains newline r = false /\ str_contains carriage_return r = false)
    by (split; by apply lexically_normal_contains).
  clearbody r. destruct Hnr as [Hnr Hcr].
  assert (Hid' : is_absolute id = false).
  { destruct id as [|c id]; [done|]. cbn in Hid |- *. breflect.
    apply Ascii.eqb_neq. intros ->. done. }
  assert (Hp : exists x, path_append r id = r +:+ x /\
    str_contains newline x = false /\ str_contains carriage_return x = false).
  { unfold path_append. rewrite Hid'.
    assert (Hx : str_contains newline id = false /\ str_contains carriage_return id = false)
      by (split; by apply identifier_contains).
    destruct Hx as [Hx1 Hx2]. destruct (pp_has_filename _); eexists; split_and!; try reflexivity; done. }
  destruct Hp as (x & -> & Hx1 & Hx2).
  assert (Hsl : starts_with_slash (r +:+ x) = true) by (by destruct r).
  assert (Hok : normalized_absolute_path (r +:+ x) (path_field KTargetMountPoint)
    = Ok (lexically_normal (r +:+ x))).
  { unfold normalized_absolute_path. rewrite Hsl, starts_with_slash_nonempty by done. cbn [orb negb].
    rewrite !str_contains_app, Hnr, Hx1, Hcr, Hx2. cbn [orb].
    destruct (lexically_normal_abs (r +:+ x) Hsl) as ((Hroot & _) & _ & Hpp).
    unfold normalized_path, is_absolute. cbv zeta. by rewrite Hpp, Hroot. }
  pose proof (normalized_absolute_path_Ok _ _ _ Hok) as [_ Hv].
  exists (mkAbs _ (proj2 (Is_true_true _) Hv)). unfold make_abs. rewrite Hok. cbn.
  case_decide as Hd; [|by destruct Hd; apply Is_true_true]. repeat f_equal. apply Is_true_pi.
Qed.

(** ** The sections of a document

    What each part of the normalisation returns is normal, and it returns a normal part
    unchanged. *)

Lemma normal_identifier_intro j name s : identifier j name = Ok s -> normal_identifier s.
Proof. apply identifier_Ok. Qed.

Lemma normal_relative_intro j name s : relative_path j name = Ok s -> normal_relative s.
Proof. apply relative_path_Ok. Qed.

Ltac normal_facts :=
  repeat match goal with
  | H : text _ _ _ _ = Ok _ |- _ => apply text_Ok in H as [? ?]
  | H : absolute_path _ _ = Ok _ |- _ => apply absolute_path_Ok in H
  | H : uuid_value _ _ _ = Ok _ |- _ => apply uuid_value_Ok in H as [? ?]
  | H : identifier _ _ = Ok _ |- _ => apply normal_identifier_intro in H
  | H : relative_path _ _ = Ok _ |- _ => apply normal_relative_intro in H
  end.

#[local] Opaque text absolute_path uuid_value identifier relative_path integer_value.
#[local] Opaque match_serial match_generation nested_roots starts_with.

Lemma normalize_activation_shape target k :
  normalize_activation target = Ok k -> forall x, k = Some x -> fixed absolute_path x.
Proof.
  unfold normalize_activation. intros Hk x ->. res_inv. case_match; res_inv. normal_facts. done.
Qed.

Lemma normalize_target_shape raw t :
  normalize_target raw = Ok t -> exists d, t = nt_json d /\ nt_ok d.
Proof.
  unfold normalize_target. intros Ht. res_inv. normal_facts. simplify_eq.
  match goal with H : normalize_activation _ = Ok _ |- _ =>
    pose proof (normalize_activation_shape _ _ H) end.
  eexists (mkNormalTarget _ _ _ _ _ _ _). split; [reflexivity|].
  unfold nt_ok, normal_uuid. cbn. split_and!; try done.
  all: match goal with
       | H : (?a = true /\ ?b) \/ ?c |- ?b \/ ?c => destruct H as [[_ ?]|?]; [by left|by right]
       | H : (false = true /\ _) \/ _ |- _ => by destruct H as [[? _]|[? ?]]
       end.
Qed.

Lemma text_mode m name : (m = "askPassword" \/ m = "keyFile" \/ m = "program") ->
  text (JString m) name false 32 = Ok m.
Proof. intros Hm. by destruct Hm as [-> | [-> | ->]]. Qed.

Lemma normalize_activation_again target k :
  (forall x, k = Some x -> fixed absolute_path x) ->
  present target "activation" = Some (activation_json k) -> normalize_activation target = Ok k.
Proof.
  intros Hk Ht. unfold normalize_activation, required_object, required_value. rewrite Ht.
  destruct k as [k|]; cbn; rewrite text_mode by auto; cbn; [by rewrite (Hk k eq_refl)|done].
Qed.

#[local] Opaque normalize_activation.

Lemma normalize_target_again raw d :
  nt_ok d -> present raw "target" = Some (nt_json d) -> normalize_target raw = Ok (nt_json d).
Proof.
  unfold nt_ok, normal_identifier, fixed, required_uuid, optional_uuid, bounded_text.
  intros (Hd & Hdev & [Hl _] & [Hb _] & [Hp _] & [Hs Hms] & [Hm _] & Hk) Hraw.
  unfold normalize_target, required_object. rewrite Hraw. cbn.
  rewrite Hd. cbn. rewrite Hdev. cbn. rewrite Hl. cbn. rewrite Hb. cbn. rewrite Hp. cbn.
  rewrite Hs. cbn. rewrite Hms. cbn. rewrite Hm. cbn. by rewrite (normalize_activation_again _ (nt_key d)).
Qed.

Lemma normalize_paths_shape raw mount t :
  normalize_paths raw mount = Ok t ->
  exists remote incoming, t = paths_json remote incoming /\ paths_ok remote incoming.
Proof.
  unfold normalize_paths. intros Ht. res_inv. normal_facts. do 2 eexists. split; [reflexivity|].
  unfold paths_ok. breflect. done.
Qed.

Lemma normalize_paths_again raw mount remote incoming :
  paths_ok remote incoming -> present raw "paths" = Some (paths_json remote incoming) ->
  normalize_paths raw mount = Ok (paths_json remote incoming).
Proof.
  intros (Hr & Hi & Hn) Hraw. unfold normalize_paths, object_or_empty. rewrite Hraw. cbn.
  rewrite Hr. cbn. rewrite Hi. cbn. by rewrite Hn.
Qed.

Lemma normalize_settings_shape raw remote local t :
  normalize_settings raw = Ok (remote, local, t) ->
  exists s, t = nst_json s /\ nst_ok s /\ remote = nst_remote s /\ local = nst_local s.
Proof.
  unfold normalize_settings. intros Ht. res_inv.
  eexists (mkNormalSettings _ _ _ _ _ _ _ _). split; [reflexivity|]. split; [|done].
  unfold nst_ok, normal_count; cbn; split_and!;
    match goal with
    | H : integer_value _ _ _ _ _ = Ok ?z |- 0 <= ?z => eapply integer_value_Ok in H; [apply H|done]
    | H : integer_value _ _ _ _ _ = Ok ?z |- ?z <= _ => eapply integer_value_Ok in H; [apply H|done]
    end.
Qed.

Lemma normalize_settings_again raw s :
  nst_ok s -> present raw "settings" = Some (nst_json s) ->
  normalize_settings raw = Ok (nst_remote s, nst_local s, nst_json s).
Proof.
  intros (Hr & Hl & Ht & Hf) Hraw. unfold normalize_settings, object_or_empty. rewrite Hraw. cbn.
  unfold normal_count in *.
  rewrite (integer_value_fixed _ "remoteRetention" _ _ _ (nst_remote s)) by done. cbn.
  rewrite (integer_value_fixed _ "localRetention" _ _ _ (nst_local s)) by done. cbn.
  rewrite (integer_value_fixed _ "minimumTargetFreeBytes" _ _ _ (nst_target_free s)) by done. cbn.
  by rewrite (integer_value_fixed _ "minimumLocalFreeBytes" _ _ _ (nst_local_free s)) by done.
Qed.

Lemma normalize_arguments_shape l name i k :
  normalize_arguments l name i = Ok k ->
  Forall (fixed (bounded_text true 4096)) k /\ length k = length l.
Proof.
  revert i k. induction l as [|a l IH]; intros i k Hk; cbn in Hk; res_inv; [done|]. normal_facts.
  match goal with H : normalize_arguments _ _ _ = _ |- _ => apply IH in H as [? ?] end.
  split; [by constructor|cbn; congruence].
Qed.

Lemma normalize_arguments_again l name i :
  Forall (fixed (bounded_text true 4096)) l -> normalize_arguments (map JString l) name i = Ok l.
Proof.
  intros Hl. revert i. induction Hl as [|a l Ha Hl IH]; intros i; [done|]. cbn.
  rewrite (text_fixed _ _ _ _ Ha). cbn. by rewrite IH.
Qed.

Lemma normalize_hook_shape item name t :
  normalize_hook_command item name = Ok t -> exists h, t = normal_hook_json h /\ hook_ok h.
Proof.
  unfold normalize_hook_command. intros Ht. res_inv. normal_facts. breflect.
  match goal with H : normalize_arguments _ _ _ = _ |- _ =>
    apply normalize_arguments_shape in H as [? Hlen] end.
  match goal with H : fixed absolute_path ?p |- _ =>
    pose proof (normalized_absolute_path_Ok _ _ _ (fixed_absolute_path p H "")) as [<- _] end.
  match goal with H : integer_value _ _ _ _ _ = Ok _ |- _ => apply integer_value_Ok in H; [|done] end.
  eexists (mkHook _ _ _). split; [reflexivity|]. unfold hook_ok, normal_count. cbn. rewrite Hlen. done.
Qed.

Lemma normalize_hook_again h name :
  hook_ok h -> normalize_hook_command (normal_hook_json h) name = Ok (normal_hook_json h).
Proof.
  intros (Hp & Ha & Hl & Ht & Hn). unfold normalize_hook_command, required_value. cbn.
  rewrite text_mode by auto. cbn. rewrite length_map, (proj2 (Z.leb_le _ _) Hl). cbn.
  rewrite normalize_arguments_again by done. cbn.
  rewrite (integer_value_fixed _ "timeoutSeconds" _ _ _ (hook_timeout h)) by done. cbn.
  rewrite (proj2 (Z.eqb_neq _ _) Hn). cbn. rewrite Hp. cbn.
  by destruct (normalized_absolute_path_Ok _ _ _ (fixed_absolute_path _ Hp "")) as [<- _].
Qed.

Lemma normalize_commands_shape l name i k :
  normalize_commands l name i = Ok k ->
  exists hs, k = map normal_hook_json hs /\ Forall hook_ok hs /\ length hs = length l.
Proof.
  revert i k. induction l as [|a l IH]; intros i k Hk; cbn in Hk; res_inv; [by exists []|].
  match goal with H : normalize_commands _ _ _ = _ |- _ => apply IH in H as (hs & -> & ? & ?) end.
  match goal with H : normalize_hook_command _ _ = _ |- _ =>
    apply normalize_hook_shape in H as (h & -> & ?) end.
  exists (h :: hs). split; [done|]. split; [by constructor|cbn; congruence].
Qed.

Lemma normalize_commands_again hs name i :
  Forall hook_ok hs ->
  normalize_commands (map normal_hook_json hs) name i = Ok (map normal_hook_json hs).
Proof.
  intros Hh. revert i. induction Hh as [|h hs Hh _ IH]; intros i; [done|]. cbn -[normal_hook_json].
  rewrite normalize_hook_again by done. cbn -[normal_hook_json]. by rewrite IH.
Qed.

Lemma normalize_hook_commands_shape hooks key name k :
  normalize_hook_commands hooks key name = Ok k ->
  exists hs, k = map normal_hook_json hs /\ hooks_ok hs.
Proof.
  unfold normalize_hook_commands. intros Hk. res_inv. breflect.
  match goal with H : normalize_commands _ _ _ = _ |- _ =>
    apply normalize_commands_shape in H as (hs & -> & ? & Hlen) end.
  exists hs. split; [done|]. split; [done|]. by rewrite Hlen.
Qed.

Lemma normalize_hooks_shape raw t :
  normalize_hooks raw = Ok t ->
  exists before after, t = normal_hooks_json before after /\ hooks_ok before /\ hooks_ok after.
Proof.
  unfold normalize_hooks. intros Ht. res_inv.
  repeat match goal with H : normalize_hook_commands _ _ _ = _ |- _ =>
    apply normalize_hook_commands_shape in H as (? & -> & ?) end.
  by do 2 eexists.
Qed.

Lemma normalize_hooks_again raw before after :
  hooks_ok before -> hooks_ok after ->
  present raw "hooks" = Some (normal_hooks_json before after) ->
  normalize_hooks raw = Ok (normal_hooks_json before after).
Proof.
  intros [Hb Lb] [Ha La] Hraw. unfold normalize_hooks, object_or_empty. rewrite Hraw. cbn.
  unfold normalize_hook_commands, array_or_empty. cbn.
  rewrite !length_map, (proj2 (Z.leb_le _ _) Lb), (proj2 (Z.leb_le _ _) La). cbn.
  by rewrite !normalize_commands_again.
Qed.

Definition add_seen (s : NormalSource) (seen : Seen) : Seen :=
  mkSeen (ns_id s :: seen_ids seen) (ns_local s :: seen_local seen) (ns_remote s :: seen_remote seen).

Lemma fresh_cons seen s l :
  fresh seen (s :: l) <->
  ((ns_id s ∉ seen_ids seen) /\ (ns_local s ∉ seen_local seen) /\ (ns_remote s ∉ seen_remote seen))
  /\ fresh (add_seen s seen) l.
Proof.
  assert (Hone : forall (f : NormalSource -> string) (used : list string),
    (NoDup (map f (s :: l)) /\ forall x, x ∈ s :: l -> f x ∉ used) <->
    (f s ∉ used) /\ NoDup (map f l) /\ forall x, x ∈ l -> f x ∉ f s :: used).
  { intros f used. cbn [map]. rewrite NoDup_cons. split.
    - intros [[Hn Hd] Hu]. split; [apply Hu; left|]. split; [done|]. intros x Hx.
      apply not_elem_of_cons. split; [|by apply Hu; right]. intros E. apply Hn. rewrite <-E.
      by apply list_elem_of_fmap_2.
    - intros (Hs & Hd & Hu). split; [split; [|done]|].
      + intros (x & E & Hx)%list_elem_of_fmap. apply (Hu x Hx). rewrite E. left.
      + intros x [->|Hx]%elem_of_cons; [done|]. specialize (Hu x Hx). set_solver. }
  unfold fresh, add_seen. cbn [seen_ids seen_local seen_remote]. rewrite !Hone. tauto.
Qed.

Lemma normalize_source_shape remote local item name seen seen' enabled t :
  normal_count retention_maximum remote -> normal_count retention_maximum local ->
  normalize_source remote local item name seen = Ok (seen', enabled, t) ->
  exists s, t = ns_json s /\ ns_ok s /\ enabled = ns_enabled s /\ seen' = add_seen s seen
    /\ (ns_id s ∉ seen_ids seen) /\ (ns_local s ∉ seen_local seen) /\ (ns_remote s ∉ seen_remote seen).
Proof.
  unfold normalize_source. intros Hr Hl Ht. res_inv. normal_facts. breflect.
  repeat match goal with H : integer_value _ _ _ _ _ = Ok _ |- _ =>
    apply integer_value_Ok in H; [|done] end.
  eexists (mkNormalSource _ _ _ _ _ _ _ _). split; [reflexivity|].
  unfold ns_ok, normal_count, add_seen. cbn. simplify_eq. done.
Qed.

Lemma normalize_source_again remote local s name seen :
  ns_ok s -> ns_id s ∉ seen_ids seen -> ns_local s ∉ seen_local seen ->
  ns_remote s ∉ seen_remote seen ->
  normalize_source remote local (ns_json s) name seen = Ok (add_seen s seen, ns_enabled s, ns_json s).
Proof.
  intros ([Hi _] & Hn & Hsub & Hloc & [Hrem _] & Hrr & Hlr) H1 H2 H3. unfold normalize_source. cbn.
  rewrite Hi. cbn. rewrite bool_decide_eq_false_2 by done. cbn. rewrite Hloc. cbn. rewrite Hrem. cbn.
  rewrite bool_decide_eq_false_2 by done. cbn. rewrite bool_decide_eq_false_2 by done. cbn.
  rewrite (text_fixed _ _ _ _ Hn). cbn. rewrite Hsub. cbn.
  rewrite (integer_value_fixed _ "remoteRetention" _ _ _ (ns_remote_retention s)) by done. cbn.
  by rewrite (integer_value_fixed _ "localRetention" _ _ _ (ns_local_retention s)) by done.
Qed.

Lemma normalize_source_list_shape remote local items i seen t :
  normal_count retention_maximum remote -> normal_count retention_maximum local ->
  normalize_source_list remote local items i seen = Ok t ->
  exists l, t.2 = map ns_json l /\ Forall ns_ok l /\ t.1 = existsb ns_enabled l /\ fresh seen l
    /\ length l = length items.
Proof.
  intros Hr Hl. revert i seen t. induction items as [|item items IH]; intros i seen t Ht; cbn in Ht.
  { injection Ht as <-. exists []. split_and!; try done. unfold fresh. cbn.
    split_and!; try constructor; intros x Hx; by apply not_elem_of_nil in Hx. }
  res_inv. destruct x as [[seen' enabled] doc]. res_inv.
  match goal with H : normalize_source _ _ _ _ _ = _ |- _ =>
    apply normalize_source_shape in H as (s & -> & Hs & -> & -> & ? & ? & ?); [|done|done] end.
  match goal with H : normalize_source_list _ _ _ _ _ = _ |- _ =>
    apply IH in H as (l & -> & Hok & -> & Hf & Hlen) end.
  exists (s :: l). split_and!; try done; [by constructor|by apply fresh_cons|cbn; congruence].
Qed.

Lemma normalize_source_list_again remote local l i seen :
  Forall ns_ok l -> fresh seen l ->
  normalize_source_list remote local (map ns_json l) i seen = Ok (existsb ns_enabled l, map ns_json l).
Proof.
  intros Hl. revert i seen. induction Hl as [|s l Hs _ IH]; intros i seen Hf; [done|].
  apply fresh_cons in Hf as [(? & ? & ?) Hf]. cbn -[ns_json].
  rewrite normalize_source_again by done. cbn -[ns_json]. by rewrite IH.
Qed.

Lemma normalize_sources_shape raw remote local t :
  normal_count retention_maximum remote -> normal_count retention_maximum local ->
  normalize_sources raw remote local = Ok t -> exists l, t = map ns_json l /\ sources_ok l.
Proof.
  intros Hr Hl. unfold normalize_sources. intros Ht. res_inv. breflect.
  match goal with H : normalize_source_list _ _ _ _ _ = _ |- _ =>
    apply normalize_source_list_shape in H as (l & E2 & Hok & E1 & Hf & Hlen); [|done|done] end.
  exists l. split; [done|]. rewrite <-Hlen in *. split_and!; try done; [|congruence].
  intros ->. by destruct x.
Qed.

Lemma normalize_sources_again raw remote local l :
  sources_ok l -> present raw "sources" = Some (JArray (map ns_json l)) ->
  normalize_sources raw remote local = Ok (map ns_json l).
Proof.
  intros (Hok & Hf & Hne & Hlen & He) Hraw. unfold normalize_sources. rewrite Hraw. cbn -[ns_json].
  rewrite bool_decide_eq_false_2 by (by destruct l). cbn -[ns_json].
  rewrite length_map, (proj2 (Z.leb_le _ _) Hlen). cbn -[ns_json].
  rewrite normalize_source_list_again by done. cbn -[ns_json]. by rewrite He.
Qed.

(** ** Whole documents *)

(** The members a document of a normal profile has; nothing is said of their order. *)
Definition shown (members : list (string * Json)) (d : NormalProfile) : Prop :=
  (json_find members "schemaVersion" = Some (JInt 1) \/ json_find members "schemaVersion" = Some (JUInt 1))
  /\ json_find members "profileId" = Some (JString (np_id d))
  /\ json_find members "name" = Some (JString (np_name d))
  /\ json_find members "enabled" = Some (JBool (np_enabled d))
  /\ json_find members "configurationGeneration"
       = (if str_empty (np_generation d) then None else Some (JString (np_generation d)))
  /\ json_find members "target" = Some (nt_json (np_target d))
  /\ json_find members "paths" = Some (paths_json (np_remote d) (np_incoming d))
  /\ json_find members "settings" = Some (nst_json (np_settings d))
  /\ json_find members "hooks" = Some (normal_hooks_json (np_before d) (np_after d))
  /\ json_find members "sources" = Some (JArray (map ns_json (np_sources d)))
  /\ reject_unknown_properties (JObject members)
        ["schemaVersion"; "configurationGeneration"; "profileId"; "name"; "enabled"; "target"; "paths";
         "settings"; "hooks"; "sources"] "profile" = Ok tt.

#[local] Opaque reject_unknown_properties normalize_target normalize_paths normalize_settings.
#[local] Opaque normalize_hooks normalize_sources normalized_absolute_path.

Lemma normalize_shape raw root n :
  normalize_profile raw root = Ok n ->
  exists d, n = np_json d /\ np_ok d /\ exists r, normalized_absolute_path root "TARGET_MOUNT_ROOT" = Ok r.
Proof.
  unfold normalize_profile. intros Hn. apply res_bind_Ok in Hn as (u & _ & Hn).
  apply res_bind_Ok in Hn as ([id members] & Hh & Hn). unfold normalize_profile_header in Hh. res_inv.
  match goal with H : normalize_settings _ = Ok ?t |- _ => destruct t as [[remote local] settings] end.
  res_inv. normal_facts. simplify_eq.
  repeat match goal with
  | H : normalize_target _ = _ |- _ => apply normalize_target_shape in H as (? & -> & ?)
  | H : normalize_paths _ _ = _ |- _ => apply normalize_paths_shape in H as (? & ? & -> & ?)
  | H : normalize_settings _ = _ |- _ => apply normalize_settings_shape in H as (? & -> & ? & -> & ->)
  | H : normalize_hooks _ = _ |- _ => apply normalize_hooks_shape in H as (? & ? & -> & ? & ?)
  end.
  match goal with H : normalize_sources _ _ _ = _, Hs : nst_ok _ |- _ =>
    pose proof Hs as (? & ? & _); apply normalize_sources_shape in H as (? & -> & ?); [|done|done] end.
  eexists (mkNormalProfile _ _ _ _ _ _ _ _ _ _ _). split; [|split; [|by eexists]].
  - unfold np_json. cbn. reflexivity.
  - unfold np_ok. cbn. done.
Qed.

Lemma normalize_again members root d r :
  np_ok d -> shown members d -> normalized_absolute_path root "TARGET_MOUNT_ROOT" = Ok r ->
  normalize_profile (JObject members) root = Ok (np_json d).
Proof.
  intros ([Hid _] & [Hg Hmg] & Hname & Ht & Hp & Hs & Hb & Ha & Hsrc)
    (Sv & Si & Sn & Se & Sg & St & Sp & Ss & Sh & Ssrc & Su) Hr.
  assert (P : forall key v, json_find members key = Some v -> v <> JNull ->
    present (JObject members) key = Some v).
  { intros key v E Hv. cbn. rewrite E. by destruct v. }
  assert (Hv : validate_root (JObject members) = Ok tt).
  { unfold validate_root. cbn [is_object require]. rewrite Su. cbn -[present].
    destruct Sv as [Sv|Sv]; by rewrite (P _ _ Sv). }
  assert (Hh : normalize_profile_header (JObject members) = Ok (np_id d,
      [("schemaVersion", JInt current_profile_schema_version); ("profileId", JString (np_id d));
       ("name", JString (np_name d)); ("enabled", JBool (np_enabled d))]
      ++ (if str_empty (np_generation d) then []
          else [("configurationGeneration", JString (np_generation d))]))).
  { unfold normalize_profile_header. cbn [json_at json_value]. rewrite Si. cbn. rewrite Hid. cbn.
    assert (Eg : match json_find members "configurationGeneration" with
        | Some v => get_string v | None => Ok "" end = Ok (np_generation d)).
    { rewrite Sg. by destruct (np_generation d). }
    rewrite Eg. cbn. rewrite (text_fixed _ _ _ _ Hg). cbn. rewrite Hmg. cbn. rewrite Sn. cbn.
    rewrite (text_fixed _ _ _ _ Hname). cbn.
    rewrite (boolean_value_fixed _ _ _ _ (np_enabled d)) by (by apply P). done. }
  unfold normalize_profile. rewrite Hv, Hh. cbn -[np_json].
  rewrite (normalize_target_again _ (np_target d)) by (auto; by apply P). cbn -[np_json]. rewrite Hr.
  cbn -[np_json]. rewrite (normalize_paths_again _ _ (np_remote d) (np_incoming d)) by (auto; by apply P).
  cbn -[np_json]. rewrite (normalize_settings_again _ (np_settings d)) by (auto; by apply P). cbn -[np_json].
  rewrite (normalize_hooks_again _ (np_before d) (np_after d)) by (auto; by apply P). cbn -[np_json].
  rewrite (normalize_sources_again _ _ _ (np_sources d)) by (auto; by apply P). cbn -[np_json].
  done.
Qed.

Lemma shown_np_json d : exists members, np_json d = JObject members /\ shown members d.
Proof.
  eexists. split; [reflexivity|]. unfold shown. cbn.
  destruct (np_generation d) as [|c g]; cbn; split_and!; auto.
Qed.

(** ** Decoding normal documents *)

Lemma decode_hook_normal h :
  hook_ok h -> decode_hook (normal_hook_json h) = Ok h.
Proof.
  intros (Hp & _ & _ & [Ht1 Ht2] & _). unfold decode_hook, make_hook_program. cbn.
  rewrite (fixed_absolute_path _ Hp). cbn.
  assert (Hm : res_mapM get_string (map JString (hook_arguments h)) = Ok (hook_arguments h)).
  { apply res_mapM_Forall2. induction (hook_arguments h); cbn; by constructor. }
  rewrite Hm. cbn. rewrite Z.mod_small by lia. replace (_ + _ - _) with (hook_timeout h) by lia.
  by destruct h.
Qed.

Lemma decode_hooks_normal l :
  Forall hook_ok l -> res_mapM decode_hook (map normal_hook_json l) = Ok l.
Proof.
  intros Hl. apply res_mapM_Forall2. induction Hl as [|h l Hh _ IH]; cbn -[normal_hook_json]; constructor;
    [by apply decode_hook_normal|done].
Qed.

Lemma make_retention_normal z :
  normal_count retention_maximum z -> exists r, make_retention z = Ok r /\ retention_value r = z.
Proof.
  intros [H1 H2]. unfold make_retention. case_decide as Hd; [by eexists|].
  destruct Hd. by rewrite (proj2 (Z.leb_le _ _) H1), (proj2 (Z.leb_le _ _) H2).
Qed.

Lemma make_threshold_normal z :
  normal_count byte_threshold_maximum z -> exists r, make_threshold z = Ok r /\ threshold_value r = z.
Proof.
  intros [H1 H2]. unfold make_threshold. case_decide as Hd; [by eexists|].
  destruct Hd. by rewrite (proj2 (Z.leb_le _ _) H1), (proj2 (Z.leb_le _ _) H2).
Qed.

Lemma make_ident_normal k s :
  match_identifier s = true -> k <> KRun -> exists i : Ident k, make_ident k s = Ok i /\ id_value i = s.
Proof.
  intros Hm Hk. assert (Hv : Is_true (id_pattern k s)) by (apply Is_true_true; by destruct k).
  exists (mkIdent s Hv). split; [by apply make_ident_Ok|done].
Qed.

(** The members of a record that decoding has produced are those of the document. *)
Lemma decode_source_normal s :
  ns_ok s -> exists p, decode_source (ns_json s) = Ok p /\ encode_source p = ns_json s.
Proof.
  intros ([_ Hi] & _ & Hsub & Hloc & [_ (r & Hr & Er)] & Hrr & Hlr).
  destruct (make_ident_normal KSource _ Hi) as (i & Hi' & Ei); [done|].
  destruct (fixed_make_abs KSourceSubvolume _ Hsub) as (sv & Hsv & Esv); [done|].
  destruct (fixed_make_abs KLocalSnapshotRoot _ Hloc) as (lo & Hlo & Elo); [done|].
  destruct (make_retention_normal _ Hrr) as (rr & Hrr' & Err).
  destruct (make_retention_normal _ Hlr) as (lr & Hlr' & Elr).
  unfold normal_count, retention_maximum in *.
  eexists. split.
  - unfold decode_source. cbn -[make_ident make_rel make_abs make_retention].
    rewrite Hi'. cbn -[make_rel make_abs make_retention]. rewrite Hr. cbn -[make_abs make_retention].
    rewrite Hsv. cbn -[make_abs make_retention]. rewrite Hlo. cbn -[make_retention].
    rewrite !Z.mod_small by lia. rewrite Hrr'. cbn -[make_retention]. rewrite Hlr'. reflexivity.
  - unfold encode_source, ns_json. cbn. by rewrite Ei, Er, Esv, Elo, Err, Elr.
Qed.

#[local] Opaque make_abs make_rel make_ident make_retention make_threshold canonical_uuid.
#[local] Opaque decode_source decode_hook.

Lemma decode_sources_normal l :
  Forall ns_ok l ->
  exists ps, res_mapM decode_source (map ns_json l) = Ok ps /\ map encode_source ps = map ns_json l.
Proof.
  induction 1 as [|s l Hs _ IH]; [by exists []|]. destruct IH as (ps & Hps & Eps).
  destruct (decode_source_normal s Hs) as (p & Hp & Ep). exists (p :: ps).
  cbn -[ns_json encode_source]. rewrite Hp, Hps. cbn -[ns_json encode_source]. by rewrite Ep, Eps.
Qed.

Lemma decode_settings_normal s :
  nst_ok s -> exists p, decode_settings (nst_json s) = Ok p /\ encode_settings p = nst_json s.
Proof.
  destruct s as [daily incremental keep eject remote local target_free local_free].
  intros (H1 & H2 & H3 & H4). cbn in *. destruct (make_retention_normal _ H1) as (r1 & E1 & <-).
  destruct (make_retention_normal _ H2) as (r2 & E2 & <-).
  destruct (make_threshold_normal _ H3) as (r3 & E3 & <-).
  destruct (make_threshold_normal _ H4) as (r4 & E4 & <-).
  unfold normal_count, retention_maximum, byte_threshold_maximum in *. eexists. split.
  - unfold decode_settings. cbn. rewrite !Z.mod_small by lia.
    rewrite E1. cbn. rewrite E2. cbn. rewrite E3. cbn. rewrite E4. reflexivity.
  - reflexivity.
Qed.

Lemma make_target_identity_normal t :
  nt_ok t -> make_target_identity (nt_luks t) (nt_btrfs t) (nt_partition t) (nt_mapper t)
    = Ok (mkTargetIdentity (nt_luks t) (nt_btrfs t) (nt_partition t) (nt_mapper t)).
Proof.
  intros (_ & _ & [_ Hl] & [_ Hb] & [_ Hp] & _ & [_ Hm] & _). unfold make_target_identity.
  rewrite (canonical_uuid_normal (nt_luks t)) by (by right). cbn.
  rewrite (canonical_uuid_normal (nt_btrfs t)) by (by right). cbn.
  rewrite (canonical_uuid_normal (nt_partition t)) by (destruct Hp; [by left|by right]). cbn. unfold validate_identifier. by rewrite Hm.
Qed.

Lemma decode_activation_normal target k :
  (forall x, k = Some x -> fixed absolute_path x) ->
  json_at target "activation" = Ok (activation_json k) ->
  exists a, decode_activation target = Ok a /\
    match a with AskPasswordActivation => None | KeyFileActivation key => Some (abs_value key) end = k.
Proof.
  intros Hk Ht. unfold decode_activation. rewrite Ht. destruct k as [k|]; cbn; [|by eexists].
  destruct (fixed_make_abs KKeyFile k (Hk k eq_refl)) as (a & Ha & <-); [done|].
  rewrite Ha. cbn. by eexists.
Qed.

Lemma canonical_strings l : map json_canonical (map JString l) = map JString l.
Proof. by rewrite map_map. Qed.

Lemma canonical_hooks l :
  Forall hook_ok l -> json_canonical (hooks_to_json l) = JArray (map normal_hook_json l).
Proof.
  intros Hl. unfold hooks_to_json. cbn -[json_canonical]. cbn [json_canonical]. f_equal. rewrite map_map.
  apply map_ext_Forall. eapply Forall_impl; [exact Hl|]. intros h (_ & _ & _ & [Ht _] & _).
  unfold hook_json, normal_hook_json. cbn. rewrite canonical_strings.
  by rewrite (proj2 (Z.leb_le 0 (hook_timeout h)) Ht).
Qed.

Lemma canonical_target t : json_canonical (encode_target t) = encode_target t.
Proof. unfold encode_target, target_json. cbn. by destruct (activation t). Qed.

Lemma canonical_sources l : json_canonical (JArray (map encode_source l)) = JArray (map encode_source l).
Proof. cbn -[encode_source]. f_equal. rewrite map_map. apply map_ext. done. Qed.

(** Every number of a profile's document has its width. *)

Lemma wf_count maximum z :
  (maximum <? 2 ^ 63) = true -> Is_true ((0 <=? z) && (z <=? maximum)) ->
  wf_numbers (JUInt z) = true.
Proof.
  intros Hm Hz%Is_true_true. breflect. cbn. apply andb_true_iff.
  split; [apply Z.leb_le|apply Z.ltb_lt]; lia.
Qed.

Ltac wf_document := apply wf_numbers_object; [reflexivity|repeat constructor; try done].

Lemma wf_hooks l : Forall hook_ok l -> wf_numbers (hooks_to_json l) = true.
Proof.
  intros Hl. apply wf_numbers_array, Forall_map. eapply Forall_impl; [exact Hl|].
  intros h (_ & _ & _ & [Ht1 Ht2] & _). wf_document.
  - cbn [snd]. apply wf_numbers_array. clear. by induction (hook_arguments h); constructor.
  - cbn. apply andb_true_iff. split; [apply Z.leb_le|apply Z.ltb_lt]; lia.
Qed.

Lemma wf_profile p :
  Forall hook_ok (before_snapshot (hooks p)) -> Forall hook_ok (after_snapshot (hooks p)) ->
  wf_numbers (profile_to_json p) = true.
Proof.
  intros Hb Ha.
  assert (Ht : wf_numbers (encode_target (target p)) = true).
  { unfold encode_target, target_json. wf_document. by destruct (activation (target p)). }
  assert (Hst : wf_numbers (encode_settings (settings p)) = true).
  { unfold encode_settings, settings_json. wf_document; cbn [snd];
      (eapply wf_count; [|first [apply retention_valid|apply threshold_valid]]; done). }
  assert (Hs : wf_numbers (JArray (map encode_source (sources p))) = true).
  { apply wf_numbers_array, Forall_map, Forall_true. intros x. unfold encode_source, source_json. wf_document;
      cbn [snd]; (eapply wf_count; [|apply retention_valid]; done). }
  assert (Hh : wf_numbers (JObject [("beforeSnapshot", hooks_to_json (before_snapshot (hooks p)));
    ("afterSnapshot", hooks_to_json (after_snapshot (hooks p)))]) = true).
  { wf_document; by apply wf_hooks. }
  unfold profile_to_json. apply wf_numbers_object.
  - by destruct (str_empty _).
  - apply Forall_app. split; [repeat constructor; done|]. destruct (str_empty _); by repeat constructor.
Qed.

#[local] Opaque decode_activation decode_settings make_target_identity.

(** A normal document decodes to a profile whose own document shows the same. *)
Lemma decode_normal d root r :
  np_ok d -> normalized_absolute_path root "TARGET_MOUNT_ROOT" = Ok r ->
  exists p members, decode_normalized (np_json d) root = Ok p /\
    json_canonical (profile_to_json p) = JObject members /\ shown members d /\
    wf_numbers (profile_to_json p) = true.
Proof.
  intros ([_ Hid] & _ & _ & Ht & (Hremote & Hincoming & _) & Hs & [Hb _] & [Ha _] & (Hsrc & _)) Hr.
  pose proof Ht as (Hdev & Hdev' & _ & _ & _ & _ & _ & Hkey).
  destruct (make_ident_normal KProfile _ Hid) as (id & Hid' & Eid); [done|].
  destruct (fixed_make_abs KRemoteSnapshotRoot _ Hremote) as (rr & Hrr & Err); [done|].
  destruct (fixed_make_abs KIncomingRoot _ Hincoming) as (ir & Hir & Eir); [done|].
  destruct (fixed_make_abs KTargetDevice _ Hdev) as (dev & Hdv & Edv);
    [intros _; by apply device_inside_dev|].
  destruct (mount_point_normal root r (np_id d) Hr Hid) as (mp & Hmp).
  destruct (decode_activation_normal (nt_json (np_target d)) (nt_key (np_target d)) Hkey eq_refl)
    as (act & Hact & Eact).
  destruct (decode_settings_normal _ Hs) as (st & Hst & Est).
  destruct (decode_sources_normal _ Hsrc) as (ss & Hss & Ess).
  assert (Hg : json_value get_string (np_json d) "configurationGeneration" "" = Ok (np_generation d)).
  { cbn. by destruct (np_generation d). }
  assert (Hat : json_at (np_json d) "target" = Ok (nt_json (np_target d))
    /\ json_at (np_json d) "profileId" = Ok (JString (np_id d))
    /\ json_at (np_json d) "paths" = Ok (paths_json (np_remote d) (np_incoming d))
    /\ json_at (np_json d) "name" = Ok (JString (np_name d))
    /\ json_at (np_json d) "enabled" = Ok (JBool (np_enabled d))
    /\ json_at (np_json d) "settings" = Ok (nst_json (np_settings d))
    /\ json_at (np_json d) "hooks" = Ok (normal_hooks_json (np_before d) (np_after d))
    /\ json_at (np_json d) "sources" = Ok (JArray (map ns_json (np_sources d)))).
  { split_and!; cbn; by destruct (np_generation d). }
  destruct Hat as (A1 & A2 & A3 & A4 & A5 & A6 & A7 & A8).
  eexists. eexists. split; [|split; [|split]].
  - unfold decode_normalized. rewrite A1, A2, A3, A4, A5, A6, A7, A8, Hg, Hr. unfold mbind, res_bind.
    cbn [get_string get_bool]. rewrite Hid', Eid, Hmp, Hact, Hst.
    cbn [json_at json_find nt_json target_json paths_json normal_hooks_json elements String.eqb Ascii.eqb
         Bool.eqb get_string].
    rewrite make_target_identity_normal, Hrr, Hir, Hdv by done.
    rewrite (decode_hooks_normal _ Hb), (decode_hooks_normal _ Ha), Hss. reflexivity.
  - unfold profile_to_json. cbn [json_canonical]. reflexivity.
  - assert (Et : encode_target (mkProfileTarget dev (mkTargetIdentity (nt_luks (np_target d))
        (nt_btrfs (np_target d)) (nt_partition (np_target d)) (nt_mapper (np_target d)))
        (nt_serial (np_target d)) mp act) = nt_json (np_target d)).
    { unfold encode_target, nt_json. cbn. by rewrite Edv, Eact. }
    pose proof (canonical_target (mkProfileTarget dev (mkTargetIdentity (nt_luks (np_target d))
        (nt_btrfs (np_target d)) (nt_partition (np_target d)) (nt_mapper (np_target d)))
        (nt_serial (np_target d)) mp act)) as Ct. rewrite Et in Ct.
    pose proof (canonical_sources ss) as Cs. rewrite Ess in Cs.
    pose proof (canonical_hooks _ Hb) as Cb. pose proof (canonical_hooks _ Ha) as Ca.
    unfold shown. cbn [configuration_generation profile_id profile_name profile_enabled target paths settings
         hooks sources remote_root incoming_root before_snapshot after_snapshot].
    rewrite Et, Est, Ess, Eid, Err, Eir.
    assert (Cp : json_canonical (JObject [("beforeSnapshot", hooks_to_json (np_before d));
        ("afterSnapshot", hooks_to_json (np_after d))]) = normal_hooks_json (np_before d) (np_after d)).
    { cbn -[hooks_to_json]. by rewrite Cb, Ca. }
    set (hj := JObject [("beforeSnapshot", hooks_to_json (np_before d)); _]) in *.
    set (tj := nt_json (np_target d)) in *. set (sj := JArray (map ns_json (np_sources d))) in *.
    set (nh := normal_hooks_json _ _) in *. clearbody hj tj sj nh.
    destruct (np_generation d) as [|c g]; cbn -[json_canonical nst_json paths_json]; rewrite Ct, Cp, Cs;
      cbn; split_and!; auto.
  - by apply wf_profile.
Qed.

(** ** Theorems *)

(** Normalisation is idempotent: a normalised document is accepted again, under the
    same mount root, and nothing of it changes. *)
Theorem normalize_profile_idempotent raw root n :
  normalize_profile raw root = Ok n -> normalize_profile n root = Ok n.
Proof.
  intros (d & -> & Hok & r & Hr)%normalize_shape.
  destruct (shown_np_json d) as (members & E & Hs).
  rewrite E, (normalize_again members root d r Hok Hs Hr). by rewrite E.
Qed.

(** C20.  A document is refused by the normalisation or not at all: once it is normalised,
    every identifier, path, UUID and count of it passes the constructors of the domain, and
    the profile is made. *)
Theorem normalized_profile_decodes raw root n :
  normalize_profile raw root = Ok n -> exists p, profile_from_json raw root = Ok p.
Proof.
  intros Hn. pose proof Hn as (d & E & Hok & r & Hr)%normalize_shape.
  destruct (decode_normal d root r Hok Hr) as (p & _ & Hp & _ & _). exists p.
  unfold profile_from_json, profile_from_document. rewrite Hn. cbn [mbind res_bind].
  destruct (shown_np_json d) as (members & Em & Hs). rewrite E, Em.
  rewrite (normalize_again members root d r Hok Hs Hr). exact Hp.
Qed.

(** C19.  A profile that was read can be written and read back: if the text of its document
    can be made at all (its strings are valid UTF-8), that text parses and reads as the same
    profile.  It is what an installed profile relies on, whose file is written from the
    profile and read by every later run. *)
Theorem profile_document_round_trip raw root p contents :
  profile_from_json raw root = Ok p -> dump_json (profile_to_json p) = Ok contents ->
  exists j, json_parse contents = Ok j /\ profile_from_json j root = Ok p.
Proof.
  unfold profile_from_json at 1, dump_json. intros (n & Hn & Hp)%res_bind_Ok (t & Ht & [= <-])%res_bind_Ok.
  pose proof Hn as (d & E & Hok & r & Hr)%normalize_shape.
  destruct (shown_np_json d) as (ms & Ems & Hms).
  unfold profile_from_document in Hp. rewrite E, Ems in Hp.
  rewrite (normalize_again ms root d r Hok Hms Hr) in Hp. cbn [mbind res_bind] in Hp.
  destruct (decode_normal d root r Hok Hr) as (p' & members & Hp' & Hj & Hs & Hwf).
  rewrite Hp' in Hp. injection Hp as ->.
  destruct (json_parse_dump _ (json_dump_utf8 _ _ Ht Hwf)) as (t' & Ht' & Hparse).
  rewrite Ht in Ht'. injection Ht' as <-. exists (JObject members). rewrite <-Hj. split; [done|].
  rewrite Hj. unfold profile_from_json, profile_from_document.
  rewrite (normalize_again members root d r Hok Hs Hr). cbn [mbind res_bind].
  rewrite Ems, (normalize_again ms root d r Hok Hms Hr). exact Hp'.
Qed.

End document.

(** ** Examples *)

Definition ex_target : Json := JObject [
  ("device", JString "/dev//disk/by-uuid/x");
  ("luksUuid", JString "0F1E2D3C-4b5a-6978-8796-a5b4c3d2e1f0");
  ("btrfsUuid", JString "11111111-2222-3333-4444-555555555555");
  ("mapperName", JString "backup");
  ("activation", JObject [("mode", JString "keyFile"); ("keyFile", JString "/etc/keys/./backup.key")])].

Definition ex_sources : Json := JArray [
  JObject [("id", JString "home"); ("subvolume", JString "/home");
           ("localSnapshotDir", JString "/home/.snapshots"); ("remoteRetention", JUInt 7)];
  JObject [("id", JString "root"); ("enabled", JBool false); ("subvolume", JString "/");
           ("localSnapshotDir", JString "/.snapshots"); ("remoteSubdir", JString "system//root")]].

Definition ex_members : list (string * Json) := [
  ("schemaVersion", JUInt 1); ("profileId", JString "laptop"); ("target", ex_target);
  ("hooks", JObject [("beforeSnapshot", JArray [JObject [
     ("type", JString "program"); ("program", JString "/usr/bin/sync");
     ("arguments", JArray [JString "-f"]); ("timeoutSeconds", JUInt 60)]])]);
  ("sources", ex_sources)].

Definition ex_root : path := "/mnt/btrfs-backup".

(** A witness of the theorems: a document with defaults to fill in, texts to normalise, a hook
    and two sources. *)
Lemma normalize_profile_idempotent_witness :
  exists n, @normalize_profile bits_text (JObject ex_members) ex_root = Ok n /\
    @normalize_profile bits_text n ex_root = Ok n.
Proof.
  eexists. split; [vm_compute; reflexivity|].
  apply (@normalize_profile_idempotent bits_text (JObject ex_members)). vm_compute. reflexivity.
Defined.

Lemma normalized_profile_decodes_witness :
  exists p, @profile_from_json bits_text (JObject ex_members) ex_root = Ok p.
Proof.
  eapply (@normalized_profile_decodes bits_text (JObject ex_members)). vm_compute. reflexivity.
Defined.

Definition ex_profile : option Profile :=
  match @profile_from_json bits_text (JObject ex_members) ex_root with Ok p => Some p | _ => None end.

Lemma profile_document_round_trip_witness :
  exists p text j, ex_profile = Some p /\ @dump_json bits_text (profile_to_json p) = Ok text /\
    @json_parse bits_text text = Ok j /\ @profile_from_json bits_text j ex_root = Ok p.
Proof.
  destruct ex_profile as [p|] eqn:E; [|by vm_compute in E].
  unfold ex_profile in E. destruct (profile_from_json _ _) as [q|] eqn:Hp; [|done].
  injection E as ->. eexists p, _.
  destruct (@profile_document_round_trip bits_text _ _ p _ Hp eq_refl) as (j & Hj & Hq).
  exists j. split_and!; try done.
Defined.

(** A trailing separator hides that one root is inside the other: the incoming root
    below is inside the remote root, which the check means to refuse, and the document is
    accepted, whatever the rest of it is. *)
Theorem nested_roots_accepted :
  nested_roots "/mnt/backup/snapshots/" "/mnt/backup/snapshots/incoming" = false /\
  path_is_within "/mnt/backup/snapshots/incoming" "/mnt/backup/snapshots" = true /\
  is_ok (@profile_from_json bits_text (JObject (("paths", JObject
    [("remoteRoot", JString "/mnt/backup/snapshots/");
     ("incomingRoot", JString "/mnt/backup/snapshots/incoming")]) :: ex_members)) ex_root) = true.
Proof. split_and!; vm_compute; reflexivity. Qed.

(** The schema version is read as a 32-bit number: one that is equal to 1 modulo 2^32 passes
    for version 1. *)
Example schema_version_wraps : is_ok (@validate_root bits_text (JObject
    (json_set ex_members "schemaVersion" (JUInt 4294967297)))) = true.
Proof. vm_compute. reflexivity. Qed.
