(* ===== verification/Fingerprint.v ===== *)
(** * The fingerprint of a configuration (src/config/ProfileFingerprint)

    The identity of an installed configuration is the SHA-256 digest of the version of the
    scheme, the name of the file and its bytes.  32-bit words are numbers, with the wrap-around
    of every addition and shift written out. *)

From S2P Require Import Prelude Errors Identifiers FsPath.

Open Scope Z_scope.

(** ** Words and bytes *)

Definition u32_wrap (z : Z) : Z := z mod 2 ^ 32.

(** src/config/ProfileFingerprint.cpp:85-87 *)
Definition rotr (value shift : Z) : Z :=
  Z.lor (Z.shiftr value shift) (u32_wrap (Z.shiftl value (32 - shift))).

(** [~value], on 32 bits. *)
Definition u32_not (value : Z) : Z := Z.lxor value (2 ^ 32 - 1).

(** src/config/ProfileFingerprint.cpp:89-91 *)
Definition load_be32 (data : list Z) : Z :=
  match data with
  | b0 :: b1 :: b2 :: b3 :: _ =>
      Z.lor (Z.lor (Z.lor (Z.shiftl b0 24) (Z.shiftl b1 16)) (Z.shiftl b2 8)) b3
  | _ => 0
  end.

(** src/config/ProfileFingerprint.cpp:93-97 *)
Definition store_be64 (value : Z) : list Z :=
  map (λ shift, Z.land (Z.shiftr value shift) 255) [56; 48; 40; 32; 24; 16; 8; 0].

Definition hex_char (digit : Z) : ascii :=
  ascii_of_N (if digit <? 10 then 48 + Z.to_N digit else 87 + Z.to_N digit).

(** src/config/ProfileFingerprint.cpp:99-104 *)
Definition store_hex32 (value : Z) : string :=
  foldr (λ shift rest, String (hex_char (Z.land (Z.shiftr value shift) 15)) rest) ""
    [28; 24; 20; 16; 12; 8; 4; 0].

Definition bytes_of (s : string) : list Z := map (λ c, Z.of_N (N_of_ascii c)) (String.list_ascii_of_string s).

(** ** SHA-256 *)

(** src/config/ProfileFingerprint.cpp:18-83 *)
Definition sha256_k : list Z :=
  [1116352408; 1899447441; 3049323471; 3921009573; 961987163; 1508970993; 2453635748; 2870763221;
   3624381080; 310598401; 607225278; 1426881987; 1925078388; 2162078206; 2614888103; 3248222580;
   3835390401; 4022224774; 264347078; 604807628; 770255983; 1249150122; 1555081692; 1996064986; 2554220882;
   2821834349; 2952996808; 3210313671; 3336571891; 3584528711; 113926993; 338241895; 666307205; 773529912;
   1294757372; 1396182291; 1695183700; 1986661051; 2177026350; 2456956037; 2730485921; 2820302411;
   3259730800; 3345764771; 3516065817; 3600352804; 4094571909; 275423344; 430227734; 506948616; 659060556;
   883997877; 958139571; 1322822218; 1537002063; 1747873779; 1955562222; 2024104815; 2227730452;
   2361852424; 2428436474; 2756734187; 3204031479; 3329325298].

Definition sha256_h0 : list Z :=
  [1779033703; 3144134277; 1013904242; 2773480762; 1359893119; 2600822924; 528734635; 1541459225].

(** [while ((padded.size() % 64U) != 56U) padded.push_back(0U);], at most 63 rounds.
    src/config/ProfileFingerprint.cpp:117-119 *)
Fixpoint fill_block (fuel : nat) (data : list Z) : list Z :=
  match fuel with
  | O => data
  | S fuel =>
      if Z.of_nat (length data) mod 64 =? 56 then data else fill_block fuel (data ++ [0])
  end.

(** The message with its padding.
    src/config/ProfileFingerprint.cpp:114-120 *)
Definition padded (data : list Z) : list Z :=
  fill_block 64 (data ++ [128]) ++ store_be64 ((Z.of_nat (length data) * 8) mod 2 ^ 64).

(** The word at the index, zero outside the array. *)
Definition word (w : list Z) (i : nat) : Z := nth i w 0.

(** src/config/ProfileFingerprint.cpp:139-141 *)
Definition next_word (w : list Z) : Z :=
  let i := length w in
  let w15 := word w (i - 15) in
  let w2 := word w (i - 2) in
  let s0 := Z.lxor (Z.lxor (rotr w15 7) (rotr w15 18)) (Z.shiftr w15 3) in
  let s1 := Z.lxor (Z.lxor (rotr w2 17) (rotr w2 19)) (Z.shiftr w2 10) in
  u32_wrap (word w (i - 16) + s0 + word w (i - 7) + s1).

Fixpoint first_words (n : nat) (block : list Z) : list Z :=
  match n with O => [] | S n => load_be32 block :: first_words n (drop 4 block) end.

(** src/config/ProfileFingerprint.cpp:134-142 *)
Definition schedule (block : list Z) : list Z :=
  Nat.iter 48 (λ w, w ++ [next_word w]) (first_words 16 block).

(** src/config/ProfileFingerprint.cpp:154-168 *)
Definition sha256_round (state : list Z) (kw : Z * Z) : list Z :=
  match state with
  | [a; b; c; d; e; f; g; hh] =>
      let s1 := Z.lxor (Z.lxor (rotr e 6) (rotr e 11)) (rotr e 25) in
      let ch := Z.lxor (Z.land e f) (Z.land (u32_not e) g) in
      let temp1 := u32_wrap (hh + s1 + ch + kw.1 + kw.2) in
      let s0 := Z.lxor (Z.lxor (rotr a 2) (rotr a 13)) (rotr a 22) in
      let maj := Z.lxor (Z.lxor (Z.land a b) (Z.land a c)) (Z.land b c) in
      let temp2 := u32_wrap (s0 + maj) in
      [u32_wrap (temp1 + temp2); a; b; c; u32_wrap (d + temp1); e; f; g]
  | state => state
  end.

(** One block.
    src/config/ProfileFingerprint.cpp:144-178 *)
Definition sha256_block (h : list Z) (block : list Z) : list Z :=
  zip_with (λ x y, u32_wrap (x + y)) h
    (foldl sha256_round h (combine sha256_k (schedule block))).

(** The loop over the blocks; the padded message is shorter with every round. *)
Fixpoint sha256_blocks (blocks : nat) (h : list Z) (data : list Z) : list Z :=
  match blocks with
  | O => h
  | S blocks => sha256_blocks blocks (sha256_block h data) (drop 64 data)
  end.

(** src/config/ProfileFingerprint.cpp:113-187 *)
Definition sha256_bytes (data : string) : string :=
  let message := padded (bytes_of data) in
  let h := sha256_blocks (length message / 64) sha256_h0 message in
  foldr (λ value rest, store_hex32 value +:+ rest) "" h.

(** ** The fingerprint *)

(** src/config/ProfileFingerprint.cpp:106-111 *)
Definition append_record (data key value : string) : string :=
  data +:+ key +:+ "=" +:+ value +:+ String Ascii.zero "".

(** The text that is hashed. *)
Definition fingerprint_input (version : string) (config_file : path) (contents : string) : string :=
  append_record (append_record "" "version" version) "main" (filename config_file)
  +:+ contents +:+ String Ascii.zero "".

(** src/config/ProfileFingerprint.cpp:193-204 *)
Definition compute_config_fingerprint_from_bytes (version : string) (config_file : path)
    (contents : string) : string :=
  sha256_bytes (fingerprint_input version config_file contents).

(** ** Known answers *)

Example sha256_empty :
  sha256_bytes "" = "e3b0c44298fc1c149afbf4c8996fb92427ae41e4649b934ca495991b7852b855".
Proof. vm_compute. reflexivity. Qed.

Example sha256_abc :
  sha256_bytes "abc" = "ba7816bf8f01cfea414140de5dae2223b00361a396177a9cb410ff61f20015ad".
Proof. vm_compute. reflexivity. Qed.

Example sha256_two_blocks :
  sha256_bytes "abcdbcdecdefdefgefghfghighijhijkijkljklmklmnlmnomnopnopq"
  = "248d6a61d20638b8e5c026930c3e6039a33ce45964ff2167f6ecedd419db06c1".
Proof. vm_compute. reflexivity. Qed.

(** ** The padding *)

Lemma fill_block_spec (k fuel : nat) (data : list Z) :
  (k < fuel)%nat ->
  (Z.of_nat (length data) + Z.of_nat k) mod 64 = 56 ->
  (∀ j : nat, (j < k)%nat -> (Z.of_nat (length data) + Z.of_nat j) mod 64 <> 56) ->
  fill_block fuel data = data ++ repeat 0 k.
Proof.
  revert fuel data. induction k as [|k IH]; intros [|fuel] data Hf Hk Hj; try lia; cbn [fill_block].
  - rewrite Z.add_0_r in Hk. rewrite Hk, Z.eqb_refl, app_nil_r. reflexivity.
  - destruct (Z.eqb_spec (Z.of_nat (length data) mod 64) 56) as [E|E].
    + exfalso. apply (Hj 0%nat); [lia|]. now rewrite Z.add_0_r.
    + rewrite IH; [cbn; now rewrite <- app_assoc | lia | |].
      * rewrite length_app. cbn [length]. rewrite <- Hk. f_equal. lia.
      * intros j Hlt. rewrite length_app. cbn [length].
        specialize (Hj (S j) ltac:(lia)). intros E'. apply Hj. rewrite <- E'. f_equal. lia.
Qed.

(** The number of zeros between the marker and the size. *)
Definition zeros (size : Z) : Z := (55 - size) mod 64.

Lemma padded_eq (data : list Z) :
  padded data
  = data ++ [128] ++ repeat 0 (Z.to_nat (zeros (Z.of_nat (length data))))
    ++ store_be64 ((Z.of_nat (length data) * 8) mod 2 ^ 64).
Proof.
  unfold padded, zeros. set (n := Z.of_nat (length data)).
  pose proof (Z.mod_pos_bound (55 - n) 64 ltac:(lia)) as B.
  rewrite (fill_block_spec (Z.to_nat ((55 - n) mod 64))).
  - now rewrite <- !app_assoc.
  - lia.
  - rewrite length_app, Nat2Z.inj_add. cbn [length]. fold n. rewrite Z2Nat.id by lia.
    Z.div_mod_to_equations. lia.
  - intros j Hj. rewrite length_app, Nat2Z.inj_add. cbn [length]. fold n.
    Z.div_mod_to_equations. lia.
Qed.

Lemma padded_length (data : list Z) :
  Z.of_nat (length (padded data))
  = Z.of_nat (length data) + 9 + zeros (Z.of_nat (length data)).
Proof.
  rewrite padded_eq, !length_app, repeat_length. unfold store_be64. rewrite length_map.
  cbn [length]. unfold zeros. pose proof (Z.mod_pos_bound (55 - Z.of_nat (length data)) 64).
  lia.
Qed.

Lemma byte_step x y s :
  0 <= s -> Z.shiftr x (s + 8) = Z.shiftr y (s + 8) ->
  Z.land (Z.shiftr x s) 255 = Z.land (Z.shiftr y s) 255 -> Z.shiftr x s = Z.shiftr y s.
Proof.
  intros Hs H1 H2. rewrite <- !Z.shiftr_shiftr in H1 by lia.
  change 255 with (Z.ones 8) in H2. rewrite !Z.land_ones in H2 by lia.
  rewrite !(Z.shiftr_div_pow2 _ 8) in H1 by lia.
  rewrite (Z.div_mod (Z.shiftr x s) (2 ^ 8)), (Z.div_mod (Z.shiftr y s) (2 ^ 8)) by lia.
  congruence.
Qed.

Lemma store_be64_inj x y :
  0 <= x < 2 ^ 64 -> 0 <= y < 2 ^ 64 -> store_be64 x = store_be64 y -> x = y.
Proof.
  intros Hx Hy E. unfold store_be64 in E. cbn [map] in E. inversion E. clear E.
  assert (T : Z.shiftr x 64 = Z.shiftr y 64)
    by (rewrite !Z.shiftr_div_pow2, !Z.div_small by lia; reflexivity).
  rewrite <- (Z.shiftr_0_r x), <- (Z.shiftr_0_r y).
  repeat (apply byte_step; [lia | cbn [Z.add Pos.add Pos.succ Pos.add_carry] | assumption]).
  exact T.
Qed.

Lemma list_tail {A} (l l' t t' : list A) : length t = length t' -> l ++ t = l' ++ t' -> l = l' /\ t = t'.
Proof. intros H E. apply app_inj_2 in E; tauto. Qed.

(** Two messages shorter than 2^61 bytes with the same padding are the same message: the
    blocks that [sha256_bytes] folds over determine what is hashed. *)
Theorem padded_injective (a b : list Z)
    (Ha : Z.of_nat (length a) < 2 ^ 61) (Hb : Z.of_nat (length b) < 2 ^ 61)
    (E : padded a = padded b) : a = b.
Proof.
  rewrite !padded_eq, !(app_assoc a), !(app_assoc b), !app_assoc in E.
  apply list_tail in E as [E S]; [|unfold store_be64; now rewrite !length_map].
  apply store_be64_inj in S; [|apply Z.mod_pos_bound; lia..].
  rewrite !Z.mod_small in S by lia.
  assert (L : length a = length b) by lia. rewrite L, <- !app_assoc in E.
  now apply app_inj_1 in E as [E _].
Qed.

Corollary padded_injective_witness :
  padded [97] = padded [97] /\ [97] = [97].
Proof. split; [reflexivity|]. apply padded_injective; [cbn; lia | cbn; lia | reflexivity]. Defined.

(** ** The digest *)

Lemma sha256_round_length h kw : length (sha256_round h kw) = length h.
Proof. unfold sha256_round. repeat case_match; reflexivity. Qed.

Lemma sha256_block_length h block : length (sha256_block h block) = length h.
Proof.
  unfold sha256_block. rewrite length_zip_with.
  enough (length (foldl sha256_round h (combine sha256_k (schedule block))) = length h) by lia.
  generalize (combine sha256_k (schedule block)). intros l. revert h.
  induction l as [|x l IH]; intros h; cbn; [reflexivity|]. rewrite IH. apply sha256_round_length.
Qed.

Lemma sha256_blocks_length n h data : length (sha256_blocks n h data) = length h.
Proof.
  revert h data. induction n as [|n IH]; intros h data; cbn; [reflexivity|].
  rewrite IH. apply sha256_block_length.
Qed.

(** A lower-case hexadecimal digit. *)
Definition is_hex_lower (c : ascii) : bool :=
  is_digit c || ((97 <=? N_of_ascii c)%N && (N_of_ascii c <=? 102)%N).

Lemma hex_char_lower d : 0 <= d < 16 -> is_hex_lower (hex_char d) = true.
Proof.
  intros H. assert (d ∈ map Z.of_nat (seq 0 16)) as M.
  { apply list_elem_of_In, in_map_iff. exists (Z.to_nat d). split; [lia|]. apply in_seq. lia. }
  clear H. revert d M. apply Forall_forall. vm_compute. repeat constructor.
Qed.

Lemma store_hex32_spec v :
  String.length (store_hex32 v) = 8%nat /\ str_forallb is_hex_lower (store_hex32 v) = true.
Proof.
  split; [reflexivity|]. unfold store_hex32. cbn [foldr str_forallb].
  change 15 with (Z.ones 4).
  rewrite !hex_char_lower; [reflexivity|rewrite Z.land_ones by lia; apply Z.mod_pos_bound; lia..].
Qed.

(** The fingerprint is a digest of 64 lower-case hexadecimal digits, whatever is hashed. *)
Theorem fingerprint_digits (version : string) (config_file : path) (contents : string) :
  let digest := compute_config_fingerprint_from_bytes version config_file contents in
  String.length digest = 64%nat /\ str_forallb is_hex_lower digest = true.
Proof.
  cbv zeta. unfold compute_config_fingerprint_from_bytes, sha256_bytes.
  pose proof (sha256_blocks_length
    (length (padded (bytes_of (fingerprint_input version config_file contents))) / 64)
    sha256_h0 (padded (bytes_of (fingerprint_input version config_file contents)))) as L.
  revert L. generalize (sha256_blocks
    (length (padded (bytes_of (fingerprint_input version config_file contents))) / 64)
    sha256_h0 (padded (bytes_of (fingerprint_input version config_file contents)))).
  change 64%nat with (8 * length sha256_h0)%nat. generalize (length sha256_h0).
  intros n h <-. induction h as [|v h [IH1 IH2]]; [split; reflexivity|].
  cbn [foldr length]. destruct (store_hex32_spec v) as [H1 H2].
  rewrite string_length_app, str_forallb_app, H1, H2, IH1, IH2. split; [lia|reflexivity].
Qed.

(** ** What is hashed *)

(** Text up to a separator that does not occur before it is determined. *)
Lemma separator_inj (c : ascii) (a b s t : string) :
  str_contains c a = false -> str_contains c b = false ->
  a +:+ String c s = b +:+ String c t -> a = b /\ s = t.
Proof.
  revert b. induction a as [|x a IH]; intros [|y b] Ha Hb E; cbn in E.
  - inversion E. auto.
  - inversion E; subst. rewrite str_contains_cons, Ascii.eqb_refl in Hb. discriminate.
  - inversion E; subst. rewrite str_contains_cons, Ascii.eqb_refl in Ha. discriminate.
  - injection E as -> E. rewrite str_contains_cons, orb_false_iff in Ha, Hb.
    destruct (IH b) as [-> ->]; tauto.
Qed.

(** What is hashed determines the version, the name of the file and its bytes, whatever
    those bytes are: two configurations with the same fingerprint differ only when SHA-256
    collides.  Versions and file names hold no NUL, as the platform requires of the latter. *)
Theorem fingerprint_input_injective (v v' : string) (f f' : path) (c c' : string)
    (Hv : str_contains Ascii.zero v = false) (Hv' : str_contains Ascii.zero v' = false)
    (Hf : str_contains Ascii.zero (filename f) = false)
    (Hf' : str_contains Ascii.zero (filename f') = false)
    (E : fingerprint_input v f c = fingerprint_input v' f' c') :
  v = v' /\ filename f = filename f' /\ c = c'.
Proof.
  unfold fingerprint_input, append_record in E.
  repeat (rewrite !string_app_assoc in E || (progress cbn [String.append] in E)).
  injection E as E. apply separator_inj in E as [-> E]; [|assumption..].
  injection E as E. apply separator_inj in E as [-> E]; [|assumption..].
  apply string_app_inj_r in E as [-> _]; [tauto|reflexivity].
Qed.

Corollary fingerprint_input_injective_witness :
  fingerprint_input "1" "/etc/a.json" "{}" = fingerprint_input "1" "/srv/a.json" "{}"
  /\ "1" = "1" /\ filename "/etc/a.json" = filename "/srv/a.json" /\ "{}" = "{}".
Proof.
  split; [reflexivity|]. apply fingerprint_input_injective; reflexivity.
Defined.
