(* ===== verification/ProfileArtifacts.v ===== *)
(** * The files that a profile is installed as (src/config/ProfileRender, ProfileArtifactRenderer)

    A profile is installed as a udev rule, a drop-in and a mount unit of systemd, the private
    document with its manifest, and the public document.  This file renders them and shows that
    the text of a profile cannot break out of the rule, that the name of the mount unit
    determines the mount point, and that no two profiles share a file. *)

From S2P Require Import Prelude Errors Identifiers FsPath ConfigDomain Json ProfileDocument Fingerprint.

Open Scope Z_scope.

(** ** Escaping *)

Definition quote : ascii := "034".
Definition backslash : ascii := "092".

(** src/config/ProfileRender.cpp:19-29 *)
Definition systemd_quote (value : string) : string :=
  let fix body s :=
    match s with
    | EmptyString => String quote ""
    | String ch rest =>
        if Ascii.eqb ch backslash || Ascii.eqb ch quote then String backslash (String ch (body rest))
        else String ch (body rest)
    end
  in String quote (body value).

(** src/config/ProfileRender.cpp:31-33 *)
Definition systemd_unit_plain_char (value : ascii) : bool :=
  is_alnum value || Ascii.eqb value ":" || Ascii.eqb value "_" || Ascii.eqb value ".".

Definition char_code (c : ascii) : Z := Z.of_N (N_of_ascii c).

(** src/config/ProfileRender.cpp:35-41 *)
Definition systemd_hex_escape (value : ascii) : string :=
  String backslash (String "x"
    (String (hex_char (Z.land (Z.shiftr (char_code value) 4) 15))
      (String (hex_char (Z.land (char_code value) 15)) ""))).

(** src/config/ProfileRender.cpp:43-54 *)
Fixpoint udev_value (value : string) : string :=
  match value with
  | EmptyString => ""
  | String character rest =>
      (if Ascii.eqb character quote || Ascii.eqb character backslash || (char_code character <? 0x20)
          || (char_code character =? 0x7f)
       then systemd_hex_escape character
       else String character "") +:+ udev_value rest
  end.

(** ** The udev rule *)

Definition line (s : string) : string := s +:+ String newline "".

Definition quoted (s : string) : string := String quote (s +:+ String quote "").

(** [matches[0] << ", " << matches[1] ...] *)
Fixpoint comma_separated (l : list string) : string :=
  match l with
  | [] => ""
  | [m] => m
  | m :: l => m +:+ ", " +:+ comma_separated l
  end.

(** src/config/ProfileRender.cpp:62-82 *)
Definition udev_matches (profile : Profile) : list string :=
  let t := target profile in
  ["ACTION==" +:+ quoted "add";
   "SUBSYSTEM==" +:+ quoted "block";
   "ENV{ID_FS_TYPE}==" +:+ quoted "crypto_LUKS";
   "ENV{ID_FS_UUID}==" +:+ quoted (luks_uuid (target_identity t))]
  ++ (if str_empty (partition_uuid (target_identity t)) then []
      else ["ENV{ID_PART_ENTRY_UUID}==" +:+ quoted (partition_uuid (target_identity t))])
  ++ (if str_empty (serial t) then [] else ["ENV{ID_SERIAL_SHORT}==" +:+ quoted (serial t)])
  ++ ["ENV{UDISKS_NAME}=" +:+ quoted (udev_value (profile_name profile));
      "ENV{UDISKS_ICON_NAME}=" +:+ quoted "drive-removable-media";
      "ENV{UDISKS_SYSTEM}=" +:+ quoted "0";
      "ENV{UDISKS_IGNORE}=" +:+ quoted "0"]
  ++ (if profile_enabled profile
      then ["TAG+=" +:+ quoted "systemd";
            "ENV{SYSTEMD_WANTS}+="
            +:+ quoted ("btrfs-backup@" +:+ id_value (profile_id profile) +:+ ".service")]
      else []).

(** src/config/ProfileRender.cpp:58-95 *)
Definition render_udev (profile : Profile) : string :=
  line "# Generated by btrfs-backupctl profile."
  +:+ (if str_empty (configuration_generation profile) then ""
       else line ("# Configuration generation: " +:+ configuration_generation profile))
  +:+ (if profile_enabled profile then ""
       else line "# Profile disabled; automatic activation is not requested.")
  +:+ line (comma_separated (udev_matches profile)).

(** ** The units *)

(** src/config/ProfileRender.cpp:97-99 *)
Definition render_mount_requirement (profile : Profile) : string :=
  line ("RequiresMountsFor=" +:+ systemd_quote (abs_value (mount_point (target profile)))).

(** src/config/ProfileRender.cpp:101-107 *)
Definition render_mount_dependency (profile : Profile) : string :=
  line "[Unit]" +:+ render_mount_requirement profile
  +:+ (if str_empty (configuration_generation profile) then ""
       else line "" +:+ line "[Service]"
            +:+ line ("Environment=BTRFS_BACKUP_CONFIGURATION_GENERATION="
                      +:+ configuration_generation profile)).

(** [while (path.size() > 1 && path.back() == '/') path.pop_back();] *)
Fixpoint strip_slashes (s : string) : string :=
  match s with
  | EmptyString => ""
  | String c rest =>
      match strip_slashes rest with
      | EmptyString => if Ascii.eqb c "/" then "" else String c ""
      | rest => String c rest
      end
  end.

Definition without_trailing_slashes (path : string) : string :=
  match path with
  | EmptyString => ""
  | String c rest => String c (strip_slashes rest)
  end.

(** [if (!path.empty() && path.front() == '/') path.erase(path.begin());] *)
Definition erase_front_slash (path : string) : string :=
  match path with
  | String c rest => if Ascii.eqb c "/" then rest else path
  | EmptyString => ""
  end.

Definition escape_char (character : ascii) : string :=
  if systemd_unit_plain_char character then String character "" else systemd_hex_escape character.

(** The loop, with what [escaped] holds already and whether a separator came last.
    src/config/ProfileRender.cpp:123-134 *)
Fixpoint escape_mount (path : string) (escaped : string) (previous_slash : bool) : string :=
  match path with
  | EmptyString => escaped
  | String character rest =>
      if Ascii.eqb character "/" then
        escape_mount rest
          (if negb (str_empty escaped) && negb previous_slash then escaped +:+ "-" else escaped) true
      else escape_mount rest (escaped +:+ escape_char character) false
  end.

(** src/config/ProfileRender.cpp:109-136 *)
Definition target_mount_unit_name (mount_point : path) : string :=
  let path := without_trailing_slashes (lexically_normal mount_point) in
  if String.eqb path "/" then "-.mount"
  else
    let escaped := escape_mount (erase_front_slash path) "" false in
    (if str_empty escaped then "-" else escaped) +:+ ".mount".

Fixpoint escape_device (path : string) : string :=
  match path with
  | EmptyString => ""
  | String character rest =>
      (if Ascii.eqb character "/" then "-" else escape_char character) +:+ escape_device rest
  end.

(** src/config/ProfileRender.cpp:138-154 *)
Definition target_device_unit_name (device : path) : string :=
  let escaped := escape_device (erase_front_slash (lexically_normal device)) in
  (if str_empty escaped then "-" else escaped) +:+ ".device".

(** src/config/ProfileRender.cpp:156-190 *)
Definition render_target_mount_unit (profile : Profile) : string :=
  let profile_id := id_value (profile_id profile) in
  let device_unit := target_device_unit_name (abs_value (device (target profile))) in
  line "[Unit]"
  +:+ line ("Description=Encrypted Btrfs backup target for profile " +:+ profile_id)
  +:+ line "Documentation=file:/usr/share/doc/btrfs-backup/README.md"
  +:+ line ("BindsTo=" +:+ device_unit)
  +:+ line ("Requires=btrfs-backup-target@" +:+ profile_id +:+ ".service")
  +:+ line ("After=" +:+ device_unit)
  +:+ line ("After=btrfs-backup-target@" +:+ profile_id +:+ ".service")
  +:+ line ("Before=btrfs-backup@" +:+ profile_id +:+ ".service")
  +:+ line ""
  +:+ line "[Mount]"
  +:+ line ("What=/dev/mapper/" +:+ mapper_name (target_identity (target profile)))
  +:+ line ("Where=" +:+ abs_value (mount_point (target profile)))
  +:+ line "Type=btrfs"
  +:+ line "Options=noatime,nodev,nosuid,noexec,nosymfollow,compress=zstd"
  +:+ line "TimeoutSec=60s".

(** ** The artifacts *)

(** src/config/ProfileArtifactRenderer.hpp:16-24 *)
Inductive ProfileArtifactKind :=
| UdevRule | SystemdMountDependency | NativeTargetMount | ManagedArtifactManifest | PrivateProfile
| PublicProfile | ObsoleteSystemdUnit.

#[export] Instance ProfileArtifactKind_eq_dec : EqDecision ProfileArtifactKind.
Proof. solve_decision. Defined.

(** src/config/ProfileArtifactRenderer.hpp:26-29 *)
Inductive ProfileArtifactOperation := OpWrite | OpRemove.

#[export] Instance ProfileArtifactOperation_eq_dec : EqDecision ProfileArtifactOperation.
Proof. solve_decision. Defined.

(** src/config/ProfileArtifactRenderer.hpp:31-36 *)
Record ProfileArtifactRoots := mkRoots {
  etc_root : path; udev_root : path; systemd_root : path; public_root : path;
}.

(** src/config/ProfileArtifactRenderer.hpp:38-44 *)
Record ProfileArtifact := mkArtifact {
  pa_kind : ProfileArtifactKind;
  pa_destination : path;
  pa_content : string;
  pa_permissions : Z;
  pa_operation : ProfileArtifactOperation;
}.

(** src/config/ProfileArtifactRenderer.hpp:46-49 *)
Record RenderedProfileArtifacts := mkRendered {
  rp_profile : Profile;
  rp_artifacts : list ProfileArtifact;
}.

(** src/config/ProfileArtifactRenderer.cpp:20-21 *)
Definition private_profile_permissions : Z := 384. (* 0600 *)
(** src/config/ProfileArtifactRenderer.cpp:22-23 *)
Definition public_artifact_permissions : Z := 420. (* 0644 *)

Declare Scope path_scope.
Infix "/./" := path_append (at level 40, left associativity) : path_scope.
Open Scope path_scope.

Section render.
Context `{JsonText}.

(** src/config/ProfileArtifactRenderer.cpp:25-42 *)
Definition public_profile_json (profile : Profile) : Json := JObject (
  [("schemaVersion", JInt 1);
   ("profileId", JString (id_value (profile_id profile)));
   ("name", JString (profile_name profile));
   ("enabled", JBool (profile_enabled profile));
   ("target", JObject [("name", JString (mapper_name (target_identity (target profile))))]);
   ("sources", JArray (map (λ source, JObject [("id", JString (id_value (source_id source)));
                                                ("name", JString (source_name source))])
                         (sources profile)))]
  ++ (if str_empty (configuration_generation profile) then []
      else [("configurationGeneration", JString (configuration_generation profile))])).

(** src/config/ProfileArtifactRenderer.cpp:96-103 *)
Definition manifest_json (id mount_unit : string) (mount_point : path) : Json := JObject
  [("schemaVersion", JInt 1);
   ("profileId", JString id);
   ("mounts", JArray [JObject [("unit", JString mount_unit); ("mountPoint", JString mount_point)]])].

(** Where the files of a profile go. *)
Definition udev_path (roots : ProfileArtifactRoots) (id : string) : path :=
  udev_root roots /./ ("99-btrfs-backup-" +:+ id +:+ ".rules").
Definition dependency_path (roots : ProfileArtifactRoots) (id : string) : path :=
  systemd_root roots /./ ("btrfs-backup@" +:+ id +:+ ".service.d") /./ "target-mount.conf".
Definition unit_path (roots : ProfileArtifactRoots) (unit : string) : path := systemd_root roots /./ unit.
Definition private_path (roots : ProfileArtifactRoots) (id : string) : path :=
  etc_root roots /./ "profiles" /./ id /./ "profile.json".
Definition manifest_path (roots : ProfileArtifactRoots) (id : string) : path :=
  etc_root roots /./ "profiles" /./ id /./ "managed-artifacts.json".
Definition public_path (roots : ProfileArtifactRoots) (id : string) : path :=
  public_root roots /./ (id +:+ ".json").

(** The generator is the parameter [generations]; it may throw.
    src/config/ProfileArtifactRenderer.cpp:53-112 *)
Definition render_profile_artifacts (generations : res string) (profile : Profile)
    (roots : ProfileArtifactRoots) : res RenderedProfileArtifacts :=
  generation ← generations;
  let rendered := mkProfile generation (profile_id profile) (profile_name profile)
    (profile_enabled profile) (target profile) (paths profile) (settings profile) (hooks profile)
    (sources profile) in
  _ ← require (negb (str_empty generation))
        (ValidationError "configuration generation must not be empty");
  let id := id_value (profile_id rendered) in
  let mount := abs_value (mount_point (target rendered)) in
  let mount_unit := target_mount_unit_name mount in
  private ← dump_json (profile_to_json rendered);
  manifest ← dump_json (manifest_json id mount_unit mount);
  public ← dump_json (public_profile_json rendered);
  Ok (mkRendered rendered
    [mkArtifact UdevRule (udev_path roots id) (render_udev rendered) public_artifact_permissions OpWrite;
     mkArtifact SystemdMountDependency (dependency_path roots id) (render_mount_dependency rendered)
       public_artifact_permissions OpWrite;
     mkArtifact NativeTargetMount (unit_path roots mount_unit) (render_target_mount_unit rendered)
       public_artifact_permissions OpWrite;
     mkArtifact PrivateProfile (private_path roots id) private private_profile_permissions OpWrite;
     mkArtifact ManagedArtifactManifest (manifest_path roots id) manifest private_profile_permissions
       OpWrite;
     mkArtifact PublicProfile (public_path roots id) public public_artifact_permissions OpWrite]).

End render.

(** src/config/ProfileArtifactRenderer.cpp:114-121 *)
Definition profile_artifact_roots (output_dir : path) : ProfileArtifactRoots :=
  mkRoots (output_dir /./ "etc" /./ "btrfs-backup")
          (output_dir /./ "etc" /./ "udev" /./ "rules.d")
          (output_dir /./ "etc" /./ "systemd" /./ "system")
          (output_dir /./ "var" /./ "lib" /./ "btrfs-backup" /./ "public" /./ "profiles").

(** ** The name of a mount unit determines the mount point *)

(** The value of a hexadecimal digit. *)
Definition hex_value (c : ascii) : Z :=
  if is_digit c then char_code c - 48 else char_code c - 87.

(** What systemd reads from an escaped name. *)
Fixpoint unescape (s : string) : string :=
  match s with
  | EmptyString => ""
  | String c tail =>
      let otherwise := String (if Ascii.eqb c "-" then "/" else c) (unescape tail) in
      match tail with
      | String x (String a (String b rest)) =>
          if Ascii.eqb c backslash && Ascii.eqb x "x"
          then String (ascii_of_N (Z.to_N (hex_value a * 16 + hex_value b))) (unescape rest)
          else otherwise
      | _ => otherwise
      end
  end.

Lemma unescape_hex c t : unescape (systemd_hex_escape c +:+ t) = String c (unescape t).
Proof. destruct c as [[] [] [] [] [] [] [] []]; reflexivity. Qed.

Lemma unescape_plain c t :
  Ascii.eqb c backslash = false ->
  unescape (String c t) = String (if Ascii.eqb c "-" then "/"%char else c) (unescape t).
Proof. intros E. cbn [unescape]. rewrite E. by repeat case_match. Qed.

Lemma plain_char_bounds c :
  systemd_unit_plain_char c = true -> Ascii.eqb c backslash = false /\ Ascii.eqb c "-" = false.
Proof. destruct c as [[] [] [] [] [] [] [] []]; by vm_compute. Qed.

Lemma unescape_device s t : unescape (escape_device s +:+ t) = s +:+ unescape t.
Proof.
  induction s as [|c s IH]; [done|]. cbn [escape_device].
  destruct (Ascii.eqb_spec c "/") as [->|_]; cbn [String.append].
  - rewrite unescape_plain by done. cbn. by rewrite IH.
  - rewrite string_app_assoc. unfold escape_char. destruct (systemd_unit_plain_char c) eqn:P.
    + cbn [String.append]. apply plain_char_bounds in P as [P1 P2].
      rewrite unescape_plain, P2, IH by done. done.
    + by rewrite unescape_hex, IH.
Qed.

Lemma escape_device_inj a b : escape_device a = escape_device b -> a = b.
Proof.
  intros E. pose proof (unescape_device a "") as Ha. pose proof (unescape_device b "") as Hb.
  rewrite !string_app_nil_r in Ha, Hb. congruence.
Qed.

(** No separator follows another one, or comes first when [previous] is set. *)
Fixpoint lone_slashes (previous : bool) (s : string) : bool :=
  match s with
  | EmptyString => true
  | String c rest =>
      if Ascii.eqb c "/" then negb previous && lone_slashes true rest else lone_slashes false rest
  end.

Lemma escape_mount_device s acc previous :
  str_empty acc = false -> lone_slashes previous s = true ->
  escape_mount s acc previous = acc +:+ escape_device s.
Proof.
  revert acc previous. induction s as [|c s IH]; intros acc previous Ha Hl;
    cbn [escape_mount escape_device lone_slashes] in *; [by rewrite string_app_nil_r|].
  assert (forall t, str_empty (acc +:+ t) = false) as Hat by (by destruct acc).
  destruct (Ascii.eqb_spec c "/") as [->|_].
  - apply andb_true_iff in Hl as [Hp Hl]. rewrite Ha, Hp. cbn [negb andb].
    by rewrite IH, string_app_assoc.
  - by rewrite IH, string_app_assoc.
Qed.

Lemma escape_char_nonempty c : str_empty (escape_char c) = false.
Proof. unfold escape_char. by case_match. Qed.

Lemma escape_mount_all s : lone_slashes true s = true -> escape_mount s "" false = escape_device s.
Proof.
  destruct s as [|c s]; [done|]. cbn [lone_slashes escape_mount escape_device].
  destruct (Ascii.eqb_spec c "/"); [done|]. intros Hl. cbn [String.append].
  apply escape_mount_device; [apply escape_char_nonempty|done].
Qed.

Lemma lone_name n s previous : is_name n -> lone_slashes previous (n +:+ s) = lone_slashes false s.
Proof.
  intros [Hne Hns]. revert previous Hne Hns. induction n as [|c n IH]; [done|].
  intros previous _ [Hc Hn]%no_slash_cons. cbn [String.append lone_slashes]. rewrite Hc.
  destruct n as [|d n]; [done|]. by apply IH.
Qed.

Lemma lone_join l previous : Forall is_name l -> lone_slashes previous (join_slash l) = true.
Proof.
  revert previous. induction l as [|n l IH]; [done|]. intros previous Hl.
  inversion Hl as [|? ? Hn Hl']; subst. destruct l as [|m l].
  - cbn [join_slash]. rewrite <- (string_app_nil_r n). by rewrite lone_name.
  - change (join_slash (n :: m :: l)) with (n +:+ String "/" (join_slash (m :: l))).
    rewrite lone_name by done. cbn [lone_slashes Ascii.eqb]. by rewrite IH.
Qed.

Lemma strip_cons c s : str_empty (strip_slashes s) = false ->
  strip_slashes (String c s) = String c (strip_slashes s).
Proof. intros Hs. cbn [strip_slashes]. by destruct (strip_slashes s). Qed.

Lemma strip_name n t :
  is_name n -> strip_slashes t = "" -> strip_slashes (n +:+ t) = n.
Proof.
  intros [Hne Hns] Ht. induction n as [|c n IH]; [done|].
  apply no_slash_cons in Hns as [Hc Hn]. cbn [String.append]. destruct n as [|d n].
  - cbn [String.append strip_slashes]. by rewrite Ht, Hc.
  - rewrite strip_cons; rewrite IH; done.
Qed.

Lemma strip_join l t :
  Forall is_name l -> strip_slashes t = "" -> strip_slashes (join_slash l +:+ t) = join_slash l.
Proof.
  intros Hl Ht. induction l as [|n l IH]; [done|]. inversion Hl as [|? ? Hn Hl']; subst.
  destruct l as [|m l]; [by apply strip_name|]. specialize (IH Hl').
  change (join_slash (n :: m :: l)) with (n +:+ String "/" (join_slash (m :: l))).
  assert (str_empty (join_slash (m :: l)) = false) as Hm.
  { inversion Hl' as [|? ? [Hm _] _]; subst. destruct m; [done|]. by destruct l. }
  clear Hn Hl. rewrite string_app_assoc. cbn [String.append].
  induction n as [|c n IHn]; cbn [String.append].
  - by rewrite strip_cons, IH by (by rewrite IH).
  - by rewrite strip_cons, IHn by (rewrite IHn; by destruct n).
Qed.

(** The names that a mount point consists of. *)
Definition mount_names (p : path) : list string := pp_names (pp_parse p).

Lemma mount_unit_text (m : TargetMountPoint) :
  target_mount_unit_name (abs_value m)
  = (if decide (mount_names (abs_value m) = []) then "-"
     else escape_device (join_slash (mount_names (abs_value m)))) +:+ ".mount"
  /\ Forall is_name (mount_names (abs_value m)).
Proof.
  destruct m as [p Hp]. cbn [abs_value]. unfold abs_path_ok in Hp.
  apply Is_true_eq_true, andb_true_iff in Hp as [Ha Hn]. apply String.eqb_eq in Hn.
  destruct (lexically_normal_abs p Ha) as (Hnf & E1 & E2). rewrite Hn in E1, E2.
  rewrite <- E2 in Hnf, E1. pose proof Hnf as (Hr & Hpl & Ht). apply plain_names in Hpl.
  split; [|done]. unfold target_mount_unit_name, mount_names.
  assert (without_trailing_slashes (lexically_normal p) = String "/" (join_slash (pp_names (pp_parse p))))
    as ->.
  { rewrite Hn, E1 at 1. unfold pp_render. rewrite Hr. cbn [String.append without_trailing_slashes].
    f_equal. apply strip_join; [done|by case_match]. }
  destruct (decide (pp_names (pp_parse p) = [])) as [->|Hne]; [done|].
  assert (str_empty (join_slash (pp_names (pp_parse p))) = false) as Hj.
  { destruct (pp_names (pp_parse p)) as [|n l]; [done|]. inversion Hpl as [|? ? [Hn0 _] _]; subst.
    destruct n; [done|]. by destruct l. }
  destruct (join_slash (pp_names (pp_parse p))) as [|c s] eqn:Ej; [done|].
  change (String.eqb (String "/" (String c s)) "/") with false.
  change (erase_front_slash (String "/" (String c s))) with (String c s). cbv beta iota zeta.
  rewrite <- Ej.
  rewrite escape_mount_all by (by apply lone_join). rewrite Ej.
  destruct (str_empty (escape_device (String c s))) eqn:X; [|done]. exfalso. revert X.
  cbn [escape_device]. destruct (Ascii.eqb c "/"); [done|].
  pose proof (escape_char_nonempty c). by destruct (escape_char c).
Qed.

Lemma mount_unit_determines (a b : TargetMountPoint) :
  target_mount_unit_name (abs_value a) = target_mount_unit_name (abs_value b)
  -> mount_names (abs_value a) = mount_names (abs_value b).
Proof.
  destruct (mount_unit_text a) as [-> Ha]. destruct (mount_unit_text b) as [-> Hb].
  intros [E _]%string_app_inj_r; [|done].
  assert (forall l, Forall is_name l -> "-" = escape_device (join_slash l) -> False) as Hroot.
  { intros l Hl El. pose proof (unescape_device (join_slash l) "") as U.
    rewrite !string_app_nil_r, <- El in U. pose proof (join_starts l Hl) as S.
    rewrite <- U in S. discriminate S. }
  destruct (decide (mount_names (abs_value a) = [])) as [Ea|Ea],
    (decide (mount_names (abs_value b) = [])) as [Eb|Eb]; [congruence|..].
  - by destruct (Hroot _ Hb E).
  - by destruct (Hroot _ Ha (eq_sym E)).
  - apply escape_device_inj in E. rewrite <- (split_join _ Ha Ea), <- (split_join _ Hb Eb). congruence.
Qed.

(** Two mount points have the same mount unit exactly when they consist of the same names:
    the unit of one target never takes the place of another's, and the trailing separator of a
    mount point does not matter. *)
Theorem mount_unit_determines_mount_point (a b : TargetMountPoint) :
  target_mount_unit_name (abs_value a) = target_mount_unit_name (abs_value b)
  <-> mount_names (abs_value a) = mount_names (abs_value b).
Proof.
  split; [apply mount_unit_determines|]. intros E.
  destruct (mount_unit_text a) as [-> _]. destruct (mount_unit_text b) as [-> _]. by rewrite E.
Qed.

(** ** The text of a profile cannot break out of the udev rule *)

(** A character that neither ends a quoted value nor a line. *)
Definition rule_char (c : ascii) : bool := negb (Ascii.eqb c quote) && negb (Ascii.eqb c newline).

(** An assignment or comparison: a key without quotes and a quoted value without quotes, all on
    one line. *)
Definition rule_item (m : string) : Prop :=
  exists key value, m = key +:+ quoted value
    /\ str_forallb rule_char key = true /\ str_forallb rule_char value = true.

Lemma udev_value_safe s : str_forallb rule_char (udev_value s) = true.
Proof.
  induction s as [|c s IH]; [done|]. cbn [udev_value]. rewrite str_forallb_app, IH, andb_true_r.
  clear IH. destruct c as [[] [] [] [] [] [] [] []]; vm_compute; reflexivity.
Qed.

Lemma identifier_rule_char (i : ProfileId) : str_forallb rule_char (id_value i) = true.
Proof.
  destruct i as [v Hv]. cbn [id_value]. apply Is_true_eq_true in Hv. cbn in Hv.
  destruct v as [|c v]; [done|]. cbn in Hv.
  apply andb_true_iff in Hv as [Hv _]. apply andb_true_iff in Hv as [Hc Hv].
  cbn [str_forallb]. apply andb_true_iff. split; [|eapply str_forallb_impl; [|exact Hv]].
  - revert c Hc. by intros [[] [] [] [] [] [] [] []]; vm_compute.
  - by intros [[] [] [] [] [] [] [] []]; vm_compute.
Qed.

Lemma serial_rule_char s : match_serial s = true -> str_forallb rule_char s = true.
Proof.
  destruct s as [|c s]; [done|]. cbn [match_serial]. intros Hv.
  apply andb_true_iff in Hv as [Hv _]. apply andb_true_iff in Hv as [Hc Hv].
  cbn [str_forallb]. apply andb_true_iff. split; [|eapply str_forallb_impl; [|exact Hv]].
  - revert c Hc. by intros [[] [] [] [] [] [] [] []]; vm_compute.
  - by intros [[] [] [] [] [] [] [] []]; vm_compute.
Qed.

Lemma split_dash_forallb (p q : ascii -> bool) s :
  (forall c, p c = true -> q c = true) -> q "-"%char = true ->
  Forall (λ x, str_forallb p x = true) (split_dash s) -> str_forallb q s = true.
Proof.
  intros Hpq Hd. induction s as [|c s IH]; [done|]. cbn [split_dash str_forallb].
  destruct (Ascii.eqb_spec c "-") as [->|_].
  - intros Hf. inversion Hf; subst. rewrite Hd. by apply IH.
  - destruct (split_dash s) as [|h l] eqn:E; [by destruct s; cbn in E; repeat case_match|].
    intros Hf. inversion Hf as [|? ? Hc Hl]; subst. cbn [str_forallb] in Hc.
    apply andb_true_iff in Hc as [Hc Hh]. rewrite (Hpq _ Hc). apply IH. by constructor.
Qed.

Lemma uuid_rule_char s : match_uuid s = true -> str_forallb rule_char s = true.
Proof.
  intros Hm. apply (split_dash_forallb is_xdigit); [|done|].
  - by intros [[] [] [] [] [] [] [] []]; vm_compute.
  - unfold match_uuid in Hm. destruct (split_dash s) as [|a [|b [|c [|d [|e [|]]]]]]; try done.
    repeat (apply andb_true_iff in Hm as [Hm ?]). by repeat constructor.
Qed.

Lemma rule_item_intro key value :
  str_forallb rule_char key = true -> str_forallb rule_char value = true ->
  rule_item (key +:+ quoted value).
Proof. intros Hk Hv. by exists key, value. Qed.

(** Whatever the name of a profile is, every item of its udev rule is a key and one quoted
    value, on one line: no text of a validated profile ends a value early or starts another
    rule. *)
Theorem udev_rule_contained (profile : Profile)
    (Hl : match_uuid (luks_uuid (target_identity (target profile))) = true)
    (Hp : partition_uuid (target_identity (target profile)) = ""
          \/ match_uuid (partition_uuid (target_identity (target profile))) = true)
    (Hs : match_serial (serial (target profile)) = true) :
  Forall rule_item (udev_matches profile).
Proof.
  unfold udev_matches. rewrite !Forall_app. split_and!.
  - repeat constructor; apply rule_item_intro; (done || by apply uuid_rule_char).
  - case_match eqn:E; constructor; [|done]. apply rule_item_intro; [done|].
    destruct Hp as [->|Hp]; [done|]. by apply uuid_rule_char.
  - case_match; constructor; [|done]. apply rule_item_intro; [done|]. by apply serial_rule_char.
  - repeat constructor; apply rule_item_intro; (done || apply udev_value_safe).
  - case_match; repeat constructor; apply rule_item_intro; try done.
    by rewrite !str_forallb_app, identifier_rule_char.
Qed.

(** ** No two profiles share a file *)

(** The text ends in a name. *)
Definition named (s : string) : Prop := str_empty (List.last (split_slash s) "") = false.

Lemma named_name n : is_name n -> named n.
Proof. intros [Hne Hns]. unfold named. rewrite split_slash_name by done. by destruct n. Qed.

Lemma named_app x y : named y -> named (x +:+ y).
Proof.
  intros Hy. induction x as [|c x IH]; [done|]. unfold named in *. cbn [String.append split_slash].
  destruct (split_slash (x +:+ y)) as [|h l] eqn:E; [by apply split_slash_nonempty in E|].
  case_match; [done|]. by destruct l.
Qed.

Lemma named_cons c s : named s -> named (String c s).
Proof. apply (named_app (String c "")). Qed.

Lemma named_filename s : named s -> pp_has_filename (pp_parse s) = true.
Proof.
  intros Hs. destruct (pp_has_filename (pp_parse s)) eqn:E; [done|].
  apply last_segment_empty in E. unfold named in Hs. by rewrite E in Hs.
Qed.

(** The text before a name that is appended to a path. *)
Definition stem (p : path) : string := if pp_has_filename (pp_parse p) then p +:+ "/" else p.

Lemma append_stem p n : is_name n -> p /./ n = stem p +:+ n.
Proof.
  intros [Hne Hns]. unfold path_append, stem, is_absolute. cbn [pp_parse pp_root].
  destruct n as [|c n]; [done|]. apply no_slash_cons in Hns as [Hc _]. cbn [starts_with_slash].
  rewrite Hc. case_match; [|done]. by rewrite string_app_assoc.
Qed.

Lemma append_named x n : named x -> is_name n -> x /./ n = x +:+ String "/" n.
Proof.
  intros Hx Hn. rewrite append_stem by done. unfold stem. rewrite named_filename by done.
  by rewrite string_app_assoc.
Qed.

Lemma name_app_l a b : is_name a -> no_slash b -> is_name (a +:+ b).
Proof.
  intros [Ha Hs] Hb. split; [by destruct a|]. unfold no_slash in *.
  by rewrite str_contains_app, Hs.
Qed.

Lemma identifier_name (i : ProfileId) : is_name (id_value i).
Proof. apply plain_is_name, ident_component. Qed.

Lemma escape_device_no_slash s : no_slash (escape_device s).
Proof.
  induction s as [|c s IH]; [done|]. unfold no_slash in *. cbn [escape_device].
  rewrite str_contains_app, IH, orb_false_r. clear IH.
  destruct c as [[] [] [] [] [] [] [] []]; vm_compute; reflexivity.
Qed.

Lemma mount_unit_is_name (m : TargetMountPoint) : is_name (target_mount_unit_name (abs_value m)).
Proof.
  destruct (mount_unit_text m) as [-> _]. split; [by case_decide; [|destruct (escape_device (join_slash (mount_names (abs_value m))))]|].
  unfold no_slash. rewrite str_contains_app, orb_false_r.
  case_decide; [done|apply escape_device_no_slash].
Qed.

(** The destinations of a profile under an output directory, as text. *)
Definition destination_texts (out : path) (id unit : string) : list string :=
  map (λ tail, stem out +:+ tail)
    ["etc/udev/rules.d/99-btrfs-backup-" +:+ id +:+ ".rules";
     "etc/systemd/system/btrfs-backup@" +:+ id +:+ ".service.d/target-mount.conf";
     "etc/systemd/system/" +:+ unit;
     "etc/btrfs-backup/profiles/" +:+ id +:+ "/profile.json";
     "etc/btrfs-backup/profiles/" +:+ id +:+ "/managed-artifacts.json";
     "var/lib/btrfs-backup/public/profiles/" +:+ id +:+ ".json"].

Lemma name_around a id b : no_slash a -> is_name id -> no_slash b -> is_name (a +:+ id +:+ b).
Proof.
  intros Ha [Hi Hs] Hb. split; [by destruct a, id|]. unfold no_slash in *.
  by rewrite !str_contains_app, Ha, Hs, Hb.
Qed.

Ltac solve_name :=
  first [assumption | split; [discriminate | reflexivity]
        | apply name_around; first [assumption | reflexivity]
        | apply name_app_l; first [assumption | reflexivity]].

Ltac solve_named :=
  first [reflexivity | apply named_name; solve_name | apply named_app; solve_named
        | apply named_cons; solve_named].

Lemma rendered_destinations `{JsonText} g p out r :
  render_profile_artifacts g p (profile_artifact_roots out) = Ok r ->
  map pa_destination (rp_artifacts r)
  = destination_texts out (id_value (profile_id p))
      (target_mount_unit_name (abs_value (mount_point (target p)))).
Proof.
  intros E. unfold render_profile_artifacts in E.
  destruct g as [g|]; [|done]. cbn [mbind res_bind] in E.
  destruct (require _ _); [|done]. cbn [mbind res_bind] in E.
  destruct (dump_json (profile_to_json _)); [|done]. cbn [mbind res_bind] in E.
  destruct (dump_json (manifest_json _ _ _)); [|done]. cbn [mbind res_bind] in E.
  destruct (dump_json (public_profile_json _)); [|done]. cbn [mbind res_bind] in E.
  injection E as <-. cbn [rp_artifacts map pa_destination profile_id target].
  unfold udev_path, dependency_path, unit_path, private_path, manifest_path, public_path,
    profile_artifact_roots, destination_texts.
  cbn [etc_root udev_root systemd_root public_root map].
  rewrite !(append_stem out) by done.
  pose proof (identifier_name (profile_id p)) as Hi.
  pose proof (mount_unit_is_name (mount_point (target p))) as Hm.
  generalize dependent (id_value (profile_id p)). intros id Hi.
  generalize dependent (target_mount_unit_name (abs_value (mount_point (target p)))). intros unit Hm.
  rewrite !(append_named (stem out +:+ "etc")) by (solve_name || solve_named).
  rewrite !(append_named (stem out +:+ "var")) by (solve_name || solve_named).
  repeat match goal with
  | |- context [?x /./ ?n] =>
      lazymatch x with
      | context [_ /./ _] => fail
      | _ => rewrite (append_named x n) by (solve_name || (rewrite ?string_app_assoc; cbn [String.append]; solve_named))
      end
  end.
  repeat (rewrite !string_app_assoc || (progress cbn [String.append])). reflexivity.
Qed.

Lemma dependency_slash id :
  str_contains "/" ("btrfs-backup@" +:+ id +:+ ".service.d/target-mount.conf") = true.
Proof. rewrite !str_contains_app. by rewrite !orb_true_r. Qed.

(** The six destinations of two profiles. *)
Lemma destinations_distinct (out : path) (a b : ProfileId) (ua ub x : string) :
  no_slash ua -> no_slash ub -> a <> b -> ua <> ub ->
  x ∈ destination_texts out (id_value a) ua -> x ∈ destination_texts out (id_value b) ub -> False.
Proof.
  intros Hua Hub Hab Hu Ha Hb. pose proof (id_no_slash a) as Sa. pose proof (id_no_slash b) as Sb.
  assert (forall s, id_value a +:+ s <> id_value b +:+ s) as Hid.
  { intros s [E _]%string_app_inj_r; [|done]. by apply Hab, ident_eq. }
  unfold destination_texts in *. cbn [map] in *.
  repeat (apply elem_of_cons in Ha as [->|Ha]); try (by apply elem_of_nil in Ha);
    repeat (apply elem_of_cons in Hb as [Hb|Hb]); try (by apply elem_of_nil in Hb);
    apply string_app_inj_l in Hb; cbn [String.append] in Hb; try discriminate Hb;
    injection Hb as Hb; try (by apply Hid in Hb); try done.
  - pose proof (dependency_slash (id_value a)) as S. unfold no_slash in Hub. rewrite <- Hb in Hub.
    cbn [String.append] in S. congruence.
  - pose proof (dependency_slash (id_value b)) as S. unfold no_slash in Hua. rewrite Hb in Hua.
    cbn [String.append] in S. congruence.
  - by apply separator_inj in Hb as [_ Hb].
  - by apply separator_inj in Hb as [_ Hb].
Qed.

(** Two profiles with different names and mount points are installed as different files, under
    any output directory: installing, replacing or deleting one never touches a file of the other. *)
Theorem profiles_share_no_artifact `{JsonText} (out : path) (g g' : res string) (p p' : Profile)
    (r r' : RenderedProfileArtifacts) (x x' : ProfileArtifact)
    (Hid : profile_id p <> profile_id p')
    (Hmount : mount_names (abs_value (mount_point (target p)))
              <> mount_names (abs_value (mount_point (target p'))))
    (Hr : render_profile_artifacts g p (profile_artifact_roots out) = Ok r)
    (Hr' : render_profile_artifacts g' p' (profile_artifact_roots out) = Ok r')
    (Hx : x ∈ rp_artifacts r) (Hx' : x' ∈ rp_artifacts r') :
  pa_destination x <> pa_destination x'.
Proof.
  intros E. apply (list_elem_of_fmap_2 pa_destination) in Hx, Hx'.
  change (pa_destination <$> rp_artifacts ?r) with (map pa_destination (rp_artifacts r)) in Hx, Hx'.
  rewrite (rendered_destinations _ _ _ _ Hr) in Hx.
  rewrite (rendered_destinations _ _ _ _ Hr'), <- E in Hx'.
  eapply destinations_distinct; [| |exact Hid| |exact Hx|exact Hx'];
    [apply mount_unit_is_name..|].
  by intros Eu%mount_unit_determines.
Qed.

(** ** Examples *)

(** The profile of the document [ex_members] with another identifier and name. *)
Definition ex_named (id name : string) : res Profile :=
  @profile_from_json bits_text
    (JObject (("name", JString name) :: ("profileId", JString id) :: ex_members)) ex_root.

Definition ex_quoting : string := "a" +:+ String quote ", RUN+=" +:+ String quote "x".

Definition ex_generation : res string := Ok "0123456789abcdef0123456789abcdef".

Definition ex_rendered (p : res Profile) : res RenderedProfileArtifacts :=
  p ← p; @render_profile_artifacts bits_text ex_generation p
           (profile_artifact_roots "/srv/image").

Lemma udev_rule_contained_witness :
  exists p, ex_named "laptop" ex_quoting = Ok p /\ Forall rule_item (udev_matches p).
Proof.
  destruct (ex_named "laptop" ex_quoting) as [p|] eqn:E; [|by vm_compute in E].
  exists p. split; [done|].
  assert (match_uuid (luks_uuid (target_identity (target p))) = true
    /\ partition_uuid (target_identity (target p)) = ""
    /\ match_serial (serial (target p)) = true) as (H1 & H2 & H3)
    by (vm_compute in E; injection E as <-; vm_compute; done).
  apply udev_rule_contained; [exact H1 | left; exact H2 | exact H3].
Defined.

Lemma profiles_share_no_artifact_witness :
  exists p p' r r', ex_named "laptop" "L" = Ok p /\ ex_named "desktop" "D" = Ok p'
    /\ ex_rendered (Ok p) = Ok r /\ ex_rendered (Ok p') = Ok r'
    /\ length (rp_artifacts r) = 6%nat /\ length (rp_artifacts r') = 6%nat
    /\ forall x x', x ∈ rp_artifacts r -> x' ∈ rp_artifacts r' -> pa_destination x <> pa_destination x'.
Proof.
  assert (match ex_named "laptop" "L", ex_named "desktop" "D" with
          | Ok p, Ok p' =>
              negb (String.eqb (id_value (profile_id p)) (id_value (profile_id p')))
              && negb (bool_decide (mount_names (abs_value (mount_point (target p)))
                                    = mount_names (abs_value (mount_point (target p')))))
          | _, _ => false
          end = true) as V by (vm_compute; reflexivity).
  destruct (ex_named "laptop" "L") as [p|] eqn:E; [|discriminate V].
  destruct (ex_named "desktop" "D") as [p'|] eqn:E'; [|discriminate V].
  rewrite andb_true_iff, !negb_true_iff in V. destruct V as (V1 & V2).
  do 2 eexists. do 2 eexists. split; [reflexivity|]. split; [reflexivity|].
  split; [reflexivity|]. split; [reflexivity|]. split; [reflexivity|]. split; [reflexivity|].
  intros x x' Hx Hx'.
  eapply (@profiles_share_no_artifact bits_text "/srv/image" ex_generation ex_generation p p');
    [|exact (bool_decide_eq_false_1 _ V2)|reflexivity|reflexivity|exact Hx|exact Hx'].
  intros Ei. rewrite Ei, String.eqb_refl in V1. discriminate V1.
Defined.
