(* ===== verification/FileSystem.v ===== *)
(** * Files of the configuration (src/platform/linux/filesystem)

    The files that the configuration is kept in, as a map from paths to what is there, with the
    system calls that the code makes on them.  Any call may fail: the faults to come are a
    function of the number of the call and of the call itself.  A call of [rename] or [unlink]
    that fails has no effect, as POSIX says; a write replaces the file whole or not at all, and
    what may fail after it is the synchronisation of the directory.

    Code that throws runs in the monad [SE]: its state survives the exception. *)

From S2P Require Import Prelude Errors FsPath ProfileArtifacts.

Open Scope Z_scope.
Open Scope path_scope.

(** ** State and exceptions *)

Definition SE (S A : Type) : Type := S -> res A * S.

#[export] Instance SE_ret {S} : MRet (SE S) := λ A a s, (Ok a, s).
#[export] Instance SE_bind {S} : MBind (SE S) := λ A B f m s,
  match m s with
  | (Ok a, s') => f a s'
  | (Throw e, s') => (Throw e, s')
  end.

Section se.
Context {S : Type}.

Definition se_throw {A} (e : exn) : SE S A := λ s, (Throw e, s).
Definition se_lift {A} (r : res A) : SE S A := λ s, (r, s).
Definition se_get : SE S S := λ s, (Ok s, s).
Definition se_modify (f : S -> S) : SE S unit := λ s, (Ok tt, f s).
(** [try { m } catch (...) { h }] *)
Definition se_catch {A} (m : SE S A) (h : exn -> SE S A) : SE S A := λ s,
  match m s with
  | (Throw e, s') => h e s'
  | ok => ok
  end.
End se.

Lemma se_bind_eq {S A B} (m : SE S A) (f : A -> SE S B) s :
  (m ≫= f) s = match m s with (Ok a, s') => f a s' | (Throw e, s') => (Throw e, s') end.
Proof. reflexivity. Qed.

(** A sequence that returned: its first part returned or it threw. *)
Lemma se_bind_inv {S A B} (m : SE S A) (f : A -> SE S B) s r s' :
  (m ≫= f) s = (r, s') ->
  (exists a s1, m s = (Ok a, s1) /\ f a s1 = (r, s')) \/ (exists e, m s = (Throw e, s') /\ r = Throw e).
Proof. rewrite se_bind_eq. destruct (m s) as [[a|e] s1]; naive_solver. Qed.

(** ** What is at a path *)

Inductive Node :=
| Regular (data : string) (mode owner : Z)
| Symlink (target : path)
| Directory (mode owner : Z).

#[export] Instance Node_eq_dec : EqDecision Node.
Proof. solve_decision. Defined.

Abbreviation Files := (gmap string Node).

(** The calls that may fail. *)
Inductive Call :=
| CInspect (p : path) | CRemove (p : path) | CRename (from to : path) | CCreateDirectories (p : path)
| CWrite (p : path) | CSync (p : path) | CRead (p : path) | CLock (p : path) | CActivate.

(** The lock is taken by others or free; [w_meanwhile] is what other processes do to the files
    between the start of an operation and the moment it holds the lock, [w_locked] the files at
    that moment, and [w_active] the files when the service manager last read them. *)
Record World := mkWorld {
  w_files : Files;
  w_clock : nat;
  w_faults : nat -> Call -> option string;
  w_busy : bool;
  w_meanwhile : Files -> Files;
  w_locked : option Files;
  w_active : option Files;
}.

#[export] Instance eta_World : Eta World := λ w,
  mkWorld (w_files w) (w_clock w) (w_faults w) (w_busy w) (w_meanwhile w) (w_locked w) (w_active w).

(** The message of the failure of the next call, if it fails. *)
Definition attempt (c : Call) (w : World) : option string * World :=
  (w_faults w (w_clock w) c, w <| w_clock := (w_clock w + 1)%nat |>).

(** ** Paths *)

Fixpoint drop_empty (l : list string) : list string :=
  match l with
  | "" :: l => drop_empty l
  | l => l
  end.

(** [parent_path()]: the text up to the last name, without the separators after it. *)
Definition parent_path (p : path) : path :=
  if bool_decide (pp_names (pp_parse p) = []) then p
  else
    let parent := join_slash (rev (drop_empty (rev (removelast (split_slash p))))) in
    if str_empty parent && is_absolute p then "/" else parent.

Example parent_1 : parent_path "/etc/a//b" = "/etc/a" /\ parent_path "/a" = "/" /\ parent_path "a" = ""
  /\ parent_path "a/b/" = "a/b" /\ parent_path "/" = "/".
Proof. split_and!; reflexivity. Qed.

(** The directories above a path, itself included, the topmost last. *)
Fixpoint parents (fuel : nat) (p : path) : list path :=
  match fuel with
  | O => []
  | S fuel =>
      let parent := parent_path p in
      if String.eqb parent p || str_empty parent then [p] else p :: parents fuel parent
  end.

Definition ancestors (p : path) : list path := parents (S (length (pp_names (pp_parse p)))) p.

Example ancestors_1 : ancestors "/etc/a/b" = ["/etc/a/b"; "/etc/a"; "/etc"; "/"].
Proof. reflexivity. Qed.

(** ** Lemmas: the parent of a path *)

Lemma split_join_segments l : Forall no_slash l -> l <> [] -> split_slash (join_slash l) = l.
Proof.
  induction l as [|x l IH]; [done|]. intros H _. inversion H as [|? ? Hx Hl]; subst.
  destruct l as [|y l]; [by apply split_slash_name|].
  change (join_slash (x :: y :: l)) with (x +:+ String "/" (join_slash (y :: l))).
  rewrite split_slash_app by done. f_equal. by apply IH.
Qed.

Lemma drop_empty_suffix l : exists k, l = repeat "" k ++ drop_empty l.
Proof.
  induction l as [|x l [k IH]]; [by exists O|]. destruct x as [|c x]; [|by exists O].
  exists (S k). cbn. by rewrite <- IH.
Qed.

Lemma drop_empty_head l x k : drop_empty l = x :: k -> x <> "".
Proof. induction l as [|y l IH]; [done|]. destruct y; [done|]. by intros [= <- _]. Qed.

(** The segments of a path without its last one and the empty ones before it. *)
Lemma trim_segments l :
  exists k, l = rev (drop_empty (rev l)) ++ repeat "" k.
Proof.
  destruct (drop_empty_suffix (rev l)) as [k E]. exists k.
  rewrite <- (rev_involutive l) at 1. rewrite E at 1. by rewrite rev_app_distr, List.rev_repeat.
Qed.

Lemma trim_last l : rev (drop_empty (rev l)) <> [] -> List.last (rev (drop_empty (rev l))) "" <> "".
Proof.
  destruct (drop_empty (rev l)) as [|x k] eqn:E; [done|]. intros _. cbn. rewrite List.last_last.
  by eapply drop_empty_head.
Qed.

Lemma filter_repeat_empty k : List.filter nonempty (repeat "" k) = [].
Proof. by induction k. Qed.

Lemma starts_with_slash_segments p :
  starts_with_slash p = match split_slash p with "" :: _ :: _ => true | _ => false end.
Proof.
  destruct p as [|c p]; [done|]. cbn. pose proof (split_slash_nonempty p).
  destruct (Ascii.eqb c "/"); destruct (split_slash p); done.
Qed.

(** [parent_path()], by its elements. *)
Lemma pp_parse_parent p :
  pp_names (pp_parse p) <> [] ->
  pp_parse (parent_path p) = mkPP (pp_root (pp_parse p))
    (if pp_trail (pp_parse p) then pp_names (pp_parse p) else removelast (pp_names (pp_parse p))) false.
Proof.
  intros Hne. unfold parent_path. rewrite bool_decide_eq_false_2 by done.
  destruct (exists_last (split_slash_nonempty p)) as (segs & x & Es).
  pose proof (split_slash_segments p) as Hseg. rewrite Es in Hseg. apply Forall_app in Hseg as [Hseg _].
  assert (pp_names (pp_parse p) = List.filter nonempty segs ++ (if nonempty x then [x] else [])) as En.
  { cbn. rewrite Es, List.filter_app. cbn. by destruct (nonempty x). }
  assert (pp_trail (pp_parse p) = str_empty x) as Et.
  { unfold pp_parse in Hne |- *; cbn [pp_names pp_trail] in *. rewrite Es, List.last_last in *.
    by rewrite bool_decide_eq_false_2. }
  rewrite Es, List.removelast_last. destruct (trim_segments segs) as [k Ek].
  pose proof (trim_last segs) as Hl. set (l := rev (drop_empty (rev segs))) in *.
  assert ((if pp_trail (pp_parse p) then pp_names (pp_parse p) else removelast (pp_names (pp_parse p)))
          = List.filter nonempty l) as ->.
  { rewrite Et, En. assert (List.filter nonempty segs = List.filter nonempty l) as <-.
    { rewrite Ek at 1. by rewrite List.filter_app, filter_repeat_empty, app_nil_r. }
    destruct x; cbn; [by rewrite app_nil_r|by rewrite List.removelast_last]. }
  assert (Forall no_slash l) as Hll by (rewrite Ek in Hseg; by apply Forall_app in Hseg as [? _]).
  assert (is_absolute p = pp_root (pp_parse p)) as <- by done.
  assert (is_absolute p = match segs ++ [x] with "" :: _ :: _ => true | _ => false end) as Ea
    by (rewrite <- Es; apply starts_with_slash_segments).
  destruct (decide (l = [])) as [E0|E0].
  { rewrite E0. cbn [join_slash str_empty andb List.filter]. by destruct (is_absolute p). }
  specialize (Hl E0). assert (str_empty (join_slash l) = false) as ->.
  { destruct l as [|a [|b l]]; [done|by destruct a|]. by destruct a. }
  cbn [andb]. unfold pp_parse at 1. rewrite starts_with_slash_segments, split_join_segments by done. f_equal.
  - rewrite Ea, Ek. destruct l as [|a l]; [done|]. destruct a; [|done]. by destruct l.
  - destruct (List.last l ""); [done|]. by rewrite andb_false_r.
Qed.

(** ** Looking *)

(** What [lstat] says. *)
Inductive FileStatus :=
| StatusError (message : string) | StatusNotFound | StatusRegular | StatusSymlink | StatusDirectory.

Definition symlink_status (p : path) (w : World) : FileStatus * World :=
  let '(fault, w) := attempt (CInspect p) w in
  (match fault, w_files w !! p with
   | Some message, _ => StatusError message
   | None, None => StatusNotFound
   | None, Some (Regular _ _ _) => StatusRegular
   | None, Some (Symlink _) => StatusSymlink
   | None, Some (Directory _ _) => StatusDirectory
   end, w).

(** Symbolic links are followed, at most 40 of them; [None] when there are more. *)
Fixpoint follow (fuel : nat) (files : Files) (p : path) : option (option Node) :=
  match files !! p with
  | Some (Symlink t) =>
      match fuel with
      | O => None
      | S fuel => follow fuel files (parent_path p /./ t)
      end
  | node => Some node
  end.

(** [fs::exists(path, error)] *)
Definition exists_at (p : path) (w : World) : res bool * World :=
  let '(fault, w) := attempt (CInspect p) w in
  (match fault, follow 40 (w_files w) p with
   | Some message, _ => Throw (StdException message)
   | None, None => Throw (StdException "Too many levels of symbolic links")
   | None, Some node => Ok (bool_decide (is_Some node))
   end, w).

(** ** Changing *)

Definition has_children (files : Files) (p : path) : bool :=
  existsb (λ entry, negb (String.eqb entry.1 p) && String.eqb (parent_path entry.1) p) (map_to_list files).

(** [fs::remove(path, error)]: whether something was removed, or the error. *)
Definition fs_remove (p : path) (w : World) : (string + bool) * World :=
  let '(fault, w) := attempt (CRemove p) w in
  match fault, w_files w !! p with
  | Some message, _ => (inl message, w)
  | None, None => (inr false, w)
  | None, Some (Directory _ _) =>
      if has_children (w_files w) p then (inl "Directory not empty", w)
      else (inr true, w <| w_files := delete p (w_files w) |>)
  | None, Some _ => (inr true, w <| w_files := delete p (w_files w) |>)
  end.

(** [fs::rename(from, to, error)], of two names in one directory.  The entries below a directory
    stay where they are: no code of the configuration renames a directory. *)
Definition fs_rename (from to : path) (w : World) : option string * World :=
  let '(fault, w) := attempt (CRename from to) w in
  match fault, w_files w !! from, w_files w !! to with
  | Some message, _, _ => (Some message, w)
  | None, None, _ => (Some "No such file or directory", w)
  | None, Some _, Some (Directory _ _) => (Some "Is a directory", w)
  | None, Some node, _ => (None, w <| w_files := <[to := node]> (delete from (w_files w)) |>)
  end.

Section process.
(** The effective user of the process. *)
Context (euid : Z).

(** [fs::create_directories(path)]: throws when something above is not a directory. *)
Definition create_directories (p : path) : SE World unit := λ w,
  let '(fault, w) := attempt (CCreateDirectories p) w in
  let directory q := match w_files w !! q with Some (Directory _ _) => true | _ => false end in
  let missing q := negb (bool_decide (is_Some (w_files w !! q))) in
  match fault with
  | Some message => (Throw (StdException message), w)
  | None =>
      if forallb (λ q, directory q || missing q) (ancestors p)
      then (Ok tt, w <| w_files :=
              foldr (λ q files, <[q := Directory 493 euid]> files) (w_files w)
                (List.filter missing (ancestors p)) |>)
      else (Throw (StdException "Not a directory"), w)
  end.

(** src/platform/linux/filesystem/FileIo.cpp:111-123 *)
Definition fsync_dir (p : path) : SE World unit := λ w,
  let '(fault, w) := attempt (CSync p) w in
  match fault, follow 40 (w_files w) p with
  | Some message, _ => (Throw (ValidationError ("cannot sync directory " +:+ p +:+ ": " +:+ message)), w)
  | None, Some (Some (Directory _ _)) => (Ok tt, w)
  | None, _ => (Throw (ValidationError ("cannot open directory " +:+ p +:+ ": No such file or directory")), w)
  end.

(** The temporary file has a name that no other file has, and is removed when a call fails: the
    calls up to [rename] are one step, after which the directory is synchronised.
    src/platform/linux/filesystem/FileIo.cpp:54-109 *)
Definition atomic_write (p : path) (data : string) (mode : Z) : SE World unit :=
  let parent := if str_empty (parent_path p) then "." else parent_path p in
  _ ← create_directories parent;
  _ ← (λ w,
    let '(fault, w) := attempt (CWrite p) w in
    match fault, w_files w !! p with
    | Some message, _ => (Throw (ValidationError ("cannot write " +:+ p +:+ ": " +:+ message)), w)
    | None, Some (Directory _ _) =>
        (Throw (ValidationError ("cannot rename temporary file to " +:+ p +:+ ": Is a directory")), w)
    | None, _ => (Ok tt, w <| w_files := <[p := Regular data mode euid]> (w_files w) |>)
    end);
  fsync_dir parent.

(** ** Trusted files *)

(** src/platform/linux/filesystem/TrustedFile.hpp:13-16 *)
Record TrustedFilePolicy := mkPolicy {
  allow_current_user_owner : bool;
  allow_group_other_read : bool;
}.

(** No directory above and not the file itself may be a symbolic link.
    src/platform/linux/filesystem/TrustedFile.cpp:24-49 *)
Definition open_trusted_config_file (p : path) (w : World) : res Node * World :=
  let '(fault, w) := attempt (CRead p) w in
  let is_link q := match w_files w !! q with Some (Symlink _) => true | _ => false end in
  let refused := ValidationError ("Configuration file does not exist or is not a regular file: " +:+ p) in
  (match fault, w_files w !! lexically_normal p with
   | Some _, _ => Throw (ValidationError ("Configuration file is not readable: " +:+ p))
   | None, None => Throw refused
   | None, Some node =>
       if existsb is_link (ancestors (lexically_normal p)) then Throw refused else Ok node
   end, w).

(** src/platform/linux/filesystem/TrustedFile.cpp:51-70 *)
Definition assert_trusted_config (node : Node) (p : path) (policy : TrustedFilePolicy) : res string :=
  match node with
  | Regular data mode owner =>
      _ ← require ((owner =? 0) || (allow_current_user_owner policy && (owner =? euid)))
            (ValidationError ("Trusted profile JSON must be owned by root: " +:+ p));
      (* 0022 or 0077 *)
      let forbidden_mode := if allow_group_other_read policy then 18 else 63 in
      _ ← require (Z.land mode forbidden_mode =? 0)
            (ValidationError
               (if allow_group_other_read policy
                then "Trusted configuration file must not be writable by group or others: " +:+ p
                else "Trusted profile JSON must not be accessible by group or others: " +:+ p));
      Ok data
  | _ => Throw (ValidationError ("Configuration file does not exist or is not a regular file: " +:+ p))
  end.

(** src/platform/linux/filesystem/TrustedFile.cpp:72-92 *)
Definition read_all (data : string) (p : path) (maximum_size : Z) : res string :=
  if maximum_size <? Z.of_nat (String.length data)
  then Throw (ValidationError ("Configuration file exceeds the size limit: " +:+ p))
  else Ok data.

(** src/platform/linux/filesystem/TrustedFile.cpp:105-113 *)
Definition read_trusted_config_file (p : path) (policy : TrustedFilePolicy) (maximum_size : Z)
    : SE World string := λ w,
  let '(node, w) := open_trusted_config_file p w in
  (node ← node; data ← assert_trusted_config node p policy; read_all data p maximum_size, w).

(** ** Locks *)

(** Whether the lock was free.  Once it is held, what other processes did meanwhile is done, and
    they do not change the files until it is released.
    src/platform/linux/filesystem/FileLock.cpp:62-83 *)
Definition try_acquire (p : path) : SE World bool := λ w,
  let '(fault, w) := attempt (CLock p) w in
  match fault with
  | Some _ => (Throw (ValidationError ("cannot open lock file: " +:+ p)), w)
  | None =>
      if w_busy w then (Ok false, w)
      else
        let files := w_meanwhile w (w_files w) in
        (Ok true, w <| w_files := files |> <| w_meanwhile := (λ f, f) |> <| w_locked := Some files |>)
  end.

(** [IConfigurationActivator::activate()]: the service managers read the configuration anew. *)
Definition activate : SE World unit := λ w,
  let '(fault, w) := attempt CActivate w in
  match fault with
  | Some message => (Throw (SystemOperationError message), w)
  | None => (Ok tt, w <| w_active := Some (w_files w) |>)
  end.

End process.

(** ** What a call changes *)

(** Only the files at the paths [ps] may differ, and nobody took the lock. *)
Record frame (ps : list path) (w w' : World) : Prop := mkFrame {
  frame_files : forall q, q ∉ ps -> w_files w' !! q = w_files w !! q;
  frame_faults : w_faults w' = w_faults w;
  frame_busy : w_busy w' = w_busy w;
  frame_meanwhile : w_meanwhile w' = w_meanwhile w;
  frame_locked : w_locked w' = w_locked w;
  frame_active : w_active w' = w_active w;
}.

Lemma frame_refl ps w : frame ps w w.
Proof. by split. Qed.

Lemma frame_trans ps w1 w2 w3 : frame ps w1 w2 -> frame ps w2 w3 -> frame ps w1 w3.
Proof.
  intros [F1 ? ? ? ? ?] [F2 ? ? ? ? ?]. split; try congruence.
  intros q Hq. by rewrite F2, F1.
Qed.

Lemma frame_weaken ps ps' w w' : ps ⊆ ps' -> frame ps w w' -> frame ps' w w'.
Proof. intros Hs [F ? ? ? ? ?]. split; try done. intros q Hq. apply F. set_solver. Qed.

Lemma frame_app_l ps qs w w' : frame ps w w' -> frame (ps ++ qs) w w'.
Proof. apply frame_weaken. set_solver. Qed.

Lemma frame_app_r ps qs w w' : frame qs w w' -> frame (ps ++ qs) w w'.
Proof. apply frame_weaken. set_solver. Qed.

Lemma frame_nil ps w w' : frame [] w w' -> frame ps w w'.
Proof. apply frame_weaken. set_solver. Qed.

Lemma attempt_eq c w fault w' :
  attempt c w = (fault, w') -> w_files w' = w_files w /\ frame [] w w'.
Proof. intros [= <- <-]. by split. Qed.

Ltac call_step H :=
  lazymatch type of H with
  | context [attempt ?c ?w] =>
      let f := fresh "fault" in let w' := fresh "w" in let E := fresh "E" in
      let Ef := fresh "Ef" in let F := fresh "F" in
      destruct (attempt c w) as [f w'] eqn:E; apply attempt_eq in E as [Ef F]
  end.

Lemma fs_remove_spec p w r w' :
  fs_remove p w = (r, w') ->
  frame [p] w w' /\
  match r with
  | inr true => is_Some (w_files w !! p) /\ w_files w' !! p = None
  | inr false => w_files w !! p = None /\ w_files w' = w_files w
  | inl _ => w_files w' = w_files w
  end.
Proof.
  unfold fs_remove. intros H. call_step H. rewrite <- Ef.
  assert (frame [p] w w0) as F' by (by eapply frame_weaken; [|exact F]; set_solver).
  assert (forall n, w_files w0 !! p = Some n ->
    frame [p] w (w0 <| w_files := delete p (w_files w0) |>)
    /\ is_Some (w_files w0 !! p) /\ delete p (w_files w0) !! p = None) as Hdel.
  { intros n Hn. split; [|split; [by eexists|by rewrite lookup_delete_eq]].
    eapply frame_trans; [exact F'|]. split; try done. cbn. intros q Hq.
    rewrite lookup_delete_ne; [done|set_solver]. }
  destruct fault; [by simplify_eq|].
  destruct (w_files w0 !! p) as [[]|] eqn:En; try case_match; simplify_eq; try done;
    by apply (Hdel _ eq_refl).
Qed.

Lemma fs_rename_spec from to w r w' :
  fs_rename from to w = (r, w') ->
  frame [from; to] w w' /\
  match r with
  | None => exists n, w_files w !! from = Some n
              /\ w_files w' = <[to := n]> (delete from (w_files w))
  | Some _ => w_files w' = w_files w
  end.
Proof.
  unfold fs_rename. intros H. call_step H. rewrite <- Ef.
  assert (frame [from; to] w w0) as F' by (by eapply frame_weaken; [|exact F]; set_solver).
  assert (forall n, w_files w0 !! from = Some n ->
    frame [from; to] w (w0 <| w_files := <[to := n]> (delete from (w_files w0)) |>)
    /\ exists n', Some n = Some n' /\ <[to := n]> (delete from (w_files w0)) = <[to := n']> (delete from (w_files w0)))
    as Hren.
  { intros n Hn. split; [|by eexists]. eapply frame_trans; [exact F'|]. split; try done.
    cbn. intros q Hq. rewrite lookup_insert_ne, lookup_delete_ne; [done|set_solver..]. }
  destruct fault; [by simplify_eq|].
  destruct (w_files w0 !! from) as [n|] eqn:En; [|by simplify_eq].
  destruct (w_files w0 !! to) as [[]|]; simplify_eq; try done; by apply (Hren _ eq_refl).
Qed.

Lemma symlink_status_frame p w r w' :
  symlink_status p w = (r, w') ->
  frame [] w w' /\ w_files w' = w_files w /\ (r = StatusNotFound -> w_files w !! p = None).
Proof.
  unfold symlink_status. intros H. call_step H. simplify_eq. rewrite <- Ef.
  split_and!; try done. by repeat case_match.
Qed.

Lemma exists_at_spec p w r w' :
  exists_at p w = (r, w') -> frame [] w w' /\ w_files w' = w_files w.
Proof. unfold exists_at. intros H. call_step H. by simplify_eq. Qed.

Lemma fsync_dir_spec p w r w' : fsync_dir p w = (r, w') -> frame [] w w' /\ w_files w' = w_files w.
Proof. unfold fsync_dir. intros H. call_step H. repeat case_match; by simplify_eq. Qed.

Lemma create_directories_spec euid p w r w' :
  create_directories euid p w = (r, w') ->
  frame (ancestors p) w w' /\ (forall q n, w_files w !! q = Some n -> w_files w' !! q = Some n).
Proof.
  unfold create_directories. intros H. call_step H. rewrite <- Ef.
  assert (frame (ancestors p) w w0) as F' by (by eapply frame_weaken; [|exact F]; set_solver).
  destruct fault; [by simplify_eq|]. case_match; [|by simplify_eq].
  simplify_eq. cbn.
  assert (forall q, q ∉ List.filter (λ q0, negb (bool_decide (is_Some (w_files w0 !! q0)))) (ancestors p) ->
    foldr (λ q files, <[q := Directory 493 euid]> files) (w_files w0)
      (List.filter (λ q0, negb (bool_decide (is_Some (w_files w0 !! q0)))) (ancestors p)) !! q
    = w_files w0 !! q) as Hf.
  { generalize (List.filter (λ q0, negb (bool_decide (is_Some (w_files w0 !! q0)))) (ancestors p)).
    intros l q Hq. induction l as [|x l IH]; [done|]. cbn. apply not_elem_of_cons in Hq as [? ?].
    rewrite lookup_insert_ne by done. by apply IH. }
  split.
  - eapply frame_trans; [exact F'|]. split; try done. cbn. intros q Hq. apply Hf.
    rewrite list_elem_of_In, List.filter_In, <- list_elem_of_In. naive_solver.
  - intros q n Hn. rewrite Hf; [done|].
    rewrite list_elem_of_In, List.filter_In. intros [_ Hb]. rewrite Hn in Hb. done.
Qed.

(** The directory that [atomic_write] creates. *)
Definition write_parent (p : path) : path := if str_empty (parent_path p) then "." else parent_path p.

Lemma atomic_write_spec euid p data mode w r w' :
  atomic_write euid p data mode w = (r, w') ->
  frame (p :: ancestors (write_parent p)) w w' /\
  (r = Ok tt -> p ∉ ancestors (write_parent p) -> w_files w' !! p = Some (Regular data mode euid)).
Proof.
  unfold atomic_write. change (if str_empty (parent_path p) then "." else parent_path p) with (write_parent p).
  intros [([] & w1 & E1 & H)|(e & E1 & ->)]%se_bind_inv;
    apply create_directories_spec in E1 as [F1 _];
    (apply (frame_weaken _ (p :: ancestors (write_parent p))) in F1; [|set_solver]); [|done].
  rewrite se_bind_eq in H.
  call_step H. apply (frame_weaken _ (p :: ancestors (write_parent p))) in F; [|set_solver].
  assert (frame (p :: ancestors (write_parent p)) w w0) as F2 by (by eapply frame_trans).
  destruct fault; [by simplify_eq|].
  assert (forall n, n = w0 <| w_files := <[p := Regular data mode euid]> (w_files w0) |> ->
    fsync_dir (write_parent p) n = (r, w') ->
    frame (p :: ancestors (write_parent p)) w w' /\
    (r = Ok tt -> p ∉ ancestors (write_parent p) -> w_files w' !! p = Some (Regular data mode euid))) as Hend.
  { intros n -> [F3 E3]%fsync_dir_spec. split.
    - eapply frame_trans; [exact F2|]. eapply frame_trans; [|by eapply frame_weaken; [|exact F3]; set_solver].
      split; try done. cbn. intros q Hq. rewrite lookup_insert_ne; [done|set_solver].
    - intros _ _. rewrite E3. cbn. by rewrite lookup_insert_eq. }
  destruct (w_files w0 !! p) as [[]|]; try (by simplify_eq); by eapply Hend.
Qed.
