(* ===== verification/ConfigTransaction.v ===== *)
(** * Replacing a configuration (src/platform/linux/config/ProfileConfigurationTransaction)

    A configuration is several files.  They are staged beside their destinations, published one
    by one, each previous file kept under another name, and rolled back in the reverse order when
    something fails.  The theorems: a rollback that reports that it is complete has put every
    destination back; what the transaction publishes is what was staged; and where the code loses
    a file. *)

From S2P Require Import Prelude Errors FsPath ConfigDomain ProfileArtifacts FileSystem.

Open Scope Z_scope.
Open Scope path_scope.

(** ** Data *)

(** src/platform/linux/config/ProfileConfigurationTransaction.hpp:18-22 *)
Record RollbackError := mkRollbackError { re_operation : string; re_path : path; re_message : string }.

(** [diagnostics_incomplete] is set when memory runs out, which is not modelled.
    src/platform/linux/config/ProfileConfigurationTransaction.hpp:24-28 *)
Record RollbackResult := mkRollback { rb_complete : bool; rb_errors : list RollbackError }.

(** src/platform/linux/config/ProfileConfigurationTransaction.hpp:52-62 *)
Record TransactionArtifact := mkItem {
  ti_kind : ProfileArtifactKind;
  ti_destination : path;
  ti_staged : path;
  ti_previous : path;
  ti_content : string;
  ti_permissions : Z;
  ti_operation : ProfileArtifactOperation;
  ti_had_previous : bool;
  ti_published : bool;
}.

#[export] Instance eta_TransactionArtifact : Eta TransactionArtifact := λ i,
  mkItem (ti_kind i) (ti_destination i) (ti_staged i) (ti_previous i) (ti_content i)
    (ti_permissions i) (ti_operation i) (ti_had_previous i) (ti_published i).

(** The members of the transaction that its operations change, with the files. *)
Definition Items : Type := list TransactionArtifact * World.

(** ** Helpers *)

(** src/platform/linux/config/ProfileConfigurationTransaction.cpp:21-23 *)
Definition transaction_path (destination : path) (kind generation : string) : path :=
  parent_path destination /./ ("." +:+ filename destination +:+ "." +:+ kind +:+ "-" +:+ generation).

(** src/platform/linux/config/ProfileConfigurationTransaction.cpp:25-28 *)
Definition remove_if_present (p : path) (w : World) : World := (fs_remove p w).2.

(** src/platform/linux/config/ProfileConfigurationTransaction.cpp:30-57 *)
Definition record_rollback_error (result : RollbackResult) (operation : string) (p : path)
    (message : string) (destination : option path) : RollbackResult :=
  let detail := match destination with
                | Some d => message +:+ "; destination: " +:+ d
                | None => message
                end in
  mkRollback false (rb_errors result ++ [mkRollbackError operation p detail]).

(** src/platform/linux/config/ProfileConfigurationTransaction.cpp:59-71 *)
Definition remove_for_rollback (p : path) (operation : string) (result : RollbackResult) (w : World)
    : bool * RollbackResult * World :=
  match fs_remove p w with
  | (inl error, w) => (false, record_rollback_error result operation p error None, w)
  | (inr false, w) => (false, record_rollback_error result operation p "path does not exist" None, w)
  | (inr true, w) => (true, result, w)
  end.

(** src/platform/linux/config/ProfileConfigurationTransaction.cpp:73-86 *)
Definition rename_for_rollback (from to : path) (operation : string) (result : RollbackResult)
    (w : World) : bool * RollbackResult * World :=
  match fs_rename from to w with
  | (Some error, w) => (false, record_rollback_error result operation from error (Some to), w)
  | (None, w) => (true, result, w)
  end.

(** src/platform/linux/config/ProfileConfigurationTransaction.cpp:88-98 *)
Definition remove_cleanup_for_rollback (p : path) (operation : string) (result : RollbackResult)
    (w : World) : RollbackResult * World :=
  match fs_remove p w with
  | (inl error, w) => (record_rollback_error result operation p error None, w)
  | (inr _, w) => (result, w)
  end.

(** src/platform/linux/config/ProfileConfigurationTransaction.cpp:100-113 *)
Definition configuration_save_message (cause : string) (rollback : RollbackResult) : string :=
  "configuration.save_failed: " +:+ cause +:+
  (if rb_complete rollback then ""
   else "; configuration.rollback_incomplete"
        +:+ foldr (λ error rest, "; " +:+ re_operation error +:+ " " +:+ re_path error +:+ ": "
                                 +:+ re_message error +:+ rest) "" (rb_errors rollback)
        +:+ (if bool_decide (rb_errors rollback = [])
             then "; rollback diagnostics could not be recorded" else "")).

(** ConfigurationSaveError, by what it is as a CodedValidationError.
    src/platform/linux/config/ProfileConfigurationTransaction.cpp:139-145 *)
Definition configuration_save_error (message : string) (rollback : RollbackResult) : exn :=
  CodedValidationError
    (if rb_complete rollback then ConfigurationSaveFailed else ConfigurationRollbackIncomplete)
    (configuration_save_message message rollback).

(** src/platform/linux/config/ProfileConfigurationTransaction.cpp:115-121 *)
Definition rename_checked (from to : path) : SE World unit := λ w,
  match fs_rename from to w with
  | (Some error, w) =>
      (Throw (ValidationError ("cannot rename " +:+ from +:+ " to " +:+ to +:+ ": " +:+ error)), w)
  | (None, w) => (Ok tt, w)
  end.

(** src/platform/linux/config/ProfileConfigurationTransaction.cpp:123-135 *)
Definition validate_destination (p : path) : SE World unit := λ w,
  match symlink_status p w with
  | (StatusNotFound, w) => (Ok tt, w)
  | (StatusError error, w) =>
      (Throw (ValidationError ("cannot inspect configuration destination " +:+ p +:+ ": " +:+ error)), w)
  | (StatusRegular, w) => (Ok tt, w)
  | (_, w) =>
      (Throw (ValidationError ("configuration destination is not a regular file: " +:+ p)), w)
  end.

(** src/platform/linux/config/ProfileConfigurationTransaction.cpp:215-219 *)
Definition previous_exists (destination : path) : SE World bool := λ w,
  match exists_at destination w with
  | (Throw _, w) =>
      (Throw (ValidationError ("cannot inspect configuration destination " +:+ destination)), w)
  | ok => ok
  end.

(** A call on the files from an operation that also changes an item. *)
Definition on_files {X A} (m : SE World A) : SE (X * World) A := λ s,
  let '(r, w) := m s.2 in (r, (s.1, w)).

Definition run_files {X} (f : World -> World) : SE (X * World) unit :=
  on_files (λ w, (Ok tt, f w)).

Section transaction.
Context (euid : Z).

(** What an operation does to one item; the item keeps the changes when it throws. *)
Definition ItemM (A : Type) : Type := SE (TransactionArtifact * World) A.

Definition get_item : ItemM TransactionArtifact := λ s, (Ok s.1, s).
Definition set_item (f : TransactionArtifact -> TransactionArtifact) : ItemM unit := λ s,
  (Ok tt, (f s.1, s.2)).

(** [for (TransactionArtifact& item : artifacts_) if (selected(item)) body(item);] *)
Fixpoint for_items (selected : TransactionArtifact -> bool) (body : ItemM unit)
    (items : list TransactionArtifact) (w : World) : res unit * Items :=
  match items with
  | [] => (Ok tt, ([], w))
  | item :: items =>
      if selected item then
        match body (item, w) with
        | (Ok _, (item, w)) => let '(r, (items, w)) := for_items selected body items w in
                               (r, (item :: items, w))
        | (Throw e, (item, w)) => (Throw e, (item :: items, w))
        end
      else let '(r, (items, w)) := for_items selected body items w in (r, (item :: items, w))
  end.

(** ** Operations *)

(** src/platform/linux/config/ProfileConfigurationTransaction.cpp:151-167 *)
Definition transaction_items (artifacts : list ProfileArtifact) : list TransactionArtifact :=
  map (λ a, mkItem (pa_kind a) (pa_destination a) "" "" (pa_content a) (pa_permissions a)
              (pa_operation a) false false) artifacts.

(** The body of the loop of [stage].
    src/platform/linux/config/ProfileConfigurationTransaction.cpp:170-179 *)
Definition stage_item (generation : string) : ItemM unit :=
  item ← get_item;
  _ ← on_files (validate_destination (ti_destination item));
  let staged := transaction_path (ti_destination item) "stage" generation in
  let previous := transaction_path (ti_destination item) "previous" generation in
  _ ← set_item (λ i, i <| ti_staged := staged |> <| ti_previous := previous |>);
  _ ← run_files (remove_if_present staged);
  _ ← run_files (remove_if_present previous);
  match ti_operation item with
  | OpWrite => on_files (atomic_write euid staged (ti_content item) (ti_permissions item))
  | OpRemove => mret tt
  end.

(** src/platform/linux/config/ProfileConfigurationTransaction.cpp:169-180 *)
Definition stage (generation : string) : SE Items unit := λ s,
  for_items (λ _, true) (stage_item generation) s.1 s.2.

(** The block that may throw after the previous file was moved away.
    src/platform/linux/config/ProfileConfigurationTransaction.cpp:229-232 *)
Definition move_staged (item : TransactionArtifact) : ItemM unit :=
  _ ← on_files (rename_checked (ti_staged item) (ti_destination item));
  _ ← set_item (λ i, i <| ti_published := true |>);
  on_files (fsync_dir (parent_path (ti_destination item))).

(** Its handler.
    src/platform/linux/config/ProfileConfigurationTransaction.cpp:233-239 *)
Definition put_back (item : TransactionArtifact) (had_previous : bool) (e : exn) : ItemM unit :=
  _ ← (if had_previous
       then run_files (λ w, (fs_rename (ti_previous item) (ti_destination item) w).2)
       else mret tt);
  se_throw e.

(** The rest of [publish], once it is known whether there was a file.
    src/platform/linux/config/ProfileConfigurationTransaction.cpp:220-239 *)
Definition publish_over (item : TransactionArtifact) (had_previous : bool) : ItemM unit :=
  let destination := ti_destination item in
  _ ← set_item (λ i, i <| ti_had_previous := had_previous |>);
  _ ← (if had_previous then on_files (rename_checked destination (ti_previous item)) else mret tt);
  match ti_operation item with
  | OpRemove =>
      _ ← set_item (λ i, i <| ti_published := had_previous |>);
      if had_previous then on_files (fsync_dir (parent_path destination)) else mret tt
  | OpWrite =>
      se_catch (move_staged item) (put_back item had_previous)
  end.

(** src/platform/linux/config/ProfileConfigurationTransaction.cpp:213-240 *)
Definition publish : ItemM unit :=
  item ← get_item;
  _ ← on_files (validate_destination (ti_destination item));
  had_previous ← on_files (previous_exists (ti_destination item));
  publish_over item had_previous.

Definition is_kind (kind : ProfileArtifactKind) (item : TransactionArtifact) : bool :=
  bool_decide (ti_kind item = kind).

(** src/platform/linux/config/ProfileConfigurationTransaction.cpp:186-192 *)
Definition publish_configuration : SE Items unit := λ s,
  for_items (λ item, negb (is_kind PublicProfile item)) publish s.1 s.2.

(** [artifact(kind)] and an operation on it.
    src/platform/linux/config/ProfileConfigurationTransaction.cpp:300-309 *)
Fixpoint on_artifact (kind : ProfileArtifactKind) (body : ItemM unit)
    (items : list TransactionArtifact) (w : World) : res unit * Items :=
  match items with
  | [] => (Throw (ValidationError "required profile artifact is missing"), ([], w))
  | item :: items =>
      if is_kind kind item
      then let '(r, (item, w)) := body (item, w) in (r, (item :: items, w))
      else let '(r, (items, w)) := on_artifact kind body items w in (r, (item :: items, w))
  end.

(** src/platform/linux/config/ProfileConfigurationTransaction.cpp:194-196 *)
Definition publish_public_marker : SE Items unit := λ s, on_artifact PublicProfile publish s.1 s.2.

(** src/platform/linux/config/ProfileConfigurationTransaction.cpp:182-184 *)
Definition staged_path (kind : ProfileArtifactKind) (items : list TransactionArtifact) : res path :=
  match List.find (is_kind kind) items with
  | Some item => Ok (ti_staged item)
  | None => Throw (ValidationError "required profile artifact is missing")
  end.

(** ** Rolling back *)

(** src/platform/linux/config/ProfileConfigurationTransaction.cpp:252-259 *)
Definition remove_published_artifact (item : TransactionArtifact) (result : RollbackResult) (w : World)
    : RollbackResult * World :=
  if ti_published item && bool_decide (ti_operation item = OpWrite)
  then let '(_, result, w) := remove_for_rollback (ti_destination item) "remove published artifact" result w
       in (result, w)
  else (result, w).

(** src/platform/linux/config/ProfileConfigurationTransaction.cpp:261-274 *)
Definition restore_previous_artifact (item : TransactionArtifact) (result : RollbackResult) (w : World)
    : bool * RollbackResult * World :=
  if negb (ti_had_previous item) then (false, result, w)
  else rename_for_rollback (ti_previous item) (ti_destination item) "restore previous artifact" result w.

(** src/platform/linux/config/ProfileConfigurationTransaction.cpp:276-287 *)
Definition sync_rollback_directory (item : TransactionArtifact) (result : RollbackResult) (w : World)
    : RollbackResult * World :=
  let directory := parent_path (ti_destination item) in
  match fsync_dir directory w with
  | (Ok _, w) => (result, w)
  | (Throw error, w) =>
      (record_rollback_error result "fsync artifact directory" directory (exn_what error) None, w)
  end.

(** src/platform/linux/config/ProfileConfigurationTransaction.cpp:289-298 *)
Definition remove_transaction_files (item : TransactionArtifact) (restored_previous : bool)
    (result : RollbackResult) (w : World) : RollbackResult * World :=
  let '(result, w) := remove_cleanup_for_rollback (ti_staged item) "remove staged artifact" result w in
  if negb (ti_had_previous item) || restored_previous
  then remove_cleanup_for_rollback (ti_previous item) "remove rollback artifact" result w
  else (result, w).

(** src/platform/linux/config/ProfileConfigurationTransaction.cpp:242-250 *)
Definition rollback_artifact (item : TransactionArtifact) (result : RollbackResult) (w : World)
    : RollbackResult * World :=
  let '(result, w) := remove_published_artifact item result w in
  let '(restored_previous, result, w) := restore_previous_artifact item result w in
  let '(result, w) := sync_rollback_directory item result w in
  remove_transaction_files item restored_previous result w.

(** src/platform/linux/config/ProfileConfigurationTransaction.cpp:198-204 *)
Definition rollback (items : list TransactionArtifact) (w : World) : RollbackResult * World :=
  foldl (λ '(result, w) item, rollback_artifact item result w) (mkRollback true [], w) (rev items).

(** src/platform/linux/config/ProfileConfigurationTransaction.cpp:206-211 *)
Definition finish (items : list TransactionArtifact) (w : World) : World :=
  foldl (λ w item, remove_if_present (ti_previous item) (remove_if_present (ti_staged item) w)) w items.

(** ** The whole transaction

    What ProfileInstaller does around the operations: the files are staged, checked, the lock is
    taken, the checks that need it are made ([recheck]), the files are published and the service
    managers activated; any failure is undone. *)

Record TransactionPlan := mkPlan {
  tp_generation : string;
  tp_artifacts : list ProfileArtifact;
  tp_validate : list TransactionArtifact -> SE World unit;
  tp_lock : path;
  tp_refused : string;
  tp_recheck : SE World unit;
  tp_reactivation : string;
  tp_systemd_root : path;
}.

(** [current_exception_message()].
    src/platform/linux/config/ProfileInstaller.cpp:47-55 *)
Definition current_exception_message (e : exn) : string :=
  if is_std_exception e then exn_what e else "unknown configuration save failure".

(** The body of the first block up to the point from which a failure needs a rollback.
    src/platform/linux/config/ProfileInstaller.cpp:270-285 *)
Definition prepare_commit (plan : TransactionPlan) : SE Items unit := λ s,
  (_ ← stage (tp_generation plan);
   _ ← (λ s : Items, on_files (tp_validate plan s.1) s);
   acquired ← on_files (try_acquire (tp_lock plan));
   _ ← se_lift (require acquired (ValidationError (tp_refused plan)));
   on_files (tp_recheck plan)) s.

(** The handler of a failure while publishing: [attempted] is [activation_attempted].
    src/platform/linux/config/ProfileInstaller.cpp:293-311 *)
Definition roll_back_commit (plan : TransactionPlan) (attempted : bool) (e : exn) : SE Items unit := λ s,
  let cause := current_exception_message e in
  let '(result, w) := rollback s.1 s.2 in
  let '(result, w) :=
    if attempted then
      match activate w with
      | (Ok _, w) => (result, w)
      | (Throw error, w) =>
          (record_rollback_error result (tp_reactivation plan) (tp_systemd_root plan)
             (if is_std_exception error then exn_what error else "unknown error") None, w)
      end
    else (result, w) in
  (Throw (configuration_save_error cause result), (s.1, w)).

(** src/platform/linux/config/ProfileInstaller.cpp:287-312 *)
Definition commit (plan : TransactionPlan) : SE Items unit := λ s,
  match publish_configuration s with
  | (Throw e, s) => roll_back_commit plan false e s
  | (Ok _, s) =>
      match (_ ← on_files activate; publish_public_marker) s with
      | (Throw e, s) => roll_back_commit plan true e s
      | (Ok _, s) => (Ok tt, (s.1, finish s.1 s.2))
      end
  end.

(** The handlers of the outer block: [ConfigurationSaveError], which only [commit] throws, is passed
    on; for any other exception the staged files are removed.
    src/platform/linux/config/ProfileInstaller.cpp:269-324 *)
Definition transact (plan : TransactionPlan) : SE World unit := λ w,
  match prepare_commit plan (transaction_items (tp_artifacts plan), w) with
  | (Throw e, (items, w)) =>
      let w := finish items w in
      match e with
      | CodedValidationError ConfigurationChanged _ => (Throw e, w)
      | _ => (Throw (configuration_save_error (current_exception_message e) (mkRollback true [])), w)
      end
  | (Ok _, s) => let '(r, (_, w)) := commit plan s in (r, w)
  end.

End transaction.

(** ** The files of an item *)

Section guarantees.
Context (generation : string).

Definition staged_of (i : TransactionArtifact) : path := transaction_path (ti_destination i) "stage" generation.
Definition previous_of (i : TransactionArtifact) : path :=
  transaction_path (ti_destination i) "previous" generation.

(** The paths that only this item uses, and the directories that staging it creates. *)
Definition own (i : TransactionArtifact) : list path := [ti_destination i; staged_of i; previous_of i].
Definition directories (i : TransactionArtifact) : list path := ancestors (write_parent (staged_of i)).
Definition footprint (i : TransactionArtifact) : list path := own i ++ directories i.

(** The paths of one item are different and not empty, and no directory that it creates is one of
    them. *)
Definition clean (i : TransactionArtifact) : Prop :=
  NoDup ("" :: own i) /\ Forall (λ q, q ∉ directories i) (own i).

(** What one item changes is not another's. *)
Definition apart (i j : TransactionArtifact) : Prop := Forall (λ q, q ∉ footprint i) (own j).

Fixpoint separate (items : list TransactionArtifact) : Prop :=
  match items with
  | [] => True
  | i :: items => clean i /\ Forall (λ j, apart i j /\ apart j i) items /\ separate items
  end.

#[export] Instance separate_dec items : Decision (separate items).
Proof. induction items; cbn; unfold clean, apart; apply _. Defined.

(** Same item, but for what the operations set. *)
Record same_item (i j : TransactionArtifact) : Prop := mkSame {
  same_kind : ti_kind j = ti_kind i;
  same_destination : ti_destination j = ti_destination i;
  same_content : ti_content j = ti_content i;
  same_permissions : ti_permissions j = ti_permissions i;
  same_operation : ti_operation j = ti_operation i;
}.

Lemma same_item_refl i : same_item i i.
Proof. by split. Qed.

Lemma same_item_trans i j k : same_item i j -> same_item j k -> same_item i k.
Proof. intros [? ? ? ? ?] [? ? ? ? ?]. split; congruence. Qed.

Lemma own_same i j : same_item i j -> own j = own i.
Proof. intros [_ E _ _ _]. unfold own, staged_of, previous_of. by rewrite E. Qed.

Lemma footprint_same i j : same_item i j -> footprint j = footprint i.
Proof.
  intros Hs. pose proof Hs as [_ E _ _ _]. unfold footprint, directories, staged_of.
  by rewrite (own_same _ _ Hs), E.
Qed.

Lemma separate_same items items' :
  Forall2 same_item items items' -> separate items -> separate items'.
Proof.
  induction 1 as [|i j items items' Hij Hrest IH]; [done|].
  intros ((Hn & Hd) & Ha & Hs). split_and!; [| |by apply IH].
  - unfold clean, directories, staged_of. rewrite (own_same _ _ Hij), (same_destination _ _ Hij). done.
  - clear IH Hs. induction Hrest as [|k l ks ls Hkl Hrest IH]; [done|].
    inversion Ha as [|? ? [A1 A2] Ha']; subst. constructor; [|by apply IH].
    unfold apart in *. by rewrite (footprint_same _ _ Hij), (footprint_same _ _ Hkl),
      (own_same _ _ Hij), (own_same _ _ Hkl).
Qed.

(** A predicate of an item and the files that looks only at the item's own paths. *)
Definition local (P : TransactionArtifact -> Files -> Prop) : Prop :=
  forall i f f', (forall q, q ∈ own i -> f' !! q = f !! q) -> P i f -> P i f'.

Lemma local_frame P i j w w' :
  local P -> apart j i -> frame (footprint j) w w' -> P i (w_files w) -> P i (w_files w').
Proof.
  intros HP Ha F. apply HP. intros q Hq. apply F. unfold apart in Ha.
  rewrite Forall_forall in Ha. by apply Ha.
Qed.

(** ** A loop over the items *)

(** What a body must do: given [P] of its item, it changes at most its footprint and ends in [Q]. *)
Definition body_spec (body : ItemM unit) (P : TransactionArtifact -> Files -> Prop)
    (Q : res unit -> TransactionArtifact -> Files -> Prop) : Prop :=
  forall i w r i' w', clean i -> P i (w_files w) -> body (i, w) = (r, (i', w')) ->
    same_item i i' /\ frame (footprint i) w w' /\ Q r i' (w_files w').

Section loop.
Context (selected : TransactionArtifact -> bool) (body : ItemM unit).
Context (P : TransactionArtifact -> Files -> Prop)
        (Q : res unit -> TransactionArtifact -> Files -> Prop).
Context (Hbody : body_spec body P Q) (HP : local P) (HQ : forall r, local (Q r)).

(** What is known of an item after the loop. *)
Definition outcome_of (r : res unit) (i i' : TransactionArtifact) (f : Files) : Prop :=
  same_item i i' /\
  if selected i then match r with
                     | Ok _ => Q (Ok tt) i' f
                     | Throw _ => (i' = i /\ P i f) \/ exists r', Q r' i' f
                     end
  else i' = i /\ P i f.

Lemma outcome_of_local r i i' f f' :
  (forall q, q ∈ own i -> f' !! q = f !! q) -> outcome_of r i i' f -> outcome_of r i i' f'.
Proof.
  intros Hf [Hs Ho]. split; [done|].
  assert (forall q, q ∈ own i' -> f' !! q = f !! q) as Hf' by (by rewrite (own_same _ _ Hs)).
  assert (P i f -> P i f') as HPf by (by apply HP).
  assert (forall r0, Q r0 i' f -> Q r0 i' f') as HQf by (intros r0; by apply HQ).
  destruct (selected i); [destruct r as [[]|]|]; naive_solver.
Qed.

Lemma for_items_spec items w r items' w' :
  separate items -> Forall (λ i, P i (w_files w)) items ->
  for_items selected body items w = (r, (items', w')) ->
  Forall2 (λ i i', outcome_of r i i' (w_files w')) items items' /\
  frame (flat_map footprint items) w w'.
Proof.
  revert w r items' w'. induction items as [|i items IH]; intros w r items' w' Hsep HPs H; cbn in H.
  { simplify_eq. by split; [constructor|apply frame_refl]. }
  destruct Hsep as (Hclean & Ha & Hsep). inversion HPs as [|? ? HPi HPs']; subst.
  assert (forall w1, frame (footprint i) w w1 -> Forall (λ j, P j (w_files w1)) items) as Hkeep.
  { intros w1 F. rewrite Forall_forall in HPs', Ha |- *. intros j Hj. eapply local_frame;
      [done|exact (proj1 (Ha j Hj))|exact F|by apply HPs']. }
  assert (forall w1 w2 (g : list TransactionArtifact), frame (flat_map footprint items) w1 w2 ->
    forall q, q ∈ own i -> w_files w2 !! q = w_files w1 !! q) as Htail.
  { intros w1 w2 g F q Hq. apply F. intros Hin. apply list_elem_of_In, in_flat_map in Hin as (j & Hj & Hqj).
    apply list_elem_of_In in Hj, Hqj. rewrite Forall_forall in Ha. destruct (Ha j Hj) as [_ A].
    unfold apart in A. rewrite Forall_forall in A. by apply (A q). }
  destruct (selected i) eqn:Es.
  - destruct (body (i, w)) as [rb [i' w1]] eqn:Eb.
    destruct (Hbody _ _ _ _ _ Hclean HPi Eb) as (Hsame & F1 & HQi).
    destruct rb as [[]|e].
    + destruct (for_items selected body items w1) as [r2 [items2 w2]] eqn:E2.
      destruct (IH _ _ _ _ Hsep (Hkeep _ F1) E2) as [Hall F2]. simplify_eq. split.
      * constructor; [|done]. eapply outcome_of_local; [by eapply (Htail _ _ [])|].
        split; [done|]. rewrite Es. destruct r as [[]|]; [done|]. right. by eexists.
      * eapply frame_trans; [by apply frame_app_l, F1|by apply frame_app_r, F2].
    + simplify_eq. split.
      * constructor; [split; [done|]; rewrite Es; right; by eexists|].
        specialize (Hkeep _ F1). clear -Hkeep. induction Hkeep as [|j l Hj Hl IHl]; constructor; [|done].
        split; [apply same_item_refl|]. destruct (selected j); [by left|done].
      * by apply frame_app_l, F1.
  - destruct (for_items selected body items w) as [r2 [items2 w2]] eqn:E2.
    destruct (IH _ _ _ _ Hsep HPs' E2) as [Hall F2]. simplify_eq. split.
    + constructor; [|done]. eapply outcome_of_local; [by eapply (Htail _ _ [])|].
      split; [apply same_item_refl|]. by rewrite Es.
    + by apply frame_app_r, F2.
Qed.

End loop.
(** ** Publishing one item *)

Context (euid : Z) (base : Files).

Definition staged_node (i : TransactionArtifact) : Node := Regular (ti_content i) (ti_permissions i) euid.

Definition paths_set (i : TransactionArtifact) : Prop :=
  ti_staged i = staged_of i /\ ti_previous i = previous_of i.

(** Staged and not published: the destination is as it was. *)
Definition pending (i : TransactionArtifact) (f : Files) : Prop :=
  paths_set i /\ ti_had_previous i = false /\ ti_published i = false
  /\ f !! ti_destination i = base !! ti_destination i /\ f !! previous_of i = None
  /\ (ti_operation i = OpWrite -> f !! staged_of i = Some (staged_node i)).

(** What rolling back relies on: the previous file is where the item says, or it is missing from
    there, which the rollback notices. *)
Definition restorable (i : TransactionArtifact) (f : Files) : Prop :=
  paths_set i /\
  if ti_had_previous i
  then f !! previous_of i = None \/ f !! previous_of i = base !! ti_destination i
  else if ti_published i && bool_decide (ti_operation i = OpWrite)
  then base !! ti_destination i = None
  else f !! ti_destination i = base !! ti_destination i.

Definition published (i : TransactionArtifact) (f : Files) : Prop :=
  f !! ti_destination i = match ti_operation i with OpWrite => Some (staged_node i) | OpRemove => None end.

Lemma in_own_destination i : ti_destination i ∈ own i.
Proof. unfold own. set_solver. Qed.
Lemma in_own_staged i : staged_of i ∈ own i.
Proof. unfold own. set_solver. Qed.
Lemma in_own_previous i : previous_of i ∈ own i.
Proof. unfold own. set_solver. Qed.

Lemma pending_local : local pending.
Proof.
  intros i f f' Hf (Hp & H1 & H2 & H3 & H4 & H5). split_and!; try done.
  - by rewrite (Hf _ (in_own_destination i)).
  - by rewrite (Hf _ (in_own_previous i)).
  - by rewrite (Hf _ (in_own_staged i)).
Qed.

Lemma restorable_local : local restorable.
Proof.
  intros i f f' Hf (Hp & H). split; [done|].
  by rewrite (Hf _ (in_own_destination i)), (Hf _ (in_own_previous i)).
Qed.

Lemma published_local : local published.
Proof. intros i f f' Hf H. unfold published. by rewrite (Hf _ (in_own_destination i)). Qed.

Lemma pending_restorable i f : pending i f -> restorable i f.
Proof. intros (Hp & H1 & H2 & H3 & _). split; [done|]. by rewrite H1, H2. Qed.

Lemma on_files_inv {X A} (m : SE World A) (x : X) w r x' w' :
  on_files m (x, w) = (r, (x', w')) -> x' = x /\ m w = (r, w').
Proof. unfold on_files. cbn. destruct (m w). naive_solver. Qed.

Lemma validate_destination_spec p w r w' :
  validate_destination p w = (r, w') ->
  frame [] w w' /\ w_files w' = w_files w /\
  (r = Ok tt -> forall t, w_files w !! p <> Some (Symlink t)).
Proof.
  unfold validate_destination. destruct (symlink_status p w) as [s w1] eqn:E.
  pose proof E as (F & Ef & _)%symlink_status_frame. intros H.
  assert (w' = w1) as -> by (destruct s; cbn in H; congruence). split_and!; [done..|].
  intros -> t Ht. unfold symlink_status in E. call_step E. rewrite Ef0, Ht in E.
  destruct fault; by simplify_eq.
Qed.

Lemma previous_exists_spec p w r w' :
  previous_exists p w = (r, w') -> (forall t, w_files w !! p <> Some (Symlink t)) ->
  frame [] w w' /\ w_files w' = w_files w /\ (forall b, r = Ok b -> b = bool_decide (is_Some (w_files w !! p))).
Proof.
  unfold previous_exists. destruct (exists_at p w) as [s w1] eqn:E. intros H Hl.
  pose proof E as [F Ef]%exists_at_spec.
  assert (w' = w1) as -> by (destruct s; cbn in H; congruence). split_and!; [done..|].
  intros b ->. destruct s as [b'|]; [|done]. simplify_eq.
  unfold exists_at in E. call_step E. rewrite Ef0 in E. destruct fault; [done|].
  unfold follow in E. destruct (w_files w !! p) as [[]|] eqn:En; try (by destruct (Hl _ eq_refl));
    cbn in E; by simplify_eq.
Qed.

Lemma rename_checked_spec from to w r w' :
  rename_checked from to w = (r, w') ->
  frame [from; to] w w' /\
  match r with
  | Ok _ => exists n, w_files w !! from = Some n /\ w_files w' = <[to := n]> (delete from (w_files w))
  | Throw _ => w_files w' = w_files w
  end.
Proof.
  unfold rename_checked. destruct (fs_rename from to w) as [e w1] eqn:E. intros H.
  apply fs_rename_spec in E as [F E]. destruct e; by simplify_eq.
Qed.

Lemma undo_rename p d w :
  p <> d -> frame [p; d] w (fs_rename p d w).2 /\
  (w_files (fs_rename p d w).2 !! p = None \/ w_files (fs_rename p d w).2 !! p = w_files w !! p).
Proof.
  intros Hne. destruct (fs_rename p d w) as [e w1] eqn:E. cbn.
  apply fs_rename_spec in E as [F E]. split; [done|]. destruct e; [right; by rewrite E|].
  destruct E as (n & _ & ->). left. by rewrite lookup_insert_ne, lookup_delete_eq.
Qed.

Lemma own_distinct i :
  NoDup (own i) ->
  ti_destination i <> staged_of i /\ ti_destination i <> previous_of i /\ staged_of i <> previous_of i.
Proof. unfold own. rewrite !NoDup_cons. set_solver. Qed.

(** A rename between two of the item's own paths. *)
Lemma frame_own i p q w w' : p ∈ own i -> q ∈ own i -> frame [p; q] w w' -> frame (own i) w w'.
Proof. intros Hp Hq. apply frame_weaken. intros x Hx. set_solver. Qed.

Lemma move_staged_spec i i1 w r i' w' :
  NoDup (own i) -> paths_set i -> move_staged i (i1, w) = (r, (i', w')) ->
  frame (own i) w w' /\ w_files w' !! previous_of i = w_files w !! previous_of i /\
  ((i' = i1 <| ti_published := true |> /\ w_files w' !! ti_destination i = w_files w !! staged_of i)
   \/ (is_ok r = false /\ i' = i1 /\ w_files w' = w_files w)).
Proof.
  intros (N1 & N2 & N3)%own_distinct [Es _]. unfold move_staged. rewrite Es.
  intros [([] & [j1 w2] & E1 & E)|(e' & E1 & ->)]%se_bind_inv.
  - apply on_files_inv in E1 as [-> [F1 (n & En & E1)]%rename_checked_spec].
    apply se_bind_inv in E as [([] & [j2 w3] & [= <- <-] & E)|(e' & [= ] & _)].
    apply on_files_inv in E as [-> [F2 E2]%fsync_dir_spec]. rewrite E2, E1. split_and!.
    + eapply frame_trans; [|apply frame_nil, F2].
      eapply frame_own; [apply in_own_staged|apply in_own_destination|done].
    + by rewrite lookup_insert_ne, lookup_delete_ne.
    + left. by rewrite lookup_insert_eq, En.
  - apply on_files_inv in E1 as [-> [F1 E1]%rename_checked_spec]. rewrite E1. split_and!; [|done|by right].
    eapply frame_own; [apply in_own_staged|apply in_own_destination|done].
Qed.

Lemma put_back_spec i i1 b e w r i' w' :
  NoDup (own i) -> paths_set i -> put_back i b e (i1, w) = (r, (i', w')) ->
  frame (own i) w w' /\ r = Throw e /\ i' = i1 /\
  (b = false -> w' = w) /\
  (w_files w' !! previous_of i = None \/ w_files w' !! previous_of i = w_files w !! previous_of i).
Proof.
  intros (N1 & N2 & N3)%own_distinct [_ Ep]. unfold put_back. rewrite Ep, se_bind_eq.
  destruct b; cbn; unfold se_throw; intros H; simplify_eq; [|by split_and!; [apply frame_refl|..|right]].
  destruct (undo_rename (previous_of i) (ti_destination i) w) as [F2 E2]; [done|].
  split_and!; try done. eapply frame_own; [apply in_own_previous|apply in_own_destination|done].
Qed.

(** What moving the staged file, or failing to, leaves behind. *)
Lemma publish_move_spec (i i1 : TransactionArtifact) (b : bool) w r i' w' :
  NoDup (own i) -> paths_set i ->
  se_catch (move_staged i) (put_back i b) (i1, w) = (r, (i', w')) ->
  frame (own i) w w' /\
  (i' = i1 <| ti_published := true |>
   \/ (i' = i1 /\ (b = false -> w_files w' !! ti_destination i = w_files w !! ti_destination i))) /\
  (w_files w' !! previous_of i = w_files w !! previous_of i
   \/ (b = true /\ w_files w' !! previous_of i = None)) /\
  (r = Ok tt -> w_files w' !! ti_destination i = w_files w !! staged_of i).
Proof.
  intros Hn Hp. unfold se_catch. destruct (move_staged i (i1, w)) as [rm [j w1]] eqn:E.
  apply move_staged_spec in E as (F1 & E1 & Hm); [|done..]. destruct rm as [[]|e]; intros H.
  - simplify_eq. split_and!; [done| |by left|]; destruct Hm as [[-> Ed]|[? _]]; try done. by left.
  - apply put_back_spec in H as (F2 & -> & -> & Hb & E2); [|done..].
    split_and!; [by eapply frame_trans| | |done].
    + destruct Hm as [[-> _]|(_ & -> & Ew)]; [by left|right]. split; [done|].
      intros ->. by rewrite Hb, Ew.
    + destruct b; [|left; by rewrite Hb]. rewrite <- E1. naive_solver.
Qed.

Lemma publish_over_spec i w r i' w' b :
  NoDup (own i) -> pending i (w_files w) -> b = bool_decide (is_Some (w_files w !! ti_destination i)) ->
  publish_over i b (i, w) = (r, (i', w')) ->
  same_item i i' /\ frame (own i) w w' /\ restorable i' (w_files w')
  /\ (r = Ok tt -> published i' (w_files w')).
Proof.
  intros Hn (Hp & Hh & Hpub & Hd & Hprev & Hst) Hb. pose proof (own_distinct i Hn) as (N1 & N2 & N3).
  pose proof Hp as [Es Ep]. unfold publish_over. rewrite se_bind_eq. cbv beta iota delta [set_item].
  cbn [fst snd]. set (i1 := i <| ti_had_previous := b |>).
  assert (same_item i i1 /\ same_item i (i1 <| ti_published := true |>)) as [S1 S2] by done.
  rewrite se_bind_eq. destruct b.
  - symmetry in Hb. apply bool_decide_eq_true_1 in Hb as [n Hdn].
    destruct (on_files _ _) as [[[]|e] [j w1]] eqn:E;
      apply on_files_inv in E as [-> E]; apply rename_checked_spec in E as [F1 E1]; rewrite Ep in F1; try rewrite Ep in E1;
      apply (frame_own i) in F1; try apply in_own_destination; try apply in_own_previous.
    + destruct E1 as (n' & En & E1). assert (n' = n) as -> by congruence.
      assert (w_files w1 !! previous_of i = base !! ti_destination i) as Hp1
        by (by rewrite E1, lookup_insert_eq, <- Hd).
      assert (w_files w1 !! ti_destination i = None) as Hd1
        by (by rewrite E1, lookup_insert_ne, lookup_delete_eq).
      destruct (ti_operation i) eqn:Eop.
      * intros (F2 & Hi & Hpr & Hok)%publish_move_spec; [|done..].
        assert (same_item i i' /\ ti_had_previous i' = true /\ paths_set i') as (S & Hh' & Hps)
          by (destruct Hi as [->|[-> _]]; done).
        split_and!; [done|by eapply frame_trans| |].
        -- split; [done|]. rewrite Hh'. unfold previous_of. rewrite (same_destination _ _ S).
           fold (previous_of i). rewrite <- Hp1. naive_solver.
        -- intros Hr. unfold published, staged_node. destruct S as [_ -> -> -> ->].
           rewrite Eop, Hok by done. rewrite E1, lookup_insert_ne, lookup_delete_ne by done. by apply Hst.
      * rewrite se_bind_eq. cbn [fst snd]. intros [-> [F2 E2]%fsync_dir_spec]%on_files_inv.
        rewrite E2. split_and!; [done|eapply frame_trans; [exact F1|by apply frame_nil]| |].
        -- split; [done|]. right. exact Hp1.
        -- intros _. unfold published. cbn. by rewrite Eop.
    + intros H. simplify_eq. rewrite E1. split_and!; [done|done| |done].
      split; [done|]. left. done.
  - symmetry in Hb. apply bool_decide_eq_false_1, eq_None_not_Some in Hb.
    cbn [mret SE_ret]. unfold mret, SE_ret. destruct (ti_operation i) eqn:Eop.
    + intros (F2 & Hi & Hpr & Hok)%publish_move_spec; [|done..].
      assert (same_item i i' /\ ti_had_previous i' = false /\ paths_set i') as (S & Hh' & Hps)
        by (destruct Hi as [->|[-> _]]; done).
      split_and!; [done|done| |].
      * split; [done|]. rewrite Hh'. destruct Hi as [->|[-> Hdd]].
        -- cbn. by rewrite Eop, <- Hd.
        -- cbn. rewrite Hpub. cbn. by rewrite Hdd, Hd.
      * intros Hr. unfold published, staged_node. destruct S as [_ -> -> -> ->].
        rewrite Eop, Hok by done. by apply Hst.
    + rewrite se_bind_eq. cbn [fst snd]. intros H. simplify_eq. split_and!; [done|apply frame_refl| |].
      * split; [done|]. cbn. done.
      * intros _. unfold published. cbn. by rewrite Eop.
Qed.

Lemma publish_spec :
  body_spec publish pending (λ r i f, restorable i f /\ (r = Ok tt -> published i f)).
Proof.
  intros i w r i' w' [[_ Hn]%NoDup_cons _] Hpend. unfold publish. intros H.
  apply se_bind_inv in H as [(it & [j w0] & [= <- <- <-] & H)|(e & [=] & _)].
  apply se_bind_inv in H as [([] & [j w1] & E & H)|(e & E & ->)];
    apply on_files_inv in E as [-> (F1 & E1 & Hl)%validate_destination_spec].
  2: { split_and!; [done|by apply frame_nil| |done]. apply pending_restorable. by rewrite E1. }
  specialize (Hl eq_refl). rewrite <- E1 in Hl, Hpend.
  apply se_bind_inv in H as [(b & [j w2] & E & H)|(e & E & ->)];
    apply on_files_inv in E as [-> (F2 & E2 & Hb)%previous_exists_spec]; [|done| |done].
  2: { split_and!; [done|apply frame_nil; by eapply frame_trans| |done].
       apply pending_restorable. by rewrite E2. }
  rewrite <- E2 in Hb, Hpend. apply publish_over_spec in H as (S & F3 & Hr & Hok); [|done..|by apply Hb].
  split_and!; try done. eapply frame_trans; [apply frame_nil; by eapply frame_trans|].
  by apply frame_app_l.
Qed.

(** ** Rolling back one item *)

Lemma remove_for_rollback_spec p op res w ok res' w' :
  remove_for_rollback p op res w = (ok, res', w') ->
  frame [p] w w' /\ (rb_complete res' = true -> res' = res /\ w_files w' !! p = None).
Proof.
  unfold remove_for_rollback. destruct (fs_remove p w) as [[|[]] w1] eqn:E;
    apply fs_remove_spec in E as [F E]; intros H; simplify_eq; by destruct_and?.
Qed.

Lemma rename_for_rollback_spec from to op res w ok res' w' :
  rename_for_rollback from to op res w = (ok, res', w') ->
  frame [from; to] w w' /\
  (rb_complete res' = true -> res' = res /\ is_Some (w_files w !! from)
     /\ (from <> to -> w_files w' !! to = w_files w !! from)).
Proof.
  unfold rename_for_rollback. destruct (fs_rename from to w) as [[e|] w1] eqn:E;
    apply fs_rename_spec in E as [F E]; intros H; simplify_eq; split; try done.
  intros _. destruct E as (n & En & ->). rewrite En. split_and!; [done|by eexists|].
  intros _. by rewrite lookup_insert_eq.
Qed.

Lemma remove_cleanup_spec p op res w res' w' :
  remove_cleanup_for_rollback p op res w = (res', w') ->
  frame [p] w w' /\ (rb_complete res' = true -> res' = res).
Proof.
  unfold remove_cleanup_for_rollback. destruct (fs_remove p w) as [[|b] w1] eqn:E;
    apply fs_remove_spec in E as [F E]; intros H; simplify_eq; by split.
Qed.

Lemma sync_rollback_spec i res w res' w' :
  sync_rollback_directory i res w = (res', w') ->
  frame [] w w' /\ w_files w' = w_files w /\ (rb_complete res' = true -> res' = res).
Proof.
  unfold sync_rollback_directory. destruct (fsync_dir _ w) as [[|] w1] eqn:E;
    apply fsync_dir_spec in E as [F E]; intros H; by simplify_eq.
Qed.

Lemma remove_transaction_files_spec i restored res w res' w' :
  paths_set i -> remove_transaction_files i restored res w = (res', w') ->
  frame [staged_of i; previous_of i] w w' /\ (rb_complete res' = true -> res' = res).
Proof.
  unfold remove_transaction_files. intros [-> ->].
  destruct (remove_cleanup_for_rollback (staged_of i) _ res w) as [res1 w1] eqn:E1.
  apply remove_cleanup_spec in E1 as [F1 C1].
  apply (frame_weaken _ [staged_of i; previous_of i]) in F1; [|set_solver]. case_match; intros H'.
  - apply remove_cleanup_spec in H' as [F2 C2]. split.
    + eapply frame_trans; [exact F1|]. eapply frame_weaken; [|exact F2]. set_solver.
    + intros Hc. rewrite C2 in Hc |- * by done. by apply C1.
  - simplify_eq. by split.
Qed.

Lemma rollback_artifact_spec i res w res' w' :
  NoDup (own i) -> paths_set i -> rollback_artifact i res w = (res', w') ->
  frame (own i) w w' /\
  (rb_complete res' = true -> rb_complete res = true /\
     (restorable i (w_files w) -> w_files w' !! ti_destination i = base !! ti_destination i)).
Proof.
  intros Hn Hp. pose proof (own_distinct i Hn) as (N1 & N2 & N3). pose proof Hp as [Es Ep].
  unfold rollback_artifact, remove_published_artifact, restore_previous_artifact, restorable.
  set (removes := ti_published i && bool_decide (ti_operation i = OpWrite)).
  destruct (if removes then _ else _) as [res1 w1] eqn:E1.
  assert (frame [ti_destination i] w w1 /\ (rb_complete res1 = true -> res1 = res /\
    (removes = true -> w_files w1 !! ti_destination i = None) /\ (removes = false -> w1 = w))) as [F1 C1].
  { destruct removes.
    - destruct (remove_for_rollback _ _ res w) as [[ok res2] w2] eqn:E. simplify_eq.
      apply remove_for_rollback_spec in E as [F C]. naive_solver.
    - simplify_eq. split; [apply frame_refl|done]. }
  clear E1. destruct (if negb (ti_had_previous i) then _ else _) as [[ok res2] w2] eqn:E2.
  assert (frame [previous_of i; ti_destination i] w1 w2 /\ (rb_complete res2 = true -> res2 = res1 /\
    (ti_had_previous i = true -> is_Some (w_files w1 !! previous_of i)
       /\ w_files w2 !! ti_destination i = w_files w1 !! previous_of i) /\
    (ti_had_previous i = false -> w2 = w1))) as [F2 C2].
  { destruct (ti_had_previous i); cbn in E2.
    - rewrite Ep in E2. apply rename_for_rollback_spec in E2 as [F C]. split; [done|]. naive_solver.
    - simplify_eq. split; [apply frame_refl|done]. }
  clear E2. destruct (sync_rollback_directory i res2 w2) as [res3 w3] eqn:E3.
  apply sync_rollback_spec in E3 as (F3 & E3 & C3).
  intros [F4 C4]%remove_transaction_files_spec; [|done].
  assert (w_files w' !! ti_destination i = w_files w2 !! ti_destination i) as Hd.
  { rewrite (frame_files _ _ _ F4) by set_solver. by rewrite E3. }
  assert (w_files w1 !! previous_of i = w_files w !! previous_of i) as Hpv.
  { apply (frame_files _ _ _ F1). set_solver. }
  split.
  - eapply frame_trans; [by eapply frame_weaken; [|exact F1]; unfold own; set_solver|].
    eapply frame_trans; [by eapply frame_weaken; [|exact F2]; unfold own; set_solver|].
    eapply frame_trans; [by apply frame_nil, F3|].
    eapply frame_weaken; [|exact F4]; unfold own; set_solver.
  - intros Hc. rewrite (C4 Hc) in Hc. rewrite (C3 Hc) in Hc. destruct (C2 Hc) as (Ec & Ht & Hf).
    rewrite Ec in Hc. destruct (C1 Hc) as (-> & Hr & Hk). split; [done|]. intros [_ Hres]. rewrite Hd.
    destruct (ti_had_previous i).
    + destruct (Ht eq_refl) as [[n Hn1] ->]. rewrite Hpv in Hn1 |- *. destruct Hres as [Hres|Hres]; congruence.
    + rewrite Hf by done. destruct removes; [by rewrite Hr, Hres|by rewrite Hk].
Qed.

(** ** Rolling back all items *)

Lemma rollback_list_spec items res w res' w' :
  separate items -> Forall paths_set items ->
  foldl (λ '(result, w) item, rollback_artifact item result w) (res, w) items = (res', w') ->
  frame (flat_map own items) w w' /\
  (rb_complete res' = true -> rb_complete res = true /\
     (Forall (λ i, restorable i (w_files w)) items ->
      Forall (λ i, w_files w' !! ti_destination i = base !! ti_destination i) items)).
Proof.
  revert res w. induction items as [|i items IH]; intros res w Hsep Hps H; cbn in H.
  { simplify_eq. split; [apply frame_refl|done]. }
  destruct Hsep as ((Hn & _) & Ha & Hsep). inversion Hps as [|? ? Hp Hps']; subst.
  apply NoDup_cons in Hn as [_ Hn].
  destruct (rollback_artifact i res w) as [res1 w1] eqn:E.
  apply rollback_artifact_spec in E as [F1 C1]; [|done..].
  apply IH in H as [F2 C2]; [|done..].
  split; [by eapply frame_trans; [apply frame_app_l, F1|apply frame_app_r, F2]|].
  intros Hc. destruct (C2 Hc) as [Hc1 D2]. destruct (C1 Hc1) as [Hc0 D1]. split; [done|].
  intros Hall. inversion Hall as [|? ? Hi Hall']; subst. constructor.
  - rewrite <- (D1 Hi). apply (frame_files _ _ _ F2). intros Hin.
    apply list_elem_of_In, in_flat_map in Hin as (j & Hj & Hq). apply list_elem_of_In in Hj, Hq.
    rewrite Forall_forall in Ha. destruct (Ha j Hj) as [_ A]. unfold apart in A.
    rewrite Forall_forall in A. apply (A (ti_destination i)); [apply in_own_destination|].
    unfold footprint. by apply elem_of_app; left.
  - apply D2. rewrite Forall_forall in Hall', Ha |- *. intros j Hj.
    eapply local_frame; [apply restorable_local|apply (Ha j Hj)|by apply frame_app_l|by apply Hall'].
Qed.

Lemma separate_rev items : separate items -> separate (rev items).
Proof.
  assert (forall l1 l2, separate l1 -> separate l2 -> Forall (λ i, Forall (λ j, apart i j /\ apart j i) l2) l1 ->
    separate (l1 ++ l2)) as Happ.
  { induction l1 as [|i l1 IH]; [done|]. intros l2 (Hc & Ha & Hs) H2 H. inversion H; subst. cbn.
    split_and!; [done|rewrite Forall_app; by split|by apply IH]. }
  induction items as [|i items IH]; [done|]. intros (Hc & Ha & Hs). cbn. apply Happ; [by apply IH|by split_and!; [done|constructor|done]|].
  rewrite Forall_forall in Ha |- *. intros j Hj. constructor; [|done].
  rewrite list_elem_of_In, <- in_rev, <- list_elem_of_In in Hj. by destruct (Ha j Hj).
Qed.

Lemma rollback_spec items w res' w' :
  separate items -> Forall paths_set items -> rollback items w = (res', w') ->
  frame (flat_map own items) w w' /\
  (rb_complete res' = true -> Forall (λ i, restorable i (w_files w)) items ->
   Forall (λ i, w_files w' !! ti_destination i = base !! ti_destination i) items).
Proof.
  intros Hsep Hps H. unfold rollback in H.
  apply rollback_list_spec in H as [F C]; [|by apply separate_rev|].
  - split.
    + eapply frame_weaken; [|exact F]. intros q Hq. apply list_elem_of_In in Hq.
      apply list_elem_of_In. apply in_flat_map in Hq as (i & Hi & Hq). apply in_flat_map.
      exists i. by rewrite in_rev.
    + intros Hc Hall. apply C in Hc as [_ Hc]. rewrite <- (rev_involutive items).
      apply List.Forall_rev, Hc, List.Forall_rev, Hall.
  - by apply List.Forall_rev.
Qed.

(** ** Removing what was staged *)

Lemma finish_frame items w : frame (flat_map (λ i, [ti_staged i; ti_previous i]) items) w (finish items w).
Proof.
  revert w. induction items as [|i items IH]; intros w; [apply frame_refl|].
  change (finish (i :: items) w) with
    (finish items (remove_if_present (ti_previous i) (remove_if_present (ti_staged i) w))).
  assert (forall p w1, frame [p] w1 (remove_if_present p w1)) as Hr.
  { intros p w1. unfold remove_if_present. destruct (fs_remove p w1) eqn:E.
    by apply fs_remove_spec in E as [F _]. }
  cbn [flat_map]. eapply frame_trans; [apply frame_app_l|apply frame_app_r, IH].
  eapply frame_trans; (eapply frame_weaken; [|apply Hr]); set_solver.
Qed.

(** The paths that an item has for its staged and previous file: its own, or none yet. *)
Definition paths_known (i : TransactionArtifact) : Prop :=
  paths_set i \/ (ti_staged i = "" /\ ti_previous i = "").

Lemma finish_destinations items w :
  separate items -> Forall paths_known items ->
  Forall (λ i, w_files (finish items w) !! ti_destination i = w_files w !! ti_destination i) items.
Proof.
  intros Hsep Hk. rewrite Forall_forall. intros i Hi. apply (frame_files _ _ _ (finish_frame items w)).
  intros Hin. apply list_elem_of_In, in_flat_map in Hin as (j & Hj & Hq). apply list_elem_of_In in Hj, Hq.
  rewrite Forall_forall in Hk.
  assert (clean i /\ clean j /\ (i = j \/ (apart i j /\ apart j i))) as (Ci & Cj & Hij).
  { clear -Hsep Hi Hj. induction items as [|k items IH]; [by apply elem_of_nil in Hi|].
    destruct Hsep as (Hc & Ha & Hs). rewrite Forall_forall in Ha.
    assert (forall l, l ∈ items -> clean l) as Hcl.
    { clear -Hs. induction items as [|m items IHm]; [by intros l Hl%elem_of_nil|].
      destruct Hs as (Hm & _ & Hs). intros l [->|Hl]%elem_of_cons; [done|by apply IHm]. }
    apply elem_of_cons in Hi as [->|Hi], Hj as [->|Hj].
    - split_and!; try done. by left.
    - split_and!; [done|by apply Hcl|]. right. apply Ha, Hj.
    - split_and!; [by apply Hcl|done|]. right. by apply and_comm, Ha.
    - by apply IH. }
  destruct Ci as [[Hni Hdi]%NoDup_cons _].
  pose proof (in_own_destination i) as Hdo.
  assert (ti_destination i <> "") as Hne by (intros E; rewrite E in Hdo; done).
  destruct (Hk j Hj) as [[Es Ep]|[Es Ep]]; rewrite Es, Ep in Hq; [|set_solver].
  destruct Hij as [->|[A _]].
  - apply own_distinct in Hdi. set_solver.
  - unfold apart in A. rewrite Forall_forall in A.
    pose proof (A _ (in_own_staged j)) as A1. pose proof (A _ (in_own_previous j)) as A2.
    assert (ti_destination i ∈ footprint i) by (unfold footprint; apply elem_of_app; by left).
    assert (ti_destination i = staged_of j \/ ti_destination i = previous_of j) as [E|E] by set_solver;
      rewrite E in *; done.
Qed.

(** ** Staging *)

(** Not staged: no path chosen yet, and no file of this generation. *)
Definition unstaged (i : TransactionArtifact) (f : Files) : Prop :=
  ti_staged i = "" /\ ti_previous i = "" /\ ti_had_previous i = false /\ ti_published i = false
  /\ f !! ti_destination i = base !! ti_destination i /\ f !! previous_of i = None.

Lemma unstaged_local : local unstaged.
Proof.
  intros i f f' Hf (? & ? & ? & ? & Hd & Hp). split_and!; try done.
  - by rewrite (Hf _ (in_own_destination i)).
  - by rewrite (Hf _ (in_own_previous i)).
Qed.

Definition staging (r : res unit) (i : TransactionArtifact) (f : Files) : Prop :=
  paths_known i /\ f !! ti_destination i = base !! ti_destination i /\ (r = Ok tt -> pending i f).

Lemma staging_local r : local (staging r).
Proof.
  intros i f f' Hf (? & Hd & Hp). split_and!; try done.
  - by rewrite (Hf _ (in_own_destination i)).
  - intros Hr. eapply pending_local; [exact Hf|]. by apply Hp.
Qed.

Lemma remove_if_present_spec p w :
  frame [p] w (remove_if_present p w)
  /\ (w_files w !! p = None -> w_files (remove_if_present p w) !! p = None).
Proof.
  unfold remove_if_present. destruct (fs_remove p w) as [[|[]] w1] eqn:E;
    apply fs_remove_spec in E as [F E]; cbn; split; try done; try by rewrite E.
  - by destruct E.
  - by destruct E as [_ ->].
Qed.

Lemma stage_item_spec : body_spec (stage_item euid generation) unstaged staging.
Proof.
  intros i w r i' w' Hclean (Es & Ep & Hh & Hpub & Hd & Hprev) H. unfold stage_item in H.
  destruct Hclean as [[_ Hn]%NoDup_cons Hdir]. pose proof (own_distinct i Hn) as (N1 & N2 & N3).
  apply se_bind_inv in H as [(it & [j w0] & [= <- <- <-] & H)|(e & [=] & _)].
  apply se_bind_inv in H as [([] & [j w1] & E & H)|(e & E & ->)];
    apply on_files_inv in E as [-> (F1 & E1 & _)%validate_destination_spec].
  2: { split_and!; [done|by apply frame_nil|]. split_and!; [by right|by rewrite E1|done]. }
  apply se_bind_inv in H as [([] & [j w2] & [= <- <-] & H)|(e & [=] & _)].
  apply se_bind_inv in H as [([] & [j w2] & [= <- <-] & H)|(e & [=] & _)].
  apply se_bind_inv in H as [([] & [j w2] & [= <- <-] & H)|(e & [=] & _)].
  fold (staged_of i) (previous_of i) in H. rewrite <- E1 in Hd, Hprev.
  set (i1 := (i <| ti_staged := staged_of i |>) <| ti_previous := previous_of i |>) in *.
  destruct (remove_if_present_spec (staged_of i) w1) as [F2 _].
  destruct (remove_if_present_spec (previous_of i) (remove_if_present (staged_of i) w1)) as [F3 P3].
  set (w3 := remove_if_present (previous_of i) (remove_if_present (staged_of i) w1)) in *.
  assert (frame (own i) w w3) as F.
  { eapply frame_trans; [apply frame_nil, F1|].
    eapply frame_trans; (eapply frame_weaken; [|eassumption]); unfold own; set_solver. }
  assert (w_files w3 !! ti_destination i = base !! ti_destination i) as Hd3.
  { rewrite (frame_files _ _ _ F3), (frame_files _ _ _ F2); [done|set_solver..]. }
  assert (w_files w3 !! previous_of i = None) as Hp3.
  { apply P3. rewrite (frame_files _ _ _ F2); [done|set_solver]. }
  assert (same_item i i1) as S by done. assert (paths_set i1) as Hps by done.
  destruct (ti_operation i) eqn:Eop.
  - apply on_files_inv in H as [-> [F4 Hw]%atomic_write_spec].
    assert (w_files w' !! ti_destination i = w_files w3 !! ti_destination i
            /\ w_files w' !! previous_of i = w_files w3 !! previous_of i) as [Ed Epv].
    { rewrite Forall_forall in Hdir. split; apply (frame_files _ _ _ F4).
      - pose proof (Hdir _ (in_own_destination i)). unfold directories in *. set_solver.
      - pose proof (Hdir _ (in_own_previous i)). unfold directories in *. set_solver. }
    split_and!; [done| |].
    + eapply frame_trans; [by apply frame_app_l, F|]. eapply frame_weaken; [|exact F4].
      unfold footprint, directories. pose proof (in_own_staged i). set_solver.
    + rewrite Hd3 in Ed. rewrite Hp3 in Epv. split_and!; [by left|done|]. intros ->. split_and!; try done.
      * intros _. unfold staged_node. apply Hw; [done|]. rewrite Forall_forall in Hdir.
        apply (Hdir _ (in_own_staged i)).
  - injection H as <- <- <-. split_and!; [done|by apply frame_app_l, F|].
    split_and!; [by left|done|]. intros _. by split_and!.
Qed.

End guarantees.

(** ** The whole transaction *)

(** A check that changes no file. *)
Definition reads {A} (m : SE World A) : Prop := forall w r w', m w = (r, w') -> frame [] w w'.

Section composed.
Context (euid : Z) (plan : TransactionPlan).

Definition plan_items : list TransactionArtifact := transaction_items (tp_artifacts plan).

(** What a transaction is started with: items whose files are apart, one of them the public
    marker, under a generation that no file has yet and no other process uses, and checks that
    only read. *)
Record plan_ok (w : World) : Prop := mkPlanOk {
  ok_separate : separate (tp_generation plan) plan_items;
  ok_public : exists i, List.filter (is_kind PublicProfile) plan_items = [i];
  ok_fresh : Forall (λ i, w_files w !! previous_of (tp_generation plan) i = None) plan_items;
  ok_meanwhile : forall f i q, i ∈ plan_items ->
    q ∈ [staged_of (tp_generation plan) i; previous_of (tp_generation plan) i] ->
    w_meanwhile w f !! q = f !! q;
  ok_locked : w_locked w = None;
  ok_validate : forall items, reads (tp_validate plan items);
  ok_recheck : reads (tp_recheck plan);
}.

Lemma frame_nil_files w w' : frame [] w w' -> w_files w' = w_files w.
Proof. intros F. apply map_eq. intros q. apply (frame_files _ _ _ F). apply not_elem_of_nil. Qed.

Lemma Forall2_right {A B} (P : A -> B -> Prop) (R : B -> Prop) l k :
  Forall2 P l k -> (forall a b, P a b -> R b) -> Forall R k.
Proof. induction 1; eauto. Qed.

Lemma stage_outcome w r items w1 :
  plan_ok w -> stage euid (tp_generation plan) (plan_items, w) = (r, (items, w1)) ->
  Forall2 same_item plan_items items
  /\ Forall (λ i, paths_known (tp_generation plan) i
                  /\ w_files w1 !! ti_destination i = w_files w !! ti_destination i) items
  /\ (r = Ok tt -> Forall (λ i, pending (tp_generation plan) euid (w_files w) i (w_files w1)) items)
  /\ w_meanwhile w1 = w_meanwhile w /\ w_locked w1 = w_locked w /\ w_active w1 = w_active w.
Proof.
  intros Hok H. unfold stage in H. cbn [fst snd] in H.
  eapply (for_items_spec (tp_generation plan) (λ _, true) _ _ _
    (stage_item_spec (tp_generation plan) euid (w_files w))
    (unstaged_local (tp_generation plan) (w_files w))
    (staging_local (tp_generation plan) euid (w_files w))) in H as [Hall F];
    [|apply Hok|].
  - split_and!; try apply F.
    + eapply Forall2_impl; [exact Hall|]. by intros i j [S _].
    + eapply Forall2_right; [exact Hall|]. intros i j [S Ho]. cbn in Ho.
      destruct r as [[]|e]; [by destruct Ho as (Hk & Hd & _)|].
      destruct Ho as [[-> (Es & Ep & _ & _ & Hd & _)]|(r' & Hk & Hd & _)]; [|done].
      split; [by right|done].
    + intros ->. eapply Forall2_right; [exact Hall|]. intros i j [S Ho]. cbn in Ho. by apply Ho.
  - pose proof (ok_fresh _ Hok) as Hf. unfold plan_items, transaction_items in Hf |- *.
    rewrite Forall_fmap in Hf. rewrite Forall_fmap. eapply Forall_impl; [exact Hf|].
    intros a Ha. by split_and!.
Qed.

(** Up to the lock: the destinations are those at the moment of the lock, or as at the start. *)
Lemma prepare_commit_outcome w r items w1 :
  plan_ok w -> prepare_commit euid plan (plan_items, w) = (r, (items, w1)) ->
  Forall2 same_item plan_items items /\ Forall (paths_known (tp_generation plan)) items
  /\ w_active w1 = w_active w
  /\ match r with
     | Ok _ => w_locked w1 = Some (w_files w1)
         /\ Forall (λ i, pending (tp_generation plan) euid (w_files w1) i (w_files w1)) items
     | Throw _ => Forall (λ i, w_files w1 !! ti_destination i
                    = default (w_files w) (w_locked w1) !! ti_destination i) items
     end.
Proof.
  intros Hok H. unfold prepare_commit in H.
  apply se_bind_inv in H as [([] & [items1 w2] & E & H)|(e & E & ->)];
    apply stage_outcome in E as (Hs & Hk & Hp & Em & El & Ea); [|done| |done];
    rewrite (ok_locked _ Hok) in El.
  2: { split_and!; [done|by eapply Forall_impl; [exact Hk|]; intros ? [? _]|done|].
       rewrite El. cbn. eapply Forall_impl; [exact Hk|]. by intros ? [_ ?]. }
  specialize (Hp eq_refl).
  assert (Forall (paths_known (tp_generation plan)) items1
    /\ Forall (λ i, w_files w2 !! ti_destination i = w_files w !! ti_destination i) items1) as [Hk1 Hd]
    by (by apply Forall_and in Hk).
  apply se_bind_inv in H as [([] & [items2 w3] & E & H)|(e & E & ->)];
    apply on_files_inv in E as [-> F3%(ok_validate _ Hok)]; cbn [fst snd] in F3;
    pose proof (frame_nil_files _ _ F3) as E3; rewrite <- E3 in Hd, Hp;
    pose proof (frame_locked _ _ _ F3) as L3; pose proof (frame_active _ _ _ F3) as A3;
    pose proof (frame_meanwhile _ _ _ F3) as M3; rewrite El in L3; rewrite Ea in A3; rewrite Em in M3.
  2: { split_and!; try done. by rewrite L3. }
  clear E3 F3 Hk El Ea Em.
  apply se_bind_inv in H as [(acquired & [items2 w4] & E & H)|(e & E & ->)];
    apply on_files_inv in E as [-> E]; unfold try_acquire in E; call_step E;
    rewrite <- Ef in Hd, Hp;
    pose proof (frame_locked _ _ _ F) as L4; pose proof (frame_active _ _ _ F) as A4;
    pose proof (frame_meanwhile _ _ _ F) as M4; rewrite L3 in L4; rewrite A3 in A4; rewrite M3 in M4.
  2: { destruct fault; [|by case_match]. simplify_eq. split_and!; try done. by rewrite L4. }
  destruct fault; [done|]. destruct (w_busy w0) eqn:Eb.
  { simplify_eq. apply se_bind_inv in H as [([] & [items2 w5] & [=] & _)|(e & [= <- <- <-] & ->)].
    split_and!; try done. by rewrite L4. }
  simplify_eq. apply se_bind_inv in H as [([] & [items2 w5] & [= <- <-] & H)|(e & [=] & _)].
  set (locked := w_meanwhile w0 (w_files w0)) in *.
  set (w6 := (w0 <| w_files := locked |>) <| w_meanwhile := λ f, f |> <| w_locked := Some locked |>) in *.
  apply on_files_inv in H as [-> F6%(ok_recheck _ Hok)].
  pose proof (frame_nil_files _ _ F6) as E6. cbn in E6.
  pose proof (frame_locked _ _ _ F6) as L6. cbn in L6.
  pose proof (frame_active _ _ _ F6) as A6. cbn in A6. rewrite A4 in A6.
  split_and!; try done. rewrite L6. destruct r as [[]|e].
  - rewrite E6. split; [done|]. rewrite Forall_forall in Hp |- *. intros i Hi.
    assert (exists j, j ∈ plan_items /\ same_item j i) as (j & Hj & S).
    { clear -Hs Hi. induction Hs as [|a b l k S _ IH]; [by apply elem_of_nil in Hi|].
      apply elem_of_cons in Hi as [->|Hi]; [exists a; set_solver|].
      destruct (IH Hi) as (j & Hj & Sj). exists j. set_solver. }
    assert (forall q, q ∈ [staged_of (tp_generation plan) i; previous_of (tp_generation plan) i] ->
      locked !! q = w_files w0 !! q) as Hm.
    { intros q Hq. unfold locked. rewrite M4. apply (ok_meanwhile _ Hok _ j); [done|].
      unfold staged_of, previous_of in *. by rewrite <- (same_destination _ _ S). }
    destruct (Hp i Hi) as (? & ? & ? & _ & Hpr & Hst). split_and!; try done.
    + by rewrite Hm by set_solver.
    + by rewrite Hm by set_solver.
  - cbn. rewrite E6. by rewrite Forall_forall.
Qed.

(** ** Publishing and rolling back *)

(** The items with where they come from, all staged. *)
Definition ready (base : Files) (items : list TransactionArtifact) (w : World) : Prop :=
  separate (tp_generation plan) items
  /\ Forall (λ i, pending (tp_generation plan) euid base i (w_files w)) items.

Lemma restorable_paths base i f : restorable (tp_generation plan) base i f -> paths_set (tp_generation plan) i.
Proof. by intros [? _]. Qed.

(** After a failure: a rollback that is complete restores every destination, and what is active
    then is what is there. *)
Lemma roll_back_commit_outcome base (attempted : bool) e items w r items' w' :
  separate (tp_generation plan) items ->
  Forall (λ i, restorable (tp_generation plan) base i (w_files w)) items ->
  roll_back_commit plan attempted e (items, w) = (r, (items', w')) ->
  w_locked w' = w_locked w /\ exists (complete : bool) message,
    r = Throw (CodedValidationError
          (if complete then ConfigurationSaveFailed else ConfigurationRollbackIncomplete) message)
    /\ (complete = true ->
         Forall (λ i, w_files w' !! ti_destination i = base !! ti_destination i) items
         /\ w_active w' = (if attempted then Some (w_files w') else w_active w)).
Proof.
  intros Hsep Hr H. unfold roll_back_commit in H. cbn [fst snd] in H.
  destruct (rollback items w) as [res w1] eqn:E.
  destruct (rollback_spec (tp_generation plan) base items w res w1) as [F C]; [done| |exact E|].
  { eapply Forall_impl; [exact Hr|]. intros i. apply restorable_paths. }
  pose proof (frame_locked _ _ _ F) as L. pose proof (frame_active _ _ _ F) as A.
  destruct attempted.
  - unfold activate in H. call_step H. destruct fault; simplify_eq.
    + split; [by rewrite <- L; apply (frame_locked _ _ _ F0)|]. exists false. eexists. by split.
    + split; [cbn; by rewrite <- L; apply (frame_locked _ _ _ F0)|]. exists (rb_complete res). eexists.
      split; [reflexivity|]. cbn. rewrite Ef. intros Hc. split; [by apply C|done].
  - simplify_eq. split; [done|]. exists (rb_complete res). eexists. split; [reflexivity|].
    intros Hc. split; [by apply C|done].
Qed.

Lemma publish_configuration_outcome base items w r items' w' :
  ready base items w -> publish_configuration (items, w) = (r, (items', w')) ->
  Forall2 (λ i i', same_item i i'
    /\ restorable (tp_generation plan) base i' (w_files w')
    /\ (is_kind PublicProfile i = true -> i' = i /\ pending (tp_generation plan) euid base i (w_files w'))
    /\ (r = Ok tt -> is_kind PublicProfile i = false -> published euid i' (w_files w'))) items items'
  /\ w_locked w' = w_locked w /\ w_active w' = w_active w.
Proof.
  intros [Hsep Hp] H. unfold publish_configuration in H. cbn [fst snd] in H.
  assert (forall r0, local (tp_generation plan)
    (λ i f, restorable (tp_generation plan) base i f /\ (r0 = Ok tt -> published euid i f))) as HQ.
  { intros r0 i f f' Hf [H1 H2]. split.
    - by eapply restorable_local.
    - intros Hr. eapply published_local; [exact Hf|by apply H2]. }
  eapply (for_items_spec (tp_generation plan) _ _ _ _ (publish_spec _ euid base)
    (pending_local _ euid base) HQ) in H as [Hall F]; [|done..].
  split_and!; [|apply F..]. eapply Forall2_impl; [exact Hall|]. clear Hall.
  intros i i' [S Ho]. destruct (is_kind PublicProfile i); cbn in Ho.
  - destruct Ho as [-> Hpi]. split_and!; try done. by apply pending_restorable in Hpi.
  - destruct r as [[]|e].
    + destruct Ho as [Hr Hpu]. split_and!; try done. intros _ _. by apply Hpu.
    + destruct Ho as [[-> Hpi]|(r' & Hr & _)]; split_and!; try done. by apply pending_restorable in Hpi.
Qed.

Lemma on_artifact_split kind body l1 i l2 w :
  Forall (λ j, is_kind kind j = false) l1 -> is_kind kind i = true ->
  on_artifact kind body (l1 ++ i :: l2) w
  = let '(r, (i', w')) := body (i, w) in (r, (l1 ++ i' :: l2, w')).
Proof.
  intros Hl Hi. induction l1 as [|j l1 IH]; cbn; [by rewrite Hi|].
  inversion Hl as [|? ? Hj Hl']; subst. rewrite Hj, IH by done. by destruct (body (i, w)) as [? []].
Qed.

Lemma one_split (p : TransactionArtifact -> bool) items :
  (exists i, List.filter p items = [i]) ->
  exists l1 i l2, items = l1 ++ i :: l2 /\ Forall (λ j, p j = false) l1 /\ p i = true
    /\ Forall (λ j, p j = false) l2.
Proof.
  induction items as [|j items IH]; intros [i Hi]; [done|]. cbn in Hi. destruct (p j) eqn:Ej.
  - injection Hi as -> Hi. exists [], i, items. split_and!; try done.
    rewrite Forall_forall. intros k Hk. destruct (p k) eqn:Ek; [|done].
    assert (k ∈ List.filter p items) as Hin by (by rewrite list_elem_of_In, List.filter_In, <- list_elem_of_In).
    rewrite Hi in Hin. by apply elem_of_nil in Hin.
  - destruct (IH (ex_intro _ i Hi)) as (l1 & k & l2 & -> & H1 & Hk & H2).
    exists (j :: l1), k, l2. split_and!; try done. by constructor.
Qed.

Lemma separate_middle g l1 i l2 :
  separate g (l1 ++ i :: l2) -> clean g i /\ Forall (λ k, apart g i k) (l1 ++ l2).
Proof.
  induction l1 as [|j l1 IH]; cbn.
  - intros (Hc & Ha & _). split; [done|]. eapply Forall_impl; [exact Ha|]. by intros k [? _].
  - intros (_ & Ha & Hs). destruct (IH Hs) as [Hc Hk]. split; [done|]. constructor; [|done].
    rewrite Forall_forall in Ha. destruct (Ha i) as [_ ?]; [set_solver|done].
Qed.

Lemma published_same i j f : same_item i j -> published euid j f -> published euid i f.
Proof. intros [_ Ed Ec Ep Eo]. unfold published, staged_node. by rewrite Ed, Ec, Ep, Eo. Qed.

(** The public marker, the last file: the others stay as they are. *)
Lemma publish_marker_outcome base l1 i l2 w r items' w' :
  separate (tp_generation plan) (l1 ++ i :: l2) ->
  Forall (λ j, is_kind PublicProfile j = false) l1 -> is_kind PublicProfile i = true ->
  Forall (λ j, restorable (tp_generation plan) base j (w_files w)) (l1 ++ l2) ->
  pending (tp_generation plan) euid base i (w_files w) ->
  publish_public_marker (l1 ++ i :: l2, w) = (r, (items', w')) ->
  exists i', items' = l1 ++ i' :: l2 /\ same_item i i'
    /\ Forall (λ j, restorable (tp_generation plan) base j (w_files w')) items'
    /\ (r = Ok tt -> published euid i' (w_files w'))
    /\ (forall j, j ∈ l1 ++ l2 -> published euid j (w_files w) -> published euid j (w_files w'))
    /\ w_locked w' = w_locked w /\ w_active w' = w_active w.
Proof.
  intros [Hc Hap]%separate_middle Hl Hi Hr Hp H. unfold publish_public_marker in H. cbn [fst snd] in H.
  rewrite on_artifact_split in H by done. destruct (publish (i, w)) as [r1 [i' w1]] eqn:E. simplify_eq.
  apply (publish_spec (tp_generation plan) euid base) in E as (S & F & Hri & Hpu); [|done..].
  exists i'. rewrite Forall_forall in Hap.
  assert (forall (P : TransactionArtifact -> Files -> Prop) j, local (tp_generation plan) P ->
    j ∈ l1 ++ l2 -> P j (w_files w) -> P j (w_files w')) as Hkeep.
  { intros P j HP Hj. eapply local_frame; [done|by apply Hap|done]. }
  split_and!; try done; try apply F.
  - assert (Forall (λ j, restorable (tp_generation plan) base j (w_files w')) (l1 ++ l2)) as Hr'.
    { rewrite Forall_forall in Hr |- *. intros j Hj. apply Hkeep; [apply restorable_local|done|by apply Hr]. }
    rewrite Forall_app in Hr' |- *. rewrite Forall_cons. naive_solver.
  - intros j Hj. apply Hkeep; [apply published_local|done].
Qed.

Lemma published_all l k f :
  Forall2 same_item l k -> Forall (λ j, published euid j f) k -> Forall (λ i, published euid i f) l.
Proof.
  induction 1 as [|a b l k S _ IH]; [done|]. intros Hk. inversion Hk; subst.
  constructor; [by eapply published_same|by apply IH].
Qed.

Lemma filter_same kind l k :
  Forall2 same_item l k -> (exists i, List.filter (is_kind kind) l = [i]) ->
  exists j, List.filter (is_kind kind) k = [j].
Proof.
  intros Hlk. enough (Forall2 same_item (List.filter (is_kind kind) l) (List.filter (is_kind kind) k)) as Hf.
  { intros [i Hi]. rewrite Hi in Hf. inversion Hf as [|? j ? ? ? Hn]; subst. inversion Hn; subst. by exists j. }
  induction Hlk as [|a b l k S _ IH]; [constructor|]. cbn [List.filter].
  assert (is_kind kind b = is_kind kind a) as -> by (unfold is_kind; by rewrite (same_kind _ _ S)).
  case_match; [by constructor|done].
Qed.

Definition committed (items : list TransactionArtifact) (w w' : World) : Prop :=
  Forall (λ i, published euid i (w_files w')) items
  /\ exists f, w_active w' = Some f
       /\ Forall (λ i, is_kind PublicProfile i = false -> published euid i f) items.

Definition rolled_back (base : Files) (items : list TransactionArtifact) (w w' : World) : Prop :=
  Forall (λ i, w_files w' !! ti_destination i = base !! ti_destination i) items
  /\ (w_active w' = w_active w \/ w_active w' = Some (w_files w')).

Lemma destinations_same (f g : Files) items items' :
  Forall2 same_item items items' ->
  Forall (λ i, f !! ti_destination i = g !! ti_destination i) items' ->
  Forall (λ i, f !! ti_destination i = g !! ti_destination i) items.
Proof.
  induction 1 as [|i j l k [_ E _ _ _] _ IH]; [done|]. intros Hf. inversion Hf; subst.
  rewrite E in *. constructor; [done|by apply IH].
Qed.

(** A failure while publishing, from items that are all restorable. *)
Lemma commit_failure base attempted e items items1 w w1 r items' w' :
  Forall2 same_item items items1 -> separate (tp_generation plan) items ->
  Forall (λ i, restorable (tp_generation plan) base i (w_files w1)) items1 ->
  w_locked w1 = w_locked w -> (attempted = false -> w_active w1 = w_active w) ->
  roll_back_commit plan attempted e (items1, w1) = (r, (items', w')) ->
  w_locked w' = w_locked w /\ exists (complete : bool) message,
    r = Throw (CodedValidationError
          (if complete then ConfigurationSaveFailed else ConfigurationRollbackIncomplete) message)
    /\ (complete = true -> rolled_back base items w w').
Proof.
  intros Hs Hsep Hr El Ea H. apply (roll_back_commit_outcome base) in H as (L & complete & m & -> & Hc);
    [|by eapply separate_same|done].
  split; [congruence|]. exists complete, m. split; [done|]. intros Hcc.
  destruct (Hc Hcc) as [Hd Ha]. split; [by eapply destinations_same|].
  destruct attempted; [by right|left; rewrite Ha; by apply Ea].
Qed.

Lemma commit_outcome base items w r items' w' :
  ready base items w -> (exists i, List.filter (is_kind PublicProfile) items = [i]) ->
  commit plan (items, w) = (r, (items', w')) ->
  w_locked w' = w_locked w /\
  ((r = Ok tt /\ committed items w w')
   \/ exists (complete : bool) message,
        r = Throw (CodedValidationError
              (if complete then ConfigurationSaveFailed else ConfigurationRollbackIncomplete) message)
        /\ (complete = true -> rolled_back base items w w')).
Proof.
  intros Hready Hone H. pose proof Hready as [Hsep _]. unfold commit in H.
  destruct (publish_configuration (items, w)) as [r1 [items1 w1]] eqn:E1.
  apply (publish_configuration_outcome base) in E1 as (Hall & L1 & A1); [|done].
  assert (Forall2 same_item items items1) as Hs1
    by (eapply Forall2_impl; [exact Hall|]; by intros ? ? [? _]).
  assert (Forall (λ i, restorable (tp_generation plan) base i (w_files w1)) items1) as Hr1
    by (eapply Forall2_right; [exact Hall|]; by intros ? ? (_ & ? & _)).
  destruct r1 as [[]|e1].
  2: { eapply commit_failure in H as [L H]; [|done..]. split; [done|by right]. }
  destruct (one_split _ _ Hone) as (l1 & i & l2 & -> & Hl1 & Hi & Hl2).
  apply Forall2_app_inv_l in Hall as (k1 & kr & Hk1 & Hkr & ->).
  inversion Hkr as [|? j ? k2 Hj Hk2]; subst. destruct Hj as (_ & _ & Hpub & _).
  destruct (Hpub Hi) as [-> Hpend]. clear Hpub Hkr.
  assert (forall l k, Forall2 (λ i i', same_item i i'
      /\ restorable (tp_generation plan) base i' (w_files w1)
      /\ (is_kind PublicProfile i = true -> i' = i /\ pending (tp_generation plan) euid base i (w_files w1))
      /\ (Ok tt = Ok tt -> is_kind PublicProfile i = false -> published euid i' (w_files w1))) l k ->
    Forall (λ j, is_kind PublicProfile j = false) l ->
    Forall (λ j, published euid j (w_files w1)) k) as Hpubs.
  { intros l k Hlk Hl. clear -Hlk Hl. induction Hlk as [|a b l k (S & _ & _ & Hp) _ IH]; [done|].
    inversion Hl; subst. constructor; [by apply Hp|by apply IH]. }
  assert (Forall (λ j, published euid j (w_files w1)) (k1 ++ k2)) as Hpk
    by (apply Forall_app; split; by eapply Hpubs). clear Hpubs.
  assert (Forall (λ j, is_kind PublicProfile j = false) k1) as Hk1f.
  { clear -Hk1 Hl1. induction Hk1 as [|a b l k (S & _) _ IH]; [done|]. inversion Hl1; subst.
    constructor; [|by apply IH]. unfold is_kind in *. by rewrite (same_kind _ _ S). }
  assert (separate (tp_generation plan) (k1 ++ i :: k2)) as Hsep1 by (by eapply separate_same).
  destruct ((_ ← on_files activate; publish_public_marker) (k1 ++ i :: k2, w1)) as [r2 [items2 w2]] eqn:E2.
  apply se_bind_inv in E2 as [([] & [items3 w3] & E & E2)|(e & E & ->)];
    apply on_files_inv in E as [-> E]; unfold activate in E; call_step E;
    pose proof (frame_locked _ _ _ F) as L2; pose proof (frame_active _ _ _ F) as A2.
  2: { destruct fault; simplify_eq. eapply commit_failure in H as [L H];
         [split; [exact L|by right]|done|done|by rewrite Ef|congruence|done]. }
  destruct fault; simplify_eq. set (w3 := w0 <| w_active := Some (w_files w0) |>) in *.
  assert (w_files w3 = w_files w1) as Ef3 by done.
  rewrite <- Ef3 in Hpend, Hr1, Hpk.
  apply (publish_marker_outcome base) in E2 as (i' & -> & S & Hr2 & Hpi & Hkeep & L3 & A3); [|done..| |done].
  2: { rewrite Forall_app in Hr1 |- *. rewrite Forall_cons in Hr1. naive_solver. }
  change (w_locked w3) with (w_locked w0) in L3.
  change (w_active w3) with (Some (w_files w0)) in A3.
  assert (Forall2 same_item (l1 ++ i :: l2) (k1 ++ i' :: k2)) as Hs2.
  { apply Forall2_app; [|constructor; [done|]]; eapply Forall2_impl; try eassumption; by intros ? ? [? _]. }
  destruct r2 as [[]|e2].
  2: { eapply commit_failure in H as [L H]; [split; [exact L|by right]|done|done|done|congruence|done]. }
  injection H as <- <- <-. cbn [fst snd].
  assert (frame (flat_map (λ i, [ti_staged i; ti_previous i]) (k1 ++ i' :: k2)) w2
    (finish (k1 ++ i' :: k2) w2)) as F2 by apply finish_frame.
  split; [rewrite (frame_locked _ _ _ F2); congruence|]. left. split; [done|].
  assert (separate (tp_generation plan) (k1 ++ i' :: k2)) as Hsep2 by (by eapply separate_same).
  assert (Forall (paths_known (tp_generation plan)) (k1 ++ i' :: k2)) as Hkn.
  { eapply Forall_impl; [exact Hr2|]. intros k Hk%restorable_paths. by left. }
  pose proof (finish_destinations (tp_generation plan) (k1 ++ i' :: k2) w2 Hsep2 Hkn) as Hfin.
  assert (Forall (λ j, published euid j (w_files w2)) (k1 ++ i' :: k2)) as Hp2.
  { rewrite Forall_forall in Hpk. rewrite Forall_app, Forall_cons, !Forall_forall.
    split_and!; [|by apply Hpi|]; intros j Hj; (apply Hkeep; [|apply Hpk]); apply elem_of_app; auto. }
  split.
  - apply (published_all _ _ _ Hs2). rewrite Forall_forall in Hp2, Hfin |- *. intros j Hj.
    unfold published. rewrite Hfin by done. by apply Hp2.
  - exists (w_files w0). rewrite (frame_active _ _ _ F2). split; [done|].
    rewrite Forall_app, Forall_cons. change (w_files w3) with (w_files w0) in Hpk.
    rewrite Forall_app in Hpk. destruct Hpk as [Hpk1 Hpk2]. split_and!.
    + eapply Forall_impl; [eapply (published_all _ k1); [|done]|done].
      eapply Forall2_impl; [exact Hk1|]. by intros ? ? [? _].
    + by rewrite Hi.
    + eapply Forall_impl; [eapply (published_all _ k2); [|done]|done].
      eapply Forall2_impl; [exact Hk2|]. by intros ? ? [? _].
Qed.

(** What the caller of [transact] is told of the files. *)
Definition reported (w w' : World) (r : res unit) : Prop :=
  match r with
  | Ok _ => committed plan_items w w'
  | Throw e =>
      coded_error e = Some ConfigurationRollbackIncomplete
      \/ ((coded_error e = Some ConfigurationSaveFailed \/ coded_error e = Some ConfigurationChanged)
          /\ rolled_back (default (w_files w) (w_locked w')) plan_items w w')
  end.

Lemma transact_outcome (w : World) (r : res unit) (w' : World) :
  plan_ok w -> transact euid plan w = (r, w') -> reported w w' r.
Proof.
  intros Hok H. unfold reported. unfold transact in H. fold plan_items in H.
  destruct (prepare_commit euid plan (plan_items, w)) as [r1 [items1 w1]] eqn:E.
  apply prepare_commit_outcome in E as (Hs & Hk & A & Hr1); [|done].
  assert (separate (tp_generation plan) items1) as Hsep by (eapply separate_same; [done|apply Hok]).
  destruct r1 as [[]|e].
  - destruct Hr1 as [L Hp]. destruct (commit plan (items1, w1)) as [r2 [items2 w2]] eqn:E. simplify_eq.
    apply (commit_outcome (w_files w1)) in E as (L2 & [[-> Hc]|(complete & m & -> & Hc)]);
      [| |by split|by eapply filter_same; [exact Hs|apply Hok]].
    + destruct Hc as (Hc & f & Hf & Hcf). split; [by eapply published_all|]. exists f. split; [done|].
      clear -Hs Hcf. induction Hs as [|a b l k S _ IH]; [done|]. inversion Hcf; subst.
      constructor; [|by apply IH]. intros Ha. eapply published_same; [exact S|].
      unfold is_kind in *. rewrite (same_kind _ _ S) in *. auto.
    + destruct complete; [right|by left]. split; [by left|]. rewrite L2, L. cbn.
      destruct (Hc eq_refl) as [Hd Ha]. split; [by eapply destinations_same|]. by rewrite <- A.
  - assert (rolled_back (default (w_files w) (w_locked (finish items1 w1))) plan_items w (finish items1 w1))
      as Hrb.
    { pose proof (finish_frame items1 w1) as F. rewrite (frame_locked _ _ _ F). split.
      - eapply destinations_same; [exact Hs|].
        pose proof (finish_destinations (tp_generation plan) items1 w1 Hsep Hk) as Hfin.
        rewrite Forall_forall in Hfin, Hr1 |- *. intros i Hi. by rewrite Hfin, Hr1.
      - left. by rewrite (frame_active _ _ _ F). }
    destruct e as [m|m|m|m|c m|c m|c m|m|c m|c m|m| |m|z m]; try destruct c; simplify_eq; right; cbn;
      (split; [|exact Hrb]); auto.
Qed.

(** The steps of a transaction that returned. *)
Lemma transact_Ok_inv w w' :
  plan_ok w -> transact euid plan w = (Ok tt, w') ->
  exists items w2 w3 w4 w5,
    stage euid (tp_generation plan) (plan_items, w) = (Ok tt, (items, w2))
    /\ Forall (λ i, pending (tp_generation plan) euid (w_files w) i (w_files w2)) items
    /\ Forall2 same_item plan_items items
    /\ tp_validate plan items w2 = (Ok tt, w3)
    /\ tp_recheck plan w4 = (Ok tt, w5)
    /\ w_locked w' = Some (w_files w4).
Proof.
  intros Hok H. unfold transact in H. fold plan_items in H.
  destruct (prepare_commit euid plan (plan_items, w)) as [[[]|e] [items1 w1]] eqn:E;
    [|by destruct e as [| | | |[]| | | | | | | | |]].
  pose proof E as (Hs & Hk & A & L & Hp)%prepare_commit_outcome; [|done].
  destruct (commit plan (items1, w1)) as [r2 [items2 w2]] eqn:Ec.
  apply (commit_outcome (w_files w1)) in Ec as (L2 & _);
    [|split; [eapply separate_same; [done|apply Hok]|done]|by eapply filter_same; [exact Hs|apply Hok]].
  injection H as -> ->. unfold prepare_commit in E.
  apply se_bind_inv in E as [([] & [items wa] & E1 & E)|(e & _ & ?)]; [|done].
  pose proof E1 as (Hs1 & _ & Hp1 & _)%stage_outcome; [|done].
  apply se_bind_inv in E as [([] & [items' wb] & E2 & E)|(e & _ & ?)]; [|done].
  apply on_files_inv in E2 as [-> E2].
  apply se_bind_inv in E as [(b & [items' wc] & E3 & E)|(e & _ & ?)]; [|done].
  apply on_files_inv in E3 as [-> E3].
  apply se_bind_inv in E as [([] & [items' wd] & E4 & E)|(e & _ & ?)]; [|done].
  apply on_files_inv in E as [-> E]. unfold se_lift in E4. injection E4 as _ <- <-.
  exists items, wa, wb, wc, w1. split_and!; try done; [by apply Hp1|].
  rewrite L2, L. f_equal. apply (ok_recheck _ Hok), frame_nil_files in E. done.
Qed.

(** Replacing a configuration is all or nothing, whatever calls fail.  When the transaction
    returns, every file is the new one (or gone, where it was to be removed), and the service
    managers have read all of them but the public marker, which comes last.  When it throws, the
    code tells: unless it is [ConfigurationRollbackIncomplete], every destination is as it was when
    the lock was taken, or at the start when it was not taken, and the service managers have either
    not been asked to read anything or have read the restored files. *)
Theorem transaction_all_or_nothing (w : World) (r : res unit) (w' : World)
    (Hok : plan_ok w) (H : transact euid plan w = (r, w')) : reported w w' r.
Proof. by apply transact_outcome. Qed.

End composed.

(** ** Examples *)

Definition ex_artifacts : list ProfileArtifact :=
  [mkArtifact PrivateProfile "/etc/p/profile.json" "new" 384 OpWrite;
   mkArtifact ObsoleteSystemdUnit "/etc/s/old.mount" "" 0 OpRemove;
   mkArtifact PublicProfile "/pub/p.json" "public" 420 OpWrite].

Definition ex_plan : TransactionPlan :=
  mkPlan "g1" ex_artifacts (λ _, mret tt) "/run/p.lock" "profile is active" (mret tt)
    "reactivate previous configuration" "/etc/s".

Definition ex_files : Files := list_to_map
  [("/", Directory 493 0); ("/etc", Directory 493 0); ("/etc/p", Directory 493 0);
   ("/etc/s", Directory 493 0); ("/pub", Directory 493 0);
   ("/etc/p/profile.json", Regular "old" 384 0); ("/etc/s/old.mount", Regular "unit" 420 0)].

Definition ex_world (faults : nat -> Call -> option string) : World :=
  mkWorld ex_files 0 faults false (λ f, f) None None.

(** Only the first activation fails. *)
Definition activation_fails (n : nat) (c : Call) : option string :=
  match c with CActivate => if (n <? 30)%nat then Some "job failed" else None | _ => None end.

(** The directory of the profile cannot be synchronised once the new file is in place. *)
Definition sync_fails (n : nat) (c : Call) : option string :=
  match c with
  | CSync p => if String.eqb p "/etc/p" && (14 <? n)%nat then Some "Input/output error" else None
  | _ => None
  end.

Lemma ex_plan_ok faults : plan_ok ex_plan (ex_world faults).
Proof.
  split; try done.
  - apply (bool_decide_eq_true_1 _). vm_compute. reflexivity.
  - by eexists.
  - repeat constructor.
  - intros items w r w' [= <- <-]. apply frame_refl.
  - intros w r w' [= <- <-]. apply frame_refl.
Qed.

(** The failed activation is undone, and the old file is back. *)
Lemma transaction_all_or_nothing_witness :
  exists e w', transact 0 ex_plan (ex_world activation_fails) = (Throw e, w')
    /\ coded_error e = Some ConfigurationSaveFailed
    /\ w_files w' !! "/etc/p/profile.json" = Some (Regular "old" 384 0)
    /\ rolled_back (default ex_files (w_locked w')) (plan_items ex_plan) (ex_world activation_fails) w'.
Proof.
  assert ((let '(r, w') := transact 0 ex_plan (ex_world activation_fails) in
           bool_decide (match r with Throw e => coded_error e | Ok _ => None end = Some ConfigurationSaveFailed)
           && bool_decide (w_files w' !! "/etc/p/profile.json" = Some (Regular "old" 384 0))) = true) as Hv
    by (vm_compute; reflexivity).
  destruct (transact 0 ex_plan (ex_world activation_fails)) as [r w'] eqn:E.
  apply andb_true_iff in Hv as [Hc%bool_decide_eq_true_1 Hf%bool_decide_eq_true_1].
  destruct r as [[]|e]; [discriminate Hc|]. exists e, w'. split_and!; [done..|].
  destruct (transaction_all_or_nothing 0 ex_plan _ _ _ (ex_plan_ok _) E) as [Hi|[_ Hr]]; [|exact Hr].
  rewrite Hc in Hi. discriminate Hi.
Defined.

(** The same run with nothing failing publishes every file. *)
Example transaction_commits :
  let '(r, w') := transact 0 ex_plan (ex_world (λ _ _, None)) in
  r = Ok tt /\ w_files w' !! "/etc/p/profile.json" = Some (Regular "new" 384 0)
  /\ w_files w' !! "/etc/s/old.mount" = None
  /\ w_files w' !! "/pub/p.json" = Some (Regular "public" 420 0).
Proof. vm_compute. done. Qed.

(** Nothing fails but the synchronisation of [dir]. *)
Definition only_sync_fails (dir : path) (w : World) : Prop :=
  forall n c, c <> CSync dir -> w_faults w n c = None.

(** The world after a call. *)
Definition tick (w : World) : World := w <| w_clock := (w_clock w + 1)%nat |>.

Section sync_failure.
Context (dir : path).

Lemma quiet_look p w data mode owner :
  only_sync_fails dir w -> w_files w !! p = Some (Regular data mode owner) ->
  validate_destination p w = (Ok tt, tick w) /\ previous_exists p w = (Ok true, tick w).
Proof.
  intros Hq Hp. unfold validate_destination, symlink_status, previous_exists, exists_at, attempt.
  rewrite !Hq by done. cbn. rewrite Hp. done.
Qed.

Lemma quiet_rename from to w n :
  only_sync_fails dir w -> w_files w !! from = Some n ->
  (forall mode owner, w_files w !! to <> Some (Directory mode owner)) ->
  fs_rename from to w = (None, (tick w) <| w_files := <[to := n]> (delete from (w_files w)) |>).
Proof.
  intros Hq Hf Ht. unfold fs_rename, attempt. rewrite Hq by done. cbn. rewrite Hf.
  destruct (w_files w !! to) as [[]|] eqn:E; try done. by destruct (Ht mode owner).
Qed.

Lemma quiet_rename_gone from to w :
  only_sync_fails dir w -> w_files w !! from = None ->
  fs_rename from to w = (Some "No such file or directory", tick w).
Proof. intros Hq Hf. unfold fs_rename, attempt. rewrite Hq by done. cbn. by rewrite Hf. Qed.

Lemma quiet_remove p w data mode owner :
  only_sync_fails dir w -> w_files w !! p = Some (Regular data mode owner) ->
  fs_remove p w = (inr true, (tick w) <| w_files := delete p (w_files w) |>).
Proof. intros Hq Hp. unfold fs_remove, attempt. rewrite Hq by done. cbn. by rewrite Hp. Qed.

Lemma quiet_remove_gone p w :
  only_sync_fails dir w -> w_files w !! p = None -> fs_remove p w = (inr false, tick w).
Proof. intros Hq Hp. unfold fs_remove, attempt. rewrite Hq by done. cbn. by rewrite Hp. Qed.

Lemma sync_look w : exists r, fsync_dir dir w = (r, tick w).
Proof. unfold fsync_dir, attempt. repeat case_match; eexists; reflexivity. Qed.

Definition own_paths (item : TransactionArtifact) : list path :=
  [ti_destination item; ti_staged item; ti_previous item].

(** What [publish] leaves when the synchronisation fails: the previous file is back, and the item
    counts as published with a previous file set aside. *)
Lemma publish_sync_failure item old mode owner new w e item1 w1 :
  dir = parent_path (ti_destination item) ->
  ti_operation item = OpWrite -> NoDup [ti_destination item; ti_staged item; ti_previous item] ->
  w_files w !! ti_destination item = Some (Regular old mode owner) ->
  w_files w !! ti_staged item = Some new -> w_files w !! ti_previous item = None ->
  (forall m u, new <> Directory m u) -> only_sync_fails dir w ->
  publish (item, w) = (Throw e, (item1, w1)) ->
  own_paths item1 = own_paths item /\ ti_operation item1 = OpWrite /\
  ti_had_previous item1 = true /\ ti_published item1 = true /\
  w_files w1 = delete (ti_staged item) (w_files w) /\ only_sync_fails dir w1.
Proof.
  intros Hdir Hop Hnd Hd Hs Hp Hnew Hq Hpub. set (destination := ti_destination item) in *.
  apply NoDup_cons in Hnd as [Hn1 Hnd]. apply NoDup_cons in Hnd as [Hn2 _].
  assert (destination <> ti_staged item /\ destination <> ti_previous item /\
    ti_staged item <> ti_previous item) as (N1 & N2 & N3) by set_solver.
  unfold publish, publish_over, move_staged, put_back, get_item, set_item, on_files, run_files,
    rename_checked, se_catch, se_throw, mbind, SE_bind in Hpub. cbn [fst snd] in Hpub.
  fold destination in Hpub.
  rewrite (proj1 (quiet_look destination w old mode owner Hq Hd)) in Hpub. cbn [fst snd] in Hpub.
  rewrite (proj2 (quiet_look destination (tick w) old mode owner Hq Hd)) in Hpub. cbn [fst snd] in Hpub.
  rewrite (quiet_rename destination (ti_previous item) (tick (tick w)) _ Hq Hd) in Hpub
    by (cbn; by rewrite Hp). rewrite Hop in Hpub. cbn [fst snd] in Hpub.
  match type of Hpub with context [fs_rename (ti_staged item) destination ?v] => set (wa := v) in Hpub end.
  assert (Ha : w_files wa = <[ti_previous item := Regular old mode owner]> (delete destination (w_files w)))
    by done.
  rewrite (quiet_rename (ti_staged item) destination wa new Hq) in Hpub.
  2:{ rewrite Ha, lookup_insert_ne, lookup_delete_ne by done. done. }
  2:{ rewrite Ha, lookup_insert_ne, lookup_delete_eq by done. done. }
  cbn [fst snd] in Hpub.
  match type of Hpub with context [fsync_dir _ ?v] => set (wb := v) in Hpub end.
  rewrite <- Hdir in Hpub. destruct (sync_look wb) as [r Hr]. rewrite Hr in Hpub.
  assert (Hb : w_files wb = <[destination := new]> (delete (ti_staged item) (w_files wa))) by done.
  destruct r as [[]|e0]; [done|]. cbn [fst snd] in Hpub. unfold on_files in Hpub. cbn [fst snd] in Hpub.
  rewrite (quiet_rename (ti_previous item) destination (tick wb) (Regular old mode owner) Hq) in Hpub.
  - cbn [fst snd] in Hpub. injection Hpub as _ <- <-. do 4 (split; [done|]). split; [|exact Hq].
    change (<[destination := Regular old mode owner]> (delete (ti_previous item) (w_files wb))
      = delete (ti_staged item) (w_files w)). rewrite Hb, Ha. apply map_eq. intros q.
    destruct (decide (q = destination)) as [->|D1].
    { by rewrite lookup_insert_eq, lookup_delete_ne. }
    rewrite lookup_insert_ne by done. destruct (decide (q = ti_previous item)) as [->|D2].
    { by rewrite lookup_delete_eq, lookup_delete_ne. }
    rewrite lookup_delete_ne, lookup_insert_ne by done. destruct (decide (q = ti_staged item)) as [->|D3].
    { by rewrite !lookup_delete_eq. }
    by rewrite !(lookup_delete_ne _ (ti_staged item)), lookup_insert_ne, lookup_delete_ne by done.
  - change (w_files (tick wb)) with (w_files wb). rewrite Hb, Ha, lookup_insert_ne, lookup_delete_ne by done.
    apply lookup_insert_eq.
  - change (w_files (tick wb)) with (w_files wb). rewrite Hb, lookup_insert_eq. intros m u [= ->]. by eapply Hnew.
Qed.

(** What the rollback then does to it. *)
Lemma rollback_published item old mode owner result w result' w' :
  dir = parent_path (ti_destination item) ->
  ti_operation item = OpWrite -> NoDup [ti_destination item; ti_staged item; ti_previous item] ->
  ti_had_previous item = true -> ti_published item = true ->
  w_files w !! ti_destination item = Some (Regular old mode owner) ->
  w_files w !! ti_staged item = None -> w_files w !! ti_previous item = None ->
  only_sync_fails dir w -> rollback_artifact item result w = (result', w') ->
  rb_complete result' = false /\ w_files w' = delete (ti_destination item) (w_files w).
Proof.
  intros Hdir Hop Hnd Hh Hpb Hd Hs Hp Hq Hrb.
  apply NoDup_cons in Hnd as [Hn1 Hnd]. apply NoDup_cons in Hnd as [Hn2 _].
  assert (ti_destination item <> ti_staged item /\ ti_destination item <> ti_previous item) as (N1 & N2)
    by set_solver.
  unfold rollback_artifact, remove_published_artifact, restore_previous_artifact,
    sync_rollback_directory, remove_transaction_files, remove_for_rollback, rename_for_rollback,
    remove_cleanup_for_rollback in Hrb.
  rewrite Hop, Hh, Hpb, <- Hdir, bool_decide_eq_true_2 in Hrb by done. cbn [andb negb orb] in Hrb.
  rewrite (quiet_remove (ti_destination item) w old mode owner Hq Hd) in Hrb.
  match type of Hrb with context [fs_rename _ _ ?v] => set (wa := v) in Hrb end.
  assert (Ha : w_files wa = delete (ti_destination item) (w_files w)) by done.
  rewrite (quiet_rename_gone (ti_previous item) (ti_destination item) wa Hq) in Hrb
    by (by rewrite Ha, lookup_delete_ne).
  destruct (sync_look (tick wa)) as [r Hr]. rewrite Hr in Hrb.
  assert (Hrm : fs_remove (ti_staged item) (tick (tick wa)) = (inr false, tick (tick (tick wa)))).
  { apply (quiet_remove_gone (ti_staged item) (tick (tick wa)) Hq).
    change (w_files (tick (tick wa))) with (w_files wa). by rewrite Ha, lookup_delete_ne. }
  destruct r as [[]|e0]; rewrite Hrm in Hrb; by injection Hrb as <- <-.
Qed.
End sync_failure.

(** C38.  When a configuration file is replaced and nothing fails but the synchronisation of its
    directory, the previous file is lost.  [publish] moves it back at once, so that it is at the
    destination again; the rollback takes it for the new file and removes it, finds nothing to
    restore and says that it is incomplete.  What is left of the artifact is neither the previous
    nor the new file, at none of its three paths, and no other path has changed. *)
Theorem sync_failure_loses_configuration item old mode owner new w e item1 w1 result result' w2 :
  ti_operation item = OpWrite -> NoDup [ti_destination item; ti_staged item; ti_previous item] ->
  w_files w !! ti_destination item = Some (Regular old mode owner) ->
  w_files w !! ti_staged item = Some new -> w_files w !! ti_previous item = None ->
  (forall m u, new <> Directory m u) -> only_sync_fails (parent_path (ti_destination item)) w ->
  publish (item, w) = (Throw e, (item1, w1)) ->
  rollback_artifact item1 result w1 = (result', w2) ->
  w_files w1 !! ti_destination item = Some (Regular old mode owner) /\
  rb_complete result' = false /\
  w_files w2 = delete (ti_destination item) (delete (ti_staged item) (w_files w)).
Proof.
  intros Hop Hnd Hd Hs Hp Hnew Hq Hpub Hrb.
  destruct (publish_sync_failure _ item old mode owner new w e item1 w1 eq_refl)
    as (Ho & Hop1 & Hh & Hpb & Hf & Hq1); [done..|]. unfold own_paths in Ho. injection Ho as E1 E2 E3.
  pose proof Hnd as [Hn1 Hn2]%NoDup_cons. apply NoDup_cons in Hn2 as [Hn2 _].
  assert (w_files w1 !! ti_destination item = Some (Regular old mode owner)) as Hd1
    by (rewrite Hf, lookup_delete_ne by set_solver; done).
  split; [done|]. rewrite <- Hf, <- E1. rewrite <- E1 in Hd1, Hq1. rewrite <- E1, <- E2, <- E3 in Hnd.
  eapply rollback_published; [reflexivity|exact Hop1|exact Hnd|exact Hh|exact Hpb|exact Hd1| | |exact Hq1|exact Hrb].
  - by rewrite E2, Hf, lookup_delete_eq.
  - rewrite E3, Hf, lookup_delete_ne by set_solver. done.
Qed.

(** The artifact of the profile, staged. *)
Definition ex_item : TransactionArtifact :=
  mkItem PrivateProfile "/etc/p/profile.json" "/etc/p/.profile.json.stage-g1"
    "/etc/p/.profile.json.previous-g1" "new" 384 OpWrite false false.

Definition ex_staged_world : World :=
  (ex_world (λ _ c, match c with CSync p => if String.eqb p "/etc/p" then Some "Input/output error" else None
                               | _ => None end))
    <| w_files := <["/etc/p/.profile.json.stage-g1" := Regular "new" 384 0]> ex_files |>.

Lemma sync_failure_loses_configuration_witness :
  exists e item1 w1 result w2,
    publish (ex_item, ex_staged_world) = (Throw e, (item1, w1)) /\
    rollback_artifact item1 (mkRollback true []) w1 = (result, w2) /\
    rb_complete result = false /\
    w_files w2 = delete "/etc/p/profile.json" (delete "/etc/p/.profile.json.stage-g1" (w_files ex_staged_world)).
Proof.
  assert (is_ok (publish (ex_item, ex_staged_world)).1 = false) as Hv by (vm_compute; reflexivity).
  destruct (publish (ex_item, ex_staged_world)) as [[[]|e] [item1 w1]] eqn:E1; [discriminate Hv|].
  destruct (rollback_artifact item1 (mkRollback true []) w1) as [result w2] eqn:E2.
  exists e, item1, w1, result, w2. split; [done|]. split; [done|].
  destruct (sync_failure_loses_configuration ex_item "old" 384 0 (Regular "new" 384 0) ex_staged_world
    e item1 w1 (mkRollback true []) result w2) as (_ & H); [..|exact H].
  - reflexivity.
  - apply (bool_decide_unpack _). vm_compute. exact I.
  - vm_compute. reflexivity.
  - vm_compute. reflexivity.
  - vm_compute. reflexivity.
  - intros m u. discriminate.
  - intros n [] Hc; try reflexivity. cbn.
    destruct (String.eqb_spec p "/etc/p") as [->|]; [|reflexivity]. by destruct Hc.
  - exact E1.
  - exact E2.
Defined.

(** In a whole transaction: the error says that the rollback is incomplete, and the configuration
    is gone from every path. *)
Example sync_failure_empties_configuration :
  plan_ok ex_plan (ex_world sync_fails)
  /\ ex_files !! "/etc/p/profile.json" = Some (Regular "old" 384 0)
  /\ let '(r, w') := transact 0 ex_plan (ex_world sync_fails) in
     (exists m, r = Throw (CodedValidationError ConfigurationRollbackIncomplete m))
     /\ map_Forall (λ _ node, node <> Regular "old" 384 0 /\ node <> Regular "new" 384 0) (w_files w').
Proof.
  split; [apply ex_plan_ok|]. split; [reflexivity|].
  assert ((let '(r, w') := transact 0 ex_plan (ex_world sync_fails) in
           match r with Throw (CodedValidationError ConfigurationRollbackIncomplete _) => true | _ => false end
           && forallb (λ entry, negb (bool_decide (entry.2 = Regular "old" 384 0))
                                && negb (bool_decide (entry.2 = Regular "new" 384 0)))
                (map_to_list (w_files w'))) = true) as Hv by (vm_compute; reflexivity).
  destruct (transact 0 ex_plan (ex_world sync_fails)) as [r w'].
  apply andb_true_iff in Hv as [Hr Hm]. rewrite forallb_forall in Hm. split.
  - destruct r as [|[| | | |[] m| | | | | | | | |]]; try discriminate Hr. by eexists.
  - intros p node Hp. apply elem_of_map_to_list, list_elem_of_In, Hm in Hp.
    apply andb_true_iff in Hp as [H1 H2]. cbn in H1, H2. apply negb_true_iff, bool_decide_eq_false_1 in H1, H2.
    done.
Qed.
