(* ===== verification/ProfileInstall.v ===== *)
(** * Installed profiles (src/platform/linux/config)

    The application's own configuration file (ApplicationConfig), the policy on hook programs
    (ProfileRuntimePolicy), reading an installed profile (FileProfileRepository) and installing,
    deleting and retiring one (ProfileInstaller), over the files of FileSystem and the transaction
    of ConfigTransaction. *)

From S2P Require Import Prelude Errors Identifiers FsPath ConfigDomain Json ProfileDocument.
From S2P Require Import Fingerprint ProfileArtifacts FileSystem ConfigTransaction.

Open Scope Z_scope.
Open Scope path_scope.

(** ** ApplicationConfig *)

Fixpoint split_lines (s : string) : list string :=
  match s with
  | EmptyString => [""]
  | String c rest =>
      if Ascii.eqb c newline then "" :: split_lines rest
      else match split_lines rest with
           | line :: lines => String c line :: lines
           | [] => [String c ""]
           end
  end.

(** [std::getline] until the end: the text after the last newline is a line unless it is empty. *)
Definition getlines (s : string) : list string :=
  let lines := split_lines s in
  if str_empty (List.last lines "") then removelast lines else lines.

(** [if (!line.empty() && line.back() == '\r') line.pop_back();] *)
Fixpoint drop_carriage_return (s : string) : string :=
  match s with
  | EmptyString => ""
  | String c EmptyString => if Ascii.eqb c carriage_return then "" else s
  | String c rest => String c (drop_carriage_return rest)
  end.

(** The key and the value, when the line holds a ['='] that is not its first character. *)
Fixpoint split_assignment (s : string) : option (string * string) :=
  match s with
  | EmptyString => None
  | String c rest =>
      if Ascii.eqb c "=" then Some ("", rest)
      else match split_assignment rest with
           | Some (key, value) => Some (String c key, value)
           | None => None
           end
  end.

Definition application_keys : list string :=
  ["CONFIG_VERSION"; "STATE_ROOT"; "STATUS_ROOT"; "HISTORY_ROOT"; "TARGET_MOUNT_ROOT"].

Fixpoint lookup_key (values : list (string * string)) (key : string) : option string :=
  match values with
  | [] => None
  | (k, v) :: values => if String.eqb k key then Some v else lookup_key values key
  end.

Definition of_nat_text (n : nat) : string := setw0 0 (Z.of_nat n).

(** The loop over the lines.
    src/platform/linux/config/ApplicationConfig.cpp:46-67 *)
Fixpoint parse_lines (lines : list string) (line_number : nat) (result : list (string * string))
    : res (list (string * string)) :=
  match lines with
  | [] => Ok result
  | line :: lines =>
      let line := drop_carriage_return line in
      let line_number := S line_number in
      if str_empty line || Ascii.eqb (str_at 0 line) "#" then parse_lines lines line_number result
      else match split_assignment line with
           | None | Some (EmptyString, _) =>
               Throw (ValidationError ("invalid application configuration line " +:+ of_nat_text line_number))
           | Some (key, value) =>
               if negb (existsb (String.eqb key) application_keys)
               then Throw (ValidationError ("application configuration key " +:+ key +:+ " is not supported"))
               else match lookup_key result key with
                    | Some _ => Throw (ValidationError
                        ("duplicate application configuration key on line " +:+ of_nat_text line_number))
                    | None => parse_lines lines line_number (result ++ [(key, value)])
                    end
           end
  end.

(** src/platform/linux/config/ApplicationConfig.cpp:35-69 *)
Definition parse_config (content : string) : res (list (string * string)) :=
  parse_lines (getlines content) 0 [].

(** src/platform/linux/config/ApplicationConfig.cpp:24-33 *)
Definition application_path (value name : string) : res path :=
  if str_empty value || str_contains Ascii.zero value || str_contains carriage_return value
  then Throw (ValidationError (name +:+ " must be a non-empty absolute path"))
  else if negb (is_absolute value)
  then Throw (ValidationError (name +:+ " must be an absolute path"))
  else Ok (lexically_normal value).

(** src/config/ApplicationConfig.cpp:17-24 *)
Definition default_paths : ApplicationPaths :=
  mkApplicationPaths "/var/lib/btrfs-backup" "/run/btrfs-backup/profiles" "/var/lib/btrfs-backup/history"
    "/mnt/btrfs-backup".

(** [if (auto value = values.find(key); ...) result.member = absolute_path(...)] *)
Definition path_or (values : list (string * string)) (key : string) (otherwise : path) : res path :=
  match lookup_key values key with
  | Some value => application_path value key
  | None => Ok otherwise
  end.

(** src/platform/linux/config/ApplicationConfig.cpp:90-103 *)
Definition paths_from_config (content : string) : res ApplicationPaths :=
  values ← parse_config content;
  _ ← require (bool_decide (lookup_key values "CONFIG_VERSION" = Some "1"))
        (ValidationError "application configuration CONFIG_VERSION must be 1");
  state ← path_or values "STATE_ROOT" (state_root default_paths);
  status ← path_or values "STATUS_ROOT" (status_root default_paths);
  history ← path_or values "HISTORY_ROOT" (history_root default_paths);
  mounts ← path_or values "TARGET_MOUNT_ROOT" (target_mount_root default_paths);
  Ok (mkApplicationPaths state status history mounts).

(** ** ProfileRuntimePolicy *)

(** src/platform/linux/config/ProfileRuntimePolicy.hpp:11-11 *)
Definition trusted_hook_directory : path := "/etc/btrfs-backup/hooks.d".

Definition hook_allowed (hook : ProfileHookCommand) : bool :=
  let program := lexically_normal (hook_program hook) in
  path_eqb (parent_path program) trusted_hook_directory
  && negb (str_empty (filename program))
  && negb (path_eqb (filename program) ".") && negb (path_eqb (filename program) "..").

(** src/platform/linux/config/ProfileRuntimePolicy.cpp:13-27 *)
Definition validate_profile_runtime_policy (profile : Profile) : res unit :=
  require (forallb hook_allowed (before_snapshot (hooks profile))
           && forallb hook_allowed (after_snapshot (hooks profile)))
    (ValidationError ("hook program must be a direct child of " +:+ trusted_hook_directory)).

Section install.
Context `{JsonText}.
(** The effective user, the working directory and the environment of the process. *)
Context (euid : Z) (cwd : path) (env : string -> option string).

(** [fs::absolute(p).lexically_normal() == "/etc/btrfs-backup"] *)
Definition is_system_root (p : path) : bool :=
  path_eqb (lexically_normal (if is_absolute p then p else cwd /./ p)) "/etc/btrfs-backup".

Definition unlimited : Z := 2 ^ 64 - 1.

(** src/platform/linux/config/ApplicationConfig.cpp:73-104 *)
Definition load_application_config (config_root : path) : SE World ApplicationPaths := λ w,
  let system_config := is_system_root config_root in
  let config_path := if system_config then "/etc/btrfs-backup.conf" else config_root /./ "btrfs-backup.conf" in
  match symlink_status config_path w with
  | (StatusNotFound, w) => (Ok default_paths, w)
  | (StatusError message, w) =>
      (Throw (ValidationError ("cannot inspect application configuration " +:+ config_path +:+ ": " +:+ message)), w)
  | (_, w) =>
      let '(content, w) :=
        read_trusted_config_file euid config_path (mkPolicy (negb system_config) true) unlimited w in
      (content ← content; paths_from_config content, w)
  end.

(** ** Reading profiles *)

(** src/platform/linux/config/FileProfileRepository.cpp:25-28 *)
Definition profile_json_path (root : path) (id : string) : res path :=
  _ ← validate_identifier id "profile";
  Ok (root /./ "profiles" /./ id /./ "profile.json").

(** Exceptions of the JSON library become validation errors. *)
Definition json_errors {A} (p : path) (r : res A) : res A :=
  match r with
  | Throw (StdException m) => Throw (ValidationError ("cannot read JSON profile " +:+ p +:+ ": " +:+ m))
  | r => r
  end.

(** src/config/ProfileFingerprint.hpp:12-12 *)
Definition current_configuration_fingerprint_version : string := "1.0.0".

(** src/platform/linux/config/FileProfileRepository.cpp:39-73 *)
Definition loaded_profile_from_bytes (bytes : string) (p : path) (mount_root : path) : res LoadedProfile :=
  json_errors p (
    raw ← json_parse bytes;
    document ← normalize_profile raw mount_root;
    profile ← profile_from_document document mount_root;
    _ ← validate_profile_runtime_policy profile;
    _ ← require (negb (str_empty (configuration_generation profile)))
          (ValidationError "installed profile configurationGeneration is required");
    Ok (mkLoadedProfile profile
          (compute_config_fingerprint_from_bytes current_configuration_fingerprint_version p bytes)
          (configuration_generation profile))).

(** src/platform/linux/config/FileProfileRepository.cpp:75-94 *)
Definition validate_expected_identity (loaded : LoadedProfile) : res unit :=
  _ ← match env "BTRFS_BACKUP_CONFIGURATION_GENERATION" with
      | Some expected => require (String.eqb (ConfigDomain.generation loaded) expected)
          (CodedValidationError ConfigurationChanged
             "profile configuration generation does not match the authorized operation")
      | None => Ok tt
      end;
  match env "BTRFS_BACKUP_CONFIGURATION_FINGERPRINT" with
  | Some expected => require (String.eqb (fingerprint loaded) expected)
      (CodedValidationError ConfigurationChanged
         "profile configuration fingerprint does not match the authorized operation")
  | None => Ok tt
  end.

(** The policy for the private files under a root.
    src/platform/linux/config/FileProfileRepository.cpp:32-37 *)
Definition profile_policy (config_root : path) : TrustedFilePolicy :=
  mkPolicy (negb (is_system_root config_root)) false.

(** src/platform/linux/config/FileProfileRepository.cpp:102-129 *)
Definition get_profile (config_root : path) (id : ProfileId) : SE World LoadedProfile :=
  application ← load_application_config config_root;
  p ← se_lift (profile_json_path config_root (id_value id));
  bytes ← read_trusted_config_file euid p (profile_policy config_root) unlimited;
  loaded ← se_lift (loaded_profile_from_bytes bytes p (target_mount_root application));
  _ ← se_lift (validate_expected_identity loaded);
  mret loaded.

(** [std::ifstream], then the JSON library.
    src/config/json/JsonIo.cpp:13-27 *)
Definition load_json_file (p : path) : SE World Json := λ w,
  let '(fault, w) := attempt (CRead p) w in
  (match fault, follow 40 (w_files w) p with
   | None, Some (Some (Regular data _ _)) =>
       match json_parse data with
       | Throw e => Throw (ValidationError ("cannot read JSON profile " +:+ p +:+ ": " +:+ exn_what e))
       | ok => ok
       end
   | _, _ => Throw (ValidationError ("cannot read JSON profile " +:+ p))
   end, w).

(** src/platform/linux/config/ProfileService.cpp:32-37 *)
Definition validate_profile_file (p : path) (mount_root : path) : SE World Profile :=
  raw ← load_json_file p;
  profile ← se_lift (profile_from_json raw mount_root);
  _ ← se_lift (validate_profile_runtime_policy profile);
  mret profile.

(** ** The manifest of the units that were installed for a profile *)

(** src/platform/linux/config/ProfileInstaller.cpp:35-38 *)
Record Manifest := mkManifest {
  mf_fingerprint : option string;
  mf_document : option Json;
}.

Definition json_size (j : Json) : nat :=
  match j with JObject members => length members | JArray items => length items | JNull => 0 | _ => 1 end%nat.

(** src/platform/linux/config/ProfileInstaller.cpp:90-94 *)
Definition check_manifest (manifest : Json) (id : string) (p : path) : res unit :=
  let invalid := Throw (ValidationError ("invalid managed artifact manifest: " +:+ p)) in
  if negb (is_object manifest) || negb (json_size manifest =? 3)%nat then invalid
  else
    version ← json_value get_i32 manifest "schemaVersion" 0;
    if negb (version =? 1) then invalid
    else
      profile_id ← json_value get_string manifest "profileId" "";
      if negb (String.eqb profile_id id) || negb (json_contains manifest "mounts") then invalid
      else
        mounts ← json_at manifest "mounts";
        if negb (is_array mounts) then invalid else Ok tt.

(** src/platform/linux/config/ProfileInstaller.cpp:70-105 *)
Definition read_managed_artifact_manifest (roots : ProfileArtifactRoots) (id : ProfileId)
    : SE World Manifest := λ w,
  let p := manifest_path roots (id_value id) in
  match symlink_status p w with
  | (StatusNotFound, w) => (Ok (mkManifest None None), w)
  | (StatusError _, w) =>
      (Throw (ValidationError ("cannot inspect managed artifact manifest: " +:+ p)), w)
  | (_, w) =>
      let '(bytes, w) := read_trusted_config_file euid p (profile_policy (etc_root roots)) (64 * 1024) w in
      (bytes ← bytes;
       manifest ← json_parse bytes;
       _ ← check_manifest manifest (id_value id) p;
       Ok (mkManifest
             (Some (compute_config_fingerprint_from_bytes current_configuration_fingerprint_version p bytes))
             (Some manifest)), w)
  end.

Definition removal (kind : ProfileArtifactKind) (destination : path) : ProfileArtifact :=
  mkArtifact kind destination "" 0 OpRemove.

(** The body of the loop: the unit of one mount of the manifest.
    src/platform/linux/config/ProfileInstaller.cpp:118-139 *)
Definition managed_unit (roots : ProfileArtifactRoots) (id : string) (retained : list string) (value : Json)
    : res (list ProfileArtifact) :=
  if negb (is_object value) || negb (json_size value =? 2)%nat
  then Throw (ValidationError "invalid mount in managed artifact manifest")
  else match json_at value "unit", json_at value "mountPoint" with
       | Ok (JString unit), Ok (JString mount_point) =>
           if negb (is_absolute mount_point)
              || negb (path_eqb (lexically_normal mount_point) mount_point)
              || negb (path_eqb (filename mount_point) id)
              || negb (String.eqb (target_mount_unit_name mount_point) unit)
           then Throw (ValidationError "unsafe mount in managed artifact manifest")
           else if existsb (String.eqb unit) retained then Ok []
           else Ok [removal ObsoleteSystemdUnit (unit_path roots unit)]
       | _, _ => Throw (ValidationError "invalid mount in managed artifact manifest")
       end.

(** src/platform/linux/config/ProfileInstaller.cpp:107-141 *)
Definition managed_systemd_units (roots : ProfileArtifactRoots) (id : ProfileId) (retained : list string)
    (manifest : Manifest) : res (list ProfileArtifact) :=
  match mf_document manifest with
  | None => Ok []
  | Some document =>
      mounts ← json_at document "mounts";
      units ← res_mapM (managed_unit roots (id_value id) retained)
                (match mounts with JArray items => items | _ => [] end);
      Ok (concat units)
  end.

(** src/platform/linux/config/ProfileInstaller.cpp:143-159 *)
Definition append_obsolete_systemd_units (rendered : RenderedProfileArtifacts) (roots : ProfileArtifactRoots)
    : SE World (list ProfileArtifact) :=
  let current := map (λ a, filename (pa_destination a))
    (List.filter (λ a, bool_decide (pa_kind a = NativeTargetMount)) (rp_artifacts rendered)) in
  manifest ← read_managed_artifact_manifest roots (profile_id (rp_profile rendered));
  units ← se_lift (managed_systemd_units roots (profile_id (rp_profile rendered)) current manifest);
  mret (rp_artifacts rendered ++ units).

(** ** The identity of what is replaced *)

(** src/platform/linux/config/ProfileInstaller.hpp:16-20 *)
Record ExpectedProfileIdentity := mkExpected {
  ex_exists : bool;
  ex_generation : string;
  ex_fingerprint : string;
}.

(** src/platform/linux/config/ProfileInstaller.cpp:161-181 *)
Definition require_expected_profile_identity (roots : ProfileArtifactRoots) (id : ProfileId)
    (expected : option ExpectedProfileIdentity) : SE World unit := λ w,
  match expected with
  | None => (Ok tt, w)
  | Some expected =>
      let changed := CodedValidationError ConfigurationChanged in
      match symlink_status (private_path roots (id_value id)) w with
      | (StatusError _, w) => (Throw (ValidationError "cannot inspect current profile configuration"), w)
      | (status, w) =>
          let present := match status with StatusNotFound => false | _ => true end in
          if negb (eqb present (ex_exists expected))
          then (Throw (changed "profile existence changed before commit"), w)
          else if negb present then (Ok tt, w)
          else (loaded ← get_profile (etc_root roots) id;
                se_lift (require
                  (String.eqb (ConfigDomain.generation loaded) (ex_generation expected)
                   && String.eqb (fingerprint loaded) (ex_fingerprint expected))
                  (changed "profile identity changed before commit"))) w
      end
  end.

(** src/platform/linux/config/ProfileInstaller.cpp:40-45 *)
Definition configuration_lock_path (root : path) (id : ProfileId) : path :=
  let lock_root := if is_system_root root then "/run/btrfs-backup/locks" else root /./ ".locks" in
  lock_root /./ "profiles" /./ (id_value id +:+ ".lock").

(** ** ProfileInstaller *)

(** What is checked of the staged files.
    src/platform/linux/config/ProfileInstaller.cpp:272-279 *)
Definition validate_staged (mount_root : path) (generation : string) (items : list TransactionArtifact)
    : SE World unit :=
  private ← se_lift (staged_path PrivateProfile items);
  profile ← validate_profile_file private mount_root;
  public ← se_lift (staged_path PublicProfile items);
  staged_public ← load_json_file public;
  public_generation ← se_lift (json_value get_string staged_public "configurationGeneration" "");
  se_lift (require (String.eqb (configuration_generation profile) generation
                    && String.eqb public_generation generation)
             (ValidationError "staged configuration generation mismatch")).

Definition install_plan (rendered : RenderedProfileArtifacts) (artifacts : list ProfileArtifact)
    (mount_root : path) (roots : ProfileArtifactRoots) (expected : option ExpectedProfileIdentity)
    : TransactionPlan :=
  let id := profile_id (rp_profile rendered) in
  let generation := configuration_generation (rp_profile rendered) in
  mkPlan generation artifacts (validate_staged mount_root generation)
    (configuration_lock_path (etc_root roots) id)
    ("profile is active; configuration save refused: " +:+ id_value id)
    (require_expected_profile_identity roots id expected)
    "reactivate previous configuration" (systemd_root roots).

(** What is rendered and read before the transaction begins.
    src/platform/linux/config/ProfileInstaller.cpp:262-267 *)
Definition planned_install (generations : res string) (profile : Profile)
    (roots : ProfileArtifactRoots) (expected : option ExpectedProfileIdentity) : SE World TransactionPlan :=
  rendered ← se_lift (render_profile_artifacts generations profile roots);
  artifacts ← append_obsolete_systemd_units rendered roots;
  application ← load_application_config (etc_root roots);
  mret (install_plan rendered artifacts (target_mount_root application) roots expected).

(** src/platform/linux/config/ProfileInstaller.cpp:257-325 *)
Definition install_profile_transactionally (generations : res string) (profile : Profile)
    (roots : ProfileArtifactRoots) (expected : option ExpectedProfileIdentity) : SE World unit :=
  plan ← planned_install generations profile roots expected;
  transact euid plan.

Definition delete_plan (rendered : RenderedProfileArtifacts) (artifacts : list ProfileArtifact)
    (roots : ProfileArtifactRoots) (expected : option ExpectedProfileIdentity) : TransactionPlan :=
  let id := profile_id (rp_profile rendered) in
  mkPlan (configuration_generation (rp_profile rendered))
    (map (λ a, mkArtifact (pa_kind a) (pa_destination a) (pa_content a) (pa_permissions a) OpRemove) artifacts)
    (λ _, mret tt)
    (configuration_lock_path (etc_root roots) id)
    ("profile is active; configuration delete refused: " +:+ id_value id)
    (require_expected_profile_identity roots id expected)
    "reactivate previous configuration" (systemd_root roots).

(** src/platform/linux/config/ProfileInstaller.cpp:327-376 *)
Definition delete_profile_transactionally (generations : res string) (profile : Profile)
    (roots : ProfileArtifactRoots) (expected : option ExpectedProfileIdentity) : SE World unit :=
  rendered ← se_lift (render_profile_artifacts generations profile roots);
  artifacts ← append_obsolete_systemd_units rendered roots;
  transact euid (delete_plan rendered artifacts roots expected).

(** src/platform/linux/config/ProfileInstaller.cpp:183-201 *)
Definition unsupported_profile_fingerprint (roots : ProfileArtifactRoots) (id : ProfileId) : SE World string :=
  let p := private_path roots (id_value id) in
  bytes ← read_trusted_config_file euid p (profile_policy (etc_root roots)) (1024 * 1024);
  mret (compute_config_fingerprint_from_bytes current_configuration_fingerprint_version p bytes).

(** src/platform/linux/config/ProfileInstaller.cpp:203-242 *)
Definition unsupported_profile_artifacts (roots : ProfileArtifactRoots) (id : ProfileId) (manifest : Manifest)
    : res (list ProfileArtifact) :=
  let text := id_value id in
  units ← managed_systemd_units roots id [] manifest;
  Ok ([removal UdevRule (udev_path roots text);
       removal SystemdMountDependency (dependency_path roots text);
       removal ManagedArtifactManifest (manifest_path roots text);
       removal PrivateProfile (private_path roots text);
       removal PublicProfile (public_path roots text)] ++ units).

(** src/platform/linux/config/ProfileInstaller.cpp:404-415 *)
Definition recheck_retirement (roots : ProfileArtifactRoots) (id : ProfileId) (expected_fingerprint : string)
    (expected_manifest : option string) : SE World unit :=
  found ← unsupported_profile_fingerprint roots id;
  _ ← se_lift (require (String.eqb found expected_fingerprint)
        (CodedValidationError ConfigurationChanged "unsupported profile fingerprint changed before commit"));
  manifest ← read_managed_artifact_manifest roots id;
  se_lift (require (bool_decide (mf_fingerprint manifest = expected_manifest))
    (CodedValidationError ConfigurationChanged "managed artifact manifest changed before retirement commit")).

(** src/platform/linux/config/ProfileInstaller.cpp:378-459 *)
Definition retire_unsupported_profile_transactionally (generations : res string) (id : ProfileId)
    (expected_fingerprint : string) (expected_manifest : option string) (roots : ProfileArtifactRoots)
    : SE World unit :=
  manifest ← read_managed_artifact_manifest roots id;
  _ ← se_lift (require (bool_decide (mf_fingerprint manifest = expected_manifest))
        (CodedValidationError ConfigurationChanged "managed artifact manifest changed before retirement"));
  generation ← se_lift generations;
  artifacts ← se_lift (unsupported_profile_artifacts roots id manifest);
  transact euid (mkPlan generation artifacts (λ _, mret tt)
    (configuration_lock_path (etc_root roots) id)
    ("profile is active; unsupported configuration retirement refused: " +:+ id_value id)
    (recheck_retirement roots id expected_fingerprint expected_manifest)
    "reactivate unsupported configuration" (systemd_root roots)).

(** ** The checks only read *)

Lemma loads_ret {A} (a : A) : reads (mret a).
Proof. intros w r w' [= <- <-]. apply frame_refl. Qed.

Lemma reads_lift {A} (a : res A) : reads (se_lift a).
Proof. intros w r w' [= <- <-]. apply frame_refl. Qed.

Lemma loads_bind {A B} (m : SE World A) (f : A -> SE World B) :
  reads m -> (forall a, reads (f a)) -> reads (m ≫= f).
Proof.
  intros Hm Hf w r w' [(a & w1 & E1 & E2)|(e & E1 & _)]%se_bind_inv; [|by eapply Hm].
  eapply frame_trans; [by eapply Hm|by eapply Hf].
Qed.

Lemma reads_trusted p policy maximum : reads (read_trusted_config_file euid p policy maximum).
Proof.
  intros w r w'. unfold read_trusted_config_file, open_trusted_config_file. intros E. call_step E.
  by simplify_eq.
Qed.

Lemma reads_application root : reads (load_application_config root).
Proof.
  intros w r w'. unfold load_application_config.
  destruct (symlink_status _ w) as [s w1] eqn:E. apply symlink_status_frame in E as (F & _ & _).
  destruct (read_trusted_config_file _ _ _ _ w1) as [c w2] eqn:E2. apply reads_trusted in E2.
  intros E. destruct s; simplify_eq; try done; by eapply frame_trans.
Qed.

Lemma reads_json_file p : reads (load_json_file p).
Proof. intros w r w'. unfold load_json_file. intros E. call_step E. by simplify_eq. Qed.

Lemma reads_get_profile root id : reads (get_profile root id).
Proof.
  unfold get_profile. repeat (apply loads_bind; intros);
    auto using reads_application, reads_lift, reads_trusted, loads_ret.
Qed.

Lemma reads_validate_staged mount_root generation items : reads (validate_staged mount_root generation items).
Proof.
  unfold validate_staged, validate_profile_file. repeat (apply loads_bind; intros);
    auto using reads_json_file, reads_lift, loads_ret.
Qed.

Lemma reads_manifest roots id : reads (read_managed_artifact_manifest roots id).
Proof.
  intros w r w'. unfold read_managed_artifact_manifest.
  destruct (symlink_status _ w) as [s w1] eqn:E. apply symlink_status_frame in E as (F & _ & _).
  destruct (read_trusted_config_file _ _ _ _ w1) as [c w2] eqn:E2. apply reads_trusted in E2.
  intros E. destruct s; simplify_eq; try done; by eapply frame_trans.
Qed.

Lemma reads_identity roots id expected : reads (require_expected_profile_identity roots id expected).
Proof.
  intros w r w'. unfold require_expected_profile_identity. destruct expected as [x|]; [|apply loads_ret].
  destruct (symlink_status _ w) as [s w1] eqn:E. apply symlink_status_frame in E as (F & _ & _).
  assert (forall r0 w0, (loaded ← get_profile (etc_root roots) id;
    se_lift (require (String.eqb (ConfigDomain.generation loaded) (ex_generation x)
      && String.eqb (fingerprint loaded) (ex_fingerprint x))
      (CodedValidationError ConfigurationChanged "profile identity changed before commit"))) w1 = (r0, w0) ->
    frame [] w w0) as Hg.
  { intros r0 w0 H0. eapply frame_trans; [exact F|]. revert H0. apply loads_bind; [apply reads_get_profile|].
    intros a. apply reads_lift. }
  intros E. destruct s; try (by simplify_eq); cbn zeta in E;
    destruct (negb (eqb _ (ex_exists x))); cbn [negb] in E; try (by simplify_eq); by eapply Hg.
Qed.

Lemma reads_planned generations profile roots expected :
  reads (planned_install generations profile roots expected).
Proof.
  unfold planned_install, append_obsolete_systemd_units. repeat (apply loads_bind; intros);
    auto using reads_manifest, reads_lift, loads_ret, reads_application.
Qed.

(** ** What is planned *)

Lemma render_inv generations p roots r :
  render_profile_artifacts generations p roots = Ok r ->
  exists private manifest public,
    str_empty (configuration_generation (rp_profile r)) = false
    /\ profile_id (rp_profile r) = profile_id p
    /\ dump_json (profile_to_json (rp_profile r)) = Ok private
    /\ let id := id_value (profile_id p) in
       let mount := abs_value (mount_point (target p)) in
       rp_artifacts r =
       [mkArtifact UdevRule (udev_path roots id) (render_udev (rp_profile r)) public_artifact_permissions OpWrite;
        mkArtifact SystemdMountDependency (dependency_path roots id) (render_mount_dependency (rp_profile r))
          public_artifact_permissions OpWrite;
        mkArtifact NativeTargetMount (unit_path roots (target_mount_unit_name mount))
          (render_target_mount_unit (rp_profile r)) public_artifact_permissions OpWrite;
        mkArtifact PrivateProfile (private_path roots id) private private_profile_permissions OpWrite;
        mkArtifact ManagedArtifactManifest (manifest_path roots id) manifest private_profile_permissions OpWrite;
        mkArtifact PublicProfile (public_path roots id) public public_artifact_permissions OpWrite].
Proof.
  unfold render_profile_artifacts. intros (g & -> & E)%res_bind_Ok. cbn zeta in E.
  apply res_bind_Ok in E as ([] & Eg & E). destruct (str_empty g) eqn:Hg; [done|].
  apply res_bind_Ok in E as (private & E1 & E). apply res_bind_Ok in E as (manifest & E2 & E).
  apply res_bind_Ok in E as (public & E3 & E). injection E as <-. cbn.
  exists private, manifest, public. by split_and!.
Qed.

Lemma managed_units_kind roots id retained manifest units :
  managed_systemd_units roots id retained manifest = Ok units ->
  Forall (λ a, pa_kind a = ObsoleteSystemdUnit) units.
Proof.
  unfold managed_systemd_units. destruct (mf_document manifest) as [d|]; [|intros [= <-]; constructor].
  intros (mounts & _ & (us & Eu & [= <-])%res_bind_Ok)%res_bind_Ok.
  revert us Eu. generalize (match mounts with JArray items => items | _ => [] end).
  intros l. induction l as [|x l IH]; intros us Eu; cbn in Eu; [by simplify_eq|].
  apply res_bind_Ok in Eu as (u & Ex & (us' & El & [= <-])%res_bind_Ok). cbn. apply Forall_app. split.
  - unfold managed_unit in Ex. repeat case_match; simplify_eq; by repeat constructor.
  - by apply IH.
Qed.

Lemma se_lift_inv {S A} (r : res A) (s s' : S) x : se_lift r s = (x, s') -> r = x /\ s' = s.
Proof. by intros [= <- <-]. Qed.

Lemma planned_inv generations profile roots expected w plan w0 :
  planned_install generations profile roots expected w = (Ok plan, w0) ->
  exists rendered units mount_root,
    render_profile_artifacts generations profile roots = Ok rendered
    /\ Forall (λ a, pa_kind a = ObsoleteSystemdUnit) units
    /\ plan = install_plan rendered (rp_artifacts rendered ++ units) mount_root roots expected.
Proof.
  unfold planned_install, append_obsolete_systemd_units. intros E.
  apply se_bind_inv in E as [(rendered & w1 & [Er ->]%se_lift_inv & E)|(e & _ & ?)]; [|done].
  apply se_bind_inv in E as [(artifacts & w2 & E1 & E)|(e & _ & ?)]; [|done].
  apply se_bind_inv in E1 as [(m & w3 & _ & E1)|(e & _ & ?)]; [|done].
  apply se_bind_inv in E1 as [(units & w4 & [Eu ->]%se_lift_inv & [= <- <-])|(e & _ & ?)]; [|done].
  apply se_bind_inv in E as [(application & w5 & _ & [= <- <-])|(e & _ & ?)]; [|done].
  exists rendered, units, (target_mount_root application). split_and!; [done| |done].
  by eapply managed_units_kind.
Qed.

(** What is assumed of the files when an installation starts, for what it will do. *)
Record install_ok (plan : TransactionPlan) (w : World) : Prop := mkInstallOk {
  io_separate : separate (tp_generation plan) (plan_items plan);
  io_fresh : Forall (λ i, w_files w !! previous_of (tp_generation plan) i = None) (plan_items plan);
  io_meanwhile : forall f i q, i ∈ plan_items plan ->
    q ∈ [staged_of (tp_generation plan) i; previous_of (tp_generation plan) i] ->
    w_meanwhile w f !! q = f !! q;
  io_locked : w_locked w = None;
}.

Lemma install_plan_ok generations profile roots expected w plan w0 :
  planned_install generations profile roots expected w = (Ok plan, w0) ->
  install_ok plan w -> plan_ok plan w0.
Proof.
  intros Hplan [Hs Hf Hm Hl]. pose proof (reads_planned _ _ _ _ _ _ _ Hplan) as F.
  apply planned_inv in Hplan as (rendered & units & mount_root & Hr & Hu & ->).
  split; try done.
  - apply render_inv in Hr as (private & manifest & public & _ & _ & _ & Ha). unfold plan_items. cbn.
    rewrite Ha. cbn. eexists. f_equal. clear -Hu. induction Hu as [|a l E _ IH]; [done|].
    cbn. unfold is_kind. cbn. rewrite E. exact IH.
  - by rewrite (frame_nil_files _ _ F).
  - by rewrite (frame_meanwhile _ _ _ F).
  - by rewrite (frame_locked _ _ _ F).
  - intros items. apply reads_validate_staged.
  - apply reads_identity.
Qed.

(** C18.  Installing a profile is all or nothing: when it returns, every file of the profile is the
    one rendered for it and the units that it no longer has are gone; when it throws and does not
    say that the rollback is incomplete, every one of these files is as it was when the lock was
    taken, or at the start when it was not taken. *)
Theorem install_all_or_nothing (generations : res string) (profile : Profile)
    (roots : ProfileArtifactRoots) (expected : option ExpectedProfileIdentity)
    (w w0 w' : World) (plan : TransactionPlan) (r : res unit)
    (Hplan : planned_install generations profile roots expected w = (Ok plan, w0))
    (Hok : install_ok plan w)
    (Hrun : install_profile_transactionally generations profile roots expected w = (r, w')) :
  reported euid plan w w' r.
Proof.
  unfold install_profile_transactionally in Hrun. rewrite se_bind_eq, Hplan in Hrun.
  pose proof (reads_planned _ _ _ _ _ _ _ Hplan) as F.
  apply transact_outcome in Hrun; [|by eapply install_plan_ok].
  unfold reported, committed, rolled_back in *. destruct r as [[]|e]; [done|].
  by rewrite <- (frame_nil_files _ _ F), <- (frame_active _ _ _ F).
Qed.

(** ** What is replaced is what was expected *)

Lemma read_trusted_spec p policy maximum w data w' :
  read_trusted_config_file euid p policy maximum w = (Ok data, w') ->
  exists mode owner, w_files w !! lexically_normal p = Some (Regular data mode owner).
Proof.
  unfold read_trusted_config_file, open_trusted_config_file. intros E. call_step E. rewrite Ef in E.
  injection E as E _. destruct fault; [done|].
  destruct (w_files w !! lexically_normal p) as [node|]; [|done].
  case_match; [done|]. cbn in E. apply res_bind_Ok in E as (d & E & Er).
  destruct node as [data' mode owner| |]; try done. cbn in E.
  apply res_bind_Ok in E as ([] & _ & E). apply res_bind_Ok in E as ([] & _ & [= <-]).
  unfold read_all in Er. case_match; [done|]. injection Er as <-. by exists mode, owner.
Qed.

(** The files hold the profile that the caller based its change on. *)
Definition identity_holds (roots : ProfileArtifactRoots) (id : ProfileId) (x : ExpectedProfileIdentity)
    (f : Files) : Prop :=
  let p := private_path roots (id_value id) in
  if ex_exists x
  then exists data mode owner mount_root loaded,
    f !! lexically_normal p = Some (Regular data mode owner)
    /\ loaded_profile_from_bytes data p mount_root = Ok loaded
    /\ ConfigDomain.generation loaded = ex_generation x /\ fingerprint loaded = ex_fingerprint x
  else f !! p = None.

Lemma get_profile_inv root id w loaded w' :
  get_profile root id w = (Ok loaded, w') ->
  exists data mode owner mount_root,
    w_files w !! lexically_normal (root /./ "profiles" /./ id_value id /./ "profile.json")
      = Some (Regular data mode owner)
    /\ loaded_profile_from_bytes data (root /./ "profiles" /./ id_value id /./ "profile.json") mount_root
       = Ok loaded.
Proof.
  unfold get_profile. intros E.
  apply se_bind_inv in E as [(application & w1 & E1 & E)|(e & _ & ?)]; [|done].
  apply reads_application, frame_nil_files in E1.
  apply se_bind_inv in E as [(p & w2 & [Ep ->]%se_lift_inv & E)|(e & _ & ?)]; [|done].
  unfold profile_json_path in Ep. apply res_bind_Ok in Ep as ([] & _ & [= <-]).
  apply se_bind_inv in E as [(data & w3 & E3 & E)|(e & _ & ?)]; [|done].
  apply read_trusted_spec in E3 as (mode & owner & Hf). rewrite E1 in Hf.
  apply se_bind_inv in E as [(l & w4 & [El ->]%se_lift_inv & E)|(e & _ & ?)]; [|done].
  apply se_bind_inv in E as [([] & w5 & [_ ->]%se_lift_inv & [= <- <-])|(e & _ & ?)]; [|done].
  by exists data, mode, owner, (target_mount_root application).
Qed.

Lemma identity_spec roots id x w w' :
  require_expected_profile_identity roots id (Some x) w = (Ok tt, w') ->
  identity_holds roots id x (w_files w).
Proof.
  unfold require_expected_profile_identity, identity_holds.
  destruct (symlink_status _ w) as [s w1] eqn:E. apply symlink_status_frame in E as (F & Ef & Hn).
  intros E. destruct s; try done; cbn zeta in E; destruct (ex_exists x); cbn [negb eqb] in E; try done;
    try (by apply Hn);
    (apply se_bind_inv in E as [(loaded & w2 & E2 & [E _]%se_lift_inv)|(e & _ & ?)]; [|done]);
    apply get_profile_inv in E2 as (data & mode & owner & mount_root & Hf & El); rewrite Ef in Hf;
    exists data, mode, owner, mount_root, loaded;
    destruct (_ && _) eqn:Eb in E; try done; apply andb_true_iff in Eb as [E1%String.eqb_eq E2%String.eqb_eq];
    done.
Qed.

(** No update is lost: when an installation that was given the identity of the profile it
    replaces returns, the profile that was there when the lock was taken had that identity, or there
    was none when none was expected, whatever other processes did before. *)
Theorem install_replaces_expected (generations : res string) (profile : Profile)
    (roots : ProfileArtifactRoots) (x : ExpectedProfileIdentity)
    (w w0 w' : World) (plan : TransactionPlan)
    (Hplan : planned_install generations profile roots (Some x) w = (Ok plan, w0))
    (Hok : install_ok plan w)
    (Hrun : install_profile_transactionally generations profile roots (Some x) w = (Ok tt, w')) :
  exists f, w_locked w' = Some f /\ identity_holds roots (profile_id profile) x f.
Proof.
  unfold install_profile_transactionally in Hrun. rewrite se_bind_eq, Hplan in Hrun.
  apply transact_Ok_inv in Hrun as (items & w2 & w3 & w4 & w5 & _ & _ & _ & _ & Hre & L);
    [|by eapply install_plan_ok].
  exists (w_files w4). split; [done|].
  apply planned_inv in Hplan as (rendered & units & mount_root & Hr & _ & ->).
  apply render_inv in Hr as (private & manifest & public & _ & Hid & _). cbn in Hre.
  rewrite Hid in Hre. by apply identity_spec in Hre.
Qed.

(** ** What is installed can be read *)

Lemma load_json_file_spec p w j w' :
  load_json_file p w = (Ok j, w') ->
  forall data mode owner, w_files w !! p = Some (Regular data mode owner) -> json_parse data = Ok j.
Proof.
  unfold load_json_file. intros E data mode owner Hf. call_step E. rewrite Ef in E.
  destruct fault; [done|]. cbn [follow] in E. rewrite Hf in E.
  destruct (json_parse data); by simplify_eq.
Qed.

Lemma validate_profile_file_spec p mount_root w profile w' data mode owner :
  validate_profile_file p mount_root w = (Ok profile, w') ->
  w_files w !! p = Some (Regular data mode owner) ->
  exists raw, json_parse data = Ok raw /\ profile_from_json raw mount_root = Ok profile
    /\ validate_profile_runtime_policy profile = Ok tt.
Proof.
  unfold validate_profile_file. intros E Hf.
  apply se_bind_inv in E as [(raw & w1 & E1 & E)|(e & _ & ?)]; [|done].
  eapply load_json_file_spec in E1; [|exact Hf].
  apply se_bind_inv in E as [(p' & w2 & [Ep ->]%se_lift_inv & E)|(e & _ & ?)]; [|done].
  apply se_bind_inv in E as [([] & w3 & [Ev ->]%se_lift_inv & [= <- <-])|(e & _ & ?)]; [|done].
  by exists raw.
Qed.

(** The bytes of the private profile among the staged items. *)
Lemma validate_staged_spec mount_root generation items w w' i :
  validate_staged mount_root generation items w = (Ok tt, w') ->
  List.find (is_kind PrivateProfile) items = Some i ->
  forall data mode owner, w_files w !! ti_staged i = Some (Regular data mode owner) ->
  exists raw profile, json_parse data = Ok raw /\ profile_from_json raw mount_root = Ok profile
    /\ validate_profile_runtime_policy profile = Ok tt /\ configuration_generation profile = generation.
Proof.
  unfold validate_staged, staged_path. intros E Hi data mode owner Hf. rewrite Hi in E.
  apply se_bind_inv in E as [(p & w1 & [[= <-] ->]%se_lift_inv & E)|(e & _ & ?)]; [|done].
  apply se_bind_inv in E as [(profile & w2 & E2 & E)|(e & _ & ?)]; [|done].
  eapply validate_profile_file_spec in E2 as (raw & Hp & Hj & Hv); [|exact Hf].
  apply se_bind_inv in E as [(public & w3 & _ & E)|(e & _ & ?)]; [|done].
  apply se_bind_inv in E as [(j & w4 & _ & E)|(e & _ & ?)]; [|done].
  apply se_bind_inv in E as [(g & w5 & _ & [E _]%se_lift_inv)|(e & _ & ?)]; [|done].
  exists raw, profile. split_and!; try done.
  destruct (_ && _) eqn:Eb in E; [|done]. by apply andb_true_iff in Eb as [E1%String.eqb_eq _].
Qed.

Lemma find_same kind l k :
  Forall2 same_item l k ->
  forall i, List.find (is_kind kind) l = Some i ->
  exists j, List.find (is_kind kind) k = Some j /\ same_item i j /\ j ∈ k.
Proof.
  induction 1 as [|a b l k S _ IH]; [done|]. intros i. cbn.
  assert (is_kind kind b = is_kind kind a) as -> by (unfold is_kind; by rewrite (same_kind _ _ S)).
  case_match; [intros [= <-]; exists b; set_solver|].
  intros (j & Hj & Sj & Hin)%IH. exists j. set_solver.
Qed.

Lemma List_find_elem {A} (p : A -> bool) l x : List.find p l = Some x -> x ∈ l.
Proof. intros [Hin _]%find_some. by apply list_elem_of_In. Qed.

(** What an installation leaves behind is a profile that is accepted when it is read: the file
    at the private path is the rendered document with the permissions 0600, which every check of
    [loaded_profile_from_bytes] accepts, with the generation of this installation. *)
Theorem installed_profile_accepted (generations : res string) (profile : Profile)
    (roots : ProfileArtifactRoots) (expected : option ExpectedProfileIdentity)
    (w w0 w' : World) (plan : TransactionPlan)
    (Hplan : planned_install generations profile roots expected w = (Ok plan, w0))
    (Hok : install_ok plan w)
    (Hrun : install_profile_transactionally generations profile roots expected w = (Ok tt, w')) :
  let p := private_path roots (id_value (profile_id profile)) in
  exists data mount_root loaded,
    w_files w' !! p = Some (Regular data private_profile_permissions euid)
    /\ loaded_profile_from_bytes data p mount_root = Ok loaded
    /\ ConfigDomain.generation loaded = tp_generation plan
    /\ (euid = 0 \/ is_system_root (etc_root roots) = false ->
         assert_trusted_config euid (Regular data private_profile_permissions euid) p
           (profile_policy (etc_root roots)) = Ok data).
Proof.
  unfold install_profile_transactionally in Hrun. rewrite se_bind_eq, Hplan in Hrun.
  pose proof (install_plan_ok _ _ _ _ _ _ _ Hplan Hok) as Hpo.
  pose proof (transact_outcome _ _ _ _ _ Hpo Hrun) as [Hpub _].
  apply transact_Ok_inv in Hrun as (items & w2 & w3 & w4 & w5 & _ & Hpend & Hsame & Hval & _ & _); [|done].
  apply planned_inv in Hplan as (rendered & units & mount_root & Hr & _ & ->).
  apply render_inv in Hr as (private & manifest & public & Hg & Hid & _ & Ha).
  set (plan := install_plan rendered _ mount_root roots expected) in *.
  assert (List.find (is_kind PrivateProfile) (plan_items plan)
    = Some (mkItem PrivateProfile (private_path roots (id_value (profile_id profile))) "" "" private
              private_profile_permissions OpWrite false false)) as Hfind.
  { unfold plan_items, plan, install_plan. cbn [tp_artifacts]. rewrite Ha. reflexivity. }
  destruct (find_same _ _ _ Hsame _ Hfind) as (i & Hi & S & Hin).
  rewrite Forall_forall in Hpend. destruct (Hpend i Hin) as ([Hst _] & _ & _ & _ & _ & Hnode).
  specialize (Hnode (same_operation _ _ S)). rewrite <- Hst in Hnode.
  unfold staged_node in Hnode. rewrite (same_content _ _ S), (same_permissions _ _ S) in Hnode. cbn in Hnode.
  cbn [tp_validate plan install_plan] in Hval.
  eapply validate_staged_spec in Hval as (raw & q & Hp & Hj & Hv & Hgen); [|exact Hi|exact Hnode].
  exists private, mount_root. eexists. split_and!.
  - rewrite Forall_forall in Hpub. specialize (Hpub _ (List_find_elem _ _ _ Hfind)). apply Hpub.
  - unfold loaded_profile_from_bytes. rewrite Hp. cbn [mbind res_bind].
    unfold profile_from_json in Hj. apply res_bind_Ok in Hj as (document & -> & Hd). cbn [mbind res_bind].
    rewrite Hd. cbn [mbind res_bind]. rewrite Hv. cbn [mbind res_bind]. rewrite Hgen, Hg. reflexivity.
  - reflexivity.
  - intros Ht. unfold assert_trusted_config, profile_policy. cbn [allow_current_user_owner allow_group_other_read].
    destruct Ht as [->| ->]; [reflexivity|]. cbn [negb andb]. by rewrite (Z.eqb_refl euid), orb_true_r.
Qed.

End install.

(** ** Hook programs *)

Lemma drop_empty_names l : Forall is_name l -> drop_empty l = l.
Proof. intros Hl. destruct Hl as [|x l [Hx _] _]; [done|]. by destruct x. Qed.

Lemma parent_path_render l n :
  Forall is_name (l ++ [n]) -> parent_path (pp_render (mkPP true (l ++ [n]) false)) = pp_render (mkPP true l false).
Proof.
  intros Hl. assert (pp_wf (mkPP true (l ++ [n]) false)) as Hwf by (by split).
  unfold parent_path. rewrite (pp_parse_render _ Hwf). cbn [pp_names].
  rewrite bool_decide_eq_false_2 by (by destruct l).
  assert (split_slash (pp_render (mkPP true (l ++ [n]) false)) = "" :: l ++ [n]) as Hsp.
  { unfold pp_render. cbn. rewrite string_app_nil_r, split_join; [done|done|by destruct l]. }
  assert (is_absolute (pp_render (mkPP true (l ++ [n]) false)) = true) as ->.
  { unfold is_absolute. by rewrite pp_parse_render. }
  rewrite Hsp. change ("" :: l ++ [n]) with (("" :: l) ++ [n]). rewrite removelast_last.
  apply Forall_app in Hl as [Hl _]. cbn [rev]. destruct l as [|y0 l0] eqn:El; [done|]. rewrite <- El in *.
  destruct (exists_last (l := l)) as (l' & x & ->); [by rewrite El|]. clear y0 l0 El.
  apply Forall_app in Hl as [Hl' [[Hx _] _]%Forall_cons]. destruct x as [|c x]; [done|].
  assert (drop_empty (rev (l' ++ [String c x]) ++ [""]) = rev ("" :: l' ++ [String c x])) as ->.
  { rewrite rev_app_distr. cbn [rev app drop_empty]. by rewrite rev_app_distr. }
  rewrite rev_involutive. unfold pp_render. cbn [pp_root pp_names pp_trail].
  rewrite string_app_nil_r. by destruct l'.
Qed.

(** The policy accepts exactly the hook programs that are files directly in the trusted
    directory: an absolute program is accepted when, in normal form, it is that directory and one
    plain name, so neither [..] nor a subdirectory leads out of it. *)
Theorem hook_allowed_spec (hook : ProfileHookCommand) (Habs : is_absolute (hook_program hook) = true) :
  hook_allowed hook = true <->
  exists n, plain_component n /\ lexically_normal (hook_program hook) = trusted_hook_directory +:+ "/" +:+ n.
Proof.
  destruct (lexically_normal_abs _ Habs) as ((Hroot & Hpl & Htr) & E1 & E2). unfold hook_allowed.
  rewrite E1. destruct (pp_normal (pp_parse (hook_program hook))) as [root names trail].
  cbn in Hroot, Hpl, Htr. subst root. pose proof (plain_names _ Hpl) as Hn.
  assert (pp_wf (mkPP true names trail)) as Hwf by (by split).
  unfold filename at 1 2 3. rewrite (pp_parse_render _ Hwf). unfold pp_has_filename. cbn [pp_names pp_trail].
  assert (trusted_hook_directory = pp_render (mkPP true ["etc"; "btrfs-backup"; "hooks.d"] false)) as Ht
    by reflexivity.
  destruct (decide (names = [])) as [->|Hne].
  { destruct trail; [by destruct (Htr eq_refl)|]. split; [intros Hf; by vm_compute in Hf|].
    intros (n & [Hnn _] & En).
    apply (f_equal String.length) in En. rewrite string_length_app in En. cbn in En. lia. }
  rewrite (bool_decide_eq_false_2 _ Hne). cbn [negb andb].
  destruct (exists_last Hne) as (l & n & ->). apply Forall_app in Hpl as [Hl [Hpn _]%Forall_cons].
  pose proof (plain_is_name _ Hpn) as Hnn. destruct trail; cbn [negb].
  { rewrite andb_false_r. split; [done|]. intros (m & [Hm1 [Hm2 _]] & Em). exfalso.
    apply (f_equal pp_parse) in Em. rewrite (pp_parse_render _ Hwf) in Em.
    assert (pp_trail (pp_parse (trusted_hook_directory +:+ "/" +:+ m)) = false) as Hf.
    { pose proof (named_filename (trusted_hook_directory +:+ "/" +:+ m)) as X. unfold pp_has_filename in X.
      rewrite andb_true_iff, !negb_true_iff in X. apply X. do 2 apply named_app. by apply named_name. }
    by rewrite <- Em in Hf. }
  rewrite List.last_last, (parent_path_render l n Hn).
  assert (pp_wf (mkPP true l false)) as Hwl by (split; [by apply plain_names|done]).
  assert (str_empty n = false) as -> by (destruct Hnn; by destruct n).
  assert (path_eqb n "." = false /\ path_eqb n ".." = false) as [-> ->].
  { unfold path_eqb. destruct Hpn as (_ & _ & Hd1 & Hd2). rewrite path_elements_name by done.
    split; apply bool_decide_eq_false_2; cbn; intros [= ->]; done. }
  rewrite !andb_true_r. unfold path_eqb, path_elements. rewrite (pp_parse_render _ Hwl), bool_decide_eq_true.
  cbn [pp_elements pp_root pp_names pp_trail].
  split.
  - cbn. intros Hel. rewrite !app_nil_r in Hel. injection Hel as ->.
    exists n. split; [done|]. unfold pp_render. cbn. by rewrite string_app_nil_r.
  - intros (m & Hm & Em). apply (f_equal pp_parse) in Em. rewrite (pp_parse_render _ Hwf) in Em.
    assert (trusted_hook_directory +:+ "/" +:+ m
      = pp_render (mkPP true (["etc"; "btrfs-backup"; "hooks.d"] ++ [m]) false)) as Em'.
    { unfold pp_render. cbn. by rewrite string_app_nil_r. }
    rewrite Em', pp_parse_render in Em.
    + injection Em as Em. change [_; _; _; m] with (["etc"; "btrfs-backup"; "hooks.d"] ++ [m]) in Em.
      apply app_inj_2 in Em as [-> _]; done.
    + split; [|done]. cbn [pp_names]. apply Forall_app. split; [by repeat constructor|].
      constructor; [by apply plain_is_name|done].
Qed.

(** ** Examples *)

(** A table of documents with short texts, so that runs are computed: the first documents are
    written as [t], [tt] and so on. *)
Definition json_eqb (j k : Json) : bool := bool_decide (json_tree j = json_tree k).

Fixpoint table_dump (table : list Json) (j : Json) (text : string) : string :=
  match table with
  | [] => pos_text (encode (json_tree j))
  | k :: table => if json_eqb j k then text else table_dump table j (String "t" text)
  end.

Fixpoint table_parse (table : list Json) (s : string) (text : string) : res Json :=
  match table with
  | [] => bits_parse s
  | k :: table =>
      if String.eqb s (text +:+ String newline "") then Ok (json_canonical k)
      else table_parse table s (String "t" text)
  end.

Lemma table_dump_shape table j text t' :
  (exists n, text = str_repeat "t" (S n)) -> (String.length t' < String.length text)%nat ->
  str_at 0 t' = "t"%char -> t' <> "" -> table_dump table j text <> t'.
Proof.
  revert text. induction table as [|k table IH]; intros text (n & ->) Hl Ht Hne; cbn [table_dump].
  - intros E. rewrite <- E in Ht, Hne. destruct (encode (json_tree j)); cbn in *; done.
  - case_match; [intros <-; lia|]. apply IH; [by exists (S n)|cbn in *; lia|done|done].
Qed.

Lemma table_parse_dump table j text :
  (exists n, text = str_repeat "t" (S n)) ->
  table_parse table (table_dump table j text +:+ String newline "") text = Ok (json_canonical j).
Proof.
  revert text. induction table as [|k table IH]; intros text (n & ->); cbn [table_dump table_parse].
  - apply bits_parse_dump.
  - unfold json_eqb. destruct (decide (json_tree j = json_tree k)) as [E|E].
    + rewrite bool_decide_eq_true_2, String.eqb_refl by done.
      apply (f_equal tree_json) in E. apply (f_equal snd) in E. rewrite !tree_json_tree in E. by rewrite E.
    + rewrite bool_decide_eq_false_2 by done.
      destruct (String.eqb_spec (table_dump table j (String "t" (str_repeat "t" (S n))) +:+ String newline "")
        (str_repeat "t" (S n) +:+ String newline "")) as [Eq|_]; [|by apply IH; exists (S n)].
      apply string_app_inj_r in Eq as [Eq _]; [|done]. exfalso.
      eapply table_dump_shape; [| | | |exact Eq]; [by exists (S n)|cbn; lia|done|done].
Qed.

Definition table_text (table : list Json) : JsonText := {|
  json_dump j := Ok (table_dump table j "t");
  json_parse s := table_parse table s "t";
  valid_utf8 _ := true;
  float_value _ := 0;
  valid_utf8_ascii _ _ := eq_refl;
  json_parse_dump j _ :=
    ex_intro _ _ (conj eq_refl (table_parse_dump table j "t" (ex_intro _ O eq_refl)));
  json_dump_utf8 _ _ _ H := H;
|}.

Definition ex_installed : res Profile :=
  @profile_from_json bits_text (JObject (("hooks", JObject [("beforeSnapshot", JArray [JObject [
     ("type", JString "program"); ("program", JString "/etc/btrfs-backup/hooks.d/sync");
     ("arguments", JArray []); ("timeoutSeconds", JUInt 60)]])]) :: ex_members)) ex_root.

Definition ex_generation_text : string := "0123456789abcdef0123456789abcdef".

(** The documents that installing the profile writes. *)
Definition ex_table : list Json :=
  match ex_installed with
  | Ok p =>
      let rendered := mkProfile ex_generation_text (profile_id p) (profile_name p) (profile_enabled p)
        (target p) (paths p) (settings p) (hooks p) (sources p) in
      let mount := abs_value (mount_point (target p)) in
      [profile_to_json rendered; manifest_json (id_value (profile_id p)) (target_mount_unit_name mount) mount;
       public_profile_json rendered]
  | Throw _ => []
  end.

Definition ex_roots : ProfileArtifactRoots := mkRoots "/t/etc" "/t/udev" "/t/systemd" "/t/public".

Definition ex_none : option ExpectedProfileIdentity := Some (mkExpected false "" "").

Definition ex_empty : World :=
  mkWorld {["/" := Directory 493 0]} 0 (λ _ _, None) false (λ f, f) None None.

Definition ex_planned (p : Profile) : res TransactionPlan * World :=
  @planned_install (table_text ex_table) 0 "/" (λ _, None) (Ok ex_generation_text) p ex_roots ex_none ex_empty.

Definition ex_install (p : Profile) : res unit * World :=
  @install_profile_transactionally (table_text ex_table) 0 "/" (λ _, None) (Ok ex_generation_text) p
    ex_roots ex_none ex_empty.

(** A first installation: planned, apart, and it returns. *)
Lemma ex_first_install :
  exists p plan w0 w', ex_installed = Ok p /\ ex_planned p = (Ok plan, w0) /\ install_ok plan ex_empty
    /\ ex_install p = (Ok tt, w').
Proof.
  assert (match ex_installed with
          | Ok p => match ex_planned p, ex_install p with
                    | (Ok plan, _), (Ok _, _) =>
                        bool_decide (separate (tp_generation plan) (plan_items plan))
                        && bool_decide (Forall (λ i, w_files ex_empty !! previous_of (tp_generation plan) i = None)
                                          (plan_items plan))
                    | _, _ => false
                    end
          | _ => false
          end = true) as Hv by (vm_compute; reflexivity).
  destruct ex_installed as [p|]; [|discriminate Hv].
  destruct (ex_planned p) as [[plan|] w0] eqn:E1; [|discriminate Hv].
  destruct (ex_install p) as [[[]|] w'] eqn:E2; [|discriminate Hv].
  apply andb_true_iff in Hv as [Hs%bool_decide_eq_true_1 Hf%bool_decide_eq_true_1].
  exists p, plan, w0, w'. by split_and!; try done; split.
Qed.

Lemma install_all_or_nothing_witness :
  exists p plan w0 w', ex_planned p = (Ok plan, w0) /\ ex_install p = (Ok tt, w')
    /\ reported 0 plan ex_empty w' (Ok tt).
Proof.
  destruct ex_first_install as (p & plan & w0 & w' & _ & E1 & Hok & E2).
  exists p, plan, w0, w'. split_and!; [exact E1|exact E2|].
  eapply (@install_all_or_nothing (table_text ex_table) 0 "/" (λ _, None)); [exact E1|exact Hok|exact E2].
Defined.

Lemma install_replaces_expected_witness :
  exists p w' f, ex_install p = (Ok tt, w') /\ w_locked w' = Some f
    /\ @identity_holds (table_text ex_table) ex_roots (profile_id p) (mkExpected false "" "") f.
Proof.
  destruct ex_first_install as (p & plan & w0 & w' & _ & E1 & Hok & E2).
  destruct (@install_replaces_expected (table_text ex_table) 0 "/" (λ _, None) (Ok ex_generation_text) p ex_roots
    (mkExpected false "" "") ex_empty w0 w' plan E1 Hok E2) as (f & L & Hi).
  exists p, w', f. split_and!; [exact E2|exact L|exact Hi].
Defined.

Lemma installed_profile_accepted_witness :
  exists p w' data mount_root loaded, ex_install p = (Ok tt, w')
    /\ w_files w' !! private_path ex_roots (id_value (profile_id p)) = Some (Regular data 384 0)
    /\ @loaded_profile_from_bytes (table_text ex_table) data
         (private_path ex_roots (id_value (profile_id p))) mount_root = Ok loaded.
Proof.
  destruct ex_first_install as (p & plan & w0 & w' & _ & E1 & Hok & E2).
  destruct (@installed_profile_accepted (table_text ex_table) 0 "/" (λ _, None) (Ok ex_generation_text) p ex_roots
    ex_none ex_empty w0 w' plan E1 Hok E2) as (data & mount_root & loaded & Hf & Hl & _).
  exists p, w', data, mount_root, loaded. split_and!; [exact E2|exact Hf|exact Hl].
Defined.

Lemma hook_allowed_spec_witness :
  exists n, plain_component n
    /\ lexically_normal "/etc/btrfs-backup/./hooks.d/sync" = trusted_hook_directory +:+ "/" +:+ n.
Proof.
  apply (proj1 (hook_allowed_spec (mkHook "/etc/btrfs-backup/./hooks.d/sync" [] 60) eq_refl)).
  vm_compute. reflexivity.
Defined.
