(* ===== verification/RunStateStore.v ===== *)
(** * The state of runs on disk (src/state/query/RunState, src/state/persistence,
      src/state/cancellation)

    The success state, the markers of pending snapshots, the active run and requests to cancel
    it are small documents of lines [key=value] in the state directory of a profile.  A program
    makes calls on files ([FileCall]); each call is atomic, may fail, and between two calls other
    processes may change the files. *)

From S2P Require Import Prelude Errors Identifiers RuntimeTime FsPath ConfigDomain Json.
From S2P Require Import PendingRecovery RunActions RunContext RunStatus StatusBuilder StatusDocument.
From S2P Require Import Interaction ProfileInstall.

Open Scope Z_scope.

(** ** Calls on files *)

(** The operations of IPersistentDocumentOperations, and the looks the code takes itself:
    [is_regular_file(path, error) && !error], and the contents a file stream delivers, which are
    empty when the file cannot be read. *)
Inductive FileCall : Type -> Type :=
| Perform (op : FileOp) : FileCall unit
| RemoveDurably (p : path) : FileCall unit
| IsRegularFile (p : path) : FileCall bool
| ReadFile (p : path) : FileCall string.

Abbreviation FP := (prog unit FileCall).

Definition perform (op : FileOp) : FP unit := call (Perform op).

Fixpoint perform_all (ops : list FileOp) : FP unit :=
  match ops with
  | [] => mret tt
  | op :: ops => _ ← perform op; perform_all ops
  end.

(** ** State documents *)

(** src/state/query/RunState.cpp:27-32 *)
Definition lower_text (value : string) : string := str_map to_lower value.

(** [values.emplace]: the first value of a key counts. *)
Definition emplace (values : gmap string string) (k v : string) : gmap string string :=
  match values !! k with Some _ => values | None => <[k := v]> values end.

Definition take_line (values : gmap string string) (line : string) : gmap string string :=
  match split_assignment line with Some (k, v) => emplace values k v | None => values end.

(** src/state/query/RunState.cpp:34-45 *)
Definition parse_state_document (document : string) : gmap string string :=
  foldl take_line ∅ (getlines document).

(** src/state/query/RunState.cpp:47-52 *)
Definition read_state_file (p : path) : FP (gmap string string) :=
  content ← call (ReadFile p);
  mret (parse_state_document content).

(** src/state/query/RunState.cpp:54-57 *)
Definition get_value (values : gmap string string) (k : string) : string := default "" (values !! k).

(** src/state/query/RunState.cpp:59-63 *)
Definition require_non_empty (value field : string) : res unit :=
  require (negb (str_empty value)) (ValidationError (field +:+ " is required")).

(** src/state/query/RunState.cpp:65-70 *)
Definition require_absolute_path (value field : string) : res unit :=
  _ ← require_non_empty value field;
  require (Ascii.eqb (str_at 0 value) "/") (ValidationError (field +:+ " must be an absolute path")).

(** [content << key << '=' << value << '\n'] *)
Definition state_line (entry : string * string) : string :=
  entry.1 +:+ "=" +:+ entry.2 +:+ String newline "".

Fixpoint state_document (entries : list (string * string)) : string :=
  match entries with
  | [] => ""
  | entry :: entries => state_line entry +:+ state_document entries
  end.

(** ** RunState *)

(** src/state/query/RunState.hpp:21-30 *)
Record SuccessState := mkSuccessState {
  ss_date : LocalDate;
  ss_timestamp : RuntimeTimePoint;
  ss_run_id : RunId;
  ss_profile_id : ProfileId;
  ss_profile_name : string;
  ss_source_count : Z;
  ss_target_luks_uuid : string;
  ss_config_fingerprint : string;
}.

Section state.
(** The text of a time point in the time zone of the system. *)
Context (format_local_timestamp : RuntimeTimePoint -> string).

(** src/state/query/RunState.cpp:76-92 *)
Definition last_success_matches (dir : path) (today : LocalDate) (target_luks_uuid config_fingerprint : string)
    : FP bool :=
  let state_file := path_append dir "last-success" in
  regular ← call (IsRegularFile state_file);
  if negb regular then mret false
  else
    values ← read_state_file state_file;
    mret ((get_value values "date" =? format_local_date today)%string
          && (lower_text (get_value values "target_luks_uuid") =? lower_text target_luks_uuid)%string
          && (get_value values "config_fingerprint" =? config_fingerprint)%string).

(** src/state/query/RunState.cpp:94-97 *)
Definition parse_last_success_timestamp (document : string) : option string :=
  let timestamp := get_value (parse_state_document document) "timestamp" in
  if str_empty timestamp then None else Some timestamp.

Definition success_entries (state : SuccessState) : list (string * string) :=
  [("date", format_local_date (ss_date state));
   ("timestamp", format_local_timestamp (ss_timestamp state));
   ("run_id", id_value (ss_run_id state));
   ("profile_id", id_value (ss_profile_id state));
   ("profile_name", ss_profile_name state);
   ("source_count", setw0 0 (ss_source_count state));
   ("target_luks_uuid", ss_target_luks_uuid state);
   ("config_fingerprint", ss_config_fingerprint state)].

(** src/state/query/RunState.cpp:99-126 *)
Definition write_success_state (dir : path) (state : SuccessState) : FP unit :=
  _ ← lift (require_non_empty (ss_profile_name state) "profile_name");
  _ ← lift (require (0 <=? ss_source_count state) (ValidationError "source_count must be non-negative"));
  _ ← perform (EnsureDirectory dir 448);
  perform (WriteAtomically (path_append dir "last-success") (state_document (success_entries state)) 384).

(** src/state/query/RunState.cpp:128-130 *)
Definition cancel_request_path (dir : path) : path := path_append dir "cancel-request".

(** src/state/query/RunState.cpp:132-134 *)
Definition active_run_path (dir : path) : path := path_append dir "active-run".

(** [run_id=...] *)
Definition run_line (r : RunId) : string := state_document [("run_id", id_value r)].

(** src/state/query/RunState.cpp:136-147 *)
Definition write_active_run (dir : path) (r : RunId) : FP unit :=
  _ ← perform (EnsureDirectory dir 448);
  perform (WriteAtomically (active_run_path dir) (run_line r) 384).

(** src/state/query/RunState.cpp:149-157 *)
Definition active_run (dir : path) : FP (option RunId) :=
  let p := active_run_path dir in
  regular ← call (IsRegularFile p);
  if negb regular then mret None
  else
    values ← read_state_file p;
    let run_id := get_value values "run_id" in
    if str_empty run_id then mret None
    else r ← lift (make_ident KRun run_id); mret (Some r).

(** src/state/query/RunState.cpp:159-168 *)
Definition clear_active_run (dir : path) (r : RunId) : FP unit :=
  current ← active_run dir;
  if bool_decide (current = Some r) then call (RemoveDurably (active_run_path dir)) else mret tt.

(** src/state/query/RunState.cpp:170-181 *)
Definition write_cancel_request (dir : path) (r : RunId) : FP unit :=
  _ ← perform (EnsureDirectory dir 448);
  perform (WriteAtomically (cancel_request_path dir) (run_line r) 384).

(** src/state/query/RunState.cpp:183-186 *)
Definition any_cancel_requested (dir : path) : FP bool := call (IsRegularFile (cancel_request_path dir)).

(** src/state/query/RunState.cpp:188-195 *)
Definition cancel_requested (dir : path) (r : RunId) : FP bool :=
  let p := cancel_request_path dir in
  regular ← call (IsRegularFile p);
  if negb regular then mret false
  else
    values ← read_state_file p;
    mret (get_value values "run_id" =? id_value r)%string.

(** src/state/query/RunState.cpp:197-199 *)
Definition clear_any_cancel_request (dir : path) : FP unit := call (RemoveDurably (cancel_request_path dir)).

(** src/state/query/RunState.cpp:201-209 *)
Definition clear_cancel_request (dir : path) (r : RunId) : FP unit :=
  requested ← cancel_requested dir r;
  if (requested : bool) then clear_any_cancel_request dir else mret tt.

(** src/state/query/RunState.cpp:211-213 *)
Definition pending_marker_path (dir : path) (s : SourceId) : path :=
  path_append dir ("pending-" +:+ id_value s).

Definition marker_entries (marker : PendingMarker) : list (string * string) :=
  [("source_name", id_value (pm_source_id marker));
   ("local_snapshot_path", pm_local_snapshot_path marker);
   ("final_snapshot_path", pm_final_snapshot_path marker);
   ("run_id", id_value (pm_run_id marker));
   ("timestamp", format_utc_iso_timestamp (pm_timestamp marker))].

(** src/state/query/RunState.cpp:215-237 *)
Definition write_pending_marker (dir : path) (marker : PendingMarker) : FP unit :=
  _ ← lift (require_absolute_path (pm_local_snapshot_path marker) "local_snapshot_path");
  _ ← lift (require_absolute_path (pm_final_snapshot_path marker) "final_snapshot_path");
  _ ← perform (EnsureDirectory dir 448);
  perform (WriteAtomically (pending_marker_path dir (pm_source_id marker))
             (state_document (marker_entries marker)) 384).

(** src/state/query/RunState.cpp:239-242 *)
Definition read_pending_marker_field (marker_path : path) (field : string) : FP string :=
  values ← read_state_file marker_path;
  mret (get_value values field).

(** src/state/query/RunState.cpp:244-246 *)
Definition clear_pending_marker (marker_path : path) : FP unit := call (RemoveDurably marker_path).

(** ** FilePendingMarkerStore *)

(** The file is read anew for every field.
    src/state/persistence/FilePendingMarkerStore.cpp:17-37 *)
Definition marker_read (dir : path) (s : SourceId) : FP (option PendingMarker) :=
  let p := pending_marker_path dir s in
  regular ← call (IsRegularFile p);
  if negb regular then mret None
  else
    text ← read_pending_marker_field p "timestamp";
    match parse_utc_timestamp text with
    | None => mret None
    | Some timestamp =>
        name ← read_pending_marker_field p "source_name";
        source_id ← lift (make_ident KSource name);
        local ← read_pending_marker_field p "local_snapshot_path";
        final ← read_pending_marker_field p "final_snapshot_path";
        run ← read_pending_marker_field p "run_id";
        run_id ← lift (make_ident KRun run);
        mret (Some (mkMarker source_id local final run_id timestamp))
    end.

(** src/state/persistence/FilePendingMarkerStore.cpp:39-44 *)
Definition marker_write (dir : path) (marker : PendingMarker) : FP unit := write_pending_marker dir marker.

(** src/state/persistence/FilePendingMarkerStore.cpp:46-48 *)
Definition marker_clear (marker_path : path) : FP unit := clear_pending_marker marker_path.

(** ** FileActiveRunRegistration *)

(** The members [closed_] and [close_diagnostic_] of a registration.
    src/state/cancellation/FileActiveRunRegistration.hpp:14-35 *)
Record Registration := mkRegistration {
  rg_dir : path;
  rg_run_id : RunId;
  rg_closed : bool;
  rg_diagnostic : option string;
}.

(** src/state/cancellation/FileActiveRunRegistration.cpp:32-45 *)
Definition registration_close (rg : Registration) : FP (option string * Registration) :=
  if rg_closed rg then mret (rg_diagnostic rg, rg)
  else
    diagnostic ← catch (_ ← clear_active_run (rg_dir rg) (rg_run_id rg); mret None)
      (λ e, mret (Some (if is_std_exception e then exn_what e else "unknown active run cleanup failure")));
    mret (diagnostic, mkRegistration (rg_dir rg) (rg_run_id rg) true diagnostic).

(** ** FileRunStateRepository *)

Section repository.
Context `{JsonText} (paths : ApplicationPaths).

(** src/state/persistence/FileRunStateRepository.cpp:30-32 *)
Definition state_dir (profile_id : ProfileId) : path := profile_state_dir paths (id_value profile_id).

(** src/state/persistence/FileRunStateRepository.cpp:34-45 *)
Definition ledger_last_success_matches (profile : Profile) (date : LocalDate) (fingerprint : string) : FP bool :=
  last_success_matches (state_dir (profile_id profile)) date (luks_uuid (target_identity (target profile)))
    fingerprint.

Definition no_progress : RunProgress := mkRunProgress 0 None 0 0 None None None Indeterminate.

(** [static_cast<int>(source_count)] *)
Definition skipped_status (profile : Profile) (r : RunId) (started_at finished_at : RuntimeTimePoint)
    (source_count : Z) : RunStatus :=
  mkRunStatus (profile_id profile) (profile_name profile) r StatusBackup StateSkipped PhaseSkipped
    "A successful backup already exists for today; no new snapshot was created." ""
    (mapper_name (target_identity (target profile))) 0 (to_int32 source_count) started_at finished_at
    (Some finished_at) None [] false no_progress 0.

(** src/state/persistence/FileRunStateRepository.cpp:47-75 *)
Definition write_skipped (profile : Profile) (r : RunId) (started_at finished_at : RuntimeTimePoint)
    (source_count : Z) : FP unit :=
  let status := skipped_status profile r started_at finished_at source_count in
  ops ← lift (current_status_ops (ConfigDomain.status_root paths) status);
  _ ← perform_all ops;
  ops ← lift (history_entry_ops (ConfigDomain.history_root paths) status);
  perform_all ops.

(** src/state/persistence/FileRunStateRepository.cpp:77-99 *)
Definition write_success (profile : Profile) (r : RunId) (date : LocalDate) (timestamp : RuntimeTimePoint)
    (fingerprint : string) (source_count : Z) : FP unit :=
  write_success_state (state_dir (profile_id profile))
    (mkSuccessState date timestamp r (profile_id profile) (profile_name profile) (to_int32 source_count)
       (luks_uuid (target_identity (target profile))) fingerprint).

(** The registration is made first; when a step throws, its destructor closes it.
    src/state/persistence/FileRunStateRepository.cpp:117-125 *)
Definition register_active_run (request : CancellationRequest) : FP Registration :=
  let directory := state_dir (creq_profile_id request) in
  let registration := mkRegistration directory (creq_run_id request) false None in
  catch (_ ← clear_any_cancel_request directory;
         _ ← write_active_run directory (creq_run_id request);
         mret registration)
    (λ e, _ ← registration_close registration; raise e).

(** src/state/persistence/FileRunStateRepository.cpp:158-162 *)
Definition repository_clear_cancel_request (request : CancellationRequest) : FP unit :=
  clear_cancel_request (state_dir (creq_profile_id request)) (creq_run_id request).

(** src/state/persistence/FileRunStateRepository.cpp:127-150 *)
Definition request_cancel (request : CancellationRequest) : FP CancellationRequestOutcome :=
  let directory := state_dir (creq_profile_id request) in
  active ← active_run directory;
  match active with
  | None => mret StaleRun
  | Some a =>
      if negb (bool_decide (a = creq_run_id request)) then mret RunMismatch
      else
        _ ← write_cancel_request directory (creq_run_id request);
        confirmed ← active_run directory;
        match confirmed with
        | None => _ ← repository_clear_cancel_request request; mret StaleRun
        | Some c =>
            if negb (bool_decide (c = creq_run_id request))
            then _ ← repository_clear_cancel_request request; mret RunMismatch
            else mret Accepted
        end
  end.

(** src/state/persistence/FileRunStateRepository.cpp:152-156 *)
Definition repository_cancel_requested (request : CancellationRequest) : FP bool :=
  cancel_requested (state_dir (creq_profile_id request)) (creq_run_id request).

(** ** JsonFileBackupRunCheckpointStore *)

(** [now] is what the system clock says.
    src/state/persistence/BackupRunSerialization.cpp:150-159 *)
Definition build_backup_run_checkpoint_json (checkpoint : BackupRunCheckpoint) (now : RuntimeTimePoint) : Json :=
  JObject
    [("schemaVersion", JInt 1);
     ("profileId", JString (id_value (cp_profile_id checkpoint)));
     ("runId", JString (id_value (cp_run_id checkpoint)));
     ("sourceId", JString (id_value (cp_source_id checkpoint)));
     ("action", JString (backup_run_action_kind_name (cp_action_kind checkpoint)));
     ("updatedAt", JString (format_utc_iso_timestamp now))].

(** src/state/persistence/JsonFileBackupRunCheckpointStore.cpp:32-39 *)
Definition write_checkpoint (dir : path) (checkpoint : BackupRunCheckpoint) (now : RuntimeTimePoint) : FP unit :=
  _ ← perform (EnsureDirectory dir 448);
  text ← lift (dump_json (build_backup_run_checkpoint_json checkpoint now));
  perform (WriteAtomically (path_append dir "checkpoint.json") text 384).

End repository.
End state.

(** ** What calls do *)

Abbreviation Files := (gmap path string).

(** A call that does not fail.  Creating a directory changes no file. *)
Definition serve {X} (c : FileCall X) (fs : Files) : res X * Files :=
  match c in FileCall X return res X * Files with
  | Perform (EnsureDirectory _ _) => (Ok tt, fs)
  | Perform (WriteAtomically p data _) => (Ok tt, <[p := data]> fs)
  | RemoveDurably p => (Ok tt, delete p fs)
  | IsRegularFile p => (Ok (bool_decide (is_Some (fs !! p))), fs)
  | ReadFile p => (Ok (default "" (fs !! p)), fs)
  end.

(** A call that fails: a change throws, before or after it took effect; a look finds nothing. *)
Definition fails {X} (c : FileCall X) (fs : Files) : res X -> Files -> Prop :=
  match c in FileCall X return res X -> Files -> Prop with
  | Perform op => λ r fs', (exists e, r = Throw e) /\ (fs' = fs \/ fs' = (serve (Perform op) fs).2)
  | RemoveDurably p => λ r fs', (exists e, r = Throw e) /\ (fs' = fs \/ fs' = delete p fs)
  | IsRegularFile _ => λ r fs', r = Ok false /\ fs' = fs
  | ReadFile _ => λ r fs', r = Ok "" /\ fs' = fs
  end.

Definition serves (flaky : bool) {X} (c : FileCall X) (fs : Files) (r : res X) (fs' : Files) : Prop :=
  serve c fs = (r, fs') \/ (flaky = true /\ fails c fs r fs').

(** A program that runs alone, with no failure. *)
Fixpoint exec {A} (m : FP A) (fs : Files) : res A * Files :=
  match m with
  | Done r => (r, fs)
  | Call c k => let '(r, fs) := serve c fs in exec (k r) fs
  | Lock k => exec (k tt) fs
  | Store _ k => exec k fs
  end.

(** A program that runs alone; its calls may fail. *)
Fixpoint outcome (flaky : bool) {A} (m : FP A) (fs : Files) (r : res A) (fs' : Files) : Prop :=
  match m with
  | Done r0 => r = r0 /\ fs' = fs
  | Call c k => exists a fs1, serves flaky c fs a fs1 /\ outcome flaky (k a) fs1 r fs'
  | Lock k => outcome flaky (k tt) fs r fs'
  | Store _ k => outcome flaky k fs r fs'
  end.

Lemma outcome_bind flaky {A B} (m : FP A) (f : A -> FP B) fs r fs' :
  outcome flaky (m ≫= f) fs r fs' <->
  exists a fs1, outcome flaky m fs a fs1 /\
    match a with Ok a => outcome flaky (f a) fs1 r fs' | Throw e => r = Throw e /\ fs' = fs1 end.
Proof.
  revert fs. induction m as [[a|e]|X c k IH|k IH|s k IH]; intros fs; cbn.
  - split; [intros H; by exists (Ok a), fs|]. by intros (? & ? & [-> ->] & H).
  - split; [intros [-> ->]; by exists (Throw e), fs|]. by intros (? & ? & [-> ->] & H).
  - split.
    + intros (a & fs1 & Hs & (b & fs2 & Hm & Hf)%IH). exists b, fs2. split; [|done]. by exists a, fs1.
    + intros (b & fs2 & (a & fs1 & Hs & Hm) & Hf). exists a, fs1. split; [done|]. apply IH. by exists b, fs2.
  - apply IH.
  - apply IH.
Qed.

Lemma exec_bind {A B} (m : FP A) (f : A -> FP B) fs :
  exec (m ≫= f) fs = match exec m fs with (Ok a, fs1) => exec (f a) fs1 | (Throw e, fs1) => (Throw e, fs1) end.
Proof.
  revert fs. induction m as [[a|e]|X c k IH|k IH|s k IH]; intros fs; cbn; try done.
  - destruct (serve c fs) as [r fs1]. apply IH.
  - apply IH.
Qed.

Lemma exec_outcome flaky {A} (m : FP A) fs r fs' : exec m fs = (r, fs') -> outcome flaky m fs r fs'.
Proof.
  revert fs. induction m as [r0|X c k IH|k IH|s k IH]; intros fs; cbn.
  - by intros [= <- <-].
  - destruct (serve c fs) as [a fs1] eqn:E. intros H. exists a, fs1. split; [by left|]. by apply IH.
  - apply IH.
  - apply IH.
Qed.

(** A write that returned took effect, whatever failed on the way. *)
Lemma write_took_effect flaky dir p data mode fs fs' :
  outcome flaky (_ ← perform (EnsureDirectory dir 448); perform (WriteAtomically p data mode)) fs (Ok tt) fs' ->
  fs' = <[p := data]> fs.
Proof.
  rewrite outcome_bind. intros (a & fs1 & (? & ? & He & -> & ->) & H). cbn in He.
  destruct He as [[= <- <-]|(_ & (e & ->) & _)]; [|by destruct H].
  destruct H as (r & fs2 & Hs & <- & ->). destruct Hs as [[= <-]|(_ & (e & [=]) & _)]. done.
Qed.

(** ** Documents read back *)

Lemma setw0_no_newline w z : str_contains newline (setw0 w z) = false.
Proof.
  unfold setw0. rewrite str_contains_app, orb_false_iff. split.
  - induction (w - String.length (pretty z))%nat; [done|]. cbn. by rewrite str_contains_cons.
  - assert (Hn : forall n, str_contains newline (pretty (N.pos n)) = false).
    { intros n. unfold pretty, pretty_N. rewrite decide_False by done.
      destruct (pretty_N_go_digits (N.pos n) "") as (ds & -> & Hd & _). rewrite string_app_nil_r.
      by eapply forallb_no_char; [|exact Hd]. }
    destruct z as [|n|n]; cbn -[str_contains]; [done|apply Hn|]. rewrite str_contains_cons. apply Hn.
Qed.

Lemma format_utc_no_newline t : str_contains newline (format_utc_iso_timestamp t) = false.
Proof.
  unfold format_utc_iso_timestamp, format_utc. cbv zeta. rewrite !str_contains_app, !setw0_no_newline. done.
Qed.

Lemma format_local_date_no_newline d : str_contains newline (format_local_date d) = false.
Proof. unfold format_local_date. rewrite !str_contains_app, !setw0_no_newline. done. Qed.

Lemma id_no_newline {k} (i : Ident k) : str_contains newline (id_value i) = false.
Proof.
  destruct i as [[|c s] H]; [done|]; cbn [id_value]. apply Is_true_true in H.
  assert (is_alnum c = true) as Hc by (by eapply id_pattern_head).
  rewrite str_contains_cons.
  assert (Ascii.eqb newline c = false) as -> by (by destruct c as [[] [] [] [] [] [] [] []]).
  cbn [orb]. destruct k; simpl in H; breflect; (eapply forallb_no_char; [|eassumption]; done).
Qed.

(** A key without ['='], and neither key nor value with a newline. *)
Definition entry_ok (entry : string * string) : Prop :=
  str_contains "=" entry.1 = false /\ str_contains newline entry.1 = false /\ str_contains newline entry.2 = false.

Lemma split_lines_app a b :
  str_contains newline a = false -> split_lines (a +:+ String newline b) = a :: split_lines b.
Proof.
  induction a as [|c a IH]; [done|]. rewrite str_contains_cons. intros [Hc Ha]%orb_false_iff.
  cbn -[Ascii.ascii_of_N Ascii.eqb]. rewrite Ascii.eqb_sym in Hc. rewrite IH by done. by rewrite Hc.
Qed.

Lemma split_lines_ne s : split_lines s <> [].
Proof. destruct s; cbn; repeat case_match; done. Qed.

Lemma getlines_cons a b :
  str_contains newline a = false -> getlines (a +:+ String newline b) = a :: getlines b.
Proof.
  intros Ha. unfold getlines. rewrite split_lines_app by done.
  pose proof (split_lines_ne b) as Hb. destruct (split_lines b) as [|l ls]; [done|].
  cbn [List.last removelast]. by case_match.
Qed.

Lemma split_assignment_app k v : str_contains "=" k = false -> split_assignment (k +:+ "=" +:+ v) = Some (k, v).
Proof.
  induction k as [|c k IH]; [done|]. rewrite str_contains_cons. intros [Hc Hk]%orb_false_iff.
  cbn. rewrite Ascii.eqb_sym in Hc. rewrite Hc. cbn in IH. by rewrite IH.
Qed.

Lemma state_lines entries values :
  Forall entry_ok entries ->
  foldl take_line values (getlines (state_document entries))
  = foldl (λ values entry, emplace values entry.1 entry.2) values entries.
Proof.
  intros H. revert values. induction H as [|[k v] entries (Hk & Hn & Hv) _ IH]; intros values; [done|].
  cbn [state_document]. unfold state_line. cbn [fst snd] in *.
  rewrite <- !string_app_assoc, (string_app_assoc _ (String newline "")). cbn [String.append].
  rewrite getlines_cons.
  2: { rewrite !str_contains_app, Hn, Hv. done. }
  cbn [foldl]. rewrite IH. f_equal. unfold take_line.
  by rewrite string_app_assoc, split_assignment_app.
Qed.

Lemma lookup_emplaced entries (values : gmap string string) k :
  foldl (λ values entry, emplace values entry.1 entry.2) values entries !! k
  = match values !! k with Some v => Some v | None => lookup_key entries k end.
Proof.
  revert values. induction entries as [|[k' v] entries IH]; intros values; cbn; [by case_match|].
  rewrite IH. unfold emplace. destruct (values !! k') eqn:E.
  - destruct (values !! k) eqn:E'; [done|]. destruct (String.eqb_spec k' k); [congruence|done].
  - destruct (String.eqb_spec k' k) as [->|Hne].
    + by rewrite lookup_insert_eq, E.
    + by rewrite lookup_insert_ne.
Qed.

(** What a document says of a key is what was first written for it. *)
Lemma state_document_value entries k :
  Forall entry_ok entries ->
  get_value (parse_state_document (state_document entries)) k = default "" (lookup_key entries k).
Proof.
  intros H. unfold get_value, parse_state_document. by rewrite state_lines, lookup_emplaced, lookup_empty.
Qed.

(** ** Theorems *)

Lemma lift_outcome flaky {A B} (x : res A) (f : A -> FP B) fs r fs' :
  outcome flaky (lift x ≫= f) fs (Ok r) fs' -> exists a, x = Ok a /\ outcome flaky (f a) fs (Ok r) fs'.
Proof.
  intros (a & fs1 & [-> ->] & H)%outcome_bind. destruct x as [a|e]; [by exists a|]. by destruct H.
Qed.

Lemma exec_read_state p data fs :
  fs !! p = Some data -> exec (read_state_file p) fs = (Ok (parse_state_document data), fs).
Proof. intros E. unfold read_state_file. rewrite exec_bind. cbn [exec serve call]. by rewrite E. Qed.

Lemma marker_entries_ok m :
  str_contains newline (pm_local_snapshot_path m) = false ->
  str_contains newline (pm_final_snapshot_path m) = false -> Forall entry_ok (marker_entries m).
Proof.
  intros Hl Hf. repeat constructor; cbn [fst snd]; try done; try apply id_no_newline. apply format_utc_no_newline.
Qed.

(** A marker that was written reads back, by whatever later run looks for it: the same
    source, paths and run, and the time to the second; writing it changed no other file.  It holds
    whatever calls failed while it was written, as long as the write returned.  Paths without a
    newline are what validated directories and planned names give. *)
Theorem pending_marker_round_trip flaky dir m fs fs' :
  outcome flaky (marker_write dir m) fs (Ok tt) fs' -> representable (pm_timestamp m) ->
  str_contains newline (pm_local_snapshot_path m) = false ->
  str_contains newline (pm_final_snapshot_path m) = false ->
  exec (marker_read dir (pm_source_id m)) fs'
  = (Ok (Some (mkMarker (pm_source_id m) (pm_local_snapshot_path m) (pm_final_snapshot_path m)
                 (pm_run_id m) (pm_timestamp m / ns_per_s * ns_per_s))), fs')
  /\ forall p, p <> pending_marker_path dir (pm_source_id m) -> fs' !! p = fs !! p.
Proof.
  intros H Ht Hl Hf.
  apply lift_outcome in H as (? & _ & H). apply lift_outcome in H as (? & _ & H).
  apply write_took_effect in H as ->. split; [|intros p Hp; by rewrite lookup_insert_ne].
  pose proof (marker_entries_ok m Hl Hf) as Hok.
  set (p := pending_marker_path dir (pm_source_id m)). set (fs1 := <[p:=_]> fs).
  assert (Hr : forall field, exec (read_pending_marker_field p field) fs1
                             = (Ok (default "" (lookup_key (marker_entries m) field)), fs1)).
  { intros field. unfold read_pending_marker_field. rewrite exec_bind, (exec_read_state p _ fs1) by apply lookup_insert_eq.
    cbn [exec mret prog_ret]. by rewrite state_document_value. }
  unfold marker_read. fold p. rewrite exec_bind. cbn [exec serve call].
  rewrite bool_decide_true by (unfold fs1; rewrite lookup_insert_eq; by eexists). cbn [negb].
  rewrite exec_bind, Hr. cbv beta iota.
  change (default "" (lookup_key (marker_entries m) "timestamp")) with (format_utc_iso_timestamp (pm_timestamp m)).
  rewrite (proj1 (proj2 (utc_timestamp_roundtrip _ Ht))).
  rewrite exec_bind, Hr. cbv beta iota.
  change (default "" (lookup_key (marker_entries m) "source_name")) with (id_value (pm_source_id m)).
  rewrite make_ident_value, exec_bind. cbn [exec lift]. rewrite exec_bind, Hr. cbv beta iota.
  rewrite exec_bind, Hr. cbv beta iota. rewrite exec_bind, Hr. cbv beta iota.
  change (default "" (lookup_key (marker_entries m) "run_id")) with (id_value (pm_run_id m)).
  rewrite make_ident_value. reflexivity.
Qed.

Lemma format_local_date_inj a b :
  date_ok a = true -> date_ok b = true -> 0 <= year a < 10000 -> 0 <= year b < 10000 ->
  format_local_date a = format_local_date b -> a = b.
Proof.
  intros Ha Hb Ya Yb E. apply parse_local_date_roundtrip in Ha, Hb; [|done..]. rewrite E in Ha. congruence.
Qed.

(** The ledger answers what was recorded: after a success was written, a day, a target and
    a configuration match exactly when they are those of the success, UUIDs compared without
    regard to case.  So a second run of a day is skipped only after a success of that day with the
    same target and configuration.  Names and fingerprints without a newline are what a decoded
    profile has. *)
Theorem last_success_matches_spec format_local_timestamp flaky dir s fs fs' today luks fp :
  outcome flaky (write_success_state format_local_timestamp dir s) fs (Ok tt) fs' ->
  str_contains newline (format_local_timestamp (ss_timestamp s)) = false ->
  str_contains newline (ss_profile_name s) = false -> str_contains newline (ss_target_luks_uuid s) = false ->
  str_contains newline (ss_config_fingerprint s) = false ->
  date_ok (ss_date s) = true -> date_ok today = true ->
  0 <= year (ss_date s) < 10000 -> 0 <= year today < 10000 ->
  exists b, exec (last_success_matches dir today luks fp) fs' = (Ok b, fs')
    /\ (b = true <-> ss_date s = today /\ lower_text (ss_target_luks_uuid s) = lower_text luks
                     /\ ss_config_fingerprint s = fp).
Proof.
  intros H Hts Hn Hu Hf Hd Ht Yd Yt.
  apply lift_outcome in H as (? & _ & H). apply lift_outcome in H as (? & _ & H).
  apply write_took_effect in H as ->.
  assert (Hok : Forall entry_ok (success_entries format_local_timestamp s)).
  { repeat constructor; cbn [fst snd]; try done; try apply id_no_newline; try apply setw0_no_newline.
    apply format_local_date_no_newline. }
  eexists. unfold last_success_matches. set (p := path_append dir "last-success"). set (fs1 := <[p:=_]> fs).
  rewrite exec_bind. cbn [exec serve call].
  rewrite bool_decide_true by (unfold fs1; rewrite lookup_insert_eq; by eexists). cbn [negb].
  rewrite exec_bind, (exec_read_state p _ fs1) by apply lookup_insert_eq. cbn [exec mret prog_ret].
  split; [reflexivity|]. rewrite !state_document_value by done.
  change (default "" (lookup_key (success_entries format_local_timestamp s) "date")) with (format_local_date (ss_date s)).
  change (default "" (lookup_key (success_entries format_local_timestamp s) "target_luks_uuid")) with (ss_target_luks_uuid s).
  change (default "" (lookup_key (success_entries format_local_timestamp s) "config_fingerprint")) with (ss_config_fingerprint s).
  rewrite !andb_true_iff, !String.eqb_eq. split.
  - intros ((E & ?) & ?). split; [by apply format_local_date_inj|done].
  - by intros (-> & -> & ->).
Qed.

Module StateExample.

Definition ex_run : RunId := @mkIdent KRun "run-1" I.
Definition ex_source : SourceId := @mkIdent KSource "home" I.
Definition ex_dir : path := "/var/lib/btrfs-backup/profiles/main".

Definition ex_marker : PendingMarker :=
  mkMarker ex_source "/.snapshots/home-2024-02-29T123456Z" "/mnt/main/snapshots/home/home-2024-02-29T123456Z"
    ex_run 1709210096123456789.

Lemma pending_marker_round_trip_witness :
  (exec (marker_read ex_dir ex_source) (exec (marker_write ex_dir ex_marker) ∅).2).1
  = Ok (Some (mkMarker ex_source "/.snapshots/home-2024-02-29T123456Z"
                "/mnt/main/snapshots/home/home-2024-02-29T123456Z" ex_run 1709210096000000000)).
Proof.
  destruct (pending_marker_round_trip false ex_dir ex_marker ∅ (exec (marker_write ex_dir ex_marker) ∅).2) as [H _].
  - apply exec_outcome. vm_compute. reflexivity.
  - unfold representable. cbn. lia.
  - reflexivity.
  - reflexivity.
  - change ex_source with (pm_source_id ex_marker) at 1. rewrite H. reflexivity.
Defined.

Definition ex_success : SuccessState :=
  mkSuccessState (mkDate 2024 2 29) 1709210096123456789 ex_run (@mkIdent KProfile "main" I) "Main" 2
    "0AB4-CDEF" "f00d".

Lemma last_success_matches_spec_witness :
  let fs := (exec (write_success_state (λ _, "2024-02-29T13:34:56+0100") ex_dir ex_success) ∅).2 in
  (exec (last_success_matches ex_dir (mkDate 2024 2 29) "0ab4-cdef" "f00d") fs).1 = Ok true
  /\ (exec (last_success_matches ex_dir (mkDate 2024 3 1) "0ab4-cdef" "f00d") fs).1 = Ok false.
Proof.
  intros fs. split; [|vm_compute; reflexivity].
  destruct (last_success_matches_spec (λ _, "2024-02-29T13:34:56+0100") false ex_dir ex_success ∅ fs
              (mkDate 2024 2 29) "0ab4-cdef" "f00d") as (b & E & Hb);
    [apply exec_outcome; vm_compute; reflexivity|reflexivity..|cbn; lia|cbn; lia|].
  rewrite E. cbn. f_equal. apply Hb. split; [reflexivity|]. split; reflexivity.
Defined.

End StateExample.
