(* ===== verification/RunCancellation.v ===== *)
(** * Cancelling a run from another process (src/state/persistence/FileRunStateRepository,
      src/backup/execution)

    A run registers itself in the state directory, looks for requests to cancel it and takes its
    registration back when it ends; processes that want to cancel it act on the same files without
    a lock.  The system is a step relation: one run at a time (the lease), any number of
    cancellations, every call of a program one step, crashes at any point. *)

From S2P Require Import Prelude Errors Identifiers FsPath ConfigDomain RunActions StatusDocument Interaction ProfileInstall RunStateStore.

(** ** A logic for programs among other processes *)

(** [R]: what others may do between two calls; [G]: what every call of the program does. *)
Section rely_guarantee.
Context (flaky : bool) (R G : Files -> Files -> Prop) `{!PreOrder R}.

Fixpoint rg {A} (Q : res A -> Files -> Prop) (m : FP A) (fs : Files) : Prop :=
  match m with
  | Done r => forall fs1, R fs fs1 -> Q r fs1
  | Call c k => forall fs1, R fs fs1 -> forall a fs2, serves flaky c fs1 a fs2 -> G fs1 fs2 /\ rg Q (k a) fs2
  | Lock k => rg Q (k tt) fs
  | Store _ k => rg Q k fs
  end.

Lemma rg_stable {A} (Q : res A -> Files -> Prop) m fs fs' : rg Q m fs -> R fs fs' -> rg Q m fs'.
Proof.
  induction m as [r|X c k IH|k IH|s k IH]; cbn; auto; intros H HR fs1 HR1; apply H; by etrans.
Qed.

Lemma rg_mono {A} (Q Q' : res A -> Files -> Prop) m fs :
  rg Q m fs -> (forall r fs1, Q r fs1 -> Q' r fs1) -> rg Q' m fs.
Proof.
  intros H HQ. revert fs H. induction m as [r|X c k IH|k IH|s k IH]; cbn; intros fs H; auto.
  intros fs1 HR a fs2 Hs. destruct (H _ HR _ _ Hs). auto.
Qed.

Lemma rg_bind {A B} (m : FP A) (f : A -> FP B) Q fs :
  rg (λ r fs1, match r with Ok a => rg Q (f a) fs1 | Throw e => Q (Throw e) fs1 end) m fs -> rg Q (m ≫= f) fs.
Proof.
  revert fs. induction m as [[a|e]|X c k IH|k IH|s k IH]; cbn; intros fs H; try (by apply H); try (by apply IH).
  intros fs1 HR a fs2 Hs. destruct (H _ HR _ _ Hs). split; [done|]. by apply IH.
Qed.

Lemma rg_catch {A} (m : FP A) (h : exn -> FP A) Q fs :
  rg (λ r fs1, match r with Ok a => Q (Ok a) fs1 | Throw e => rg Q (h e) fs1 end) m fs -> rg Q (catch m h) fs.
Proof.
  revert fs. induction m as [[a|e]|X c k IH|k IH|s k IH]; cbn; intros fs H; try (by apply H); try (by apply IH).
  intros fs1 HR a fs2 Hs. destruct (H _ HR _ _ Hs). split; [done|]. by apply IH.
Qed.

Lemma rg_call {X} (c : FileCall X) (Q : res X -> Files -> Prop) fs :
  (forall fs1, R fs fs1 -> forall a fs2, serves flaky c fs1 a fs2 -> G fs1 fs2 /\ forall fs3, R fs2 fs3 -> Q a fs3) ->
  rg Q (call c) fs.
Proof. done. Qed.

Lemma rg_ret {A} (a : A) Q fs : (forall fs1, R fs fs1 -> Q (Ok a) fs1) -> rg Q (mret a) fs.
Proof. done. Qed.

Lemma rg_lift {A} (r : res A) Q fs : (forall fs1, R fs fs1 -> Q r fs1) -> rg Q (lift r) fs.
Proof. done. Qed.

(** The program makes its next call. *)
Definition advance {A} (m : FP A) (fs : Files) (m' : FP A) (fs' : Files) : Prop :=
  match m with
  | Call c k => exists a, serves flaky c fs a fs' /\ m' = k a
  | _ => False
  end.

Lemma rg_advance {A} (Q : res A -> Files -> Prop) m fs m' fs' :
  rg Q m fs -> advance m fs m' fs' -> G fs fs' /\ rg Q m' fs'.
Proof. destruct m; cbn; try done. intros H (a & Hs & ->). by apply (H fs). Qed.

Lemma rg_done {A} (Q : res A -> Files -> Prop) r fs : rg Q (Done r) fs -> Q r fs.
Proof. intros H. by apply H. Qed.

End rely_guarantee.

Lemma rg_trivial flaky (R : Files -> Files -> Prop) {A} (Q : res A -> Files -> Prop) m fs :
  (forall r fs, Q r fs) -> rg flaky R (λ _ _, True) Q m fs.
Proof. intros HQ. revert fs. induction m; cbn; auto. Qed.

(** All calls a program can make satisfy [P]. *)
Fixpoint calls (P : forall X, FileCall X -> Prop) {A} (m : FP A) : Prop :=
  match m with
  | Done _ => True
  | Call c k => P _ c /\ forall a, calls P (k a)
  | Lock k => calls P (k tt)
  | Store _ k => calls P k
  end.

Lemma calls_bind P {A B} (m : FP A) (f : A -> FP B) :
  calls P m -> (forall a, calls P (f a)) -> calls P (m ≫= f).
Proof.
  intros Hm Hf. induction m as [[a|e]|X c k IH|k IH|s k IH]; cbn in *; try done; try (by apply IH).
  destruct Hm as [Hc Hk]. split; [done|]. intros a. by apply IH.
Qed.

Lemma calls_catch P {A} (m : FP A) h : calls P m -> (forall e, calls P (h e)) -> calls P (catch m h).
Proof.
  intros Hm Hf. induction m as [[a|e]|X c k IH|k IH|s k IH]; cbn in *; try done; try (by apply IH).
  destruct Hm as [Hc Hk]. split; [done|]. intros a. by apply IH.
Qed.

Lemma calls_call (P : forall X, FileCall X -> Prop) {X} (c : FileCall X) : P X c -> calls P (call c).
Proof. done. Qed.

Lemma calls_advance P flaky {A} (m : FP A) fs m' fs' :
  calls P m -> advance flaky m fs m' fs' ->
  calls P m' /\ exists X (c : FileCall X) a, P X c /\ serves flaky c fs a fs'.
Proof. destruct m; cbn; try done. intros [Hc Hk] (a & Hs & ->). split; [done|]. by exists X, o, a. Qed.

Create HintDb calls discriminated.
#[export] Hint Resolve calls_bind calls_catch calls_call : calls.
#[export] Hint Extern 1 (calls _ (mret _)) => exact I : calls.
#[export] Hint Extern 1 (calls _ (raise _)) => exact I : calls.
#[export] Hint Extern 1 (calls _ (lift _)) => exact I : calls.

(** ** The system *)

Section system.
Context (paths : ApplicationPaths) (pid : ProfileId).

Abbreviation dir := (state_dir paths pid).
Abbreviation A := (active_run_path dir).
Abbreviation C := (cancel_request_path dir).
Abbreviation req := (mkCancellationRequest pid).

(** The end of a run as [RunExecutionContext::close] has it: the registration is closed and
    its request, if there is one, removed; a failure of either is recorded and the other is done. *)
Definition close_run (r : RunId) (registration : Registration) : FP unit :=
  _ ← registration_close registration;
  catch (repository_clear_cancel_request paths (req r)) (λ _, mret tt).

(** What the process that holds the lease is doing. *)
Inductive Phase :=
| Registering (m : FP Registration)
| Running (registration : Registration)
| Polling (registration : Registration) (m : FP bool)
| Closing (m : FP unit).

Inductive Note :=
| Asked (r : RunId)
| Answered (r : RunId) (o : res CancellationRequestOutcome)
| Polled (r : RunId) (b : bool).

Record System := mkSystem {
  sy_files : Files;
  sy_run : option (RunId * Phase);
  sy_asks : list (RunId * FP CancellationRequestOutcome);
  sy_log : list Note;
}.

Inductive step (flaky : bool) : System -> System -> Prop :=
| step_start r fs asks log :
    step flaky (mkSystem fs None asks log)
      (mkSystem fs (Some (r, Registering (register_active_run paths (req r)))) asks log)
| step_registering r m m' fs fs' asks log :
    advance flaky m fs m' fs' ->
    step flaky (mkSystem fs (Some (r, Registering m)) asks log) (mkSystem fs' (Some (r, Registering m')) asks log)
| step_registered r registration fs asks log :
    step flaky (mkSystem fs (Some (r, Registering (Done (Ok registration)))) asks log)
      (mkSystem fs (Some (r, Running registration)) asks log)
| step_poll r registration fs asks log :
    step flaky (mkSystem fs (Some (r, Running registration)) asks log)
      (mkSystem fs (Some (r, Polling registration (repository_cancel_requested paths (req r)))) asks log)
| step_polling r registration m m' fs fs' asks log :
    advance flaky m fs m' fs' ->
    step flaky (mkSystem fs (Some (r, Polling registration m)) asks log)
      (mkSystem fs' (Some (r, Polling registration m')) asks log)
| step_polled r registration b fs asks log :
    step flaky (mkSystem fs (Some (r, Polling registration (Done (Ok b)))) asks log)
      (mkSystem fs (Some (r, Running registration)) asks (Polled r b :: log))
| step_close r registration fs asks log :
    step flaky (mkSystem fs (Some (r, Running registration)) asks log)
      (mkSystem fs (Some (r, Closing (close_run r registration))) asks log)
| step_closing r m m' fs fs' asks log :
    advance flaky m fs m' fs' ->
    step flaky (mkSystem fs (Some (r, Closing m)) asks log) (mkSystem fs' (Some (r, Closing m')) asks log)
| step_end r phase fs asks log :
    step flaky (mkSystem fs (Some (r, phase)) asks log) (mkSystem fs None asks log)
| step_ask r fs run asks log :
    step flaky (mkSystem fs run asks log)
      (mkSystem fs run ((r, request_cancel paths (req r)) :: asks) (Asked r :: log))
| step_asking r m m' fs fs' run asks asks' log :
    advance flaky m fs m' fs' ->
    step flaky (mkSystem fs run (asks ++ (r, m) :: asks') log) (mkSystem fs' run (asks ++ (r, m') :: asks') log)
| step_answered r o fs run asks asks' log :
    step flaky (mkSystem fs run (asks ++ (r, Done o) :: asks') log)
      (mkSystem fs run (asks ++ asks') (Answered r o :: log))
| step_gone r m fs run asks asks' log :
    step flaky (mkSystem fs run (asks ++ (r, m) :: asks') log) (mkSystem fs run (asks ++ asks') log).

(** Any files, no run and no cancellation. *)
Definition start (fs : Files) : System := mkSystem fs None [] [].

Definition reachable (flaky : bool) (s : System) : Prop := exists fs, rtc (step flaky) (start fs) s.

(** ** The programs *)

Lemma path_append_ne (d a b : path) :
  is_absolute a = false -> is_absolute b = false -> a <> b -> path_append d a <> path_append d b.
Proof.
  intros Ha Hb Hne. unfold path_append. rewrite Ha, Hb. intros E. apply Hne.
  destruct (pp_has_filename _); [apply string_app_inj_l in E|]; by apply string_app_inj_l in E.
Qed.

Lemma AC : A <> C.
Proof. by apply path_append_ne. Qed.

Lemma run_line_says r : get_value (parse_state_document (run_line r)) "run_id" = id_value r.
Proof.
  unfold run_line. rewrite state_document_value; [done|]. constructor; [|done]. split; [done|]. split; [done|]. apply id_no_newline.
Qed.

Lemma empty_says : get_value (parse_state_document "") "run_id" = "".
Proof. reflexivity. Qed.

Section looking.
Context (flaky : bool) (R G : Files -> Files -> Prop) `{!PreOrder R} (HG : forall fs, G fs fs).
Context (Inv : Files -> Prop) (HI : forall fs fs', R fs fs' -> Inv fs -> Inv fs').

(** A look changes nothing; what it saw was there at some time since. *)
Lemma rg_regular p (Q : res bool -> Files -> Prop) fs :
  Inv fs ->
  (forall fs1 b, Inv fs1 -> (b = bool_decide (is_Some (fs1 !! p)) \/ flaky = true /\ b = false) ->
     forall fs2, R fs1 fs2 -> Q (Ok b) fs2) ->
  rg flaky R G Q (call (IsRegularFile p)) fs.
Proof.
  intros Hi H. apply rg_call. intros fs1 HR a fs2 [[= <- <-]|(Hf & -> & ->)].
  - split; [done|]. intros fs3 HR3. apply (H fs1); [by apply (HI fs)|by left|done].
  - split; [done|]. intros fs3 HR3. apply (H fs1); [by apply (HI fs)|by right|done].
Qed.

Lemma rg_read_state p (Q : res (gmap string string) -> Files -> Prop) fs :
  Inv fs ->
  (forall fs1 data, Inv fs1 -> (data = default "" (fs1 !! p) \/ flaky = true /\ data = "") ->
     forall fs2, R fs1 fs2 -> Q (Ok (parse_state_document data)) fs2) ->
  rg flaky R G Q (read_state_file p) fs.
Proof.
  intros Hi H. apply rg_bind; [done|]. apply rg_call. intros fs1 HR a fs2 [[= <- <-]|(Hf & -> & ->)].
  - split; [done|]. intros fs3 HR3. apply rg_ret. intros fs4 HR4.
    apply (H fs1); [by apply (HI fs)|by left|by etrans].
  - split; [done|]. intros fs3 HR3. apply rg_ret. intros fs4 HR4.
    apply (H fs1); [by apply (HI fs)|by right|by etrans].
Qed.

End looking.

(** A look. *)
Definition look_call X (c : FileCall X) : Prop :=
  match c with IsRegularFile _ | ReadFile _ => True | _ => False end.

(** What a cancellation of [x] may do: look, and write or remove the request. *)
Definition ask_call (x : RunId) X (c : FileCall X) : Prop :=
  match c with
  | Perform (WriteAtomically p data _) => p = C /\ data = run_line x
  | RemoveDurably p => p = C
  | _ => True
  end.

Lemma active_run_calls P : (forall X c, look_call X c -> P X c) -> calls P (active_run dir).
Proof.
  intros H. apply calls_bind; [by apply calls_call, H|]. intros []; [|done].
  apply calls_bind; [by apply calls_bind; [apply calls_call, H|]|]. intros values. cbv zeta.
  destruct (str_empty _); [done|]. by apply calls_bind.
Qed.

Lemma cancel_requested_calls P r : (forall X c, look_call X c -> P X c) -> calls P (cancel_requested dir r).
Proof.
  intros H. apply calls_bind; [by apply calls_call, H|]. intros []; [|done].
  by apply calls_bind; [apply calls_bind; [apply calls_call, H|]|].
Qed.

Lemma request_cancel_calls x : calls (ask_call x) (request_cancel paths (req x)).
Proof.
  assert (Hl : forall X c, look_call X c -> ask_call x X c) by (by intros ? []).
  assert (Hc : calls (ask_call x) (repository_clear_cancel_request paths (req x))).
  { apply calls_bind; [by apply cancel_requested_calls|]. intros []; done. }
  unfold request_cancel. apply calls_bind; [by apply active_run_calls|].
  intros [a|]; [|done]. case_match; [done|]. apply calls_bind.
  { by apply calls_bind. }
  intros _. apply calls_bind; [by apply active_run_calls|].
  intros [c|]; [case_match|]; auto with calls.
Qed.

(** ** What is in the files *)

(** The request on disk, if there is one, was made for a run of [L]. *)
Definition clean (L : RunId -> Prop) (fs : Files) : Prop :=
  forall data, fs !! C = Some data -> exists x, L x /\ data = run_line x.

(** What cancellations of runs in [L] do to the files. *)
Definition others (L : RunId -> Prop) (fs fs' : Files) : Prop :=
  (clean L fs -> clean L fs') /\ fs' !! A = fs !! A.

#[local] Instance others_preorder L : PreOrder (others L).
Proof.
  split; [by intros fs|]. intros fs1 fs2 fs3 [H1 E1] [H2 E2]. split; [auto|congruence].
Qed.

Lemma look_effect flaky X (c : FileCall X) a fs fs' : look_call X c -> serves flaky c fs a fs' -> fs' = fs.
Proof. destruct c; try done; intros _ [[= _ <-]|(_ & _ & ->)]; done. Qed.

Lemma ask_effect flaky x X (c : FileCall X) a fs fs' :
  ask_call x X c -> serves flaky c fs a fs' ->
  fs' = fs \/ fs' = delete C fs \/ fs' = <[C := run_line x]> fs.
Proof.
  destruct c as [[p mode|p data mode]|p|p|p]; cbn [ask_call].
  - intros _ [[= _ <-]|(_ & _ & [->| ->])]; by left.
  - intros [-> ->] [[= _ <-]|(_ & _ & [->| ->])]; auto.
  - intros -> [[= _ <-]|(_ & _ & [->| ->])]; auto.
  - intros _ [[= _ <-]|(_ & _ & ->)]; by left.
  - intros _ [[= _ <-]|(_ & _ & ->)]; by left.
Qed.

Lemma clean_deleted L fs : clean L (delete C fs).
Proof. intros data. by rewrite lookup_delete_eq. Qed.

Lemma clean_requested (L : RunId -> Prop) x fs : L x -> clean L (<[C := run_line x]> fs).
Proof. intros Hx data. rewrite lookup_insert_eq. intros [= <-]. by exists x. Qed.

Lemma ask_others flaky (L : RunId -> Prop) x X (c : FileCall X) a fs fs' :
  L x -> ask_call x X c -> serves flaky c fs a fs' -> others L fs fs'.
Proof.
  intros Hx Hc Hs. pose proof AC as Hne. destruct (ask_effect _ _ _ _ _ _ _ Hc Hs) as [->|[->| ->]]; [done|..].
  - split; [intros _; apply clean_deleted|]. by rewrite lookup_delete_ne.
  - split; [intros _; by apply clean_requested|]. by rewrite lookup_insert_ne.
Qed.

Definition registered (L : RunId -> Prop) (r : RunId) (res : res Registration) (fs : Files) : Prop :=
  forall g, res = Ok g -> clean L fs /\ fs !! A = Some (run_line r).

Abbreviation anything := (λ _ _, True).

Lemma register_rg flaky L r fs :
  rg flaky (others L) anything (registered L r) (register_active_run paths (req r)) fs.
Proof.
  apply rg_catch; [apply _|]. apply rg_bind; [apply _|].
  apply rg_call. intros fs1 _ a fs2 Hs. split; [done|]. intros fs3 HR.
  assert (Hfail : forall e, rg flaky (others L) anything (registered L r)
            (_ ← registration_close (mkRegistration dir r false None); raise e) fs3).
  { intros e. apply rg_bind; [apply _|]. apply rg_trivial. intros [g|e'] fs4; [|by intros ?].
    by apply rg_lift. }
  destruct Hs as [[= <- <-]|(_ & (e & ->) & _)]; [|apply Hfail].
  assert (Hc : clean L fs3) by (apply HR, clean_deleted). clear Hfail HR.
  apply rg_bind; [apply _|]. apply rg_bind; [apply _|].
  apply rg_call. intros fs4 HR4 a fs5 Hs. split; [done|]. intros fs6 HR6.
  destruct Hs as [[= <- <-]|(_ & (e & ->) & _)].
  2: { apply rg_bind; [apply _|]. apply rg_trivial. intros [g|e'] fs7; [|by intros ?]. by apply rg_lift. }
  apply rg_call. intros fs7 HR7 a fs8 Hs. split; [done|]. intros fs9 HR9.
  destruct Hs as [[= <- <-]|(_ & (e & ->) & _)].
  2: { apply rg_bind; [apply _|]. apply rg_trivial. intros [g|e'] fs10; [|by intros ?]. by apply rg_lift. }
  apply rg_ret. intros fs10 HR10 g _.
  assert (HR : others L (<[A := run_line r]> fs7) fs10) by (by etrans). split.
  - apply HR. intros data. rewrite lookup_insert_ne by apply AC. apply HR7, HR6, HR4, Hc.
  - destruct HR as [_ ->]. by rewrite lookup_insert_eq.
Qed.

Lemma poll_rg flaky (L : RunId -> Prop) r fs :
  clean L fs ->
  rg flaky (others L) anything (λ res _, res = Ok true -> L r) (cancel_requested dir r) fs.
Proof.
  intros Hc. apply rg_bind; [apply _|].
  eapply (rg_regular flaky (others L) anything (λ _, I) (clean L)); [by intros ?? [? _]|exact Hc|].
  intros fs1 b Hc1 _ fs2 HR2. destruct b; [|by apply rg_ret]. cbn [negb].
  apply rg_bind; [apply _|].
  eapply (rg_read_state flaky (others L) anything (λ _, I) (clean L)); [by intros ?? [? _]|by apply HR2|].
  intros fs3 data Hc3 Hdata fs4 HR4. apply rg_ret. intros fs5 HR5 [= E%String.eqb_eq].
  assert (Hempty : get_value (parse_state_document data) "run_id" <> "")
    by (rewrite E; apply id_nonempty).
  destruct Hdata as [->|[_ ->]]; [|done]. destruct (fs3 !! C) as [d|] eqn:Ed; [|done].
  destruct (Hc3 d Ed) as (x & Hx & ->). change (default "" (Some (run_line x))) with (run_line x) in E.
  rewrite run_line_says in E. by apply ident_eq in E as ->.
Qed.

(** ** The invariant of the system *)

Definition asked (log : list Note) : RunId -> Prop := λ r, Asked r ∈ log.

Definition phase_inv (flaky : bool) (log : list Note) (fs : Files) (r : RunId) (phase : Phase) : Prop :=
  match phase with
  | Registering m =>
      forall L : RunId -> Prop, (forall x, asked log x -> L x) ->
        rg flaky (others L) anything (registered L r) m fs
  | Running _ => clean (asked log) fs /\ fs !! A = Some (run_line r)
  | Polling _ m =>
      (clean (asked log) fs /\ fs !! A = Some (run_line r)) /\ calls look_call m
      /\ forall L : RunId -> Prop, (forall x, asked log x -> L x) ->
           rg flaky (others L) anything (λ res _, res = Ok true -> L r) m fs
  | Closing _ => True
  end.

(** Every look that found a request came after somebody asked; the newest note is first. *)
Fixpoint justified (log : list Note) : Prop :=
  match log with
  | [] => True
  | n :: log => (forall r, n = Polled r true -> asked log r) /\ justified log
  end.

Record system_inv (flaky : bool) (s : System) : Prop := {
  inv_asks : Forall (λ a, asked (sy_log s) a.1 /\ calls (ask_call a.1) a.2) (sy_asks s);
  inv_run : forall r phase, sy_run s = Some (r, phase) -> phase_inv flaky (sy_log s) (sy_files s) r phase;
  inv_log : justified (sy_log s);
}.

Lemma clean_mono (L L' : RunId -> Prop) fs : (forall x, L x -> L' x) -> clean L fs -> clean L' fs.
Proof. intros HL H data Hd. destruct (H data Hd) as (x & Hx & ->). by eauto. Qed.

Lemma phase_inv_log flaky log log' fs r phase :
  (forall x, asked log x -> asked log' x) -> phase_inv flaky log fs r phase -> phase_inv flaky log' fs r phase.
Proof.
  intros Hl. destruct phase as [m|g|g m|m]; cbn [phase_inv]; [auto| | |done].
  - intros [Hc Ha]. split; [by eapply clean_mono|done].
  - intros ([Hc Ha] & Hm & H). split; [|auto]. split; [by eapply clean_mono|done].
Qed.

Lemma phase_inv_others flaky log fs fs' r phase :
  (forall L : RunId -> Prop, (forall x, asked log x -> L x) -> others L fs fs') ->
  phase_inv flaky log fs r phase -> phase_inv flaky log fs' r phase.
Proof.
  intros Ho. assert (Hl : others (asked log) fs fs') by auto.
  assert (Hk : clean (asked log) fs /\ fs !! A = Some (run_line r) ->
               clean (asked log) fs' /\ fs' !! A = Some (run_line r)).
  { intros [Hc Ha]. split; [by apply Hl|]. destruct Hl as [_ ->]. done. }
  destruct phase as [m|g|g m|m]; cbn [phase_inv]; [|done| |done].
  - intros H L HL. eapply rg_stable; [apply _|by apply H|by apply Ho].
  - intros (Hk' & Hm & H). split; [by apply Hk|]. split; [done|].
    intros L HL. eapply rg_stable; [apply _|by apply H|by apply Ho].
Qed.

Lemma system_inv_start flaky fs : system_inv flaky (start fs).
Proof. by split. Qed.

(** Nothing changed but the run, and the files as the run changed them. *)
Lemma system_inv_run flaky s run' fs' :
  system_inv flaky s ->
  (forall r phase, run' = Some (r, phase) -> phase_inv flaky (sy_log s) fs' r phase) ->
  system_inv flaky (mkSystem fs' run' (sy_asks s) (sy_log s)).
Proof. intros [Ha Hr Hl] H. by split. Qed.

Lemma asked_cons n log x : asked log x -> asked (n :: log) x.
Proof. apply list_elem_of_further. Qed.

Lemma system_inv_step flaky s s' : step flaky s s' -> system_inv flaky s -> system_inv flaky s'.
Proof.
  intros Hs Hi. destruct Hs as [r fs asks log|r m m' fs fs' asks log Hm|r g fs asks log|r g fs asks log
    |r g m m' fs fs' asks log Hm|r g b fs asks log|r g fs asks log|r m m' fs fs' asks log Hm|r ph fs asks log
    |r fs run asks log|r m m' fs fs' run asks asks' log Hm|r o fs run asks asks' log|r m fs run asks asks' log].
  - apply (system_inv_run _ _ _ _ Hi). intros ?? [= <- <-] L _. apply register_rg.
  - apply (system_inv_run _ _ _ _ Hi). intros ?? [= <- <-] L HL.
    eapply rg_advance; [apply _| |exact Hm]. exact (inv_run _ _ Hi _ _ eq_refl L HL).
  - apply (system_inv_run _ _ _ _ Hi). intros ?? [= <- <-].
    exact (rg_done flaky (others (asked log)) anything _ _ _ (inv_run _ _ Hi _ _ eq_refl _ (λ _ h, h)) g eq_refl).
  - apply (system_inv_run _ _ _ _ Hi). intros ?? [= <- <-].
    destruct (inv_run _ _ Hi _ _ eq_refl) as [Hc Ha]. split; [done|].
    split; [by apply cancel_requested_calls|]. intros L HL. apply poll_rg. by eapply clean_mono.
  - apply (system_inv_run _ _ _ _ Hi). intros ?? [= <- <-].
    destruct (inv_run _ _ Hi _ _ eq_refl) as (Hk & Hc & H).
    destruct (calls_advance _ _ _ _ _ _ Hc Hm) as (Hc' & X & c & a & Hl & Hsv).
    pose proof (look_effect _ _ _ _ _ _ Hl Hsv) as ->. split; [done|]. split; [done|].
    intros L HL. eapply rg_advance; [apply _|by apply H|exact Hm].
  - destruct (inv_run _ _ Hi _ _ eq_refl) as ([Hc Ha] & _ & H).
    destruct Hi as [Hasks _ Hlog]. cbn in *. split; cbn.
    + eapply Forall_impl; [exact Hasks|]. intros [y n] [Hy ?]. split; [by apply asked_cons|done].
    + intros ?? [= <- <-]. split; [|done]. eapply clean_mono; [|exact Hc]. intros y. apply asked_cons.
    + split; [|done]. intros y [= <- ->]. by apply (H (asked log) (λ _ h, h) fs).
  - by apply (system_inv_run _ _ _ _ Hi); intros ?? [= <- <-].
  - by apply (system_inv_run _ _ _ _ Hi); intros ?? [= <- <-].
  - by apply (system_inv_run _ _ _ _ Hi).
  - destruct Hi as [Hasks Hrun Hlog]. cbn in *. split; cbn.
    + constructor; [split; [apply list_elem_of_here|apply request_cancel_calls]|].
      eapply Forall_impl; [exact Hasks|]. intros [y n] [Hy ?]. split; [by apply asked_cons|done].
    + intros ?? E. eapply phase_inv_log; [|by apply Hrun]. intros y. apply asked_cons.
    + by split.
  - destruct Hi as [Hasks Hrun Hlog]. cbn in *.
    apply Forall_app in Hasks as [H1 [[Hy Hc] H2]%Forall_cons].
    destruct (calls_advance _ _ _ _ _ _ Hc Hm) as (Hc' & X & c & a & Hl & Hsv). split; cbn.
    + apply Forall_app. split; [done|]. by constructor.
    + intros ?? E. eapply phase_inv_others; [|by apply Hrun]. intros L HL. eapply ask_others; [|done..]. by apply HL.
    + done.
  - destruct Hi as [Hasks Hrun Hlog]. cbn in *.
    apply Forall_app in Hasks as [H1 [_ H2]%Forall_cons]. split; cbn.
    + apply Forall_app. split; (eapply Forall_impl; [eassumption|]); intros [y n] [Hy ?]; (split; [by apply asked_cons|done]).
    + intros ?? E. eapply phase_inv_log; [|by apply Hrun]. intros y. apply asked_cons.
    + by split.
  - destruct Hi as [Hasks Hrun Hlog]. cbn in *.
    apply Forall_app in Hasks as [H1 [_ H2]%Forall_cons]. split; cbn; [|done..]. by apply Forall_app.
Qed.

Lemma reachable_inv flaky s : reachable flaky s -> system_inv flaky s.
Proof.
  intros (fs & H). revert H. generalize (system_inv_start flaky fs). generalize (start fs). intros s0 H0 H.
  induction H as [|s1 s2 s3 H12 _ IH]; [done|]. apply IH. by eapply system_inv_step.
Qed.

Lemma justified_split l1 l2 r : justified (l1 ++ Polled r true :: l2) -> asked l2 r.
Proof. induction l1 as [|n l1 IH]; cbn; [intros [H _]; by apply H|intros [_ H]; by apply IH]. Qed.

(** ** While a run goes on *)

(** What happens to the files while [r] runs and no call fails. *)
Definition keeps (r : RunId) (fs fs' : Files) : Prop :=
  fs' !! A = fs !! A /\ (fs !! C = Some (run_line r) -> fs' !! C = Some (run_line r)).

#[local] Instance keeps_preorder r : PreOrder (keeps r).
Proof. split; [by intros fs|]. intros fs1 fs2 fs3 [E1 H1] [E2 H2]. split; [congruence|auto]. Qed.

Lemma active_rg r (Inv : Files -> Prop) fs :
  (forall fs1 fs2, keeps r fs1 fs2 -> Inv fs1 -> Inv fs2) -> (forall fs1, Inv fs1 -> fs1 !! A = Some (run_line r)) ->
  Inv fs ->
  rg false (keeps r) (keeps r) (λ res fs1, res = Ok (Some r) /\ Inv fs1) (active_run dir) fs.
Proof.
  intros Hst Hinv Ha.
  apply rg_bind; [apply _|].
  apply (rg_regular false (keeps r) (keeps r) (λ _, reflexivity _) _ Hst); [exact Ha|].
  intros fs1 b H1 [->|[[=] _]] fs2 HR2. rewrite (Hinv _ H1), bool_decide_true by (by eexists). cbn [negb].
  apply rg_bind; [apply _|].
  apply (rg_read_state false (keeps r) (keeps r) (λ _, reflexivity _) _ Hst); [by apply (Hst fs1)|].
  intros fs3 data H3 [->|[[=] _]] fs4 HR4. rewrite (Hinv _ H3).
  change (default "" (Some (run_line r))) with (run_line r). cbv zeta. rewrite run_line_says.
  pose proof (id_nonempty r) as Hne. destruct (id_value r) as [|c v] eqn:Ev; [done|]. cbn [str_empty]. rewrite <- Ev.
  rewrite make_ident_value. apply rg_bind; [apply _|]. apply rg_lift. intros fs5 HR5. apply rg_ret.
  intros fs6 HR6. split; [done|]. apply (Hst fs5); [done|]. apply (Hst fs4); [done|]. by apply (Hst fs3).
Qed.

(** A cancellation of [x] that is answered while [r] runs. *)
Definition answer_ok (r x : RunId) (res : res CancellationRequestOutcome) (fs : Files) : Prop :=
  x = r -> res = Ok Accepted -> fs !! C = Some (run_line r).

Lemma ask_rg r x fs :
  fs !! A = Some (run_line r) ->
  rg false (keeps r) (keeps r) (answer_ok r x) (request_cancel paths (req x)) fs.
Proof.
  intros Ha. apply rg_bind; [apply _|].
  eapply rg_mono; [apply (active_rg r (λ fs1, fs1 !! A = Some (run_line r))); [|done..]; by intros ?? [-> _]|].
  intros res fs1 [-> H1]. cbn [creq_run_id].
  case_bool_decide as E; [subst x|apply rg_ret; by intros ?? _ [=]]. cbn [negb].
  apply rg_bind; [apply _|]. apply rg_bind; [apply _|].
  apply rg_call. intros fs2 HR2 a fs3 [[= <- <-]|([=] & _)]. split; [done|]. intros fs4 HR4.
  apply rg_call. intros fs5 HR5 a fs6 [[= <- <-]|([=] & _)].
  assert (Hk : keeps r fs5 (<[C:=run_line r]> fs5)).
  { split; [by rewrite lookup_insert_ne by (apply not_eq_sym, AC)|]. intros _. by rewrite lookup_insert_eq. }
  split; [exact Hk|]. intros fs7 HR7.
  assert (Ha7 : fs7 !! A = Some (run_line r)).
  { destruct HR7 as [-> _], Hk as [-> _], HR5 as [-> _], HR4 as [-> _], HR2 as [-> _]. done. }
  assert (Hc7 : fs7 !! C = Some (run_line r)) by (apply HR7; by rewrite lookup_insert_eq).
  apply rg_bind; [apply _|].
  eapply rg_mono;
    [apply (active_rg r (λ fs1, fs1 !! A = Some (run_line r) /\ fs1 !! C = Some (run_line r))); [|by intros ? []|done]|].
  { intros ?? [-> Hc] []. auto. }
  intros res fs8 [-> H8]. rewrite bool_decide_true by done. cbn [negb].
  apply rg_ret. intros fs9 [_ HR9] _ _. apply HR9, H8.
Qed.

(** A look for the request, begun while it is there. *)
Lemma seen_rg r fs :
  fs !! C = Some (run_line r) ->
  rg false (keeps r) (keeps r) (λ res _, forall b, res = Ok b -> b = true) (cancel_requested dir r) fs.
Proof.
  intros Hc.
  assert (Hst : forall fs1 fs2, keeps r fs1 fs2 -> fs1 !! C = Some (run_line r) -> fs2 !! C = Some (run_line r))
    by (by intros fs1 fs2 [_ H]).
  apply rg_bind; [apply _|].
  apply (rg_regular false (keeps r) (keeps r) (λ _, reflexivity _) _ Hst); [exact Hc|].
  intros fs1 b H1 [->|[[=] _]] fs2 HR2. rewrite H1, bool_decide_true by (by eexists). cbn [negb].
  apply rg_bind; [apply _|].
  apply (rg_read_state false (keeps r) (keeps r) (λ _, reflexivity _) _ Hst); [by apply (Hst fs1)|].
  intros fs3 data H3 [->|[[=] _]] fs4 HR4. rewrite H3. apply rg_ret. intros fs5 HR5 b [= <-].
  change (default "" (Some (run_line r))) with (run_line r). rewrite run_line_says. apply String.eqb_refl.
Qed.

Definition running (r : RunId) (s : System) : Prop :=
  exists g, sy_run s = Some (r, Running g) \/ exists m, sy_run s = Some (r, Polling g m).

(** Steps during which [r] goes on. *)
Definition during (r : RunId) : System -> System -> Prop :=
  rtc (λ s s', running r s /\ step false s s' /\ running r s').

Definition asks_ok (r : RunId) (s : System) : Prop :=
  Forall (λ a, rg false (keeps r) (keeps r) (answer_ok r a.1) a.2 (sy_files s)) (sy_asks s).

Definition poll_ok (r : RunId) (s : System) : Prop :=
  match sy_run s with
  | Some (_, Polling _ m) =>
      rg false (keeps r) (keeps r) (λ res _, forall b, res = Ok b -> b = true) m (sy_files s)
  | _ => True
  end.

(** What one step adds to the log. *)
Definition noted (r : RunId) (s s' : System) : Prop :=
  sy_log s' = sy_log s
  \/ exists n, sy_log s' = n :: sy_log s
       /\ (n = Answered r (Ok Accepted) -> sy_files s' !! C = Some (run_line r))
       /\ forall b, n = Polled r b -> poll_ok r s -> b = true.

Lemma running_active r s : system_inv false s -> running r s -> sy_files s !! A = Some (run_line r).
Proof.
  intros Hi (g & [E|(m & E)]); pose proof (inv_run _ _ Hi _ _ E) as H; cbn [phase_inv] in H; by destruct_and! H.
Qed.

Lemma asks_ok_stable r l fs fs' :
  keeps r fs fs' ->
  Forall (λ a, rg false (keeps r) (keeps r) (answer_ok r a.1) a.2 fs) l ->
  Forall (λ a, rg false (keeps r) (keeps r) (answer_ok r a.1) a.2 fs') l.
Proof. intros Hk H. eapply Forall_impl; [exact H|]. intros a Ha. eapply rg_stable; [apply _|exact Ha|done]. Qed.

Lemma during_step r s s' :
  system_inv false s -> running r s -> running r s' -> step false s s' -> asks_ok r s ->
  asks_ok r s' /\ keeps r (sy_files s) (sy_files s') /\ noted r s s'
  /\ (sy_files s !! C = Some (run_line r) -> poll_ok r s -> poll_ok r s').
Proof.
  intros Hi Hr Hr' Hs Ha. pose proof (running_active _ _ Hi Hr) as Hact.
  destruct Hs as [x fs asks log|x m m' fs fs' asks log Hm|x g fs asks log|x g fs asks log
    |x g m m' fs fs' asks log Hm|x g b fs asks log|x g fs asks log|x m m' fs fs' asks log Hm|x ph fs asks log
    |x fs run asks log|x m m' fs fs' run asks asks' log Hm|x o fs run asks asks' log|x m fs run asks asks' log];
    try (destruct Hr as (g0 & [[=]|(m0 & [=])]); fail); try (destruct Hr' as (g0 & [[=]|(m0 & [=])]); fail);
    cbn [sy_files sy_run sy_asks sy_log] in *.
  - (* a look begins *)
    assert (x = r) as -> by (destruct Hr as (g0 & [[= -> _]|(m0 & [=])]); done).
    split_and!; [done|done|by left|]. intros Hc _. by apply seen_rg.
  - assert (x = r) as -> by (destruct Hr as (g0 & [[=]|(m0 & [= -> _ _])]); done).
    destruct (inv_run _ _ Hi _ _ eq_refl) as (_ & Hc & _).
    destruct (calls_advance _ _ _ _ _ _ Hc Hm) as (_ & X & c & a & Hl & Hsv).
    pose proof (look_effect _ _ _ _ _ _ Hl Hsv) as ->.
    split_and!; [done|done|by left|]. intros _ Hp. eapply rg_advance; [apply _|exact Hp|exact Hm].
  - assert (x = r) as -> by (destruct Hr as (g0 & [[=]|(m0 & [= -> _ _])]); done).
    split_and!; [done|done| |done]. right. exists (Polled r b). split; [done|]. split; [done|].
    intros b' [= <-] Hp. by apply (Hp fs).
  - split_and!; [|done| |done].
    + constructor; [by apply ask_rg|done].
    + right. exists (Asked x). by split_and!.
  - apply Forall_app in Ha as [H1 [Hx H2]%Forall_cons].
    destruct (rg_advance _ _ _ _ _ _ _ _ Hx Hm) as [Hk Hx']. split_and!; [|done|by left|].
    + apply Forall_app. split; [by eapply asks_ok_stable|]. constructor; [done|by eapply asks_ok_stable].
    + intros _. unfold poll_ok. cbn. destruct run as [[? []]|]; try done. intros Hp.
      eapply rg_stable; [apply _|exact Hp|done].
  - apply Forall_app in Ha as [H1 [Hx H2]%Forall_cons]. split_and!; [by apply Forall_app|done| |done].
    right. exists (Answered x o). split; [done|]. split; [|done].
    intros [= -> ->]. by apply (Hx fs).
  - apply Forall_app in Ha as [H1 [Hx H2]%Forall_cons]. split_and!; [by apply Forall_app|done|by left|done].
Qed.

Definition accepted_since (base : list Note) (r : RunId) (s : System) : Prop :=
  exists l, sy_log s = l ++ base /\ (Answered r (Ok Accepted) ∈ l -> sy_files s !! C = Some (run_line r)).

Lemma during_accepted base r s s1 :
  during r s s1 -> system_inv false s -> asks_ok r s -> accepted_since base r s ->
  system_inv false s1 /\ asks_ok r s1 /\ accepted_since base r s1.
Proof.
  induction 1 as [s|s s' s1 (Hr & Hs & Hr') _ IH]; [done|]. intros Hi Ha (l & El & Hl).
  destruct (during_step _ _ _ Hi Hr Hr' Hs Ha) as (Ha' & [_ Hk] & Hn & _).
  apply IH; [by eapply system_inv_step|done|].
  destruct Hn as [En|(n & En & Hc & _)]; [exists l; split; [congruence|auto]|].
  exists (n :: l). split; [rewrite En, El; done|]. intros [<-|H]%elem_of_cons; auto.
Qed.

Definition seen_since (base : list Note) (r : RunId) (s : System) : Prop :=
  exists l, sy_log s = l ++ base /\ forall b, Polled r b ∈ l -> b = true.

Lemma during_seen base r s s1 :
  during r s s1 -> system_inv false s -> asks_ok r s -> sy_files s !! C = Some (run_line r) -> poll_ok r s ->
  seen_since base r s -> sy_files s1 !! C = Some (run_line r) /\ seen_since base r s1.
Proof.
  induction 1 as [s|s s' s1 (Hr & Hs & Hr') _ IH]; [done|]. intros Hi Ha Hc Hp (l & El & Hl).
  destruct (during_step _ _ _ Hi Hr Hr' Hs Ha) as (Ha' & [_ Hk] & Hn & Hp').
  apply IH; [by eapply system_inv_step|done|auto..|].
  destruct Hn as [En|(n & En & _ & Hb)]; [exists l; split; [congruence|auto]|].
  exists (n :: l). split; [rewrite En, El; done|]. intros b [<-|H]%elem_of_cons; [by apply Hb|by apply Hl].
Qed.

(** No cancellation has looked at the files yet. *)
Definition quiet (s : System) : Prop := Forall (λ a, a.2 = request_cancel paths (req a.1)) (sy_asks s).

(** ** Theorems *)

(** C34.  No run is cancelled by a request that was not made for it: a look that finds a request
    comes after somebody asked for the cancellation of just this run, whatever requests of other
    runs, or of crashed ones, were in the files, whichever calls failed, and however the steps of
    the processes were interleaved. *)
Theorem cancelled_only_on_request flaky s r l1 l2 :
  reachable flaky s -> sy_log s = l1 ++ Polled r true :: l2 -> Asked r ∈ l2.
Proof.
  intros Hr E. apply reachable_inv in Hr as [_ _ Hl]. rewrite E in Hl. by apply justified_split in Hl.
Qed.

(** A cancellation that was accepted takes effect, if no other cancellation was under way
    when the run had registered and no call fails: from then on and until the run ends the request
    stays, and every look the run begins finds it. *)
Theorem accepted_cancellation_seen r g g' s s1 s2 l l' :
  reachable false s -> sy_run s = Some (r, Running g) -> quiet s ->
  during r s s1 -> sy_log s1 = l ++ sy_log s -> Answered r (Ok Accepted) ∈ l ->
  sy_run s1 = Some (r, Running g') -> during r s1 s2 -> sy_log s2 = l' ++ sy_log s1 ->
  sy_files s2 !! C = Some (run_line r) /\ forall b, Polled r b ∈ l' -> b = true.
Proof.
  intros Hs Hr Hq H1 E1 Hacc Hr1 H2 E2. apply reachable_inv in Hs.
  assert (Ha : asks_ok r s).
  { eapply Forall_impl; [exact Hq|]. intros a ->. apply ask_rg. apply running_active; [done|]. exists g. by left. }
  destruct (during_accepted (sy_log s) _ _ _ H1 Hs Ha) as (Hs1 & Ha1 & la & Ela & Hla).
  { exists []. split; [done|]. by intros ?%elem_of_nil. }
  assert (Hc1 : sy_files s1 !! C = Some (run_line r)).
  { apply Hla. rewrite E1 in Ela. by apply app_inv_tail in Ela as <-. }
  destruct (during_seen (sy_log s1) _ _ _ H2 Hs1 Ha1 Hc1) as (Hc2 & lb & Elb & Hlb).
  - unfold poll_ok. by rewrite Hr1.
  - exists []. split; [done|]. by intros b ?%elem_of_nil.
  - split; [done|]. rewrite E2 in Elb. by apply app_inv_tail in Elb as <-.
Qed.

(** ** Executing an interleaving *)

Inductive Move :=
| MoveStart (r : RunId) | MoveRun | MovePoll | MoveClose | MoveEnd
| MoveAsk (r : RunId) | MoveAsking (i : nat) | MoveAnswer (i : nat).

Definition next_call {X} (m : FP X) (fs : Files) : option (FP X * Files) :=
  match m with Call c k => let '(a, fs) := serve c fs in Some (k a, fs) | _ => None end.

Definition move_run (s : System) (r : RunId) (phase : Phase) : option System :=
  match phase with
  | Registering (Done (Ok g)) => Some (mkSystem (sy_files s) (Some (r, Running g)) (sy_asks s) (sy_log s))
  | Registering m =>
      '(m, fs) ← next_call m (sy_files s); Some (mkSystem fs (Some (r, Registering m)) (sy_asks s) (sy_log s))
  | Polling g (Done (Ok b)) => Some (mkSystem (sy_files s) (Some (r, Running g)) (sy_asks s) (Polled r b :: sy_log s))
  | Polling g m =>
      '(m, fs) ← next_call m (sy_files s); Some (mkSystem fs (Some (r, Polling g m)) (sy_asks s) (sy_log s))
  | Closing m =>
      '(m, fs) ← next_call m (sy_files s); Some (mkSystem fs (Some (r, Closing m)) (sy_asks s) (sy_log s))
  | Running _ => None
  end.

Definition move (mv : Move) (s : System) : option System :=
  match mv, sy_run s with
  | MoveStart r, None =>
      Some (mkSystem (sy_files s) (Some (r, Registering (register_active_run paths (req r)))) (sy_asks s) (sy_log s))
  | MoveRun, Some (r, phase) => move_run s r phase
  | MovePoll, Some (r, Running g) =>
      Some (mkSystem (sy_files s) (Some (r, Polling g (repository_cancel_requested paths (req r)))) (sy_asks s) (sy_log s))
  | MoveClose, Some (r, Running g) =>
      Some (mkSystem (sy_files s) (Some (r, Closing (close_run r g))) (sy_asks s) (sy_log s))
  | MoveEnd, Some _ => Some (mkSystem (sy_files s) None (sy_asks s) (sy_log s))
  | MoveAsk r, _ =>
      Some (mkSystem (sy_files s) (sy_run s) ((r, request_cancel paths (req r)) :: sy_asks s) (Asked r :: sy_log s))
  | MoveAsking i, run =>
      match sy_asks s !! i with
      | Some (r, m) =>
          '(m, fs) ← next_call m (sy_files s);
          Some (mkSystem fs run (take i (sy_asks s) ++ (r, m) :: drop (S i) (sy_asks s)) (sy_log s))
      | None => None
      end
  | MoveAnswer i, run =>
      match sy_asks s !! i with
      | Some (r, Done o) =>
          Some (mkSystem (sy_files s) run (take i (sy_asks s) ++ drop (S i) (sy_asks s)) (Answered r o :: sy_log s))
      | _ => None
      end
  | _, _ => None
  end.

Lemma next_call_advance {X} (m : FP X) fs m' fs' :
  next_call m fs = Some (m', fs') -> advance false m fs m' fs'.
Proof.
  destruct m; cbn; try done. destruct (serve o fs) as [a fs1] eqn:E. intros [= <- <-]. exists a. split; [by left|done].
Qed.

Lemma move_run_step s r phase s' : sy_run s = Some (r, phase) -> move_run s r phase = Some s' -> step false s s'.
Proof.
  destruct s as [fs run asks log]. cbn [sy_run]. intros ->. unfold move_run. cbn [sy_files sy_asks sy_log].
  destruct phase as [m|g|g m|m]; [|done| |].
  - destruct m as [[g|e]|X c k|k|u k]; try done; [intros [= <-]; constructor|].
    intros ([m' fs'] & Hn & [= <-])%bind_Some. apply step_registering. by apply next_call_advance.
  - destruct m as [[b|e]|X c k|k|u k]; try done; [intros [= <-]; constructor|].
    intros ([m' fs'] & Hn & [= <-])%bind_Some. apply step_polling. by apply next_call_advance.
  - intros ([m' fs'] & Hn & [= <-])%bind_Some. apply step_closing. by apply next_call_advance.
Qed.

Lemma move_step mv s s' : move mv s = Some s' -> step false s s'.
Proof.
  destruct mv as [r| | | | |r|i|i]; cbn [move].
  - destruct s as [fs [[? ?]|] asks log]; [done|]. intros [= <-]. constructor.
  - destruct (sy_run s) as [[r phase]|] eqn:Er; [|done]. by apply move_run_step.
  - destruct s as [fs [[r []]|] asks log]; try done. intros [= <-]. constructor.
  - destruct s as [fs [[r []]|] asks log]; try done. intros [= <-]. constructor.
  - destruct s as [fs [[r ph]|] asks log]; [|done]. intros [= <-]. constructor.
  - destruct s as [fs run asks log]. intros [= <-]. constructor.
  - destruct s as [fs run asks log]. cbn [sy_asks sy_files sy_run sy_log].
    destruct (asks !! i) as [[r m]|] eqn:Ei; [|done]. intros ([m' fs'] & Hn & [= <-])%bind_Some.
    rewrite <- (take_drop_middle _ _ _ Ei) at 1. apply step_asking. by apply next_call_advance.
  - destruct s as [fs run asks log]. cbn [sy_asks sy_files sy_run sy_log].
    destruct (asks !! i) as [[r [o| | |]]|] eqn:Ei; try done. intros [= <-].
    rewrite <- (take_drop_middle _ _ _ Ei) at 1. apply step_answered.
Qed.

Fixpoint moves (l : list Move) (s : System) : option System :=
  match l with
  | [] => Some s
  | mv :: l => s ← move mv s; moves l s
  end.

Lemma moves_steps l s s' : moves l s = Some s' -> rtc (step false) s s'.
Proof.
  revert s. induction l as [|mv l IH]; intros s; cbn; [intros [= <-]; constructor|].
  intros (s1 & H1%move_step & H)%bind_Some. eapply rtc_l; [exact H1|]. by apply IH.
Qed.

Definition runningb (r : RunId) (s : System) : bool :=
  match sy_run s with
  | Some (x, Running _) | Some (x, Polling _ _) => bool_decide (x = r)
  | _ => false
  end.

Fixpoint moves_during (r : RunId) (l : list Move) (s : System) : option System :=
  match l with
  | [] => Some s
  | mv :: l => s' ← move mv s; if runningb r s && runningb r s' then moves_during r l s' else None
  end.

Lemma runningb_running r s : runningb r s = true -> running r s.
Proof.
  unfold runningb, running. destruct (sy_run s) as [[x [m|g|g m|m]]|]; try done; intros ->%bool_decide_eq_true;
    exists g; [by left|]. right. by exists m.
Qed.

Lemma moves_during_spec r l s s' : moves_during r l s = Some s' -> during r s s'.
Proof.
  revert s. induction l as [|mv l IH]; intros s; cbn [moves_during]; [intros [= <-]; constructor|].
  intros (s1 & H1%move_step & H)%bind_Some. destruct (runningb r s && runningb r s1) eqn:E; [|done].
  apply andb_true_iff in E as [E1%runningb_running E2%runningb_running].
  eapply rtc_l; [by split_and!|]. by apply IH.
Qed.

End system.

Module CancellationExample.

Definition ex_paths : ApplicationPaths := default_paths.
Definition ex_pid : ProfileId := @mkIdent KProfile "main" I.
Definition run_a : RunId := @mkIdent KRun "run-a" I.
Definition run_b : RunId := @mkIdent KRun "run-b" I.
Definition request_file : path := cancel_request_path (state_dir ex_paths ex_pid).

Definition repeat_move (n : nat) (mv : Move) : list Move := replicate n mv.

(** A run registers itself. *)
Definition run_starts (r : RunId) : list Move := MoveStart r :: repeat_move 4 MoveRun.
(** A cancellation is asked for and goes on to its answer. *)
Definition cancelled (r : RunId) : list Move := MoveAsk r :: repeat_move 6 (MoveAsking 0) ++ [MoveAnswer 0].
(** The run looks for a request: there is none, or there is one to read. *)
Definition run_looks (found : bool) : list Move := MovePoll :: repeat_move (if found then 3 else 2) MoveRun.

Definition ex_play (l : list Move) (fs : Files) : System :=
  default (start fs) (moves ex_paths ex_pid l (start fs)).

Definition plays (l : list Move) (fs : Files) : bool :=
  match moves ex_paths ex_pid l (start fs) with Some _ => true | None => false end.

Lemma played l fs : plays l fs = true -> reachable ex_paths ex_pid false (ex_play l fs).
Proof.
  unfold plays. destruct (moves ex_paths ex_pid l (start fs)) as [s|] eqn:E; [|done]. intros _.
  exists fs. unfold ex_play. rewrite E. by eapply moves_steps.
Qed.

(** A request of an earlier run is still in the files. *)
Definition left_over : Files := {[ request_file := run_line run_b ]}.

Lemma cancelled_only_on_request_witness :
  Asked run_a ∈ [Answered run_a (Ok Accepted); Asked run_a; Polled run_a false].
Proof.
  eapply (cancelled_only_on_request ex_paths ex_pid false
    (ex_play (run_starts run_a ++ run_looks false ++ cancelled run_a ++ run_looks true) left_over) run_a []).
  - apply played. vm_compute. reflexivity.
  - vm_compute. reflexivity.
Defined.

Lemma accepted_cancellation_seen_witness :
  sy_files (ex_play (run_starts run_a ++ cancelled run_a ++ run_looks true) left_over) !! request_file = Some (run_line run_a).
Proof.
  set (s := ex_play (run_starts run_a) left_over).
  set (s1 := ex_play (run_starts run_a ++ cancelled run_a) left_over).
  set (s2 := ex_play (run_starts run_a ++ cancelled run_a ++ run_looks true) left_over).
  apply (accepted_cancellation_seen ex_paths ex_pid run_a (mkRegistration (state_dir ex_paths ex_pid) run_a false None)
    (mkRegistration (state_dir ex_paths ex_pid) run_a false None) s s1 s2
    [Answered run_a (Ok Accepted); Asked run_a] [Polled run_a true]).
  - apply played. vm_compute. reflexivity.
  - vm_compute. reflexivity.
  - unfold quiet. assert (sy_asks s = []) as -> by (vm_compute; reflexivity). constructor.
  - apply (moves_during_spec _ _ _ (cancelled run_a)). vm_compute. reflexivity.
  - vm_compute. reflexivity.
  - apply list_elem_of_here.
  - vm_compute. reflexivity.
  - apply (moves_during_spec _ _ _ (run_looks true)). vm_compute. reflexivity.
  - vm_compute. reflexivity.
Defined.

(** The cancellation of [a] looks, [a] ends and [b] starts; the cancellation of [b] is accepted;
    then that of [a] goes on. *)
Definition overtaken : list Move :=
  run_starts run_a ++ MoveAsk run_a :: repeat_move 2 (MoveAsking 0)
  ++ MoveClose :: repeat_move 4 MoveRun ++ [MoveEnd]
  ++ run_starts run_b ++ cancelled run_b ++ repeat_move 7 (MoveAsking 0) ++ [MoveAnswer 0].

(** C39.  A cancellation that was accepted can be lost: one for an earlier run, which looked
    before that run ended, writes its request over the accepted one, finds that the run has changed
    and removes it.  The accepted cancellation is gone before the run has looked, nobody is left to
    repeat it, and no call has failed. *)
Theorem accepted_cancellation_lost :
  exists s, reachable ex_paths ex_pid false s /\ running run_b s /\ Answered run_b (Ok Accepted) ∈ sy_log s
    /\ sy_asks s = [] /\ sy_files s !! request_file = None /\ (forall b, Polled run_b b ∉ sy_log s).
Proof.
  exists (ex_play overtaken ∅). split; [apply played; vm_compute; reflexivity|].
  split; [apply runningb_running; vm_compute; reflexivity|].
  assert (E : sy_log (ex_play overtaken ∅)
    = [Answered run_a (Ok RunMismatch); Answered run_b (Ok Accepted); Asked run_b; Asked run_a]) by (vm_compute; reflexivity).
  rewrite E. split; [apply list_elem_of_further, list_elem_of_here|].
  split; [vm_compute; reflexivity|]. split; [vm_compute; reflexivity|].
  intros b Hb. rewrite !elem_of_cons, elem_of_nil in Hb. destruct_or! Hb; done.
Qed.

End CancellationExample.
