(* ===== verification/BrowsePages.v ===== *)
(** * Pages of a browsed directory (src/daemon/control/BrowseContinuationTokenCodec,
      BrowseDirectoryPageCollector, BrowseFilesystemAccess)

    A directory is listed in pages: the collector keeps the first names after the last one seen,
    and the place to go on is handed to the client as a token bound to its session and query. *)

From S2P Require Import Prelude Errors Identifiers RuntimeTime FsPath ConfigDomain.

Open Scope Z_scope.

(** ** Continuation tokens *)

Abbreviation nul := Ascii.zero.

Definition invalid_request {A} (message : string) : res A :=
  Throw (ManagerOperationError InvalidRequest message).

(** src/daemon/control/BrowseContinuationTokenCodec.cpp:13-15 *)
Definition hex_digit (value : N) : ascii :=
  if (value <? 10)%N then Ascii.ascii_of_N (48 + value) else Ascii.ascii_of_N (97 + value - 10).

(** src/daemon/control/BrowseContinuationTokenCodec.cpp:17-26 *)
Fixpoint hex_encode (value : string) : string :=
  match value with
  | EmptyString => ""
  | String c rest =>
      let byte := Ascii.N_of_ascii c in
      String (hex_digit (N.shiftr byte 4)) (String (hex_digit (N.land byte 15)) (hex_encode rest))
  end.

(** -1 is [None].
    src/daemon/control/BrowseContinuationTokenCodec.cpp:28-34 *)
Definition hex_value (value : ascii) : option N :=
  let n := Ascii.N_of_ascii value in
  if ((48 <=? n) && (n <=? 57))%N then Some (n - 48)%N
  else if ((97 <=? n) && (n <=? 102))%N then Some (n - 97 + 10)%N
  else None.

(** src/daemon/control/BrowseContinuationTokenCodec.cpp:36-42 *)
Definition directory_binding (session_id : BrowseSessionId) (relative_path : path) : string :=
  id_value session_id +:+ String nul (lexically_normal relative_path +:+ String nul "").

(** src/daemon/control/BrowseContinuationTokenCodec.cpp:44-55 *)
Definition previous_versions_binding (session_id : BrowseSessionId) (profile_id source_id : string)
    (relative_path : path) : string :=
  let normalized := lexically_normal relative_path in
  let normalized := if str_empty normalized then "." else normalized in
  id_value session_id +:+ String nul (profile_id +:+ String nul (source_id +:+ String nul
    (normalized +:+ String nul ""))).

(** src/daemon/control/BrowseContinuationTokenCodec.hpp:42-42 *)
Definition maximum_token_size : Z := 32768.

Definition text_size (s : string) : Z := Z.of_nat (String.length s).

(** src/daemon/control/BrowseContinuationTokenCodec.cpp:57-65 *)
Definition encode_bound_token (binding cursor : string) : res string :=
  let token := "v1:" +:+ hex_encode (binding +:+ cursor) in
  if maximum_token_size <? text_size token then invalid_request "browse continuation token is too large"
  else Ok token.

(** The loop over pairs of digits; a single one at the end cannot be: the length is even. *)
Fixpoint hex_decode (digits : string) : res string :=
  match digits with
  | String high (String low rest) =>
      match hex_value high, hex_value low with
      | Some h, Some l =>
          decoded ← hex_decode rest;
          Ok (String (Ascii.ascii_of_N (N.lor (N.shiftl h 4) l)) decoded)
      | _, _ => invalid_request "invalid browse continuation token"
      end
  | _ => Ok ""
  end.

Fixpoint strip_prefix (prefix s : string) : option string :=
  match prefix, s with
  | EmptyString, _ => Some s
  | String a prefix, String b s => if Ascii.eqb a b then strip_prefix prefix s else None
  | String _ _, EmptyString => None
  end.

(** src/daemon/control/BrowseContinuationTokenCodec.cpp:67-87 *)
Definition decode_bound_token (binding token : string) : res string :=
  if str_empty token then Ok ""
  else
    match strip_prefix "v1:" token with
    | None => invalid_request "invalid browse continuation token"
    | Some digits =>
        if (maximum_token_size <? text_size token) || negb ((text_size token - 3) mod 2 =? 0)
        then invalid_request "invalid browse continuation token"
        else
          decoded ← hex_decode digits;
          match strip_prefix binding decoded with
          | None => invalid_request "browse continuation token does not match the session and query"
          | Some cursor => Ok cursor
          end
    end.

(** src/daemon/control/BrowseContinuationTokenCodec.cpp:89-95 *)
Definition directory_token (session_id : BrowseSessionId) (relative_path : path) (last_name : string) : res string :=
  encode_bound_token (directory_binding session_id relative_path) last_name.

Definition entry_name_ok (name : string) : bool :=
  negb (str_empty name) && negb (name =? ".")%string && negb (name =? "..")%string
  && negb (str_contains "/" name) && negb (str_contains nul name).

(** src/daemon/control/BrowseContinuationTokenCodec.cpp:97-109 *)
Definition directory_cursor (session_id : BrowseSessionId) (relative_path : path) (token : string) : res string :=
  if str_empty token then Ok ""
  else
    name ← decode_bound_token (directory_binding session_id relative_path) token;
    if entry_name_ok name then Ok name else invalid_request "invalid browse continuation token".

(** src/daemon/control/BrowseContinuationTokenCodec.cpp:111-124 *)
Definition previous_versions_token (session_id : BrowseSessionId) (profile_id source_id : string)
    (relative_path : path) (offset : Z) : res string :=
  if offset =? 0 then invalid_request "invalid previous-versions continuation offset"
  else encode_bound_token (previous_versions_binding session_id profile_id source_id relative_path) (setw0 0 offset).

(** [std::from_chars] for [std::size_t]: the value, when all of the text is digits and it fits. *)
Definition from_chars (value : string) : option Z :=
  if str_empty value then None
  else match decimal value with
       | Some z => if z <? 2 ^ 64 then Some z else None
       | None => None
       end.

(** src/daemon/control/BrowseContinuationTokenCodec.cpp:126-144 *)
Definition previous_versions_offset (session_id : BrowseSessionId) (profile_id source_id : string)
    (relative_path : path) (token : string) : res Z :=
  if str_empty token then Ok 0
  else
    value ← decode_bound_token (previous_versions_binding session_id profile_id source_id relative_path) token;
    match from_chars value with
    | Some result =>
        if result =? 0 then invalid_request "invalid previous-versions continuation token" else Ok result
    | None => invalid_request "invalid previous-versions continuation token"
    end.

(** ** Collecting a page *)

(** src/daemon/control/BrowseSessionService.hpp:23-29 *)
Record BrowseEntryInfo := mkEntry {
  be_name : string;
  be_directory : bool;
  be_size : Z;
  be_mode : Z;
  be_modified_at : Z;
}.

(** src/daemon/control/BrowseSessionService.hpp:31-34 *)
Record BrowseDirectoryPage := mkPage {
  bp_entries : list BrowseEntryInfo;
  bp_continuation_token : string;
}.

(** src/daemon/control/BrowseDirectoryPageCollector.cpp:19-24 *)
Definition name_less (left right : BrowseEntryInfo) : bool := str_less (be_name left) (be_name right).

(** The heap is kept in the order [sort_heap] gives it; what is observed of a heap is its
    greatest element, which [pop_heap] takes out.
    src/daemon/control/BrowseDirectoryPageCollector.cpp:26-33 *)
Definition collector_add (maximum_entries : nat) (entries : list BrowseEntryInfo) (entry : BrowseEntryInfo)
    : list BrowseEntryInfo :=
  let entries := std_sort name_less (entries ++ [entry]) in
  if (length entries <=? maximum_entries + 1)%nat then entries else removelast entries.

(** src/daemon/control/BrowseDirectoryPageCollector.cpp:35-44 *)
Definition collector_finish (maximum_entries : nat) (entries : list BrowseEntryInfo) : BrowseDirectoryPage :=
  let entries := std_sort name_less entries in
  if (maximum_entries <? length entries)%nat then
    let entries := take maximum_entries entries in
    mkPage entries (default "" (be_name <$> last entries))
  else mkPage entries "".

(** ** Reading a directory *)

Inductive NodeKind := NodeRegular | NodeDirectory | NodeSymlink | NodeOther.

(** [struct stat] *)
Record NodeStat := mkStat {
  st_kind : NodeKind;
  st_mode : Z;
  st_uid : Z;
  st_gid : Z;
  st_size : Z;
  st_mtime : Z;
}.

Abbreviation ENOENT := 2.
Abbreviation ENOTDIR := 20.

(** src/daemon/control/BrowseFilesystemAccess.cpp:27-31 *)
Definition path_error {A} (operation : string) (error_number : Z) : res A :=
  if (error_number =? ENOENT) || (error_number =? ENOTDIR)
  then Throw (ManagerOperationError NotFound operation)
  else Throw (SystemError error_number operation).

(** The loop over the elements of a path. *)
Fixpoint safe_components (elements : list string) : res (list string) :=
  match elements with
  | [] => Ok []
  | value :: elements =>
      if str_empty value || (value =? ".")%string then safe_components elements
      else if (value =? "..")%string || str_contains "/" value || str_contains nul value
      then Throw (InvalidArgument "browse path contains an unsafe component")
      else rest ← safe_components elements; Ok (value :: rest)
  end.

(** src/daemon/control/BrowseFilesystemAccess.cpp:33-46 *)
Definition validated_components (relative : path) : res (list string) :=
  if is_absolute relative then Throw (InvalidArgument "browse path must be relative")
  else safe_components (path_elements relative).

(** src/daemon/control/BrowseFilesystemAccess.cpp:163-168 *)
Definition normalize_relative_path (relative : path) : res path :=
  components ← validated_components relative;
  Ok (if bool_decide (components = []) then "." else join_slash components).

(** What the system says of the entries of one open directory: their names in the order they are
    read, the error that ends the reading (0 at its end), and [fstatat] of each. *)
Record OpenDirectory := mkOpenDirectory {
  od_names : list string;
  od_error : Z;
  od_stat : string -> Z + NodeStat;
}.

(** src/daemon/control/BrowseFilesystemAccess.cpp:146-159 *)
Definition entry_info (directory : OpenDirectory) (name : string) : res BrowseEntryInfo :=
  match od_stat directory name with
  | inl e => path_error "cannot inspect browse entry" e
  | inr s =>
      match st_kind s with
      | NodeSymlink | NodeOther => Throw (InvalidArgument "browse entry has an unsupported type")
      | NodeDirectory => Ok (mkEntry name true 0 (st_mode s) (st_mtime s))
      | NodeRegular => Ok (mkEntry name false (st_size s) (st_mode s) (st_mtime s))
      end
  end.

Definition hidden_name (name : string) : bool :=
  (name =? ".")%string || (name =? "..")%string || (name =? ".incoming")%string.

(** [name <= after_name] *)
Definition not_after (name after_name : string) : bool := negb (str_less after_name name).

(** The loop of [list_directory].
    src/daemon/control/BrowseFilesystemAccess.cpp:181-194 *)
Fixpoint list_entries (directory : OpenDirectory) (maximum_entries : nat) (names : list string)
    (result : list BrowseEntryInfo) : res (list BrowseEntryInfo) :=
  match names with
  | [] => Ok result
  | name :: names =>
      if hidden_name name then list_entries directory maximum_entries names result
      else match entry_info directory name with
           | Ok info =>
               if (maximum_entries <=? length result)%nat
               then invalid_request "browse directory exceeds the safe entry limit"
               else list_entries directory maximum_entries names (result ++ [info])
           | Throw (InvalidArgument _) => list_entries directory maximum_entries names result
           | Throw e => Throw e
           end
  end.

(** What [list_directory] does with the directory it opened.
    src/daemon/control/BrowseFilesystemAccess.cpp:179-197 *)
Definition list_directory (directory : OpenDirectory) (maximum_entries : nat) : res (list BrowseEntryInfo) :=
  result ← list_entries directory maximum_entries (od_names directory) [];
  if od_error directory =? 0 then Ok result else path_error "cannot read browse directory" (od_error directory).

(** The loop of [list_directory_page].
    src/daemon/control/BrowseFilesystemAccess.cpp:212-222 *)
Fixpoint collect_entries (directory : OpenDirectory) (after_name : string) (maximum_entries : nat)
    (names : list string) (entries : list BrowseEntryInfo) : res (list BrowseEntryInfo) :=
  match names with
  | [] => Ok entries
  | name :: names =>
      if hidden_name name || not_after name after_name
      then collect_entries directory after_name maximum_entries names entries
      else match entry_info directory name with
           | Ok info => collect_entries directory after_name maximum_entries names
                          (collector_add maximum_entries entries info)
           | Throw (InvalidArgument _) => collect_entries directory after_name maximum_entries names entries
           | Throw e => Throw e
           end
  end.

(** What [list_directory_page] does with the directory it opened; a page size of zero is refused
    by the constructor of the collector.
    src/daemon/control/BrowseFilesystemAccess.cpp:210-225 *)
Definition list_directory_page (directory : OpenDirectory) (after_name : string) (maximum_entries : nat)
    : res BrowseDirectoryPage :=
  if (maximum_entries =? 0)%nat then Throw (InvalidArgument "browse page size must be positive")
  else
    entries ← collect_entries directory after_name maximum_entries (od_names directory) [];
    if od_error directory =? 0 then Ok (collector_finish maximum_entries entries)
    else path_error "cannot read browse directory" (od_error directory).

(** ** Lemmas: tokens *)

Lemma hex_round_trip s : hex_decode (hex_encode s) = Ok s.
Proof.
  induction s as [|c s IH]; [done|]. cbn [hex_encode hex_decode].
  assert (Hc : exists h l, hex_value (hex_digit (N.shiftr (Ascii.N_of_ascii c) 4)) = Some h
             /\ hex_value (hex_digit (N.land (Ascii.N_of_ascii c) 15)) = Some l
             /\ Ascii.ascii_of_N (N.lor (N.shiftl h 4) l) = c).
  { clear. destruct c as [[] [] [] [] [] [] [] []]; (do 2 eexists; split_and!; reflexivity). }
  destruct Hc as (h & l & -> & -> & Hc). rewrite IH. cbn. by rewrite Hc.
Qed.

Lemma hex_encode_length s : text_size (hex_encode s) = 2 * text_size s.
Proof. unfold text_size. induction s as [|c s IH]; cbn [hex_encode String.length]; lia. Qed.

Lemma strip_prefix_app a b : strip_prefix a (a +:+ b) = Some b.
Proof. induction a as [|c a IH]; cbn; [done|]. by rewrite Ascii.eqb_refl. Qed.

Lemma strip_prefix_Some a s b : strip_prefix a s = Some b -> s = a +:+ b.
Proof.
  revert s. induction a as [|c a IH]; intros [|x s]; cbn; try congruence.
  destruct (Ascii.eqb_spec c x) as [<-|]; [|done]. intros H. f_equal. by apply IH.
Qed.

Lemma decode_encoded binding cursor token binding' :
  encode_bound_token binding cursor = Ok token ->
  str_empty token = false
  /\ decode_bound_token binding' token
     = match strip_prefix binding' (binding +:+ cursor) with
       | Some c => Ok c
       | None => invalid_request "browse continuation token does not match the session and query"
       end.
Proof.
  unfold encode_bound_token. destruct (maximum_token_size <? _) eqn:E; [done|].
  intros H. assert (token = "v1:" +:+ hex_encode (binding +:+ cursor)) as -> by congruence. split; [done|]. clear H.
  assert (text_size ("v1:" +:+ hex_encode (binding +:+ cursor)) - 3 = 2 * text_size (binding +:+ cursor)) as Hs.
  { rewrite <- hex_encode_length. unfold text_size. rewrite string_length_app. cbn [String.length]. lia. }
  unfold decode_bound_token. rewrite (strip_prefix_app "v1:"), E, Hs, Z.mul_comm, Z.mod_mul, hex_round_trip by lia.
  reflexivity.
Qed.

(** Texts without a NUL before the first one are equal. *)
Lemma nul_inj a b c d :
  str_contains nul a = false -> str_contains nul c = false ->
  a +:+ String nul b = c +:+ String nul d -> a = c /\ b = d.
Proof.
  revert c. induction a as [|x a IH]; intros [|y c] Ha Hc E.
  - by injection E as ->.
  - injection E as <- _. by rewrite str_contains_cons in Hc.
  - injection E as -> _. by rewrite str_contains_cons in Ha.
  - injection E as <- E. rewrite str_contains_cons in Ha, Hc. apply orb_false_iff in Ha as [_ Ha], Hc as [_ Hc].
    by destruct (IH c Ha Hc E) as [-> ->].
Qed.

Lemma nul_in a b : str_contains nul (a +:+ String nul b) = true.
Proof. rewrite str_contains_app, str_contains_cons. cbn. apply orb_true_r. Qed.

Lemma id_no_nul {k} (i : Ident k) : str_contains nul (id_value i) = false.
Proof.
  destruct i as [[|c s] H]; [done|]; cbn [id_value]. apply Is_true_true in H.
  assert (is_alnum c = true) as Hc by (by eapply id_pattern_head).
  rewrite str_contains_cons.
  assert (Ascii.eqb nul c = false) as -> by (by destruct c as [[] [] [] [] [] [] [] []]).
  cbn [orb]. destruct k; simpl in H; breflect; (eapply forallb_no_char; [|eassumption]; done).
Qed.

(** Normalising brings in no other character than dots and separators. *)
Section normal_chars.
Context (c : ascii) (Hslash : Ascii.eqb c "/" = false) (Hdot : Ascii.eqb c "." = false).
Abbreviation free := (λ s, str_contains c s = false).

Lemma split_free s : free s -> Forall free (split_slash s).
Proof.
  induction s as [|x s IH]; [by repeat constructor|]. rewrite str_contains_cons. intros [Hx Hs]%orb_false_iff.
  specialize (IH Hs). cbn. destruct (Ascii.eqb x "/"); [by constructor|].
  destruct (split_slash s) as [|h t]; [repeat constructor; by rewrite str_contains_cons, Hx|].
  apply Forall_cons in IH as [Hh Ht]. constructor; [by rewrite str_contains_cons, Hx|done].
Qed.

Lemma norm_step_free r e : Forall free (pp_names r) -> free e -> Forall free (pp_names (norm_step r e)).
Proof.
  intros Hr He. unfold norm_step, pp_append_empty, pp_drop_last.
  repeat case_match; cbn [pp_names]; auto using removelast_Forall; apply Forall_app; auto.
Qed.

Lemma norm_fold_free l r : Forall free l -> Forall free (pp_names r) -> Forall free (pp_names (foldl norm_step r l)).
Proof.
  intros Hl. revert r. induction Hl as [|e l He Hl IH]; intros r Hr; cbn; [done|]. apply IH. by apply norm_step_free.
Qed.

Lemma join_free l : Forall free l -> free (join_slash l).
Proof.
  induction 1 as [|x l Hx Hl IH]; [done|]. destruct l as [|y l]; [done|].
  change (join_slash (x :: y :: l)) with (x +:+ String "/" (join_slash (y :: l))).
  by rewrite str_contains_app, Hx, str_contains_cons, Hslash, IH.
Qed.

Lemma lexically_normal_free p : free p -> free (lexically_normal p).
Proof.
  intros Hp. unfold lexically_normal. destruct (str_empty p); [done|].
  assert (Hn : Forall free (pp_names (pp_normal (pp_parse p)))).
  { unfold pp_normal, norm_finish. set (r := foldl _ _ _).
    assert (Hr : Forall free (pp_names r)).
    { apply norm_fold_free; [|done]. unfold pp_elements, pp_parse. cbn [pp_root pp_names pp_trail].
      rewrite !Forall_app. split_and!.
      - case_match; repeat constructor. by rewrite str_contains_cons, Hslash.
      - rewrite Forall_forall. intros x [Hx _]%list_elem_of_In%filter_In. apply list_elem_of_In in Hx.
        revert x Hx. apply Forall_forall. by apply split_free.
      - case_match; by repeat constructor. }
    repeat case_match; cbn [pp_names]; auto. repeat constructor. by rewrite str_contains_cons, Hdot. }
  unfold pp_render. rewrite !str_contains_app, join_free by done.
  repeat case_match; cbn [orb]; rewrite ?str_contains_cons, ?Hslash; done.
Qed.
End normal_chars.

Lemma normal_no_nul p : str_contains nul p = false -> str_contains nul (lexically_normal p) = false.
Proof. by apply lexically_normal_free. Qed.

Definition normal_or_dot (p : path) : path :=
  if str_empty (lexically_normal p) then "." else lexically_normal p.

Lemma normal_or_dot_no_nul p : str_contains nul p = false -> str_contains nul (normal_or_dot p) = false.
Proof. intros H. unfold normal_or_dot. case_match; [done|]. by apply normal_no_nul. Qed.

(** A request refused as invalid. *)
Definition refused {A} (r : res A) : Prop := exists m, r = Throw (ManagerOperationError InvalidRequest m).

Lemma refused_mismatch {A B} (f : A -> res B) m : refused (invalid_request m ≫= f).
Proof. by eexists. Qed.

(** ** Theorems: tokens *)

(** A directory token gives back the name it was made for, in the session and directory
    it was made for and in no other, and is no token for previous versions.  Paths and identifiers
    hold no NUL, as D-Bus strings do not. *)
Theorem directory_token_bound s p name token :
  directory_token s p name = Ok token -> entry_name_ok name = true -> str_contains nul p = false ->
  (forall s' p', str_contains nul p' = false ->
     if decide (s' = s /\ lexically_normal p' = lexically_normal p)
     then directory_cursor s' p' token = Ok name else refused (directory_cursor s' p' token))
  /\ (forall s' profile source p', str_contains nul profile = false -> str_contains nul source = false ->
        str_contains nul p' = false -> refused (previous_versions_offset s' profile source p' token)).
Proof.
  intros Ht Hn Hp. assert (Hnn : str_contains nul name = false).
  { unfold entry_name_ok in Hn. rewrite !andb_true_iff in Hn. destruct Hn as [_ Hn]. by apply negb_true_iff. }
  split.
  - intros s' p' Hp'. destruct (decode_encoded _ _ _ (directory_binding s' p') Ht) as [He Hd].
    unfold directory_cursor. rewrite He, Hd.
    destruct (strip_prefix _ _) as [c|] eqn:Ec.
    + apply strip_prefix_Some in Ec. unfold directory_binding in Ec.
      rewrite !string_app_assoc in Ec. cbn [String.append] in Ec. rewrite !string_app_assoc in Ec. cbn [String.append] in Ec.
      apply nul_inj in Ec as [Es Ec]; [|apply id_no_nul..]. apply nul_inj in Ec as [Ep <-]; [|by apply normal_no_nul..].
      apply ident_eq in Es as ->. rewrite decide_True by done. cbn. by rewrite Hn.
    + case_decide as E; [|by eexists]. destruct E as [-> E]. unfold directory_binding in Ec.
      by rewrite E, strip_prefix_app in Ec.
  - intros s' profile source p' Hpr Hso Hp'.
    destruct (decode_encoded _ _ _ (previous_versions_binding s' profile source p') Ht) as [He Hd].
    unfold previous_versions_offset. rewrite He, Hd.
    destruct (strip_prefix _ _) as [c|] eqn:Ec; [|by eexists]. exfalso.
    apply strip_prefix_Some in Ec. unfold directory_binding, previous_versions_binding in Ec.
    rewrite !string_app_assoc in Ec. cbn [String.append] in Ec.
    do 4 (rewrite ?string_app_assoc in Ec; cbn [String.append] in Ec).
    apply nul_inj in Ec as [_ Ec]; [|apply id_no_nul..]. apply nul_inj in Ec as [_ Ec]; [|by apply normal_no_nul|done].
    rewrite Ec, nul_in in Hnn. done.
Qed.

Lemma setw0_nonempty z : 0 < z -> str_empty (setw0 0 z) = false.
Proof.
  intros Hz. unfold setw0. cbn [Nat.sub]. change (str_repeat "0" 0) with "". cbn [String.append].
  rewrite pretty_Z_nonneg by lia. case_decide as E; [lia|].
  destruct (pretty_N_go_digits (Z.to_N z) "") as (ds & -> & _ & _ & _ & Hne). rewrite string_app_nil_r.
  destruct ds; [|done]. by destruct Hne; [lia|].
Qed.

Lemma decimal_setw0 z : 0 <= z -> decimal (setw0 0 z) = Some z.
Proof.
  intros Hz. unfold setw0, decimal. cbn [Nat.sub]. change (str_repeat "0" 0) with "". cbn [String.append].
  rewrite pretty_Z_nonneg by done. case_decide as E; [by subst|].
  destruct (pretty_N_go_digits (Z.to_N z) "") as (ds & -> & _ & Hd & _). rewrite string_app_nil_r, Hd.
  f_equal. lia.
Qed.

(** A token for previous versions gives back its offset, in the session and for the
    profile, source and path it was made for and for nothing else. *)
Theorem previous_versions_token_bound s profile source p offset token :
  previous_versions_token s profile source p offset = Ok token -> 0 <= offset < 2 ^ 64 ->
  str_contains nul profile = false -> str_contains nul source = false -> str_contains nul p = false ->
  forall s' profile' source' p', str_contains nul profile' = false -> str_contains nul source' = false ->
    str_contains nul p' = false ->
    if decide (s' = s /\ profile' = profile /\ source' = source /\ normal_or_dot p' = normal_or_dot p)
    then previous_versions_offset s' profile' source' p' token = Ok offset
    else refused (previous_versions_offset s' profile' source' p' token).
Proof.
  unfold previous_versions_token. destruct (Z.eqb_spec offset 0) as [|Hne]; [done|].
  intros Ht Ho Hpr Hso Hp s' profile' source' p' Hpr' Hso' Hp'.
  destruct (decode_encoded _ _ _ (previous_versions_binding s' profile' source' p') Ht) as [He Hd].
  unfold previous_versions_offset. rewrite He, Hd. destruct (strip_prefix _ _) as [c|] eqn:Ec.
  - apply strip_prefix_Some in Ec. unfold previous_versions_binding in Ec. cbv zeta in Ec.
    fold (normal_or_dot p) in Ec. fold (normal_or_dot p') in Ec.
    do 5 (rewrite ?string_app_assoc in Ec; cbn [String.append] in Ec).
    apply nul_inj in Ec as [Es Ec]; [|apply id_no_nul..]. apply nul_inj in Ec as [<- Ec]; [|done..].
    apply nul_inj in Ec as [<- Ec]; [|done..]. apply nul_inj in Ec as [Ep <-]; [|by apply normal_or_dot_no_nul..].
    apply ident_eq in Es as ->. rewrite decide_True by done. cbn [mbind res_bind].
    unfold from_chars. rewrite setw0_nonempty, decimal_setw0 by lia.
    destruct (Z.ltb_spec offset (2 ^ 64)); [|lia]. by destruct (Z.eqb_spec offset 0).
  - case_decide as E; [|by eexists]. destruct E as (-> & -> & -> & E).
    unfold previous_versions_binding in Ec. cbv zeta in Ec.
    fold (normal_or_dot p) in Ec. fold (normal_or_dot p') in Ec.
    by rewrite E, strip_prefix_app in Ec.
Qed.

(** ** Lemmas: pages *)

#[export] Instance name_less_swo : StrictWeakOrder name_less.
Proof. split; unfold name_less; intros; [by apply str_less_asym|by eapply str_less_negtrans]. Qed.

Abbreviation names_of := (map be_name).

(** One entry put in its place. *)
Fixpoint ins (e : BrowseEntryInfo) (l : list BrowseEntryInfo) : list BrowseEntryInfo :=
  match l with
  | [] => [e]
  | x :: l => if name_less e x then e :: x :: l else x :: ins e l
  end.

Lemma ins_perm e l : ins e l ≡ₚ e :: l.
Proof. induction l as [|x l IH]; cbn; [done|]. case_match; [done|]. rewrite IH. apply Permutation_swap. Qed.

Lemma ins_sorted e l : StronglySorted (cmp_le name_less) l -> StronglySorted (cmp_le name_less) (ins e l).
Proof.
  induction 1 as [|x l Hs IH Hx]; cbn; [repeat constructor|]. destruct (name_less e x) eqn:E.
  - constructor; [by constructor|]. constructor; [by apply swo_asym|].
    eapply Forall_impl; [exact Hx|]. intros y Hy. eapply swo_negtrans; [|exact Hy]. by apply swo_asym.
  - constructor; [done|]. rewrite ins_perm. by constructor.
Qed.

Lemma same_entry (l : list BrowseEntryInfo) x y :
  NoDup (names_of l) -> x ∈ l -> y ∈ l -> name_less x y = false -> name_less y x = false -> x = y.
Proof.
  intros Hn Hx Hy H1 H2. unfold name_less in *. pose proof (str_less_total _ _ H1 H2) as E.
  induction l as [|z l IH]; [by apply elem_of_nil in Hx|]. cbn in Hn. apply NoDup_cons in Hn as [Hz Hn].
  apply elem_of_cons in Hx as [->|Hx], Hy as [->|Hy]; [done| | |by apply IH].
  - destruct Hz. rewrite E. by apply list_elem_of_fmap_2.
  - destruct Hz. rewrite <- E. by apply list_elem_of_fmap_2.
Qed.

Lemma sort_snoc l e :
  NoDup (names_of (l ++ [e])) -> std_sort name_less (l ++ [e]) = ins e (std_sort name_less l).
Proof.
  intros Hn. symmetry. apply std_sort_unique; [apply _|..].
  - intros x y Hx Hy. by apply (same_entry (l ++ [e])).
  - apply ins_sorted, std_sort_sorted, _.
  - rewrite ins_perm, (std_sort_perm name_less l). apply Permutation_cons_append.
Qed.

Lemma sort_sorted l :
  NoDup (names_of l) -> StronglySorted (cmp_le name_less) l -> std_sort name_less l = l.
Proof. intros Hn Hs. symmetry. apply std_sort_unique; [apply _| |done..]. intros x y. by apply same_entry. Qed.

Lemma sort_names_NoDup l : NoDup (names_of l) -> NoDup (names_of (std_sort name_less l)).
Proof. intros H. by rewrite (std_sort_perm name_less l). Qed.

Lemma take_ins m e l : take m (ins e (take m l)) = take m (ins e l).
Proof.
  revert l. induction m as [|m IH]; intros [|x l]; try done. cbn [take ins].
  destruct (name_less e x); cbn [take]; [|by rewrite IH].
  f_equal. destruct m as [|m]; [done|]. cbn [take]. by rewrite take_take, Nat.min_l by lia.
Qed.

Lemma take_sorted m l : StronglySorted (cmp_le name_less) l -> StronglySorted (cmp_le name_less) (take m l).
Proof. rewrite <- (take_drop m l) at 1. by intros [H _]%StronglySorted_app_inv. Qed.

Lemma names_take m l : NoDup (names_of l) -> NoDup (names_of (take m l)).
Proof. rewrite <- (take_drop m l) at 1. rewrite map_app. by intros [H _]%NoDup_app. Qed.

Lemma removelast_take {A} (l : list A) m : length l = S m -> removelast l = take m l.
Proof.
  revert m. induction l as [|x l IH]; intros m H; [done|]. destruct l as [|y l]; [by destruct m|].
  destruct m as [|m]; [done|]. cbn [removelast take]. f_equal. apply IH. cbn in *. lia.
Qed.

(** The collector holds the first entries of all it was given. *)
Lemma collector_add_spec n l e :
  NoDup (names_of (l ++ [e])) ->
  collector_add n (take (n + 1) (std_sort name_less l)) e = take (n + 1) (std_sort name_less (l ++ [e])).
Proof.
  intros Hn. unfold collector_add.
  assert (Hl : NoDup (names_of l)) by (rewrite map_app in Hn; by apply NoDup_app in Hn as [? _]).
  set (k := take (n + 1) (std_sort name_less l)).
  assert (Hk : std_sort name_less k = k).
  { apply sort_sorted; [by apply names_take, sort_names_NoDup|]. apply take_sorted, std_sort_sorted, _. }
  assert (Hke : NoDup (names_of (k ++ [e]))).
  { rewrite map_app in *. apply NoDup_app in Hn as (_ & Hd & _). apply NoDup_app. split_and!.
    - by apply names_take, sort_names_NoDup.
    - intros x Hx. apply Hd. apply list_elem_of_fmap in Hx as (y & -> & Hy). apply list_elem_of_fmap_2.
      apply (elem_of_std_sort name_less). unfold k in Hy. rewrite <- (take_drop (n + 1) (std_sort name_less l)). apply elem_of_app. by left.
    - apply NoDup_singleton. }
  rewrite (sort_snoc k e Hke), (sort_snoc l e Hn), Hk.
  pose proof (take_ins (n + 1) e (std_sort name_less l)) as Ht. fold k in Ht. rewrite <- Ht.
  assert (Hlen : length (ins e k) = S (length k)) by (by rewrite ins_perm).
  destruct (Nat.leb_spec (length (ins e k)) (n + 1)); [by rewrite take_ge|].
  apply removelast_take. rewrite Hlen in *. unfold k in *. rewrite length_take in *. lia.
Qed.

(** ** A directory that can be read *)

(** Every entry can be inspected, or is of a kind that is not shown. *)
Definition readable (d : OpenDirectory) : Prop :=
  od_error d = 0 /\ NoDup (od_names d) /\
  forall name, name ∈ od_names d -> hidden_name name = false ->
    (exists i, entry_info d name = Ok i) \/ (exists m, entry_info d name = Throw (InvalidArgument m)).

Definition shown (d : OpenDirectory) (after name : string) : option BrowseEntryInfo :=
  if hidden_name name || not_after name after then None
  else match entry_info d name with Ok i => Some i | Throw _ => None end.

Definition listed (d : OpenDirectory) (after : string) (names : list string) : list BrowseEntryInfo :=
  omap (shown d after) names.

(** What the directory shows, in the order of the names. *)
Definition visible (d : OpenDirectory) : list BrowseEntryInfo := std_sort name_less (listed d "" (od_names d)).

Definition later (d : OpenDirectory) (after : string) : list BrowseEntryInfo :=
  filter (λ e, str_less after (be_name e) = true) (visible d).

Lemma entry_info_name d name i : entry_info d name = Ok i -> be_name i = name.
Proof. unfold entry_info, path_error. repeat case_match; try done; by intros [= <-]. Qed.

Lemma shown_name d after name i : shown d after name = Some i -> be_name i = name /\ str_less after name = true.
Proof.
  unfold shown, not_after. destruct (hidden_name name); [done|]. destruct (str_less after name); [|done]. cbn.
  destruct (entry_info d name) eqn:E; [|done]. intros [= <-]. split; [by eapply entry_info_name|done].
Qed.

Lemma listed_names d after names : sublist (names_of (listed d after names)) names.
Proof.
  induction names as [|name names IH]; [done|]. unfold listed in *. cbn [omap list_omap].
  destruct (shown d after name) as [i|] eqn:E; [|by constructor].
  apply shown_name in E as [Ei _]. cbn [map]. rewrite Ei. by constructor.
Qed.

Lemma listed_NoDup d after names : NoDup names -> NoDup (names_of (listed d after names)).
Proof. intros H. eapply sublist_NoDup; [exact H|apply listed_names]. Qed.

Lemma str_less_empty a b : str_less a b = true -> str_less "" b = true.
Proof. by destruct a, b. Qed.

Lemma listed_after d after names :
  listed d after names = filter (λ e, str_less after (be_name e) = true) (listed d "" names).
Proof.
  induction names as [|name names IH]; [done|]. unfold listed in *. cbn [omap list_omap]. rewrite IH. clear IH.
  unfold shown, not_after. destruct (hidden_name name); [done|]. cbn [orb].
  destruct (str_less after name) eqn:E; cbn [negb].
  - rewrite (str_less_empty _ _ E). cbn [negb]. destruct (entry_info d name) as [i|] eqn:Ei; [|done].
    apply entry_info_name in Ei. rewrite filter_cons_True; [done|]. by rewrite Ei.
  - destruct (str_less "" name); cbn [negb]; [|done]. destruct (entry_info d name) as [i|] eqn:Ei; [|done].
    apply entry_info_name in Ei. rewrite filter_cons_False; [done|]. by rewrite Ei, E.
Qed.

Lemma filter_sorted (P : BrowseEntryInfo -> Prop) `{!forall x, Decision (P x)} l :
  StronglySorted (cmp_le name_less) l -> StronglySorted (cmp_le name_less) (filter P l).
Proof.
  induction 1 as [|x l Hs IH Hx]; [constructor|]. rewrite filter_cons. case_decide; [|done].
  constructor; [done|]. rewrite Forall_forall in *. intros y [_ Hy]%list_elem_of_filter. by apply Hx.
Qed.

Lemma sort_filter (P : BrowseEntryInfo -> Prop) `{!forall x, Decision (P x)} l :
  NoDup (names_of l) -> std_sort name_less (filter P l) = filter P (std_sort name_less l).
Proof.
  intros Hn. symmetry. apply std_sort_unique; [apply _| | |].
  - intros x y [_ Hx]%list_elem_of_filter [_ Hy]%list_elem_of_filter. by apply (same_entry l).
  - apply filter_sorted, std_sort_sorted, _.
  - by rewrite (std_sort_perm name_less l).
Qed.

Lemma later_eq d after : readable d -> std_sort name_less (listed d after (od_names d)) = later d after.
Proof. intros (_ & Hn & _). rewrite listed_after. apply sort_filter. by apply listed_NoDup. Qed.

Lemma collect_spec d after n names before :
  (forall name, name ∈ names -> hidden_name name = false ->
     (exists i, entry_info d name = Ok i) \/ (exists m, entry_info d name = Throw (InvalidArgument m))) ->
  NoDup (names_of (before ++ listed d after names)) ->
  collect_entries d after n names (take (n + 1) (std_sort name_less before))
  = Ok (take (n + 1) (std_sort name_less (before ++ listed d after names))).
Proof.
  revert before. induction names as [|name names IH]; intros before Hr Hn; [by rewrite app_nil_r|].
  assert (Hr' : forall x, x ∈ names -> hidden_name x = false ->
     (exists i, entry_info d x = Ok i) \/ (exists m, entry_info d x = Throw (InvalidArgument m))).
  { intros x Hx. apply Hr. by apply list_elem_of_further. }
  specialize (Hr name (list_elem_of_here _ _)). unfold listed in *. cbn [omap list_omap collect_entries] in *.
  assert (Es : shown d after name = if hidden_name name || not_after name after then None
                else match entry_info d name with Ok i => Some i | Throw _ => None end) by done.
  rewrite Es in Hn |- *. clear Es. destruct (hidden_name name); cbn [orb] in *; [by apply IH|].
  destruct (not_after name after); [by apply IH|].
  destruct (Hr eq_refl) as [(i & Ei)|(m & Ei)]; rewrite Ei in *; [|by apply IH].
  rewrite cons_middle, app_assoc in Hn |- *.
  rewrite collector_add_spec by (rewrite map_app in Hn; by apply NoDup_app in Hn as [? _]). by apply IH.
Qed.

Lemma later_facts d after :
  readable d -> NoDup (names_of (later d after)) /\ StronglySorted (cmp_le name_less) (later d after).
Proof.
  intros Hr. rewrite <- later_eq by done. split; [|apply std_sort_sorted, _].
  apply sort_names_NoDup, listed_NoDup. apply Hr.
Qed.

(** A page is what it should be, although the collector never holds more than one entry
    above the size of the page: the first names after the given one, in order, and where to go on
    when there are more. *)
Theorem list_directory_page_spec d after n :
  readable d -> n <> 0%nat ->
  list_directory_page d after n
  = Ok (mkPage (take n (later d after))
          (if (n <? length (later d after))%nat
           then default "" (be_name <$> last (take n (later d after))) else "")).
Proof.
  intros Hr Hn. pose proof (later_facts d after Hr) as [HN HS]. destruct Hr as (He & Hd & Hi) eqn:Er. clear Er.
  unfold list_directory_page. destruct (Nat.eqb_spec n 0); [done|].
  pose proof (collect_spec d after n (od_names d) [] Hi) as Hc. cbn [app] in Hc.
  change (std_sort name_less []) with (@nil BrowseEntryInfo) in Hc. rewrite take_nil in Hc.
  rewrite Hc by (by apply listed_NoDup). rewrite later_eq by done. cbn [mbind res_bind].
  rewrite He. cbn [Z.eqb]. f_equal. unfold collector_finish.
  rewrite sort_sorted; [|by apply names_take|by apply take_sorted]. rewrite length_take.
  destruct (Nat.ltb_spec n (length (later d after))) as [Hlt|Hge].
  - rewrite (proj2 (Nat.ltb_lt _ _)) by lia. by rewrite take_take, Nat.min_l by lia.
  - rewrite (proj2 (Nat.ltb_ge _ _)) by lia. by rewrite !take_ge by lia.
Qed.

(** A client that asks for page after page, until a page has no token; [None] when it has not
    come to an end after so many requests. *)
Fixpoint read_all (requests : nat) (d : OpenDirectory) (n : nat) (after : string)
    : option (res (list BrowseEntryInfo)) :=
  match requests with
  | O => None
  | S requests =>
      match list_directory_page d after n with
      | Throw e => Some (Throw e)
      | Ok page =>
          if str_empty (bp_continuation_token page) then Some (Ok (bp_entries page))
          else
            rest ← read_all requests d n (bp_continuation_token page);
            Some (entries ← rest; Ok (bp_entries page ++ entries))
      end
  end.

Lemma filter_all {A} (P : A -> Prop) `{!forall x, Decision (P x)} l : Forall P l -> filter P l = l.
Proof. induction 1 as [|x l Hx _ IH]; [done|]. by rewrite filter_cons_True, IH. Qed.

Lemma filter_none {A} (P : A -> Prop) `{!forall x, Decision (P x)} l : Forall (λ x, ~ P x) l -> filter P l = [].
Proof. induction 1 as [|x l Hx _ IH]; [done|]. by rewrite filter_cons_False. Qed.

Lemma later_after d after e : e ∈ later d after -> str_less after (be_name e) = true.
Proof. by intros [H _]%list_elem_of_filter. Qed.

Lemma later_start d : later d "" = visible d.
Proof.
  apply filter_all, Forall_forall. intros e He. unfold visible in He. rewrite (elem_of_std_sort name_less) in He.
  apply list_elem_of_omap in He as (name & _ & Hs). apply shown_name in Hs as [-> Hs]. done.
Qed.

Lemma later_later d after e :
  e ∈ later d after -> later d (be_name e) = filter (λ x, str_less (be_name e) (be_name x) = true) (later d after).
Proof.
  intros He%later_after. unfold later. rewrite list_filter_filter. apply list_filter_iff. intros x. split; [|tauto].
  intros H. split; [done|]. by eapply str_less_trans.
Qed.

(** The entries after the last one of a page are the rest. *)
Lemma later_rest d after n e :
  readable d -> last (take n (later d after)) = Some e -> later d (be_name e) = drop n (later d after).
Proof.
  intros Hr He. destruct (later_facts d after Hr) as [HN HS].
  apply last_Some in He as (l & El).
  assert (Hin : e ∈ later d after).
  { rewrite <- (take_drop n (later d after)), El, !elem_of_app. left. right. apply list_elem_of_here. }
  rewrite (later_later _ _ _ Hin), <- (take_drop n (later d after)) at 1. rewrite filter_app.
  rewrite <- (take_drop n (later d after)), El, <- app_assoc in HS.
  rewrite <- (take_drop n (later d after)), El, <- app_assoc, map_app in HN. cbn [app map] in HS, HN.
  apply StronglySorted_app_inv in HS as (_ & HS & Hle).
  apply StronglySorted_inv in HS as [_ Hge]. apply NoDup_app in HN as (_ & _ & [Hne _]%NoDup_cons).
  rewrite El, filter_none, filter_all; [done| |].
  - rewrite Forall_forall in *. intros x Hx. specialize (Hge x Hx). unfold cmp_le, name_less in Hge.
    destruct (str_less (be_name e) (be_name x)) eqn:E; [done|]. destruct Hne.
    rewrite (str_less_total _ _ E Hge). by apply list_elem_of_fmap_2.
  - rewrite Forall_app. split.
    + rewrite Forall_forall. intros x Hx. specialize (Hle x e Hx (list_elem_of_here _ _)).
      unfold cmp_le, name_less in Hle. congruence.
    + repeat constructor. rewrite str_less_irrefl. done.
Qed.

(** C32.  A client that reads a directory page by page, of whatever size, comes to a page without
    a token after no more requests than there are entries, and one; and what it has got by then is
    every entry that is shown, exactly once and in order. *)
Theorem pages_complete requests d n :
  readable d -> n <> 0%nat -> (length (visible d) < requests)%nat ->
  read_all requests d n "" = Some (Ok (visible d)).
Proof.
  intros Hr Hn. rewrite <- later_start. generalize "" as after.
  induction requests as [|requests IH]; intros after Hf; [lia|]. cbn [read_all].
  rewrite list_directory_page_spec by done. cbn [bp_continuation_token bp_entries].
  destruct (Nat.ltb_spec n (length (later d after))) as [Hlt|Hge]; [|cbn; by rewrite take_ge].
  destruct (last (take n (later d after))) as [e|] eqn:El.
  2: { apply last_None in El. apply (f_equal length) in El. rewrite length_take in El. cbn in El. lia. }
  cbn [fmap option_fmap option_map default from_option].
  assert (He : e ∈ later d after).
  { apply last_Some in El as (l & El). rewrite <- (take_drop n (later d after)), El, !elem_of_app.
    left. right. apply list_elem_of_here. }
  apply later_after in He. unfold id. destruct (be_name e) as [|c rest] eqn:En; [by destruct after|]. cbn [str_empty].
  rewrite <- En. pose proof (later_rest d after n e Hr El) as Hrest.
  rewrite IH by (rewrite Hrest, length_drop; lia).
  rewrite Hrest. cbn. by rewrite take_drop.
Qed.

Module PagesExample.

Definition ex_session : BrowseSessionId := @mkIdent KBrowseSession "browse-0a1b" I.
Definition ex_other : BrowseSessionId := @mkIdent KBrowseSession "browse-ffff" I.

Definition ex_directory : OpenDirectory :=
  mkOpenDirectory ["notes"; ".."; "link"; "album"; ".incoming"; "zoo"; "."; "music"] 0
    (λ name, if (name =? "link")%string then inr (mkStat NodeSymlink 511 0 0 0 0)
             else if (name =? "album")%string then inr (mkStat NodeDirectory 493 0 0 0 7)
             else inr (mkStat NodeRegular 420 0 0 10 7)).

Lemma ex_readable : readable ex_directory.
Proof.
  split; [done|]. split; [by apply (bool_decide_eq_true_1 _)|].
  intros name H Hh. cbn [od_names ex_directory] in H. rewrite !elem_of_cons, elem_of_nil in H.
  destruct_or! H; subst name; try discriminate Hh; try (left; by eexists); try (right; by eexists).
Qed.

Lemma list_directory_page_spec_witness :
  exists page, list_directory_page ex_directory "album" 2 = Ok page
    /\ map be_name (bp_entries page) = ["music"; "notes"] /\ bp_continuation_token page = "notes".
Proof.
  eexists. split; [apply (list_directory_page_spec ex_directory "album" 2 ex_readable); discriminate|].
  split; vm_compute; reflexivity.
Defined.

Lemma pages_complete_witness :
  exists l, read_all 5 ex_directory 1 "" = Some (Ok l) /\ map be_name l = ["album"; "music"; "notes"; "zoo"].
Proof.
  eexists. split; [apply (pages_complete 5 ex_directory 1 ex_readable); [discriminate|vm_compute; lia]|].
  vm_compute. reflexivity.
Defined.

Lemma directory_token_bound_witness :
  exists token, directory_token ex_session "home/./docs" "notes" = Ok token
    /\ directory_cursor ex_session "home/docs" token = Ok "notes"
    /\ refused (directory_cursor ex_other "home/docs" token).
Proof.
  destruct (directory_token ex_session "home/./docs" "notes") as [token|] eqn:E; [|vm_compute in E; discriminate E].
  exists token. split; [done|].
  destruct (directory_token_bound ex_session "home/./docs" "notes" token E eq_refl eq_refl) as [H _].
  split; [exact (H ex_session "home/docs" eq_refl)|exact (H ex_other "home/docs" eq_refl)].
Defined.

Lemma previous_versions_token_bound_witness :
  exists token, previous_versions_token ex_session "main" "home" "docs" 512 = Ok token
    /\ previous_versions_offset ex_session "main" "home" "docs/." token <> Ok 512
    /\ previous_versions_offset ex_session "main" "home" "./docs" token = Ok 512
    /\ refused (previous_versions_offset ex_session "main" "root" "docs" token).
Proof.
  destruct (previous_versions_token ex_session "main" "home" "docs" 512) as [token|] eqn:E; [|vm_compute in E; discriminate E].
  exists token. split; [done|].
  assert (H := previous_versions_token_bound ex_session "main" "home" "docs" 512 token E ltac:(lia) eq_refl eq_refl eq_refl).
  split; [|split; [exact (H ex_session "main" "home" "./docs" eq_refl eq_refl eq_refl)
                  |exact (H ex_session "main" "root" "docs" eq_refl eq_refl eq_refl)]].
  destruct (H ex_session "main" "home" "docs/." eq_refl eq_refl eq_refl) as (m & Hm). rewrite Hm. discriminate.
Defined.

End PagesExample.
