(* ===== verification/BrowseSessions.v ===== *)
(** * Browse sessions (src/daemon/control/BrowseSessionService)

    The daemon mounts a repository read-only for a caller and keeps a session for it, which ends
    when it is closed, when its caller leaves the bus, when its time is over or when the target
    is ejected.  The authorizer, the backend, the clocks, the generators of identifiers and the
    sink of events are calls; the sessions are the state.  The service runs on the thread of the
    bus: nothing else changes its state. *)

From S2P Require Import Prelude Errors Identifiers RuntimeTime FsPath ConfigDomain Interaction.
From S2P Require Import ManagerAuthorization BrowsePages.

Open Scope Z_scope.

(** ** Identifiers *)

(** An answer of [getrandom]. *)
Inductive RandomBytes := GotBytes (bytes : string) | InterruptedCall | NoBytes.

(** The sixteen bytes, however many calls they take; [None] when the answers run out.
    src/daemon/control/BrowseSessionService.cpp:22-33 *)
Fixpoint random_bytes (answers : list RandomBytes) (bytes : string) : option (res string) :=
  if (16 <=? String.length bytes)%nat then Some (Ok bytes)
  else
    match answers with
    | [] => None
    | InterruptedCall :: answers => random_bytes answers bytes
    | GotBytes EmptyString :: _ | NoBytes :: _ =>
        Some (Throw (StdException "cannot generate browse session identifier"))
    | GotBytes new :: answers =>
        random_bytes answers (bytes +:+ String.substring 0 (16 - String.length bytes) new)
    end.

(** src/daemon/control/BrowseSessionService.cpp:21-39 *)
Definition random_session_id (answers : list RandomBytes) : option (res BrowseSessionId) :=
  match random_bytes answers "" with
  | None => None
  | Some (Throw e) => Some (Throw e)
  | Some (Ok bytes) => Some (make_ident KBrowseSession ("browse-" +:+ hex_encode bytes))
  end.

(** src/daemon/control/BrowseSessionService.cpp:41-45 *)
Definition random_operation_lease_id (answers : list RandomBytes) : option (res string) :=
  match random_session_id answers with
  | None => None
  | Some (Throw e) => Some (Throw e)
  | Some (Ok id) =>
      Some (Ok ("lease" +:+ String.substring 6 (String.length (id_value id)) (id_value id)))
  end.

(** [to_time_t] drops the part of a second, towards zero.
    src/daemon/control/BrowseSessionService.cpp:47-54 *)
Definition iso8601 (value : Z) : string := format_utc_iso_timestamp (Z.quot value ns_per_s * ns_per_s).

(** ** State and collaborators *)

(** src/daemon/control/BrowseSessionService.hpp:36-40 *)
Record PreviousVersionInfo := mkVersionInfo {
  pv_snapshot_id : string;
  pv_created_at : string;
  pv_entry : BrowseEntryInfo;
}.

(** src/daemon/control/BrowseSessionService.hpp:42-47 *)
Record PreviousVersionsPage := mkVersions {
  vp_entries : list PreviousVersionInfo;
  vp_next_offset : Z;
  vp_has_more : bool;
  vp_continuation_token : string;
}.

(** src/daemon/control/BrowseSessionService.hpp:49-52 *)
Record BrowseAccessIdentity := mkAccess {
  ba_uid : Z;
  ba_groups : list Z;
}.

(** src/daemon/ManagerResponseModels.hpp:87-92 *)
Record BrowseSessionInfo := mkSessionInfo {
  si_session_id : string;
  si_profile_id : string;
  si_expires_at : string;
  si_read_only : bool;
}.

(** src/daemon/ManagerResponseModels.hpp:94-98 *)
Record BackupCoverage := mkCoverage {
  bc_profile_id : string;
  bc_source_id : string;
  bc_relative_path : string;
}.

(** src/daemon/control/BrowseSessionService.hpp:102-106 *)
Inductive BrowseSessionCloseReason := Requested | TargetEject | CallerDisconnected | Expired | Shutdown.

(** src/daemon/control/BrowseSessionService.hpp:108-114 *)
Record BrowseSessionEvent := mkEvent {
  ev_caller_uid : Z;
  ev_profile_id : string;
  ev_session_id : string;
  ev_reason : BrowseSessionCloseReason;
  ev_succeeded : bool;
}.

(** Points in time are nanoseconds of their clock.
    src/daemon/control/BrowseSessionService.hpp:224-234 *)
Record Session := mkSession {
  se_id : BrowseSessionId;
  se_profile_id : ProfileId;
  se_caller_bus_name : string;
  se_caller_uid : Z;
  se_deadline : Z;
  se_absolute_deadline : Z;
  se_expires_at : Z;
  se_absolute_expires_at : Z;
  se_operation_leases : gmap string Z;
}.

Global Instance eta_Session : Eta Session := λ s,
  mkSession (se_id s) (se_profile_id s) (se_caller_bus_name s) (se_caller_uid s) (se_deadline s)
    (se_absolute_deadline s) (se_expires_at s) (se_absolute_expires_at s) (se_operation_leases s).

Global Program Instance Ident_countable k : Countable (Ident k) :=
  inj_countable id_value
    (λ v, match decide (Is_true (id_pattern k v)) with left H => Some (mkIdent v H) | right _ => None end) _.
Next Obligation.
  intros k i. cbn. destruct (decide _) as [H|H]; [|by destruct H; apply id_valid].
  f_equal. by apply ident_eq.
Qed.

(** src/daemon/control/BrowseSessionService.hpp:259-261 *)
Record BrowseState := mkBrowse {
  br_sessions : gmap string Session;
  br_ejecting_profiles : gset ProfileId;
  br_reopen_after : gmap ProfileId Z;
}.

Global Instance eta_BrowseState : Eta BrowseState := λ s,
  mkBrowse (br_sessions s) (br_ejecting_profiles s) (br_reopen_after s).

(** What the service was built with; [cfg_events] is whether there is a sink.
    src/daemon/control/BrowseSessionService.hpp:248-258 *)
Record BrowseConfig := mkBrowseConfig {
  cfg_lifetime : Z;
  cfg_global_limit : nat;
  cfg_per_caller_limit : nat;
  cfg_operation_lease_limit : nat;
  cfg_maximum_lifetime : Z;
  cfg_operation_lease_lifetime : Z;
  cfg_events : bool;
}.

(** IManagerAuthorizer, the clocks, the generators, IBrowseSessionBackend and the sink.  A file
    descriptor is its number.
    src/daemon/control/BrowseSessionService.hpp:54-100 *)
Inductive BrowseOp : Type -> Type :=
| AskAuthorized (caller : string) (action : ManagerAuthorizationAction) : BrowseOp bool
| AskActive (caller : string) : BrowseOp bool
| SteadyClock : BrowseOp Z
| WallClock : BrowseOp Z
| SessionIds : BrowseOp BrowseSessionId
| OperationLeaseIds : BrowseOp string
| OpenMount (profile_id : ProfileId) (session_id : BrowseSessionId) (identity : BrowseAccessIdentity)
    : BrowseOp unit
| CloseMount (session_id : BrowseSessionId) : BrowseOp unit
| CleanupStale : BrowseOp unit
| ListDirectory (session_id : BrowseSessionId) (relative_path : path) (maximum_entries : Z)
    : BrowseOp (list BrowseEntryInfo)
| ListDirectoryPage (session_id : BrowseSessionId) (relative_path : path) (after_name : string)
    (maximum_entries : Z) : BrowseOp BrowseDirectoryPage
| ListPreviousVersions (session_id : BrowseSessionId) (profile_id source_id : string)
    (relative_path : path) (offset maximum_entries : Z) : BrowseOp PreviousVersionsPage
| InspectEntry (session_id : BrowseSessionId) (relative_path : path) : BrowseOp BrowseEntryInfo
| OpenFile (session_id : BrowseSessionId) (relative_path : path) : BrowseOp Z
| OpenEntry (session_id : BrowseSessionId) (relative_path : path) : BrowseOp Z
| InspectRepository (session_id : BrowseSessionId) : BrowseOp string
| ResolveCoverage (local_path : path) (profiles : list ProfileId) : BrowseOp (list BackupCoverage)
| Notify (event : BrowseSessionEvent) : BrowseOp unit.

Abbreviation Browse := (prog BrowseState BrowseOp).

Definition browse_error {A} (code : ManagerErrorCode) (message : string) : Browse A :=
  raise (ManagerOperationError code message).

Definition the_state : Browse BrowseState := Lock mret.

(** A change of the entry an iterator points to. *)
Definition set_session (key : string) (session : Session) : Browse unit :=
  state ← the_state; put (state <| br_sessions := <[key := session]> (br_sessions state) |>).

(** The keys in the order of the map. *)
Definition session_keys (sessions : gmap string Session) : list string :=
  std_sort str_less (elements (dom sessions)).

(** A loop over the map that moves its iterator on before the entry may be erased. *)
Fixpoint for_sessions (keys : list string) (body : string -> Session -> Browse unit) : Browse unit :=
  match keys with
  | [] => mret tt
  | key :: keys =>
      state ← the_state;
      _ ← match br_sessions state !! key with Some session => body key session | None => mret tt end;
      for_sessions keys body
  end.

Definition each_session (body : string -> Session -> Browse unit) : Browse unit :=
  state ← the_state; for_sessions (session_keys (br_sessions state)) body.

Section BrowseSessionService.
Context (cfg : BrowseConfig).

(** ** Sessions *)

Definition time_point_min : Z := - 2 ^ 63.

(** src/daemon/control/BrowseSessionService.cpp:168-171 *)
Definition extend (session : Session) : Browse Session :=
  now ← call SteadyClock;
  let session := session <| se_deadline :=
    Z.min (now + cfg_lifetime cfg * ns_per_s) (se_absolute_deadline session) |> in
  wall ← call WallClock;
  mret (session <| se_expires_at :=
    Z.min (wall + cfg_lifetime cfg * ns_per_s) (se_absolute_expires_at session) |>).

(** src/daemon/control/BrowseSessionService.cpp:173-180 *)
Definition prune_expired_leases (session : Session) (now : Z) : Session :=
  session <| se_operation_leases := filter (λ lease, now < lease.2) (se_operation_leases session) |>.

(** src/daemon/control/BrowseSessionService.cpp:182-189 *)
Definition session_info (session : Session) : BrowseSessionInfo :=
  mkSessionInfo (id_value (se_id session)) (id_value (se_profile_id session))
    (iso8601 (se_expires_at session)) true.

(** The entry, with its key.
    src/daemon/control/BrowseSessionService.cpp:155-166 *)
Definition owned_session (caller_bus_name session_id : string) : Browse (string * Session) :=
  validated ← lift (make_ident KBrowseSession session_id);
  state ← the_state;
  match br_sessions state !! id_value validated with
  | None => browse_error NotFound "browse session was not found"
  | Some session =>
      if (se_caller_bus_name session =? caller_bus_name)%string
      then mret (id_value validated, session)
      else browse_error NotAuthorized "browse session belongs to another caller"
  end.

(** The sequence [auto session = owned_session(...); extend(session->second);]. *)
Definition extended_session (caller_bus_name session_id : string) : Browse (string * Session) :=
  entry ← owned_session caller_bus_name session_id;
  session ← extend entry.2;
  _ ← set_session entry.1 session;
  mret (entry.1, session).

(** [constructor]: the limits and lifetimes are checked, mounts left behind are removed.
    src/daemon/control/BrowseSessionService.cpp:78-84 *)
Definition construct : Browse unit :=
  if (cfg_lifetime cfg <=? 0) || (cfg_maximum_lifetime cfg <? cfg_lifetime cfg)
     || (cfg_operation_lease_lifetime cfg <=? 0)
  then raise (InvalidArgument "browse session lifetimes are invalid")
  else if (cfg_global_limit cfg =? 0)%nat || (cfg_per_caller_limit cfg =? 0)%nat
     || (cfg_global_limit cfg <? cfg_per_caller_limit cfg)%nat || (cfg_operation_lease_limit cfg =? 0)%nat
  then raise (InvalidArgument "browse session limits are invalid")
  else
    _ ← call CleanupStale;
    put (mkBrowse ∅ ∅ ∅).

Definition sessions_of (caller_bus_name : string) (sessions : gmap string Session) : nat :=
  size (filter (λ item, se_caller_bus_name item.2 = caller_bus_name) sessions).

(** The conditions of [open] and [resolve_coverage] on the caller. *)
Definition caller_allowed (caller_bus_name : string) (denied : Browse unit) : Browse unit :=
  if str_empty caller_bus_name then denied
  else
    authorized ← call (AskAuthorized caller_bus_name OpenBrowseSession);
    if negb authorized then denied
    else
      active ← call (AskActive caller_bus_name);
      if negb active then denied else mret tt.

(** A profile whose target was just ejected stays closed for a while.
    src/daemon/control/BrowseSessionService.cpp:102-114 *)
Definition check_eject (profile : ProfileId) : Browse unit :=
  state ← the_state;
  if decide (profile ∈ br_ejecting_profiles state) then browse_error Busy "backup target is being ejected"
  else
    match br_reopen_after state !! profile with
    | None => mret tt
    | Some delayed =>
        now ← call SteadyClock;
        if now <? delayed then browse_error Busy "backup browsing is settling after target eject"
        else put (state <| br_reopen_after := delete profile (br_reopen_after state) |>)
    end.

(** src/daemon/control/BrowseSessionService.cpp:93-145 *)
Definition open (caller_bus_name : string) (caller_identity : BrowseAccessIdentity) (profile_id : string)
    : Browse BrowseSessionInfo :=
  profile ← lift (make_ident KProfile profile_id);
  _ ← caller_allowed caller_bus_name (browse_error NotAuthorized "browse session is not authorized");
  _ ← check_eject profile;
  state ← the_state;
  if (cfg_global_limit cfg <=? size (br_sessions state))%nat
  then browse_error Busy "browse session limit reached"
  else if (cfg_per_caller_limit cfg <=? sessions_of caller_bus_name (br_sessions state))%nat
  then browse_error Busy "caller browse session limit reached"
  else
    id ← call SessionIds;
    if decide (is_Some (br_sessions state !! id_value id))
    then browse_error Conflict "browse session identifier collision"
    else
      _ ← call (OpenMount profile id caller_identity);
      opened_at ← call SteadyClock;
      opened_wall ← call WallClock;
      session ← extend (mkSession id profile caller_bus_name (ba_uid caller_identity)
        0 (opened_at + cfg_maximum_lifetime cfg * ns_per_s)
        0 (opened_wall + cfg_maximum_lifetime cfg * ns_per_s) ∅);
      _ ← set_session (id_value id) session;
      mret (session_info session).

(** The overload that has no groups.
    src/daemon/control/BrowseSessionService.cpp:147-153 *)
Definition open_uid (caller_bus_name : string) (caller_uid : Z) (profile_id : string)
    : Browse BrowseSessionInfo :=
  open caller_bus_name (mkAccess caller_uid []) profile_id.

(** src/daemon/control/BrowseSessionService.cpp:191-200 *)
Definition renew (caller_bus_name session_id : string) : Browse BrowseSessionInfo :=
  entry ← owned_session caller_bus_name session_id;
  now ← call SteadyClock;
  let session := prune_expired_leases entry.2 now in
  _ ← set_session entry.1 session;
  session ← extend session;
  _ ← set_session entry.1 session;
  mret (session_info session).

(** src/daemon/control/BrowseSessionService.cpp:202-219 *)
Definition begin_operation (caller_bus_name session_id : string) : Browse string :=
  entry ← owned_session caller_bus_name session_id;
  now ← call SteadyClock;
  let session := prune_expired_leases entry.2 now in
  _ ← set_session entry.1 session;
  if (cfg_operation_lease_limit cfg <=? size (se_operation_leases session))%nat
  then browse_error Busy "browse operation lease limit reached"
  else
    lease_id ← call OperationLeaseIds;
    if str_empty lease_id || (128 <? text_size lease_id)
    then raise (StdException "browse operation lease generator returned an invalid identifier")
    else
      let lease_deadline := Z.min (now + cfg_operation_lease_lifetime cfg * ns_per_s)
                                  (se_absolute_deadline session) in
      if decide (is_Some (se_operation_leases session !! lease_id))
      then browse_error Conflict "browse operation lease identifier collision"
      else
        let session := session <| se_operation_leases :=
          <[lease_id := lease_deadline]> (se_operation_leases session) |> in
        _ ← set_session entry.1 session;
        session ← extend session;
        _ ← set_session entry.1 session;
        mret lease_id.

(** src/daemon/control/BrowseSessionService.cpp:221-231 *)
Definition end_operation (caller_bus_name session_id lease_id : string) : Browse unit :=
  entry ← owned_session caller_bus_name session_id;
  now ← call SteadyClock;
  let session := prune_expired_leases entry.2 now in
  _ ← set_session entry.1 session;
  if str_empty lease_id || (128 <? text_size lease_id)
     || bool_decide (se_operation_leases session !! lease_id = None)
  then browse_error InvalidRequest "browse operation lease is unknown"
  else
    let session := session <| se_operation_leases := delete lease_id (se_operation_leases session) |> in
    _ ← set_session entry.1 session;
    session ← extend session;
    _ ← set_session entry.1 session;
    mret tt.

(** ** Reading *)

(** src/daemon/control/BrowseSessionService.hpp:217-217 *)
Definition maximum_browse_page_entries : Z := 512.

Definition page_size_ok (requested_entries : Z) : bool :=
  negb ((requested_entries =? 0) || (maximum_browse_page_entries <? requested_entries)).

(** src/daemon/control/BrowseSessionService.cpp:237-246 *)
Definition browse_directory (caller_bus_name session_id relative_path : string) (maximum_entries : Z)
    : Browse (list BrowseEntryInfo) :=
  entry ← extended_session caller_bus_name session_id;
  call (ListDirectory (se_id entry.2) relative_path maximum_entries).

(** src/daemon/control/BrowseSessionService.cpp:248-277 *)
Definition browse_directory_page (caller_bus_name session_id relative_path continuation_token : string)
    (requested_entries : Z) : Browse BrowseDirectoryPage :=
  entry ← owned_session caller_bus_name session_id;
  if negb (page_size_ok requested_entries)
  then browse_error InvalidRequest "browse page size must be between 1 and 512"
  else
    after_name ← lift (directory_cursor (se_id entry.2) relative_path continuation_token);
    session ← extend entry.2;
    _ ← set_session entry.1 session;
    page ← call (ListDirectoryPage (se_id session) relative_path after_name requested_entries);
    if str_empty (bp_continuation_token page) then mret page
    else
      token ← lift (directory_token (se_id session) relative_path (bp_continuation_token page));
      mret (mkPage (bp_entries page) token).

(** src/daemon/control/BrowseSessionService.cpp:279-287 *)
Definition inspect_entry (caller_bus_name session_id relative_path : string) : Browse BrowseEntryInfo :=
  entry ← extended_session caller_bus_name session_id;
  call (InspectEntry (se_id entry.2) relative_path).

(** src/daemon/control/BrowseSessionService.cpp:289-335 *)
Definition list_previous_versions (caller_bus_name session_id profile_id source_id relative_path
    continuation_token : string) (requested_entries : Z) : Browse PreviousVersionsPage :=
  entry ← owned_session caller_bus_name session_id;
  if negb (profile_id =? id_value (se_profile_id entry.2))%string
  then browse_error InvalidRequest "profile does not match browse session"
  else if str_empty source_id then browse_error InvalidRequest "source identifier is required"
  else if negb (page_size_ok requested_entries)
  then browse_error InvalidRequest "previous-versions page size must be between 1 and 512"
  else
    offset ← lift (previous_versions_offset (se_id entry.2) profile_id source_id relative_path
                     continuation_token);
    session ← extend entry.2;
    _ ← set_session entry.1 session;
    page ← call (ListPreviousVersions (se_id session) profile_id source_id relative_path offset
                   requested_entries);
    if vp_has_more page then
      if vp_next_offset page <=? offset
      then raise (StdException "previous-versions backend returned a non-advancing page")
      else
        token ← lift (previous_versions_token (se_id session) profile_id source_id relative_path
                        (vp_next_offset page));
        mret (mkVersions (vp_entries page) (vp_next_offset page) (vp_has_more page) token)
    else mret (mkVersions (vp_entries page) (vp_next_offset page) (vp_has_more page) "").

(** src/daemon/control/BrowseSessionService.cpp:337-345 *)
Definition open_file (caller_bus_name session_id relative_path : string) : Browse Z :=
  entry ← extended_session caller_bus_name session_id;
  call (OpenFile (se_id entry.2) relative_path).

(** src/daemon/control/BrowseSessionService.cpp:347-355 *)
Definition open_entry (caller_bus_name session_id relative_path : string) : Browse Z :=
  entry ← extended_session caller_bus_name session_id;
  call (OpenEntry (se_id entry.2) relative_path).

(** src/daemon/control/BrowseSessionService.cpp:357-364 *)
Definition inspect_repository (caller_bus_name session_id : string) : Browse string :=
  entry ← extended_session caller_bus_name session_id;
  call (InspectRepository (se_id entry.2)).

(** src/daemon/control/BrowseSessionService.cpp:469-480 *)
Definition resolve_coverage (caller_bus_name local_path : string) (profiles : list ProfileId)
    : Browse (list BackupCoverage) :=
  let denied := browse_error NotAuthorized "backup coverage query is not authorized" in
  _ ← (if str_empty caller_bus_name || negb (is_absolute local_path) then denied
       else caller_allowed caller_bus_name denied);
  call (ResolveCoverage (lexically_normal local_path) profiles).

(** ** Closing *)

Definition retired (session : Session) : Session :=
  session <| se_operation_leases := ∅ |> <| se_deadline := time_point_min |>.

Definition erase_session (key : string) : Browse unit :=
  state ← the_state; put (state <| br_sessions := delete key (br_sessions state) |>).

Definition close_event (record : Session) (reason : BrowseSessionCloseReason) (succeeded : bool)
    : BrowseSessionEvent :=
  mkEvent (se_caller_uid record) (id_value (se_profile_id record)) (id_value (se_id record)) reason
    succeeded.

(** src/daemon/control/BrowseSessionService.cpp:366-374 *)
Definition close_session (reason : BrowseSessionCloseReason) (key : string) (session : Session)
    : Browse unit :=
  let record := retired session in
  _ ← set_session key record;
  _ ← call (CloseMount (se_id record));
  _ ← erase_session key;
  if cfg_events cfg then call (Notify (close_event record reason true)) else mret tt.

(** src/daemon/control/BrowseSessionService.cpp:376-396 *)
Definition close_noexcept (reason : BrowseSessionCloseReason) (key : string) (session : Session)
    : Browse unit :=
  let record := retired session in
  _ ← set_session key record;
  succeeded ← catch (_ ← call (CloseMount (se_id record)); mret true) (λ _, mret false);
  _ ← (if succeeded then erase_session key else mret tt);
  if cfg_events cfg
  then catch (call (Notify (close_event record reason succeeded))) (λ _, mret tt)
  else mret tt.

(** src/daemon/control/BrowseSessionService.cpp:233-235 *)
Definition close (caller_bus_name session_id : string) : Browse unit :=
  entry ← owned_session caller_bus_name session_id;
  close_session Requested entry.1 entry.2.

(** src/daemon/control/BrowseSessionService.cpp:398-407 *)
Definition close_for_caller (caller_bus_name : string) : Browse unit :=
  each_session (λ key session,
    if (se_caller_bus_name session =? caller_bus_name)%string
    then close_noexcept CallerDisconnected key session else mret tt).

(** The destructor.
    src/daemon/control/BrowseSessionService.cpp:86-91 *)
Definition shutdown : Browse unit := each_session (close_noexcept Shutdown).

(** ** Ejecting *)

Definition set_ejecting (f : gset ProfileId -> gset ProfileId) : Browse unit :=
  state ← the_state;
  put (state <| br_ejecting_profiles := f (br_ejecting_profiles state) |>).

Definition operation_active (profile_id : ProfileId) (sessions : gmap string Session) : bool :=
  bool_decide (map_Exists (λ _ session, se_profile_id session = profile_id
                                        /\ se_operation_leases session ≠ ∅) sessions).

(** src/daemon/control/BrowseSessionService.cpp:409-441 *)
Definition begin_target_eject (profile_id : ProfileId) : Browse unit :=
  state ← the_state;
  if decide (profile_id ∈ br_ejecting_profiles state)
  then browse_error Busy "backup target is already being ejected"
  else
    _ ← put (mkBrowse (br_sessions state) ({[profile_id]} ∪ br_ejecting_profiles state)
               (delete profile_id (br_reopen_after state)));
    now ← call SteadyClock;
    state ← the_state;
    _ ← put (state <| br_sessions := (λ session, prune_expired_leases session now) <$> br_sessions state |>);
    state ← the_state;
    if operation_active profile_id (br_sessions state)
    then
      _ ← set_ejecting (λ profiles, profiles ∖ {[profile_id]});
      browse_error Busy "backup browsing operation is active"
    else
      catch
        (each_session (λ key session,
           if decide (se_profile_id session = profile_id)
           then close_session TargetEject key session else mret tt))
        (λ e, _ ← set_ejecting (λ profiles, profiles ∖ {[profile_id]}); raise e).

(** src/daemon/control/BrowseSessionService.hpp:218-218 *)
Definition browse_reopen_delay : Z := 2.

Definition set_reopen_after (f : gmap ProfileId Z -> gmap ProfileId Z) : Browse unit :=
  state ← the_state; put (state <| br_reopen_after := f (br_reopen_after state) |>).

(** src/daemon/control/BrowseSessionService.cpp:443-450 *)
Definition end_target_eject (profile_id : ProfileId) : Browse unit :=
  _ ← set_ejecting (λ profiles, profiles ∖ {[profile_id]});
  catch
    (now ← call SteadyClock;
     set_reopen_after (insert profile_id (now + browse_reopen_delay * ns_per_s)))
    (λ _, set_reopen_after (delete profile_id)).

(** ** Expiring *)

(** src/daemon/control/BrowseSessionService.cpp:459-460 *)
Definition alive (now : Z) (session : Session) : bool :=
  (now <? se_absolute_deadline session)
  && (bool_decide (se_operation_leases session ≠ ∅) || (now <? se_deadline session)).

(** src/daemon/control/BrowseSessionService.cpp:452-467 *)
Definition expire : Browse unit :=
  _ ← catch (call CleanupStale) (λ _, mret tt);
  now ← call SteadyClock;
  each_session (λ key session,
    let session := prune_expired_leases session now in
    _ ← set_session key session;
    if alive now session then mret tt else close_noexcept Expired key session).

End BrowseSessionService.

(** ** Requests *)

(** What the bus asks of the service: the calls of clients, and what happens to it. *)
Inductive BrowseRequest :=
| AskOpen (caller : string) (identity : BrowseAccessIdentity) (profile_id : string)
| AskRenew (caller session_id : string)
| AskBegin (caller session_id : string)
| AskEnd (caller session_id lease_id : string)
| AskClose (caller session_id : string)
| AskDirectory (caller session_id relative_path : string) (maximum_entries : Z)
| AskPage (caller session_id relative_path token : string) (requested_entries : Z)
| AskEntry (caller session_id relative_path : string)
| AskVersions (caller session_id profile_id source_id relative_path token : string)
    (requested_entries : Z)
| AskFile (caller session_id relative_path : string)
| AskOpenEntry (caller session_id relative_path : string)
| AskRepository (caller session_id : string)
| AskCoverage (caller local_path : string) (profiles : list ProfileId)
| CallerLeft (caller : string)
| EjectBegins (profile_id : ProfileId)
| EjectEnds (profile_id : ProfileId)
| TimerFires.

Definition discard {A} (m : Browse A) : Browse unit := _ ← m; mret tt.

Definition serve_request (cfg : BrowseConfig) (request : BrowseRequest) : Browse unit :=
  match request with
  | AskOpen c identity profile => discard (open cfg c identity profile)
  | AskRenew c id => discard (renew cfg c id)
  | AskBegin c id => discard (begin_operation cfg c id)
  | AskEnd c id lease => end_operation cfg c id lease
  | AskClose c id => close cfg c id
  | AskDirectory c id p n => discard (browse_directory cfg c id p n)
  | AskPage c id p token n => discard (browse_directory_page cfg c id p token n)
  | AskEntry c id p => discard (inspect_entry cfg c id p)
  | AskVersions c id profile source p token n =>
      discard (list_previous_versions cfg c id profile source p token n)
  | AskFile c id p => discard (open_file cfg c id p)
  | AskOpenEntry c id p => discard (open_entry cfg c id p)
  | AskRepository c id => discard (inspect_repository cfg c id)
  | AskCoverage c p profiles => discard (resolve_coverage c p profiles)
  | CallerLeft c => close_for_caller cfg c
  | EjectBegins p => begin_target_eject cfg p
  | EjectEnds p => end_target_eject p
  | TimerFires => expire cfg
  end.

(** One request after the other; an exception is reported to its client and ends only that one. *)
Fixpoint serve_requests (cfg : BrowseConfig) (requests : list BrowseRequest) : Browse unit :=
  match requests with
  | [] => mret tt
  | request :: requests =>
      _ ← catch (serve_request cfg request) (λ _, mret tt); serve_requests cfg requests
  end.

Definition client (request : BrowseRequest) : option string :=
  match request with
  | AskOpen c _ _ | AskRenew c _ | AskBegin c _ | AskEnd c _ _ | AskClose c _ | AskDirectory c _ _ _
  | AskPage c _ _ _ _ | AskEntry c _ _ | AskVersions c _ _ _ _ _ _ | AskFile c _ _ | AskOpenEntry c _ _
  | AskRepository c _ | AskCoverage c _ _ => Some c
  | CallerLeft _ | EjectBegins _ | EjectEnds _ | TimerFires => None
  end.

(** ** Executions *)

(** The clocks do not fail; every other call may answer or throw what it likes. *)
Definition clocks_answer X (o : BrowseOp X) : res X -> Prop :=
  match o in BrowseOp X return res X -> Prop with
  | SteadyClock | WallClock => λ r, exists now, r = Ok now /\ time_point_min <= now
  | _ => λ _, True
  end.

Abbreviation Entry := (entry BrowseState BrowseOp).

Abbreviation tr := (solo clocks_answer).

(** ** The invariant *)

(** What never changes of a session. *)
Definition same_session (a b : Session) : Prop :=
  se_id a = se_id b /\ se_profile_id a = se_profile_id b /\
  se_caller_bus_name a = se_caller_bus_name b /\ se_caller_uid a = se_caller_uid b /\
  se_absolute_deadline a = se_absolute_deadline b /\
  se_absolute_expires_at a = se_absolute_expires_at b.

Record session_ok (cfg : BrowseConfig) (key : string) (se : Session) : Prop := {
  so_key : key = id_value (se_id se);
  so_absolute : time_point_min <= se_absolute_deadline se;
  so_deadline : se_deadline se <= se_absolute_deadline se;
  so_expires : se_expires_at se <= se_absolute_expires_at se;
  so_leases : map_Forall (λ _ deadline, deadline <= se_absolute_deadline se) (se_operation_leases se);
  so_lease_limit : (size (se_operation_leases se) <= cfg_operation_lease_limit cfg)%nat;
}.

(** No more sessions than allowed, each within its time, and none of a profile whose target is
    being ejected. *)
Record browse_ok (cfg : BrowseConfig) (s : BrowseState) : Prop := {
  bo_sessions : map_Forall (session_ok cfg) (br_sessions s);
  bo_global : (size (br_sessions s) <= cfg_global_limit cfg)%nat;
  bo_caller : forall c, (sessions_of c (br_sessions s) <= cfg_per_caller_limit cfg)%nat;
  bo_ejecting : map_Forall (λ _ se, se_profile_id se ∉ br_ejecting_profiles s) (br_sessions s);
}.

(** What the constructor requires. *)
Definition config_ok (cfg : BrowseConfig) : Prop :=
  0 < cfg_lifetime cfg <= cfg_maximum_lifetime cfg /\ 0 < cfg_operation_lease_lifetime cfg /\
  (0 < cfg_per_caller_limit cfg <= cfg_global_limit cfg)%nat /\ (0 < cfg_operation_lease_limit cfg)%nat.

Section facts.
Context (cfg : BrowseConfig).

Lemma same_session_refl a : same_session a a.
Proof. by unfold same_session. Qed.

Lemma same_session_trans a b c : same_session a b -> same_session b c -> same_session a c.
Proof. unfold same_session. intuition congruence. Qed.

(** The sessions of [m'] are sessions of [m]. *)
Definition shrinks (m m' : gmap string Session) : Prop :=
  forall k se', m' !! k = Some se' -> exists se, m !! k = Some se /\ same_session se se'.

Lemma shrinks_refl m : shrinks m m.
Proof. intros k se H. eauto using same_session_refl. Qed.

Lemma shrinks_trans m1 m2 m3 : shrinks m1 m2 -> shrinks m2 m3 -> shrinks m1 m3.
Proof. intros H1 H2 k se (se2 & (se1 & ? & ?)%H1 & ?)%H2. eauto using same_session_trans. Qed.

Lemma shrinks_size m m' : shrinks m m' -> (size m' <= size m)%nat.
Proof.
  intros H. rewrite <-!size_dom. apply subseteq_size. intros k.
  rewrite !elem_of_dom. intros [se' (se & -> & _)%H]. done.
Qed.

Lemma shrinks_filter c m m' : shrinks m m' ->
  shrinks (filter (λ item, se_caller_bus_name item.2 = c) m)
          (filter (λ item, se_caller_bus_name item.2 = c) m').
Proof.
  intros H k se' [(se & Hm & Hs)%H Hc]%map_lookup_filter_Some. exists se. split; [|done].
  apply map_lookup_filter_Some. cbn in *. destruct Hs as (_ & _ & -> & _). done.
Qed.

(** A change that only closes or renews sessions. *)
Definition renews (s s' : BrowseState) : Prop :=
  shrinks (br_sessions s) (br_sessions s') /\ map_Forall (session_ok cfg) (br_sessions s').

Lemma renews_ok s s' : browse_ok cfg s -> renews s s' ->
  (forall k se p, br_sessions s' !! k = Some se -> p ∈ br_ejecting_profiles s' ->
     p ∉ br_ejecting_profiles s -> se_profile_id se ≠ p) ->
  browse_ok cfg s'.
Proof.
  intros [Hok Hg Hc He] [Hs Hok'] Hp. constructor; [done|..].
  - pose proof (shrinks_size _ _ Hs). lia.
  - intros c. pose proof (shrinks_size _ _ (shrinks_filter c _ _ Hs)). specialize (Hc c).
    unfold sessions_of in *. lia.
  - intros k se Hk Hin. destruct (Hs _ _ Hk) as (se0 & H0 & Hsame).
    destruct (decide (se_profile_id se ∈ br_ejecting_profiles s)) as [Hi|Hi].
    + apply (He _ _ H0). by destruct Hsame as (_ & -> & _).
    + by eapply Hp.
Qed.

Lemma ejecting_same s s' : br_ejecting_profiles s' = br_ejecting_profiles s ->
  forall k se p, br_sessions s' !! k = Some se -> p ∈ br_ejecting_profiles s' ->
    p ∉ br_ejecting_profiles s -> se_profile_id se ≠ p.
Proof. intros ->. naive_solver. Qed.

(** ** Pieces of the operations *)

Lemma tr_owned c id Φ s :
  (forall key se, br_sessions s !! key = Some se -> key = id -> se_caller_bus_name se = c ->
     Φ [] (Ok (key, se)) s) ->
  (forall e, Φ [] (Throw e) s) -> tr (owned_session c id) Φ s.
Proof.
  intros HOk Hf. unfold owned_session. cbn.
  destruct (make_ident KBrowseSession id) as [i|e] eqn:Hi; cbn; [|done].
  apply make_ident_Ok in Hi. destruct (br_sessions s !! id_value i) as [se|] eqn:Hs; cbn; [|apply Hf].
  destruct (se_caller_bus_name se =? c)%string eqn:Hc; cbn; [|apply Hf].
  apply String.eqb_eq in Hc. by apply HOk.
Qed.

(** A session whose time was extended. *)
Definition extended_from (now : Z) (se se' : Session) : Prop :=
  same_session se se' /\ se_operation_leases se' = se_operation_leases se /\
  se_deadline se' = Z.min (now + cfg_lifetime cfg * ns_per_s) (se_absolute_deadline se) /\
  se_expires_at se' <= se_absolute_expires_at se.

Lemma tr_extend se Φ s :
  (forall now wall se', extended_from now se se' ->
     Φ [Did SteadyClock (Ok now); Did WallClock (Ok wall)] (Ok se') s) ->
  tr (extend cfg se) Φ s.
Proof.
  intros H. cbn. intros _ (now & -> & _). cbn. intros _ (wall & -> & _). cbn. apply H.
  unfold extended_from, same_session. destruct se. cbn. split_and!; try done. lia.
Qed.

Lemma extended_ok now key se se' :
  extended_from now se se' -> session_ok cfg key se -> session_ok cfg key se'.
Proof.
  intros ((Hi & _ & _ & _ & Ha & He) & Hl & Hd & Hx) []. constructor; rewrite <-?Hi, <-?Ha, <-?He, ?Hl; try done.
  - rewrite Hd. lia.
Qed.

Lemma prune_same now se : same_session se (prune_expired_leases se now).
Proof. by destruct se. Qed.

Lemma prune_ok now key se : session_ok cfg key se -> session_ok cfg key (prune_expired_leases se now).
Proof.
  intros []. destruct se. constructor; cbn in *; try done.
  - intros k d [Hk _]%map_lookup_filter_Some. eauto.
  - etrans; [|done]. rewrite <-!size_dom. apply subseteq_size, dom_filter_subseteq.
Qed.

Lemma retired_same se : same_session se (retired se).
Proof. by destruct se. Qed.

Lemma retired_ok key se : session_ok cfg key se -> session_ok cfg key (retired se).
Proof. intros []. destruct se. constructor; cbn in *; try done. rewrite map_size_empty. lia. Qed.

(** [key] holds a session like [se], and [se] may be stored there. *)
Definition stored (s : BrowseState) (key : string) (se : Session) : Prop :=
  exists se0, br_sessions s !! key = Some se0 /\ same_session se0 se /\ session_ok cfg key se.

Lemma stored_renews s key se : map_Forall (session_ok cfg) (br_sessions s) -> stored s key se ->
  renews s (s <| br_sessions := <[key := se]> (br_sessions s) |>).
Proof.
  intros Hok (se0 & H0 & Hs & Hk). destruct s as [m ej re]. cbn in *. split.
  - intros k se'. cbn. destruct (decide (k = key)) as [->|Hne].
    + rewrite lookup_insert_eq. intros [= <-]. eauto.
    + rewrite lookup_insert_ne by done. eauto using same_session_refl.
  - by apply map_Forall_insert_2.
Qed.

(** The session a call of the backend is about. *)
Definition op_session {X} (o : BrowseOp X) : option BrowseSessionId :=
  match o with
  | CloseMount id | ListDirectory id _ _ | ListDirectoryPage id _ _ _
  | ListPreviousVersions id _ _ _ _ _ | InspectEntry id _ | OpenFile id _ | OpenEntry id _
  | InspectRepository id => Some id
  | _ => None
  end.

(** The calls on sessions are on the sessions of [c]. *)
Definition own_call (c : string) (s : BrowseState) (e : Entry) : Prop :=
  match e with
  | Did o _ =>
      match op_session o with
      | Some id => exists se, br_sessions s !! id_value id = Some se /\ se_caller_bus_name se = c
      | None => True
      end
  | _ => True
  end.

(** What a request of [c] that opens no session does. *)
Record confined (c : string) (s : BrowseState) (l : list Entry) (s' : BrowseState) : Prop := {
  cf_renews : renews s s';
  cf_ejecting : br_ejecting_profiles s' = br_ejecting_profiles s;
  cf_reopen : br_reopen_after s' = br_reopen_after s;
  cf_others : forall k se, br_sessions s !! k = Some se -> se_caller_bus_name se ≠ c ->
    br_sessions s' !! k = Some se;
  cf_calls : Forall (own_call c s) l;
}.

Lemma own_call_shrinks c s s' e :
  shrinks (br_sessions s) (br_sessions s') -> own_call c s' e -> own_call c s e.
Proof.
  intros Hs. unfold own_call. destruct e as [X o r|?|? ?]; try done.
  destruct (op_session o) as [id|]; [|done]. intros (se' & (se & ? & Hsame)%Hs & <-).
  exists se. split; [done|]. apply Hsame.
Qed.

Lemma confined_refl c s l :
  map_Forall (session_ok cfg) (br_sessions s) -> Forall (own_call c s) l -> confined c s l s.
Proof. intros H Hl. constructor; try done. split; [apply shrinks_refl|done]. Qed.

Lemma confined_trans c s1 l1 s2 l2 s3 :
  confined c s1 l1 s2 -> confined c s2 l2 s3 -> confined c s1 (l1 ++ l2) s3.
Proof.
  intros [[Hs1 _] He1 Hr1 Ho1 Hc1] [[Hs2 Hok] He2 Hr2 Ho2 Hc2]. constructor; [|congruence..| |].
  - split; [|done]. by eapply shrinks_trans.
  - intros k se Hk Hne. apply Ho2; [|done]. by apply Ho1.
  - apply Forall_app. split; [done|]. eapply Forall_impl; [done|]. intros e. by apply own_call_shrinks.
Qed.

(** [key] holds [se], a session of [c], in a state whose sessions are well formed. *)
Definition holds (c : string) (s : BrowseState) (key : string) (se : Session) : Prop :=
  map_Forall (session_ok cfg) (br_sessions s) /\ br_sessions s !! key = Some se /\
  se_caller_bus_name se = c.

Lemma holds_ok c s key se : holds c s key se -> session_ok cfg key se.
Proof. intros (H & Hk & _). by apply H. Qed.

Lemma holds_own c s key se {X} (o : BrowseOp X) r :
  holds c s key se -> op_session o = Some (se_id se) -> own_call c s (Did o r).
Proof.
  intros H Ho. cbn. rewrite Ho. pose proof (holds_ok _ _ _ _ H) as [Hk]. destruct H as (_ & H & ?).
  exists se. by rewrite <-Hk.
Qed.

Lemma holds_confined c s key se l : holds c s key se -> Forall (own_call c s) l -> confined c s l s.
Proof. intros (H & _) Hl. by apply confined_refl. Qed.

Lemma set_confined c s key se se1 :
  holds c s key se -> same_session se se1 -> session_ok cfg key se1 ->
  confined c s [] (s <| br_sessions := <[key := se1]> (br_sessions s) |>) /\
  holds c (s <| br_sessions := <[key := se1]> (br_sessions s) |>) key se1.
Proof.
  intros (H & Hk & Hc) Hs Hok.
  destruct (stored_renews s key se1) as [Hr1 Hr2]; [done|by exists se|].
  destruct s as [m ej re]. cbn in *. split.
  - constructor; cbn; try done. intros k x Hx Hne. rewrite lookup_insert_ne; [done|]. congruence.
  - split_and!; cbn; [done|by rewrite lookup_insert_eq|]. by destruct Hs as (_ & _ & <- & _).
Qed.

Lemma delete_confined c s key se :
  holds c s key se -> confined c s [] (s <| br_sessions := delete key (br_sessions s) |>).
Proof.
  intros (H & Hk & Hc). destruct s as [m ej re]. cbn in *. constructor; cbn; try done.
  - split; cbn.
    + intros k x [_ Hx]%lookup_delete_Some. eauto using same_session_refl.
    + by apply map_Forall_delete.
  - intros k x Hx Hne. rewrite lookup_delete_ne; [done|]. congruence.
Qed.
End facts.

(** ** Requests on sessions *)

Section clients.
Context (cfg : BrowseConfig) (c : string).

(** A program that stays with the sessions of [c], and what holds when it returns. *)
Definition conf {A} (m : Browse A) (R : A -> BrowseState -> Prop) (s : BrowseState) : Prop :=
  tr m (λ l r s', confined cfg c s l s' /\ forall a, r = Ok a -> R a s') s.

Lemma conf_bind {A B} (m : Browse A) (f : A -> Browse B) R R' s :
  conf m R s -> (forall a s', R a s' -> conf (f a) R' s') -> conf (m ≫= f) R' s.
Proof.
  intros H Hf. apply solo_bind. eapply solo_mono; [|exact H]. cbn. intros l [a|e] s' [Hc Hr].
  - eapply solo_mono; [|apply Hf, Hr; done]. cbn. intros l' r s'' [Hc' ?].
    split; [by eapply confined_trans|done].
  - by split.
Qed.

Lemma conf_ret {A} (a : A) (R : A -> BrowseState -> Prop) s key se :
  holds cfg c s key se -> R a s -> conf (mret a) R s.
Proof. intros H HR. split; [by eapply holds_confined|by intros ? [= <-]]. Qed.

Lemma conf_raise {A} e (R : A -> BrowseState -> Prop) s key se :
  holds cfg c s key se -> conf (raise e) R s.
Proof. intros H. split; [by eapply holds_confined|done]. Qed.

Lemma conf_lift {A B} (r : res A) (f : A -> Browse B) R s key se :
  holds cfg c s key se -> (forall a, conf (f a) R s) -> conf (lift r ≫= f) R s.
Proof.
  intros H Hf. apply (conf_bind _ _ (λ _ s', s' = s)); [|by intros a ? ->].
  split; [by eapply holds_confined|done].
Qed.

Lemma conf_call {X} (o : BrowseOp X) s key se :
  holds cfg c s key se -> (op_session o = None \/ op_session o = Some (se_id se)) ->
  conf (call o) (λ _ s', s' = s) s.
Proof.
  intros H Ho r Hr. split; [|done]. eapply holds_confined; [done|]. constructor; [|done].
  destruct Ho as [Ho|Ho]; [cbn; by rewrite Ho|by eapply holds_own].
Qed.

Lemma conf_call_bind {X B} (o : BrowseOp X) (f : X -> Browse B) R s key se :
  holds cfg c s key se -> (op_session o = None \/ op_session o = Some (se_id se)) ->
  (forall x, conf (f x) R s) -> conf (call o ≫= f) R s.
Proof. intros H Ho Hf. eapply conf_bind; [by eapply conf_call|]. by intros x ? ->. Qed.

Lemma conf_store {B} key se se1 (f : unit -> Browse B) R s :
  holds cfg c s key se -> same_session se se1 -> session_ok cfg key se1 ->
  (forall s1, holds cfg c s1 key se1 -> conf (f tt) R s1) -> conf (set_session key se1 ≫= f) R s.
Proof.
  intros H Hs Hok Hf. apply (conf_bind _ _ (λ _ s1, holds cfg c s1 key se1)); [|by intros [] ? ?; apply Hf].
  cbn. destruct (set_confined cfg c s key se se1 H Hs Hok) as [H1 H2]. by split.
Qed.

Lemma conf_owned {B} id (f : string * Session -> Browse B) R s :
  map_Forall (session_ok cfg) (br_sessions s) ->
  (forall se, holds cfg c s id se -> conf (f (id, se)) R s) -> conf (owned_session c id ≫= f) R s.
Proof.
  intros Hok Hf.
  apply (conf_bind _ _ (λ e s1, s1 = s /\ holds cfg c s id e.2 /\ e.1 = id)).
  - apply tr_owned; [|by intros e; split; [apply confined_refl|]].
    intros key se Hk -> Hc. split; [by apply confined_refl|]. by intros ? [= <-].
  - intros [key se] ? (-> & Hh & Hk). cbn in *. subst key. by apply Hf.
Qed.

(** The time of a session is extended and the session stored. *)
Lemma conf_extend {B} key se (f : Session -> Browse B) R s :
  holds cfg c s key se ->
  (forall s1 se1, holds cfg c s1 key se1 -> conf (f se1) R s1) ->
  conf (extend cfg se ≫= λ se1, set_session key se1 ≫= λ _, f se1) R s.
Proof.
  intros H Hf.
  apply (conf_bind _ _ (λ se1 s1, s1 = s /\ exists now, extended_from cfg now se se1)).
  - apply tr_extend. intros now wall se1 He. split; [|intros ? [= <-]; eauto].
    eapply holds_confined; [done|]. by repeat constructor.
  - intros se1 ? (-> & now & He).
    eapply conf_store; [done|apply He|eapply extended_ok; [done|by eapply holds_ok]|].
    intros s1 H1. by apply Hf.
Qed.

Lemma conf_extended {B} id (f : string * Session -> Browse B) R s :
  map_Forall (session_ok cfg) (br_sessions s) ->
  (forall s1 se, holds cfg c s1 id se -> conf (f (id, se)) R s1) ->
  conf (extended_session cfg c id ≫= f) R s.
Proof.
  intros Hok Hf. apply (conf_bind _ _ (λ e s1, holds cfg c s1 id e.2 /\ e.1 = id)).
  - apply conf_owned; [done|]. intros se H. apply conf_extend; [done|]. intros s1 se1 H1.
    by eapply conf_ret.
  - intros [key se] s1 [H Hk]. cbn in *. subst key. by apply Hf.
Qed.

Lemma prune_store {B} key se now (f : unit -> Browse B) R s :
  holds cfg c s key se ->
  (forall s1, holds cfg c s1 key (prune_expired_leases se now) -> conf (f tt) R s1) ->
  conf (set_session key (prune_expired_leases se now) ≫= f) R s.
Proof.
  intros H Hf. eapply conf_store; [done|apply prune_same| |done]. by eapply prune_ok, holds_ok.
Qed.

Definition anything {A} (a : A) (s : BrowseState) : Prop := True.

Lemma conf_discard {A} (m : Browse A) R s : conf m R s -> conf (discard m) anything s.
Proof.
  intros H. apply solo_bind. eapply solo_mono; [|exact H]. cbn.
  intros l [a|e] s' [? ?]; cbn; [by rewrite app_nil_r|done].
Qed.
End clients.

(** Decomposes a claim that a program stays with the sessions of its caller. *)
Ltac conf_step :=
  lazymatch goal with
  | |- conf _ _ (owned_session _ _ ≫= _) _ _ => apply conf_owned; [done|intros ? ?]
  | |- conf _ _ (extended_session _ _ _ ≫= _) _ _ => apply conf_extended; [done|intros ? ? ?]
  | |- conf _ _ (extend _ _ ≫= _) _ _ => apply conf_extend; [eassumption|intros ? ? ?]
  | |- conf _ _ (set_session _ (prune_expired_leases _ _) ≫= _) _ _ =>
      eapply prune_store; [eassumption|intros ? ?]
  | |- conf _ _ (call _ ≫= _) _ _ => eapply conf_call_bind; [eassumption|by auto|intros ?]
  | |- conf _ _ (call _) _ _ => eapply solo_mono; [|eapply conf_call; [eassumption|by auto]]; cbn; naive_solver
  | |- conf _ _ (lift _ ≫= _) _ _ => eapply conf_lift; [eassumption|intros ?]
  | |- conf _ _ (mret _) _ _ => eapply conf_ret; [eassumption|done]
  | |- conf _ _ (raise _) _ _ => eapply conf_raise; eassumption
  | |- conf _ _ (browse_error _ _) _ _ => eapply conf_raise; eassumption
  | |- conf _ _ (if ?b then _ else _) _ _ => destruct b eqn:?
  | |- conf _ _ (let x := _ in _) _ _ => cbv zeta
  end; cbn [fst snd].

(** A call that is about no session. *)
Definition no_mount (e : Entry) : Prop :=
  match e with
  | Did (OpenMount _ _ _) _ => False
  | Did o _ => op_session o = None
  | _ => False
  end.

Lemma no_mount_own c s e : no_mount e -> own_call c s e.
Proof. destruct e as [X o r|?|? ?]; [|done..]. by destruct o. Qed.

Section client_requests.
Context (cfg : BrowseConfig) (c : string).

Lemma lease_ok key se id deadline :
  session_ok cfg key se -> (size (se_operation_leases se) < cfg_operation_lease_limit cfg)%nat ->
  deadline <= se_absolute_deadline se ->
  session_ok cfg key (se <| se_operation_leases := <[id := deadline]> (se_operation_leases se) |>).
Proof.
  intros [] Hsize Hd. destruct se. constructor; cbn in *; try done.
  - by apply map_Forall_insert_2.
  - rewrite map_size_insert. destruct (_ !! id); cbn; lia.
Qed.

Lemma unlease_ok key se id :
  session_ok cfg key se ->
  session_ok cfg key (se <| se_operation_leases := delete id (se_operation_leases se) |>).
Proof.
  intros []. destruct se. constructor; cbn in *; try done.
  - by apply map_Forall_delete.
  - rewrite map_size_delete. destruct (_ !! id); cbn; lia.
Qed.

Lemma begin_operation_conf id s :
  map_Forall (session_ok cfg) (br_sessions s) -> conf cfg c (begin_operation cfg c id) anything s.
Proof.
  intros Hok. unfold begin_operation. repeat conf_step; try done.
  match goal with H : holds _ _ _ _ (prune_expired_leases ?se ?now) |- _ =>
    eapply (conf_store _ _ _ (prune_expired_leases se now)); [exact H|by destruct se|..];
    [apply lease_ok; [by eapply holds_ok|by apply Nat.leb_gt|lia]|]
  end.
  intros. repeat conf_step; done.
Qed.

Lemma end_operation_conf id lease s :
  map_Forall (session_ok cfg) (br_sessions s) -> conf cfg c (end_operation cfg c id lease) anything s.
Proof.
  intros Hok. unfold end_operation. repeat conf_step; try done.
  match goal with H : holds _ _ _ _ (prune_expired_leases ?se ?now) |- _ =>
    eapply (conf_store _ _ _ (prune_expired_leases se now)); [exact H|by destruct se|..];
    [apply unlease_ok; by eapply holds_ok|]
  end.
  intros. repeat conf_step; done.
Qed.

Lemma erase_conf key se s :
  holds cfg c s key se -> conf cfg c (erase_session key) (λ _ s', s' = s <| br_sessions := delete key (br_sessions s) |>) s.
Proof. intros H. cbn. split; [by eapply delete_confined|done]. Qed.

Lemma close_session_conf reason key se s :
  holds cfg c s key se -> conf cfg c (close_session cfg reason key se) anything s.
Proof.
  intros H. unfold close_session. cbv zeta.
  eapply conf_store; [done|apply retired_same|by eapply retired_ok, holds_ok|]. intros s1 H1.
  eapply conf_call_bind; [done|by right|]. intros [].
  eapply conf_bind; [by eapply erase_conf|]. intros [] s2 ->.
  pose proof (delete_confined cfg c s1 key _ H1) as [[_ Hok] _ _ _ _].
  assert (forall l, Forall (own_call c (s1 <| br_sessions := delete key (br_sessions s1) |>)) l ->
    confined cfg c (s1 <| br_sessions := delete key (br_sessions s1) |>) l
      (s1 <| br_sessions := delete key (br_sessions s1) |>)) as Hc by (intros; by apply confined_refl).
  destruct (cfg_events cfg); cbn.
  - intros r _. split; [|done]. apply Hc. by repeat constructor.
  - split; [|done]. by apply Hc.
Qed.

Lemma close_conf id s :
  map_Forall (session_ok cfg) (br_sessions s) -> conf cfg c (close cfg c id) anything s.
Proof. intros Hok. unfold close. conf_step. by apply close_session_conf. Qed.

Lemma page_conf id p token n s :
  map_Forall (session_ok cfg) (br_sessions s) ->
  conf cfg c (browse_directory_page cfg c id p token n) anything s.
Proof. intros Hok. unfold browse_directory_page. repeat conf_step; done. Qed.

Lemma versions_conf id profile source p token n s :
  map_Forall (session_ok cfg) (br_sessions s) ->
  conf cfg c (list_previous_versions cfg c id profile source p token n) anything s.
Proof. intros Hok. unfold list_previous_versions. repeat conf_step; done. Qed.

Lemma renew_conf id s :
  map_Forall (session_ok cfg) (br_sessions s) -> conf cfg c (renew cfg c id) anything s.
Proof. intros Hok. unfold renew. repeat conf_step; done. Qed.

(** The requests that only read through a session. *)
Lemma read_conf {X} id (o : BrowseSessionId -> BrowseOp X) s :
  (forall i, op_session (o i) = Some i) -> map_Forall (session_ok cfg) (br_sessions s) ->
  conf cfg c (entry ← extended_session cfg c id; call (o (se_id entry.2))) anything s.
Proof.
  intros Ho Hok. conf_step. eapply solo_mono; [|eapply conf_call; [eassumption|by right]]. cbn. naive_solver.
Qed.

Lemma tr_allowed e Φ s :
  (forall l ex, Forall no_mount l -> Φ l (Throw ex) s) ->
  (forall l, Forall no_mount l -> Did (AskAuthorized c OpenBrowseSession) (Ok true) ∈ l ->
     Did (AskActive c) (Ok true) ∈ l -> c ≠ "" -> Φ l (Ok tt) s) ->
  tr (caller_allowed c (raise e)) Φ s.
Proof.
  intros Hx HOk. unfold caller_allowed. destruct (str_empty c) eqn:Hc; [by apply Hx|].
  cbn. intros [[]|ex] _; cbn; [|by apply Hx; repeat constructor..].
  intros [[]|ex] _; cbn; [|by apply Hx; repeat constructor..].
  apply HOk; [by repeat constructor|by constructor|by repeat constructor|]. by intros ->.
Qed.

Lemma coverage_conf p profiles s :
  map_Forall (session_ok cfg) (br_sessions s) ->
  conf cfg c (resolve_coverage c p profiles) anything s.
Proof.
  intros Hok. unfold resolve_coverage. cbv zeta.
  assert (forall l, Forall (own_call c s) l -> confined cfg c s l s) by (intros; by apply confined_refl).
  eapply (conf_bind _ _ _ _ (λ _ s', s' = s)).
  - destruct (str_empty c || _); [by split; auto|].
    apply tr_allowed; intros; split; try done;
      eauto using Forall_impl, no_mount_own.
  - intros _ ? ->. intros r _. split; [|done]. apply confined_refl; [done|]. by repeat constructor.
Qed.
End client_requests.

(** ** Opening a session *)

(** What was established, by the calls [before], when a repository is mounted for [c]. *)
Record mount_allowed (cfg : BrowseConfig) (c : string) (s : BrowseState) (profile : ProfileId)
    (id : BrowseSessionId) (before : list Entry) : Prop := {
  ma_caller : c ≠ "";
  ma_authorized : Did (AskAuthorized c OpenBrowseSession) (Ok true) ∈ before;
  ma_active : Did (AskActive c) (Ok true) ∈ before;
  ma_ejecting : profile ∉ br_ejecting_profiles s;
  ma_settled : forall delayed, br_reopen_after s !! profile = Some delayed ->
    exists now, delayed <= now /\ Did SteadyClock (Ok now) ∈ before;
  ma_global : (size (br_sessions s) < cfg_global_limit cfg)%nat;
  ma_per_caller : (sessions_of c (br_sessions s) < cfg_per_caller_limit cfg)%nat;
  ma_fresh : br_sessions s !! id_value id = None;
}.

(** The session that is stored when the mount succeeded. *)
Definition opened_session (cfg : BrowseConfig) (c : string) (identity : BrowseAccessIdentity)
    (profile : ProfileId) (id : BrowseSessionId) (se : Session) : Prop :=
  exists opened_at opened_wall now,
    time_point_min <= opened_at /\
    extended_from cfg now
      (mkSession id profile c (ba_uid identity)
         0 (opened_at + cfg_maximum_lifetime cfg * ns_per_s)
         0 (opened_wall + cfg_maximum_lifetime cfg * ns_per_s) ∅) se.

(** A request to open: nothing is mounted, or one repository, by the book. *)
Definition open_outcome (cfg : BrowseConfig) (c : string) (identity : BrowseAccessIdentity)
    (profile_id : string) (s : BrowseState) (l : list Entry) (r : res BrowseSessionInfo)
    (s' : BrowseState) : Prop :=
  br_ejecting_profiles s' = br_ejecting_profiles s /\
  ((Forall no_mount l /\ (exists e, r = Throw e) /\ br_sessions s' = br_sessions s) \/
   exists profile id before answer after,
     l = before ++ Did (OpenMount profile id identity) answer :: after /\
     Forall no_mount before /\ Forall no_mount after /\
     id_value profile = profile_id /\ mount_allowed cfg c s profile id before /\
     match answer with
     | Throw e => r = Throw e /\ br_sessions s' = br_sessions s
     | Ok _ => exists se, opened_session cfg c identity profile id se /\ r = Ok (session_info se) /\
                          br_sessions s' = <[id_value id := se]> (br_sessions s)
     end).

Section opening.
Context (cfg : BrowseConfig) (c : string) (identity : BrowseAccessIdentity) (profile_id : string).

Lemma tr_check_eject profile Φ s :
  (forall l ex, Forall no_mount l -> Φ l (Throw ex) s) ->
  (forall l s', Forall no_mount l -> profile ∉ br_ejecting_profiles s ->
     (forall delayed, br_reopen_after s !! profile = Some delayed ->
        exists now, delayed <= now /\ Did SteadyClock (Ok now) ∈ l) ->
     br_sessions s' = br_sessions s -> br_ejecting_profiles s' = br_ejecting_profiles s ->
     Φ l (Ok tt) s') ->
  tr (check_eject profile) Φ s.
Proof.
  intros Hx HOk. unfold check_eject. cbn. destruct (decide _) as [Hi|Hi]; [by apply Hx|].
  destruct (br_reopen_after s !! profile) as [delayed|] eqn:Hd; cbn; [|by apply HOk].
  intros _ (now & -> & _). cbn. destruct (now <? delayed) eqn:Hn; cbn; [by apply Hx; repeat constructor|].
  apply HOk; try done; [by repeat constructor|]. intros ? [= <-]. exists now.
  split; [by apply Z.ltb_ge|by constructor].
Qed.

Lemma tr_open s :
  tr (open cfg c identity profile_id) (open_outcome cfg c identity profile_id s) s.
Proof.
  unfold open. cbn. destruct (make_ident KProfile profile_id) as [profile|e] eqn:Hp; cbn;
    [|by split; [|left; eauto]].
  apply make_ident_Ok in Hp.
  apply solo_bind, tr_allowed; [by intros l ex Hl; split; [|left; eauto]|].
  intros l1 Hl1 Hauth Hactive Hc.
  apply solo_bind, tr_check_eject; [by intros l ex Hl; split; [|left; split; [apply Forall_app|]; eauto]|].
  intros l2 s1 Hl2 Hej Hsettled Hs1 He1. cbn.
  assert (Hl12 : Forall no_mount (l1 ++ l2)) by by apply Forall_app.
  assert (Hfail : forall l e, Forall no_mount l ->
    open_outcome cfg c identity profile_id s (l1 ++ l2 ++ l) (Throw e) s1).
  { intros l e Hl. split; [done|]. left. rewrite app_assoc. split; [by apply Forall_app|]. eauto. }
  destruct (_ <=? _)%nat eqn:Hg; [by apply Hfail|].
  destruct (_ <=? sessions_of _ _)%nat eqn:Hpc; [by apply Hfail|]. apply Nat.leb_gt in Hg, Hpc.
  rewrite Hs1 in *. cbn. intros [id|e] _; cbn; [|by apply Hfail; repeat constructor].
  destruct (decide _) as [Hi|Hi]; cbn; [by apply Hfail; repeat constructor|].
  rewrite <-eq_None_not_Some in Hi. intros answer _.
  assert (Hma : mount_allowed cfg c s profile id (l1 ++ l2 ++ [Did SessionIds (Ok id)])).
  { constructor; try done; [set_solver..|].
    intros delayed (now & ? & ?)%Hsettled. exists now. split; [done|set_solver]. }
  assert (Hout : forall after r s', Forall no_mount after ->
    br_ejecting_profiles s' = br_ejecting_profiles s ->
    match answer with
     | Throw e => r = Throw e /\ br_sessions s' = br_sessions s
     | Ok _ => exists se, opened_session cfg c identity profile id se /\ r = Ok (session_info se) /\
                          br_sessions s' = <[id_value id := se]> (br_sessions s)
     end ->
    open_outcome cfg c identity profile_id s
      (l1 ++ l2 ++ Did SessionIds (Ok id) :: Did (OpenMount profile id identity) answer :: after) r s').
  { intros after r s' Ha He Hr. split; [done|]. right.
    exists profile, id, (l1 ++ l2 ++ [Did SessionIds (Ok id)]), answer, after. split_and!; try done.
    - by rewrite <-!app_assoc.
    - rewrite app_assoc. apply Forall_app. split; [done|by repeat constructor]. }
  destruct answer as [[]|e]; cbn; [|by apply Hout].
  intros _ (opened_at & -> & Hat). cbn. intros _ (opened_wall & -> & _). cbn.
  intros _ (now & -> & _). cbn. intros _ (wall & -> & _). cbn.
  apply Hout; [by repeat constructor|by destruct s1|].
  eexists. split_and!; [|done|by destruct s1; cbn in *; subst].
  exists opened_at, opened_wall, now. split; [done|]. unfold extended_from, same_session. cbn.
  split_and!; try done. lia.
Qed.
End opening.

(** ** Loops over the sessions *)

Lemma tr_set key se (Φ : list Entry -> res unit -> BrowseState -> Prop) s :
  Φ [] (Ok tt) (s <| br_sessions := <[key := se]> (br_sessions s) |>) -> tr (set_session key se) Φ s.
Proof. done. Qed.

Definition rest_same (s s' : BrowseState) : Prop :=
  br_ejecting_profiles s' = br_ejecting_profiles s /\ br_reopen_after s' = br_reopen_after s.

(** Every session of [m] has come to an outcome. *)
Definition each_out (out : string -> Session -> option Session -> Prop) (m m' : gmap string Session)
    : Prop :=
  forall k, match m !! k with Some se => out k se (m' !! k) | None => m' !! k = None end.

Section loops.
Context (out thrown : string -> Session -> option Session -> list Entry -> Prop).
Context (out_mono : forall k se o l1 l l2, out k se o l -> out k se o (l1 ++ l ++ l2)).
Context (thrown_mono : forall k se o l1 l, thrown k se o l -> thrown k se o (l1 ++ l)).
Context (allowed : Session -> Entry -> Prop).
Context (body : string -> Session -> Browse unit).
Context (body_ok : forall key se s, br_sessions s !! key = Some se ->
  tr (body key se) (λ l r s', rest_same s s' /\ Forall (allowed se) l /\
    (forall k, k ≠ key -> br_sessions s' !! k = br_sessions s !! k) /\
    match r with
    | Ok _ => out key se (br_sessions s' !! key) l
    | Throw _ => thrown key se (br_sessions s' !! key) l
    end) s).

(** What the whole loop comes to. *)
Definition loop_outcome (s : BrowseState) (l : list Entry) (r : res unit) (s' : BrowseState) : Prop :=
  rest_same s s' /\
  Forall (λ e, exists k se, br_sessions s !! k = Some se /\ allowed se e) l /\
  match r with
  | Ok _ => each_out (λ k se o, out k se o l) (br_sessions s) (br_sessions s')
  | Throw _ =>
      (exists k se o, br_sessions s !! k = Some se /\ thrown k se o l) /\
      each_out (λ k se o, out k se o l \/ thrown k se o l \/ o = Some se)
        (br_sessions s) (br_sessions s')
  end.

Definition progress (s : BrowseState) (keys : list string) (l : list Entry) (s' : BrowseState) : Prop :=
  rest_same s s' /\
  Forall (λ e, exists k se, br_sessions s !! k = Some se /\ allowed se e) l /\
  forall k, (k ∈ keys -> br_sessions s' !! k = br_sessions s !! k) /\
    (k ∉ keys -> match br_sessions s !! k with
                 | Some se => out k se (br_sessions s' !! k) l
                 | None => br_sessions s' !! k = None
                 end).

Lemma out_more k se o l1 l2 : out k se o l1 -> out k se o (l1 ++ l2).
Proof. apply (out_mono _ _ _ []). Qed.

Lemma tr_for s keys l s1 :
  NoDup keys -> progress s keys l s1 ->
  tr (for_sessions keys body) (λ l', loop_outcome s (l ++ l')) s1.
Proof.
  revert l s1. induction keys as [|key keys IH]; intros l s1 Hnd ([He Hr] & Hl & Hp); cbn.
  - rewrite app_nil_r. split_and!; [done..|]. intros k. apply (Hp k). set_solver.
  - apply NoDup_cons in Hnd as [Hk Hnd]. pose proof (Hp key) as [Hkey _].
    specialize (Hkey ltac:(set_solver)).
    destruct (br_sessions s1 !! key) as [se|] eqn:Hse; cbn.
    + apply solo_bind. eapply solo_mono; [|by apply body_ok]. cbn.
      intros l' r' s2 ([He2 Hr2] & Hl' & Hother & Hout).
      assert (Hl2 : Forall (λ e, exists k se, br_sessions s !! k = Some se /\ allowed se e) (l ++ l')).
      { apply Forall_app. split; [done|]. eapply Forall_impl; [done|]. cbn. intros e Hx. by exists key, se. }
      destruct r' as [[]|e].
      * eapply solo_mono; [|apply (IH (l ++ l')); [done|]].
        { cbn. intros l'' r s3. by rewrite app_assoc. }
        split; [split; congruence|split; [done|]]. intros k. split.
        -- intros Hin. rewrite Hother by set_solver. apply (Hp k). set_solver.
        -- intros Hnin. destruct (decide (k = key)) as [->|Hne].
           ++ rewrite <-Hkey. rewrite <-(app_nil_r l'). by apply out_mono.
           ++ rewrite Hother by done. destruct (Hp k) as [_ H]. specialize (H ltac:(set_solver)).
              destruct (br_sessions s !! k); [by apply out_more|done].
      * split; [split; congruence|split; [done|split]].
        { exists key, se, (br_sessions s2 !! key). split; [done|]. by apply thrown_mono. }
        intros k. destruct (decide (k = key)) as [->|Hne].
        -- rewrite <-Hkey. right. left. by apply thrown_mono.
        -- rewrite Hother by done. destruct (decide (k ∈ keys)) as [Hin|Hin]; destruct (Hp k) as [H1 H2].
           ++ rewrite H1 by set_solver. destruct (br_sessions s !! k); auto.
           ++ specialize (H2 ltac:(set_solver)). destruct (br_sessions s !! k); [left; by apply out_more|done].
    + apply IH; [done|]. split_and!; [done..|]. intros k. split; [intros; apply (Hp k); set_solver|].
      intros Hnin. destruct (decide (k = key)) as [->|Hne]; [by rewrite <-Hkey|].
      apply (Hp k). set_solver.
Qed.

Lemma tr_each s : tr (each_session body) (loop_outcome s) s.
Proof.
  unfold each_session. cbn. apply (tr_for s _ []).
  - unfold session_keys. rewrite (std_sort_perm str_less _). apply NoDup_elements.
  - split_and!; [done..|]. intros k. split; [done|]. intros Hk.
    destruct (br_sessions s !! k) as [se|] eqn:Hse; [|done]. destruct Hk. unfold session_keys.
    rewrite (std_sort_perm str_less _), elem_of_elements, elem_of_dom. eauto.
Qed.
End loops.

(** ** Closing without exceptions *)

Section closing.
Context (cfg : BrowseConfig).

(** The mount was asked to close: the session is gone, or kept to be closed later. *)
Definition closed_out (se : Session) (o : option Session) (l : list Entry) : Prop :=
  exists r, Did (CloseMount (se_id se)) r ∈ l /\
    match r with Ok _ => o = None | Throw _ => o = Some (retired se) end.

(** The mount of this session, and no other, is closed. *)
Definition closing_call (se : Session) (e : Entry) : Prop :=
  match e with
  | Did (Notify _) _ => True
  | Did (CloseMount id) _ => id = se_id se
  | _ => False
  end.

Lemma closed_out_mono se o l1 l l2 : closed_out se o l -> closed_out se o (l1 ++ l ++ l2).
Proof. intros (r & ? & ?). exists r. split; [set_solver|done]. Qed.

Lemma tr_close_noexcept reason key se s (P : list Entry -> res unit -> BrowseState -> Prop) :
  (forall l s', rest_same s s' -> Forall (closing_call se) l ->
     (forall k, k ≠ key -> br_sessions s' !! k = br_sessions s !! k) ->
     closed_out se (br_sessions s' !! key) l -> P l (Ok tt) s') ->
  tr (close_noexcept cfg reason key se) P s.
Proof.
  intros HP. unfold close_noexcept. cbn.
  intros [[]|e] _; cbn; (destruct (cfg_events cfg); [cbn; intros [[]|e'] _; cbn|cbn]);
    (apply HP; [by destruct s|by repeat constructor| | ]); destruct s as [m ej re]; cbn;
    try (intros k Hk; rewrite ?lookup_delete_ne, ?lookup_insert_ne by done; done);
    eexists; (split; [by constructor|]); cbn; by rewrite ?lookup_delete_eq, ?lookup_insert_eq.
Qed.
End closing.

(** ** Expiring, leaving and ejecting *)

Section ends.
Context (cfg : BrowseConfig).

(** What the timer does to a session. *)
Definition expire_out (now : Z) (se : Session) (o : option Session) (l : list Entry) : Prop :=
  let se := prune_expired_leases se now in
  if alive now se then o = Some se else closed_out se o l.

Lemma tr_expire s :
  tr (expire cfg) (λ l r s', r = Ok tt /\ rest_same s s' /\
    exists stale now l', l = [Did CleanupStale stale; Did SteadyClock (Ok now)] ++ l' /\
      Forall (λ e, exists k se, br_sessions s !! k = Some se /\
        alive now (prune_expired_leases se now) = false /\ closing_call se e) l' /\
      each_out (λ _ se o, expire_out now se o l') (br_sessions s) (br_sessions s')) s.
Proof.
  unfold expire. apply solo_bind, solo_catch. cbn.
  assert (Hloop : forall now, tr (each_session (λ key session,
      let session := prune_expired_leases session now in
      _ ← set_session key session;
      if alive now session then mret tt else close_noexcept cfg Expired key session))
    (loop_outcome (λ _ se o l, expire_out now se o l) (λ _ _ _ _, False)
       (λ se e, alive now (prune_expired_leases se now) = false /\ closing_call se e) s) s).
  { intros now. apply tr_each; [|done|].
    - intros k se o l1 l l2. unfold expire_out. cbv zeta. destruct (alive _ _); [done|].
      apply closed_out_mono.
    - intros key se s1 Hse. cbv zeta. apply solo_bind, tr_set.
      destruct (alive now _) eqn:Ha.
      + destruct s1 as [m ej re]. cbn -[prune_expired_leases]. split_and!; try done.
        * intros k Hk. by rewrite lookup_insert_ne.
        * unfold expire_out. cbv zeta. rewrite Ha. by rewrite lookup_insert_eq.
      + apply tr_close_noexcept. intros l s2 [He Hr] Hl Hother Hout. destruct s1 as [m ej re].
        cbn -[prune_expired_leases] in *. split_and!; [done|..].
        * eapply Forall_impl; [exact Hl|]. intros e Hx. split; [done|]. by destruct se.
        * intros k Hk. rewrite Hother by done. by rewrite lookup_insert_ne.
        * unfold expire_out. cbv zeta. by rewrite Ha. }
  intros [[]|e] _; cbn; intros _ (now & -> & _); cbn; (eapply solo_mono; [|apply Hloop]);
    cbn; intros l [[]|e'] s' (Hrest & Hl & Hout);
    try (by destruct Hout as [(? & ? & ? & ? & []) _]);
    (split_and!; [done..|]); eexists _, now, l; by split_and!.
Qed.

(** A loop that closes the sessions [which] picks. *)
Lemma tr_close_each (which : Session -> bool) reason s :
  tr (each_session (λ key session, if which session then close_noexcept cfg reason key session else mret tt))
    (λ l r s', r = Ok tt /\ rest_same s s' /\
       Forall (λ e, exists k se, br_sessions s !! k = Some se /\ which se /\ closing_call se e) l /\
       each_out (λ _ se o, if which se then closed_out se o l else o = Some se)
         (br_sessions s) (br_sessions s')) s.
Proof.
  eapply solo_mono; [|apply (tr_each (λ _ se o l, if which se then closed_out se o l else o = Some se)
    (λ _ _ _ _, False)) with (allowed := λ se e, which se /\ closing_call se e)].
  - cbn. intros l [[]|e] s' (Hrest & Hl & Hout); [by split_and!|].
    by destruct Hout as [(? & ? & ? & ? & []) _].
  - intros k se o l1 l l2. destruct (which se); [apply closed_out_mono|done].
  - done.
  - intros key se s1 Hse. destruct (which se) eqn:Hw; [|by split_and!].
    apply tr_close_noexcept. intros l s2 Hrest Hl Hother Hout. split_and!; try done.
    eapply Forall_impl; [exact Hl|]. intros e Hx. by split.
Qed.

(** Closing a session of a profile that is ejected, with exceptions. *)
Definition eject_out (p : ProfileId) (se : Session) (o : option Session) (l : list Entry) : Prop :=
  if decide (se_profile_id se = p) then o = None /\ Did (CloseMount (se_id se)) (Ok tt) ∈ l else o = Some se.

Definition eject_thrown (p : ProfileId) (se : Session) (o : option Session) : Prop :=
  se_profile_id se = p /\ (o = None \/ o = Some (retired se)).

Lemma tr_close_session reason key se s (P : list Entry -> res unit -> BrowseState -> Prop) :
  (forall l r s', rest_same s s' -> Forall (closing_call se) l ->
     (forall k, k ≠ key -> br_sessions s' !! k = br_sessions s !! k) ->
     match r with
     | Ok _ => br_sessions s' !! key = None /\ Did (CloseMount (se_id se)) (Ok tt) ∈ l
     | Throw _ => br_sessions s' !! key = None \/ br_sessions s' !! key = Some (retired se)
     end -> P l r s') ->
  tr (close_session cfg reason key se) P s.
Proof.
  intros HP. unfold close_session. cbn. destruct s as [m ej re].
  assert (forall k, k ≠ key -> delete key (<[key:=retired se]> m) !! k = m !! k).
  { intros k Hk. by rewrite lookup_delete_ne, lookup_insert_ne. }
  intros [[]|e] _; cbn; [destruct (cfg_events cfg); cbn; [intros [[]|e'] _; cbn|]|];
    (apply HP; [done|by repeat constructor| | ]); cbn; try done;
    rewrite ?lookup_delete_eq, ?lookup_insert_eq; auto.
  - split; [done|by constructor].
  - split; [done|by constructor].
  - intros k Hk. by rewrite lookup_insert_ne.
Qed.

Lemma tr_eject_loop p s :
  tr (each_session (λ key session,
        if decide (se_profile_id session = p) then close_session cfg TargetEject key session else mret tt))
    (loop_outcome (λ _ se o l, eject_out p se o l) (λ _ se o _, eject_thrown p se o)
       (λ se e, se_profile_id se = p /\ closing_call se e) s) s.
Proof.
  apply tr_each.
  - intros k se o l1 l l2. unfold eject_out. destruct (decide _); [|done]. intros [-> H].
    split; [done|]. set_solver.
  - done.
  - intros key se s1 Hse. unfold eject_out, eject_thrown. destruct (decide _) as [Hp|Hp]; [|by split_and!].
    apply tr_close_session. intros l r s2 Hrest Hl Hother Hout. split_and!; try done.
    + eapply Forall_impl; [exact Hl|]. done.
    + by destruct r.
Qed.

(** What the beginning of an ejection comes to. *)
Definition eject_outcome (p : ProfileId) (s : BrowseState) (l : list Entry) (r : res unit)
    (s' : BrowseState) : Prop :=
  if decide (p ∈ br_ejecting_profiles s)
  then l = [] /\ s' = s /\ r = Throw (ManagerOperationError Busy "backup target is already being ejected")
  else
    exists now l', l = Did SteadyClock (Ok now) :: l' /\
      let pruned := (λ session, prune_expired_leases session now) <$> br_sessions s in
      br_reopen_after s' = delete p (br_reopen_after s) /\
      if operation_active p pruned
      then l' = [] /\ br_sessions s' = pruned /\ br_ejecting_profiles s' = br_ejecting_profiles s /\
           r = Throw (ManagerOperationError Busy "backup browsing operation is active")
      else
        Forall (λ e, exists k se, pruned !! k = Some se /\ se_profile_id se = p /\ closing_call se e) l' /\
        match r with
        | Ok _ => br_ejecting_profiles s' = {[p]} ∪ br_ejecting_profiles s /\
                  each_out (λ _ se o, eject_out p se o l') pruned (br_sessions s')
        | Throw _ => br_ejecting_profiles s' = br_ejecting_profiles s /\
                     each_out (λ _ se o, eject_out p se o l' \/ eject_thrown p se o \/ o = Some se)
                       pruned (br_sessions s')
        end.

Lemma tr_begin_eject p s : tr (begin_target_eject cfg p) (eject_outcome p s) s.
Proof.
  unfold begin_target_eject. cbn -[each_session catch]. unfold eject_outcome. destruct (decide _) as [Hin|Hin]; [done|].
  cbn -[each_session catch]. intros _ (now & -> & _). cbn -[each_session catch].
  assert (Hset : ({[p]} ∪ br_ejecting_profiles s) ∖ {[p]} = br_ejecting_profiles s) by set_solver.
  destruct (operation_active _ _) eqn:Hact; cbn -[each_session catch].
  - exists now, []. by rewrite Hact.
  - apply solo_catch. eapply solo_mono; [|apply tr_eject_loop]. cbn.
    intros l r s' ([He Hr] & Hl & Hout). cbn in *. destruct r as [[]|e]; cbn.
    + exists now, l. rewrite Hact. by split_and!.
    + destruct Hout as [_ Hout]. rewrite app_nil_r. exists now, l. rewrite Hact. destruct s'; cbn in *.
      subst. by rewrite Hset; split_and!.
Qed.

Lemma tr_end_eject p s :
  tr (end_target_eject p) (λ l r s', Forall no_mount l /\ r = Ok tt /\ br_sessions s' = br_sessions s /\
    br_ejecting_profiles s' = br_ejecting_profiles s ∖ {[p]} /\
    exists now, br_reopen_after s' = <[p := now + browse_reopen_delay * ns_per_s]> (br_reopen_after s)) s.
Proof.
  cbn -[Z.mul]. intros _ (now & -> & _). cbn -[Z.mul]. destruct s. split_and!; try done; [by repeat constructor|].
  by exists now.
Qed.
End ends.

(** ** The invariant is kept *)

Section invariant.
Context (cfg : BrowseConfig).

(** A session that is gone, or kept as it was but for its time and leases. *)
Definition kept_or_gone (k : string) (se : Session) (o : option Session) : Prop :=
  o = None \/ exists se', o = Some se' /\ same_session se se' /\ session_ok cfg k se'.

Lemma each_out_renews m s s' :
  shrinks (br_sessions s) m -> map_Forall (session_ok cfg) m ->
  each_out kept_or_gone m (br_sessions s') -> renews cfg s s'.
Proof.
  intros Hs Hok Hout. split.
  - eapply shrinks_trans; [done|]. intros k se' Hk. specialize (Hout k).
    destruct (m !! k) as [se|]; [|congruence].
    destruct Hout as [?|(se1 & ? & ? & _)]; [congruence|]. exists se. split; [done|]. congruence.
  - intros k se' Hk. specialize (Hout k). destruct (m !! k) as [se|]; [|congruence].
    destruct Hout as [?|(se1 & ? & _ & ?)]; congruence.
Qed.

Lemma each_out_impl (P Q : string -> Session -> option Session -> Prop) m m' :
  (forall k se o, m !! k = Some se -> P k se o -> Q k se o) -> each_out P m m' -> each_out Q m m'.
Proof. intros H Ho k. specialize (Ho k). destruct (m !! k) eqn:Hk; auto. Qed.

Lemma kept_same k se : session_ok cfg k se -> kept_or_gone k se (Some se).
Proof. right. eauto using same_session_refl. Qed.

Lemma kept_retired k se : session_ok cfg k se -> kept_or_gone k se (Some (retired se)).
Proof. right. eauto using retired_same, retired_ok. Qed.

Lemma closed_kept k se o l : session_ok cfg k se -> closed_out se o l -> kept_or_gone k se o.
Proof. intros Hok ([[]|e] & _ & ->); [by left|by apply kept_retired]. Qed.

Lemma kept_pruned k se now o :
  kept_or_gone k (prune_expired_leases se now) o -> kept_or_gone k se o.
Proof.
  intros [->|(se' & -> & Hs & Hok)]; [by left|]. right. by exists se'.
Qed.

Lemma expire_kept now k se o l : session_ok cfg k se -> expire_out now se o l -> kept_or_gone k se o.
Proof.
  intros Hok Ho. apply (kept_pruned _ _ now). unfold expire_out in Ho. cbv zeta in Ho.
  apply (prune_ok cfg now) in Hok.
  destruct (alive _ _); [subst; by apply kept_same|by eapply closed_kept].
Qed.

Lemma eject_kept p k se o l :
  session_ok cfg k se -> eject_out p se o l \/ eject_thrown p se o \/ o = Some se -> kept_or_gone k se o.
Proof.
  intros Hok [Ho|[[_ [->| ->]]| ->]]; [|by left|by apply kept_retired|by apply kept_same].
  unfold eject_out in Ho. destruct (decide _); [left; by destruct Ho|subst; by apply kept_same].
Qed.

Lemma opened_ok c identity profile id se :
  config_ok cfg -> opened_session cfg c identity profile id se -> session_ok cfg (id_value id) se.
Proof.
  intros Hc (opened_at & opened_wall & now & Hat & (Hi & _ & _ & _ & Ha & He) & Hl & Hd & Hx).
  assert (0 < cfg_maximum_lifetime cfg * ns_per_s).
  { apply Z.mul_pos_pos; [|done]. destruct Hc as [? _]. lia. }
  cbn in *. constructor; rewrite <-?Hi, <-?Ha, <-?He, ?Hl; try done; try lia.
  rewrite map_size_empty. lia.
Qed.

Lemma open_keeps c identity profile_id s l r s' :
  config_ok cfg -> browse_ok cfg s -> open_outcome cfg c identity profile_id s l r s' ->
  browse_ok cfg s' /\ Forall (own_call c s) l /\
  forall k se, br_sessions s !! k = Some se -> br_sessions s' !! k = Some se.
Proof.
  intros Hcfg [Hok Hg Hc He] [Hej [(Hl & _ & Hs)|
    (profile & id & before & answer & after & -> & Hb & Ha & Hp & Hma & Hr)]].
  - split_and!; [by constructor; rewrite ?Hs, ?Hej| |by rewrite Hs].
    eapply Forall_impl; [exact Hl|]. intros e. apply no_mount_own.
  - destruct Hma as [_ _ _ Hnej _ Hlt Hclt Hfresh]. split_and!.
    + destruct answer as [[]|e]; [|by destruct Hr as [_ Hr]; constructor; rewrite ?Hr, ?Hej].
      destruct Hr as (se & Hse & _ & Hs). pose proof (opened_ok _ _ _ _ _ Hcfg Hse) as Hso.
      destruct Hse as (? & ? & ? & _ & (_ & Hsp & Hsc & _) & _). cbn in *.
      constructor; rewrite Hs, ?Hej.
      * by apply map_Forall_insert_2.
      * rewrite map_size_insert_None by done. lia.
      * intros c'. unfold sessions_of in *. destruct (decide (c' = c)) as [->|Hne].
        -- rewrite map_filter_insert_True by (cbn; congruence).
           rewrite map_size_insert_None; [lia|]. by apply map_lookup_filter_None; left.
        -- rewrite map_filter_insert_False by (cbn; congruence).
           rewrite delete_id by done. apply Hc.
      * apply map_Forall_insert_2; [by rewrite <-Hsp|done].
    + apply Forall_app. split; [|constructor; [done|]];
        (eapply Forall_impl; [eassumption|]); intros e; apply no_mount_own.
    + intros k se Hk. destruct answer as [[]|e].
      * destruct Hr as (se' & _ & _ & ->). rewrite lookup_insert_ne; [done|]. congruence.
      * by destruct Hr as [_ ->].
Qed.

(** A request on a session of its caller. *)
Lemma session_request_conf request c s :
  client request = Some c -> (forall identity profile_id, request ≠ AskOpen c identity profile_id) ->
  map_Forall (session_ok cfg) (br_sessions s) -> conf cfg c (serve_request cfg request) anything s.
Proof.
  intros Hc Ho Hok. destruct request; cbn in Hc; try done; injection Hc as ->; cbn [serve_request];
    first [exfalso; by eapply Ho|apply end_operation_conf, Hok|apply close_conf, Hok|
           eapply conf_discard; first [apply renew_conf, Hok|apply begin_operation_conf, Hok|
             apply page_conf, Hok|apply versions_conf, Hok|apply coverage_conf, Hok|
             by apply (read_conf cfg _ _ (λ i, ListDirectory i _ _))|
             by apply (read_conf cfg _ _ (λ i, InspectEntry i _))|
             by apply (read_conf cfg _ _ (λ i, OpenFile i _))|
             by apply (read_conf cfg _ _ (λ i, OpenEntry i _))|
             by apply (read_conf cfg _ _ InspectRepository)]].
Qed.

Lemma tr_discard {A} (m : Browse A) (Φ : list Entry -> res unit -> BrowseState -> Prop) s :
  tr m (λ l r s', Φ l (match r with Ok _ => Ok tt | Throw e => Throw e end) s') s -> tr (discard m) Φ s.
Proof.
  intros H. apply solo_bind. eapply solo_mono; [|exact H]. cbn. intros l [a|e] s'; cbn; [|done].
  by rewrite app_nil_r.
Qed.

(** What a request of [c] may do, whichever it is. *)
Lemma client_request_keeps request c s :
  config_ok cfg -> browse_ok cfg s -> client request = Some c ->
  tr (serve_request cfg request) (λ l r s', browse_ok cfg s' /\ Forall (own_call c s) l /\
    forall k se, br_sessions s !! k = Some se -> se_caller_bus_name se ≠ c ->
      br_sessions s' !! k = Some se) s.
Proof.
  intros Hcfg Hok Hc.
  assert ((exists identity profile_id, request = AskOpen c identity profile_id) \/
          forall identity profile_id, request ≠ AskOpen c identity profile_id) as [Ho|Ho]
    by (destruct request; naive_solver).
  - destruct Ho as (identity & profile_id & ->). cbn [serve_request]. apply tr_discard.
    eapply solo_mono; [|apply tr_open]. cbn. intros l r s' (? & ? & Hs)%open_keeps; try done.
    split_and!; [done..|]. intros. by apply Hs.
  - eapply solo_mono; [|eapply session_request_conf; [exact Hc|exact Ho|apply Hok]].
    cbn. intros l r s' [[Hr He _ Hot Hl] _]. split_and!; [|done..].
    by eapply renews_ok; [..|apply ejecting_same].
Qed.
End invariant.

Section guarantees.
Context (cfg : BrowseConfig).

Lemma request_keeps request s :
  config_ok cfg -> browse_ok cfg s ->
  tr (serve_request cfg request) (λ _ _ s', browse_ok cfg s') s.
Proof.
  intros Hcfg Hok. destruct (client request) as [c|] eqn:Hc.
  { eapply solo_mono; [|by eapply client_request_keeps]. cbn. naive_solver. }
  pose proof (bo_sessions _ _ Hok) as Hs. pose proof (shrinks_refl (br_sessions s)) as Hrefl.
  destruct request as [| | | | | | | | | | | | |c|p|p|]; try done; cbn [serve_request].
  - eapply solo_mono; [|apply (tr_close_each cfg (λ se, se_caller_bus_name se =? c)%string)]. cbn.
    intros l r s' (_ & [He _] & _ & Hout). eapply renews_ok; [done| |by apply ejecting_same].
    eapply each_out_renews; [done..|]. eapply each_out_impl; [|exact Hout]. cbn. intros k se o Hk.
    apply Hs in Hk. destruct (_ =? _)%string; [by apply closed_kept|]. intros ->. by apply kept_same.
  - eapply solo_mono; [|apply tr_begin_eject]. unfold eject_outcome. cbv beta. intros l r s'.
    destruct (decide _) as [Hp|Hp]; [by intros (_ & -> & _)|]. intros (now & l' & _ & _ & Hout).
    set (pruned := (λ session, prune_expired_leases session now) <$> br_sessions s) in *.
    assert (Hps : shrinks (br_sessions s) pruned).
    { intros k se'. unfold pruned. rewrite lookup_fmap_Some. intros (se & <- & Hk). eauto using prune_same. }
    assert (Hpok : map_Forall (session_ok cfg) pruned).
    { intros k se'. unfold pruned. rewrite lookup_fmap_Some. intros (se & <- & Hk). by apply prune_ok, Hs. }
    destruct (operation_active p pruned).
    { destruct Hout as (_ & Hs' & He & _). eapply renews_ok; [done| |by apply ejecting_same].
      split; by rewrite Hs'. }
    destruct Hout as (_ & Hout). destruct r as [[]|e]; destruct Hout as [He Hout].
    + eapply renews_ok; [done|eapply each_out_renews; [done..|]|].
      * eapply each_out_impl; [|exact Hout]. cbn. intros k se o Hk Ho.
        eapply eject_kept; [by apply Hpok|by left].
      * intros k se q Hk Hq Hnq. rewrite He in Hq. assert (q = p) as -> by set_solver.
        specialize (Hout k). destruct (pruned !! k) as [se0|]; [|congruence]. unfold eject_out in Hout.
        destruct (decide (se_profile_id se0 = p)) as [?|?]; [destruct Hout; congruence|congruence].
    + eapply renews_ok; [done|eapply each_out_renews; [done..|]|by apply ejecting_same].
      eapply each_out_impl; [|exact Hout]. cbn. intros k se o Hk Ho. eapply eject_kept; [by apply Hpok|done].
  - eapply solo_mono; [|apply tr_end_eject]. cbn beta. intros l r s' (_ & _ & Hs' & He & _).
    eapply renews_ok; [done|by split; rewrite Hs'|]. intros k se q _ Hq Hnq. rewrite He in Hq. set_solver.
  - eapply solo_mono; [|apply tr_expire]. cbn beta.
    intros l r s' (_ & [He _] & _ & now & l' & _ & _ & Hout).
    eapply renews_ok; [done| |by apply ejecting_same]. eapply each_out_renews; [done..|].
    eapply each_out_impl; [|exact Hout]. cbn. intros k se o Hk. apply expire_kept. by apply Hs.
Qed.

Lemma requests_keep requests s :
  config_ok cfg -> browse_ok cfg s ->
  tr (serve_requests cfg requests) (λ _ r s', r = Ok tt /\ browse_ok cfg s') s.
Proof.
  intros Hcfg. revert s. induction requests as [|request requests IH]; intros s Hok; [done|].
  cbn [serve_requests]. apply solo_bind, solo_catch. eapply solo_mono; [|by apply request_keeps].
  cbn. intros l [[]|e] s' Hs'; by apply IH.
Qed.

Lemma tr_construct s :
  tr (construct cfg) (λ _ r s', match r with
                                | Ok _ => config_ok cfg /\ s' = mkBrowse ∅ ∅ ∅
                                | Throw _ => s' = s
                                end) s.
Proof.
  unfold construct. destruct (_ || _ || _)%bool eqn:H1; [done|].
  destruct (_ || _ || _ || _)%bool eqn:H2; [done|]. cbn. intros [[]|e] _; cbn; [|done].
  split; [|done]. unfold config_ok.
  rewrite !orb_false_iff, !Z.leb_gt, Z.ltb_ge in H1. rewrite !orb_false_iff, !Nat.eqb_neq, Nat.ltb_ge in H2.
  destruct H1 as [[]], H2 as [[[]]]. split_and!; lia.
Qed.

Lemma empty_ok : browse_ok cfg (mkBrowse ∅ ∅ ∅).
Proof.
  constructor; cbn; [apply map_Forall_empty|rewrite map_size_empty; lia| |apply map_Forall_empty].
  intros c. unfold sessions_of. rewrite map_filter_empty, map_size_empty. lia.
Qed.
End guarantees.

(** ** Theorems *)

Section theorems.
Context {W : Type} (env : @Env BrowseState BrowseOp W) (cfg : BrowseConfig).

(** C23.  Whatever is asked of a new service, and whatever the backend and the authorizer answer:
    there are never more sessions than the limits allow, in all and for one caller, nor more
    leases of a session; no deadline that is stored, of a session or of one of its leases, is
    later than the absolute deadline of the session, however often it is renewed; every session
    is stored under its own identifier; and there is none of a profile whose target is being
    ejected.  (A deadline that has passed takes effect when the timer fires: see [expire_exact]
    and [SessionsExample.expired_session_served].) *)
Theorem browse_sessions_invariant requests w s :
  env_ok clocks_answer eq env ->
  let '(r, s', _) := run env (_ ← construct cfg; serve_requests cfg requests) w s in
  match r with Ok _ => browse_ok cfg s' | Throw _ => s' = s end.
Proof.
  intros Henv. pose proof (solo_run env (_ ← construct cfg; serve_requests cfg requests)
    (λ _ r s', match r with Ok _ => browse_ok cfg s' | Throw _ => s' = s end) w s Henv) as H.
  destruct (run _ _ _ _) as [[r s'] t]. apply H, solo_bind. eapply solo_mono; [|apply tr_construct].
  cbn. intros l [[]|e] s1; [|done]. intros [Hcfg ->].
  eapply solo_mono; [|by apply requests_keep, empty_ok]. cbn. by intros l' r' s2 [-> ?].
Qed.

(** C24.  A client reaches only its own sessions: the backend is called for no other session, and
    the sessions of other callers stay exactly as they were. *)
Theorem callers_isolated request c w s :
  env_ok clocks_answer eq env -> config_ok cfg -> browse_ok cfg s -> client request = Some c ->
  let '(_, s', t) := run env (serve_request cfg request) w s in
  Forall (own_call c s) (calls t) /\
  forall k se, br_sessions s !! k = Some se -> se_caller_bus_name se ≠ c ->
    br_sessions s' !! k = Some se.
Proof.
  intros Henv Hcfg Hok Hc. pose proof (solo_run env _ _ w s Henv
    (client_request_keeps cfg request c s Hcfg Hok Hc)) as H.
  destruct (run _ _ _ _) as [[r s'] t]. cbn in H. tauto.
Qed.

(** A repository is mounted only for a caller that was authorised and active, at the time of
    the request, when the profile is neither being ejected nor settling after an ejection and
    both limits leave room, and under an identifier that was free; the request then answers with
    the session that was stored, or, when the mount fails, with its exception and no session. *)
Theorem open_mounts_authorised c identity profile_id w s :
  env_ok clocks_answer eq env ->
  let '(r, s', t) := run env (open cfg c identity profile_id) w s in
  open_outcome cfg c identity profile_id s (calls t) r s'.
Proof.
  intros Henv. pose proof (solo_run env _ _ w s Henv (tr_open cfg c identity profile_id s)) as H.
  by destruct (run _ _ _ _) as [[r s'] t].
Qed.

(** When the timer fires, a session is kept, less its expired leases, if it is within its
    absolute deadline and has a lease or time left; the mount of every other session, and only
    of those, is closed, and a session whose mount would not close is kept without leases and
    without time, for the next attempt. *)
Theorem expire_exact w s :
  env_ok clocks_answer eq env ->
  let '(r, s', t) := run env (expire cfg) w s in
  r = Ok tt /\
  exists stale now l, calls t = [Did CleanupStale stale; Did SteadyClock (Ok now)] ++ l /\
    Forall (λ e, exists k se, br_sessions s !! k = Some se /\
      alive now (prune_expired_leases se now) = false /\ closing_call se e) l /\
    each_out (λ _ se o, expire_out now se o l) (br_sessions s) (br_sessions s').
Proof.
  intros Henv. pose proof (solo_run env _ _ w s Henv (tr_expire cfg s)) as H.
  destruct (run _ _ _ _) as [[r s'] t]. cbn in H. tauto.
Qed.

(** A caller that left the bus keeps no lease, and every mount it had was asked to close. *)
Theorem caller_left_closes c w s :
  env_ok clocks_answer eq env ->
  let '(r, s', t) := run env (close_for_caller cfg c) w s in
  r = Ok tt /\
  each_out (λ _ se o, if (se_caller_bus_name se =? c)%string then closed_out se o (calls t)
                      else o = Some se) (br_sessions s) (br_sessions s').
Proof.
  intros Henv. pose proof (solo_run env _ _ w s Henv
    (tr_close_each cfg (λ se, se_caller_bus_name se =? c)%string CallerDisconnected s)) as H.
  unfold close_for_caller. destruct (run _ _ _ _) as [[r s'] t]. cbn in H. tauto.
Qed.

(** The destructor asks every mount to close. *)
Theorem shutdown_closes w s :
  env_ok clocks_answer eq env ->
  let '(r, s', t) := run env (shutdown cfg) w s in
  r = Ok tt /\ each_out (λ _ se o, closed_out se o (calls t)) (br_sessions s) (br_sessions s').
Proof.
  intros Henv. pose proof (solo_run env _ _ w s Henv (tr_close_each cfg (λ _, true) Shutdown s)) as H.
  unfold shutdown. change (close_noexcept cfg Shutdown) with
    (λ key session, if true then close_noexcept cfg Shutdown key session else mret tt).
  destruct (run _ _ _ _) as [[r s'] t]. cbn in H. tauto.
Qed.

(** A lease that has time left. *)
Definition leased (now : Z) (se : Session) : Prop :=
  exists lease deadline, se_operation_leases se !! lease = Some deadline /\ now < deadline.

Lemma leased_active p m k se now :
  m !! k = Some se -> se_profile_id se = p -> leased now se ->
  operation_active p ((λ session, prune_expired_leases session now) <$> m) = true.
Proof.
  intros Hk Hp (lease & d & Hl & Hd). apply bool_decide_eq_true. exists k, (prune_expired_leases se now).
  rewrite lookup_fmap, Hk. split; [done|]. destruct se; cbn in *. split; [done|]. intros He.
  assert (filter (λ lease : string * Z, now < lease.2) se_operation_leases0 !! lease = Some d) as Hf
    by by apply map_lookup_filter_Some.
  by rewrite He, lookup_empty in Hf.
Qed.

Lemma ejected_none p m m' l :
  each_out (λ _ se o, eject_out p se o l) m m' ->
  forall k se, m' !! k = Some se -> se_profile_id se ≠ p.
Proof.
  intros H k se Hk Hp. specialize (H k). destruct (m !! k) as [se0|]; [|congruence].
  unfold eject_out in H. destruct (decide _); [destruct H; congruence|congruence].
Qed.

Lemma ejected_each p now m m' l :
  each_out (λ _ se o, eject_out p se o l) ((λ session, prune_expired_leases session now) <$> m) m' ->
  forall k se, m !! k = Some se ->
    if decide (se_profile_id se = p) then Did (CloseMount (se_id se)) (Ok tt) ∈ l
    else m' !! k = Some (prune_expired_leases se now).
Proof.
  intros H k se Hk. specialize (H k). rewrite lookup_fmap, Hk in H.
  cbn [fmap option_fmap option_map] in H. unfold eject_out in H.
  change (se_profile_id (prune_expired_leases se now)) with (se_profile_id se) in H.
  change (se_id (prune_expired_leases se now)) with (se_id se) in H. destruct (decide _); [apply H|done].
Qed.

(** C25.  An ejection that may begin leaves no session of the profile, all of whose mounts were
    closed, and marks the profile so that none can be opened; one that may not begin leaves the
    profile unmarked.  While an operation of the profile holds a lease, the answer is [Busy] and
    nothing is closed. *)
Theorem eject_closes_sessions p w s :
  env_ok clocks_answer eq env -> p ∉ br_ejecting_profiles s ->
  let '(r, s', t) := run env (begin_target_eject cfg p) w s in
  exists now l, calls t = Did SteadyClock (Ok now) :: l /\
  match r with
  | Ok _ => p ∈ br_ejecting_profiles s' /\
            (forall k se, br_sessions s' !! k = Some se -> se_profile_id se ≠ p) /\
            (forall k se, br_sessions s !! k = Some se ->
               if decide (se_profile_id se = p) then Did (CloseMount (se_id se)) (Ok tt) ∈ l
               else br_sessions s' !! k = Some (prune_expired_leases se now))
  | Throw _ => br_ejecting_profiles s' = br_ejecting_profiles s
  end /\
  forall k se, br_sessions s !! k = Some se -> se_profile_id se = p -> leased now se ->
    l = [] /\ br_sessions s' !! k = Some (prune_expired_leases se now) /\
    r = Throw (ManagerOperationError Busy "backup browsing operation is active").
Proof.
  intros Henv Hp. pose proof (solo_run env _ _ w s Henv (tr_begin_eject cfg p s)) as H.
  destruct (run _ _ _ _) as [[r s'] t]. cbn [fst snd] in H. unfold eject_outcome in H.
  destruct (decide _) as [?|_]; [done|]. destruct H as (now & l & Hc & _ & H). exists now, l.
  split; [done|]. split.
  - destruct (operation_active p _); [by destruct H as (_ & _ & He & ->)|].
    destruct H as [_ H]. destruct r as [[]|e]; [|by destruct H]. destruct H as [He Hout].
    rewrite He. split_and!; [set_solver|by eapply ejected_none|by apply ejected_each].
  - intros k se Hk Hse Hl. rewrite (leased_active _ _ _ _ _ Hk Hse Hl) in H.
    destruct H as (-> & Hs & _ & ->). split_and!; [done| |done]. rewrite Hs, lookup_fmap, Hk. done.
Qed.
End theorems.

(** ** Examples *)

Module SessionsExample.

Definition ex_config : BrowseConfig := mkBrowseConfig 900 64 8 64 3600 300 true.

Definition ex_profile : ProfileId := @mkIdent KProfile "laptop" I.
Definition ex_session : BrowseSessionId := @mkIdent KBrowseSession "browse-0a1b" I.

(** Everybody is authorised, and every call takes a second. *)
Definition ex_call X (o : BrowseOp X) (w : Z) : res X * Z :=
  let next := w + ns_per_s in
  match o in BrowseOp X return res X * Z with
  | AskAuthorized _ _ | AskActive _ => (Ok true, next)
  | SteadyClock | WallClock => (Ok (Z.max w 0), next)
  | SessionIds => (Ok ex_session, next)
  | OperationLeaseIds => (Ok "lease-1", next)
  | OpenMount _ _ _ | CloseMount _ | CleanupStale | Notify _ => (Ok tt, next)
  | ListDirectory _ _ _ => (Ok [], next)
  | ListDirectoryPage _ _ _ _ => (Ok (mkPage [] ""), next)
  | ListPreviousVersions _ _ _ _ _ _ => (Ok (mkVersions [] 0 false ""), next)
  | InspectEntry _ _ => (Ok (mkEntry "home" true 0 0 0), next)
  | OpenFile _ _ | OpenEntry _ _ => (Ok 5, next)
  | InspectRepository _ => (Ok "{}", next)
  | ResolveCoverage _ _ => (Ok [], next)
  end.

Definition ex_env : @Env BrowseState BrowseOp Z := mkEnv ex_call (λ w s, (s, w)).

Lemma ex_env_ok : env_ok clocks_answer eq ex_env.
Proof.
  split; [|done]. intros X o w. destruct o; cbn; try done;
    (eexists; split; [done|]; unfold time_point_min; lia).
Qed.

Lemma ex_config_ok : config_ok ex_config.
Proof. unfold config_ok. cbn. lia. Qed.

Definition ex_identity : BrowseAccessIdentity := mkAccess 1000 [1000].

(** A session of ":1.7", opened in the first seconds. *)
Definition ex_state : BrowseState :=
  (run ex_env (discard (open ex_config ":1.7" ex_identity "laptop")) 0 (mkBrowse ∅ ∅ ∅)).1.2.

Lemma ex_state_ok : browse_ok ex_config ex_state.
Proof.
  exact (solo_run ex_env _ _ 0 _ ex_env_ok
    (request_keeps ex_config (AskOpen ":1.7" ex_identity "laptop") _ ex_config_ok (empty_ok ex_config))).
Qed.

Definition ex_requests : list BrowseRequest :=
  [AskOpen ":1.7" ex_identity "laptop"; AskBegin ":1.7" "browse-0a1b"; EjectBegins ex_profile;
   AskEnd ":1.7" "browse-0a1b" "lease-1"; AskFile ":1.9" "browse-0a1b" "notes"; TimerFires].

Lemma browse_sessions_invariant_witness :
  let '(r, s', _) := run ex_env (_ ← construct ex_config; serve_requests ex_config ex_requests) 0
                       (mkBrowse ∅ ∅ ∅) in
  match r with Ok _ => browse_ok ex_config s' | Throw _ => s' = mkBrowse ∅ ∅ ∅ end.
Proof. exact (browse_sessions_invariant ex_env ex_config ex_requests 0 (mkBrowse ∅ ∅ ∅) ex_env_ok). Defined.

(** The requests above leave the session, unmarked. *)
Example ex_requests_result :
  let s' := (run ex_env (_ ← construct ex_config; serve_requests ex_config ex_requests) 0
               (mkBrowse ∅ ∅ ∅)).1.2 in
  (size (br_sessions s'), bool_decide (ex_profile ∈ br_ejecting_profiles s')) = (1%nat, false).
Proof. vm_compute. reflexivity. Qed.

(** Another caller, on the session of ":1.7". *)
Lemma callers_isolated_witness :
  client (AskFile ":1.9" "browse-0a1b" "notes") = Some ":1.9" /\
  let '(_, s', t) := run ex_env (serve_request ex_config (AskFile ":1.9" "browse-0a1b" "notes")) 0 ex_state in
  Forall (own_call ":1.9" ex_state) (calls t) /\
  forall k se, br_sessions ex_state !! k = Some se -> se_caller_bus_name se ≠ ":1.9" ->
    br_sessions s' !! k = Some se.
Proof.
  split; [reflexivity|].
  exact (callers_isolated ex_env ex_config (AskFile ":1.9" "browse-0a1b" "notes") ":1.9" 0 ex_state
    ex_env_ok ex_config_ok ex_state_ok eq_refl).
Defined.

Lemma open_mounts_authorised_witness :
  let '(r, s', t) := run ex_env (open ex_config ":1.7" ex_identity "laptop") 0 (mkBrowse ∅ ∅ ∅) in
  open_outcome ex_config ":1.7" ex_identity "laptop" (mkBrowse ∅ ∅ ∅) (calls t) r s'.
Proof.
  exact (open_mounts_authorised ex_env ex_config ":1.7" ex_identity "laptop" 0 (mkBrowse ∅ ∅ ∅) ex_env_ok).
Defined.

Example ex_open_result :
  ((run ex_env (open ex_config ":1.7" ex_identity "laptop") 0 (mkBrowse ∅ ∅ ∅)).1.1)
  = Ok (mkSessionInfo "browse-0a1b" "laptop" "1970-01-01T00:15:07Z" true).
Proof. vm_compute. reflexivity. Qed.

(** An hour later. *)
Lemma expire_exact_witness :
  let '(r, s', t) := run ex_env (expire ex_config) (4000 * ns_per_s) ex_state in
  r = Ok tt /\
  exists stale now l, calls t = [Did CleanupStale stale; Did SteadyClock (Ok now)] ++ l /\
    Forall (λ e, exists k se, br_sessions ex_state !! k = Some se /\
      alive now (prune_expired_leases se now) = false /\ closing_call se e) l /\
    each_out (λ _ se o, expire_out now se o l) (br_sessions ex_state) (br_sessions s').
Proof. exact (expire_exact ex_env ex_config (4000 * ns_per_s) ex_state ex_env_ok). Defined.

Example ex_expire_result :
  size (br_sessions ((run ex_env (expire ex_config) (4000 * ns_per_s) ex_state).1.2)) = 0%nat.
Proof. vm_compute. reflexivity. Qed.

(** Until the timer fires a session is served whatever its deadlines say: past its absolute
    deadline, an hour after it was opened, it still lists a directory. *)
Example expired_session_served :
  let late := 3625 * ns_per_s in
  let '(r, s', t) := run ex_env (browse_directory ex_config ":1.7" "browse-0a1b" "" 10) late ex_state in
  match br_sessions ex_state !! "browse-0a1b" with
  | Some se => (se_absolute_deadline se <? late) = true
  | None => False
  end /\ is_ok r = true /\ existsb (λ e, match e with Did (ListDirectory _ _ _) _ => true | _ => false end) (calls t) = true.
Proof. vm_compute. done. Qed.

Lemma eject_closes_sessions_witness :
  (ex_profile ∉ br_ejecting_profiles ex_state) /\
  let '(r, s', t) := run ex_env (begin_target_eject ex_config ex_profile) 0 ex_state in
  exists now l, calls t = Did SteadyClock (Ok now) :: l /\
  match r with
  | Ok _ => ex_profile ∈ br_ejecting_profiles s' /\
            (forall k se, br_sessions s' !! k = Some se -> se_profile_id se ≠ ex_profile) /\
            (forall k se, br_sessions ex_state !! k = Some se ->
               if decide (se_profile_id se = ex_profile) then Did (CloseMount (se_id se)) (Ok tt) ∈ l
               else br_sessions s' !! k = Some (prune_expired_leases se now))
  | Throw _ => br_ejecting_profiles s' = br_ejecting_profiles ex_state
  end /\
  forall k se, br_sessions ex_state !! k = Some se -> se_profile_id se = ex_profile -> leased now se ->
    l = [] /\ br_sessions s' !! k = Some (prune_expired_leases se now) /\
    r = Throw (ManagerOperationError Busy "backup browsing operation is active").
Proof.
  assert (Hb : bool_decide (ex_profile ∉ br_ejecting_profiles ex_state) = true) by (vm_compute; reflexivity).
  assert (H : ex_profile ∉ br_ejecting_profiles ex_state) by by apply bool_decide_eq_true in Hb.
  split; [exact H|].
  exact (eject_closes_sessions ex_env ex_config ex_profile 0 ex_state ex_env_ok H).
Defined.

End SessionsExample.
