(* ===== verification/BrowseAccess.v ===== *)
(** * Access to a browsed repository (src/daemon/control/StoredPermissionEvaluator,
      BrowseFilesystemAccess)

    The daemon is root: it evaluates modes and access control lists for its caller before it
    opens a directory or a file of the mounted repository for it.  The mount is read-only, so
    what the system answers about it is a function; any call may fail. *)

From S2P Require Import Prelude Errors Identifiers RuntimeTime FsPath ConfigDomain Interaction.
From S2P Require Import FileSystem BrowsePages BrowseSessions.

Open Scope Z_scope.

(** ** Stored permissions *)

Inductive AclTag := ACL_USER_OBJ | ACL_USER | ACL_GROUP_OBJ | ACL_GROUP | ACL_MASK | ACL_OTHER | ACL_UNDEFINED.

Global Instance AclTag_eq_dec : EqDecision AclTag.
Proof. solve_decision. Defined.

(** What libacl answers about an entry: the tag, if tag and permission set can be read, the three
    answers of [acl_get_perm], the qualifier and the error number it leaves. *)
Record AclEntry := mkAcl {
  ae_tag : option AclTag;
  ae_read : Z;
  ae_write : Z;
  ae_execute : Z;
  ae_qualifier : option Z;
  ae_errno : Z;
}.

(** The list, or the error of [acl_get_fd]; [al_error] is the error that ended the enumeration. *)
Record AclList := mkAclList { al_entries : list AclEntry; al_error : option Z }.
Definition AclAnswer : Type := Z + AclList.

Abbreviation ENOSYS := 38.
Abbreviation EOPNOTSUPP := 95.

(** src/daemon/control/StoredPermissionEvaluator.cpp:20-22 *)
Definition permission_error {A} (error_number : Z) (operation : string) : res A :=
  Throw (SystemError error_number operation).

(** src/daemon/control/StoredPermissionEvaluator.cpp:34-36 *)
Definition contains_group (identity : BrowseAccessIdentity) (group : Z) : bool :=
  bool_decide (group ∈ ba_groups identity).

(** src/daemon/control/StoredPermissionEvaluator.cpp:38-45 *)
Definition acl_permissions (entry : AclEntry) : res Z :=
  if (ae_read entry <? 0) || (ae_write entry <? 0) || (ae_execute entry <? 0)
  then permission_error (ae_errno entry) "cannot read stored POSIX ACL permissions"
  else Ok (Z.lor (Z.lor (if ae_read entry =? 1 then 4 else 0) (if ae_write entry =? 1 then 2 else 0))
             (if ae_execute entry =? 1 then 1 else 0)).

(** src/daemon/control/StoredPermissionEvaluator.cpp:47-53 *)
Definition mode_permissions (status : NodeStat) (identity : BrowseAccessIdentity) : Z :=
  if st_uid status =? ba_uid identity then Z.land (Z.shiftr (st_mode status) 6) 7
  else if contains_group identity (st_gid status) then Z.land (Z.shiftr (st_mode status) 3) 7
  else Z.land (st_mode status) 7.

(** The variables of the loop. *)
Record AclScan := mkScan {
  as_owner : Z;
  as_named_user : Z;
  as_matching_groups : Z;
  as_group_matched : bool;
  as_other : Z;
  as_mask : Z;
}.

Global Instance eta_AclScan : Eta AclScan := λ s,
  mkScan (as_owner s) (as_named_user s) (as_matching_groups s) (as_group_matched s) (as_other s) (as_mask s).

Definition match_group (value : Z) (scan : AclScan) : AclScan :=
  scan <| as_matching_groups := Z.lor (as_matching_groups scan) value |> <| as_group_matched := true |>.

(** The body of the loop.
    src/daemon/control/StoredPermissionEvaluator.cpp:71-105 *)
Definition scan_entry (status : NodeStat) (identity : BrowseAccessIdentity) (scan : AclScan)
    (entry : AclEntry) : res AclScan :=
  match ae_tag entry with
  | None => permission_error (ae_errno entry) "cannot read stored POSIX ACL entry"
  | Some tag =>
      value ← acl_permissions entry;
      match tag with
      | ACL_USER_OBJ => Ok (scan <| as_owner := value |>)
      | ACL_USER =>
          match ae_qualifier entry with
          | None => permission_error (ae_errno entry) "cannot read stored POSIX ACL user"
          | Some uid => Ok (if uid =? ba_uid identity then scan <| as_named_user := value |> else scan)
          end
      | ACL_GROUP_OBJ =>
          Ok (if contains_group identity (st_gid status) then match_group value scan else scan)
      | ACL_GROUP =>
          match ae_qualifier entry with
          | None => permission_error (ae_errno entry) "cannot read stored POSIX ACL group"
          | Some gid => Ok (if contains_group identity gid then match_group value scan else scan)
          end
      | ACL_MASK => Ok (scan <| as_mask := value |>)
      | ACL_OTHER => Ok (scan <| as_other := value |>)
      | ACL_UNDEFINED => Ok scan
      end
  end.

Fixpoint scan_entries (status : NodeStat) (identity : BrowseAccessIdentity) (entries : list AclEntry)
    (scan : AclScan) : res AclScan :=
  match entries with
  | [] => Ok scan
  | entry :: entries => scan ← scan_entry status identity scan entry; scan_entries status identity entries scan
  end.

(** src/daemon/control/StoredPermissionEvaluator.cpp:55-114 *)
Definition effective_permissions (acl : AclAnswer) (status : NodeStat) (identity : BrowseAccessIdentity)
    : res Z :=
  match acl with
  | inl e =>
      if (e =? EOPNOTSUPP) || (e =? ENOSYS) then Ok (mode_permissions status identity)
      else permission_error e "cannot read stored POSIX ACL"
  | inr list =>
      scan ← scan_entries status identity (al_entries list) (mkScan (-1) (-1) 0 false 0 7);
      match al_error list with
      | Some e => permission_error e "cannot enumerate stored POSIX ACL"
      | None =>
          Ok (if st_uid status =? ba_uid identity
              then if 0 <=? as_owner scan then as_owner scan else mode_permissions status identity
              else if 0 <=? as_named_user scan then Z.land (as_named_user scan) (as_mask scan)
              else if as_group_matched scan then Z.land (as_matching_groups scan) (as_mask scan)
              else as_other scan)
      end
  end.

(** The node a descriptor is open on, as the system describes it. *)
Record NodeView := mkView { nv_stat : Z + NodeStat; nv_acl : AclAnswer }.

(** [identity] is [None] for the null pointer.
    src/daemon/control/StoredPermissionEvaluator.cpp:118-131 *)
Definition require_access (view : NodeView) (identity : option BrowseAccessIdentity) (required : Z)
    (operation : string) : res unit :=
  match identity with
  | None => Ok tt
  | Some identity =>
      if ba_uid identity =? 0 then Ok tt
      else
        match nv_stat view with
        | inl e => permission_error e "cannot inspect browse permissions"
        | inr status =>
            permissions ← effective_permissions (nv_acl view) status identity;
            if Z.land permissions required =? required then Ok tt
            else Throw (ManagerOperationError NotAuthorized operation)
        end
  end.

(** ** What the kernel would decide *)

Definition entry_value (entry : AclEntry) : Z :=
  Z.lor (Z.lor (if ae_read entry =? 1 then 4 else 0) (if ae_write entry =? 1 then 2 else 0))
    (if ae_execute entry =? 1 then 1 else 0).

Definition grants (permissions want : Z) : bool := Z.land permissions want =? want.

Definition has_tag (tag : AclTag) (entry : AclEntry) : Prop :=
  ae_tag entry = Some tag /\ 0 <= ae_read entry /\ 0 <= ae_write entry /\ 0 <= ae_execute entry /\
  (tag = ACL_USER \/ tag = ACL_GROUP -> is_Some (ae_qualifier entry)).

(** The mask that follows an entry bounds it. *)
Definition masked (want : Z) (entry : AclEntry) (rest : list AclEntry) : bool :=
  match List.find (λ e, bool_decide (ae_tag e = Some ACL_MASK)) rest with
  | Some mask => grants (Z.land (entry_value entry) (entry_value mask)) want
  | None => grants (entry_value entry) want
  end.

(** The walk of the kernel over a list ([posix_acl_permission]): the entry of the owner, of the
    named user, one entry of a group that alone grants what is wanted, or the others. *)
Fixpoint kernel_walk (want : Z) (status : NodeStat) (identity : BrowseAccessIdentity)
    (entries : list AclEntry) (found : bool) : bool :=
  match entries with
  | [] => false
  | entry :: rest =>
      let group (member : bool) :=
        if member then
          if grants (entry_value entry) want then masked want entry rest
          else kernel_walk want status identity rest true
        else kernel_walk want status identity rest found in
      match ae_tag entry with
      | Some ACL_USER_OBJ =>
          if st_uid status =? ba_uid identity then grants (entry_value entry) want
          else kernel_walk want status identity rest found
      | Some ACL_USER =>
          if bool_decide (ae_qualifier entry = Some (ba_uid identity)) then masked want entry rest
          else kernel_walk want status identity rest found
      | Some ACL_GROUP_OBJ => group (contains_group identity (st_gid status))
      | Some ACL_GROUP =>
          group (match ae_qualifier entry with Some gid => contains_group identity gid | None => false end)
      | Some ACL_OTHER => if found then false else grants (entry_value entry) want
      | _ => kernel_walk want status identity rest found
      end
  end.

(** A list the kernel accepts: the owner, named users, the group, named groups, a mask and the
    others; no user is named twice.  (The mask is there whenever anything is named.) *)
Record acl_valid (entries : list AclEntry) (owner : AclEntry) (users : list AclEntry) (group : AclEntry)
    (groups : list AclEntry) (mask : option AclEntry) (other : AclEntry) : Prop := {
  av_entries : entries = owner :: users ++ group :: groups ++ option_list mask ++ [other];
  av_owner : has_tag ACL_USER_OBJ owner;
  av_users : Forall (has_tag ACL_USER) users;
  av_group : has_tag ACL_GROUP_OBJ group;
  av_groups : Forall (has_tag ACL_GROUP) groups;
  av_mask : forall m, mask = Some m -> has_tag ACL_MASK m;
  av_other : has_tag ACL_OTHER other;
  av_distinct : NoDup (ae_qualifier <$> users);
}.

Definition single_bit (want : Z) : Prop := want = 1 \/ want = 2 \/ want = 4.

Lemma entry_value_nonneg e : (0 <=? entry_value e) = true.
Proof. unfold entry_value. by destruct (ae_read e =? 1), (ae_write e =? 1), (ae_execute e =? 1). Qed.

Lemma tag_value tag e : has_tag tag e -> acl_permissions e = Ok (entry_value e).
Proof.
  intros (_ & Hr & Hw & Hx & _). unfold acl_permissions.
  rewrite (proj2 (Z.ltb_ge _ _) Hr), (proj2 (Z.ltb_ge _ _) Hw), (proj2 (Z.ltb_ge _ _) Hx). done.
Qed.

Lemma grants_bit k : 0 <= k -> forall v, grants v (2 ^ k) = Z.testbit v k.
Proof.
  intros Hk v. unfold grants. apply eq_iff_eq_true. rewrite Z.eqb_eq. split.
  - intros H. apply (f_equal (λ z, Z.testbit z k)) in H.
    rewrite Z.land_spec, Z.pow2_bits_true, andb_true_r in H by done. done.
  - intros H. apply Z.bits_inj'. intros n Hn. rewrite Z.land_spec.
    destruct (decide (n = k)) as [->|Hne]; [by rewrite H, Z.pow2_bits_true|].
    rewrite Z.pow2_bits_false by lia. apply andb_false_r.
Qed.

Lemma single_bit_grants want : single_bit want -> exists k, forall v, grants v want = Z.testbit v k.
Proof.
  intros [->|[->| ->]]; [exists 0|exists 1|exists 2]; intros v.
  - by apply (grants_bit 0).
  - by apply (grants_bit 1).
  - by apply (grants_bit 2).
Qed.

Lemma grants_land a b want : single_bit want -> grants (Z.land a b) want = grants a want && grants b want.
Proof. intros (k & Hk)%single_bit_grants. rewrite !Hk. apply Z.land_spec. Qed.

Lemma grants_lor a b want : single_bit want -> grants (Z.lor a b) want = grants a want || grants b want.
Proof. intros (k & Hk)%single_bit_grants. rewrite !Hk. apply Z.lor_spec. Qed.

Lemma grants_zero want : single_bit want -> grants 0 want = false.
Proof. by intros [->|[->| ->]]. Qed.

Section scan.
Context (status : NodeStat) (identity : BrowseAccessIdentity).

Lemma scan_app l1 l2 scan :
  scan_entries status identity (l1 ++ l2) scan
  = (scan' ← scan_entries status identity l1 scan; scan_entries status identity l2 scan').
Proof.
  revert scan. induction l1 as [|e l1 IH]; intros scan; [done|]. cbn.
  destruct (scan_entry _ _ _ _); cbn; [apply IH|done].
Qed.

Definition named (e : AclEntry) : bool := bool_decide (ae_qualifier e = Some (ba_uid identity)).
Definition member (e : AclEntry) : bool :=
  match ae_qualifier e with Some gid => contains_group identity gid | None => false end.

(** Named users: at most one is the caller. *)
Lemma scan_users users scan :
  Forall (has_tag ACL_USER) users -> NoDup (ae_qualifier <$> users) ->
  exists v, scan_entries status identity users scan = Ok (scan <| as_named_user := v |>) /\
    match List.find named users with
    | Some e => v = entry_value e
    | None => v = as_named_user scan
    end.
Proof.
  revert scan. induction users as [|e users IH]; intros scan Hall Hnd.
  - exists (as_named_user scan). by destruct scan.
  - apply Forall_cons in Hall as [He Hall]. apply NoDup_cons in Hnd as [Hnin Hnd].
    cbn [scan_entries]. unfold scan_entry. rewrite (tag_value _ _ He).
    destruct He as (-> & _ & _ & _ & Hq). destruct (Hq (or_introl eq_refl)) as [uid Huid].
    rewrite Huid. cbn. unfold named at 1. rewrite Huid.
    destruct (decide (uid = ba_uid identity)) as [->|Hne].
    + rewrite Z.eqb_refl, bool_decide_eq_true_2 by done.
      destruct (IH (scan <| as_named_user := entry_value e |>) Hall Hnd) as (v & Hs & Hv).
      exists v. cbn in Hs. rewrite Hs. split; [done|].
      destruct (List.find named users) as [e'|] eqn:Hf; [|by rewrite Hv; destruct scan].
      apply find_some in Hf as [Hl Hn%bool_decide_eq_true]. destruct Hnin.
      rewrite Huid, <-Hn. by apply list_elem_of_fmap_2, list_elem_of_In.
    + rewrite (proj2 (Z.eqb_neq _ _)) by done. rewrite bool_decide_eq_false_2 by congruence.
      apply (IH scan Hall Hnd).
Qed.

(** Named groups: all that the caller is in count together. *)
Lemma scan_groups groups scan want :
  Forall (has_tag ACL_GROUP) groups -> single_bit want ->
  exists v, scan_entries status identity groups scan
      = Ok (scan <| as_matching_groups := v |>
                 <| as_group_matched := as_group_matched scan || existsb member groups |>) /\
    grants v want = grants (as_matching_groups scan) want
                    || existsb (λ e, member e && grants (entry_value e) want) groups.
Proof.
  intros Hall Hw. revert scan. induction Hall as [|e groups He Hall IH]; intros scan.
  - exists (as_matching_groups scan). cbn. rewrite !orb_false_r. by destruct scan.
  - cbn [scan_entries]. unfold scan_entry. rewrite (tag_value _ _ He).
    destruct He as (-> & _ & _ & _ & Hq). destruct (Hq (or_intror eq_refl)) as [gid Hgid].
    assert (member e = contains_group identity gid) as Hmem by (unfold member; by rewrite Hgid).
    rewrite Hgid. cbn. rewrite Hmem. destruct (contains_group identity gid); cbn.
    + destruct (IH (match_group (entry_value e) scan)) as (v & -> & Hv). exists v.
      split; [destruct scan; cbn; f_equal; by rewrite orb_true_r|]. rewrite Hv. destruct scan. cbn.
      by rewrite grants_lor, orb_assoc.
    + apply IH.
Qed.

Context (want : Z) (Hwant : single_bit want).

(** What follows an entry up to the mask does not matter. *)
Lemma masked_skip tag e l rest :
  Forall (has_tag tag) l -> tag ≠ ACL_MASK -> masked want e (l ++ rest) = masked want e rest.
Proof.
  intros Hl Hne. unfold masked. induction Hl as [|x l [Hx _] Hl IH]; [done|]. cbn.
  rewrite Hx, bool_decide_eq_false_2 by congruence. exact IH.
Qed.

Lemma walk_users users rest found :
  Forall (has_tag ACL_USER) users ->
  kernel_walk want status identity (users ++ rest) found =
  match List.find named users with
  | Some e => masked want e rest
  | None => kernel_walk want status identity rest found
  end.
Proof.
  induction 1 as [|e users He Hall IH]; [done|]. cbn. destruct He as (-> & _).
  change (bool_decide (ae_qualifier e = Some (ba_uid identity))) with (named e).
  destruct (named e); [|exact IH]. by eapply masked_skip.
Qed.

(** The bits a mask leaves. *)
Definition mask_grants (mask : option AclEntry) : bool :=
  match mask with Some m => grants (entry_value m) want | None => true end.

Lemma masked_rest mask other e :
  (forall m, mask = Some m -> has_tag ACL_MASK m) -> has_tag ACL_OTHER other ->
  masked want e (option_list mask ++ [other]) = grants (entry_value e) want && mask_grants mask.
Proof.
  intros Hm [Ho _]. unfold masked, mask_grants. destruct mask as [m|]; cbn.
  - destruct (Hm m eq_refl) as [-> _]. rewrite bool_decide_eq_true_2 by done. by apply grants_land.
  - rewrite Ho, bool_decide_eq_false_2 by done. by rewrite andb_true_r.
Qed.

Lemma walk_rest mask other found :
  (forall m, mask = Some m -> has_tag ACL_MASK m) -> has_tag ACL_OTHER other ->
  kernel_walk want status identity (option_list mask ++ [other]) found
  = negb found && grants (entry_value other) want.
Proof.
  intros Hm [Ho _]. destruct mask as [m|]; cbn; [destruct (Hm m eq_refl) as [-> _]|];
    rewrite Ho; by destruct found.
Qed.

Definition group_grants (e : AclEntry) : bool := member e && grants (entry_value e) want.

Lemma walk_groups groups mask other found :
  Forall (has_tag ACL_GROUP) groups -> (forall m, mask = Some m -> has_tag ACL_MASK m) ->
  has_tag ACL_OTHER other ->
  kernel_walk want status identity (groups ++ option_list mask ++ [other]) found =
  if existsb group_grants groups then mask_grants mask
  else negb (found || existsb member groups) && grants (entry_value other) want.
Proof.
  intros Hall Hm Ho. revert found. induction Hall as [|e groups He Hall IH]; intros found; cbn.
  - by rewrite walk_rest, orb_false_r.
  - destruct He as (Ht & _ & _ & _ & Hq). rewrite Ht. unfold group_grants at 1.
    destruct (Hq (or_intror eq_refl)) as [gid Hgid].
    assert (member e = contains_group identity gid) as -> by (unfold member; by rewrite Hgid).
    rewrite Hgid. destruct (contains_group identity gid); cbn; [|apply IH].
    destruct (grants (entry_value e) want) eqn:Hg; cbn.
    + rewrite (masked_skip ACL_GROUP), masked_rest by done. by rewrite Hg.
    + rewrite IH. by rewrite orb_true_r.
Qed.
End scan.

Section valid.
Context (status : NodeStat) (identity : BrowseAccessIdentity) (want : Z).
Context (entries : list AclEntry) (owner : AclEntry) (users : list AclEntry) (group : AclEntry).
Context (groups : list AclEntry) (mask : option AclEntry) (other : AclEntry).
Context (Hvalid : acl_valid entries owner users group groups mask other) (Hwant : single_bit want).

Definition in_group : bool := contains_group identity (st_gid status).
Definition any_member : bool := in_group || existsb (member identity) groups.
Definition any_grants : bool :=
  in_group && grants (entry_value group) want || existsb (group_grants identity want) groups.

Lemma scan_valid :
  exists sc, scan_entries status identity entries (mkScan (-1) (-1) 0 false 0 7) = Ok sc /\
    as_owner sc = entry_value owner /\ as_other sc = entry_value other /\
    as_named_user sc = match List.find (named identity) users with
                       | Some e => entry_value e | None => -1 end /\
    grants (as_mask sc) want = mask_grants want mask /\
    as_group_matched sc = any_member /\ grants (as_matching_groups sc) want = any_grants.
Proof.
  destruct Hvalid as [-> Ho Hu Hg Hgs Hm Hx Hnd].
  cbn [scan_entries]. unfold scan_entry at 1. rewrite (tag_value _ _ Ho), (proj1 Ho). cbn.
  rewrite scan_app. destruct (scan_users status identity users
    (mkScan (entry_value owner) (-1) 0 false 0 7) Hu Hnd) as (v & -> & Hv). cbn.
  unfold scan_entry at 1. rewrite (tag_value _ _ Hg), (proj1 Hg). cbn.
  fold in_group. set (sc1 := if in_group then _ else _).
  rewrite scan_app. destruct (scan_groups status identity groups sc1 want Hgs Hwant) as (g & -> & Hgr). cbn.
  assert (Hsc1 : sc1 = mkScan (entry_value owner) v (if in_group then entry_value group else 0)
                         in_group 0 7) by (unfold sc1, match_group; by destruct in_group).
  rewrite Hsc1 in *. cbn in *. clear sc1 Hsc1.
  assert (Hgv : grants g want = any_grants).
  { rewrite Hgr. unfold any_grants. destruct in_group; [done|]. by rewrite grants_zero. }
  assert (Hv' : v = match List.find (named identity) users with Some e => entry_value e | None => -1 end)
    by by destruct (List.find _ _).
  destruct mask as [m|]; cbn; unfold scan_entry.
  - pose proof (Hm m eq_refl) as Hmt. rewrite (tag_value _ _ Hmt), (proj1 Hmt). cbn.
    rewrite (tag_value _ _ Hx), (proj1 Hx). cbn. eexists. by split_and!.
  - rewrite (tag_value _ _ Hx), (proj1 Hx). cbn. eexists. split_and!; try done. cbn.
    by destruct Hwant as [->|[->| ->]].
Qed.

Lemma walk_valid :
  kernel_walk want status identity entries false =
  if st_uid status =? ba_uid identity then grants (entry_value owner) want
  else match List.find (named identity) users with
       | Some e => grants (entry_value e) want && mask_grants want mask
       | None => if any_grants then mask_grants want mask
                 else negb any_member && grants (entry_value other) want
       end.
Proof.
  destruct Hvalid as [-> Ho Hu Hg Hgs Hm Hx Hnd]. cbn. rewrite (proj1 Ho).
  destruct (_ =? _); [done|]. rewrite walk_users by done.
  assert (Hmasked : forall e, masked want e (group :: groups ++ option_list mask ++ [other])
    = grants (entry_value e) want && mask_grants want mask).
  { intros e. etrans; [by apply (masked_skip want ACL_GROUP_OBJ e [group]); [constructor|]|].
    rewrite (masked_skip want ACL_GROUP e groups) by done. by apply masked_rest. }
  destruct (List.find _ _) as [e|]; [apply Hmasked|]. cbn. rewrite (proj1 Hg).
  fold in_group. rewrite !walk_groups by done. unfold any_grants, any_member.
  destruct in_group; cbn; [|done].
  destruct (grants (entry_value group) want) eqn:Hgg; cbn; [|done].
  rewrite (masked_skip want ACL_GROUP group groups), masked_rest by done. by rewrite Hgg.
Qed.
End valid.

(** C30.  The daemon decides for its caller what the kernel would decide: for each of reading,
    writing and searching, the permissions it computes from a stored access control list grant it
    exactly when the kernel's walk over the list does. *)
Theorem effective_permissions_kernel status identity want entries owner users group groups mask other :
  acl_valid entries owner users group groups mask other -> single_bit want ->
  exists permissions,
    effective_permissions (inr (mkAclList entries None)) status identity = Ok permissions /\
    grants permissions want = kernel_walk want status identity entries false.
Proof.
  intros Hv Hw. destruct (scan_valid status identity want _ _ _ _ _ _ _ Hv Hw)
    as (sc & Hs & Ho & Hx & Hn & Hm & Hg & Hgr).
  rewrite (walk_valid status identity want _ _ _ _ _ _ _ Hv Hw).
  cbn [effective_permissions al_entries al_error]. rewrite Hs. cbn. eexists. split; [done|].
  rewrite Ho, Hn, Hg, Hx, entry_value_nonneg.
  destruct (st_uid status =? ba_uid identity); [done|]. destruct (List.find _ _) as [e|].
  - rewrite entry_value_nonneg. by rewrite grants_land, Hm.
  - cbn. destruct (any_member _ _ groups) eqn:Ha.
    + rewrite grants_land, Hgr, Hm by done. cbn. by destruct (any_grants _ _ _ _ _).
    + cbn. destruct (any_grants _ _ _ _ _) eqn:Hag; [|done].
      exfalso. revert Ha Hag. unfold any_member, any_grants. rewrite orb_false_iff. intros [-> Hno]. cbn.
      rewrite existsb_exists. intros (e & He & [Hmem _]%andb_true_iff).
      assert (existsb (member identity) groups = true) by (apply existsb_exists; eauto). congruence.
Qed.

(** ** Opening entries of the mounted repository *)

(** The flags of [openat] here: a directory to read, a path only, a file to read.  Each comes with
    [O_NOFOLLOW] and [O_CLOEXEC]. *)
Inductive OpenFlags := ReadDirectory | PathOnly | ReadFile | PathDirectory.

(** What the system answers about the mounted repository; [D] are the nodes descriptors are on. *)
Record Mount (D : Type) := mkMount {
  mt_open : path -> OpenFlags -> Z + D;
  mt_openat : D -> string -> OpenFlags -> Z + D;
  mt_node : D -> NodeView;
  mt_dup : D -> Z + unit;
  mt_fdopendir : D -> Z + OpenDirectory;
}.
Arguments mkMount {D} _ _ _ _ _.
Arguments mt_open {D} _ _ _.
Arguments mt_openat {D} _ _ _ _.
Arguments mt_node {D} _ _.
Arguments mt_dup {D} _ _.
Arguments mt_fdopendir {D} _ _.

Section access.
Context {D : Type} (mount : Mount D).

Definition opened (operation : string) (answer : Z + D) : res D :=
  match answer with inl e => path_error operation e | inr d => Ok d end.

(** The loop over the components but the last.
    src/daemon/control/BrowseFilesystemAccess.cpp:59-68 *)
Fixpoint open_parents (current : D) (components : list string) : res D :=
  match components with
  | [] => Ok current
  | component :: components =>
      next ← opened "cannot traverse browse entry" (mt_openat mount current component ReadDirectory);
      open_parents next components
  end.

(** src/daemon/control/BrowseFilesystemAccess.cpp:48-77 *)
Definition open_beneath (root : D) (relative : path) (final_flags : OpenFlags) : res D :=
  current ← opened "cannot open browse root" (mt_openat mount root "." ReadDirectory);
  components ← validated_components relative;
  if bool_decide (components = [])
  then opened "cannot open browse entry" (mt_openat mount current "." final_flags)
  else
    current ← open_parents current (removelast components);
    opened "cannot open browse entry" (mt_openat mount current (List.last components "") final_flags).

(** src/daemon/control/BrowseFilesystemAccess.cpp:79-84 *)
Definition session_root (root : path) : res D :=
  opened "cannot open browse session view" (mt_open mount root ReadDirectory).

Definition search_denied : string := "stored directory permissions deny traversal".

(** The loop of [open_authorized_directory].
    src/daemon/control/BrowseFilesystemAccess.cpp:101-116 *)
Fixpoint authorized_walk (identity : option BrowseAccessIdentity) (current : D) (components : list string)
    : res D :=
  match components with
  | [] => Ok current
  | component :: components =>
      next ← opened "cannot traverse browse entry" (mt_openat mount current component ReadDirectory);
      _ ← require_access (mt_node mount next) identity 1 search_denied;
      authorized_walk identity next components
  end.

(** src/daemon/control/BrowseFilesystemAccess.cpp:86-124 *)
Definition open_authorized_directory (root : D) (relative : path) (identity : option BrowseAccessIdentity)
    (final_permissions : Z) : res D :=
  current ← opened "cannot open browse root" (mt_openat mount root "." ReadDirectory);
  _ ← require_access (mt_node mount current) identity 1 search_denied;
  components ← validated_components relative;
  current ← authorized_walk identity current components;
  _ ← require_access (mt_node mount current) identity final_permissions
        "stored directory permissions deny listing";
  Ok current.

(** src/daemon/control/BrowseFilesystemAccess.cpp:133-144 *)
Definition directory_stream (d : D) : res OpenDirectory :=
  match mt_dup mount d with
  | inl e => path_error "cannot duplicate browse directory" e
  | inr _ =>
      match mt_fdopendir mount d with
      | inl e => path_error "cannot open browse directory stream" e
      | inr stream => Ok stream
      end
  end.

(** src/daemon/control/BrowseFilesystemAccess.cpp:170-198 *)
Definition access_list_directory (root relative_path : path) (maximum_entries : nat)
    (identity : option BrowseAccessIdentity) : res (list BrowseEntryInfo) :=
  root_descriptor ← session_root root;
  directory ← open_authorized_directory root_descriptor relative_path identity 5;
  stream ← directory_stream directory;
  list_directory stream maximum_entries.

(** src/daemon/control/BrowseFilesystemAccess.cpp:200-226 *)
Definition access_list_directory_page (root relative_path : path) (after_name : string)
    (maximum_entries : nat) (identity : option BrowseAccessIdentity) : res BrowseDirectoryPage :=
  root_descriptor ← session_root root;
  directory ← open_authorized_directory root_descriptor relative_path identity 5;
  stream ← directory_stream directory;
  list_directory_page stream after_name maximum_entries.

(** [parent.empty() ? fs::path{"."} : parent] *)
Definition parent_or_dot (relative_path : path) : path :=
  let parent := parent_path relative_path in if str_empty parent then "." else parent.

Definition stat_of (d : D) (operation : string) : res NodeStat :=
  match nv_stat (mt_node mount d) with inl e => path_error operation e | inr status => Ok status end.

(** src/daemon/control/BrowseFilesystemAccess.cpp:228-249 *)
Definition access_inspect_entry (root relative_path : path) (identity : option BrowseAccessIdentity)
    : res BrowseEntryInfo :=
  root_descriptor ← session_root root;
  _ ← open_authorized_directory root_descriptor (parent_or_dot relative_path) identity 1;
  entry ← open_beneath root_descriptor relative_path PathOnly;
  status ← stat_of entry "cannot inspect browse entry";
  match st_kind status with
  | NodeDirectory => Ok (mkEntry (filename relative_path) true 0 (st_mode status) (st_mtime status))
  | NodeRegular =>
      Ok (mkEntry (filename relative_path) false (st_size status) (st_mode status) (st_mtime status))
  | _ => Throw (InvalidArgument "browse entry has an unsupported type")
  end.

(** src/daemon/control/BrowseFilesystemAccess.cpp:251-272 *)
Definition access_open_file (root relative_path : path) (identity : option BrowseAccessIdentity) : res D :=
  root_descriptor ← session_root root;
  _ ← open_authorized_directory root_descriptor (parent_or_dot relative_path) identity 1;
  result ← open_beneath root_descriptor relative_path ReadFile;
  status ← stat_of result "cannot inspect browse file";
  match st_kind status with
  | NodeRegular =>
      _ ← require_access (mt_node mount result) identity 4 "stored file permissions deny reading";
      Ok result
  | _ => Throw (InvalidArgument "browse entry is not a regular file")
  end.

(** src/daemon/control/BrowseFilesystemAccess.cpp:274-296 *)
Definition access_open_entry (root relative_path : path) (identity : option BrowseAccessIdentity) : res D :=
  root_descriptor ← session_root root;
  _ ← open_authorized_directory root_descriptor (parent_or_dot relative_path) identity 1;
  probe ← open_beneath root_descriptor relative_path PathOnly;
  status ← stat_of probe "cannot inspect browse entry";
  match st_kind status with
  | NodeRegular => access_open_file root relative_path identity
  | NodeDirectory => open_authorized_directory root_descriptor relative_path identity 5
  | _ => Throw (InvalidArgument "browse entry has an unsupported type")
  end.

(** src/daemon/control/BrowseFilesystemAccess.cpp:298-303 *)
Definition access_open_root (root : path) : res D :=
  opened "cannot open browse session root" (mt_open mount root PathDirectory).

End access.

(** ** Components and parents *)

Definition safe_name (value : string) : bool :=
  negb ((value =? "..")%string || str_contains "/" value || str_contains nul value).

Definition kept_name (value : string) : bool := negb (str_empty value || (value =? ".")%string).

Lemma safe_components_Ok elements cs :
  safe_components elements = Ok cs <->
  Forall (λ e, kept_name e = true -> safe_name e = true) elements /\ cs = List.filter kept_name elements.
Proof.
  revert cs. induction elements as [|e elements IH]; intros cs; cbn.
  - split; [by intros [= <-]|]. by intros [_ ->].
  - rewrite Forall_cons. destruct (str_empty e || (e =? ".")%string) eqn:Hk.
    + assert (kept_name e = false) as -> by (unfold kept_name; by rewrite Hk).
      rewrite IH. naive_solver.
    + assert (kept_name e = true) as -> by (unfold kept_name; by rewrite Hk).
      destruct (_ || _ || _) eqn:Hs; cbn.
      { assert (safe_name e = false) by (unfold safe_name; by rewrite Hs).
        split; [done|]. intros [[Hx _] _]. specialize (Hx eq_refl). congruence. }
      assert (safe_name e = true) by (unfold safe_name; by rewrite Hs).
      destruct (safe_components elements) as [l|ex] eqn:Hl; cbn.
      * destruct (proj1 (IH l) eq_refl) as [Hf ->]. split; [|by intros [_ ->]].
        intros Hcs. split; [done|congruence].
      * split; [done|]. intros [[_ Hf] _]. by pose proof (proj2 (IH _) (conj Hf eq_refl)).
Qed.

Lemma validated_components_Ok p cs :
  validated_components p = Ok cs <->
  is_absolute p = false /\ Forall (λ e, kept_name e = true -> safe_name e = true) (pp_names (pp_parse p)) /\
  cs = List.filter kept_name (pp_names (pp_parse p)).
Proof.
  unfold validated_components. destruct (is_absolute p) eqn:Ha; [naive_solver|].
  rewrite safe_components_Ok. unfold path_elements, pp_elements. change (pp_root (pp_parse p)) with (is_absolute p).
  rewrite Ha. cbn [app]. rewrite Forall_app, List.filter_app.
  destruct (pp_trail _); cbn; rewrite app_nil_r; naive_solver.
Qed.

Lemma starts_with_slash_split s :
  starts_with_slash s = true <-> exists t, t ≠ [] /\ split_slash s = "" :: t.
Proof.
  destruct s as [|c s]; cbn; [naive_solver|]. destruct (Ascii.eqb c "/") eqn:Hc.
  - split; [|done]. intros _. exists (split_slash s). split; [apply split_slash_nonempty|done].
  - split; [done|]. destruct (split_slash s); naive_solver.
Qed.

Lemma drop_empty_app l : exists k, l = k ++ drop_empty l /\ Forall (λ e, e = "") k.
Proof.
  induction l as [|[|c e] l IH]; [by exists []| |by exists []].
  destruct IH as (k & Hk & Hall). exists ("" :: k). cbn. split; [by f_equal|by constructor].
Qed.

Lemma filter_empty l : Forall (λ e, e = "") l -> List.filter nonempty l = [].
Proof. by induction 1 as [|e l -> _ IH]. Qed.

(** The segments of the parent: all but the last, less the empty ones at the end. *)
Definition parent_segments (p : path) : list string :=
  rev (drop_empty (rev (removelast (split_slash p)))).

Lemma parent_segments_app p :
  exists k, split_slash p = parent_segments p ++ k ++ [List.last (split_slash p) ""] /\
    Forall (λ e, e = "") k.
Proof.
  destruct (drop_empty_app (rev (removelast (split_slash p)))) as (k & Hk & Hall).
  exists (rev k). split; [|by apply Forall_rev].
  rewrite (app_removelast_last "" (split_slash_nonempty p)) at 1. rewrite app_assoc. f_equal.
  unfold parent_segments. rewrite <-rev_app_distr, <-Hk. by rewrite rev_involutive.
Qed.

Lemma parent_segments_last p : parent_segments p ≠ [] -> join_slash (parent_segments p) ≠ "".
Proof.
  unfold parent_segments. assert (H : forall l, drop_empty l = [] \/ exists c e r, drop_empty l = String c e :: r).
  { induction l as [|[|c e] l IH]; cbn; eauto. }
  destruct (H (rev (removelast (split_slash p)))) as [->|(c & e & r & ->)]; [done|]. cbn. intros _.
  generalize (rev r) as l. induction l as [|x l IH]; [done|]. cbn.
  destruct (l ++ [String c e]) eqn:Hl; [by destruct l|]. rewrite <-Hl in *.
  intros Hx. assert (Hlen : forall a b, a +:+ b = "" -> b = "") by (by intros []).
  apply Hlen in Hx. by destruct (join_slash _).
Qed.

Lemma names_split p : pp_names (pp_parse p) = List.filter nonempty (split_slash p).
Proof. done. Qed.

(** The names of a path are those of its parent, and perhaps one more. *)
Lemma parent_names p :
  is_absolute p = false ->
  is_absolute (parent_or_dot p) = false /\
  exists names more, pp_names (pp_parse p) = names ++ more /\ (length more <= 1)%nat /\
    (pp_names (pp_parse (parent_or_dot p)) = names \/
     names = [] /\ pp_names (pp_parse (parent_or_dot p)) = ["."]).
Proof.
  intros Ha. unfold parent_or_dot, parent_path.
  destruct (bool_decide_reflect (pp_names (pp_parse p) = [])) as [He|He].
  { rewrite He. destruct (str_empty p) eqn:Hp.
    - split; [done|]. exists [], []. cbn. split_and!; auto.
    - split; [done|]. exists [], []. cbn. split_and!; auto. }
  fold (parent_segments p). rewrite Ha, andb_false_r.
  destruct (parent_segments_app p) as (k & Hs & Hk).
  assert (Hn : pp_names (pp_parse p) = List.filter nonempty (parent_segments p) ++
                 List.filter nonempty [List.last (split_slash p) ""]).
  { rewrite names_split. rewrite Hs at 1. by rewrite !List.filter_app, (filter_empty k Hk). }
  rewrite Hn. assert (Hmore : (length (List.filter nonempty [List.last (split_slash p) ""]) <= 1)%nat)
    by (cbn; destruct (nonempty _); cbn; lia).
  destruct (decide (parent_segments p = [])) as [Hps|Hps].
  { rewrite Hps. cbn. split; [done|]. eexists [], _. split_and!; [done..|]. by right. }
  destruct (str_empty (join_slash (parent_segments p))) eqn:Hj.
  { exfalso. apply (parent_segments_last p Hps). by destruct (join_slash _). }
  assert (Hno : Forall no_slash (parent_segments p)).
  { pose proof (split_slash_segments p) as H. rewrite Hs in H. by apply Forall_app in H as [? _]. }
  pose proof (split_join_segments _ Hno Hps) as Hsplit. split.
  - apply not_true_is_false. intros H%starts_with_slash_split. rewrite Hsplit in H.
    destruct H as (t & Ht & Hp). enough (is_absolute p = true) by congruence.
    apply starts_with_slash_split. rewrite Hs, Hp. eexists. split; [|done]. by destruct t.
  - eexists _, _. split_and!; [done..|]. left. by rewrite names_split, Hsplit.
Qed.

(** The components that are checked before an entry is looked up: all of them, or all but the
    last. *)
Lemma parent_components p cs :
  validated_components p = Ok cs ->
  exists cs', validated_components (parent_or_dot p) = Ok cs' /\ (cs' = cs \/ cs' = removelast cs).
Proof.
  intros (Ha & Hsafe & ->)%validated_components_Ok. destruct (parent_names p Ha) as (Hq & names & more & Hn & Hm & Hp).
  rewrite Hn in Hsafe |- *. apply Forall_app in Hsafe as [Hs1 _].
  exists (List.filter kept_name names). split.
  - apply validated_components_Ok. split; [done|]. destruct Hp as [->|[-> ->]]; [done|]. by split; [constructor|].
  - rewrite List.filter_app. destruct more as [|last [|? ?]]; cbn in *; [|destruct (kept_name last)|lia].
    + left. by rewrite app_nil_r.
    + right. by rewrite removelast_last.
    + left. by rewrite app_nil_r.
Qed.

(** ** What a caller can reach *)

Lemma last_default {A} (l : list A) a b : l ≠ [] -> List.last l a = List.last l b.
Proof. induction l as [|x [|y l] IH]; [done..|]. intros _. by apply IH. Qed.

Section guarantees.
Context {D : Type} (mount : Mount D) (identity : option BrowseAccessIdentity).

Definition searchable (d : D) : Prop := require_access (mt_node mount d) identity 1 search_denied = Ok tt.

(** From directory to directory, each of which [allowed] before the next is opened. *)
Fixpoint leads (allowed : D -> Prop) (current : D) (components : list string) (d : D) : Prop :=
  match components with
  | [] => d = current
  | component :: components =>
      allowed current /\
      exists next, mt_openat mount current component ReadDirectory = inr next /\
                   leads allowed next components d
  end.

Lemma leads_unique P Q current components d d' :
  leads P current components d -> leads Q current components d' -> d = d'.
Proof.
  revert current. induction components as [|c components IH]; intros current; cbn; [congruence|].
  intros (_ & n & Hn & H) (_ & n' & Hn' & H'). assert (n = n') as -> by congruence. eauto.
Qed.

Lemma leads_app P current l1 l2 d :
  leads P current (l1 ++ l2) d <-> exists x, leads P current l1 x /\ leads P x l2 d.
Proof. revert current. induction l1 as [|c l1 IH]; intros current; cbn; [naive_solver|]. setoid_rewrite IH. naive_solver. Qed.

Lemma open_parents_leads current components d :
  open_parents mount current components = Ok d <-> leads (λ _, True) current components d.
Proof.
  revert current. induction components as [|c components IH]; intros current; cbn; [naive_solver congruence|].
  destruct (mt_openat mount current c ReadDirectory) as [e|next] eqn:Hn; cbn.
  - unfold path_error. split; [by destruct (_ || _)|naive_solver].
  - rewrite IH. naive_solver.
Qed.

Lemma authorized_walk_leads current components d :
  searchable current -> authorized_walk mount identity current components = Ok d ->
  leads searchable current components d /\ searchable d.
Proof.
  revert current. induction components as [|c components IH]; intros current Hc; cbn; [naive_solver congruence|].
  destruct (mt_openat mount current c ReadDirectory) as [e|next] eqn:Hn; cbn.
  { unfold path_error. by destruct (_ || _). }
  destruct (require_access _ _ _ _) as [[]|e] eqn:Hr; cbn; [|done].
  intros [Hl Hd]%IH; [|done]. split; [|done]. split; [done|]. eauto.
Qed.

(** The walk stops at the first directory that may not be searched, before it looks further. *)
Lemma authorized_walk_denied current pre x rest e :
  leads searchable current pre x -> pre ≠ [] ->
  require_access (mt_node mount x) identity 1 search_denied = Throw e ->
  authorized_walk mount identity current (pre ++ rest) = Throw e.
Proof.
  revert current. induction pre as [|c pre IH]; intros current; [done|].
  intros (_ & next & Hn & Hl) _ Hx. cbn. rewrite Hn. cbn. destruct pre as [|c' pre].
  - cbn in Hl. subst x. by rewrite Hx.
  - assert (searchable next) as -> by by destruct Hl. cbn. by apply (IH next).
Qed.

Lemma authorized_directory_Ok root p final d :
  open_authorized_directory mount root p identity final = Ok d ->
  exists top cs, mt_openat mount root "." ReadDirectory = inr top /\ validated_components p = Ok cs /\
    leads searchable top cs d /\ searchable d.
Proof.
  unfold open_authorized_directory.
  destruct (mt_openat mount root "." ReadDirectory) as [e|top]; cbn.
  { unfold path_error. by destruct (_ || _). }
  destruct (require_access _ _ _ _) as [[]|e] eqn:Hr; cbn; [|done].
  destruct (validated_components p) as [cs|e]; cbn; [|done].
  destruct (authorized_walk _ _ _ _) as [d'|e] eqn:Hw; cbn; [|done].
  destruct (require_access _ _ final _); cbn; [|done]. intros H. assert (d' = d) as -> by congruence.
  exists top, cs. do 2 (split; [done|]). by apply authorized_walk_leads.
Qed.

Lemma authorized_directory_denied root p final top cs pre rest x e :
  mt_openat mount root "." ReadDirectory = inr top -> validated_components p = Ok cs ->
  cs = pre ++ rest -> leads searchable top pre x ->
  require_access (mt_node mount x) identity 1 search_denied = Throw e ->
  open_authorized_directory mount root p identity final = Throw e.
Proof.
  intros Ht Hc -> Hl Hx. unfold open_authorized_directory. rewrite Ht. cbn. destruct pre as [|c pre].
  - cbn in Hl. subst x. by rewrite Hx.
  - assert (searchable top) as -> by by destruct Hl. cbn. rewrite Hc. cbn [mbind res_bind].
    by rewrite (authorized_walk_denied top (c :: pre) x rest e).
Qed.

Lemma open_beneath_Ok root p flags d :
  open_beneath mount root p flags = Ok d ->
  exists top cs parent, mt_openat mount root "." ReadDirectory = inr top /\ validated_components p = Ok cs /\
    leads (λ _, True) top (removelast cs) parent /\ mt_openat mount parent (List.last cs ".") flags = inr d.
Proof.
  unfold open_beneath. destruct (mt_openat mount root "." ReadDirectory) as [e|top]; cbn.
  { unfold path_error. by destruct (_ || _). }
  destruct (validated_components p) as [cs|e]; cbn; [|done].
  assert (Hopen : forall y name, opened "cannot open browse entry" (mt_openat mount y name flags) = Ok d ->
    mt_openat mount y name flags = inr d).
  { intros y name. unfold opened, path_error. destruct (mt_openat mount y name flags); [by destruct (_ || _)|congruence]. }
  destruct (bool_decide_reflect (cs = [])) as [->|Hne].
  - intros H%Hopen. by exists top, [], top.
  - destruct (open_parents _ _ _) as [parent|e] eqn:Hp; cbn; [|done]. intros H%Hopen.
    apply open_parents_leads in Hp. exists top, cs, parent. split_and!; try done.
    by rewrite (last_default cs "." "").
Qed.

(** The stored permissions give the caller the bits: it is the manager itself or root, or its
    effective permissions have them. *)
Definition permitted (bits : Z) (d : D) : Prop :=
  match identity with
  | None => True
  | Some caller =>
      ba_uid caller = 0 \/
      exists status permissions, nv_stat (mt_node mount d) = inr status /\
        effective_permissions (nv_acl (mt_node mount d)) status caller = Ok permissions /\
        Z.land permissions bits = bits
  end.

(** The names [cs] go down from a directory: none is empty, [.] or [..], and none holds a separator
    or a NUL. *)
Definition downward (cs : list string) : Prop :=
  Forall (λ c, plain_component c /\ str_contains nul c = false) cs.

(** The path from the root of the session to what was opened: it is relative, its names but for
    empty ones and [.] go down, each is opened in the directory of the one before it, and the
    caller may search every directory on it. *)
Definition reached (root : path) (p : path) (flags : OpenFlags) (d : D) : Prop :=
  exists session top cs parent,
    mt_open mount root ReadDirectory = inr session /\
    mt_openat mount session "." ReadDirectory = inr top /\
    is_absolute p = false /\
    cs = List.filter (λ c, negb (str_empty c || (c =? ".")%string)) (pp_names (pp_parse p)) /\
    downward cs /\ leads (permitted 1) top (removelast cs) parent /\
    permitted 1 parent /\ mt_openat mount parent (List.last cs ".") flags = inr d.

Lemma access_permitted bits operation d :
  require_access (mt_node mount d) identity bits operation = Ok tt -> permitted bits d.
Proof.
  unfold require_access, permitted. destruct identity as [caller|]; [|done].
  destruct (Z.eqb_spec (ba_uid caller) 0) as [|_]; [by left|]. right.
  destruct (nv_stat (mt_node mount d)) as [e|status]; [unfold permission_error in *; by repeat case_match|].
  destruct (effective_permissions _ _ _) as [permissions|e] eqn:Ep; [|done].
  change (Ok permissions ≫= ?f) with (f permissions) in *. cbn beta in *.
  destruct (Z.eqb_spec (Z.land permissions bits) bits); [|done]. by exists status, permissions.
Qed.

Lemma leads_mono (P Q : D -> Prop) current cs d :
  (forall x, P x -> Q x) -> leads P current cs d -> leads Q current cs d.
Proof.
  intros HPQ. revert current. induction cs as [|c cs IH]; intros current; [done|]. cbn.
  intros (H1 & next & H2 & H3). split; [by apply HPQ|]. exists next. auto.
Qed.

Lemma validated_downward p cs : validated_components p = Ok cs -> downward cs.
Proof.
  intros (_ & Hs & ->)%validated_components_Ok. rewrite Forall_forall in Hs. apply Forall_forall.
  intros c [Hin Hk]%list_elem_of_In%filter_In. specialize (Hs c (proj2 (list_elem_of_In _ _) Hin) Hk).
  unfold kept_name, safe_name in *. rewrite !negb_true_iff, !orb_false_iff in *.
  destruct Hk as [Hk1 Hk2], Hs as [[Hs1 Hs2] Hs3]. apply String.eqb_neq in Hk2, Hs1.
  split; [|done]. repeat split; try done. by intros ->.
Qed.

Lemma leads_searchable current l1 l2 d x :
  leads searchable current (l1 ++ l2) d -> searchable d -> leads (λ _, True) current l1 x ->
  leads searchable current l1 x /\ searchable x.
Proof.
  intros (y & H1 & H2)%leads_app Hd Hx. assert (x = y) as -> by by eapply leads_unique. split; [done|].
  destruct l2; cbn in H2; [by subst|by destruct H2].
Qed.

Lemma session_root_Ok root d : session_root mount root = Ok d -> mt_open mount root ReadDirectory = inr d.
Proof.
  unfold session_root, opened, path_error. destruct (mt_open _ _ _); [by destruct (_ || _)|congruence].
Qed.

(** An authorised parent and the entry beneath the root: the entry was reached. *)
Lemma reached_beneath root session p flags x d :
  session_root mount root = Ok session ->
  open_authorized_directory mount session (parent_or_dot p) identity 1 = Ok x ->
  open_beneath mount session p flags = Ok d -> reached root p flags d.
Proof.
  intros Hs%session_root_Ok (top & cs' & Ht & Hc' & Hl & Hx)%authorized_directory_Ok
    (top' & cs & parent & Ht' & Hc & Hp & Hd)%open_beneath_Ok.
  assert (top' = top) as -> by congruence.
  destruct (parent_components p cs Hc) as (cs2 & Hc2 & Hcs2). assert (cs2 = cs') as -> by congruence.
  exists session, top, cs, parent. do 2 (split; [done|]).
  pose proof Hc as (Ha & _ & Ecs)%validated_components_Ok. split; [done|]. split; [exact Ecs|].
  split; [by eapply validated_downward|].
  assert (exists l2, cs' = removelast cs ++ l2) as [l2 ->].
  { destruct Hcs2 as [->| ->]; [|exists []; by rewrite app_nil_r].
    destruct (decide (cs = [])) as [->|Hne]; [by exists []|].
    exists [List.last cs ""]. by apply app_removelast_last. }
  destruct (leads_searchable _ _ _ _ _ Hl Hx Hp) as [Hl' Hp'].
  split; [|split; [by eapply access_permitted|done]].
  eapply leads_mono; [|exact Hl']. intros y. apply access_permitted.
Qed.

(** ** Entries that are missing *)

(** What the system answers for a path that is not there: on the way down from the root, through
    directories the caller may search, it has no entry of the next name. *)
Definition missing (root p : path) : Prop :=
  exists session top pre c post x e,
    mt_open mount root ReadDirectory = inr session /\
    mt_openat mount session "." ReadDirectory = inr top /\
    validated_components p = Ok (pre ++ c :: post) /\ leads searchable top pre x /\ searchable x /\
    (forall flags, mt_openat mount x c flags = inl e) /\ (e = ENOENT \/ e = ENOTDIR).

Lemma path_error_missing {A} operation e : e = ENOENT \/ e = ENOTDIR ->
  @path_error A operation e = Throw (ManagerOperationError NotFound operation).
Proof. by intros [-> | ->]. Qed.

Lemma searchable_access d operation :
  searchable d -> require_access (mt_node mount d) identity 1 operation = Ok tt.
Proof.
  unfold searchable, require_access. intros H. destruct identity as [i|]; [|done].
  destruct (ba_uid i =? 0); [done|]. destruct (nv_stat _); [done|].
  destruct (effective_permissions _ _ _); cbn in *; [|done]. by destruct (_ =? _).
Qed.

Lemma walk_reaches current cs x :
  leads searchable current cs x -> searchable x -> authorized_walk mount identity current cs = Ok x.
Proof.
  revert current. induction cs as [|c cs IH]; intros current; [by intros ->|].
  intros (_ & next & Hn & Hl) Hx. cbn. rewrite Hn. cbn.
  assert (searchable next) as -> by (destruct cs; cbn in Hl; [by subst|by destruct Hl]). cbn. by apply IH.
Qed.

Lemma walk_missing current pre x c post e :
  leads searchable current pre x -> searchable x -> mt_openat mount x c ReadDirectory = inl e ->
  authorized_walk mount identity current (pre ++ c :: post) = path_error "cannot traverse browse entry" e.
Proof.
  revert current. induction pre as [|c' pre IH]; intros current; cbn.
  - intros -> _ He. rewrite He. cbn. unfold path_error. by destruct (_ || _).
  - intros (_ & next & Hn & Hl) Hx He. rewrite Hn. cbn.
    assert (searchable next) as -> by (destruct pre; cbn in Hl; [by subst|by destruct Hl]). cbn. by apply IH.
Qed.

(** Looking at an entry that is missing gives an error of the manager, not a system error. *)
Lemma inspect_missing root p :
  missing root p ->
  exists m, access_inspect_entry mount root p identity = Throw (ManagerOperationError NotFound m).
Proof.
  intros (session & top & pre & c & post & x & e & Hs & Ht & Hc & Hl & Hx & He & Hcode).
  assert (Htop : searchable top) by (destruct pre; cbn in Hl; [by subst|by destruct Hl]).
  unfold access_inspect_entry, session_root. rewrite Hs. cbn [opened mbind res_bind].
  unfold open_authorized_directory. rewrite Ht. cbn [opened mbind res_bind]. rewrite Htop. cbn [mbind res_bind].
  destruct (parent_components p _ Hc) as (cs' & -> & Hcs). cbn [mbind res_bind].
  assert (Hcase : cs' = pre /\ post = [] \/ exists post', cs' = pre ++ c :: post').
  { destruct Hcs as [->| ->]; [right; by exists post|].
    destruct post as [|y post]; [left; by rewrite removelast_last|]. right. exists (removelast (y :: post)).
    rewrite removelast_app by done. done. }
  destruct Hcase as [[-> ->]|[post' ->]].
  - rewrite (walk_reaches top pre x Hl Hx). cbn [mbind res_bind]. rewrite searchable_access by done.
    cbn [mbind res_bind]. unfold open_beneath. rewrite Ht. cbn [opened mbind res_bind]. rewrite Hc.
    cbn [mbind res_bind]. rewrite bool_decide_eq_false_2 by (by destruct pre).
    rewrite removelast_last, List.last_last.
    rewrite (proj2 (open_parents_leads top pre x)) by (by eapply leads_mono; [|exact Hl]).
    cbn [mbind res_bind]. rewrite He. cbn [opened]. rewrite path_error_missing by done. by eexists.
  - rewrite (walk_missing top pre x c post' e Hl Hx (He _)), path_error_missing by done. by eexists.
Qed.
End guarantees.

Section theorems.
Context {D : Type} (mount : Mount D).

(** C31.  A file is opened for a caller only below the root of its session.  The path it gave is
    relative; its names, but for empty ones and [.], go down ([downward]: none is [..], none holds a
    separator or a NUL); each is opened by its name in the directory of the one before, and with
    flags that have the kernel refuse a symbolic link ([OpenFlags]); the stored permissions let the
    caller search every directory on the way, that of the root included; and what is opened is a
    regular file that they let it read. *)
Theorem open_file_authorised root p identity d :
  access_open_file mount root p identity = Ok d ->
  reached mount identity root p ReadFile d /\
  (exists status, nv_stat (mt_node mount d) = inr status /\ st_kind status = NodeRegular) /\
  permitted mount identity 4 d.
Proof.
  unfold access_open_file. destruct (session_root mount root) as [session|e] eqn:Hs; cbn; [|done].
  destruct (open_authorized_directory _ _ _ _ _) as [x|e] eqn:Hx; cbn; [|done].
  destruct (open_beneath _ _ _ _) as [d'|e] eqn:Hd; cbn; [|done]. unfold stat_of.
  destruct (nv_stat _) as [e|status] eqn:Hst; cbn; [unfold path_error; by destruct (_ || _)|].
  destruct (st_kind status) eqn:Hk; try done.
  destruct (require_access _ _ 4 _) as [[]|e] eqn:Hr; cbn; [|done]. intros H.
  assert (d' = d) as -> by congruence. split_and!; [by eapply reached_beneath|by exists status|by eapply access_permitted].
Qed.

(** A directory that a caller may not search tells it nothing of what is below: every request
    for an entry below it gets the same answer, that traversal is denied, before anything in it
    is looked up. *)
Theorem no_look_beyond_denied root p identity session top cs pre c post x e :
  mt_open mount root ReadDirectory = inr session ->
  mt_openat mount session "." ReadDirectory = inr top ->
  validated_components p = Ok cs -> cs = pre ++ c :: post ->
  leads mount (searchable mount identity) top pre x ->
  require_access (mt_node mount x) identity 1 search_denied = Throw e ->
  access_inspect_entry mount root p identity = Throw e /\
  access_open_file mount root p identity = Throw e /\
  access_open_entry mount root p identity = Throw e /\
  forall after n, access_list_directory_page mount root p after n identity = Throw e.
Proof.
  intros Hs Ht Hc Hcs Hl Hx. destruct (parent_components p cs Hc) as (cs' & Hc' & Hcs').
  assert (exists rest, cs' = pre ++ rest) as [rest Hrest].
  { destruct Hcs' as [->| ->]; [by exists (c :: post)|]. rewrite Hcs.
    exists (removelast (c :: post)). by apply removelast_app. }
  assert (Hroot : session_root mount root = Ok session) by (unfold session_root; by rewrite Hs).
  pose proof (λ f, authorized_directory_denied mount identity session _ f _ _ _ _ _ _ Ht Hc' Hrest Hl Hx) as Hp.
  unfold access_inspect_entry, access_open_file, access_open_entry, access_list_directory_page.
  rewrite Hroot. cbn. rewrite !Hp. split_and!; try done. intros after n.
  by rewrite (authorized_directory_denied mount identity session _ 5 _ _ _ _ _ _ Ht Hc Hcs Hl Hx).
Qed.
End theorems.

(** ** Examples *)

Module AccessExample.

Definition entry_of (tag : AclTag) (qualifier : option Z) (value : Z) : AclEntry :=
  mkAcl (Some tag) (Z.land (Z.shiftr value 2) 1) (Z.land (Z.shiftr value 1) 1) (Z.land value 1) qualifier 0.

(** u::rwx,u:1000:r--,g::---,g:100:r-x,m::r-x,o::--- *)
Definition ex_owner := entry_of ACL_USER_OBJ None 7.
Definition ex_users := [entry_of ACL_USER (Some 1000) 4].
Definition ex_group := entry_of ACL_GROUP_OBJ None 0.
Definition ex_groups := [entry_of ACL_GROUP (Some 100) 5].
Definition ex_mask := entry_of ACL_MASK None 5.
Definition ex_other := entry_of ACL_OTHER None 0.
Definition ex_acl : list AclEntry :=
  ex_owner :: ex_users ++ ex_group :: ex_groups ++ option_list (Some ex_mask) ++ [ex_other].

Definition ex_user : BrowseAccessIdentity := mkAccess 1001 [1001; 100].
Definition ex_stat (kind : NodeKind) (mode gid : Z) : NodeStat := mkStat kind mode 0 gid 12 0.

Lemma ex_acl_valid : acl_valid ex_acl ex_owner ex_users ex_group ex_groups (Some ex_mask) ex_other.
Proof.
  assert (Htag : forall tag q v, 0 <= v -> (tag = ACL_USER \/ tag = ACL_GROUP -> is_Some q) ->
    has_tag tag (entry_of tag q v)).
  { intros tag q v Hv Hq. split_and!; try done; cbn; apply Z.land_nonneg; right; lia. }
  constructor.
  - done.
  - apply Htag; [lia|naive_solver].
  - apply Forall_singleton, Htag; [lia|by eexists].
  - apply Htag; [lia|naive_solver].
  - apply Forall_singleton, Htag; [lia|by eexists].
  - intros m [= <-]. apply Htag; [lia|naive_solver].
  - apply Htag; [lia|naive_solver].
  - apply NoDup_singleton.
Qed.

(** A member of the named group may search. *)
Lemma effective_permissions_kernel_witness :
  acl_valid ex_acl ex_owner ex_users ex_group ex_groups (Some ex_mask) ex_other /\ single_bit 1 /\
  exists permissions,
    effective_permissions (inr (mkAclList ex_acl None)) (ex_stat NodeDirectory 488 0) ex_user = Ok permissions /\
    grants permissions 1 = kernel_walk 1 (ex_stat NodeDirectory 488 0) ex_user ex_acl false.
Proof.
  split; [exact ex_acl_valid|]. split; [by left|].
  exact (effective_permissions_kernel (ex_stat NodeDirectory 488 0) ex_user 1 ex_acl ex_owner ex_users
    ex_group ex_groups (Some ex_mask) ex_other ex_acl_valid (or_introl eq_refl)).
Defined.

Example ex_acl_search : kernel_walk 1 (ex_stat NodeDirectory 488 0) ex_user ex_acl false = true.
Proof. reflexivity. Qed.

(** Read and search by two different groups: the kernel grants each, but not both at once, while
    the union of the groups grants both. *)
Definition ex_split_groups : list AclEntry :=
  [ex_owner; ex_group; entry_of ACL_GROUP (Some 100) 4; entry_of ACL_GROUP (Some 1001) 1; ex_mask; ex_other].

Example ex_split_groups_differ :
  effective_permissions (inr (mkAclList ex_split_groups None)) (ex_stat NodeDirectory 488 0) ex_user = Ok 5 /\
  kernel_walk 5 (ex_stat NodeDirectory 488 0) ex_user ex_split_groups false = false /\
  kernel_walk 4 (ex_stat NodeDirectory 488 0) ex_user ex_split_groups false = true /\
  kernel_walk 1 (ex_stat NodeDirectory 488 0) ex_user ex_split_groups false = true.
Proof. split_and!; reflexivity. Qed.

(** A repository with a file anybody may read, and a directory that only root may search. *)
Definition ex_nodes : list (string * NodeStat) :=
  [("view", ex_stat NodeDirectory 493 0); ("view/docs", ex_stat NodeDirectory 488 100);
   ("view/docs/a.txt", ex_stat NodeRegular 416 100); ("view/secret", ex_stat NodeDirectory 448 0)].

Definition ex_node (d : string) : option NodeStat :=
  snd <$> List.find (λ n, (n.1 =? d)%string) ex_nodes.

Definition ex_open (d : string) : Z + string :=
  match ex_node d with Some _ => inr d | None => inl ENOENT end.

Definition ex_mount : Mount string :=
  mkMount (λ p _, ex_open p)
    (λ d name _, if (name =? ".")%string then inr d else ex_open (d +:+ "/" +:+ name))
    (λ d, mkView (match ex_node d with Some s => inr s | None => inl ENOENT end) (inl EOPNOTSUPP))
    (λ _, inr tt) (λ _, inl ENOTDIR).

Lemma open_file_authorised_witness :
  access_open_file ex_mount "view" "docs/a.txt" (Some ex_user) = Ok "view/docs/a.txt" /\
  reached ex_mount (Some ex_user) "view" "docs/a.txt" ReadFile "view/docs/a.txt" /\
  (exists status, nv_stat (mt_node ex_mount "view/docs/a.txt") = inr status /\ st_kind status = NodeRegular) /\
  permitted ex_mount (Some ex_user) 4 "view/docs/a.txt".
Proof.
  split; [vm_compute; reflexivity|].
  apply (open_file_authorised ex_mount "view" "docs/a.txt" (Some ex_user)). vm_compute. reflexivity.
Defined.

(** Whether or not there is such a file, the answer is the same. *)
Lemma no_look_beyond_denied_witness :
  let e := ManagerOperationError NotAuthorized search_denied in
  access_inspect_entry ex_mount "view" "secret/key" (Some ex_user) = Throw e /\
  access_open_file ex_mount "view" "secret/key" (Some ex_user) = Throw e /\
  access_open_entry ex_mount "view" "secret/key" (Some ex_user) = Throw e /\
  forall after n, access_list_directory_page ex_mount "view" "secret/key" after n (Some ex_user) = Throw e.
Proof.
  apply (no_look_beyond_denied ex_mount "view" "secret/key" (Some ex_user) "view" "view"
    ["secret"; "key"] ["secret"] "key" [] "view/secret").
  - vm_compute. reflexivity.
  - vm_compute. reflexivity.
  - vm_compute. reflexivity.
  - reflexivity.
  - split; [vm_compute; reflexivity|]. exists "view/secret". split; vm_compute; reflexivity.
  - vm_compute. reflexivity.
Defined.

End AccessExample.
