(* ===== verification/ProfileAdministration.v ===== *)
(** * Administration of profiles and credentials (src/daemon/control/ProfileAdministrationService,
      CredentialAdministrationService)

    The daemon changes the settings and sources of a profile, deletes, retires and enables it,
    and changes the credentials of its target, for callers it has authorised.  The authorizer and
    the backends are calls; the sources a caller selected are kept under a mutex. *)

From S2P Require Import Prelude Errors Identifiers RuntimeTime FsPath Json ConfigDomain Interaction.
From S2P Require Import ManagerAuthorization BrowsePages BrowseSessions.

Open Scope Z_scope.

(** ** Data *)

(** src/daemon/control/ProfileAdministrationService.hpp:22-27 *)
Record EditableProfile := mkEditable {
  ep_profile_id : string;
  ep_generation : string;
  ep_fingerprint : string;
  ep_document : string;
}.

(** src/daemon/control/ProfileAdministrationService.hpp:29-36 *)
Record UnsupportedProfileIdentity := mkUnsupported {
  up_profile_id : string;
  up_detected_schema_version : Z;
  up_fingerprint : string;
  up_manifest_fingerprint : option string;
}.

Global Instance UnsupportedProfileIdentity_eq_dec : EqDecision UnsupportedProfileIdentity.
Proof. solve_decision. Defined.

(** src/daemon/control/ProfileAdministrationService.hpp:38-47 *)
Record ProfileSourceCandidate := mkProfileSource {
  ps_id : string;
  ps_subvolume : path;
  ps_filesystem_uuid : string;
  ps_mount_root : path;
  ps_local_snapshot_root : path;
  ps_subvolume_uuid : string;
}.

Global Instance eta_ProfileSourceCandidate : Eta ProfileSourceCandidate := λ c,
  mkProfileSource (ps_id c) (ps_subvolume c) (ps_filesystem_uuid c) (ps_mount_root c)
    (ps_local_snapshot_root c) (ps_subvolume_uuid c).

(** src/daemon/control/ProfileAdministrationService.hpp:49-57 *)
Record ProfileDetails := mkDetails {
  pd_profile_id : string;
  pd_generation : string;
  pd_fingerprint : string;
  pd_document : string;
  pd_configuration_valid : bool;
  pd_configuration_error_code : string;
  pd_source_candidates : list ProfileSourceCandidate;
}.

(** src/daemon/control/ProfileAdministrationService.hpp:59-62 *)
Inductive SourceSubvolumeState := SourceAvailable | SourceIsMissing | SourceIsNotSubvolume | SourceIsUnavailable.

(** src/daemon/control/ProfileAdministrationService.hpp:64-67 *)
Record ProfileConfigurationHealth := mkHealth { ph_valid : bool; ph_error_code : string }.

(** src/daemon/control/ProfileAdministrationService.hpp:69-75 *)
Record ProfileDraftResult := mkDraft {
  dr_profile_id : string;
  dr_generation : string;
  dr_fingerprint : string;
  dr_document : string;
  dr_valid : bool;
}.

(** src/daemon/control/ProfileAdministrationService.hpp:226-231 *)
Record StoredSourceCandidate := mkStoredSource {
  ss_candidate : ProfileSourceCandidate;
  ss_caller : string;
  ss_profile_id : string;
  ss_expires_at : Z;
}.

(** The stored candidates. *)
Abbreviation AdminState := (gmap string StoredSourceCandidate).

(** IManagerAuthorizer, IProfileAdministrationBackend, the clock and the generator.
    src/daemon/control/ProfileAdministrationService.hpp:77-123 *)
Inductive AdminOp : Type -> Type :=
| AdminAuthorize (caller : string) (action : ManagerAuthorizationAction) : AdminOp bool
| AdminActive (caller : string) : AdminOp bool
| FindProfile (profile_id : ProfileId) : AdminOp (option EditableProfile)
| ValidateDraft (profile_id : ProfileId) (document : string) : AdminOp ProfileDraftResult
| SaveProfile (expected : EditableProfile) (draft : ProfileDraftResult) (allow_hook_changes : bool)
    : AdminOp ProfileDraftResult
| DeleteProfile (expected : EditableProfile) : AdminOp unit
| InspectUnsupported (profile_id : ProfileId) : AdminOp UnsupportedProfileIdentity
| RetireUnsupported (expected : UnsupportedProfileIdentity) : AdminOp unit
| SetEnabled (expected : EditableProfile) (enabled : bool) : AdminOp unit
| InspectSubvolume (subvolume : path) : AdminOp SourceSubvolumeState
| SourceCandidates : AdminOp (list ProfileSourceCandidate)
| CandidateFromDescriptor (descriptor : Z) (identity : BrowseAccessIdentity) : AdminOp ProfileSourceCandidate
| ResolveCandidate (subvolume : path) : AdminOp ProfileSourceCandidate
| NewCandidateId : AdminOp string
| AdminClock : AdminOp Z.

Abbreviation Admin := (prog AdminState AdminOp).

Definition admin_error {A} (code : ManagerErrorCode) (message : string) : Admin A :=
  raise (ManagerOperationError code message).

(** ** Documents *)

(** [j[key]], changed by [f]: on an object the member, made if it is not there; null becomes an
    object; anything else throws. *)
Definition json_update (j : Json) (key : string) (f : Json -> res Json) : res Json :=
  match j with
  | JNull => v ← f JNull; Ok (JObject [(key, v)])
  | JObject members =>
      v ← f (default JNull (json_find members key)); Ok (JObject (json_set members key v))
  | _ => type_error
  end.

Definition json_assign (j : Json) (key : string) (value : Json) : res Json :=
  json_update j key (λ _, Ok value).

(** The elements of [sources], which is an array in the document of a profile; null has none. *)
Definition source_items (sources : Json) : res (list Json) :=
  match sources with JArray items => Ok items | JNull => Ok [] | _ => type_error end.

(** src/daemon/control/ProfileAdministrationService.cpp:28-32 *)
Definition target_filesystem_uuid (document : Json) : res string :=
  match document with
  | JObject members =>
      match json_find members "target" with
      | Some (JObject target) => json_value get_string (JObject target) "btrfsUuid" ""
      | _ => Ok ""
      end
  | _ => Ok ""
  end.

(** src/daemon/control/ProfileAdministrationService.cpp:34-42 *)
Definition same_source_candidate (expected current : ProfileSourceCandidate) : bool :=
  (ps_id expected =? ps_id current)%string
  && path_eqb (ps_subvolume expected) (ps_subvolume current)
  && (ps_filesystem_uuid expected =? ps_filesystem_uuid current)%string
  && path_eqb (ps_mount_root expected) (ps_mount_root current)
  && path_eqb (ps_local_snapshot_root expected) (ps_local_snapshot_root current)
  && (str_empty (ps_subvolume_uuid expected)
      || (ps_subvolume_uuid expected =? ps_subvolume_uuid current)%string).

Section administration.
Context `{JsonText}.

Definition payload_limit : Z := 65536.

(** src/daemon/control/ProfileAdministrationService.cpp:134-153 *)
Definition parse_request (payload : string) (allowed_keys : list string) : res Json :=
  if payload_limit <? text_size payload
  then Throw (ValidationError "profile administration request is too large")
  else
    match json_parse payload with
    | Throw e =>
        Throw (ValidationError ("profile administration request is not valid JSON: " +:+ exn_what e))
    | Ok (JObject members) =>
        match find_if (λ m, negb (bool_decide (m.1 ∈ allowed_keys))) members with
        | Some (key, _) => Throw (ValidationError ("unsupported profile administration field: " +:+ key))
        | None => Ok (JObject members)
        end
    | Ok _ => Throw (ValidationError "profile administration request must be an object")
    end.

(** src/daemon/control/ProfileAdministrationService.cpp:156-162 *)
Definition request_value {A} (get : Json -> res A) (request : Json) (key : string) : res A :=
  match (v ← json_at request key; get v) with
  | Ok v => Ok v
  | Throw _ => Throw (ValidationError ("invalid or missing profile administration field: " +:+ key))
  end.

(** src/daemon/control/ProfileAdministrationService.cpp:164-170 *)
Definition require_existing (profile : option EditableProfile) : res EditableProfile :=
  match profile with
  | None => Throw (ManagerOperationError NotFound "profile does not exist")
  | Some profile => Ok profile
  end.

(** ** Identifiers of sources *)

(** The loop of [source_id_candidate].
    src/daemon/control/ProfileAdministrationService.cpp:175-187 *)
Fixpoint id_characters (name result : string) (previous_separator : bool) : string :=
  match name with
  | EmptyString => result
  | String c name =>
      let accepted := is_alnum c || Ascii.eqb c "." || Ascii.eqb c "_" in
      let '(result, previous_separator) :=
        if accepted then (result +:+ String (to_lower c) "", false)
        else if negb (str_empty result) && negb previous_separator then (result +:+ "-", true)
        else (result, previous_separator) in
      if (String.length result =? 48)%nat then result else id_characters name result previous_separator
  end.

(** [while (... back() == '-') pop_back();] *)
Fixpoint strip_dashes (s : string) : string :=
  match s with
  | EmptyString => ""
  | String c s =>
      let s := strip_dashes s in
      if str_empty s && Ascii.eqb c "-" then "" else String c s
  end.

(** src/daemon/control/ProfileAdministrationService.cpp:172-191 *)
Definition source_id_candidate (name : string) : string :=
  let result := strip_dashes (id_characters name "" false) in
  if str_empty result then "source" else result.

(** The identifiers of the sources of a document. *)
Definition existing_ids (sources : list Json) : res (list string) :=
  res_mapM (λ source, v ← json_at source "id"; get_string v) sources.

Definition numbered_id (base : string) (suffix : Z) : string :=
  String.substring 0 58 base +:+ "-" +:+ setw0 0 suffix.

(** src/daemon/control/ProfileAdministrationService.cpp:193-209 *)
Definition unique_source_id (sources : list Json) (name : string) : res string :=
  existing ← existing_ids sources;
  let base := source_id_candidate name in
  if bool_decide (base ∉ existing) then Ok base
  else
    match find_if (λ suffix, bool_decide (numbered_id base suffix ∉ existing)) (seqZ 2 9998) with
    | Some suffix => Ok (numbered_id base suffix)
    | None => Throw (ValidationError "cannot allocate a unique source identifier")
    end.

(** The sources before the first one with an identifier, it, and those after it.
    src/daemon/control/ProfileAdministrationService.cpp:211-218 *)
Fixpoint find_source (sources : list Json) (source_id : string)
    : res (option (list Json * Json * list Json)) :=
  match sources with
  | [] => Ok None
  | source :: sources =>
      id ← json_value get_string source "id" "";
      if (id =? source_id)%string then Ok (Some ([], source, sources))
      else
        found ← find_source sources source_id;
        Ok (match found with
            | Some (before, found, after) => Some (source :: before, found, after)
            | None => None
            end)
  end.

(** ** Authorisation and versions *)

(** src/daemon/control/ProfileAdministrationService.cpp:220-227 *)
Definition require_authorized (caller : string) (action : ManagerAuthorizationAction) : Admin unit :=
  let denied : Admin unit := admin_error NotAuthorized "profile administration was not authorized" in
  if str_empty caller then denied
  else
    authorized ← call (AdminAuthorize caller action);
    if negb authorized then denied
    else
      active ← call (AdminActive caller);
      if negb active then denied else mret tt.

(** src/daemon/control/ProfileAdministrationService.cpp:229-240 *)
Definition expected_profile (profile_id : ProfileId) (generation fingerprint : string) : EditableProfile :=
  mkEditable (id_value profile_id) generation fingerprint "".

(** src/daemon/control/ProfileAdministrationService.cpp:242-250 *)
Definition same_version (current expected : EditableProfile) : bool :=
  (ep_profile_id current =? ep_profile_id expected)%string
  && (ep_generation current =? ep_generation expected)%string
  && (ep_fingerprint current =? ep_fingerprint expected)%string.

(** src/daemon/control/ProfileAdministrationService.cpp:252-262 *)
Definition require_current (current : option EditableProfile) (expected : EditableProfile) : res unit :=
  let changed := ManagerOperationError Conflict "profile configuration changed" in
  match current with
  | None => require (str_empty (ep_generation expected) && str_empty (ep_fingerprint expected)) changed
  | Some current => require (same_version current expected) changed
  end.

(** ** Reading *)

(** The loop over the sources.
    src/daemon/control/ProfileAdministrationService.cpp:276-288 *)
Fixpoint sources_health (sources : list Json) : Admin ProfileConfigurationHealth :=
  match sources with
  | [] => mret (mkHealth true "")
  | source :: sources =>
      subvolume ← lift (v ← json_at source "subvolume"; get_string v);
      state ← call (InspectSubvolume subvolume);
      match state with
      | SourceAvailable => sources_health sources
      | SourceIsMissing => mret (mkHealth false "configuration.source_missing")
      | SourceIsNotSubvolume => mret (mkHealth false "configuration.source_not_subvolume")
      | SourceIsUnavailable => mret (mkHealth false "configuration.source_unavailable")
      end
  end.

(** src/daemon/control/ProfileAdministrationService.cpp:271-290 *)
Definition configuration_health (profile_id : string) : Admin ProfileConfigurationHealth :=
  id ← lift (make_ident KProfile profile_id);
  profile ← call (FindProfile id);
  profile ← lift (require_existing profile);
  document ← lift (json_parse (ep_document profile));
  sources ← lift (v ← json_at document "sources"; source_items v);
  sources_health sources.

Definition configured_subvolumes (document : Json) : res (list string) :=
  sources ← (v ← json_at document "sources"; source_items v);
  res_mapM (λ source, subvolume ← (v ← json_at source "subvolume"; get_string v);
                      Ok (lexically_normal subvolume)) sources.

Definition subvolume_less (a b : ProfileSourceCandidate) : bool :=
  str_less (lexically_normal (ps_subvolume a)) (lexically_normal (ps_subvolume b)).

(** src/daemon/control/ProfileAdministrationService.cpp:292-322 *)
Definition details_from (profile : EditableProfile) : Admin ProfileDetails :=
  health ← configuration_health (ep_profile_id profile);
  document ← lift (json_parse (ep_document profile));
  configured ← lift (configured_subvolumes document);
  target_uuid ← lift (target_filesystem_uuid document);
  candidates ← call SourceCandidates;
  let offered := List.filter (λ candidate,
    negb (bool_decide (lexically_normal (ps_subvolume candidate) ∈ configured))
    && (str_empty target_uuid || negb (ps_filesystem_uuid candidate =? target_uuid)%string)) candidates in
  mret (mkDetails (ep_profile_id profile) (ep_generation profile) (ep_fingerprint profile)
          (ep_document profile) (ph_valid health) (ph_error_code health) (std_sort subvolume_less offered)).

(** src/daemon/control/ProfileAdministrationService.cpp:264-269 *)
Definition get_profile_details (profile_id : string) : Admin ProfileDetails :=
  id ← lift (make_ident KProfile profile_id);
  profile ← call (FindProfile id);
  profile ← lift (require_existing profile);
  details_from profile.

(** ** Selected sources *)

(** src/daemon/control/ProfileAdministrationService.cpp:79-83 *)
Definition expire_source_candidates (now : Z) (stored : AdminState) : AdminState :=
  filter (λ item, now < ss_expires_at item.2) stored.

Definition caller_candidates (caller profile_id : string) (stored : AdminState) : nat :=
  size (filter (λ item, ss_caller item.2 = caller /\ ss_profile_id item.2 = profile_id) stored).

(** The attempts at a new identifier.
    src/daemon/control/ProfileAdministrationService.cpp:120-131 *)
Fixpoint allocate_candidate (attempts : nat) (stored : AdminState) (candidate : ProfileSourceCandidate)
    (caller profile_id : string) (expires_at : Z) : Admin ProfileSourceCandidate :=
  match attempts with
  | O => admin_error Conflict "cannot allocate a profile source candidate identifier"
  | S attempts =>
      id ← call NewCandidateId;
      if str_empty id || bool_decide (is_Some (stored !! id))
      then allocate_candidate attempts stored candidate caller profile_id expires_at
      else
        let candidate := candidate <| ps_id := id |> in
        _ ← put (<[id := mkStoredSource candidate caller profile_id expires_at]> stored);
        mret candidate
  end.

(** [candidate_lifetime] is in seconds.
    src/daemon/control/ProfileAdministrationService.cpp:85-132 *)
Definition register_source_candidate (candidate_lifetime : Z) (caller profile_id : string) (descriptor : Z)
    (identity : BrowseAccessIdentity) : Admin ProfileSourceCandidate :=
  let inactive : Admin unit := admin_error NotAuthorized "source selection requires an active caller" in
  _ ← (if str_empty caller then inactive
       else active ← call (AdminActive caller); if negb active then inactive else mret tt);
  id ← lift (make_ident KProfile profile_id);
  existing ← call (FindProfile id);
  profile ← lift (require_existing existing);
  target_uuid ← lift (document ← json_parse (ep_document profile); target_filesystem_uuid document);
  candidate ← call (CandidateFromDescriptor descriptor identity);
  if negb (str_empty target_uuid) && (ps_filesystem_uuid candidate =? target_uuid)%string
  then admin_error SourceUnavailable "backup target cannot be used as a source"
  else
    now ← call AdminClock;
    Lock (λ stored,
      let stored := expire_source_candidates now stored in
      _ ← put stored;
      if (16 <=? caller_candidates caller profile_id stored)%nat
      then admin_error Conflict "too many active profile source candidates"
      else if 1024 <=? Z.of_nat (size stored)
      then admin_error Conflict "too many active profile source candidates"
      else allocate_candidate 16 stored candidate caller profile_id (now + candidate_lifetime * ns_per_s)).

(** src/daemon/control/ProfileAdministrationService.cpp:324-352 *)
Definition require_source_candidate (caller profile_id candidate_id excluded_filesystem_uuid : string)
    : Admin ProfileSourceCandidate :=
  now ← call AdminClock;
  stored ← Lock (λ stored,
    let stored := expire_source_candidates now stored in
    _ ← put stored;
    match stored !! candidate_id with
    | None => mret None
    | Some item =>
        if (ss_caller item =? caller)%string && (ss_profile_id item =? profile_id)%string
        then mret (Some (ss_candidate item))
        else admin_error SourceUnavailable "source candidate is unavailable"
    end);
  match stored with
  | Some candidate => mret candidate
  | None =>
      candidates ← call SourceCandidates;
      let gone : Admin ProfileSourceCandidate :=
        admin_error SourceUnavailable "source candidate is no longer available" in
      match find_if (λ candidate, (ps_id candidate =? candidate_id)%string) candidates with
      | None => gone
      | Some candidate =>
          if negb (str_empty excluded_filesystem_uuid)
             && (ps_filesystem_uuid candidate =? excluded_filesystem_uuid)%string
          then gone else mret candidate
      end
  end.

(** src/daemon/control/ProfileAdministrationService.cpp:354-362 *)
Definition consume_source_candidate (caller candidate_id : string) : Admin unit :=
  Lock (λ stored,
    match stored !! candidate_id with
    | Some item =>
        if (ss_caller item =? caller)%string then put (delete candidate_id stored) else mret tt
    | None => mret tt
    end).

(** src/daemon/control/ProfileAdministrationService.cpp:364-375 *)
Definition require_available_subvolume (subvolume : path) : Admin unit :=
  state ← call (InspectSubvolume subvolume);
  match state with
  | SourceAvailable => mret tt
  | SourceIsMissing => admin_error SourceMissing "source subvolume does not exist"
  | SourceIsNotSubvolume => admin_error SourceNotSubvolume "source path is not a Btrfs subvolume"
  | SourceIsUnavailable => admin_error SourceUnavailable "source subvolume cannot be inspected"
  end.

(** ** Changes *)

Definition saved_profile (saved : ProfileDraftResult) : EditableProfile :=
  mkEditable (dr_profile_id saved) (dr_generation saved) (dr_fingerprint saved) (dr_document saved).

(** src/daemon/control/ProfileAdministrationService.cpp:377-391 *)
Definition save_document (caller : string) (current : EditableProfile) (document : string)
    (source_to_recheck : option path) : Admin ProfileDetails :=
  id ← lift (make_ident KProfile (ep_profile_id current));
  draft ← call (ValidateDraft id document);
  _ ← require_authorized caller ManageProfileConfiguration;
  now ← call (FindProfile id);
  _ ← lift (require_current now current);
  _ ← match source_to_recheck with
      | Some subvolume => require_available_subvolume subvolume
      | None => mret tt
      end;
  saved ← call (SaveProfile current draft false);
  details_from (saved_profile saved).

(** What every change begins with: the profile, if it is the one the caller has seen. *)
Definition existing_profile (profile_id generation fingerprint : string)
    : Admin (ProfileId * EditableProfile) :=
  id ← lift (make_ident KProfile profile_id);
  current ← call (FindProfile id);
  _ ← lift (require_current current (expected_profile id generation fingerprint));
  existing ← lift (require_existing current);
  mret (id, existing).

(** src/daemon/control/ProfileAdministrationService.cpp:407-409 *)
Definition changed_settings (request document : Json) : res Json :=
  name ← request_value get_string request "name";
  document ← json_assign document "name" (JString name);
  daily ← request_value get_bool request "dailyLimit";
  document ← json_update document "settings" (λ settings, json_assign settings "dailyLimit" (JBool daily));
  eject ← request_value get_bool request "autoEject";
  json_update document "settings" (λ settings, json_assign settings "autoEject" (JBool eject)).

(** src/daemon/control/ProfileAdministrationService.cpp:393-411 *)
Definition update_profile_settings (caller profile_id generation fingerprint payload : string)
    : Admin ProfileDetails :=
  found ← existing_profile profile_id generation fingerprint;
  request ← lift (parse_request payload ["name"; "dailyLimit"; "autoEject"]);
  document ← lift (json_parse (ep_document found.2));
  document ← lift (changed_settings request document);
  text ← lift (dump_json document);
  save_document caller found.2 text None.

(** The source that is added.
    src/daemon/control/ProfileAdministrationService.cpp:434-443 *)
Definition new_source (candidate : ProfileSourceCandidate) (source_id name : string)
    (local_retention remote_retention : Z) : Json :=
  JObject [("id", JString source_id); ("name", JString name); ("enabled", JBool true);
           ("subvolume", JString (lexically_normal (ps_subvolume candidate)));
           ("localSnapshotDir",
            JString (lexically_normal (path_append (ps_local_snapshot_root candidate) source_id)));
           ("remoteSubdir", JString source_id); ("localRetention", JInt local_retention);
           ("remoteRetention", JInt remote_retention)].

(** src/daemon/control/ProfileAdministrationService.cpp:433-443 *)
Definition with_new_source (request document : Json) (name : string) (candidate : ProfileSourceCandidate)
    : res Json :=
  json_update document "sources" (λ sources,
    items ← source_items sources;
    source_id ← unique_source_id items name;
    local_retention ← request_value get_i32 request "localRetention";
    remote_retention ← request_value get_i32 request "remoteRetention";
    Ok (JArray (items ++ [new_source candidate source_id name local_retention remote_retention]))).

(** src/daemon/control/ProfileAdministrationService.cpp:413-460 *)
Definition add_profile_source (caller profile_id generation fingerprint payload : string)
    : Admin ProfileDetails :=
  found ← existing_profile profile_id generation fingerprint;
  request ← lift (parse_request payload ["name"; "candidateId"; "localRetention"; "remoteRetention"]);
  document ← lift (json_parse (ep_document found.2));
  name ← lift (request_value get_string request "name");
  candidate_id ← lift (request_value get_string request "candidateId");
  target_uuid ← lift (target_filesystem_uuid document);
  candidate ← require_source_candidate caller profile_id candidate_id target_uuid;
  _ ← require_available_subvolume (ps_subvolume candidate);
  document ← lift (with_new_source request document name candidate);
  text ← lift (dump_json document);
  draft ← call (ValidateDraft found.1 text);
  _ ← require_authorized caller ManageProfileConfiguration;
  now ← call (FindProfile found.1);
  _ ← lift (require_current now found.2);
  resolved ← call (ResolveCandidate (ps_subvolume candidate));
  let resolved := resolved <| ps_id := ps_id candidate |> in
  if negb (same_source_candidate candidate resolved)
     || negb (str_empty target_uuid) && (ps_filesystem_uuid resolved =? target_uuid)%string
  then admin_error Conflict "source candidate changed"
  else
    _ ← require_available_subvolume (ps_subvolume resolved);
    saved ← call (SaveProfile found.2 draft false);
    _ ← consume_source_candidate caller candidate_id;
    details_from (saved_profile saved).

(** The source with its new settings.
    src/daemon/control/ProfileAdministrationService.cpp:481-483 *)
Definition changed_source (request source : Json) : res Json :=
  name ← request_value get_string request "name";
  source ← json_assign source "name" (JString name);
  local_retention ← request_value get_i32 request "localRetention";
  source ← json_assign source "localRetention" (JInt local_retention);
  remote_retention ← request_value get_i32 request "remoteRetention";
  json_assign source "remoteRetention" (JInt remote_retention).

(** [document["sources"]], with the source of an identifier changed or removed. *)
Definition edit_source (document : Json) (source_id : string) (edit : Json -> res (list Json)) : res Json :=
  json_update document "sources" (λ sources,
    items ← source_items sources;
    found ← find_source items source_id;
    match found with
    | None => Throw (ManagerOperationError NotFound "profile source does not exist")
    | Some (before, source, after) => edited ← edit source; Ok (JArray (before ++ edited ++ after))
    end).

(** src/daemon/control/ProfileAdministrationService.cpp:462-485 *)
Definition update_profile_source (caller profile_id source_id generation fingerprint payload : string)
    : Admin ProfileDetails :=
  found ← existing_profile profile_id generation fingerprint;
  request ← lift (parse_request payload ["name"; "localRetention"; "remoteRetention"]);
  document ← lift (json_parse (ep_document found.2));
  document ← lift (edit_source document source_id (λ source, edited ← changed_source request source; Ok [edited]));
  text ← lift (dump_json document);
  save_document caller found.2 text None.

(** src/daemon/control/ProfileAdministrationService.cpp:487-506 *)
Definition remove_profile_source (caller profile_id source_id generation fingerprint : string)
    : Admin ProfileDetails :=
  found ← existing_profile profile_id generation fingerprint;
  document ← lift (json_parse (ep_document found.2));
  document ← lift (edit_source document source_id (λ _, Ok []));
  text ← lift (dump_json document);
  save_document caller found.2 text None.

(** src/daemon/control/ProfileAdministrationService.cpp:508-520 *)
Definition delete_profile (caller profile_id generation fingerprint : string) : Admin unit :=
  id ← lift (make_ident KProfile profile_id);
  let expected := expected_profile id generation fingerprint in
  current ← call (FindProfile id);
  _ ← lift (require_current current expected);
  _ ← require_authorized caller DeleteProfileConfiguration;
  current ← call (FindProfile id);
  _ ← lift (require_current current expected);
  call (DeleteProfile expected).

(** src/daemon/control/ProfileAdministrationService.cpp:522-533 *)
Definition retire_unsupported_profile (caller profile_id : string) : Admin unit :=
  id ← lift (make_ident KProfile profile_id);
  expected ← call (InspectUnsupported id);
  _ ← require_authorized caller DeleteProfileConfiguration;
  now ← call (InspectUnsupported id);
  if decide (now = expected) then call (RetireUnsupported expected)
  else admin_error Conflict "profile configuration changed".

(** src/daemon/control/ProfileAdministrationService.cpp:535-547 *)
Definition set_profile_enabled (caller profile_id : string) (enabled : bool) : Admin unit :=
  id ← lift (make_ident KProfile profile_id);
  current ← call (FindProfile id);
  current ← lift (require_existing current);
  _ ← require_authorized caller SetProfileEnabled;
  now ← call (FindProfile id);
  _ ← lift (require_current now current);
  call (SetEnabled current enabled).

(** ** Requests *)

Inductive AdminRequest :=
| AskSettings (generation fingerprint payload : string)
| AskAddSource (generation fingerprint payload : string)
| AskUpdateSource (source_id generation fingerprint payload : string)
| AskRemoveSource (source_id generation fingerprint : string)
| AskDelete (generation fingerprint : string)
| AskRetire
| AskSetEnabled (enabled : bool)
| AskRegister (lifetime descriptor : Z) (identity : BrowseAccessIdentity)
| AskDetails.

Definition forget {A} (m : Admin A) : Admin unit := _ ← m; mret tt.

Definition admin_request (caller profile_id : string) (request : AdminRequest) : Admin unit :=
  match request with
  | AskSettings g f payload => forget (update_profile_settings caller profile_id g f payload)
  | AskAddSource g f payload => forget (add_profile_source caller profile_id g f payload)
  | AskUpdateSource id g f payload => forget (update_profile_source caller profile_id id g f payload)
  | AskRemoveSource id g f => forget (remove_profile_source caller profile_id id g f)
  | AskDelete g f => delete_profile caller profile_id g f
  | AskRetire => retire_unsupported_profile caller profile_id
  | AskSetEnabled enabled => set_profile_enabled caller profile_id enabled
  | AskRegister lifetime fd identity => forget (register_source_candidate lifetime caller profile_id fd identity)
  | AskDetails => forget (get_profile_details profile_id)
  end.

(** The version of the profile that the caller names, when its request names one. *)
Definition named_version (request : AdminRequest) : option (string * string) :=
  match request with
  | AskSettings g f _ | AskAddSource g f _ | AskUpdateSource _ g f _ | AskRemoveSource _ g f
  | AskDelete g f => Some (g, f)
  | _ => None
  end.

End administration.

(** ** What precedes a change *)

Abbreviation AdminEntry := (entry AdminState AdminOp).

(** An entry that changes no profile. *)
Definition no_change (e : AdminEntry) : Prop :=
  match e with
  | Did (SaveProfile _ _ _) _ | Did (DeleteProfile _) _ | Did (RetireUnsupported _) _
  | Did (SetEnabled _ _) _ => False
  | _ => True
  end.

(** The action was granted to the caller, which was then still active. *)
Definition granted (caller : string) (action : ManagerAuthorizationAction) : list AdminEntry :=
  [Did (AdminAuthorize caller action) (Ok true); Did (AdminActive caller) (Ok true)].

Definition version_of (p : EditableProfile) : string * string := (ep_generation p, ep_fingerprint p).

(** The profile is there, under the identifier and at the version [expected]; or it is not there,
    and the version [expected] is the empty one. *)
Definition unchanged_from (expected : EditableProfile) (current : option EditableProfile) : Prop :=
  match current with
  | Some now => ep_profile_id now = ep_profile_id expected /\ version_of now = version_of expected
  | None => version_of expected = ("", "")
  end.

(** The action was granted, and the profile was then looked up again and found unchanged. *)
Definition found_again (caller : string) (action : ManagerAuthorizationAction) (profile_id : string)
    (expected : EditableProfile) (pre : list AdminEntry) : Prop :=
  exists before id current between,
    pre = before ++ granted caller action ++ Did (FindProfile id) (Ok current) :: between /\
    Forall no_change between /\ id_value id = profile_id /\ unchanged_from expected current.

(** What is established before a profile is changed. *)
Definition justified (caller profile_id : string) (version : option (string * string))
    (pre : list AdminEntry) (e : AdminEntry) : Prop :=
  match e with
  | Did (SaveProfile expected draft allow_hook_changes) _ =>
      allow_hook_changes = false /\ version = Some (version_of expected) /\
      ep_profile_id expected = profile_id /\
      found_again caller ManageProfileConfiguration profile_id expected pre /\
      exists id document, Did (ValidateDraft id document) (Ok draft) ∈ pre
  | Did (DeleteProfile expected) _ =>
      version = Some (version_of expected) /\ ep_profile_id expected = profile_id /\
      found_again caller DeleteProfileConfiguration profile_id expected pre
  | Did (SetEnabled expected _) _ => found_again caller SetProfileEnabled profile_id expected pre
  | Did (RetireUnsupported expected) _ =>
      exists before id, pre = before ++ granted caller DeleteProfileConfiguration
                                ++ [Did (InspectUnsupported id) (Ok expected)] /\ id_value id = profile_id
  | _ => True
  end.

Lemma no_change_justified caller profile_id version e :
  no_change e -> forall pre, justified caller profile_id version pre e.
Proof. destruct e as [X o r|?|? ?]; [|done..]. by destruct o. Qed.

Section justification.
Context `{JsonText}.
Context (caller profile_id : string) (version : option (string * string)).
Abbreviation J := (justified caller profile_id version).
Abbreviation wpa := (wp any_answer any_change).

Abbreviation calm m R := (entries any_answer any_change no_change R m).

Lemma calm_health sources : calm (sources_health sources) (λ _, True).
Proof.
  induction sources as [|source sources IH]; cbn [sources_health]; [by apply entries_ret|].
  unfold admin_error; repeat entries_step; done.
Qed.

Lemma calm_configuration_health id : calm (configuration_health id) (λ _, True).
Proof. unfold configuration_health. unfold admin_error; repeat entries_step; try done. apply calm_health. Qed.

Lemma calm_details p : calm (details_from p) (λ _, True).
Proof.
  unfold details_from. eapply (entries_bind _ _ _ (λ _, True)); [apply calm_configuration_health|intros ? _].
  unfold admin_error; repeat entries_step; done.
Qed.

Lemma calm_get_details id : calm (get_profile_details id) (λ _, True).
Proof. unfold get_profile_details. unfold admin_error; repeat entries_step; try done. apply calm_details. Qed.

Lemma calm_available subvolume : calm (require_available_subvolume subvolume) (λ _, True).
Proof. unfold require_available_subvolume. unfold admin_error; repeat entries_step; done. Qed.

Lemma calm_consume caller' id : calm (consume_source_candidate caller' id) (λ _, True).
Proof. unfold consume_source_candidate. unfold admin_error; repeat entries_step; done. Qed.

Lemma calm_candidate c p id uuid : calm (require_source_candidate c p id uuid) (λ _, True).
Proof. unfold require_source_candidate. unfold admin_error; repeat entries_step; done. Qed.

Lemma calm_allocate n stored candidate c p at_time :
  calm (allocate_candidate n stored candidate c p at_time) (λ _, True).
Proof. induction n as [|n IH]; cbn [allocate_candidate]; unfold admin_error; repeat entries_step; done. Qed.

Lemma calm_register lifetime c p fd identity :
  calm (register_source_candidate lifetime c p fd identity) (λ _, True).
Proof. unfold register_source_candidate. unfold admin_error; repeat entries_step; try done. apply calm_allocate. Qed.

(** The profile that is found at the version the caller named. *)
Definition found_at (generation fingerprint : string) (found : ProfileId * EditableProfile) : Prop :=
  id_value found.1 = profile_id /\ ep_profile_id found.2 = profile_id /\
  version_of found.2 = (generation, fingerprint).

Lemma require_current_Some current expected :
  require_current (Some current) expected = Ok tt ->
  ep_profile_id current = ep_profile_id expected /\ version_of current = version_of expected.
Proof.
  cbn. unfold same_version, version_of. destruct (_ && _ && _) eqn:Hs; [|done]. intros _.
  rewrite !andb_true_iff, !String.eqb_eq in Hs. destruct Hs as [[-> ->] ->]. done.
Qed.

Lemma require_current_unchanged current expected :
  require_current current expected = Ok tt -> unchanged_from expected current.
Proof.
  destruct current as [now|]; [apply require_current_Some|]. cbn. unfold version_of.
  destruct (ep_generation expected), (ep_fingerprint expected); done.
Qed.

Lemma calm_existing g f : calm (existing_profile profile_id g f) (found_at g f).
Proof.
  unfold existing_profile.
  eapply (entries_bind _ _ _ (λ id, id_value id = profile_id)); [apply entries_lift; intros a; apply make_ident_Ok|].
  intros id Hid. eapply (entries_bind _ _ _ (λ _, True)); [by apply entries_call|]. intros current _.
  eapply (entries_bind _ _ _ (λ _, require_current current (expected_profile id g f) = Ok tt));
    [by apply entries_lift; intros []|]. intros _ Hc.
  eapply (entries_bind _ _ _ (λ existing, current = Some existing));
    [apply entries_lift; intros existing; destruct current; cbn; congruence|].
  intros existing ->. apply entries_ret. destruct (require_current_Some _ _ Hc) as [Hp Hv].
  split_and!; [done| |exact Hv]. cbn. by rewrite Hp.
Qed.

Lemma ordered_calm t u : ordered J t -> Forall no_change u -> ordered J (t ++ u).
Proof.
  intros Ht Hu. apply ordered_app; [done|]. eapply Forall_impl; [exact Hu|]. apply no_change_justified.
Qed.

Lemma wp_authorized {B} action (k : unit -> Admin B) (Φ : list AdminEntry -> res B -> AdminState -> Prop) t s :
  (forall u e s', Forall no_change u -> Φ (t ++ u) (Throw e) s') ->
  wpa (k tt) Φ (t ++ granted caller action) s -> wpa (require_authorized caller action ≫= k) Φ t s.
Proof.
  intros He Hk. rewrite prog_wp_bind. unfold require_authorized.
  destruct (str_empty caller); [rewrite <-(app_nil_r t); by apply He|]. cbn.
  intros [[]|e] _; cbn; [|by apply He; repeat constructor..].
  intros [[]|e] _; cbn; [|rewrite <-app_assoc; by apply He; repeat constructor..].
  by rewrite <-app_assoc.
Qed.

Definition finished {A} (t : list AdminEntry) (r : res A) (s : AdminState) : Prop := ordered J t.

Lemma wp_calm {A B} (m : Admin A) (f : A -> Admin B) R t s :
  calm m R -> ordered J t ->
  (forall a u s', R a -> Forall no_change u -> ordered J (t ++ u) -> wpa (f a) finished (t ++ u) s') ->
  wpa (m ≫= f) finished t s.
Proof.
  intros Hm Ht Hf. eapply wp_entries; [exact Hm| |].
  - intros e u s' Hu. by apply ordered_calm.
  - intros a u s' Ha Hu. apply Hf; [done..|]. by apply ordered_calm.
Qed.

Lemma admin_wp_lift {A B} (r : res A) (f : A -> Admin B) t s :
  ordered J t -> (forall a, r = Ok a -> wpa (f a) finished t s) -> wpa (lift r ≫= f) finished t s.
Proof. intros Ht Hf. destruct r as [a|e]; [by apply Hf|done]. Qed.

Lemma calm_finish {A} (m : Admin A) t s : calm m (λ _, True) -> ordered J t -> wpa m finished t s.
Proof.
  intros Hm Ht. eapply prog_wp_mono; [|apply Hm]. cbn. intros t' r s' [(u & -> & Hu) _]. by apply ordered_calm.
Qed.

(** After the authorisation the profile is found again at the version [expected]. *)
Lemma wp_found_again {B} action id expected (k : unit -> Admin B) t s :
  ordered J t -> id_value id = profile_id ->
  (forall t' s', ordered J t' -> found_again caller action profile_id expected t' ->
     (forall e, e ∈ t -> e ∈ t') -> wpa (k tt) finished t' s') ->
  wpa (_ ← require_authorized caller action; now ← call (FindProfile id);
       lift (require_current now expected) ≫= k) finished t s.
Proof.
  intros Ht Hid Hk. apply wp_authorized; [by intros; apply ordered_calm|].
  assert (Hg : Forall no_change (granted caller action)) by by repeat constructor.
  rewrite prog_wp_bind. cbn -[require_current]. intros [now|e] _.
  - assert (Ht' : ordered J ((t ++ granted caller action) ++ [Did (FindProfile id) (Ok now)]))
      by (apply ordered_calm; [by apply ordered_calm|by repeat constructor]).
    apply admin_wp_lift; [done|]. intros [] Hc. apply Hk; [done| |set_solver].
    exists t, id, now, []. rewrite <-!app_assoc. do 3 (split; [done|]). by apply require_current_unchanged.
  - apply ordered_calm; [by apply ordered_calm|by repeat constructor].
Qed.

Lemma found_again_app action expected t u :
  found_again caller action profile_id expected t -> Forall no_change u ->
  found_again caller action profile_id expected (t ++ u).
Proof.
  intros (before & id & current & between & -> & Hb & Hr) Hu. exists before, id, current, (between ++ u).
  rewrite <-!app_assoc. split_and!; [done|by apply Forall_app|naive_solver..].
Qed.

Lemma admin_wp_call {X B} (o : AdminOp X) (f : X -> Admin B) t s :
  ordered J t -> (forall r, no_change (Did o r)) ->
  (forall x, ordered J (t ++ [Did o (Ok x)]) -> wpa (f x) finished (t ++ [Did o (Ok x)]) s) ->
  wpa (call o ≫= f) finished t s.
Proof.
  intros Ht Ho Hf. rewrite prog_wp_bind. intros r _.
  assert (ordered J (t ++ [Did o r])) by (apply ordered_calm; [done|by repeat constructor]).
  destruct r as [x|e]; [by apply Hf|done].
Qed.

Lemma wp_change {X B} (o : AdminOp X) (k : X -> Admin B) t s :
  ordered J t -> (forall r, J t (Did o r)) -> (forall x, calm (k x) (λ _, True)) ->
  wpa (call o ≫= k) finished t s.
Proof.
  intros Ht Ho Hk. rewrite prog_wp_bind. cbn. intros r _.
  assert (ordered J (t ++ [Did o r])) by (apply ordered_snoc; auto).
  destruct r as [x|e]; [by apply calm_finish|done].
Qed.

Lemma save_justified expected draft t r :
  version = Some (version_of expected) -> ep_profile_id expected = profile_id ->
  found_again caller ManageProfileConfiguration profile_id expected t ->
  (exists id document, Did (ValidateDraft id document) (Ok draft) ∈ t) ->
  J t (Did (SaveProfile expected draft false) r).
Proof. intros. by split_and!. Qed.

Lemma wp_save_document current document t s :
  ep_profile_id current = profile_id -> version = Some (version_of current) -> ordered J t ->
  wpa (save_document caller current document None) finished t s.
Proof.
  intros Hp Hv Ht. unfold save_document. apply admin_wp_lift; [done|]. intros id Hid%make_ident_Ok.
  apply admin_wp_call; [done..|]. intros draft Ho. apply wp_found_again; [done|congruence|].
  intros t' s' Ht' Hf Hin. apply wp_change; [done| |intros; apply calm_details].
  intros r. apply save_justified; [done..|]. exists id, document. apply Hin. set_solver.
Qed.

Lemma wp_forget {A} (m : Admin A) t s : wpa m finished t s -> wpa (forget m) finished t s.
Proof.
  intros Hm. unfold forget. rewrite prog_wp_bind. eapply prog_wp_mono; [|exact Hm]. cbn.
  by intros t' [a|e] s' ?.
Qed.

(** The requests that edit the document and save it. *)
Lemma wp_edit {A B} g f (parse : res A) (edit : A -> Json -> res B) (dump : B -> res string) t s :
  version = Some (g, f) -> ordered J t ->
  wpa (found ← existing_profile profile_id g f; request ← lift parse;
       document ← lift (json_parse (ep_document found.2)); document ← lift (edit request document);
       text ← lift (dump document); save_document caller found.2 text None) finished t s.
Proof.
  intros Hv Ht. eapply wp_calm; [apply calm_existing|done|]. intros [id existing] u s' (Hid & Hp & Hver) Hu Ho.
  cbn [fst snd] in *. do 4 (apply admin_wp_lift; [done|]; intros ? _). apply wp_save_document; [done| |done].
  by rewrite Hver.
Qed.

Lemma wp_add_source g f payload t s :
  version = Some (g, f) -> ordered J t ->
  wpa (add_profile_source caller profile_id g f payload) finished t s.
Proof.
  intros Hv Ht. unfold add_profile_source. eapply wp_calm; [apply calm_existing|done|].
  intros [id existing] u1 s1 (Hid & Hp & Hver) _ Ho1. cbn [fst snd] in *.
  do 5 (apply admin_wp_lift; [done|]; intros ? _).
  eapply wp_calm; [apply calm_candidate|done|]. intros candidate u2 s2 _ _ Ho2.
  eapply wp_calm; [apply calm_available|done|]. intros _ u3 s3 _ _ Ho3.
  do 2 (apply admin_wp_lift; [done|]; intros ? _).
  apply admin_wp_call; [done..|]. intros draft Ho4. apply wp_found_again; [done..|].
  intros t' s' Ht' Hf Hin.
  eapply (wp_calm _ _ (λ _, True)); [by apply entries_call|done|]. intros resolved u4 s4 _ Hu4 Ho5. cbv zeta.
  destruct (_ || _); [done|].
  eapply wp_calm; [apply calm_available|done|]. intros _ u5 s5 _ Hu5 Ho6.
  apply wp_change; [done| |].
  - intros r. apply save_justified; [by rewrite Hver|done|by do 2 (apply found_again_app; [|done])|].
    eexists id, _. do 2 (apply elem_of_app; left). apply Hin, elem_of_app. right. by constructor.
  - intros saved. eapply (entries_bind _ _ _ (λ _, True)); [apply calm_consume|intros _ _]. apply calm_details.
Qed.

Lemma wp_delete g f t s :
  version = Some (g, f) -> ordered J t -> wpa (delete_profile caller profile_id g f) finished t s.
Proof.
  intros Hv Ht. unfold delete_profile. apply admin_wp_lift; [done|]. intros id Hid%make_ident_Ok. cbv zeta.
  eapply (wp_calm _ _ (λ _, True)); [by apply entries_call|done|]. intros current u s' _ _ Ho.
  apply admin_wp_lift; [done|]. intros [] _. apply wp_found_again; [done..|]. intros t' s2 Ht' Hf _.
  intros r _. apply ordered_snoc. split; [done|]. by split.
Qed.

Lemma wp_set_enabled enabled t s :
  ordered J t -> wpa (set_profile_enabled caller profile_id enabled) finished t s.
Proof.
  intros Ht. unfold set_profile_enabled. apply admin_wp_lift; [done|]. intros id Hid%make_ident_Ok.
  apply admin_wp_call; [done..|]. intros current Ho. apply admin_wp_lift; [done|]. intros existing _.
  apply wp_found_again; [done..|]. intros t' s' Ht' Hf _. intros r _. by apply ordered_snoc.
Qed.

Lemma wp_retire t s : ordered J t -> wpa (retire_unsupported_profile caller profile_id) finished t s.
Proof.
  intros Ht. unfold retire_unsupported_profile. apply admin_wp_lift; [done|]. intros id Hid%make_ident_Ok.
  eapply (wp_calm _ _ (λ _, True)); [by apply entries_call|done|]. intros expected u s' _ _ Ho.
  apply wp_authorized; [by intros; apply ordered_calm|].
  assert (Hg : Forall no_change (granted caller DeleteProfileConfiguration)) by by repeat constructor.
  rewrite prog_wp_bind. cbn. intros [now|e] _.
  - destruct (decide _) as [->|]; cbn.
    + intros r _. apply ordered_snoc. split.
      * apply ordered_calm; [by apply ordered_calm|by repeat constructor].
      * exists (t ++ u), id. by rewrite <-!app_assoc.
    + apply ordered_calm; [by apply ordered_calm|by repeat constructor].
  - apply ordered_calm; [by apply ordered_calm|by repeat constructor].
Qed.

End justification.

Section changes.
Context `{JsonText}.

Lemma admin_request_wp caller profile_id request s :
  wp any_answer any_change (admin_request caller profile_id request)
    (λ t _ _, ordered (justified caller profile_id (named_version request)) t) [] s.
Proof.
  assert (Hnil : forall version, ordered (justified caller profile_id version) []) by (intros; apply ordered_nil).
  destruct request; cbn [admin_request named_version].
  - apply wp_forget. by apply (wp_edit caller profile_id _ generation fingerprint _
      (λ request document, changed_settings request document)).
  - apply wp_forget. by apply wp_add_source.
  - apply wp_forget. by apply (wp_edit caller profile_id _ generation fingerprint _
      (λ request document, edit_source document source_id
         (λ source, edited ← changed_source request source; Ok [edited]))).
  - apply wp_forget. unfold remove_profile_source.
    eapply wp_calm; [apply calm_existing|done|]. intros [id existing] u s' (Hid & Hp & Hver) Hu Ho.
    cbn [fst snd] in *. do 3 (apply admin_wp_lift; [done|]; intros ? _). apply wp_save_document; [done| |done].
    by rewrite Hver.
  - by apply wp_delete.
  - by apply wp_retire.
  - by apply wp_set_enabled.
  - apply wp_forget. apply calm_finish; [apply calm_register|done].
  - apply wp_forget. apply calm_finish; [apply calm_get_details|done].
Qed.

(** C33.  Whatever the authorizer and the backend answer and other requests do meanwhile, a profile
    is saved, deleted, retired or enabled only after the authorisation of that action was granted
    to the caller, found active afterwards, and after the profile was then looked up again: it was
    there under the identifier and at the version that the change names, or it was not there and
    the change names the empty version (for a retirement, the unsupported profile was inspected
    again with the same answer).  What is saved was validated as a draft and may not change hooks;
    what is saved or deleted is the profile of the request at the version the caller named. *)
Theorem admin_changes_justified {W} (env : Env W) caller profile_id request w s :
  ordered (justified caller profile_id (named_version request))
    (run env (admin_request caller profile_id request) w s).2.
Proof.
  exact (prog_wp_run _ _ env _ _ w s (any_env_ok env) (admin_request_wp caller profile_id request s)).
Qed.
End changes.

(** ** The identifier of a new source *)

Section source_ids.

Definition id_character (c : ascii) : bool :=
  is_alnum c || Ascii.eqb c "." || Ascii.eqb c "_" || Ascii.eqb c "-".

Definition head_alnum (s : string) : bool :=
  match s with String c _ => is_alnum c | EmptyString => false end.

Lemma identifier_head s :
  str_forallb id_character s = true -> (String.length s <= 64)%nat -> match_identifier s = head_alnum s.
Proof.
  destruct s as [|c s]; [done|]. cbn -[is_alnum]. unfold match_identifier. intros Hs Hl.
  apply andb_true_iff in Hs as [_ Hs]. unfold id_character in Hs. rewrite Hs, andb_true_r.
  rewrite (proj2 (Nat.leb_le _ _)) by lia. by rewrite andb_true_r.
Qed.

Lemma to_lower_id c : is_alnum c || Ascii.eqb c "." || Ascii.eqb c "_" = true -> id_character (to_lower c) = true.
Proof. destruct c as [[] [] [] [] [] [] [] []]; vm_compute; done. Qed.

(** The characters and the length of what the loop collects. *)
Lemma id_characters_ok name result previous :
  str_forallb id_character result = true -> (String.length result < 48)%nat ->
  str_forallb id_character (id_characters name result previous) = true /\
  (String.length (id_characters name result previous) <= 48)%nat.
Proof.
  revert result previous. induction name as [|c name IH]; intros result previous Hc Hl; cbn; [split; [done|lia]|].
  assert (Hstep : forall result' previous', str_forallb id_character result' = true ->
    (String.length result' <= 48)%nat ->
    let out := if (String.length result' =? 48)%nat then result' else id_characters name result' previous' in
    str_forallb id_character out = true /\ (String.length out <= 48)%nat).
  { intros result' previous' Hc' Hl'. cbv zeta. destruct (Nat.eqb_spec (String.length result') 48) as [He|He].
    - split; [done|lia].
    - apply IH; [done|lia]. }
  destruct (is_alnum c || _ || _) eqn:Ha; [|destruct (_ && _)];
    apply Hstep; rewrite ?str_forallb_app, ?string_length_app, ?Hc; cbn; rewrite ?to_lower_id; try done; lia.
Qed.

(** The first character stays. *)
Lemma id_characters_head name c result previous :
  exists rest, id_characters name (String c result) previous = String c rest.
Proof.
  revert result previous. induction name as [|x name IH]; intros result previous;
    cbn -[Nat.eqb String.length]; [eauto|].
  destruct (is_alnum x || _ || _); [|destruct previous]; cbn -[Nat.eqb String.length];
    (destruct (Nat.eqb _ _); [eauto|apply IH]).
Qed.

Lemma strip_dashes_ok f s :
  str_forallb f s = true ->
  str_forallb f (strip_dashes s) = true /\ (String.length (strip_dashes s) <= String.length s)%nat.
Proof.
  induction s as [|c s IH]; cbn; [done|]. intros [Hc Hs]%andb_true_iff. destruct (IH Hs) as [H1 H2].
  destruct (_ && _); cbn; [split; [done|lia]|]. rewrite Hc, H1. split; [done|lia].
Qed.

Lemma strip_dashes_head c s : Ascii.eqb c "-" = false -> exists rest, strip_dashes (String c s) = String c rest.
Proof. intros Hc. cbn. rewrite Hc, andb_false_r. eauto. Qed.

Lemma source_id_candidate_ok name :
  str_forallb id_character (source_id_candidate name) = true /\
  (String.length (source_id_candidate name) <= 48)%nat.
Proof.
  unfold source_id_candidate. cbv zeta.
  destruct (id_characters_ok name "" false) as [H1 H2]; [done|cbn; lia|].
  destruct (strip_dashes_ok _ _ H1) as [H3 H4].
  destruct (str_empty _); [split; [done|cbn; lia]|]. split; [done|lia].
Qed.

Lemma substring_whole s n : (String.length s <= n)%nat -> String.substring 0 n s = s.
Proof.
  revert n. induction s as [|c s IH]; intros [|n]; cbn; try done; [lia|]. intros Hn. f_equal. apply IH. lia.
Qed.

Lemma suffix_ok suffix : suffix ∈ seqZ 2 9998 ->
  str_forallb id_character ("-" +:+ setw0 0 suffix) = true /\
  (String.length ("-" +:+ setw0 0 suffix) <= 5)%nat.
Proof.
  intros [H1 H2]%elem_of_seqZ. destruct (setw0_spec 4 suffix) as (Hl & _ & Hd); [lia..|].
  assert (Hpad : exists zeros, setw0 4 suffix = zeros +:+ setw0 0 suffix) by (unfold setw0; by eexists).
  destruct Hpad as [zeros Hpad]. rewrite Hpad in Hl, Hd.
  rewrite string_length_app in Hl. rewrite str_forallb_app in Hd. apply andb_true_iff in Hd as [_ Hd].
  cbn [String.append String.length str_forallb]. split; [|lia]. apply andb_true_iff. split; [done|].
  eapply str_forallb_impl; [|exact Hd]. intros c Hc. unfold id_character, is_alnum.
  by rewrite Hc, orb_true_r.
Qed.

Lemma unique_source_id_cases sources name id :
  unique_source_id sources name = Ok id ->
  (forall ids, existing_ids sources = Ok ids -> id ∉ ids) /\
  exists more, id = source_id_candidate name +:+ more /\ str_forallb id_character more = true /\
    (String.length more <= 5)%nat.
Proof.
  unfold unique_source_id. destruct (existing_ids sources) as [ids|e]; cbn; [|done].
  destruct (bool_decide_reflect (source_id_candidate name ∉ ids)) as [Hn|Hn].
  - intros Hid. assert (source_id_candidate name = id) as <- by congruence. split.
    + intros ids' Hids. by assert (ids' = ids) as -> by congruence.
    + exists "". rewrite string_app_nil_r. split_and!; [done..|cbn; lia].
  - destruct (find_if _ _) as [suffix|] eqn:Hf; [|done]. apply find_if_Some in Hf as [Hs Hnew%bool_decide_eq_true].
    intros Hid. assert (numbered_id (source_id_candidate name) suffix = id) as <- by congruence. split.
    + intros ids' Hids. by assert (ids' = ids) as -> by congruence.
    + exists ("-" +:+ setw0 0 suffix). unfold numbered_id. destruct (source_id_candidate_ok name) as [_ Hl].
      rewrite substring_whole by lia. split; [done|]. by apply suffix_ok.
Qed.

Lemma unique_id_head sources name id :
  unique_source_id sources name = Ok id -> match_identifier id = head_alnum (source_id_candidate name).
Proof.
  intros [_ (more & -> & Hm & Hlm)]%unique_source_id_cases. destruct (source_id_candidate_ok name) as [Hc Hl].
  rewrite identifier_head.
  - destruct (source_id_candidate name) eqn:Hb; [|done]. exfalso.
    revert Hb. unfold source_id_candidate. cbv zeta. by destruct (strip_dashes _).
  - by rewrite str_forallb_app, Hc.
  - rewrite string_length_app. lia.
Qed.

(** The identifier chosen for a new source is none of those in use, and it is an identifier,
    of the right characters and length, exactly when the first character of the name that is
    kept is a letter or a digit. *)
Theorem unique_source_id_spec sources name id :
  unique_source_id sources name = Ok id ->
  (forall ids, existing_ids sources = Ok ids -> id ∉ ids) /\
  match_identifier id = head_alnum (source_id_candidate name).
Proof. intros Hid. split; [by eapply unique_source_id_cases|by eapply unique_id_head]. Qed.

(** A source whose name begins with a dot or an underscore cannot be added: the identifier that
    is chosen for it keeps that character and is not an identifier. *)
Theorem hidden_name_gets_no_identifier sources c rest id :
  c = "."%char \/ c = "_"%char -> unique_source_id sources (String c rest) = Ok id ->
  match_identifier id = false.
Proof.
  intros Hc Hid. rewrite (unique_id_head _ _ _ Hid). unfold source_id_candidate. cbv zeta.
  assert (Hrun : exists tail, id_characters (String c rest) "" false = String c tail).
  { destruct Hc as [-> | ->]; cbn -[id_characters]; apply id_characters_head. }
  destruct Hrun as [tail ->].
  destruct (strip_dashes_head c tail) as [tail' ->]; [by destruct Hc as [-> | ->]|].
  by destruct Hc as [-> | ->].
Qed.
End source_ids.

(** ** Credentials *)

Module Credentials.

(** src/daemon/control/CredentialAdministrationService.hpp:29-36 *)
Record TargetCredential := mkCredential {
  tc_id : string;
  tc_label : string;
  tc_type : string;
  tc_keyslot : Z;
  tc_managed : bool;
  tc_automatic : bool;
}.

(** IManagerAuthorizer and what the service calls of ICredentialAdministrationBackend.
    src/daemon/control/CredentialAdministrationService.hpp:38-71 *)
Inductive CredentialOp : Type -> Type :=
| CredentialAuthorize (caller : string) (action : ManagerAuthorizationAction) : CredentialOp bool
| CredentialActive (caller : string) : CredentialOp bool
| ListCredentials (profile_id : ProfileId) : CredentialOp (list TargetCredential)
| AddPassphrase (profile_id : ProfileId) (authorization_secret_fd new_secret_fd : Z) (label : string)
    : CredentialOp unit
| AddKey (profile_id : ProfileId) (authorization_secret_fd key_fd : Z) (label : string) (automatic : bool)
    : CredentialOp unit
| GenerateKey (profile_id : ProfileId) (authorization_secret_fd : Z) (label : string) (automatic : bool)
    : CredentialOp unit
| RemoveCredential (profile_id : ProfileId) (credential_id : string) (authorization_secret_fd : Z)
    : CredentialOp unit.

Abbreviation Credential := (prog unit CredentialOp).

(** [std::isspace] in the C locale. *)
Definition is_space (c : ascii) : bool :=
  let n := nat_of_ascii c in ((9 <=? n)%nat && (n <=? 13)%nat) || (n =? 32)%nat.

Fixpoint trim_left (value : string) : string :=
  match value with
  | String c rest => if is_space c then trim_left rest else value
  | EmptyString => ""
  end.

Fixpoint trim_right (value : string) : string :=
  match value with
  | EmptyString => ""
  | String c rest =>
      let rest := trim_right rest in
      if str_empty rest && is_space c then "" else String c rest
  end.

(** src/daemon/control/CredentialAdministrationService.cpp:17-22 *)
Definition trim (value : string) : string := trim_right (trim_left value).

Definition not_authorized {A} : Credential A :=
  raise (ManagerOperationError NotAuthorized "operation is not authorized").

(** src/daemon/control/CredentialAdministrationService.cpp:41-44 *)
Definition require_active_caller (caller : string) : Credential unit :=
  if str_empty caller then not_authorized
  else active ← call (CredentialActive caller); if negb active then not_authorized else mret tt.

(** src/daemon/control/CredentialAdministrationService.cpp:46-55 *)
Definition authorize (caller method : string) : Credential unit :=
  if str_empty caller then not_authorized
  else
    match manager_method_authorization_action method with
    | None => not_authorized
    | Some action =>
        authorized ← call (CredentialAuthorize caller action);
        if negb authorized then not_authorized
        else active ← call (CredentialActive caller); if negb active then not_authorized else mret tt
    end.

(** src/daemon/control/CredentialAdministrationService.cpp:57-62 *)
Definition require_label (label : string) : res string :=
  let result := trim label in
  if str_empty result || (80 <? text_size result)
  then Throw (ManagerOperationError InvalidRequest "credential label is invalid")
  else Ok result.

(** src/daemon/control/CredentialAdministrationService.cpp:33-39 *)
Definition list_credentials (caller profile_id : string) : Credential (list TargetCredential) :=
  _ ← require_active_caller caller;
  id ← lift (make_ident KProfile profile_id);
  call (ListCredentials id).

(** src/daemon/control/CredentialAdministrationService.cpp:64-76 *)
Definition add_passphrase (caller profile_id : string) (authorization_secret_fd new_secret_fd : Z)
    (label : string) : Credential (list TargetCredential) :=
  id ← lift (make_ident KProfile profile_id);
  checked_label ← lift (require_label label);
  _ ← authorize caller "AddTargetPassphrase";
  _ ← call (AddPassphrase id authorization_secret_fd new_secret_fd checked_label);
  call (ListCredentials id).

(** src/daemon/control/CredentialAdministrationService.cpp:78-91 *)
Definition add_key (caller profile_id : string) (authorization_secret_fd key_fd : Z) (label : string)
    (automatic : bool) : Credential (list TargetCredential) :=
  id ← lift (make_ident KProfile profile_id);
  checked_label ← lift (require_label label);
  _ ← authorize caller "AddTargetKey";
  _ ← call (AddKey id authorization_secret_fd key_fd checked_label automatic);
  call (ListCredentials id).

(** src/daemon/control/CredentialAdministrationService.cpp:93-105 *)
Definition generate_key (caller profile_id : string) (authorization_secret_fd : Z) (label : string)
    (automatic : bool) : Credential (list TargetCredential) :=
  id ← lift (make_ident KProfile profile_id);
  checked_label ← lift (require_label label);
  _ ← authorize caller "GenerateTargetKey";
  _ ← call (GenerateKey id authorization_secret_fd checked_label automatic);
  call (ListCredentials id).

(** src/daemon/control/CredentialAdministrationService.cpp:107-119 *)
Definition remove_credential (caller profile_id credential_id : string) (authorization_secret_fd : Z)
    : Credential (list TargetCredential) :=
  id ← lift (make_ident KProfile profile_id);
  if str_empty credential_id
  then raise (ManagerOperationError InvalidRequest "credential id is required")
  else
    _ ← authorize caller "RemoveTargetCredential";
    _ ← call (RemoveCredential id credential_id authorization_secret_fd);
    call (ListCredentials id).

Inductive CredentialRequest :=
| AskList
| AskPassphrase (authorization_secret_fd new_secret_fd : Z) (label : string)
| AskKey (authorization_secret_fd key_fd : Z) (label : string) (automatic : bool)
| AskGenerate (authorization_secret_fd : Z) (label : string) (automatic : bool)
| AskRemove (credential_id : string) (authorization_secret_fd : Z).

Definition credential_request (caller profile_id : string) (request : CredentialRequest)
    : Credential (list TargetCredential) :=
  match request with
  | AskList => list_credentials caller profile_id
  | AskPassphrase a n label => add_passphrase caller profile_id a n label
  | AskKey a k label automatic => add_key caller profile_id a k label automatic
  | AskGenerate a label automatic => generate_key caller profile_id a label automatic
  | AskRemove id a => remove_credential caller profile_id id a
  end.

(** Neither end is white space. *)
Definition tidy (s : string) : Prop :=
  match s with String c _ => is_space c = false | EmptyString => False end /\ trim_right s = s.

Lemma trim_right_idem s : trim_right (trim_right s) = trim_right s.
Proof.
  induction s as [|c s IH]; [done|]. cbn. destruct (str_empty (trim_right s) && is_space c) eqn:Hc; [done|].
  cbn. by rewrite IH, Hc.
Qed.

Lemma trim_tidy s : str_empty (trim s) = false -> tidy (trim s).
Proof.
  unfold trim, tidy. intros Hn. split; [|apply trim_right_idem].
  assert (Hl : match trim_left s with String c _ => is_space c = false | _ => True end).
  { clear. induction s as [|c s IH]; cbn; [done|]. by destruct (is_space c) eqn:Hc; [|rewrite Hc]. }
  destruct (trim_left s) as [|c r]; [done|]. cbn in *. rewrite Hl, andb_false_r in *. done.
Qed.

Lemma require_label_Ok label checked :
  require_label label = Ok checked -> checked = trim label /\ tidy checked /\ text_size checked <= 80.
Proof.
  unfold require_label. cbv zeta. destruct (str_empty (trim label) || _) eqn:Hb; [done|].
  apply orb_false_iff in Hb as [He Hl%Z.ltb_ge]. intros Hc. assert (checked = trim label) as -> by congruence.
  split_and!; [done|by apply trim_tidy|done].
Qed.

(** The label a change is given, if it is given one. *)
Definition op_label {X} (o : CredentialOp X) : option string :=
  match o with
  | AddPassphrase _ _ _ label | AddKey _ _ _ label _ | GenerateKey _ _ label _ => Some label
  | _ => None
  end.

Definition op_profile {X} (o : CredentialOp X) : option ProfileId :=
  match o with
  | AddPassphrase id _ _ _ | AddKey id _ _ _ _ | GenerateKey id _ _ _ | RemoveCredential id _ _ => Some id
  | _ => None
  end.

(** A change follows at once on its authorisation, for the profile that was named. *)
Definition credential_justified (caller profile_id : string) (pre : list (entry unit CredentialOp))
    (e : entry unit CredentialOp) : Prop :=
  match e with
  | Did o _ =>
      (forall id, op_profile o = Some id -> id_value id = profile_id /\
         pre = [Did (CredentialAuthorize caller ManageTargetCredentials) (Ok true);
                Did (CredentialActive caller) (Ok true)]) /\
      (forall label, op_label o = Some label -> tidy label /\ text_size label <= 80)
  | _ => True
  end.

Lemma credential_request_wp caller profile_id request s :
  wp any_answer any_change (credential_request caller profile_id request)
    (λ t _ _, ordered (credential_justified caller profile_id) t) [] s.
Proof.
  assert (Hnil : ordered (credential_justified caller profile_id) []) by apply ordered_nil.
  destruct request; unfold credential_request, list_credentials, add_passphrase, add_key, generate_key,
    remove_credential, authorize, require_active_caller, not_authorized;
    cbn -[ordered app require_label text_size make_ident];
    repeat (first [progress (cbn -[ordered app require_label text_size make_ident])
      | match goal with
        | |- forall _, _ => intros ?
        | |- context [match ?x with _ => _ end] => is_var x; destruct x
        | |- context [if negb ?b then _ else _] => destruct b
        | |- context [make_ident ?k ?v] => destruct (make_ident k v) eqn:?
        | |- context [require_label ?l] => destruct (require_label l) eqn:?
        | |- context [str_empty ?l] => destruct (str_empty l) eqn:?
        end]); try done;
    autorewrite with trace; cbn -[ordered app require_label text_size];
    repeat match goal with
    | H : make_ident _ _ = Ok _ |- _ => apply make_ident_Ok in H
    | H : require_label _ = Ok _ |- _ => apply require_label_Ok in H as (_ & ? & ?)
    end; repeat split; intros; simplify_eq; try done;
    by match goal with Ht : tidy _ |- _ => destruct Ht end.
Qed.

(** A credential of a target is added, generated or removed only at once after the caller was
    authorised to manage credentials and found active, for the profile it named; its label is
    not empty, has no white space at its ends and at most 80 bytes. *)
Theorem credential_changes_authorised {W} (env : Env W) caller profile_id request w s :
  ordered (credential_justified caller profile_id)
    (run env (credential_request caller profile_id request) w s).2.
Proof.
  exact (prog_wp_run _ _ env _ _ w s (any_env_ok env) (credential_request_wp caller profile_id request s)).
Qed.

End Credentials.

(** ** Examples *)

Module AdminExample.

Definition ex_sources : list Json := [JObject [("id", JString "home")]; JObject [("id", JString "home-2")]].

Example ex_candidates :
  source_id_candidate "My  Home (SSD)" = "my-home-ssd" /\ source_id_candidate "/?" = "source" /\
  source_id_candidate ".config" = ".config".
Proof. split_and!; reflexivity. Qed.

Lemma unique_source_id_spec_witness :
  unique_source_id ex_sources "Home" = Ok "home-3" /\
  (forall ids, existing_ids ex_sources = Ok ids -> "home-3" ∉ ids) /\
  match_identifier "home-3" = head_alnum (source_id_candidate "Home").
Proof.
  assert (H : unique_source_id ex_sources "Home" = Ok "home-3") by (vm_compute; reflexivity).
  split; [exact H|]. exact (unique_source_id_spec ex_sources "Home" "home-3" H).
Defined.

Lemma hidden_name_gets_no_identifier_witness :
  unique_source_id [] ".config" = Ok ".config" /\ match_identifier ".config" = false.
Proof.
  assert (H : unique_source_id [] ".config" = Ok ".config") by (vm_compute; reflexivity).
  split; [exact H|].
  exact (hidden_name_gets_no_identifier [] "."%char "config" ".config" (or_introl eq_refl) H).
Defined.

(** A backend that has one profile, and grants what it is asked. *)
Definition ex_stored : EditableProfile := mkEditable "laptop" "7" "f00d" "".

Definition ex_admin_call X (o : AdminOp X) (w : unit) : res X * unit :=
  match o in AdminOp X return res X * unit with
  | AdminAuthorize _ _ | AdminActive _ => (Ok true, w)
  | FindProfile _ => (Ok (Some ex_stored), w)
  | ValidateDraft _ _ | SaveProfile _ _ _ => (Ok (mkDraft "laptop" "8" "beef" "" true), w)
  | DeleteProfile _ | RetireUnsupported _ | SetEnabled _ _ => (Ok tt, w)
  | InspectUnsupported _ => (Ok (mkUnsupported "laptop" 1 "f00d" None), w)
  | InspectSubvolume _ => (Ok SourceAvailable, w)
  | SourceCandidates => (Ok [], w)
  | CandidateFromDescriptor _ _ | ResolveCandidate _ => (Ok (mkProfileSource "" "/home" "" "/" "/" ""), w)
  | NewCandidateId => (Ok "candidate", w)
  | AdminClock => (Ok 0, w)
  end.

Definition ex_admin_env : @Env AdminState AdminOp unit := mkEnv ex_admin_call (λ w s, (s, w)).

(** Deleting the version one has seen deletes it; deleting another is refused. *)
Example ex_delete :
  (run ex_admin_env (delete_profile ":1.7" "laptop" "7" "f00d") tt ∅).1.1 = Ok tt /\
  (run ex_admin_env (delete_profile ":1.7" "laptop" "6" "f00d") tt ∅).1.1
    = Throw (ManagerOperationError Conflict "profile configuration changed").
Proof. split; vm_compute; reflexivity. Qed.

(** A backend that has no profile. *)
Definition ex_empty_call X (o : AdminOp X) (w : unit) : res X * unit :=
  match o in AdminOp X return res X * unit -> res X * unit with
  | FindProfile _ => λ _, (Ok None, w)
  | _ => λ answer, answer
  end (ex_admin_call X o w).

Definition ex_empty_env : @Env AdminState AdminOp unit := mkEnv ex_empty_call (λ w s, (s, w)).

(** The deletion of a profile that is not there passes both checks when the caller names the empty
    version: the backend is asked to delete it. *)
Example missing_profile_deleted :
  let '(r, _, t) := run ex_empty_env (delete_profile ":1.7" "laptop" "" "") tt ∅ in
  r = Ok tt /\ existsb (λ e, match e with Did (DeleteProfile _) _ => true | _ => false end) t = true.
Proof. vm_compute. done. Qed.

End AdminExample.
