(* ===== verification/RestoreCatalog.v ===== *)
(** * The catalogue of a backup repository (src/restore)

    Where a restore reads from: relative paths that cannot leave the snapshot
    ([RelativeRestorePath]), the catalogue of the snapshots of a repository
    ([RepositoryCatalog]), its discovery on a mounted target
    ([RepositoryDiscoveryService]) and the listing of snapshots ([SnapshotBrowser]).

    All of it only looks at the file system; what it sees is a [View].  The catalogue's
    guarantees: relative paths have no component that leads elsewhere, the snapshots have
    distinct identifiers and are in order, newest first, and a discovered catalogue names only
    read-only subvolumes whose identity was checked, reached without symbolic links. *)

From S2P Require Import Prelude Errors Identifiers FsPath RuntimeTime Json ProfileArtifacts FileSystem.

Open Scope Z_scope.
Open Scope path_scope.

(** ** Looking at the file system *)

(** The failures of system calls the code tells apart, and the others. *)
Inductive Errno := ENOENT | ENOTDIR | EOVERFLOW | ENOSPC | EEXIST | EIO | EOTHER (message : string).

#[export] Instance Errno_eq_dec : EqDecision Errno.
Proof. solve_decision. Defined.

(** [strerror] *)
Definition strerror (e : Errno) : string :=
  match e with
  | ENOENT => "No such file or directory"
  | ENOTDIR => "Not a directory"
  | EOVERFLOW => "Value too large for defined data type"
  | ENOSPC => "No space left on device"
  | EEXIST => "File exists"
  | EIO => "Input/output error"
  | EOTHER message => message
  end.

Inductive FileKind := KRegular | KDirectory | KSymlink | KOther.

#[export] Instance FileKind_eq_dec : EqDecision FileKind.
Proof. solve_decision. Defined.

(** What the file system answers: [lstat] and [stat] of a path, [fstat] of a descriptor, the
    text of a file (empty when it cannot be opened), the names in a directory in the order they
    are read with their sizes (or the message of the failure to read it). *)
Record View := mkView {
  v_lstat : path -> Errno + FileKind;
  v_stat : path -> Errno + FileKind;
  v_fstat : Z -> option FileKind;
  v_text : path -> string;
  v_entries : path -> string + list string;
  v_size : path -> option Z;
}.

(** [std::filesystem::file_type], as far as it is told apart. *)
Inductive FileType := TNone | TNotFound | TUnknown | TKind (kind : FileKind).

#[export] Instance FileType_eq_dec : EqDecision FileType.
Proof. solve_decision. Defined.

(** [symlink_status(path, error)] and [status(path, error)]: the error and the type; a path
    that does not exist is an error here. *)
Definition status_of (answer : Errno + FileKind) : option Errno * FileType :=
  match answer with
  | inl (ENOENT as e) | inl (ENOTDIR as e) => (Some e, TNotFound)
  | inl EOVERFLOW => (Some EOVERFLOW, TUnknown)
  | inl e => (Some e, TNone)
  | inr kind => (None, TKind kind)
  end.

Definition is_kind (kind : FileKind) (type : FileType) : bool := bool_decide (type = TKind kind).

(** [exists(status)] *)
Definition status_exists (type : FileType) : bool :=
  match type with TNone | TNotFound => false | _ => true end.

(** [error != std::errc::no_such_file_or_directory] *)
Definition is_enoent (e : Errno) : bool := match e with ENOENT => true | _ => false end.

Definition has_error (e : option Errno) : bool := match e with Some _ => true | None => false end.

(** [throw RestoreError(code, message)] *)
Definition restore_error {A} (code : RestoreErrorCode.t) (message : string) : res A :=
  Throw (RestoreError code message).

(** The paths an iteration [current /= component] visits from [start]. *)
Fixpoint prefixes (current : path) (components : list string) : list path :=
  match components with
  | [] => []
  | c :: components => let current := current /./ c in current :: prefixes current components
  end.

(** ** Relative paths *)

(** [value.find('\0') != npos] *)
Definition has_nul (s : string) : bool := str_contains "000" s.

(** src/restore/RepositoryCatalog.cpp:19-42 *)
Definition validate_relative_path (value : string) : res path :=
  if str_empty value || has_nul value
  then restore_error RestoreErrorCode.PathInvalid "restore path is empty or contains NUL"
  else if path_eqb value "." then Ok value
  else if is_absolute value
  then restore_error RestoreErrorCode.PathTraversal ("restore path must be relative: " +:+ value)
  else
    match find_if (λ c, String.eqb c ".." || (str_empty c || String.eqb c ".")) (path_elements value) with
    | Some c =>
        if String.eqb c ".."
        then restore_error RestoreErrorCode.PathTraversal ("restore path contains '..': " +:+ value)
        else restore_error RestoreErrorCode.PathInvalid ("restore path is not canonical: " +:+ value)
    | None =>
        if negb (path_eqb (lexically_normal value) value)
        then restore_error RestoreErrorCode.PathInvalid ("restore path is not canonical: " +:+ value)
        else Ok value
    end.

(** src/restore/RepositoryCatalog.hpp:20-31 *)
Record RelativeRestorePath := mkRelative {
  rp_value : path;
  rp_valid : validate_relative_path rp_value = Ok rp_value;
}.

Lemma validate_relative_path_value value p : validate_relative_path value = Ok p -> p = value.
Proof.
  unfold validate_relative_path, restore_error. intros H. repeat (case_match; simplify_eq; try done).
Qed.

Lemma relative_valid {value p} : validate_relative_path value = Ok p -> validate_relative_path p = Ok p.
Proof. intros H. pose proof (validate_relative_path_value _ _ H). by subst. Qed.

(** The constructor. src/restore/RepositoryCatalog.cpp:46-48 *)
Definition relative_restore_path (value : string) : res RelativeRestorePath :=
  match validate_relative_path value as r return validate_relative_path value = r -> _ with
  | Ok p => λ valid, Ok (mkRelative p (relative_valid valid))
  | Throw e => λ _, Throw e
  end eq_refl.

(** [empty()]: the root itself. src/restore/RepositoryCatalog.cpp:54-56 *)
Definition rp_empty (p : RelativeRestorePath) : bool := path_eqb (rp_value p) ".".

(** ** The catalogue *)

(** src/restore/RepositoryCatalog.hpp:33-38 *)
Record RepositoryIdentity := mkRepositoryIdentity {
  ri_repository_id : string;
  ri_target_filesystem_uuid : string;
  ri_created_at : RuntimeTimePoint;
  ri_features : list string;
}.

(** src/restore/RepositoryCatalog.hpp:40-51 *)
Record CatalogSnapshot := mkCatalogSnapshot {
  cs_snapshot_id : string;
  cs_host_id : string;
  cs_profile_id : string;
  cs_source_id : string;
  cs_repository_path : RelativeRestorePath;
  cs_created_at : RuntimeTimePoint;
  cs_uuid : string;
  cs_received_uuid : string;
  cs_parent_uuid : string;
  cs_verified : bool;
}.

(** src/restore/RepositoryCatalog.hpp:53-73 *)
Record RepositoryCatalog := mkCatalog {
  rc_root : path;
  rc_identity : RepositoryIdentity;
  rc_generation : Z;
  rc_snapshots : list CatalogSnapshot;
}.

Definition complete_snapshot (entry : CatalogSnapshot) : bool :=
  negb (str_empty (cs_snapshot_id entry) || str_empty (cs_host_id entry)
        || str_empty (cs_profile_id entry) || str_empty (cs_source_id entry)
        || str_empty (cs_uuid entry) || negb (cs_verified entry)).

(** The loop of the constructor; [ids] are the identifiers seen. *)
Fixpoint check_entries (ids : list string) (entries : list CatalogSnapshot) : res unit :=
  match entries with
  | [] => Ok tt
  | entry :: entries =>
      if negb (complete_snapshot entry)
      then restore_error RestoreErrorCode.CatalogInvalid "catalog contains an incomplete or unverified snapshot"
      else if bool_decide (cs_snapshot_id entry ∈ ids)
      then restore_error RestoreErrorCode.CatalogInvalid ("duplicate snapshot id: " +:+ cs_snapshot_id entry)
      else check_entries (cs_snapshot_id entry :: ids) entries
  end.

(** The comparison of the sort: newest first, then by identifier. *)
Definition newer (l r : CatalogSnapshot) : bool :=
  if negb (cs_created_at l =? cs_created_at r) then cs_created_at r <? cs_created_at l
  else str_less (cs_snapshot_id l) (cs_snapshot_id r).

(** src/restore/RepositoryCatalog.cpp:58-84 *)
Definition repository_catalog (root : path) (identity : RepositoryIdentity) (generation : Z)
    (snapshots : list CatalogSnapshot) : res RepositoryCatalog :=
  _ ← check_entries [] snapshots;
  Ok (mkCatalog root identity generation (std_sort newer snapshots)).

(** src/restore/RepositoryCatalog.cpp:102-108 *)
Definition catalog_snapshot (catalog : RepositoryCatalog) (snapshot_id : string) : res CatalogSnapshot :=
  match find_if (λ s, String.eqb (cs_snapshot_id s) snapshot_id) (rc_snapshots catalog) with
  | Some s => Ok s
  | None => restore_error RestoreErrorCode.SnapshotNotFound ("snapshot not found: " +:+ snapshot_id)
  end.

(** ** Versions of a path *)

Section look.
Context (view : View).

Abbreviation symlink_status p := (status_of (v_lstat view p)).

(** The walk down to a version: it stops at the first component that is not there. *)
Fixpoint version_candidate (current : path) (components : list string) : res path :=
  match components with
  | [] => Ok current
  | component :: components =>
      let candidate := current /./ component in
      let '(error, type) := symlink_status candidate in
      if negb (has_error error) && is_kind KSymlink type
      then restore_error RestoreErrorCode.SymlinkRejected "version path traverses a symbolic link"
      else if has_error error || negb (status_exists type) then Ok candidate
      else version_candidate candidate components
  end.

(** The loop of [find_versions]. *)
Fixpoint collect_versions (root : path) (same : CatalogSnapshot -> bool) (relative : path)
    (snapshots : list CatalogSnapshot) : res (list CatalogSnapshot) :=
  match snapshots with
  | [] => Ok []
  | snapshot :: snapshots =>
      if negb (same snapshot) then collect_versions root same relative snapshots
      else
        candidate ← version_candidate (root /./ rp_value (cs_repository_path snapshot))
                      (path_elements relative);
        let '(error, type) := symlink_status candidate in
        versions ← collect_versions root same relative snapshots;
        Ok (if negb (has_error error) && status_exists type then snapshot :: versions else versions)
  end.

(** src/restore/RepositoryCatalog.cpp:110-140 *)
Definition find_versions (catalog : RepositoryCatalog) (host_id profile_id source_id : string)
    (relative_path : RelativeRestorePath) : res (list CatalogSnapshot) :=
  collect_versions (rc_root catalog)
    (λ s, String.eqb (cs_host_id s) host_id && String.eqb (cs_profile_id s) profile_id
          && String.eqb (cs_source_id s) source_id)
    (rp_value relative_path) (rc_snapshots catalog).

(** ** Browsing *)

(** The walk down into a snapshot. *)
Fixpoint walk_without_symlinks (relative current : path) (components : list string) : res path :=
  match components with
  | [] => Ok current
  | component :: components =>
      let current := current /./ component in
      let '(error, type) := symlink_status current in
      if has_error error || negb (status_exists type)
      then restore_error RestoreErrorCode.PathInvalid ("snapshot path does not exist: " +:+ relative)
      else if is_kind KSymlink type
      then restore_error RestoreErrorCode.SymlinkRejected
             ("snapshot path traverses a symbolic link: " +:+ relative)
      else walk_without_symlinks relative current components
  end.

(** src/restore/SnapshotBrowser.cpp:18-36 *)
Definition resolve_without_symlinks (catalog : RepositoryCatalog) (snapshot : CatalogSnapshot)
    (relative_path : RelativeRestorePath) : res path :=
  walk_without_symlinks (rp_value relative_path)
    (rc_root catalog /./ rp_value (cs_repository_path snapshot))
    (path_elements (rp_value relative_path)).

(** src/restore/SnapshotBrowser.hpp:16-21 *)
Inductive SnapshotEntryType := EFile | EDirectory | ESymlink | EOther.

(** src/restore/SnapshotBrowser.hpp:23-27 *)
Record SnapshotEntry := mkSnapshotEntry { se_name : string; se_type : SnapshotEntryType; se_size : Z }.

(** src/restore/SnapshotBrowser.cpp:38-43 *)
Definition entry_type (type : FileType) : SnapshotEntryType :=
  if is_kind KRegular type then EFile
  else if is_kind KDirectory type then EDirectory
  else if is_kind KSymlink type then ESymlink
  else EOther.

(** The body of the loop of [list]; a size that cannot be read is [uintmax_t(-1)]. *)
Definition list_entry (directory : path) (name : string) : res SnapshotEntry :=
  let '(error, type) := symlink_status (directory /./ name) in
  if has_error error
  then restore_error RestoreErrorCode.PathInvalid ("could not inspect snapshot entry: " +:+ name)
  else Ok (mkSnapshotEntry name (entry_type type)
             (if is_kind KRegular type then default (2 ^ 64 - 1) (v_size view (directory /./ name)) else 0)).

(** src/restore/SnapshotBrowser.cpp:47-71 *)
Definition browse_list (catalog : RepositoryCatalog) (snapshot_id : string)
    (relative_path : RelativeRestorePath) : res (list SnapshotEntry) :=
  snapshot ← catalog_snapshot catalog snapshot_id;
  directory ← resolve_without_symlinks catalog snapshot relative_path;
  if negb (is_kind KDirectory (status_of (v_stat view directory)).2)
  then restore_error RestoreErrorCode.PathInvalid
         ("snapshot path is not a directory: " +:+ rp_value relative_path)
  else
    match v_entries view directory with
    | inl message => Throw (StdException message)
    | inr names =>
        entries ← res_mapM (list_entry directory) names;
        Ok (std_sort (λ l r, str_less (se_name l) (se_name r)) entries)
    end.

(** src/restore/SnapshotBrowser.cpp:73-85 *)
Definition resolve_regular_file (catalog : RepositoryCatalog) (snapshot_id : string)
    (relative_path : RelativeRestorePath) : res path :=
  snapshot ← catalog_snapshot catalog snapshot_id;
  file ← resolve_without_symlinks catalog snapshot relative_path;
  let '(error, type) := symlink_status file in
  if has_error error || negb (is_kind KRegular type)
  then restore_error RestoreErrorCode.PathInvalid
         ("snapshot path is not a regular file: " +:+ rp_value relative_path)
  else Ok file.

(** ** Discovery *)

(** [json_read] is [stream >> document], which reads one value and ignores what follows it; it
    gives the message of the exception when there is none. *)
Context `{JsonText} (json_read : string -> string + Json).

(** src/restore/RepositoryDiscoveryService.cpp:22-39 *)
Definition read_object (p : path) (code : RestoreErrorCode.t) : res Json :=
  let '(error, type) := symlink_status p in
  if has_error error || negb (is_kind KRegular type) || is_kind KSymlink type
  then restore_error code ("required repository metadata is not a regular file: " +:+ p)
  else
    match json_read (v_text view p) with
    | inl what => restore_error code ("invalid repository metadata " +:+ p +:+ ": " +:+ what)
    | inr document =>
        if negb (is_object document)
        then restore_error code ("repository metadata root must be an object: " +:+ p)
        else Ok document
    end.

(** src/restore/RepositoryDiscoveryService.cpp:41-46 *)
Definition required_string (object : Json) (key : string) (code : RestoreErrorCode.t) : res string :=
  match json_at object key with
  | Ok (JString s) => if str_empty s then restore_error code ("missing non-empty string: " +:+ key) else Ok s
  | _ => restore_error code ("missing non-empty string: " +:+ key)
  end.

(** src/restore/RepositoryDiscoveryService.cpp:48-55 *)
Definition required_time (object : Json) (key : string) (code : RestoreErrorCode.t) : res RuntimeTimePoint :=
  value ← required_string object key code;
  match parse_utc_timestamp value with
  | Some t => Ok t
  | None => restore_error code ("invalid UTC timestamp: " +:+ key)
  end.

(** src/restore/RepositoryDiscoveryService.cpp:57-70 *)
Fixpoint reject_catalog_symlinks (current : path) (components : list string) : res unit :=
  match components with
  | [] => Ok tt
  | component :: components =>
      let current := current /./ component in
      let '(error, type) := symlink_status current in
      if has_error error
      then restore_error RestoreErrorCode.CatalogInvalid ("catalog path cannot be inspected: " +:+ current)
      else if is_kind KSymlink type
      then restore_error RestoreErrorCode.SymlinkRejected ("catalog path contains a symbolic link: " +:+ current)
      else reject_catalog_symlinks current components
  end.

(** src/restore/RepositoryDiscoveryService.hpp:16-21 *)
Record DiscoveredSnapshotMetadata := mkMetadata {
  dm_is_subvolume : bool;
  dm_readonly : bool;
  dm_uuid : string;
  dm_received_uuid : string;
}.

Context (metadata_reader : path -> res (option DiscoveredSnapshotMetadata)).

(** The features of the repository. src/restore/RepositoryDiscoveryService.cpp:103-113 *)
Definition read_features (repository : Json) : res (list string) :=
  if negb (json_contains repository "features") then Ok []
  else
    match json_at repository "features" with
    | Ok (JArray features) =>
        res_mapM (λ feature,
          match feature with
          | JString s => Ok s
          | _ => restore_error RestoreErrorCode.RepositoryMetadataInvalid "repository feature must be a string"
          end) features
    | _ => restore_error RestoreErrorCode.RepositoryMetadataInvalid "repository features must be an array"
    end.

(** The snapshot on disk is the one that the catalogue describes. *)
Definition identity_matches (entry : CatalogSnapshot) (actual : option DiscoveredSnapshotMetadata) : bool :=
  match actual with
  | None => false
  | Some actual =>
      dm_is_subvolume actual && dm_readonly actual && String.eqb (dm_uuid actual) (cs_uuid entry)
      && (str_empty (cs_received_uuid entry)
          || String.eqb (dm_received_uuid actual) (cs_received_uuid entry))
  end.

(** One snapshot of the catalogue. src/restore/RepositoryDiscoveryService.cpp:122-148 *)
Definition discover_entry (root : path) (value : Json) : res CatalogSnapshot :=
  let code := RestoreErrorCode.CatalogInvalid in
  if negb (is_object value) then restore_error code "catalog snapshot must be an object"
  else
    snapshot_id ← required_string value "snapshotId" code;
    host_id ← required_string value "hostId" code;
    profile_id ← required_string value "profileId" code;
    source_id ← required_string value "sourceId" code;
    relative ← required_string value "relativePath" code;
    repository_path ← relative_restore_path relative;
    created_at ← required_time value "createdAt" code;
    uuid ← required_string value "uuid" code;
    received_uuid ← json_value get_string value "receivedUuid" "";
    parent_uuid ← json_value get_string value "parentUuid" "";
    verified ← json_value get_bool value "verified" false;
    let entry := mkCatalogSnapshot snapshot_id host_id profile_id source_id repository_path created_at
                   uuid received_uuid parent_uuid verified in
    if rp_empty repository_path
    then restore_error code "snapshot repository path cannot be the repository root"
    else
      _ ← reject_catalog_symlinks root (path_elements (rp_value repository_path));
      actual ← metadata_reader (root /./ rp_value repository_path);
      if negb (identity_matches entry actual)
      then restore_error RestoreErrorCode.SnapshotIdentityMismatch
             ("catalog snapshot identity mismatch: " +:+ snapshot_id)
      else Ok entry.

(** src/restore/RepositoryCatalog.hpp:17-17 *)
Definition repository_format_version : Z := 1.
(** src/restore/RepositoryCatalog.hpp:18-18 *)
Definition catalog_format_version : Z := 1.

(** src/restore/RepositoryDiscoveryService.cpp:81-151 *)
Definition discover (root : path) : res RepositoryCatalog :=
  let invalid := RestoreErrorCode.RepositoryMetadataInvalid in
  let '(root_error, root_type) := symlink_status root in
  if has_error root_error || negb (is_kind KDirectory root_type) || is_kind KSymlink root_type
  then restore_error RestoreErrorCode.RepositoryNotFound ("repository root is not a directory: " +:+ root)
  else
    repository ← read_object (root /./ "repository.json") invalid;
    version ← json_value get_i32 repository "schemaVersion" 0;
    if negb (version =? repository_format_version)
    then restore_error RestoreErrorCode.RepositoryFormatUnsupported
           ("unsupported repository format version: " +:+ pretty version)
    else
      repository_id ← required_string repository "repositoryId" invalid;
      target ← required_string repository "targetFilesystemUuid" invalid;
      created_at ← required_time repository "createdAt" invalid;
      features ← read_features repository;
      catalog ← read_object (root /./ "catalog.json") RestoreErrorCode.CatalogInvalid;
      catalog_version ← json_value get_i32 catalog "schemaVersion" 0;
      match json_at catalog "snapshots" with
      | Ok (JArray values) =>
          if negb (catalog_version =? catalog_format_version)
          then restore_error RestoreErrorCode.CatalogInvalid "unsupported or malformed catalog"
          else
            generation ← json_value get_u64 catalog "generation" 0;
            snapshots ← res_mapM (discover_entry root) values;
            repository_catalog root (mkRepositoryIdentity repository_id target created_at features)
              generation snapshots
      | _ => restore_error RestoreErrorCode.CatalogInvalid "unsupported or malformed catalog"
      end.

End look.

(** ** Lemmas: relative paths *)

Lemma relative_names_nonempty v : v <> "" -> is_absolute v = false -> pp_names (pp_parse v) <> [].
Proof.
  destruct v as [|c v]; [done|]. unfold is_absolute. cbn. intros _ ->.
  by destruct (split_slash v).
Qed.

Lemma path_eqb_dot v : path_eqb v "." = true <-> pp_parse v = mkPP false ["."] false.
Proof.
  unfold path_eqb, path_elements. rewrite bool_decide_eq_true. split; [|by intros ->].
  pose proof (pp_parse_wf v) as [_ Ht]. destruct (pp_parse v) as [[] names []]; cbn in *; try done.
  - destruct names as [|x [|]]; [by destruct Ht|by intros [= ]|by intros [= ]].
  - rewrite app_nil_r. by intros ->.
Qed.

(** The names of a relative path. *)
Definition relative_names (names : list string) : Prop :=
  names <> [] /\ (names = ["."] \/ Forall plain_component names).

Lemma validate_relative_path_spec v :
  validate_relative_path v = Ok v <->
  has_nul v = false /\ exists names, pp_parse v = mkPP false names false /\ relative_names names.
Proof.
  unfold validate_relative_path. pose proof (pp_parse_wf v) as Hwf. split.
  - destruct (str_empty v || has_nul v) eqn:E; [done|]. apply orb_false_iff in E as [Hv Hn].
    destruct (path_eqb v ".") eqn:Ed.
    { apply path_eqb_dot in Ed. intros _. split; [done|]. exists ["."]. split; [done|]. split; [done|]. by left. }
    destruct (is_absolute v) eqn:Ea; [done|].
    destruct (find_if _ _) as [c|] eqn:Ef; [by destruct (String.eqb c "..")|]. intros _. split; [done|].
    assert (pp_names (pp_parse v) <> []) as Hne by (apply relative_names_nonempty; [by intros ->|done]).
    assert (forall c, c ∈ path_elements v -> c <> ".." /\ c <> "" /\ c <> ".") as Hc.
    { intros c Hin. eapply find_if_None in Ef; [|exact Hin]. breflect. split_and!; [done|by intros ->|done]. }
    unfold path_elements, pp_elements in Hc. unfold is_absolute in Ea.
    destruct (pp_parse v) as [root names trail]. cbn in *. subst root. destruct trail.
    { destruct (Hc "") as (_ & [] & _); [|done]. set_solver. }
    exists names. split; [done|]. split; [done|]. right. rewrite app_nil_r in Hc.
    destruct Hwf as [Hl _]. rewrite Forall_forall in Hl |- *. intros c Hin.
    destruct (Hl c Hin), (Hc c Hin) as (? & ? & ?). done.
  - intros (Hn & names & E & Hne & Hnames). rewrite Hn.
    assert (v <> "") as Hv by (intros ->; vm_compute in E; injection E as <-; done).
    destruct v as [|c v]; [done|]. cbn [str_empty orb]. destruct Hnames as [->|Hp].
    { by rewrite (proj2 (path_eqb_dot _) E). }
    destruct (path_eqb _ "."); [done|]. assert (is_absolute (String c v) = false) as ->
      by (unfold is_absolute; by rewrite E).
    assert (path_elements (String c v) = names) as Hel by (unfold path_elements; rewrite E; apply app_nil_r).
    rewrite Hel. destruct (find_if _ names) as [d|] eqn:Ef.
    { apply find_if_Some in Ef as [Hin Hd]. rewrite Forall_forall in Hp. destruct (Hp d Hin) as (? & ? & ? & ?).
      exfalso. rewrite !orb_true_iff, !String.eqb_eq in Hd. destruct d; naive_solver. }
    assert (path_eqb (lexically_normal (String c v)) (String c v) = true) as ->; [|done].
    unfold path_eqb, lexically_normal. cbn [str_empty]. rewrite bool_decide_eq_true.
    unfold path_elements. rewrite E, pp_normal_plain; [|by rewrite E in Hwf|done|by right].
    rewrite E in Hwf. by rewrite pp_parse_render.
Qed.

Lemma relative_restore_path_Ok v p :
  relative_restore_path v = Ok p -> rp_value p = v.
Proof.
  unfold relative_restore_path. generalize (@relative_valid v).
  generalize (validate_relative_path_value v).
  destruct (validate_relative_path v) as [q|e]; [|done]. intros Hq Hv. intros [= <-]. cbn. by apply Hq.
Qed.

Lemma relative_restore_path_accepts v :
  validate_relative_path v = Ok v -> exists p, relative_restore_path v = Ok p.
Proof.
  unfold relative_restore_path. generalize (@relative_valid v).
  destruct (validate_relative_path v); [|done]. intros. by eexists.
Qed.

Lemma relative_parse (p : RelativeRestorePath) :
  exists names, pp_parse (rp_value p) = mkPP false names false /\ relative_names names.
Proof. apply validate_relative_path_spec, rp_valid. Qed.

(** A component that stays where it is or goes down. *)
Definition inner_component (c : string) : Prop := c = "." \/ plain_component c.

Lemma relative_names_inner names : relative_names names -> Forall inner_component names.
Proof.
  intros [_ [->|Hp]]; [by repeat constructor|]. eapply Forall_impl; [exact Hp|]. intros x Hx. by right.
Qed.

(** [p] is reached from [root] by going down only. *)
Definition below (root p : path) : Prop :=
  exists inner, Forall inner_component inner /\ inner <> [] /\
    pp_parse p = mkPP (pp_root (pp_parse root)) (pp_names (pp_parse root) ++ inner) false.

Lemma below_relative root (p : RelativeRestorePath) : below root (root /./ rp_value p).
Proof.
  destruct (relative_parse p) as (names & E & Hn). exists names.
  split; [by apply relative_names_inner|]. split; [apply Hn|].
  rewrite pp_parse_append; rewrite ?E; [done| |apply Hn]. unfold is_absolute. by rewrite E.
Qed.

Lemma below_trans a b c : below a b -> below b c -> below a c.
Proof.
  intros (x & Hx & Hx0 & Ex) (y & Hy & _ & Ey). exists (x ++ y).
  split; [by apply Forall_app|]. split; [by destruct x|]. rewrite Ey, Ex. cbn. by rewrite app_assoc.
Qed.

(** ** Lemmas: the catalogue *)

Lemma check_entries_spec ids entries :
  check_entries ids entries = Ok tt <->
  Forall (λ e, complete_snapshot e = true) entries /\ NoDup (map cs_snapshot_id entries)
  /\ Forall (λ e, (cs_snapshot_id e ∉ ids)) entries.
Proof.
  revert ids. induction entries as [|e entries IH]; intros ids; cbn; [by repeat split; constructor|].
  rewrite !Forall_cons, NoDup_cons. destruct (complete_snapshot e); cbn; [|naive_solver].
  case_bool_decide as Hin; [naive_solver|]. rewrite IH. clear IH. rewrite !Forall_forall.
  assert (forall P : Prop, (forall x, x ∈ entries -> (cs_snapshot_id x ∉ cs_snapshot_id e :: ids)) <->
    ((cs_snapshot_id e ∉ map cs_snapshot_id entries) /\ forall x, x ∈ entries -> cs_snapshot_id x ∉ ids)) as Hsplit.
  { intros _. split.
    - intros H. split; [|set_solver]. intros (x & Hx & Hin')%list_elem_of_fmap. set_solver.
    - intros [H1 H2] x Hx [E|Hi]%elem_of_cons; [|by apply (H2 x)]. apply H1. rewrite <- E.
      by apply list_elem_of_fmap_2. }
  rewrite (Hsplit True). tauto.
Qed.

#[export] Instance newer_swo : StrictWeakOrder newer.
Proof.
  split; unfold newer; intros *;
    repeat match goal with |- context[?a =? ?b] => destruct (Z.eqb_spec a b) end; cbn; try lia;
    rewrite ?Z.ltb_lt, ?Z.ltb_ge; try lia; [apply str_less_asym|apply str_less_negtrans].
Qed.

Lemma catalog_snapshot_find catalog s :
  NoDup (map cs_snapshot_id (rc_snapshots catalog)) -> s ∈ rc_snapshots catalog ->
  catalog_snapshot catalog (cs_snapshot_id s) = Ok s.
Proof.
  unfold catalog_snapshot. destruct catalog as [r i g l]; cbn. clear r i g.
  induction l as [|x l IH]; [by intros _ ?%not_elem_of_nil|]. cbn. rewrite NoDup_cons. intros [Hx Hl] Hs.
  destruct (String.eqb_spec (cs_snapshot_id x) (cs_snapshot_id s)) as [E|E].
  - apply elem_of_cons in Hs as [->|Hs]; [done|]. destruct Hx. rewrite E. by apply list_elem_of_fmap_2.
  - apply elem_of_cons in Hs as [->|Hs]; [done|]. by apply IH.
Qed.

Lemma repository_catalog_Ok root identity generation l c :
  repository_catalog root identity generation l = Ok c ->
  c = mkCatalog root identity generation (std_sort newer l)
  /\ Forall (λ e, complete_snapshot e = true) l /\ NoDup (map cs_snapshot_id l).
Proof.
  unfold repository_catalog. intros ([] & Hc & [= <-])%res_bind_Ok.
  by apply check_entries_spec in Hc as (? & ? & _).
Qed.

(** ** Lemmas: walking down *)

(** Every component of the way is there and no symbolic link. *)
Definition plain_at (view : View) (p : path) : Prop :=
  exists kind, v_lstat view p = inr kind /\ kind <> KSymlink.

Definition plain_way (view : View) (start : path) (components : list string) : Prop :=
  Forall (plain_at view) (prefixes start components).

#[export] Instance plain_at_dec view p : Decision (plain_at view p).
Proof.
  unfold plain_at. destruct (v_lstat view p) as [e|kind]; [right; naive_solver|].
  destruct (decide (kind = KSymlink)); [right; naive_solver|left; by exists kind].
Defined.

#[export] Instance plain_way_dec view start components : Decision (plain_way view start components).
Proof. unfold plain_way. apply _. Defined.

Lemma status_of_error answer : has_error (status_of answer).1 = match answer with inl _ => true | _ => false end.
Proof. by destruct answer as [[]|]. Qed.

Ltac look_at view p :=
  destruct (v_lstat view p) as [[]|[]] eqn:?; cbn in *; simplify_eq.

Lemma plain_way_cons view start component components :
  plain_way view start (component :: components)
  <-> plain_at view (start /./ component) /\ plain_way view (start /./ component) components.
Proof. apply Forall_cons. Qed.

(** Whether a path that the walk ended at counts as there. *)
Definition is_there (view : View) (p : path) : bool :=
  negb (has_error (status_of (v_lstat view p)).1) && status_exists (status_of (v_lstat view p)).2.

Lemma version_candidate_spec view start components c :
  components <> [] -> version_candidate view start components = Ok c ->
  is_there view c = true <-> plain_way view start components.
Proof.
  revert start. induction components as [|component components IH]; intros start; [done|]. intros _.
  rewrite plain_way_cons. cbn. unfold plain_at at 1.
  destruct (v_lstat view (start /./ component)) as [e|kind] eqn:E.
  - assert (is_there view (start /./ component) = false) as Hf by (unfold is_there; rewrite E; by destruct e).
    destruct e; cbn; intros [= <-]; rewrite Hf; split; try done; naive_solver.
  - destruct (decide (kind = KSymlink)) as [->|Hk]; [done|].
    assert (is_kind KSymlink (TKind kind) = false) as Ek by (by destruct kind). cbn. rewrite Ek. intros H.
    destruct components as [|c' components].
    + injection H as <-. unfold is_there, plain_way. rewrite E. cbn. split; [|done]. intros _.
      split; [by exists kind|constructor].
    + rewrite (IH _ ltac:(done) H). naive_solver.
Qed.

Lemma walk_without_symlinks_Ok view relative start components p :
  walk_without_symlinks view relative start components = Ok p ->
  p = foldl path_append start components /\ plain_way view start components.
Proof.
  revert start. induction components as [|component components IH]; intros start; cbn.
  - intros [= <-]. split; [done|constructor].
  - rewrite plain_way_cons. unfold plain_at at 1.
    destruct (v_lstat view (start /./ component)) as [[]|[]]; cbn; try done; intros [-> Hw]%IH;
      split; try done; split; try done; by eexists.
Qed.

Lemma reject_catalog_symlinks_Ok view start components :
  reject_catalog_symlinks view start components = Ok tt -> plain_way view start components.
Proof.
  revert start. induction components as [|component components IH]; intros start; cbn; [constructor|].
  rewrite plain_way_cons. unfold plain_at at 1.
  destruct (v_lstat view (start /./ component)) as [[]|[]]; cbn; try done; intros Hw%IH;
    split; try done; by eexists.
Qed.

Lemma inner_is_name c : inner_component c -> is_name c.
Proof. intros [->|H]; [done|]. by apply plain_is_name. Qed.

Lemma parse_name c : is_name c -> pp_parse c = mkPP false [c] false.
Proof.
  intros [Hne Hs]. unfold pp_parse. rewrite split_slash_name by done.
  destruct c as [|x c]; [done|]. cbn. by apply no_slash_cons in Hs as [-> _].
Qed.

Lemma parse_walk start names :
  Forall inner_component names -> pp_trail (pp_parse start) = false ->
  pp_parse (foldl path_append start names)
  = mkPP (pp_root (pp_parse start)) (pp_names (pp_parse start) ++ names) false.
Proof.
  revert start. induction names as [|c names IH]; intros start Hn Ht; cbn [foldl].
  - rewrite app_nil_r, <- Ht. by destruct (pp_parse start).
  - inversion Hn as [|? ? Hc Hr]; subst.
    assert (pp_parse (start /./ c) = mkPP (pp_root (pp_parse start)) (pp_names (pp_parse start) ++ [c]) false) as E.
    { rewrite pp_parse_append; rewrite ?(parse_name c (inner_is_name c Hc)); [done| |done].
      unfold is_absolute. by rewrite (parse_name c (inner_is_name c Hc)). }
    rewrite IH; [|done|by rewrite E]. rewrite E. cbn. by rewrite <- app_assoc.
Qed.

Lemma below_trail root p : below root p -> pp_trail (pp_parse p) = false.
Proof. intros (? & _ & _ & ->). done. Qed.

Lemma relative_elements (p : RelativeRestorePath) :
  exists names, path_elements (rp_value p) = names /\ relative_names names.
Proof.
  destruct (relative_parse p) as (names & E & Hn). exists names. split; [|done].
  unfold path_elements. rewrite E. apply app_nil_r.
Qed.

Lemma resolve_Ok view catalog snapshot relative p :
  resolve_without_symlinks view catalog snapshot relative = Ok p ->
  below (rc_root catalog /./ rp_value (cs_repository_path snapshot)) p
  /\ plain_way view (rc_root catalog /./ rp_value (cs_repository_path snapshot))
       (path_elements (rp_value relative)).
Proof.
  unfold resolve_without_symlinks. intros [-> Hw]%walk_without_symlinks_Ok. split; [|done].
  destruct (relative_elements relative) as (names & -> & Hn). exists names.
  pose proof (relative_names_inner _ Hn). split; [done|]. split; [apply Hn|].
  apply parse_walk; [done|]. eapply below_trail, below_relative.
Qed.

(** ** Theorems *)

(** A text is accepted as a path within a snapshot exactly when it has no NUL byte and is the
    single dot or a sequence of names, not absolute, without a component that is empty, a dot or
    two dots. *)
Theorem relative_restore_path_spec (v : string) :
  (exists p, relative_restore_path v = Ok p /\ rp_value p = v) <->
  has_nul v = false /\ exists names, pp_parse v = mkPP false names false /\ relative_names names.
Proof.
  rewrite <- validate_relative_path_spec. split.
  - intros (p & _ & <-). apply rp_valid.
  - intros (p & Hp)%relative_restore_path_accepts. exists p. split; [done|].
    by apply relative_restore_path_Ok.
Qed.

(** A catalogue is made exactly of complete, verified entries with distinct identifiers; it
    holds just these entries, newest first and in one order only, and each is found by its
    identifier. *)
Theorem repository_catalog_spec root identity generation (entries : list CatalogSnapshot) :
  match repository_catalog root identity generation entries with
  | Ok c =>
      Forall (λ e, complete_snapshot e = true) entries /\ NoDup (map cs_snapshot_id entries)
      /\ rc_snapshots c ≡ₚ entries
      /\ (forall l, l ≡ₚ entries -> StronglySorted (cmp_le newer) l -> l = rc_snapshots c)
      /\ StronglySorted (cmp_le newer) (rc_snapshots c)
      /\ Forall (λ e, catalog_snapshot c (cs_snapshot_id e) = Ok e) entries
  | Throw _ => ~ (Forall (λ e, complete_snapshot e = true) entries /\ NoDup (map cs_snapshot_id entries))
  end.
Proof.
  destruct (repository_catalog _ _ _ _) as [c|e] eqn:E.
  - apply repository_catalog_Ok in E as (-> & Hc & Hd). cbn.
    split; [done|]. split; [done|]. split; [apply std_sort_perm|]. split_and!.
    + intros l Hp Hs. apply std_sort_unique; [apply _| |done|done].
      intros x y Hx Hy. unfold newer.
      repeat match goal with |- context[?a =? ?b] => destruct (Z.eqb_spec a b) end; cbn; try lia;
        rewrite ?Z.ltb_ge; try lia. intros H1 H2.
      apply (catalog_snapshot_find (mkCatalog root identity 0 entries)) in Hx, Hy; [|done|done].
      rewrite (str_less_total _ _ H1 H2) in Hx. congruence.
    + by apply std_sort_sorted; apply _.
    + rewrite Forall_forall. intros s Hs. apply (catalog_snapshot_find (mkCatalog _ _ _ _)); cbn.
      * by rewrite std_sort_perm.
      * by apply elem_of_std_sort.
  - unfold repository_catalog in E. intros [Hc Hd].
    assert (check_entries [] entries = Ok tt) as Hok; [|by rewrite Hok in E].
    apply check_entries_spec. split; [done|]. split; [done|]. apply Forall_forall. set_solver.
Qed.

Lemma collect_versions_Ok view root same relative snapshots l :
  path_elements relative <> [] -> collect_versions view root same relative snapshots = Ok l ->
  l = filter (λ s, same s = true
                   /\ plain_way view (root /./ rp_value (cs_repository_path s)) (path_elements relative)) snapshots.
Proof.
  intros Hne. revert l. induction snapshots as [|s snapshots IH]; intros l; cbn [collect_versions]; [by intros [= <-]|].
  rewrite filter_cons. destruct (same s); cbn [negb]; [|intros H; rewrite decide_False by naive_solver; by apply IH].
  intros (c & Hc & H)%res_bind_Ok.
  pose proof (version_candidate_spec _ _ _ _ Hne Hc) as Hv. unfold is_there in Hv.
  destruct (status_of (v_lstat view c)) as [error type]. cbn [fst snd] in Hv.
  apply res_bind_Ok in H as (versions & Hvs & [= <-]). apply IH in Hvs as ->.
  destruct (negb (has_error error) && status_exists type).
  - rewrite decide_True; [done|]. split; [done|]. by apply Hv.
  - rewrite decide_False; [done|]. intros [_ Hw%Hv]. congruence.
Qed.

(** The versions of a path are the snapshots of its source, in the order of the catalogue,
    in which every component of the path is there and is not a symbolic link. *)
Theorem find_versions_spec view catalog host_id profile_id source_id relative_path versions :
  find_versions view catalog host_id profile_id source_id relative_path = Ok versions ->
  versions = filter (λ s,
      (cs_host_id s = host_id /\ cs_profile_id s = profile_id /\ cs_source_id s = source_id)
      /\ plain_way view (rc_root catalog /./ rp_value (cs_repository_path s))
           (path_elements (rp_value relative_path))) (rc_snapshots catalog).
Proof.
  unfold find_versions. intros H. apply collect_versions_Ok in H as ->.
  - apply list_filter_iff. intros s. rewrite !andb_true_iff, !String.eqb_eq. tauto.
  - destruct (relative_elements relative_path) as (names & -> & Hn & _). done.
Qed.

(** A file that is opened for reading lies below the snapshot it was asked for: it is reached
    from there by going down only, through directories that are no symbolic links, and is a
    regular file. *)
Theorem resolve_regular_file_confined view catalog snapshot_id relative_path file :
  resolve_regular_file view catalog snapshot_id relative_path = Ok file ->
  exists snapshot, catalog_snapshot catalog snapshot_id = Ok snapshot
    /\ below (rc_root catalog /./ rp_value (cs_repository_path snapshot)) file
    /\ plain_way view (rc_root catalog /./ rp_value (cs_repository_path snapshot))
         (path_elements (rp_value relative_path))
    /\ v_lstat view file = inr KRegular.
Proof.
  unfold resolve_regular_file. intros (snapshot & Hs & H)%res_bind_Ok. exists snapshot. split; [done|].
  apply res_bind_Ok in H as (f & [Hb Hw]%resolve_Ok & H).
  destruct (v_lstat view f) as [[]|[]] eqn:E; cbn in H; try done. by injection H as <-.
Qed.

Section discovery.
Context (view : View) `{JsonText} (json_read : string -> string + Json)
  (metadata_reader : path -> res (option DiscoveredSnapshotMetadata)).

(** A snapshot that was checked against what is on the disk. *)
Definition checked_snapshot (root : path) (s : CatalogSnapshot) : Prop :=
  let p := root /./ rp_value (cs_repository_path s) in
  below root p /\ rp_empty (cs_repository_path s) = false
  /\ plain_way view root (path_elements (rp_value (cs_repository_path s)))
  /\ exists actual, metadata_reader p = Ok (Some actual)
       /\ dm_is_subvolume actual = true /\ dm_readonly actual = true /\ dm_uuid actual = cs_uuid s
       /\ (cs_received_uuid s = "" \/ dm_received_uuid actual = cs_received_uuid s).

Lemma discover_entry_Ok root value s :
  discover_entry view metadata_reader root value = Ok s -> checked_snapshot root s.
Proof.
  unfold discover_entry. intros E. destruct (negb (is_object value)); [done|].
  do 5 apply res_bind_Ok in E as (? & _ & E). apply res_bind_Ok in E as (p & _ & E).
  do 2 apply res_bind_Ok in E as (? & _ & E). apply res_bind_Ok in E as (received & _ & E).
  do 2 apply res_bind_Ok in E as (? & _ & E). destruct (rp_empty p) eqn:He; [done|].
  apply res_bind_Ok in E as ([] & Hw & E). apply res_bind_Ok in E as (actual & Ha & E).
  destruct (identity_matches _ _) eqn:Hi; [|done]. injection E as <-. unfold checked_snapshot. cbn [cs_repository_path].
  split; [apply below_relative|]. split; [done|]. split; [by apply reject_catalog_symlinks_Ok|].
  destruct actual as [actual|]; [|done]. exists actual. split; [done|]. cbn in Hi |- *.
  rewrite !andb_true_iff, orb_true_iff, !String.eqb_eq in Hi. destruct Hi as (((? & ?) & ?) & Hr).
  split_and!; [done..|]. destruct Hr as [Hr|Hr]; [left; by destruct received|by right].
Qed.

(** A discovered catalogue names only snapshots that were checked against the disk: each lies
    below the mounted root and is not the root, no component of its path is a symbolic link, and
    what is there is a read-only subvolume with the identity the catalogue gives.  Each entry is
    complete and marked as verified, no identifier is used twice, and the newest is first. *)
Theorem discovered_catalog_checked root c :
  discover view json_read metadata_reader root = Ok c ->
  rc_root c = root /\ v_lstat view root = inr KDirectory
  /\ Forall (checked_snapshot root) (rc_snapshots c)
  /\ Forall (λ s, complete_snapshot s = true) (rc_snapshots c)
  /\ NoDup (map cs_snapshot_id (rc_snapshots c))
  /\ StronglySorted (cmp_le newer) (rc_snapshots c).
Proof.
  unfold discover. intros E. destruct (status_of (v_lstat view root)) as [error type] eqn:Es.
  destruct (_ || _ || _) eqn:Eg in E; [done|]. rewrite !orb_false_iff in Eg. destruct Eg as ((Eg & Ed) & _).
  assert (v_lstat view root = inr KDirectory) as Er.
  { clear E. destruct (v_lstat view root) as [[]|[]]; cbn in Es; simplify_eq; done. }
  do 2 apply res_bind_Ok in E as (? & _ & E). case_match; [done|].
  do 6 apply res_bind_Ok in E as (? & _ & E).
  case_match; [|done]. case_match; try done. case_match; [done|].
  apply res_bind_Ok in E as (? & _ & E). apply res_bind_Ok in E as (snapshots & Hs & E).
  apply repository_catalog_Ok in E as (-> & Hc & Hd). cbn [rc_root rc_snapshots].
  split; [done|]. split; [done|].
  assert (Forall (checked_snapshot root) snapshots) as Hch.
  { apply res_mapM_Forall2 in Hs. clear -Hs. induction Hs; constructor; [|done]. by eapply discover_entry_Ok. }
  rewrite Forall_forall in Hc, Hch. split_and!.
  - apply Forall_forall. intros s Hin%elem_of_std_sort. by apply Hch.
  - apply Forall_forall. intros s Hin%elem_of_std_sort. by apply Hc.
  - by rewrite (std_sort_perm newer snapshots).
  - apply std_sort_sorted. apply _.
Qed.

End discovery.

(** ** A repository with two snapshots of one source *)

Module CatalogExample.

Definition ex_entry (id path created uuid : string) : Json := JObject [
  ("snapshotId", JString id); ("hostId", JString "host"); ("profileId", JString "home");
  ("sourceId", JString "documents"); ("relativePath", JString path); ("createdAt", JString created);
  ("uuid", JString uuid); ("verified", JBool true)].

Definition ex_read (text : string) : string + Json :=
  if String.eqb text "repository" then inr (JObject [
    ("schemaVersion", JUInt 1); ("repositoryId", JString "r"); ("targetFilesystemUuid", JString "t");
    ("createdAt", JString "2026-01-01T00:00:00Z"); ("features", JArray [JString "zstd"])])
  else if String.eqb text "catalog" then inr (JObject [
    ("schemaVersion", JUInt 1); ("generation", JUInt 7);
    ("snapshots", JArray [ex_entry "a" "s/a" "2026-01-02T00:00:00Z" "ua";
                          ex_entry "b" "s/b" "2026-01-03T00:00:00Z" "ub"])])
  else inl "parse error".

Definition ex_kinds : gmap string FileKind := list_to_map [
  ("/mnt", KDirectory); ("/mnt/repository.json", KRegular); ("/mnt/catalog.json", KRegular);
  ("/mnt/s", KDirectory); ("/mnt/s/a", KDirectory); ("/mnt/s/b", KDirectory);
  ("/mnt/s/b/notes", KRegular); ("/mnt/s/a/link", KSymlink)].

Definition ex_look (p : path) : Errno + FileKind :=
  match ex_kinds !! p with Some k => inr k | None => inl ENOENT end.

Definition ex_view : View := mkView ex_look ex_look (λ _, None)
  (λ p, if String.eqb p "/mnt/repository.json" then "repository" else "catalog")
  (λ _, inr []) (λ _, Some 5).

Definition ex_metadata (p : path) : res (option DiscoveredSnapshotMetadata) :=
  Ok (if String.eqb p "/mnt/s/a" then Some (mkMetadata true true "ua" "")
      else if String.eqb p "/mnt/s/b" then Some (mkMetadata true true "ub" "") else None).

Definition ex_discover : res RepositoryCatalog :=
  @discover ex_view bits_text ex_read ex_metadata "/mnt".

Definition ex_catalog : RepositoryCatalog :=
  match ex_discover with Ok c => c | Throw _ => mkCatalog "" (mkRepositoryIdentity "" "" 0 []) 0 [] end.

Definition ex_notes : RelativeRestorePath := mkRelative "notes" eq_refl.

Lemma discovered_catalog_checked_witness :
  map cs_snapshot_id (rc_snapshots ex_catalog) = ["b"; "a"]
  /\ Forall (checked_snapshot ex_view ex_metadata "/mnt") (rc_snapshots ex_catalog).
Proof.
  split; [vm_compute; reflexivity|].
  apply (discovered_catalog_checked ex_view (H := bits_text) ex_read ex_metadata "/mnt" ex_catalog).
  vm_compute. reflexivity.
Defined.

Lemma find_versions_spec_witness :
  exists versions,
    find_versions ex_view ex_catalog "host" "home" "documents" ex_notes = Ok versions
    /\ map cs_snapshot_id versions = ["b"]
    /\ versions = filter (λ s,
         (cs_host_id s = "host" /\ cs_profile_id s = "home" /\ cs_source_id s = "documents")
         /\ plain_way ex_view (rc_root ex_catalog /./ rp_value (cs_repository_path s))
              (path_elements (rp_value ex_notes))) (rc_snapshots ex_catalog).
Proof.
  eexists. split; [vm_compute; reflexivity|]. split; [vm_compute; reflexivity|].
  apply find_versions_spec. vm_compute. reflexivity.
Defined.

Lemma resolve_regular_file_confined_witness :
  exists snapshot, catalog_snapshot ex_catalog "b" = Ok snapshot
    /\ below (rc_root ex_catalog /./ rp_value (cs_repository_path snapshot)) "/mnt/s/b/notes"
    /\ plain_way ex_view (rc_root ex_catalog /./ rp_value (cs_repository_path snapshot))
         (path_elements (rp_value ex_notes))
    /\ v_lstat ex_view "/mnt/s/b/notes" = inr KRegular.
Proof. apply resolve_regular_file_confined. vm_compute. reflexivity. Defined.

(** A path through a symbolic link is refused, and so is a path up. *)
Example link_refused :
  resolve_regular_file ex_view ex_catalog "a" (mkRelative "link" eq_refl)
  = restore_error RestoreErrorCode.SymlinkRejected "snapshot path traverses a symbolic link: link"
  /\ relative_restore_path "../etc"
     = restore_error RestoreErrorCode.PathTraversal "restore path contains '..': ../etc"
  /\ is_ok (relative_restore_path "a//b") = true /\ is_ok (relative_restore_path "a/") = false.
Proof. split_and!; vm_compute; reflexivity. Qed.

End CatalogExample.
