(* ===== verification/BrowseBackend.v ===== *)
(** * The backend of browse sessions (src/daemon/control/SystemBrowseSessionBackend,
      BrowseSessionMountStore)

    A session is a read-only bind mount of the repository on a target that all sessions of the
    target share under one lease; a marker on disk records what is to be cleaned up.  Profiles,
    mounts, units, locks and the files of the store are calls; the sessions and leases are the
    state of the thread of the bus. *)

From S2P Require Import Prelude Errors Identifiers RuntimeTime FsPath Json ConfigDomain BackupRunPlan Ports Mounts.
From S2P Require Import ProfileArtifacts Interaction BrowsePages BrowseSessions BrowseAccess.
From S2P Require RestoreCatalog.

Open Scope Z_scope.

(** ** State *)

(** src/daemon/control/BrowseSessionMountStore.hpp:18-28 *)
Record BrowseSessionMountRecord := mkMountRecord {
  mr_target_key : string;
  mr_target_unit : string;
  mr_directory : path;
  mr_view : path;
  mr_marker : path;
  mr_caller_uid : Z;
  mr_view_mounted : bool;
  mr_target_mounted_by_backend : bool;
  mr_target_released : bool;
}.

Global Instance eta_BrowseSessionMountRecord : Eta BrowseSessionMountRecord := λ r,
  mkMountRecord (mr_target_key r) (mr_target_unit r) (mr_directory r) (mr_view r) (mr_marker r)
    (mr_caller_uid r) (mr_view_mounted r) (mr_target_mounted_by_backend r) (mr_target_released r).

(** src/daemon/control/SystemBrowseSessionBackend.hpp:78-85 *)
Record CachedSnapshot := mkCached {
  ca_snapshot_id : string;
  ca_profile_id : string;
  ca_source_id : string;
  ca_repository_path : path;
  ca_created_at : string;
  ca_verified : bool;
}.

(** The lock of a lease is held as long as the lease is there.
    src/daemon/control/SystemBrowseSessionBackend.hpp:89-94 *)
Record TargetLease := mkLease {
  tl_profile : Profile;
  tl_users : Z;
  tl_mounted_by_backend : bool;
}.

Global Instance eta_TargetLease : Eta TargetLease := λ l,
  mkLease (tl_profile l) (tl_users l) (tl_mounted_by_backend l).

(** src/daemon/control/SystemBrowseSessionBackend.hpp:95-102 *)
Record SessionMount := mkSessionMount {
  sm_mount : BrowseSessionMountRecord;
  sm_identity : BrowseAccessIdentity;
  sm_repository_cached : bool;
  sm_repository_document : string;
  sm_snapshots : list CachedSnapshot;
  sm_previous_versions : gmap string (list PreviousVersionInfo);
}.

Global Instance eta_SessionMount : Eta SessionMount := λ s,
  mkSessionMount (sm_mount s) (sm_identity s) (sm_repository_cached s) (sm_repository_document s)
    (sm_snapshots s) (sm_previous_versions s).

(** src/daemon/control/SystemBrowseSessionBackend.hpp:125-126 *)
Record BackendState := mkBackend {
  bk_sessions : gmap string SessionMount;
  bk_targets : gmap string TargetLease;
}.

Global Instance eta_BackendState : Eta BackendState := λ s, mkBackend (bk_sessions s) (bk_targets s).

(** Profiles, mounts, units, the target's lock, the files of the mount store and the discovery of
    the catalogue.  [PrivateDirectory] is [require_private_directory] with mode 0700. *)
Inductive BackendOp : Type -> Type :=
| PrepareRoot : BackendOp unit
| GetProfile (profile_id : ProfileId) : BackendOp Profile
| TryLock (target_key : string) : BackendOp bool
| DowngradeLock (target_key : string) : BackendOp unit
| UpgradeLock (target_key : string) : BackendOp bool
| Unlock (target_key : string) : BackendOp unit
| InspectMounts : BackendOp (list MountEntry)
| StartUnit (unit_name : string) : BackendOp bool
| StopUnit (unit_name : string) : BackendOp bool
| StartTransient (unit_name : string) (command : list string) : BackendOp bool
| PrivateDirectory (p : path) : BackendOp unit
| PathExists (p : path) : BackendOp bool
| CreateDirectories (p : path) : BackendOp unit
| SecureDirectories (directory view : path) : BackendOp bool
| WriteMarker (session_id : BrowseSessionId) (record : BrowseSessionMountRecord) : BackendOp unit
| RemoveDirectory (record : BrowseSessionMountRecord) : BackendOp unit
| RemoveMarker (record : BrowseSessionMountRecord) : BackendOp unit
| StaleRecords (live_session_ids : list string)
    : BackendOp (list (BrowseSessionId * BrowseSessionMountRecord))
| DiscoverCatalog (view : path) : BackendOp RestoreCatalog.RepositoryCatalog.

Abbreviation Backend := (prog BackendState BackendOp).

Definition the_backend : Backend BackendState := Lock mret.

(** src/daemon/control/SystemBrowseSessionBackend.cpp:36-38 *)
Definition target_error {A} (message : string) : Backend A :=
  raise (ManagerOperationError TargetUnavailable message).

Definition set_targets (f : gmap string TargetLease -> gmap string TargetLease) : Backend unit :=
  state ← the_backend; put (state <| bk_targets := f (bk_targets state) |>).

Definition set_sessions (f : gmap string SessionMount -> gmap string SessionMount) : Backend unit :=
  state ← the_backend; put (state <| bk_sessions := f (bk_sessions state) |>).

(** A destructor: nothing it throws gets out. *)
Definition unlock (key : string) : Backend unit := catch (call (Unlock key)) (λ _, mret tt).

Section backend.
Context (weakly_canonical : path -> option path) (browse_root : path).

(** ** Leases of targets *)

Definition target_key (profile : Profile) : string := luks_uuid (target_identity (target profile)).
Definition target_unit (profile : Profile) : string :=
  target_mount_unit_name (abs_value (mount_point (target profile))).

(** What [acquire_target] does with the lock held.
    src/daemon/control/SystemBrowseSessionBackend.cpp:80-106 *)
Definition lease_target (profile : Profile) : Backend bool :=
  table ← call InspectMounts;
  mounted ← (if decide (is_Some (mount_at table (abs_value (mount_point (target profile)))))
             then mret (false, table)
             else
               started ← call (StartUnit (target_unit profile));
               if negb started then target_error "cannot mount backup target for browsing"
               else table ← call InspectMounts; mret (true, table));
  _ ← match validate_backup_target_mount weakly_canonical profile mounted.2 ReadAccess with
      | Ok _ => mret tt
      | Throw e =>
          _ ← (if (mounted.1 : bool) then (_ ← call (StopUnit (target_unit profile)); mret tt) else mret tt);
          raise e
      end;
  _ ← call (DowngradeLock (target_key profile));
  _ ← set_targets (insert (target_key profile) (mkLease profile 1 mounted.1));
  mret mounted.1.

(** Whether the target was mounted by the backend, which is all that is used of the lease.
    src/daemon/control/SystemBrowseSessionBackend.cpp:60-107 *)
Definition acquire_target (profile : Profile) : Backend bool :=
  let key := target_key profile in
  state ← the_backend;
  match bk_targets state !! key with
  | Some lease =>
      _ ← set_targets (insert key (lease <| tl_users := tl_users lease + 1 |>));
      mret (tl_mounted_by_backend lease)
  | None =>
      locked ← call (TryLock key);
      if negb locked then raise (ManagerOperationError Busy "backup target is in use")
      else catch (lease_target profile) (λ e, _ ← unlock key; raise e)
  end.

(** src/daemon/control/SystemBrowseSessionBackend.cpp:205-222 *)
Definition release_target (key : string) : Backend unit :=
  state ← the_backend;
  match bk_targets state !! key with
  | None => mret tt
  | Some lease =>
      if 1 <? tl_users lease
      then set_targets (insert key (lease <| tl_users := tl_users lease - 1 |>))
      else
        _ ← (if tl_mounted_by_backend lease then
               upgraded ← call (UpgradeLock key);
               if negb upgraded then target_error "cannot acquire exclusive target lock for cleanup"
               else
                 stopped ← call (StopUnit (target_unit (tl_profile lease)));
                 if negb stopped then target_error "cannot unmount backup target after browsing"
                 else mret tt
             else mret tt);
        _ ← set_targets (delete key);
        unlock key
  end.

(** ** Mounts of sessions *)

(** src/daemon/control/SystemBrowseSessionBackend.cpp:141-154 *)
Definition unmount (session_id : BrowseSessionId) (view : path) : Backend unit :=
  table ← call InspectMounts;
  if decide (is_Some (mount_at table view)) then
    unmounted ← call (StartTransient ("btrfs-backup-browse-unmount-" +:+ id_value session_id +:+ ".service")
                        ["umount"; view]);
    if negb unmounted then target_error "cannot unmount browse session" else mret tt
  else mret tt.

(** src/daemon/control/SystemBrowseSessionBackend.cpp:109-139 *)
Definition mount_read_only (session_id : BrowseSessionId) (source view : path) : Backend unit :=
  mounted ← call (StartTransient ("btrfs-backup-browse-mount-" +:+ id_value session_id +:+ ".service")
                    ["mount"; "-o"; "bind,ro,nodev,nosuid,noexec,nosymfollow"; source; view]);
  if negb mounted then target_error "cannot create read-only browse bind mount"
  else
    verified ← call (StartTransient ("btrfs-backup-browse-verify-" +:+ id_value session_id +:+ ".service")
                       ["findmnt"; "--noheadings"; "--mountpoint"; view; "--options";
                        "ro,nodev,nosuid,noexec,nosymfollow"]);
    if negb verified then
      _ ← catch (unmount session_id view) (λ _, mret tt);
      target_error "browse bind mount failed read-only verification"
    else mret tt.

(** src/daemon/control/BrowseSessionMountStore.cpp:66-87 *)
Definition make_record (session_id : BrowseSessionId) (caller_uid : Z) (key unit_name : string)
    (mounted_by_backend : bool) : Backend BrowseSessionMountRecord :=
  let uid_root := path_append browse_root (setw0 0 caller_uid) in
  _ ← call (PrivateDirectory uid_root);
  let directory := path_append uid_root (id_value session_id) in
  mret (mkMountRecord key unit_name directory (path_append directory "repository")
          (path_append (path_append browse_root ".state") (id_value session_id +:+ ".json"))
          caller_uid false mounted_by_backend false).

(** [save] stores the record where it is kept.
    src/daemon/control/SystemBrowseSessionBackend.cpp:224-249 *)
Definition cleanup_record (session_id : BrowseSessionId) (save : BrowseSessionMountRecord -> Backend unit)
    (record : BrowseSessionMountRecord) (release_live_target : bool) : Backend unit :=
  record ← (if mr_view_mounted record then
              _ ← unmount session_id (mr_view record);
              let record := record <| mr_view_mounted := false |> in
              _ ← save record;
              _ ← call (WriteMarker session_id record);
              mret record
            else mret record);
  _ ← call (RemoveDirectory record);
  record ← (if mr_target_released record then mret record
            else
              _ ← (if release_live_target then release_target (mr_target_key record)
                   else if mr_target_mounted_by_backend record then
                     state ← the_backend;
                     if decide (is_Some (bk_targets state !! mr_target_key record))
                     then target_error "stale target cleanup is deferred while the target is in use"
                     else
                       stopped ← call (StopUnit (mr_target_unit record));
                       if negb stopped
                       then target_error "cannot unmount backup target after stale browse session"
                       else mret tt
                   else mret tt);
              let record := record <| mr_target_released := true |> in
              _ ← save record;
              _ ← call (WriteMarker session_id record);
              mret record);
  call (RemoveMarker record).

Definition save_session (key : string) (record : BrowseSessionMountRecord) : Backend unit :=
  set_sessions (alter (λ session, session <| sm_mount := record |>) key).

(** src/daemon/control/SystemBrowseSessionBackend.cpp:251-257 *)
Definition backend_close (session_id : BrowseSessionId) : Backend unit :=
  state ← the_backend;
  match bk_sessions state !! id_value session_id with
  | None => mret tt
  | Some session =>
      _ ← cleanup_record session_id (save_session (id_value session_id)) (sm_mount session) true;
      set_sessions (delete (id_value session_id))
  end.

(** What [open] does once the session is stored.
    src/daemon/control/SystemBrowseSessionBackend.cpp:184-197 *)
Definition set_up_session (session_id : BrowseSessionId) (record : BrowseSessionMountRecord) (source : path)
    : Backend unit :=
  there ← call (PathExists (mr_directory record));
  if (there : bool) then target_error "browse session directory already exists"
  else
    _ ← call (CreateDirectories (mr_view record));
    secured ← call (SecureDirectories (mr_directory record) (mr_view record));
    if negb secured then target_error "cannot secure browse session directory"
    else
      _ ← call (WriteMarker session_id record);
      let record := record <| mr_view_mounted := true |> in
      _ ← save_session (id_value session_id) record;
      _ ← call (WriteMarker session_id record);
      mount_read_only session_id source (mr_view record).

(** src/daemon/control/SystemBrowseSessionBackend.cpp:156-203 *)
Definition backend_open (profile_id : ProfileId) (session_id : BrowseSessionId)
    (caller_identity : BrowseAccessIdentity) : Backend unit :=
  _ ← call PrepareRoot;
  profile ← call (GetProfile profile_id);
  mounted_by_backend ← acquire_target profile;
  record ← make_record session_id (ba_uid caller_identity) (target_key profile) (target_unit profile)
             mounted_by_backend;
  state ← the_backend;
  if decide (is_Some (bk_sessions state !! id_value session_id)) then
    _ ← release_target (target_key profile);
    target_error "browse session already exists"
  else
    _ ← set_sessions (insert (id_value session_id)
          (mkSessionMount record caller_identity false "" [] ∅));
    catch (set_up_session session_id record (abs_value (remote_root (paths profile))))
      (λ e, _ ← catch (backend_close session_id) (λ _, mret tt); raise e).

(** The keys in the order of the map. *)
Definition mount_keys (sessions : gmap string SessionMount) : list string :=
  std_sort str_less (elements (dom sessions)).

(** The loop of the destructor: a key is always that of an identifier. *)
Fixpoint close_sessions (keys : list string) : Backend unit :=
  match keys with
  | [] => mret tt
  | key :: keys =>
      _ ← catch (id ← lift (make_ident KBrowseSession key); backend_close id) (λ _, mret tt);
      close_sessions keys
  end.

(** src/daemon/control/SystemBrowseSessionBackend.cpp:51-58 *)
Definition destroy_backend : Backend unit :=
  state ← the_backend; close_sessions (mount_keys (bk_sessions state)).

(** ** Sessions an earlier daemon left behind *)

(** What becomes of a record in the first loop: the view counts as gone once it is unmounted, also
    when the marker cannot be written.
    src/daemon/control/SystemBrowseSessionBackend.cpp:279-286 *)
Definition unmount_stale (id : BrowseSessionId) (record : BrowseSessionMountRecord)
    : Backend BrowseSessionMountRecord :=
  if mr_view_mounted record then
    unmounted ← catch (_ ← unmount id (mr_view record); mret true) (λ _, mret false);
    if (unmounted : bool) then
      let record := record <| mr_view_mounted := false |> in
      _ ← catch (call (WriteMarker id record)) (λ _, mret tt);
      mret record
    else mret record
  else mret record.

Fixpoint unmount_stale_views (records : list (BrowseSessionId * BrowseSessionMountRecord))
    : Backend (list (BrowseSessionId * BrowseSessionMountRecord)) :=
  match records with
  | [] => mret []
  | (id, record) :: records =>
      record ← unmount_stale id record;
      records ← unmount_stale_views records;
      mret ((id, record) :: records)
  end.

Definition targets_with_mounted_views (records : list (BrowseSessionId * BrowseSessionMountRecord))
    : list string :=
  map (λ r, mr_target_key r.2) (List.filter (λ r, mr_view_mounted r.2) records).

(** src/daemon/control/SystemBrowseSessionBackend.cpp:290-296 *)
Fixpoint cleanup_records (busy : list string) (records : list (BrowseSessionId * BrowseSessionMountRecord))
    : Backend unit :=
  match records with
  | [] => mret tt
  | (id, record) :: records =>
      _ ← (if mr_view_mounted record || bool_decide (mr_target_key record ∈ busy) then mret tt
           else catch (cleanup_record id (λ _, mret tt) record false) (λ _, mret tt));
      cleanup_records busy records
  end.

(** src/daemon/control/SystemBrowseSessionBackend.cpp:259-297 *)
Definition cleanup_stale : Backend unit :=
  state ← the_backend;
  records ← call (StaleRecords (mount_keys (bk_sessions state)));
  records ← unmount_stale_views records;
  cleanup_records (targets_with_mounted_views records) records.

End backend.

(** ** Reading a session *)

(** src/core/ManagerProtocol.hpp:30-30 *)
Definition browse_repository_schema_version : Z := 1.

Section reading.
Context {D : Type} (mount : Mount D) `{JsonText}.

Definition the_session (session_id : BrowseSessionId) : Backend SessionMount :=
  state ← the_backend;
  match bk_sessions state !! id_value session_id with
  | None => raise (ManagerOperationError NotFound "browse session was not found")
  | Some session => mret session
  end.

(** src/daemon/control/SystemBrowseSessionBackend.cpp:349-361 *)
Definition snapshot_json (s : RestoreCatalog.CatalogSnapshot) : Json := JObject [
  ("snapshotId", JString (RestoreCatalog.cs_snapshot_id s));
  ("hostId", JString (RestoreCatalog.cs_host_id s));
  ("profileId", JString (RestoreCatalog.cs_profile_id s));
  ("sourceId", JString (RestoreCatalog.cs_source_id s));
  ("relativePath", JString (RestoreCatalog.rp_value (RestoreCatalog.cs_repository_path s)));
  ("createdAt", JString (format_utc_iso_timestamp (RestoreCatalog.cs_created_at s)));
  ("uuid", JString (RestoreCatalog.cs_uuid s));
  ("receivedUuid", JString (RestoreCatalog.cs_received_uuid s));
  ("parentUuid", JString (RestoreCatalog.cs_parent_uuid s));
  ("verified", JBool (RestoreCatalog.cs_verified s))].

(** src/daemon/control/SystemBrowseSessionBackend.cpp:362-369 *)
Definition cached_snapshot (s : RestoreCatalog.CatalogSnapshot) : CachedSnapshot :=
  mkCached (RestoreCatalog.cs_snapshot_id s) (RestoreCatalog.cs_profile_id s)
    (RestoreCatalog.cs_source_id s) (RestoreCatalog.rp_value (RestoreCatalog.cs_repository_path s))
    (format_utc_iso_timestamp (RestoreCatalog.cs_created_at s)) (RestoreCatalog.cs_verified s).

(** src/daemon/control/SystemBrowseSessionBackend.cpp:371-379 *)
Definition repository_json (catalog : RestoreCatalog.RepositoryCatalog) : Json :=
  let identity := RestoreCatalog.rc_identity catalog in
  JObject [
    ("schemaVersion", JInt browse_repository_schema_version);
    ("repositoryId", JString (RestoreCatalog.ri_repository_id identity));
    ("targetFilesystemUuid", JString (RestoreCatalog.ri_target_filesystem_uuid identity));
    ("createdAt", JString (format_utc_iso_timestamp (RestoreCatalog.ri_created_at identity)));
    ("features", JArray (map JString (RestoreCatalog.ri_features identity)));
    ("generation", JUInt (RestoreCatalog.rc_generation catalog));
    ("snapshots", JArray (map snapshot_json (RestoreCatalog.rc_snapshots catalog)))].

(** The session with its cache filled.
    src/daemon/control/SystemBrowseSessionBackend.cpp:330-382 *)
Definition ensure_repository_cache (session_id : BrowseSessionId) (session : SessionMount)
    : Backend SessionMount :=
  if sm_repository_cached session then mret session
  else
    catalog ← call (DiscoverCatalog (mr_view (sm_mount session)));
    document ← lift (dump_json (repository_json catalog));
    let session := session <| sm_repository_document := document |>
                           <| sm_snapshots := map cached_snapshot (RestoreCatalog.rc_snapshots catalog) |>
                           <| sm_repository_cached := true |> in
    _ ← set_sessions (insert (id_value session_id) session);
    mret session.

(** One round of the loop over the snapshots: of those that hold the path the longest, of equally
    long ones the first.  src/daemon/control/SystemBrowseSessionBackend.cpp:391-397 *)
Definition select_step (normalized : path) (selected : option CachedSnapshot) (snapshot : CachedSnapshot)
    : option CachedSnapshot :=
  if negb (ca_verified snapshot) || negb (path_is_within normalized (ca_repository_path snapshot))
  then selected
  else match selected with
       | None => Some snapshot
       | Some best =>
           if (String.length (ca_repository_path best) <? String.length (ca_repository_path snapshot))%nat
           then Some snapshot else selected
       end.

(** [authorized_snapshot_path] of a session whose cache is filled.
    src/daemon/control/SystemBrowseSessionBackend.cpp:389-406 *)
Definition resolve_in_snapshot (session : SessionMount) (relative_path : path) : res (path * path) :=
  normalized ← normalize_relative_path relative_path;
  match foldl (select_step normalized) None (sm_snapshots session) with
  | None => Throw (ManagerOperationError NotAuthorized "browse path is outside a verified snapshot")
  | Some selected =>
      let within := relative_path_to normalized (ca_repository_path selected) in
      Ok (path_append (mr_view (sm_mount session)) (ca_repository_path selected),
          if str_empty within then "." else within)
  end.

(** src/daemon/control/SystemBrowseSessionBackend.cpp:384-407 *)
Definition authorized_snapshot_path (session_id : BrowseSessionId) (session : SessionMount)
    (relative_path : path) : Backend (path * path) :=
  session ← ensure_repository_cache session_id session;
  lift (resolve_in_snapshot session relative_path).

(** src/daemon/control/SystemBrowseSessionBackend.cpp:299-309 *)
Definition backend_list_directory (session_id : BrowseSessionId) (relative_path : path)
    (maximum_entries : nat) : Backend (list BrowseEntryInfo) :=
  session ← the_session session_id;
  place ← authorized_snapshot_path session_id session relative_path;
  lift (access_list_directory mount place.1 place.2 maximum_entries (Some (sm_identity session))).

(** src/daemon/control/SystemBrowseSessionBackend.cpp:311-328 *)
Definition backend_list_directory_page (session_id : BrowseSessionId) (relative_path : path)
    (after_name : string) (maximum_entries : nat) : Backend BrowseDirectoryPage :=
  session ← the_session session_id;
  place ← authorized_snapshot_path session_id session relative_path;
  lift (access_list_directory_page mount place.1 place.2 after_name maximum_entries
          (Some (sm_identity session))).

(** src/daemon/control/SystemBrowseSessionBackend.cpp:476-485 *)
Definition backend_inspect_entry (session_id : BrowseSessionId) (relative_path : path)
    : Backend BrowseEntryInfo :=
  session ← the_session session_id;
  place ← authorized_snapshot_path session_id session relative_path;
  lift (access_inspect_entry mount place.1 place.2 (Some (sm_identity session))).

(** src/daemon/control/SystemBrowseSessionBackend.cpp:487-496 *)
Definition backend_open_file (session_id : BrowseSessionId) (relative_path : path) : Backend D :=
  session ← the_session session_id;
  place ← authorized_snapshot_path session_id session relative_path;
  lift (access_open_file mount place.1 place.2 (Some (sm_identity session))).

(** src/daemon/control/SystemBrowseSessionBackend.cpp:498-507 *)
Definition backend_open_entry (session_id : BrowseSessionId) (relative_path : path) : Backend D :=
  session ← the_session session_id;
  place ← authorized_snapshot_path session_id session relative_path;
  lift (access_open_entry mount place.1 place.2 (Some (sm_identity session))).

(** src/daemon/control/SystemBrowseSessionBackend.cpp:509-515 *)
Definition backend_inspect_repository (session_id : BrowseSessionId) : Backend string :=
  session ← the_session session_id;
  session ← ensure_repository_cache session_id session;
  mret (sm_repository_document session).

(** Newest first, equally old ones by identifier.
    src/daemon/control/SystemBrowseSessionBackend.cpp:431-435 *)
Definition version_less (left right : CachedSnapshot) : bool :=
  if negb (ca_created_at left =? ca_created_at right)%string
  then str_less (ca_created_at right) (ca_created_at left)
  else str_less (ca_snapshot_id left) (ca_snapshot_id right).

(** src/daemon/control/SystemBrowseSessionBackend.cpp:426-435 *)
Definition version_candidates (session : SessionMount) (profile_id source_id : string)
    : list CachedSnapshot :=
  std_sort version_less
    (List.filter (λ s, ca_verified s && (ca_profile_id s =? profile_id)%string
                       && (ca_source_id s =? source_id)%string) (sm_snapshots session)).

(** The two handlers of a candidate.
    src/daemon/control/SystemBrowseSessionBackend.cpp:451-456 *)
Definition skip_version (e : exn) : Backend (list PreviousVersionInfo) :=
  match e with
  | SystemError code _ => if (code =? ENOENT) || (code =? ENOTDIR) then mret [] else raise e
  | InvalidArgument _ => mret []
  | _ => raise e
  end.

(** src/daemon/control/SystemBrowseSessionBackend.cpp:439-457 *)
Fixpoint versions_in (session_id : BrowseSessionId) (session : SessionMount) (normalized : path)
    (candidates : list CachedSnapshot) : Backend (list PreviousVersionInfo) :=
  match candidates with
  | [] => mret []
  | snapshot :: candidates =>
      let entry_path := if path_eqb normalized "." then ca_repository_path snapshot
                        else path_append (ca_repository_path snapshot) normalized in
      found ← catch
        (place ← authorized_snapshot_path session_id session entry_path;
         entry ← lift (access_inspect_entry mount place.1 place.2 (Some (sm_identity session)));
         mret [mkVersionInfo (ca_snapshot_id snapshot) (ca_created_at snapshot) entry])
        skip_version;
      rest ← versions_in session_id session normalized candidates;
      mret (found ++ rest)
  end.

(** src/daemon/control/SystemBrowseSessionBackend.cpp:461-473 *)
Definition versions_page (entries : list PreviousVersionInfo) (offset maximum_entries : Z)
    : res PreviousVersionsPage :=
  let size := Z.of_nat (length entries) in
  if size <? offset
  then Throw (ManagerOperationError InvalidRequest "previous-versions continuation is out of range")
  else
    let last := offset + Z.min (size - offset) maximum_entries in
    Ok (mkVersions (take (Z.to_nat (last - offset)) (drop (Z.to_nat offset) entries)) last (last <? size) "").

(** src/daemon/control/SystemBrowseSessionBackend.cpp:409-474 *)
Definition backend_list_previous_versions (session_id : BrowseSessionId) (profile_id source_id : string)
    (relative_path : path) (offset maximum_entries : Z) : Backend PreviousVersionsPage :=
  session ← the_session session_id;
  normalized ← lift (normalize_relative_path relative_path);
  let cache_key := profile_id +:+ String nul (source_id +:+ String nul normalized) in
  session ← ensure_repository_cache session_id session;
  entries ← match sm_previous_versions session !! cache_key with
            | Some entries => mret entries
            | None =>
                entries ← versions_in session_id session normalized
                            (version_candidates session profile_id source_id);
                _ ← set_sessions (insert (id_value session_id)
                      (session <| sm_previous_versions := <[cache_key := entries]> (sm_previous_versions session) |>));
                mret entries
            end;
  lift (versions_page entries offset maximum_entries).

(** ** Which profiles cover a local path *)

(** The enabled source that holds the path, the deepest.
    src/daemon/control/SystemBrowseSessionBackend.cpp:525-530 *)
Definition coverage_step (local_path : path) (best : option ProfileSource) (source : ProfileSource)
    : option ProfileSource :=
  if negb (source_enabled source) || negb (path_is_within local_path (abs_value (subvolume source)))
  then best
  else match best with
       | None => Some source
       | Some b =>
           if (String.length (abs_value (subvolume b)) <? String.length (abs_value (subvolume source)))%nat
           then Some source else best
       end.

(** src/daemon/control/SystemBrowseSessionBackend.cpp:517-541 *)
Fixpoint backend_resolve_coverage (local_path : path) (profile_ids : list ProfileId)
    : Backend (list BackupCoverage) :=
  match profile_ids with
  | [] => mret []
  | profile_id :: profile_ids =>
      profile ← call (GetProfile profile_id);
      let best := foldl (coverage_step local_path) None (sources profile) in
      rest ← backend_resolve_coverage local_path profile_ids;
      mret (match best with
            | None => rest
            | Some source =>
                let relative := relative_path_to local_path (abs_value (subvolume source)) in
                mkCoverage (id_value profile_id) (id_value (source_id source))
                  (if str_empty relative then "." else relative) :: rest
            end)
  end.
End reading.

(** ** Requests *)

Inductive BackendRequest :=
| RqOpen (profile_id : ProfileId) (session_id : BrowseSessionId) (identity : BrowseAccessIdentity)
| RqClose (session_id : BrowseSessionId)
| RqCleanupStale
| RqDestroy
| RqListDirectory (session_id : BrowseSessionId) (p : path) (maximum_entries : nat)
| RqListDirectoryPage (session_id : BrowseSessionId) (p : path) (after_name : string) (maximum_entries : nat)
| RqPreviousVersions (session_id : BrowseSessionId) (profile_id source_id : string) (p : path)
    (offset maximum_entries : Z)
| RqInspectEntry (session_id : BrowseSessionId) (p : path)
| RqOpenFile (session_id : BrowseSessionId) (p : path)
| RqOpenEntry (session_id : BrowseSessionId) (p : path)
| RqInspectRepository (session_id : BrowseSessionId)
| RqCoverage (p : path) (profiles : list ProfileId).

Section requests.
Context {D : Type} (mount : Mount D) `{JsonText}.
Context (weakly_canonical : path -> option path) (browse_root : path).

Definition backend_request (r : BackendRequest) : Backend unit :=
  match r with
  | RqOpen profile_id id identity => backend_open weakly_canonical browse_root profile_id id identity
  | RqClose id => backend_close id
  | RqCleanupStale => cleanup_stale
  | RqDestroy => destroy_backend
  | RqListDirectory id p n => _ ← backend_list_directory mount id p n; mret tt
  | RqListDirectoryPage id p after n => _ ← backend_list_directory_page mount id p after n; mret tt
  | RqPreviousVersions id profile source p offset n =>
      _ ← backend_list_previous_versions mount id profile source p offset n; mret tt
  | RqInspectEntry id p => _ ← backend_inspect_entry mount id p; mret tt
  | RqOpenFile id p => _ ← backend_open_file mount id p; mret tt
  | RqOpenEntry id p => _ ← backend_open_entry mount id p; mret tt
  | RqInspectRepository id => _ ← backend_inspect_repository id; mret tt
  | RqCoverage p profiles => _ ← backend_resolve_coverage p profiles; mret tt
  end.

Fixpoint backend_requests (l : list BackendRequest) : Backend unit :=
  match l with
  | [] => mret tt
  | r :: l => _ ← catch (backend_request r) (λ _, mret tt); backend_requests l
  end.
End requests.

(** ** Invariant: a session that was not released has a user of its lease *)

Definition holding (k : string) (session : SessionMount) : Prop :=
  mr_target_key (sm_mount session) = k /\ mr_target_released (sm_mount session) = false.

Definition holders (k : string) (sessions : gmap string SessionMount) : Z :=
  Z.of_nat (size (filter (λ p, holding k p.2) sessions)).

Definition users (k : string) (targets : gmap string TargetLease) : Z :=
  match targets !! k with Some lease => tl_users lease | None => 0 end.

(** [spare] users of the leases that belong to no session yet, or to one that has given it up. *)
Record covered (spare : string -> Z) (s : BackendState) : Prop := {
  cov_users : forall k, holders k (bk_sessions s) + spare k <= users k (bk_targets s);
  cov_lease : forall k lease, bk_targets s !! k = Some lease ->
    1 <= tl_users lease /\ target_key (tl_profile lease) = k;
}.

Definition leases_ok (s : BackendState) : Prop := covered (λ _, 0) s.

Definition one (k k' : string) : Z := if decide (k' = k) then 1 else 0.

Definition held (k : string) (session : option SessionMount) : Z :=
  match session with Some m => if decide (holding k m) then 1 else 0 | None => 0 end.

Lemma holders_at k id sessions :
  holders k sessions = holders k (delete id sessions) + held k (sessions !! id).
Proof.
  unfold holders, held. destruct (sessions !! id) as [m|] eqn:E.
  - rewrite <-(insert_delete_id sessions id m E) at 1. case_decide as Hd.
    + rewrite map_filter_insert_True by done. rewrite map_size_insert_None; [lia|].
      apply map_lookup_filter_None. left. apply lookup_delete_eq.
    + rewrite map_filter_insert_False by done. rewrite delete_delete_eq. lia.
  - rewrite delete_id by done. lia.
Qed.

Lemma holders_insert k id m sessions :
  holders k (<[id := m]> sessions) = holders k (delete id sessions) + held k (Some m).
Proof. rewrite (holders_at k id (<[id := m]> sessions)), delete_insert_eq, lookup_insert_eq. done. Qed.

Lemma held_bound k m : 0 <= held k m <= 1.
Proof. unfold held. repeat case_match; lia. Qed.

Lemma holders_nonneg k sessions : 0 <= holders k sessions.
Proof. unfold holders. lia. Qed.

Lemma holders_other k sessions id m :
  sessions !! id = Some m -> holding k m -> 1 <= holders k sessions.
Proof.
  intros Hm Hh. rewrite (holders_at k id). rewrite Hm. unfold held. rewrite decide_True by done.
  pose proof (holders_nonneg k (delete id sessions)). lia.
Qed.

(** ** Triples *)

(** A call that leaves the target mounted and its lock as it is. *)
Definition calm (e : entry BackendState BackendOp) : Prop :=
  match e with
  | Did (StopUnit _) _ | Did (UpgradeLock _) _ | Did (Unlock _) _ => False
  | _ => True
  end.

Definition triple {A} (allowed : entry BackendState BackendOp -> Prop) (pre : BackendState -> Prop)
    (m : Backend A) (post : res A -> BackendState -> Prop) : Prop :=
  forall s, pre s -> solo any_answer m (λ c r s', Forall allowed c /\ post r s') s.

Section triples.
Context {allowed : entry BackendState BackendOp -> Prop}.

Lemma tp_conseq {A} (pre pre' : BackendState -> Prop) (post post' : res A -> BackendState -> Prop) m :
  triple allowed pre' m post' -> (forall s, pre s -> pre' s) -> (forall r s, post' r s -> post r s) ->
  triple allowed pre m post.
Proof. intros Hm Hp Hq s Hs. eapply solo_mono; [|apply Hm, Hp, Hs]. cbn. naive_solver. Qed.

Lemma tp_bind {A B} pre (m : Backend A) (f : A -> Backend B) (mid : A -> BackendState -> Prop) post :
  triple allowed pre m (λ r s, match r with Ok a => mid a s | Throw e => post (Throw e) s end) ->
  (forall a, triple allowed (mid a) (f a) post) -> triple allowed pre (m ≫= f) post.
Proof.
  intros Hm Hf s Hs. apply solo_bind. eapply solo_mono; [|apply Hm, Hs]. cbn.
  intros c [a|e] s' [Hc Hr]; [|done]. eapply solo_mono; [|apply Hf, Hr]. cbn.
  intros c' r s'' [? ?]. split; [by apply Forall_app|done].
Qed.

Lemma tp_catch {A} pre (m : Backend A) h (mid : exn -> BackendState -> Prop) post :
  triple allowed pre m (λ r s, match r with Ok a => post (Ok a) s | Throw e => mid e s end) ->
  (forall e, triple allowed (mid e) (h e) post) -> triple allowed pre (catch m h) post.
Proof.
  intros Hm Hh s Hs. apply solo_catch. eapply solo_mono; [|apply Hm, Hs]. cbn.
  intros c [a|e] s' [Hc Hr]; [done|]. eapply solo_mono; [|apply Hh, Hr]. cbn.
  intros c' r s'' [? ?]. split; [by apply Forall_app|done].
Qed.

Lemma tp_done {A} (pre : BackendState -> Prop) (r : res A) (post : res A -> BackendState -> Prop) :
  (forall s, pre s -> post r s) -> triple allowed pre (Done r) post.
Proof. intros H s Hs. split; [constructor|by apply H]. Qed.

Lemma tp_call {X A} pre (o : BackendOp X) (f : X -> Backend A) post :
  (forall r, allowed (Did o r)) -> (forall s e, pre s -> post (Throw e) s) ->
  (forall x, triple allowed pre (f x) post) -> triple allowed pre (call o ≫= f) post.
Proof.
  intros Ha He Hf s Hs. cbn. intros [x|e] _; cbn.
  - eapply solo_mono; [|apply Hf, Hs]. cbn. intros c r s' [? ?]. split; [by constructor|done].
  - split; [by repeat constructor|auto].
Qed.

Lemma tp_last_call {X} pre (o : BackendOp X) (post : res X -> BackendState -> Prop) :
  (forall r, allowed (Did o r)) -> (forall s r, pre s -> post r s) -> triple allowed pre (call o) post.
Proof. intros Ha Hp s Hs. cbn. intros r _. split; [by repeat constructor|auto]. Qed.

Lemma tp_see {A} (pre : BackendState -> Prop) (f : BackendState -> Backend A) post :
  (forall s, pre s -> triple allowed (eq s) (f s) post) -> triple allowed pre (the_backend ≫= f) post.
Proof. intros H s Hs. cbn. by apply (H s Hs). Qed.

Lemma tp_targets pre f (post : res unit -> BackendState -> Prop) :
  (forall s, pre s -> post (Ok tt) (s <| bk_targets := f (bk_targets s) |>)) ->
  triple allowed pre (set_targets f) post.
Proof. intros H s Hs. split; [constructor|by apply H]. Qed.

Lemma tp_sessions pre f (post : res unit -> BackendState -> Prop) :
  (forall s, pre s -> post (Ok tt) (s <| bk_sessions := f (bk_sessions s) |>)) ->
  triple allowed pre (set_sessions f) post.
Proof. intros H s Hs. split; [constructor|by apply H]. Qed.
End triples.

(** Programs that make only calm calls and do not change the state. *)
Definition quiet {A} (m : Backend A) : Prop := forall s, triple calm (eq s) m (λ _, eq s).

Lemma tp_quiet {A} {allowed : entry BackendState BackendOp -> Prop} (pre : BackendState -> Prop) (m : Backend A)
    (post : res A -> BackendState -> Prop) :
  quiet m -> (forall e, calm e -> allowed e) -> (forall r s, pre s -> post r s) -> triple allowed pre m post.
Proof.
  intros Hm Ha Hp s Hs. eapply solo_mono; [|by apply (Hm s)]. cbn.
  intros c r s' [Hc <-]. split; [by eapply Forall_impl|auto].
Qed.

Lemma quiet_bind {A B} (m : Backend A) (f : A -> Backend B) : quiet m -> (forall a, quiet (f a)) -> quiet (m ≫= f).
Proof. intros Hm Hf s. eapply tp_bind; [|intros a; apply Hf]. by eapply tp_conseq; [apply Hm|..]; [done|intros []]. Qed.

Lemma quiet_catch {A} (m : Backend A) h : quiet m -> (forall e, quiet (h e)) -> quiet (catch m h).
Proof. intros Hm Hh s. eapply tp_catch; [|intros a; apply Hh]. by eapply tp_conseq; [apply Hm|..]; [done|intros []]. Qed.

Lemma quiet_done {A} (r : res A) : quiet (Done r).
Proof. intros s. by apply tp_done. Qed.

Lemma quiet_call {X} (o : BackendOp X) : (forall r, calm (Did o r)) -> quiet (call o).
Proof. intros H s. by apply tp_last_call. Qed.

Ltac quiet :=
  repeat first
    [ apply quiet_bind; [|intros ?] | apply quiet_catch; [|intros ?] | apply quiet_done
    | apply quiet_call; done | progress cbn beta iota | case_match | done ].

Lemma unmount_quiet id view : quiet (unmount id view).
Proof. unfold unmount, target_error, raise. quiet. Qed.

Lemma mount_quiet id source view : quiet (mount_read_only id source view).
Proof. unfold mount_read_only, target_error, raise. quiet; apply unmount_quiet. Qed.

(** ** Leases *)

Lemma users_insert k k' lease targets :
  users k (<[k' := lease]> targets) = if decide (k = k') then tl_users lease else users k targets.
Proof.
  unfold users. case_decide as E; [subst; by rewrite lookup_insert_eq|by rewrite lookup_insert_ne by done].
Qed.

Lemma users_delete k k' targets :
  users k (delete k' targets) = if decide (k = k') then 0 else users k targets.
Proof.
  unfold users. case_decide as E; [subst; by rewrite lookup_delete_eq|by rewrite lookup_delete_ne by done].
Qed.

Lemma users_nonneg k spare s : covered spare s -> 0 <= users k (bk_targets s).
Proof. intros [_ H]. unfold users. case_match eqn:E; [apply H in E; lia|lia]. Qed.

Lemma covered_le spare spare' s : covered spare s -> (forall k, spare' k <= spare k) -> covered spare' s.
Proof. intros [Hu Hl] H. split; [|done]. intros k. specialize (Hu k). specialize (H k). lia. Qed.

(** A lease is stored with one user more, or one user fewer. *)
Lemma covered_lease spare spare' key lease s :
  covered spare s -> 1 <= tl_users lease -> target_key (tl_profile lease) = key ->
  (forall k, spare' k - spare k <= (if decide (k = key) then tl_users lease - users key (bk_targets s) else 0)) ->
  covered spare' (s <| bk_targets := <[key := lease]> (bk_targets s) |>).
Proof.
  intros [Hu Hl] H1 Hk Hs. split; cbn.
  - intros k. rewrite users_insert. specialize (Hu k). specialize (Hs k). case_decide; subst; lia.
  - intros k l. destruct (decide (k = key)) as [->|]; [rewrite lookup_insert_eq|rewrite lookup_insert_ne by done]; auto.
    by intros [= <-].
Qed.

Lemma covered_released spare key s :
  covered (λ k, spare k + one key k) s -> users key (bk_targets s) <= 1 ->
  covered spare (s <| bk_targets := delete key (bk_targets s) |>).
Proof.
  intros [Hu Hl] H1. split; cbn.
  - intros k. rewrite users_delete. specialize (Hu k). unfold one in Hu. case_decide; subst; lia.
  - intros k l [_ ?]%lookup_delete_Some. auto.
Qed.

Definition with_sessions (ss : gmap string SessionMount) (P : BackendState -> Prop) (s : BackendState) : Prop :=
  bk_sessions s = ss /\ P s.

Lemma unlock_triple (allowed : entry BackendState BackendOp -> Prop) (pre : BackendState -> Prop) key :
  (forall e, allowed e) -> triple allowed pre (unlock key) (λ r s, r = Ok tt /\ pre s).
Proof.
  intros Ha. unfold unlock. eapply (tp_catch _ _ _ (λ _, pre)).
  - apply tp_last_call; [done|]. intros s [[]|e] Hs; auto.
  - intros e. by apply tp_done.
Qed.

Lemma release_triple (allowed : entry BackendState BackendOp -> Prop) spare key ss :
  (forall e, calm e -> allowed e) ->
  triple allowed
    (λ s, with_sessions ss (covered (λ k, spare k + one key k)) s
          /\ (users key (bk_targets s) <= 1 -> forall e, allowed e))
    (release_target key)
    (λ r, with_sessions ss (covered (match r with Ok _ => spare | Throw _ => λ k, spare k + one key k end))).
Proof.
  intros Hcalm. unfold release_target. apply tp_see. intros s [[Hss Hc] Ha].
  destruct (bk_targets s !! key) as [lease|] eqn:E.
  2:{ apply tp_done. intros ? <-. split; [done|]. eapply covered_le; [done|]. intros k. unfold one. case_decide; lia. }
  destruct (cov_lease _ _ Hc _ _ E) as [H1 Hk].
  assert (Hu : users key (bk_targets s) = tl_users lease) by (unfold users; by rewrite E).
  destruct (1 <? tl_users lease) eqn:Hlt.
  - apply tp_targets. intros ? <-. split; [done|]. eapply covered_lease; [done|cbn; lia|done|].
    intros k. unfold one. cbn. rewrite Hu. case_decide; lia.
  - assert (forall e, allowed e) as Hall by (apply Ha; lia).
    apply tp_bind with (mid := λ _, eq s).
    + destruct (tl_mounted_by_backend lease); [|by apply tp_done].
      apply tp_call; [done|by intros ? ? <-|]. intros upgraded. destruct upgraded; cbn [negb]; [|by apply tp_done; intros ? <-].
      apply tp_call; [done|by intros ? ? <-|]. intros stopped. destruct stopped; cbn [negb]; by apply tp_done; intros ? <-.
    + intros _. apply tp_bind with (mid := λ _, with_sessions ss (covered spare)).
      * apply tp_targets. intros ? <-. split; [done|]. apply covered_released; [done|lia].
      * intros _. eapply tp_conseq; [by apply unlock_triple|done|]. by intros ? s' [-> ?].
Qed.

(** ** Closing a session *)

(** The session of [id] has [record]; the others are [rest]. *)
Definition stored (id : string) (rest : gmap string SessionMount) (record : BrowseSessionMountRecord)
    (s : BackendState) : Prop :=
  delete id (bk_sessions s) = rest /\ exists session, bk_sessions s !! id = Some session /\ sm_mount session = record.

Definition uses (k : string) (record : BrowseSessionMountRecord) : Z :=
  if decide (mr_target_key record = k /\ mr_target_released record = false) then 1 else 0.

Lemma covered_stored spare id rest record s :
  stored id rest record s -> covered spare s ->
  forall k, holders k rest + uses k record + spare k <= users k (bk_targets s).
Proof.
  intros [Hd (m & Hm & <-)] [Hu _] k. specialize (Hu k). rewrite (holders_at k id), Hd, Hm in Hu. apply Hu.
Qed.

Lemma save_triple {allowed} spare spare' id rest record record' (more : gmap string TargetLease -> Prop) :
  (forall k, uses k record' + spare' k <= uses k record + spare k) ->
  triple allowed (λ s, covered spare s /\ stored id rest record s /\ more (bk_targets s))
    (save_session id record')
    (λ r s, r = Ok tt /\ covered spare' s /\ stored id rest record' s /\ more (bk_targets s)).
Proof.
  intros H. apply tp_sessions. intros s (Hc & Hst & Hm). cbn. split; [done|].
  pose proof (covered_stored _ _ _ _ _ Hst Hc) as Hu. destruct Hst as [Hd (m & Hl & Hr)].
  assert (Ha : alter (λ se, se <| sm_mount := record' |>) id (bk_sessions s)
               = <[id := m <| sm_mount := record' |>]> (bk_sessions s)).
  { apply map_eq. intros j. destruct (decide (j = id)) as [->|].
    - by rewrite lookup_alter_eq, lookup_insert_eq, Hl.
    - by rewrite lookup_alter_ne, lookup_insert_ne. }
  cbn in Ha. split_and!; [|split|done].
  - split; [|apply Hc]. cbn. intros k. specialize (Hu k). specialize (H k).
    rewrite Ha, holders_insert, Hd. cbn. unfold holding. cbn. fold (uses k record'). lia.
  - cbn. by rewrite Ha, delete_insert_eq.
  - cbn. rewrite Ha. eexists. by rewrite lookup_insert_eq.
Qed.

Lemma uses_released k record : uses k (record <| mr_target_released := true |>) = 0.
Proof. unfold uses. cbn. rewrite decide_False; naive_solver. Qed.

Lemma uses_one k record : uses k record <= one (mr_target_key record) k.
Proof. unfold uses, one. repeat case_decide; try lia. naive_solver. Qed.

Lemma uses_of_one k record : mr_target_released record = false -> uses k record = one (mr_target_key record) k.
Proof. intros H. unfold uses, one. rewrite H. repeat case_decide; naive_solver. Qed.

(** The first half of the cleanup of a live session.  The target may be given up only with the last
    user of its lease. *)
Definition ready (allowed : entry BackendState BackendOp -> Prop) (id : string)
    (rest : gmap string SessionMount) (record : BrowseSessionMountRecord) (s : BackendState) : Prop :=
  leases_ok s /\ stored id rest record s /\
  (users (mr_target_key record) (bk_targets s) <= 1 -> forall e, allowed e).

(** Whatever happens to the session, the other sessions stay as they are. *)
Definition left_over (id : string) (rest : gmap string SessionMount) (s : BackendState) : Prop :=
  leases_ok s /\ exists record, stored id rest record s.

Lemma ready_left allowed id rest record s : ready allowed id rest record s -> left_over id rest s.
Proof. intros (? & ? & _). split; eauto. Qed.

Lemma cleanup_triple (allowed : entry BackendState BackendOp -> Prop) (session_id : BrowseSessionId) rest record :
  (forall e, calm e -> allowed e) ->
  triple allowed (ready allowed (id_value session_id) rest record)
    (cleanup_record session_id (save_session (id_value session_id)) record true)
    (λ r s, left_over (id_value session_id) rest s).
Proof.
  intros Hcalm. unfold cleanup_record. set (id := id_value session_id).
  apply tp_bind with (mid := λ record' s, ready allowed id rest record' s).
  { destruct (mr_view_mounted record); [|apply tp_done; auto].
    apply tp_bind with (mid := λ _ s, ready allowed id rest record s).
    { apply tp_quiet; [apply unmount_quiet|done|]. intros [] s Hs; [done|by eapply ready_left]. }
    intros _. cbn zeta. set (record' := record <| mr_view_mounted := false |>).
    apply tp_bind with (mid := λ _ s, ready allowed id rest record' s).
    { eapply tp_conseq; [apply (save_triple (λ _, 0) (λ _, 0) id rest record record'
        (λ ts, users (mr_target_key record) ts <= 1 -> forall e, allowed e)); done|done|].
      intros r s (-> & Hs). apply Hs. }
    intros _. apply tp_call; [intros; by apply Hcalm|intros s e Hs; by eapply ready_left|].
    intros _. apply tp_done. auto. }
  clear record. intros record.
  apply tp_call; [intros; by apply Hcalm|intros s e Hs; by eapply ready_left|]. intros _.
  apply tp_bind with (mid := λ _ s, left_over id rest s).
  2:{ intros ?. apply tp_last_call; [intros; by apply Hcalm|done]. }
  destruct (mr_target_released record) eqn:Hrel.
  { apply tp_done. intros s Hs. by eapply ready_left. }
  set (key := mr_target_key record).
  apply tp_bind with (mid := λ _ s, covered (λ k, - one key k) s /\ stored id rest record s /\ True).
  { intros s (Hc & Hst & Hu). refine (tp_conseq _ _ _ _ _ (release_triple allowed (λ k, - one key k) key
      (bk_sessions s) Hcalm) (λ _ H, H) _ s _).
    - intros [] s' [Hs' Hcov]; unfold left_over, stored in *; rewrite Hs'; [done|]. split; [|by eauto].
      eapply covered_le; [done|]. intros k. cbn. lia.
    - split; [|done]. split; [done|]. eapply covered_le; [done|]. intros k. cbn. lia. }
  intros _. cbn zeta. apply tp_bind with (mid := λ _ s, left_over id rest s).
  { eapply tp_conseq; [apply (save_triple (λ k, - one key k) (λ _, 0) id rest record
      (record <| mr_target_released := true |>) (λ _, True))|done|].
    - intros k. rewrite uses_released, (uses_of_one k record) by done. fold key. lia.
    - intros r s (-> & ? & ? & _). split; eauto. }
  intros _. apply tp_call; [intros; by apply Hcalm|done|]. intros _. by apply tp_done.
Qed.

(** Nothing but the session of [id] changes. *)
Definition spares (id : string) (rest : gmap string SessionMount) (s : BackendState) : Prop :=
  leases_ok s /\ delete id (bk_sessions s) = rest.

Lemma left_spares id rest s : left_over id rest s -> spares id rest s.
Proof. intros [? (record & ? & _)]. done. Qed.

Lemma close_triple (allowed : entry BackendState BackendOp -> Prop) (session_id : BrowseSessionId) rest :
  (forall e, calm e -> allowed e) ->
  triple allowed
    (λ s, spares (id_value session_id) rest s /\
          forall session, bk_sessions s !! id_value session_id = Some session ->
            users (mr_target_key (sm_mount session)) (bk_targets s) <= 1 -> forall e, allowed e)
    (backend_close session_id)
    (λ r, spares (id_value session_id) rest).
Proof.
  intros Hcalm. unfold backend_close. apply tp_see. intros s [[Hc Hd] Ha].
  destruct (bk_sessions s !! id_value session_id) as [session|] eqn:E.
  2:{ apply tp_done. by intros ? <-. }
  apply tp_bind with (mid := λ _ s, left_over (id_value session_id) rest s).
  - eapply tp_conseq; [apply (cleanup_triple allowed session_id rest (sm_mount session) Hcalm)| |].
    + intros ? <-. split; [done|]. split; [|by apply (Ha session)]. split; [done|eauto].
    + intros [] s'; [done|]. apply left_spares.
  - intros _. apply tp_sessions. intros s' [Hc' (record & Hst)].
    pose proof (covered_stored _ _ _ _ _ Hst Hc') as Hu. destruct Hst as [Hd' _]. split; cbn; [|by rewrite delete_delete_eq].
    split; [|apply Hc']. cbn. intros k. rewrite Hd'. specialize (Hu k). unfold uses in Hu. case_decide; lia.
Qed.

Definition any_entry (e : entry BackendState BackendOp) : Prop := True.

Lemma close_keeps id : triple any_entry leases_ok (backend_close id) (λ _, leases_ok).
Proof.
  intros s Hs. refine (tp_conseq _ _ _ _ _ (close_triple any_entry id (delete (id_value id) (bk_sessions s))
    (λ _ _, I)) (λ _ H, H) _ s _); [|done].
  by intros r s' [? _].
Qed.

Lemma quiet_keeps {A} (m : Backend A) : quiet m -> triple any_entry leases_ok m (λ _, leases_ok).
Proof. intros H. by apply tp_quiet. Qed.

Lemma leases_catch {A} (m : Backend A) h :
  triple any_entry leases_ok m (λ _, leases_ok) ->
  (forall e, triple any_entry leases_ok (h e) (λ _, leases_ok)) ->
  triple any_entry leases_ok (catch m h) (λ _, leases_ok).
Proof.
  intros Hm Hh. apply tp_catch with (mid := λ _, leases_ok); [|done].
  eapply tp_conseq; [exact Hm|done|]. by intros [].
Qed.

Lemma leases_seq {A B} (m : Backend A) (f : A -> Backend B) :
  triple any_entry leases_ok m (λ _, leases_ok) ->
  (forall a, triple any_entry leases_ok (f a) (λ _, leases_ok)) ->
  triple any_entry leases_ok (m ≫= f) (λ _, leases_ok).
Proof.
  intros Hm Hf. apply tp_bind with (mid := λ _, leases_ok); [|done]. eapply tp_conseq; [exact Hm|done|]. by intros [].
Qed.

Lemma leases_done {A} (r : res A) : triple any_entry leases_ok (Done r) (λ _, leases_ok).
Proof. by apply tp_done. Qed.

Lemma leases_call {X} (o : BackendOp X) : triple any_entry leases_ok (call o) (λ _, leases_ok).
Proof. by apply tp_last_call. Qed.

(** ** Opening a session *)

Lemma acquire_triple weakly_canonical profile :
  triple any_entry leases_ok (acquire_target weakly_canonical profile)
    (λ r, match r with Ok _ => covered (one (target_key profile)) | Throw _ => leases_ok end).
Proof.
  unfold acquire_target. set (key := target_key profile). apply tp_see. intros s Hs.
  destruct (bk_targets s !! key) as [lease|] eqn:E.
  - destruct (cov_lease _ _ Hs _ _ E) as [H1 Hk].
    apply tp_bind with (mid := λ _, covered (one key)); [|intros _; by apply tp_done].
    apply tp_targets. intros ? <-. eapply covered_lease; [done|cbn; lia|done|].
    intros k. unfold one, users. rewrite E. cbn. case_decide; lia.
  - apply tp_call; [done|by intros ? ? <-|]. intros locked. destruct locked; cbn [negb]; [|by apply tp_done; intros ? <-].
    eapply (tp_catch _ _ _ (λ _, leases_ok)).
    2:{ intros e. apply tp_bind with (mid := λ _, leases_ok); [|intros _; by apply tp_done].
        eapply tp_conseq; [by apply unlock_triple|done|]. by intros r s' [-> ?]. }
    unfold lease_target. fold key. apply tp_call; [done|by intros ? ? <-|]. intros table.
    apply tp_bind with (mid := λ _, eq s).
    { case_decide; [by apply tp_done|]. apply tp_call; [done|by intros ? ? <-|].
      intros started. destruct started; cbn [negb]; [|by apply tp_done; intros ? <-].
      apply tp_call; [done|by intros ? ? <-|]. intros ?. by apply tp_done. }
    intros [mounted table']. cbn [fst snd]. apply tp_bind with (mid := λ _, eq s).
    { case_match; [by apply tp_done|]. apply tp_bind with (mid := λ _, eq s); [|intros _; by apply tp_done; intros ? <-].
      destruct mounted; [|by apply tp_done]. apply tp_call; [done|by intros ? ? <-|]. intros ?. by apply tp_done. }
    intros _. apply tp_call; [done|by intros ? ? <-|]. intros _.
    apply tp_bind with (mid := λ _, covered (one key)); [|intros _; by apply tp_done].
    apply tp_targets. intros ? <-. eapply covered_lease; [done|cbn; lia|done|].
    intros k. unfold one, users. rewrite E. cbn. case_decide; lia.
Qed.

Lemma release_keeps spare key :
  (forall k, 0 <= spare k) ->
  triple any_entry (covered (λ k, spare k + one key k)) (release_target key) (λ _, leases_ok).
Proof.
  intros Hsp s Hs. refine (tp_conseq _ _ _ _ _ (release_triple any_entry spare key (bk_sessions s) (λ _ _, I))
    (λ _ H, H) _ s _); [|done].
  intros [] s' [_ Hc]; eapply covered_le; try done; intros k; specialize (Hsp k); unfold one; repeat case_decide; lia.
Qed.

(** A new session takes the user of the lease that was acquired for it. *)
Lemma covered_new id session s :
  bk_sessions s !! id = None -> covered (one (mr_target_key (sm_mount session))) s ->
  leases_ok (s <| bk_sessions := <[id := session]> (bk_sessions s) |>).
Proof.
  intros Hn Hc. split; [|apply Hc]. cbn. intros k. rewrite holders_insert, delete_id by done. destruct Hc as [Hu _].
  specialize (Hu k). enough (held k (Some session) <= one (mr_target_key (sm_mount session)) k) by lia.
  apply (uses_one k (sm_mount session)).
Qed.

Lemma save_keeps id record record' :
  (forall k, uses k record' = uses k record) ->
  triple any_entry (λ s, leases_ok s /\ exists rest, stored id rest record s) (save_session id record')
    (λ _ s, leases_ok s /\ exists rest, stored id rest record' s).
Proof.
  intros H s [Hs [rest Hst]]. refine (tp_conseq _ _ _ _ _ (save_triple (λ _, 0) (λ _, 0) id rest record record' (λ _, True) _)
    (λ _ H, H) _ s _); [intros k; rewrite H; lia| |done].
  intros r s' (_ & ? & ? & _). eauto.
Qed.

Lemma set_up_keeps session_id record source :
  triple any_entry (λ s, leases_ok s /\ exists rest, stored (id_value session_id) rest record s)
    (set_up_session session_id record source) (λ _, leases_ok).
Proof.
  unfold set_up_session. apply tp_call; [done|by intros ? ? []|]. intros there.
  destruct there; [apply tp_done; by intros ? []|].
  apply tp_call; [done|by intros ? ? []|]. intros _. apply tp_call; [done|by intros ? ? []|].
  intros secured. destruct secured; cbn [negb]; [|apply tp_done; by intros ? []].
  apply tp_call; [done|by intros ? ? []|]. intros _. cbn zeta.
  apply tp_bind with (mid := λ _, leases_ok).
  { eapply tp_conseq; [apply (save_keeps _ record); done|done|]. by intros [] ? []. }
  intros _. apply tp_call; [done..|]. intros _. apply quiet_keeps, mount_quiet.
Qed.

Lemma open_keeps_leases weakly_canonical browse_root profile_id session_id identity :
  triple any_entry leases_ok (backend_open weakly_canonical browse_root profile_id session_id identity)
    (λ _, leases_ok).
Proof.
  unfold backend_open. apply tp_call; [done..|]. intros _. apply tp_call; [done..|]. intros profile.
  apply tp_bind with (mid := λ _, covered (one (target_key profile))).
  { eapply tp_conseq; [apply acquire_triple|done|]. by intros []. }
  intros mounted. assert (Hle : forall s, covered (one (target_key profile)) s -> leases_ok s).
  { intros s Hs. eapply covered_le; [done|]. intros k. unfold one. case_decide; lia. }
  apply tp_bind with (mid := λ record s, covered (one (target_key profile)) s /\ mr_target_key record = target_key profile).
  { unfold make_record. apply tp_call; [done|auto|]. intros _. by apply tp_done. }
  intros record. apply tp_see. intros s [Hs Hk]. case_decide as Hd.
  - apply tp_bind with (mid := λ _, leases_ok); [|intros _; by apply tp_done].
    eapply tp_conseq; [by apply (release_keeps (λ _, 0) (target_key profile))| |by intros []].
    intros ? <-. eapply covered_le; [done|]. intros k. cbn. lia.
  - apply tp_bind with (mid := λ _ s, leases_ok s /\ exists rest, stored (id_value session_id) rest record s).
    { apply tp_sessions. intros ? <-. apply eq_None_not_Some in Hd. split.
      - apply covered_new; [done|]. cbn. by rewrite Hk.
      - eexists. split; [done|]. eexists. cbn. by rewrite lookup_insert_eq. }
    intros _. apply tp_catch with (mid := λ _, leases_ok).
    { eapply tp_conseq; [apply set_up_keeps|done|]. by intros []. }
    intros e. apply leases_seq; [|intros _; by apply tp_done].
    apply leases_catch; [apply close_keeps|]. intros _. by apply tp_done.
Qed.

(** ** The other requests *)

Ltac keeps :=
  repeat first
    [ apply close_keeps | apply leases_seq; [|intros ?] | apply leases_catch; [|intros ?] | apply leases_done
    | apply leases_call | progress cbn beta iota zeta | case_match | done
    | match goal with |- forall _ : _, triple _ _ _ _ => intros ? end ].

Lemma destroy_keeps : triple any_entry leases_ok destroy_backend (λ _, leases_ok).
Proof.
  apply tp_see. intros s Hs. apply tp_conseq with (pre' := leases_ok) (post' := λ _, leases_ok); [|by intros ? <-|done].
  generalize (mount_keys (bk_sessions s)). induction l as [|key l IH]; cbn [close_sessions]; [apply leases_done|].
  apply leases_seq; [|done]. unfold lift. keeps.
Qed.

Lemma cleanup_record_stale_keeps id record :
  triple any_entry leases_ok (cleanup_record id (λ _, mret tt) record false) (λ _, leases_ok).
Proof.
  unfold cleanup_record, target_error, raise. apply leases_seq.
  { case_match; [|apply leases_done]. apply leases_seq; [apply quiet_keeps, unmount_quiet|]. keeps. }
  intros record'. apply leases_seq; [apply leases_call|]. intros _. apply leases_seq; [|intros ?; apply leases_call].
  case_match; [apply leases_done|]. apply leases_seq; [|intros _; keeps].
  case_match; [|apply leases_done]. apply tp_see. intros s Hs.
  apply tp_conseq with (pre' := leases_ok) (post' := λ _, leases_ok); [|by intros ? <-|done]. keeps.
Qed.

Lemma cleanup_stale_keeps : triple any_entry leases_ok cleanup_stale (λ _, leases_ok).
Proof.
  apply tp_see. intros s Hs. apply tp_conseq with (pre' := leases_ok) (post' := λ _, leases_ok); [|by intros ? <-|done].
  apply leases_seq; [apply leases_call|]. intros records. apply leases_seq.
  - induction records as [|[id record] records IH]; cbn [unmount_stale_views]; [apply leases_done|].
    apply leases_seq; [|intros ?; apply leases_seq; [done|intros ?; apply leases_done]].
    unfold unmount_stale. case_match; [|apply leases_done]. apply leases_seq; [|keeps].
    apply leases_catch; [|keeps]. apply leases_seq; [apply quiet_keeps, unmount_quiet|keeps].
  - intros l. generalize (targets_with_mounted_views l). intros busy.
    induction l as [|[id record] l IH]; cbn [cleanup_records]; [apply leases_done|]. apply leases_seq; [|done].
    case_match; [apply leases_done|]. apply leases_catch; [apply cleanup_record_stale_keeps|keeps].
Qed.

(** What reading changes of a session is only what it caches. *)
Definition reading_of (session_id : BrowseSessionId) (session : SessionMount) (s : BackendState) : Prop :=
  leases_ok s /\ bk_sessions s !! id_value session_id = Some session.

Section reading_keeps.
Context {D : Type} (mount : Mount D) `{JsonText}.

Lemma reading_cached id session session' s :
  reading_of id session s -> sm_mount session' = sm_mount session ->
  reading_of id session' (s <| bk_sessions := <[id_value id := session']> (bk_sessions s) |>).
Proof.
  intros [Hc Hl] Hm. split; cbn; [|by rewrite lookup_insert_eq]. split; [|apply Hc]. cbn. intros k.
  destruct Hc as [Hu _]. specialize (Hu k). rewrite (holders_at k (id_value id)), Hl in Hu.
  rewrite holders_insert. cbn in *. unfold holding in *. by rewrite Hm.
Qed.

Lemma the_session_triple session_id {A} (f : SessionMount -> Backend A) :
  (forall session, triple any_entry (reading_of session_id session) (f session) (λ _, leases_ok)) ->
  triple any_entry leases_ok (the_session session_id ≫= f) (λ _, leases_ok).
Proof.
  intros Hf. apply tp_bind with (mid := λ session s, reading_of session_id session s); [|done].
  apply tp_see. intros s Hs. destruct (bk_sessions s !! id_value session_id) eqn:E; apply tp_done; by intros ? <-.
Qed.

Lemma ensure_triple session_id session :
  triple any_entry (reading_of session_id session) (ensure_repository_cache session_id session)
    (λ r s, match r with
            | Ok session' => reading_of session_id session' s /\ sm_repository_cached session' = true
            | Throw _ => leases_ok s
            end).
Proof.
  unfold ensure_repository_cache. destruct (sm_repository_cached session) eqn:E; [by apply tp_done|].
  apply tp_call; [done|by intros ? ? []|]. intros catalog. unfold lift. destruct (dump_json _) as [document|e].
  2:{ apply tp_done. by intros ? []. }
  change (Done (Ok document) ≫= ?f) with (f document). cbn beta zeta.
  match goal with |- context [insert _ ?x] => set (session' := x) end.
  apply tp_bind with (mid := λ _, reading_of session_id session'); [|intros _; by apply tp_done].
  apply tp_sessions. intros s Hs. by eapply reading_cached.
Qed.

Lemma authorized_triple session_id session p {A} (f : path * path -> res A) :
  triple any_entry (reading_of session_id session)
    (place ← authorized_snapshot_path session_id session p; lift (f place)) (λ _, leases_ok).
Proof.
  apply tp_bind with (mid := λ _, leases_ok); [|intros ?; by apply tp_done].
  apply tp_bind with (mid := λ _, leases_ok).
  - eapply tp_conseq; [apply ensure_triple|done|]. by intros [session'|e] s; [intros [[? _] _]|].
  - intros session'. unfold lift. destruct (resolve_in_snapshot _ _); by apply tp_done.
Qed.

Lemma versions_triple session_id session normalized candidates :
  sm_repository_cached session = true ->
  triple any_entry (reading_of session_id session) (versions_in mount session_id session normalized candidates)
    (λ _, reading_of session_id session).
Proof.
  intros Hc. induction candidates as [|c l IH]; cbn [versions_in]; [by apply tp_done|]. cbn zeta.
  apply tp_bind with (mid := λ _, reading_of session_id session).
  - unfold authorized_snapshot_path, ensure_repository_cache. rewrite Hc.
    apply tp_catch with (mid := λ _, reading_of session_id session).
    + unfold lift. cbn. destruct (resolve_in_snapshot _ _) as [place|e]; cbn; [|by apply tp_done].
      destruct (access_inspect_entry _ _ _ _); by apply tp_done.
    + intros []; cbn; repeat case_match; by apply tp_done.
  - intros found. apply tp_bind with (mid := λ _, reading_of session_id session); [|intros ?; by apply tp_done].
    eapply tp_conseq; [apply IH|done|]. by intros [].
Qed.

Lemma previous_versions_keeps session_id profile_id source_id p offset n :
  triple any_entry leases_ok (backend_list_previous_versions mount session_id profile_id source_id p offset n)
    (λ _, leases_ok).
Proof.
  apply the_session_triple. intros session. unfold lift at 1. destruct (normalize_relative_path p) as [np|e].
  2:{ apply tp_done. by intros ? []. }
  change (Done (Ok np) ≫= ?f) with (f np). cbn beta zeta.
  apply tp_bind with (mid := λ session' s, reading_of session_id session' s /\ sm_repository_cached session' = true).
  { apply ensure_triple. }
  intros session'. intros s [Hr Hc]. revert s Hr.
  change (triple any_entry (reading_of session_id session')
    (entries ← match sm_previous_versions session' !! (profile_id +:+ String nul (source_id +:+ String nul np)) with
               | Some entries => mret entries
               | None =>
                   entries ← versions_in mount session_id session' np (version_candidates session' profile_id source_id);
                   _ ← set_sessions (insert (id_value session_id) (session' <| sm_previous_versions :=
                         <[profile_id +:+ String nul (source_id +:+ String nul np) := entries]>
                           (sm_previous_versions session') |>));
                   mret entries
               end; lift (versions_page entries offset n)) (λ _, leases_ok)).
  apply tp_bind with (mid := λ _, leases_ok); [|intros ?; by apply tp_done].
  case_match; [apply tp_done; by intros ? []|].
  apply tp_bind with (mid := λ _, reading_of session_id session').
  { eapply tp_conseq; [by apply versions_triple|done|]. intros [] ? []; done. }
  intros entries. apply tp_bind with (mid := λ _, leases_ok); [|intros _; by apply tp_done].
  apply tp_sessions. intros s Hs. by eapply reading_cached.
Qed.
End reading_keeps.

(** ** What the cleanup of stale sessions stops *)

Definition unmount_unit (id : BrowseSessionId) : string :=
  "btrfs-backup-browse-unmount-" +:+ id_value id +:+ ".service".

(** The view of a record is no longer mounted, as far as the calls made show. *)
Definition view_gone (c : list (entry BackendState BackendOp)) (id : BrowseSessionId)
    (record : BrowseSessionMountRecord) : Prop :=
  mr_view_mounted record = false \/
  (exists table, Did InspectMounts (Ok table) ∈ c /\ mount_at table (mr_view record) = None) \/
  Did (StartTransient (unmount_unit id) ["umount"; mr_view record]) (Ok true) ∈ c.

Lemma view_gone_incl c c' id record : c ⊆ c' -> view_gone c id record -> view_gone c' id record.
Proof. unfold view_gone. intros H [?|[(t & ? & ?)|?]]; [by left|right; left; eauto|right; right; eauto]. Qed.

(** What the first loop makes of a record. *)
Definition tried (c : list (entry BackendState BackendOp)) (before after : BrowseSessionId * BrowseSessionMountRecord)
    : Prop :=
  after.1 = before.1 /\ after.2 = before.2 <| mr_view_mounted := mr_view_mounted after.2 |> /\
  (mr_view_mounted after.2 = false -> view_gone c before.1 before.2).

Lemma tried_incl c c' r r' : c ⊆ c' -> tried c r r' -> tried c' r r'.
Proof. intros H (? & ? & Hg). split_and!; [done..|]. intros Hv. eapply view_gone_incl; [done|auto]. Qed.

Lemma unmount_solo id view s :
  solo any_answer (unmount id view)
    (λ c r s', Forall calm c /\ s' = s /\
       (r = Ok tt -> (exists table, Did InspectMounts (Ok table) ∈ c /\ mount_at table view = None) \/
                     Did (StartTransient (unmount_unit id) ["umount"; view]) (Ok true) ∈ c)) s.
Proof.
  unfold unmount. apply solo_bind. cbn. intros [table|e] _; [|by repeat constructor].
  case_decide as Hd; cbn.
  - intros [[]|e] _; cbn; (split; [by repeat constructor|split; [done|]]); try done.
    intros _. right. apply elem_of_cons. right. by left.
  - split; [by repeat constructor|split; [done|]]. intros _. left. exists table. split; [by left|].
    by apply eq_None_not_Some.
Qed.

Lemma record_same_view (r : BrowseSessionMountRecord) : r = r <| mr_view_mounted := mr_view_mounted r |>.
Proof. by destruct r. Qed.

Lemma unmount_stale_solo id record s :
  solo any_answer (unmount_stale id record)
    (λ c r s', Forall calm c /\ s' = s /\ exists record', r = Ok record' /\ tried c (id, record) (id, record')) s.
Proof.
  unfold unmount_stale. destruct (mr_view_mounted record) eqn:Hv.
  2:{ cbn. split; [done|split; [done|]]. exists record. split; [done|]. split; [done|]. cbn. split; [apply record_same_view|].
      by left. }
  apply solo_bind, solo_catch, solo_bind. eapply solo_mono; [|apply unmount_solo]. cbn.
  intros c [[]|e] s' (Hc & -> & Hr).
  - cbn. intros r _. destruct r as [[]|e]; cbn; rewrite !app_nil_r;
      (split; [apply Forall_app; split; [done|by repeat constructor]|split; [done|]]);
      eexists; (split; [done|]); split_and!; try done; intros _;
      (eapply view_gone_incl; [|right; by apply Hr]); intros x Hx; apply elem_of_app; by left.
  - cbn. rewrite !app_nil_r. split; [done|split; [done|]]. exists record. split; [done|]. split; [done|].
    cbn. split; [apply record_same_view|]. congruence.
Qed.

Lemma unmount_views_solo records s :
  solo any_answer (unmount_stale_views records)
    (λ c r s', Forall calm c /\ s' = s /\ exists records', r = Ok records' /\ Forall2 (tried c) records records') s.
Proof.
  induction records as [|[id record] records IH]; cbn [unmount_stale_views].
  { split; [done|split; [done|]]. by exists []. }
  apply solo_bind. eapply solo_mono; [|apply unmount_stale_solo]. cbn beta.
  intros c _ s' (Hc & -> & record' & -> & Ht). apply solo_bind. eapply solo_mono; [|apply IH]. cbn.
  intros c' _ s' (Hc' & -> & records' & -> & Ht'). cbn. rewrite app_nil_r.
  split; [by apply Forall_app|split; [done|]]. eexists. split; [done|]. constructor.
  - eapply tried_incl; [|done]. intros x Hx. apply elem_of_app. by left.
  - eapply Forall2_impl; [done|]. intros p p'. apply tried_incl. intros x Hx. apply elem_of_app. by right.
Qed.

(** A stop that the cleanup of one of [records] may make: nobody uses the target, and no view of
    it is mounted. *)
Definition stale_stop (busy : list string) (targets : gmap string TargetLease)
    (records : list (BrowseSessionId * BrowseSessionMountRecord)) (e : entry BackendState BackendOp) : Prop :=
  match e with
  | Did (StopUnit u) _ => exists id record, (id, record) ∈ records /\ mr_target_unit record = u /\
      targets !! mr_target_key record = None /\ mr_target_mounted_by_backend record = true /\
      mr_target_released record = false /\ mr_target_key record ∉ busy
  | Did (UpgradeLock _) _ | Did (Unlock _) _ => False
  | _ => True
  end.

Lemma stale_calm busy targets records e : calm e -> stale_stop busy targets records e.
Proof. destruct e as [X [] r| |]; cbn; done. Qed.

Lemma cleanup_record_stale busy s records id record :
  (id, record) ∈ records -> mr_target_key record ∉ busy -> mr_view_mounted record = false ->
  triple (stale_stop busy (bk_targets s) records) (eq s) (cleanup_record id (λ _, mret tt) record false) (λ _, eq s).
Proof.
  intros Hin Hb Hv. unfold cleanup_record. rewrite Hv. change (mret record ≫= ?f) with (f record). cbn beta.
  apply tp_call; [done..|]. intros _. apply tp_bind with (mid := λ _, eq s); [|intros ?; by apply tp_last_call].
  case_match eqn:Hrel; [by apply tp_done|].
  apply tp_bind with (mid := λ _, eq s).
  - case_match eqn:Hm; [|by apply tp_done]. apply tp_see. intros ? <-. case_decide as Hd; [by apply tp_done|].
    apply tp_call; [|done|].
    + intros r. cbn. exists id, record. split_and!; try done. by apply eq_None_not_Some.
    + intros []; by apply tp_done.
  - intros _. cbn zeta. change (mret tt ≫= ?f) with (f tt). cbn beta.
    apply tp_call; [done..|]. intros _. by apply tp_done.
Qed.

Lemma cleanup_records_triple busy s records l :
  l ⊆ records -> triple (stale_stop busy (bk_targets s) records) (eq s) (cleanup_records busy l) (λ _, eq s).
Proof.
  intros Hl. induction l as [|[id record] l IH]; cbn [cleanup_records]; [by apply tp_done|].
  apply tp_bind with (mid := λ _, eq s); [|intros _; apply IH; set_solver].
  case_match eqn:Hc; [by apply tp_done|]. apply orb_false_iff in Hc as [Hv Hb%bool_decide_eq_false].
  apply tp_catch with (mid := λ _, eq s); [|intros ?; by apply tp_done].
  eapply tp_conseq; [apply (cleanup_record_stale busy s records); [set_solver|done..]|done|]. by intros [].
Qed.

Lemma solo_see {answers : forall X, BackendOp X -> res X -> Prop} {A} (f : BackendState -> Backend A) Φ s :
  solo answers (f s) Φ s -> solo answers (the_backend ≫= f) Φ s.
Proof. done. Qed.

Lemma solo_ask {answers : forall X, BackendOp X -> res X -> Prop} {X A} (o : BackendOp X)
    (f : X -> Backend A) Φ s :
  (forall x, answers X o (Ok x) -> solo answers (f x) (λ c, Φ (Did o (Ok x) :: c)) s) ->
  (forall e, Φ [Did o (Throw e)] (Throw e) s) -> solo answers (call o ≫= f) Φ s.
Proof. intros H1 H2 [x|e] H; [by apply H1|apply H2]. Qed.

(** A record whose target is not busy: every view on its target is gone. *)
Lemma tried_gone c records records' record id :
  Forall2 (tried c) records records' -> (id, record) ∈ records' ->
  mr_target_key record ∉ targets_with_mounted_views records' ->
  (exists before, (id, before) ∈ records /\ record = before <| mr_view_mounted := mr_view_mounted record |>) /\
  forall id' before, (id', before) ∈ records -> mr_target_key before = mr_target_key record ->
    view_gone c id' before.
Proof.
  intros Ht Hr Hb. split.
  - apply list_elem_of_lookup_1 in Hr as [i Hi]. destruct (Forall2_lookup_r _ _ _ _ _ Ht Hi) as ([id0 before] & Hl & H1 & H2 & _).
    cbn in *. subst id0. exists before. split; [by eapply list_elem_of_lookup_2|done].
  - intros id' before Hin Hk. apply list_elem_of_lookup_1 in Hin as [i Hi].
    destruct (Forall2_lookup_l _ _ _ _ _ Ht Hi) as ([id0 after] & Hl & H1 & H2 & H3). cbn in *. apply H3.
    destruct (mr_view_mounted after) eqn:Hv; [|done]. exfalso. apply Hb. unfold targets_with_mounted_views.
    apply list_elem_of_fmap. exists (id0, after). split; [by rewrite <-Hk, H2|].
    apply list_elem_of_In, filter_In. split; [|done]. by eapply list_elem_of_In, list_elem_of_lookup_2.
Qed.

(** ** Theorems: leases *)

Lemma empty_leases : leases_ok (mkBackend ∅ ∅).
Proof. split; cbn; [|done]. intros k. unfold holders, users. rewrite map_filter_empty, map_size_empty, lookup_empty. done. Qed.

Lemma triple_run {W A} (env : @Env BackendState BackendOp W) allowed pre (m : Backend A) post w s :
  env_ok any_answer eq env -> triple allowed pre m post -> pre s ->
  let '(r, s', t) := run env m w s in Forall allowed (calls t) /\ post r s'.
Proof.
  intros Henv Hm Hs. pose proof (solo_run env m _ w s Henv (Hm s Hs)) as H.
  by destruct (run env m w s) as [[r s'] t].
Qed.

Section lease_theorems.
Context {D : Type} (mount : Mount D) `{JsonText}.
Context (weakly_canonical : path -> option path) (browse_root : path).

Lemma request_keeps_leases r :
  triple any_entry leases_ok (backend_request mount weakly_canonical browse_root r) (λ _, leases_ok).
Proof.
  destruct r; cbn [backend_request];
    [apply open_keeps_leases|apply close_keeps|apply cleanup_stale_keeps|apply destroy_keeps|..];
    (apply leases_seq; [|intros ?; apply leases_done]);
    try (apply the_session_triple; intros session; first [apply authorized_triple|fail]).
  - apply previous_versions_keeps.
  - apply the_session_triple. intros session. apply tp_bind with (mid := λ _, leases_ok); [|intros ?; by apply tp_done].
    eapply tp_conseq; [apply ensure_triple|done|]. by intros [session'|e] s; [intros [[? _] _]|].
  - induction profiles as [|p' l IH]; cbn [backend_resolve_coverage]; [apply leases_done|].
    apply leases_seq; [apply leases_call|]. intros profile. cbn zeta. apply leases_seq; [done|]. intros ?. apply leases_done.
Qed.

Lemma requests_keep_leases l :
  triple any_entry leases_ok (backend_requests mount weakly_canonical browse_root l) (λ _, leases_ok).
Proof.
  induction l as [|r l IH]; cbn [backend_requests]; [apply leases_done|].
  apply leases_seq; [|done]. apply leases_catch; [apply request_keeps_leases|intros _; apply leases_done].
Qed.

(** C26.  In whatever order sessions are opened, read, closed and cleaned up, and whatever fails on
    the way, a session that has not given up its target holds a lease of it, and a lease never has
    fewer users than sessions that hold it. *)
Theorem sessions_hold_their_target {W} (env : @Env BackendState BackendOp W) w requests :
  env_ok any_answer eq env ->
  let '(_, s, _) := run env (backend_requests mount weakly_canonical browse_root requests) w (mkBackend ∅ ∅) in
  (forall k, holders k (bk_sessions s) <= users k (bk_targets s)) /\
  (forall id session, bk_sessions s !! id = Some session -> mr_target_released (sm_mount session) = false ->
     exists lease, bk_targets s !! mr_target_key (sm_mount session) = Some lease /\
       target_key (tl_profile lease) = mr_target_key (sm_mount session)).
Proof.
  intros Henv. pose proof (triple_run env _ _ _ _ w _ Henv (requests_keep_leases requests) empty_leases) as Hr.
  destruct (run _ _ _ _) as [[r s] t]. destruct Hr as [_ [Hu Hl]]. split; [intros k; specialize (Hu k); lia|].
  intros id session Hs Hrel. specialize (Hu (mr_target_key (sm_mount session))).
  pose proof (holders_other _ _ _ _ Hs (conj eq_refl Hrel)). unfold users in Hu.
  destruct (bk_targets s !! _) as [lease|] eqn:E; [|lia]. exists lease. split; [done|]. by apply (Hl _ _ E).
Qed.
End lease_theorems.

(** C27.  While another session uses the same target, closing a session neither stops the unit of the
    target nor touches its lock; the other sessions stay as they are and the target stays leased,
    also when the cleanup fails half way. *)
Theorem close_keeps_shared_target {W} (env : @Env BackendState BackendOp W) w s session_id session other_id other :
  env_ok any_answer eq env -> leases_ok s ->
  bk_sessions s !! id_value session_id = Some session -> mr_target_released (sm_mount session) = false ->
  bk_sessions s !! other_id = Some other -> other_id ≠ id_value session_id ->
  holding (mr_target_key (sm_mount session)) other ->
  let '(_, s', t) := run env (backend_close session_id) w s in
  Forall calm (calls t) /\
  delete (id_value session_id) (bk_sessions s') = delete (id_value session_id) (bk_sessions s) /\
  is_Some (bk_targets s' !! mr_target_key (sm_mount session)).
Proof.
  intros Henv Hok Hs Hrel Ho Hne Hh. set (key := mr_target_key (sm_mount session)) in *.
  set (rest := delete (id_value session_id) (bk_sessions s)).
  assert (Hrest : 1 <= holders key rest).
  { eapply holders_other; [|done]. subst rest. by rewrite lookup_delete_ne by done. }
  pose proof (triple_run env calm _ _ _ w s Henv (close_triple calm session_id rest (λ _ H, H))) as Hr.
  destruct (run _ _ _ _) as [[r s'] t]. destruct Hr as (Hc & Hok' & Hd).
  - split; [done|]. intros session'. rewrite Hs. intros [= <-] Hu. exfalso. destruct Hok as [Hcov _].
    specialize (Hcov key). rewrite (holders_at key (id_value session_id)), Hs in Hcov. fold rest in Hcov.
    cbn in Hcov. rewrite decide_True in Hcov by done. fold key in Hu. lia.
  - split; [done|]. split; [done|]. destruct Hok' as [Hcov _]. specialize (Hcov key).
    rewrite (holders_at key (id_value session_id)), Hd in Hcov. pose proof (held_bound key (bk_sessions s' !! id_value session_id)).
    unfold users in Hcov. destruct (bk_targets s' !! key) eqn:E; [by eexists|lia].
Qed.

(** C28.  The cleanup of sessions an earlier daemon left behind leaves the sessions and leases of this
    one alone, and stops a target only for a record of the store that says a session mounted it,
    when no session of this daemon uses it and the view of every stale record on that target was
    found gone or unmounted. *)
Theorem stale_cleanup_spares_targets {W} (env : @Env BackendState BackendOp W) w s :
  env_ok any_answer eq env ->
  let '(_, s', t) := run env cleanup_stale w s in
  s' = s /\
  forall u r, Did (StopUnit u) r ∈ calls t ->
  exists records, Did (StaleRecords (mount_keys (bk_sessions s))) (Ok records) ∈ calls t /\
  exists id record, (id, record) ∈ records /\ mr_target_unit record = u /\
    mr_target_mounted_by_backend record = true /\ mr_target_released record = false /\
    bk_targets s !! mr_target_key record = None /\
    forall id' record', (id', record') ∈ records -> mr_target_key record' = mr_target_key record ->
      view_gone (calls t) id' record'.
Proof.
  intros Henv. pose proof (solo_run env cleanup_stale (λ c _ s', s' = s /\
    forall u r, Did (StopUnit u) r ∈ c ->
    exists records, Did (StaleRecords (mount_keys (bk_sessions s))) (Ok records) ∈ c /\
    exists id record, (id, record) ∈ records /\ mr_target_unit record = u /\
      mr_target_mounted_by_backend record = true /\ mr_target_released record = false /\
      bk_targets s !! mr_target_key record = None /\
      forall id' record', (id', record') ∈ records -> mr_target_key record' = mr_target_key record ->
        view_gone c id' record') w s Henv) as H.
  destruct (run _ _ _ _) as [[r s'] t]. apply H. clear. unfold cleanup_stale.
  apply solo_see, solo_ask.
  2:{ intros e. split; [done|]. intros u r Hin. by apply list_elem_of_singleton in Hin. }
  intros records _. apply solo_bind. eapply solo_mono; [|apply unmount_views_solo]. cbn beta.
  intros c _ s' (Hc & -> & records' & -> & Ht). set (busy := targets_with_mounted_views records').
  eapply solo_mono; [|by apply (cleanup_records_triple busy s records' records' (λ _ H, H))]. cbn beta.
  intros c' _ s' [Hc' <-]. split; [done|]. intros u r Hin. exists records. split; [by left|].
  rewrite Forall_forall in Hc, Hc'. rewrite elem_of_cons, elem_of_app in Hin. destruct Hin as [?|[Hin|Hin]];
    [done|by apply Hc in Hin|]. apply Hc' in Hin as (id & record & Hr & Hu & Hn & Hm & Hrel & Hbusy).
  destruct (tried_gone _ _ _ _ _ Ht Hr Hbusy) as [(before & Hb & Heq) Hgone].
  exists id, before. rewrite Heq in Hu, Hn, Hm, Hrel. cbn in *. split_and!; try done.
  intros id' b' Hin' Hk. eapply view_gone_incl; [|apply (Hgone id' b'); [done|by rewrite Heq]].
  intros x Hx. apply elem_of_cons. right. apply elem_of_app. by left.
Qed.

(** ** A failure that leaves a lease behind *)

(** No directory for the caller can be made. *)
Definition directories_refused X (o : BackendOp X) (r : res X) : Prop :=
  match o with PrivateDirectory _ => exists e, r = Throw e | _ => True end.

Definition is_private (e : entry BackendState BackendOp) : Prop :=
  match e with Did (PrivateDirectory _) _ => True | _ => False end.

(** How taking a lease ends: not at all, or with one user more. *)
Definition lease_taken (key : string) (s : BackendState) (c : list (entry BackendState BackendOp))
    (r : res bool) (s' : BackendState) : Prop :=
  Forall (λ e, ~ is_private e) c /\
  match r with
  | Throw _ => s' = s
  | Ok _ => exists lease, s' = s <| bk_targets := <[key := lease]> (bk_targets s) |> /\
      tl_users lease = users key (bk_targets s) + 1
  end.

(** Evaluates the calls one by one; the checks of the mount table stay opaque. *)
Ltac lease_steps :=
  repeat match goal with
  | |- context [if negb ?b then _ else _] => destruct b; cbn -[lease_taken]
  | |- context [match ?v with Ok _ => _ | Throw _ => _ end] => destruct v; cbn -[lease_taken]
  | |- context [if ?b then _ else _] => destruct b; cbn -[lease_taken]
  | |- forall _ : res _, _ -> _ => intros [?|?] _; cbn -[lease_taken]
  end.

Lemma lease_target_solo weakly_canonical profile s :
  bk_targets s !! target_key profile = None ->
  solo directories_refused (lease_target weakly_canonical profile) (lease_taken (target_key profile) s) s.
Proof.
  intros E. unfold lease_target. generalize (validate_backup_target_mount weakly_canonical profile). intros v.
  assert (H0 : users (target_key profile) (bk_targets s) = 0) by (unfold users; by rewrite E).
  revert H0. generalize (target_key profile) (target_unit profile). intros key unit_name.
  generalize (λ table, decide (is_Some (mount_at table (abs_value (mount_point (target profile)))))).
  intros found H0. cbn -[lease_taken]. lease_steps.
  all: split; [by repeat (constructor; [by intros []|])|first [done|eexists; split; [done|cbn; lia]]].
Qed.

Lemma acquire_solo weakly_canonical profile s :
  solo directories_refused (acquire_target weakly_canonical profile) (lease_taken (target_key profile) s) s.
Proof.
  unfold acquire_target. apply solo_see. destruct (bk_targets s !! target_key profile) as [lease|] eqn:E.
  - split; [done|]. eexists. split; [done|]. cbn. unfold users. by rewrite E.
  - apply solo_ask; [|intros e; split; [by repeat (constructor; [by intros []|])|done]].
    intros [] _; cbn [negb]; [|split; [by repeat (constructor; [by intros []|])|done]].
    apply solo_catch. eapply solo_mono; [|by apply lease_target_solo]. cbn beta.
    intros c [a|e] s' [Hc Hr]; [split; [by constructor; [intros []|]|done]|]. cbn -[lease_taken].
    intros [[]|e'] _; cbn -[lease_taken]; (split; [|done]); constructor; try (by intros []); apply Forall_app;
      (split; [done|by repeat (constructor; [by intros []|])]).
Qed.

(** What is left behind by an open that cannot make the caller's directory. *)
Definition left_behind (profile_id : ProfileId) (s : BackendState) (c : list (entry BackendState BackendOp))
    (r : res unit) (s' : BackendState) : Prop :=
  (exists e, r = Throw e) /\ bk_sessions s' = bk_sessions s /\
  ((exists p e, Did (PrivateDirectory p) (Throw e) ∈ c) ->
   exists profile, Did (GetProfile profile_id) (Ok profile) ∈ c /\
     users (target_key profile) (bk_targets s') = users (target_key profile) (bk_targets s) + 1).

Lemma nothing_left profile_id s c e : Forall (λ e, ~ is_private e) c -> left_behind profile_id s c (Throw e) s.
Proof.
  intros Hc. split; [by eexists|split; [done|]]. intros (p & e' & Hin). rewrite Forall_forall in Hc.
  by destruct (Hc _ Hin).
Qed.

Lemma open_refused_solo weakly_canonical browse_root profile_id session_id identity s :
  solo directories_refused (backend_open weakly_canonical browse_root profile_id session_id identity)
    (left_behind profile_id s) s.
Proof.
  unfold backend_open. apply solo_ask; [intros u _|intros e; apply nothing_left; by repeat (constructor; [by intros []|])].
  apply solo_ask; [intros profile _|intros e; apply nothing_left; by repeat (constructor; [by intros []|])].
  apply solo_bind. eapply solo_mono; [|apply acquire_solo]. cbn beta. intros c [mounted|e] s' [Hc Hr].
  - destruct Hr as (lease & -> & Hu). unfold make_record. apply solo_bind, solo_ask; [by intros x []|].
    intros e. split; [by eexists|split; [done|]]. intros _. exists profile. split; [by right; left|]. cbn.
    rewrite users_insert. by case_decide.
  - subst s'. apply nothing_left. by repeat (constructor; [by intros []|]).
Qed.

(** An open that fails because the caller's directory cannot be made leaves its user of the
    target's lease behind: no session stands for it, so no close gives it back, and a target the
    backend mounted stays mounted with its lock held. *)
Theorem failed_open_keeps_lease {W} (env : @Env BackendState BackendOp W) w s weakly_canonical browse_root
    profile_id session_id identity :
  env_ok directories_refused eq env ->
  let '(r, s', t) := run env (backend_open weakly_canonical browse_root profile_id session_id identity) w s in
  left_behind profile_id s (calls t) r s'.
Proof.
  intros Henv. pose proof (solo_run env _ _ w s Henv
    (open_refused_solo weakly_canonical browse_root profile_id session_id identity s)) as H.
  by destruct (run _ _ _ _) as [[r s'] t].
Qed.

(** ** Where a path of a session leads *)

(** The components of the path of a snapshot; none when the whole repository is one. *)
Definition snapshot_components (s : RestoreCatalog.CatalogSnapshot) : list string :=
  List.filter kept_name (pp_names (pp_parse (RestoreCatalog.rp_value (RestoreCatalog.cs_repository_path s)))).

(** A verified snapshot that the entry with these components lies in, [rest] being the components
    below it. *)
Definition lies_in (cs : list string) (s : RestoreCatalog.CatalogSnapshot) (rest : list string) : Prop :=
  RestoreCatalog.cs_verified s = true /\ cs = snapshot_components s ++ rest /\
  (snapshot_components s = [] -> rest = []).

Definition dot_or (cs : list string) : path := if bool_decide (cs = []) then "." else join_slash cs.

Lemma validated_plain p cs : validated_components p = Ok cs -> Forall plain_component cs.
Proof. intros H%validated_downward. eapply Forall_impl; [exact H|]. by intros c [? _]. Qed.

Lemma plain_kept cs : Forall plain_component cs -> List.filter kept_name cs = cs.
Proof.
  induction 1 as [|c cs Hc _ IH]; [done|]. cbn. assert (kept_name c = true) as ->; [|by rewrite IH].
  destruct Hc as (Hne & _ & Hd & _). unfold kept_name. rewrite negb_true_iff, orb_false_iff.
  split; [by destruct c|by apply String.eqb_neq].
Qed.

Lemma elements_dot_or cs : Forall plain_component cs -> path_elements (dot_or cs) = if bool_decide (cs = []) then ["."] else cs.
Proof. intros H. unfold dot_or. case_bool_decide; [done|]. by apply path_elements_join. Qed.

Definition dot_elements (cs : list string) : list string := if bool_decide (cs = []) then ["."] else cs.

Lemma normal_dot_or cs : Forall plain_component cs -> lexically_normal (dot_or cs) = dot_or cs.
Proof. intros H. unfold dot_or. case_bool_decide; [done|]. by apply lexically_normal_join. Qed.

Lemma snapshot_path_spec s (value := RestoreCatalog.rp_value (RestoreCatalog.cs_repository_path s)) :
  Forall plain_component (snapshot_components s) /\ is_absolute value = false /\
  path_elements value = dot_elements (snapshot_components s) /\
  path_elements (lexically_normal value) = dot_elements (snapshot_components s).
Proof.
  destruct (RestoreCatalog.relative_parse (RestoreCatalog.cs_repository_path s)) as (names & Hp & Hne & Hn).
  unfold snapshot_components. fold value in Hp |- *. rewrite Hp. cbn [pp_names]. subst value.
  set (value := RestoreCatalog.rp_value _) in *. assert (Hv : str_empty value = false).
  { destruct value; [|done]. injection Hp as <-. done. }
  unfold is_absolute, path_elements, lexically_normal. rewrite Hp, Hv. cbn [pp_root].
  destruct Hn as [->|Hn]; [by split; [constructor|]|]. rewrite plain_kept by done.
  rewrite pp_normal_plain; [|split; [by apply plain_names|done]|done|by right].
  rewrite pp_parse_render by (split; [by apply plain_names|done]).
  unfold dot_elements. rewrite bool_decide_false by done. cbn. by rewrite app_nil_r.
Qed.

Lemma plain_not_dot cs c : Forall plain_component cs -> "." :: c `prefix_of` cs -> False.
Proof. intros H [k ->]. by apply Forall_cons in H as [(_ & _ & ? & _) _]. Qed.

Lemma within_snapshot cs s :
  Forall plain_component cs ->
  path_is_within (dot_or cs) (RestoreCatalog.rp_value (RestoreCatalog.cs_repository_path s)) = true <->
  exists rest, cs = snapshot_components s ++ rest /\ (snapshot_components s = [] -> rest = []).
Proof.
  intros Hcs. destruct (snapshot_path_spec s) as (Hs & _ & _ & Hn). unfold path_is_within, normalized_path.
  rewrite elements_within_prefix, Hn, normal_dot_or, elements_dot_or by done. unfold dot_elements.
  destruct (decide (snapshot_components s = [])) as [E|E], (decide (cs = [])) as [E'|E'];
    rewrite ?(bool_decide_true (snapshot_components s = [])), ?(bool_decide_false (snapshot_components s = [])),
      ?(bool_decide_true (cs = [])), ?(bool_decide_false (cs = [])) by done.
  - split; [intros _; exists []; by rewrite E|done].
  - split; [intros H; by apply plain_not_dot in H|]. intros (rest & Hr & Hz). rewrite E, (Hz E) in Hr. done.
  - split.
    + intros [k Hk]. destruct (snapshot_components s); [done|]. injection Hk as <- _.
      by apply Forall_cons in Hs as [(_ & _ & ? & _) _].
    + intros (rest & Hr & _). destruct (snapshot_components s); [done|]. by subst.
  - split; [intros [rest ->]; by eexists|]. intros (rest & -> & _). by eexists.
Qed.

Lemma mismatch_app l r : mismatch (l ++ r) l = (r, []).
Proof. induction l as [|x l IH]; cbn; [by destruct r|]. by rewrite String.eqb_refl. Qed.

Lemma plain_not_absolute x : plain_component x -> is_absolute x = false.
Proof. intros Hx. by apply (join_slash_not_absolute [x]); constructor. Qed.

Lemma append_all_plain p l :
  Forall plain_component l -> l ≠ [] -> p ≠ [] -> Forall plain_component p ->
  foldl path_append (join_slash p) l = join_slash (p ++ l).
Proof.
  intros Hl. revert p. induction Hl as [|x l Hx Hl IH]; intros p Hne Hp Hpp; [done|]. cbn.
  assert (path_append (join_slash p) x = join_slash (p ++ [x])) as ->.
  { unfold path_append. rewrite parse_join_slash by done. rewrite join_slash_app by done.
    rewrite plain_not_absolute by done. unfold pp_has_filename. cbn [pp_names pp_trail].
    rewrite bool_decide_false by done. done. }
  destruct l as [|y l]; [done|]. rewrite IH; [by rewrite <-app_assoc|done|by destruct p|]. apply Forall_app. auto.
Qed.

Lemma append_names l : Forall plain_component l -> foldl path_append "" l = join_slash l.
Proof.
  intros Hl. destruct l as [|x l]; [done|]. cbn [foldl]. apply Forall_cons in Hl as [Hx Hl].
  assert (path_append "" x = join_slash [x]) as ->.
  { unfold path_append. by rewrite plain_not_absolute by done. }
  destruct l as [|y l]; [done|]. apply (append_all_plain [x] (y :: l)); try done. by constructor.
Qed.

Lemma relative_in_snapshot cs s rest :
  Forall plain_component cs -> cs = snapshot_components s ++ rest -> (snapshot_components s = [] -> rest = []) ->
  relative_path_to (dot_or cs) (RestoreCatalog.rp_value (RestoreCatalog.cs_repository_path s)) = dot_or rest.
Proof.
  intros Hcs -> Hr. destruct (snapshot_path_spec s) as (Hs & Ha & He & _). unfold relative_path_to, lexically_relative.
  rewrite Ha, He, elements_dot_or by done.
  assert (is_absolute (dot_or (snapshot_components s ++ rest)) = false) as ->.
  { unfold dot_or. case_bool_decide; [done|]. by apply join_slash_not_absolute. }
  cbn [Bool.eqb negb]. unfold dot_elements. destruct (decide (snapshot_components s = [])) as [E|E].
  { rewrite (Hr E), E. done. }
  rewrite !(bool_decide_false (_ = [])) by (try done; by destruct (snapshot_components s)).
  rewrite mismatch_app. apply Forall_app in Hcs as [_ Hrest]. destruct rest as [|x rest]; [done|].
  cbn. assert (str_empty x = false) as ->.
  { apply Forall_cons in Hrest as [(Hx & _) _]. by destruct x. }
  exact (append_names (x :: rest) Hrest).
Qed.

Lemma lies_in_candidate cs s :
  Forall plain_component cs ->
  negb (ca_verified (cached_snapshot s)) || negb (path_is_within (dot_or cs) (ca_repository_path (cached_snapshot s)))
    = false <-> exists rest, lies_in cs s rest.
Proof.
  intros Hcs. rewrite orb_false_iff, !negb_false_iff. cbn [cached_snapshot ca_verified ca_repository_path].
  rewrite within_snapshot by done. unfold lies_in. naive_solver.
Qed.

Definition path_size (s : RestoreCatalog.CatalogSnapshot) : nat :=
  String.length (RestoreCatalog.rp_value (RestoreCatalog.cs_repository_path s)).

(** The best of the snapshots seen so far. *)
Definition best_of (cs : list string) (snapshots : list RestoreCatalog.CatalogSnapshot)
    (best : option CachedSnapshot) : Prop :=
  match best with
  | None => forall s rest, s ∈ snapshots -> ~ lies_in cs s rest
  | Some b => exists s rest, s ∈ snapshots /\ b = cached_snapshot s /\ lies_in cs s rest /\
      forall s' rest', s' ∈ snapshots -> lies_in cs s' rest' -> (path_size s' <= path_size s)%nat
  end.

Lemma select_step_best cs snapshots s best :
  Forall plain_component cs -> best_of cs snapshots best ->
  best_of cs (snapshots ++ [s]) (select_step (dot_or cs) best (cached_snapshot s)).
Proof.
  intros Hcs Hb. unfold select_step. pose proof (lies_in_candidate cs s Hcs) as Hl.
  destruct (_ || _).
  - assert (Hno : forall rest, ~ lies_in cs s rest) by (intros rest Hr; discriminate (proj2 Hl (ex_intro _ rest Hr))).
    destruct best as [b|]; cbn in *.
    + destruct Hb as (s0 & rest & Hin & -> & Hr & Hmax). exists s0, rest. split_and!; [set_solver|done..|].
      intros s' rest' [Hs'|Hs']%elem_of_app; [by eapply Hmax|]. apply list_elem_of_singleton in Hs' as ->. by intros ?%Hno.
    + intros s' rest' [Hs'|Hs']%elem_of_app; [by apply Hb|]. by apply list_elem_of_singleton in Hs' as ->.
  - destruct (proj1 Hl eq_refl) as [rest Hr]. destruct best as [b|]; cbn in Hb.
    + destruct Hb as (s0 & rest0 & Hin & -> & Hr0 & Hmax). cbn [cached_snapshot ca_repository_path].
      fold (path_size s0) (path_size s). destruct (path_size s0 <? path_size s)%nat eqn:Hlt.
      * apply Nat.ltb_lt in Hlt. exists s, rest. split_and!; [set_solver|done..|].
        intros s' rest' [Hs'|Hs']%elem_of_app Hr'; [specialize (Hmax _ _ Hs' Hr'); lia|].
        apply list_elem_of_singleton in Hs' as ->. lia.
      * apply Nat.ltb_ge in Hlt. exists s0, rest0. split_and!; [set_solver|done..|].
        intros s' rest' [Hs'|Hs']%elem_of_app Hr'; [by eapply Hmax|]. apply list_elem_of_singleton in Hs' as ->. lia.
    + exists s, rest. split_and!; [set_solver|done..|].
      intros s' rest' [Hs'|Hs']%elem_of_app Hr'; [by destruct (Hb _ _ Hs' Hr')|].
      apply list_elem_of_singleton in Hs' as ->. lia.
Qed.

Lemma select_best cs snapshots :
  Forall plain_component cs -> best_of cs snapshots (foldl (select_step (dot_or cs)) None (map cached_snapshot snapshots)).
Proof.
  intros Hcs. induction snapshots as [|s l IH] using rev_ind; [by intros s rest ?%elem_of_nil|].
  rewrite map_app, foldl_app. by apply select_step_best.
Qed.

Lemma normalize_spec p :
  normalize_relative_path p = (cs ← validated_components p; Ok (dot_or cs)).
Proof. unfold normalize_relative_path, dot_or. by destruct (validated_components p). Qed.

(** C29.  A path a client asks for is resolved inside a verified snapshot of the session's catalogue
    or refused: the place it leads to is the longest verified snapshot it lies in, and below it the
    remaining components, none of which leads up. *)
Theorem resolve_in_snapshot_spec session snapshots p :
  sm_snapshots session = map cached_snapshot snapshots ->
  match resolve_in_snapshot session p with
  | Ok (root, within) =>
      exists cs s rest, validated_components p = Ok cs /\ s ∈ snapshots /\ lies_in cs s rest /\
        (forall s' rest', s' ∈ snapshots -> lies_in cs s' rest' -> (path_size s' <= path_size s)%nat) /\
        root = mr_view (sm_mount session) /./ RestoreCatalog.rp_value (RestoreCatalog.cs_repository_path s) /\
        within = dot_or rest /\ Forall plain_component rest
  | Throw e =>
      validated_components p = Throw e \/
      e = ManagerOperationError NotAuthorized "browse path is outside a verified snapshot" /\
      exists cs, validated_components p = Ok cs /\ forall s rest, s ∈ snapshots -> ~ lies_in cs s rest
  end.
Proof.
  intros Hsn. unfold resolve_in_snapshot. pose proof (normalize_spec p) as Hnp. rewrite Hsn.
  destruct (validated_components p) as [cs|e] eqn:Hv; cbn in Hnp; rewrite Hnp; [|by cbn; left].
  pose proof (validated_plain _ _ Hv) as Hcs. change (Ok (dot_or cs) ≫= ?f) with (f (dot_or cs)). cbn beta.
  pose proof (select_best cs snapshots Hcs) as Hb. destruct (foldl _ _ _) as [b|]; cbn in Hb.
  2:{ right. split; [done|]. eauto. }
  destruct Hb as (s & rest & Hin & -> & Hr & Hmax). cbn zeta. cbn [cached_snapshot ca_repository_path].
  destruct Hr as (Hver & Hcat & Hz). rewrite (relative_in_snapshot cs s rest Hcs Hcat Hz).
  assert (str_empty (dot_or rest) = false) as ->.
  { rewrite Hcat in Hcs. apply Forall_app in Hcs as [_ Hp]. unfold dot_or. case_bool_decide as E; [done|].
    pose proof (parse_join_slash rest Hp E) as Hj. destruct (join_slash rest); [|done]. injection Hj as <-. done. }
  exists cs, s, rest. split_and!; try done. rewrite Hcat in Hcs. by apply Forall_app in Hcs as [_ ?].
Qed.

(** ** Previous versions *)

Section version_theorems.
Context {D : Type} (mount : Mount D) `{JsonText}.

(** What the look at the entry in one snapshot gives. *)
Definition version_entry (session : SessionMount) (normalized : path) (snapshot : CachedSnapshot)
    : res BrowseEntryInfo :=
  place ← resolve_in_snapshot session
            (if path_eqb normalized "." then ca_repository_path snapshot
             else ca_repository_path snapshot /./ normalized);
  access_inspect_entry mount place.1 place.2 (Some (sm_identity session)).

Definition found_version (snapshot : CachedSnapshot) (entry : BrowseEntryInfo) : PreviousVersionInfo :=
  mkVersionInfo (ca_snapshot_id snapshot) (ca_created_at snapshot) entry.

(** The listing in terms of the looks: unsupported entries are left out, the first other failure is
    the answer. *)
Fixpoint listed_versions (session : SessionMount) (normalized : path) (candidates : list CachedSnapshot)
    : res (list PreviousVersionInfo) :=
  match candidates with
  | [] => Ok []
  | snapshot :: candidates =>
      match version_entry session normalized snapshot with
      | Ok entry => rest ← listed_versions session normalized candidates; Ok (found_version snapshot entry :: rest)
      | Throw (InvalidArgument _) => listed_versions session normalized candidates
      | Throw (SystemError code m) =>
          if (code =? ENOENT) || (code =? ENOTDIR) then listed_versions session normalized candidates
          else Throw (SystemError code m)
      | Throw e => Throw e
      end
  end.

Lemma versions_in_listed session_id session normalized candidates :
  sm_repository_cached session = true ->
  versions_in mount session_id session normalized candidates = Done (listed_versions session normalized candidates).
Proof.
  intros Hc. induction candidates as [|c l IH]; [done|]. cbn [versions_in listed_versions]. rewrite IH.
  unfold authorized_snapshot_path, ensure_repository_cache, version_entry. rewrite Hc. cbn zeta.
  unfold lift. cbn -[resolve_in_snapshot access_inspect_entry].
  destruct (resolve_in_snapshot _ _) as [[root within]|e]; cbn -[access_inspect_entry].
  - destruct (access_inspect_entry mount root within (Some (sm_identity session))) as [entry|e]; cbn.
    + by destruct (listed_versions _ _ _).
    + destruct e; cbn; try done; repeat case_match; cbn; done.
  - destruct e; cbn; try done; repeat case_match; cbn; done.
Qed.

Lemma missing_listed session normalized candidates snapshot code m :
  snapshot ∈ candidates -> version_entry session normalized snapshot = Throw (ManagerOperationError code m) ->
  exists e, listed_versions session normalized candidates = Throw e.
Proof.
  intros Hin Hv. induction candidates as [|c l IH]; [by apply elem_of_nil in Hin|]. cbn.
  apply elem_of_cons in Hin as [<-|Hin]; [rewrite Hv; eauto|]. destruct (IH Hin) as [e ->].
  destruct (version_entry _ _ c) as [|[]]; cbn; eauto. case_match; eauto.
Qed.

Lemma solo_lift {answers : forall X, BackendOp X -> res X -> Prop} {A B} (a : A) r (f : A -> Backend B) Φ s :
  r = Ok a -> solo answers (f a) Φ s -> solo answers (lift r ≫= f) Φ s.
Proof. by intros ->. Qed.

Lemma solo_session {answers : forall X, BackendOp X -> res X -> Prop} {B} session_id session
    (f : SessionMount -> Backend B) Φ s :
  bk_sessions s !! id_value session_id = Some session -> solo answers (f session) Φ s ->
  solo answers (the_session session_id ≫= f) Φ s.
Proof. intros Hs Hf. apply solo_bind, solo_see. rewrite Hs. exact Hf. Qed.

(** C40.  The listing of previous versions fails as a whole when the entry is missing from one of the
    snapshots of the source: the system answers, on the way to the place of the entry in that
    snapshot, that there is no entry of the next name ([missing]), which the look reports as an
    error of the manager, while the listing passes over system errors only. *)
Theorem missing_version_fails_listing {W} (env : @Env BackendState BackendOp W) w s session_id session
    profile_id source_id p normalized snapshot root within offset n :
  env_ok any_answer eq env ->
  bk_sessions s !! id_value session_id = Some session -> sm_repository_cached session = true ->
  normalize_relative_path p = Ok normalized ->
  sm_previous_versions session !! (profile_id +:+ String nul (source_id +:+ String nul normalized)) = None ->
  snapshot ∈ version_candidates session profile_id source_id ->
  resolve_in_snapshot session (if path_eqb normalized "." then ca_repository_path snapshot
                               else ca_repository_path snapshot /./ normalized) = Ok (root, within) ->
  missing mount (Some (sm_identity session)) root within ->
  let '(r, s', _) := run env (backend_list_previous_versions mount session_id profile_id source_id p offset n) w s in
  (exists e, r = Throw e) /\ s' = s.
Proof.
  intros Henv Hs Hc Hn Hk Hin Hplace [m Hm]%inspect_missing.
  assert (Hv : version_entry session normalized snapshot = Throw (ManagerOperationError NotFound m))
    by (unfold version_entry; rewrite Hplace; exact Hm).
  destruct (missing_listed _ _ _ _ _ _ Hin Hv) as [e He].
  pose proof (solo_run env (backend_list_previous_versions mount session_id profile_id source_id p offset n)
    (λ _ r s', (exists e, r = Throw e) /\ s' = s) w s Henv) as H0.
  destruct (run _ _ _ _) as [[r s'] t]. apply H0. unfold backend_list_previous_versions.
  eapply solo_session; [done|]. eapply solo_lift; [done|]. cbn zeta.
  unfold ensure_repository_cache at 1. rewrite Hc. eapply (solo_lift _ (Ok session)); [done|].
  rewrite Hk, versions_in_listed, He by done. by split; [eexists|].
Qed.
End version_theorems.

(** ** A concrete system *)

Module BackendExample.

Definition first_id : BrowseSessionId := @mkIdent KBrowseSession "browse-0a1b" I.
Definition second_id : BrowseSessionId := @mkIdent KBrowseSession "browse-0c2d" I.
Definition ex_profile_id : ProfileId := @mkIdent KProfile "main" I.
Definition ex_caller : BrowseAccessIdentity := mkAccess 1000 [1000].

Definition target_entry : MountEntry :=
  Ports.mkMount "/dev/mapper/backup" "/mnt/main" "btrfs" "/" "ro,nodev,nosuid,noexec,nosymfollow" 1 "0:40" "btrfs".

(** The world is whether the target is mounted; [private_ok] says whether directories for callers
    can be made. *)
Definition ex_answer (private_ok : bool) (stale : list (BrowseSessionId * BrowseSessionMountRecord))
    X (o : BackendOp X) (w : bool) : res X * bool :=
  match o with
  | GetProfile _ => (Ok sample_profile, w)
  | TryLock _ | UpgradeLock _ | SecureDirectories _ _ | StartTransient _ _ => (Ok true, w)
  | InspectMounts => (Ok (if w then [target_entry] else []), w)
  | StartUnit _ => (Ok true, true)
  | StopUnit _ => (Ok true, false)
  | PathExists _ => (Ok false, w)
  | PrivateDirectory _ => (if private_ok then Ok tt
                           else Throw (ManagerOperationError TargetUnavailable "cannot create browse session directory"), w)
  | StaleRecords _ => (Ok stale, w)
  | DiscoverCatalog _ => (Throw (StdException "no catalogue"), w)
  | PrepareRoot | DowngradeLock _ | Unlock _ | CreateDirectories _ | WriteMarker _ _ | RemoveDirectory _
  | RemoveMarker _ => (Ok tt, w)
  end.

Definition ex_backend (private_ok : bool) (stale : list (BrowseSessionId * BrowseSessionMountRecord))
    : @Env BackendState BackendOp bool := mkEnv (ex_answer private_ok stale) (λ w s, (s, w)).

Lemma ex_backend_ok private_ok stale : env_ok any_answer eq (ex_backend private_ok stale).
Proof. done. Qed.

Definition ex_requests : list BackendRequest :=
  [RqOpen ex_profile_id first_id ex_caller; RqOpen ex_profile_id second_id ex_caller].

Definition ex_run (private_ok : bool) (l : list BackendRequest) :=
  run (ex_backend private_ok []) (@backend_requests _ AccessExample.ex_mount bits_text Some "/run/browse" l)
    false (mkBackend ∅ ∅).

(** Who uses what: the sessions that hold the target, and the users of its lease. *)
Definition ex_counts (s : BackendState) : Z * Z :=
  (holders "luks" (bk_sessions s), users "luks" (bk_targets s)).

Example ex_two_sessions : ex_counts (ex_run true ex_requests).1.2 = (2, 2).
Proof. vm_compute. reflexivity. Qed.

Definition is_stop (e : entry BackendState BackendOp) : bool :=
  match e with Did (StopUnit _) _ => true | _ => false end.

Example ex_close_both :
  let '(_, s, t) := ex_run true (ex_requests ++ [RqClose first_id; RqClose second_id]) in
  (ex_counts s, length (List.filter is_stop t)) = ((0, 0), 1%nat).
Proof. vm_compute. reflexivity. Qed.

Definition ex_two : BackendState := (ex_run true ex_requests).1.2.

Lemma ex_two_ok : leases_ok ex_two.
Proof.
  pose proof (triple_run (ex_backend true []) _ _ _ _ false _ (ex_backend_ok true [])
    (@requests_keep_leases _ AccessExample.ex_mount bits_text Some "/run/browse" ex_requests) empty_leases) as H.
  unfold ex_two, ex_run. destruct (run _ _ _ _) as [[r s] t]. apply H.
Qed.

Definition no_session : SessionMount :=
  mkSessionMount (mkMountRecord "" "" "" "" "" 0 false false false) ex_caller false "" [] ∅.

Definition ex_session (id : BrowseSessionId) : SessionMount :=
  default no_session (bk_sessions ex_two !! id_value id).

Lemma ex_session_there id :
  bool_decide (is_Some (bk_sessions ex_two !! id_value id)) = true ->
  bk_sessions ex_two !! id_value id = Some (ex_session id).
Proof. unfold ex_session. intros H%bool_decide_eq_true. by destruct (bk_sessions ex_two !! id_value id); [|destruct H]. Qed.

Lemma sessions_hold_their_target_witness :
  let '(_, s, _) := ex_run true ex_requests in
  (forall k, holders k (bk_sessions s) <= users k (bk_targets s)) /\
  (forall id session, bk_sessions s !! id = Some session -> mr_target_released (sm_mount session) = false ->
     exists lease, bk_targets s !! mr_target_key (sm_mount session) = Some lease /\
       target_key (tl_profile lease) = mr_target_key (sm_mount session)).
Proof.
  exact (@sessions_hold_their_target _ AccessExample.ex_mount bits_text Some "/run/browse" _ (ex_backend true [])
    false ex_requests (ex_backend_ok true [])).
Defined.

Lemma close_keeps_shared_target_witness :
  let key := mr_target_key (sm_mount (ex_session first_id)) in
  let '(_, s', t) := run (ex_backend true []) (backend_close first_id) true ex_two in
  Forall calm (calls t) /\
  delete (id_value first_id) (bk_sessions s') = delete (id_value first_id) (bk_sessions ex_two) /\
  is_Some (bk_targets s' !! key).
Proof.
  refine (close_keeps_shared_target (ex_backend true []) true ex_two first_id (ex_session first_id)
    (id_value second_id) (ex_session second_id) (ex_backend_ok true []) ex_two_ok _ _ _ _ _).
  - apply ex_session_there. vm_compute. reflexivity.
  - vm_compute. reflexivity.
  - apply ex_session_there. vm_compute. reflexivity.
  - vm_compute. discriminate.
  - split; vm_compute; reflexivity.
Defined.

(** A daemon that was killed with a session open. *)
Definition ex_stale : list (BrowseSessionId * BrowseSessionMountRecord) :=
  [(first_id, mkMountRecord "luks" "mnt-main.mount" "/run/browse/1000/browse-0a1b"
      "/run/browse/1000/browse-0a1b/repository" "/run/browse/.state/browse-0a1b.json" 1000 true true false)].

Example ex_stale_stopped :
  length (List.filter is_stop (run (ex_backend true ex_stale) cleanup_stale true (mkBackend ∅ ∅)).2) = 1%nat.
Proof. vm_compute. reflexivity. Qed.

Example ex_stale_deferred :
  length (List.filter is_stop (run (ex_backend true ex_stale) cleanup_stale true ex_two).2) = 0%nat.
Proof. vm_compute. reflexivity. Qed.

Lemma stale_cleanup_spares_targets_witness :
  let '(_, s', t) := run (ex_backend true ex_stale) cleanup_stale true (mkBackend ∅ ∅) in
  s' = mkBackend ∅ ∅ /\
  forall u r, Did (StopUnit u) r ∈ calls t ->
  exists records, Did (StaleRecords (mount_keys ∅)) (Ok records) ∈ calls t /\
  exists id record, (id, record) ∈ records /\ mr_target_unit record = u /\
    mr_target_mounted_by_backend record = true /\ mr_target_released record = false /\
    (∅ : gmap string TargetLease) !! mr_target_key record = None /\
    forall id' record', (id', record') ∈ records -> mr_target_key record' = mr_target_key record ->
      view_gone (calls t) id' record'.
Proof.
  exact (stale_cleanup_spares_targets (ex_backend true ex_stale) true (mkBackend ∅ ∅) (ex_backend_ok true ex_stale)).
Defined.

(** After the failed open the target stays mounted, and a session that comes and goes does not
    change that. *)
Example ex_leak :
  let '(_, s, t) := ex_run false [RqOpen ex_profile_id first_id ex_caller] in
  (ex_counts s, length (List.filter is_stop t)) = ((0, 1), 0%nat).
Proof. vm_compute. reflexivity. Qed.

Lemma failed_open_keeps_lease_witness :
  let '(r, s', t) := run (ex_backend false []) (backend_open Some "/run/browse" ex_profile_id first_id ex_caller)
                       false (mkBackend ∅ ∅) in
  left_behind ex_profile_id (mkBackend ∅ ∅) (calls t) r s'.
Proof.
  apply (failed_open_keeps_lease (ex_backend false []) false (mkBackend ∅ ∅) Some "/run/browse").
  split; [|done]. intros X o w. destruct o; cbn; by eauto.
Defined.

(** A session on a repository with the snapshots [s/a] and [s/b]. *)
Definition ex_reading : SessionMount :=
  mkSessionMount (mkMountRecord "luks" "mnt-main.mount" "/run" "view" "/m" 1000 true true false) ex_caller true ""
    (map cached_snapshot (RestoreCatalog.rc_snapshots RestoreCatalog.CatalogExample.ex_catalog)) ∅.

Example ex_resolved : resolve_in_snapshot ex_reading "s/./b//notes" = Ok ("view/s/b", "notes").
Proof. vm_compute. reflexivity. Qed.

Lemma resolve_in_snapshot_spec_witness :
  exists cs s rest, validated_components "s/./b//notes" = Ok cs /\
    s ∈ RestoreCatalog.rc_snapshots RestoreCatalog.CatalogExample.ex_catalog /\ lies_in cs s rest /\
    (forall s' rest', s' ∈ RestoreCatalog.rc_snapshots RestoreCatalog.CatalogExample.ex_catalog ->
       lies_in cs s' rest' -> (path_size s' <= path_size s)%nat) /\
    "view/s/b" = "view" /./ RestoreCatalog.rp_value (RestoreCatalog.cs_repository_path s) /\
    "notes" = dot_or rest /\ Forall plain_component rest.
Proof.
  pose proof (resolve_in_snapshot_spec ex_reading _ "s/./b//notes" eq_refl) as H. rewrite ex_resolved in H. exact H.
Defined.

(** The notes are in [s/b] only. *)
Definition ex_files : list (string * NodeStat) :=
  [("view/s/a", AccessExample.ex_stat NodeDirectory 493 0); ("view/s/b", AccessExample.ex_stat NodeDirectory 493 0);
   ("view/s/b/notes", AccessExample.ex_stat NodeRegular 420 0)].

Definition ex_file (d : string) : option NodeStat := snd <$> List.find (λ n, (n.1 =? d)%string) ex_files.

Definition ex_reach (d : string) : Z + string :=
  match ex_file d with Some _ => inr d | None => inl ENOENT end.

Definition ex_repository : Mount string :=
  mkMount (λ p _, ex_reach p)
    (λ d name _, if (name =? ".")%string then inr d else ex_reach (d +:+ "/" +:+ name))
    (λ d, mkView (match ex_file d with Some s => inr s | None => inl ENOENT end) (inl EOPNOTSUPP))
    (λ _, inr tt) (λ _, inl ENOTDIR).

Example ex_newest_there :
  match version_candidates ex_reading "home" "documents" with
  | b :: a :: _ => (ca_snapshot_id b, ca_snapshot_id a,
                    is_ok (version_entry ex_repository ex_reading "notes" b),
                    is_ok (version_entry ex_repository ex_reading "notes" a))
  | _ => ("", "", false, false)
  end = ("b", "a", true, false).
Proof. vm_compute. reflexivity. Qed.

Definition ex_reading_state : BackendState := mkBackend {[id_value first_id := ex_reading]} ∅.

Definition ex_without : CachedSnapshot :=
  mkCached "a" "home" "documents" "s/a" "2026-01-02T00:00:00Z" true.

Lemma missing_version_fails_listing_witness :
  let '(r, s', _) := run (ex_backend true []) (@backend_list_previous_versions _ ex_repository bits_text first_id
      "home" "documents" "notes" 0 10) true ex_reading_state in
  (exists e, r = Throw e) /\ s' = ex_reading_state.
Proof.
  refine (missing_version_fails_listing ex_repository (H := bits_text) (ex_backend true []) true ex_reading_state first_id
    ex_reading "home" "documents" "notes" "notes" ex_without "view/s/a" "notes" 0 10
    (ex_backend_ok true []) _ _ _ _ _ _ _).
  - apply lookup_insert_eq.
  - reflexivity.
  - vm_compute. reflexivity.
  - apply lookup_empty.
  - apply list_elem_of_In. vm_compute. right. by left.
  - vm_compute. reflexivity.
  - exists "view/s/a", "view/s/a", [], "notes", [], "view/s/a", ENOENT.
    split; [vm_compute; reflexivity|]. split; [vm_compute; reflexivity|]. split; [vm_compute; reflexivity|].
    split; [reflexivity|]. split; [vm_compute; reflexivity|]. split; [|by left]. intros flags. vm_compute. reflexivity.
Defined.
End BackendExample.
