(* ===== verification/RestoreEngine.v ===== *)
(** * Planning and executing a restore (src/restore)

    The planner ([RestorePlanner]) turns a request into a plan: the source below the snapshot,
    the destination, and beside it the names of the staging copy and of the place where the
    replaced tree is kept until the restore is committed.  The executor ([RestoreExecutor])
    copies, verifies, moves into place and takes everything back when a step fails.

    The executor works through the interface [IRestoreOperations]; what it relies on is the
    class [RestoreLaws], against which its guarantees are proved.  PosixRestore has the
    implementation and its proof that the laws hold. *)

From S2P Require Import Prelude Errors Identifiers FsPath RuntimeTime ProfileArtifacts FileSystem RestoreCatalog.

Open Scope Z_scope.
Open Scope path_scope.

(** ** Requests and plans *)

(** src/restore/RestorePlan.hpp:15-19 *)
Inductive RestoreKind := Files | Subvolume | Drill.

#[export] Instance RestoreKind_eq_dec : EqDecision RestoreKind.
Proof. solve_decision. Defined.

(** src/restore/RestorePlan.hpp:21-24 *)
Inductive ExistingDestinationPolicy := Fail | Replace.

#[export] Instance ExistingDestinationPolicy_eq_dec : EqDecision ExistingDestinationPolicy.
Proof. solve_decision. Defined.

(** src/restore/RestorePlan.hpp:26-33 *)
Record RestoreRequest := mkRequest {
  rq_transaction_id : string;
  rq_snapshot_id : string;
  rq_source_path : RelativeRestorePath;
  rq_destination : path;
  rq_kind : RestoreKind;
  rq_existing_destination : ExistingDestinationPolicy;
}.

(** src/restore/RestorePlan.hpp:35-46 *)
Record RestorePlan := mkPlan {
  pl_transaction_id : string;
  pl_snapshot_id : string;
  pl_snapshot_uuid : string;
  pl_source : path;
  pl_destination : path;
  pl_staging : path;
  pl_previous : path;
  pl_kind : RestoreKind;
  pl_existing_destination : ExistingDestinationPolicy;
  pl_destination_exists : bool;
}.

(** ** Pinned descriptors *)

Section planning.
Context (view : View).

(** src/restore/RestorePlan.cpp:20-38 *)
Definition is_pinned_descriptor_component (p : path) : bool :=
  match lexically_relative p "/proc/self/fd" with
  | Some (text :: _) =>
      if str_empty text || negb (str_forallb is_digit text) then false
      else
        match decimal text with
        | Some descriptor =>
            (descriptor <? 2 ^ 31)
            && match v_fstat view descriptor with
               | Some KDirectory | Some KRegular => true
               | _ => false
               end
        | None => false
        end
  | _ => false
  end.

(** src/restore/RestorePlan.cpp:40-44 *)
Definition valid_transaction_id (value : string) : bool :=
  negb (str_empty value) && (Z.of_nat (String.length value) <=? 64)
  && str_forallb (λ c, is_alnum c || Ascii.eqb c "-" || Ascii.eqb c "_") value.

(** The loop of [validate_destination]. *)
Fixpoint inspect_parents (paths : list path) : res unit :=
  match paths with
  | [] => Ok tt
  | current :: paths =>
      let '(error, type) := status_of (v_lstat view current) in
      if negb (has_error error) && is_kind KSymlink type
      then restore_error RestoreErrorCode.SymlinkRejected
             ("restore destination traverses a symbolic link: " +:+ current)
      else if match error with Some e => negb (is_enoent e) | None => false end
      then restore_error RestoreErrorCode.DestinationUnsafe
             ("restore destination cannot be inspected: " +:+ current)
      else inspect_parents paths
  end.

(** src/restore/RestorePlan.cpp:46-63 *)
Definition validate_restore_destination (destination : path) : res unit :=
  if negb (is_absolute destination) || negb (path_eqb (lexically_normal destination) destination)
     || path_eqb destination "/" || path_eqb destination "/home"
  then restore_error RestoreErrorCode.DestinationUnsafe
         "restore destination must be a canonical absolute path outside / and /home"
  else inspect_parents (prefixes "" (path_elements (parent_path destination))).

(** The link is one that a pinned descriptor goes through. *)
Definition pinned_link (pinned : bool) (current : path) : bool :=
  pinned && (path_eqb current "/proc/self" || path_eqb (parent_path current) "/proc/self/fd").

(** src/restore/RestorePlan.cpp:65-80 *)
Fixpoint reject_symlinks (pinned : bool) (code : RestoreErrorCode.t) (paths : list path) : res unit :=
  match paths with
  | [] => Ok tt
  | current :: paths =>
      let '(error, type) := status_of (v_lstat view current) in
      if has_error error
      then restore_error code ("restore path cannot be inspected: " +:+ current)
      else if is_kind KSymlink type && negb (pinned_link pinned current)
      then restore_error RestoreErrorCode.SymlinkRejected
             ("restore path traverses a symbolic link: " +:+ current)
      else reject_symlinks pinned code paths
  end.

(** src/restore/RestorePlan.cpp:82-96 *)
Definition validate_source (source : path) : res unit :=
  _ ← reject_symlinks (is_pinned_descriptor_component source) RestoreErrorCode.PathInvalid
        (prefixes "" (path_elements source));
  let '(error, type) :=
    if path_eqb (parent_path source) "/proc/self/fd" then status_of (v_stat view source)
    else status_of (v_lstat view source) in
  if has_error error || (negb (is_kind KRegular type) && negb (is_kind KDirectory type))
  then restore_error RestoreErrorCode.PathInvalid "restore source is not a regular file or directory"
  else if is_kind KSymlink type
  then restore_error RestoreErrorCode.SymlinkRejected "restore source is a symbolic link"
  else Ok tt.

Definition artifact_stem (transaction_id : string) : string := ".btrfs-backup-restore-" +:+ transaction_id.

(** src/restore/RestorePlan.cpp:98-129 *)
Definition build_plan (snapshot : CatalogSnapshot) (request : RestoreRequest) (source : path) : res RestorePlan :=
  if negb (valid_transaction_id (rq_transaction_id request))
  then restore_error RestoreErrorCode.PathInvalid "restore transaction id is invalid"
  else
    _ ← validate_restore_destination (rq_destination request);
    _ ← validate_source source;
    let '(exists_error, type) := status_of (v_lstat view (rq_destination request)) in
    let destination_exists := status_exists type in
    if match exists_error with Some e => negb (is_enoent e) | None => false end
    then restore_error RestoreErrorCode.DestinationUnsafe "restore destination cannot be inspected"
    else if destination_exists && bool_decide (rq_existing_destination request = Fail)
    then restore_error RestoreErrorCode.DestinationExists
           ("restore destination already exists: " +:+ rq_destination request)
    else
      let stem := artifact_stem (rq_transaction_id request) in
      let parent := parent_path (rq_destination request) in
      Ok (mkPlan (rq_transaction_id request) (rq_snapshot_id request) (cs_uuid snapshot) source
            (rq_destination request) (parent /./ (stem +:+ ".staging")) (parent /./ (stem +:+ ".previous"))
            (rq_kind request) (rq_existing_destination request) destination_exists).

(** src/restore/RestorePlan.cpp:133-137 *)
Definition plan_restore (catalog : RepositoryCatalog) (request : RestoreRequest) : res RestorePlan :=
  snapshot ← catalog_snapshot catalog (rq_snapshot_id request);
  build_plan snapshot request
    (rc_root catalog /./ rp_value (cs_repository_path snapshot) /./ rp_value (rq_source_path request)).

(** src/restore/RestorePlan.cpp:139-147 *)
Definition plan_from_pinned_source (catalog : RepositoryCatalog) (request : RestoreRequest) (source : path) :
    res RestorePlan :=
  if negb (path_eqb (parent_path source) "/proc/self/fd") || negb (is_pinned_descriptor_component source)
  then restore_error RestoreErrorCode.PathInvalid "restore source is not a pinned descriptor"
  else
    snapshot ← catalog_snapshot catalog (rq_snapshot_id request);
    build_plan snapshot request source.

End planning.

(** ** Lemmas: plans *)

Lemma pp_elements_names p :
  pp_wf p -> List.filter nonempty (pp_names p ++ (if pp_trail p then [""] else [])) = pp_names p.
Proof.
  intros [Hn _]. rewrite List.filter_app, filter_names by done. destruct (pp_trail p); apply app_nil_r.
Qed.

Lemma pp_elements_inj p q : pp_wf p -> pp_wf q -> pp_elements p = pp_elements q -> p = q.
Proof.
  intros Hp Hq E. assert (forall p x l, pp_wf p -> pp_root p = false -> pp_elements p = x :: l -> x <> "/") as Hroot.
  { intros [root names trail] x l [Hn Ht] Hr. cbn in Hr, Hn, Ht. subst root. unfold pp_elements; cbn.
    destruct names as [|y names]; cbn; [destruct trail; [by destruct (Ht eq_refl)|done]|]. intros [= <- _] ->.
    inversion Hn as [|? ? [_ Hs] _]; subst. done. }
  assert (pp_root p = pp_root q) as Er.
  { destruct (pp_root p) eqn:Ep, (pp_root q) eqn:Eq; try done; exfalso.
    - eapply (Hroot q "/"); [done|done| |done]. rewrite <- E. unfold pp_elements. by rewrite Ep.
    - eapply (Hroot p "/"); [done|done| |done]. rewrite E. unfold pp_elements. by rewrite Eq. }
  unfold pp_elements in E. rewrite Er in E. apply app_inv_head in E.
  pose proof (pp_elements_names p Hp) as E1. pose proof (pp_elements_names q Hq) as E2. rewrite E, E2 in E1.
  rewrite <- E1 in E. apply app_inv_head in E. destruct p as [? ? []], q as [? ? []]; cbn in *; congruence.
Qed.

Lemma path_eqb_parse a b : path_eqb a b = true <-> pp_parse a = pp_parse b.
Proof.
  unfold path_eqb, path_elements. rewrite bool_decide_eq_true. split; [|by intros ->].
  apply pp_elements_inj; apply pp_parse_wf.
Qed.

(** Neither path lies below the other. *)
Definition path_apart (p q : path) : Prop :=
  ~ pp_names (pp_parse p) `prefix_of` pp_names (pp_parse q)
  /\ ~ pp_names (pp_parse q) `prefix_of` pp_names (pp_parse p).

#[export] Instance path_apart_sym : Symmetric path_apart.
Proof. intros p q [H1 H2]. done. Qed.

#[export] Instance path_apart_dec p q : Decision (path_apart p q).
Proof. unfold path_apart. apply _. Defined.

(** Two names in one directory. *)
Lemma siblings_apart p q l a b :
  pp_names (pp_parse p) = l ++ [a] -> pp_names (pp_parse q) = l ++ [b] -> a <> b -> path_apart p q.
Proof.
  unfold path_apart. intros -> -> Hab.
  split; intros [k Hk]; rewrite <- app_assoc in Hk; apply app_inv_head in Hk; naive_solver.
Qed.

Lemma reject_symlinks_Ok view code paths u :
  reject_symlinks view false code paths = Ok u -> Forall (plain_at view) paths.
Proof.
  induction paths as [|p paths IH]; cbn; [constructor|]. unfold plain_at.
  destruct (v_lstat view p) as [[]|[]] eqn:E; cbn; try done; intros H; constructor; auto; by eexists.
Qed.

Lemma inspect_parents_Ok view paths u :
  inspect_parents view paths = Ok u -> Forall (λ p, v_lstat view p <> inr KSymlink) paths.
Proof.
  induction paths as [|p paths IH]; cbn; [constructor|].
  destruct (v_lstat view p) as [[]|[]] eqn:E; cbn; try done; intros H; constructor; auto; by rewrite E.
Qed.

(** A destination that was accepted. *)
Definition good_destination (view : View) (destination : path) : Prop :=
  is_absolute destination = true /\ Forall plain_component (pp_names (pp_parse destination))
  /\ pp_names (pp_parse destination) <> []
  /\ Forall (λ p, v_lstat view p <> inr KSymlink) (prefixes "" (path_elements (parent_path destination))).

Lemma validate_restore_destination_Ok view destination u :
  validate_restore_destination view destination = Ok u ->
  good_destination view destination /\ pp_parse destination <> mkPP true ["home"] false.
Proof.
  unfold validate_restore_destination. destruct (_ || _ || _ || _) eqn:E; [done|].
  rewrite !orb_false_iff, !negb_false_iff in E. destruct E as (((Ha & Hn) & Hr) & Hh).
  intros Hi%inspect_parents_Ok. apply path_eqb_parse in Hn.
  destruct (lexically_normal_abs _ Ha) as ((_ & Hpl & _) & _ & Hp). rewrite <- Hp, Hn in Hpl.
  split; [split_and!; [done|done| |done]|].
  - intros E0. apply not_true_iff_false in Hr. apply Hr, path_eqb_parse.
    pose proof (pp_parse_wf destination) as [_ Ht]. unfold is_absolute in Ha.
    destruct (pp_parse destination) as [root names trail]. cbn in *. subst. by destruct trail; [destruct Ht|].
  - intros E0. apply not_true_iff_false in Hh. by apply Hh, path_eqb_parse.
Qed.

Lemma artifact_names transaction_id suffix directory :
  no_slash transaction_id -> no_slash suffix ->
  pp_parse (directory /./ (artifact_stem transaction_id +:+ suffix))
  = mkPP (pp_root (pp_parse directory))
      (pp_names (pp_parse directory) ++ [artifact_stem transaction_id +:+ suffix]) false.
Proof.
  intros Ht Hs. assert (is_name (artifact_stem transaction_id +:+ suffix)) as Hn.
  { split; [done|]. unfold no_slash, artifact_stem. rewrite !str_contains_app. by rewrite Ht, Hs. }
  rewrite pp_parse_append; rewrite ?(parse_name _ Hn); [done| |done]. unfold is_absolute. by rewrite parse_name.
Qed.

Lemma transaction_id_no_slash t : valid_transaction_id t = true -> no_slash t.
Proof.
  unfold valid_transaction_id. rewrite !andb_true_iff. intros [_ H]. unfold no_slash.
  by eapply forallb_no_char; [|exact H].
Qed.

(** What a plan promises: the source is a file or a directory below the snapshot, reached without
    symbolic links unless it is pinned by a descriptor, the destination is a proper absolute path
    whose parents are no symbolic links, it does not exist unless it may be replaced, and the two
    names the transaction uses beside it do not overlap with it. *)
Definition planned (view : View) (request : RestoreRequest) (plan : RestorePlan) : Prop :=
  let names := pp_names (pp_parse (pl_destination plan)) in
  pl_destination plan = rq_destination request /\ good_destination view (pl_destination plan)
  /\ (is_pinned_descriptor_component view (pl_source plan) = false ->
      Forall (plain_at view) (prefixes "" (path_elements (pl_source plan))))
  /\ (path_eqb (parent_path (pl_source plan)) "/proc/self/fd" = false ->
      v_lstat view (pl_source plan) = inr KRegular \/ v_lstat view (pl_source plan) = inr KDirectory)
  /\ (rq_existing_destination request = Fail -> v_lstat view (pl_destination plan) = inl ENOENT)
  /\ path_apart (pl_staging plan) (pl_previous plan)
  /\ (pp_trail (pp_parse (pl_destination plan)) = false ->
      List.last names "" <> artifact_stem (rq_transaction_id request) +:+ ".staging" ->
      List.last names "" <> artifact_stem (rq_transaction_id request) +:+ ".previous" ->
      path_apart (pl_staging plan) (pl_destination plan) /\ path_apart (pl_previous plan) (pl_destination plan)).

Lemma validate_source_Ok view source u :
  validate_source view source = Ok u ->
  (is_pinned_descriptor_component view source = false ->
   Forall (plain_at view) (prefixes "" (path_elements source)))
  /\ (path_eqb (parent_path source) "/proc/self/fd" = false ->
      v_lstat view source = inr KRegular \/ v_lstat view source = inr KDirectory).
Proof.
  unfold validate_source. intros ([] & H1 & H2)%res_bind_Ok. split.
  - intros Hp. rewrite Hp in H1. by eapply reject_symlinks_Ok.
  - intros Hf. rewrite Hf in H2. destruct (v_lstat view source) as [[]|[]]; cbn in H2; try done; auto.
Qed.

Lemma Ok_inj {A} (a b : A) : Ok a = Ok b -> a = b.
Proof. by injection 1. Qed.

Lemma build_plan_Ok view snapshot request source plan :
  build_plan view snapshot request source = Ok plan ->
  pl_source plan = source /\ pl_snapshot_uuid plan = cs_uuid snapshot /\ planned view request plan.
Proof.
  unfold build_plan. destruct (valid_transaction_id _) eqn:Ht; [|done]. cbn [negb].
  intros ([] & Hd & H)%res_bind_Ok. apply res_bind_Ok in H as ([] & [Hs1 Hs2]%validate_source_Ok & H).
  apply validate_restore_destination_Ok in Hd as [Hd _]. apply transaction_id_no_slash in Ht.
  destruct (status_of _) as [error type] eqn:Es. 
  destruct (match error with Some e => negb (is_enoent e) | None => false end) eqn:Ee; [done|].
  destruct (_ && _) eqn:Ex; [done|]. apply Ok_inj in H as <-. do 2 (split; [done|]).
  unfold planned. cbn [pl_source pl_destination pl_staging pl_previous].
  do 4 (split; [done|]). pose proof Hd as (_ & _ & Hne & _). pose proof (pp_parse_parent _ Hne) as Hp.
  pose proof (artifact_names (rq_transaction_id request) ".staging" (parent_path (rq_destination request)) Ht eq_refl) as E1.
  pose proof (artifact_names (rq_transaction_id request) ".previous" (parent_path (rq_destination request)) Ht eq_refl) as E2.
  rewrite Hp in E1, E2. cbn [pp_root pp_names] in E1, E2.
  assert (forall a b, artifact_stem (rq_transaction_id request) +:+ a
    = artifact_stem (rq_transaction_id request) +:+ b -> a = b) as Hinj by (intros a b; apply string_app_inj_l).
  split_and!.
  - intros Hf. rewrite bool_decide_eq_true_2, andb_true_r in Ex by done.
    destruct (v_lstat view (rq_destination request)) as [[]|]; cbn in Es; simplify_eq; done.
  - eapply siblings_apart; [by rewrite E1|by rewrite E2|]. by intros ?%Hinj.
  - intros Htr Hn1 Hn2. rewrite Htr in E1, E2.
    assert (pp_names (pp_parse (rq_destination request))
      = removelast (pp_names (pp_parse (rq_destination request)))
        ++ [List.last (pp_names (pp_parse (rq_destination request))) ""]) as El by (by apply app_removelast_last).
    split; (eapply siblings_apart; [by rewrite ?E1, ?E2|exact El|done]).
Qed.

(** ** Operations *)

(** src/restore/RestoreOperations.hpp:15-19 *)
Record RestoreStatistics := mkStatistics { st_files : Z; st_directories : Z; st_bytes : Z }.

(** src/restore/RestoreOperations.hpp:21-24 *)
Record RestoreProgress := mkProgress { pr_statistics : RestoreStatistics; pr_current_path : path }.

(** src/restore/RestoreOperations.hpp:28-29 *)
Inductive RestorePhase := CheckingSpace | Copying.

(** [cancellation.cancellation_requested()], which is noexcept. src/core/Cancellation.hpp:11-23 *)
Definition CancellationToken (W : Type) : Type := W -> bool * W.

(** src/restore/RestoreOperations.hpp:32-55 *)
Record IRestoreOperations (W : Type) := mkOperations {
  op_exists : path -> SE W bool;
  op_ensure_sufficient_space : path -> path -> CancellationToken W -> SE W unit;
  op_prepare_copy_root : path -> path -> SE W unit;
  op_create_subvolume_root : path -> SE W unit;
  op_copy_and_verify : path -> path -> CancellationToken W -> option (RestoreProgress -> SE W unit) ->
                       SE W RestoreStatistics;
  op_move : path -> path -> SE W unit;
  op_remove_owned_tree : path -> SE W unit;
}.
Arguments op_exists {W}. Arguments op_ensure_sufficient_space {W}. Arguments op_prepare_copy_root {W}.
Arguments op_create_subvolume_root {W}. Arguments op_copy_and_verify {W}. Arguments op_move {W}.
Arguments op_remove_owned_tree {W}.

(** src/restore/RestoreEngine.hpp:12-17 *)
Record RestoreResult := mkResult {
  rr_transaction_id : string;
  rr_statistics : RestoreStatistics;
  rr_drill : bool;
  rr_committed : bool;
}.

(** ** The executor *)

Section executor.
Context {W : Type} (operations : IRestoreOperations W).

(** The variables of [execute] that its handler reads. *)
Record Progress := mkFlags { fl_staging_created : bool; fl_previous_moved : bool; fl_committed : bool }.

#[export] Instance eta_Progress : Eta Progress := λ f,
  mkFlags (fl_staging_created f) (fl_previous_moved f) (fl_committed f).

Abbreviation M := (SE (Progress * W)).

Definition world {A} (m : SE W A) : M A := λ '(f, w), let '(r, w) := m w in (r, (f, w)).
Definition set_flags (g : Progress -> Progress) : M unit := λ '(f, w), (Ok tt, (g f, w)).

(** src/restore/RestoreEngine.cpp:16-20 *)
Definition throw_if_cancelled (cancellation : CancellationToken W) : SE W unit := λ w,
  let '(requested, w) := cancellation w in
  if requested then (Throw (RestoreError RestoreErrorCode.Cancelled "restore was cancelled"), w)
  else (Ok tt, w).

(** [if (phase) phase(p);] *)
Definition report (phase : option (RestorePhase -> SE W unit)) (p : RestorePhase) : SE W unit :=
  match phase with Some sink => sink p | None => mret tt end.

(** The transaction artifacts are there already; the second is only looked for without the first. *)
Definition artifacts_exist (plan : RestorePlan) : SE W bool :=
  op_exists operations (pl_staging plan) ≫= λ staging : bool,
  if staging then mret true else op_exists operations (pl_previous plan).

(** A destination that is there is kept aside when it may be replaced. src/restore/RestoreEngine.cpp:62-68 *)
Definition keep_previous (plan : RestorePlan) (there : bool) : M unit :=
  if there then
    if negb (bool_decide (pl_existing_destination plan = Replace))
    then se_throw (RestoreError RestoreErrorCode.DestinationExists "restore destination appeared before commit")
    else
      _ ← world (op_move operations (pl_destination plan) (pl_previous plan));
      set_flags (λ f, f <| fl_previous_moved := true |>)
  else mret tt.

(** [if (previous_moved) remove_owned_tree(previous);] *)
Definition drop_previous (plan : RestorePlan) : M unit := λ s,
  if fl_previous_moved s.1 then world (op_remove_owned_tree operations (pl_previous plan)) s else (Ok tt, s).

(** Moving the copy to its place. src/restore/RestoreEngine.cpp:62-75 *)
Definition commit_restore (plan : RestorePlan) (statistics : RestoreStatistics) : M RestoreResult :=
  there ← world (op_exists operations (pl_destination plan));
  _ ← keep_previous plan there;
  _ ← world (op_move operations (pl_staging plan) (pl_destination plan));
  _ ← set_flags (λ f, f <| fl_staging_created := false |> <| fl_committed := true |>);
  _ ← drop_previous plan;
  mret (mkResult (pl_transaction_id plan) statistics false true).

(** The body of the [try]. src/restore/RestoreEngine.cpp:41-61 *)
Definition restore_steps (plan : RestorePlan) (cancellation : CancellationToken W)
    (progress : option (RestoreProgress -> SE W unit)) (phase : option (RestorePhase -> SE W unit)) :
    M RestoreResult :=
  _ ← world (report phase CheckingSpace);
  _ ← world (op_ensure_sufficient_space operations (pl_source plan) (pl_staging plan) cancellation);
  _ ← world (throw_if_cancelled cancellation);
  _ ← world (report phase Copying);
  _ ← world (if bool_decide (pl_kind plan = Subvolume)
             then op_create_subvolume_root operations (pl_staging plan)
             else op_prepare_copy_root operations (pl_source plan) (pl_staging plan));
  _ ← set_flags (λ f, f <| fl_staging_created := true |>);
  statistics ← world (op_copy_and_verify operations (pl_source plan) (pl_staging plan) cancellation progress);
  _ ← world (throw_if_cancelled cancellation);
  if bool_decide (pl_kind plan = Drill) then
    _ ← world (op_remove_owned_tree operations (pl_staging plan));
    mret (mkResult (pl_transaction_id plan) statistics true false)
  else commit_restore plan statistics.

(** [if (flag && operations_.exists(path)) step;] *)
Definition when_exists (flag : bool) (p : path) (step : SE W unit) : SE W unit :=
  if flag then op_exists operations p ≫= λ there : bool, if there then step else mret tt
  else mret tt.

(** What the handler does to take the steps back. src/restore/RestoreEngine.cpp:79-91 *)
Definition take_back (plan : RestorePlan) (f : Progress) : SE W unit :=
  _ ← when_exists (fl_committed f) (pl_destination plan)
        (op_remove_owned_tree operations (pl_destination plan));
  _ ← when_exists (fl_previous_moved f) (pl_previous plan)
        (op_move operations (pl_previous plan) (pl_destination plan));
  when_exists (fl_staging_created f) (pl_staging plan)
    (op_remove_owned_tree operations (pl_staging plan)).

(** The handler of a failure. src/restore/RestoreEngine.cpp:76-96 *)
Definition handle_failure (plan : RestorePlan) (failure : exn) (f : Progress) : SE W RestoreResult := λ w,
  match take_back plan f w with
  | (Ok _, w) => (Throw failure, w)
  | (Throw error, w) =>
      if negb (is_std_exception error) then (Throw error, w)
      else if str_empty (exn_what error) then (Throw failure, w)
      else (Throw (RestoreError RestoreErrorCode.RollbackIncomplete
                     ("restore rollback incomplete: " +:+ exn_what error)), w)
  end.

(** src/restore/RestoreEngine.cpp:27-97 *)
Definition execute (plan : RestorePlan) (cancellation : CancellationToken W)
    (progress : option (RestoreProgress -> SE W unit)) (phase : option (RestorePhase -> SE W unit)) :
    SE W RestoreResult :=
  _ ← throw_if_cancelled cancellation;
  artifacts_exist plan ≫= λ artifacts : bool,
  if artifacts
  then se_throw (RestoreError RestoreErrorCode.DestinationUnsafe "restore transaction artifacts already exist")
  else λ w,
    match restore_steps plan cancellation progress phase (mkFlags false false false, w) with
    | (Ok result, (_, w)) => (Ok result, w)
    | (Throw failure, (f, w)) => handle_failure plan failure f w
    end.

End executor.

(** ** What the executor relies on *)

(** The outcomes of a computation from a state: [Q] for a value, [E] for an exception. *)
Definition holds {S A} (m : SE S A) (s : S) (Q : A -> S -> Prop) (E : exn -> S -> Prop) : Prop :=
  match m s with
  | (Ok a, s') => Q a s'
  | (Throw e, s') => E e s'
  end.

Lemma holds_bind {S A B} (m : SE S A) (f : A -> SE S B) s Q E :
  holds m s (λ a s', holds (f a) s' Q E) E -> holds (m ≫= f) s Q E.
Proof. unfold holds. rewrite se_bind_eq. by destruct (m s) as [[a|e] s']. Qed.

Lemma holds_mono {S A} (m : SE S A) s (Q Q' : A -> S -> Prop) (E E' : exn -> S -> Prop) :
  holds m s Q E -> (forall a s', Q a s' -> Q' a s') -> (forall e s', E e s' -> E' e s') -> holds m s Q' E'.
Proof. unfold holds. destruct (m s) as [[a|e] s']; auto. Qed.

Lemma holds_ret {S A} (a : A) (s : S) (Q : A -> S -> Prop) E : Q a s -> holds (mret a) s Q E.
Proof. done. Qed.

Lemma holds_world {W A} (m : SE W A) f w (Q : A -> Progress * W -> Prop) E :
  holds m w (λ a w', Q a (f, w')) (λ e w', E e (f, w')) -> holds (world m) (f, w) Q E.
Proof. unfold holds, world. by destruct (m w) as [[a|e] w']. Qed.

(** A failure that can be told: its message is not empty. *)
Definition telling (e : exn) : Prop := is_std_exception e = true /\ exn_what e <> "".

(** Nothing changes but at the paths [ps] and above or below them; a world in which looking does
    not fail stays one. *)
Definition only {W T} (tree : W -> path -> option T) (apart : path -> path -> Prop) (sighted : W -> Prop)
    (ps : list path) (w w' : W) : Prop :=
  (sighted w -> sighted w') /\ forall q, Forall (λ p, apart p q) ps -> tree w' q = tree w q.

Definition token_read {W} (token : CancellationToken W) : SE W bool := λ w,
  let '(b, w) := token w in (Ok b, w).

(** What the executor relies on.  [tree] is what is at a path, the whole of it; [apart] says that
    neither path lies below the other; [fresh] is what a new staging place holds, and [faithful]
    that a tree is a copy of another.  A world is [sighted] when looking at a path does not fail;
    something can be created at a [place]. *)
Class RestoreLaws {W : Type} (operations : IRestoreOperations W) {T : Type} (tree : W -> path -> option T)
    (apart : path -> path -> Prop) (fresh : option T -> Prop) (faithful : option T -> T -> Prop)
    (sighted : W -> Prop) (quiet : forall A, SE W A -> Prop) (place : path -> Prop) := {
  apart_sym : Symmetric apart;
  law_quiet A (m : SE W A) w : quiet A m ->
    holds m w (λ _, only tree apart sighted [] w) (λ _, only tree apart sighted [] w);
  law_exists p w : holds (op_exists operations p) w
    (λ b w', only tree apart sighted [] w w' /\ (b = true -> sighted w -> is_Some (tree w p))
             /\ (b = false -> sighted w -> tree w p = None))
    (λ e w', only tree apart sighted [] w w' /\ telling e);
  law_space source p token w : quiet _ (token_read token) ->
    holds (op_ensure_sufficient_space operations source p token) w
      (λ _, only tree apart sighted [] w) (λ _, only tree apart sighted [] w);
  law_prepare source p w : place p -> holds (op_prepare_copy_root operations source p) w
    (λ _ w', only tree apart sighted [p] w w' /\ (sighted w -> tree w p = None -> fresh (tree w' p)))
    (λ _ w', only tree apart sighted [p] w w' /\ tree w' p = tree w p);
  law_subvolume p w : place p -> holds (op_create_subvolume_root operations p) w
    (λ _ w', only tree apart sighted [p] w w' /\ (sighted w -> tree w p = None -> fresh (tree w' p)))
    (λ _ w', only tree apart sighted [p] w w' /\ tree w' p = tree w p);
  law_copy source p token progress w :
    quiet _ (token_read token) -> (forall sink x, progress = Some sink -> quiet _ (sink x)) ->
    apart p source -> fresh (tree w p) -> sighted w ->
    holds (op_copy_and_verify operations source p token progress) w
      (λ _ w', only tree apart sighted [p] w w' /\ exists t, tree w' p = Some t /\ faithful (tree w source) t)
      (λ _ w', only tree apart sighted [p] w w');
  law_move source p w : apart source p -> holds (op_move operations source p) w
    (λ _ w', only tree apart sighted [source; p] w w' /\ tree w' p = tree w source /\ tree w' source = None)
    (λ e w', only tree apart sighted [] w w' /\ telling e);
  law_remove p w : sighted w -> holds (op_remove_owned_tree operations p) w
    (λ _ w', only tree apart sighted [p] w w' /\ tree w' p = None)
    (λ e w', only tree apart sighted [p] w w' /\ telling e);
}.

(** ** Lemmas *)

Section guarantees.
Context {W : Type} {operations : IRestoreOperations W} {T : Type} {tree : W -> path -> option T}
  {apart : path -> path -> Prop} {fresh : option T -> Prop} {faithful : option T -> T -> Prop}
  {sighted : W -> Prop} {quiet : forall A, SE W A -> Prop} {place : path -> Prop}
  `{!RestoreLaws operations tree apart fresh faithful sighted quiet place}.
Context (plan : RestorePlan) (token : CancellationToken W)
  (progress : option (RestoreProgress -> SE W unit)) (phase : option (RestorePhase -> SE W unit)).

Local Abbreviation staging := (pl_staging plan).
Local Abbreviation previous := (pl_previous plan).
Local Abbreviation destination := (pl_destination plan).
Local Abbreviation source := (pl_source plan).

(** The paths of the plan do not overlap. *)
Definition plan_apart : Prop :=
  apart staging previous /\ apart staging destination /\ apart previous destination /\ apart staging source
  /\ place staging.

(** What is called to report or to ask whether to stop does not touch the files. *)
Definition callers_quiet : Prop :=
  quiet _ (token_read token) /\ (forall sink x, progress = Some sink -> quiet _ (sink x))
  /\ (forall sink x, phase = Some sink -> quiet _ (sink x)).

Context (Hapart : plan_apart) (Hquiet : callers_quiet).

(** The trees of the transaction in a world. *)
Definition at_paths (w : W) (d s p : option T) : Prop :=
  sighted w /\ tree w destination = d /\ tree w staging = s /\ tree w previous = p.

Lemma only_nil_at w w' d s p : only tree apart sighted [] w w' -> at_paths w d s p -> at_paths w' d s p.
Proof. intros [H1 H2] (Hs & <- & <- & <-). split; [by apply H1|]. by rewrite !H2. Qed.

Lemma only_source w w' : only tree apart sighted [] w w' -> tree w' source = tree w source.
Proof. intros [_ H]. by apply H. Qed.

Lemma quiet_holds {A} (m : SE W A) w (Q : A -> W -> Prop) E :
  quiet A m -> (forall a w', only tree apart sighted [] w w' -> Q a w') ->
  (forall e w', only tree apart sighted [] w w' -> E e w') -> holds m w Q E.
Proof. intros Hm HQ HE. eapply holds_mono; [by apply law_quiet|exact HQ|exact HE]. Qed.

Lemma report_holds x w (Q : unit -> W -> Prop) E :
  (forall a w', only tree apart sighted [] w w' -> Q a w') ->
  (forall e w', only tree apart sighted [] w w' -> E e w') -> holds (report phase x) w Q E.
Proof.
  intros HQ HE. unfold report. destruct phase as [sink|] eqn:Ep.
  - apply quiet_holds; [|done|done]. destruct Hquiet as (_ & _ & H). by apply H.
  - apply holds_ret, HQ. by split.
Qed.

Lemma cancelled_holds w (Q : unit -> W -> Prop) E :
  (forall a w', only tree apart sighted [] w w' -> Q a w') ->
  (forall e w', only tree apart sighted [] w w' -> E e w') -> holds (throw_if_cancelled token) w Q E.
Proof.
  intros HQ HE. destruct Hquiet as (H & _). apply (law_quiet _ _ w) in H. revert H.
  unfold holds, throw_if_cancelled, token_read. destruct (token w) as [[] w']; auto.
Qed.

(** After a change of one path of the transaction. *)
Lemma only_staging w w' d s p :
  only tree apart sighted [staging] w w' -> at_paths w d s p -> at_paths w' d (tree w' staging) p.
Proof.
  intros [H1 H2] (Hs & <- & _ & <-). destruct Hapart as (A1 & A2 & _).
  split; [by apply H1|]. rewrite (H2 destination), (H2 previous) by (by repeat constructor). done.
Qed.

Lemma only_previous w w' d s p :
  only tree apart sighted [previous] w w' -> at_paths w d s p -> at_paths w' d s (tree w' previous).
Proof.
  intros [H1 H2] (Hs & <- & <- & _). destruct Hapart as (A1 & _ & A3 & _). apply apart_sym in A1.
  split; [by apply H1|]. rewrite (H2 destination), (H2 staging) by (by repeat constructor). done.
Qed.

Lemma only_destination w w' d s p :
  only tree apart sighted [destination] w w' -> at_paths w d s p -> at_paths w' (tree w' destination) s p.
Proof.
  intros [H1 H2] (Hs & _ & <- & <-). destruct Hapart as (_ & A2 & A3 & _). apply apart_sym in A2, A3.
  split; [by apply H1|]. rewrite (H2 staging), (H2 previous) by (by repeat constructor). done.
Qed.

(** The failure of the removal of the replaced tree, after the copy [t] was moved into place. *)
Definition late_failure (w0 : W) (e : exn) (w : W) : Prop :=
  pl_existing_destination plan = Replace /\ is_Some (tree w0 destination) /\
  exists w1 t, at_paths w1 (Some t) None (tree w0 destination) /\ faithful (tree w0 source) t
    /\ op_remove_owned_tree operations previous w1 = (Throw e, w).

(** How far a restore that failed had come. *)
Definition failed (w0 : W) (e : exn) (s : Progress * W) : Prop :=
  let '(f, w) := s in
  (fl_committed f = false /\ fl_previous_moved f = false
   /\ at_paths w (tree w0 destination) (tree w staging) None
   /\ (fl_staging_created f = false -> tree w staging = None))
  \/ (f = mkFlags true true false /\ is_Some (tree w0 destination)
      /\ at_paths w None (tree w staging) (tree w0 destination))
  \/ (f = mkFlags false true true /\ late_failure w0 e w).

(** What a restore that returned has done. *)
Definition restored (w0 : W) (result : RestoreResult) (w : W) : Prop :=
  rr_transaction_id result = pl_transaction_id plan
  /\ rr_drill result = bool_decide (pl_kind plan = Drill) /\ rr_committed result = negb (rr_drill result)
  /\ if rr_drill result then at_paths w (tree w0 destination) None None
     else exists t, at_paths w (Some t) None None /\ faithful (tree w0 source) t.

Lemma keep_previous_holds w0 w there s (t : T) :
  at_paths w (tree w0 destination) s None -> s = Some t ->
  (there = true -> is_Some (tree w0 destination)) -> (there = false -> tree w0 destination = None) ->
  holds (keep_previous operations plan there) (mkFlags true false false, w)
    (λ _ '(f, w'), f = mkFlags true there false /\ at_paths w' None s (tree w0 destination)
                   /\ (there = true -> pl_existing_destination plan = Replace))
    (failed w0).
Proof.
  intros Hat Hs Ht Hf. unfold keep_previous. destruct there.
  2:{ apply holds_ret. split; [done|]. rewrite Hf in Hat |- * by done. by split. }
  case_bool_decide as Hr; cbn [negb].
  2:{ left. split; [done|]. split; [done|]. split; [|done]. by rewrite (proj1 (proj2 (proj2 Hat))). }
  apply holds_bind, holds_world. eapply holds_mono.
  - apply law_move. apply apart_sym, Hapart.
  - intros _ w' (Ho & Hp & Hd). destruct Ho as [Ho1 Ho2], Hat as (Hsi & Ed & Es & Ep).
    split; [done|]. split; [|done]. split; [by apply Ho1|]. rewrite Hd, Hp. split; [done|]. split; [|done].
    rewrite Ho2; [done|]. destruct Hapart as (A1 & A2 & _). apply apart_sym in A1, A2. by repeat constructor.
  - intros e w' [Ho _]. left. split; [done|]. split; [done|]. pose proof (only_nil_at _ _ _ _ _ Ho Hat) as Hat'.
    split; [|done]. by rewrite (proj1 (proj2 (proj2 Hat'))).
Qed.

Lemma commit_restore_holds w0 w (t : T) statistics :
  at_paths w (tree w0 destination) (Some t) None -> faithful (tree w0 source) t -> pl_kind plan <> Drill ->
  holds (commit_restore operations plan statistics) (mkFlags true false false, w)
    (λ r s, restored w0 r s.2) (failed w0).
Proof.
  intros Hat Hfa Hk. unfold commit_restore.
  apply holds_bind, holds_world. eapply holds_mono; [apply law_exists| |].
  2:{ intros e w' [Ho _]. left. do 2 (split; [done|]). pose proof (only_nil_at _ _ _ _ _ Ho Hat) as Hat'.
      split; [|done]. by rewrite (proj1 (proj2 (proj2 Hat'))). }
  intros there w1 (Ho & Ht & Hf). pose proof (only_nil_at _ _ _ _ _ Ho Hat) as Hat1.
  destruct Hat as (Hsi & Ed & _ & _). rewrite Ed in Ht, Hf. specialize (λ H, Ht H Hsi) as Ht.
  apply holds_bind. eapply holds_mono; [|clear Hat1|done].
  { eapply keep_previous_holds; [exact Hat1|done|done|]. intros Hb. by apply Hf. }
  intros _ [f w2] (-> & Hat2 & Hr). apply holds_bind, holds_world. eapply holds_mono.
  { apply law_move. apply Hapart. }
  2:{ intros e w3 [Hon _]. pose proof (only_nil_at _ _ _ _ _ Hon Hat2) as Hat3. destruct there.
      - right; left. split; [done|]. split; [by apply Ht|]. by rewrite (proj1 (proj2 (proj2 Hat3))).
      - left. do 2 (split; [done|]). split; [|done]. rewrite Hf in Hat3 |- * by done.
        by rewrite (proj1 (proj2 (proj2 Hat3))). }
  intros _ w3 ((Ho1 & Ho2) & Hd & Hs).
  assert (at_paths w3 (Some t) None (tree w0 destination)) as Hat3.
  { destruct Hat2 as (Hs2 & Ed2 & Es2 & Ep2). split; [by apply Ho1|]. rewrite Hd, Hs. do 2 (split; [done|]).
    rewrite Ho2; [done|]. destruct Hapart as (A1 & _ & A3 & _). apply apart_sym in A3. by repeat constructor. }
  apply holds_bind. cbn [holds set_flags].
  assert (forall w', at_paths w' (Some t) None None ->
    restored w0 (mkResult (pl_transaction_id plan) statistics false true) w') as Hdone.
  { intros w' Hw'. unfold restored; cbn. rewrite bool_decide_eq_false_2 by done.
    do 3 (split; [done|]). by exists t. }
  apply holds_bind. unfold drop_previous, holds. cbn [fl_previous_moved fst]. destruct there; cbn.
  - unfold world. pose proof (law_remove previous w3 (proj1 Hat3)) as Hrm. unfold holds in Hrm.
    destruct (op_remove_owned_tree operations previous w3) as [[u|e] w4] eqn:Er.
    + destruct Hrm as [Hon Hnone]. apply Hdone.
      pose proof (only_previous _ _ _ _ _ Hon Hat3) as Hat4. by rewrite Hnone in Hat4.
    + right; right. split; [done|]. split; [by apply Hr|]. split; [by apply Ht|]. exists w3, t. done.
  - apply Hdone. by rewrite Hf in Hat3 by done.
Qed.

(** A failure before the staging copy is begun, and after. *)
Lemma failed_unstaged w0 w e : at_paths w (tree w0 destination) None None -> failed w0 e (mkFlags false false false, w).
Proof.
  intros Hat. left. do 2 (split; [done|]). pose proof (proj1 (proj2 (proj2 Hat))) as Hs. by rewrite Hs.
Qed.

Lemma failed_staged w0 w e s : at_paths w (tree w0 destination) s None -> failed w0 e (mkFlags true false false, w).
Proof.
  intros Hat. left. do 2 (split; [done|]). split; [|done]. by rewrite (proj1 (proj2 (proj2 Hat))).
Qed.

Lemma stage_holds w :
  holds (if bool_decide (pl_kind plan = Subvolume)
         then op_create_subvolume_root operations staging
         else op_prepare_copy_root operations source staging) w
    (λ _ w', only tree apart sighted [staging] w w' /\ (sighted w -> tree w staging = None -> fresh (tree w' staging)))
    (λ _ w', only tree apart sighted [staging] w w' /\ tree w' staging = tree w staging).
Proof. destruct (bool_decide _); [apply law_subvolume|apply law_prepare]; apply Hapart. Qed.

Lemma restore_steps_holds w0 :
  at_paths w0 (tree w0 destination) None None ->
  holds (restore_steps operations plan token progress phase) (mkFlags false false false, w0)
    (λ r s, restored w0 r s.2) (failed w0).
Proof.
  intros Hat0. assert (forall w w', only tree apart sighted [] w w' ->
    at_paths w (tree w0 destination) None None /\ tree w source = tree w0 source ->
    at_paths w' (tree w0 destination) None None /\ tree w' source = tree w0 source) as Hstep.
  { intros w w' Ho [Ha Hs]. split; [by eapply only_nil_at|]. by rewrite (only_source _ _ Ho). }
  assert (forall w, at_paths w (tree w0 destination) None None /\ tree w source = tree w0 source ->
    forall e w', only tree apart sighted [] w w' -> failed w0 e (mkFlags false false false, w')) as Hfail
    by (intros w Hw e w' [Ha _]%(Hstep w); [by apply failed_unstaged|done]).
  unfold restore_steps. assert (at_paths w0 (tree w0 destination) None None /\ tree w0 source = tree w0 source) as H0
    by done.
  apply holds_bind, holds_world, report_holds; [|exact (Hfail _ H0)]. intros _ w1 H1. apply Hstep in H1; [|done].
  apply holds_bind, holds_world.
  eapply holds_mono; [apply law_space, Hquiet| |exact (Hfail _ H1)]. intros [] w2 H2. apply Hstep in H2; [|done].
  apply holds_bind, holds_world, cancelled_holds; [|exact (Hfail _ H2)]. intros _ w3 H3. apply Hstep in H3; [|done].
  apply holds_bind, holds_world, report_holds; [|exact (Hfail _ H3)].
  intros _ w4 H4. apply Hstep in H4 as [Hat4 Hs4]; [|done].
  apply holds_bind, holds_world. eapply holds_mono; [apply stage_holds| |].
  2:{ intros e w5 [Ho Hs]. apply failed_unstaged. pose proof (only_staging _ _ _ _ _ Ho Hat4) as H5.
      by rewrite Hs, (proj1 (proj2 (proj2 Hat4))) in H5. }
  intros _ w5 [Ho5 Hfresh]. pose proof (only_staging _ _ _ _ _ Ho5 Hat4) as Hat5.
  specialize (Hfresh (proj1 Hat4) (proj1 (proj2 (proj2 Hat4)))).
  assert (tree w5 source = tree w0 source) as Hs5.
  { rewrite (proj2 Ho5); [done|]. constructor; [apply Hapart|done]. }
  apply holds_bind. cbn [holds set_flags].
  apply holds_bind, holds_world. eapply holds_mono; [apply law_copy; [apply Hquiet..|apply Hapart|done|apply Hat5]| |].
  2:{ intros e w6 Ho6. eapply failed_staged, only_staging; [exact Ho6|exact Hat5]. }
  intros statistics w6 (Ho6 & t & Ht & Hfa). pose proof (only_staging _ _ _ _ _ Ho6 Hat5) as Hat6.
  rewrite Ht in Hat6. rewrite Hs5 in Hfa.
  apply holds_bind, holds_world, cancelled_holds.
  2:{ intros e w7 Ho7. eapply failed_staged, only_nil_at; [exact Ho7|exact Hat6]. }
  intros _ w7 Ho7. pose proof (only_nil_at _ _ _ _ _ Ho7 Hat6) as Hat7. case_bool_decide as Hk.
  - apply holds_bind, holds_world. eapply holds_mono; [apply law_remove, Hat7| |].
    + intros _ w8 [Ho8 Hnone]. apply holds_ret. unfold restored; cbn. rewrite bool_decide_eq_true_2 by done.
      do 3 (split; [done|]). pose proof (only_staging _ _ _ _ _ Ho8 Hat7) as Hat8.
      by rewrite Hnone in Hat8.
    + intros e w8 [Ho8 _]. eapply failed_staged, only_staging; [exact Ho8|exact Hat7].
  - by eapply commit_restore_holds.
Qed.

Lemma when_exists_holds flag p step w (Q : unit -> W -> Prop) E d s v :
  at_paths w d s v ->
  (flag = false \/ tree w p = None -> forall w', at_paths w' d s v -> Q tt w') ->
  (flag = true -> is_Some (tree w p) -> forall w', only tree apart sighted [] w w' -> at_paths w' d s v ->
     holds step w' Q E) ->
  (forall e w', telling e -> at_paths w' d s v -> E e w') ->
  holds (when_exists operations flag p step) w Q E.
Proof.
  intros Hat HN HS HE. unfold when_exists. destruct flag; [|apply holds_ret, HN; auto].
  apply holds_bind. eapply holds_mono; [apply law_exists| |].
  - intros [] w' (Ho & Ht & Hf); pose proof (only_nil_at _ _ _ _ _ Ho Hat); [by apply HS; [done|apply Ht; [done|apply Hat]|done|done]|].
    apply holds_ret, HN; [|done]. right. apply Hf; [done|apply Hat].
  - intros e w' [Ho Ht]. apply HE; [done|]. by eapply only_nil_at.
Qed.

(** Removing the staging copy, the last step back. *)
Lemma drop_staging_holds flag w d v :
  at_paths w d (tree w staging) v -> (flag = false -> tree w staging = None) ->
  holds (when_exists operations flag staging (op_remove_owned_tree operations staging)) w
    (λ _ w', at_paths w' d None v)
    (λ e w', telling e /\ exists s, at_paths w' d s v).
Proof.
  intros Hat Hf. eapply when_exists_holds; [exact Hat| | |].
  - intros [H|H] w' Hw'; [by rewrite (Hf H) in Hw'|by rewrite H in Hw'].
  - intros _ _ w' _ Hw'. eapply holds_mono; [apply law_remove, Hw'| |].
    + intros _ w2 [Ho Hn]. pose proof (only_staging _ _ _ _ _ Ho Hw') as H2. by rewrite Hn in H2.
    + intros e w2 [Ho Ht]. split; [done|]. eexists. eapply only_staging; [exact Ho|exact Hw'].
  - intros e w' Ht Hw'. split; [done|]. by eexists.
Qed.

(** Moving the replaced tree back to a destination that is free. *)
Lemma move_back_holds w s v :
  at_paths w None s v -> is_Some v ->
  holds (when_exists operations true previous (op_move operations previous destination)) w
    (λ _ w', at_paths w' v s None)
    (λ e w', telling e /\ at_paths w' None s v).
Proof.
  intros Hat [x ->]. eapply when_exists_holds; [exact Hat| | |].
  - intros [H|H]; [done|]. by rewrite (proj2 (proj2 (proj2 Hat))) in H.
  - intros _ _ w' _ (Hs & Ed & Es & Ep). eapply holds_mono; [apply law_move, Hapart| |].
    + intros _ w2 ((Ho1 & Ho2) & Hd & Hp). split; [by apply Ho1|]. rewrite Hd, Hp. split; [done|]. split; [|done].
      rewrite Ho2; [done|]. destruct Hapart as (A1 & A2 & _). apply apart_sym in A1, A2. by repeat constructor.
    + intros e w2 [Ho Ht]. split; [done|]. by eapply only_nil_at.
  - intros e w' Ht Hw'. done.
Qed.

(** The destination is as it was, and nothing is left beside it. *)
Definition taken_back (w0 w : W) : Prop := at_paths w (tree w0 destination) None None.

(** The tree that was at the destination is there or kept beside it. *)
Definition kept (w0 w : W) : Prop :=
  tree w destination = tree w0 destination \/ tree w previous = tree w0 destination.

Lemma take_back_early w0 f w :
  fl_committed f = false -> fl_previous_moved f = false ->
  at_paths w (tree w0 destination) (tree w staging) None -> (fl_staging_created f = false -> tree w staging = None) ->
  holds (take_back operations plan f) w (λ _ w', taken_back w0 w') (λ e w', telling e /\ kept w0 w').
Proof.
  intros Hc Hp Hat Hs. unfold take_back. rewrite Hc, Hp.
  apply holds_bind, holds_ret, holds_bind, holds_ret. eapply holds_mono; [by apply drop_staging_holds|done|].
  intros e w' (Ht & s & Hw'). split; [done|]. left. apply Hw'.
Qed.

Lemma take_back_moved w0 w :
  is_Some (tree w0 destination) -> at_paths w None (tree w staging) (tree w0 destination) ->
  holds (take_back operations plan (mkFlags true true false)) w
    (λ _ w', taken_back w0 w') (λ e w', telling e /\ kept w0 w').
Proof.
  intros Hi Hat. unfold take_back; cbn [fl_committed fl_previous_moved fl_staging_created].
  apply holds_bind, holds_ret, holds_bind. eapply holds_mono; [by apply move_back_holds| |].
  - intros [] w1 H1. assert (tree w1 staging = tree w staging) as Es by apply H1. rewrite <- Es in H1.
    eapply holds_mono; [by apply drop_staging_holds|done|].
    intros e w' (Ht & s & Hw'). split; [done|]. left. apply Hw'.
  - intros e w1 [Ht H1]. split; [done|]. right. apply H1.
Qed.

Lemma take_back_late w0 e0 w :
  late_failure w0 e0 w ->
  holds (take_back operations plan (mkFlags false true true)) w
    (λ _ w', at_paths w' (tree w previous) None None) (λ e w', telling e).
Proof.
  intros (_ & Hi & w1 & t & Hat1 & _ & Hr).
  assert (at_paths w (Some t) None (tree w previous)) as Hat.
  { pose proof (law_remove previous w1 (proj1 Hat1)) as H. unfold holds in H. rewrite Hr in H.
    eapply only_previous; [apply H|exact Hat1]. }
  unfold take_back; cbn [fl_committed fl_previous_moved fl_staging_created]. apply holds_bind.
  eapply when_exists_holds; [exact Hat| |intros _ _ w2 _ Hat2|done].
  { intros [|H]; [done|]. by rewrite (proj1 (proj2 Hat)) in H. }
  eapply holds_mono; [apply law_remove, Hat2| |by intros e w3 [_ ?]].
  intros [] w3 [Ho Hn]. pose proof (only_destination _ _ _ _ _ Ho Hat2) as Hat3. rewrite Hn in Hat3.
  apply holds_bind. destruct (tree w previous) as [x|].
  - eapply holds_mono; [by apply move_back_holds| |by intros e w4 [? _]]. intros [] w4 H4. by apply holds_ret.
  - eapply when_exists_holds; [exact Hat3| | |done].
    + intros _ w4 H4. by apply holds_ret.
    + intros _ [y Hy]. by rewrite (proj2 (proj2 (proj2 Hat3))) in Hy.
Qed.

(** What a restore that failed with [e0] at [f0] and [w1] leaves behind. *)
Definition undone (w0 : W) (e0 : exn) (f0 : Progress) (w1 : W) (e : exn) (w : W) : Prop :=
  taken_back w0 w
  \/ (exists message, e = RestoreError RestoreErrorCode.RollbackIncomplete message) /\ kept w0 w
  \/ f0 = mkFlags false true true /\ late_failure w0 e0 w1
      /\ ((e = e0 /\ at_paths w (tree w1 previous) None None)
          \/ exists message, e = RestoreError RestoreErrorCode.RollbackIncomplete message).

Lemma handle_failure_holds w0 e f w :
  failed w0 e (f, w) ->
  holds (handle_failure operations plan e f) w (λ _ _, False) (undone w0 e f w).
Proof.
  intros Hf. unfold handle_failure, holds.
  assert (holds (take_back operations plan f) w (λ _ w', undone w0 e f w e w')
    (λ e' w', telling e' /\ forall m, undone w0 e f w (RestoreError RestoreErrorCode.RollbackIncomplete m) w')) as H.
  { destruct Hf as [(Hc & Hp & Hat & Hs)|[(-> & Hi & Hat)|(-> & Hl)]]; (eapply holds_mono;
      [first [by apply take_back_early|by apply take_back_moved|by eapply take_back_late]| |]).
    - intros [] w' H. by left.
    - intros e' w' [Ht Hk]. split; [done|]. intros m. right; left. split; [by eexists|done].
    - intros [] w' H. by left.
    - intros e' w' [Ht Hk]. split; [done|]. intros m. right; left. split; [by eexists|done].
    - intros [] w' H. right; right. split; [done|]. split; [done|]. by left.
    - intros e' w' Ht. split; [done|]. intros m. right; right. split; [done|]. split; [done|]. right. by eexists. }
  unfold holds in H. destruct (take_back operations plan f w) as [[u|e'] w']; [done|].
  destruct H as [[Hstd Hw] Hu]. rewrite Hstd. cbn [negb]. destruct (exn_what e'); [done|]. apply Hu.
Qed.

(** The first checks of a run: whether it is cancelled and whether artifacts are there. *)
Definition first_checks : SE W bool :=
  throw_if_cancelled token ≫= λ _, artifacts_exist operations plan.

(** The run that began in [w0] and ended with [e] in [w] failed late: its own steps, taken after
    the first checks, ended with the failed removal of the replaced tree ([e1] in [w1]), its
    handler with [e] in [w].  What the removal had left of the replaced tree is then back at the
    destination, and nothing beside it; or the exception says that the roll back is incomplete. *)
Definition ended_late (w0 : W) (e : exn) (w : W) : Prop :=
  exists w2 e1 w1,
    first_checks w0 = (Ok false, w2)
    /\ restore_steps operations plan token progress phase (mkFlags false false false, w2)
       = (Throw e1, (mkFlags false true true, w1))
    /\ handle_failure operations plan e1 (mkFlags false true true) w1 = (Throw e, w)
    /\ late_failure w0 e1 w1
    /\ ((e = e1 /\ at_paths w (tree w1 previous) None None)
        \/ exists message, e = RestoreError RestoreErrorCode.RollbackIncomplete message).

(** The artifacts are looked for, and nothing is touched. *)
Lemma artifacts_holds w :
  sighted w ->
  holds (artifacts_exist operations plan) w
    (λ b w', only tree apart sighted [] w w' /\ (b = false -> tree w staging = None /\ tree w previous = None))
    (λ _ w', only tree apart sighted [] w w').
Proof.
  intros Hs. unfold artifacts_exist. apply holds_bind. eapply holds_mono; [apply law_exists| |by intros e w' [? _]].
  intros [] w1 (Ho & _ & Hf); [by apply holds_ret|]. specialize (Hf eq_refl Hs).
  eapply holds_mono; [apply law_exists| |].
  - intros b w2 (Ho2 & _ & Hf2). split; [|intros ->; split; [done|]].
    + split; [intros; apply Ho2; by apply Ho|]. intros q _. by rewrite (proj2 Ho2), (proj2 Ho).
    + rewrite <- (proj2 Ho) by done. apply Hf2; [done|]. by apply Ho.
  - intros e w2 [Ho2 _]. split; [intros; apply Ho2; by apply Ho|]. intros q _. by rewrite (proj2 Ho2), (proj2 Ho).
Qed.

(** The trees of the transaction are what they were. *)
Definition untouched (w0 w : W) : Prop :=
  tree w destination = tree w0 destination /\ tree w staging = tree w0 staging /\ tree w previous = tree w0 previous.

Lemma first_checks_hold w0 :
  sighted w0 ->
  holds first_checks w0
    (λ b w2, only tree apart sighted [] w0 w2 /\ (b = false -> tree w2 staging = None /\ tree w2 previous = None))
    (λ _ w2, only tree apart sighted [] w0 w2).
Proof.
  intros Hs. assert (forall w w', only tree apart sighted [] w w' -> only tree apart sighted [] w0 w ->
    only tree apart sighted [] w0 w') as Htr.
  { intros w w' H1 H2. split; [intros; apply H1; by apply H2|]. intros q _. by rewrite (proj2 H1), (proj2 H2). }
  unfold first_checks. apply holds_bind, cancelled_holds; [|done]. intros _ w1 H1.
  eapply holds_mono; [apply artifacts_holds; by apply H1| |by intros e w' H; apply (Htr w1)].
  intros b w2 [H2 Hf]. split; [by apply (Htr w1)|]. intros ->.
  rewrite !(proj2 H2) by done. by apply Hf.
Qed.

Lemma execute_eq w0 :
  execute operations plan token progress phase w0 =
    (first_checks ≫= λ artifacts : bool,
      if artifacts
      then se_throw (RestoreError RestoreErrorCode.DestinationUnsafe "restore transaction artifacts already exist")
      else λ w, match restore_steps operations plan token progress phase (mkFlags false false false, w) with
                | (Ok result, (_, w)) => (Ok result, w)
                | (Throw failure, (f, w)) => handle_failure operations plan failure f w
                end) w0.
Proof.
  unfold execute, first_checks. rewrite !se_bind_eq. by destruct (throw_if_cancelled token w0) as [[]].
Qed.

Lemma execute_holds w0 :
  sighted w0 ->
  holds (execute operations plan token progress phase) w0 (restored w0)
    (λ e w', untouched w0 w' \/ taken_back w0 w'
       \/ (exists message, e = RestoreError RestoreErrorCode.RollbackIncomplete message) /\ kept w0 w'
       \/ ended_late w0 e w').
Proof.
  intros Hs. assert (forall w', only tree apart sighted [] w0 w' -> untouched w0 w') as Hu.
  { intros w' [_ H]. unfold untouched. by rewrite !H. }
  pose proof (first_checks_hold w0 Hs) as Hchecks. unfold holds in Hchecks |- *.
  rewrite execute_eq, se_bind_eq. destruct (first_checks w0) as [[[]|e] w2] eqn:E2.
  { left. apply Hu, Hchecks. }
  2: { left. by apply Hu. }
  destruct Hchecks as [H02 Hf]. destruct (Hf eq_refl) as [Est Epr].
  assert (at_paths w2 (tree w2 destination) None None) as Hat2 by (split; [by apply H02|done]).
  assert (forall q, tree w2 q = tree w0 q) as E02 by (intros q; by apply H02).
  pose proof (restore_steps_holds w2 Hat2) as Hst. unfold holds in Hst.
  destruct (restore_steps operations plan token progress phase _) as [[r|e] [f w3]] eqn:E3.
  - unfold restored in Hst |- *. by rewrite !E02 in Hst.
  - apply handle_failure_holds in Hst. unfold holds in Hst.
    destruct (handle_failure operations plan e f w3) as [[r|e'] w4] eqn:E4; [done|]. right.
    unfold undone, taken_back, kept, late_failure in *. setoid_rewrite E02 in Hst.
    destruct Hst as [Hst|[Hst|(-> & Hl & Hst)]]; [by left|right; by left|]. right; right.
    exists w2, e, w3. done.
Qed.

(** A run whose own steps failed in the removal of the replaced tree: the copy was in place then,
    and is gone at the end unless the roll back fails. *)
Lemma execute_late w0 w2 e1 w1 :
  sighted w0 -> first_checks w0 = (Ok false, w2) ->
  restore_steps operations plan token progress phase (mkFlags false false false, w2)
    = (Throw e1, (mkFlags false true true, w1)) ->
  exists e w t, execute operations plan token progress phase w0 = (Throw e, w)
    /\ tree w1 destination = Some t /\ faithful (tree w0 source) t
    /\ ((e = e1 /\ at_paths w (tree w1 previous) None None)
        \/ exists message, e = RestoreError RestoreErrorCode.RollbackIncomplete message).
Proof.
  intros Hs E2 E3. pose proof (first_checks_hold w0 Hs) as Hchecks. unfold holds in Hchecks.
  rewrite E2 in Hchecks. destruct Hchecks as [H02 Hf]. destruct (Hf eq_refl) as [Est Epr].
  assert (at_paths w2 (tree w2 destination) None None) as Hat2 by (split; [by apply H02|done]).
  pose proof (restore_steps_holds w2 Hat2) as Hst. unfold holds in Hst. rewrite E3 in Hst.
  destruct Hst as [(Hc & _)|[(Hc & _)|(_ & Hl)]]; [done|done|].
  pose proof Hl as (_ & _ & w3 & t & Hat3 & Hfa & Hrm).
  pose proof (law_remove previous w3 (proj1 Hat3)) as Hon. unfold holds in Hon. rewrite Hrm in Hon.
  pose proof (only_previous _ _ _ _ _ (proj1 Hon) Hat3) as Hat1.
  pose proof (take_back_late w2 e1 w1 Hl) as Htb. unfold holds in Htb.
  rewrite execute_eq, se_bind_eq, E2, E3. unfold handle_failure.
  rewrite (proj2 H02) in Hfa by done.
  destruct (take_back operations plan (mkFlags false true true) w1) as [[[]|e'] w4].
  - exists e1, w4, t. split; [done|]. split; [apply Hat1|]. split; [done|]. by left.
  - destruct Htb as [Hstd Hne]. rewrite Hstd. cbn [negb].
    destruct (exn_what e') as [|c s]; [done|]. do 2 eexists. exists t.
    split; [done|]. split; [apply Hat1|]. split; [done|]. right. by eexists.
Qed.

End guarantees.

(** ** Theorems: plans *)

(** A plan that is made restores from below the snapshot that was asked for, whose identity it
    records, and keeps the promises of [planned]: in particular the source is reached without
    symbolic links and what the transaction writes beside the destination cannot overlap with it. *)
Theorem plan_restore_confined view catalog request plan :
  plan_restore view catalog request = Ok plan ->
  exists snapshot, catalog_snapshot catalog (rq_snapshot_id request) = Ok snapshot
    /\ pl_snapshot_uuid plan = cs_uuid snapshot
    /\ below (rc_root catalog /./ rp_value (cs_repository_path snapshot)) (pl_source plan)
    /\ planned view request plan.
Proof.
  unfold plan_restore. intros (snapshot & Hs & H)%res_bind_Ok. exists snapshot. split; [done|].
  apply build_plan_Ok in H as (-> & Hu & Hp). split; [done|]. split; [|done]. apply below_relative.
Qed.

Module PlanExample.
Import CatalogExample.

(** The catalogue's example with a place to restore to. *)
Definition ex_places (p : path) : Errno + FileKind :=
  if bool_decide (p ∈ ["/"; "/home"; "/home/"; "/srv"]) then inr KDirectory else ex_look p.

Definition ex_place_view : View := mkView ex_places ex_places (λ _, None) (λ _, "") (λ _, inr []) (λ _, None).

Definition ex_request (destination : path) (policy : ExistingDestinationPolicy) : RestoreRequest :=
  mkRequest "t1" "b" ex_notes destination Files policy.

Definition ex_plan : res RestorePlan := plan_restore ex_place_view ex_catalog (ex_request "/srv/notes" Fail).

Lemma plan_restore_confined_witness :
  exists plan, ex_plan = Ok plan /\ pl_source plan = "/mnt/s/b/notes"
    /\ pl_staging plan = "/srv/.btrfs-backup-restore-t1.staging"
    /\ planned ex_place_view (ex_request "/srv/notes" Fail) plan.
Proof.
  destruct ex_plan as [plan|e] eqn:E; [|exfalso; vm_compute in E; discriminate E].
  exists plan. split; [done|].
  destruct (plan_restore_confined _ _ _ _ E) as (snapshot & _ & _ & _ & Hp).
  vm_compute in E. injection E as <-. split; [reflexivity|]. split; [reflexivity|]. exact Hp.
Defined.

(** The check that a destination is not [/home] can be passed with a separator at its end:
    the plan then replaces [/home] itself, and what it stages lies within the destination. *)
Theorem home_destination_accepted :
  exists plan, plan_restore ex_place_view ex_catalog (ex_request "/home/" Replace) = Ok plan
    /\ pl_destination plan = "/home/" /\ pl_destination_exists plan = true
    /\ pp_names (pp_parse (pl_staging plan))
       = pp_names (pp_parse (pl_destination plan)) ++ [".btrfs-backup-restore-t1.staging"]
    /\ is_ok (plan_restore ex_place_view ex_catalog (ex_request "/home" Replace)) = false.
Proof. eexists. split; [vm_compute; reflexivity|]. split_and!; vm_compute; reflexivity. Qed.

End PlanExample.
