(* ===== verification/PosixRestore.v ===== *)
(** * Restoring files (src/platform/linux/restore/PosixRestoreOperations.cpp)

    The operations of a restore on a file system: measuring, creating the staging place, copying
    with its verification, moving and removing trees, and the proof that they keep the laws that
    the executor relies on.

    The file system is a map from the names of an absolute path to what is there.  Any call may
    fail; a transfer may be short or interrupted; what the storage keeps of a write is a function
    of the write, so that verification has something to find.  A symbolic link is a leaf: the
    code refuses a path through one before it uses the path.  The exception are the links of
    [/proc] that a pinned descriptor goes through; they are entries marked [en_pinned], which
    [lstat] shows as links and every other call as what they lead to. *)

From S2P Require Import Prelude Errors Identifiers FsPath ProfileArtifacts FileSystem RestoreCatalog RestoreEngine.

Open Scope Z_scope.
Open Scope path_scope.

(** ** Names and entries *)

Abbreviation Key := (list string).

(** The names of a path; a dot stays where it is. *)
Definition key (p : path) : Key := List.filter (λ c, negb (String.eqb c ".")) (pp_names (pp_parse p)).

(** What is below [k]: [Some rest] when [k'] is [k ++ rest]. *)
Fixpoint strip (k k' : Key) : option Key :=
  match k, k' with
  | [], _ => Some k'
  | x :: k, y :: k' => if String.eqb x y then strip k k' else None
  | _ :: _, [] => None
  end.

Inductive EntryKind :=
| ERegular (data : string) | EDirectory | ESubvolume | ELink | ESpecial.

#[export] Instance EntryKind_eq_dec : EqDecision EntryKind.
Proof. solve_decision. Defined.

Record Entry := mkEntry {
  en_kind : EntryKind;
  en_mode : Z;
  en_uid : Z;
  en_gid : Z;
  en_mtime : Z;
  en_xattrs : list (string * string);
  en_dev : Z;
  en_pinned : bool;
}.

#[export] Instance Entry_eq_dec : EqDecision Entry.
Proof. solve_decision. Defined.

#[export] Instance eta_Entry : Eta Entry := λ e,
  mkEntry (en_kind e) (en_mode e) (en_uid e) (en_gid e) (en_mtime e) (en_xattrs e) (en_dev e) (en_pinned e).

Definition is_dir (e : Entry) : bool :=
  match en_kind e with EDirectory | ESubvolume => true | _ => false end.

Definition file_kind (e : Entry) : FileKind :=
  match en_kind e with
  | ERegular _ => KRegular
  | EDirectory | ESubvolume => KDirectory
  | ELink => KSymlink
  | ESpecial => KOther
  end.

Abbreviation Entries := (gmap Key Entry).

(** ** Calls *)

Inductive Sys :=
| SExists (p : path) | SLstat (p : path) | SStat (p : path) | SReadDir (p : path) | SSpace (p : path)
| SOpenRead (p : path) | SOpenWrite (p : path) | SRead (p : path) | SWrite (p : path) | SFsync (p : path)
| SClose (p : path) | SVerifyOpen (p : path) | SVerifyRead (p : path)
| SListXattr (p : path) | SGetXattr (p : path) (name : string) | SSetXattr (p : path) (name : string)
| SChmod (p : path) | SChown (p : path) | SReadTime (p : path) | SSetTime (p : path)
| SMkdir (p : path) | SSubvolumeCreate (p : path) | SSubvolumeDelete (p : path) | SIsSubvolume (p : path)
| SRename (from to : path) | SUnlink (k : Key).

(** What does not change: the faults to come, how much each transfer moves and how often it is
    interrupted, what the storage keeps of a write and of a mode, the clock of the file system, the open
    descriptors, the free space and the user the process runs as. *)
Record Machine := mkMachine {
  m_faults : nat -> Sys -> option Errno;
  m_transfer : nat -> nat;
  m_interrupted : nat -> nat;
  m_stored : nat -> string -> string;
  m_kept_mode : nat -> Z -> Z;
  m_now : nat -> Z;
  m_fds : Z -> option FileKind;
  m_available : path -> Z;
  m_euid : Z;
  m_egid : Z;
  m_umask : Z;
}.

Record RW := mkRW { rw_machine : Machine; rw_entries : Entries; rw_clock : nat }.

#[export] Instance eta_RW : Eta RW := λ w, mkRW (rw_machine w) (rw_entries w) (rw_clock w).

Abbreviation M := (SE RW).

(** A call: it takes its turn, and fails or not. *)
Definition sys (c : Sys) : M (option Errno) := λ w,
  (Ok (m_faults (rw_machine w) (rw_clock w) c), w <| rw_clock := S (rw_clock w) |>).

Definition modify (f : Entries -> Entries) : M unit := λ w, (Ok tt, w <| rw_entries := f (rw_entries w) |>).
Definition machine : M Machine := λ w, (Ok (rw_machine w), w).
Definition look {A} (f : Entries -> A) : M A := λ w, (Ok (f (rw_entries w)), w).

(** The error of looking for something that is not there. *)
Definition missing (es : Entries) (k : Key) : Errno :=
  if existsb (λ n, match es !! take n k with Some e => negb (is_dir e) | None => false end)
       (seq 1 (length k - 1))
  then ENOTDIR else ENOENT.

(** [struct stat] *)
Record Stat := mkStat { s_kind : FileKind; s_mode : Z; s_uid : Z; s_gid : Z; s_dev : Z; s_size : Z }.

Definition stat_of (e : Entry) : Stat :=
  mkStat (file_kind e) (en_mode e) (en_uid e) (en_gid e) (en_dev e)
    match en_kind e with ERegular data => Z.of_nat (String.length data) | _ => 0 end.

(** What [lstat] shows. *)
Definition shown (e : Entry) : Stat :=
  if en_pinned e then mkStat KSymlink 511 0 0 0 0 else stat_of e.

Definition lookup_with (c : Sys) (p : path) (show : Entry -> Stat) : M (Errno + Stat) :=
  sys c ≫= λ fault : option Errno, look (λ es,
    match fault, es !! key p with
    | Some e, _ => inl e
    | None, None => inl (missing es (key p))
    | None, Some e => inr (show e)
    end).

Definition lstat (p : path) : M (Errno + Stat) := lookup_with (SLstat p) p shown.

(** [stat]; an ordinary link leads nowhere. *)
Definition stat (p : path) : M (Errno + Stat) :=
  sys (SStat p) ≫= λ fault : option Errno, look (λ es,
    match fault, es !! key p with
    | Some e, _ => inl e
    | None, None => inl (missing es (key p))
    | None, Some e => if bool_decide (en_kind e = ELink) then inl ENOENT else inr (stat_of e)
    end).

Definition restore_failure {A} (code : RestoreErrorCode.t) (message : string) : M A :=
  se_throw (RestoreError code message).

(** ** Inspecting *)

(** src/platform/linux/restore/PosixRestoreOperations.cpp:36-54 *)
Definition pinned_descriptor (p : path) : M bool := λ w,
  (Ok (is_pinned_descriptor_component
         (mkView (λ _, inl ENOENT) (λ _, inl ENOENT) (m_fds (rw_machine w)) (λ _, "") (λ _, inr []) (λ _, None)) p), w).

(** The loop of [reject_symlink_components]. *)
Fixpoint reject_components (pinned leaf_may_be_missing : bool) (paths : list path) : M unit :=
  match paths with
  | [] => mret tt
  | current :: paths =>
      lstat current ≫= λ answer : Errno + Stat,
      match answer with
      | inl e =>
          if leaf_may_be_missing && bool_decide (e = ENOENT) then mret tt
          else restore_failure RestoreErrorCode.DestinationUnsafe
                 ("could not inspect restore path " +:+ current +:+ ": " +:+ strerror e)
      | inr s =>
          if bool_decide (s_kind s = KSymlink) && negb (pinned_link pinned current)
          then restore_failure RestoreErrorCode.SymlinkRejected
                 ("restore path traverses a symbolic link: " +:+ current)
          else reject_components pinned leaf_may_be_missing paths
      end
  end.

(** src/platform/linux/restore/PosixRestoreOperations.cpp:56-79 *)
Definition reject_symlink_components (p : path) (leaf_may_be_missing : bool) : M unit :=
  pinned_descriptor p ≫= λ pinned : bool,
  reject_components pinned leaf_may_be_missing (prefixes "" (path_elements p)).

(** src/platform/linux/restore/PosixRestoreOperations.cpp:81-93 *)
Definition lstat_or_throw (p : path) : M Stat :=
  (if path_eqb (parent_path p) "/proc/self/fd" then stat p else lstat p) ≫= λ answer : Errno + Stat,
  match answer with
  | inl e => restore_failure RestoreErrorCode.CopyFailed
               ("could not inspect restore path " +:+ p +:+ ": " +:+ strerror e)
  | inr s => mret s
  end.

(** src/platform/linux/restore/PosixRestoreOperations.cpp:104-116 *)
Definition throw_copy_failure {A} (message : string) (e : Errno) : M A :=
  restore_failure (if bool_decide (e = ENOSPC) then RestoreErrorCode.InsufficientSpace
                   else RestoreErrorCode.CopyFailed) (message +:+ ": " +:+ strerror e).

(** A call that fails with [throw_copy_failure]. *)
Definition must (c : Sys) (message : string) : M unit :=
  sys c ≫= λ fault : option Errno,
  match fault with Some e => throw_copy_failure message e | None => mret tt end.

(** A call that fails with [code]. *)
Definition must_code (c : Sys) (code : RestoreErrorCode.t) (message : Errno -> string) : M unit :=
  sys c ≫= λ fault : option Errno,
  match fault with Some e => restore_failure code (message e) | None => mret tt end.

(** ** Measuring *)

(** src/platform/linux/restore/PosixRestoreOperations.cpp:118-122 *)
Definition add_required_bytes (total amount : Z) : Z :=
  if (2 ^ 64 - 1) - total <? amount then 2 ^ 64 - 1 else total + amount.

(** The names in a directory. *)
Definition children (es : Entries) (k : Key) : list string :=
  omap (λ x : Key * Entry, match strip k x.1 with Some [n] => Some n | _ => None end) (map_to_list es).

(** [directory_iterator(p)] *)
Definition read_directory (p : path) : M (list string) :=
  sys (SReadDir p) ≫= λ fault : option Errno,
  match fault with
  | Some e => se_throw (StdException ("filesystem error: directory iterator cannot open directory: " +:+ strerror e))
  | None => look (λ es, children es (key p))
  end.

(** No path is deeper than this. *)
Definition depth (es : Entries) : nat := S (list_max (map (length ∘ fst) (map_to_list es))).

(** [for (child : directory) state = step(child, state);] *)
Fixpoint fold_children {A} (step : string -> A -> M A) (names : list string) (a : A) : M A :=
  match names with
  | [] => mret a
  | name :: names => a ← step name a; fold_children step names a
  end.

Section token.
Context (token : CancellationToken RW).

(** The checks on an entry of the source, before it is measured or copied. *)
Definition check_source (source : path) (device : Z) : M Stat :=
  _ ← throw_if_cancelled token;
  status ← lstat_or_throw source;
  if negb (s_dev status =? device)
  then restore_failure RestoreErrorCode.MountBoundaryRejected
         ("restore source crosses a mount boundary: " +:+ source)
  else if bool_decide (s_kind status = KSymlink)
  then restore_failure RestoreErrorCode.SymlinkRejected ("symbolic links are not restored: " +:+ source)
  else mret status.

Definition unsupported {A} (source : path) : M A :=
  restore_failure RestoreErrorCode.PathInvalid ("unsupported restore entry type: " +:+ source).

(** src/platform/linux/restore/PosixRestoreOperations.cpp:124-156 *)
Fixpoint required_restore_bytes (fuel : nat) (source : path) (device : Z) : M Z :=
  status ← check_source source device;
  match s_kind status with
  | KRegular => mret (if s_size status <? 0 then 0 else s_size status)
  | KDirectory =>
      names ← read_directory source;
      match fuel with
      | O => mret 0
      | S fuel =>
          fold_children (λ name total,
            bytes ← required_restore_bytes fuel (source /./ name) device;
            mret (add_required_bytes total bytes)) names 0
      end
  | _ => unsupported source
  end.

(** [exists(path, error)], which follows links: whether it is there, or the error. *)
Definition exists_following (p : path) : M (Errno + bool) :=
  stat p ≫= λ answer : Errno + Stat,
  mret match answer with
       | inl ENOENT | inl ENOTDIR => inr false
       | inl EOVERFLOW => inr true
       | inl e => inl e
       | inr _ => inr true
       end.

(** src/platform/linux/restore/PosixRestoreOperations.cpp:158-173 *)
Fixpoint existing_destination_ancestor (fuel : nat) (p : path) : M path :=
  match fuel with
  | O => mret p
  | S fuel =>
      if str_empty p then mret "/"
      else
        exists_following p ≫= λ answer : Errno + bool,
        match answer with
        | inl e => restore_failure RestoreErrorCode.DestinationUnsafe
                     ("could not inspect restore destination: " +:+ strerror e)
        | inr true => mret p
        | inr false => if path_eqb (parent_path p) p then mret p
                       else existing_destination_ancestor fuel (parent_path p)
        end
  end.

(** src/platform/linux/restore/PosixRestoreOperations.cpp:396-425 *)
Definition ensure_sufficient_space (source destination : path) : M unit :=
  _ ← reject_symlink_components source false;
  _ ← reject_symlink_components (parent_path destination) true;
  status ← lstat_or_throw source;
  look depth ≫= λ fuel : nat,
  required ← required_restore_bytes fuel source (s_dev status);
  ancestor ← existing_destination_ancestor (S (length (pp_names (pp_parse destination)))) (parent_path destination);
  sys (SSpace ancestor) ≫= λ fault : option Errno,
  match fault with
  | Some e => restore_failure RestoreErrorCode.DestinationUnsafe
                ("could not inspect free space at restore destination: " +:+ strerror e)
  | None =>
      machine ≫= λ m : Machine,
      if m_available m ancestor <? required
      then restore_failure RestoreErrorCode.InsufficientSpace
             ("restore requires " +:+ pretty required +:+ " bytes but only " +:+ pretty (m_available m ancestor)
              +:+ " bytes are available")
      else mret tt
  end.

(** ** Changing entries *)

Definition remove_tree (k : Key) (es : Entries) : Entries :=
  filter (λ x, strip k x.1 = None) es.

Definition touch (now : Z) (k : Key) (es : Entries) : Entries :=
  alter (λ e, e <| en_mtime := now |>) (removelast k) es.

(** A new entry; the directory it is in has changed. *)
Definition add_entry (now : Z) (k : Key) (e : Entry) (es : Entries) : Entries := <[k := e]> (touch now k es).

Definition parent_dev (k : Key) (es : Entries) : Z :=
  match es !! removelast k with Some e => en_dev e | None => 0 end.

(** Whether something can be created at [k]: what is wrong with the directory. *)
Definition parent_error (k : Key) (es : Entries) : option Errno :=
  match es !! removelast k with
  | Some e => if is_dir e then None else Some ENOTDIR
  | None => Some (missing es k)
  end.

(** A new entry of the process. *)
Definition create (p : path) (kind : EntryKind) (mode : Z) : M unit := λ w,
  let m := rw_machine w in
  (Ok tt, w <| rw_entries := add_entry (m_now m (rw_clock w)) (key p)
     (mkEntry kind (Z.land mode (Z.lnot (m_umask m))) (m_euid m) (m_egid m) (m_now m (rw_clock w)) []
        (parent_dev (key p) (rw_entries w)) false) (rw_entries w) |>).

(** [create_directory(p, error)]: a directory that is there is no error. *)
Definition create_directory (p : path) : M (option Errno) :=
  sys (SMkdir p) ≫= λ fault : option Errno,
  look (λ es, (es !! key p, parent_error (key p) es)) ≫= λ x : option Entry * option Errno,
  match fault, x with
  | Some e, _ => mret (Some e)
  | None, (Some e, _) => mret (if is_dir e then None else Some EEXIST)
  | None, (None, Some e) => mret (Some e)
  | None, (None, None) => _ ← create p EDirectory 511; mret None
  end.

(** [create_directories(p, error)], the topmost first. *)
Fixpoint create_directories (paths : list path) : M (option Errno) :=
  match paths with
  | [] => mret None
  | p :: paths =>
      create_directory p ≫= λ error : option Errno,
      match error with
      | Some e => mret (Some e)
      | None => create_directories paths
      end
  end.

(** The code of a failure to create. *)
Definition creation_code (e : Errno) (otherwise : RestoreErrorCode.t) : RestoreErrorCode.t :=
  if bool_decide (e = ENOSPC) then RestoreErrorCode.InsufficientSpace else otherwise.

(** src/platform/linux/restore/PosixRestoreOperations.cpp:427-456 *)
Definition prepare_copy_root (source p : path) : M unit :=
  _ ← reject_symlink_components source false;
  _ ← reject_symlink_components (parent_path p) true;
  status ← lstat_or_throw source;
  create_directories (prefixes "" (path_elements (parent_path p))) ≫= λ error : option Errno,
  match error with
  | Some e => restore_failure (creation_code e RestoreErrorCode.DestinationUnsafe)
                ("could not create restore parent: " +:+ parent_path p)
  | None =>
      _ ← reject_symlink_components (parent_path p) false;
      if bool_decide (s_kind status = KDirectory) then
        create_directory p ≫= λ error : option Errno,
        match error with
        | Some e => restore_failure (creation_code e RestoreErrorCode.DestinationUnsafe)
                      ("could not create restore staging directory: " +:+ p)
        | None => mret tt
        end
      else mret tt
  end.

(** [btrfs_util_subvolume_create] *)
Definition subvolume_create (p : path) : M (option Errno) :=
  sys (SSubvolumeCreate p) ≫= λ fault : option Errno,
  look (λ es, (es !! key p, parent_error (key p) es)) ≫= λ x : option Entry * option Errno,
  match fault, x with
  | Some e, _ => mret (Some e)
  | None, (Some _, _) => mret (Some EEXIST)
  | None, (None, Some e) => mret (Some e)
  | None, (None, None) => _ ← create p ESubvolume 511; mret None
  end.

(** src/platform/linux/restore/PosixRestoreOperations.cpp:458-482 *)
Definition create_subvolume_root (p : path) : M unit :=
  _ ← reject_symlink_components (parent_path p) true;
  create_directories (prefixes "" (path_elements (parent_path p))) ≫= λ error : option Errno,
  match error with
  | Some e => restore_failure (creation_code e RestoreErrorCode.DestinationUnsafe)
                ("could not create subvolume parent " +:+ parent_path p +:+ ": " +:+ strerror e)
  | None =>
      _ ← reject_symlink_components (parent_path p) false;
      subvolume_create p ≫= λ error : option Errno,
      match error with
      | Some e => restore_failure (creation_code e RestoreErrorCode.CopyFailed)
                    ("could not create restore subvolume " +:+ p +:+ ": " +:+ strerror e)
      | None => mret tt
      end
  end.
(** ** Copying *)

Fixpoint str_take (n : nat) (s : string) : string :=
  match n, s with
  | S n, String c s => String c (str_take n s)
  | _, _ => ""
  end.

Fixpoint str_drop (n : nat) (s : string) : string :=
  match n, s with
  | S n, String _ s => str_drop n s
  | _, _ => s
  end.

Definition buffer_size : nat := Z.to_nat 65536.

Definition update (p : path) (f : Entry -> Entry) : M unit := modify (alter f (key p)).

Definition set_data (f : string -> string) (e : Entry) : Entry :=
  match en_kind e with ERegular data => e <| en_kind := ERegular (f data) |> | _ => e end.

Context (progress : option (RestoreProgress -> M unit)).

(** [if (progress) progress({statistics, source});] *)
Definition report_progress (statistics : RestoreStatistics) (source : path) : M unit :=
  match progress with Some sink => sink (mkProgress statistics source) | None => mret tt end.

(** The call that moves the next bytes, and how many. *)
Definition turn : M (nat * Machine) := λ w, (Ok (rw_clock w, rw_machine w), w).

(** The loop that writes a buffer; an interrupted call is repeated. *)
Fixpoint write_all (fuel : nat) (destination : path) (rest : string) : M unit :=
  match fuel with
  | O => mret tt
  | S fuel =>
      if str_empty rest then mret tt
      else
        turn ≫= λ t : nat * Machine,
        let count := Nat.min (String.length rest) (m_transfer t.2 t.1) in
        _ ← must (SWrite destination) ("could not write restore file " +:+ destination);
        if (count =? 0)%nat then throw_copy_failure ("could not write restore file " +:+ destination) EIO
        else
          _ ← update destination
                (set_data (λ data, data +:+ m_stored t.2 t.1 (str_take count rest)));
          write_all fuel destination (str_drop count rest)
  end.

Fixpoint times (n : nat) (m : M unit) : M unit :=
  match n with O => mret tt | S n => _ ← m; times n m end.

Definition add_bytes (count : nat) (statistics : RestoreStatistics) : RestoreStatistics :=
  mkStatistics (st_files statistics) (st_directories statistics)
    ((st_bytes statistics + Z.of_nat count) mod 2 ^ 64).
Definition add_file (statistics : RestoreStatistics) : RestoreStatistics :=
  mkStatistics ((st_files statistics + 1) mod 2 ^ 64) (st_directories statistics) (st_bytes statistics).
Definition add_directory (statistics : RestoreStatistics) : RestoreStatistics :=
  mkStatistics (st_files statistics) ((st_directories statistics + 1) mod 2 ^ 64) (st_bytes statistics).

(** The loop that reads and writes; a read that is interrupted is repeated after another look at
    the token. src/platform/linux/restore/PosixRestoreOperations.cpp:293-322 *)
Fixpoint copy_data (fuel : nat) (source destination : path) (rest : string) (statistics : RestoreStatistics) :
    M RestoreStatistics :=
  match fuel with
  | O => mret statistics
  | S fuel =>
      turn ≫= λ t : nat * Machine,
      _ ← times (S (m_interrupted t.2 t.1)) (throw_if_cancelled token);
      _ ← must (SRead source) ("could not read restore file " +:+ source);
      if str_empty rest then mret statistics
      else
        let count := Nat.min (Nat.min buffer_size (String.length rest)) (Nat.max 1 (m_transfer t.2 t.1)) in
        _ ← write_all count destination (str_take count rest);
        let statistics := add_bytes count statistics in
        _ ← report_progress statistics source;
        copy_data fuel source destination (str_drop count rest) statistics
  end.

(** The file that is written: created, or emptied when it is there. *)
Definition open_output (p : path) : M unit :=
  let failure := throw_copy_failure ("could not create restore file " +:+ p) in
  sys (SOpenWrite p) ≫= λ fault : option Errno,
  look (λ es, (es !! key p, parent_error (key p) es)) ≫= λ x : option Entry * option Errno,
  match fault, x with
  | Some e, _ => failure e
  | None, (Some e, _) =>
      match en_kind e with
      | ERegular _ => update p (set_data (λ _, ""))
      | EDirectory | ESubvolume => failure (EOTHER "Is a directory")
      | ELink => failure (EOTHER "Too many levels of symbolic links")
      | ESpecial => failure (EOTHER "No such device or address")
      end
  | None, (None, Some e) => failure e
  | None, (None, None) => create p (ERegular "") 384
  end.

(** The text of a file, as a stream reads it. *)
Definition file_data (es : Entries) (p : path) : string :=
  match es !! key p with
  | Some e => match en_kind e with ERegular data => data | _ => "" end
  | None => ""
  end.

(** A stream: what is left to read, whether it is good, whether a read has failed. *)
Record Stream := mkStream { sm_rest : string; sm_good : bool; sm_bad : bool }.

Definition open_stream (p : path) : M Stream :=
  sys (SVerifyOpen p) ≫= λ fault : option Errno,
  look (λ es, mkStream (file_data es p) (match fault with Some _ => false | None => true end) false).

(** [stream.read(buffer, size)]: what it read, and the stream after. *)
Definition read_block (p : path) (s : Stream) : M (string * Stream) :=
  if negb (sm_good s) then mret ("", s)
  else
    sys (SVerifyRead p) ≫= λ fault : option Errno,
    match fault with
    | Some _ => mret ("", mkStream (sm_rest s) false true)
    | None => mret (str_take buffer_size (sm_rest s),
                    mkStream (str_drop buffer_size (sm_rest s))
                      (buffer_size <=? String.length (sm_rest s))%nat false)
    end.

Definition verification_failed {A} (message : string) : M A :=
  restore_failure RestoreErrorCode.VerificationFailed message.

(** The loop of [verify_regular_file]. *)
Fixpoint verify_blocks (fuel : nat) (source destination : path) (left right : Stream) : M unit :=
  if negb (sm_good left || sm_good right) then
    if sm_bad left || sm_bad right
    then verification_failed ("could not verify restored file: " +:+ destination) else mret tt
  else
    match fuel with
    | O => verification_failed ("restored file content differs: " +:+ destination)
    | S fuel =>
        _ ← throw_if_cancelled token;
        read_block source left ≫= λ l : string * Stream,
        read_block destination right ≫= λ r : string * Stream,
        if negb (String.eqb l.1 r.1)
        then verification_failed ("restored file content differs: " +:+ destination)
        else verify_blocks fuel source destination l.2 r.2
    end.

(** src/platform/linux/restore/PosixRestoreOperations.cpp:175-201 *)
Definition verify_regular_file (source destination : path) : M unit :=
  open_stream source ≫= λ left : Stream,
  open_stream destination ≫= λ right : Stream,
  verify_blocks (S (String.length (sm_rest left) + String.length (sm_rest right))) source destination left right.

Definition set_xattr (name value : string) (l : list (string * string)) : list (string * string) :=
  (name, value) :: filter (λ x, x.1 <> name) l.

(** One attribute. *)
Definition copy_xattr (source destination : path) (x : string * string) : M unit :=
  let '(name, value) := x in
  _ ← must_code (SGetXattr source name) RestoreErrorCode.CopyFailed
        (λ _, "could not read extended attribute " +:+ name);
  _ ← (if str_empty value then mret tt
       else must_code (SGetXattr source name) RestoreErrorCode.CopyFailed
              (λ _, "extended attribute changed while restoring: " +:+ name));
  _ ← must (SSetXattr destination name) ("could not preserve extended attribute " +:+ name);
  update destination (λ e, e <| en_xattrs := set_xattr name value (en_xattrs e) |>).

Fixpoint copy_xattrs (source destination : path) (l : list (string * string)) : M unit :=
  match l with
  | [] => mret tt
  | x :: l => _ ← copy_xattr source destination x; copy_xattrs source destination l
  end.

Definition xattrs_of (es : Entries) (p : path) : list (string * string) :=
  match es !! key p with Some e => en_xattrs e | None => [] end.

(** src/platform/linux/restore/PosixRestoreOperations.cpp:203-239 *)
Definition copy_extended_attributes (source destination : path) : M unit :=
  _ ← must_code (SListXattr source) RestoreErrorCode.CopyFailed
        (λ e, "could not list extended attributes for " +:+ source +:+ ": " +:+ strerror e);
  look (λ es, xattrs_of es source) ≫= λ attributes : list (string * string),
  _ ← (if bool_decide (attributes = []) then mret tt
       else must_code (SListXattr source) RestoreErrorCode.CopyFailed
              (λ _, "extended attributes changed while restoring: " +:+ source));
  copy_xattrs source destination attributes.

(** The effect of [chown]: of a file that is not a directory, the set-user-ID bit is cleared, the
    set-group-ID bit too when the group may execute it, and its capabilities are dropped. *)
Definition owned_by (uid gid : Z) (e : Entry) : Entry :=
  let e' := e <| en_uid := uid |> <| en_gid := gid |> in
  if is_dir e then e'
  else
    let mode := Z.ldiff (en_mode e) 2048 in
    e' <| en_mode := if Z.testbit mode 3 then Z.ldiff mode 1024 else mode |>
       <| en_xattrs := filter (λ x, x.1 <> "security.capability") (en_xattrs e) |>.

(** [file_time_type::min()], which reading a time gives when it fails. *)
Definition time_min : Z := - 2 ^ 63.

Definition mtime_of (es : Entries) (p : path) : Z :=
  match es !! key p with Some e => en_mtime e | None => time_min end.

Definition could_not (what : string) (p : path) (e : Errno) : string :=
  "could not preserve " +:+ what +:+ " for " +:+ p +:+ ": " +:+ strerror e.

(** src/platform/linux/restore/PosixRestoreOperations.cpp:241-272 *)
Definition preserve_metadata (source destination : path) : M unit :=
  status ← lstat_or_throw source;
  _ ← copy_extended_attributes source destination;
  turn ≫= λ t : nat * Machine,
  let m := t.2 in
  _ ← must_code (SChmod destination) RestoreErrorCode.CopyFailed (could_not "mode" destination);
  _ ← update destination (λ e, e <| en_mode := m_kept_mode m t.1 (Z.land (s_mode status) 4095) |>);
  _ ← (if m_euid m =? 0 then
         _ ← must_code (SChown destination) RestoreErrorCode.CopyFailed (could_not "ownership" destination);
         update destination (owned_by (s_uid status) (s_gid status))
       else mret tt);
  sys (SReadTime source) ≫= λ fault : option Errno,
  look (λ es, match fault with Some _ => time_min | None => mtime_of es source end) ≫= λ time : Z,
  _ ← must_code (SSetTime destination) RestoreErrorCode.CopyFailed
        (λ _, "could not preserve modification time for " +:+ destination);
  _ ← update destination (λ e, e <| en_mtime := time |>);
  restored ← lstat_or_throw destination;
  if negb (Z.land (s_mode restored) 4095 =? Z.land (s_mode status) 4095)
     || ((m_euid m =? 0) && (negb (s_uid restored =? s_uid status) || negb (s_gid restored =? s_gid status)))
  then verification_failed ("restored metadata differs: " +:+ destination)
  else mret tt.

(** src/platform/linux/restore/PosixRestoreOperations.cpp:274-332 *)
Definition copy_regular_file (source destination : path) (statistics : RestoreStatistics) : M RestoreStatistics :=
  _ ← must (SOpenRead source) ("could not open restore file " +:+ source);
  _ ← open_output destination;
  look (λ es, file_data es source) ≫= λ data : string,
  statistics ← copy_data (S (String.length data)) source destination data statistics;
  _ ← must (SFsync destination) ("could not synchronize restore file " +:+ destination);
  _ ← must (SClose destination) ("could not close restore file " +:+ destination);
  _ ← preserve_metadata source destination;
  _ ← verify_regular_file source destination;
  let statistics := add_file statistics in
  _ ← report_progress statistics source;
  mret statistics.

(** src/platform/linux/restore/PosixRestoreOperations.cpp:334-383 *)
Fixpoint copy_entry (fuel : nat) (source destination : path) (device : Z) (statistics : RestoreStatistics) :
    M RestoreStatistics :=
  status ← check_source source device;
  match s_kind status with
  | KRegular => copy_regular_file source destination statistics
  | KDirectory =>
      create_directory destination ≫= λ create_error : option Errno,
      match create_error with
      | Some ((ENOSPC | ENOENT | ENOTDIR | EOVERFLOW | EIO | EOTHER _) as e) =>
          restore_failure (creation_code e RestoreErrorCode.CopyFailed)
            ("could not create restore directory " +:+ destination +:+ ": " +:+ strerror e)
      | _ =>
          let statistics := add_directory statistics in
          _ ← report_progress statistics source;
          names ← read_directory source;
          match fuel with
          | O => mret statistics
          | S fuel =>
              statistics ← fold_children (λ name,
                  copy_entry fuel (source /./ name) (destination /./ name) device) names statistics;
              _ ← preserve_metadata source destination;
              mret statistics
          end
      end
  | _ => unsupported source
  end.

(** src/platform/linux/restore/PosixRestoreOperations.cpp:484-510 *)
Definition copy_and_verify (source destination_root : path) : M RestoreStatistics :=
  _ ← reject_symlink_components source false;
  _ ← reject_symlink_components (parent_path destination_root) false;
  status ← lstat_or_throw source;
  look depth ≫= λ fuel : nat,
  let statistics := mkStatistics 0 0 0 in
  if bool_decide (s_kind status = KDirectory) then
    names ← read_directory source;
    statistics ← fold_children (λ name,
        copy_entry fuel (source /./ name) (destination_root /./ name) (s_dev status)) names statistics;
    _ ← preserve_metadata source destination_root;
    mret statistics
  else copy_entry fuel source destination_root (s_dev status) statistics.

End token.

(** ** Moving and removing *)

(** src/platform/linux/restore/PosixRestoreOperations.cpp:391-394 *)
Definition posix_exists (p : path) : M bool :=
  sys (SExists p) ≫= λ fault : option Errno,
  look (λ es, status_exists (status_of
    match fault, es !! key p with
    | Some e, _ => inl e
    | None, None => inl (missing es (key p))
    | None, Some e => inr (s_kind (shown e))
    end).2).

(** Everything below [from] is moved to [to]. *)
Definition move_tree (from to : Key) (es : Entries) : Entries :=
  map_fold (λ k e moved,
    match strip from k, strip to k with
    | Some rest, _ => <[to ++ rest := e]> moved
    | None, Some _ => moved
    | None, None => <[k := e]> moved
    end) ∅ es.

(** Why [rename] refuses. *)
Definition rename_error (from to : Key) (es : Entries) : option Errno :=
  match es !! from with
  | None => Some (missing es from)
  | Some e =>
      if bool_decide (strip from to = None) then
        match parent_error to es, es !! to with
        | Some e', _ => Some e'
        | None, None => None
        | None, Some d =>
            if is_dir e then
              if is_dir d then
                if bool_decide (children es to = []) then None else Some (EOTHER "Directory not empty")
              else Some ENOTDIR
            else if is_dir d then Some (EOTHER "Is a directory") else None
        end
      else Some (EOTHER "Invalid argument")
  end.

(** [rename(source, destination, error)] *)
Definition rename (source destination : path) : M (option Errno) :=
  sys (SRename source destination) ≫= λ fault : option Errno,
  look (rename_error (key source) (key destination)) ≫= λ refused : option Errno,
  turn ≫= λ t : nat * Machine,
  match fault, refused with
  | Some e, _ | None, Some e => mret (Some e)
  | None, None =>
      _ ← modify (λ es, touch (m_now t.2 t.1) (key destination) (touch (m_now t.2 t.1) (key source)
                          (move_tree (key source) (key destination) es)));
      mret None
  end.

(** src/platform/linux/restore/PosixRestoreOperations.cpp:512-525 *)
Definition posix_move (source destination : path) : M unit :=
  _ ← reject_symlink_components source false;
  _ ← reject_symlink_components (parent_path destination) false;
  rename source destination ≫= λ error : option Errno,
  match error with
  | Some e => restore_failure (creation_code e RestoreErrorCode.CopyFailed)
                ("could not commit restore transaction: " +:+ strerror e)
  | None => mret tt
  end.

(** What is at and below [k], the entries of a directory before the directory. *)
Definition removal_order (es : Entries) (k : Key) : list Key :=
  std_sort (λ a b, length b <? length a)%nat
    (omap (λ x : Key * Entry, match strip k x.1 with Some _ => Some x.1 | None => None end) (map_to_list es)).

Fixpoint unlink_all (ks : list Key) : M (option Errno) :=
  match ks with
  | [] => mret None
  | k :: ks =>
      sys (SUnlink k) ≫= λ fault : option Errno,
      look (λ es, children es k) ≫= λ inside : list string,
      match fault, inside with
      | Some e, _ => mret (Some e)
      | None, _ :: _ => mret (Some (EOTHER "Directory not empty"))
      | None, [] =>
          turn ≫= λ t : nat * Machine,
          _ ← modify (λ es, touch (m_now t.2 t.1) k (delete k es));
          unlink_all ks
      end
  end.

(** [remove_all(path, error)] *)
Definition remove_all (p : path) : M (option Errno) :=
  look (λ es, removal_order es (key p)) ≫= λ ks : list Key, unlink_all ks.

Definition cleanup_incomplete {A} (message : string) : M A :=
  restore_failure RestoreErrorCode.CleanupIncomplete message.

(** src/platform/linux/restore/PosixRestoreOperations.cpp:385-387 *)
Definition is_subvolume (p : path) : M bool :=
  sys (SIsSubvolume p) ≫= λ fault : option Errno,
  look (λ es, match fault, es !! key p with
              | None, Some e => bool_decide (en_kind e = ESubvolume)
              | _, _ => false
              end).

(** The entries of a subvolume are removed before it. *)
Fixpoint clean_subvolume (p : path) (names : list string) : M unit :=
  match names with
  | [] => mret tt
  | name :: names =>
      remove_all (p /./ name) ≫= λ error : option Errno,
      match error with
      | Some e => cleanup_incomplete ("could not clean restore subvolume: " +:+ strerror e)
      | None => clean_subvolume p names
      end
  end.

(** src/platform/linux/restore/PosixRestoreOperations.cpp:527-559 *)
Definition remove_owned_tree (p : path) : M unit :=
  posix_exists p ≫= λ there : bool,
  if negb there then mret tt
  else
    is_subvolume p ≫= λ subvolume : bool,
    if subvolume then
      names ← read_directory p;
      _ ← clean_subvolume p names;
      sys (SSubvolumeDelete p) ≫= λ fault : option Errno,
      match fault with
      | Some e => cleanup_incomplete ("could not delete restore subvolume: " +:+ strerror e)
      | None =>
          turn ≫= λ t : nat * Machine,
          modify (λ es, touch (m_now t.2 t.1) (key p) (remove_tree (key p) es))
      end
    else
      remove_all p ≫= λ error : option Errno,
      match error with
      | Some e => cleanup_incomplete ("could not clean restore staging: " +:+ strerror e)
      | None => mret tt
      end.

(** The implementation. src/platform/linux/restore/PosixRestoreOperations.hpp:11-32 *)
Definition posix_operations : IRestoreOperations RW :=
  mkOperations RW posix_exists (λ source p token, ensure_sufficient_space token source p) prepare_copy_root
    create_subvolume_root (λ source p token progress, copy_and_verify token progress source p)
    posix_move remove_owned_tree.
