(* ===== verification/RestoreGuarantees.v ===== *)
(** * Guarantees of a restore

    The operations of PosixRestore keep the laws of [RestoreLaws], so that what RestoreEngine
    proves of the executor holds of a restore on a file system; and what a copy preserves. *)

From S2P Require Import Prelude Errors Identifiers FsPath ProfileArtifacts FileSystem RestoreCatalog RestoreEngine PosixRestore.

Open Scope Z_scope.
Open Scope path_scope.

(** ** Names *)

Lemma strip_Some k k' r : strip k k' = Some r <-> k' = k ++ r.
Proof.
  revert k'. induction k as [|x k IH]; intros k'; cbn; [naive_solver|].
  destruct k' as [|y k']; [naive_solver|]. destruct (String.eqb_spec x y) as [->|Hxy]; [|naive_solver].
  rewrite IH. naive_solver.
Qed.

Lemma strip_app k r : strip k (k ++ r) = Some r.
Proof. by apply strip_Some. Qed.

Lemma strip_refl k : strip k k = Some [].
Proof. apply strip_Some. by rewrite app_nil_r. Qed.

Lemma strip_None k k' : strip k k' = None <-> ~ k `prefix_of` k'.
Proof.
  destruct (strip k k') as [r|] eqn:E.
  - apply strip_Some in E as ->. split; [done|]. intros []. by exists r.
  - split; [|done]. intros _ [r Hr]. apply strip_Some in Hr. congruence.
Qed.

(** Neither name lies below the other. *)
Definition incomparable (k k' : Key) : Prop := strip k k' = None /\ strip k' k = None.

Lemma incomparable_sym k k' : incomparable k k' -> incomparable k' k.
Proof. by intros []. Qed.

Lemma prefix_either (a b : Key) c r : a ++ c = b ++ r -> a `prefix_of` b \/ b `prefix_of` a.
Proof.
  revert b. induction a as [|x a IH]; intros b; [by left; eexists|]. destruct b as [|y b]; [by right; eexists|].
  cbn. intros [= -> H]. destruct (IH b H) as [?|?]; [left|right]; by apply prefix_cons.
Qed.

Lemma incomparable_app k k' r : incomparable k k' -> incomparable k (k' ++ r).
Proof.
  unfold incomparable. rewrite !strip_None. intros [H1 H2]. split.
  - intros [r' Hr]. destruct (prefix_either k' k r r') as [?|?]; done.
  - intros [r' Hr]. apply H2. exists (r ++ r'). by rewrite app_assoc.
Qed.

Lemma prefix_snoc_inv (k q : Key) n : q `prefix_of` k ++ [n] -> q `prefix_of` k \/ q = k ++ [n].
Proof.
  intros [r Hr]. destruct r as [|x r] using rev_ind; [right; by rewrite app_nil_r in Hr|left].
  rewrite app_assoc in Hr. apply app_inj_tail in Hr as [-> _]. by eexists.
Qed.

Lemma incomparable_child k n q : incomparable k q -> incomparable (k ++ [n]) q.
Proof.
  unfold incomparable. rewrite !strip_None. intros [H1 H2]. split.
  - intros [r ->]. apply H1. exists ([n] ++ r). by rewrite app_assoc.
  - intros [?| ->]%prefix_snoc_inv; [done|]. apply H1. by eexists.
Qed.

Lemma removelast_prefix (k : Key) : removelast k `prefix_of` k.
Proof.
  destruct k as [|x k] using rev_ind; [done|]. rewrite removelast_last. by eexists.
Qed.

Lemma incomparable_parent k q : incomparable k q -> q <> removelast k.
Proof. unfold incomparable. rewrite !strip_None. intros [_ H] ->. apply H, removelast_prefix. Qed.

(** ** Trees *)

Definition subtree (k : Key) (es : Entries) : Entries :=
  map_fold (λ k' e t, match strip k k' with Some r => <[r := e]> t | None => t end) ∅ es.

Lemma lookup_subtree k es r : subtree k es !! r = es !! (k ++ r).
Proof.
  unfold subtree. revert r. apply (map_fold_weak_ind (λ t es, forall r, t !! r = es !! (k ++ r))).
  { intros r. by rewrite !lookup_empty. }
  intros k' e m t Hm IH r. destruct (strip k k') as [r'|] eqn:E.
  - apply strip_Some in E as ->. destruct (decide (r = r')) as [->|Hne].
    + by rewrite !lookup_insert_eq.
    + rewrite !lookup_insert_ne; [done| |done]. by intros ?%app_inv_head.
  - rewrite lookup_insert_ne; [done|]. intros ->. by rewrite strip_app in E.
Qed.

Lemma lookup_move_tree from to es k :
  incomparable from to ->
  move_tree from to es !! k =
  match strip to k, strip from k with
  | Some r, _ => es !! (from ++ r)
  | None, Some _ => None
  | None, None => es !! k
  end.
Proof.
  intros [Hft Htf]. unfold move_tree. revert k.
  apply (map_fold_weak_ind (λ t es, forall k, t !! k = match strip to k, strip from k with
    | Some r, _ => es !! (from ++ r) | None, Some _ => None | None, None => es !! k end)).
  { intros k. repeat case_match; by rewrite !lookup_empty. }
  intros k' e m t Hm IH k. destruct (strip from k') as [r'|] eqn:Ef.
  - apply strip_Some in Ef as ->. destruct (strip to k) as [r|] eqn:Et.
    + apply strip_Some in Et as ->. destruct (decide (r = r')) as [->|Hne].
      * by rewrite !lookup_insert_eq.
      * rewrite !lookup_insert_ne; [|by intros ?%app_inv_head|by intros ?%app_inv_head].
        by rewrite IH, strip_app.
    + rewrite lookup_insert_ne by (intros <-; by rewrite strip_app in Et). rewrite IH, Et.
      destruct (strip from k) eqn:E2; [done|]. rewrite lookup_insert_ne; [done|]. intros <-. by rewrite strip_app in E2.
  - assert (forall r, (<[k':=e]> m) !! (from ++ r) = m !! (from ++ r)) as Hm'.
    { intros r. rewrite lookup_insert_ne; [done|]. intros ->. by rewrite strip_app in Ef. }
    destruct (strip to k') as [r'|] eqn:Et'.
    + rewrite IH. destruct (strip to k) eqn:Et; [by rewrite Hm'|]. destruct (strip from k); [done|].
      rewrite lookup_insert_ne; [done|]. intros <-. congruence.
    + destruct (decide (k = k')) as [->|Hne].
      * by rewrite lookup_insert_eq, Et', Ef, lookup_insert_eq.
      * rewrite lookup_insert_ne, IH by done. destruct (strip to k); [by rewrite Hm'|].
        destruct (strip from k); [done|]. by rewrite lookup_insert_ne.
Qed.

Lemma lookup_remove_tree k es q :
  remove_tree k es !! q = if bool_decide (strip k q = None) then es !! q else None.
Proof.
  unfold remove_tree. rewrite map_lookup_filter. destruct (es !! q) as [e|]; cbn; [|by destruct (bool_decide _)].
  case_bool_decide as E; case_guard; naive_solver.
Qed.

Lemma lookup_touch now k es q :
  touch now k es !! q
  = if decide (q = removelast k) then (λ e, e <| en_mtime := now |>) <$> es !! q else es !! q.
Proof.
  unfold touch. case_decide as E; [subst; apply lookup_alter_eq|]. by apply lookup_alter_ne.
Qed.

(** ** Well-formed file systems *)

Definition good_name (c : string) : Prop := is_name c /\ c <> ".".

(** Names are names, what is above an entry is a directory, and an attribute is there once. *)
Record wf (es : Entries) : Prop := mk_wf {
  wf_names k e : es !! k = Some e -> Forall good_name k;
  wf_closed k n e : es !! (k ++ [n]) = Some e -> exists d, es !! k = Some d /\ is_dir d = true;
  wf_xattrs k e : es !! k = Some e -> NoDup (map fst (en_xattrs e));
}.

Lemma key_good p : Forall good_name (key p).
Proof.
  unfold key. pose proof (pp_parse_wf p) as [Hn _]. rewrite Forall_forall in Hn |- *. intros c Hc.
  apply list_elem_of_In, List.filter_In in Hc as [Hc Hd]. split; [by apply Hn, list_elem_of_In|].
  by apply negb_true_iff, String.eqb_neq in Hd.
Qed.

Lemma wf_below es k r : wf es -> es !! k = None -> es !! (k ++ r) = None.
Proof.
  intros Hw Hk. induction r as [|x r IH] using rev_ind; [by rewrite app_nil_r|].
  rewrite app_assoc. destruct (es !! ((k ++ r) ++ [x])) as [e|] eqn:E; [|done].
  apply wf_closed in E as (d & Hd & _); congruence.
Qed.

Lemma elem_of_children es k n : n ∈ children es k <-> is_Some (es !! (k ++ [n])).
Proof.
  unfold children. rewrite list_elem_of_omap. split.
  - intros ([k' e] & Hin & H). cbn in H. destruct (strip k k') as [[|y [|]]|] eqn:E; simplify_eq.
    apply strip_Some in E as ->. apply elem_of_map_to_list in Hin. by eexists.
  - intros [e He]. exists (k ++ [n], e). split; [by apply elem_of_map_to_list|]. cbn. by rewrite strip_app.
Qed.

Lemma children_NoDup es k : NoDup (children es k).
Proof.
  unfold children. pose proof (NoDup_fst_map_to_list es) as H.
  induction (map_to_list es) as [|[k' e] l IH]; [constructor|]. cbn in H |- *. apply NoDup_cons in H as [Hn H].
  specialize (IH H). destruct (strip k k') as [[|n [|]]|] eqn:E; try done. constructor; [|done].
  rewrite list_elem_of_omap. intros ([k2 e2] & Hin & H2). cbn in H2.
  destruct (strip k k2) as [[|n2 [|]]|] eqn:E2; simplify_eq. apply strip_Some in E as ->, E2 as ->.
  apply Hn. by apply list_elem_of_fmap_2 with (f := fst) in Hin.
Qed.

Lemma children_nil es k n : children es k = [] -> es !! (k ++ [n]) = None.
Proof.
  intros E. destruct (es !! (k ++ [n])) eqn:Ek; [|done].
  assert (n ∈ children es k) as H by (apply elem_of_children; by rewrite Ek). rewrite E in H. set_solver.
Qed.

Lemma wf_alter f k es :
  wf es -> (forall e, is_dir (f e) = is_dir e) ->
  (forall e, NoDup (map fst (en_xattrs e)) -> NoDup (map fst (en_xattrs (f e)))) -> wf (alter f k es).
Proof.
  intros Hw Hd Hx.
  assert (forall q e, alter f k es !! q = Some e -> exists e', es !! q = Some e' /\ (e = e' \/ e = f e')) as Hinv.
  { intros q e. destruct (decide (q = k)) as [->|Hne].
    - rewrite lookup_alter_eq. intros (e' & -> & ->)%fmap_Some. eauto.
    - rewrite lookup_alter_ne by done. eauto. }
  split.
  - intros q e (e' & He' & _)%Hinv. by eapply wf_names.
  - intros q n e (e' & He' & _)%Hinv. apply wf_closed in He' as (d & Hdq & Hdir); [|done].
    destruct (decide (q = k)) as [->|Hne].
    + exists (f d). rewrite lookup_alter_eq, Hdq. split; [done|]. by rewrite Hd.
    + exists d. by rewrite lookup_alter_ne.
  - intros q e (e' & He' & [->| ->])%Hinv; [|apply Hx]; by eapply wf_xattrs.
Qed.

Lemma wf_touch now k es : wf es -> wf (touch now k es).
Proof. intros Hw. by apply wf_alter. Qed.

Lemma parent_error_None k es : parent_error k es = None -> exists d, es !! removelast k = Some d /\ is_dir d = true.
Proof. unfold parent_error. repeat case_match; naive_solver. Qed.

Lemma touch_lookup_Some now k es q d :
  es !! q = Some d -> exists d', touch now k es !! q = Some d' /\ is_dir d' = is_dir d /\ en_xattrs d' = en_xattrs d.
Proof. intros H. rewrite lookup_touch, H. case_decide; cbn; by eexists. Qed.

Lemma wf_add_entry now k e es :
  wf es -> Forall good_name k -> es !! k = None -> parent_error k es = None -> en_xattrs e = [] ->
  wf (add_entry now k e es).
Proof.
  intros Hw Hk Hnone (d & Hd & Hdir)%parent_error_None Hx.
  destruct k as [|n k _] using rev_ind; [cbn in Hd; congruence|]. rewrite removelast_last in Hd.
  pose proof (wf_touch now (k ++ [n]) es Hw) as Ht. unfold add_entry. split.
  - intros q e'. destruct (decide (q = k ++ [n])) as [->|Hne]; [done|]. rewrite lookup_insert_ne by done. by apply wf_names.
  - intros q n' e' H. assert (exists d', touch now (k ++ [n]) es !! q = Some d' /\ is_dir d' = true) as (d' & Hq & Hdq).
    { destruct (decide (q ++ [n'] = k ++ [n])) as [[-> _]%app_inj_tail|Hne].
      - apply (touch_lookup_Some now (k ++ [n])) in Hd as (d' & ? & E & _). exists d'. by rewrite E.
      - rewrite lookup_insert_ne in H by done. by eapply wf_closed in H. }
    exists d'. rewrite lookup_insert_ne; [done|]. intros <-. rewrite lookup_touch, Hnone in Hq. by case_decide.
  - intros q e'. destruct (decide (q = k ++ [n])) as [->|Hne].
    + rewrite lookup_insert_eq. intros [= <-]. rewrite Hx. constructor.
    + rewrite lookup_insert_ne by done. by apply wf_xattrs.
Qed.

Lemma wf_delete k es : wf es -> children es k = [] -> wf (delete k es).
Proof.
  intros Hw Hc. split.
  - intros q e [_ H]%lookup_delete_Some. by eapply wf_names.
  - intros q n e [_ H]%lookup_delete_Some. pose proof H as (d & Hd & Hdir)%wf_closed; [|done]. exists d. split; [|done].
    rewrite lookup_delete_ne; [done|]. intros ->. by rewrite (children_nil _ _ n Hc) in H.
  - intros q e [_ H]%lookup_delete_Some. by eapply wf_xattrs.
Qed.

Lemma wf_remove_tree k es : wf es -> wf (remove_tree k es).
Proof.
  intros Hw. split; intros q *; rewrite lookup_remove_tree; case_bool_decide as E; try done.
  - by apply wf_names.
  - intros (d & Hd & Hdir)%wf_closed; [|done]. exists d. rewrite lookup_remove_tree, bool_decide_eq_true_2; [done|].
    apply strip_None. apply strip_None in E. intros [r ->]. apply E. exists (r ++ [n]). by rewrite app_assoc.
  - by apply wf_xattrs.
Qed.

Lemma strip_snoc_None k q n : strip k (q ++ [n]) = None -> strip k q = None.
Proof. rewrite !strip_None. intros H [r ->]. apply H. exists (r ++ [n]). by rewrite app_assoc. Qed.

Lemma wf_move_tree from to es :
  wf es -> incomparable from to -> Forall good_name to -> parent_error to es = None -> wf (move_tree from to es).
Proof.
  intros Hw Hi Hto (d & Hd & Hdir)%parent_error_None. split.
  - intros q e. rewrite lookup_move_tree by done. destruct (strip to q) as [r|] eqn:Et.
    + apply strip_Some in Et as ->. intros H%wf_names; [|done]. apply Forall_app in H as [_ H]. by apply Forall_app.
    + destruct (strip from q); [done|]. by apply wf_names.
  - intros q n e. rewrite lookup_move_tree by done. destruct (strip to (q ++ [n])) as [r|] eqn:Et.
    + apply strip_Some in Et. destruct r as [|x r _] using rev_ind.
      * rewrite app_nil_r in Et. intros _. assert (removelast to = q) as <- by (rewrite <- Et; apply removelast_last).
        exists d. split; [|done]. rewrite lookup_move_tree by done.
        assert (forall k, ~ k `prefix_of` to -> strip k (removelast to) = None) as Hp.
        { intros k Hk. apply strip_None. intros H. apply Hk. etrans; [exact H|apply removelast_prefix]. }
        assert (strip to (removelast to) = None) as ->.
        { apply strip_None. intros [r Hr]. apply (f_equal length) in Hr, Et.
          rewrite length_app in Hr, Et. cbn in Et. lia. }
        rewrite Hp; [done|]. apply strip_None. apply Hi.
      * rewrite app_assoc in Et. apply app_inj_tail in Et as [-> ->]. rewrite app_assoc.
        intros (d' & Hd' & Hdir')%wf_closed; [|done]. exists d'. by rewrite lookup_move_tree, strip_app.
    + destruct (strip from (q ++ [n])) eqn:Ef; [done|]. intros (d' & Hd' & Hdir')%wf_closed; [|done]. exists d'.
      rewrite lookup_move_tree by done. by rewrite (strip_snoc_None _ _ _ Et), (strip_snoc_None _ _ _ Ef).
  - intros q e. rewrite lookup_move_tree by done. destruct (strip to q); [by apply wf_xattrs|].
    destruct (strip from q); [done|]. by apply wf_xattrs.
Qed.

(** ** What an operation touches *)

Definition unchanged (w w' : RW) : Prop := rw_machine w' = rw_machine w /\ rw_entries w' = rw_entries w.

(** Nothing is touched. *)
Definition quietly (A : Type) (m : SE RW A) : Prop :=
  forall w, holds m w (λ _ w', unchanged w w') (λ _ w', unchanged w w').

(** A failure has a message. *)
Definition tells {A} (m : SE RW A) : Prop := forall w, holds m w (λ _ _, True) (λ e _, telling e).

(** Only what is at, above or below the names [ks] is touched, and the file system stays well formed. *)
Record step (ks : list Key) (w w' : RW) : Prop := mk_step {
  step_machine : rw_machine w' = rw_machine w;
  step_wf : wf (rw_entries w) -> wf (rw_entries w');
  step_frame q : Forall (λ k, incomparable k q) ks -> rw_entries w' !! q = rw_entries w !! q;
}.

Definition steps (ks : list Key) {A} (m : SE RW A) : Prop :=
  forall w, holds m w (λ _ w', step ks w w') (λ _ w', step ks w w').

Lemma step_refl ks w : step ks w w.
Proof. by split. Qed.

Lemma step_trans ks w1 w2 w3 : step ks w1 w2 -> step ks w2 w3 -> step ks w1 w3.
Proof.
  intros [M1 W1 F1] [M2 W2 F2]. split; [congruence|auto|]. intros q Hq. by rewrite F2, F1.
Qed.

Lemma step_unchanged ks w w' : unchanged w w' -> step ks w w'.
Proof. intros [Hm He]. split; [done|by rewrite He|]. by rewrite He. Qed.

Lemma step_child k n w w' : step [k ++ [n]] w w' -> step [k] w w'.
Proof.
  intros [Hm Hw Hf]. split; [done|done|]. intros q Hq. rewrite Forall_singleton in Hq.
  apply Hf, Forall_singleton. exact (incomparable_child _ _ _ Hq).
Qed.

Lemma quietly_bind {A B} (m : SE RW A) (f : A -> SE RW B) :
  quietly A m -> (forall a, quietly B (f a)) -> quietly B (m ≫= f).
Proof.
  intros Hm Hf w. apply holds_bind. eapply holds_mono; [apply Hm| |done].
  intros a w1 [H1 H2]. eapply holds_mono; [apply Hf| |]; intros ? w2 [H3 H4]; split; congruence.
Qed.

Lemma tells_bind {A B} (m : SE RW A) (f : A -> SE RW B) :
  tells m -> (forall a, tells (f a)) -> tells (m ≫= f).
Proof. intros Hm Hf w. apply holds_bind. eapply holds_mono; [apply Hm| |done]. intros a w1 _. apply Hf. Qed.

Lemma steps_bind ks {A B} (m : SE RW A) (f : A -> SE RW B) :
  steps ks m -> (forall a, steps ks (f a)) -> steps ks (m ≫= f).
Proof.
  intros Hm Hf w. apply holds_bind. eapply holds_mono; [apply Hm| |done].
  intros a w1 H1. eapply holds_mono; [apply Hf| |]; intros ? w2 H2; exact (step_trans _ _ _ _ H1 H2).
Qed.

Lemma steps_quietly ks {A} (m : SE RW A) : quietly A m -> steps ks m.
Proof. intros Hm w. eapply holds_mono; [apply Hm| |]; intros ? w' H; by apply step_unchanged. Qed.

Lemma steps_child k n {A} (m : SE RW A) : steps [k ++ [n]] m -> steps [k] m.
Proof. intros Hm w. eapply holds_mono; [apply Hm| |]; intros ? w' H; exact (step_child _ _ _ _ H). Qed.

Lemma quietly_ret {A} (a : A) : quietly A (mret a).
Proof. by intros w. Qed.
Lemma quietly_throw {A} e : quietly A (se_throw e).
Proof. by intros w. Qed.
Lemma quietly_sys c : quietly _ (sys c).
Proof. by intros w. Qed.
Lemma quietly_look {A} (f : Entries -> A) : quietly A (look f).
Proof. by intros w. Qed.
Lemma quietly_machine : quietly _ machine.
Proof. by intros w. Qed.
Lemma quietly_turn : quietly _ turn.
Proof. by intros w. Qed.
Lemma quietly_failure {A} code message : quietly A (restore_failure code message).
Proof. apply quietly_throw. Qed.

Lemma tells_ret {A} (a : A) : tells (mret a).
Proof. by intros w. Qed.
Lemma tells_sys c : tells (sys c).
Proof. by intros w. Qed.
Lemma tells_look {A} (f : Entries -> A) : tells (look f).
Proof. by intros w. Qed.
Lemma tells_machine : tells machine.
Proof. by intros w. Qed.
Lemma tells_turn : tells turn.
Proof. by intros w. Qed.
Lemma tells_modify f : tells (modify f).
Proof. by intros w. Qed.
Lemma tells_failure {A} code c message : tells (restore_failure (A := A) code (String c message)).
Proof. intros w. by split. Qed.
Lemma tells_std {A} c message : tells (se_throw (A := A) (StdException (String c message))).
Proof. intros w. by split. Qed.

Create HintDb touching.
#[export] Hint Resolve quietly_bind quietly_ret quietly_throw quietly_sys quietly_look quietly_machine quietly_turn
  quietly_failure tells_ret tells_sys tells_look tells_machine tells_turn tells_modify tells_bind tells_failure
  tells_std : touching.

(** Go through an operation, case by case. *)
Ltac touches :=
  repeat (intros; first
    [ done
    | solve [eauto 3 with touching]
    | apply quietly_bind | apply tells_bind | apply steps_bind
    | apply quietly_ret | apply tells_ret
    | match goal with
      | |- quietly _ (match ?x with _ => _ end) => destruct x
      | |- tells (match ?x with _ => _ end) => destruct x
      | |- steps _ (match ?x with _ => _ end) => destruct x
      | |- quietly _ (if ?x then _ else _) => destruct x
      | |- tells (if ?x then _ else _) => destruct x
      | |- steps _ (if ?x then _ else _) => destruct x
      | |- quietly _ (let '(_, _) := ?x in _) => destruct x
      end ]).

Lemma quietly_pinned p : quietly _ (pinned_descriptor p).
Proof. by intros w. Qed.
Lemma tells_pinned p : tells (pinned_descriptor p).
Proof. by intros w. Qed.

Lemma quietly_lstat p : quietly _ (lstat p).
Proof. unfold lstat, lookup_with. touches. Qed.
Lemma quietly_stat p : quietly _ (stat p).
Proof. unfold stat. touches. Qed.
Lemma tells_lstat p : tells (lstat p).
Proof. unfold lstat, lookup_with. touches. Qed.
Lemma tells_stat p : tells (stat p).
Proof. unfold stat. touches. Qed.
#[export] Hint Resolve quietly_pinned tells_pinned quietly_lstat quietly_stat tells_lstat tells_stat : touching.

Lemma quietly_reject_components pinned missing paths : quietly _ (reject_components pinned missing paths).
Proof. induction paths as [|p paths IH]; cbn [reject_components]; touches. Qed.
Lemma tells_reject_components pinned missing paths : tells (reject_components pinned missing paths).
Proof. induction paths as [|p paths IH]; cbn [reject_components]; touches. Qed.
#[export] Hint Resolve quietly_reject_components tells_reject_components : touching.

Lemma quietly_reject p missing : quietly _ (reject_symlink_components p missing).
Proof. unfold reject_symlink_components. touches. Qed.
Lemma tells_reject p missing : tells (reject_symlink_components p missing).
Proof. unfold reject_symlink_components. touches. Qed.
Lemma quietly_lstat_or_throw p : quietly _ (lstat_or_throw p).
Proof. unfold lstat_or_throw. touches. Qed.
#[export] Hint Resolve quietly_reject tells_reject quietly_lstat_or_throw : touching.

Lemma quietly_read_directory p : quietly _ (read_directory p).
Proof. unfold read_directory. touches. Qed.
Lemma tells_read_directory p : tells (read_directory p).
Proof. unfold read_directory. touches. Qed.
Lemma quietly_must c m : quietly _ (must c m).
Proof. unfold must, throw_copy_failure. touches. Qed.
Lemma quietly_must_code c code m : quietly _ (must_code c code m).
Proof. unfold must_code. touches. Qed.
Lemma quietly_exists_following p : quietly _ (exists_following p).
Proof. unfold exists_following. touches. Qed.
#[export] Hint Resolve quietly_read_directory tells_read_directory quietly_must quietly_must_code
  quietly_exists_following : touching.

Lemma quietly_fold_children {A} (f : string -> A -> SE RW A) names a :
  (forall n a, quietly _ (f n a)) -> quietly _ (fold_children f names a).
Proof. intros Hf. revert a. induction names as [|n names IH]; intros a; cbn [fold_children]; touches; apply Hf. Qed.

Lemma quietly_ancestor fuel p : quietly _ (existing_destination_ancestor fuel p).
Proof. revert p. induction fuel as [|fuel IH]; intros p; cbn [existing_destination_ancestor]; touches. Qed.
#[export] Hint Resolve quietly_ancestor : touching.

Section quiet_callers.
Context (token : CancellationToken RW) (Htoken : quietly _ (token_read token)).

Lemma quietly_cancelled : quietly _ (throw_if_cancelled token).
Proof.
  intros w. specialize (Htoken w). revert Htoken. unfold holds, throw_if_cancelled, token_read.
  by destruct (token w) as [[] w'].
Qed.
Hint Resolve quietly_cancelled : touching.

Lemma quietly_check_source source device : quietly _ (check_source token source device).
Proof. unfold check_source. touches. Qed.
Hint Resolve quietly_check_source : touching.

Lemma quietly_required_bytes fuel source device : quietly _ (required_restore_bytes token fuel source device).
Proof.
  revert source. induction fuel as [|fuel IH]; intros source; cbn [required_restore_bytes]; unfold unsupported; touches.
  intros names. apply quietly_fold_children. touches.
Qed.
Hint Resolve quietly_required_bytes : touching.

Lemma quietly_space source p : quietly _ (ensure_sufficient_space token source p).
Proof. unfold ensure_sufficient_space. touches. Qed.

End quiet_callers.

(** ** Creating *)

(** A new entry at [p]. *)
Definition created (p : path) (kind : EntryKind) (w w' : RW) : Prop :=
  rw_machine w' = rw_machine w /\ rw_entries w !! key p = None /\ parent_error (key p) (rw_entries w) = None
  /\ exists now e, rw_entries w' = add_entry now (key p) e (rw_entries w)
       /\ en_kind e = kind /\ en_pinned e = false /\ en_xattrs e = [].

Lemma created_wf p kind w w' : created p kind w w' -> wf (rw_entries w) -> wf (rw_entries w').
Proof.
  intros (_ & Hn & Hp & now & e & -> & _ & _ & Hx) Hw. apply wf_add_entry; try done. apply key_good.
Qed.

Lemma created_lookup p kind w w' q :
  created p kind w w' -> q <> key p -> q <> removelast (key p) -> rw_entries w' !! q = rw_entries w !! q.
Proof.
  intros (_ & _ & _ & now & e & -> & _) H1 H2. unfold add_entry. rewrite lookup_insert_ne by done.
  rewrite lookup_touch. by case_decide.
Qed.

Lemma created_entry p kind w w' :
  created p kind w w' -> exists e, rw_entries w' !! key p = Some e /\ en_kind e = kind /\ en_pinned e = false
    /\ en_xattrs e = [].
Proof.
  intros (_ & _ & _ & now & e & -> & Hk & Hp & Hx). exists e. unfold add_entry. by rewrite lookup_insert_eq.
Qed.

(** Something new at a name above or at [k]. *)
Lemma created_step p kind w w' k : created p kind w w' -> key p `prefix_of` k -> step [k] w w'.
Proof.
  intros Hc Hp. split; [apply Hc|by eapply created_wf|]. intros q Hq. rewrite Forall_singleton in Hq.
  destruct Hq as [_ Hq]. rewrite strip_None in Hq. eapply created_lookup; [exact Hc| |].
  - by intros ->.
  - intros ->. apply Hq. etrans; [apply removelast_prefix|done].
Qed.

Lemma create_holds p kind mode w :
  rw_entries w !! key p = None -> parent_error (key p) (rw_entries w) = None ->
  holds (create p kind mode) w (λ _ w', created p kind w w') (λ _ _, False).
Proof. intros H1 H2. unfold create, holds. cbn. do 3 (split; [done|]). by do 2 eexists. Qed.

(** What the creation of a directory or of a subvolume does. *)
Definition create_outcome (p : path) (kind : EntryKind) (w : RW) (error : option Errno) (w' : RW) : Prop :=
  match error with
  | Some _ => unchanged w w'
  | None => created p kind w w' \/ (unchanged w w' /\ kind = EDirectory
              /\ exists d, rw_entries w !! key p = Some d /\ is_dir d = true)
  end.

(** The state after a call. *)
Definition called (w : RW) : RW := w <| rw_clock := S (rw_clock w) |>.

Lemma holds_sys c w (Q : option Errno -> RW -> Prop) E :
  (forall fault, fault = m_faults (rw_machine w) (rw_clock w) c -> Q fault (called w)) -> holds (sys c) w Q E.
Proof. intros H. by apply H. Qed.

Lemma holds_look {A} (f : Entries -> A) w (Q : A -> RW -> Prop) E : Q (f (rw_entries w)) w -> holds (look f) w Q E.
Proof. done. Qed.

Lemma holds_turn w (Q : nat * Machine -> RW -> Prop) E : Q (rw_clock w, rw_machine w) w -> holds turn w Q E.
Proof. done. Qed.

Lemma holds_modify f w (Q : unit -> RW -> Prop) E :
  Q tt (w <| rw_entries := f (rw_entries w) |>) -> holds (modify f) w Q E.
Proof. done. Qed.

Lemma create_new_holds p kind w0 w :
  unchanged w0 w -> rw_entries w !! key p = None -> parent_error (key p) (rw_entries w) = None ->
  holds (create p kind 511 ≫= λ _, mret None) w (create_outcome p kind w0) (λ _ _, False).
Proof.
  intros [Hm He] Hn Hp. apply holds_bind. eapply holds_mono; [by apply create_holds| |done].
  intros _ w' (M & N & P & now & e & E & Hk). left. rewrite He in N, P, E. split; [congruence|]. by do 2 (split; [done|]); do 2 eexists.
Qed.

Lemma create_directory_holds p w :
  holds (create_directory p) w (create_outcome p EDirectory w) (λ _ _, False).
Proof.
  unfold create_directory. apply holds_bind, holds_sys. intros fault _. apply holds_bind, holds_look.
  destruct fault; [by split|]. change (rw_entries (called w)) with (rw_entries w).
  destruct (rw_entries w !! key p) as [e|] eqn:E.
  - apply holds_ret. destruct (is_dir e) eqn:Ed; [|by split]. right. split; [by split|]. split; [done|]. by exists e.
  - destruct (parent_error (key p) (rw_entries w)) eqn:Ep; [by split|]. by apply create_new_holds.
Qed.

Lemma subvolume_create_holds p w :
  holds (subvolume_create p) w (create_outcome p ESubvolume w) (λ _ _, False).
Proof.
  unfold subvolume_create. apply holds_bind, holds_sys. intros fault _. apply holds_bind, holds_look.
  destruct fault; [by split|]. change (rw_entries (called w)) with (rw_entries w).
  destruct (rw_entries w !! key p) as [e|] eqn:E; [by split|].
  destruct (parent_error (key p) (rw_entries w)) eqn:Ep; [by split|]. by apply create_new_holds.
Qed.

(** Names above [k] only: what is at [k] and below is not touched. *)
Definition above (k : Key) (w w' : RW) : Prop :=
  step [k] w w' /\ forall r, rw_entries w' !! (k ++ r) = rw_entries w !! (k ++ r).

Lemma above_trans k w1 w2 w3 : above k w1 w2 -> above k w2 w3 -> above k w1 w3.
Proof. intros [S1 F1] [S2 F2]. split; [by eapply step_trans|]. intros r. by rewrite F2, F1. Qed.

Lemma above_unchanged k w w' : unchanged w w' -> above k w w'.
Proof. intros H. split; [by apply step_unchanged|]. intros r. by rewrite (proj2 H). Qed.

Lemma create_directories_holds k paths w :
  Forall (λ p, key p `prefix_of` k /\ key p <> k) paths ->
  holds (create_directories paths) w (λ _, above k w) (λ _ _, False).
Proof.
  intros Hp. revert w. induction Hp as [|p paths [Hp Hne] _ IH]; intros w; cbn [create_directories].
  { apply holds_ret. by apply above_unchanged. }
  apply holds_bind. eapply holds_mono; [apply create_directory_holds| |done]. intros error w1 H1.
  assert (above k w w1) as Ha.
  { assert (created p EDirectory w w1 \/ unchanged w w1) as [Hc|Hu].
    { destruct error; [by right|]. destruct H1 as [?|[? _]]; auto. }
    - split; [by eapply created_step|]. intros r. eapply created_lookup; [exact Hc| |].
      + intros E. apply Hne. symmetry. apply (anti_symm prefix); [|done]. rewrite <- E. by eexists.
      + intros E. apply Hne. symmetry. apply (anti_symm prefix); [|done].
        etrans; [|apply removelast_prefix]. rewrite <- E. by eexists.
    - by apply above_unchanged. }
  destruct error; [by apply holds_ret|]. eapply holds_mono; [apply IH| |done].
  intros a w2 H2. exact (above_trans _ _ _ _ Ha H2).
Qed.

(** ** Places *)

Definition no_dot : list string -> list string := List.filter (λ c, negb (String.eqb c ".")).

Lemma key_append a n : is_name n -> key (a /./ n) = key a ++ no_dot [n].
Proof.
  intros Hn. unfold key. rewrite pp_parse_append; rewrite ?(parse_name n Hn); [|unfold is_absolute; by rewrite parse_name|done].
  cbn [pp_names]. apply List.filter_app.
Qed.

Lemma key_child a n : good_name n -> key (a /./ n) = key a ++ [n].
Proof.
  intros [Hn Hd]. rewrite key_append by done. cbn. by rewrite (proj2 (String.eqb_neq n ".") Hd).
Qed.

Lemma prefixes_key start l x :
  Forall is_name l -> x ∈ prefixes start l -> exists l1 l2, l = l1 ++ l2 /\ key x = key start ++ no_dot l1.
Proof.
  intros Hl. revert start. induction Hl as [|n l Hn _ IH]; intros start; cbn [prefixes]; [by intros ?%not_elem_of_nil|].
  intros [->|Hx]%elem_of_cons.
  - exists [n], l. split; [done|]. by apply key_append.
  - destruct (IH _ Hx) as (l1 & l2 & -> & ->). exists (n :: l1), l2. split; [done|].
    rewrite key_append by done. rewrite <- app_assoc. f_equal. symmetry. apply (List.filter_app _ [n]).
Qed.

Lemma path_prefixes_key d x :
  pp_trail (pp_parse d) = false -> x ∈ prefixes "" (path_elements d) -> key x `prefix_of` key d.
Proof.
  intros Ht. unfold path_elements, pp_elements. rewrite Ht, app_nil_r. pose proof (pp_parse_wf d) as [Hn _].
  assert (forall start, key start = [] -> x ∈ prefixes start (pp_names (pp_parse d)) -> key x `prefix_of` key d) as H.
  { intros start Hs (l1 & l2 & El & ->)%prefixes_key; [|done]. rewrite Hs. unfold key. rewrite El.
    exists (no_dot l2). apply List.filter_app. }
  destruct (pp_root (pp_parse d)); [|by apply H]. cbn [app prefixes]. intros [->|Hx]%elem_of_cons.
  - change (key ("" /./ "/")) with (@nil string). apply prefix_nil.
  - by apply (H "/").
Qed.

(** Something can be created at [p]: it is not the root and its parent is above it. *)
Definition place (p : path) : Prop := key p <> [] /\ key (parent_path p) = removelast (key p).

Lemma place_parents p :
  place p -> Forall (λ x, key x `prefix_of` key p /\ key x <> key p) (prefixes "" (path_elements (parent_path p))).
Proof.
  intros [Hne Hp]. apply Forall_forall. intros x Hx.
  assert (pp_names (pp_parse p) <> []) as Hn by (intros E; apply Hne; unfold key; by rewrite E).
  apply path_prefixes_key in Hx; [|by rewrite pp_parse_parent]. rewrite Hp in Hx. split.
  - etrans; [exact Hx|apply removelast_prefix].
  - intros E. rewrite E in Hx. destruct (exists_last Hne) as (l & n & El). rewrite El, removelast_last in Hx.
    destruct Hx as [r Hr]. apply (f_equal length) in Hr. rewrite !length_app in Hr. cbn in Hr. lia.
Qed.

(** ** The trees of the laws *)

Definition tree (w : RW) (p : path) : option Entries :=
  match rw_entries w !! key p with
  | Some _ => Some (subtree (key p) (rw_entries w))
  | None => None
  end.

Definition apart (p q : path) : Prop := incomparable (key p) (key q).

Definition fresh (t : option Entries) : Prop :=
  t = None \/ exists e, t = Some {[ [] := e ]} /\ is_dir e = true /\ en_pinned e = false /\ en_xattrs e = [].

Lemma subtree_ext k k' es es' : (forall r, es' !! (k' ++ r) = es !! (k ++ r)) -> subtree k' es' = subtree k es.
Proof. intros H. apply map_eq. intros r. by rewrite !lookup_subtree. Qed.

Lemma tree_ext w w' p q :
  (forall r, rw_entries w' !! (key q ++ r) = rw_entries w !! (key p ++ r)) -> tree w' q = tree w p.
Proof.
  intros H. unfold tree. pose proof (H []) as H0. rewrite !app_nil_r in H0. rewrite H0.
  destruct (rw_entries w !! key p); [|done]. f_equal. by apply subtree_ext.
Qed.

Lemma tree_None w p : tree w p = None <-> rw_entries w !! key p = None.
Proof. unfold tree. by destruct (rw_entries w !! key p). Qed.

Lemma step_tree ks w w' q : step ks w w' -> Forall (λ k, incomparable k (key q)) ks -> tree w' q = tree w q.
Proof.
  intros [_ _ Hf] Hq. apply tree_ext. intros r. apply Hf. eapply Forall_impl; [exact Hq|].
  intros k Hk. by apply incomparable_app.
Qed.

Lemma created_fresh p kind w w' :
  created p kind w w' -> wf (rw_entries w) -> kind = EDirectory \/ kind = ESubvolume -> fresh (tree w' p).
Proof.
  intros Hc Hw Hk. right. destruct (created_entry _ _ _ _ Hc) as (e & He & Hke & Hp & Hx). exists e.
  unfold tree. rewrite He. split; [|split; [unfold is_dir; rewrite Hke; by destruct Hk as [->| ->]|done]].
  f_equal. apply map_eq. intros r. rewrite lookup_subtree. destruct r as [|x r].
  - by rewrite app_nil_r, lookup_singleton_eq.
  - rewrite lookup_singleton_ne by done. rewrite (created_lookup _ _ _ _ _ Hc).
    + apply wf_below; [done|]. apply Hc.
    + intros E. rewrite <- (app_nil_r (key p)) in E at 2. by apply app_inv_head in E.
    + intros E. apply (f_equal length) in E. rewrite length_app in E.
      pose proof (prefix_length _ _ (removelast_prefix (key p))). rewrite length_cons in E. lia.
Qed.

Lemma above_tree p w w' : above (key p) w w' -> step [key p] w w' /\ tree w' p = tree w p.
Proof. intros [Hs Hf]. split; [done|]. by apply tree_ext. Qed.

Lemma above_quietly p {A} (m : SE RW A) w w1 (Q : A -> RW -> Prop) :
  above (key p) w w1 -> quietly A m -> (forall a w2, above (key p) w w2 -> Q a w2) ->
  holds m w1 Q (λ _ w', step [key p] w w' /\ tree w' p = tree w p).
Proof.
  intros H1 Hm HQ. eapply holds_mono; [apply Hm| |]; intros x w2 H2%(above_unchanged (key p)).
  - apply HQ. exact (above_trans _ _ _ _ H1 H2).
  - apply above_tree. exact (above_trans _ _ _ _ H1 H2).
Qed.

(** Creating the staging place itself, after its parents. *)
Lemma outcome_holds p kind w w5 w6 :
  above (key p) w w5 -> create_outcome p kind w5 None w6 -> kind = EDirectory \/ kind = ESubvolume ->
  step [key p] w w6 /\ (wf (rw_entries w) -> tree w p = None -> fresh (tree w6 p)).
Proof.
  intros H5 [Hc|[Hu _]] Hk.
  - split; [eapply step_trans; [apply H5|by eapply created_step]|]. intros Hw _.
    eapply created_fresh; [exact Hc| |done]. apply H5. done.
  - pose proof (above_trans _ _ _ _ H5 (above_unchanged (key p) _ _ Hu)) as H06. split; [apply H06|]. intros _ Hn.
    left. by rewrite (proj2 (above_tree _ _ _ H06)).
Qed.

Lemma prepare_holds source p w :
  place p ->
  holds (prepare_copy_root source p) w
    (λ _ w', step [key p] w w' /\ (wf (rw_entries w) -> tree w p = None -> fresh (tree w' p)))
    (λ _ w', step [key p] w w' /\ tree w' p = tree w p).
Proof.
  intros Hp. unfold prepare_copy_root.
  apply holds_bind, above_quietly; [by apply above_unchanged|apply quietly_reject|]. intros _ w1 H1.
  apply holds_bind, above_quietly; [done|apply quietly_reject|]. intros _ w2 H2.
  apply holds_bind, above_quietly; [done|apply quietly_lstat_or_throw|]. intros status w3 H3.
  apply holds_bind. eapply holds_mono; [apply create_directories_holds, place_parents, Hp| |done].
  intros error w4 H4. pose proof (above_trans _ _ _ _ H3 H4) as H04.
  destruct error as [e|]; [by apply above_tree|].
  apply holds_bind, above_quietly; [done|apply quietly_reject|]. intros _ w5 H5. destruct (bool_decide _).
  - apply holds_bind. eapply holds_mono; [apply create_directory_holds| |done].
    intros [e|] w6 H6; [|by eapply outcome_holds; [exact H5|exact H6|left]].
    apply above_tree. eapply above_trans; [exact H5|]. by apply above_unchanged.
  - apply holds_ret. split; [apply H5|]. intros _ Hn. left. by rewrite (proj2 (above_tree _ _ _ H5)).
Qed.

Lemma subvolume_holds p w :
  place p ->
  holds (create_subvolume_root p) w
    (λ _ w', step [key p] w w' /\ (wf (rw_entries w) -> tree w p = None -> fresh (tree w' p)))
    (λ _ w', step [key p] w w' /\ tree w' p = tree w p).
Proof.
  intros Hp. unfold create_subvolume_root.
  apply holds_bind, above_quietly; [by apply above_unchanged|apply quietly_reject|]. intros _ w1 H1.
  apply holds_bind. eapply holds_mono; [apply create_directories_holds, place_parents, Hp| |done].
  intros error w4 H4. pose proof (above_trans _ _ _ _ H1 H4) as H04.
  destruct error as [e|]; [by apply above_tree|].
  apply holds_bind, above_quietly; [done|apply quietly_reject|]. intros _ w5 H5.
  apply holds_bind. eapply holds_mono; [apply subvolume_create_holds| |done].
  intros [e|] w6 H6; [|by eapply outcome_holds; [exact H5|exact H6|right]].
  apply above_tree. eapply above_trans; [exact H5|]. by apply above_unchanged.
Qed.

(** ** Moving and removing *)

Lemma exists_holds p w :
  holds (posix_exists p) w
    (λ b w', unchanged w w' /\ ((forall n, m_faults (rw_machine w) n (SExists p) = None) ->
       b = match rw_entries w !! key p with Some _ => true | None => false end))
    (λ _ _, False).
Proof.
  unfold posix_exists. apply holds_bind, holds_sys. intros fault Hf. apply holds_look. split; [done|].
  intros Hn. rewrite Hn in Hf. subst fault. change (rw_entries (called w)) with (rw_entries w).
  destruct (rw_entries w !! key p) as [e|]; [done|]. unfold missing. by destruct (existsb _ _).
Qed.

Lemma rename_error_None from to es :
  rename_error from to es = None -> is_Some (es !! from) /\ strip from to = None /\ parent_error to es = None.
Proof.
  unfold rename_error. destruct (es !! from) as [e|]; [|done]. case_bool_decide as E; [|done].
  destruct (parent_error to es); [done|]. intros _. by split_and!.
Qed.

Lemma touch_incomparable now k q es : incomparable k q -> touch now k es !! q = es !! q.
Proof. intros H%incomparable_parent. rewrite lookup_touch. by case_decide. Qed.

Lemma removelast_not_below (k k' r : Key) : incomparable k k' -> removelast k <> k' ++ r.
Proof.
  intros [_ H] E. apply strip_None in H. apply H. etrans; [|apply removelast_prefix]. rewrite E. by eexists.
Qed.

Lemma removelast_not_self (k r : Key) : k <> [] -> removelast k <> k ++ r.
Proof.
  intros (l & x & ->)%exists_last E. rewrite removelast_last in E. apply (f_equal length) in E.
  rewrite !length_app in E. cbn in E. lia.
Qed.

Lemma incomparable_nonempty k k' : incomparable k k' -> k <> [].
Proof. intros [H _] ->. by destruct k'. Qed.

Lemma move_holds source p w :
  apart source p ->
  holds (posix_move source p) w
    (λ _ w', step [key source; key p] w w' /\ tree w' p = tree w source /\ tree w' source = None)
    (λ e w', unchanged w w' /\ telling e).
Proof.
  intros Hap. assert (forall A (m : SE RW A) w1 (Q : A -> RW -> Prop), unchanged w w1 -> quietly A m -> tells m ->
    (forall a w2, unchanged w w2 -> Q a w2) -> holds m w1 Q (λ e w', unchanged w w' /\ telling e)) as Hq.
  { intros A m w1 Q [U1 U2] Hm Ht HQ. specialize (Hm w1). specialize (Ht w1). unfold holds in *.
    destruct (m w1) as [[a|e] w2]; destruct Hm as [U3 U4]; [apply HQ|split; [|done]]; split; congruence. }
  unfold posix_move. apply holds_bind, Hq; [done|apply quietly_reject|apply tells_reject|]. intros _ w1 H1.
  apply holds_bind, Hq; [done|apply quietly_reject|apply tells_reject|]. intros _ w2 H2.
  apply holds_bind. unfold rename. apply holds_bind, holds_sys. intros fault _. apply holds_bind, holds_look.
  apply holds_bind, holds_turn. change (rw_entries (called w2)) with (rw_entries w2).
  change (rw_machine (called w2)) with (rw_machine w2).
  destruct fault as [e|]; [by split; [split; apply H2|split]|].
  destruct (rename_error _ _ _) as [e|] eqn:Er; [by split; [split; apply H2|split]|].
  apply rename_error_None in Er as (_ & _ & Hpe). apply holds_bind, holds_modify, holds_ret, holds_ret.
  destruct H2 as [Hm He]. cbn [fst snd]. set (now := m_now _ _).
  assert (forall q, q <> removelast (key p) -> q <> removelast (key source) ->
    touch now (key p) (touch now (key source) (move_tree (key source) (key p) (rw_entries w2))) !! q
    = move_tree (key source) (key p) (rw_entries w2) !! q) as Htt.
  { intros q Hq1 Hq2. rewrite !lookup_touch. do 2 (case_decide; [done|]). done. }
  split.
  - split; cbn -[key].
    + done.
    + intros Hw. apply wf_touch, wf_touch, wf_move_tree; [by rewrite He|done|apply key_good|done].
    + intros q [Hq1 [Hq2 _]%Forall_cons]%Forall_cons. rewrite Htt by (by apply incomparable_parent).
      rewrite lookup_move_tree by done. destruct Hq1 as [-> _], Hq2 as [-> _]. by rewrite He.
  - split; [apply tree_ext|apply tree_None]; cbn -[key].
    + intros r. rewrite Htt, lookup_move_tree, strip_app by first
        [done|intros E; symmetry in E; revert E; apply removelast_not_self;
              by eapply incomparable_nonempty, incomparable_sym
        |intros E; symmetry in E; by apply removelast_not_below in E]. by rewrite He.
    + rewrite Htt, lookup_move_tree, strip_refl; [by destruct Hap as [_ ->]|done| |].
      * intros E. rewrite <- (app_nil_r (key source)) in E. symmetry in E.
        by apply removelast_not_below in E; [|apply incomparable_sym].
      * intros E. rewrite <- (app_nil_r (key source)) in E at 1. symmetry in E.
        apply removelast_not_self in E; [done|by eapply incomparable_nonempty].
Qed.

Lemma unlinked_frame now k q q' es :
  strip k q <> None -> incomparable k q' -> touch now q (delete q es) !! q' = es !! q'.
Proof.
  intros Hq Hi. destruct (strip k q) as [r|] eqn:E; [|done]. apply strip_Some in E as ->.
  rewrite lookup_touch, decide_False.
  - rewrite lookup_delete_ne; [done|]. intros <-. destruct Hi as [Hi _]. by rewrite strip_app in Hi.
  - destruct r as [|x r _] using rev_ind.
    + rewrite app_nil_r. by apply incomparable_parent.
    + rewrite app_assoc, removelast_last. intros ->. destruct Hi as [Hi _]. by rewrite strip_app in Hi.
Qed.

Lemma unlinked_none now q q' es : es !! q' = None \/ q' = q -> touch now q (delete q es) !! q' = None.
Proof.
  intros H. rewrite lookup_touch. destruct (decide (q' = q)) as [->|Hne].
  - rewrite lookup_delete_eq. by case_decide.
  - rewrite lookup_delete_ne by done. destruct H as [->|]; [|done]. by case_decide.
Qed.

Lemma unlink_all_holds k ks w :
  Forall (λ q, strip k q <> None) ks ->
  holds (unlink_all ks) w
    (λ error w', step [k] w w' /\ (forall q, rw_entries w !! q = None \/ (error = None /\ q ∈ ks) ->
                                             rw_entries w' !! q = None))
    (λ _ _, False).
Proof.
  intros Hks. revert w. induction Hks as [|q ks Hq _ IH]; intros w; cbn [unlink_all].
  { apply holds_ret. split; [apply step_refl|]. intros q [?|[_ H]]; [done|]. by apply not_elem_of_nil in H. }
  assert (step [k] w (called w)) as Hcall by (by apply step_unchanged).
  apply holds_bind, holds_sys. intros fault _. apply holds_bind, holds_look.
  change (rw_entries (called w)) with (rw_entries w).
  destruct fault; [apply holds_ret; split; [done|]; by intros q' [?|[? _]]|].
  destruct (children (rw_entries w) q) as [|n l] eqn:Ec;
    [|apply holds_ret; split; [done|]; by intros q' [?|[? _]]].
  apply holds_bind, holds_turn, holds_bind, holds_modify. set (w1 := _ <| rw_entries := _ |>).
  assert (step [k] w w1) as H1.
  { split; cbn; [done| |].
    - intros Hw. by apply wf_touch, wf_delete.
    - intros q'. rewrite Forall_singleton. intros Hi. by apply (unlinked_frame _ k). }
  eapply holds_mono; [apply IH| |done]. intros error w2 [H2 Hn]. split; [exact (step_trans _ _ _ _ H1 H2)|].
  intros q' [Hq'|[He [->|Hin]%elem_of_cons]]; apply Hn.
  - left. cbn. apply unlinked_none. by left.
  - left. cbn. apply unlinked_none. by right.
  - by right.
Qed.

Lemma elem_of_removal_order es k q : q ∈ removal_order es k <-> is_Some (es !! q) /\ strip k q <> None.
Proof.
  unfold removal_order. unfold std_sort. rewrite merge_sort_Permutation, list_elem_of_omap. split.
  - intros ([q' e] & Hin & H). cbn in H. destruct (strip k q') eqn:E; simplify_eq.
    apply elem_of_map_to_list in Hin. rewrite E. by split.
  - intros [[e He] Hs]. exists (q, e). split; [by apply elem_of_map_to_list|]. cbn. by destruct (strip k q).
Qed.

Lemma remove_all_holds p w :
  holds (remove_all p) w
    (λ error w', step [key p] w w' /\ (error = None -> rw_entries w' !! key p = None)) (λ _ _, False).
Proof.
  unfold remove_all. apply holds_bind, holds_look. eapply holds_mono; [apply (unlink_all_holds (key p))| |done].
  - apply Forall_forall. intros q [_ Hq]%elem_of_removal_order. done.
  - intros error w' [Hs Hn]. split; [done|]. intros ->. apply Hn.
    destruct (rw_entries w !! key p) as [e|] eqn:E; [right|by left]. split; [done|].
    apply elem_of_removal_order. rewrite E, strip_refl. by split.
Qed.

Lemma clean_subvolume_holds p names w :
  Forall good_name names ->
  holds (clean_subvolume p names) w (λ _ w', step [key p] w w') (λ e w', step [key p] w w' /\ telling e).
Proof.
  intros Hn. revert w. induction Hn as [|n names Hn _ IH]; intros w; cbn [clean_subvolume].
  { apply holds_ret, step_refl. }
  apply holds_bind. eapply holds_mono; [apply remove_all_holds| |done]. intros error w1 [H1 _].
  rewrite key_child in H1 by done. apply step_child in H1. destruct error as [e|]; [by split; [|split]|].
  eapply holds_mono; [apply IH| |].
  - intros [] w2 H2. exact (step_trans _ _ _ _ H1 H2).
  - intros e w2 [H2 Ht]. split; [|done]. exact (step_trans _ _ _ _ H1 H2).
Qed.

Lemma children_good es k : wf es -> Forall good_name (children es k).
Proof.
  intros Hw. apply Forall_forall. intros n [e He]%elem_of_children. apply wf_names in He; [|done].
  apply Forall_app in He as [_ He]. by inversion He.
Qed.

Lemma remove_holds p w :
  wf (rw_entries w) -> (forall n, m_faults (rw_machine w) n (SExists p) = None) ->
  holds (remove_owned_tree p) w
    (λ _ w', step [key p] w w' /\ tree w' p = None) (λ e w', step [key p] w w' /\ telling e).
Proof.
  intros Hw Hf. unfold remove_owned_tree. apply holds_bind. eapply holds_mono; [apply exists_holds| |done].
  intros there w1 [U1 Ht]. specialize (Ht Hf). pose proof (step_unchanged [key p] _ _ U1) as H1.
  destruct there; cbn [negb].
  2:{ apply holds_ret. split; [done|]. apply tree_None. rewrite (proj2 U1). by destruct (rw_entries w !! key p). }
  apply holds_bind. unfold is_subvolume. apply holds_bind, holds_sys. intros fault _. apply holds_look.
  assert (unchanged w (called w1)) as U2 by (split; apply U1). clear Ht. generalize (called w1) U2. clear U1 H1 w1 U2.
  intros w1 U1. pose proof (step_unchanged [key p] _ _ U1) as H1. case_match.
  - apply holds_bind. unfold read_directory. apply holds_bind, holds_sys. intros fault2 _.
    destruct fault2 as [e|]; [split; [apply step_unchanged; split; apply U1|by split]|]. apply holds_look. apply holds_bind.
    assert (step [key p] w (called w1)) as H2 by (apply step_unchanged; split; apply U1).
    eapply holds_mono; [apply clean_subvolume_holds, children_good| |].
    + change (wf (rw_entries w1)). by rewrite (proj2 U1).
    + intros [] w2 H3. pose proof (step_trans _ _ _ _ H2 H3) as H4. apply holds_bind, holds_sys. intros fault3 _.
      assert (step [key p] w (called w2)) as H5 by (eapply step_trans; [exact H4|by apply step_unchanged]).
      destruct fault3 as [e|]; [split; [exact H5|by split]|]. apply holds_bind, holds_turn, holds_modify.
      assert (forall q, incomparable (key p) q -> forall now es,
        touch now (key p) (remove_tree (key p) es) !! q = es !! q) as Hfr.
      { intros q Hq now es. rewrite touch_incomparable, lookup_remove_tree by done. destruct Hq as [-> _]. done. }
      split.
      * eapply step_trans; [exact H5|]. split; cbn -[key]; [done| |].
        { intros Hw2. by apply wf_touch, wf_remove_tree. }
        intros q. rewrite Forall_singleton. intros Hq. by apply Hfr.
      * apply tree_None. cbn -[key]. rewrite lookup_touch, lookup_remove_tree, strip_refl. by case_decide.
    + intros e w2 [H3 Ht]. split; [|done]. exact (step_trans _ _ _ _ H2 H3).
  - apply holds_bind. eapply holds_mono; [apply remove_all_holds| |done]. intros error w2 [H2 Hn].
    pose proof (step_trans _ _ _ _ H1 H2) as H3. destruct error as [e|]; [split; [exact H3|by split]|].
    apply holds_ret. split; [done|]. apply tree_None. by apply Hn.
Qed.

(** ** Copying: what changes *)

Definition timeless (e : Entry) : Entry := e <| en_mtime := 0 |>.

(** Only what is at and below [k], and the time of the directory it is in. *)
Record sub (k : Key) (w w' : RW) : Prop := mk_sub {
  sub_machine : rw_machine w' = rw_machine w;
  sub_wf : wf (rw_entries w) -> wf (rw_entries w');
  sub_frame q : strip k q = None -> q <> removelast k -> rw_entries w' !! q = rw_entries w !! q;
  sub_parent : k <> [] -> timeless <$> rw_entries w' !! removelast k = timeless <$> rw_entries w !! removelast k;
}.

(** Only what is at [k]. *)
Record local (k : Key) (w w' : RW) : Prop := mk_local {
  local_machine : rw_machine w' = rw_machine w;
  local_wf : wf (rw_entries w) -> wf (rw_entries w');
  local_frame q : q <> k -> rw_entries w' !! q = rw_entries w !! q;
}.

Lemma sub_trans k w1 w2 w3 : sub k w1 w2 -> sub k w2 w3 -> sub k w1 w3.
Proof.
  intros [M1 W1 F1 P1] [M2 W2 F2 P2]. split; [congruence|auto| |].
  - intros q H1 H2. by rewrite F2, F1.
  - intros Hk. by rewrite P2, P1.
Qed.

Lemma local_trans k w1 w2 w3 : local k w1 w2 -> local k w2 w3 -> local k w1 w3.
Proof. intros [M1 W1 F1] [M2 W2 F2]. split; [congruence|auto|]. intros q Hq. by rewrite F2, F1. Qed.

Lemma local_unchanged k w w' : unchanged w w' -> local k w w'.
Proof. intros [Hm He]. split; [done|by rewrite He|]. by rewrite He. Qed.

Lemma removelast_ne (k : Key) : k <> [] -> removelast k <> k.
Proof. intros Hk E. apply (removelast_not_self k [] Hk). by rewrite app_nil_r. Qed.

Lemma strip_removelast (k : Key) : k <> [] -> strip k (removelast k) = None.
Proof.
  intros Hk. destruct (strip k (removelast k)) as [r|] eqn:E; [|done]. apply strip_Some in E.
  by apply removelast_not_self in E.
Qed.

Lemma local_sub k w w' : local k w w' -> sub k w w'.
Proof.
  intros [Hm Hw Hf]. split; [done|done| |].
  - intros q Hq _. apply Hf. intros ->. by rewrite strip_refl in Hq.
  - intros Hk. by rewrite Hf by (by apply removelast_ne).
Qed.

Lemma sub_step k w w' : sub k w w' -> step [k] w w'.
Proof.
  intros [Hm Hw Hf _]. split; [done|done|]. intros q. rewrite Forall_singleton. intros Hq.
  apply Hf; [apply Hq|by apply incomparable_parent].
Qed.

Lemma sub_child k n w w' : sub (k ++ [n]) w w' -> sub k w w'.
Proof.
  intros [Hm Hw Hf _]. assert (forall q, strip k q = None -> strip (k ++ [n]) q = None) as Hs.
  { intros q. rewrite !strip_None. intros H [r ->]. apply H. exists ([n] ++ r). by rewrite app_assoc. }
  rewrite removelast_last in Hf. split; [done|done| |].
  - intros q Hq _. apply Hf; [by apply Hs|]. intros ->. by rewrite strip_refl in Hq.
  - intros Hk. rewrite Hf; [done|by apply Hs, strip_removelast|by apply removelast_ne].
Qed.

(** What lies elsewhere is as it was. *)
Lemma sub_elsewhere k w w' q r : sub k w w' -> incomparable k q -> rw_entries w' !! (q ++ r) = rw_entries w !! (q ++ r).
Proof.
  intros [_ _ Hf _] Hi. apply (incomparable_app _ _ r) in Hi. apply Hf; [apply Hi|by apply incomparable_parent].
Qed.

Lemma created_sub p kind w w' : created p kind w w' -> sub (key p) w w'.
Proof.
  intros Hc. split; [apply Hc|by eapply created_wf| |].
  - intros q Hq Hp. eapply created_lookup; [exact Hc| |done]. intros ->. by rewrite strip_refl in Hq.
  - intros Hk. destruct Hc as (_ & _ & _ & now & e & -> & _). unfold add_entry.
    rewrite lookup_insert_ne by (by apply not_eq_sym, removelast_ne).
    rewrite lookup_touch, decide_True by done. by destruct (rw_entries w !! removelast (key p)).
Qed.

(** A computation that changes [k] only. *)
Definition locally (k : Key) {A} (m : SE RW A) : Prop :=
  forall w, holds m w (λ _ w', local k w w') (λ _ w', local k w w').

Lemma locally_quietly k {A} (m : SE RW A) : quietly A m -> locally k m.
Proof. intros Hm w. eapply holds_mono; [apply Hm| |]; intros ? w' H; by apply local_unchanged. Qed.

(** An entry after a change of an operation on [p]. *)
Definition updates (f : Entry -> Entry) : Prop :=
  (forall e, is_dir (f e) = is_dir e) /\
  (forall e, NoDup (map fst (en_xattrs e)) -> NoDup (map fst (en_xattrs (f e)))).

Lemma update_holds p f w :
  updates f ->
  holds (update p f) w
    (λ _ w', local (key p) w w' /\ rw_entries w' !! key p = f <$> rw_entries w !! key p) (λ _ _, False).
Proof.
  intros [Hd Hx]. unfold update. apply holds_modify. split; [split; cbn -[key]|].
  - done.
  - intros Hw. by apply wf_alter.
  - intros q Hq. by apply lookup_alter_ne.
  - cbn -[key]. apply lookup_alter_eq.
Qed.

Lemma updates_data f : updates (set_data f).
Proof. unfold updates, set_data. split; intros e; destruct e as [[] ? ? ? ? ? ? ?]; by cbn. Qed.

(** The entry of a file with some data. *)
Definition with_data (e : Entry) (data : string) : Entry := e <| en_kind := ERegular data |>.

Lemma set_data_with f e data : en_kind e = ERegular data -> exists data', set_data f e = with_data e data'.
Proof. intros E. exists (f data). unfold set_data. by rewrite E. Qed.

(** A regular file at [k] that differs from [e] in its data at most. *)
Definition filed (k : Key) (e : Entry) (w : RW) : Prop := exists data, rw_entries w !! k = Some (with_data e data).

(** The outcomes of a step of a copy to [k]. *)
Definition keeps_filed (k : Key) (e : Entry) (w : RW) {A} (m : SE RW A) : Prop :=
  holds m w (λ _ w', local k w w' /\ filed k e w') (λ _ w', local k w w').

Lemma filed_bind k e w {A B} (m : SE RW A) (f : A -> SE RW B) :
  keeps_filed k e w m -> (forall a w', local k w w' -> filed k e w' -> keeps_filed k e w' (f a)) -> keeps_filed k e w (m ≫= f).
Proof.
  intros Hm Hf. apply holds_bind. eapply holds_mono; [exact Hm| |done]. intros a w1 [H1 F1].
  eapply holds_mono; [by apply Hf| |].
  - intros b w2 [H2 F2]. split; [|done]. exact (local_trans _ _ _ _ H1 H2).
  - intros e' w2 H2. exact (local_trans _ _ _ _ H1 H2).
Qed.

Lemma filed_quietly k e w {A} (m : SE RW A) : quietly A m -> filed k e w -> keeps_filed k e w m.
Proof.
  intros Hm [data He]. eapply holds_mono; [apply Hm| |]; intros ? w' H; [split|]; try by apply local_unchanged.
  exists data. by rewrite (proj2 H).
Qed.

Lemma filed_ret k e w {A} (a : A) : filed k e w -> keeps_filed k e w (mret a).
Proof. apply filed_quietly, quietly_ret. Qed.

Lemma filed_update p e w f : filed (key p) e w -> keeps_filed (key p) e w (update p (set_data f)).
Proof.
  intros [data He]. eapply holds_mono; [apply update_holds, updates_data| |done]. intros _ w' [H1 H2].
  split; [done|]. rewrite He in H2. exists (f data). by rewrite H2.
Qed.

Lemma write_all_keeps fuel p e rest w : filed (key p) e w -> keeps_filed (key p) e w (write_all fuel p rest).
Proof.
  revert rest w. induction fuel as [|fuel IH]; intros rest w Hf; cbn [write_all]; [by apply filed_ret|].
  destruct (str_empty rest); [by apply filed_ret|].
  apply filed_bind; [apply filed_quietly; [apply quietly_turn|done]|]. intros t w1 _ F1.
  apply filed_bind; [apply filed_quietly; [apply quietly_must|done]|]. intros _ w2 _ F2.
  destruct (_ =? 0)%nat; [apply filed_quietly; [apply quietly_failure|done]|].
  apply filed_bind; [by apply filed_update|]. intros _ w3 _ F3. by apply IH.
Qed.

Section copying.
Context (token : CancellationToken RW) (progress : option (RestoreProgress -> SE RW unit)).
Context (Htoken : quietly _ (token_read token))
  (Hprogress : forall sink x, progress = Some sink -> quietly _ (sink x)).

Lemma quietly_report statistics source : quietly _ (report_progress progress statistics source).
Proof.
  unfold report_progress. destruct progress as [sink|] eqn:E; [by apply Hprogress|apply quietly_ret].
Qed.

Lemma quietly_times n (m : SE RW unit) : quietly _ m -> quietly _ (times n m).
Proof. intros Hm. induction n as [|n IH]; cbn [times]; touches. Qed.

Lemma copy_data_keeps fuel source p e rest statistics w :
  filed (key p) e w -> keeps_filed (key p) e w (copy_data token progress fuel source p rest statistics).
Proof.
  revert rest statistics w. induction fuel as [|fuel IH]; intros rest statistics w Hf; cbn [copy_data];
    [by apply filed_ret|].
  apply filed_bind; [apply filed_quietly; [apply quietly_turn|done]|]. intros t w1 _ F1.
  apply filed_bind; [apply filed_quietly; [by apply quietly_times, quietly_cancelled|done]|]. intros _ w2 _ F2.
  apply filed_bind; [apply filed_quietly; [apply quietly_must|done]|]. intros _ w3 _ F3.
  destruct (str_empty rest); [by apply filed_ret|].
  apply filed_bind; [by apply write_all_keeps|]. intros _ w4 _ F4.
  apply filed_bind; [apply filed_quietly; [apply quietly_report|done]|]. intros _ w5 _ F5. by apply IH.
Qed.

(** Opening the file to write, where nothing was. *)
Lemma open_output_holds p w :
  rw_entries w !! key p = None ->
  holds (open_output p) w
    (λ _ w', sub (key p) w w' /\ exists e, filed (key p) e w' /\ en_pinned e = false)
    (λ _ w', sub (key p) w w').
Proof.
  intros Hn. unfold open_output. assert (unchanged w (called w)) as U by done.
  assert (sub (key p) w (called w)) as HS by (by apply local_sub, local_unchanged).
  apply holds_bind, holds_sys. intros fault _. apply holds_bind, holds_look.
  change (rw_entries (called w)) with (rw_entries w). rewrite Hn.
  destruct fault as [e|]; [exact HS|]. destruct (parent_error _ _) eqn:Ep; [exact HS|].
  eapply holds_mono; [by apply create_holds| |done]. intros [] w' Hc.
  pose proof (created_sub _ _ _ _ Hc) as H1. split; [exact (sub_trans _ _ _ _ HS H1)|].
  apply created_entry in Hc as (e & He & Hk & Hp & _). exists e. split; [|done]. exists "".
  rewrite He. f_equal. unfold with_data. destruct e; cbn in *. by subst.
Qed.

(** ** Copying: what is verified *)

(** The streams of the verification of two files, and what they have still to read. *)
Lemma read_block_holds p s w :
  holds (read_block p s) w
    (λ x w', unchanged w w' /\
       (if sm_good s then
          (x.1 = str_take buffer_size (sm_rest s) /\ sm_rest x.2 = str_drop buffer_size (sm_rest s)
           /\ sm_good x.2 = (buffer_size <=? String.length (sm_rest s))%nat /\ sm_bad x.2 = false)
          \/ (sm_good x.2 = false /\ sm_bad x.2 = true)
        else x = ("", s)))
    (λ _ _, False).
Proof.
  unfold read_block. destruct (sm_good s) eqn:E; cbn [negb]; [|by apply holds_ret].
  apply holds_bind, holds_sys. intros fault _. destruct fault; apply holds_ret; (split; [done|]); [by right|by left].
Qed.

Lemma str_take_drop n s : str_take n s +:+ str_drop n s = s.
Proof. revert s. induction n as [|n IH]; intros [|c s]; cbn; [done..|]. by rewrite IH. Qed.

Lemma str_drop_short n s : (String.length s < n)%nat -> str_drop n s = "".
Proof. revert s. induction n as [|n IH]; intros [|c s]; cbn; intros H; try done; [lia|]. apply IH. lia. Qed.

Lemma str_take_short n s : (String.length s < n)%nat -> str_take n s = s.
Proof. intros H. pose proof (str_take_drop n s) as E. rewrite str_drop_short, string_app_nil_r in E by done. done. Qed.

Lemma str_take_length n s : (n <= String.length s)%nat -> String.length (str_take n s) = n.
Proof. revert s. induction n as [|n IH]; intros [|c s]; cbn; intros H; try done; [lia|]. by rewrite IH by lia. Qed.

Definition broken (s : Stream) : Prop := sm_good s = false /\ sm_bad s = true.

(** A stream that failed to read is never taken for a file that was read. *)
Lemma verify_broken fuel source p left right w :
  broken left \/ broken right ->
  holds (verify_blocks token fuel source p left right) w (λ _ _, False) (λ _ w', unchanged w w').
Proof.
  revert left right w. induction fuel as [|fuel IH]; intros left right w Hb; cbn [verify_blocks].
  - destruct (negb (sm_good left || sm_good right)) eqn:E; [|done]. assert (sm_bad left || sm_bad right = true) as ->; [|done].
    destruct Hb as [[_ ->]|[_ ->]]; [done|by rewrite orb_true_r].
  - destruct (negb (sm_good left || sm_good right)) eqn:E.
    { assert (sm_bad left || sm_bad right = true) as ->; [|done].
      destruct Hb as [[_ ->]|[_ ->]]; [done|by rewrite orb_true_r]. }
    apply holds_bind. eapply holds_mono; [by apply quietly_cancelled| |done]. intros [] w1 U1.
    apply holds_bind. eapply holds_mono; [apply read_block_holds| |done]. intros l w2 [U2 Hl].
    apply holds_bind. eapply holds_mono; [apply read_block_holds| |done]. intros r w3 [U3 Hr].
    assert (unchanged w w3) as U by (destruct U1, U2, U3; split; congruence).
    destruct (negb (String.eqb l.1 r.1)); [exact U|].
    eapply holds_mono; [apply IH|done|intros e w4 [U4 U5]; destruct U; split; congruence].
    destruct Hb as [[Hg Hbad]|[Hg Hbad]]; [left|right].
    + rewrite Hg in Hl. subst l. by split.
    + rewrite Hg in Hr. subst r. by split.
Qed.

(** The verification accepts only files with the same data, when both could be opened. *)
Lemma verify_blocks_holds fuel source p left right w :
  holds (verify_blocks token fuel source p left right) w
    (λ _ w', unchanged w w' /\ (sm_good left = true -> sm_good right = true -> sm_rest left = sm_rest right))
    (λ _ w', unchanged w w').
Proof.
  revert left right w. induction fuel as [|fuel IH]; intros left right w; cbn [verify_blocks].
  { destruct (negb (sm_good left || sm_good right)) eqn:E; [|done]. destruct (sm_bad left || sm_bad right); [done|]. apply holds_ret. split; [done|].
    intros Hl. by rewrite Hl in E. }
  destruct (negb (sm_good left || sm_good right)) eqn:E.
  { destruct (sm_bad left || sm_bad right); [done|]. apply holds_ret. split; [done|]. intros Hl. by rewrite Hl in E. }
  apply holds_bind. eapply holds_mono; [by apply quietly_cancelled| |done]. intros [] w1 U1.
  apply holds_bind. eapply holds_mono; [apply read_block_holds| |done]. intros l w2 [U2 Hl].
  apply holds_bind. eapply holds_mono; [apply read_block_holds| |done]. intros r w3 [U3 Hr].
  assert (unchanged w w3) as U by (destruct U1, U2, U3; split; congruence).
  assert (forall w4, unchanged w3 w4 -> unchanged w w4) as Utr by (intros w4 []; destruct U; split; congruence).
  destruct (String.eqb_spec l.1 r.1) as [Elr|]; cbn [negb]; [|exact U].
  destruct (sm_good left) eqn:Gl, (sm_good right) eqn:Gr;
    try (eapply holds_mono; [apply IH|intros [] w4 [U4 _]; split; [by apply Utr|done]|intros e w4; apply Utr]).
  destruct Hl as [(L1 & L2 & L3 & L4)|Hbad];
    [|eapply holds_mono; [apply verify_broken; by left|done|auto]].
  destruct Hr as [(R1 & R2 & R3 & R4)|Hbad];
    [|eapply holds_mono; [apply verify_broken; by right|done|auto]].
  eapply holds_mono; [apply IH| |auto]. intros [] w4 [U4 Hrest]. split; [by apply Utr|]. intros _ _.
  rewrite L1, R1 in Elr. rewrite L2, R2, L3, R3 in Hrest.
  destruct (Nat.leb_spec buffer_size (String.length (sm_rest left))) as [Hll|Hll],
    (Nat.leb_spec buffer_size (String.length (sm_rest right))) as [Hrl|Hrl].
  - rewrite <- (str_take_drop buffer_size (sm_rest left)), <- (str_take_drop buffer_size (sm_rest right)).
    by rewrite Elr, Hrest.
  - apply (f_equal String.length) in Elr. rewrite str_take_length, str_take_short in Elr by done. lia.
  - apply (f_equal String.length) in Elr. rewrite str_take_short, str_take_length in Elr by done. lia.
  - by rewrite !str_take_short in Elr.
Qed.

Lemma verify_holds source p w :
  (forall n q, m_faults (rw_machine w) n (SVerifyOpen q) = None) ->
  holds (verify_regular_file token source p) w
    (λ _ w', unchanged w w' /\ file_data (rw_entries w) source = file_data (rw_entries w) p)
    (λ _ w', unchanged w w').
Proof.
  intros Hf. unfold verify_regular_file, open_stream.
  apply holds_bind, holds_bind, holds_sys. intros f1 ->. rewrite Hf. apply holds_look.
  apply holds_bind, holds_bind, holds_sys. intros f2 ->. change (rw_machine (called w)) with (rw_machine w).
  rewrite Hf. apply holds_look.
  eapply holds_mono; [apply verify_blocks_holds| |]; cbn [sm_rest sm_good].
  - intros [] w' [U Hd]. split; [exact U|]. by apply Hd.
  - intros e w' U. exact U.
Qed.

End copying.

(** ** Copying: metadata *)

(** What [lstat_or_throw] sees of an entry. *)
Definition seen (p : path) (e : Entry) : Stat :=
  if path_eqb (parent_path p) "/proc/self/fd" then stat_of e else shown e.

Lemma lstat_or_throw_holds p w :
  holds (lstat_or_throw p) w
    (λ s w', unchanged w w' /\ exists e, rw_entries w !! key p = Some e /\ s = seen p e)
    (λ _ w', unchanged w w').
Proof.
  unfold lstat_or_throw, seen, stat, lstat, lookup_with. apply holds_bind. destruct (path_eqb _ _).
  - apply holds_bind, holds_sys. intros fault _. apply holds_look. change (rw_entries (called w)) with (rw_entries w).
    destruct fault; [done|]. destruct (rw_entries w !! key p) as [e|] eqn:E; [|done].
    case_bool_decide; [done|]. apply holds_ret. split; [done|]. by exists e.
  - apply holds_bind, holds_sys. intros fault _. apply holds_look. change (rw_entries (called w)) with (rw_entries w).
    destruct fault; [done|]. destruct (rw_entries w !! key p) as [e|] eqn:E; [|done].
    apply holds_ret. split; [done|]. by exists e.
Qed.

(** A file or a directory is seen as it is. *)
Lemma seen_plain p e : s_kind (seen p e) <> KSymlink -> seen p e = stat_of e.
Proof. unfold seen, shown. destruct (path_eqb _ _); [done|]. by destruct (en_pinned e). Qed.

Lemma seen_unpinned p e : en_pinned e = false -> seen p e = stat_of e.
Proof. unfold seen, shown. intros ->. by destruct (path_eqb _ _). Qed.

(** The attributes of [s] that a copy [e] has to have: capabilities are lost when the owner of a
    file is set. *)
Definition xattrs_copied (euid : Z) (s e : Entry) : Prop :=
  forall x, x ∈ en_xattrs s ->
    x ∈ en_xattrs e \/ (euid = 0 /\ is_dir e = false /\ x.1 = "security.capability").

(** What a file does not have once its owner was set: the set-user-ID bit and capabilities. *)
Definition unprivileged (e : Entry) : Prop :=
  Z.testbit (en_mode e) 11 = false /\ Forall (λ x, x.1 <> "security.capability") (en_xattrs e).

Definition meta_copied (euid : Z) (s e : Entry) : Prop :=
  Z.land (en_mode e) 4095 = Z.land (en_mode s) 4095
  /\ (euid = 0 -> en_uid e = en_uid s /\ en_gid e = en_gid s)
  /\ en_mtime e = en_mtime s /\ xattrs_copied euid s e
  /\ (euid = 0 -> is_dir e = false -> unprivileged e).

Definition set_xattrs (l : list (string * string)) (e : Entry) : Entry :=
  e <| en_xattrs := foldl (λ a x, set_xattr x.1 x.2 a) (en_xattrs e) l |>.

Lemma set_xattr_NoDup n v l : NoDup (map fst l) -> NoDup (map fst (set_xattr n v l)).
Proof.
  intros H. unfold set_xattr. cbn. constructor.
  - intros ([n' v'] & -> & Hin)%list_elem_of_fmap. by apply list_elem_of_filter in Hin as [Hne _].
  - induction l as [|[n' v'] l IH]; [constructor|]. cbn in H. apply NoDup_cons in H as [Hn H].
    rewrite filter_cons. case_decide; [|by apply IH]. cbn. constructor; [|by apply IH].
    intros ([n2 v2] & -> & [_ Hin]%list_elem_of_filter)%list_elem_of_fmap. apply Hn.
    by apply list_elem_of_fmap_2 with (f := fst) in Hin.
Qed.

Lemma foldl_set_xattr_elem l a x :
  NoDup (map fst l) -> (x ∈ l \/ (x ∈ a /\ (x.1 ∉ map fst l))) ->
  x ∈ foldl (λ a x, set_xattr x.1 x.2 a) a l.
Proof.
  revert a. induction l as [|y l IH]; intros a; cbn [map foldl].
  - intros _ [H|[H _]]; [by apply not_elem_of_nil in H|done].
  - intros [Hy Hl]%NoDup_cons [Hx|[Hx Hn]]; apply IH; try done.
    + apply elem_of_cons in Hx as [->|Hx]; [|by left]. right. split; [|done]. destruct y. by left.
    + apply not_elem_of_cons in Hn as [Hn1 Hn2]. right. split; [|done]. right.
      apply list_elem_of_filter. by split.
Qed.

Lemma copy_xattrs_holds source p l w :
  holds (copy_xattrs source p l) w
    (λ _ w', local (key p) w w' /\ rw_entries w' !! key p = set_xattrs l <$> rw_entries w !! key p)
    (λ _ w', local (key p) w w').
Proof.
  revert w. induction l as [|[n v] l IH]; intros w; cbn [copy_xattrs].
  { apply holds_ret. split; [by apply local_unchanged|]. destruct (rw_entries w !! key p) as [e|]; [|done].
    cbn. by destruct e. }
  assert (forall A (m : SE RW A) w1 (Q : A -> RW -> Prop), unchanged w w1 -> quietly A m ->
    (forall a w2, unchanged w w2 -> Q a w2) -> holds m w1 Q (λ _ w', local (key p) w w')) as Hq.
  { intros A m w1 Q [] Hm HQ. eapply holds_mono; [apply Hm| |]; intros ? w2 []; [apply HQ|apply local_unchanged];
      split; congruence. }
  apply holds_bind. unfold copy_xattr.
  apply holds_bind, Hq; [done|apply quietly_must_code|]. intros _ w1 U1.
  apply holds_bind, Hq; [done|destruct (str_empty v); [apply quietly_ret|apply quietly_must_code]|]. intros _ w2 U2.
  apply holds_bind, Hq; [done|apply quietly_must|]. intros _ w3 U3.
  eapply holds_mono; [apply update_holds| |done].
  { split; [done|]. intros e. apply set_xattr_NoDup. }
  intros _ w4 [L4 E4]. assert (local (key p) w w4) as L by (eapply local_trans; [by apply local_unchanged|done]).
  eapply holds_mono; [apply IH| |].
  - intros _ w5 [L5 E5]. split; [exact (local_trans _ _ _ _ L L5)|]. rewrite E5, E4, (proj2 U3).
    by destruct (rw_entries w !! key p).
  - intros e w5 L5. exact (local_trans _ _ _ _ L L5).
Qed.

(** A step of a change of [k] that touches nothing. *)
Lemma local_quietly k {A} (m : SE RW A) w w1 (Q : A -> RW -> Prop) :
  local k w w1 -> quietly A m ->
  (forall a w2, local k w w2 -> rw_entries w2 = rw_entries w1 -> Q a w2) ->
  holds m w1 Q (λ _ w', local k w w').
Proof.
  intros L1 Hm HQ. eapply holds_mono; [apply Hm| |]; intros x w2 U2;
    pose proof (local_trans _ _ _ _ L1 (local_unchanged k _ _ U2)) as L2; [|exact L2].
  apply HQ; [exact L2|apply U2].
Qed.

(** A step that changes the entry at [k]. *)
Lemma local_update p f w w1 e (Q : unit -> RW -> Prop) (E : exn -> RW -> Prop) :
  updates f -> local (key p) w w1 -> rw_entries w1 !! key p = Some e ->
  (forall w2, local (key p) w w2 -> rw_entries w2 !! key p = Some (f e) -> Q tt w2) ->
  holds (update p f) w1 Q E.
Proof.
  intros Hf L1 He HQ. eapply holds_mono; [by apply update_holds| |done]. intros [] w2 [L2 E2].
  rewrite He in E2. by apply HQ; [exact (local_trans _ _ _ _ L1 L2)|].
Qed.

Lemma copy_extended_attributes_holds source p w s e :
  wf (rw_entries w) -> key source <> key p ->
  rw_entries w !! key source = Some s -> rw_entries w !! key p = Some e ->
  holds (copy_extended_attributes source p) w
    (λ _ w', local (key p) w w' /\ rw_entries w' !! key p = Some (set_xattrs (en_xattrs s) e))
    (λ _ w', local (key p) w w').
Proof.
  intros Hw Hne Hs He. unfold copy_extended_attributes.
  apply holds_bind. eapply local_quietly; [by apply local_unchanged|apply quietly_must_code|]. intros _ w1 L1 E1.
  apply holds_bind, holds_look. unfold xattrs_of. rewrite E1, Hs. apply holds_bind.
  eapply local_quietly; [exact L1|destruct (bool_decide _); [apply quietly_ret|apply quietly_must_code]|].
  intros _ w2 L2 E2. eapply holds_mono; [apply copy_xattrs_holds| |].
  - intros [] w3 [L3 E3]. split; [exact (local_trans _ _ _ _ L2 L3)|]. by rewrite E3, E2, E1, He.
  - intros x w3 L3. exact (local_trans _ _ _ _ L2 L3).
Qed.

Lemma updates_owned uid gid : updates (owned_by uid gid).
Proof.
  unfold updates, owned_by. split; intros e.
  - destruct (is_dir e) eqn:E; exact E.
  - destruct (is_dir e); [done|]. cbn. intros H. induction (en_xattrs e) as [|[n v] l IH]; [constructor|].
    cbn in H. apply NoDup_cons in H as [Hn H]. rewrite filter_cons. case_decide; [|by apply IH]. cbn.
    constructor; [|by apply IH]. intros ([n2 v2] & -> & [_ Hin]%list_elem_of_filter)%list_elem_of_fmap.
    apply Hn. by apply list_elem_of_fmap_2 with (f := fst) in Hin.
Qed.

Lemma owned_by_xattrs uid gid e x :
  x ∈ en_xattrs e -> x ∈ en_xattrs (owned_by uid gid e) \/ (is_dir e = false /\ x.1 = "security.capability").
Proof.
  intros Hx. unfold owned_by. destruct (is_dir e); [by left|]. cbn.
  destruct (decide (x.1 = "security.capability")); [by right|]. left. by apply list_elem_of_filter.
Qed.

Lemma owned_by_unprivileged uid gid e : is_dir e = false -> unprivileged (owned_by uid gid e).
Proof.
  intros Hd. unfold owned_by. rewrite Hd. split.
  - change (Z.testbit (if Z.testbit (Z.ldiff (en_mode e) 2048) 3 then Z.ldiff (Z.ldiff (en_mode e) 2048) 1024
      else Z.ldiff (en_mode e) 2048) 11 = false).
    destruct (Z.testbit (Z.ldiff (en_mode e) 2048) 3); rewrite !Z.ldiff_spec;
      change (Z.testbit 2048 11) with true; by rewrite ?andb_false_r.
  - cbn. apply Forall_forall. intros x [Hx _]%list_elem_of_filter. done.
Qed.

(** The entry that [preserve_metadata] leaves, before it is checked. *)
Definition preserved (euid mode : Z) (s e : Entry) : Entry :=
  let e1 := (set_xattrs (en_xattrs s) e) <| en_mode := mode |> in
  (if euid =? 0 then owned_by (en_uid s) (en_gid s) e1 else e1) <| en_mtime := en_mtime s |>.

Lemma preserved_kind euid mode s e :
  en_kind (preserved euid mode s e) = en_kind e /\ en_pinned (preserved euid mode s e) = en_pinned e.
Proof. unfold preserved, owned_by. destruct (euid =? 0); [|done]. by destruct (is_dir _). Qed.

Lemma preserved_dir euid mode s e : is_dir (preserved euid mode s e) = is_dir e.
Proof. unfold is_dir. by rewrite (proj1 (preserved_kind euid mode s e)). Qed.

Lemma preserved_copied euid mode s e :
  NoDup (map fst (en_xattrs s)) ->
  Z.land (en_mode (preserved euid mode s e)) 4095 = Z.land (en_mode s) 4095 ->
  (euid = 0 -> en_uid (preserved euid mode s e) = en_uid s /\ en_gid (preserved euid mode s e) = en_gid s) ->
  meta_copied euid s (preserved euid mode s e).
Proof.
  intros Hnd Hm Ho. split; [done|]. split; [done|]. split; [done|]. split.
  2:{ rewrite preserved_dir. unfold preserved. intros -> Hd. by apply owned_by_unprivileged. }
  intros x Hx.
  assert (x ∈ en_xattrs ((set_xattrs (en_xattrs s) e) <| en_mode := mode |>)) as Hin
    by (apply foldl_set_xattr_elem; [done|by left]).
  rewrite preserved_dir. unfold preserved. destruct (Z.eqb_spec euid 0) as [->|]; [|by left].
  destruct (owned_by_xattrs (en_uid s) (en_gid s) _ _ Hin) as [H|[H1 H2]]; [by left|by right].
Qed.

Lemma preserve_metadata_holds source p w s e :
  wf (rw_entries w) -> key source <> key p -> (forall n q, m_faults (rw_machine w) n (SReadTime q) = None) ->
  rw_entries w !! key source = Some s -> seen source s = stat_of s ->
  rw_entries w !! key p = Some e -> en_pinned e = false ->
  holds (preserve_metadata source p) w
    (λ _ w', local (key p) w w' /\ exists e', rw_entries w' !! key p = Some e' /\ en_kind e' = en_kind e
       /\ en_pinned e' = false /\ meta_copied (m_euid (rw_machine w)) s e')
    (λ _ w', local (key p) w w').
Proof.
  intros Hw Hne Hf Hs Hseen He Hp. unfold preserve_metadata.
  apply holds_bind. eapply holds_mono; [apply lstat_or_throw_holds| |intros; by apply local_unchanged].
  intros status w1 (U1 & s' & Es' & ->). rewrite Hs in Es'. injection Es' as <-. rewrite Hseen.
  pose proof (local_unchanged (key p) _ _ U1) as L1. destruct U1 as [M1 E1]. apply holds_bind.
  eapply holds_mono; [apply (copy_extended_attributes_holds source p w1 s e); by rewrite ?E1| |].
  2:{ intros x w2 L2. exact (local_trans _ _ _ _ L1 L2). }
  intros [] w2 [L12 E2]. pose proof (local_trans _ _ _ _ L1 L12) as L2. clear L1 L12.
  apply holds_bind, holds_turn. cbn [fst snd]. rewrite (local_machine _ _ _ L2).
  set (mode := m_kept_mode _ _ _). apply holds_bind.
  eapply local_quietly; [exact L2|apply quietly_must_code|]. intros _ w3 L3 E3. rewrite <- E3 in E2.
  apply holds_bind. eapply local_update; [by split|exact L3|exact E2|]. intros w4 L4 E4.
  set (e4 := (set_xattrs (en_xattrs s) e) <| en_mode := mode |>) in *.
  apply holds_bind.
  assert (holds (if m_euid (rw_machine w) =? 0 then
      must_code (SChown p) RestoreErrorCode.CopyFailed (could_not "ownership" p) ≫= λ _,
      update p (owned_by (s_uid (stat_of s)) (s_gid (stat_of s))) else mret tt) w4
    (λ _ w5, local (key p) w w5 /\ rw_entries w5 !! key p
       = Some (if m_euid (rw_machine w) =? 0 then owned_by (en_uid s) (en_gid s) e4 else e4))
    (λ _ w', local (key p) w w')) as Hown.
  { destruct (m_euid (rw_machine w) =? 0); [|by apply holds_ret]. apply holds_bind.
    eapply local_quietly; [exact L4|apply quietly_must_code|]. intros _ w5 L5 E5. rewrite <- E5 in E4.
    eapply local_update; [apply updates_owned|exact L5|exact E4|]. intros w6 L6 E6. by split. }
  eapply holds_mono; [exact Hown| |done]. clear Hown. intros [] w5 [L5 E5].
  apply holds_bind, holds_sys. intros fault ->. rewrite (local_machine _ _ _ L5), Hf.
  apply holds_bind, holds_look. change (rw_entries (called w5)) with (rw_entries w5). unfold mtime_of.
  rewrite (local_frame _ _ _ L5 _ Hne), Hs.
  assert (local (key p) w (called w5)) as L6 by (eapply local_trans; [exact L5|by apply local_unchanged]).
  apply holds_bind. eapply local_quietly; [exact L6|apply quietly_must_code|]. intros _ w7 L7 E7.
  change (rw_entries (called w5)) with (rw_entries w5) in E7. rewrite <- E7 in E5.
  apply holds_bind. eapply local_update; [by split|exact L7|exact E5|]. intros w8 L8 E8.
  change (rw_entries w8 !! key p = Some (preserved (m_euid (rw_machine w)) mode s e)) in E8.
  destruct (preserved_kind (m_euid (rw_machine w)) mode s e) as [Hk Hpin]. rewrite Hp in Hpin.
  apply holds_bind. eapply holds_mono; [apply lstat_or_throw_holds| |].
  2:{ intros x w9 U9. exact (local_trans _ _ _ _ L8 (local_unchanged (key p) _ _ U9)). }
  intros restored w9 (U9 & e' & Ee' & ->). rewrite E8 in Ee'. injection Ee' as <-.
  pose proof (local_trans _ _ _ _ L8 (local_unchanged (key p) _ _ U9)) as L9.
  rewrite (seen_unpinned p _ Hpin). cbn [s_mode s_uid s_gid stat_of].
  destruct (_ || _) eqn:Ec; [exact L9|]. apply holds_ret. split; [exact L9|].
  exists (preserved (m_euid (rw_machine w)) mode s e). rewrite (proj2 U9). split; [done|]. split; [done|]. split; [done|].
  apply orb_false_iff in Ec as [Ec1 Ec2]. apply negb_false_iff, Z.eqb_eq in Ec1.
  apply preserved_copied; [by eapply wf_xattrs|done|]. intros E0. rewrite E0 in Ec2. cbn [Z.eqb andb] in Ec2.
  apply orb_false_iff in Ec2 as [Eu Eg]. rewrite negb_false_iff, Z.eqb_eq in Eu, Eg. rewrite E0. done.
Qed.

(** ** Copying: trees *)

(** A copy [b] of an entry [a]: the same data, the same metadata. *)
Definition copied (euid : Z) (a b : Entry) : Prop :=
  match en_kind a with
  | ERegular data => en_kind b = ERegular data
  | EDirectory | ESubvolume => is_dir b = true
  | _ => False
  end /\ en_pinned b = false /\ meta_copied euid a b.

(** What is at and below [kd] is a copy of what is at and below [ks]. *)
Definition copied_tree (euid : Z) (ks : Key) (es : Entries) (kd : Key) (es' : Entries) : Prop :=
  forall r, match es !! (ks ++ r), es' !! (kd ++ r) with
            | Some a, Some b => copied euid a b
            | None, None => True
            | _, _ => False
            end.

Lemma wf_leaf es k e r : wf es -> es !! k = Some e -> is_dir e = false -> r <> [] -> es !! (k ++ r) = None.
Proof.
  intros Hw He Hd Hr. destruct r as [|x r]; [done|]. change (x :: r) with ([x] ++ r). rewrite app_assoc.
  apply wf_below; [done|]. destruct (es !! (k ++ [x])) as [e'|] eqn:E; [|done].
  apply wf_closed in E as (d & Hd' & Hdir); [|done]. congruence.
Qed.

(** What the guarantees rely on: looking whether something is there, reading the times of the source
    and opening for verification do not fail, and [mkdir] says that something is there only when it is. *)
Definition reliable (m : Machine) : Prop :=
  (forall n p, m_faults m n (SExists p) = None) /\ (forall n p, m_faults m n (SVerifyOpen p) = None)
  /\ (forall n p, m_faults m n (SReadTime p) = None) /\ (forall n p, m_faults m n (SMkdir p) <> Some EEXIST).

Section copying_trees.
Context (token : CancellationToken RW) (progress : option (RestoreProgress -> SE RW unit)).
Context (Htoken : quietly _ (token_read token))
  (Hprogress : forall sink x, progress = Some sink -> quietly _ (sink x)).

Lemma sub_quietly k {A} (m : SE RW A) w w1 (Q : A -> RW -> Prop) :
  sub k w w1 -> quietly A m ->
  (forall a w2, sub k w w2 -> rw_entries w2 = rw_entries w1 -> Q a w2) ->
  holds m w1 Q (λ _ w', sub k w w').
Proof.
  intros L1 Hm HQ. eapply holds_mono; [apply Hm| |]; intros x w2 U2;
    pose proof (sub_trans _ _ _ _ L1 (local_sub _ _ _ (local_unchanged k _ _ U2))) as L2; [|exact L2].
  apply HQ; [exact L2|apply U2].
Qed.

Lemma copy_regular_file_holds source p statistics w s data :
  wf (rw_entries w) -> reliable (rw_machine w) -> apart p source ->
  rw_entries w !! key source = Some s -> en_kind s = ERegular data -> seen source s = stat_of s ->
  rw_entries w !! key p = None ->
  holds (copy_regular_file token progress source p statistics) w
    (λ _ w', sub (key p) w w' /\ exists e, rw_entries w' !! key p = Some e /\ copied (m_euid (rw_machine w)) s e)
    (λ _ w', sub (key p) w w').
Proof.
  intros Hw (_ & Hvo & Hrt & _) Hap Hs Hk Hseen Hn. unfold copy_regular_file.
  assert (forall w', sub (key p) w w' -> rw_entries w' !! key source = Some s) as Hsrc.
  { intros w' Hw'. pose proof (sub_elsewhere _ _ _ _ [] Hw' Hap) as E. rewrite !app_nil_r in E. by rewrite E. }
  assert (key source <> key p) as Hne.
  { intros E. destruct Hap as [H _]. rewrite E in H. by rewrite strip_refl in H. }
  apply holds_bind. eapply sub_quietly; [by apply local_sub, local_unchanged|apply quietly_must|]. intros _ w1 S1 E1.
  apply holds_bind. eapply holds_mono; [apply open_output_holds; by rewrite E1| |].
  2:{ intros x w2 S2. exact (sub_trans _ _ _ _ S1 S2). }
  intros [] w2 [S12 (e & F2 & Hp)]. pose proof (sub_trans _ _ _ _ S1 S12) as S2.
  apply holds_bind, holds_look. apply holds_bind.
  eapply holds_mono; [apply copy_data_keeps; [done..|exact F2]| |].
  2:{ intros x w3 L3. exact (sub_trans _ _ _ _ S2 (local_sub _ _ _ L3)). }
  intros statistics' w3 [L3 [data' F3]]. pose proof (sub_trans _ _ _ _ S2 (local_sub _ _ _ L3)) as S3.
  apply holds_bind. eapply sub_quietly; [exact S3|apply quietly_must|]. intros _ w4 S4 E4.
  apply holds_bind. eapply sub_quietly; [exact S4|apply quietly_must|]. intros _ w5 S5 E5. rewrite <- E4, <- E5 in F3.
  apply holds_bind. eapply holds_mono; [eapply (preserve_metadata_holds source p w5 s)| |].
  - by apply S5.
  - done.
  - by rewrite (sub_machine _ _ _ S5).
  - by apply Hsrc.
  - done.
  - exact F3.
  - done.
  - intros [] w6 [L6 (e' & E6 & Ke & Pe & Me)]. pose proof (sub_trans _ _ _ _ S5 (local_sub _ _ _ L6)) as S6.
    rewrite (sub_machine _ _ _ S5) in Me.
    apply holds_bind. eapply holds_mono; [apply verify_holds; [done|by rewrite (sub_machine _ _ _ S6)]| |].
    + intros [] w7 [U7 Hd]. unfold file_data in Hd. rewrite (Hsrc _ S6), E6, Ke, Hk in Hd. cbn in Hd. subst data'.
      pose proof (sub_trans _ _ _ _ S6 (local_sub _ _ _ (local_unchanged _ _ _ U7))) as S7.
      apply holds_bind. eapply sub_quietly; [exact S7|by apply quietly_report|]. intros _ w8 S8 E8.
      apply holds_ret. split; [done|]. exists e'. rewrite E8, (proj2 U7). split; [done|].
      split; [by rewrite Hk, Ke|]. done.
    + intros x w7 U7. exact (sub_trans _ _ _ _ S6 (local_sub _ _ _ (local_unchanged _ _ _ U7))).
  - intros x w6 L6. exact (sub_trans _ _ _ _ S5 (local_sub _ _ _ L6)).
Qed.

(** What an entry of the source is when it passed the checks. *)
Lemma check_source_holds source device w :
  holds (check_source token source device) w
    (λ st w', unchanged w w' /\ exists s, rw_entries w !! key source = Some s /\ seen source s = stat_of s
       /\ st = stat_of s /\ en_kind s <> ELink)
    (λ _ w', unchanged w w').
Proof.
  unfold check_source. apply holds_bind. eapply holds_mono; [by apply quietly_cancelled| |done]. intros [] w1 U1.
  apply holds_bind. eapply holds_mono; [apply lstat_or_throw_holds| |].
  2:{ intros e w2 []. destruct U1. split; congruence. }
  intros st w2 ([M2 E2] & s & Hs & ->). destruct U1 as [M1 E1]. assert (unchanged w w2) as U by (split; congruence).
  destruct (negb _); [exact U|]. case_bool_decide as Hk; [exact U|]. apply holds_ret. split; [exact U|].
  exists s. rewrite <- E1. split; [done|]. pose proof (seen_plain _ _ Hk) as E. split; [done|]. split; [done|].
  intros Hl. rewrite E in Hk. by apply Hk; cbn; unfold file_kind; rewrite Hl.
Qed.

(** The sizes of the names below an entry are bounded by the fuel. *)
Definition bounded (fuel : nat) (k : Key) (es : Entries) : Prop :=
  forall r e, es !! (k ++ r) = Some e -> (length r < fuel)%nat.

Lemma bounded_child fuel k n es : bounded (S fuel) k es -> bounded fuel (k ++ [n]) es.
Proof. intros H r e He. rewrite <- app_assoc in He. apply H in He. cbn in He. lia. Qed.

Lemma apart_child p q n : good_name n -> apart p q -> apart (p /./ n) (q /./ n).
Proof.
  intros Hn H. unfold apart. rewrite !key_child by done.
  by apply incomparable_child, incomparable_sym, incomparable_child, incomparable_sym.
Qed.

Lemma seen_timeless d d' : timeless d' = timeless d -> en_kind d' = en_kind d /\ en_pinned d' = en_pinned d.
Proof. destruct d, d'. unfold timeless. cbn. by injection 1 as -> -> -> -> -> -> ->. Qed.

Definition copy_spec (fuel : nat) : Prop := forall source p device statistics w,
  wf (rw_entries w) -> reliable (rw_machine w) -> apart p source -> bounded fuel (key source) (rw_entries w) ->
  rw_entries w !! key p = None ->
  holds (copy_entry token progress fuel source p device statistics) w
    (λ _ w', sub (key p) w w'
       /\ copied_tree (m_euid (rw_machine w)) (key source) (rw_entries w) (key p) (rw_entries w'))
    (λ _ w', sub (key p) w w').

Lemma strip_sibling (k : Key) n n' r : n <> n' -> strip (k ++ [n]) (k ++ [n'] ++ r) = None.
Proof.
  intros Hne. apply strip_None. intros [r' E]. rewrite <- app_assoc in E. apply app_inv_head in E. cbn in E. congruence.
Qed.

(** What a child leaves as it was. *)
Lemma sub_sibling (k : Key) n n' r w w' :
  sub (k ++ [n]) w w' -> n <> n' -> rw_entries w' !! (k ++ [n'] ++ r) = rw_entries w !! (k ++ [n'] ++ r).
Proof.
  intros [_ _ Hf _] Hne. apply Hf; [by apply strip_sibling|]. rewrite removelast_last. intros E.
  rewrite <- (app_nil_r k) in E at 2. by apply app_inv_head in E.
Qed.

Lemma copied_tree_source euid ks es1 es2 kd es' :
  (forall r, es1 !! (ks ++ r) = es2 !! (ks ++ r)) -> copied_tree euid ks es1 kd es' -> copied_tree euid ks es2 kd es'.
Proof. intros H Hc r. rewrite <- H. apply Hc. Qed.

Lemma copied_tree_target euid ks es kd es1 es2 :
  (forall r, es2 !! (kd ++ r) = es1 !! (kd ++ r)) -> copied_tree euid ks es kd es1 -> copied_tree euid ks es kd es2.
Proof. intros H Hc r. rewrite H. apply Hc. Qed.

Lemma copy_children_holds fuel source p device names :
  copy_spec fuel -> Forall good_name names -> NoDup names -> apart p source -> forall statistics w,
  wf (rw_entries w) -> reliable (rw_machine w) -> bounded (S fuel) (key source) (rw_entries w) ->
  (forall n, n ∈ names -> rw_entries w !! (key p ++ [n]) = None) ->
  holds (fold_children (λ name, copy_entry token progress fuel (source /./ name) (p /./ name) device) names statistics) w
    (λ _ w', sub (key p) w w'
       /\ timeless <$> rw_entries w' !! key p = timeless <$> rw_entries w !! key p
       /\ (forall n, n ∈ names -> copied_tree (m_euid (rw_machine w)) (key source ++ [n]) (rw_entries w)
                                    (key p ++ [n]) (rw_entries w'))
       /\ (forall n r, n ∉ names -> rw_entries w' !! (key p ++ [n] ++ r) = rw_entries w !! (key p ++ [n] ++ r)))
    (λ _ w', sub (key p) w w').
Proof.
  intros Hspec Hgood. induction Hgood as [|n names Hn Hgood IH]; intros Hnd Hap statistics w Hw Hr Hb Hfree;
    cbn [fold_children].
  { apply holds_ret. split; [by apply local_sub, local_unchanged|]. split; [done|]. split; [|done].
    intros n Hn. by apply not_elem_of_nil in Hn. }
  apply NoDup_cons in Hnd as [Hnn Hnd]. apply holds_bind. eapply holds_mono.
  { apply Hspec; [done|done|by apply apart_child|rewrite key_child by done; by apply bounded_child|].
    rewrite key_child by done. apply Hfree. by left. }
  2:{ intros x w1 S1. rewrite key_child in S1 by done. by apply sub_child in S1. }
  intros statistics1 w1 [S1 C1]. rewrite key_child in S1 by done. rewrite (key_child source n), (key_child p n) in C1 by done. pose proof (sub_child _ _ _ _ S1) as S01.
  assert (forall r, rw_entries w1 !! (key source ++ r) = rw_entries w !! (key source ++ r)) as Esrc
    by (intros r; by eapply sub_elsewhere).
  assert (timeless <$> rw_entries w1 !! key p = timeless <$> rw_entries w !! key p) as Td1.
  { pose proof (sub_parent _ _ _ S1 ltac:(by destruct (key p))) as E. by rewrite removelast_last in E. }
  assert (forall n' r, n' <> n -> rw_entries w1 !! (key p ++ [n'] ++ r) = rw_entries w !! (key p ++ [n'] ++ r)) as Esib
    by (intros n' r Hne; eapply sub_sibling; [exact S1|congruence]).
  eapply holds_mono; [apply (IH Hnd Hap statistics1 w1)| |].
  - by apply S01.
  - by rewrite (sub_machine _ _ _ S01).
  - intros r e. rewrite Esrc. apply Hb.
  - intros n' Hn'. pose proof (Esib n' []) as E. cbn [app] in E. rewrite E; [apply Hfree; by right|]. by intros ->.
  - intros statistics2 w2 (S2 & Td2 & C2 & F2). rewrite (sub_machine _ _ _ S01) in C2.
    split; [exact (sub_trans _ _ _ _ S01 S2)|]. split; [congruence|]. split.
    + intros n' [->|Hn']%elem_of_cons.
      * eapply copied_tree_target; [|exact C1]. intros r. rewrite <- app_assoc. by apply F2.
      * eapply copied_tree_source; [|by apply C2]. intros r. rewrite <- app_assoc. apply Esrc.
    + intros n' r [Hne Hn']%not_elem_of_cons. rewrite F2 by done. by apply Esib.
  - intros x w2 S2. exact (sub_trans _ _ _ _ S01 S2).
Qed.

(** A directory whose children were copied and whose metadata was kept. *)
Lemma copied_directory euid ks es kd es' s e :
  wf es -> wf es' -> es !! ks = Some s -> is_dir s = true -> es' !! kd = Some e -> copied euid s e ->
  (forall n, n ∈ children es ks -> copied_tree euid (ks ++ [n]) es (kd ++ [n]) es') ->
  (forall n, n ∉ children es ks -> es' !! (kd ++ [n]) = None) ->
  copied_tree euid ks es kd es'.
Proof.
  intros Hw Hw' Hs Hd He Hc Hch Hno r. destruct r as [|n r]; [by rewrite !app_nil_r, Hs, He|].
  change (n :: r) with ([n] ++ r). rewrite !app_assoc. destruct (decide (n ∈ children es ks)) as [Hin|Hin].
  - by apply Hch.
  - assert (es !! (ks ++ [n]) = None) as Hsn.
    { destruct (es !! (ks ++ [n])) eqn:E; [|done]. destruct Hin. apply elem_of_children. by rewrite E. }
    by rewrite (wf_below es _ r Hw Hsn), (wf_below es' _ r Hw' (Hno n Hin)).
Qed.

Lemma read_directory_holds p w :
  holds (read_directory p) w (λ names w', unchanged w w' /\ names = children (rw_entries w) (key p))
    (λ _ w', unchanged w w').
Proof.
  unfold read_directory. apply holds_bind, holds_sys. intros fault _. destruct fault; [done|]. by apply holds_look.
Qed.

(** The rest of the copy of a directory, once it is there: the children and then the metadata. *)
Lemma copy_directory_holds fuel source p device statistics w d s :
  copy_spec fuel -> wf (rw_entries w) -> reliable (rw_machine w) -> apart p source ->
  bounded (S fuel) (key source) (rw_entries w) ->
  rw_entries w !! key source = Some s -> seen source s = stat_of s -> is_dir s = true ->
  rw_entries w !! key p = Some d -> is_dir d = true -> en_pinned d = false ->
  (forall n, rw_entries w !! (key p ++ [n]) = None) ->
  holds (statistics ← fold_children (λ name,
             copy_entry token progress fuel (source /./ name) (p /./ name) device)
             (children (rw_entries w) (key source)) statistics;
         _ ← preserve_metadata source p; mret statistics) w
    (λ _ w', sub (key p) w w'
       /\ copied_tree (m_euid (rw_machine w)) (key source) (rw_entries w) (key p) (rw_entries w'))
    (λ _ w', sub (key p) w w').
Proof.
  intros Hspec Hw Hr Hap Hb Hs Hseen Hsd Hd Hdd Hdp Hfree. apply holds_bind.
  eapply holds_mono; [apply (copy_children_holds fuel source p device _ Hspec (children_good _ _ Hw)
    (children_NoDup _ _) Hap statistics w); try done; by intros n _| |done].
  intros statistics1 w1 (S1 & Td1 & C1 & F1). rewrite Hd in Td1.
  destruct (rw_entries w1 !! key p) as [d1|] eqn:Hd1; [|done].
  change (Some (timeless d1) = Some (timeless d)) in Td1.
  apply (inj Some), seen_timeless in Td1 as [Kd1 Pd1].
  assert (forall r, rw_entries w1 !! (key source ++ r) = rw_entries w !! (key source ++ r)) as Esrc
    by (intros r; by eapply sub_elsewhere).
  assert (key source <> key p) as Hne.
  { intros E. destruct Hap as [H _]. rewrite E in H. by rewrite strip_refl in H. }
  apply holds_bind. eapply holds_mono; [eapply (preserve_metadata_holds source p w1 s d1)| |].
  - by apply S1.
  - done.
  - rewrite (sub_machine _ _ _ S1). apply Hr.
  - pose proof (Esrc []) as E. rewrite !app_nil_r in E. by rewrite E.
  - done.
  - done.
  - congruence.
  - intros [] w2 [L2 (e & He & Ke & Pe & Me)]. pose proof (sub_trans _ _ _ _ S1 (local_sub _ _ _ L2)) as S2.
    apply holds_ret. split; [exact S2|]. rewrite (sub_machine _ _ _ S1) in Me.
    assert (is_dir e = true) as Hed by (unfold is_dir in *; by rewrite Ke, Kd1).
    assert (forall n r, rw_entries w2 !! (key p ++ [n] ++ r) = rw_entries w1 !! (key p ++ [n] ++ r)) as E21.
    { intros n r. apply (local_frame _ _ _ L2). intros E. rewrite <- (app_nil_r (key p)) in E at 2.
      by apply app_inv_head in E. }
    eapply copied_directory; [done|by apply S2|done|done|exact He| | |].
    + split; [|done]. unfold is_dir in Hsd. by destruct (en_kind s).
    + intros n Hn. eapply copied_tree_target; [|by apply C1]. intros r. rewrite <- app_assoc. apply E21.
    + intros n Hn. pose proof (E21 n []) as E1. pose proof (F1 n [] Hn) as E2. cbn [app] in E1, E2. by rewrite E1, E2.
  - intros x w2 L2. exact (sub_trans _ _ _ _ S1 (local_sub _ _ _ L2)).
Qed.

(** Creating a directory where nothing is. *)
Lemma create_absent_holds p w :
  reliable (rw_machine w) -> rw_entries w !! key p = None ->
  holds (create_directory p) w
    (λ error w', error <> Some EEXIST /\ (error = None -> created p EDirectory w w') /\ sub (key p) w w') (λ _ _, False).
Proof.
  intros (_ & _ & _ & Hf) Hn. unfold create_directory. apply holds_bind, holds_sys. intros fault Ef.
  assert (sub (key p) w (called w)) as HS by (by apply local_sub, local_unchanged).
  apply holds_bind, holds_look. change (rw_entries (called w)) with (rw_entries w). rewrite Hn.
  destruct fault as [e|]; [apply holds_ret; split; [rewrite Ef; apply Hf|done]|].
  destruct (parent_error (key p) (rw_entries w)) as [e|] eqn:Ep.
  - apply holds_ret. split; [|done]. unfold parent_error, missing in Ep. intros [= ->]. repeat case_match; congruence.
  - apply holds_bind. eapply holds_mono; [by apply create_holds| |done]. intros [] w' Hc.
    change (created p EDirectory w w') in Hc. apply holds_ret. split; [done|]. split; [done|]. by eapply created_sub.
Qed.

Lemma copy_entry_holds fuel : copy_spec fuel.
Proof.
  induction fuel as [|fuel IH]; intros source p device statistics w Hw Hr Hap Hb Hn; cbn [copy_entry];
    (apply holds_bind; eapply holds_mono; [apply check_source_holds| |intros x w1 U1; by apply local_sub, local_unchanged]);
    intros st w1 (U1 & s & Hs & Hseen & -> & Hlink); pose proof (local_sub _ _ _ (local_unchanged (key p) _ _ U1)) as S1.
  { exfalso. specialize (Hb [] s). rewrite app_nil_r in Hb. specialize (Hb Hs). cbn in Hb. lia. }
  cbn [s_kind stat_of]. destruct U1 as [M1 E1]. rewrite <- E1 in Hw, Hs, Hb, Hn. rewrite <- M1 in Hr.
  rewrite <- E1, <- M1. unfold file_kind.
  assert (is_dir s = true -> holds (create_directory p ≫= λ create_error : option Errno,
      match create_error with
      | Some ((ENOSPC | ENOENT | ENOTDIR | EOVERFLOW | EIO | EOTHER _) as e) =>
          restore_failure (creation_code e RestoreErrorCode.CopyFailed)
            ("could not create restore directory " +:+ p +:+ ": " +:+ strerror e)
      | _ =>
          _ ← report_progress progress (add_directory statistics) source;
          names ← read_directory source;
          statistics ← fold_children (λ name,
              copy_entry token progress fuel (source /./ name) (p /./ name) device) names (add_directory statistics);
          _ ← preserve_metadata source p;
          mret statistics
      end) w1
    (λ _ w', sub (key p) w w'
       /\ copied_tree (m_euid (rw_machine w1)) (key source) (rw_entries w1) (key p) (rw_entries w'))
    (λ _ w', sub (key p) w w')) as Hdir.
  { intros Hsd. apply holds_bind. eapply holds_mono; [by apply create_absent_holds| |done].
    intros error w2 (Hex & Hc & S12). pose proof (sub_trans _ _ _ _ S1 S12) as S2.
    destruct error as [e|]; [by destruct e; try exact S2|]. specialize (Hc eq_refl).
    apply created_entry in Hc as He. destruct He as (d & Hd & Kd & Pd & _).
    assert (forall r, rw_entries w2 !! (key source ++ r) = rw_entries w1 !! (key source ++ r)) as Esrc
      by (intros r; by eapply sub_elsewhere).
    assert (rw_entries w2 !! key source = Some s) as Hs2.
    { pose proof (Esrc []) as E. rewrite !app_nil_r in E. by rewrite E. }
    apply holds_bind. eapply sub_quietly; [exact S2|by apply quietly_report|]. intros _ w3 S3 E3.
    apply holds_bind. eapply holds_mono; [apply read_directory_holds| |].
    2:{ intros x w4 U4. exact (sub_trans _ _ _ _ S3 (local_sub _ _ _ (local_unchanged _ _ _ U4))). }
    intros names w4 [U4 ->]. pose proof (sub_trans _ _ _ _ S3 (local_sub _ _ _ (local_unchanged _ _ _ U4))) as S4.
    destruct U4 as [M4 E4]. rewrite <- E4. assert (rw_entries w4 = rw_entries w2) as E42 by congruence.
    eapply holds_mono; [apply (copy_directory_holds fuel source p device _ w4 d s IH)| |]; rewrite ?E42; try done.
    - apply (sub_wf _ _ _ S12 Hw).
    - by rewrite (sub_machine _ _ _ S4), <- M1.
    - intros r e. rewrite Esrc. apply Hb.
    - unfold is_dir. by rewrite Kd.
    - intros n. destruct (rw_entries w2 !! (key p ++ [n])) as [x|] eqn:Ex; [|done]. exfalso.
      rewrite (created_lookup _ _ _ _ _ Hc) in Ex.
      + by rewrite (wf_below _ _ [n] Hw Hn) in Ex.
      + intros E. rewrite <- (app_nil_r (key p)) in E at 2. by apply app_inv_head in E.
      + intros E. symmetry in E. destruct (key p) as [|k0 kp] eqn:Ekp; [done|].
        by apply (removelast_not_self (k0 :: kp) [n]) in E.
    - intros st w5 [S5 C5]. split; [exact (sub_trans _ _ _ _ S4 S5)|].
      rewrite (sub_machine _ _ _ S4), <- M1 in C5. rewrite ?E42 in C5. eapply copied_tree_source; [|exact C5]. exact Esrc.
    - intros x w5 S5. exact (sub_trans _ _ _ _ S4 S5). }
  destruct (en_kind s) as [data| | | |] eqn:Hk; try exact S1.
  - eapply holds_mono; [by apply (copy_regular_file_holds source p statistics w1 s data)| |].
    + intros st2 w2 [S2 (e & He & Hc)]. split; [exact (sub_trans _ _ _ _ S1 S2)|]. intros r.
      destruct (decide (r = [])) as [->|Hr0]; [by rewrite !app_nil_r, Hs, He|].
      rewrite (wf_leaf _ _ _ _ Hw Hs), (wf_leaf _ _ _ _ (sub_wf _ _ _ S2 Hw) He); try done.
      * destruct Hc as [Hc _]. rewrite Hk in Hc. unfold is_dir. by rewrite Hc.
      * unfold is_dir. by rewrite Hk.
    + intros x w2 S2. exact (sub_trans _ _ _ _ S1 S2).
  - apply Hdir. unfold is_dir. by rewrite Hk.
  - apply Hdir. unfold is_dir. by rewrite Hk.
Qed.

(** Metadata of something that is not there. *)
Lemma preserve_absent source p w :
  rw_entries w !! key p = None ->
  holds (preserve_metadata source p) w (λ _ _, False) (λ _ w', local (key p) w w').
Proof.
  intros Hn. assert (forall A (m : SE RW A) w1 (Q : A -> RW -> Prop),
    local (key p) w w1 /\ rw_entries w1 !! key p = None -> quietly A m ->
    (forall a w2, local (key p) w w2 /\ rw_entries w2 !! key p = None -> Q a w2) ->
    holds m w1 Q (λ _ w', local (key p) w w')) as Hq.
  { intros A m w1 Q [L1 E1] Hm HQ. eapply local_quietly; [exact L1|done|]. intros a w2 L2 E2. apply HQ. by rewrite E2. }
  assert (forall f w1 (Q : unit -> RW -> Prop) (E : exn -> RW -> Prop),
    updates f -> local (key p) w w1 /\ rw_entries w1 !! key p = None ->
    (forall a w2, local (key p) w w2 /\ rw_entries w2 !! key p = None -> Q a w2) -> holds (update p f) w1 Q E) as Hu.
  { intros f w1 Q E Hf [L1 E1] HQ. eapply holds_mono; [by apply update_holds| |done]. intros a w2 [L2 E2].
    apply HQ. rewrite E1 in E2. split; [exact (local_trans _ _ _ _ L1 L2)|done]. }
  assert (local (key p) w w /\ rw_entries w !! key p = None) as H0 by (split; [by apply local_unchanged|done]).
  unfold preserve_metadata. apply holds_bind, Hq; [exact H0|apply quietly_lstat_or_throw|]. intros status w1 H1.
  apply holds_bind. unfold copy_extended_attributes.
  apply holds_bind, Hq; [exact H1|apply quietly_must_code|]. intros _ w2 H2. apply holds_bind, holds_look.
  apply holds_bind, Hq; [exact H2|destruct (bool_decide _); [apply quietly_ret|apply quietly_must_code]|]. intros _ w3 [L3 E3].
  eapply holds_mono; [apply copy_xattrs_holds| |]; [|intros x w4 L4; exact (local_trans _ _ _ _ L3 L4)].
  intros [] w4 [L4 E4]. rewrite E3 in E4. pose proof (local_trans _ _ _ _ L3 L4) as L04.
  apply holds_bind, holds_turn, holds_bind, Hq; [exact (conj L04 E4)|apply quietly_must_code|]. intros _ w5 H5.
  apply holds_bind, Hu; [by split|exact H5|]. intros _ w6 H6. apply holds_bind.
  assert (forall w7, local (key p) w w7 /\ rw_entries w7 !! key p = None ->
    holds (sys (SReadTime source) ≫= λ fault : option Errno,
      look (λ es, match fault with Some _ => time_min | None => mtime_of es source end) ≫= λ time : Z,
      _ ← must_code (SSetTime p) RestoreErrorCode.CopyFailed
            (λ _, "could not preserve modification time for " +:+ p);
      _ ← update p (λ e, e <| en_mtime := time |>);
      restored ← lstat_or_throw p;
      if negb (Z.land (s_mode restored) 4095 =? Z.land (s_mode status) 4095)
         || ((m_euid (rw_machine w4) =? 0)
             && (negb (s_uid restored =? s_uid status) || negb (s_gid restored =? s_gid status)))
      then verification_failed ("restored metadata differs: " +:+ p) else mret tt) w7
      (λ _ _, False) (λ _ w', local (key p) w w')) as Hend.
  { intros w7 H7. apply holds_bind, Hq; [exact H7|apply quietly_sys|]. intros fault w8 H8. apply holds_bind, holds_look.
    apply holds_bind, Hq; [exact H8|apply quietly_must_code|]. intros _ w9 H9.
    apply holds_bind, Hu; [by split|exact H9|]. intros _ w10 [L10 E10]. apply holds_bind.
    eapply holds_mono; [apply lstat_or_throw_holds| |].
    - intros st w11 (_ & e & He & _). congruence.
    - intros x w11 U. exact (local_trans _ _ _ _ L10 (local_unchanged _ _ _ U)). }
  cbn [fst snd]. destruct (m_euid (rw_machine w4) =? 0).
  - apply holds_bind, Hq; [exact H6|apply quietly_must_code|]. intros _ w7 H7.
    apply Hu; [apply updates_owned|exact H7|]. intros _ w8 H8. by apply Hend.
  - apply holds_ret. by apply Hend.
Qed.

(** A file does not replace a directory. *)
Lemma copy_onto_directory fuel source p device statistics w d :
  rw_entries w !! key p = Some d -> is_dir d = true ->
  (forall s, rw_entries w !! key source = Some s -> seen source s = stat_of s -> is_dir s = false) ->
  holds (copy_entry token progress fuel source p device statistics) w (λ _ _, False) (λ _ w', sub (key p) w w').
Proof.
  intros Hd Hdir Hs. assert (forall w', unchanged w w' -> sub (key p) w w') as HU
    by (intros w' U; by apply local_sub, local_unchanged).
  destruct fuel as [|fuel]; cbn [copy_entry]; (apply holds_bind;
    eapply holds_mono; [apply check_source_holds| |intros x w1 U1; by apply HU]);
    intros st w1 (U1 & s & Hs1 & Hseen & -> & _); specialize (Hs s Hs1 Hseen); cbn [s_kind stat_of];
    unfold file_kind, is_dir in *; destruct (en_kind s) as [data| | | |]; try discriminate Hs; try by apply HU.
  all: unfold copy_regular_file; apply holds_bind;
    (eapply sub_quietly; [by apply HU|apply quietly_must|]); intros _ w2 S2 E2; apply holds_bind;
    unfold open_output; apply holds_bind, holds_sys; intros fault _; apply holds_bind, holds_look;
    change (rw_entries (called w2)) with (rw_entries w2); rewrite E2, (proj2 U1), Hd;
    (assert (sub (key p) w (called w2)) as S3
       by (eapply sub_trans; [exact S2|by apply local_sub, local_unchanged]));
    (destruct fault; [exact S3|]); destruct (en_kind d); try discriminate Hdir; exact S3.
Qed.

Lemma list_max_elem x l : x ∈ l -> (x <= list_max l)%nat.
Proof.
  intros H. pose proof (list_max_le l (list_max l)) as [Hm _]. specialize (Hm (le_n _)).
  rewrite List.Forall_forall in Hm. by apply Hm, list_elem_of_In.
Qed.

Lemma depth_bounded es k : bounded (depth es) k es.
Proof.
  intros r e He. unfold depth. assert (length (k ++ r) <= list_max (map (length ∘ fst) (map_to_list es)))%nat as H.
  { apply list_max_elem. apply list_elem_of_fmap. exists (k ++ r, e). split; [done|]. by apply elem_of_map_to_list. }
  rewrite length_app in H. lia.
Qed.

(** A copy of a tree. *)
Definition faithful (euid : Z) (t : option Entries) (t' : Entries) : Prop :=
  exists ts, t = Some ts /\ copied_tree euid [] ts [] t'.

Lemma copied_faithful euid source p w w' :
  is_Some (rw_entries w !! key source) ->
  copied_tree euid (key source) (rw_entries w) (key p) (rw_entries w') ->
  exists t, tree w' p = Some t /\ faithful euid (tree w source) t.
Proof.
  intros [s Hs] Hc. pose proof (Hc []) as H0. rewrite !app_nil_r, Hs in H0.
  destruct (rw_entries w' !! key p) as [e|] eqn:He; [|done]. exists (subtree (key p) (rw_entries w')).
  unfold tree. rewrite He, Hs. split; [done|]. eexists. split; [done|]. intros r. cbn [app].
  rewrite !lookup_subtree. apply Hc.
Qed.

Lemma copy_and_verify_holds source p w :
  wf (rw_entries w) -> reliable (rw_machine w) -> apart p source -> fresh (tree w p) ->
  holds (copy_and_verify token progress source p) w
    (λ _ w', sub (key p) w w' /\ exists t, tree w' p = Some t /\ faithful (m_euid (rw_machine w)) (tree w source) t)
    (λ _ w', sub (key p) w w').
Proof.
  intros Hw Hr Hap Hfresh. unfold copy_and_verify.
  assert (sub (key p) w w) as S0 by (by apply local_sub, local_unchanged).
  apply holds_bind. eapply sub_quietly; [exact S0|apply quietly_reject|]. intros _ w1 S1 E1.
  apply holds_bind. eapply sub_quietly; [exact S1|apply quietly_reject|]. intros _ w2 S2 E2.
  apply holds_bind. eapply holds_mono; [apply lstat_or_throw_holds| |].
  2:{ intros x w3 U3. exact (sub_trans _ _ _ _ S2 (local_sub _ _ _ (local_unchanged _ _ _ U3))). }
  intros status w3 (U3 & s & Hs & ->). pose proof (sub_trans _ _ _ _ S2 (local_sub _ _ _ (local_unchanged _ _ _ U3))) as S3.
  assert (rw_entries w3 = rw_entries w) as E3 by (rewrite (proj2 U3); congruence). rewrite E2, E1 in Hs.
  apply holds_bind, holds_look. rewrite E3.
  assert (forall w', sub (key p) w3 w' ->
    copied_tree (m_euid (rw_machine w)) (key source) (rw_entries w3) (key p) (rw_entries w') ->
    sub (key p) w w' /\ exists t, tree w' p = Some t /\ faithful (m_euid (rw_machine w)) (tree w source) t) as Hfin.
  { intros w' S' C'. split; [exact (sub_trans _ _ _ _ S3 S')|]. rewrite E3 in C'. apply copied_faithful; [by rewrite Hs|done]. }
  assert (forall (x : exn) w', sub (key p) w3 w' -> sub (key p) w w') as Hexn
    by (intros _ w' S'; exact (sub_trans _ _ _ _ S3 S')).
  assert (wf (rw_entries w3)) as Hw3 by (by rewrite E3).
  assert (reliable (rw_machine w3)) as Hr3 by (by rewrite (sub_machine _ _ _ S3)).
  assert (rw_entries w !! key p = None \/ exists d, rw_entries w !! key p = Some d /\ is_dir d = true
    /\ en_pinned d = false /\ forall n, rw_entries w !! (key p ++ [n]) = None) as Hdest.
  { destruct Hfresh as [Hn|(d & Ht & Hd & Hp & _)]; [left; by apply tree_None|right; exists d].
    unfold tree in Ht. destruct (rw_entries w !! key p) as [d'|] eqn:Ed; [|done].
    injection Ht as Ht. pose proof (lookup_subtree (key p) (rw_entries w)) as Hl. rewrite Ht in Hl.
    pose proof (Hl []) as Hl0. rewrite lookup_singleton_eq, app_nil_r, Ed in Hl0.
    split; [congruence|]. split; [done|]. split; [done|]. intros n. rewrite <- (Hl [n]). by apply lookup_singleton_ne. }
  case_bool_decide as Hk.
  - assert (seen source s = stat_of s) as Hseen by (apply seen_plain; by rewrite Hk).
    assert (is_dir s = true) as Hsd.
    { rewrite Hseen in Hk. cbn in Hk. unfold file_kind in Hk. unfold is_dir. by destruct (en_kind s). }
    apply holds_bind. eapply holds_mono; [apply read_directory_holds| |].
    2:{ intros x w4 U4. by apply (Hexn x), local_sub, local_unchanged. }
    intros names w4 [U4 ->]. pose proof (local_sub _ _ _ (local_unchanged (key p) _ _ U4)) as S4.
    destruct U4 as [M4 E4]. rewrite <- E4.
    assert (bounded (S (depth (rw_entries w))) (key source) (rw_entries w4)) as Hb.
    { rewrite E4, E3. intros r e He. apply depth_bounded in He. lia. }
    destruct Hdest as [Hn|(d & Hd & Hdd & Hdp & Hfree)].
    + assert (wf (rw_entries w4)) as Hw4 by (by rewrite E4).
      apply holds_bind. eapply holds_mono; [apply (copy_children_holds (depth (rw_entries w)) source p _ _
        (copy_entry_holds _) (children_good _ _ Hw4) (children_NoDup _ _) Hap)| |].
      * done.
      * by rewrite M4.
      * done.
      * intros n _. apply wf_below; [done|]. by rewrite E4, E3.
      * intros st w5 (S5 & Td & _ & _). rewrite E4, E3, Hn in Td. apply holds_bind.
        eapply holds_mono; [apply preserve_absent; by destruct (rw_entries w5 !! key p)|done|].
        intros x w6 L6. apply (Hexn x). exact (sub_trans _ _ _ _ S4 (sub_trans _ _ _ _ S5 (local_sub _ _ _ L6))).
      * intros x w5 S5. apply (Hexn x). exact (sub_trans _ _ _ _ S4 S5).
    + eapply holds_mono; [apply (copy_directory_holds (depth (rw_entries w)) source p _ _ w4 d s (copy_entry_holds _))| |];
        rewrite ?E4, ?M4, ?E3; try done.
      * by rewrite E4, E3 in Hb.
      * intros st w5 [S5 C5]. apply Hfin; [exact (sub_trans _ _ _ _ S4 S5)|].
        rewrite (sub_machine _ _ _ S3) in C5. by rewrite E3.
      * intros x w5 S5. apply (Hexn x). exact (sub_trans _ _ _ _ S4 S5).
  - destruct Hdest as [Hn|(d & Hd & Hdd & _ & _)].
    + eapply holds_mono; [apply (copy_entry_holds (depth (rw_entries w))); try done; rewrite E3;
        [apply depth_bounded|done]| |done].
      intros st w4 [S4 C4]. apply Hfin; [done|]. by rewrite (sub_machine _ _ _ S3) in C4.
    + eapply holds_mono; [eapply (copy_onto_directory _ source p); [by rewrite E3|done|]|done|done].
      rewrite E3, Hs. intros s' [= <-] Hseen. rewrite Hseen in Hk. cbn in Hk. unfold file_kind in Hk. unfold is_dir.
      by destruct (en_kind s).
Qed.

End copying_trees.

(** ** The laws hold *)

(** A machine on which what the guarantees rely on does not fail, and a well-formed file system. *)
Definition sound (m : Machine) (w : RW) : Prop := rw_machine w = m /\ reliable m /\ wf (rw_entries w).

Lemma step_only m ps w w' : step (map key ps) w w' -> only tree apart (sound m) ps w w'.
Proof.
  intros Hs. split.
  - intros (Hm & Hr & Hw). split; [by rewrite (step_machine _ _ _ Hs)|]. split; [done|]. by apply Hs.
  - intros q Hq. eapply step_tree; [exact Hs|]. clear Hs. induction Hq; constructor; done.
Qed.

Lemma unchanged_only m ps w w' : unchanged w w' -> only tree apart (sound m) ps w w'.
Proof. intros U. by apply step_only, step_unchanged. Qed.

#[export] Instance posix_laws (m : Machine) :
  RestoreLaws posix_operations tree apart fresh (faithful (m_euid m)) (sound m) quietly place.
Proof.
  split.
  - intros p q. apply incomparable_sym.
  - intros A f w Hf. eapply holds_mono; [apply Hf| |]; intros; by apply unchanged_only.
  - intros p w. eapply holds_mono; [apply exists_holds| |done]. intros b w' [U Hb].
    split; [by apply unchanged_only|]. split; intros Eb (Hm & Hr & _); specialize (Hb ltac:(rewrite Hm; intros n; apply Hr)).
    + unfold tree. destruct (rw_entries w !! key p); [done|congruence].
    + apply tree_None. destruct (rw_entries w !! key p); [congruence|done].
  - intros source p token w Ht. eapply holds_mono; [by apply quietly_space| |]; intros; by apply unchanged_only.
  - intros source p w Hp. eapply holds_mono; [by apply prepare_holds| |].
    + intros [] w' [Hs Hf]. split; [by apply step_only|]. intros (_ & _ & Hw). by apply Hf.
    + intros e w' [Hs Ht]. split; [by apply step_only|done].
  - intros p w Hp. eapply holds_mono; [by apply subvolume_holds| |].
    + intros [] w' [Hs Hf]. split; [by apply step_only|]. intros (_ & _ & Hw). by apply Hf.
    + intros e w' [Hs Ht]. split; [by apply step_only|done].
  - intros source p token progress w Ht Hp Hap Hfr (Hm & Hr & Hw).
    eapply holds_mono; [apply copy_and_verify_holds; [done..|by rewrite Hm|done|done]| |].
    + intros st w' [Hs Hf]. rewrite Hm in Hf. split; [by apply step_only, sub_step|done].
    + intros e w' Hs. by apply step_only, sub_step.
  - intros source p w Hap. eapply holds_mono; [by apply move_holds| |].
    + intros [] w' (Hs & Ht). split; [by apply step_only|done].
    + intros e w' [U Ht]. split; [by apply unchanged_only|done].
  - intros p w (Hm & Hr & Hw). eapply holds_mono; [apply remove_holds; [done|rewrite Hm; intros n; apply Hr]| |].
    + intros [] w' [Hs Ht]. split; [by apply step_only|done].
    + intros e w' [Hs Ht]. split; [by apply step_only|done].
Qed.

(** ** Theorems *)

(** C17.  A restore is a transaction.  On a file system on which looking does not fail, a restore
    that returns has put a copy of the source at the destination and has left nothing beside it (a
    drill leaves the destination as it was).  The copy has, entry by entry, the same kind and the
    same bytes; the twelve bits of the mode, the modification time and the extended attributes, but
    for [security.capability] of files when root restores; and the owner when root restores.  One
    that throws leaves the destination as it was and nothing beside it that was not there, with two
    exceptions.  It says that it could not roll back, and the old tree is then at the destination
    or beside it.  Or its own steps had moved the copy into place and failed only in the removal of
    the replaced tree ([ended_late]): then what that removal left of the old tree is back at the
    destination with nothing beside it, or the exception says that it could not roll back. *)
Theorem restore_transaction m plan token progress phase w :
  sound m w -> plan_apart (apart := apart) (place := place) plan ->
  callers_quiet (quiet := quietly) token progress phase ->
  match execute posix_operations plan token progress phase w with
  | (Ok result, w') =>
      rr_transaction_id result = pl_transaction_id plan
      /\ rr_drill result = bool_decide (pl_kind plan = Drill) /\ rr_committed result = negb (rr_drill result)
      /\ tree w' (pl_staging plan) = None /\ tree w' (pl_previous plan) = None
      /\ if rr_drill result then tree w' (pl_destination plan) = tree w (pl_destination plan)
         else exists t, tree w' (pl_destination plan) = Some t /\ faithful (m_euid m) (tree w (pl_source plan)) t
  | (Throw e, w') =>
      (tree w' (pl_destination plan) = tree w (pl_destination plan)
       /\ (tree w' (pl_staging plan) = None \/ tree w' (pl_staging plan) = tree w (pl_staging plan))
       /\ (tree w' (pl_previous plan) = None \/ tree w' (pl_previous plan) = tree w (pl_previous plan)))
      \/ (exists message, e = RestoreError RestoreErrorCode.RollbackIncomplete message)
         /\ (tree w' (pl_destination plan) = tree w (pl_destination plan)
             \/ tree w' (pl_previous plan) = tree w (pl_destination plan))
      \/ ended_late (operations := posix_operations) (tree := tree) (faithful := faithful (m_euid m))
           (sighted := sound m) plan token progress phase w e w'
  end.
Proof.
  intros Hs Hap Hq. pose proof (execute_holds (RestoreLaws0 := posix_laws m) plan token progress phase Hap Hq w Hs) as H.
  unfold holds in H. destruct (execute _ _ _ _ _ w) as [[result|e] w'].
  - destruct H as (H1 & H2 & H3 & H4). split; [done|]. split; [done|]. split; [done|].
    destruct (rr_drill result).
    + destruct H4 as (_ & ? & ? & ?). done.
    + destruct H4 as (t & (_ & ? & ? & ?) & ?). split; [done|]. split; [done|]. by exists t.
  - destruct H as [(H1 & H2 & H3)|[H|[[Hm H]|H]]].
    + left. auto.
    + left. destruct H as (_ & ? & ? & ?). auto.
    + right; left. split; [done|]. destruct H; auto.
    + right; right. exact H.
Qed.

(** C37.  When the removal of the replaced tree fails after the verified copy was moved into
    place, the restore takes the copy away again and puts what is left of the old tree at the
    destination: whatever the removal had deleted by then is lost together with the copy, nothing
    is left beside the destination, and the exception is that of the removal, not the one that
    says that the rollback is incomplete (which it says only when taking back fails as well). *)
Theorem late_failure_loses_data m plan token progress phase w w2 e1 w1 :
  sound m w -> plan_apart (apart := apart) (place := place) plan ->
  callers_quiet (quiet := quietly) token progress phase ->
  first_checks (operations := posix_operations) plan token w = (Ok false, w2) ->
  restore_steps posix_operations plan token progress phase (mkFlags false false false, w2)
    = (Throw e1, (mkFlags false true true, w1)) ->
  exists e w' t, execute posix_operations plan token progress phase w = (Throw e, w')
    /\ tree w1 (pl_destination plan) = Some t /\ faithful (m_euid m) (tree w (pl_source plan)) t
    /\ (e = e1 /\ tree w' (pl_destination plan) = tree w1 (pl_previous plan)
        /\ tree w' (pl_staging plan) = None /\ tree w' (pl_previous plan) = None
        \/ exists message, e = RestoreError RestoreErrorCode.RollbackIncomplete message).
Proof.
  intros Hs Hap Hq E2 E3.
  destruct (execute_late (RestoreLaws0 := posix_laws m) plan token progress phase Hap Hq w w2 e1 w1 Hs E2 E3)
    as (e & w' & t & He & Ht & Hf & H). exists e, w', t. split; [done|]. split; [done|]. split; [done|].
  destruct H as [(-> & _ & H1 & H2 & H3)|H]; [left; done|by right].
Qed.

Lemma execute_faithful m plan token progress phase w result w' :
  sound m w -> plan_apart (apart := apart) (place := place) plan ->
  callers_quiet (quiet := quietly) token progress phase -> pl_kind plan <> Drill ->
  execute posix_operations plan token progress phase w = (Ok result, w') ->
  exists t, tree w' (pl_destination plan) = Some t /\ faithful (m_euid m) (tree w (pl_source plan)) t.
Proof.
  intros Hs Hap Hq Hk E. pose proof (execute_holds (RestoreLaws0 := posix_laws m) plan token progress phase Hap Hq w Hs) as H.
  unfold holds in H. rewrite E in H. destruct H as (_ & Hd & _ & H). rewrite Hd, bool_decide_eq_false_2 in H by done.
  destruct H as (t & (_ & Ht & _) & Hf). by exists t.
Qed.

(** An entry of the source and its copy. *)
Lemma faithful_entry euid w p t r s :
  faithful euid (tree w p) t -> rw_entries w !! (key p ++ r) = Some s -> exists e, t !! r = Some e /\ copied euid s e.
Proof.
  intros (ts & Ht & Hc) Hs. unfold tree in Ht. destruct (rw_entries w !! key p) as [root|]; [|done]. injection Ht as <-.
  specialize (Hc r). cbn [app] in Hc. rewrite lookup_subtree, Hs in Hc. destruct (t !! r) as [e|]; [|done]. by exists e.
Qed.

(** A file with the set-user-ID bit cannot be restored by root: setting its owner clears the
    bit, and the check of the mode that follows refuses the copy, so that the restore of any tree
    with such a file fails. *)
Theorem setuid_restore_fails m plan token progress phase w r s data :
  sound m w -> plan_apart (apart := apart) (place := place) plan ->
  callers_quiet (quiet := quietly) token progress phase -> pl_kind plan <> Drill -> m_euid m = 0 ->
  rw_entries w !! (key (pl_source plan) ++ r) = Some s -> en_kind s = ERegular data ->
  Z.testbit (en_mode s) 11 = true ->
  exists e w', execute posix_operations plan token progress phase w = (Throw e, w').
Proof.
  intros Hs Hap Hq Hk H0 Hr Hd Hb. destruct (execute posix_operations plan token progress phase w) as [[result|x] w'] eqn:E; [exfalso|by do 2 eexists].
  destruct (execute_faithful _ _ _ _ _ _ _ _ Hs Hap Hq Hk E) as (t & _ & Hf).
  destruct (faithful_entry _ _ _ _ _ _ Hf Hr) as (e & _ & Hc & _ & Hm & _ & _ & _ & Hu). rewrite Hd in Hc.
  destruct (Hu H0) as [Hbit _]; [unfold is_dir; by rewrite Hc|].
  apply (f_equal (λ z, Z.testbit z 11)) in Hm. rewrite !Z.land_spec, Hb, Hbit in Hm. done.
Qed.

(** A restore by root loses the capabilities of files without a word: it sets the attribute
    before the owner, setting the owner drops it, and attributes are not checked. *)
Theorem capabilities_lost m plan token progress phase w result w' r s data value :
  sound m w -> plan_apart (apart := apart) (place := place) plan ->
  callers_quiet (quiet := quietly) token progress phase -> pl_kind plan <> Drill -> m_euid m = 0 ->
  rw_entries w !! (key (pl_source plan) ++ r) = Some s -> en_kind s = ERegular data ->
  ("security.capability", value) ∈ en_xattrs s ->
  execute posix_operations plan token progress phase w = (Ok result, w') ->
  exists t e, tree w' (pl_destination plan) = Some t /\ t !! r = Some e /\ en_kind e = ERegular data
    /\ forall v, ("security.capability", v) ∉ en_xattrs e.
Proof.
  intros Hs Hap Hq Hk H0 Hr Hd Hx E. destruct (execute_faithful _ _ _ _ _ _ _ _ Hs Hap Hq Hk E) as (t & Ht & Hf).
  destruct (faithful_entry _ _ _ _ _ _ Hf Hr) as (e & He & Hc & _ & _ & _ & _ & _ & Hu). rewrite Hd in Hc.
  exists t, e. split; [done|]. split; [done|]. split; [done|].
  destruct (Hu H0) as [_ Hcap]; [unfold is_dir; by rewrite Hc|]. rewrite Forall_forall in Hcap.
  intros v Hv. by apply (Hcap _ Hv).
Qed.

(** ** Checking a file system *)

Definition good_nameb (c : string) : bool := negb (str_empty c) && negb (str_contains "/" c) && negb (String.eqb c ".").

Fixpoint distinct (l : list string) : bool :=
  match l with
  | [] => true
  | x :: l => negb (existsb (String.eqb x) l) && distinct l
  end.

Lemma distinct_NoDup l : distinct l = true -> NoDup l.
Proof.
  induction l as [|x l IH]; cbn; [constructor|]. rewrite andb_true_iff, negb_true_iff. intros [Hx Hl].
  constructor; [|by apply IH]. intros Hin%list_elem_of_In. apply not_true_iff_false in Hx. apply Hx, existsb_exists.
  exists x. split; [done|]. apply String.eqb_refl.
Qed.

Definition wf_check (es : Entries) : bool :=
  forallb (λ x : Key * Entry,
    forallb good_nameb x.1
    && match x.1 with
       | [] => true
       | _ => match es !! removelast x.1 with Some d => is_dir d | None => false end
       end
    && distinct (map fst (en_xattrs x.2))) (map_to_list es).

Lemma wf_check_sound es : wf_check es = true -> wf es.
Proof.
  unfold wf_check. rewrite forallb_forall. intros H.
  assert (forall k e, es !! k = Some e -> forallb good_nameb k = true
    /\ match k with [] => true | _ => match es !! removelast k with Some d => is_dir d | None => false end end = true
    /\ NoDup (map fst (en_xattrs e))) as Hk.
  { intros k e He. specialize (H (k, e)). cbn [fst snd] in H. rewrite !andb_true_iff in H.
    destruct H as [[H1 H2] H3%distinct_NoDup]; [|done]. apply list_elem_of_In. by apply elem_of_map_to_list. }
  split.
  - intros k e [Hn _]%Hk. rewrite forallb_forall in Hn. apply Forall_forall. intros c Hc%list_elem_of_In%Hn.
    unfold good_nameb in Hc. rewrite !andb_true_iff, !negb_true_iff in Hc. destruct Hc as [[H1 H2] H3].
    apply String.eqb_neq in H3. by split; [split; [by intros ->|]|].
  - intros k n e (_ & Hp & _)%Hk. rewrite removelast_last in Hp. destruct (k ++ [n]) eqn:E; [by destruct k|].
    destruct (es !! k) as [d|]; [|done]. by exists d.
  - intros k e (_ & _ & Hx)%Hk. done.
Qed.

(** ** A directory that is replaced *)

Module RestoreExample.

Definition ex_dir (dev : Z) : Entry := mkEntry EDirectory 493 0 0 5 [] dev false.
Definition ex_file (data : string) (mode dev : Z) (xattrs : list (string * string)) : Entry :=
  mkEntry (ERegular data) mode 1000 1000 7 xattrs dev false.

Definition ex_entries (mode : Z) (xattrs : list (string * string)) : Entries := list_to_map [
  ([], ex_dir 1); (["snap"], ex_dir 2); (["snap"; "new"], ex_file "restored" mode 2 xattrs);
  (["srv"], ex_dir 1); (["srv"; "d"], ex_dir 1); (["srv"; "d"; "a"], ex_file "old a" 420 1 []);
  (["srv"; "d"; "b"], ex_file "old b" 420 1 [])].

Definition ex_machine (faults : nat -> Sys -> option Errno) : Machine :=
  mkMachine faults (λ _, 3%nat) (λ _, O) (λ _ s, s) (λ _ mode, mode) (λ _, 9) (λ _, None) (λ _, 1000) 0 0 18.

Definition ex_world (faults : nat -> Sys -> option Errno) (mode : Z) (xattrs : list (string * string)) : RW :=
  mkRW (ex_machine faults) (ex_entries mode xattrs) 0.

Definition ex_plan : RestorePlan :=
  mkPlan "t1" "s" "u" "/snap" "/srv/d" "/srv/.btrfs-backup-restore-t1.staging"
    "/srv/.btrfs-backup-restore-t1.previous" Files Replace true.

Definition ex_token : CancellationToken RW := λ w, (false, w).

Definition ex_run (faults : nat -> Sys -> option Errno) (mode : Z) (xattrs : list (string * string)) :
    res RestoreResult * RW :=
  execute posix_operations ex_plan ex_token None None (ex_world faults mode xattrs).

Definition no_faults (n : nat) (c : Sys) : option Errno := None.

Lemma ex_sound mode xattrs :
  wf_check (ex_entries mode xattrs) = true -> sound (ex_machine no_faults) (ex_world no_faults mode xattrs).
Proof.
  intros H. split; [reflexivity|]. split; [|exact (wf_check_sound _ H)].
  split; [reflexivity|]. split; [reflexivity|]. split; [reflexivity|]. discriminate.
Qed.

Lemma ex_apart : plan_apart (apart := apart) (place := place) ex_plan.
Proof.
  unfold plan_apart, apart, incomparable, place. split_and!; try (vm_compute; reflexivity). vm_compute. discriminate.
Qed.

Lemma ex_quiet : callers_quiet (quiet := quietly) ex_token None None.
Proof. split; [by intros w|]. by split. Qed.

Lemma restore_transaction_witness :
  exists result w', ex_run no_faults 420 [("user.a", "1")] = (Ok result, w')
    /\ exists t, tree w' "/srv/d" = Some t
       /\ faithful 0 (tree (ex_world no_faults 420 [("user.a", "1")]) "/snap") t.
Proof.
  pose proof (restore_transaction (ex_machine no_faults) ex_plan ex_token None None
    (ex_world no_faults 420 [("user.a", "1")])
    (ex_sound 420 [("user.a", "1")] ltac:(vm_compute; reflexivity)) ex_apart ex_quiet) as H.
  fold (ex_run no_faults 420 [("user.a", "1")]) in H.
  assert (match ex_run no_faults 420 [("user.a", "1")] with
          | (Ok r, _) => negb (rr_drill r) | _ => false end = true) as Hv by (vm_compute; reflexivity).
  destruct (ex_run no_faults 420 [("user.a", "1")]) as [[result|e] w']; [|discriminate Hv].
  exists result, w'. split; [reflexivity|]. apply negb_true_iff in Hv. rewrite Hv in H.
  destruct H as (_ & _ & _ & _ & _ & H). exact H.
Defined.

Lemma setuid_restore_fails_witness :
  exists e w', ex_run no_faults 2541 [] = (Throw e, w').
Proof.
  apply (setuid_restore_fails (ex_machine no_faults) ex_plan ex_token None None (ex_world no_faults 2541 []) ["new"]
    (ex_file "restored" 2541 2 []) "restored").
  - apply ex_sound. vm_compute. reflexivity.
  - exact ex_apart.
  - exact ex_quiet.
  - discriminate.
  - reflexivity.
  - vm_compute. reflexivity.
  - reflexivity.
  - reflexivity.
Defined.

Lemma capabilities_lost_witness :
  exists w' t e, tree w' "/srv/d" = Some t /\ t !! ["new"] = Some e /\ en_kind e = ERegular "restored"
    /\ forall v, ("security.capability", v) ∉ en_xattrs e.
Proof.
  destruct (ex_run no_faults 493 [("security.capability", "cap")]) as [[result|x] w'] eqn:E;
    [|exfalso; assert (is_ok (ex_run no_faults 493 [("security.capability", "cap")]).1 = true) as Hv
        by (vm_compute; reflexivity); rewrite E in Hv; discriminate Hv].
  exists w'.
  apply (capabilities_lost (ex_machine no_faults) ex_plan ex_token None None
    (ex_world no_faults 493 [("security.capability", "cap")]) result w' ["new"]
    (ex_file "restored" 493 2 [("security.capability", "cap")]) "restored" "cap").
  - apply ex_sound. vm_compute. reflexivity.
  - exact ex_apart.
  - exact ex_quiet.
  - discriminate.
  - reflexivity.
  - vm_compute. reflexivity.
  - reflexivity.
  - left.
  - exact E.
Defined.

(** One file of the replaced tree cannot be removed. *)
Definition one_stays (n : nat) (c : Sys) : option Errno :=
  match c with
  | SUnlink k => if bool_decide (k = ["srv"; ".btrfs-backup-restore-t1.previous"; "b"]) then Some EIO else None
  | _ => None
  end.

Lemma one_stays_sound : sound (ex_machine one_stays) (ex_world one_stays 420 []).
Proof.
  split; [reflexivity|]. split; [|apply wf_check_sound; vm_compute; reflexivity].
  split; [reflexivity|]. split; [reflexivity|]. split; [reflexivity|]. discriminate.
Qed.

(** Such a run: of the old tree one file could be removed and the other could not. *)
Example one_file_lost :
  exists message w', ex_run one_stays 420 [] = (Throw (RestoreError RestoreErrorCode.CleanupIncomplete message), w')
    /\ rw_entries (ex_world one_stays 420 []) !! ["srv"; "d"; "a"] = Some (ex_file "old a" 420 1 [])
    /\ rw_entries w' !! ["srv"; "d"; "a"] = None /\ rw_entries w' !! ["srv"; "d"; "new"] = None
    /\ is_Some (rw_entries w' !! ["srv"; "d"; "b"])
    /\ rw_entries w' !! ["srv"; ".btrfs-backup-restore-t1.previous"] = None
    /\ rw_entries w' !! ["srv"; ".btrfs-backup-restore-t1.staging"] = None.
Proof.
  do 2 eexists. split; [vm_compute; reflexivity|]. split_and!; try (vm_compute; reflexivity). vm_compute. by eexists.
Qed.

Lemma late_failure_loses_data_witness :
  exists e w' w1, ex_run one_stays 420 [] = (Throw e, w')
    /\ (tree w' "/srv/d" = tree w1 "/srv/.btrfs-backup-restore-t1.previous"
        \/ exists message, e = RestoreError RestoreErrorCode.RollbackIncomplete message).
Proof.
  set (w := ex_world one_stays 420 []).
  assert (match first_checks (operations := posix_operations) ex_plan ex_token w with
          | (Ok b, w2) =>
              negb b && match restore_steps posix_operations ex_plan ex_token None None (mkFlags false false false, w2) with
                        | (Throw _, (f, _)) => negb (fl_staging_created f) && fl_previous_moved f && fl_committed f
                        | _ => false
                        end
          | _ => false
          end = true) as Hv by (vm_compute; reflexivity).
  destruct (first_checks ex_plan ex_token w) as [[[]|e2] w2] eqn:E2; try discriminate Hv.
  cbn [negb andb] in Hv.
  destruct (restore_steps posix_operations ex_plan ex_token None None (mkFlags false false false, w2))
    as [[r|e1] [[[] [] []] w1]] eqn:E3; try discriminate Hv.
  destruct (late_failure_loses_data (ex_machine one_stays) ex_plan ex_token None None w w2 e1 w1
    one_stays_sound ex_apart ex_quiet E2 E3) as (e & w' & t & He & _ & _ & H).
  exists e, w', w1. split; [exact He|]. destruct H as [(_ & H & _)|H]; [left; exact H|right; exact H].
Defined.

(** The copy cannot be moved into place, and whether the replaced tree is there cannot be seen. *)
Definition blind_rollback (n : nat) (c : Sys) : option Errno :=
  match c with
  | SRename from _ => if String.eqb from "/srv/.btrfs-backup-restore-t1.staging" then Some EIO else None
  | SExists p => if (20 <? n)%nat && String.eqb p "/srv/.btrfs-backup-restore-t1.previous" then Some EIO else None
  | _ => None
  end.

(** A failure to look is taken for nothing being there: when it happens while the old tree is
    to be put back, the tree stays beside the destination and the restore reports the first error
    as if everything had been taken back. *)
Theorem unseen_tree_left_aside :
  exists message w', ex_run blind_rollback 420 [] = (Throw (RestoreError RestoreErrorCode.CopyFailed message), w')
    /\ is_Some (rw_entries (ex_world blind_rollback 420 []) !! ["srv"; "d"])
    /\ rw_entries w' !! ["srv"; "d"] = None
    /\ is_Some (rw_entries w' !! ["srv"; ".btrfs-backup-restore-t1.previous"; "a"]).
Proof.
  do 2 eexists. split; [vm_compute; reflexivity|].
  split; [vm_compute; by eexists|]. split; [vm_compute; reflexivity|]. vm_compute. by eexists.
Qed.

End RestoreExample.

(** Verification compares nothing when neither file can be opened: the loop does not run, the
    streams have failed but are not bad, and the files are taken for equal whatever they hold. *)
Theorem verification_skipped token source p w :
  (forall n q, m_faults (rw_machine w) n (SVerifyOpen q) <> None) ->
  (verify_regular_file token source p w).1 = Ok tt.
Proof.
  intros Hf.
  cut (holds (verify_regular_file token source p) w (λ _ _, True) (λ _ _, False)).
  { unfold holds. by destruct (verify_regular_file token source p w) as [[[]|e] w']. }
  unfold verify_regular_file.
  apply holds_bind, holds_bind, holds_sys. intros f1 ->. apply holds_look.
  apply holds_bind, holds_bind, holds_sys. intros f2 ->. apply holds_look.
  pose proof (Hf (rw_clock w) source) as H1. pose proof (Hf (rw_clock (called w)) p) as H2.
  destruct (m_faults (rw_machine w) (rw_clock w) (SVerifyOpen source)); [|done].
  change (rw_machine (called w)) with (rw_machine w).
  destruct (m_faults (rw_machine w) (rw_clock (called w)) (SVerifyOpen p)); [|done]. done.
Qed.

Lemma verification_skipped_witness :
  (verify_regular_file RestoreExample.ex_token "/snap/new" "/srv/d/a"
     (RestoreExample.ex_world (λ _ c, match c with SVerifyOpen _ => Some EIO | _ => None end) 420 [])).1 = Ok tt
  /\ file_data (RestoreExample.ex_entries 420 []) "/snap/new" <> file_data (RestoreExample.ex_entries 420 []) "/srv/d/a".
Proof. split; [apply verification_skipped; discriminate|vm_compute; discriminate]. Defined.
